(* ===== verification/_CoqProject ===== *)
-Q . S2P
Prelude.v
Bits.v
DataBuilder.v
DataBuilderSpec.v
CellMeta.v
Cell.v
RefsIter.v
Slice.v
SliceSpec.v
SliceScan.v
SliceScanSpec.v
Builder.v
BuilderSpec.v
Context.v
Pieces.v
DictLabel.v
DictLabelSpec.v
Dict.v
DictSpec.v
DictTheorems.v
BuilderTheorems.v
SliceTheorems.v
LabelTheorems.v
CellTheorems.v
DictKeys.v
DictBuild.v
DictModify.v
DictStack.v
DictModifyStep.v
DictBuildSpec.v
DictModifySpec.v
DictModifyCorrect.v
DictFind.v
DictIter.v
DictOrder.v
DictFindSpec.v
DictIterSpec.v
DictIterTheorems.v
DictUnion.v
DictSplit.v
DictSplitSpec.v
DictBulkTheorems.v
Num.v
NumSpec.v
VarUint248.v
VarUint248Spec.v
VarUint248Div.v
VarUint248Text.v
NumTheorems.v
DictTyped.v
DictTypedSpec.v
DictTypedTheorems.v
Aug.v
AugTheorems.v
Currency.v
CurrencyTheorems.v
Shard.v
ShardTheorems.v
Address.v
AddressTheorems.v
BocSer.v
Merkle.v
MerkleUpdate.v
BocDe.v
BocSafe.v
BocFill.v
BocRoundtrip.v
BocTheorems.v
Nodes.v
Tree.v
MerkleSpec.v
UpdateSpec.v
Walk.v
UpdateApply.v
MerkleStore.v
MerkleTheorems.v
Account.v
AccountTheorems.v
Message.v
MessageTheorems.v
