(* ===== verification/Prelude.v ===== *)
(** * Prelude: a verification library for the cell layer of tycho-types

    tycho-types builds, reads, stores and transforms trees of cells: nodes of up to
    1023 bits and four references, identified by their SHA-256 hashes.  On top of
    them come dictionaries (tries of cells), bags of cells (their byte format) and
    the TL-B models of a blockchain.  This library models the cell layer as it is
    written, bit by bit, and proves that it keeps its promises.

    ** The parts and where they are

    - [Prelude], [Bits]: results, machine integers with their wrap-around, lists;
      byte arrays as bit strings, big-endian integers.
    - [DataBuilder] ([CellDataBuilder] of [src/src/cell/builder.rs]) appends bits to a
      128-byte buffer; [Builder] ([CellBuilder], [CellRefsBuilder], the traits [Store]
      and [Load]) adds references and finalizes through a cell context.
      [DataBuilderSpec], [BuilderSpec] show that every store is an append to a pair of
      lists, or reports [CellOverflow]; [BuilderTheorems] has the claims.
    - [CellMeta] and [Cell] ([src/src/cell/mod.rs], [cell_impl/], [cell_context.rs]):
      level masks, descriptors, every kind of cell, virtualization,
      [CellParts::compute_hashes].  [Context] has the interface between what builds
      cells and what finalizes them, the class [ContextLaws], and shows that the empty
      context implements it.  [CellTheorems] has the claims.
    - [Slice], [SliceScan] ([src/src/cell/slice.rs]) read windows of a cell; [SliceSpec]
      and [SliceScanSpec] relate each read, scan and comparison to the list of bits of
      its window; [SliceTheorems] has the claims.
    - [DictLabel] and [Dict] ([src/src/dict/mod.rs], [ops/get.rs], [ops/insert.rs],
      [ops/remove.rs]), [DictFind] ([ops/find.rs]) and [DictIter] ([dict/raw.rs]) are the
      dictionaries.  [DictLabelSpec], [DictSpec] relate a dictionary to a
      trie and a trie to a map; [DictOrder] lists its entries in key order, the
      reference of [DictFindSpec], [DictIterSpec].  The claims are in
      [LabelTheorems], [DictTheorems], [DictIterTheorems] and [DictUnion].
    - [DictKeys] (the key types of [dict/mod.rs]), [DictBuild] ([ops/build.rs]),
      [DictModify] ([ops/modify.rs]) and [DictSplit] ([ops/split_merge.rs]) work on whole
      dictionaries.  [DictStack] says what a stack of finished subtrees stands for,
      [DictBuildSpec] and, through [DictModifyStep] and [DictModifySpec] (the walk and
      what it leaves behind), [DictModifyCorrect] follow it to the final root;
      [DictSplitSpec] has splitting and merging; the claims are in
      [DictBulkTheorems].
    - [DictTyped] ([dict/raw.rs], [dict/typed.rs]) has the dictionaries programs use,
      with keys of a fixed width or of a type, and their iterators.  [DictTypedSpec]
      states in the class [DictTypes] what it asks of the two types and relates a typed
      dictionary to a map of values; the claims are in [DictTypedTheorems].
    - [Aug] ([dict/aug.rs], the augmented parts of [dict/mod.rs], [ops/insert.rs],
      [ops/remove.rs] and [ops/find.rs], the extra of [models/shard/shard_extra.rs]) has the
      dictionaries that keep in every fork the combination of the extras below it.  The
      representation of [DictSpec] takes what a fork holds behind its children as a
      parameter, the class [ForkTail], and so do the walks, searches and iterators built
      on it; [AugTheorems] instantiates it, under the class [AugLaws] of what a type of
      extras promises, and has the claims.
    - [Num] ([src/src/num/mod.rs]) and [VarUint248], [VarUint248Text]
      ([src/src/num/varuint248.rs]) are the integers of the models.  [NumSpec],
      [VarUint248Spec] relate them to their values and encodings, [VarUint248Div] has
      the division; the claims are in [NumTheorems].
    - [Currency] ([src/src/models/currency.rs]) has the collections of currencies, typed
      dictionaries of 248-bit amounts; [CurrencyTheorems] relates them to maps of
      amounts and has the claims.
    - [Shard] ([src/src/models/block/block_id.rs], [shard_hashes.rs]) has the shards of a
      workchain, the ids of blocks, the description of a shard, the tree of cells of the
      shards of a workchain ([WorkchainShardHashes]) with its builder and the iterators over
      it, and the dictionary of the trees ([ShardHashes], [ShardsIter]).  [ShardTheorems]
      reads a shard as a path and such a tree of cells as a binary tree of descriptions,
      and has the claims.
    - [Address] ([src/src/models/message/address.rs]) has standard, variable and external
      addresses, their storage and the standard ones as keys; [AddressTheorems] reads an
      address as a path, so that it lies in a shard, and has the claims.
    - [Account] ([StorageStat] of [src/src/cell/mod.rs], [cell/lazy.rs],
      [models/account/mod.rs]) counts the distinct cells of trees, wraps values into lazy
      cells and has state inits, accounts and the entries of shards; the claims are in
      [AccountTheorems].
    - [Message] ([src/src/models/message/mod.rs]) has the infos of messages, internal and
      external, also relaxed, the layouts ([Layout.compute]), bodies and messages
      ([Store_Message], [Load_Message]).  [MessageTheorems] proves the claims for any info
      and body that keep the classes [InfoLaws] and [BodyLaws].
    - [BocSer] ([src/src/boc/ser.rs]) and [BocDe] ([src/src/boc/de.rs]) encode and decode
      bags of cells.  [BocFill] and [BocRoundtrip] follow an encoded cell through the
      decoder and show that what the builder makes can be stored; the claims are in [BocSafe] and [BocTheorems].
    - [Merkle] and [MerkleUpdate] ([src/src/merkle]) build, store and apply Merkle proofs
      and updates, [RefsIter] has the iterators over children they walk trees with.
      [Pieces] writes and reads cells whose data is a list of bytes; [Nodes] has
      the hashes of a cell level by level, what the finalizer gives a cell over children
      that agree with those of another, and pruned branches; [Tree] the trees of built
      cells.  [MerkleSpec] is the specification of the
      proof builder, a relation between a tree and its pruned forms, [UpdateSpec] shows
      that the applier inverts it; [Walk] that a walk reaches what it should and that the
      update builder keeps the way to what it cuts, [UpdateApply] joins them;
      [MerkleStore] follows a stored proof or update through the finalizer and back.
      The claims are in [MerkleTheorems].

    A builder is built into a cell ([build_ext]), a cell is read through a slice, the
    dictionaries use both, and bags of cells hand the parts they decode to the same
    [finalize_cell] as the builder.  The interfaces are [ContextLaws] (builder to
    dictionaries), [Codec] (a type's [Store] and [Load] are inverse), [KeyLaws] and
    [OrderedKey] (what a key type promises to a dictionary) and the representation
    predicate [rep] of dictionaries, with [AugLaws] for the extras.  [StaysInCell] (a value
    is read from the window it was found in) is what an optional part of a message asks of
    its type.

    ** How code becomes definitions

    A [u8], [u16], [u32], [u64] is a [Z]; additions the code does not check are written
    with their wrap-around ([u16 (a + b)]), as in a release build.  [Result] is
    [result]; a method on [&mut self] returns the new state beside its result.  [usize]
    is 64 bits wide.  Unsafe reads are list accesses; in [BocDe] a read outside of the
    buffer is a value of its own, [Undefined], and so is a write through the raw pointers
    of [VarUint248Text]; a division by zero there is [Panics].  A reference-counted cell
    is an immutable tree.  SHA-256, CRC32-C, the addresses of data and the writer of
    [encode_to_writer] are parameters, and so are the order of the hash map and the sort in
    [from_shards]; so is the comparison of the addresses of cells in
    [DictModify], of which the theorems ask that it is the equality of cells, and the
    macro that makes flags of a number ([BitFlags], the [bitflags] crate).  An
    [unwrap] of a step that cannot fail is an error there.

    ** Fuel

    Loops that are not structural get fuel, and theorems show that it is enough.
    Dictionary loops get one unit per key bit left, as each iteration consumes the bit
    of a branch at least.  The stack of segments has a segment per key bit at most.
    Collecting a bag gets the height of the tree as the depth of the recursion, and the
    number of cells and references of its expansion as the number of steps of the loop
    over the stack; so does the walk of a Merkle proof or update, and its recursions.
    The walk of a modification gets one unit per key bit and one more, the loop of
    [dict_merge] more than the entries of the right dictionary.  A loop over a typed
    dictionary ([for_entries]) needs more than its entries.  The search by extra gets one
    unit per key bit and one more.  The way to the next leaf of a tree of shards gets 61,
    as it goes through 60 forks at most, and the iterator over the trees of all workchains
    needs more than the workchains left.  The loop of the storage statistics gets a unit
    for each step of a walk through the expansion of its trees ([refs_fuel]).  The corrections of a quotient digit get 3 units, as the remainder grows by half a digit each time, and
    the loop of the decimal text 20, as 10000^20 exceeds 2^256.
    The bounds in the hypotheses: keys of [n] bits with
    [2 + len_bits n + n <= 1023] (the root label fits into a cell), cell depths up to
    65535, data lengths up to 64512 = 65535 - 1023 where a capacity check must not
    wrap, fewer than 2^32 cells in a bag.

    ** What the theorems show

    - Dictionaries: any sequence of operations behaves as on a finite map, the root
      cell depends on the map only, each operation is right on every represented
      dictionary, errors included; ordered searches and iterators give the entries in
      order; the union iterator joins two maps.  Building from sorted entries and
      modifying by sorted changes give the root cell that single operations give; a
      split dictionary merges back into itself.
    - Integers: round trips of the encodings, exact or saturating arithmetic, Euclidean
      division by digits, decimal text; where [+=], [checked_mul] and the parser go
      wrong.
    - Typed dictionaries: any sequence of calls behaves as on a finite map of values,
      searches and iterators give the typed entries in order.  Collections of
      currencies: addition, subtraction and clamping are by currency, with IntOverflow
      exactly when an amount leaves its range; addition is undone by subtraction.
    - Augmented dictionaries: lookups, insertions and removals behave as on a finite map,
      but a change is refused when the extras it leaves have no sum; the extra of the root
      is always the sum in key order, and the search by extra finds an entry when the
      flow can follow one.
    - Shards: the operations on prefixes are those of paths, but for the test for
      ancestors; the descriptions of shards in order are built into their tree exactly if
      they are its leaves, and the iterators over a tree yield its leaves and their blocks.
    - Addresses: every format is stored in the bits of its size (two more for an external
      address) and read back, standard ones as keys too; each account lies in one shard of
      its workchain.
    - Accounts and messages: the storage statistics count each distinct cell once and keep
      their limit; an account in a lazy cell and the entry that holds it are read back; a
      message is stored by the first layout that fits and read back with it, and is refused
      if nothing fits.
    - Labels: round trip, completeness of the reader, minimality of the writer.
    - Builders and slices: appends, windows, integer reads, round trip of built values;
      the word-wise scans and comparisons equal their definitions on bit lists; where
      the 16-bit capacity arithmetic and a missing offset let calls through.
    - Cells: level masks, descriptors, which parts finalize and to what hashes and
      depths, exotic cells, absent and virtual cells.
    - Bags of cells: the decoder never leaves its buffer, on any input; decoding an
      encoded bag gives its roots back; the encoders agree.
    - Merkle proofs and updates: a proof has the hash of its tree whatever is cut off,
      an update applied to the old tree gives the new one, with the old tree or with a
      storage; both are stored and loaded back.  The theorems are about trees of built
      cells that differ if their hashes do and lie at one Merkle depth each ([tree]);
      two lemmas show that the last condition is needed.

    ** Not modelled

    Big-integer stores and reads (num-bigint), the parallel builders and appliers of
    Merkle proofs and updates (threads of a third-party pool over shared maps), usage
    trees, the body of the new bounce format, the other blockchain models and the contract ABI; of the bulk operations
    on augmented dictionaries and of the construction of [ShardHashes] from shards of several
    workchains there are definitions, but no theorems; the derive macros (code generators),
    serde, hex and base64 wrappers, formatting of cells and random generation (input and
    output only); reference counting and memory layout. *)

From stdpp Require Export base option list list_numbers numbers tactics.
From Stdlib Require Export ZArith Lia Bool.

#[global] Open Scope Z_scope.

(** ** The error type of [src/src/error.rs] *)
Inductive Error : Type :=
| CellUnderflow
| CellOverflow
| UnexpectedExoticCell
| UnexpectedOrdinaryCell
| InvalidCell
| InvalidData
| InvalidTag
| EmptyProof
| DepthOverflow
| InvalidSignature
| InvalidPublicKey
| IntOverflow
| Cancelled
| Unbalanced.

#[global] Instance Error_eq_dec : EqDecision Error.
Proof. solve_decision. Defined.

(** ** Results: [Result<A, Error>], with [ok!] as monadic binding *)
Inductive result (A : Type) : Type :=
| Ok (a : A)
| Err (e : Error).
Arguments Ok {A} a.
Arguments Err {A} e.

#[global] Instance result_eq_dec {A} `{EqDecision A} : EqDecision (result A).
Proof. solve_decision. Defined.

Definition rbind {A B} (m : result A) (k : A -> result B) : result B :=
  match m with
  | Ok a => k a
  | Err e => Err e
  end.

Definition is_ok {A} (m : result A) : bool :=
  match m with Ok _ => true | Err _ => false end.

Declare Scope res_scope.
Delimit Scope res_scope with res.
Notation "'let!' x ':=' m 'in' k" := (rbind m (fun x => k))
  (at level 10, x pattern, m at level 100, k at level 200) : res_scope.
#[global] Open Scope res_scope.

Lemma rbind_ok {A B} (m : result A) (k : A -> result B) b :
  rbind m k = Ok b <-> exists a, m = Ok a /\ k a = Ok b.
Proof.
  destruct m; simpl; split; [eauto | by intros (? & [= ->] & ?) | done | by intros (? & ? & ?)].
Qed.

(** Opens every [let!] of a hypothesis [H : _ = Ok _]. *)
Ltac inv_bind H :=
  repeat match type of H with
  | rbind _ _ = Ok _ =>
      let a := fresh "a" in let E := fresh "E" in
      apply rbind_ok in H as (a & E & H)
  | Ok _ = Ok _ => injection H as H
  | Err _ = Ok _ => discriminate H
  end.

(** ** Machine integers: a [w]-bit unsigned integer is a [Z] in [0, 2^w) *)
Definition wrap (w x : Z) : Z := x mod 2 ^ w.
Definition u8 (x : Z) : Z := wrap 8 x.
Definition u16 (x : Z) : Z := wrap 16 x.
Definition u32 (x : Z) : Z := wrap 32 x.
Definition u64 (x : Z) : Z := wrap 64 x.
Definition u128 (x : Z) : Z := wrap 128 x.

(** [a.div_ceil(b)], [a.saturating_sub(b)] and [a.checked_sub(b)]. *)
Definition div_ceil (a b : Z) : Z := (a + b - 1) / b.
Definition saturating_sub (a b : Z) : Z := Z.max 0 (a - b).
Definition checked_sub (a b : Z) : option Z := if b <=? a then Some (a - b) else None.
(** Saturating addition of [w]-bit integers. *)
Definition saturating_add (w a b : Z) : Z := Z.min (2 ^ w - 1) (a + b).
(** [!x] on a [w]-bit integer. *)
Definition unot (w x : Z) : Z := 2 ^ w - 1 - x.
(** [x.leading_zeros()] and [x.trailing_zeros()] of a [w]-bit integer. *)
Definition leading_zeros (w x : Z) : Z := if x =? 0 then w else w - 1 - Z.log2 x.
Fixpoint count_zeros (n : nat) (x i : Z) : Z :=
  match n with
  | O => i
  | S n => if Z.testbit x i then i else count_zeros n x (i + 1)
  end.
Definition trailing_zeros (w x : Z) : Z := count_zeros (Z.to_nat w) x 0.
Definition b2z (b : bool) : Z := if b then 1 else 0.

(** [lia] reasons about division and remainder everywhere in this development;
    [dlia] also opens the arithmetic helpers above. *)
#[global] Ltac Zify.zify_post_hook ::= Z.div_mod_to_equations.
Ltac dlia := unfold div_ceil, saturating_sub in *; lia.

(** Decides a property of every integer of a small range by evaluation. *)
Lemma Zrange_forall (P : Z -> bool) (n : Z) :
  forallb P (seqZ 0 n) = true -> forall x, 0 <= x < n -> P x = true.
Proof.
  intros H x Hx. rewrite forallb_forall in H. apply H.
  apply list_elem_of_In, elem_of_seqZ. lia.
Qed.

Lemma wrap_small w x : 0 <= x < 2 ^ w -> wrap w x = x.
Proof. intros. by apply Z.mod_small. Qed.

Lemma wrap_range w x : 0 <= w -> 0 <= wrap w x < 2 ^ w.
Proof. intros. apply Z.mod_pos_bound. by apply Z.pow_pos_nonneg. Qed.

Lemma u16_small x : 0 <= x < 65536 -> u16 x = x.
Proof. intros. by apply wrap_small. Qed.

Lemma u8_small x : 0 <= x < 256 -> u8 x = x.
Proof. intros. by apply wrap_small. Qed.

Lemma testbit_wrap w x k :
  0 <= w -> Z.testbit (wrap w x) k = (k <? w) && Z.testbit x k.
Proof.
  intros. destruct (Z.ltb_spec k 0).
  { rewrite !Z.testbit_neg_r by lia. symmetry. apply andb_false_r. }
  unfold wrap. destruct (Z.ltb_spec k w).
  - by rewrite Z.mod_pow2_bits_low.
  - rewrite Z.mod_pow2_bits_high; [done | lia].
Qed.

Lemma testbit_shiftl x n k :
  0 <= n -> Z.testbit (Z.shiftl x n) k = Z.testbit x (k - n).
Proof.
  intros. destruct (Z.ltb_spec k 0).
  - by rewrite !Z.testbit_neg_r by lia.
  - by rewrite Z.shiftl_spec.
Qed.

Lemma testbit_high w x k : 0 <= x < 2 ^ w -> w <= k -> 0 <= w -> Z.testbit x k = false.
Proof.
  intros Hx Hk Hw. rewrite <- (wrap_small w x) by done.
  rewrite testbit_wrap by lia. destruct (Z.ltb_spec k w); [lia | done].
Qed.

Lemma testbit_unot w x k :
  0 <= w -> 0 <= x < 2 ^ w -> 0 <= k < w ->
  Z.testbit (unot w x) k = negb (Z.testbit x k).
Proof.
  intros Hw Hx Hk. unfold unot.
  replace (2 ^ w - 1 - x) with (Z.ldiff (Z.ones w) x).
  - rewrite Z.ldiff_spec, Z.ones_spec_low by lia. done.
  - rewrite <- Z.sub_nocarry_ldiff.
    + rewrite Z.ones_equiv. lia.
    + apply Z.bits_inj'. intros n Hn. rewrite Z.ldiff_spec, Z.bits_0.
      destruct (Z.ltb_spec n w).
      * rewrite Z.ones_spec_low by lia. simpl. apply andb_false_r.
      * rewrite (testbit_high w) by lia. done.
Qed.

Lemma bits_bound w x :
  0 <= w -> 0 <= x -> (forall k, w <= k -> Z.testbit x k = false) -> x < 2 ^ w.
Proof.
  intros Hw Hx H.
  assert (wrap w x = x) as <-; [| apply wrap_range; lia].
  apply Z.bits_inj'. intros k Hk. rewrite testbit_wrap by lia.
  destruct (Z.ltb_spec k w); [done |]. symmetry. simpl. by apply H.
Qed.

Lemma lor_range w x y :
  0 <= w -> 0 <= x < 2 ^ w -> 0 <= y < 2 ^ w -> 0 <= Z.lor x y < 2 ^ w.
Proof.
  intros Hw Hx Hy.
  assert (0 <= Z.lor x y) as H0 by (apply Z.lor_nonneg; lia).
  split; [done |]. apply bits_bound; [done..|].
  intros k Hk. rewrite Z.lor_spec, !(testbit_high w) by lia. done.
Qed.

Lemma land_range w x y :
  0 <= w -> 0 <= x < 2 ^ w -> 0 <= y -> 0 <= Z.land x y < 2 ^ w.
Proof.
  intros Hw Hx Hy.
  assert (0 <= Z.land x y) as H0 by (apply Z.land_nonneg; lia).
  split; [done |]. apply bits_bound; [done..|].
  intros k Hk. rewrite Z.land_spec, (testbit_high w x) by lia. done.
Qed.

Lemma shiftr_range w x k : 0 <= w -> 0 <= k -> 0 <= x < 2 ^ w -> 0 <= Z.shiftr x k < 2 ^ w.
Proof.
  intros Hw Hk Hx.
  assert (0 <= Z.shiftr x k) by (apply Z.shiftr_nonneg; lia).
  split; [done |]. apply bits_bound; [done..|].
  intros i Hi. rewrite Z.shiftr_spec, (testbit_high w) by lia. done.
Qed.

(** Case analysis on the boolean comparisons of the goal. *)
Ltac zcases :=
  repeat match goal with
  | |- context [Z.ltb ?a ?b] => destruct (Z.ltb_spec a b)
  | |- context [Z.leb ?a ?b] => destruct (Z.leb_spec a b)
  | |- context [Z.eqb ?a ?b] => destruct (Z.eqb_spec a b)
  end.

(** Pushes [Z.testbit] through the bitwise operations. *)
Ltac tb :=
  unfold u8, u16, u32, u64, u128 in *;
  repeat first
    [ rewrite Z.lor_spec | rewrite Z.land_spec | rewrite Z.lxor_spec
    | rewrite testbit_wrap by lia
    | rewrite Z.shiftr_spec by lia | rewrite testbit_shiftl by lia ].
