(* ===== verification/Bits.v ===== *)
(** * Bits: byte arrays, the bit streams they hold, and big-endian integers

    The cell layer keeps its data in byte arrays and addresses it bit by bit:
    bit [i] of an array is bit [7 - i % 8] of byte [i / 8].  This file defines
    that view ([bit_at], [bits_from]), the array accesses the unsafe code
    performs ([byte_at], [set_byte], [copy_bytes]) and big-endian integers
    ([to_be_bytes], [from_be_bytes]), with the lemmas that say what each of
    them does to single bits. *)

From S2P Require Import Prelude.

(** ** Bytes of an array *)
Definition is_byte (b : Z) : Prop := 0 <= b < 256.

(** [*ptr.add(i)]; the development proves the accesses it models in range. *)
Definition byte_at (l : list Z) (i : Z) : Z := default 0 (l !! Z.to_nat i).

(** [*ptr.add(i) = v] *)
Definition set_byte (l : list Z) (i v : Z) : list Z := <[Z.to_nat i := v]> l.

(** [copy_nonoverlapping(src, dst.add(q), n)] *)
Definition copy_bytes (dst : list Z) (q : Z) (src : list Z) (n : Z) : list Z :=
  take (Z.to_nat q) dst ++ take (Z.to_nat n) src ++ drop (Z.to_nat (q + n)) dst.

(** [&l[q..q + n]] *)
Definition sub_bytes (l : list Z) (q n : Z) : list Z :=
  take (Z.to_nat n) (drop (Z.to_nat q) l).

Definition zlen {A} (l : list A) : Z := Z.of_nat (length l).

(** ** Bits of an array *)
Definition bit_at (l : list Z) (i : Z) : bool :=
  Z.testbit (byte_at l (i / 8)) (7 - i mod 8).

(** The [n] bits of [l] that start at bit [s]. *)
Definition bits_from (l : list Z) (s n : Z) : list bool := bit_at l <$> seqZ s n.

(** The [n] low bits of [v], most significant first. *)
Definition uint_bits (n v : Z) : list bool :=
  (fun i => Z.testbit v (n - 1 - i)) <$> seqZ 0 n.

(** The number a bit string denotes, most significant bit first. *)
Definition bits_uint (l : list bool) : Z :=
  foldl (fun acc (b : bool) => 2 * acc + b2z b) 0 l.

(** ** Big-endian integers *)
Definition from_be_bytes (l : list Z) : Z := foldl (fun acc b => acc * 256 + b) 0 l.

(** [v.to_be_bytes()] of an [n]-byte integer *)
Definition to_be_bytes (n : Z) (v : Z) : list Z :=
  (fun i => u8 (Z.shiftr v (8 * (n - 1 - i)))) <$> seqZ 0 n.

(** The bits of [l] packed into [n] bytes, padded with zeros. *)
Definition pack (n : Z) (l : list bool) : list Z :=
  (fun q => bits_uint ((fun k => default false (l !! Z.to_nat (8 * q + k))) <$> seqZ 0 8))
    <$> seqZ 0 n.

#[global] Arguments to_be_bytes : simpl never.
#[global] Arguments from_be_bytes : simpl never.
#[global] Arguments pack : simpl never.
#[global] Arguments byte_at : simpl never.
#[global] Arguments set_byte : simpl never.
#[global] Arguments sub_bytes : simpl never.
#[global] Arguments copy_bytes : simpl never.
#[global] Arguments bits_from : simpl never.
#[global] Arguments uint_bits : simpl never.

(** ** Lemmas on bytes *)

Lemma zlen_nonneg {A} (l : list A) : 0 <= zlen l.
Proof. unfold zlen. lia. Qed.

Lemma length_zlen {A} (l : list A) : length l = Z.to_nat (zlen l).
Proof. unfold zlen. lia. Qed.

Lemma zlen_app {A} (l k : list A) : zlen (l ++ k) = zlen l + zlen k.
Proof. unfold zlen. rewrite length_app. lia. Qed.

Lemma zlen_snoc {A} (l : list A) x : zlen (l ++ [x]) = zlen l + 1.
Proof. by rewrite zlen_app. Qed.

Lemma byte_at_set l i j v :
  0 <= i < zlen l -> 0 <= j ->
  byte_at (set_byte l i v) j = if j =? i then v else byte_at l j.
Proof.
  unfold zlen, byte_at, set_byte. intros Hi Hj. destruct (Z.eqb_spec j i) as [->|Hne].
  - by rewrite list_lookup_insert_eq by lia.
  - by rewrite list_lookup_insert_ne by lia.
Qed.

Lemma zlen_set l i v : zlen (set_byte l i v) = zlen l.
Proof. unfold zlen, set_byte. by rewrite length_insert. Qed.

Lemma zlen_copy dst q src n :
  0 <= q -> 0 <= n -> q + n <= zlen dst -> n <= zlen src ->
  zlen (copy_bytes dst q src n) = zlen dst.
Proof.
  unfold zlen, copy_bytes. intros. rewrite !length_app, !length_take, length_drop. lia.
Qed.

Lemma byte_at_copy dst q src n i :
  0 <= q -> 0 <= n -> q + n <= zlen dst -> n <= zlen src -> 0 <= i ->
  byte_at (copy_bytes dst q src n) i =
    if (q <=? i) && (i <? q + n) then byte_at src (i - q) else byte_at dst i.
Proof.
  unfold zlen, byte_at, copy_bytes. intros Hq Hn Hd Hs Hi.
  destruct (Z.leb_spec q i); simpl.
  - rewrite lookup_app_r by (rewrite length_take; lia).
    rewrite length_take, Nat.min_l by lia.
    destruct (Z.ltb_spec i (q + n)); simpl.
    + rewrite lookup_app_l by (rewrite length_take; lia).
      rewrite lookup_take_lt by lia. do 2 f_equal. lia.
    + rewrite lookup_app_r by (rewrite length_take; lia).
      rewrite length_take, Nat.min_l by lia. rewrite lookup_drop. do 2 f_equal. lia.
  - rewrite lookup_app_l by (rewrite length_take; lia).
    by rewrite lookup_take_lt by lia.
Qed.

Lemma zlen_sub l q n :
  0 <= q -> 0 <= n -> q + n <= zlen l -> zlen (sub_bytes l q n) = n.
Proof. unfold zlen, sub_bytes. intros. rewrite length_take, length_drop. lia. Qed.

Lemma byte_at_sub l q n i :
  0 <= q -> 0 <= i < n -> byte_at (sub_bytes l q n) i = byte_at l (q + i).
Proof.
  unfold byte_at, sub_bytes. intros Hq Hi.
  rewrite lookup_take_lt, lookup_drop by lia. do 2 f_equal. lia.
Qed.

Lemma byte_at_range l i : Forall is_byte l -> is_byte (byte_at l i).
Proof.
  unfold byte_at. intros H. destruct (l !! Z.to_nat i) eqn:E; simpl.
  - by eapply Forall_lookup_1 in H.
  - unfold is_byte. lia.
Qed.

Lemma byte_at_app_l l k i : 0 <= i < zlen l -> byte_at (l ++ k) i = byte_at l i.
Proof. unfold zlen, byte_at. intros. by rewrite lookup_app_l by lia. Qed.

Lemma byte_at_app_r l k i : zlen l <= i -> byte_at (l ++ k) i = byte_at k (i - zlen l).
Proof.
  unfold zlen, byte_at. intros. rewrite lookup_app_r by lia. do 2 f_equal. lia.
Qed.

Lemma set_byte_bytes l i v : Forall is_byte l -> is_byte v -> Forall is_byte (set_byte l i v).
Proof. intros. by apply Forall_insert. Qed.

Lemma copy_bytes_bytes dst q src n :
  Forall is_byte dst -> Forall is_byte src -> Forall is_byte (copy_bytes dst q src n).
Proof.
  intros. unfold copy_bytes. rewrite !Forall_app. split_and!.
  - by apply Forall_take.
  - by apply Forall_take.
  - by apply Forall_drop.
Qed.

Lemma sub_bytes_bytes l q n : Forall is_byte l -> Forall is_byte (sub_bytes l q n).
Proof. intros. unfold sub_bytes. by apply Forall_take, Forall_drop. Qed.

(** The rest of [uN] values that are written as bytes. *)
Lemma u8_byte x : is_byte (u8 x).
Proof. unfold is_byte, u8. by apply wrap_range. Qed.

Lemma lor_byte x y : is_byte x -> is_byte y -> is_byte (Z.lor x y).
Proof. unfold is_byte. intros. apply (lor_range 8); lia. Qed.

Lemma land_byte x y : is_byte x -> 0 <= y -> is_byte (Z.land x y).
Proof. unfold is_byte. intros. apply (land_range 8); lia. Qed.

Lemma shiftr_byte x k : is_byte x -> 0 <= k -> is_byte (Z.shiftr x k).
Proof. unfold is_byte. intros. apply (shiftr_range 8); lia. Qed.

(** ** Lemmas on bits *)

Lemma bit_at_split l q k : 0 <= k < 8 -> bit_at l (8 * q + k) = Z.testbit (byte_at l q) (7 - k).
Proof.
  intros. unfold bit_at. f_equal; [f_equal|]; dlia.
Qed.

Lemma bit_at_in l i j :
  8 * i <= j < 8 * i + 8 -> bit_at l j = Z.testbit (byte_at l i) (7 - (j - 8 * i)).
Proof. intros. unfold bit_at. f_equal; [f_equal|]; lia. Qed.

(** Two byte arrays of the same length with the same bits are the same. *)
Lemma bytes_ext l k :
  Forall is_byte l -> Forall is_byte k -> zlen l = zlen k ->
  (forall i, 0 <= i < 8 * zlen l -> bit_at l i = bit_at k i) -> l = k.
Proof.
  unfold zlen. intros Hl Hk Hlen H. apply list_eq_same_length with (length l); [lia..|].
  intros i x y Hi Hx Hy.
  assert (is_byte x) as Bx by (by eapply Forall_lookup_1 in Hl).
  assert (is_byte y) as By by (by eapply Forall_lookup_1 in Hk).
  apply Z.bits_inj'. intros n Hn. destruct (Z.ltb_spec n 8).
  - specialize (H (8 * Z.of_nat i + (7 - n)) ltac:(lia)).
    rewrite !bit_at_split in H by lia. unfold byte_at in H.
    rewrite !Nat2Z.id, Hx, Hy in H. simpl in H. by replace (7 - (7 - n)) with n in H by lia.
  - by rewrite !(testbit_high 8) by (unfold is_byte in *; lia).
Qed.

Lemma length_bits_from l s n : length (bits_from l s n) = Z.to_nat n.
Proof. unfold bits_from. by rewrite length_fmap, length_seqZ. Qed.

Lemma zlen_bits_from l s n : 0 <= n -> zlen (bits_from l s n) = n.
Proof. unfold zlen. rewrite length_bits_from. lia. Qed.

Lemma length_uint_bits n v : length (uint_bits n v) = Z.to_nat n.
Proof. unfold uint_bits. by rewrite length_fmap, length_seqZ. Qed.

Lemma zlen_uint_bits n v : 0 <= n -> zlen (uint_bits n v) = n.
Proof. unfold zlen. rewrite length_uint_bits. lia. Qed.

Lemma lookup_bits_from l s n i :
  (i < Z.to_nat n)%nat -> bits_from l s n !! i = Some (bit_at l (s + Z.of_nat i)).
Proof.
  intros. unfold bits_from. by rewrite list_lookup_fmap, lookup_seqZ_lt by lia.
Qed.

Lemma lookup_uint_bits n v i :
  (i < Z.to_nat n)%nat -> uint_bits n v !! i = Some (Z.testbit v (n - 1 - Z.of_nat i)).
Proof.
  intros. unfold uint_bits. by rewrite list_lookup_fmap, lookup_seqZ_lt by lia.
Qed.

(** Extensionality for bit strings given by a function of the index. *)
Lemma fmap_seqZ_ext {A} (f g : Z -> A) s t n :
  (forall i, 0 <= i < n -> f (s + i) = g (t + i)) -> f <$> seqZ s n = g <$> seqZ t n.
Proof.
  intros H. apply list_eq. intros i. rewrite !list_lookup_fmap.
  destruct (Nat.ltb_spec i (Z.to_nat n)).
  - rewrite !lookup_seqZ_lt by lia. simpl. f_equal. apply H. lia.
  - rewrite !lookup_seqZ_ge by lia. done.
Qed.

Lemma bits_from_ext l k s t n :
  (forall i, 0 <= i < n -> bit_at l (s + i) = bit_at k (t + i)) ->
  bits_from l s n = bits_from k t n.
Proof. apply fmap_seqZ_ext. Qed.

Lemma bits_from_uint l s n v :
  (forall i, 0 <= i < n -> bit_at l (s + i) = Z.testbit v (n - 1 - i)) ->
  bits_from l s n = uint_bits n v.
Proof. intros H. unfold bits_from, uint_bits. apply fmap_seqZ_ext. apply H. Qed.

Lemma uint_bits_ext n v w :
  (forall i, 0 <= i < n -> Z.testbit v i = Z.testbit w i) -> uint_bits n v = uint_bits n w.
Proof. intros H. unfold uint_bits. apply fmap_seqZ_ext. intros. apply H. lia. Qed.

Lemma bits_from_app l s n m :
  0 <= n -> 0 <= m -> bits_from l s (n + m) = bits_from l s n ++ bits_from l (s + n) m.
Proof. intros. unfold bits_from. by rewrite seqZ_app, fmap_app by done. Qed.

Lemma bits_from_take l s n m : 0 <= m <= n -> take (Z.to_nat m) (bits_from l s n) = bits_from l s m.
Proof.
  intros. replace n with (m + (n - m)) by lia. rewrite bits_from_app by lia.
  rewrite take_app_le by (rewrite length_bits_from; lia).
  rewrite take_ge; [done |]. rewrite length_bits_from; lia.
Qed.

Lemma bits_from_drop l s n m :
  0 <= m <= n -> drop (Z.to_nat m) (bits_from l s n) = bits_from l (s + m) (n - m).
Proof.
  intros. replace n with (m + (n - m)) at 1 by lia. rewrite bits_from_app by lia.
  rewrite drop_app_ge by (rewrite length_bits_from; lia).
  rewrite length_bits_from, Nat.sub_diag. done.
Qed.

Lemma bits_from_nil l s n : n <= 0 -> bits_from l s n = [].
Proof. intros. unfold bits_from. by rewrite seqZ_nil by lia. Qed.

Lemma bits_from_cons l s n :
  0 < n -> bits_from l s n = bit_at l s :: bits_from l (s + 1) (n - 1).
Proof.
  intros. unfold bits_from. rewrite seqZ_cons by lia. simpl. do 3 f_equal; lia.
Qed.

(** *** Big-endian integers *)

Lemma length_to_be_bytes n v : 0 <= n -> zlen (to_be_bytes n v) = n.
Proof. intros. unfold zlen, to_be_bytes. rewrite length_fmap, length_seqZ. lia. Qed.

Lemma to_be_bytes_bytes n v : Forall is_byte (to_be_bytes n v).
Proof. unfold to_be_bytes. apply Forall_fmap, Forall_true. intros. apply u8_byte. Qed.

Lemma byte_at_to_be n v i :
  0 <= i < n -> byte_at (to_be_bytes n v) i = u8 (Z.shiftr v (8 * (n - 1 - i))).
Proof.
  intros. unfold byte_at, to_be_bytes.
  rewrite list_lookup_fmap, lookup_seqZ_lt by lia. simpl. do 3 f_equal. lia.
Qed.

Lemma bit_at_to_be n v i :
  0 <= i < 8 * n -> bit_at (to_be_bytes n v) i = Z.testbit v (8 * n - 1 - i).
Proof.
  intros. unfold bit_at. rewrite byte_at_to_be by dlia. tb.
  zcases; [simpl; f_equal; dlia | dlia].
Qed.

Lemma from_be_bytes_snoc l b : from_be_bytes (l ++ [b]) = from_be_bytes l * 256 + b.
Proof. unfold from_be_bytes. by rewrite foldl_app. Qed.

Lemma from_be_bytes_range l : Forall is_byte l -> 0 <= from_be_bytes l < 2 ^ (8 * zlen l).
Proof.
  induction l as [|b l IH] using rev_ind; [done |]. intros [Hl Hb]%Forall_app.
  rewrite Forall_singleton in Hb. rewrite from_be_bytes_snoc, zlen_app. unfold zlen at 2. simpl.
  specialize (IH Hl). replace (8 * (zlen l + Z.of_nat 1)) with (8 * zlen l + 8) by lia.
  rewrite Z.pow_add_r by (pose proof (zlen_nonneg l); lia). change (2 ^ 8) with 256. unfold is_byte in Hb.
  lia.
Qed.

Lemma testbit_muladd a b k :
  is_byte b -> 0 <= k ->
  Z.testbit (a * 256 + b) k = if k <? 8 then Z.testbit b k else Z.testbit a (k - 8).
Proof.
  intros Hb Hk. replace (a * 256 + b) with (Z.lor (Z.shiftl a 8) b).
  - rewrite Z.lor_spec, Z.shiftl_spec by lia. destruct (Z.ltb_spec k 8).
    + by rewrite (Z.testbit_neg_r _ (k - 8)) by lia.
    + rewrite (testbit_high 8 b) by (unfold is_byte in *; lia). apply orb_false_r.
  - rewrite <- Z.add_nocarry_lor.
    + rewrite Z.shiftl_mul_pow2 by lia. lia.
    + apply Z.bits_inj'. intros i Hi. rewrite Z.land_spec, Z.bits_0.
      destruct (Z.ltb_spec i 8).
      * rewrite Z.shiftl_spec, Z.testbit_neg_r by lia. done.
      * rewrite (testbit_high 8 b) by (unfold is_byte in *; lia). apply andb_false_r.
Qed.

Lemma testbit_from_be l k :
  Forall is_byte l -> 0 <= k < 8 * zlen l ->
  Z.testbit (from_be_bytes l) k = bit_at l (8 * zlen l - 1 - k).
Proof.
  revert k. induction l as [|b l IH] using rev_ind; [unfold zlen; simpl; lia |].
  intros k [Hl Hb]%Forall_app Hk. rewrite Forall_singleton in Hb.
  rewrite from_be_bytes_snoc, testbit_muladd by (done || lia).
  rewrite zlen_app in *. unfold zlen at 2 in Hk. unfold zlen at 2. simpl in *.
  pose proof (zlen_nonneg l). unfold bit_at. zcases.
  - rewrite byte_at_app_r by dlia.
    replace (_ - zlen l) with 0 by dlia. unfold byte_at. simpl. f_equal. dlia.
  - rewrite IH by (done || lia). unfold bit_at. rewrite byte_at_app_l by dlia.
    f_equal; [f_equal|]; dlia.
Qed.

Lemma testbit_from_be_any n l k :
  Forall is_byte l -> zlen l = n ->
  Z.testbit (from_be_bytes l) k =
    (0 <=? k) && (k <? 8 * n) && bit_at l (8 * n - 1 - k).
Proof.
  intros Hl <-. pose proof (from_be_bytes_range l Hl). pose proof (zlen_nonneg l).
  destruct (Z.leb_spec 0 k); [destruct (Z.ltb_spec k (8 * zlen l))|]; simpl.
  - apply testbit_from_be; [done | lia].
  - apply (testbit_high (8 * zlen l)); lia.
  - by rewrite Z.testbit_neg_r by lia.
Qed.

Lemma bit_at_byte l i b k :
  l !! Z.to_nat i = Some b -> 0 <= i -> 0 <= k < 8 -> Z.testbit b k = bit_at l (8 * i + 7 - k).
Proof.
  intros E Hi Hk. rewrite (bit_at_in l i) by lia. unfold byte_at. rewrite E. simpl. f_equal. lia.
Qed.

Lemma from_to_be n v :
  0 <= n -> 0 <= v < 2 ^ (8 * n) -> from_be_bytes (to_be_bytes n v) = v.
Proof.
  intros Hn Hv. pose proof (length_to_be_bytes n v Hn) as Hlen.
  pose proof (from_be_bytes_range _ (to_be_bytes_bytes n v)) as Hr. rewrite Hlen in Hr.
  apply Z.bits_inj'. intros k Hk. destruct (Z.ltb_spec k (8 * n)).
  - rewrite testbit_from_be by (apply to_be_bytes_bytes || lia). rewrite Hlen.
    rewrite bit_at_to_be by lia. f_equal. lia.
  - by rewrite !(testbit_high (8 * n)) by lia.
Qed.

(** *** Bit strings and the numbers they denote *)

Lemma bits_uint_snoc l b : bits_uint (l ++ [b]) = 2 * bits_uint l + b2z b.
Proof. unfold bits_uint. by rewrite foldl_app. Qed.

Lemma bits_uint_range l : 0 <= bits_uint l < 2 ^ zlen l.
Proof.
  induction l as [|b l IH] using rev_ind; [done |].
  rewrite bits_uint_snoc, zlen_app. unfold zlen at 2. simpl.
  pose proof (zlen_nonneg l). rewrite Z.pow_add_r by lia. destruct b; simpl; lia.
Qed.

Lemma testbit_bits_uint l k :
  0 <= k < zlen l ->
  Z.testbit (bits_uint l) k = default false (l !! Z.to_nat (zlen l - 1 - k)).
Proof.
  revert k. induction l as [|b l IH] using rev_ind; [unfold zlen; simpl; lia |].
  intros k Hk. rewrite bits_uint_snoc. rewrite zlen_app in *. unfold zlen at 2 in Hk.
  unfold zlen at 2. simpl in *. pose proof (zlen_nonneg l).
  destruct (decide (k = 0)) as [->|].
  - replace (b2z b) with (Z.b2z b) by (by destruct b). rewrite Z.testbit_0_r.
    rewrite lookup_app_r by (unfold zlen in *; lia).
    replace (_ - length l)%nat with 0%nat by (unfold zlen in *; lia). done.
  - replace k with (Z.succ (k - 1)) by lia.
    replace (b2z b) with (Z.b2z b) by (by destruct b). rewrite Z.testbit_succ_r by lia.
    rewrite IH by lia. rewrite lookup_app_l by (unfold zlen in *; lia). do 2 f_equal. lia.
Qed.

Lemma uint_bits_uint l : uint_bits (zlen l) (bits_uint l) = l.
Proof.
  apply list_eq. intros i. destruct (Nat.ltb_spec i (length l)).
  - rewrite lookup_uint_bits by (unfold zlen; lia).
    rewrite testbit_bits_uint by (unfold zlen; lia).
    replace (Z.to_nat _) with i by (unfold zlen; lia).
    by destruct (lookup_lt_is_Some_2 l i) as [x ->].
  - rewrite (lookup_ge_None_2 l i) by lia. apply lookup_ge_None_2.
    rewrite length_uint_bits. unfold zlen. lia.
Qed.

Lemma bits_uint_bits n v : 0 <= n -> 0 <= v < 2 ^ n -> bits_uint (uint_bits n v) = v.
Proof.
  intros Hn Hv. pose proof (bits_uint_range (uint_bits n v)) as Hr.
  rewrite zlen_uint_bits in Hr by done.
  apply Z.bits_inj'. intros k Hk. destruct (Z.ltb_spec k n).
  - rewrite testbit_bits_uint by (rewrite zlen_uint_bits; lia).
    rewrite lookup_uint_bits by (rewrite zlen_uint_bits; lia). simpl.
    rewrite zlen_uint_bits by lia. f_equal. lia.
  - by rewrite !(testbit_high n) by lia.
Qed.

(** A number whose bits are those of the stream is the number the stream denotes. *)
Lemma uint_of_bits x l s n :
  0 <= n -> 0 <= x < 2 ^ n ->
  (forall i, 0 <= i < n -> Z.testbit x i = bit_at l (s + (n - 1 - i))) ->
  x = bits_uint (bits_from l s n).
Proof.
  intros Hn Hx H. rewrite <- (bits_uint_bits n x) by done. f_equal.
  symmetry. apply bits_from_uint. intros i Hi. rewrite H by lia. f_equal. lia.
Qed.

(** The same, with the range given by the high bits. *)
Lemma uint_of_all_bits x l s n :
  0 <= n ->
  (forall i, 0 <= i -> Z.testbit x i = if i <? n then bit_at l (s + (n - 1 - i)) else false) ->
  x = bits_uint (bits_from l s n).
Proof.
  intros Hn H. pose proof (bits_uint_range (bits_from l s n)) as Hr.
  rewrite zlen_bits_from in Hr by done.
  apply Z.bits_inj'. intros k Hk. rewrite H by done. zcases.
  - rewrite testbit_bits_uint by (rewrite zlen_bits_from; lia).
    rewrite zlen_bits_from, lookup_bits_from by lia. simpl. f_equal. lia.
  - by rewrite (testbit_high n) by lia.
Qed.

Lemma zlen_pack n l : 0 <= n -> zlen (pack n l) = n.
Proof. intros. unfold zlen, pack. rewrite length_fmap, length_seqZ. lia. Qed.

Lemma byte_at_pack n l q :
  0 <= q < n ->
  byte_at (pack n l) q =
    bits_uint ((fun k => default false (l !! Z.to_nat (8 * q + k))) <$> seqZ 0 8).
Proof.
  intros. unfold byte_at, pack. rewrite list_lookup_fmap, lookup_seqZ_lt by lia. simpl.
  repeat f_equal; lia.
Qed.

Lemma pack_bytes n l : Forall is_byte (pack n l).
Proof.
  unfold pack. apply Forall_fmap, Forall_true. intros q. unfold compose, is_byte.
  pose proof (bits_uint_range
    ((fun k => default false (l !! Z.to_nat (8 * q + k))) <$> seqZ 0 8)) as H.
  unfold zlen in H. rewrite length_fmap, length_seqZ in H. done.
Qed.

Lemma bit_at_pack n l i :
  0 <= i < 8 * n -> bit_at (pack n l) i = default false (l !! Z.to_nat i).
Proof.
  intros Hi. unfold bit_at. rewrite byte_at_pack by lia.
  rewrite testbit_bits_uint; unfold zlen; rewrite length_fmap, length_seqZ; [|lia].
  rewrite list_lookup_fmap, lookup_seqZ_lt by lia. simpl. do 3 f_equal. lia.
Qed.

Lemma bits_from_pack n l : zlen l <= 8 * n -> bits_from (pack n l) 0 (zlen l) = l.
Proof.
  intros Hn. apply list_eq. intros i. destruct (Nat.ltb_spec i (length l)).
  - rewrite lookup_bits_from by (unfold zlen; lia).
    rewrite bit_at_pack by (unfold zlen in *; lia).
    replace (Z.to_nat _) with i by lia. by destruct (lookup_lt_is_Some_2 l i) as [x ->].
  - rewrite !lookup_ge_None_2; [done | lia |]. rewrite length_bits_from. unfold zlen. lia.
Qed.

Lemma pack_bits_from l : Forall is_byte l -> pack (zlen l) (bits_from l 0 (8 * zlen l)) = l.
Proof.
  intros Hl. pose proof (zlen_nonneg l).
  apply bytes_ext; [apply pack_bytes | done | by apply zlen_pack |].
  intros i Hi. rewrite zlen_pack in Hi by done. rewrite bit_at_pack by lia.
  rewrite lookup_bits_from by lia. simpl. f_equal. lia.
Qed.

(** A byte array whose bits are those of [l], then zeros, is [l] packed. *)
Lemma pack_eq d n l :
  0 <= n -> zlen d = n -> Forall is_byte d ->
  (forall i, 0 <= i < 8 * n -> bit_at d i = default false (l !! Z.to_nat i)) -> d = pack n l.
Proof.
  intros Hn Hd Hb H. apply bytes_ext; [done | apply pack_bytes | by rewrite zlen_pack |].
  rewrite Hd. intros i Hi. by rewrite bit_at_pack, H by done.
Qed.

(** *** What the array operations do to single bits *)

Lemma bit_at_set l q v i :
  0 <= q < zlen l -> 0 <= i ->
  bit_at (set_byte l q v) i = if i / 8 =? q then Z.testbit v (7 - i mod 8) else bit_at l i.
Proof. intros. unfold bit_at. rewrite byte_at_set by lia. by zcases. Qed.

Lemma bit_at_or l q v i :
  0 <= q < zlen l -> 0 <= i ->
  bit_at (set_byte l q (Z.lor (byte_at l q) v)) i =
    bit_at l i || ((i / 8 =? q) && Z.testbit v (7 - i mod 8)).
Proof.
  intros. rewrite bit_at_set by lia. unfold bit_at. destruct (Z.eqb_spec (i / 8) q) as [->|].
  - by rewrite Z.lor_spec.
  - by rewrite orb_false_r.
Qed.

Lemma bit_at_and l q v i :
  0 <= q < zlen l -> 0 <= i ->
  bit_at (set_byte l q (Z.land (byte_at l q) v)) i =
    bit_at l i && (negb (i / 8 =? q) || Z.testbit v (7 - i mod 8)).
Proof.
  intros. rewrite bit_at_set by lia. unfold bit_at. destruct (Z.eqb_spec (i / 8) q) as [->|].
  - by rewrite Z.land_spec.
  - by rewrite andb_true_r.
Qed.

Lemma bit_at_copy dst q src n i :
  0 <= q -> 0 <= n -> q + n <= zlen dst -> n <= zlen src -> 0 <= i ->
  bit_at (copy_bytes dst q src n) i =
    if (8 * q <=? i) && (i <? 8 * (q + n)) then bit_at src (i - 8 * q) else bit_at dst i.
Proof.
  intros. unfold bit_at. rewrite byte_at_copy by lia.
  replace (q <=? i / 8) with (8 * q <=? i) by (zcases; lia).
  replace (i / 8 <? q + n) with (i <? 8 * (q + n)) by (zcases; lia).
  zcases; simpl; [|done..]. f_equal; [f_equal|]; lia.
Qed.

Lemma bit_at_sub l q n i :
  0 <= q -> 0 <= i < 8 * n -> bit_at (sub_bytes l q n) i = bit_at l (8 * q + i).
Proof.
  intros. unfold bit_at. rewrite byte_at_sub by lia. f_equal; [f_equal|]; lia.
Qed.

(** The mask [0xff << k] of a byte keeps the bits from [k] on. *)
Lemma testbit_ff_shl k j : 0 <= k <= 8 -> 0 <= j < 8 -> Z.testbit (u8 (Z.shiftl 0xff k)) j = (k <=? j).
Proof.
  intros. tb. change 0xff with (Z.ones 8).
  destruct (Z.leb_spec k j).
  - rewrite Z.ones_spec_low by lia. zcases; [done | lia].
  - rewrite Z.testbit_neg_r by lia. apply andb_false_r.
Qed.

(** Rewrites [bit_at] of the array operations of the goal. *)
Ltac bits :=
  repeat first
    [ rewrite bit_at_or by (rewrite ?zlen_set; lia)
    | rewrite bit_at_and by (rewrite ?zlen_set; lia)
    | rewrite bit_at_set by (rewrite ?zlen_set; lia)
    | rewrite bit_at_copy by
        (rewrite ?zlen_copy, ?zlen_set, ?length_to_be_bytes by (rewrite ?zlen_set; lia); lia)
    | rewrite bit_at_to_be by lia ].

(** Closes [Z.testbit v j = Z.testbit v k] and the cases where a bit is out of range. *)
Ltac bit_eq :=
  simpl; rewrite ?orb_false_r, ?andb_true_r, ?andb_false_r;
  first
    [ done | lia | f_equal; lia
    | rewrite Z.testbit_neg_r by lia; done
    | f_equal; f_equal; lia ].

(** Case analysis on all the index comparisons of a goal about single bits;
    [v] is the [w]-bit value whose high bits are known to be zero. *)
Ltac bit_cases w v :=
  repeat progress (simpl; rewrite ?orb_false_r, ?andb_false_r, ?andb_true_r; bits; tb; zcases);
  try bit_eq; rewrite ?(testbit_high w v) by lia; try bit_eq.
