(* ===== verification/DataBuilder.v ===== *)
(** * DataBuilder: [CellDataBuilder] of [src/src/cell/builder.rs]

    The bit-packing half of the cell builder.  The first part transcribes the
    byte-level code (shifts, masks, unaligned copies); the second part states
    what a builder promises, an append-only bit string of at most 1023 bits
    ([append]), and proves that every store operation refines it. *)

From S2P Require Import Prelude Bits.

(** [cell::MAX_BIT_LEN] *)
Definition MAX_BIT_LEN : Z := 1023.

(** [src/src/cell/builder.rs]: [struct CellDataBuilder] *)
Record CellDataBuilder := mkDataBuilder {
  data : list Z;      (* [u8; 128] *)
  bit_len : Z;        (* u16 *)
}.

#[global] Instance CellDataBuilder_eq_dec : EqDecision CellDataBuilder.
Proof. solve_decision. Defined.

(** [CellDataBuilder::new], also [Default::default] *)
Definition data_new : CellDataBuilder :=
  {| data := replicate 128 0; bit_len := 0 |}.

(** [ALL_ONES_CELL.data()] of [src/src/cell/cell_impl/mod.rs] *)
Definition ALL_ONES_CELL_DATA : list Z := replicate 128 255.

(** [spare_capacity_bits] *)
Definition spare_capacity_bits (b : CellDataBuilder) : Z := u16 (MAX_BIT_LEN - bit_len b).

(** [has_capacity_bits] *)
Definition has_capacity_bits (b : CellDataBuilder) (bits : Z) : bool :=
  u16 (bit_len b + bits) <=? MAX_BIT_LEN.

(** [clear_bits] *)
Definition clear_bits (b : CellDataBuilder) : CellDataBuilder :=
  {| data := replicate 128 0; bit_len := 0 |}.

(** [rewind_bits] *)
Definition rewind_bits (b : CellDataBuilder) (bits : Z) : result CellDataBuilder :=
  if bits =? 0 then Ok b else
  match checked_sub (bit_len b) bits with
  | None => Err CellUnderflow
  | Some new_bit_len =>
      let q := new_bit_len / 8 in
      let r := new_bit_len mod 8 in
      let '(d, ptr, bits) :=
        if negb (r =? 0) then
          let shift := 8 - r in
          (set_byte (data b) q (Z.land (byte_at (data b) q) (u8 (Z.shiftl 0xff shift))),
           q + 1, saturating_sub bits shift)
        else (data b, q, bits) in
      let n := div_ceil bits 8 in
      Ok {| data := copy_bytes d ptr (replicate (Z.to_nat n) 0) n;
            bit_len := new_bit_len |}
  end.

(** [store_zeros] *)
Definition store_zeros (b : CellDataBuilder) (bits : Z) : result CellDataBuilder :=
  if u16 (bit_len b + bits) <=? MAX_BIT_LEN then
    Ok {| data := data b; bit_len := u16 (bit_len b + bits) |}
  else Err CellOverflow.

(** [store_bit_zero] *)
Definition store_bit_zero (b : CellDataBuilder) : result CellDataBuilder :=
  let fits := bit_len b <? MAX_BIT_LEN in
  let b' := {| data := data b; bit_len := u16 (bit_len b + b2z fits) |} in
  if fits then Ok b' else Err CellOverflow.

(** [store_bit_one] *)
Definition store_bit_one (b : CellDataBuilder) : result CellDataBuilder :=
  if bit_len b <? MAX_BIT_LEN then
    let q := bit_len b / 8 in
    let r := bit_len b mod 8 in
    Ok {| data := set_byte (data b) q (Z.lor (byte_at (data b) q) (Z.shiftl 1 (7 - r)));
          bit_len := u16 (bit_len b + 1) |}
  else Err CellOverflow.

(** [store_bit] *)
Definition store_bit (b : CellDataBuilder) (value : bool) : result CellDataBuilder :=
  if value then store_bit_one b else store_bit_zero b.

(** [store_u8] *)
Definition store_u8 (b : CellDataBuilder) (value : Z) : result CellDataBuilder :=
  if u16 (bit_len b + 8) <=? MAX_BIT_LEN then
    let q := bit_len b / 8 in
    let r := bit_len b mod 8 in
    let d :=
      if r =? 0 then set_byte (data b) q value
      else
        let d := set_byte (data b) q (Z.lor (byte_at (data b) q) (Z.shiftr value r)) in
        set_byte d (q + 1) (u8 (Z.shiftl value (8 - r))) in
    Ok {| data := d; bit_len := u16 (bit_len b + 8) |}
  else Err CellOverflow.

(** The macro [impl_store_uint!] for an integer of [bytes] bytes, [bits] bits. *)
Definition impl_store_uint (bytes bits : Z) (b : CellDataBuilder) (value : Z)
    : result CellDataBuilder :=
  if u16 (bit_len b + bits) <=? MAX_BIT_LEN then
    let q := bit_len b / 8 in
    let r := bit_len b mod 8 in
    let d :=
      if r =? 0 then copy_bytes (data b) q (to_be_bytes bytes value) bytes
      else
        let d := set_byte (data b) q
          (Z.lor (byte_at (data b) q) (u8 (Z.shiftr value (bits - 8 + r)))) in
        copy_bytes d (q + 1) (to_be_bytes bytes (wrap bits (Z.shiftl value (8 - r)))) bytes in
    Ok {| data := d; bit_len := u16 (bit_len b + bits) |}
  else Err CellOverflow.

(** [store_u16], [store_u32], [store_u64], [store_u128] *)
Definition store_u16 : CellDataBuilder -> Z -> result CellDataBuilder := impl_store_uint 2 16.
Definition store_u32 : CellDataBuilder -> Z -> result CellDataBuilder := impl_store_uint 4 32.
Definition store_u64 : CellDataBuilder -> Z -> result CellDataBuilder := impl_store_uint 8 64.
Definition store_u128 : CellDataBuilder -> Z -> result CellDataBuilder := impl_store_uint 16 128.

(** [store_u256]; [value] is the [[u8; 32]] array. *)
Definition store_u256 (b : CellDataBuilder) (value : list Z) : result CellDataBuilder :=
  if u16 (bit_len b + 256) <=? MAX_BIT_LEN then
    let q := bit_len b / 8 in
    let r := bit_len b mod 8 in
    let d :=
      if r =? 0 then copy_bytes (data b) q value 32
      else
        let hi := from_be_bytes (sub_bytes value 0 16) in
        let lo := from_be_bytes (sub_bytes value 16 16) in
        let shift := 8 - r in
        let d := set_byte (data b) q
          (Z.lor (byte_at (data b) q) (u8 (Z.shiftr hi (128 - shift)))) in
        let hi' := to_be_bytes 16 (Z.lor (u128 (Z.shiftl hi shift)) (Z.shiftr lo (128 - shift))) in
        let lo' := to_be_bytes 16 (u128 (Z.shiftl lo shift)) in
        copy_bytes (copy_bytes d (q + 1) hi' 16) (q + 17) lo' 16 in
    Ok {| data := d; bit_len := u16 (bit_len b + 256) |}
  else Err CellOverflow.

(** [store_small_uint] *)
Definition store_small_uint (b : CellDataBuilder) (value bits : Z) : result CellDataBuilder :=
  if bits =? 0 then Ok b else
  if u16 (bit_len b + bits) <=? MAX_BIT_LEN then
    let '(len, bits) := match checked_sub bits 8 with
                        | Some offset => (u16 (bit_len b + offset), 8)
                        | None => (bit_len b, bits)
                        end in
    let value := u8 (Z.shiftl value (8 - bits)) in
    let q := len / 8 in
    let r := len mod 8 in
    let d :=
      if r =? 0 then set_byte (data b) q value
      else
        let d := set_byte (data b) q (Z.lor (byte_at (data b) q) (Z.shiftr value r)) in
        if 8 <? bits + r then set_byte d (q + 1) (u8 (Z.shiftl value (8 - r))) else d in
    Ok {| data := d; bit_len := u16 (len + bits) |}
  else Err CellOverflow.

(** [store_uint] *)
Definition store_uint (b : CellDataBuilder) (value bits : Z) : result CellDataBuilder :=
  if bits =? 0 then Ok b else
  if u16 (bit_len b + bits) <=? MAX_BIT_LEN then
    let '(len, bits) := match checked_sub bits 64 with
                        | Some offset => (u16 (bit_len b + offset), 64)
                        | None => (bit_len b, bits)
                        end in
    let value := u64 (Z.shiftl value (64 - bits)) in
    let q := len / 8 in
    let r := len mod 8 in
    let d :=
      if r =? 0 then
        let byte_len := div_ceil bits 8 in
        copy_bytes (data b) q (to_be_bytes 8 value) byte_len
      else
        let shift := 8 - r in
        let d := set_byte (data b) q
          (Z.lor (byte_at (data b) q) (u8 (Z.shiftr value (64 - shift)))) in
        match checked_sub bits shift with
        | Some rest =>
            if 0 <? rest then
              let byte_len := div_ceil rest 8 in
              copy_bytes d (q + 1) (to_be_bytes 8 (u64 (Z.shiftl value shift))) byte_len
            else d
        | None => d
        end in
    Ok {| data := d; bit_len := u16 (len + bits) |}
  else Err CellOverflow.

(** The copy loop of the free function [store_raw] (unaligned case), from value
    byte [i] on, [n] iterations. *)
Fixpoint store_raw_loop (n : nat) (d value : list Z) (q r i : Z) : list Z :=
  match n with
  | O => d
  | S n =>
      let v := byte_at value i in
      let d := set_byte d (q + i) (Z.lor (byte_at d (q + i)) (Z.shiftr v r)) in
      let d := set_byte d (q + i + 1) (u8 (Z.shiftl v (8 - r))) in
      store_raw_loop n d value q r (i + 1)
  end.

(** The free function [store_raw] *)
Definition store_raw_impl (d : list Z) (len : Z) (value : list Z) (bits : Z)
    : result (list Z * Z) :=
  if u16 (len + bits) <=? MAX_BIT_LEN then
    let max_bit_len := u16 (zlen value * 8) in
    let '(len, bits) := match checked_sub bits max_bit_len with
                        | Some offset => (u16 (len + offset), max_bit_len)
                        | None => (len, bits)
                        end in
    if bits =? 0 then Ok (d, len) else
    let q := len / 8 in
    let r := len mod 8 in
    let d :=
      if r =? 0 then
        let byte_len := div_ceil bits 8 in
        let d := copy_bytes d q value byte_len in
        let bits_r := bits mod 8 in
        if negb (bits_r =? 0) then
          set_byte d (q + byte_len - 1)
            (Z.land (byte_at d (q + byte_len - 1)) (u8 (Z.shiftl 0xff (8 - bits_r))))
        else d
      else
        let byte_len := div_ceil (bits + r) 8 - 1 in
        let value_len := div_ceil bits 8 in
        let d := store_raw_loop (Z.to_nat byte_len) d value q r 0 in
        let ptr := q + byte_len in
        let d :=
          if byte_len <? value_len then
            set_byte d ptr (Z.lor (byte_at d ptr) (Z.shiftr (byte_at value byte_len) r))
          else d in
        let bits_r := (r + bits) mod 8 in
        if negb (bits_r =? 0) then
          set_byte d ptr (Z.land (byte_at d ptr) (u8 (Z.shiftl 0xff (8 - bits_r))))
        else d in
    Ok (d, u16 (len + bits))
  else Err CellOverflow.

(** [CellDataBuilder::store_raw] *)
Definition store_raw (b : CellDataBuilder) (value : list Z) (bits : Z) : result CellDataBuilder :=
  let! (d, len) := store_raw_impl (data b) (bit_len b) value bits in
  Ok {| data := d; bit_len := len |}.

(** [CellDataBuilder::from_raw_data] *)
Definition data_from_raw_data (value : list Z) (bits : Z) : result CellDataBuilder :=
  store_raw data_new value bits.

(** [store_ones] *)
Definition store_ones (b : CellDataBuilder) (bits : Z) : result CellDataBuilder :=
  store_raw b ALL_ONES_CELL_DATA bits.

(** [prepend_raw] *)
Definition prepend_raw (b : CellDataBuilder) (value : list Z) (bits : Z) : result CellDataBuilder :=
  if bits =? 0 then Ok b else
  if u16 (bit_len b + bits) <=? MAX_BIT_LEN then
    let! (d, len) := store_raw_impl (replicate 128 0) 0 value bits in
    let! (d, len) := store_raw_impl d len (data b) (bit_len b) in
    Ok {| data := d; bit_len := len |}
  else Err CellOverflow.

(** ** What a builder promises: an append-only bit string

    [wf] is the type invariant of [CellDataBuilder]; [contents] the bit string
    it holds; [of_bits] the unique well-formed builder with given contents; and
    [append] the specification of every store operation. *)

Definition wf (b : CellDataBuilder) : Prop :=
  zlen (data b) = 128 /\ Forall is_byte (data b) /\ 0 <= bit_len b <= MAX_BIT_LEN /\
  forall i, bit_len b <= i < 1024 -> bit_at (data b) i = false.

Definition contents (b : CellDataBuilder) : list bool := bits_from (data b) 0 (bit_len b).

Definition of_bits (l : list bool) : CellDataBuilder :=
  {| data := pack 128 l; bit_len := zlen l |}.

Definition append (b : CellDataBuilder) (l : list bool) : result CellDataBuilder :=
  if bit_len b + zlen l <=? MAX_BIT_LEN then Ok (of_bits (contents b ++ l))
  else Err CellOverflow.

Lemma zlen_contents b : wf b -> zlen (contents b) = bit_len b.
Proof. intros (_ & _ & ? & _). unfold contents. apply zlen_bits_from. lia. Qed.

Lemma of_bits_wf l : zlen l <= MAX_BIT_LEN -> wf (of_bits l).
Proof.
  intros Hl. unfold MAX_BIT_LEN in *. pose proof (zlen_nonneg l). split_and!; simpl.
  - by apply zlen_pack.
  - apply pack_bytes.
  - lia.
  - unfold MAX_BIT_LEN; lia.
  - intros i Hi. rewrite bit_at_pack by lia.
    rewrite lookup_ge_None_2; [done | unfold zlen in *; lia].
Qed.

Lemma contents_of_bits l : zlen l <= MAX_BIT_LEN -> contents (of_bits l) = l.
Proof. intros. unfold contents. simpl. apply bits_from_pack. unfold MAX_BIT_LEN in *. lia. Qed.

(** A builder with the invariant is determined by its contents. *)
Lemma of_bits_contents b : wf b -> of_bits (contents b) = b.
Proof.
  intros Hb. pose proof (zlen_contents b Hb) as Hlen. destruct Hb as (H128 & Hbytes & Hr & Hz).
  unfold of_bits. rewrite Hlen. destruct b as [d n]; simpl in *. f_equal.
  unfold MAX_BIT_LEN in *. apply bytes_ext; [apply pack_bytes | done | by rewrite zlen_pack |].
  rewrite zlen_pack by lia. intros i Hi. rewrite bit_at_pack by lia. unfold contents; simpl.
  destruct (Z.ltb_spec i n).
  - rewrite lookup_bits_from by lia. simpl. f_equal. lia.
  - rewrite lookup_ge_None_2; [by rewrite Hz by lia | rewrite length_bits_from; lia].
Qed.

Lemma contents_inj b c : wf b -> wf c -> contents b = contents c -> b = c.
Proof.
  intros Hb Hc E. by rewrite <- (of_bits_contents b), <- (of_bits_contents c), E.
Qed.

Lemma append_wf b l c : wf b -> append b l = Ok c -> wf c /\ contents c = contents b ++ l.
Proof.
  unfold append. intros Hb. destruct (Z.leb_spec (bit_len b + zlen l) MAX_BIT_LEN); [|done].
  intros [= <-]. assert (zlen (contents b ++ l) <= MAX_BIT_LEN)
    by (rewrite zlen_app, zlen_contents by done; lia).
  split; [by apply of_bits_wf | by apply contents_of_bits].
Qed.

Lemma append_nil b : wf b -> append b [] = Ok b.
Proof.
  intros Hb. unfold append. rewrite app_nil_r, of_bits_contents by done.
  destruct Hb as (_ & _ & ? & _). change (zlen []) with 0. zcases; [done | lia].
Qed.

(** Two appends in a row are one. *)
Lemma append_append b l k :
  wf b -> (let! c := append b l in append c k) = append b (l ++ k).
Proof.
  intros Hb. destruct (append b l) as [c|e] eqn:E; simpl.
  - destruct (append_wf _ _ _ Hb E) as [Hc Ec].
    unfold append. rewrite Ec, app_assoc, zlen_app.
    pose proof (zlen_contents _ Hc) as Hl. rewrite Ec, zlen_app, zlen_contents in Hl by done.
    by replace (bit_len c + zlen k) with (bit_len b + (zlen l + zlen k)) by lia.
  - unfold append in *. rewrite zlen_app. pose proof (zlen_nonneg k).
    destruct (Z.leb_spec (bit_len b + zlen l) MAX_BIT_LEN); [done|]. injection E as <-.
    zcases; [lia | done].
Qed.

(** ** Proof support: a byte array extended by a stream of bits *)

(** [d] is [old] up to bit [L], then [n] bits of the stream [V], then zeros. *)
Definition extends (d old : list Z) (L n : Z) (V : Z -> bool) : Prop :=
  zlen d = 128 /\ Forall is_byte d /\
  forall i, 0 <= i < 1024 ->
    bit_at d i = if i <? L then bit_at old i else if i <? L + n then V (i - L) else false.

Lemma extends_append d b n V :
  wf b -> 0 <= n -> bit_len b + n <= MAX_BIT_LEN ->
  extends d (data b) (bit_len b) n V ->
  {| data := d; bit_len := bit_len b + n |} = of_bits (contents b ++ (V <$> seqZ 0 n)).
Proof.
  intros Hb Hn Hcap (Hd & Hdb & Hbit).
  assert (zlen (V <$> seqZ 0 n) = n) as HlenV
    by (unfold zlen; rewrite length_fmap, length_seqZ; lia).
  pose proof (zlen_contents b Hb) as Hlen. destruct Hb as (_ & _ & Hr & _).
  unfold MAX_BIT_LEN in *. symmetry. apply contents_inj.
  - apply of_bits_wf. rewrite zlen_app. unfold MAX_BIT_LEN; lia.
  - split_and!; simpl; [done..| lia | unfold MAX_BIT_LEN; lia |].
    intros i Hi. rewrite Hbit by lia. zcases; (done || lia).
  - rewrite contents_of_bits by (rewrite zlen_app; unfold MAX_BIT_LEN; lia).
    unfold contents. simpl. rewrite bits_from_app by lia. f_equal.
    + apply bits_from_ext. intros i Hi. rewrite Hbit by lia. zcases; (done || lia).
    + unfold bits_from. apply fmap_seqZ_ext. intros i Hi. rewrite Hbit by lia.
      zcases; [lia | f_equal; lia | lia].
Qed.

Lemma extends_store d b n V l :
  wf b -> 0 <= n -> V <$> seqZ 0 n = l ->
  (bit_len b + n <= MAX_BIT_LEN -> extends d (data b) (bit_len b) n V) ->
  (if bit_len b + n <=? MAX_BIT_LEN
   then Ok {| data := d; bit_len := bit_len b + n |} else Err CellOverflow) = append b l.
Proof.
  intros Hb Hn <- Hext. unfold append.
  replace (zlen (V <$> seqZ 0 n)) with n
    by (unfold zlen; rewrite length_fmap, length_seqZ; lia).
  zcases; [|done]. f_equal. by apply extends_append; auto.
Qed.

Lemma length_wrap b n : wf b -> 0 <= n <= 64512 -> u16 (bit_len b + n) = bit_len b + n.
Proof. intros (_ & _ & H & _) ?. unfold MAX_BIT_LEN in H. apply u16_small. lia. Qed.
