(* ===== verification/DataBuilderSpec.v ===== *)
(** * DataBuilderSpec: the stores of [CellDataBuilder] refine an append

    Every store operation of DataBuilder.v, on a builder with the type
    invariant, appends a bit string that depends on the value alone, or reports
    [CellOverflow] and changes nothing; [rewind_bits] drops bits from the end. *)

From S2P Require Import Prelude Bits DataBuilder.

(** ** Every store operation refines [append] *)

Section Stores.
Context (b : CellDataBuilder) (Hwf : wf b).

Let Hlen : 0 <= bit_len b <= 1023.
Proof. by destruct Hwf as (_ & _ & H & _). Qed.

Let H128 : zlen (data b) = 128.
Proof. by destruct Hwf. Qed.

Let Hbytes : Forall is_byte (data b).
Proof. by destruct Hwf as (_ & H & _). Qed.

Let Htail i : bit_len b <= i < 1024 -> bit_at (data b) i = false.
Proof. by destruct Hwf as (_ & _ & _ & H); auto. Qed.

Lemma store_zeros_spec bits :
  0 <= bits <= 64512 -> store_zeros b bits = append b (replicate (Z.to_nat bits) false).
Proof.
  intros Hb. unfold store_zeros. rewrite length_wrap by done.
  apply extends_store with (V := fun _ => false); [done | lia | |].
  - erewrite const_fmap by done. by rewrite length_seqZ.
  - intros Hc. split_and!; [done..|]. intros i Hi. zcases; [done | apply Htail; lia..].
Qed.

Lemma store_bit_one_spec : store_bit_one b = append b [true].
Proof.
  unfold store_bit_one. rewrite length_wrap by (done || lia).
  replace (bit_len b <? MAX_BIT_LEN) with (bit_len b + 1 <=? MAX_BIT_LEN)
    by (zcases; lia).
  apply extends_store with (V := fun _ => true); [done | lia | done |].
  intros Hc. unfold MAX_BIT_LEN in Hc. split_and!.
  - by rewrite zlen_set.
  - apply set_byte_bytes; [done|]. apply lor_byte; [by apply byte_at_range|].
    unfold is_byte. rewrite Z.shiftl_1_l.
    pose proof (Z.pow_le_mono_r 2 (7 - bit_len b mod 8) 7).
    pose proof (Z.pow_pos_nonneg 2 (7 - bit_len b mod 8)). lia.
  - intros i Hi. bits. rewrite Z.shiftl_1_l, Z.pow2_bits_eqb by lia.
    destruct (Z.ltb_spec i (bit_len b)).
    + zcases; bit_eq.
    + rewrite Htail by lia. zcases; bit_eq.
Qed.

Lemma store_bit_zero_spec : store_bit_zero b = append b [false].
Proof.
  unfold store_bit_zero. replace (bit_len b <? MAX_BIT_LEN) with (bit_len b + 1 <=? MAX_BIT_LEN)
    by (zcases; lia).
  rewrite <- (extends_store (data b) b 1 (fun _ => false) [false]); [|done | lia | done |].
  - destruct (Z.leb_spec (bit_len b + 1) MAX_BIT_LEN); simpl; [|done].
    by rewrite length_wrap by (done || lia).
  - intros Hc. split_and!; [done..|]. intros i Hi. zcases; [done | apply Htail; lia..].
Qed.

(** [store_bit] appends the bit, or reports [CellOverflow]. *)
Lemma store_bit_spec v : store_bit b v = append b [v].
Proof. destruct v; [apply store_bit_one_spec | apply store_bit_zero_spec]. Qed.

Lemma store_u8_spec v : is_byte v -> store_u8 b v = append b (uint_bits 8 v).
Proof.
  intros Hv. unfold store_u8. rewrite length_wrap by (done || lia).
  apply extends_store with (V := fun i => Z.testbit v (8 - 1 - i)); [done | lia | done |].
  intros Hc. unfold MAX_BIT_LEN in Hc. unfold is_byte in Hv.
  destruct (Z.eqb_spec (bit_len b mod 8) 0); split_and!.
  - by rewrite zlen_set.
  - by apply set_byte_bytes.
  - intros i Hi. bits. destruct (Z.ltb_spec i (bit_len b)).
    + zcases; bit_eq.
    + zcases; try bit_eq; apply Htail; lia.
  - by rewrite !zlen_set.
  - apply set_byte_bytes, u8_byte. apply set_byte_bytes; [done|].
    apply lor_byte; [by apply byte_at_range | apply shiftr_byte; [done | lia]].
  - intros i Hi. bits. tb. destruct (Z.ltb_spec i (bit_len b)).
    + zcases; try bit_eq. rewrite (testbit_high 8 v) by lia. bit_eq.
    + rewrite Htail by lia. zcases; bit_eq.
Qed.

(** The macro of the fixed-width stores, for every width it is used at. *)
Lemma impl_store_uint_spec bytes v :
  1 <= bytes <= 32 -> 0 <= v < 2 ^ (8 * bytes) ->
  impl_store_uint bytes (8 * bytes) b v = append b (uint_bits (8 * bytes) v).
Proof.
  intros Hn Hv. unfold impl_store_uint. rewrite length_wrap by (done || lia).
  apply extends_store with (V := fun i => Z.testbit v (8 * bytes - 1 - i)); [done | lia | done |].
  intros Hc. unfold MAX_BIT_LEN in Hc.
  destruct (Z.eqb_spec (bit_len b mod 8) 0); split_and!.
  - rewrite zlen_copy; rewrite ?length_to_be_bytes; lia.
  - apply copy_bytes_bytes; [done | apply to_be_bytes_bytes].
  - intros i Hi. bits. destruct (Z.ltb_spec i (bit_len b)).
    + zcases; bit_eq.
    + zcases; simpl; bits; try bit_eq; apply Htail; lia.
  - rewrite zlen_copy; rewrite ?length_to_be_bytes, ?zlen_set; lia.
  - apply copy_bytes_bytes; [|apply to_be_bytes_bytes]. apply set_byte_bytes; [done|].
    apply lor_byte; [by apply byte_at_range | apply u8_byte].
  - intros i Hi.
    rewrite bit_at_copy; rewrite ?length_to_be_bytes, ?zlen_set; try lia.
    rewrite bit_at_or by lia.
    destruct (Z.ltb_spec i (bit_len b)).
    + zcases; try bit_eq. tb. zcases; try bit_eq.
      rewrite (testbit_high (8 * bytes) v) by lia. bit_eq.
    + rewrite Htail by lia. zcases; bits; tb; zcases; try bit_eq.
Qed.

Lemma store_u16_spec v : 0 <= v < 2 ^ 16 -> store_u16 b v = append b (uint_bits 16 v).
Proof. intros. by apply (impl_store_uint_spec 2). Qed.

Lemma store_u32_spec v : 0 <= v < 2 ^ 32 -> store_u32 b v = append b (uint_bits 32 v).
Proof. intros. by apply (impl_store_uint_spec 4). Qed.

Lemma store_u64_spec v : 0 <= v < 2 ^ 64 -> store_u64 b v = append b (uint_bits 64 v).
Proof. intros. by apply (impl_store_uint_spec 8). Qed.

Lemma store_u128_spec v : 0 <= v < 2 ^ 128 -> store_u128 b v = append b (uint_bits 128 v).
Proof. intros. by apply (impl_store_uint_spec 16). Qed.

(** The shape [store_small_uint] and [store_uint] share: only the low [W] bits
    are written, at a length advanced by the zero padding. *)
Lemma capped_store W v bits (write : Z -> Z -> list Z) :
  0 < W <= 64 -> 0 <= bits <= 64512 ->
  (forall L w, 1 <= w <= W -> L = bit_len b + (bits - w) ->
     bits <= W /\ w = bits \/ W < bits /\ w = W -> bit_len b + bits <= 1023 ->
     extends (write L w) (data b) (bit_len b) bits (fun i => Z.testbit v (bits - 1 - i))) ->
  (if bits =? 0 then Ok b else
   if u16 (bit_len b + bits) <=? MAX_BIT_LEN then
     let '(len, bits) := match checked_sub bits W with
                         | Some offset => (u16 (bit_len b + offset), W)
                         | None => (bit_len b, bits)
                         end in
     Ok {| data := write len bits; bit_len := u16 (len + bits) |}
   else Err CellOverflow) = append b (uint_bits bits v).
Proof.
  intros HW Hb Hwrite. destruct (Z.eqb_spec bits 0) as [->|]; [by rewrite append_nil|].
  rewrite length_wrap by done. unfold checked_sub.
  set (w := Z.min bits W).
  rewrite <- (extends_store (write (bit_len b + (bits - w)) w) b bits
    (fun i => Z.testbit v (bits - 1 - i)) (uint_bits bits v)); [|done | lia | done |].
  - destruct (Z.leb_spec (bit_len b + bits) MAX_BIT_LEN) as [Hc|]; [|done].
    unfold MAX_BIT_LEN in Hc. destruct (Z.leb_spec W bits).
    + rewrite length_wrap by (done || lia). replace w with W by lia.
      rewrite (u16_small (_ + W)) by lia. do 2 f_equal. lia.
    + replace w with bits by lia. rewrite length_wrap by (done || lia).
      by rewrite Z.sub_diag, Z.add_0_r.
  - intros Hc. unfold MAX_BIT_LEN in Hc. apply Hwrite; lia.
Qed.

(** [store_small_uint] stores the low [bits] bits; past eight it pads with zeros. *)
Lemma store_small_uint_spec v bits :
  is_byte v -> 0 <= bits <= 64512 ->
  store_small_uint b v bits = append b (uint_bits bits v).
Proof.
  intros Hv Hb. unfold store_small_uint. unfold is_byte in Hv.
  apply (capped_store 8 v bits (fun len bits => _)); [lia | done |]. cbv beta.
  intros L w Hw HL Hww Hc. destruct (Z.eqb_spec (L mod 8) 0); split_and!.
  - by rewrite zlen_set.
  - apply set_byte_bytes, u8_byte. done.
  - intros i Hi. bits. destruct (Z.ltb_spec i (bit_len b)); [by bit_cases 8 v|].
    rewrite Htail by lia. by bit_cases 8 v.
  - destruct (8 <? w + L mod 8); by rewrite !zlen_set.
  - assert (Forall is_byte (set_byte (data b) (L / 8) (Z.lor (byte_at (data b) (L / 8))
      (Z.shiftr (u8 (Z.shiftl v (8 - w))) (L mod 8))))).
    { apply set_byte_bytes; [done|].
      apply lor_byte; [by apply byte_at_range | apply shiftr_byte; [apply u8_byte | lia]]. }
    destruct (8 <? w + L mod 8); [apply set_byte_bytes, u8_byte|]; done.
  - intros i Hi. destruct (Z.ltb_spec 8 (w + L mod 8)); bits;
      (destruct (Z.ltb_spec i (bit_len b)); [|rewrite Htail by lia]); by bit_cases 8 v.
Qed.

(** [store_uint] stores the low [bits] bits; past sixty-four it pads with zeros. *)
Lemma store_uint_spec v bits :
  0 <= v < 2 ^ 64 -> 0 <= bits <= 64512 ->
  store_uint b v bits = append b (uint_bits bits v).
Proof.
  intros Hv Hb. unfold store_uint.
  apply (capped_store 64 v bits (fun len bits => _)); [lia | done |]. cbv beta.
  intros L w Hw HL Hww Hc.
  assert (zlen (to_be_bytes 8 (u64 (Z.shiftl v (64 - w)))) = 8) by by rewrite length_to_be_bytes.
  destruct (Z.eqb_spec (L mod 8) 0); [split_and!|].
  - rewrite zlen_copy; dlia.
  - apply copy_bytes_bytes; [done | apply to_be_bytes_bytes].
  - intros i Hi. rewrite bit_at_copy by dlia. unfold div_ceil.
    destruct (Z.ltb_spec i (bit_len b)); [by bit_cases 64 v|].
    rewrite Htail by lia. by bit_cases 64 v.
  - set (x := u64 (Z.shiftl v (64 - w))).
    set (y := u64 (Z.shiftl x (8 - L mod 8))).
    set (d := set_byte _ _ _).
    assert (zlen (to_be_bytes 8 y) = 8) by by rewrite length_to_be_bytes.
    assert (zlen d = 128) by (by unfold d; rewrite zlen_set).
    assert (Forall is_byte d).
    { apply set_byte_bytes; [done|]. apply lor_byte; [by apply byte_at_range | apply u8_byte]. }
    assert (forall i, 0 <= i < 1024 -> bit_at d i =
      if i <? bit_len b then bit_at (data b) i
      else if (i <? bit_len b + bits) && (i / 8 <=? L / 8) then Z.testbit v (bits - 1 - (i - bit_len b))
      else false) as Hd.
    { intros i Hi. unfold d. rewrite bit_at_or by lia.
      destruct (Z.ltb_spec i (bit_len b)); [|rewrite Htail by lia]; by unfold x; bit_cases 64 v. }
    clearbody d. unfold checked_sub.
    destruct (Z.leb_spec (8 - L mod 8) w); [destruct (Z.ltb_spec 0 (w - (8 - L mod 8)))|].
    + split_and!.
      * rewrite zlen_copy; dlia.
      * apply copy_bytes_bytes; [done | apply to_be_bytes_bytes].
      * intros i Hi. rewrite bit_at_copy by dlia. unfold div_ceil. rewrite Hd by lia.
        unfold y, x. by bit_cases 64 v.
    + split_and!; [done..|]. intros i Hi. rewrite Hd by lia. by bit_cases 64 v.
    + split_and!; [done..|]. intros i Hi. rewrite Hd by lia. by bit_cases 64 v.
Qed.

Lemma store_u256_spec value :
  Forall is_byte value -> zlen value = 32 ->
  store_u256 b value = append b (bits_from value 0 256).
Proof.
  intros Hv H32. unfold store_u256. rewrite length_wrap by (done || lia).
  apply extends_store with (V := bit_at value); [done | lia | done |].
  intros Hc. unfold MAX_BIT_LEN in Hc.
  destruct (Z.eqb_spec (bit_len b mod 8) 0); [split_and!|].
  - by rewrite zlen_copy by lia.
  - by apply copy_bytes_bytes.
  - intros i Hi. rewrite bit_at_copy by lia.
    destruct (Z.ltb_spec i (bit_len b)); [by bit_cases 8 0|].
    rewrite Htail by lia. by bit_cases 8 0.
  - set (hi := sub_bytes value 0 16). set (lo := sub_bytes value 16 16).
    assert (Forall is_byte hi /\ zlen hi = 16) as [Hhi Hhl]
      by (split; [by apply sub_bytes_bytes | unfold hi; by rewrite zlen_sub by lia]).
    assert (Forall is_byte lo /\ zlen lo = 16) as [Hlo Hll]
      by (split; [by apply sub_bytes_bytes | unfold lo; by rewrite zlen_sub by lia]).
    set (s := 8 - bit_len b mod 8).
    set (x := Z.lor _ (Z.shiftr _ (128 - s))). set (y := u128 _).
    set (d := set_byte _ _ _).
    assert (zlen d = 128) by (by unfold d; rewrite zlen_set).
    assert (Forall is_byte d).
    { apply set_byte_bytes; [done|]. apply lor_byte; [by apply byte_at_range | apply u8_byte]. }
    assert (zlen (to_be_bytes 16 x) = 16) by by rewrite length_to_be_bytes.
    assert (zlen (to_be_bytes 16 y) = 16) by by rewrite length_to_be_bytes.
    split_and!.
    + by rewrite !zlen_copy by (rewrite ?zlen_copy by lia; lia).
    + do 2 (apply copy_bytes_bytes; [|apply to_be_bytes_bytes]). done.
    + intros i Hi. rewrite bit_at_copy by (rewrite ?zlen_copy by lia; lia).
      rewrite bit_at_copy by lia. unfold d. rewrite bit_at_or by lia.
      destruct (Z.ltb_spec i (bit_len b)); [|rewrite Htail by lia]; subst x y s;
      (zcases; simpl; rewrite ?orb_false_r; try done; try lia);
      rewrite ?bit_at_to_be by lia; tb;
      rewrite ?(testbit_from_be_any 16) by done;
      subst hi lo; zcases; simpl; rewrite ?orb_false_r; try done; try lia;
      rewrite bit_at_sub by lia; f_equal; lia.
Qed.

End Stores.

(** ** [store_raw]: the unaligned copy loop *)

(** The bits [store_raw] appends: the first [bits] bits of [value], or all of
    them after zeros when [bits] exceeds the length of [value]. *)
Definition raw_bits (value : list Z) (bits : Z) : list bool :=
  replicate (Z.to_nat (bits - 8 * zlen value)) false ++
  bits_from value 0 (Z.min bits (8 * zlen value)).

Lemma zlen_raw_bits value bits : 0 <= bits -> zlen (raw_bits value bits) = bits.
Proof.
  intros. unfold raw_bits. rewrite zlen_app. pose proof (zlen_nonneg value).
  rewrite zlen_bits_from by lia. unfold zlen at 1. rewrite length_replicate. lia.
Qed.

Lemma raw_bits_exact value bits :
  bits <= 8 * zlen value -> raw_bits value bits = bits_from value 0 bits.
Proof.
  intros. unfold raw_bits. replace (Z.to_nat _) with 0%nat by lia. simpl. f_equal. lia.
Qed.

Section RawLoop.
Context (old value : list Z) (L : Z).
Context (HL : 0 <= L) (Hr : L mod 8 <> 0) (Hv : Forall is_byte value).

Abbreviation V := (bit_at value).
Abbreviation q := (L / 8).
Abbreviation r := (L mod 8).

(** One iteration moves eight more bits of [value]. *)
Lemma raw_step d i :
  0 <= i -> i < zlen value -> q + i + 1 < 128 -> extends d old L (8 * i) V ->
  extends
    (set_byte (set_byte d (q + i) (Z.lor (byte_at d (q + i)) (Z.shiftr (byte_at value i) r)))
       (q + i + 1) (u8 (Z.shiftl (byte_at value i) (8 - r))))
    old L (8 * (i + 1)) V.
Proof.
  intros Hi Hiv Hq (H128 & Hd & Hbits).
  pose proof (byte_at_range value i Hv) as Hb. unfold is_byte in Hb. split_and!.
  - by rewrite !zlen_set.
  - apply set_byte_bytes, u8_byte. apply set_byte_bytes; [done|].
    apply lor_byte; [by apply byte_at_range | apply shiftr_byte; [done | lia]].
  - intros x Hx. bits. rewrite Hbits by lia.
    destruct (Z.ltb_spec x L); [by bit_cases 8 (byte_at value i)|].
    destruct (Z.ltb_spec x (L + 8 * i)).
    { by bit_cases 8 (byte_at value i). }
    destruct (Z.ltb_spec x (L + 8 * (i + 1))).
    + rewrite (bit_at_in value i) by lia. by bit_cases 8 (byte_at value i).
    + by bit_cases 8 (byte_at value i).
Qed.

Lemma store_raw_loop_extends n d i :
  0 <= i -> i + Z.of_nat n <= zlen value -> q + i + Z.of_nat n < 128 ->
  extends d old L (8 * i) V ->
  extends (store_raw_loop n d value q r i) old L (8 * (i + Z.of_nat n)) V.
Proof.
  revert d i. induction n as [|n IH]; intros d i Hi Hn Hq Hd; simpl store_raw_loop.
  - by rewrite Z.add_0_r.
  - replace (i + Z.of_nat (S n)) with (i + 1 + Z.of_nat n) by lia.
    apply IH; [lia..|]. apply raw_step; [lia..| done].
Qed.

(** The bytes after the loop: the last partial byte and the final mask. *)
Lemma raw_tail d bits :
  1 <= bits <= 8 * zlen value -> L + bits <= 1023 ->
  let byte_len := div_ceil (bits + r) 8 - 1 in
  let ptr := q + byte_len in
  extends d old L (8 * byte_len) V ->
  let d1 := if byte_len <? div_ceil bits 8 then
      set_byte d ptr (Z.lor (byte_at d ptr) (Z.shiftr (byte_at value byte_len) r)) else d in
  let bits_r := (r + bits) mod 8 in
  let d2 := if negb (bits_r =? 0) then
      set_byte d1 ptr (Z.land (byte_at d1 ptr) (u8 (Z.shiftl 0xff (8 - bits_r)))) else d1 in
  extends d2 old L bits V.
Proof.
  intros Hb Hcap byte_len ptr (H128 & Hd & Hbits) d1 bits_r d2.
  assert (bits + r <= 8 * (byte_len + 1) <= bits + r + 7) as Hbl by (unfold byte_len; dlia).
  assert (ptr = q + byte_len) as Hptr by done.
  clearbody byte_len ptr.
  pose proof (byte_at_range value byte_len Hv) as Hvb. unfold is_byte in Hvb.
  assert (zlen d1 = 128 /\ Forall is_byte d1 /\ forall x, 0 <= x < 1024 -> bit_at d1 x =
    if x <? L then bit_at old x else if x / 8 <=? ptr then
      (if x - L <? 8 * byte_len + 8 then V (x - L) && (x - L <? 8 * div_ceil bits 8) else false)
      else false) as (H1 & Hd1 & Hbits1).
  { unfold d1. destruct (Z.ltb_spec byte_len (div_ceil bits 8)); split_and!; try done.
    - by rewrite zlen_set.
    - apply set_byte_bytes; [done|].
      apply lor_byte; [by apply byte_at_range | apply shiftr_byte; [done | lia]].
    - intros x Hx. bits. rewrite Hbits by lia.
      destruct (Z.ltb_spec x L); [by bit_cases 8 (byte_at value byte_len)|].
      destruct (Z.ltb_spec x (L + 8 * byte_len)).
      { zcases; try dlia; simpl; tb;
        rewrite ?(testbit_high 8 (byte_at value byte_len)) by lia;
        by rewrite ?andb_false_r, ?andb_true_r, ?orb_false_r. }
      destruct (Z.leb_spec (x / 8) ptr); zcases; try lia; simpl; try done; try dlia;
      rewrite (bit_at_in value byte_len) by lia; tb;
        rewrite andb_true_r; f_equal; lia.
    - intros x Hx. rewrite Hbits by lia. zcases; simpl; rewrite ?andb_true_r, ?andb_false_r;
        try done; try dlia. }
  clearbody d1. unfold d2, bits_r.
  destruct (Z.eqb_spec ((r + bits) mod 8) 0); simpl.
  - split_and!; [done..|]. intros x Hx. rewrite Hbits1 by lia.
    zcases; simpl; rewrite ?andb_true_r, ?andb_false_r; try done; try dlia.
  - split_and!; [by rewrite zlen_set | |].
    + apply set_byte_bytes; [done|].
      apply land_byte; [by apply byte_at_range | by apply u8_byte].
    + intros x Hx. rewrite bit_at_and by lia. rewrite testbit_ff_shl by lia.
      rewrite Hbits1 by lia.
      zcases; simpl; rewrite ?andb_true_r, ?andb_false_r; try done; try dlia.
Qed.
End RawLoop.

(** ** [store_raw], [store_ones], [from_raw_data], [prepend_raw] *)

Lemma extends_refl b L V : wf b -> bit_len b <= L -> extends (data b) (data b) L 0 V.
Proof.
  intros (H128 & Hb & Hr & Hz) HL. split_and!; [done..|]. intros i Hi.
  zcases; [done | lia | apply Hz; lia].
Qed.

(** Skipping [p] zero bits before the stream. *)
Lemma extends_pad d b p n V :
  wf b -> 0 <= p -> extends d (data b) (bit_len b + p) n V ->
  extends d (data b) (bit_len b) (p + n) (fun i => if i <? p then false else V (i - p)).
Proof.
  intros (_ & _ & Hr & Hz) Hp (H128 & Hb & Hbits). split_and!; [done..|].
  intros i Hi. rewrite Hbits by lia.
  zcases; try done; try lia; first [apply Hz; lia | f_equal; lia | by rewrite Hz by lia].
Qed.

Section RawStore.
Context (b : CellDataBuilder) (Hwf : wf b) (value : list Z) (Hv : Forall is_byte value).

(** What [store_raw] writes for [n] bits of [value] at length [L]. *)
Definition raw_write (L n : Z) : list Z :=
  let q := L / 8 in
  let r := L mod 8 in
  if r =? 0 then
    let byte_len := div_ceil n 8 in
    let d := copy_bytes (data b) q value byte_len in
    if negb (n mod 8 =? 0) then
      set_byte d (q + byte_len - 1)
        (Z.land (byte_at d (q + byte_len - 1)) (u8 (Z.shiftl 0xff (8 - n mod 8))))
    else d
  else
    let byte_len := div_ceil (n + r) 8 - 1 in
    let d := store_raw_loop (Z.to_nat byte_len) (data b) value q r 0 in
    let ptr := q + byte_len in
    let d := if byte_len <? div_ceil n 8 then
        set_byte d ptr (Z.lor (byte_at d ptr) (Z.shiftr (byte_at value byte_len) r)) else d in
    if negb ((r + n) mod 8 =? 0) then
      set_byte d ptr (Z.land (byte_at d ptr) (u8 (Z.shiftl 0xff (8 - (r + n) mod 8)))) else d.

Lemma raw_write_extends p n :
  0 <= p -> 1 <= n <= 8 * zlen value -> bit_len b + p + n <= 1023 ->
  extends (raw_write (bit_len b + p) n) (data b) (bit_len b + p) n (bit_at value).
Proof.
  intros Hp Hn Hcap. set (L := bit_len b + p).
  destruct (Hwf) as (H128 & Hb & Hr & Hz).
  assert (extends (data b) (data b) L 0 (bit_at value)) as H0
    by (apply extends_refl; [done | subst L; lia]).
  unfold raw_write. destruct (Z.eqb_spec (L mod 8) 0) as [E|E].
  - set (d := copy_bytes _ _ _ _).
    assert (zlen d = 128) by (unfold d; rewrite zlen_copy; dlia).
    assert (Forall is_byte d) by by apply copy_bytes_bytes.
    assert (forall i, 0 <= i < 1024 -> bit_at d i =
      if i <? L then bit_at (data b) i else if i <? L + 8 * div_ceil n 8
      then bit_at value (i - L) else false) as Hd.
    { intros i Hi. unfold d. rewrite bit_at_copy by dlia.
      destruct (Z.ltb_spec i L); [by bit_cases 8 0|].
      rewrite Hz by (subst L; lia). by bit_cases 8 0. }
    clearbody d. destruct (Z.eqb_spec (n mod 8) 0); simpl; split_and!; try done.
    + intros i Hi. rewrite Hd by lia. zcases; (done || dlia).
    + by rewrite zlen_set.
    + apply set_byte_bytes; [done|].
      apply land_byte; [by apply byte_at_range | by apply u8_byte].
    + intros i Hi. rewrite bit_at_and by dlia. rewrite testbit_ff_shl by lia.
      rewrite Hd by lia.
      zcases; simpl; rewrite ?andb_true_r, ?andb_false_r; try done; try dlia.
  - apply raw_tail; [subst L; lia | done | done | done | done |].
    set (n' := div_ceil (n + L mod 8) 8 - 1).
    assert (0 <= n' <= zlen value /\ L / 8 + n' < 128) by (subst n'; dlia).
    replace (8 * n') with (8 * (0 + Z.of_nat (Z.to_nat n'))) by lia.
    apply store_raw_loop_extends; subst L; (done || lia).
Qed.

Lemma raw_bits_fmap p n :
  0 <= p -> 0 <= n <= 8 * zlen value ->
  (fun i => if i <? p then false else bit_at value (i - p)) <$> seqZ 0 (p + n) =
  replicate (Z.to_nat p) false ++ bits_from value 0 n.
Proof.
  intros. rewrite seqZ_app, fmap_app by lia. f_equal.
  - apply list_eq. intros i. rewrite list_lookup_fmap.
    destruct (Nat.ltb_spec i (Z.to_nat p)).
    + rewrite lookup_seqZ_lt, lookup_replicate_2 by lia. simpl. zcases; [done | lia].
    + rewrite lookup_seqZ_ge by lia. symmetry. by apply lookup_replicate_None.
  - unfold bits_from. apply fmap_seqZ_ext. intros i Hi. zcases; [lia | f_equal; lia].
Qed.

Lemma store_raw_spec bits :
  0 <= bits <= 64512 -> zlen value <= 8191 ->
  store_raw b value bits = append b (raw_bits value bits).
Proof.
  intros Hb Hlen. unfold store_raw, store_raw_impl. rewrite length_wrap by done.
  rewrite (u16_small (zlen value * 8)) by (pose proof (zlen_nonneg value); lia).
  pose proof (zlen_nonneg value). destruct (Hwf) as (_ & _ & Hr & _).
  set (p := Z.max 0 (bits - 8 * zlen value)). set (n := Z.min bits (8 * zlen value)).
  transitivity (if bit_len b + (p + n) <=? MAX_BIT_LEN then
    Ok {| data := if n =? 0 then data b else raw_write (bit_len b + p) n;
          bit_len := bit_len b + (p + n) |} else Err CellOverflow).
  - replace (p + n) with bits by lia. unfold checked_sub, MAX_BIT_LEN in *.
    destruct (Z.leb_spec (bit_len b + bits) 1023); [|done].
    destruct (Z.leb_spec (zlen value * 8) bits).
    + rewrite length_wrap by (done || lia).
      replace (zlen value * 8) with n by lia. replace (bits - n) with p by lia.
      destruct (Z.eqb_spec n 0); simpl; [do 2 f_equal; lia|].
      rewrite u16_small by lia. unfold raw_write. do 2 f_equal. lia.
    + replace n with bits by lia. replace p with 0 by lia. rewrite Z.add_0_r.
      destruct (Z.eqb_spec bits 0); simpl; [do 2 f_equal; lia|].
      rewrite u16_small by lia. done.
  - assert (raw_bits value bits = replicate (Z.to_nat p) false ++ bits_from value 0 n) as ->
      by (unfold raw_bits; do 2 f_equal; lia).
    apply extends_store with
      (V := fun i => if i <? p then false else bit_at value (i - p)); [done | lia | |].
    + apply raw_bits_fmap; lia.
    + unfold MAX_BIT_LEN in *. intros Hc. apply extends_pad; [done | lia |].
      destruct (Z.eqb_spec n 0) as [E|E]; [|apply raw_write_extends; lia].
      rewrite E. apply extends_refl; [done | lia].
Qed.
End RawStore.

(** [append] depends on its second argument only through what fits. *)
Lemma append_ext b l k :
  zlen l = zlen k -> (bit_len b + zlen l <= MAX_BIT_LEN -> l = k) -> append b l = append b k.
Proof.
  intros Hlen H. unfold append. rewrite <- Hlen. zcases; [|done]. by rewrite H.
Qed.

Lemma bits_from_const l s n v :
  (forall i, 0 <= i < n -> bit_at l (s + i) = v) -> bits_from l s n = replicate (Z.to_nat n) v.
Proof.
  intros H. apply list_eq. intros i. destruct (Nat.ltb_spec i (Z.to_nat n)).
  - rewrite lookup_bits_from, lookup_replicate_2 by lia. f_equal. apply H. lia.
  - rewrite lookup_ge_None_2 by (rewrite length_bits_from; lia).
    symmetry. by apply lookup_replicate_None.
Qed.

Lemma byte_at_replicate n v i : 0 <= i < Z.of_nat n -> byte_at (replicate n v) i = v.
Proof. intros. unfold byte_at. by rewrite lookup_replicate_2 by lia. Qed.

Lemma store_ones_spec b bits :
  wf b -> 0 <= bits <= 64512 ->
  store_ones b bits = append b (replicate (Z.to_nat bits) true).
Proof.
  intros Hwf Hb. unfold store_ones. rewrite store_raw_spec; [|done| |done|done]; cycle 1.
  { unfold ALL_ONES_CELL_DATA. apply Forall_replicate. done. }
  apply append_ext.
  - rewrite zlen_raw_bits by lia. unfold zlen. rewrite length_replicate. lia.
  - rewrite zlen_raw_bits by lia. unfold MAX_BIT_LEN. destruct (Hwf) as (_ & _ & Hr & _).
    intros Hc. rewrite raw_bits_exact by (change (zlen ALL_ONES_CELL_DATA) with 128; lia).
    apply bits_from_const. intros i Hi. unfold bit_at, ALL_ONES_CELL_DATA.
    rewrite byte_at_replicate by lia. change 255 with (Z.ones 8). apply Z.ones_spec_low. lia.
Qed.

Lemma data_new_of_bits : data_new = of_bits [].
Proof. vm_compute. reflexivity. Qed.

Lemma data_new_wf : wf data_new.
Proof. rewrite data_new_of_bits. by apply of_bits_wf. Qed.

Lemma contents_new : contents data_new = [].
Proof. reflexivity. Qed.

Lemma store_raw_impl_store_raw d len value bits d' len' :
  store_raw_impl d len value bits = Ok (d', len') <->
  store_raw {| data := d; bit_len := len |} value bits = Ok {| data := d'; bit_len := len' |}.
Proof.
  unfold store_raw. simpl. destruct (store_raw_impl d len value bits) as [[d1 l1]|]; simpl.
  - split; [by intros [= <- <-] | by intros [= <- <-]].
  - done.
Qed.

Lemma data_contents_raw b : wf b -> raw_bits (data b) (bit_len b) = contents b.
Proof.
  intros (H128 & _ & Hr & _). apply raw_bits_exact. unfold MAX_BIT_LEN in Hr. lia.
Qed.

(** [prepend_raw] puts the bits in front of the contents. *)
Lemma prepend_raw_spec b value bits :
  wf b -> Forall is_byte value -> zlen value <= 8191 -> 0 <= bits <= 64512 ->
  prepend_raw b value bits =
    if bit_len b + bits <=? MAX_BIT_LEN then Ok (of_bits (raw_bits value bits ++ contents b))
    else Err CellOverflow.
Proof.
  intros Hwf Hv Hlen Hb. unfold prepend_raw.
  destruct (Z.eqb_spec bits 0) as [->|].
  { pose proof (zlen_nonneg value). rewrite raw_bits_exact, bits_from_nil by lia. simpl.
    rewrite of_bits_contents by done. destruct Hwf as (_ & _ & Hr & _). by zcases; [|lia]. }
  rewrite length_wrap by done. destruct (Z.leb_spec (bit_len b + bits) MAX_BIT_LEN); [|done].
  assert (zlen (raw_bits value bits) = bits) as Hz by (apply zlen_raw_bits; lia).
  pose proof (zlen_contents b Hwf) as Hzc. destruct (Hwf) as (H128 & Hbytes & Hr & _).
  pose proof (store_raw_spec data_new data_new_wf value Hv bits Hb Hlen) as E.
  unfold append in E. rewrite contents_new, Hz, app_nil_l in E.
  change (bit_len data_new) with 0 in E.
  rewrite (proj2 (Z.leb_le _ _)) in E by lia.
  apply store_raw_impl_store_raw in E. rewrite E. unfold rbind at 1.
  assert (wf (of_bits (raw_bits value bits))) as Hwf' by (apply of_bits_wf; lia).
  pose proof (store_raw_spec _ Hwf' (data b) Hbytes (bit_len b)
    ltac:(unfold MAX_BIT_LEN in *; lia) ltac:(lia)) as E2.
  rewrite data_contents_raw in E2 by done. unfold append in E2.
  rewrite contents_of_bits, Hzc in E2 by lia. unfold of_bits at 1 in E2. simpl bit_len in E2.
  rewrite (proj2 (Z.leb_le _ _)) in E2 by lia.
  apply store_raw_impl_store_raw in E2. rewrite E2. done.
Qed.

(** A byte array cut at bit [L] is the builder of the first [L] bits. *)
Lemma truncate_of_bits b d L :
  wf b -> 0 <= L <= bit_len b -> zlen d = 128 -> Forall is_byte d ->
  (forall i, 0 <= i < 1024 -> bit_at d i = if i <? L then bit_at (data b) i else false) ->
  {| data := d; bit_len := L |} = of_bits (take (Z.to_nat L) (contents b)).
Proof.
  intros Hwf HL Hd Hdb Hbits. pose proof (zlen_contents b Hwf) as Hzc.
  destruct (Hwf) as (_ & _ & Hr & _). unfold MAX_BIT_LEN in *. unfold contents.
  rewrite bits_from_take by lia. apply contents_inj.
  - split_and!; simpl; [done..| lia | unfold MAX_BIT_LEN; lia |].
    intros i Hi. rewrite Hbits by lia. by zcases; [lia|].
  - apply of_bits_wf. rewrite zlen_bits_from; unfold MAX_BIT_LEN; lia.
  - rewrite contents_of_bits by (rewrite zlen_bits_from; unfold MAX_BIT_LEN; lia).
    apply bits_from_ext. intros i Hi. simpl. rewrite Hbits by lia. by zcases; [|lia].
Qed.

(** [rewind_bits] drops the last bits and restores the zero tail. *)
Lemma rewind_bits_spec b bits :
  wf b -> 0 <= bits ->
  rewind_bits b bits =
    if bits <=? bit_len b then Ok (of_bits (take (Z.to_nat (bit_len b - bits)) (contents b)))
    else Err CellUnderflow.
Proof.
  intros Hwf Hb. unfold rewind_bits, checked_sub.
  destruct (Z.eqb_spec bits 0) as [->|Hne].
  { rewrite take_ge, of_bits_contents by
      (done || (pose proof (zlen_contents b Hwf) as E; unfold zlen in E; lia)).
    destruct Hwf as (_ & _ & Hr & _). by zcases; [|lia]. }
  destruct (Z.leb_spec bits (bit_len b)) as [Hle|]; [|done].
  destruct (Hwf) as (H128 & Hbytes & Hr & Hz). unfold MAX_BIT_LEN in Hr.
  set (L := bit_len b - bits).
  assert (forall n, Forall is_byte (replicate n 0)) as Hzero by (intros; by apply Forall_replicate).
  assert (forall n, 0 <= n -> zlen (replicate (Z.to_nat n) 0) = n) as Hzl
    by (intros; unfold zlen; rewrite length_replicate; lia).
  assert (forall n i, 0 <= i < 8 * n -> bit_at (replicate (Z.to_nat n) 0) i = false) as Hzb
    by (intros; unfold bit_at; rewrite byte_at_replicate by lia; apply Z.testbit_0_l).
  destruct (Z.eqb_spec (L mod 8) 0); simpl; f_equal; apply truncate_of_bits;
    try done; try (subst L; lia).
  - rewrite zlen_copy by (rewrite ?Hzl; subst L; dlia). done.
  - by apply copy_bytes_bytes.
  - intros i Hi. rewrite bit_at_copy by (rewrite ?Hzl; subst L; dlia).
    zcases; simpl; try done; try dlia; first [apply Hzb; dlia | apply Hz; subst L; dlia].
  - rewrite zlen_copy by (rewrite ?zlen_set, ?Hzl; subst L; dlia). by rewrite zlen_set.
  - apply copy_bytes_bytes; [|done]. apply set_byte_bytes; [done|].
    apply land_byte; [by apply byte_at_range | by apply u8_byte].
  - intros i Hi. rewrite bit_at_copy by (rewrite ?zlen_set, ?Hzl; subst L; dlia).
    rewrite bit_at_and by (subst L; lia). rewrite testbit_ff_shl by lia.
    destruct (Z.ltb_spec i L).
    + zcases; simpl; rewrite ?andb_true_r, ?andb_false_r; try done; dlia.
    + zcases; simpl; rewrite ?andb_true_r, ?andb_false_r; try done; try dlia;
        first [apply Hzb; dlia | apply Hz; subst L; dlia].
Qed.

Lemma clear_bits_spec b : clear_bits b = of_bits [].
Proof. vm_compute. reflexivity. Qed.
