(* ===== verification/CellMeta.v ===== *)
(** * CellMeta: level masks, cell types, descriptors and sizes

    The metadata types of [src/src/cell/mod.rs]: [LevelMask] and its iterator,
    [CellType], [CellDescriptor], [Size]; and [LoadMode] of
    [src/src/cell/cell_context.rs].  Every type is a machine integer or an
    enum, and every operation is transcribed at its width. *)

From S2P Require Import Prelude.

(** [MAX_REF_COUNT] *)
Definition MAX_REF_COUNT : Z := 4.

(** ** [LevelMask]: a three-bit set of de Bruijn levels *)
Module LevelMask.

(** [struct LevelMask(u8)] *)
Definition t := Z.

Definition EMPTY : t := 0.
Definition MAX_LEVEL : Z := 3.

(** The type invariant: the mask is in [0b000..=0b111]. *)
Definition wf (m : t) : Prop := 0 <= m < 8.

Definition new (mask : Z) : t := Z.land mask 7.
Definition is_empty (m : t) : bool := m =? 0.
Definition new_unchecked (mask : Z) : t := mask.

Definition from_level (level : Z) : t :=
  if level =? 0 then 0 else if level =? 1 then 1 else if level =? 2 then 3 else 7.

Definition level (m : t) : Z :=
  u8 (u8 (Z.land m 1 + Z.land (Z.shiftr m 1) 1) + Z.land (Z.shiftr m 2) 1).

Definition hash_index (m : t) (lvl : Z) : Z := level (Z.land m (from_level lvl)).

Definition contains (m : t) (lvl : Z) : bool :=
  (lvl =? 0) || negb (Z.land m (Z.shiftl 1 (lvl - 1)) =? 0).

Definition virtualize (m : t) (offset : Z) : t := Z.shiftr m offset.

Definition to_byte (m : t) : Z := m.

(** [BitOr] and [BitOrAssign] *)
Definition bitor (m n : t) : t := Z.lor m n.

(** [struct LevelMaskIter(u8)] and [IntoIterator for LevelMask] *)
Definition iter := Z.
Definition into_iter (m : t) : iter := Z.lor 1 (u8 (Z.shiftl m 1)).

(** [Iterator::next] *)
Definition next (it : iter) : option (Z * iter) :=
  if negb (it =? 0) then
    let mask := Z.land it (unot 8 (it - 1)) in
    Some (trailing_zeros 8 mask, Z.land it (unot 8 mask))
  else None.

(** The items an iterator yields, [fuel] at most. *)
Fixpoint collect (fuel : nat) (it : iter) : list Z :=
  match fuel with
  | O => []
  | S fuel => match next it with
              | Some (x, it) => x :: collect fuel it
              | None => []
              end
  end.
End LevelMask.

(** ** [enum CellType] *)
Inductive CellType : Type :=
| Ordinary
| PrunedBranch
| LibraryReference
| MerkleProof
| MerkleUpdate.

#[global] Instance CellType_eq_dec : EqDecision CellType.
Proof. solve_decision. Defined.

Module CellTypes.
Definition is_merkle (t : CellType) : bool :=
  match t with MerkleProof | MerkleUpdate => true | _ => false end.
Definition is_exotic (t : CellType) : bool :=
  negb (match t with Ordinary => true | _ => false end).
Definition is_pruned_branch (t : CellType) : bool :=
  match t with PrunedBranch => true | _ => false end.
Definition is_library (t : CellType) : bool :=
  match t with LibraryReference => true | _ => false end.

Definition to_byte (t : CellType) : Z :=
  match t with
  | Ordinary => 0xff
  | PrunedBranch => 1
  | LibraryReference => 2
  | MerkleProof => 3
  | MerkleUpdate => 4
  end.

Definition from_byte_exotic (byte : Z) : option CellType :=
  if byte =? 1 then Some PrunedBranch
  else if byte =? 2 then Some LibraryReference
  else if byte =? 3 then Some MerkleProof
  else if byte =? 4 then Some MerkleUpdate
  else None.
End CellTypes.

(** ** [struct CellDescriptor { d1: u8, d2: u8 }] *)
Record CellDescriptor := mkDescriptor { d1 : Z; d2 : Z }.

#[global] Instance CellDescriptor_eq_dec : EqDecision CellDescriptor.
Proof. solve_decision. Defined.

Module Descr.
Definition REF_COUNT_MASK : Z := 7.
Definition IS_EXOTIC_MASK : Z := 8.
Definition STORE_HASHES_MASK : Z := 16.
Definition ABSENT_MASK : Z := Z.lor STORE_HASHES_MASK REF_COUNT_MASK.
Definition LEVEL_MASK : Z := 0xe0.

Definition compute_d1 (level_mask : LevelMask.t) (is_exotic : bool) (ref_count : Z) : Z :=
  Z.lor (Z.lor (u8 (Z.shiftl level_mask 5)) (Z.shiftl (b2z is_exotic) 3))
    (Z.land ref_count REF_COUNT_MASK).

Definition compute_d2 (bit_len : Z) : Z :=
  Z.lor (Z.land (u8 (Z.shiftr bit_len 2)) (unot 8 1)) (b2z (negb (bit_len mod 8 =? 0))).

(** [CellDescriptor::new] *)
Definition new (b0 b1 : Z) : CellDescriptor := {| d1 := b0; d2 := b1 |}.

Definition virtualize (d : CellDescriptor) (offset : Z) : CellDescriptor :=
  let virtualized_mask := Z.land (Z.shiftr (d1 d) offset) LEVEL_MASK in
  {| d1 := Z.lor virtualized_mask (Z.land (d1 d) (unot 8 LEVEL_MASK)); d2 := d2 d |}.

Definition cell_type (d : CellDescriptor) : CellType :=
  if Z.land (d1 d) IS_EXOTIC_MASK =? 0 then Ordinary
  else
    let n := Z.land (d1 d) REF_COUNT_MASK in
    if n =? 0 then
      if Z.land (d1 d) LEVEL_MASK =? 0 then LibraryReference else PrunedBranch
    else if n =? 1 then MerkleProof else MerkleUpdate.

Definition reference_count (d : CellDescriptor) : Z := Z.land (d1 d) REF_COUNT_MASK.
Definition is_exotic (d : CellDescriptor) : bool := negb (Z.land (d1 d) IS_EXOTIC_MASK =? 0).
Definition level_mask (d : CellDescriptor) : LevelMask.t :=
  LevelMask.new_unchecked (Z.shiftr (d1 d) 5).

Definition hash_count (d : CellDescriptor) : Z :=
  let level := LevelMask.level (level_mask d) in
  if is_exotic d && (reference_count d =? 0) && (0 <? level) then 1 else u8 (level + 1).

Definition is_pruned_branch (d : CellDescriptor) : bool :=
  is_exotic d && (reference_count d =? 0) && negb (LevelMask.is_empty (level_mask d)).
Definition is_library (d : CellDescriptor) : bool :=
  is_exotic d && (reference_count d =? 0) && LevelMask.is_empty (level_mask d).
Definition is_merkle (d : CellDescriptor) : bool :=
  is_exotic d && negb (reference_count d =? 0).
Definition is_absent (d : CellDescriptor) : bool :=
  Z.land (d1 d) (unot 8 LEVEL_MASK) =? ABSENT_MASK.
Definition store_hashes (d : CellDescriptor) : bool :=
  negb (Z.land (d1 d) STORE_HASHES_MASK =? 0).
Definition is_aligned (d : CellDescriptor) : bool := Z.land (d2 d) 1 =? 0.
Definition byte_len (d : CellDescriptor) : Z := u8 (Z.land (d2 d) 1 + Z.shiftr (d2 d) 1).
End Descr.

(** ** [struct Size { bits: u16, refs: u8 }] *)
Record Size := mkSize { bits : Z; refs : Z }.

Module Sizes.
Definition ZERO : Size := {| bits := 0; refs := 0 |}.
Definition MAX : Size := {| bits := 1023; refs := 4 |}.
Definition wf (s : Size) : Prop := 0 <= bits s < 65536 /\ 0 <= refs s < 256.
Definition fits_into_cell (s : Size) : bool := (bits s <=? 1023) && (refs s <=? 4).
Definition saturating_add (s t : Size) : Size :=
  {| bits := Prelude.saturating_add 16 (bits s) (bits t);
     refs := Prelude.saturating_add 8 (refs s) (refs t) |}.
Definition saturating_sub (s t : Size) : Size :=
  {| bits := Prelude.saturating_sub (bits s) (bits t);
     refs := Prelude.saturating_sub (refs s) (refs t) |}.
(** [Add] and [Sub], as the release build wraps them. *)
Definition add (s t : Size) : Size := {| bits := u16 (bits s + bits t); refs := u8 (refs s + refs t) |}.
Definition sub (s t : Size) : Size := {| bits := u16 (bits s - bits t); refs := u8 (refs s - refs t) |}.
Definition is_zero (s : Size) : bool := (bits s =? 0) && (refs s =? 0).
End Sizes.

(** ** [enum LoadMode] of [src/src/cell/cell_context.rs] *)
Inductive LoadMode : Type := Noop | UseGas | Resolve | Full.

Module LoadModes.
Definition to_u8 (m : LoadMode) : Z :=
  match m with Noop => 0 | UseGas => 1 | Resolve => 2 | Full => 3 end.
Definition use_gas (m : LoadMode) : bool := negb (Z.land (to_u8 m) 1 =? 0).
Definition resolve (m : LoadMode) : bool := negb (Z.land (to_u8 m) 2 =? 0).
End LoadModes.

(** ** Lemmas

    The masks have eight values and the descriptors 256, so their laws are
    decided by evaluation over the whole range. *)

(** Every level mask. *)
Lemma mask_cases (P : Z -> bool) :
  forallb P (seqZ 0 8) = true -> forall m, LevelMask.wf m -> P m = true.
Proof. intros H m Hm. by eapply Zrange_forall in H. Qed.

Lemma level_mask_level m : LevelMask.wf m -> 0 <= LevelMask.level m <= 3.
Proof.
  intros H. assert ((0 <=? LevelMask.level m) && (LevelMask.level m <=? 3) = true); [|lia].
  by apply (mask_cases (fun m => (0 <=? LevelMask.level m) && (LevelMask.level m <=? 3))).
Qed.

Lemma new_wf x : 0 <= x -> LevelMask.wf (LevelMask.new x).
Proof.
  intros. unfold LevelMask.wf, LevelMask.new. rewrite Z.land_comm.
  apply (land_range 3); lia.
Qed.

Lemma bitor_wf m n : LevelMask.wf m -> LevelMask.wf n -> LevelMask.wf (LevelMask.bitor m n).
Proof. unfold LevelMask.wf, LevelMask.bitor. intros. apply (lor_range 3); lia. Qed.

Lemma virtualize_wf m k : LevelMask.wf m -> 0 <= k -> LevelMask.wf (LevelMask.virtualize m k).
Proof. unfold LevelMask.wf, LevelMask.virtualize. intros. apply (shiftr_range 3); lia. Qed.

(** The iterator yields level 0 and the levels of the mask, in order. *)
Lemma mask_iter_levels m :
  LevelMask.wf m ->
  LevelMask.collect 9 (LevelMask.into_iter m) =
    base.filter (fun l => LevelMask.contains m l = true) [0; 1; 2; 3].
Proof.
  intros Hm. apply (mask_cases (fun m => bool_decide
    (LevelMask.collect 9 (LevelMask.into_iter m) =
     base.filter (fun l => LevelMask.contains m l = true) [0; 1; 2; 3]))) in Hm.
  - by apply bool_decide_eq_true in Hm.
  - vm_compute. reflexivity.
Qed.

(** The position of a contained level among the yielded ones is its hash index. *)
Lemma hash_index_count m l :
  LevelMask.wf m -> 0 <= l <= 3 ->
  LevelMask.hash_index m l =
    Z.of_nat (length (base.filter (fun k => LevelMask.contains m k = true) (seqZ 1 l))).
Proof.
  intros Hm Hl. apply (mask_cases (fun m => forallb (fun l => Z.eqb (LevelMask.hash_index m l)
    (Z.of_nat (length (base.filter (fun k => LevelMask.contains m k = true) (seqZ 1 l)))))
    (seqZ 0 4))) in Hm; [|vm_compute; reflexivity].
  apply Zrange_forall with (x := l) in Hm; [|lia]. by apply Z.eqb_eq in Hm.
Qed.

(** Descriptor bytes made by [compute_d1] are read back by the accessors. *)
Lemma compute_d1_fields m e r b2 :
  LevelMask.wf m -> 0 <= r <= 7 ->
  let d := Descr.new (Descr.compute_d1 m e r) b2 in
  Descr.level_mask d = m /\ Descr.is_exotic d = e /\ Descr.reference_count d = r /\
  Descr.store_hashes d = false.
Proof.
  intros Hm Hr d.
  apply (mask_cases (fun m => forallb (fun r => forallb (fun e =>
    let d := Descr.new (Descr.compute_d1 m e r) b2 in
    (Descr.level_mask d =? m) && eqb (Descr.is_exotic d) e && (Descr.reference_count d =? r)
    && negb (Descr.store_hashes d)) [true; false]) (seqZ 0 8))) in Hm;
    [|vm_compute; reflexivity].
  apply Zrange_forall with (x := r) in Hm; [|lia].
  rewrite forallb_forall in Hm. specialize (Hm e ltac:(destruct e; simpl; auto)).
  fold d in Hm. rewrite !andb_true_iff, negb_true_iff, !Z.eqb_eq, eqb_true_iff in Hm.
  naive_solver.
Qed.

Lemma compute_d2_fields n b1 :
  0 <= n <= 1023 ->
  let d := Descr.new b1 (Descr.compute_d2 n) in
  Descr.byte_len d = div_ceil n 8 /\ Descr.is_aligned d = (n mod 8 =? 0).
Proof.
  intros Hn d.
  assert ((Descr.byte_len d =? div_ceil n 8) && eqb (Descr.is_aligned d) (n mod 8 =? 0) = true)
    as H.
  { apply (Zrange_forall (fun n => let d := Descr.new b1 (Descr.compute_d2 n) in
      (Descr.byte_len d =? div_ceil n 8) && eqb (Descr.is_aligned d) (n mod 8 =? 0)) 1024);
      [vm_compute; reflexivity | lia]. }
  by rewrite andb_true_iff, Z.eqb_eq, eqb_true_iff in H.
Qed.

Lemma exotic_byte_roundtrip t :
  CellTypes.from_byte_exotic (CellTypes.to_byte t) =
    if CellTypes.is_exotic t then Some t else None.
Proof. by destruct t. Qed.
