(* ===== verification/Cell.v ===== *)
(** * Cell: the cell tree and its finalization

    The implementations of [CellImpl] in [src/src/cell/cell_impl/mod.rs], the
    hash computation [CellParts::compute_hashes] of
    [src/src/cell/cell_context.rs], [make_cell] and the empty context of
    [src/src/cell/cell_impl/sync.rs].

    SHA-256 is a third-party function and a parameter of the model.  Reference
    counting, the deleter and the memory layout of [make_cell] are not modelled:
    a cell is an immutable tree. *)

From S2P Require Import Prelude Bits CellMeta.

(** [struct HashBytes([u8; 32])] *)
Abbreviation HashBytes := (list Z) (only parsing).

Definition EMPTY_CELL_HASH : HashBytes :=
  [0x96; 0xa2; 0x96; 0xd2; 0x24; 0xf2; 0x85; 0xc6; 0x7b; 0xee; 0x93; 0xc3; 0x0f; 0x8a; 0x30; 0x91;
   0x57; 0xf0; 0xda; 0xa3; 0x5d; 0xc5; 0xb8; 0x7e; 0x41; 0x0b; 0x78; 0x63; 0x0a; 0x09; 0xcf; 0xc7].

(** The [CellImpl] implementations, with the fields of their structs.  The two
    intermediate cells are the views of a builder that [as_data_slice] and
    [as_full_slice] of [src/src/cell/builder.rs] give. *)
Inductive Cell : Type :=
| EmptyOrdinaryCell
| StaticCell (descr : CellDescriptor) (bytes : list Z) (len : Z) (hash : HashBytes)
| OrdinaryCell (len : Z) (hashes : list (HashBytes * Z)) (descr : CellDescriptor)
    (references : list Cell) (bytes : list Z)
| LibraryCell (repr_hash : HashBytes) (descr : CellDescriptor) (bytes : list Z)
| PrunedBranchCell (repr_hash : HashBytes) (level : Z) (descr : CellDescriptor) (bytes : list Z)
| AbsentCell (d1 : Z) (hashes : list (HashBytes * Z))
| VirtualCell (inner : Cell)
| VirtualCellWrapper (L : Z) (inner : Cell)
| IntermediateDataCell (bytes : list Z) (len : Z)
| IntermediateFullCell (bytes : list Z) (len : Z) (references : list Cell).

(** [static ALL_ZEROS_CELL] and [static ALL_ONES_CELL] *)
Definition ALL_ZEROS_CELL : Cell :=
  StaticCell (Descr.new 0 0xff) (replicate 127 0 ++ [1]) 1023
    [0xba; 0x03; 0x8d; 0x92; 0x4d; 0xa0; 0xb4; 0x2c; 0x44; 0x76; 0x62; 0xe6; 0xb8; 0xa5; 0x3f; 0x15;
     0x88; 0x9e; 0xbd; 0xf9; 0xd3; 0xb2; 0xf0; 0x1d; 0xbf; 0x94; 0x2c; 0x29; 0xbc; 0x48; 0x98; 0x71].

Definition ALL_ONES_CELL : Cell :=
  StaticCell (Descr.new 0 0xff) (replicate 128 0xff) 1023
    [0x82; 0x97; 0x0d; 0x46; 0x64; 0xb7; 0x68; 0x3c; 0x3d; 0x14; 0xd4; 0x9b; 0x1f; 0x9f; 0xf3; 0x49;
     0x66; 0x12; 0x81; 0x70; 0x30; 0x1a; 0x7b; 0xec; 0xc2; 0x7a; 0xf1; 0xad; 0xbe; 0x6a; 0x31; 0xc9].

(** ** Equality of cells is decidable *)
Definition cells_eq_dec (IH : forall a b : Cell, {a = b} + {a <> b}) : forall l k : list Cell, {l = k} + {l <> k}.
Proof.
  refine (fix go l k {struct l} := _). destruct l as [|a l], k as [|b k]; [left; reflexivity | right; discriminate | right; discriminate |].
  destruct (IH a b) as [->|N]; [|right; intros [= E _]; exact (N E)].
  destruct (go l k) as [->|N]; [left; reflexivity | right; intros [= E]; exact (N E)].
Defined.

#[global] Instance Cell_eq_dec : EqDecision Cell.
Proof.
  refine (fix IH (a b : Cell) {struct a} : {a = b} + {a <> b} := _).
  assert (forall x y : list Z, {x = y} + {x <> y}) as Hl by (apply List.list_eq_dec, Z.eq_dec).
  assert (forall x y : list (list Z * Z), {x = y} + {x <> y}) as Hh by (apply List.list_eq_dec; decide equality; apply Z.eq_dec).
  assert (forall x y : CellDescriptor, {x = y} + {x <> y}) as Hd by (intros x y; exact (decide (x = y))).
  decide equality; try apply Z.eq_dec; apply cells_eq_dec, IH.
Defined.

(** ** The [CellImpl] methods *)

Fixpoint descriptor (c : Cell) : CellDescriptor :=
  match c with
  | EmptyOrdinaryCell => Descr.new 0 0
  | StaticCell d _ _ _ => d
  | OrdinaryCell _ _ d _ _ => d
  | LibraryCell _ d _ => d
  | PrunedBranchCell _ _ d _ => d
  | AbsentCell d1 _ => Descr.new d1 0
  | VirtualCell c | VirtualCellWrapper _ c => descriptor c
  | IntermediateDataCell _ len => Descr.new 0 (Descr.compute_d2 len)
  | IntermediateFullCell _ len refs =>
      Descr.new (Descr.compute_d1 LevelMask.EMPTY false (zlen refs)) (Descr.compute_d2 len)
  end.

(** [data()]: the byte slice has the length the descriptor gives.  An absent cell
    panics here and in [bit_len]; nothing below asks it. *)
Fixpoint data (c : Cell) : list Z :=
  match c with
  | EmptyOrdinaryCell => []
  | StaticCell _ bytes _ _ => bytes
  | OrdinaryCell _ _ d _ bytes => sub_bytes bytes 0 (Descr.byte_len d)
  | LibraryCell _ _ bytes => bytes
  | PrunedBranchCell _ _ d bytes => sub_bytes bytes 0 (Descr.byte_len d)
  | AbsentCell _ _ => []
  | VirtualCell c | VirtualCellWrapper _ c => data c
  | IntermediateDataCell bytes _ | IntermediateFullCell bytes _ _ => bytes
  end.

Fixpoint bit_len (c : Cell) : Z :=
  match c with
  | EmptyOrdinaryCell => 0
  | StaticCell _ _ len _ => len
  | OrdinaryCell len _ _ _ _ => len
  | LibraryCell _ _ _ => 8 + 256
  | PrunedBranchCell _ level _ _ => u16 (8 + 8 + level * (256 + 16))
  | AbsentCell _ _ => 0
  | VirtualCell c | VirtualCellWrapper _ c => bit_len c
  | IntermediateDataCell _ len | IntermediateFullCell _ len _ => len
  end.

(** [virtualize]; [virtualize_into_next_wrapper] selects the vtable. *)
Fixpoint virtualize (c : Cell) : Cell :=
  match c with
  | OrdinaryCell _ _ d _ _ =>
      if LevelMask.is_empty (Descr.level_mask d) then c else VirtualCellWrapper 0 c
  | PrunedBranchCell _ _ _ _ => VirtualCellWrapper 0 c
  | VirtualCell c => virtualize c
  | VirtualCellWrapper L c => VirtualCellWrapper (if negb (L =? 0) then 2 else 1) c
  | _ => c
  end.

(** [CellFamily::virtualize]: the owned counterpart *)
Definition virtualize_owned (c : Cell) : Cell :=
  if LevelMask.is_empty (Descr.level_mask (descriptor c)) then c else VirtualCell c.

(** [OrdinaryCellHeader::reference] *)
Definition header_reference (d : CellDescriptor) (refs : list Cell) (index : Z) : option Cell :=
  if index <? Descr.reference_count d then refs !! Z.to_nat index else None.

(** [reference] *)
Fixpoint reference (c : Cell) (index : Z) : option Cell :=
  match c with
  | OrdinaryCell _ _ d refs _ => header_reference d refs index
  | VirtualCell c | VirtualCellWrapper _ c => option_map virtualize (reference c index)
  | IntermediateFullCell _ _ refs => refs !! Z.to_nat index
  | _ => None
  end.

(** [reference_cloned] *)
Fixpoint reference_cloned (c : Cell) (index : Z) : option Cell :=
  match c with
  | OrdinaryCell _ _ d refs _ => header_reference d refs index
  | VirtualCell c | VirtualCellWrapper _ c => option_map virtualize_owned (reference_cloned c index)
  | IntermediateFullCell _ _ refs => refs !! Z.to_nat index
  | _ => None
  end.

Definition hash_index (d : CellDescriptor) (level : Z) : Z :=
  LevelMask.hash_index (Descr.level_mask d) level.

Definition virtual_hash_index (d : CellDescriptor) (level offset : Z) : Z :=
  LevelMask.hash_index (LevelMask.virtualize (Descr.level_mask d) (1 + offset)) level.

(** [OrdinaryCellHeader::level_descr] *)
Definition level_descr (hashes : list (HashBytes * Z)) (d : CellDescriptor) (level : Z)
    : HashBytes * Z :=
  default ([], 0) (hashes !! Z.to_nat (hash_index d level)).

(** The hash of an intermediate cell panics in the code; nothing below asks for it. *)
Fixpoint hash (c : Cell) (level : Z) : HashBytes :=
  match c with
  | EmptyOrdinaryCell => EMPTY_CELL_HASH
  | StaticCell _ _ _ h => h
  | OrdinaryCell _ hashes d _ _ => (level_descr hashes d level).1
  | LibraryCell h _ _ => h
  | PrunedBranchCell h lvl d bytes =>
      let i := hash_index d level in
      if i =? lvl then h else sub_bytes bytes (2 + i * 32) 32
  | AbsentCell d1 hashes => (level_descr hashes (Descr.new d1 0) level).1
  | VirtualCell c => hash c (virtual_hash_index (descriptor c) level 0)
  | VirtualCellWrapper L c => hash c (virtual_hash_index (descriptor c) level L)
  | IntermediateDataCell _ _ | IntermediateFullCell _ _ _ => []
  end.

Fixpoint depth (c : Cell) (level : Z) : Z :=
  match c with
  | EmptyOrdinaryCell | StaticCell _ _ _ _ | LibraryCell _ _ _
  | IntermediateDataCell _ _ | IntermediateFullCell _ _ _ => 0
  | OrdinaryCell _ hashes d _ _ => (level_descr hashes d level).2
  | PrunedBranchCell _ lvl d bytes =>
      let i := hash_index d level in
      if i =? lvl then 0 else from_be_bytes (sub_bytes bytes (2 + lvl * 32 + i * 2) 2)
  | AbsentCell d1 hashes => (level_descr hashes (Descr.new d1 0) level).2
  | VirtualCell c => depth c (virtual_hash_index (descriptor c) level 0)
  | VirtualCellWrapper L c => depth c (virtual_hash_index (descriptor c) level L)
  end.

(** [AbsentCell::new] *)
Definition absent_new (c : Cell) : Cell :=
  let desc := descriptor c in
  let dd1 := Z.lor (Z.land (d1 desc) Descr.LEVEL_MASK) Descr.ABSENT_MASK in
  let levels := LevelMask.collect 9 (LevelMask.into_iter (Descr.level_mask desc)) in
  AbsentCell dd1 ((fun l => (hash c l, depth c l)) <$> levels).

(** ** The methods of [DynCell] *)

Definition cell_type (c : Cell) : CellType := Descr.cell_type (descriptor c).
Definition level_mask (c : Cell) : LevelMask.t := Descr.level_mask (descriptor c).
Definition level (c : Cell) : Z := LevelMask.level (level_mask c).
Definition reference_count (c : Cell) : Z := Descr.reference_count (descriptor c).
Definition is_exotic (c : Cell) : bool := Descr.is_exotic (descriptor c).
Definition repr_hash (c : Cell) : HashBytes := hash c LevelMask.MAX_LEVEL.
Definition repr_depth (c : Cell) : Z := depth c LevelMask.MAX_LEVEL.
Definition is_empty (c : Cell) : bool :=
  bool_decide (hash c LevelMask.MAX_LEVEL = EMPTY_CELL_HASH).

(** [has_max_depth]: the loop over the levels of the mask *)
Definition has_max_depth (c : Cell) : bool :=
  existsb (fun l => depth c l =? 65535)
    (LevelMask.collect 9 (LevelMask.into_iter (level_mask c))).

(** The items a [for] loop takes from a [RefsIter]: it ends at the first [None]. *)
Fixpoint iter_refs (get : Z -> option Cell) (n : nat) (index : Z) : list Cell :=
  match n with
  | O => []
  | S n => match get index with
           | Some child => child :: iter_refs get n (index + 1)
           | None => []
           end
  end.

(** The windows of [RefsIter] and [ClonedRefsIter], [references] *)
Definition refs_window (c : Cell) (from to : Z) : list Cell :=
  iter_refs (reference c) (Z.to_nat (to - from)) from.
Definition refs_window_cloned (c : Cell) (from to : Z) : list Cell :=
  iter_refs (reference_cloned c) (Z.to_nat (to - from)) from.

Definition references (c : Cell) : list Cell := refs_window c 0 (reference_count c).

(** [PartialEq for DynCell] compares representation hashes. *)
Definition cell_eqb (c k : Cell) : bool := bool_decide (repr_hash c = repr_hash k).

(** ** [struct CellParts] and its validation *)
Record CellParts := mkParts {
  p_bit_len : Z;
  p_descriptor : CellDescriptor;
  p_children_mask : LevelMask.t;
  p_references : list Cell;
  p_data : list Z;
}.

Section Hashes.
Variable sha256 : list Z -> HashBytes.

(** The first half of [compute_hashes]: the type of the cell and the level mask
    its content requires. *)
Definition validate_type (p : CellParts) : result (CellType * LevelMask.t) :=
  let level_mask := Descr.level_mask (p_descriptor p) in
  let level := LevelMask.level level_mask in
  let bytes := p_data p in
  if Descr.is_exotic (p_descriptor p) then
    match bytes with
    | [] => Err InvalidCell
    | first_byte :: _ =>
      match CellTypes.from_byte_exotic first_byte with
      | Some PrunedBranch =>
          if level =? 0 then Err InvalidCell else
          let expected_bit_len := 8 + 8 + level * (256 + 16) in
          if negb (p_bit_len p =? expected_bit_len) || negb (zlen (p_references p) =? 0)
          then Err InvalidCell else
          let stored_mask := byte_at bytes 1 in
          if negb (level_mask =? stored_mask) then Err InvalidCell
          else Ok (PrunedBranch, level_mask)
      | Some MerkleProof =>
          if negb (p_bit_len p =? 8 + 256 + 16) || negb (zlen (p_references p) =? 1)
             || (zlen bytes <? 35) then Err InvalidCell else
          let stored_hash := sub_bytes bytes 1 32 in
          let stored_depth := from_be_bytes [byte_at bytes 33; byte_at bytes 34] in
          match p_references p with
          | child :: _ =>
              if negb (bool_decide (hash child 0 = stored_hash))
                 || negb (depth child 0 =? stored_depth) then Err InvalidCell
              else Ok (MerkleProof, LevelMask.virtualize (p_children_mask p) 1)
          | [] => Err InvalidCell
          end
      | Some MerkleUpdate =>
          if negb (p_bit_len p =? 8 + 2 * (256 + 16)) || negb (zlen (p_references p) =? 2)
             || (zlen bytes <? 69) then Err InvalidCell else
          let stored_old_hash := sub_bytes bytes 1 32 in
          let stored_new_hash := sub_bytes bytes 33 32 in
          let stored_old_depth := from_be_bytes [byte_at bytes 65; byte_at bytes 66] in
          let stored_new_depth := from_be_bytes [byte_at bytes 67; byte_at bytes 68] in
          match p_references p with
          | old :: new :: _ =>
              if negb (bool_decide (hash old 0 = stored_old_hash))
                 || negb (depth old 0 =? stored_old_depth)
                 || negb (bool_decide (hash new 0 = stored_new_hash))
                 || negb (depth new 0 =? stored_new_depth) then Err InvalidCell
              else Ok (MerkleUpdate, LevelMask.virtualize (p_children_mask p) 1)
          | _ => Err InvalidCell
          end
      | Some LibraryReference =>
          if negb (p_bit_len p =? 8 + 256) || negb (zlen (p_references p) =? 0)
          then Err InvalidCell else Ok (LibraryReference, LevelMask.EMPTY)
      | _ => Err InvalidCell
      end
    end
  else Ok (Ordinary, p_children_mask p).

(** The loop that hashes child depths: the new depth and the bytes hashed. *)
Fixpoint hash_depths (refs : list Cell) (lvl dep : Z) (acc : list Z) : result (Z * list Z) :=
  match refs with
  | [] => Ok (dep, acc)
  | child :: refs =>
      let child_depth := depth child lvl in
      if 65535 <? child_depth + 1 then Err DepthOverflow
      else hash_depths refs lvl (Z.max dep (child_depth + 1))
             (acc ++ to_be_bytes 2 child_depth)
  end.

(** One iteration of the level loop: the hash and depth of level [lvl]. *)
Definition hash_level (p : CellParts) (ty : CellType) (mask : LevelMask.t) (lvl : Z)
    (dd1 : Z) (hashes : list (HashBytes * Z)) : result (Z * list (HashBytes * Z)) :=
  let level_offset := b2z (CellTypes.is_merkle ty) in
  let is_pruned := CellTypes.is_pruned_branch ty in
  let level_mask := if is_pruned then mask else LevelMask.from_level lvl in
  let dd1 := Z.land dd1 (unot 8 (Z.lor Descr.LEVEL_MASK Descr.STORE_HASHES_MASK)) in
  let dd1 := Z.lor dd1 (u8 (Z.shiftl level_mask 5)) in
  let head := [dd1; d2 (p_descriptor p)] ++
    (if lvl =? 0 then p_data p else (default ([], 0) (list.last hashes)).1) in
  let! (dep, bytes) := hash_depths (p_references p) (lvl + level_offset) 0 head in
  let bytes := bytes ++
    flat_map (fun child => hash child (lvl + level_offset)) (p_references p) in
  Ok (dd1, hashes ++ [(sha256 bytes, dep)]).

Fixpoint hash_levels (p : CellParts) (ty : CellType) (mask : LevelMask.t) (lvls : list Z)
    (dd1 : Z) (hashes : list (HashBytes * Z)) : result (list (HashBytes * Z)) :=
  match lvls with
  | [] => Ok hashes
  | lvl :: lvls =>
      if negb (lvl =? 0) &&
         (CellTypes.is_pruned_branch ty || negb (LevelMask.contains mask lvl))
      then hash_levels p ty mask lvls dd1 hashes
      else
        let! (dd1, hashes) := hash_level p ty mask lvl dd1 hashes in
        hash_levels p ty mask lvls dd1 hashes
  end.

(** [CellParts::compute_hashes] *)
Definition compute_hashes (p : CellParts) : result (list (HashBytes * Z)) :=
  let level_mask := Descr.level_mask (p_descriptor p) in
  if zlen (p_data p) <? div_ceil (p_bit_len p) 8 then Err InvalidCell else
  let! (ty, computed_level_mask) := validate_type p in
  if negb (computed_level_mask =? level_mask) then Err InvalidCell else
  hash_levels p ty level_mask [0; 1; 2; 3] (d1 (p_descriptor p)) [].

(** [make_cell] *)
Definition make_cell (p : CellParts) (hashes : list (HashBytes * Z)) : Cell :=
  let d := p_descriptor p in
  let repr := (default ([], 0) (hashes !! 0%nat)).1 in
  match Descr.cell_type d with
  | PrunedBranch =>
      PrunedBranchCell repr (LevelMask.level (Descr.level_mask d)) d (p_data p)
  | LibraryReference => LibraryCell repr d (sub_bytes (p_data p) 0 33)
  | Ordinary =>
      if (d1 d =? 0) && (d2 d =? 0) then EmptyOrdinaryCell
      else OrdinaryCell (p_bit_len p) hashes d (p_references p) (p_data p)
  | _ => OrdinaryCell (p_bit_len p) hashes d (p_references p) (p_data p)
  end.
End Hashes.

(** ** [trait CellContext], and [EmptyCellContext] *)
Class CellContext : Type := {
  finalize_cell : CellParts -> result Cell;
  load_cell : Cell -> LoadMode -> result Cell;
  load_dyn_cell : Cell -> LoadMode -> result Cell;
}.

Definition empty_context (sha256 : list Z -> HashBytes) : CellContext := {|
  finalize_cell p :=
    let! hashes := compute_hashes sha256 p in
    Ok (make_cell p hashes);
  load_cell c _ := Ok c;
  load_dyn_cell c _ := Ok c;
|}.

(** ** Lemmas *)

(** Both ways to a child find one at the same indices. *)
Lemma reference_cloned_is_Some c i : is_Some (reference_cloned c i) <-> is_Some (reference c i).
Proof.
  induction c; simpl; try done;
    destruct (reference_cloned _ _), (reference _ _); simpl; unfold is_Some in *; naive_solver.
Qed.

(** A cell whose owned and borrowed children are the same: any but the virtual ones. *)
Definition plain (c : Cell) : Prop := forall i, reference_cloned c i = reference c i.

Lemma iter_refs_ext f g n i : (forall j, f j = g j) -> iter_refs f n i = iter_refs g n i.
Proof.
  intros H. revert i. induction n as [|n IH]; intros i; simpl; [done|].
  rewrite H. destruct (g i); [|done]. by rewrite IH.
Qed.

Lemma plain_window c from to : plain c -> refs_window_cloned c from to = refs_window c from to.
Proof. apply iter_refs_ext. Qed.

(** With every index of the window present, the window is all the children. *)
Lemma length_iter_refs f n i :
  (forall j, i <= j < i + Z.of_nat n -> is_Some (f j)) -> length (iter_refs f n i) = n.
Proof.
  revert i. induction n as [|n IH]; intros i H; simpl; [done|].
  destruct (H i) as [c ->]; [lia|]. simpl. rewrite IH; [done|]. intros. apply H. lia.
Qed.

Lemma iter_refs_lookup f n i j :
  (forall j, i <= j < i + Z.of_nat n -> is_Some (f j)) -> (j < n)%nat ->
  iter_refs f n i !! j = f (i + Z.of_nat j).
Proof.
  revert i j. induction n as [|n IH]; intros i j H Hj; simpl; [lia|].
  destruct (H i) as [c E]; [lia|]. rewrite E. destruct j as [|j]; simpl.
  - by rewrite Z.add_0_r, E.
  - rewrite IH; [f_equal; lia | intros; apply H; lia | lia].
Qed.

Lemma iter_refs_list f (l : list Cell) :
  (forall i, 0 <= i < Z.of_nat (length l) -> f i = l !! Z.to_nat i) -> iter_refs f (length l) 0 = l.
Proof.
  intros H. assert (forall j, 0 <= j < 0 + Z.of_nat (length l) -> is_Some (f j)) as HS.
  { intros j Hj. rewrite H by lia. apply lookup_lt_is_Some_2. lia. }
  apply list_eq. intros j. destruct (decide (j < length l)%nat).
  - rewrite iter_refs_lookup, H by (done || lia). f_equal. lia.
  - rewrite !lookup_ge_None_2; rewrite ?length_iter_refs; (done || lia).
Qed.
