(* ===== verification/RefsIter.v ===== *)
(** * RefsIter: iterators over the children of a cell ([src/src/cell/mod.rs])

    [RefsIter] and [ClonedRefsIter], from both ends.  [next] returns the item and the
    new state.  For a cell all of whose children are there the items left are a part
    of [references]. *)

From S2P Require Import Prelude Bits CellMeta Cell.

Record RefsIter := mkIter { it_cell : Cell; it_max : Z; it_index : Z }.

(** [DynCell::references] *)
Definition refs_iter (c : Cell) : RefsIter := mkIter c (reference_count c) 0.

Definition peek_with (get : Cell -> Z -> option Cell) (it : RefsIter) : option Cell :=
  if it_max it <=? it_index it then None else get (it_cell it) (it_index it).
Definition peek : RefsIter -> option Cell := peek_with reference.
Definition peek_cloned : RefsIter -> option Cell := peek_with reference_cloned.

Definition peek_prev_with (get : Cell -> Z -> option Cell) (it : RefsIter) : option Cell :=
  if 0 <? it_index it then get (it_cell it) (it_index it - 1) else None.
Definition peek_prev : RefsIter -> option Cell := peek_prev_with reference.
Definition peek_prev_cloned : RefsIter -> option Cell := peek_prev_with reference_cloned.

(** [Iterator::next] of both iterators *)
Definition next_with (get : Cell -> Z -> option Cell) (it : RefsIter) : option Cell * RefsIter :=
  if it_max it <=? it_index it then (None, it)
  else (get (it_cell it) (it_index it), mkIter (it_cell it) (it_max it) (u8 (it_index it + 1))).
Definition iter_next : RefsIter -> option Cell * RefsIter := next_with reference.
Definition iter_next_cloned : RefsIter -> option Cell * RefsIter := next_with reference_cloned.

(** [DoubleEndedIterator::next_back] of both *)
Definition next_back_with (get : Cell -> Z -> option Cell) (it : RefsIter) : option Cell * RefsIter :=
  if it_index it <? it_max it then
    let max := u8 (it_max it - 1) in
    (get (it_cell it) max, mkIter (it_cell it) max (it_index it))
  else (None, it).
Definition iter_next_back : RefsIter -> option Cell * RefsIter := next_back_with reference.
Definition iter_next_back_cloned : RefsIter -> option Cell * RefsIter := next_back_with reference_cloned.

(** [ExactSizeIterator::len] *)
Definition iter_len (it : RefsIter) : Z := saturating_sub (it_max it) (it_index it).

(** ** Lemmas *)

(** A cell whose reference count is the number of its children. *)
Definition counted (c : Cell) : Prop := reference_count c = zlen (references c).

Lemma reference_count_range c : 0 <= reference_count c <= 7.
Proof.
  unfold reference_count, Descr.reference_count, Descr.REF_COUNT_MASK. change 7 with (Z.ones 3) at 1 2.
  rewrite Z.land_ones by lia. change (2 ^ 3) with 8. change (Z.ones 3) with 7. lia.
Qed.

Lemma iter_refs_full f n i :
  length (iter_refs f n i) = n -> forall j, (j < n)%nat -> iter_refs f n i !! j = f (i + Z.of_nat j).
Proof.
  revert i. induction n as [|n IH]; intros i Hl j Hj; [lia|]. simpl in Hl |- *.
  destruct (f i) as [x|] eqn:E; [|simpl in Hl; lia]. destruct j as [|j]; simpl; [by rewrite Z.add_0_r|].
  simpl in Hl. rewrite IH by lia. f_equal. lia.
Qed.

Lemma references_lookup c i :
  counted c -> (i < length (references c))%nat -> references c !! i = reference c (Z.of_nat i).
Proof.
  unfold counted, references, refs_window. rewrite Z.sub_0_r. pose proof (reference_count_range c) as Hr.
  intros Hc Hi. rewrite iter_refs_full; [done | unfold zlen in Hc; lia | unfold zlen in Hc; lia].
Qed.

(** The state before child [i], and what [next] does there. *)
Definition iter_at (c : Cell) (i : nat) : RefsIter := mkIter c (reference_count c) (Z.of_nat i).

Lemma next_at c i child : counted c -> references c !! i = Some child -> iter_next (iter_at c i) = (Some child, iter_at c (S i)).
Proof.
  intros Hc E. apply lookup_lt_Some in E as Hi. pose proof (reference_count_range c). unfold iter_next, next_with, iter_at. simpl.
  rewrite (proj2 (Z.leb_gt _ _)) by (rewrite Hc; unfold zlen; lia).
  rewrite <- (references_lookup c i), E by done. rewrite u8_small by (rewrite Hc in *; unfold zlen in *; lia).
  do 2 f_equal. lia.
Qed.

Lemma next_end c : counted c -> iter_next (iter_at c (length (references c))) = (None, iter_at c (length (references c))).
Proof.
  intros Hc. unfold iter_next, next_with, iter_at. simpl. rewrite (proj2 (Z.leb_le _ _)); [done|]. rewrite Hc. done.
Qed.

Lemma prev_at c i child : counted c -> references c !! i = Some child -> is_Some (peek_prev_cloned (iter_at c (S i))).
Proof.
  intros Hc E. apply lookup_lt_Some in E as Hi. unfold peek_prev_cloned, peek_prev_with, iter_at. simpl.
  replace (Z.of_nat (S i) - 1) with (Z.of_nat i) by lia.
  apply (proj2 (reference_cloned_is_Some _ _)). rewrite <- (references_lookup c i), E by done. by eexists.
Qed.

Lemma prev_plain c i child : plain c -> counted c -> references c !! i = Some child -> peek_prev_cloned (iter_at c (S i)) = Some child.
Proof.
  intros Hp Hc E. apply lookup_lt_Some in E as Hi. unfold peek_prev_cloned, peek_prev_with, iter_at. simpl.
  replace (Z.of_nat (S i) - 1) with (Z.of_nat i) by lia.
  by rewrite Hp, <- references_lookup.
Qed.
