(* ===== verification/Slice.v ===== *)
(** * Slice: [CellSliceRange] and [CellSlice] of [src/src/cell/slice.rs]

    The read side of the cell layer, transcribed at the byte level: windows over
    the data and the references of a cell, unaligned big-endian reads, raw
    copies, the word-at-a-time scans and the longest-common-prefix loop.
    SliceSpec.v proves that they compute on the bit string of the window.

    A method that takes [&mut self] returns the advanced slice next to its
    result; when it fails the slice is the one it was called on.  All [u16] and
    [u8] additions of the source are written with their wrap-around (the
    behaviour of a release build). *)

From S2P Require Import Prelude Bits CellMeta Cell.

(** ** [struct CellSliceRange] *)
Record CellSliceRange := mkRange {
  bits_start : Z;
  bits_end : Z;
  refs_start : Z;
  refs_end : Z;
}.

#[global] Instance CellSliceRange_eq_dec : EqDecision CellSliceRange.
Proof. solve_decision. Defined.

Module Range.
Definition empty : CellSliceRange := mkRange 0 0 0 0.

Definition full (c : Cell) : CellSliceRange := mkRange 0 (bit_len c) 0 (reference_count c).

Definition size_bits (r : CellSliceRange) : Z := saturating_sub (bits_end r) (bits_start r).
Definition size_refs (r : CellSliceRange) : Z := saturating_sub (refs_end r) (refs_start r).
Definition size (r : CellSliceRange) : Size := mkSize (size_bits r) (size_refs r).
Definition is_data_empty (r : CellSliceRange) : bool := bits_end r <=? bits_start r.
Definition is_refs_empty (r : CellSliceRange) : bool := refs_end r <=? refs_start r.
Definition is_empty (r : CellSliceRange) : bool := is_data_empty r && is_refs_empty r.
Definition offset (r : CellSliceRange) : Size := mkSize (bits_start r) (refs_start r).

Definition has_remaining (r : CellSliceRange) (bits refs : Z) : bool :=
  (u16 (bits_start r + bits) <=? bits_end r) && (u8 (refs_start r + refs) <=? refs_end r).

(** The guard shared by the window operations. *)
Definition exceeds (r : CellSliceRange) (bits refs : Z) : bool :=
  (bits_end r <? u16 (bits_start r + bits)) || (refs_end r <? u8 (refs_start r + refs)).

Definition skip_first (r : CellSliceRange) (bits refs : Z) : result CellSliceRange :=
  if exceeds r bits refs then Err CellUnderflow
  else Ok (mkRange (u16 (bits_start r + bits)) (bits_end r)
                   (u8 (refs_start r + refs)) (refs_end r)).

Definition only_first (r : CellSliceRange) (bits refs : Z) : result CellSliceRange :=
  if exceeds r bits refs then Err CellUnderflow
  else Ok (mkRange (bits_start r) (u16 (bits_start r + bits))
                   (refs_start r) (u8 (refs_start r + refs))).

Definition skip_last (r : CellSliceRange) (bits refs : Z) : result CellSliceRange :=
  if exceeds r bits refs then Err CellUnderflow
  else Ok (mkRange (bits_start r) (u16 (bits_end r - bits))
                   (refs_start r) (u8 (refs_end r - refs))).

Definition only_last (r : CellSliceRange) (bits refs : Z) : result CellSliceRange :=
  if exceeds r bits refs then Err CellUnderflow
  else Ok (mkRange (u16 (bits_end r - bits)) (bits_end r)
                   (u8 (refs_end r - refs)) (refs_end r)).

(** Both halves of a split: the returned range and the remaining one. *)
Definition split_prefix (r : CellSliceRange) (bits refs : Z)
    : result (CellSliceRange * CellSliceRange) :=
  if exceeds r bits refs then Err CellUnderflow
  else
    let bs := u16 (bits_start r + bits) in
    let rs := u8 (refs_start r + refs) in
    Ok (mkRange (bits_start r) bs (refs_start r) rs, mkRange bs (bits_end r) rs (refs_end r)).

Definition split_suffix (r : CellSliceRange) (bits refs : Z)
    : result (CellSliceRange * CellSliceRange) :=
  if exceeds r bits refs then Err CellUnderflow
  else
    let be := u16 (bits_end r - bits) in
    let re := u8 (refs_end r - refs) in
    Ok (mkRange be (bits_end r) re (refs_end r), mkRange (bits_start r) be (refs_start r) re).

Definition get_prefix (r : CellSliceRange) (bits refs : Z) : CellSliceRange :=
  mkRange (bits_start r) (Z.min (u16 (bits_start r + bits)) (bits_end r))
          (refs_start r) (Z.min (u8 (refs_start r + refs)) (refs_end r)).

Definition is_full (r : CellSliceRange) (c : Cell) : bool :=
  (bits_start r =? 0) && (refs_start r =? 0) &&
  (bits_end r =? bit_len c) && (refs_end r =? reference_count c).
End Range.

(** ** [struct CellSlice] *)
Record CellSlice := mkSlice { cell : Cell; range : CellSliceRange }.

(** [CellSliceRange::apply] and [apply_allow_exotic] *)
Definition apply (r : CellSliceRange) (c : Cell) : result CellSlice :=
  if is_exotic c then Err UnexpectedExoticCell
  else
    let be := Z.min (bits_end r) (bit_len c) in
    let re := Z.min (refs_end r) (reference_count c) in
    Ok (mkSlice c (mkRange (Z.min (bits_start r) be) be (Z.min (refs_start r) re) re)).

Definition apply_allow_exotic (r : CellSliceRange) (c : Cell) : CellSlice := mkSlice c r.

(** [CellSlice::new] (also [DynCell::as_slice]) and [new_allow_exotic] *)
Definition slice_new (c : Cell) : result CellSlice :=
  if is_exotic c then Err UnexpectedExoticCell else Ok (mkSlice c (Range.full c)).

Definition new_allow_exotic (c : Cell) : CellSlice := mkSlice c (Range.full c).

Definition size_bits (s : CellSlice) : Z := Range.size_bits (range s).
Definition size_refs (s : CellSlice) : Z := Range.size_refs (range s).
Definition is_data_empty (s : CellSlice) : bool := Range.is_data_empty (range s).
Definition is_refs_empty (s : CellSlice) : bool := Range.is_refs_empty (range s).
Definition is_full (s : CellSlice) : bool := Range.is_full (range s) (cell s).

(** The window operations of a slice are those of its range. *)
Definition on_range (s : CellSlice) (r : result CellSliceRange) : result CellSlice :=
  let! r := r in Ok (mkSlice (cell s) r).

Definition skip_first (s : CellSlice) (bits refs : Z) := on_range s (Range.skip_first (range s) bits refs).
Definition only_first (s : CellSlice) (bits refs : Z) := on_range s (Range.only_first (range s) bits refs).
Definition skip_last (s : CellSlice) (bits refs : Z) := on_range s (Range.skip_last (range s) bits refs).
Definition only_last (s : CellSlice) (bits refs : Z) := on_range s (Range.only_last (range s) bits refs).

Definition get_prefix (s : CellSlice) (bits refs : Z) : CellSlice :=
  mkSlice (cell s) (Range.get_prefix (range s) bits refs).

(** [load_prefix], [load_suffix], [load_remaining] *)
Definition load_prefix (s : CellSlice) (bits refs : Z) : result (CellSlice * CellSlice) :=
  let! (p, r) := Range.split_prefix (range s) bits refs in
  Ok (mkSlice (cell s) p, mkSlice (cell s) r).

Definition load_suffix (s : CellSlice) (bits refs : Z) : result (CellSlice * CellSlice) :=
  let! (p, r) := Range.split_suffix (range s) bits refs in
  Ok (mkSlice (cell s) p, mkSlice (cell s) r).

Definition load_remaining (s : CellSlice) : CellSlice * CellSlice :=
  (s, mkSlice (cell s) (mkRange (bits_end (range s)) (bits_end (range s))
                                (refs_end (range s)) (refs_end (range s)))).

(** [self.range.bits_start += n] *)
Definition advance (s : CellSlice) (n : Z) : CellSlice :=
  let r := range s in
  mkSlice (cell s) (mkRange (u16 (bits_start r + n)) (bits_end r) (refs_start r) (refs_end r)).

(** [self.range.bits_start += n * res.is_ok() as u16; res] *)
Definition load_with {A} (s : CellSlice) (n : Z) (res : result A) : result (A * CellSlice) :=
  let! v := res in Ok (v, advance s n).

(** ** Bits and integers *)

Definition get_bit (s : CellSlice) (offset : Z) : result bool :=
  let r := range s in
  if u16 (bits_start r + offset) <? bits_end r then
    let index := u16 (bits_start r + offset) in
    match data (cell s) !! Z.to_nat (index / 8) with
    | Some byte => Ok (negb (Z.land (Z.shiftr byte (7 - index mod 8)) 1 =? 0))
    | None => Err CellUnderflow
    end
  else Err CellUnderflow.

Definition load_bit (s : CellSlice) : result (bool * CellSlice) :=
  let r := range s in
  if bits_start r <? bits_end r then
    let index := bits_start r in
    match data (cell s) !! Z.to_nat (index / 8) with
    | Some byte => Ok (negb (Z.land (Z.shiftr byte (7 - index mod 8)) 1 =? 0), advance s 1)
    | None => Err CellUnderflow
    end
  else Err CellUnderflow.

(** [get_u16], [get_u32], [get_u64]: an [n]-byte integer, read through a [w]-byte
    big-endian buffer when it is not aligned. *)
Definition get_be_uint (n w : Z) (s : CellSlice) (offset : Z) : result Z :=
  let rg := range s in
  if u16 (u16 (bits_start rg + offset) + 8 * n) <=? bits_end rg then
    let index := u16 (bits_start rg + offset) in
    let dat := data (cell s) in
    let data_len := zlen dat in
    let r := index mod 8 in
    let q := index / 8 in
    if (r =? 0) && (q + n <=? data_len) then Ok (from_be_bytes (sub_bytes dat q n))
    else if negb (r =? 0) && (q + (n + 1) <=? data_len) then
      let bytes := copy_bytes (replicate (Z.to_nat w) 0) (w - (n + 1))
                     (sub_bytes dat q (n + 1)) (n + 1) in
      let res := from_be_bytes bytes in
      Ok (wrap (8 * n) (Z.shiftr res (8 - r)))
    else Err CellUnderflow
  else Err CellUnderflow.

Definition get_u16 := get_be_uint 2 4.
Definition get_u32 := get_be_uint 4 8.
Definition get_u64 := get_be_uint 8 16.
Definition load_u16 (s : CellSlice) := load_with s 16 (get_u16 s 0).
Definition load_u32 (s : CellSlice) := load_with s 32 (get_u32 s 0).
Definition load_u64 (s : CellSlice) := load_with s 64 (get_u64 s 0).

Definition get_u128 (s : CellSlice) (offset : Z) : result Z :=
  let rg := range s in
  if u16 (u16 (bits_start rg + offset) + 128) <=? bits_end rg then
    let index := u16 (bits_start rg + offset) in
    let dat := data (cell s) in
    let data_len := zlen dat in
    let r := index mod 8 in
    let q := index / 8 in
    if (r =? 0) && (q + 16 <=? data_len) then Ok (from_be_bytes (sub_bytes dat q 16))
    else if negb (r =? 0) && (q + 17 <=? data_len) then
      let bytes := sub_bytes dat q 17 in
      let res := from_be_bytes (sub_bytes bytes 1 16) in
      Ok (Z.lor (u128 (Z.shiftl (byte_at bytes 0) (120 + r))) (Z.shiftr res (8 - r)))
    else Err CellUnderflow
  else Err CellUnderflow.

Definition load_u128 (s : CellSlice) := load_with s 128 (get_u128 s 0).

Definition get_u256 (s : CellSlice) (offset : Z) : result HashBytes :=
  let rg := range s in
  if u16 (u16 (bits_start rg + offset) + 256) <=? bits_end rg then
    let index := u16 (bits_start rg + offset) in
    let dat := data (cell s) in
    let data_len := zlen dat in
    let r := index mod 8 in
    let q := index / 8 in
    if (r =? 0) && (q + 32 <=? data_len) then Ok (sub_bytes dat q 32)
    else if negb (r =? 0) && (q + 33 <=? data_len) then
      let shift := 8 - r in
      let rev_shift := 120 + r in
      let bytes := sub_bytes dat q 33 in
      let ovf := byte_at bytes 0 in
      let hi := from_be_bytes (sub_bytes bytes 1 16) in
      let lo := from_be_bytes (sub_bytes bytes 17 16) in
      Ok (to_be_bytes 16 (Z.lor (Z.shiftr hi shift) (u128 (Z.shiftl ovf rev_shift))) ++
          to_be_bytes 16 (Z.lor (Z.shiftr lo shift) (u128 (Z.shiftl hi rev_shift))))
    else Err CellUnderflow
  else Err CellUnderflow.

Definition load_u256 (s : CellSlice) := load_with s 256 (get_u256 s 0).

Definition get_small_uint (s : CellSlice) (offset bits : Z) : result Z :=
  if bits =? 0 then Ok 0 else
  let rg := range s in
  if (bits <=? 8) && (u16 (u16 (bits_start rg + offset) + bits) <=? bits_end rg) then
    let index := u16 (bits_start rg + offset) in
    let r := index mod 8 in
    let q := index / 8 in
    match data (cell s) !! Z.to_nat q with
    | None => Err CellUnderflow
    | Some byte =>
        if r =? 0 then Ok (Z.shiftr byte (8 - bits))
        else if bits <=? 8 - r then
          Ok (Z.land (Z.shiftr byte (8 - r - bits)) (u8 (Z.shiftl 1 bits) - 1))
        else
          match data (cell s) !! Z.to_nat (q + 1) with
          | None => Err CellUnderflow
          | Some next_byte =>
              let res := Z.lor (u16 (Z.shiftl byte 8)) next_byte in
              Ok (Z.shiftr (u8 (Z.shiftr res (8 - r))) (8 - bits))
          end
    end
  else Err CellUnderflow.

Definition load_small_uint (s : CellSlice) (bits : Z) := load_with s bits (get_small_uint s 0 bits).
Definition get_u8 (s : CellSlice) (offset : Z) := get_small_uint s offset 8.
Definition load_u8 (s : CellSlice) := load_small_uint s 8.

Definition get_uint (s : CellSlice) (offset bits : Z) : result Z :=
  if bits =? 0 then Ok 0 else
  let rg := range s in
  if (bits <=? 64) && (u16 (u16 (bits_start rg + offset) + bits) <=? bits_end rg) then
    let index := u16 (bits_start rg + offset) in
    let dat := data (cell s) in
    let data_len := zlen dat in
    if data_len <? div_ceil (bits_end rg) 8 then Err CellUnderflow else
    let r := index mod 8 in
    let q := index / 8 in
    let first_byte := Z.land (byte_at dat q) (Z.shiftr 0xff r) in
    let right_shift := (8 - (bits + r) mod 8) mod 8 in
    if r + bits <=? 8 then Ok (Z.shiftr first_byte right_shift)
    else
      let bits := bits - (8 - r) in
      let n := div_ceil bits 8 in
      let bytes := copy_bytes (replicate 8 0) 0 (sub_bytes dat (q + 1) n) n in
      let result := Z.shiftr (from_be_bytes bytes) (64 - bits) in
      Ok (Z.lor result (u64 (Z.shiftl first_byte bits)))
  else Err CellUnderflow.

Definition load_uint (s : CellSlice) (bits : Z) := load_with s bits (get_uint s 0 bits).

(** The copy loop of [get_raw]: [byte_len] iterations from index [i] on. *)
Fixpoint get_raw_loop (n : nat) (dat target : list Z) (q r i : Z) : list Z :=
  match n with
  | O => target
  | S n =>
      let target := set_byte target i
        (Z.lor (u8 (Z.shiftl (byte_at dat (q + i)) r)) (Z.shiftr (byte_at dat (q + i + 1)) (8 - r))) in
      get_raw_loop n dat target q r (i + 1)
  end.

(** [get_raw]: the bytes of the returned subslice of [target]. *)
Definition get_raw (s : CellSlice) (offset : Z) (target : list Z) (bits : Z) : result (list Z) :=
  if bits =? 0 then Ok [] else
  let rg := range s in
  if u16 (bits_start rg + bits) <=? bits_end rg then
    let index := u16 (bits_start rg + offset) in
    let dat := data (cell s) in
    let data_len := zlen dat in
    let target_len := div_ceil bits 8 in
    if zlen target <? target_len then Err CellUnderflow else
    let target := sub_bytes target 0 target_len in
    let r := index mod 8 in
    let q := index / 8 in
    let! target :=
      if (r =? 0) && (q + target_len <=? data_len) then
        Ok (copy_bytes target 0 (sub_bytes dat q target_len) target_len)
      else if negb (r =? 0) then
        let byte_len := div_ceil (bits + r) 8 - 1 in
        if data_len <? q + byte_len then Err CellUnderflow else
        let target := get_raw_loop (Z.to_nat byte_len) dat target q r 0 in
        if byte_len <? target_len then
          Ok (set_byte target byte_len (u8 (Z.shiftl (byte_at dat (q + byte_len)) r)))
        else Ok target
      else Err CellUnderflow in
    let bits_r := bits mod 8 in
    if negb (bits_r =? 0) then
      Ok (set_byte target (target_len - 1)
            (Z.land (byte_at target (target_len - 1)) (u8 (Z.shiftl 0xff (8 - bits_r)))))
    else Ok target
  else Err CellUnderflow.

Definition load_raw (s : CellSlice) (target : list Z) (bits : Z) :=
  load_with s bits (get_raw s 0 target bits).

(** ** References *)

Definition get_reference (s : CellSlice) (index : Z) : result Cell :=
  let rg := range s in
  if u8 (refs_start rg + index) <? refs_end rg then
    match reference (cell s) (u8 (refs_start rg + index)) with
    | Some c => Ok c
    | None => Err CellUnderflow
    end
  else Err CellUnderflow.

Definition get_reference_as_slice (s : CellSlice) (index : Z) : result CellSlice :=
  let rg := range s in
  if u8 (refs_start rg + index) <? refs_end rg then
    match reference (cell s) (u8 (refs_start rg + index)) with
    | Some c => slice_new c
    | None => Err CellUnderflow
    end
  else Err CellUnderflow.

(** [references()]: the items of the iterator over the window *)
Definition slice_references (s : CellSlice) : list Cell :=
  refs_window (cell s) (refs_start (range s)) (refs_end (range s)).

(** [references().cloned()] *)
Definition slice_references_cloned (s : CellSlice) : list Cell :=
  refs_window_cloned (cell s) (refs_start (range s)) (refs_end (range s)).

Definition without_references (s : CellSlice) : CellSlice :=
  let r := range s in
  mkSlice (cell s) (mkRange (bits_start r) (bits_end r) (refs_end r) (refs_end r)).

Definition advance_ref (s : CellSlice) : CellSlice :=
  let r := range s in
  mkSlice (cell s) (mkRange (bits_start r) (bits_end r) (u8 (refs_start r + 1)) (refs_end r)).

Definition load_reference (s : CellSlice) : result (Cell * CellSlice) :=
  let rg := range s in
  if refs_start rg <? refs_end rg then
    match reference (cell s) (refs_start rg) with
    | Some c => Ok (c, advance_ref s)
    | None => Err CellUnderflow
    end
  else Err CellUnderflow.

(** [load_reference_cloned] *)
Definition load_reference_cloned (s : CellSlice) : result (Cell * CellSlice) :=
  let rg := range s in
  if refs_start rg <? refs_end rg then
    match reference_cloned (cell s) (refs_start rg) with
    | Some c => Ok (c, advance_ref s)
    | None => Err CellUnderflow
    end
  else Err CellUnderflow.

(** [get_reference_cloned] *)
Definition get_reference_cloned (s : CellSlice) (index : Z) : result Cell :=
  let rg := range s in
  if u8 (refs_start rg + index) <? refs_end rg then
    match reference_cloned (cell s) (u8 (refs_start rg + index)) with
    | Some c => Ok c
    | None => Err CellUnderflow
    end
  else Err CellUnderflow.

Definition load_reference_as_slice (s : CellSlice) : result (CellSlice * CellSlice) :=
  let rg := range s in
  if refs_start rg <? refs_end rg then
    match reference (cell s) (refs_start rg) with
    | Some c => let! res := slice_new c in Ok (res, advance_ref s)
    | None => Err CellUnderflow
    end
  else Err CellUnderflow.
