(* ===== verification/SliceSpec.v ===== *)
(** * SliceSpec: what the reads of a slice compute

    A slice is specified by two lists: the bits of its window and the cells of
    its reference window.  Every read of Slice.v is shown to be the
    corresponding list operation, errors included. *)

From S2P Require Import Prelude Bits CellMeta Cell Slice.

(** The invariant of a finalized cell as the reads rely on it. *)
Record cell_wf (c : Cell) : Prop := {
  cw_bytes : Forall is_byte (data c);
  cw_len : 0 <= bit_len c <= 1023;
  cw_data : bit_len c <= 8 * zlen (data c) <= 1024;
  cw_rc : 0 <= reference_count c <= 7;
  cw_refs : forall i, 0 <= i < reference_count c -> is_Some (reference c i);
}.

Record slice_wf (s : CellSlice) : Prop := {
  sw_cell : cell_wf (cell s);
  sw_bits : 0 <= bits_start (range s) <= bits_end (range s);
  sw_bits_end : bits_end (range s) <= bit_len (cell s);
  sw_refs : 0 <= refs_start (range s) <= refs_end (range s);
  sw_refs_end : refs_end (range s) <= reference_count (cell s);
}.

(** The bits and the references of the window. *)
Definition slice_bits (s : CellSlice) : list bool :=
  bits_from (data (cell s)) (bits_start (range s)) (bits_end (range s) - bits_start (range s)).

Definition sub_bits (s : CellSlice) (offset n : Z) : list bool :=
  take (Z.to_nat n) (drop (Z.to_nat offset) (slice_bits s)).

(** The facts about a well-formed slice that [lia] needs. *)
Ltac wf_facts s H :=
  let A := fresh "Hb" in let B := fresh "He" in let C := fresh "Hrf" in let D := fresh "Hre" in
  let W := fresh "Hcw" in
  pose proof (sw_bits s H) as A; pose proof (sw_bits_end s H) as B;
  pose proof (sw_refs s H) as C; pose proof (sw_refs_end s H) as D;
  pose proof (sw_cell s H) as W;
  let A1 := fresh "Hlen" in let A2 := fresh "Hdat" in let A3 := fresh "Hrc" in
  let A4 := fresh "Hbytes" in
  pose proof (cw_len _ W) as A1; pose proof (cw_data _ W) as A2; pose proof (cw_rc _ W) as A3;
  pose proof (cw_bytes _ W) as A4.

Lemma slice_new_wf c : cell_wf c -> slice_wf (new_allow_exotic c).
Proof.
  intros H. pose proof (cw_len c H). pose proof (cw_rc c H). by constructor; simpl; try lia.
Qed.

Lemma zlen_slice_bits s : slice_wf s -> zlen (slice_bits s) = size_bits s.
Proof.
  intros H. wf_facts s H. unfold slice_bits, size_bits, Range.size_bits.
  rewrite zlen_bits_from by lia. dlia.
Qed.

Lemma size_bits_eq s : slice_wf s -> size_bits s = bits_end (range s) - bits_start (range s).
Proof. intros H. wf_facts s H. unfold size_bits, Range.size_bits. dlia. Qed.

Lemma size_bits_range s : slice_wf s -> 0 <= size_bits s <= 1023.
Proof. intros H. wf_facts s H. rewrite size_bits_eq by done. lia. Qed.

Lemma sub_bits_from s offset n :
  slice_wf s -> 0 <= offset -> 0 <= n -> offset + n <= size_bits s ->
  sub_bits s offset n = bits_from (data (cell s)) (bits_start (range s) + offset) n.
Proof.
  intros H Ho Hn Hs. rewrite size_bits_eq in Hs by done. unfold sub_bits, slice_bits.
  rewrite bits_from_drop, bits_from_take by lia. done.
Qed.

(** ** Windows *)

Lemma advance_wf s n :
  slice_wf s -> 0 <= n <= size_bits s ->
  slice_wf (advance s n) /\ slice_bits (advance s n) = drop (Z.to_nat n) (slice_bits s).
Proof.
  intros H Hn. rewrite size_bits_eq in Hn by done. wf_facts s H.
  unfold advance, slice_bits. simpl. rewrite u16_small by lia. split.
  - by constructor; simpl; try lia.
  - rewrite bits_from_drop by lia. f_equal. lia.
Qed.

Lemma size_bits_advance s n :
  slice_wf s -> 0 <= n <= size_bits s -> size_bits (advance s n) = size_bits s - n.
Proof.
  intros H Hn. pose proof (size_bits_eq s H) as E. wf_facts s H.
  unfold size_bits, Range.size_bits, advance in *. simpl in *. rewrite u16_small by lia. dlia.
Qed.

Lemma exceeds_spec s bits refs :
  slice_wf s -> 0 <= bits <= 64512 -> 0 <= refs <= 240 ->
  Range.exceeds (range s) bits refs =
    (size_bits s <? bits) || (refs_end (range s) - refs_start (range s) <? refs).
Proof.
  intros H Hb Hr. rewrite size_bits_eq by done. wf_facts s H. unfold Range.exceeds.
  rewrite u16_small, u8_small by lia. zcases; simpl; (done || lia).
Qed.

(** The window of [bits] data bits and no references at the front of a slice. *)
Lemma get_prefix_spec s bits :
  slice_wf s -> 0 <= bits <= 64512 ->
  slice_wf (get_prefix s bits 0) /\
  slice_bits (get_prefix s bits 0) = take (Z.to_nat bits) (slice_bits s) /\
  size_bits (get_prefix s bits 0) = Z.min bits (size_bits s).
Proof.
  intros H Hb. rewrite (size_bits_eq s) by done. wf_facts s H.
  unfold get_prefix, Range.get_prefix, slice_bits, size_bits, Range.size_bits. simpl.
  rewrite u16_small, u8_small by lia. rewrite Z.add_0_r.
  rewrite Z.min_l with (n := refs_start (range s)) by lia.
  split_and!.
  - by constructor; simpl; try lia.
  - destruct (Z.leb_spec bits (bits_end (range s) - bits_start (range s))).
    + rewrite bits_from_take by lia. f_equal. lia.
    + rewrite take_ge by (rewrite length_bits_from; lia). f_equal. lia.
  - dlia.
Qed.

Lemma skip_first_spec s bits :
  slice_wf s -> 0 <= bits <= 64512 ->
  skip_first s bits 0 = if bits <=? size_bits s then Ok (advance s bits) else Err CellUnderflow.
Proof.
  intros H Hb. unfold skip_first, on_range, Range.skip_first.
  rewrite exceeds_spec by (done || lia). wf_facts s H.
  replace (_ <? 0) with false by (zcases; (done || lia)). rewrite orb_false_r.
  destruct (Z.ltb_spec (size_bits s) bits), (Z.leb_spec bits (size_bits s)); try lia; simpl; [done|].
  unfold advance. by rewrite Z.add_0_r, u8_small by lia.
Qed.

(** ** Single bits *)

Lemma bit_of_byte b k : 0 <= k -> negb (Z.land (Z.shiftr b k) 1 =? 0) = Z.testbit b k.
Proof.
  intros. change 1 with (Z.ones 1). rewrite Z.land_ones by lia. change (2 ^ 1) with 2.
  rewrite <- Z.bit0_mod, Z.shiftr_spec, Z.add_0_l by lia. by destruct (Z.testbit b k).
Qed.

Lemma data_lookup s i :
  slice_wf s -> 0 <= i < zlen (data (cell s)) ->
  data (cell s) !! Z.to_nat i = Some (byte_at (data (cell s)) i).
Proof.
  intros _ Hi. unfold byte_at.
  destruct (lookup_lt_is_Some_2 (data (cell s)) (Z.to_nat i)) as [x E]; [unfold zlen in Hi; lia|].
  by rewrite E.
Qed.

Lemma get_bit_spec s offset :
  slice_wf s -> 0 <= offset <= 60000 ->
  get_bit s offset =
    match slice_bits s !! Z.to_nat offset with Some b => Ok b | None => Err CellUnderflow end.
Proof.
  intros H Ho. wf_facts s H. unfold get_bit. rewrite u16_small by lia. unfold slice_bits.
  destruct (Z.ltb_spec (bits_start (range s) + offset) (bits_end (range s))).
  - rewrite data_lookup by (done || lia). rewrite bit_of_byte by lia.
    rewrite lookup_bits_from by lia. by rewrite Z2Nat.id by lia.
  - by rewrite lookup_ge_None_2 by (rewrite length_bits_from; lia).
Qed.

Lemma load_bit_spec s :
  slice_wf s ->
  load_bit s = match slice_bits s with b :: _ => Ok (b, advance s 1) | [] => Err CellUnderflow end.
Proof.
  intros H. wf_facts s H. unfold load_bit, slice_bits.
  destruct (Z.ltb_spec (bits_start (range s)) (bits_end (range s))).
  - rewrite data_lookup by (done || lia). rewrite bit_of_byte by lia.
    rewrite bits_from_cons by lia. done.
  - by rewrite bits_from_nil by lia.
Qed.

(** ** Integers *)

(** Every integer read denotes the bits it covers, or fails with [CellUnderflow]. *)
Definition reads (s : CellSlice) (offset n : Z) (r : result Z) : Prop :=
  r = if offset + n <=? size_bits s then Ok (bits_uint (sub_bits s offset n))
      else Err CellUnderflow.

Section Reads.
Context (s : CellSlice) (H : slice_wf s) (offset : Z) (Ho : 0 <= offset <= 60000).

Let start := bits_start (range s) + offset.
Let dat := data (cell s).
Let Hstart : start = bits_start (range s) + offset := eq_refl.

(** It is enough to know the bits of the value read inside the window. *)
Lemma reads_intro n x (r : result Z) :
  0 <= n ->
  (offset + n <= size_bits s -> r = Ok x) ->
  (size_bits s < offset + n -> r = Err CellUnderflow) ->
  (offset + n <= size_bits s -> forall i, 0 <= i ->
     Z.testbit x i = if i <? n then bit_at dat (start + (n - 1 - i)) else false) ->
  reads s offset n r.
Proof.
  intros Hn Hok Herr Hbits. unfold reads.
  destruct (Z.leb_spec (offset + n) (size_bits s)); [|auto].
  rewrite Hok by done. f_equal. rewrite sub_bits_from by (done || lia).
  apply uint_of_all_bits; auto.
Qed.

Lemma get_be_uint_reads n w :
  1 <= n <= 16 -> n + 1 <= w -> reads s offset (8 * n) (get_be_uint n w s offset).
Proof.
  intros Hn Hw. wf_facts s H. pose proof (size_bits_eq s H) as Hsz. fold dat in Hdat.
  set (x := if start mod 8 =? 0 then from_be_bytes (sub_bytes dat (start / 8) n)
            else wrap (8 * n) (Z.shiftr (from_be_bytes
              (copy_bytes (replicate (Z.to_nat w) 0) (w - (n + 1))
                 (sub_bytes dat (start / 8) (n + 1)) (n + 1))) (8 - start mod 8))).
  apply reads_intro with x; [lia | | |]; unfold get_be_uint.
  - intros Hin. rewrite (u16_small (bits_start (range s) + offset)) by lia.
    rewrite u16_small by lia. fold start dat. unfold x.
    destruct (Z.leb_spec (start + 8 * n) (bits_end (range s))); [|lia].
    destruct (Z.eqb_spec (start mod 8) 0); simpl.
    + by destruct (Z.leb_spec (start / 8 + n) (zlen dat)); [|lia].
    + by destruct (Z.leb_spec (start / 8 + (n + 1)) (zlen dat)); [|lia].
  - intros Hout. rewrite (u16_small (bits_start (range s) + offset)) by lia.
    rewrite u16_small by lia. fold start.
    by destruct (Z.leb_spec (start + 8 * n) (bits_end (range s))); [lia|].
  - intros Hin i Hi. unfold x. destruct (Z.eqb_spec (start mod 8) 0).
    + rewrite (testbit_from_be_any n) by (apply sub_bytes_bytes, Hbytes || apply zlen_sub; lia).
      zcases; simpl; try lia; try done. rewrite bit_at_sub by lia. f_equal. lia.
    + assert (zlen (sub_bytes dat (start / 8) (n + 1)) = n + 1) by (apply zlen_sub; lia).
      assert (zlen (replicate (Z.to_nat w) 0) = w) as Hz
        by (unfold zlen; rewrite length_replicate; lia).
      tb. rewrite (testbit_from_be_any w).
      * zcases; simpl; try lia; try done. rewrite bit_at_copy by lia.
        zcases; simpl; try lia. rewrite bit_at_sub by lia. f_equal. lia.
      * apply copy_bytes_bytes; [by apply Forall_replicate | by apply sub_bytes_bytes].
      * rewrite zlen_copy; lia.
Qed.

Lemma get_u128_reads : reads s offset 128 (get_u128 s offset).
Proof.
  wf_facts s H. pose proof (size_bits_eq s H) as Hsz. fold dat in Hdat.
  set (bytes := sub_bytes dat (start / 8) 17).
  set (x := if start mod 8 =? 0 then from_be_bytes (sub_bytes dat (start / 8) 16)
            else Z.lor (u128 (Z.shiftl (byte_at bytes 0) (120 + start mod 8)))
              (Z.shiftr (from_be_bytes (sub_bytes bytes 1 16)) (8 - start mod 8))).
  apply reads_intro with x; [lia | | |]; unfold get_u128.
  - intros Hin. rewrite (u16_small (bits_start (range s) + offset)) by lia.
    rewrite u16_small by lia. fold start dat bytes. unfold x.
    destruct (Z.leb_spec (start + 128) (bits_end (range s))); [|lia].
    destruct (Z.eqb_spec (start mod 8) 0); simpl.
    + by destruct (Z.leb_spec (start / 8 + 16) (zlen dat)); [|lia].
    + by destruct (Z.leb_spec (start / 8 + 17) (zlen dat)); [|lia].
  - intros Hout. rewrite (u16_small (bits_start (range s) + offset)) by lia.
    rewrite u16_small by lia. fold start.
    by destruct (Z.leb_spec (start + 128) (bits_end (range s))); [lia|].
  - intros Hin i Hi. unfold x. destruct (Z.eqb_spec (start mod 8) 0) as [E|E].
    + rewrite (testbit_from_be_any 16) by (apply sub_bytes_bytes, Hbytes || apply zlen_sub; lia).
      zcases; simpl; try lia; try done. rewrite bit_at_sub by lia. f_equal. lia.
    + assert (zlen bytes = 17) by (apply zlen_sub; lia).
      assert (Forall is_byte bytes) by by apply sub_bytes_bytes.
      assert (zlen (sub_bytes bytes 1 16) = 16) by (apply zlen_sub; lia).
      assert (Forall is_byte (sub_bytes bytes 1 16)) by by apply sub_bytes_bytes.
      unfold bytes at 1. rewrite byte_at_sub by lia. rewrite Z.add_0_r.
      pose proof (byte_at_range dat (start / 8) Hbytes) as Hb0. unfold is_byte in Hb0.
      tb. rewrite (testbit_from_be_any 16) by done.
      destruct (Z.ltb_spec i 128); simpl; cycle 1.
      { zcases; simpl; (done || lia). }
      destruct (Z.ltb_spec (i - (120 + start mod 8)) 0).
      * rewrite Z.testbit_neg_r by lia. zcases; simpl; try lia.
        rewrite bit_at_sub by lia. unfold bytes. rewrite bit_at_sub by lia. f_equal. lia.
      * rewrite (bit_at_in dat (start / 8)) by lia.
        zcases; simpl; try lia; rewrite orb_false_r; f_equal; lia.
Qed.

Lemma get_small_uint_reads n :
  1 <= n <= 8 -> reads s offset n (get_small_uint s offset n).
Proof.
  intros Hn. wf_facts s H. pose proof (size_bits_eq s H) as Hsz. fold dat in Hdat.
  set (r := start mod 8). set (q := start / 8).
  set (b0 := byte_at dat q). set (b1 := byte_at dat (q + 1)).
  assert (0 <= b0 < 256) as Hb0 by by apply byte_at_range.
  assert (0 <= b1 < 256) as Hb1 by by apply byte_at_range.
  assert (forall k, 0 <= k < 8 -> Z.testbit b0 k = bit_at dat (8 * q + 7 - k)) as T0
    by (intros; rewrite (bit_at_in dat q) by lia; f_equal; lia).
  assert (forall k, 0 <= k < 8 -> Z.testbit b1 k = bit_at dat (8 * q + 15 - k)) as T1
    by (intros; rewrite (bit_at_in dat (q + 1)) by lia; f_equal; lia).
  set (x := if r =? 0 then Z.shiftr b0 (8 - n)
    else if n <=? 8 - r then Z.land (Z.shiftr b0 (8 - r - n)) (u8 (Z.shiftl 1 n) - 1)
    else Z.shiftr (u8 (Z.shiftr (Z.lor (u16 (Z.shiftl b0 8)) b1) (8 - r))) (8 - n)).
  apply reads_intro with x; [lia | | |]; unfold get_small_uint;
    rewrite ?(u16_small (bits_start (range s) + offset)) by lia;
    rewrite ?u16_small by lia; fold start dat q r;
    (destruct (Z.eqb_spec n 0) as [E0|E0]; [lia|clear E0]).
  - intros Hin. rewrite (proj2 (Z.leb_le n 8)) by lia.
    destruct (Z.leb_spec (start + n) (bits_end (range s))); [simpl|lia].
    unfold dat at 1. rewrite data_lookup by (done || (fold dat; lia)). fold dat b0. unfold x.
    destruct (Z.eqb_spec r 0); [done|]. destruct (Z.leb_spec n (8 - r)); [done|].
    unfold dat at 1. rewrite data_lookup by (done || (fold dat; lia)). done.
  - intros Hout. destruct (Z.leb_spec (start + n) (bits_end (range s))); [lia|].
    by rewrite andb_false_r.
  - intros Hin i Hi. unfold x. destruct (Z.eqb_spec r 0); [|destruct (Z.leb_spec n (8 - r))].
    + tb. destruct (Z.ltb_spec i n).
      * rewrite T0 by lia. f_equal. lia.
      * by rewrite (testbit_high 8 b0) by lia.
    + rewrite Z.shiftl_1_l, u8_small by
        (pose proof (Z.pow_le_mono_r 2 n 7); pose proof (Z.pow_pos_nonneg 2 n); lia).
      replace (2 ^ n - 1) with (Z.ones n) by
        (rewrite Z.ones_equiv; lia).
      tb. destruct (Z.ltb_spec i n).
      * rewrite Z.ones_spec_low, andb_true_r by lia. rewrite T0 by lia. f_equal. lia.
      * rewrite Z.ones_spec_high by lia. apply andb_false_r.
    + tb. destruct (Z.ltb_spec i n).
      * destruct (Z.ltb_spec (i + (8 - n) + (8 - r)) 8).
        -- rewrite Z.testbit_neg_r by lia. rewrite T1 by lia.
           zcases; simpl; try lia. f_equal. lia.
        -- rewrite (testbit_high 8 b1) by lia. rewrite T0 by lia.
           zcases; simpl; try lia. rewrite orb_false_r. f_equal. lia.
      * zcases; simpl; first [done | lia].
Qed.

Lemma get_uint_reads n :
  1 <= n <= 64 -> reads s offset n (get_uint s offset n).
Proof.
  intros Hn. wf_facts s H. pose proof (size_bits_eq s H) as Hsz. fold dat in Hdat.
  set (r := start mod 8). set (q := start / 8). set (b0 := byte_at dat q).
  assert (0 <= b0 < 256) as Hb0 by by apply byte_at_range.
  assert (forall k, 0 <= k < 8 -> Z.testbit b0 k = bit_at dat (8 * q + 7 - k)) as T0
    by (intros; rewrite (bit_at_in dat q) by lia; f_equal; lia).
  set (first_byte := Z.land b0 (Z.shiftr 0xff r)).
  assert (forall k, Z.testbit first_byte k =
    if (0 <=? k) && (k <? 8 - r) then bit_at dat (8 * q + 7 - k) else false) as TF.
  { intros k. unfold first_byte. rewrite Z.land_spec. change 0xff with (Z.ones 8).
    destruct (Z.leb_spec 0 k); simpl; [|by rewrite Z.testbit_neg_r by lia].
    rewrite Z.shiftr_spec by lia. destruct (Z.ltb_spec k (8 - r)).
    - rewrite Z.ones_spec_low, T0 by lia. apply andb_true_r.
    - rewrite Z.ones_spec_high by lia. apply andb_false_r. }
  set (m := n - (8 - r)). set (c := div_ceil m 8).
  set (tail := copy_bytes (replicate 8 0) 0 (sub_bytes dat (q + 1) c) c).
  set (x := if r + n <=? 8 then Z.shiftr first_byte ((8 - (n + r) mod 8) mod 8)
    else Z.lor (Z.shiftr (from_be_bytes tail) (64 - m)) (u64 (Z.shiftl first_byte m))).
  apply reads_intro with x; [lia | | |]; unfold get_uint;
    rewrite ?(u16_small (bits_start (range s) + offset)) by lia;
    rewrite ?u16_small by lia; fold start dat q r b0 first_byte;
    (destruct (Z.eqb_spec n 0) as [E0|E0]; [lia|clear E0]).
  - intros Hin. rewrite (proj2 (Z.leb_le n 64)) by lia.
    destruct (Z.leb_spec (start + n) (bits_end (range s))); [simpl|lia].
    destruct (Z.ltb_spec (zlen dat) (div_ceil (bits_end (range s)) 8)); [dlia|].
    unfold x. by destruct (Z.leb_spec (r + n) 8).
  - intros Hout. destruct (Z.leb_spec (start + n) (bits_end (range s))); [lia|].
    by rewrite andb_false_r.
  - intros Hin i Hi. unfold x. destruct (Z.leb_spec (r + n) 8).
    + tb. rewrite TF. zcases; simpl; try lia; try done. f_equal. lia.
    + assert (zlen (sub_bytes dat (q + 1) c) = c) as Hc by (apply zlen_sub; unfold c; dlia).
      assert (zlen (replicate 8 0) = 8) as Hz8 by done.
      tb. rewrite (testbit_from_be_any 8), TF; cycle 1.
      { apply copy_bytes_bytes; [by apply Forall_replicate | by apply sub_bytes_bytes]. }
      { unfold tail. rewrite zlen_copy by (unfold c in *; dlia). done. }
      assert (forall j, 0 <= j < m -> bit_at tail j = bit_at dat (8 * (q + 1) + j)) as TT.
      { intros j Hj. unfold tail. rewrite bit_at_copy by (unfold c in *; dlia).
        destruct (Z.leb_spec (8 * 0) j), (Z.ltb_spec j (8 * (0 + c)));
          try (unfold c in *; dlia). simpl.
        rewrite bit_at_sub by (unfold c in *; dlia). f_equal. lia. }
      zcases; simpl; try lia; rewrite ?orb_false_r; try done;
        rewrite ?TT by lia; f_equal; lia.
Qed.

(** [get_u256] copies the window's bits into a fresh 32-byte array. *)
Lemma get_u256_spec :
  get_u256 s offset =
    if offset + 256 <=? size_bits s then Ok (pack 32 (sub_bits s offset 256))
    else Err CellUnderflow.
Proof.
  wf_facts s H. pose proof (size_bits_eq s H) as Hsz. fold dat in Hdat.
  unfold get_u256. rewrite (u16_small (bits_start (range s) + offset)) by lia.
  rewrite u16_small by lia. fold start dat.
  destruct (Z.leb_spec (offset + 256) (size_bits s)), (Z.leb_spec (start + 256) (bits_end (range s)));
    try lia; [|done].
  rewrite sub_bits_from by (done || lia). fold start dat.
  assert (forall i, 0 <= i < 256 ->
    default false (bits_from dat start 256 !! Z.to_nat i) = bit_at dat (start + i)) as TB
    by (intros; rewrite lookup_bits_from by lia; simpl; f_equal; lia).
  destruct (Z.eqb_spec (start mod 8) 0); cbn [andb negb].
  - destruct (Z.leb_spec (start / 8 + 32) (zlen dat)); [|lia]. f_equal.
    apply pack_eq; [lia | apply zlen_sub; lia | by apply sub_bytes_bytes |].
    intros i Hi. rewrite bit_at_sub, TB by lia. f_equal. lia.
  - destruct (Z.leb_spec (start / 8 + 33) (zlen dat)); [|lia]. f_equal.
    set (q := start / 8). set (bytes := sub_bytes dat q 33).
    assert (zlen bytes = 33) as H33 by (apply zlen_sub; lia).
    assert (Forall is_byte bytes) as Hbb by by apply sub_bytes_bytes.
    assert (0 <= byte_at bytes 0 < 256) as Hb0 by by apply byte_at_range.
    assert (forall k, Z.testbit (byte_at bytes 0) k =
      if (0 <=? k) && (k <? 8) then bit_at dat (8 * q + 7 - k) else false) as T0.
    { intros k. destruct (Z.leb_spec 0 k); simpl; [|by rewrite Z.testbit_neg_r by lia].
      zcases; [|by rewrite (testbit_high 8) by lia].
      unfold bytes. rewrite byte_at_sub by lia. rewrite (bit_at_in dat q) by lia.
      f_equal; [f_equal|]; lia. }
    assert (forall o k, 0 <= o -> o + 16 <= 33 ->
      Z.testbit (from_be_bytes (sub_bytes bytes o 16)) k =
      if (0 <=? k) && (k <? 128) then bit_at dat (8 * (q + o) + 127 - k) else false) as TW.
    { intros o k Ho1 Ho2. rewrite (testbit_from_be_any 16);
        [| by apply sub_bytes_bytes | apply zlen_sub; lia].
      zcases; simpl; try lia; try done. rewrite bit_at_sub by lia.
      unfold bytes. rewrite bit_at_sub by lia. f_equal. lia. }
    match goal with |- ?a ++ ?b = _ => set (A := a); set (B := b) end.
    assert (zlen A = 16) as HA by by apply length_to_be_bytes.
    assert (zlen B = 16) as HB by by apply length_to_be_bytes.
    apply pack_eq; [lia | by rewrite zlen_app, HA, HB | |].
    { apply Forall_app. split; apply to_be_bytes_bytes. }
    intros i Hi. rewrite TB by lia. unfold bit_at at 1.
    destruct (Z.ltb_spec i 128).
    + rewrite byte_at_app_l by lia. change (bit_at A i = bit_at dat (start + i)).
      unfold A. rewrite bit_at_to_be by lia. tb. rewrite TW, T0 by lia.
      zcases; simpl; try lia; rewrite ?orb_false_r; f_equal; lia.
    + rewrite byte_at_app_r, HA by lia.
      replace (byte_at B (i / 8 - 16)) with (byte_at B ((i - 128) / 8)) by (f_equal; lia).
      replace (i mod 8) with ((i - 128) mod 8) by lia.
      change (bit_at B (i - 128) = bit_at dat (start + i)).
      unfold B. rewrite bit_at_to_be by lia. tb. rewrite !TW by lia.
      zcases; simpl; try lia; rewrite ?orb_false_r; f_equal; lia.
Qed.
End Reads.

(** ** Raw copies *)

Lemma get_raw_loop_bits n dat target q r i :
  Forall is_byte dat -> Forall is_byte target -> 0 <= q -> 0 < r < 8 ->
  0 <= i -> i + Z.of_nat n <= zlen target ->
  let res := get_raw_loop n dat target q r i in
  zlen res = zlen target /\ Forall is_byte res /\
  forall x, 0 <= x < 8 * zlen target ->
    bit_at res x = if (8 * i <=? x) && (x <? 8 * (i + Z.of_nat n))
                   then bit_at dat (8 * q + r + x) else bit_at target x.
Proof.
  intros Hd. revert target i. induction n as [|n IH]; intros target i Ht Hq Hr Hi Hn; simpl.
  - split_and!; [done..|]. intros x Hx. by zcases; simpl; try lia.
  - set (v := Z.lor _ _). set (t' := set_byte target i v).
    pose proof (byte_at_range dat (q + i) Hd) as B0.
    pose proof (byte_at_range dat (q + i + 1) Hd) as B1.
    assert (is_byte v) as Hv by (apply lor_byte; [apply u8_byte | apply shiftr_byte; [done | lia]]).
    destruct (IH t' (i + 1)) as (L & B & Hbits);
      [by apply set_byte_bytes | done | done | lia | unfold t'; rewrite zlen_set; lia |].
    unfold t' in L, Hbits at 1. rewrite zlen_set in L, Hbits. split_and!; [done..|].
    intros x Hx. rewrite Hbits by done. unfold t'. rewrite bit_at_set by lia.
    destruct (Z.eqb_spec (x / 8) i).
    + destruct (Z.leb_spec (8 * (i + 1)) x); [lia|]. destruct (Z.leb_spec (8 * i) x); [|lia].
      destruct (Z.ltb_spec x (8 * (i + Z.of_nat (S n)))); [|lia]. simpl. unfold v. tb.
      unfold is_byte in *. destruct (Z.ltb_spec (x mod 8) (8 - r)).
      * rewrite (testbit_high 8 (byte_at dat (q + i + 1))) by lia.
        rewrite (bit_at_in dat (q + i)) by lia.
        zcases; simpl; try lia. rewrite orb_false_r. f_equal. lia.
      * rewrite Z.testbit_neg_r by lia. rewrite (bit_at_in dat (q + i + 1)) by lia.
        rewrite andb_false_r. simpl. f_equal. lia.
    + zcases; simpl; try lia; done.
Qed.

(** [get_raw] at offset 0 packs the first bits of the window; see
    [get_raw_ignores_offset] for other offsets. *)
Lemma get_raw_spec s target bits :
  slice_wf s -> Forall is_byte target -> 0 <= bits <= 64512 ->
  get_raw s 0 target bits =
    if (bits <=? size_bits s) && (div_ceil bits 8 <=? zlen target)
    then Ok (pack (div_ceil bits 8) (sub_bits s 0 bits)) else Err CellUnderflow.
Proof.
  intros H Ht Hb. unfold get_raw. pose proof (size_bits_range s H) as Hsr.
  pose proof (size_bits_eq s H) as Hsz. wf_facts s H. pose proof (zlen_nonneg target) as Hzt.
  destruct (Z.eqb_spec bits 0) as [->|].
  { destruct (Z.leb_spec 0 (size_bits s)); [|lia].
    destruct (Z.leb_spec (div_ceil 0 8) (zlen target)) as [|E]; [done | unfold div_ceil in E; lia]. }
  rewrite !u16_small by lia. rewrite Z.add_0_r.
  set (start := bits_start (range s)) in *. set (dat := data (cell s)) in *.
  destruct (Z.leb_spec bits (size_bits s)), (Z.leb_spec (start + bits) (bits_end (range s)));
    try lia; [|done]. cbn [andb].
  set (tl := div_ceil bits 8).
  assert (bits <= 8 * tl <= bits + 7) as Htl by (unfold tl; dlia). clearbody tl.
  destruct (Z.ltb_spec (zlen target) tl), (Z.leb_spec tl (zlen target)); try lia; [done|].
  set (t := sub_bytes target 0 tl).
  assert (zlen t = tl) as Hzlt by (apply zlen_sub; lia).
  assert (Forall is_byte t) as Htb by by apply sub_bytes_bytes.
  rewrite sub_bits_from by (done || lia). rewrite Z.add_0_r. fold start dat.
  (* the bytes before the final mask hold the bits, up to the mask *)
  match goal with |- (let! _ := ?m in _) = _ => assert (exists d, m = Ok d /\ zlen d = tl /\
    Forall is_byte d /\ forall i, 0 <= i < bits -> bit_at d i = bit_at dat (start + i))
    as (d & -> & Hdl & Hdb & Hdi) end.
  { destruct (Z.eqb_spec (start mod 8) 0).
    - destruct (Z.leb_spec (start / 8 + tl) (zlen dat)); [|lia]. cbn [andb].
      assert (zlen (sub_bytes dat (start / 8) tl) = tl) by (apply zlen_sub; lia).
      eexists. split; [done|]. split_and!.
      + rewrite zlen_copy; lia.
      + apply copy_bytes_bytes; [done | by apply sub_bytes_bytes].
      + intros i Hi. rewrite bit_at_copy by lia. zcases; simpl; try lia.
        rewrite bit_at_sub by lia. f_equal. lia.
    - cbn [andb negb]. set (bl := div_ceil (bits + start mod 8) 8 - 1).
      assert (bits + start mod 8 <= 8 * (bl + 1) <= bits + start mod 8 + 7) as Hbl
        by (unfold bl; dlia). clearbody bl.
      destruct (Z.ltb_spec (zlen dat) (start / 8 + bl)); [lia|].
      destruct (get_raw_loop_bits (Z.to_nat bl) dat t (start / 8) (start mod 8) 0)
        as (L & B & Hbits); [done | done | lia | lia | lia | lia |].
      destruct (Z.ltb_spec bl tl); (eexists; split; [done|]); split_and!; try done.
      + by rewrite zlen_set, L.
      + by apply set_byte_bytes, u8_byte.
      + intros i Hi. rewrite bit_at_set, Hbits by lia. tb.
        destruct (Z.eqb_spec (i / 8) bl).
        * destruct (Z.ltb_spec (7 - i mod 8) 8); [|lia]. simpl.
          rewrite (bit_at_in dat (start / 8 + bl)) by lia. f_equal. lia.
        * zcases; simpl; try lia. f_equal. lia.
      + by rewrite L.
      + intros i Hi. rewrite Hbits by lia. zcases; simpl; try lia. f_equal. lia. }
  cbn [rbind]. clearbody t.
  assert (forall i, 0 <= i -> default false (bits_from dat start bits !! Z.to_nat i) =
    if i <? bits then bit_at dat (start + i) else false) as TB.
  { intros i Hi. zcases; [rewrite lookup_bits_from by lia; simpl; f_equal; lia|].
    by rewrite lookup_ge_None_2 by (rewrite length_bits_from; lia). }
  destruct (Z.eqb_spec (bits mod 8) 0); cbn [negb]; f_equal; apply pack_eq; try done; try lia.
  - intros i Hi. rewrite TB by lia. zcases; [apply Hdi; lia | lia].
  - by rewrite zlen_set.
  - apply set_byte_bytes; [done|]. apply land_byte; [by apply byte_at_range | by apply u8_byte].
  - intros i Hi. rewrite bit_at_and, testbit_ff_shl, TB by lia.
    destruct (Z.ltb_spec i bits).
    + rewrite Hdi by lia. zcases; simpl; try lia; by rewrite ?andb_true_r.
    + zcases; simpl; try lia; by rewrite ?andb_false_r.
Qed.

(** ** Loads: the value and the advanced window *)

Lemma load_uint_spec s n :
  slice_wf s -> 1 <= n <= 64 ->
  load_uint s n = if n <=? size_bits s
                  then Ok (bits_uint (take (Z.to_nat n) (slice_bits s)), advance s n)
                  else Err CellUnderflow.
Proof.
  intros H Hn. unfold load_uint, load_with.
  rewrite (get_uint_reads s H 0) by lia. rewrite Z.add_0_l. by destruct (n <=? size_bits s).
Qed.

Lemma load_small_uint_spec s n :
  slice_wf s -> 1 <= n <= 8 ->
  load_small_uint s n = if n <=? size_bits s
                  then Ok (bits_uint (take (Z.to_nat n) (slice_bits s)), advance s n)
                  else Err CellUnderflow.
Proof.
  intros H Hn. unfold load_small_uint, load_with.
  rewrite (get_small_uint_reads s H 0) by lia. rewrite Z.add_0_l. by destruct (n <=? size_bits s).
Qed.

Lemma load_be_uint_spec s n w :
  slice_wf s -> 1 <= n <= 16 -> n + 1 <= w ->
  load_with s (8 * n) (get_be_uint n w s 0) =
    if 8 * n <=? size_bits s
    then Ok (bits_uint (take (Z.to_nat (8 * n)) (slice_bits s)), advance s (8 * n))
    else Err CellUnderflow.
Proof.
  intros H Hn Hw. unfold load_with.
  rewrite (get_be_uint_reads s H 0) by lia. rewrite Z.add_0_l.
  by destruct (8 * n <=? size_bits s).
Qed.

(** ** References *)

Lemma slice_refs_some s :
  slice_wf s -> forall j, refs_start (range s) <= j < refs_start (range s) +
    Z.of_nat (Z.to_nat (refs_end (range s) - refs_start (range s))) ->
  is_Some (reference (cell s) j) /\ is_Some (reference_cloned (cell s) j).
Proof.
  intros H j Hj. wf_facts s H. rewrite reference_cloned_is_Some.
  destruct (cw_refs _ Hcw j); [lia | done].
Qed.

Lemma zlen_slice_references s : slice_wf s -> zlen (slice_references s) = size_refs s.
Proof.
  intros H. wf_facts s H. unfold slice_references, refs_window, size_refs, Range.size_refs, zlen.
  rewrite length_iter_refs by (intros; by apply slice_refs_some). dlia.
Qed.

Lemma zlen_slice_references_cloned s : slice_wf s -> zlen (slice_references_cloned s) = size_refs s.
Proof.
  intros H. wf_facts s H. unfold slice_references_cloned, refs_window_cloned, size_refs, Range.size_refs, zlen.
  rewrite length_iter_refs by (intros; by apply slice_refs_some). dlia.
Qed.

Lemma load_reference_spec s :
  slice_wf s ->
  load_reference s =
    match slice_references s with
    | c :: _ => Ok (c, advance_ref s)
    | [] => Err CellUnderflow
    end.
Proof.
  intros H. pose proof (slice_refs_some s H) as HS. unfold load_reference, slice_references, refs_window.
  destruct (Z.ltb_spec (refs_start (range s)) (refs_end (range s))).
  - destruct (HS (refs_start (range s))) as [[c E] _]; [lia|].
    destruct (Z.to_nat _) eqn:En; [lia|]. simpl. by rewrite E.
  - by rewrite Z2Nat.nonpos by lia.
Qed.

Lemma load_reference_cloned_spec s :
  slice_wf s ->
  load_reference_cloned s =
    match slice_references_cloned s with
    | c :: _ => Ok (c, advance_ref s)
    | [] => Err CellUnderflow
    end.
Proof.
  intros H. pose proof (slice_refs_some s H) as HS.
  unfold load_reference_cloned, slice_references_cloned, refs_window_cloned.
  destruct (Z.ltb_spec (refs_start (range s)) (refs_end (range s))).
  - destruct (HS (refs_start (range s))) as [_ [c E]]; [lia|].
    destruct (Z.to_nat _) eqn:En; [lia|]. simpl. by rewrite E.
  - by rewrite Z2Nat.nonpos by lia.
Qed.

Lemma advance_ref_wf s :
  slice_wf s -> 1 <= refs_end (range s) - refs_start (range s) ->
  slice_wf (advance_ref s) /\ slice_references (advance_ref s) = tail (slice_references s) /\
  slice_references_cloned (advance_ref s) = tail (slice_references_cloned s) /\
  slice_bits (advance_ref s) = slice_bits s.
Proof.
  intros H Hn. pose proof (slice_refs_some s H (refs_start (range s)) ltac:(lia)) as [[c E] [c' E']].
  wf_facts s H. unfold advance_ref, slice_references, slice_references_cloned, refs_window, refs_window_cloned.
  simpl. rewrite u8_small by lia.
  replace (Z.to_nat (refs_end (range s) - refs_start (range s)))
    with (S (Z.to_nat (refs_end (range s) - (refs_start (range s) + 1)))) by lia.
  simpl. rewrite E, E'. split_and!; [by constructor; simpl; try lia | done..].
Qed.
