(* ===== verification/SliceScan.v ===== *)
(** * SliceScan: comparisons and scans of [src/src/cell/slice.rs]

    The optimised routines over slice data: the byte-wise longest common prefix,
    the word-at-a-time [bits_memscan] and [bits_memscan_rev] with the counts and
    the uniformity test built on them, and the 32-bit-at-a-time comparison
    [lex_cmp] with the prefix and suffix tests.

    Two things the code observes of the machine are parameters: the address of
    the data (for the alignment test of [bits_memscan]) and pointer equality of
    cells (the fast path of [lex_cmp]). *)

From S2P Require Import Prelude Bits CellMeta Cell Slice.

(** ** [longest_common_data_prefix_impl] *)

(** The loop [for i in 1..aligned_bytes], [n] iterations from [i]: either the
    early return or the two pending bytes and the prefix length. *)
Fixpoint lcp_loop (n : nat) (sd od : list Z) (sq sr oq or' : Z)
    (i self_byte other_byte prefix_len max_bit_len : Z) : Z + Z * Z * Z :=
  match n with
  | O => inr (self_byte, other_byte, prefix_len)
  | S n =>
      let next_self := byte_at sd (sq + i) in
      let self_byte := Z.lor self_byte (u8 (Z.shiftr next_self (8 - sr))) in
      let next_other := byte_at od (oq + i) in
      let other_byte := Z.lor other_byte (u8 (Z.shiftr next_other (8 - or'))) in
      let x := Z.lxor self_byte other_byte in
      if x =? 0 then
        lcp_loop n sd od sq sr oq or' (i + 1)
          (u8 (Z.shiftl next_self sr)) (u8 (Z.shiftl next_other or'))
          (u16 (prefix_len + 8)) max_bit_len
      else inl (Z.min (u16 (prefix_len + leading_zeros 8 x)) max_bit_len)
  end.

Definition longest_common_data_prefix_impl (s o : CellSlice) (max_hint : Z) : Z :=
  let sr := range s in
  let or' := range o in
  if (bits_end sr <=? bits_start sr) || (bits_end or' <=? bits_start or') then 0 else
  let self_remaining := bits_end sr - bits_start sr in
  let other_remaining := bits_end or' - bits_start or' in
  let sd := data (cell s) in
  let od := data (cell o) in
  let max_bit_len := Z.min (Z.min self_remaining other_remaining) max_hint in
  let self_r := bits_start sr mod 8 in
  let self_q := bits_start sr / 8 in
  let other_r := bits_start or' mod 8 in
  let other_q := bits_start or' / 8 in
  let self_bytes := div_ceil (self_r + max_bit_len) 8 in
  let other_bytes := div_ceil (other_r + max_bit_len) 8 in
  let aligned_bytes := Z.min self_bytes other_bytes in
  let self_byte := u8 (Z.shiftl (byte_at sd self_q) self_r) in
  let other_byte := u8 (Z.shiftl (byte_at od other_q) other_r) in
  match lcp_loop (Z.to_nat (aligned_bytes - 1)) sd od self_q self_r other_q other_r
          1 self_byte other_byte 0 max_bit_len with
  | inl res => res
  | inr (self_byte, other_byte, prefix_len) =>
      let self_byte :=
        if (0 <? self_r) && (aligned_bytes <? self_bytes) then
          Z.lor self_byte (Z.shiftr (byte_at sd (self_q + aligned_bytes)) (8 - self_r))
        else self_byte in
      let other_byte :=
        if (0 <? other_r) && (aligned_bytes <? other_bytes) then
          Z.lor other_byte (Z.shiftr (byte_at od (other_q + aligned_bytes)) (8 - other_r))
        else other_byte in
      let last_byte_mask := u8 (Z.shiftl 0xff ((8 - max_bit_len mod 8) mod 8)) in
      let self_byte := Z.land self_byte last_byte_mask in
      let other_byte := Z.land other_byte last_byte_mask in
      let prefix_len := u16 (prefix_len + leading_zeros 8 (Z.lxor self_byte other_byte)) in
      Z.min prefix_len max_bit_len
  end.

(** [longest_common_data_prefix] *)
Definition longest_common_data_prefix (s o : CellSlice) : CellSlice :=
  get_prefix s (longest_common_data_prefix_impl s o 65535) 0.

(** [strip_data_prefix] *)
Definition strip_data_prefix (s prefix : CellSlice) : option CellSlice :=
  let prefix_len := size_bits prefix in
  if prefix_len =? 0 then Some s
  else if size_bits s <? prefix_len then None
  else
    let lcp := longest_common_data_prefix_impl s prefix prefix_len in
    if prefix_len <=? lcp then
      match skip_first s prefix_len 0 with Ok r => Some r | Err _ => None end
    else None.

(** ** [bits_memscan] and [bits_memscan_rev] *)

(** A byte loop [while rem >= 8 && cond(ptr)]: an early return or the new state. *)
Fixpoint scan_bytes (fuel : nat) (cond : Z -> bool) (dat : list Z) (xor bit_count ptr rem : Z)
    : Z + Z * Z :=
  match fuel with
  | O => inr (ptr, rem)
  | S fuel =>
      if (8 <=? rem) && cond ptr then
        let v := Z.lxor (byte_at dat ptr) xor in
        if 0 <? v then inl (u16 (bit_count - rem + leading_zeros 8 v))
        else scan_bytes fuel cond dat xor bit_count (ptr + 1) (rem - 8)
      else inr (ptr, rem)
  end.

(** The word loop [while rem >= 64]. *)
Fixpoint scan_words (fuel : nat) (dat : list Z) (xor_l bit_count ptr rem : Z) : Z + Z * Z :=
  match fuel with
  | O => inr (ptr, rem)
  | S fuel =>
      if 64 <=? rem then
        let z := Z.lxor (from_be_bytes (sub_bytes dat ptr 8)) xor_l in
        if 0 <? z then inl (u16 (bit_count - rem + leading_zeros 64 z))
        else scan_words fuel dat xor_l bit_count (ptr + 8) (rem - 64)
      else inr (ptr, rem)
  end.

Section Memscan.
(** The address of the first data byte. *)
Variable addr : Z.

Definition is_aligned_to_u64 (ptr : Z) : bool := Z.land (addr + ptr) 7 =? 0.

Definition bits_memscan (dat : list Z) (offset bit_count : Z) (cmp_to : bool) : Z :=
  if bit_count =? 0 then 0 else
  let xor := b2z cmp_to * 255 in
  let ptr := Z.shiftr offset 3 in
  let offset := Z.land offset 7 in
  let head :=
    if 0 <? offset then
      let v := u8 (Z.shiftl (Z.lxor (byte_at dat ptr) xor) offset) in
      let c := leading_zeros 8 v in
      let l := 8 - offset in
      if (c <? l) || (bit_count <=? l) then inl (Z.min c bit_count)
      else inr (ptr + 1, bit_count - l)
    else inr (ptr, bit_count) in
  match head with
  | inl res => res
  | inr (ptr, rem) =>
    match scan_bytes 128 (fun ptr => negb (is_aligned_to_u64 ptr)) dat xor bit_count ptr rem with
    | inl res => res
    | inr (ptr, rem) =>
      match scan_words 16 dat (b2z cmp_to * (2 ^ 64 - 1)) bit_count ptr rem with
      | inl res => res
      | inr (ptr, rem) =>
        match scan_bytes 128 (fun _ => true) dat xor bit_count ptr rem with
        | inl res => res
        | inr (ptr, rem) =>
          if 0 <? rem then
            let v := Z.lxor (byte_at dat ptr) xor in
            let c := leading_zeros 8 v in
            if c <? rem then u16 (bit_count - rem + c) else bit_count
          else bit_count
        end
      end
    end
  end.

(** [count_leading] *)
Definition count_leading (s : CellSlice) (bit : bool) : result Z :=
  let r := range s in
  if bits_end r <=? bits_start r then Ok 0 else
  let dat := data (cell s) in
  if zlen dat <? div_ceil (bits_end r) 8 then Err CellUnderflow else
  Ok (bits_memscan dat (bits_start r) (bits_end r - bits_start r) bit).

(** The byte loop of [test_uniform] *)
Fixpoint uniform_loop (n : nat) (dat : list Z) (ptr target : Z) : option Z :=
  match n with
  | O => Some ptr
  | S n =>
      let ptr := ptr + 1 in
      if negb (byte_at dat ptr =? target) then None else uniform_loop n dat ptr target
  end.

(** [test_uniform] *)
Definition test_uniform (s : CellSlice) : option bool :=
  let rg := range s in
  if bits_end rg <=? bits_start rg then None else
  let dat := data (cell s) in
  if zlen dat <? div_ceil (bits_end rg) 8 then None else
  let bit_count := bits_end rg - bits_start rg in
  let r := Z.land (bits_start rg) 7 in
  let q := Z.shiftr (bits_start rg) 3 in
  let first_byte := byte_at dat q in
  let bit := negb (Z.land (Z.shiftr first_byte (7 - r)) 1 =? 0) in
  if bit_count <? 64 then
    let target := b2z bit * 255 in
    let first_byte_mask := Z.shiftr 0xff r in
    let last_byte_mask := u8 (Z.shiftl 0xff ((8 - (bit_count + r) mod 8) mod 8)) in
    if r + bit_count <=? 8 then
      if negb (Z.land (Z.land (Z.lxor first_byte target) first_byte_mask) last_byte_mask =? 0)
      then None else Some bit
    else if negb (Z.land (Z.lxor first_byte target) first_byte_mask =? 0) then None
    else
      let bit_count := bit_count - (8 - r) in
      match uniform_loop (Z.to_nat (bit_count / 8)) dat q target with
      | None => None
      | Some ptr =>
          if negb (bit_count mod 8 =? 0) then
            if negb (Z.land (Z.lxor (byte_at dat (ptr + 1)) target) last_byte_mask =? 0)
            then None else Some bit
          else Some bit
      end
  else
    let same_bits := bits_memscan dat (bits_start rg) bit_count bit in
    if same_bits =? bit_count then Some bit else None.
End Memscan.

(** The 32-bit loop of [bits_memscan_rev] *)
Fixpoint scan_words_rev (fuel : nat) (dat : list Z) (xor_l ptr res bit_count : Z)
    : Z + Z * Z * Z :=
  match fuel with
  | O => inr (ptr, res, bit_count)
  | S fuel =>
      if 32 <=? bit_count then
        let ptr := ptr - 4 in
        let v := Z.lxor (from_be_bytes (sub_bytes dat ptr 4)) xor_l in
        if 0 <? v then inl (u16 (res + trailing_zeros 32 v))
        else scan_words_rev fuel dat xor_l ptr (u16 (res + 32)) (bit_count - 32)
      else inr (ptr, res, bit_count)
  end.

(** The byte loop of [bits_memscan_rev] *)
Fixpoint scan_bytes_rev (fuel : nat) (dat : list Z) (xor ptr res bit_count : Z)
    : Z + Z * Z * Z :=
  match fuel with
  | O => inr (ptr, res, bit_count)
  | S fuel =>
      if 8 <=? bit_count then
        let ptr := ptr - 1 in
        let v := Z.lxor (byte_at dat ptr) xor in
        if 0 <? v then inl (u16 (res + trailing_zeros 8 v))
        else scan_bytes_rev fuel dat xor ptr (u16 (res + 8)) (bit_count - 8)
      else inr (ptr, res, bit_count)
  end.

Definition bits_memscan_rev (dat : list Z) (offset bit_count : Z) (cmp_to : bool) : Z :=
  if bit_count =? 0 then 0 else
  let xor := b2z cmp_to * 255 in
  let ptr := Z.shiftr (offset + bit_count) 3 in
  let offset := Z.land (u16 (offset + bit_count)) 7 in
  let head :=
    if 0 <? offset then
      let v := Z.lxor (Z.shiftr (byte_at dat ptr) (8 - offset)) xor in
      let c := trailing_zeros 8 v in
      if (c <? offset) || (bit_count <=? offset) then inl (Z.min c bit_count)
      else inr (bit_count - offset)
    else inr bit_count in
  match head with
  | inl res => res
  | inr bit_count =>
    match scan_words_rev 32 dat (b2z cmp_to * (2 ^ 32 - 1)) ptr offset bit_count with
    | inl res => res
    | inr (ptr, res, bit_count) =>
      match scan_bytes_rev 128 dat xor ptr res bit_count with
      | inl res => res
      | inr (ptr, res, bit_count) =>
        if 0 <? bit_count then
          let v := Z.lxor (byte_at dat (ptr - 1)) xor in
          u16 (res + Z.min (trailing_zeros 8 v) bit_count)
        else res
      end
    end
  end.

(** [count_trailing] *)
Definition count_trailing (s : CellSlice) (bit : bool) : result Z :=
  let r := range s in
  if bits_end r <=? bits_start r then Ok 0 else
  let dat := data (cell s) in
  if zlen dat <? div_ceil (bits_end r) 8 then Err CellUnderflow else
  Ok (bits_memscan_rev dat (bits_start r) (bits_end r - bits_start r) bit).

(** ** [lex_cmp] and the tests built on it *)
Section Compare.
(** [std::ptr::addr_eq] on cells. *)
Variable addr_eq : Cell -> Cell -> bool.

(** The loop over 32-bit words, at the given offsets. *)
Fixpoint lex_words (l r : CellSlice) (offsets : list Z) : result comparison :=
  match offsets with
  | [] => Ok Eq
  | offset :: offsets =>
      let! a := get_u32 l offset in
      let! b := get_u32 r offset in
      match a ?= b with
      | Eq => lex_words l r offsets
      | ord => Ok ord
      end
  end.

Definition lex_cmp (l r : CellSlice) : result comparison :=
  let lhs_bits := size_bits l in
  let rhs_bits := size_bits r in
  if addr_eq (cell l) (cell r) && (bits_start (range l) =? bits_start (range r))
  then Ok (lhs_bits ?= rhs_bits)
  else
    let bits := Z.min lhs_bits rhs_bits in
    let rem := bits mod 32 in
    let! ord := lex_words l r ((fun k => 32 * k) <$> seqZ 0 ((bits - rem) / 32)) in
    match ord with
    | Eq =>
        let! ord :=
          if 0 <? rem then
            let! a := get_uint l (bits - rem) rem in
            let! b := get_uint r (bits - rem) rem in
            Ok (a ?= b)
          else Ok Eq in
        match ord with
        | Eq => Ok (lhs_bits ?= rhs_bits)
        | ord => Ok ord
        end
    | ord => Ok ord
    end.

(** [contents_eq] *)
Definition contents_eq (l r : CellSlice) : result bool :=
  if negb (size_bits l =? size_bits r) || negb (size_refs l =? size_refs r) then Ok false else
  let! ord := lex_cmp l r in
  match ord with
  | Eq => Ok (forallb (fun '(a, b) => bool_decide (repr_hash a = repr_hash b))
                (zip (slice_references l) (slice_references r)))
  | _ => Ok false
  end.

(** [is_data_prefix_of] and [is_data_suffix_of]; the window operation cannot fail
    there, and on failure the code would keep the whole of [other]. *)
Definition is_data_prefix_of (s other : CellSlice) : result bool :=
  let bits := size_bits s in
  if size_bits other <? bits then Ok false else
  let other := match only_first other bits 0 with Ok o => o | Err _ => other end in
  let! ord := lex_cmp s other in
  Ok (match ord with Eq => true | _ => false end).

Definition is_data_suffix_of (s other : CellSlice) : result bool :=
  let bits := size_bits s in
  if size_bits other <? bits then Ok false else
  let other := match only_last other bits 0 with Ok o => o | Err _ => other end in
  let! ord := lex_cmp s other in
  Ok (match ord with Eq => true | _ => false end).
End Compare.
