(* ===== verification/SliceScanSpec.v ===== *)
(** * SliceScanSpec: the optimised scans compute the obvious list functions

    Each routine of SliceScan.v is compared with its reference definition on bit
    lists: the byte-wise prefix loop with [lcp_len], the word-wise scans with
    [count_lead], the uniformity test with [uniform], and the 32-bit comparison
    with [lex].  The results do not depend on the address of the data. *)

From S2P Require Import Prelude Bits CellMeta Cell Slice SliceSpec SliceScan.

(** ** Reference definitions *)

Fixpoint lcp_len (l k : list bool) : Z :=
  match l, k with
  | a :: l, b :: k => if eqb a b then 1 + lcp_len l k else 0
  | _, _ => 0
  end.

Fixpoint count_lead (b : bool) (l : list bool) : Z :=
  match l with
  | a :: l => if eqb a b then 1 + count_lead b l else 0
  | [] => 0
  end.

(** The bit all elements are equal to, if there is one. *)
Definition uniform (l : list bool) : option bool :=
  match l with
  | [] => None
  | b :: l => if forallb (eqb b) l then Some b else None
  end.

(** Lexicographic order, a proper prefix being smaller. *)
Fixpoint lex (l k : list bool) : comparison :=
  match l, k with
  | [], [] => Eq
  | [], _ => Lt
  | _, [] => Gt
  | a :: l, b :: k => if eqb a b then lex l k else if a then Gt else Lt
  end.

(** ** The first index of a stream where a predicate holds *)
Definition is_first (P : Z -> bool) (n p : Z) : Prop :=
  0 <= p <= n /\ (forall i, 0 <= i < p -> P i = false) /\ (p < n -> P p = true).

(** Splits the three parts of [is_first]. *)
Ltac first3 := split; [try lia | split].

Lemma is_first_unique P n p q : is_first P n p -> is_first P n q -> p = q.
Proof.
  intros (Hp & Hp0 & Hp1) (Hq & Hq0 & Hq1). destruct (Z.lt_trichotomy p q) as [E|[E|E]]; [|done|].
  - rewrite Hq0 in Hp1; lia.
  - rewrite Hp0 in Hq1; lia.
Qed.

Lemma is_first_cons P n p :
  P 0 = false -> 0 < n -> is_first (fun i => P (i + 1)) (n - 1) p -> is_first P n (1 + p).
Proof.
  intros H0 Hn (Hp & Hlo & Hhi). first3.
  - intros i Hi. destruct (decide (i = 0)) as [->|]; [done|].
    specialize (Hlo (i - 1)). rewrite Z.sub_add in Hlo. apply Hlo. lia.
  - intros. rewrite Z.add_comm. apply Hhi. lia.
Qed.

Lemma is_first_cap P m n p :
  is_first P n p -> m <= n -> 0 <= m -> is_first P m (Z.min p m).
Proof.
  intros (Hp & Hlo & Hhi) Hm H0. first3; [intros; apply Hlo; lia |].
  intros. rewrite Z.min_l by lia. apply Hhi. lia.
Qed.

Lemma lookup_cons_Z {A} (a : A) l i : 0 <= i -> (a :: l) !! Z.to_nat (i + 1) = l !! Z.to_nat i.
Proof. intros. replace (Z.to_nat (i + 1)) with (S (Z.to_nat i)) by lia. done. Qed.

(** [P i] is [false] exactly where the two lists agree. *)
Lemma lcp_len_first l k P n :
  n = Z.min (zlen l) (zlen k) ->
  (forall i a b, 0 <= i -> l !! Z.to_nat i = Some a -> k !! Z.to_nat i = Some b ->
     P i = xorb a b) -> is_first P n (lcp_len l k).
Proof.
  revert k P n. induction l as [|a l IH]; intros [|b k] P n Hn HP; unfold zlen in *; simpl in *;
    try (subst n; first3; lia).
  pose proof (HP 0 a b ltac:(lia) eq_refl eq_refl) as H0.
  destruct (eqb a b) eqn:E.
  - apply eqb_true_iff in E as ->. rewrite xorb_nilpotent in H0.
    apply is_first_cons; [done | lia|]. apply IH; [lia|].
    intros i a' b' Hi Hl Hk. apply HP; [lia | by rewrite lookup_cons_Z by lia..].
  - first3; [lia|]. intros _. rewrite H0. apply eqb_false_iff in E. by destruct a, b.
Qed.

Lemma count_lead_first b l P n :
  n = zlen l ->
  (forall i a, 0 <= i -> l !! Z.to_nat i = Some a -> P i = xorb a b) ->
  is_first P n (count_lead b l).
Proof.
  revert P n. induction l as [|a l IH]; intros P n Hn HP; unfold zlen in *; simpl in *;
    [subst n; first3; lia|].
  pose proof (HP 0 a ltac:(lia) eq_refl) as H0. destruct (eqb a b) eqn:E.
  - apply eqb_true_iff in E as ->. rewrite xorb_nilpotent in H0.
    apply is_first_cons; [done | lia|]. apply IH; [lia|].
    intros i a' Hi Hl. apply HP; [lia | by rewrite lookup_cons_Z by lia].
  - first3; [lia|]. intros _. rewrite H0. apply eqb_false_iff in E. by destruct a, b.
Qed.

Lemma lcp_len_range l k : 0 <= lcp_len l k <= Z.min (zlen l) (zlen k).
Proof.
  revert k. induction l as [|a l IH]; intros [|b k]; unfold zlen in *; simpl; try lia.
  specialize (IH k). destruct (eqb a b); lia.
Qed.

(** ** Leading and trailing zeros of machine words *)

Lemma leading_zeros_first w x :
  0 <= w -> 0 <= x < 2 ^ w -> is_first (fun k => Z.testbit x (w - 1 - k)) w (leading_zeros w x).
Proof.
  intros Hw Hx. unfold leading_zeros. destruct (Z.eqb_spec x 0) as [->|].
  - first3; [intros; apply Z.testbit_0_l | lia].
  - pose proof (Z.log2_nonneg x). assert (Z.log2 x < w) by (apply Z.log2_lt_pow2; lia).
    first3.
    + intros i Hi. apply Z.bits_above_log2; lia.
    + intros. replace (w - 1 - _) with (Z.log2 x) by lia. apply Z.bit_log2. lia.
Qed.

Lemma count_zeros_first n x i :
  0 <= i ->
  is_first (fun k => Z.testbit x (i + k)) (Z.of_nat n) (count_zeros n x i - i).
Proof.
  revert i. induction n as [|n IH]; intros i Hi; simpl count_zeros.
  - first3; lia.
  - destruct (Z.testbit x i) eqn:E.
    + rewrite Z.sub_diag. first3; [lia | intros; by rewrite Z.add_0_r].
    + replace (count_zeros n x (i + 1) - i) with (1 + (count_zeros n x (i + 1) - (i + 1))) by lia.
      apply is_first_cons; [by rewrite Z.add_0_r | lia |].
      replace (Z.of_nat (S n) - 1) with (Z.of_nat n) by lia.
      destruct (IH (i + 1) ltac:(lia)) as (A & B & C). first3.
      * intros j Hj. rewrite <- (B j Hj). f_equal. lia.
      * intros Hj. rewrite <- (C Hj). f_equal. lia.
Qed.

Lemma trailing_zeros_first w x :
  0 <= w -> is_first (Z.testbit x) w (trailing_zeros w x).
Proof.
  intros Hw. unfold trailing_zeros.
  pose proof (count_zeros_first (Z.to_nat w) x 0 ltac:(lia)) as (A & B & C).
  rewrite Z2Nat.id, Z.sub_0_r in * by lia. by first3.
Qed.

Lemma leading_zeros_pos w x : 0 <= w -> 0 < x < 2 ^ w -> leading_zeros w x < w.
Proof.
  intros Hw Hx. unfold leading_zeros. destruct (Z.eqb_spec x 0); [lia|].
  pose proof (Z.log2_nonneg x). lia.
Qed.

(** Extends a clear prefix of length [d] by the first hit [p] of the next [m] indices. *)
Lemma is_first_extend P n d m p :
  0 <= d -> (forall i, 0 <= i < d -> P i = false) ->
  is_first (fun k => P (d + k)) m p -> d + m <= n -> p < m \/ d + m = n ->
  is_first P n (d + p).
Proof.
  intros Hd Hlo (Hp & Hf & Ht) Hm Hend. first3.
  - intros i Hi. destruct (Z.ltb_spec i d); [by apply Hlo; lia|].
    rewrite <- (Hf (i - d)) by lia. f_equal. lia.
  - intros. apply Ht. lia.
Qed.

Lemma is_first_ext P Q n p :
  (forall i, 0 <= i < n -> P i = Q i) -> is_first P n p -> is_first Q n p.
Proof.
  intros H (Hp & Hf & Ht). first3.
  - intros i Hi. rewrite <- H by lia. by apply Hf.
  - intros. rewrite <- H by lia. by apply Ht.
Qed.

(** ** [bits_memscan] *)

(** The [w]-bit pattern all bits of which are [cmp]. *)
Lemma testbit_pattern w (cmp : bool) k :
  0 <= w -> Z.testbit (b2z cmp * (2 ^ w - 1)) k = (0 <=? k) && (k <? w) && cmp.
Proof.
  intros Hw. destruct (Z.leb_spec 0 k); simpl; [|by rewrite Z.testbit_neg_r].
  destruct cmp; unfold b2z.
  - rewrite Z.mul_1_l. replace (2 ^ w - 1) with (Z.ones w) by (rewrite Z.ones_equiv; lia).
    rewrite andb_true_r. destruct (Z.ltb_spec k w).
    + by rewrite Z.ones_spec_low by lia.
    + by rewrite Z.ones_spec_high by lia.
  - by rewrite Z.mul_0_l, Z.testbit_0_l, andb_false_r.
Qed.

Lemma pattern_range w (cmp : bool) : 0 <= w -> 0 <= b2z cmp * (2 ^ w - 1) < 2 ^ w.
Proof. intros. pose proof (Z.pow_pos_nonneg 2 w ltac:(lia) ltac:(lia)). destruct cmp; simpl; lia. Qed.

Lemma lxor_range w x y :
  0 <= w -> 0 <= x < 2 ^ w -> 0 <= y < 2 ^ w -> 0 <= Z.lxor x y < 2 ^ w.
Proof.
  intros Hw Hx Hy. assert (0 <= Z.lxor x y) by (apply Z.lxor_nonneg; lia).
  split; [done|]. apply bits_bound; [done..|]. intros k Hk.
  by rewrite Z.lxor_spec, !(testbit_high w) by lia.
Qed.

Lemma testbit_byte_xor dat ptr (cmp : bool) k :
  0 <= k < 8 ->
  Z.testbit (Z.lxor (byte_at dat ptr) (b2z cmp * 255)) k = xorb (bit_at dat (8 * ptr + 7 - k)) cmp.
Proof.
  intros Hk. rewrite Z.lxor_spec, (testbit_pattern 8) by lia.
  rewrite (bit_at_in dat ptr) by lia. zcases; try lia. simpl. f_equal. f_equal. lia.
Qed.

Section Scan.
Context (dat : list Z) (Hdat : Forall is_byte dat) (cmp : bool) (s n : Z).
Context (Hs : 0 <= s) (Hn : 0 <= n) (Hsn : s + n <= 1023).

(** Bit [i] of the scanned window differs from [cmp]. *)
Let P i := xorb (bit_at dat (s + i)) cmp.
Let byte_xor ptr := Z.lxor (byte_at dat ptr) (b2z cmp * 255).

Lemma byte_xor_range ptr : 0 <= byte_xor ptr < 256.
Proof.
  apply (lxor_range 8); [lia | by apply byte_at_range | by apply (pattern_range 8)].
Qed.

Lemma byte_xor_first ptr d :
  8 * ptr = s + d -> is_first (fun k => P (d + k)) 8 (leading_zeros 8 (byte_xor ptr)).
Proof.
  intros Hp. eapply is_first_ext; [|apply leading_zeros_first; [lia | apply byte_xor_range]].
  intros i Hi. unfold byte_xor. rewrite testbit_byte_xor by lia. unfold P. do 2 f_equal. lia.
Qed.

(** What the loops maintain: the first [n - rem] bits equal [cmp] and the
    next bit is the first one of byte [ptr]. *)
Definition scan_state (ptr rem : Z) : Prop :=
  0 <= rem <= n /\ 8 * ptr = s + (n - rem) /\ forall i, 0 <= i < n - rem -> P i = false.

Definition scan_post (rem : Z) (r : Z + Z * Z) : Prop :=
  match r with
  | inl p => is_first P n p
  | inr (ptr', rem') => scan_state ptr' rem' /\ rem' <= rem
  end.

Lemma scan_step ptr rem w z :
  scan_state ptr rem -> 8 <= w <= rem -> w mod 8 = 0 ->
  is_first (fun k => P (n - rem + k)) w (leading_zeros w z) -> 0 <= z < 2 ^ w ->
  if 0 <? z then is_first P n (u16 (n - rem + leading_zeros w z))
  else scan_state (ptr + w / 8) (rem - w).
Proof.
  intros (Hrem & Hp & Hlo) Hw H8 Hf Hz. destruct (Z.ltb_spec 0 z).
  - pose proof (leading_zeros_pos w z ltac:(lia) ltac:(lia)). destruct Hf as (? & ? & ?).
    rewrite u16_small by lia. apply is_first_extend with w; [lia | done | by first3 | lia..].
  - assert (z = 0) as -> by lia. destruct Hf as (_ & Hf & _). split_and!; [lia..|].
    intros i Hi. destruct (Z.ltb_spec i (n - rem)); [by apply Hlo; lia|].
    replace i with (n - rem + (i - (n - rem))) by lia. apply Hf. unfold leading_zeros. simpl. lia.
Qed.

Lemma scan_bytes_spec fuel cond ptr rem :
  scan_state ptr rem -> scan_post rem (scan_bytes fuel cond dat (b2z cmp * 255) n ptr rem).
Proof.
  revert ptr rem. induction fuel as [|fuel IH]; intros ptr rem H; simpl; [split; [done | lia]|].
  destruct (Z.leb_spec 8 rem); simpl; [|split; [done | lia]].
  destruct (cond ptr); simpl; [|split; [done | lia]].
  pose proof (scan_step ptr rem 8 (byte_xor ptr) H ltac:(lia) eq_refl) as Hst.
  fold (byte_xor ptr). destruct (0 <? byte_xor ptr); simpl.
  - apply Hst; [apply byte_xor_first, H | apply byte_xor_range].
  - assert (scan_state (ptr + 1) (rem - 8)) as H'
      by (apply Hst; [apply byte_xor_first, H | apply byte_xor_range]).
    specialize (IH _ _ H'). destruct (scan_bytes _ _ _ _ _ _ _) as [|[]]; simpl in *; [done|].
    destruct IH. split; [done | lia].
Qed.

Lemma scan_bytes_end fuel ptr rem :
  rem < 8 * Z.of_nat fuel + 8 ->
  match scan_bytes fuel (fun _ => true) dat (b2z cmp * 255) n ptr rem with
  | inl _ => True
  | inr (_, rem') => rem' < 8
  end.
Proof.
  revert ptr rem. induction fuel as [|fuel IH]; intros ptr rem H; simpl; [lia|].
  destruct (Z.leb_spec 8 rem); simpl; [|lia].
  destruct (0 <? _); [done|]. apply IH. lia.
Qed.

Lemma scan_words_spec fuel ptr rem :
  n <= 8 * zlen dat - s ->
  scan_state ptr rem -> scan_post rem (scan_words fuel dat (b2z cmp * (2 ^ 64 - 1)) n ptr rem).
Proof.
  intros Hz. revert ptr rem. induction fuel as [|fuel IH]; intros ptr rem H; cbn [scan_words];
    [split; [done | lia]|].
  destruct (Z.leb_spec 64 rem); [|split; [done | lia]]. destruct H as (Hrem & Hp & Hlo).
  pose proof (sub_bytes_bytes dat ptr 8 Hdat) as Hsb.
  assert (zlen (sub_bytes dat ptr 8) = 8) as Hl by (apply zlen_sub; lia).
  set (z := Z.lxor (from_be_bytes (sub_bytes dat ptr 8)) (b2z cmp * (2 ^ 64 - 1))).
  assert (0 <= z < 2 ^ 64) as Hzr.
  { apply lxor_range; [lia | | by apply pattern_range].
    pose proof (from_be_bytes_range _ Hsb) as Hr. by rewrite Hl in Hr. }
  assert (is_first (fun k => P (n - rem + k)) 64 (leading_zeros 64 z)) as Hf.
  { eapply is_first_ext; [|apply leading_zeros_first; [lia | done]].
    intros i Hi. unfold z. rewrite Z.lxor_spec, testbit_pattern by lia.
    rewrite testbit_from_be by (rewrite ?Hl; done || lia). rewrite Hl, bit_at_sub by lia.
    zcases; try lia. unfold P. simpl. do 2 f_equal. lia. }
  pose proof (scan_step ptr rem 64 z ltac:(done) ltac:(lia) eq_refl Hf Hzr) as Hst.
  destruct (0 <? z); [done|]. change (64 / 8) with 8 in Hst.
  specialize (IH _ _ Hst). destruct (scan_words _ _ _ _ _ _) as [|[]]; simpl in *; [done|].
  destruct IH. split; [done | lia].
Qed.

Lemma bits_memscan_first addr :
  n <= 8 * zlen dat - s -> is_first P n (bits_memscan addr dat s n cmp).
Proof.
  intros Hz. unfold bits_memscan. destruct (Z.eqb_spec n 0) as [->|]; [first3; lia|].
  rewrite Z.shiftr_div_pow2 by lia. change 7 with (Z.ones 3). rewrite Z.land_ones by lia.
  change (2 ^ 3) with 8.
  match goal with |- is_first _ _ (match ?h with _ => _ end) => set (head := h) end.
  assert (match head with inl p => is_first P n p | inr (ptr, rem) => scan_state ptr rem end) as Hhead.
  { unfold head. destruct (Z.ltb_spec 0 (s mod 8)); [|split_and!; [lia..|intros; lia]].
    set (v := u8 _). assert (0 <= v < 256) as Hv by apply u8_byte.
    destruct (leading_zeros_first 8 v) as (A & B & C); [lia | done |].
    set (c := leading_zeros 8 v) in *. clearbody c.
    assert (forall i, 0 <= i < 8 - s mod 8 -> P i = Z.testbit v (8 - 1 - i)) as HP.
    { intros i Hi. unfold v. tb. destruct (Z.ltb_spec (8 - 1 - i) 8); [simpl|lia].
      rewrite <- Z.lxor_spec, testbit_byte_xor by lia. unfold P. do 2 f_equal. lia. }
    destruct (Z.ltb_spec c (8 - s mod 8)); [|destruct (Z.leb_spec n (8 - s mod 8))]; cbn [orb].
    - first3; intros; rewrite HP by lia; [apply B; lia|]. rewrite Z.min_l by lia. apply C. lia.
    - first3; [|lia]. intros. rewrite HP by lia. apply B. lia.
    - split_and!; [lia..|]. intros. rewrite HP by lia. apply B. lia. }
  destruct head as [|[ptr rem]]; [done|].
  pose proof (scan_bytes_spec 128 (fun p => negb (is_aligned_to_u64 addr p)) _ _ Hhead) as H1.
  destruct (scan_bytes _ _ _ _ _ _ _) as [|[ptr1 rem1]]; [done|]. destruct H1 as [H1 _].
  pose proof (scan_words_spec 16 _ _ Hz H1) as H2.
  destruct (scan_words _ _ _ _ _ _) as [|[ptr2 rem2]]; [done|]. destruct H2 as [H2 _].
  pose proof (scan_bytes_spec 128 (fun _ => true) _ _ H2) as H3.
  pose proof (scan_bytes_end 128 ptr2 rem2 ltac:(destruct H2; lia)) as H4.
  destruct (scan_bytes _ _ _ _ _ _ _) as [|[ptr3 rem3]]; [done|].
  destruct H3 as [(Hr & Hp & Hlo) _]. fold (byte_xor ptr3).
  pose proof (byte_xor_first ptr3 _ Hp) as (A & B & C). set (c := leading_zeros 8 _) in *.
  clearbody c. destruct (Z.ltb_spec 0 rem3); [destruct (Z.ltb_spec c rem3)|].
  - rewrite u16_small by lia. apply is_first_extend with rem3; [lia | done | | lia..].
    first3; [done | intros; apply C; lia].
  - first3; [|lia]. intros i Hi. destruct (Z.ltb_spec i (n - rem3)); [by apply Hlo; lia|].
    replace i with (n - rem3 + (i - (n - rem3))) by lia. apply B. lia.
  - first3; [|lia]. intros. apply Hlo. lia.
Qed.

(** *** The reverse scan *)
Let R i := xorb (bit_at dat (s + n - 1 - i)) cmp.

(** The last [res] bits equal [cmp]; byte [ptr] ends right before them. *)
Definition rev_state (ptr res rem : Z) : Prop :=
  0 <= rem /\ 0 <= res /\ res + rem = n /\ 8 * ptr = s + rem /\
  forall i, 0 <= i < res -> R i = false.

Definition rev_post (rem : Z) (r : Z + Z * Z * Z) : Prop :=
  match r with
  | inl p => is_first R n p
  | inr (ptr', res', rem') => rev_state ptr' res' rem' /\ rem' <= rem
  end.

Lemma rev_step ptr res rem w z :
  rev_state ptr res rem -> 8 <= w <= rem -> w mod 8 = 0 -> 0 <= z < 2 ^ w ->
  (forall i, 0 <= i < w -> Z.testbit z i = R (res + i)) ->
  if 0 <? z then is_first R n (u16 (res + trailing_zeros w z))
  else rev_state (ptr - w / 8) (u16 (res + w)) (rem - w).
Proof.
  intros (Hrem & Hres & Hsum & Hp & Hlo) Hw H8 Hz Hbits.
  destruct (trailing_zeros_first w z ltac:(lia)) as (A & B & C).
  destruct (Z.ltb_spec 0 z).
  - assert (trailing_zeros w z < w) as Hlt.
    { destruct (Z.ltb_spec (trailing_zeros w z) w) as [|E]; [done|exfalso].
      assert (z = 0); [|lia]. apply Z.bits_inj'. intros k Hk. rewrite Z.bits_0.
      destruct (Z.ltb_spec k w); [apply B; lia | by apply (testbit_high w); lia]. }
    rewrite u16_small by lia. apply is_first_extend with w; [lia | done | | lia..].
    first3; [intros i Hi; rewrite <- Hbits by lia; by apply B | intros; rewrite <- Hbits by lia; auto].
  - assert (z = 0) as -> by lia. rewrite u16_small by lia. split_and!; [lia..|].
    intros i Hi. destruct (Z.ltb_spec i res); [by apply Hlo; lia|].
    replace i with (res + (i - res)) by lia. rewrite <- Hbits by lia. apply Z.testbit_0_l.
Qed.

Lemma scan_bytes_rev_spec fuel ptr res rem :
  rev_state ptr res rem -> rem < 8 * Z.of_nat fuel + 8 ->
  match scan_bytes_rev fuel dat (b2z cmp * 255) ptr res rem with
  | inl p => is_first R n p
  | inr (ptr', res', rem') => rev_state ptr' res' rem' /\ rem' < 8
  end.
Proof.
  revert ptr res rem. induction fuel as [|fuel IH]; intros ptr res rem H Hf; simpl; [split; [done|lia]|].
  destruct (Z.leb_spec 8 rem); [|split; [done | lia]].
  fold (byte_xor (ptr - 1)).
  pose proof (rev_step ptr res rem 8 (byte_xor (ptr - 1)) H ltac:(lia) eq_refl (byte_xor_range _)) as Hst.
  destruct (0 <? byte_xor (ptr - 1)); [|apply IH; [|lia]]; apply Hst;
    intros i Hi; unfold byte_xor; rewrite testbit_byte_xor by lia; unfold R; do 2 f_equal;
    destruct H as (?&?&?&?&?); lia.
Qed.

Lemma scan_words_rev_spec fuel ptr res rem :
  n <= 8 * zlen dat - s -> rev_state ptr res rem ->
  rev_post rem (scan_words_rev fuel dat (b2z cmp * (2 ^ 32 - 1)) ptr res rem).
Proof.
  intros Hz. revert ptr res rem.
  induction fuel as [|fuel IH]; intros ptr res rem H; cbn [scan_words_rev]; [split; [done|lia]|].
  destruct (Z.leb_spec 32 rem); [|split; [done | lia]].
  pose proof H as (Hrem & Hres & Hsum & Hp & Hlo).
  pose proof (sub_bytes_bytes dat (ptr - 4) 4 Hdat) as Hsb.
  assert (zlen (sub_bytes dat (ptr - 4) 4) = 4) as Hl by (apply zlen_sub; lia).
  set (z := Z.lxor (from_be_bytes (sub_bytes dat (ptr - 4) 4)) (b2z cmp * (2 ^ 32 - 1))).
  assert (0 <= z < 2 ^ 32) as Hzr.
  { apply lxor_range; [lia | | by apply pattern_range].
    pose proof (from_be_bytes_range _ Hsb) as Hr. by rewrite Hl in Hr. }
  pose proof (rev_step ptr res rem 32 z H ltac:(lia) eq_refl Hzr) as Hst.
  assert (forall i, 0 <= i < 32 -> Z.testbit z i = R (res + i)) as Hbits.
  { intros i Hi. unfold z. rewrite Z.lxor_spec, testbit_pattern by lia.
    rewrite testbit_from_be by (rewrite ?Hl; done || lia). rewrite Hl, bit_at_sub by lia.
    zcases; try lia. unfold R. simpl. do 2 f_equal. lia. }
  specialize (Hst Hbits). destruct (0 <? z); [done|]. change (32 / 8) with 4 in Hst.
  specialize (IH _ _ _ Hst). destruct (scan_words_rev _ _ _ _ _ _) as [|[[]]]; simpl in *; [done|].
  destruct IH. split; [done | lia].
Qed.

Lemma bits_memscan_rev_first :
  n <= 8 * zlen dat - s -> is_first R n (bits_memscan_rev dat s n cmp).
Proof.
  intros Hz. unfold bits_memscan_rev. destruct (Z.eqb_spec n 0) as [->|]; [first3; lia|].
  rewrite (Z.shiftr_div_pow2 (s + n) 3) by lia. change 7 with (Z.ones 3). rewrite Z.land_ones by lia.
  rewrite u16_small by lia. change (2 ^ 3) with 8.
  set (off := (s + n) mod 8). set (q := (s + n) / 8).
  match goal with |- is_first _ _ (match ?h with _ => _ end) => set (head := h) end.
  assert (match head with inl p => is_first R n p | inr rem => rev_state q off rem end) as Hhead.
  { unfold head. destruct (Z.ltb_spec 0 off); [|split_and!; [lia..|intros; lia]].
    set (v := Z.lxor _ _). destruct (trailing_zeros_first 8 v) as (A & B & C); [lia|].
    set (c := trailing_zeros 8 v) in *. clearbody c.
    assert (forall i, 0 <= i < off -> R i = Z.testbit v i) as HR.
    { intros i Hi. unfold v. rewrite Z.lxor_spec, (testbit_pattern 8), Z.shiftr_spec by lia.
      unfold R. rewrite (bit_at_in dat q) by lia. zcases; try lia. simpl. f_equal. f_equal. lia. }
    destruct (Z.ltb_spec c off); [|destruct (Z.leb_spec n off)]; cbn [orb].
    - first3; intros; rewrite HR by lia; [apply B; lia|]. rewrite Z.min_l by lia. apply C. lia.
    - first3; [|lia]. intros. rewrite HR by lia. apply B. lia.
    - split_and!; [lia..|]. intros. rewrite HR by lia. apply B. lia. }
  destruct head as [|rem]; [done|].
  pose proof (scan_words_rev_spec 32 _ _ _ Hz Hhead) as H1.
  destruct (scan_words_rev _ _ _ _ _ _) as [|[[ptr1 res1] rem1]]; [done|]. destruct H1 as [H1 _].
  pose proof (scan_bytes_rev_spec 128 _ _ _ H1 ltac:(destruct H1 as (?&?&?&?&?); lia)) as H2.
  destruct (scan_bytes_rev _ _ _ _ _ _) as [|[[ptr2 res2] rem2]]; [done|].
  destruct H2 as [(Hrem & Hres & Hsum & Hp & Hlo) H8].
  destruct (Z.ltb_spec 0 rem2); [|first3; [intros; apply Hlo; lia | lia]].
  fold (byte_xor (ptr2 - 1)).
  destruct (trailing_zeros_first 8 (byte_xor (ptr2 - 1))) as (A & B & C); [lia|].
  set (c := trailing_zeros 8 _) in *. clearbody c. rewrite u16_small by lia.
  assert (forall i, 0 <= i < 8 -> R (res2 + i) = Z.testbit (byte_xor (ptr2 - 1)) i) as HR.
  { intros i Hi. unfold byte_xor. rewrite testbit_byte_xor by lia. unfold R. do 2 f_equal. lia. }
  apply is_first_extend with rem2; [lia | done | | lia..].
  apply is_first_cap with 8; [|lia..].
  first3; intros; rewrite HR by lia; [by apply B | by apply C].
Qed.

(** *** The counts *)
Lemma count_lead_memscan addr :
  n <= 8 * zlen dat - s -> bits_memscan addr dat s n cmp = count_lead cmp (bits_from dat s n).
Proof.
  intros Hz. eapply is_first_unique; [by apply bits_memscan_first|].
  apply count_lead_first; [by rewrite zlen_bits_from|].
  intros i a Hi E. assert (i < n) by (apply lookup_lt_Some in E; rewrite length_bits_from in E; lia).
  rewrite lookup_bits_from in E by lia. injection E as <-. unfold P. do 2 f_equal. lia.
Qed.

Lemma count_trail_memscan :
  n <= 8 * zlen dat - s ->
  bits_memscan_rev dat s n cmp = count_lead cmp (reverse (bits_from dat s n)).
Proof.
  intros Hz. eapply is_first_unique; [by apply bits_memscan_rev_first|].
  apply count_lead_first; [by unfold zlen; rewrite length_reverse, length_bits_from; lia|].
  intros i a Hi E.
  assert (i < n) by (apply lookup_lt_Some in E; rewrite length_reverse, length_bits_from in E; lia).
  rewrite reverse_lookup in E by (rewrite length_bits_from; lia).
  rewrite length_bits_from, lookup_bits_from in E by lia. injection E as <-.
  unfold R. do 2 f_equal. lia.
Qed.
End Scan.

(** Whatever the address of the data, [count_leading] counts. *)
Lemma count_leading_spec addr s bit :
  slice_wf s -> count_leading addr s bit = Ok (count_lead bit (slice_bits s)).
Proof.
  intros H. wf_facts s H. unfold count_leading, slice_bits.
  destruct (Z.leb_spec (bits_end (range s)) (bits_start (range s))).
  { by rewrite bits_from_nil by lia. }
  destruct (Z.ltb_spec (zlen (data (cell s))) (div_ceil (bits_end (range s)) 8)); [dlia|].
  f_equal. apply count_lead_memscan; (done || lia).
Qed.

Lemma count_trailing_spec s bit :
  slice_wf s -> count_trailing s bit = Ok (count_lead bit (reverse (slice_bits s))).
Proof.
  intros H. wf_facts s H. unfold count_trailing, slice_bits.
  destruct (Z.leb_spec (bits_end (range s)) (bits_start (range s))).
  { by rewrite bits_from_nil by lia. }
  destruct (Z.ltb_spec (zlen (data (cell s))) (div_ceil (bits_end (range s)) 8)); [dlia|].
  f_equal. apply count_trail_memscan; (done || lia).
Qed.

(** ** [test_uniform] *)

Lemma count_lead_all b l : count_lead b l = zlen l <-> forallb (eqb b) l = true.
Proof.
  assert (forall l, count_lead b l <= zlen l) as Hle.
  { clear l. induction l as [|a l IH]; unfold zlen in *; simpl; [lia|]. destruct (eqb a b); lia. }
  induction l as [|a l IH]; [done|]. specialize (Hle l). unfold zlen in *. simpl.
  replace (eqb a b) with (eqb b a) by (by destruct a, b). destruct (eqb b a); simpl; [|split; [lia | done]].
  rewrite <- IH. lia.
Qed.

Lemma forallb_bits_from b l s n :
  forallb (eqb b) (bits_from l s n) = true <-> forall i, 0 <= i < n -> bit_at l (s + i) = b.
Proof.
  unfold bits_from. rewrite forallb_forall. split.
  - intros H i Hi. specialize (H (bit_at l (s + i))). symmetry. apply eqb_prop, H.
    apply list_elem_of_In, list_elem_of_fmap. exists (s + i). split; [done|]. apply elem_of_seqZ. lia.
  - intros H x Hx. apply list_elem_of_In, list_elem_of_fmap in Hx as (i & -> & Hi).
    apply elem_of_seqZ in Hi. replace i with (s + (i - s)) by lia. rewrite H by lia. by destruct b.
Qed.

(** A masked byte comparison is zero when the bits under the mask agree. *)
Lemma land_zero_bits x m :
  0 <= m < 256 ->
  Z.land x m = 0 <-> forall k, 0 <= k < 8 -> Z.testbit m k = true -> Z.testbit x k = false.
Proof.
  intros Hm. split.
  - intros E k Hk Hmk. assert (Z.testbit (Z.land x m) k = false) as Ht by (by rewrite E, Z.bits_0).
    rewrite Z.land_spec, Hmk, andb_true_r in Ht. done.
  - intros Hx. apply Z.bits_inj'. intros k Hk. rewrite Z.land_spec, Z.bits_0.
    destruct (Z.testbit m k) eqn:E; [|apply andb_false_r].
    destruct (Z.ltb_spec k 8); [rewrite Hx; [done | lia | done]|]. by rewrite (testbit_high 8 m) in E by lia.
Qed.

Lemma eq_pattern_bits b (cmp : bool) :
  is_byte b -> b = b2z cmp * 255 <-> forall k, 0 <= k < 8 -> Z.testbit b k = cmp.
Proof.
  intros Hb. assert (forall k, Z.testbit (b2z cmp * 255) k = (0 <=? k) && (k <? 8) && cmp) as Hp
    by (intros; by apply (testbit_pattern 8)). split.
  - intros -> k Hk. rewrite (Hp k). zcases; (done || lia).
  - intros H. apply Z.bits_inj'. intros k Hk. rewrite (Hp k). destruct (Z.ltb_spec k 8).
    + rewrite H by lia. zcases; (done || lia).
    + rewrite (testbit_high 8 b) by (unfold is_byte in *; lia). by rewrite andb_false_r.
Qed.

Section Uniform.
Context (dat : list Z) (Hdat : Forall is_byte dat) (bit : bool).

(** The test of one byte under a mask of the bits [lo <= k < hi]. *)
Lemma masked_test ptr m lo hi :
  0 <= m < 256 -> 0 <= lo -> hi <= 8 ->
  (forall k, 0 <= k < 8 -> Z.testbit m k = (lo <=? k) && (k <? hi)) ->
  (Z.land (Z.lxor (byte_at dat ptr) (b2z bit * 255)) m =? 0) = true <->
  forall i, 8 * ptr + 8 - hi <= i < 8 * ptr + 8 - lo -> bit_at dat i = bit.
Proof.
  intros Hm Hlo Hhi Hbits. rewrite Z.eqb_eq, land_zero_bits by done. split.
  - intros H i Hi. specialize (H (8 * ptr + 7 - i) ltac:(lia)).
    rewrite Hbits, testbit_byte_xor in H by lia. revert H. zcases; try lia. simpl.
    replace (8 * ptr + 7 - _) with i by lia. intros Hx. specialize (Hx eq_refl).
    by destruct (bit_at dat i), bit.
  - intros H k Hk E. rewrite Hbits in E by lia. apply andb_true_iff in E as [E1 E2].
    rewrite testbit_byte_xor, H by lia. by destruct bit.
Qed.

Lemma uniform_loop_spec m ptr :
  match uniform_loop m dat ptr (b2z bit * 255) with
  | Some p => p = ptr + Z.of_nat m /\
              forall i, 8 * (ptr + 1) <= i < 8 * (p + 1) -> bit_at dat i = bit
  | None => ~ forall i, 8 * (ptr + 1) <= i < 8 * (ptr + 1 + Z.of_nat m) -> bit_at dat i = bit
  end.
Proof.
  revert ptr. induction m as [|m IH]; intros ptr; cbn [uniform_loop]; [split; [lia | intros; lia]|].
  pose proof (eq_pattern_bits (byte_at dat (ptr + 1)) bit (byte_at_range _ _ Hdat)) as Hb.
  destruct (Z.eqb_spec (byte_at dat (ptr + 1)) (b2z bit * 255)) as [E|E]; cbn [negb].
  - rewrite Hb in E. assert (forall i, 8 * (ptr + 1) <= i < 8 * (ptr + 1) + 8 -> bit_at dat i = bit) as H1.
    { intros i Hi. rewrite (bit_at_in dat (ptr + 1)) by lia. apply E. lia. }
    specialize (IH (ptr + 1)). destruct (uniform_loop _ _ _ _).
    + destruct IH as [-> H2]. split; [lia|]. intros i Hi.
      destruct (Z.ltb_spec i (8 * (ptr + 1) + 8)); [apply H1 | apply H2]; lia.
    + intros H. apply IH. intros i Hi. apply H. lia.
  - intros H. apply E, Hb. intros k Hk.
    rewrite <- (H (8 * (ptr + 1) + (7 - k))) by lia. rewrite bit_at_split by lia. f_equal. lia.
Qed.
End Uniform.

Lemma testbit_ff_shr r k : 0 <= r <= 8 -> 0 <= k -> Z.testbit (Z.shiftr 0xff r) k = (k <? 8 - r).
Proof.
  intros. rewrite Z.shiftr_spec by lia. change 0xff with (Z.ones 8).
  zcases; [apply Z.ones_spec_low | apply Z.ones_spec_high]; lia.
Qed.

Lemma test_uniform_spec addr s :
  slice_wf s -> test_uniform addr s = uniform (slice_bits s).
Proof.
  intros H. wf_facts s H. unfold test_uniform, slice_bits.
  set (start := bits_start (range s)) in *. set (dat := data (cell s)) in *.
  set (fin := bits_end (range s)) in *.
  destruct (Z.leb_spec fin start); [by rewrite bits_from_nil by lia|].
  destruct (Z.ltb_spec (zlen dat) (div_ceil fin 8)); [dlia|].
  replace (Z.land start 7) with (start mod 8) by (symmetry; apply (Z.land_ones start 3); lia).
  replace (Z.shiftr start 3) with (start / 8) by (symmetry; apply (Z.shiftr_div_pow2 start 3); lia).
  rewrite bit_of_byte by lia.
  change (Z.testbit (byte_at dat (start / 8)) (7 - start mod 8)) with (bit_at dat start).
  set (bit := bit_at dat start). set (n := fin - start). set (r := start mod 8). set (q := start / 8).
  assert (uniform (bits_from dat start n) =
    if forallb (eqb bit) (bits_from dat start n) then Some bit else None) as ->.
  { rewrite bits_from_cons by lia. simpl. by rewrite eqb_reflx. }
  pose proof (forallb_bits_from bit dat start n) as HF.
  set (F := forallb (eqb bit) (bits_from dat start n)) in *. clearbody F.
  assert (0 <= Z.shiftr 0xff r < 256) as Hfm by (apply shiftr_byte; unfold is_byte; lia).
  set (lo := (8 - (n + r) mod 8) mod 8).
  assert (is_byte (u8 (Z.shiftl 0xff lo))) as Hlm by apply u8_byte.
  destruct (Z.ltb_spec n 64); [destruct (Z.leb_spec (r + n) 8)|].
  - (* one byte *)
    rewrite <- Z.land_assoc.
    pose proof (masked_test dat bit q (Z.land (Z.shiftr 0xff r) (u8 (Z.shiftl 0xff lo))) lo (8 - r)) as HT.
    set (T := _ =? 0) in *. clearbody T.
    assert (F = T) as ->; [|by destruct T]. apply eq_true_iff_eq. rewrite HF, HT.
    + split; intros Hall i Hi; [replace i with (start + (i - start)) by lia|]; apply Hall; lia.
    + by apply land_byte; [|apply Hlm].
    + lia.
    + lia.
    + intros k Hk. rewrite Z.land_spec, testbit_ff_shr, testbit_ff_shl by lia. apply andb_comm.
  - pose proof (masked_test dat bit q (Z.shiftr 0xff r) 0 (8 - r)) as M1.
    set (T1 := _ =? 0) in *. clearbody T1.
    assert (T1 = true <-> forall i, start <= i < 8 * (q + 1) -> bit_at dat i = bit) as HT1.
    { rewrite M1; [| lia.. |intros; rewrite testbit_ff_shr by lia; by zcases; try lia].
      split; intros Hall i Hi; apply Hall; lia. }
    clear M1. destruct T1; cbn [negb]; cycle 1.
    { destruct F; [|done]. enough (false = true) by done. apply HT1. intros i Hi.
      replace i with (start + (i - start)) by lia. apply HF; [done | lia]. }
    specialize (proj1 HT1 eq_refl) as M1.
    pose proof (uniform_loop_spec dat Hbytes bit (Z.to_nat ((n - (8 - r)) / 8)) q) as M2.
    rewrite Z2Nat.id in M2 by lia. destruct (uniform_loop _ _ _ _) as [ptr|]; cycle 1.
    { destruct F; [|done]. exfalso. apply M2. intros i Hi.
      replace i with (start + (i - start)) by lia. apply HF; [done | lia]. }
    destruct M2 as [Hptr M2].
    pose proof (masked_test dat bit (ptr + 1) (u8 (Z.shiftl 0xff lo)) lo 8) as M3.
    set (T := _ =? 0) in *. clearbody T.
    destruct (Z.eqb_spec ((n - (8 - r)) mod 8) 0); cbn [negb].
    + assert (F = true) as ->; [|done]. apply HF. intros i Hi.
      destruct (Z.ltb_spec (start + i) (8 * (q + 1))); [apply M1 | apply M2]; lia.
    + assert (F = T) as ->; [|by destruct T]. apply eq_true_iff_eq. rewrite HF, M3; try lia.
      * split; intros Hall i Hi; [replace i with (start + (i - start)) by lia; apply Hall; lia|].
        destruct (Z.ltb_spec (start + i) (8 * (q + 1))); [apply M1; lia|].
        destruct (Z.ltb_spec (start + i) (8 * (ptr + 1))); [apply M2|apply Hall]; lia.
      * apply Hlm.
      * intros k Hk. rewrite testbit_ff_shl by lia. by zcases; try lia.
  - rewrite count_lead_memscan by (done || lia).
    assert (F = (count_lead bit (bits_from dat start n) =? n)) as ->; [|done].
    apply eq_true_iff_eq. rewrite Z.eqb_eq, HF, <- forallb_bits_from, <- count_lead_all.
    by rewrite zlen_bits_from by lia.
Qed.

(** ** [lex_cmp] *)

Lemma lex_app l1 k1 l2 k2 :
  length l1 = length k1 ->
  lex (l1 ++ l2) (k1 ++ k2) = match lex l1 k1 with Eq => lex l2 k2 | c => c end.
Proof.
  revert k1. induction l1 as [|a l1 IH]; intros [|b k1] E; simpl in *; try done.
  destruct (eqb a b); [apply IH; lia | by destruct a].
Qed.

(** On strings of the same length the order is that of the numbers they denote. *)
Lemma lex_uint l k : length l = length k -> lex l k = (bits_uint l ?= bits_uint k).
Proof.
  revert k. induction l as [|a l IH] using rev_ind; intros k E.
  { by destruct k. }
  destruct k as [|b k _] using rev_ind; rewrite !length_app in E; simpl in E; [lia|].
  rewrite lex_app, IH, !bits_uint_snoc by lia.
  destruct (Z.compare_spec (bits_uint l) (bits_uint k)) as [->|Hlt|Hgt]; symmetry.
  - destruct a, b; simpl; rewrite ?Z.compare_refl; (done || apply Z.compare_lt_iff || apply Z.compare_gt_iff); lia.
  - apply Z.compare_lt_iff. destruct a, b; simpl; lia.
  - apply Z.compare_gt_iff. destruct a, b; simpl; lia.
Qed.

Lemma lex_nil l k : l = [] \/ k = [] -> lex l k = (zlen l ?= zlen k).
Proof. intros [-> | ->]; [by destruct k | by destruct l]. Qed.

Lemma lex_refl l : lex l l = Eq.
Proof. induction l as [|a l IH]; [done|]. simpl. by rewrite eqb_reflx. Qed.

Lemma lex_eq l k : lex l k = Eq <-> l = k.
Proof.
  split; [|intros ->; apply lex_refl]. revert k.
  induction l as [|a l IH]; intros [|b k]; simpl; try done.
  destruct (eqb a b) eqn:E; [|by destruct a]. apply eqb_true_iff in E as ->. intros. f_equal. auto.
Qed.

Lemma zlen_sub_bits s o n :
  slice_wf s -> 0 <= o -> 0 <= n -> o + n <= size_bits s -> zlen (sub_bits s o n) = n.
Proof. intros. rewrite sub_bits_from by done. by apply zlen_bits_from. Qed.

(** The windows of two slices at the same offset compare as their numbers do. *)
Lemma lex_sub_bits l r o n :
  slice_wf l -> slice_wf r -> 0 <= o -> 0 <= n -> o + n <= size_bits l -> o + n <= size_bits r ->
  lex (sub_bits l o n) (sub_bits r o n) =
    (bits_uint (sub_bits l o n) ?= bits_uint (sub_bits r o n)).
Proof. intros. apply lex_uint. rewrite !length_zlen, !zlen_sub_bits by done. done. Qed.

Lemma sub_bits_split s o n m :
  slice_wf s -> 0 <= o -> 0 <= n -> 0 <= m -> o + (n + m) <= size_bits s ->
  sub_bits s o (n + m) = sub_bits s o n ++ sub_bits s (o + n) m.
Proof.
  intros. rewrite !sub_bits_from by (done || lia). rewrite bits_from_app by lia. by rewrite Z.add_assoc.
Qed.

Section LexWords.
Context (l r : CellSlice) (Hl : slice_wf l) (Hr : slice_wf r).

Lemma lex_words_spec m k :
  0 <= k -> 32 * (k + Z.of_nat m) <= size_bits l -> 32 * (k + Z.of_nat m) <= size_bits r ->
  lex_words l r ((fun k => 32 * k) <$> seqZ k (Z.of_nat m)) =
    Ok (lex (sub_bits l (32 * k) (32 * Z.of_nat m)) (sub_bits r (32 * k) (32 * Z.of_nat m))).
Proof.
  pose proof (size_bits_range l Hl). pose proof (size_bits_range r Hr).
  revert k. induction m as [|m IH]; intros k Hk Hkl Hkr.
  - by rewrite seqZ_nil by lia.
  - rewrite seqZ_cons by lia. rewrite fmap_cons. cbn [lex_words]. unfold get_u32.
    pose proof (get_be_uint_reads l Hl (32 * k) ltac:(lia) 4 8 ltac:(lia) ltac:(lia)) as E1.
    pose proof (get_be_uint_reads r Hr (32 * k) ltac:(lia) 4 8 ltac:(lia) ltac:(lia)) as E2.
    unfold reads in E1, E2. rewrite E1, E2. clear E1 E2.
    destruct (Z.leb_spec (32 * k + 8 * 4) (size_bits l)); [|lia].
    destruct (Z.leb_spec (32 * k + 8 * 4) (size_bits r)); [|lia]. cbn [rbind].
    change (8 * 4) with 32. replace (32 * Z.of_nat (S m)) with (32 + 32 * Z.of_nat m) by lia.
    rewrite !sub_bits_split by (done || lia).
    rewrite lex_app by (rewrite !length_zlen, !zlen_sub_bits by (done || lia); done).
    rewrite <- lex_sub_bits by (done || lia).
    destruct (lex (sub_bits l (32 * k) 32) (sub_bits r (32 * k) 32)) eqn:E; [|done..].
    replace (Z.pred (Z.of_nat (S m))) with (Z.of_nat m) by lia.
    replace (Z.succ k) with (k + 1) by lia. rewrite IH by lia.
    by replace (32 * (k + 1)) with (32 * k + 32) by lia.
Qed.
End LexWords.

Lemma slice_bits_split s n :
  slice_wf s -> 0 <= n <= size_bits s ->
  slice_bits s = sub_bits s 0 n ++ drop (Z.to_nat n) (slice_bits s).
Proof. intros. unfold sub_bits. by rewrite drop_0, take_drop. Qed.

Lemma zlen_drop {A} n (l : list A) : 0 <= n <= zlen l -> zlen (drop (Z.to_nat n) l) = zlen l - n.
Proof. unfold zlen. rewrite length_drop. lia. Qed.

Lemma lex_slices l r n :
  slice_wf l -> slice_wf r -> n = Z.min (size_bits l) (size_bits r) ->
  lex (slice_bits l) (slice_bits r) =
    match lex (sub_bits l 0 n) (sub_bits r 0 n) with
    | Eq => size_bits l ?= size_bits r
    | c => c
    end.
Proof.
  intros Hl Hr Hn. pose proof (size_bits_range l Hl). pose proof (size_bits_range r Hr).
  rewrite (slice_bits_split l n), (slice_bits_split r n) by (done || lia).
  rewrite lex_app by (rewrite !length_zlen, !zlen_sub_bits by (done || lia); done).
  destruct (lex _ _); [|done..].
  pose proof (zlen_slice_bits l Hl) as El. pose proof (zlen_slice_bits r Hr) as Er.
  rewrite lex_nil.
  - rewrite !zlen_drop by lia. rewrite El, Er.
    destruct (Z.compare_spec (size_bits l) (size_bits r));
      [apply Z.compare_eq_iff | apply Z.compare_lt_iff | apply Z.compare_gt_iff]; lia.
  - destruct (Z.leb_spec (size_bits l) (size_bits r)); [left | right]; apply drop_ge;
      rewrite length_zlen; lia.
Qed.

Section Lex.
Context (addr_eq : Cell -> Cell -> bool) (Haddr : forall a b, addr_eq a b = true -> a = b).

Lemma lex_cmp_spec l r :
  slice_wf l -> slice_wf r -> lex_cmp addr_eq l r = Ok (lex (slice_bits l) (slice_bits r)).
Proof.
  intros Hl Hr. pose proof (size_bits_range l Hl). pose proof (size_bits_range r Hr).
  set (n := Z.min (size_bits l) (size_bits r)). rewrite (lex_slices l r n) by done.
  unfold lex_cmp. destruct (_ && _) eqn:E.
  - apply andb_true_iff in E as [E1%Haddr E2%Z.eqb_eq].
    rewrite !sub_bits_from by (done || lia). by rewrite E1, E2, lex_refl.
  - clear E. fold n. pose proof (lex_words_spec l r Hl Hr (Z.to_nat ((n - n mod 32) / 32)) 0) as W.
    rewrite Z2Nat.id in W by lia. rewrite W by lia. clear W. simpl rbind.
    set (m := n - n mod 32). replace (32 * (m / 32)) with m by lia. change (32 * 0) with 0.
    assert (forall x, slice_wf x -> n <= size_bits x ->
      sub_bits x 0 n = sub_bits x 0 m ++ sub_bits x m (n mod 32)) as Es.
    { intros x Hx Hnx. replace n with (m + n mod 32) at 1 by lia. by rewrite sub_bits_split by (done || lia). }
    rewrite !Es by (done || lia).
    rewrite lex_app by (rewrite !length_zlen, !zlen_sub_bits by (done || lia); done).
    destruct (lex (sub_bits l 0 m) (sub_bits r 0 m)) eqn:E; [|done..].
    destruct (Z.ltb_spec 0 (n mod 32)).
    + pose proof (get_uint_reads l Hl m ltac:(lia) (n mod 32) ltac:(lia)) as E1.
      pose proof (get_uint_reads r Hr m ltac:(lia) (n mod 32) ltac:(lia)) as E2.
      unfold reads in E1, E2. rewrite E1, E2.
      destruct (Z.leb_spec (m + n mod 32) (size_bits l)); [|lia].
      destruct (Z.leb_spec (m + n mod 32) (size_bits r)); [|lia]. simpl.
      rewrite <- lex_sub_bits by (done || lia). by destruct (lex (sub_bits l m _) _).
    + assert (n mod 32 = 0) as -> by lia. done.
Qed.
End Lex.

(** ** The longest common prefix *)

Section Lcp.
Context (sd od : list Z) (Hsd : Forall is_byte sd) (Hod : Forall is_byte od).
Context (ss os m : Z) (Hss : 0 <= ss) (Hos : 0 <= os) (Hm : 0 <= m <= 1023).

Let Q i := xorb (bit_at sd (ss + i)) (bit_at od (os + i)).
Let sq := ss / 8.
Let sr := ss mod 8.
Let oq := os / 8.
Let or' := os mod 8.
Let Esr : sr = ss mod 8 := eq_refl.
Let Esq : sq = ss / 8 := eq_refl.
Let Eor : or' = os mod 8 := eq_refl.
Let Eoq : oq = os / 8 := eq_refl.

(** The pending byte holds the bits of its source byte, shifted to the window's start. *)
Definition pending (d : list Z) (start i byte : Z) : Prop :=
  is_byte byte /\
  forall j, 0 <= j < 8 ->
    Z.testbit byte (7 - j) = (j <? 8 - start mod 8) && bit_at d (start + 8 * (i - 1) + j).

Lemma pending_shl d start i :
  0 <= start -> 1 <= i -> Forall is_byte d ->
  pending d start i (u8 (Z.shiftl (byte_at d (start / 8 + (i - 1))) (start mod 8))).
Proof.
  intros Hst Hi Hd. split; [apply u8_byte|]. intros j Hj. tb.
  destruct (Z.ltb_spec (7 - j) 8); [|lia]. simpl.
  destruct (Z.ltb_spec j (8 - start mod 8)); simpl; [|by rewrite Z.testbit_neg_r by lia].
  rewrite (bit_at_in d (start / 8 + (i - 1))) by lia. f_equal. lia.
Qed.

(** The pending byte completed by the high bits of the next one. *)
Lemma pending_next d start i byte :
  0 <= start -> 1 <= i -> Forall is_byte d -> pending d start i byte ->
  let v := Z.lor byte (Z.shiftr (byte_at d (start / 8 + i)) (8 - start mod 8)) in
  is_byte v /\ forall j, 0 <= j < 8 -> Z.testbit v (7 - j) = bit_at d (start + 8 * (i - 1) + j).
Proof.
  intros Hst Hi Hd [Hb Hp]. pose proof (byte_at_range d (start / 8 + i) Hd) as Hbn. split.
  { apply lor_byte; [done|]. apply shiftr_byte; [done | lia]. }
  intros j Hj. rewrite Z.lor_spec, Hp, Z.shiftr_spec by lia.
  destruct (Z.ltb_spec j (8 - start mod 8)); simpl.
  - rewrite (testbit_high 8 (byte_at _ _)) by (unfold is_byte in *; lia). apply orb_false_r.
  - rewrite (bit_at_in d (start / 8 + i)) by lia. f_equal. lia.
Qed.

Lemma is_first_capped d p :
  0 <= d -> (forall i, 0 <= i < d -> Q i = false) ->
  0 <= p -> (forall i, 0 <= i < p -> d + i < m -> Q (d + i) = false) ->
  (d + p < m -> Q (d + p) = true) ->
  is_first Q m (Z.min (d + p) m).
Proof.
  intros Hd Hlo Hp Hf Ht. first3.
  - intros i Hi. destruct (Z.ltb_spec i d); [by apply Hlo; lia|].
    replace i with (d + (i - d)) by lia. apply Hf; lia.
  - intros. rewrite Z.min_l by lia. apply Ht. lia.
Qed.

Lemma lcp_loop_spec k i sb ob :
  1 <= i -> i + Z.of_nat k <= 200 ->
  pending sd ss i sb -> pending od os i ob -> (forall j, 0 <= j < 8 * (i - 1) -> Q j = false) ->
  match lcp_loop k sd od sq sr oq or' i sb ob (8 * (i - 1)) m with
  | inl p => is_first Q m p
  | inr (sb', ob', p) =>
      let i' := i + Z.of_nat k in
      p = 8 * (i' - 1) /\ pending sd ss i' sb' /\ pending od os i' ob' /\
      forall j, 0 <= j < p -> Q j = false
  end.
Proof.
  revert i sb ob. induction k as [|k IH]; intros i sb ob Hi Hk Hps Hpo Hlo; cbn [lcp_loop].
  { rewrite Z.add_0_r. by split_and!. }
  rewrite !(u8_small (Z.shiftr _ _)) by (apply shiftr_byte; [by apply byte_at_range | lia]).
  destruct (pending_next sd ss i sb Hss Hi Hsd Hps) as [Bs Vs].
  destruct (pending_next od os i ob Hos Hi Hod Hpo) as [Bo Vo].
  fold sq sr in Bs, Vs. fold oq or' in Bo, Vo.
  set (vs := Z.lor sb _) in *. set (vo := Z.lor ob _) in *. clearbody vs vo.
  assert (0 <= Z.lxor vs vo < 256) as Hx by by apply (lxor_range 8).
  destruct (leading_zeros_first 8 (Z.lxor vs vo)) as (A & B & C); [lia | done |].
  assert (forall j, 0 <= j < 8 -> Z.testbit (Z.lxor vs vo) (8 - 1 - j) = Q (8 * (i - 1) + j)) as HQ.
  { intros j Hj. rewrite Z.lxor_spec. replace (8 - 1 - j) with (7 - j) by lia.
    rewrite Vs, Vo by lia. unfold Q. do 2 f_equal; lia. }
  destruct (Z.eqb_spec (Z.lxor vs vo) 0) as [E|E].
  - rewrite u16_small by lia. replace (8 * (i - 1) + 8) with (8 * (i + 1 - 1)) by lia.
    replace (i + Z.of_nat (S k)) with (i + 1 + Z.of_nat k) by lia. apply IH; [lia..| | |].
    + replace (sq + i) with (ss / 8 + (i + 1 - 1)) by lia. apply pending_shl; [done | lia | done].
    + replace (oq + i) with (os / 8 + (i + 1 - 1)) by lia. apply pending_shl; [done | lia | done].
    + intros j Hj. destruct (Z.ltb_spec j (8 * (i - 1))); [apply Hlo; lia|].
      replace j with (8 * (i - 1) + (j - 8 * (i - 1))) by lia. rewrite <- HQ, E by lia.
      apply Z.testbit_0_l.
  - pose proof (leading_zeros_pos 8 (Z.lxor vs vo) ltac:(lia) ltac:(lia)).
    set (c := leading_zeros 8 _) in *. clearbody c. rewrite u16_small by lia.
    apply is_first_capped; [lia | done | lia | |].
    + intros j Hj _. rewrite <- HQ by lia. by apply B.
    + intros _. rewrite <- HQ by lia. apply C. lia.
Qed.

Lemma pending_complete d start a bytes byte :
  0 <= start -> 1 <= a <= bytes -> start mod 8 + m <= 8 * bytes -> Forall is_byte d ->
  pending d start a byte ->
  let v := if (0 <? start mod 8) && (a <? bytes)
           then Z.lor byte (Z.shiftr (byte_at d (start / 8 + a)) (8 - start mod 8)) else byte in
  is_byte v /\ forall j, 0 <= j < 8 -> 8 * (a - 1) + j < m ->
    Z.testbit v (7 - j) = bit_at d (start + 8 * (a - 1) + j).
Proof.
  intros Hst Ha Hby Hd Hp.
  destruct (pending_next d start a byte Hst ltac:(lia) Hd Hp) as [Bv Vv].
  destruct ((0 <? start mod 8) && (a <? bytes)) eqn:E; cbn zeta.
  - split; [done|]. intros. by apply Vv.
  - destruct Hp as [Hb Hp]. split; [done|]. intros j Hj Hjm. rewrite Hp by done.
    apply andb_false_iff in E as [E%Z.ltb_ge | E%Z.ltb_ge];
      (destruct (Z.ltb_spec j (8 - start mod 8)); [done | lia]).
Qed.

Lemma lcp_tail_first a x mask v w :
  1 <= a -> 8 * (a - 1) < m + 8 -> m <= 8 * a -> (forall j, 0 <= j < 8 * (a - 1) -> Q j = false) ->
  is_byte v -> is_byte w ->
  (forall j, 0 <= j < 8 -> 8 * (a - 1) + j < m -> Z.testbit v (7 - j) = bit_at sd (ss + 8 * (a - 1) + j)) ->
  (forall j, 0 <= j < 8 -> 8 * (a - 1) + j < m -> Z.testbit w (7 - j) = bit_at od (os + 8 * (a - 1) + j)) ->
  mask = u8 (Z.shiftl 0xff ((8 - m mod 8) mod 8)) -> x = Z.lxor (Z.land v mask) (Z.land w mask) ->
  is_first Q m (Z.min (8 * (a - 1) + leading_zeros 8 x) m).
Proof.
  intros Ha Ha1 Ha2 Hlo Bv Bw Hv Hw -> ->.
  set (mask := u8 _). assert (is_byte mask) as Bm by apply u8_byte.
  set (x := Z.lxor _ _). assert (0 <= x < 256) as Hx.
  { apply (lxor_range 8); [lia | apply (land_range 8) | apply (land_range 8)];
      unfold is_byte in *; lia. }
  destruct (leading_zeros_first 8 x) as (A & B & C); [lia | done |].
  assert (forall j, 0 <= j < 8 -> 8 * (a - 1) + j < m -> Z.testbit x (8 - 1 - j) = Q (8 * (a - 1) + j)) as HQ.
  { intros j Hj Hjm. unfold x, mask. rewrite Z.lxor_spec, !Z.land_spec.
    replace (8 - 1 - j) with (7 - j) by lia. rewrite testbit_ff_shl, Hv, Hw by lia.
    destruct (Z.leb_spec ((8 - m mod 8) mod 8) (7 - j)); [|lia]. rewrite !andb_true_r.
    unfold Q. do 2 f_equal; lia. }
  set (c := leading_zeros 8 x) in *. clearbody c.
  destruct (Z.ltb_spec m (8 * (a - 1))).
  - rewrite Z.min_r by lia. first3; [|lia]. intros. apply Hlo. lia.
  - apply is_first_capped; [lia | done | lia | |].
    + intros j Hj Hjm. rewrite <- HQ by lia. by apply B.
    + intros Hjm. rewrite <- HQ by lia. apply C. lia.
Qed.

Lemma lcp_first :
  1 <= m ->
  let self_bytes := div_ceil (sr + m) 8 in
  let other_bytes := div_ceil (or' + m) 8 in
  let aligned_bytes := Z.min self_bytes other_bytes in
  is_first Q m
    (match lcp_loop (Z.to_nat (aligned_bytes - 1)) sd od sq sr oq or' 1
             (u8 (Z.shiftl (byte_at sd sq) sr)) (u8 (Z.shiftl (byte_at od oq) or')) 0 m with
     | inl res => res
     | inr (self_byte, other_byte, prefix_len) =>
         let self_byte :=
           if (0 <? sr) && (aligned_bytes <? self_bytes) then
             Z.lor self_byte (Z.shiftr (byte_at sd (sq + aligned_bytes)) (8 - sr))
           else self_byte in
         let other_byte :=
           if (0 <? or') && (aligned_bytes <? other_bytes) then
             Z.lor other_byte (Z.shiftr (byte_at od (oq + aligned_bytes)) (8 - or'))
           else other_byte in
         let last_byte_mask := u8 (Z.shiftl 0xff ((8 - m mod 8) mod 8)) in
         let self_byte := Z.land self_byte last_byte_mask in
         let other_byte := Z.land other_byte last_byte_mask in
         let prefix_len := u16 (prefix_len + leading_zeros 8 (Z.lxor self_byte other_byte)) in
         Z.min prefix_len m
     end).
Proof.
  intros Hm1 sbs obs a.
  assert (sr + m <= 8 * sbs <= sr + m + 7) as Hsb by (unfold sbs; dlia).
  assert (or' + m <= 8 * obs <= or' + m + 7) as Hob by (unfold obs; dlia).
  assert (a = Z.min sbs obs) as Ea by done. clearbody a sbs obs.
  pose proof (lcp_loop_spec (Z.to_nat (a - 1)) 1
    (u8 (Z.shiftl (byte_at sd sq) sr)) (u8 (Z.shiftl (byte_at od oq) or'))) as HL.
  change (8 * (1 - 1)) with 0 in HL. rewrite Z2Nat.id in HL by lia.
  replace (1 + (a - 1)) with a in HL by lia.
  pose proof (pending_shl sd ss 1 Hss ltac:(lia) Hsd) as P1.
  pose proof (pending_shl od os 1 Hos ltac:(lia) Hod) as P2.
  change (1 - 1) with 0 in P1, P2. rewrite Z.add_0_r in P1, P2.
  specialize (HL ltac:(lia) ltac:(lia) P1 P2 ltac:(intros; lia)).
  destruct (lcp_loop _ _ _ _ _ _ _ _ _ _ _ _) as [|[[sb ob] p]]; [done|]. cbn zeta in HL.
  destruct HL as (-> & Hps & Hpo & Hlo).
  destruct (pending_complete sd ss a sbs sb Hss ltac:(lia) ltac:(lia) Hsd Hps) as [B1 V1].
  destruct (pending_complete od os a obs ob Hos ltac:(lia) ltac:(lia) Hod Hpo) as [B2 V2].
  fold sq sr in B1, V1. fold oq or' in B2, V2. cbn zeta.
  set (v := if (0 <? sr) && _ then _ else _) in *.
  set (w := if (0 <? or') && _ then _ else _) in *.
  pose proof (fun x mask => lcp_tail_first a x mask v w ltac:(lia) ltac:(lia) ltac:(lia) Hlo B1 B2 V1 V2) as HT.
  specialize (HT _ _ eq_refl eq_refl). set (c := leading_zeros 8 _) in *.
  assert (0 <= c <= 8) as Hc.
  { apply leading_zeros_first; [lia|]. apply (lxor_range 8); [lia | apply (land_range 8) | apply (land_range 8)];
      unfold is_byte in *; try lia; apply u8_byte. }
  rewrite u16_small by lia. done.
Qed.
End Lcp.

Lemma longest_common_data_prefix_impl_spec s o max_hint :
  slice_wf s -> slice_wf o -> 0 <= max_hint ->
  longest_common_data_prefix_impl s o max_hint =
    Z.min (lcp_len (slice_bits s) (slice_bits o)) max_hint.
Proof.
  intros Hs Ho Hmax. wf_facts s Hs. wf_facts o Ho. unfold longest_common_data_prefix_impl.
  pose proof (lcp_len_range (slice_bits s) (slice_bits o)) as Hlcp.
  rewrite !zlen_slice_bits, !size_bits_eq in Hlcp by done.
  destruct (Z.leb_spec (bits_end (range s)) (bits_start (range s))); cbn [orb]; [lia|].
  destruct (Z.leb_spec (bits_end (range o)) (bits_start (range o))); cbn [orb]; [lia|].
  set (m := Z.min (Z.min _ _) max_hint).
  destruct (Z.eqb_spec m 0) as [Em|Em].
  { rewrite Em, !Z.add_0_r. replace (Z.to_nat _) with O by dlia. cbn [lcp_loop].
    rewrite Z.min_r by (apply wrap_range; lia). lia. }
  eapply is_first_unique with (n := m).
  - apply lcp_first; (done || lia).
  - replace (Z.min (lcp_len _ _) max_hint) with (Z.min (lcp_len (slice_bits s) (slice_bits o)) m) by lia.
    eapply is_first_cap; [apply lcp_len_first; [done|] | |]; rewrite ?zlen_slice_bits, ?size_bits_eq by done;
      [|lia..].
    intros i a b Hi E1 E2.
    assert (i < bits_end (range s) - bits_start (range s)) as L1
      by (apply lookup_lt_Some in E1; unfold slice_bits in E1; rewrite length_bits_from in E1; lia).
    assert (i < bits_end (range o) - bits_start (range o)) as L2
      by (apply lookup_lt_Some in E2; unfold slice_bits in E2; rewrite length_bits_from in E2; lia).
    unfold slice_bits in E1, E2. rewrite lookup_bits_from in E1, E2 by lia.
    injection E1 as <-. injection E2 as <-. cbn beta. do 2 f_equal; lia.
Qed.

(** [strip_data_prefix] cuts the prefix off, when it is one. *)
Lemma lcp_len_prefix l k : zlen k <= lcp_len l k <-> k `prefix_of` l.
Proof.
  revert k. induction l as [|a l IH]; intros [|b k]; unfold zlen in *; simpl.
  - split; [intros _; by exists [] | lia].
  - split; [lia | intros [? [=]]].
  - split; [intros _; by eexists | lia].
  - destruct (eqb a b) eqn:E.
    + apply eqb_true_iff in E as ->. specialize (IH k). split.
      * intros. apply prefix_cons, IH. lia.
      * intros H%prefix_cons_inv_2%IH. lia.
    + split; [lia|]. intros H%prefix_cons_inv_1. subst. by rewrite eqb_reflx in E.
Qed.

Lemma strip_data_prefix_spec s p :
  slice_wf s -> slice_wf p ->
  match strip_data_prefix s p with
  | Some r => slice_wf r /\ slice_bits s = slice_bits p ++ slice_bits r
  | None => ~ slice_bits p `prefix_of` slice_bits s
  end.
Proof.
  intros Hs Hp. pose proof (size_bits_range p Hp). pose proof (size_bits_range s Hs).
  pose proof (zlen_slice_bits p Hp) as Ep. pose proof (zlen_slice_bits s Hs) as Es.
  unfold strip_data_prefix. destruct (Z.eqb_spec (size_bits p) 0) as [E|E].
  { rewrite (nil_length_inv (slice_bits p)) by (rewrite length_zlen; lia). done. }
  destruct (Z.ltb_spec (size_bits s) (size_bits p)).
  { intros Hpre%prefix_length. unfold zlen in *. lia. }
  rewrite longest_common_data_prefix_impl_spec by (done || lia).
  destruct (Z.leb_spec (size_bits p) (Z.min (lcp_len (slice_bits s) (slice_bits p)) (size_bits p))) as [L|L].
  - rewrite skip_first_spec by (done || lia). destruct (Z.leb_spec (size_bits p) (size_bits s)); [|lia].
    destruct (advance_wf s (size_bits p) Hs ltac:(lia)) as [Hw ->]. split; [done|].
    destruct (proj1 (lcp_len_prefix (slice_bits s) (slice_bits p)) ltac:(lia)) as [r Hr].
    rewrite Hr, drop_app_length'; [done|]. unfold zlen in *. lia.
  - rewrite <- lcp_len_prefix. lia.
Qed.

(** The slice [longest_common_data_prefix] returns. *)
Lemma lcp_slice key prefix :
  slice_wf key -> slice_wf prefix ->
  let lcp := longest_common_data_prefix key prefix in
  let n := lcp_len (slice_bits key) (slice_bits prefix) in
  size_bits lcp = n /\ slice_wf lcp /\ slice_bits lcp = take (Z.to_nat n) (slice_bits key).
Proof.
  intros Hk Hp lcp n. unfold lcp, longest_common_data_prefix.
  rewrite longest_common_data_prefix_impl_spec by (done || lia). fold n.
  pose proof (lcp_len_range (slice_bits key) (slice_bits prefix)) as Hn. fold n in Hn.
  rewrite zlen_slice_bits in Hn by done. pose proof (size_bits_range key Hk).
  rewrite Z.min_l by lia. destruct (get_prefix_spec key n Hk ltac:(lia)) as (W & B & S).
  split_and!; [lia | done | done].
Qed.

Lemma lcp_len_max l k p : p `prefix_of` l -> p `prefix_of` k -> zlen p <= lcp_len l k.
Proof.
  intros [x ->] [y ->]. induction p as [|a p IH]; unfold zlen in *; simpl; [apply lcp_len_range|].
  rewrite eqb_reflx. lia.
Qed.

Lemma lcp_take_prefix l k : take (Z.to_nat (lcp_len l k)) l `prefix_of` k.
Proof.
  revert k. induction l as [|a l IH]; intros [|b k]; simpl; try apply prefix_nil.
  destruct (eqb a b) eqn:E; [|apply prefix_nil]. apply eqb_prop in E as ->.
  pose proof (lcp_len_range l k). rewrite Z2Nat.inj_add by lia. simpl. apply prefix_cons, IH.
Qed.
