(* ===== verification/Builder.v ===== *)
(** * Builder: [CellBuilder] and [CellRefsBuilder] of [src/src/cell/builder.rs]

    A [CellBuilder] is a data builder, an exotic flag and up to four references.
    Its data operations go to the data builder ([Deref]); the operations of this
    file handle references, append other builders, cells and slices, and finalize
    the builder through a cell context.  The traits [Store] and [Load] with the
    primitive instances the builder and the slice provide are at the end. *)

From S2P Require Import Prelude Bits DataBuilder CellMeta Cell Slice.

(** ** [struct CellBuilder] and [struct CellRefsBuilder] *)
Record CellBuilder := mkBuilder {
  inner : CellDataBuilder;
  b_exotic : bool;
  b_refs : list Cell;
}.

Definition CellRefsBuilder : Type := list Cell.

Definition builder_new : CellBuilder := mkBuilder data_new false [].

(** [From<CellDataBuilder> for CellBuilder] *)
Definition builder_from_data (d : CellDataBuilder) : CellBuilder := mkBuilder d false [].

Definition builder_from_raw_data (value : list Z) (bits : Z) : result CellBuilder :=
  let! d := data_from_raw_data value bits in Ok (mkBuilder d false []).

Definition from_parts (is_exotic : bool) (d : CellDataBuilder) (refs : CellRefsBuilder)
    : CellBuilder := mkBuilder d is_exotic refs.

Definition into_parts (b : CellBuilder) : bool * CellDataBuilder * CellRefsBuilder :=
  (b_exotic b, inner b, b_refs b).

Definition builder_size (b : CellBuilder) : Size :=
  mkSize (DataBuilder.bit_len (inner b)) (u8 (zlen (b_refs b))).

Definition spare_capacity_refs (b : CellBuilder) : Z := u8 (MAX_REF_COUNT - zlen (b_refs b)).

Definition spare_capacity (b : CellBuilder) : Size :=
  mkSize (spare_capacity_bits (inner b)) (spare_capacity_refs b).

Definition has_capacity (b : CellBuilder) (bits refs : Z) : bool :=
  (u16 (DataBuilder.bit_len (inner b) + bits) <=? MAX_BIT_LEN)
  && (zlen (b_refs b) + refs <=? MAX_REF_COUNT).

Definition set_exotic (b : CellBuilder) (is_exotic : bool) : CellBuilder :=
  mkBuilder (inner b) is_exotic (b_refs b).

Definition set_references (b : CellBuilder) (refs : CellRefsBuilder) : CellBuilder :=
  mkBuilder (inner b) (b_exotic b) refs.

(** [DerefMut]: a data operation on a cell builder. *)
Definition on_data (f : CellDataBuilder -> result CellDataBuilder) (b : CellBuilder)
    : result CellBuilder :=
  let! d := f (inner b) in Ok (mkBuilder d (b_exotic b) (b_refs b)).

(** [store_reference] *)
Definition store_reference (b : CellBuilder) (c : Cell) : result CellBuilder :=
  if zlen (b_refs b) <? MAX_REF_COUNT
  then Ok (mkBuilder (inner b) (b_exotic b) (b_refs b ++ [c]))
  else Err CellOverflow.

(** [CellRefsBuilder::store_reference] and [compute_level_mask] *)
Definition refs_store_reference (r : CellRefsBuilder) (c : Cell) : result CellRefsBuilder :=
  if zlen r <? MAX_REF_COUNT then Ok (r ++ [c]) else Err CellOverflow.

Definition compute_level_mask (r : CellRefsBuilder) : LevelMask.t :=
  foldl (fun m c => LevelMask.bitor m (level_mask c)) LevelMask.EMPTY r.

(** The loop that stores references one by one. *)
Fixpoint store_references (b : CellBuilder) (cs : list Cell) : result CellBuilder :=
  match cs with
  | [] => Ok b
  | c :: cs => let! b := store_reference b c in store_references b cs
  end.

(** [store_builder] *)
Definition store_builder (b o : CellBuilder) : result CellBuilder :=
  if (u16 (DataBuilder.bit_len (inner b) + DataBuilder.bit_len (inner o)) <=? MAX_BIT_LEN)
     && (zlen (b_refs b) + zlen (b_refs o) <=? MAX_REF_COUNT) then
    let! b := on_data (fun d =>
      store_raw d (DataBuilder.data (inner o)) (DataBuilder.bit_len (inner o))) b in
    store_references b (b_refs o)
  else Err CellOverflow.

(** [store_cell_data] *)
Definition store_cell_data (b : CellDataBuilder) (c : Cell) : result CellDataBuilder :=
  store_raw b (data c) (bit_len c).

(** [store_slice_data]: copies through a stack buffer of 128 bytes, whose content
    before the copy is arbitrary ([scratch]). *)
Definition store_slice_data (scratch : list Z) (b : CellDataBuilder) (s : CellSlice)
    : result CellDataBuilder :=
  let bits := size_bits s in
  if u16 (DataBuilder.bit_len b + bits) <=? MAX_BIT_LEN then
    let! slice_data := get_raw s 0 scratch bits in
    store_raw b slice_data bits
  else Err CellOverflow.

(** The uninitialized buffer of [store_slice_data], as a fixed array; the
    specification shows that its content does not matter. *)
Definition uninit : list Z := replicate 128 0.

(** [store_slice] *)
Definition store_slice (b : CellBuilder) (s : CellSlice) : result CellBuilder :=
  if (u16 (DataBuilder.bit_len (inner b) + size_bits s) <=? MAX_BIT_LEN)
     && (zlen (b_refs b) + size_refs s <=? MAX_REF_COUNT) then
    let! b := on_data (fun d => store_slice_data uninit d s) b in
    store_references b (slice_references_cloned s)
  else Err CellOverflow.

(** [as_data_slice] and [as_full_slice] *)
Definition as_data_slice (d : CellDataBuilder) : CellSlice :=
  new_allow_exotic (IntermediateDataCell (DataBuilder.data d) (DataBuilder.bit_len d)).

Definition as_full_slice (b : CellBuilder) : CellSlice :=
  new_allow_exotic
    (IntermediateFullCell (DataBuilder.data (inner b)) (DataBuilder.bit_len (inner b)) (b_refs b)).

(** ** Finalization: [build_ext] *)

(** The level mask of the new cell: a brief look at the exotic type byte. *)
Definition build_level_mask (is_exotic : bool) (d : CellDataBuilder) (children_mask : LevelMask.t)
    : LevelMask.t :=
  if is_exotic && (8 <=? DataBuilder.bit_len d) then
    match CellTypes.from_byte_exotic (byte_at (DataBuilder.data d) 0) with
    | Some PrunedBranch => LevelMask.new (byte_at (DataBuilder.data d) 1)
    | Some MerkleProof | Some MerkleUpdate => LevelMask.virtualize children_mask 1
    | Some LibraryReference => LevelMask.EMPTY
    | _ => children_mask
    end
  else children_mask.

(** The completion tag in the last byte. *)
Definition tag_last_byte (d : CellDataBuilder) : list Z :=
  let rem := DataBuilder.bit_len d mod 8 in
  let last_byte := DataBuilder.bit_len d / 8 in
  if 0 <? rem then
    let tag_mask := u8 (Z.shiftl 1 (7 - rem)) in
    let data_mask := unot 8 (tag_mask - 1) in
    set_byte (DataBuilder.data d) last_byte
      (Z.lor (Z.land (byte_at (DataBuilder.data d) last_byte) data_mask) tag_mask)
  else DataBuilder.data d.

Definition build_parts (b : CellBuilder) : CellParts :=
  let children_mask :=
    foldl (fun m c => LevelMask.bitor m (Descr.level_mask (descriptor c))) LevelMask.EMPTY (b_refs b) in
  let level_mask := build_level_mask (b_exotic b) (inner b) children_mask in
  let byte_len := div_ceil (DataBuilder.bit_len (inner b)) 8 in
  {| p_bit_len := DataBuilder.bit_len (inner b);
     p_descriptor := Descr.new
       (Descr.compute_d1 level_mask (b_exotic b) (u8 (zlen (b_refs b))))
       (Descr.compute_d2 (DataBuilder.bit_len (inner b)));
     p_children_mask := children_mask;
     p_references := b_refs b;
     p_data := sub_bytes (tag_last_byte (inner b)) 0 (Z.min byte_len 128) |}.

Definition build_ext (ctx : CellContext) (b : CellBuilder) : result Cell :=
  finalize_cell (build_parts b).

(** [build_library_ext]; the code unwraps the result. *)
Definition build_library_ext (ctx : CellContext) (hash : HashBytes) : result Cell :=
  let b := set_exotic builder_new true in
  let! b := on_data (fun d => store_u8 d (CellTypes.to_byte LibraryReference)) b in
  let! b := on_data (fun d => store_u256 d hash) b in
  build_ext ctx b.

(** ** [trait Store], [trait Load] and their primitive instances *)
Class Store (T : Type) := store_into : T -> CellContext -> CellBuilder -> result CellBuilder.
Class Load (T : Type) := load_from : CellSlice -> result (T * CellSlice).

(** [build_from_ext] *)
Definition build_from_ext {T} `{Store T} (v : T) (ctx : CellContext) : result Cell :=
  let! b := store_into v ctx builder_new in
  build_ext ctx b.

(** [DynCell::parse] *)
Definition parse {T} `{Load T} (c : Cell) : result T :=
  let! s := slice_new c in
  let! (v, _) := load_from s in
  Ok v.

(** Fixed-width integers are distinguished by their width only. *)
Record uN (w : Z) := mkU { uval : Z }.
Arguments mkU w uval : clear implicits.
Arguments uval {w} _.
(** [i8] ... [i128]: two's complement, stored as the unsigned integer of its width. *)
Record iN (w : Z) := mkI { ival : Z }.
Arguments mkI w ival : clear implicits.
Arguments ival {w} _.
(** [HashBytes] as a storable value. *)
Record Hash256 := mkHash { hash_bytes : HashBytes }.

(** [x as iN] *)
Definition as_signed (w x : Z) : Z := if 2 ^ (w - 1) <=? x then x - 2 ^ w else x.

Definition store_be (w : Z) (b : CellDataBuilder) (v : Z) : result CellDataBuilder :=
  if w =? 8 then store_u8 b v else impl_store_uint (w / 8) w b v.

Definition load_be (w : Z) (s : CellSlice) : result (Z * CellSlice) :=
  if w =? 8 then load_u8 s
  else if w =? 128 then load_u128 s
  else load_with s w (get_be_uint (w / 8) (w / 4) s 0).

#[global] Instance Store_unit : Store unit := fun _ _ b => Ok b.
#[global] Instance Load_unit : Load unit := fun s => Ok (tt, s).
#[global] Instance Store_bool : Store bool := fun v _ b => on_data (fun d => store_bit d v) b.
#[global] Instance Load_bool : Load bool := load_bit.
#[global] Instance Store_uN w : Store (uN w) := fun v _ b => on_data (fun d => store_be w d (uval v)) b.
#[global] Instance Load_uN w : Load (uN w) := fun s =>
  let! (v, s) := load_be w s in Ok (mkU w v, s).
#[global] Instance Store_iN w : Store (iN w) := fun v _ b =>
  on_data (fun d => store_be w d (wrap w (ival v))) b.
#[global] Instance Load_iN w : Load (iN w) := fun s =>
  let! (v, s) := load_be w s in Ok (mkI w (as_signed w v), s).
#[global] Instance Store_hash : Store Hash256 := fun v _ b =>
  on_data (fun d => store_u256 d (hash_bytes v)) b.
#[global] Instance Load_hash : Load Hash256 := fun s =>
  let! (v, s) := load_u256 s in Ok (mkHash v, s).
#[global] Instance Store_cell : Store Cell := fun v _ b => store_reference b v.
#[global] Instance Load_cell : Load Cell := load_reference_cloned.
#[global] Instance Store_slice : Store CellSlice := fun v _ b => store_slice b v.
#[global] Instance Load_slice : Load CellSlice := fun s => Ok (load_remaining s).
#[global] Instance Store_builder : Store CellBuilder := fun v _ b => store_builder b v.
#[global] Instance Store_option {T} `{Store T} : Store (option T) := fun v ctx b =>
  match v with
  | Some v => let! b := on_data store_bit_one b in store_into v ctx b
  | None => on_data store_bit_zero b
  end.
#[global] Instance Load_option {T} `{Load T} : Load (option T) := fun s =>
  let! (bit, s) := load_bit s in
  if bit : bool then let! (v, s) := load_from s in Ok (Some v, s) else Ok (None, s).
(** The tuple instances of the macros; longer tuples nest to the left. *)
#[global] Instance Store_pair {A B} `{Store A} `{Store B} : Store (A * B) := fun v ctx b =>
  let! b := store_into v.1 ctx b in store_into v.2 ctx b.
#[global] Instance Load_pair {A B} `{Load A} `{Load B} : Load (A * B) := fun s =>
  let! (a, s) := load_from s in let! (b, s) := load_from s in Ok ((a, b), s).

(** [trait ExactSize] *)
Class ExactSize (T : Type) := exact_size : T -> Size.
#[global] Instance ExactSize_unit : ExactSize unit := fun _ => Sizes.ZERO.
#[global] Instance ExactSize_cell : ExactSize Cell := fun _ => mkSize 0 1.
#[global] Instance ExactSize_slice : ExactSize CellSlice := fun s => Range.size (range s).
#[global] Instance ExactSize_option {T} `{ExactSize T} : ExactSize (option T) := fun v =>
  match v with
  | Some v => Sizes.add (mkSize 1 0) (exact_size v)
  | None => mkSize 1 0
  end.
#[global] Instance ExactSize_pair {A B} `{ExactSize A} `{ExactSize B} : ExactSize (A * B) := fun v =>
  Sizes.add (exact_size v.1) (exact_size v.2).
