(* ===== verification/BuilderSpec.v ===== *)
(** * BuilderSpec: a cell builder is an append-only pair of a bit string and a
    list of references

    [append_full] specifies every store operation of [CellBuilder]; the class
    [Codec] states what a serializable type promises (its [Store] appends an
    encoding that its [Load] reads back), with the instances of the primitive
    types, options and tuples. *)

From S2P Require Import Prelude Bits DataBuilder DataBuilderSpec CellMeta Cell Slice SliceSpec Builder.

Definition builder_wf (b : CellBuilder) : Prop := wf (inner b) /\ zlen (b_refs b) <= MAX_REF_COUNT.

Definition append_full (b : CellBuilder) (x : list bool * list Cell) : result CellBuilder :=
  if (DataBuilder.bit_len (inner b) + zlen x.1 <=? MAX_BIT_LEN)
     && (zlen (b_refs b) + zlen x.2 <=? MAX_REF_COUNT)
  then Ok (mkBuilder (of_bits (contents (inner b) ++ x.1)) (b_exotic b) (b_refs b ++ x.2))
  else Err CellOverflow.

Lemma builder_new_wf : builder_wf builder_new.
Proof. split; [apply data_new_wf | done]. Qed.

Lemma append_full_new x :
  append_full builder_new x =
    if (zlen x.1 <=? MAX_BIT_LEN) && (zlen x.2 <=? MAX_REF_COUNT)
    then Ok (mkBuilder (of_bits x.1) false x.2) else Err CellOverflow.
Proof.
  unfold append_full. change (DataBuilder.bit_len (inner builder_new)) with 0.
  change (zlen (b_refs builder_new)) with 0. change (inner builder_new) with data_new.
  by rewrite !Z.add_0_l, contents_new.
Qed.

Lemma append_new x b : append_full builder_new x = Ok b -> b = mkBuilder (of_bits x.1) false x.2.
Proof. rewrite append_full_new. destruct (_ && _); [|done]. intros E. by injection E as <-. Qed.

Lemma append_full_wf b x c :
  builder_wf b -> append_full b x = Ok c ->
  builder_wf c /\ contents (inner c) = contents (inner b) ++ x.1 /\ b_refs c = b_refs b ++ x.2
  /\ b_exotic c = b_exotic b.
Proof.
  intros [Hd Hr]. unfold append_full.
  destruct (Z.leb_spec (DataBuilder.bit_len (inner b) + zlen x.1) MAX_BIT_LEN) as [L|]; [|done].
  destruct (Z.leb_spec (zlen (b_refs b) + zlen x.2) MAX_REF_COUNT); [|done]. intros [= <-].
  assert (zlen (contents (inner b) ++ x.1) <= MAX_BIT_LEN)
    by (rewrite zlen_app, zlen_contents by done; lia).
  unfold builder_wf. simpl. rewrite zlen_app, contents_of_bits by done.
  split_and!; [by apply of_bits_wf | lia | done..].
Qed.

Lemma append_full_nil b : builder_wf b -> append_full b ([], []) = Ok b.
Proof.
  intros [Hd Hr]. unfold append_full. simpl. change (zlen []) with 0.
  rewrite !app_nil_r, of_bits_contents, !Z.add_0_r by done.
  destruct Hd as (_ & _ & Hd & _). zcases; simpl; try lia. by destruct b.
Qed.

(** Two appends in a row are one. *)
Lemma append_full_append_full b x y :
  builder_wf b ->
  (let! c := append_full b x in append_full c y) = append_full b (x.1 ++ y.1, x.2 ++ y.2).
Proof.
  intros Hb. pose proof (zlen_nonneg y.1). pose proof (zlen_nonneg y.2).
  destruct (append_full b x) as [c|e] eqn:E; simpl.
  - destruct (append_full_wf _ _ _ Hb E) as ([Hc Hcr] & E1 & E2 & E3).
    unfold append_full. rewrite E1, E2, E3. simpl. rewrite !app_assoc, !zlen_app.
    pose proof (zlen_contents _ Hc) as Hl. rewrite E1, zlen_app, zlen_contents in Hl by apply Hb.
    rewrite <- Hl. by rewrite !Z.add_assoc.
  - unfold append_full in *. simpl. rewrite !zlen_app.
    destruct (Z.leb_spec (DataBuilder.bit_len (inner b) + zlen x.1) MAX_BIT_LEN);
      destruct (Z.leb_spec (zlen (b_refs b) + zlen x.2) MAX_REF_COUNT); simpl in *; try done;
      injection E as <-; zcases; simpl; (done || lia).
Qed.

Lemma on_data_append f b l :
  builder_wf b -> f (inner b) = append (inner b) l -> on_data f b = append_full b (l, []).
Proof.
  intros [Hd Hr] E. unfold on_data, append_full. rewrite E. unfold append. simpl.
  rewrite app_nil_r. change (zlen []) with 0. rewrite Z.add_0_r.
  rewrite (proj2 (Z.leb_le _ _) Hr), andb_true_r. by destruct (_ <=? _).
Qed.

Lemma store_reference_spec b c :
  builder_wf b -> store_reference b c = append_full b ([], [c]).
Proof.
  intros [Hd Hr]. unfold store_reference, append_full. simpl. rewrite app_nil_r.
  rewrite of_bits_contents by done. change (zlen []) with 0. change (zlen [c]) with 1.
  destruct Hd as (_ & _ & Hd & _). unfold MAX_REF_COUNT in *. by zcases; simpl; try lia.
Qed.

Lemma store_references_spec b cs :
  builder_wf b -> store_references b cs = append_full b ([], cs).
Proof.
  revert b. induction cs as [|c cs IH]; intros b Hb; simpl; [by rewrite append_full_nil|].
  rewrite store_reference_spec by done.
  pose proof (append_full_append_full b ([], [c]) ([], cs) Hb) as E. simpl in E. rewrite <- E. clear E.
  destruct (append_full b ([], [c])) as [b'|] eqn:E; [|done]. simpl. apply IH.
  by eapply append_full_wf.
Qed.

(** Appending the bits and then the references is appending both. *)
Lemma append_bits_refs b l cs :
  builder_wf b ->
  (let! c := append_full b (l, []) in append_full c ([], cs)) = append_full b (l, cs).
Proof. intros. rewrite append_full_append_full by done. simpl. by rewrite app_nil_r. Qed.

Lemma append_full_guard b x :
  (if (DataBuilder.bit_len (inner b) + zlen x.1 <=? MAX_BIT_LEN)
      && (zlen (b_refs b) + zlen x.2 <=? MAX_REF_COUNT)
   then append_full b x else Err CellOverflow) = append_full b x.
Proof. unfold append_full. by destruct (_ && _). Qed.

Lemma store_builder_spec b o :
  builder_wf b -> builder_wf o -> store_builder b o = append_full b (contents (inner o), b_refs o).
Proof.
  intros Hb [Ho Hor]. unfold store_builder.
  pose proof (zlen_contents _ Ho) as Hlen.
  rewrite length_wrap; [|apply Hb|]; cycle 1.
  { destruct Ho as (_ & _ & Ho & _). unfold MAX_BIT_LEN in Ho. lia. }
  assert (store_raw (inner b) (DataBuilder.data (inner o)) (DataBuilder.bit_len (inner o)) =
    append (inner b) (contents (inner o))) as E.
  { rewrite <- data_contents_raw by done. destruct Ho as (H128 & ? & Ho & _). unfold MAX_BIT_LEN in *.
    apply store_raw_spec; (done || apply Hb || lia). }
  rewrite (on_data_append _ b _ Hb E). clear E.
  rewrite <- Hlen, <- (append_full_guard b (contents (inner o), b_refs o)). simpl.
  destruct (_ && _); [|done]. rewrite <- (append_bits_refs b _ (b_refs o)) by done.
  destruct (append_full b (contents (inner o), [])) as [c|] eqn:E; [|done]. simpl.
  apply store_references_spec. by eapply append_full_wf.
Qed.

(** ** Cell data *)

Lemma store_cell_data_spec d c :
  wf d -> cell_wf c -> store_cell_data d c = append d (bits_from (data c) 0 (bit_len c)).
Proof.
  intros Hd Hc. unfold store_cell_data. pose proof (cw_len c Hc). pose proof (cw_data c Hc).
  rewrite store_raw_spec; [|done|apply (cw_bytes c Hc)|lia|lia].
  by rewrite raw_bits_exact by lia.
Qed.

(** ** Slices *)

Lemma size_refs_range s : slice_wf s -> 0 <= size_refs s <= 7.
Proof. intros H. wf_facts s H. unfold size_refs, Range.size_refs. dlia. Qed.

Lemma sub_bits_all s : slice_wf s -> sub_bits s 0 (size_bits s) = slice_bits s.
Proof.
  intros H. unfold sub_bits. rewrite drop_0, <- zlen_slice_bits by done.
  apply take_ge. unfold zlen. lia.
Qed.

Lemma store_slice_data_spec scratch b s :
  wf b -> slice_wf s -> Forall is_byte scratch -> zlen scratch = 128 ->
  store_slice_data scratch b s = append b (slice_bits s).
Proof.
  intros Hb Hs Hsc H128. unfold store_slice_data. pose proof (size_bits_range s Hs) as Hr.
  rewrite length_wrap by (done || lia). rewrite get_raw_spec by (done || lia).
  pose proof (zlen_slice_bits s Hs) as Hlen.
  unfold append. rewrite Hlen. destruct (Z.leb_spec (DataBuilder.bit_len b + size_bits s) MAX_BIT_LEN) as [L|]; [|done].
  destruct (Z.leb_spec (size_bits s) (size_bits s)); [|lia].
  destruct (Z.leb_spec (div_ceil (size_bits s) 8) (zlen scratch)); [|dlia]. cbn [andb rbind].
  rewrite sub_bits_all by done.
  assert (0 <= div_ceil (size_bits s) 8) by dlia.
  rewrite store_raw_spec; [|done|apply pack_bytes|lia|rewrite zlen_pack by done; dlia].
  rewrite raw_bits_exact by (rewrite zlen_pack by done; dlia).
  rewrite <- Hlen, bits_from_pack by dlia. unfold append. rewrite Hlen. zcases; [done | lia].
Qed.

Lemma uninit_ok : Forall is_byte uninit /\ zlen uninit = 128.
Proof. split; [|done]. by apply Forall_replicate. Qed.

Lemma store_slice_spec b s :
  builder_wf b -> slice_wf s -> store_slice b s = append_full b (slice_bits s, slice_references_cloned s).
Proof.
  intros Hb Hs. unfold store_slice. pose proof (size_bits_range s Hs) as Hr.
  rewrite length_wrap by (apply Hb || lia).
  assert (store_slice_data uninit (inner b) s = append (inner b) (slice_bits s)) as E
    by (apply store_slice_data_spec; [apply Hb | done | apply uninit_ok..]).
  rewrite (on_data_append _ b _ Hb E). clear E.
  rewrite <- (append_full_guard b (slice_bits s, slice_references_cloned s)). simpl.
  rewrite zlen_slice_bits, zlen_slice_references_cloned by done.
  destruct (_ && _); [|done]. rewrite <- (append_bits_refs b _ (slice_references_cloned s)) by done.
  destruct (append_full b (slice_bits s, [])) as [c|] eqn:E; [|done]. simpl.
  apply store_references_spec. by eapply append_full_wf.
Qed.

(** ** The slices of a builder *)

Lemma slice_new_bits c : cell_wf c -> slice_bits (new_allow_exotic c) = bits_from (data c) 0 (bit_len c).
Proof. intros H. unfold slice_bits. simpl. f_equal. lia. Qed.

Lemma slice_new_refs c : slice_references (new_allow_exotic c) = references c.
Proof. done. Qed.

Lemma as_data_slice_spec d :
  wf d -> slice_wf (as_data_slice d) /\ slice_bits (as_data_slice d) = contents d /\
  slice_references_cloned (as_data_slice d) = [].
Proof.
  intros (H128 & Hb & Hr & _). unfold MAX_BIT_LEN in Hr.
  assert (cell_wf (IntermediateDataCell (DataBuilder.data d) (DataBuilder.bit_len d))) as Hc.
  { constructor; simpl; try lia; try done. change (reference_count _) with 0. lia. }
  split_and!; [by apply slice_new_wf | by apply slice_new_bits | done].
Qed.

Lemma as_full_slice_spec b :
  builder_wf b -> slice_wf (as_full_slice b) /\ slice_bits (as_full_slice b) = contents (inner b) /\
  slice_references_cloned (as_full_slice b) = b_refs b.
Proof.
  intros [(H128 & Hb & Hr & _) Hrefs]. unfold MAX_BIT_LEN, MAX_REF_COUNT in *.
  pose proof (zlen_nonneg (b_refs b)).
  set (c := IntermediateFullCell (DataBuilder.data (inner b)) (DataBuilder.bit_len (inner b)) (b_refs b)).
  assert (reference_count c = zlen (b_refs b)) as Hrc.
  { apply (compute_d1_fields LevelMask.EMPTY false (zlen (b_refs b))); [done | lia]. }
  assert (cell_wf c) as Hc.
  { constructor; rewrite ?Hrc; simpl; try lia; try done.
    intros i Hi. apply lookup_lt_is_Some_2. unfold zlen in Hi. lia. }
  split_and!; [by apply slice_new_wf | by apply slice_new_bits |].
  change (slice_references_cloned (as_full_slice b)) with (refs_window c 0 (reference_count c)).
  unfold refs_window. rewrite Hrc, Z.sub_0_r. unfold zlen. rewrite Nat2Z.id. by apply iter_refs_list.
Qed.

(** ** Serializable types *)

(** A type whose [Store] appends an encoding that its [Load] reads back. *)
Class Codec (T : Type) `{Store T} `{Load T} := {
  enc_ok : T -> Prop;
  enc : T -> list bool * list Cell;
  store_enc ctx b v : builder_wf b -> enc_ok v -> store_into v ctx b = append_full b (enc v);
  load_enc s v l rs :
    slice_wf s -> enc_ok v -> slice_bits s = (enc v).1 ++ l ->
    slice_references_cloned s = (enc v).2 ++ rs ->
    exists s', load_from s = Ok (v, s') /\ slice_wf s' /\ slice_bits s' = l /\
               slice_references_cloned s' = rs;
}.

(** Reading [n] bits off the front of a slice whose first bits are known. *)
Lemma slice_front s l k :
  slice_wf s -> slice_bits s = l ++ k ->
  zlen l <= size_bits s /\ take (Z.to_nat (zlen l)) (slice_bits s) = l /\
  slice_wf (advance s (zlen l)) /\ slice_bits (advance s (zlen l)) = k /\
  slice_references_cloned (advance s (zlen l)) = slice_references_cloned s.
Proof.
  intros H E. pose proof (zlen_slice_bits s H) as Hl. rewrite E, zlen_app in Hl.
  pose proof (zlen_nonneg l). pose proof (zlen_nonneg k).
  destruct (advance_wf s (zlen l) H ltac:(lia)) as [Hw Hb].
  rewrite E in *. rewrite <- length_zlen in *.
  rewrite take_app_length, drop_app_length in *. split_and!; (done || lia).
Qed.

(** [s'] is [s] moved forward over data bits, up to the bits [l]. *)
Record moved (s s' : CellSlice) (l : list bool) : Prop := {
  mv_wf : slice_wf s';
  mv_bits : slice_bits s' = l;
  mv_refs : slice_references s' = slice_references s;
  mv_cloned : slice_references_cloned s' = slice_references_cloned s;
  mv_cell : cell s' = cell s;
  mv_bend : bits_end (range s') = bits_end (range s);
  mv_rstart : refs_start (range s') = refs_start (range s);
  mv_rend : refs_end (range s') = refs_end (range s);
}.

Lemma moved_trans s s1 s2 l k : moved s s1 l -> moved s1 s2 k -> moved s s2 k.
Proof. intros [] []. by split; try congruence. Qed.

Lemma slice_front_moved s l k :
  slice_wf s -> slice_bits s = l ++ k ->
  zlen l <= size_bits s /\ take (Z.to_nat (zlen l)) (slice_bits s) = l /\ moved s (advance s (zlen l)) k.
Proof. intros H E. by destruct (slice_front s l k H E) as (? & ? & ? & ? & ?). Qed.

(** The loads of fixed width, as [load_uint_spec] and its like state them. *)
Lemma load_front {A} s n (f : list bool -> A) (r : result (A * CellSlice)) l k :
  slice_wf s -> zlen l = n -> slice_bits s = l ++ k ->
  r = (if n <=? size_bits s then Ok (f (take (Z.to_nat n) (slice_bits s)), advance s n)
       else Err CellUnderflow) ->
  exists s', r = Ok (f l, s') /\ moved s s' k.
Proof.
  intros H <- E ->. destruct (slice_front_moved s l k H E) as (Hle & -> & ?).
  destruct (Z.leb_spec (zlen l) (size_bits s)); [|lia]. by eexists.
Qed.

#[export] Program Instance Codec_unit : Codec unit := {
  enc_ok _ := True; enc _ := ([], []) }.
Next Obligation. intros ctx b [] Hb _. symmetry. by apply append_full_nil. Qed.
Next Obligation. intros s [] l rs Hs _ Hb Hr. by exists s. Qed.

#[export] Program Instance Codec_bool : Codec bool := {
  enc_ok _ := True; enc v := ([v], []) }.
Next Obligation.
  intros ctx b v Hb _. apply on_data_append; [done|]. apply store_bit_spec, Hb.
Qed.
Next Obligation.
  intros s v l rs Hs _ Hb Hr. destruct (slice_front s [v] l Hs Hb) as (Hle & _ & ? & ? & Hrs).
  change (zlen [v]) with 1 in *. exists (advance s 1). split_and!; [|done..|by rewrite Hrs].
  unfold load_from, Load_bool. rewrite load_bit_spec by done. simpl in Hb. by rewrite Hb.
Qed.

(** The widths that have primitive integer types. *)
Class Width (w : Z) := width_cases : In w [8; 16; 32; 64; 128].
#[export] Instance Width_8 : Width 8. Proof. by left. Qed.
#[export] Instance Width_16 : Width 16. Proof. right. by left. Qed.
#[export] Instance Width_32 : Width 32. Proof. do 2 right. by left. Qed.
#[export] Instance Width_64 : Width 64. Proof. do 3 right. by left. Qed.
#[export] Instance Width_128 : Width 128. Proof. do 4 right. by left. Qed.

Lemma store_be_spec w d v :
  Width w -> wf d -> 0 <= v < 2 ^ w -> store_be w d v = append d (uint_bits w v).
Proof.
  intros Hw Hd Hv. unfold store_be. destruct Hw as [<-|[<-|[<-|[<-|[<-|[]]]]]]; simpl.
  - by apply store_u8_spec.
  - by apply (impl_store_uint_spec d Hd 2).
  - by apply (impl_store_uint_spec d Hd 4).
  - by apply (impl_store_uint_spec d Hd 8).
  - by apply (impl_store_uint_spec d Hd 16).
Qed.

Lemma load_u128_spec s :
  slice_wf s ->
  load_u128 s = if 128 <=? size_bits s
    then Ok (bits_uint (take (Z.to_nat 128) (slice_bits s)), advance s 128) else Err CellUnderflow.
Proof.
  intros H. unfold load_u128, load_with. rewrite (get_u128_reads s H 0) by lia.
  rewrite Z.add_0_l. by destruct (128 <=? size_bits s).
Qed.

Lemma load_be_spec w s :
  Width w -> slice_wf s ->
  load_be w s = if w <=? size_bits s
    then Ok (bits_uint (take (Z.to_nat w) (slice_bits s)), advance s w) else Err CellUnderflow.
Proof.
  intros Hw Hs. unfold load_be. destruct Hw as [<-|[<-|[<-|[<-|[<-|[]]]]]]; simpl.
  - by apply load_small_uint_spec.
  - by apply (load_be_uint_spec s 2 4).
  - by apply (load_be_uint_spec s 4 8).
  - by apply (load_be_uint_spec s 8 16).
  - by apply load_u128_spec.
Qed.

Lemma load_be_enc w s v l :
  Width w -> slice_wf s -> 0 <= v < 2 ^ w -> slice_bits s = uint_bits w v ++ l ->
  exists s', load_be w s = Ok (v, s') /\ moved s s' l.
Proof.
  intros Hw Hs Hv E. assert (0 <= w) as H0 by (destruct Hw as [<-|[<-|[<-|[<-|[<-|[]]]]]]; lia).
  destruct (load_front s w bits_uint (load_be w s) (uint_bits w v) l) as (s' & -> & ?);
    [done | by apply zlen_uint_bits | done | by apply load_be_spec |].
  rewrite bits_uint_bits by done. by exists s'.
Qed.

#[export] Program Instance Codec_uN w `{!Width w} : Codec (uN w) := {
  enc_ok v := 0 <= uval v < 2 ^ w; enc v := (uint_bits w (uval v), []) }.
Next Obligation.
  intros w Hw ctx b v Hb Hv. apply on_data_append; [done|]. apply store_be_spec; [done | apply Hb | done].
Qed.
Next Obligation.
  intros w Hw s [v] l rs Hs Hv Hb Hr. destruct (load_be_enc w s v l) as (s' & E & [? ? _ Hrs _]); [done..|].
  exists s'. unfold load_from, Load_uN. rewrite E, Hrs. done.
Qed.

Lemma as_signed_wrap w x : 0 < w -> - 2 ^ (w - 1) <= x < 2 ^ (w - 1) -> as_signed w (wrap w x) = x.
Proof.
  intros Hw Hx. unfold as_signed, wrap.
  assert (2 ^ w = 2 * 2 ^ (w - 1)) as Ew by (rewrite <- Z.pow_succ_r by lia; f_equal; lia).
  destruct (Z.leb_spec 0 x).
  - rewrite Z.mod_small by lia. zcases; lia.
  - replace (x mod 2 ^ w) with (x + 2 ^ w).
    + zcases; lia.
    + symmetry. replace x with (x + 2 ^ w - 1 * 2 ^ w) at 1 by lia.
      rewrite Zminus_mod, Z.mod_mul, Z.sub_0_r, Zmod_mod by lia. apply Z.mod_small. lia.
Qed.

#[export] Program Instance Codec_iN w `{!Width w} : Codec (iN w) := {
  enc_ok v := - 2 ^ (w - 1) <= ival v < 2 ^ (w - 1); enc v := (uint_bits w (wrap w (ival v)), []) }.
Next Obligation.
  intros w Hw ctx b v Hb Hv. apply on_data_append; [done|]. apply store_be_spec; [done | apply Hb |].
  apply wrap_range. destruct Hw as [<-|[<-|[<-|[<-|[<-|[]]]]]]; lia.
Qed.
Next Obligation.
  intros w Hw s [v] l rs Hs Hv Hb Hr.
  assert (0 < w) as H0 by (destruct Hw as [<-|[<-|[<-|[<-|[<-|[]]]]]]; lia).
  destruct (load_be_enc w s (wrap w v) l) as (s' & E & [? ? _ Hrs _]); [done..|apply wrap_range; lia|done|].
  exists s'. unfold load_from, Load_iN. rewrite E, Hrs. simpl. rewrite as_signed_wrap by done. done.
Qed.

#[export] Program Instance Codec_hash : Codec Hash256 := {
  enc_ok v := Forall is_byte (hash_bytes v) /\ zlen (hash_bytes v) = 32;
  enc v := (bits_from (hash_bytes v) 0 256, []) }.
Next Obligation.
  intros ctx b v Hb [Hv H32]. apply on_data_append; [done|]. by apply store_u256_spec; [apply Hb|..].
Qed.
Next Obligation.
  intros s [v] l rs Hs [Hv H32] Hb Hr. cbn [hash_bytes fst snd] in *.
  destruct (load_front s 256 (pack 32) (load_u256 s) (bits_from v 0 256) l) as (s' & E & [? ? _ Hrs _]);
    [done | by apply zlen_bits_from | done | |].
  { unfold load_u256, load_with. rewrite get_u256_spec by (done || lia). unfold sub_bits.
    rewrite drop_0. by destruct (0 + 256 <=? size_bits s) eqn:E; rewrite Z.add_0_l in E; rewrite E. }
  exists s'. unfold load_from, Load_hash. rewrite E, Hrs. simpl.
  pose proof (pack_bits_from v Hv) as Hp. rewrite H32 in Hp. change (8 * 32) with 256 in Hp. by rewrite Hp.
Qed.

#[export] Program Instance Codec_cell : Codec Cell := {
  enc_ok _ := True; enc c := ([], [c]) }.
Next Obligation. intros ctx b c Hb _. by apply store_reference_spec. Qed.
Next Obligation.
  intros s c l rs Hs _ Hb Hr. simpl in *.
  pose proof (zlen_slice_references_cloned s Hs) as Hz. rewrite Hr in Hz. unfold zlen in Hz. simpl in Hz.
  unfold size_refs, Range.size_refs in Hz.
  destruct (advance_ref_wf s Hs ltac:(dlia)) as (Hw & _ & Hrs & Hbs). exists (advance_ref s).
  unfold load_from, Load_cell. rewrite load_reference_cloned_spec, Hr by done. rewrite Hrs, Hr, Hbs. done.
Qed.

#[export] Program Instance Codec_option T `{Codec T} : Codec (option T) := {
  enc_ok v := match v with Some v => enc_ok v | None => True end;
  enc v := match v with Some v => (true :: (enc v).1, (enc v).2) | None => ([false], []) end }.
Next Obligation.
  intros T St Ld C ctx b [v|] Hb Hv; unfold store_into, Store_option.
  - rewrite (on_data_append _ b [true]) by (try done; apply store_bit_one_spec, Hb).
    pose proof (append_full_append_full b ([true], []) (enc v) Hb) as E. simpl in E. rewrite <- E.
    destruct (append_full b ([true], [])) as [c|] eqn:Ec; [|done]. simpl.
    apply store_enc; [|done]. by eapply append_full_wf.
  - apply on_data_append; [done|]. apply store_bit_zero_spec, Hb.
Qed.
Next Obligation.
  intros T St Ld C s [v|] l rs Hs Hv Hb Hr; unfold load_from, Load_option; rewrite load_bit_spec by done;
    simpl in *; rewrite Hb.
  - destruct (slice_front s [true] ((enc v).1 ++ l) Hs Hb) as (_ & _ & W & B & R).
    change (zlen [true]) with 1 in *. cbn [rbind].
    destruct (load_enc (advance s 1) v l rs W Hv B) as (s' & -> & ?); [by rewrite R|]. by exists s'.
  - destruct (slice_front s [false] l Hs Hb) as (_ & _ & W & B & R).
    change (zlen [false]) with 1 in *. exists (advance s 1). by rewrite R.
Qed.

#[export] Program Instance Codec_pair A B `{Codec A} `{Codec B} : Codec (A * B) := {
  enc_ok v := enc_ok v.1 /\ enc_ok v.2;
  enc v := ((enc v.1).1 ++ (enc v.2).1, (enc v.1).2 ++ (enc v.2).2) }.
Next Obligation.
  intros A B SA LA CA SB LB CB ctx b [v w] Hb [Hv Hw]. unfold store_into, Store_pair. cbn [fst snd] in *.
  rewrite <- append_full_append_full by done. rewrite (store_enc ctx b v) by done.
  destruct (append_full b (enc v)) as [c|] eqn:Ec; [|done]. simpl.
  apply store_enc; [|done]. by eapply append_full_wf.
Qed.
Next Obligation.
  intros A B SA LA CA SB LB CB s [v w] l rs Hs [Hv Hw] Hb Hr. unfold load_from, Load_pair.
  cbn [fst snd] in *. rewrite <- app_assoc in Hb, Hr.
  destruct (load_enc s v _ _ Hs Hv Hb Hr) as (s1 & -> & W1 & B1 & R1). cbn [rbind].
  destruct (load_enc s1 w _ _ W1 Hw B1 R1) as (s2 & -> & W2 & B2 & R2). by exists s2.
Qed.

(** A load that moves over the data of a value gives what [Codec] asks for. *)
Lemma moved_codec {T} `{Load T} s (v : T) l rs :
  (exists s', load_from s = Ok (v, s') /\ moved s s' l) -> slice_references_cloned s = rs ->
  exists s', load_from s = Ok (v, s') /\ slice_wf s' /\ slice_bits s' = l /\ slice_references_cloned s' = rs.
Proof. intros (s' & -> & M) <-. exists s'. split_and!; [done | apply M..]. Qed.

(** ** Chains of stores and loads *)

(** An append followed by an operation that appends *)
Lemma append_bind b x y k :
  builder_wf b -> (forall c, builder_wf c -> k c = append_full c y) ->
  (let! c := append_full b x in k c) = append_full b (x.1 ++ y.1, x.2 ++ y.2).
Proof.
  intros Hb Hk. rewrite <- append_full_append_full by done.
  destruct (append_full b x) as [c|] eqn:E; [|done]. simpl. apply Hk. by eapply append_full_wf.
Qed.

Definition appends (f : CellBuilder -> result CellBuilder) (x : list bool * list Cell) : Prop :=
  forall b, builder_wf b -> f b = append_full b x.

Lemma appends_bind f g x y : appends f x -> appends g y -> appends (fun b => let! b := f b in g b) (x.1 ++ y.1, x.2 ++ y.2).
Proof. intros Hf Hg b Hb. rewrite Hf by done. by apply append_bind. Qed.

Lemma appends_uint w v : Width w -> 0 <= v < 2 ^ w -> appends (on_data (fun d => store_be w d v)) (uint_bits w v, []).
Proof. intros Hw Hv b Hb. apply on_data_append; [done|]. apply store_be_spec; [done | apply Hb | done]. Qed.

Lemma appends_small v n : is_byte v -> 0 <= n <= 64512 -> appends (on_data (fun d => store_small_uint d v n)) (uint_bits n v, []).
Proof. intros Hv Hn b Hb. apply on_data_append; [done|]. apply store_small_uint_spec; [apply Hb | done..]. Qed.

Definition hash_ok (h : HashBytes) : Prop := Forall is_byte h /\ zlen h = 32.

Lemma appends_hash h : hash_ok h -> appends (on_data (fun d => store_u256 d h)) (bits_from h 0 256, []).
Proof. intros [Hh Hz] b Hb. apply on_data_append; [done|]. by apply store_u256_spec; [apply Hb|..]. Qed.

Lemma appends_bit v : appends (on_data (fun d => store_bit d v)) ([v], []).
Proof. intros b Hb. apply on_data_append; [done|]. apply store_bit_spec, Hb. Qed.

Lemma appends_value {T} `{Codec T} ctx (v : T) : enc_ok v -> appends (store_into v ctx) (enc v).
Proof. intros Hv b Hb. by apply store_enc. Qed.

Lemma front_hash s h l : hash_ok h -> slice_wf s -> slice_bits s = bits_from h 0 256 ++ l ->
  exists s', load_u256 s = Ok (h, s') /\ moved s s' l.
Proof.
  intros [Hh Hz] Hs Hb. destruct (load_front s 256 (pack 32) (load_u256 s) (bits_from h 0 256) l) as (s' & -> & M);
    [done | by apply zlen_bits_from | done | |].
  - unfold load_u256, load_with. rewrite get_u256_spec by (done || lia). unfold sub_bits.
    rewrite drop_0. by destruct (0 + 256 <=? size_bits s) eqn:E; rewrite Z.add_0_l in E; rewrite E.
  - exists s'. pose proof (pack_bits_from h Hh) as Hp. rewrite Hz in Hp. change (8 * 32) with 256 in Hp. by rewrite Hp.
Qed.

Lemma front_bit s b l : slice_wf s -> slice_bits s = b :: l -> load_bit s = Ok (b, advance s 1) /\ moved s (advance s 1) l.
Proof.
  intros Hs Hb. rewrite load_bit_spec, Hb by done. split; [done|]. by destruct (slice_front_moved s [b] l Hs Hb) as (_ & _ & M).
Qed.

Lemma front_small n s v l : 1 <= n <= 8 -> slice_wf s -> 0 <= v < 2 ^ n -> slice_bits s = uint_bits n v ++ l ->
  exists s', load_small_uint s n = Ok (v, s') /\ moved s s' l.
Proof.
  intros Hn Hs Hv Hb. destruct (load_front s n bits_uint (load_small_uint s n) (uint_bits n v) l) as (s' & -> & M);
    [done | by apply zlen_uint_bits; lia | done | by apply load_small_uint_spec |]. rewrite bits_uint_bits by lia. by exists s'.
Qed.

(** A load moves within the cell of its slice. *)
Definition stays {A} (g : CellSlice -> result (A * CellSlice)) : Prop := forall s v s', g s = Ok (v, s') -> cell s' = cell s.
Class StaysInCell (T : Type) `{Load T} := load_stays : stays (load_from (T := T)).

Lemma stays_with {A} n (res : CellSlice -> result A) : stays (fun s => load_with s n (res s)).
Proof. intros s v s'. unfold load_with. destruct (res s); [|done]. by intros [= _ <-]. Qed.

Lemma stays_bind {A B} (g : CellSlice -> result (A * CellSlice)) (h : A -> CellSlice -> result (B * CellSlice)) :
  stays g -> (forall a, stays (h a)) -> stays (fun s => let! (a, s) := g s in h a s).
Proof. intros Hg Hh s v s' E. apply rbind_ok in E as ([a s1] & E1 & E). rewrite (Hh a s1 v s' E). by apply (Hg s a). Qed.

Lemma stays_done {A} (v : A) : stays (fun s => Ok (v, s)).
Proof. by intros s w s' [= _ <-]. Qed.

Lemma stays_error {A} e : stays (fun _ => Err e : result (A * CellSlice)).
Proof. done. Qed.

Lemma stays_map {A B} (g : CellSlice -> result (A * CellSlice)) (f : A -> B) : stays g -> stays (fun s => let! (a, s) := g s in Ok (f a, s)).
Proof. intros Hg. apply stays_bind; [done|]. intros a. apply stays_done. Qed.

Lemma stays_be w : stays (load_be w).
Proof.
  unfold load_be. destruct (w =? 8); [apply stays_with|]. destruct (w =? 128); [apply stays_with|].
  apply (stays_with w (fun s => get_be_uint (w / 8) (w / 4) s 0)).
Qed.

Lemma stays_ref : stays load_reference_cloned.
Proof.
  intros s v s'. unfold load_reference_cloned. repeat case_match; try done; by intros [= _ <-].
Qed.

(** [g] reads [v] where its encoding [x] stands. *)
Definition reads {A} (g : CellSlice -> result (A * CellSlice)) (v : A) (x : list bool * list Cell) : Prop :=
  forall s l rs, slice_wf s -> slice_bits s = x.1 ++ l -> slice_references_cloned s = x.2 ++ rs ->
    exists s', g s = Ok (v, s') /\ slice_wf s' /\ slice_bits s' = l /\ slice_references_cloned s' = rs.

Lemma reads_bind {A B} (g : CellSlice -> result (A * CellSlice)) (h : A -> CellSlice -> result (B * CellSlice)) v w x y :
  reads g v x -> reads (h v) w y -> reads (fun s => let! (a, s) := g s in h a s) w (x.1 ++ y.1, x.2 ++ y.2).
Proof.
  intros Hg Hh s l rs Hs Hb Hr. cbn [fst snd] in *. rewrite <- app_assoc in Hb, Hr.
  destruct (Hg s _ _ Hs Hb Hr) as (s1 & -> & W & B1 & R). cbn [rbind]. exact (Hh s1 l rs W B1 R).
Qed.

Lemma reads_map {A B} (g : CellSlice -> result (A * CellSlice)) (f : A -> B) v x :
  reads g v x -> reads (fun s => let! (a, s) := g s in Ok (f a, s)) (f v) x.
Proof. intros Hg s l rs Hs Hb Hr. destruct (Hg s l rs Hs Hb Hr) as (s' & -> & ?). by exists s'. Qed.

Lemma reads_done {A} (v : A) : reads (fun s => Ok (v, s)) v ([], []).
Proof. intros s l rs Hs Hb Hr. by exists s. Qed.

Lemma reads_moved {A} (g : CellSlice -> result (A * CellSlice)) v l0 :
  (forall s l, slice_wf s -> slice_bits s = l0 ++ l -> exists s', g s = Ok (v, s') /\ moved s s' l) -> reads g v (l0, []).
Proof.
  intros Hg s l rs Hs Hb Hr. destruct (Hg s l Hs Hb) as (s' & E & M). exists s'. split; [done|]. split_and!; [apply M..|].
  by rewrite (mv_cloned _ _ _ M).
Qed.

Lemma reads_uint w v : Width w -> 0 <= v < 2 ^ w -> reads (load_be w) v (uint_bits w v, []).
Proof. intros Hw Hv. apply reads_moved. intros s l Hs Hb. by apply load_be_enc. Qed.

Lemma reads_small n v : 1 <= n <= 8 -> 0 <= v < 2 ^ n -> reads (fun s => load_small_uint s n) v (uint_bits n v, []).
Proof. intros Hn Hv. apply reads_moved. intros s l Hs Hb. by apply front_small. Qed.

Lemma reads_hash h : hash_ok h -> reads load_u256 h (bits_from h 0 256, []).
Proof. intros Hh. apply reads_moved. intros s l Hs Hb. by apply front_hash. Qed.

Lemma reads_bit v : reads load_bit v ([v], []).
Proof. apply reads_moved. intros s l Hs Hb. exists (advance s 1). by apply front_bit. Qed.

Lemma reads_value {T} `{Codec T} (v : T) : enc_ok v -> reads load_from v (enc v).
Proof. intros Hv s l rs Hs Hb Hr. by apply load_enc. Qed.

Lemma appends_ext f x y : appends f x -> x = y -> appends f y.
Proof. by intros ? <-. Qed.

Lemma reads_ext {A} (g : CellSlice -> result (A * CellSlice)) v x y : reads g v x -> x = y -> reads g v y.
Proof. by intros ? <-. Qed.

Lemma appends_bits f l : (forall d, wf d -> f d = append d l) -> appends (on_data f) (l, []).
Proof. intros Hf b Hb. apply on_data_append; [done|]. apply Hf, Hb. Qed.

(** A check of the capacity for at most what is stored then changes nothing. *)
Lemma appends_guarded f x n m : appends f x -> 0 <= n <= zlen x.1 -> n <= 64512 -> m <= zlen x.2 ->
  appends (fun b => if negb (has_capacity b n m) then Err CellOverflow else f b) x.
Proof.
  intros Hf Hn Hle Hm b Hb. destruct (has_capacity b n m) eqn:E; cbn [negb]; [by apply Hf|]. revert E.
  destruct Hb as [(_ & _ & Hd & _) _]. unfold has_capacity, append_full, MAX_BIT_LEN in *. rewrite u16_small by lia.
  zcases; (done || lia).
Qed.
