(* ===== verification/Context.v ===== *)
(** * Context: what a cell context promises, and the empty context

    [ContextLaws] is the contract between the code that builds cells (the
    dictionaries, the models) and the cell context that finalizes them: an
    ordinary builder within the limits becomes a cell with the same bits and
    references.  The empty context of [src/src/cell/cell_impl/sync.rs] satisfies
    it, for every hash function. *)

From S2P Require Import Prelude Bits DataBuilder DataBuilderSpec CellMeta Cell Slice SliceSpec Builder BuilderSpec.

(** An ordinary cell that holds the bits [l] and the references [rs]. *)
Record ordinary (c : Cell) (l : list bool) (rs : list Cell) : Prop := {
  oc_wf : cell_wf c;
  oc_ordinary : is_exotic c = false;
  oc_bits : bits_from (data c) 0 (bit_len c) = l;
  oc_refs : references c = rs;
  oc_plain : plain c;
}.

Definition MAX_DEPTH : Z := 65535.

Class ContextLaws (ctx : CellContext) := {
  (** The cells the context can take as children, and the depth it checks. *)
  cell_ok : Cell -> Prop;
  cdepth : Cell -> Z;
  load_cell_law c mode : is_exotic c = false -> load_cell c mode = Ok c;
  load_dyn_cell_law c mode : is_exotic c = false -> load_dyn_cell c mode = Ok c;
  finalize_law b D :
    builder_wf b -> b_exotic b = false -> Forall cell_ok (b_refs b) ->
    0 <= D <= MAX_DEPTH -> Forall (fun r => cdepth r + 1 <= D) (b_refs b) ->
    exists c, build_ext ctx b = Ok c /\ ordinary c (contents (inner b)) (b_refs b) /\
              cell_ok c /\ cdepth c <= D;
}.

(** A slice over the whole of an ordinary cell. *)
Lemma ordinary_slice c l rs :
  ordinary c l rs ->
  slice_new c = Ok (new_allow_exotic c) /\ slice_wf (new_allow_exotic c) /\
  slice_bits (new_allow_exotic c) = l /\ slice_references (new_allow_exotic c) = rs /\
  slice_references_cloned (new_allow_exotic c) = rs.
Proof.
  intros [Hw Ho Hb Hr Hp]. unfold slice_new. rewrite Ho. split_and!.
  - done.
  - by apply slice_new_wf.
  - by rewrite slice_new_bits.
  - done.
  - rewrite <- Hr. by apply plain_window.
Qed.

(** ** The parts [build_ext] hands to the context *)

Lemma tag_last_byte_spec d :
  wf d -> zlen (tag_last_byte d) = 128 /\ Forall is_byte (tag_last_byte d) /\
  forall i, 0 <= i < DataBuilder.bit_len d ->
    bit_at (tag_last_byte d) i = bit_at (DataBuilder.data d) i.
Proof.
  intros (H128 & Hb & Hr & _). unfold tag_last_byte, MAX_BIT_LEN in *.
  set (n := DataBuilder.bit_len d) in *. set (dat := DataBuilder.data d) in *.
  destruct (Z.ltb_spec 0 (n mod 8)) as [Hm|]; [|done].
  assert (u8 (Z.shiftl 1 (7 - n mod 8)) = 2 ^ (7 - n mod 8)) as ->.
  { rewrite Z.shiftl_1_l. apply u8_small.
    pose proof (Z.pow_lt_mono_r 2 (7 - n mod 8) 8 ltac:(lia) ltac:(lia) ltac:(lia)).
    pose proof (Z.pow_nonneg 2 (7 - n mod 8)). lia. }
  set (t := 7 - n mod 8). assert (0 <= t <= 6) as Ht by lia.
  assert (0 <= 2 ^ t - 1 < 64) as Hp.
  { pose proof (Z.pow_le_mono_r 2 t 6 ltac:(lia) ltac:(lia)). pose proof (Z.pow_pos_nonneg 2 t). lia. }
  assert (0 <= unot 8 (2 ^ t - 1) < 256) as Hu by (unfold unot; lia).
  pose proof (byte_at_range dat (n / 8) Hb) as Hby. unfold is_byte in Hby. split_and!.
  - by rewrite zlen_set.
  - apply set_byte_bytes; [done|]. apply lor_byte; [apply land_byte; unfold is_byte; lia | unfold is_byte; lia].
  - intros i Hi. rewrite bit_at_set by lia. destruct (Z.eqb_spec (i / 8) (n / 8)) as [E|]; [|done].
    rewrite Z.lor_spec, Z.land_spec, testbit_unot by lia.
    rewrite Z.pow2_bits_false by lia. replace (2 ^ t - 1) with (Z.ones t) by (rewrite Z.ones_equiv; lia).
    rewrite Z.ones_spec_high by lia. rewrite orb_false_r, andb_true_r. unfold bit_at. by rewrite E.
Qed.

Definition d1_ok (c : Cell) : Prop := 0 <= d1 (descriptor c) < 256.

Lemma level_mask_ok c : d1_ok c -> LevelMask.wf (Descr.level_mask (descriptor c)).
Proof.
  unfold d1_ok, LevelMask.wf, Descr.level_mask, LevelMask.new_unchecked. intros.
  rewrite Z.shiftr_div_pow2 by lia. change (2 ^ 5) with 32. lia.
Qed.

Lemma children_mask_ok cs m :
  LevelMask.wf m -> Forall d1_ok cs ->
  LevelMask.wf (foldl (fun m c => LevelMask.bitor m (Descr.level_mask (descriptor c))) m cs).
Proof.
  revert m. induction cs as [|c cs IH]; intros m Hm H; simpl; [done|].
  apply list.Forall_cons in H as [Hc Hcs]. apply IH; [|done]. apply bitor_wf; [done|]. by apply level_mask_ok.
Qed.

(** ** The empty context *)
Section Empty.
Variable sha256 : list Z -> HashBytes.

(** The greatest depth of a cell over its levels. *)
Definition level_depth (c : Cell) : Z :=
  Z.max (Z.max (depth c 0) (depth c 1)) (Z.max (depth c 2) (depth c 3)).

Lemma depth_le_level c l : 0 <= l <= 3 -> depth c l <= level_depth c.
Proof.
  intros Hl. unfold level_depth.
  assert (l = 0 \/ l = 1 \/ l = 2 \/ l = 3) as [-> | [-> | [-> | ->]]] by lia; lia.
Qed.

Lemma hash_depths_ok refs lvl dep acc D :
  0 <= lvl <= 3 -> dep <= D <= MAX_DEPTH -> Forall (fun r => level_depth r + 1 <= D) refs ->
  exists dep' acc', hash_depths refs lvl dep acc = Ok (dep', acc') /\ dep' <= D.
Proof.
  intros Hl. revert dep acc. induction refs as [|r refs IH]; intros dep acc Hd H; simpl.
  - eexists _, _. split; [done | lia].
  - apply list.Forall_cons in H as [Hr Hrs]. pose proof (depth_le_level r lvl Hl).
    unfold MAX_DEPTH in *. destruct (Z.ltb_spec 65535 (depth r lvl + 1)); [lia|].
    apply IH; [lia | done].
Qed.

Lemma hash_levels_ok p mask lvls dd1 hashes D :
  Forall (fun l => 0 <= l <= 3) lvls -> 0 <= D <= MAX_DEPTH ->
  Forall (fun r => level_depth r + 1 <= D) (p_references p) ->
  Forall (fun h => h.2 <= D) hashes ->
  exists hashes', hash_levels sha256 p Ordinary mask lvls dd1 hashes = Ok hashes' /\
                  Forall (fun h => h.2 <= D) hashes'.
Proof.
  intros Hl HD Hr. revert dd1 hashes. induction lvls as [|l lvls IH]; intros dd1 hashes Hh; cbn [hash_levels].
  - by eexists.
  - apply list.Forall_cons in Hl as [Hl Hls]. destruct (_ && _); [by apply IH|].
    unfold hash_level. change (b2z (CellTypes.is_merkle Ordinary)) with 0. rewrite Z.add_0_r.
    match goal with |- context [hash_depths ?a ?b ?c ?d] =>
      destruct (hash_depths_ok a b c d D) as (dep & acc & -> & Hdep) end; [done | lia | done |].
    cbn [rbind]. apply IH; [done|]. apply Forall_app. split; [done|]. by apply Forall_singleton.
Qed.

Context (b : CellBuilder) (Hb : builder_wf b) (Ho : b_exotic b = false)
        (Hrefs : Forall d1_ok (b_refs b)).

Let n := DataBuilder.bit_len (inner b).
Let p := build_parts b.

Lemma parts_data :
  zlen (p_data p) = div_ceil n 8 /\ Forall is_byte (p_data p) /\ 0 <= n <= 1023 /\
  bits_from (p_data p) 0 n = contents (inner b).
Proof.
  destruct Hb as [Hd _]. destruct (tag_last_byte_spec (inner b) Hd) as (H128 & Hby & Hbits).
  destruct Hd as (_ & _ & Hr & _). unfold MAX_BIT_LEN in Hr.
  unfold p, build_parts, p_data. fold n in Hr |- *. rewrite Z.min_l by dlia.
  assert (0 <= div_ceil n 8 /\ n <= 8 * div_ceil n 8 /\ div_ceil n 8 <= 128) as Hdc by dlia.
  split_and!; [apply zlen_sub; lia | by apply sub_bytes_bytes | lia..|].
  unfold contents. apply bits_from_ext. intros i Hi. rewrite bit_at_sub by lia.
  rewrite Hbits by (fold n; lia). done.
Qed.

Lemma parts_descriptor :
  let d := p_descriptor p in
  Descr.level_mask d = p_children_mask p /\ Descr.is_exotic d = false /\
  Descr.reference_count d = zlen (b_refs b) /\ Descr.byte_len d = div_ceil n 8.
Proof.
  destruct Hb as [_ Hr]. unfold MAX_REF_COUNT in Hr. pose proof (zlen_nonneg (b_refs b)).
  assert (LevelMask.wf (p_children_mask p)) as Hm by (by apply children_mask_ok).
  destruct parts_data as (_ & _ & Hn & _).
  unfold p, build_parts, p_descriptor, build_level_mask. rewrite Ho. cbn [andb].
  rewrite u8_small by lia.
  match goal with |- context [Descr.new ?x ?y] =>
    destruct (compute_d1_fields (p_children_mask p) false (zlen (b_refs b)) y Hm ltac:(lia))
      as (E1 & E2 & E3 & _); destruct (compute_d2_fields n x Hn) as (E4 & _) end.
  split_and!; done.
Qed.

Lemma ordinary_cell_type d : Descr.is_exotic d = false -> Descr.cell_type d = Ordinary.
Proof. unfold Descr.is_exotic, Descr.cell_type. by destruct (_ =? 0). Qed.

Lemma ordinary_cell_ok hashes :
  ordinary (OrdinaryCell n hashes (p_descriptor p) (b_refs b) (p_data p))
    (contents (inner b)) (b_refs b).
Proof.
  destruct parts_data as (Hz & Hby & Hn & Hbits).
  destruct parts_descriptor as (_ & Hex & Hrc & Hbl).
  set (c := OrdinaryCell _ _ _ _ _).
  assert (data c = p_data p) as Hdata.
  { change (data c) with (sub_bytes (p_data p) 0 (Descr.byte_len (p_descriptor p))).
    rewrite Hbl, <- Hz. unfold sub_bytes. rewrite drop_0. apply take_ge. unfold zlen. lia. }
  assert (reference_count c = zlen (b_refs b)) as Hrc' by done.
  assert (forall i, 0 <= i < zlen (b_refs b) -> reference c i = b_refs b !! Z.to_nat i) as Href.
  { intros i Hi. change (reference c i) with
      (header_reference (p_descriptor p) (b_refs b) i). unfold header_reference.
    rewrite Hrc. by destruct (Z.ltb_spec i (zlen (b_refs b))); [|lia]. }
  destruct Hb as [_ Hr4]. unfold MAX_REF_COUNT in Hr4. pose proof (zlen_nonneg (b_refs b)).
  split.
  - constructor; rewrite ?Hdata, ?Hrc'; change (bit_len c) with n; try done; try lia; [dlia|].
    intros i Hi. rewrite Href by done. apply lookup_lt_is_Some_2. unfold zlen in Hi. lia.
  - done.
  - by rewrite Hdata.
  - unfold references, refs_window. rewrite Hrc', Z.sub_0_r. unfold zlen. rewrite Nat2Z.id.
    by apply iter_refs_list.
  - done.
Qed.

Lemma empty_cell_ok :
  d1 (p_descriptor p) = 0 -> d2 (p_descriptor p) = 0 ->
  ordinary EmptyOrdinaryCell (contents (inner b)) (b_refs b).
Proof.
  intros E1 E2. destruct parts_descriptor as (_ & _ & Hrc & Hbl).
  unfold Descr.reference_count in Hrc. rewrite E1 in Hrc. unfold Descr.byte_len in Hbl.
  rewrite E2 in Hbl. destruct parts_data as (_ & _ & Hn & _).
  change (u8 (Z.land 0 1 + Z.shiftr 0 1)) with 0 in Hbl. change (Z.land 0 Descr.REF_COUNT_MASK) with 0 in Hrc.
  rewrite (nil_length_inv (b_refs b)) by (unfold zlen in Hrc; lia).
  unfold contents. fold n. replace n with 0 by dlia.
  split; [|done..]. constructor; simpl; try done; change (reference_count _) with 0; lia.
Qed.

Lemma finalize_empty D :
  0 <= D <= MAX_DEPTH -> Forall (fun r => level_depth r + 1 <= D) (b_refs b) ->
  exists c, build_ext (empty_context sha256) b = Ok c /\ ordinary c (contents (inner b)) (b_refs b) /\
            d1_ok c /\ level_depth c <= D.
Proof.
  intros HD Hdep. destruct parts_data as (Hz & _ & Hn & _).
  destruct parts_descriptor as (Hlm & Hex & Hrc & _).
  unfold build_ext. simpl. fold p. unfold compute_hashes, validate_type. rewrite Hex, Hz, Hlm.
  change (p_bit_len p) with n. rewrite Z.ltb_irrefl. cbn [rbind]. rewrite Z.eqb_refl. cbn [negb].
  destruct (hash_levels_ok p (p_children_mask p) [0; 1; 2; 3] (d1 (p_descriptor p)) [] D)
    as (hashes & -> & Hh); [repeat constructor; lia | done | done | done |]. cbn [rbind].
  unfold make_cell. rewrite (ordinary_cell_type _ Hex).
  assert (d1_ok (OrdinaryCell n hashes (p_descriptor p) (b_refs b) (p_data p))) as Hd1.
  { unfold d1_ok. change (descriptor _) with (p_descriptor p). unfold p, build_parts. simpl.
    unfold Descr.compute_d1. destruct Hb as [_ Hr4].
    apply (lor_range 8); [lia | apply (lor_range 8); [lia | apply u8_byte |] | apply (land_range 8); [lia | apply u8_byte | done]].
    destruct (b_exotic b); [change (Z.shiftl _ _) with 8 | change (Z.shiftl _ _) with 0]; lia. }
  destruct (_ && _) eqn:E.
  - apply andb_true_iff in E as [E1%Z.eqb_eq E2%Z.eqb_eq]. exists EmptyOrdinaryCell.
    split_and!; [done | by apply empty_cell_ok | done |]. change (level_depth EmptyOrdinaryCell) with 0. lia.
  - eexists. split_and!; [done | apply ordinary_cell_ok | done |].
    assert (forall l, depth (OrdinaryCell n hashes (p_descriptor p) (b_refs b) (p_data p)) l <= D) as Hl.
    { intros l. simpl. unfold level_descr.
      destruct (hashes !! _) as [h|] eqn:Eh; simpl; [|lia]. by eapply Forall_lookup_1 in Hh. }
    unfold level_depth. repeat apply Z.max_lub; apply Hl.
Qed.
End Empty.

#[export] Program Instance empty_context_laws sha256 : ContextLaws (empty_context sha256) := {
  cell_ok := d1_ok; cdepth := level_depth }.
Next Obligation. done. Qed.
Next Obligation. done. Qed.
Next Obligation. intros. by apply finalize_empty. Qed.
