(* ===== verification/Pieces.v ===== *)
(** * Pieces: parts of a byte array by their offsets

    [at_offset buf offset piece] says that a piece is in a buffer at an offset; the
    encoders' outputs are taken apart with it.  A builder that holds whole bytes
    ([byte_builder]) appends bytes and gives them back when it is built; [holds] says what
    a slice of whole bytes has left, and each load takes bytes or references from its front. *)

From S2P Require Import Prelude Bits DataBuilder DataBuilderSpec CellMeta Cell Slice SliceSpec Builder BuilderSpec Context.

Definition at_offset (data : list Z) (offset : Z) (piece : list Z) : Prop :=
  exists A C, data = A ++ piece ++ C /\ zlen A = offset.

Lemma at_all data : at_offset data 0 data.
Proof. exists [], []. by rewrite app_nil_r. Qed.

Lemma at_app data offset a b :
  at_offset data offset (a ++ b) -> at_offset data offset a /\ at_offset data (offset + zlen a) b.
Proof.
  intros (A & C & -> & H). split.
  - exists A, (b ++ C). by rewrite <- app_assoc.
  - exists (A ++ a), C. rewrite <- !app_assoc, zlen_app. split; [done | lia].
Qed.

Lemma at_bounds data offset piece : at_offset data offset piece -> 0 <= offset /\ offset + zlen piece <= zlen data.
Proof. intros (A & C & -> & <-). rewrite !zlen_app. pose proof (zlen_nonneg A). pose proof (zlen_nonneg C). lia. Qed.

Lemma at_sub data offset piece : at_offset data offset piece -> sub_bytes data offset (zlen piece) = piece.
Proof.
  intros (A & C & -> & <-). unfold sub_bytes, zlen. rewrite !Nat2Z.id, drop_app_length. apply take_app_length.
Qed.

(** One of many pieces of the same size. *)
Lemma at_concat data offset (l : list (list Z)) n i piece :
  at_offset data offset (concat l) -> Forall (fun x => zlen x = n) l -> l !! i = Some piece ->
  at_offset data (offset + n * Z.of_nat i) piece.
Proof.
  intros Hat HF E. revert offset Hat i E. induction HF as [|x l Hx _ IH]; intros offset Hat [|i] E; simpl in *; try done.
  - injection E as ->. apply at_app in Hat as [Hat _]. by rewrite Z.mul_0_r, Z.add_0_r.
  - apply at_app in Hat as [_ Hat]. rewrite Hx in Hat. specialize (IH _ Hat i E).
    replace (offset + n * Z.of_nat (S i)) with (offset + n + n * Z.of_nat i) by lia. done.
Qed.

Lemma at_eq data o o' piece : at_offset data o piece -> o = o' -> at_offset data o' piece.
Proof. by intros ? ->. Qed.

(** ** Builders of whole bytes *)

Lemma sub_pack n m l : 0 <= m <= n -> sub_bytes (pack n l) 0 m = pack m l.
Proof.
  intros H. unfold sub_bytes, pack. change (Z.to_nat 0) with 0%nat. rewrite drop_0, <- fmap_take.
  replace n with (m + (n - m)) by lia. rewrite seqZ_app by lia. f_equal.
  rewrite take_app_le by (rewrite length_seqZ; lia). apply take_ge. rewrite length_seqZ. lia.
Qed.

Lemma bits_from_bytes_app a k n : 0 <= n -> bits_from (a ++ k) 0 (8 * zlen a + n) = bits_from a 0 (8 * zlen a) ++ bits_from k 0 n.
Proof.
  intros Hn. pose proof (zlen_nonneg a). rewrite bits_from_app by lia. f_equal.
  - apply bits_from_ext. intros i Hi. unfold bit_at. by rewrite byte_at_app_l by dlia.
  - apply bits_from_ext. intros i Hi. unfold bit_at. rewrite byte_at_app_r by dlia. f_equal; [f_equal; dlia | dlia].
Qed.

Definition byte_builder (bytes : list Z) (exotic : bool) (refs : list Cell) : CellBuilder :=
  mkBuilder (of_bits (bits_from bytes 0 (8 * zlen bytes))) exotic refs.

Lemma byte_builder_wf bytes e refs : zlen bytes <= 127 -> zlen refs <= 4 -> builder_wf (byte_builder bytes e refs).
Proof.
  intros Hb Hr. pose proof (zlen_nonneg bytes). split; [|done]. apply of_bits_wf. rewrite zlen_bits_from by lia. unfold MAX_BIT_LEN. lia.
Qed.

(** A store of whole bytes appends them. *)
Lemma byte_builder_store f bytes e refs k :
  zlen bytes + zlen k <= 127 -> zlen refs <= 4 ->
  (forall d, wf d -> f d = append d (bits_from k 0 (8 * zlen k))) ->
  on_data f (byte_builder bytes e refs) = Ok (byte_builder (bytes ++ k) e refs).
Proof.
  intros Hl Hr Hf. pose proof (zlen_nonneg bytes). pose proof (zlen_nonneg k).
  destruct (byte_builder_wf bytes e refs ltac:(lia) Hr) as [Hw _].
  unfold on_data. rewrite Hf by exact Hw. unfold append, byte_builder. cbn [inner b_exotic b_refs].
  change (DataBuilder.bit_len (of_bits ?l)) with (zlen l). rewrite !zlen_bits_from by lia.
  rewrite contents_of_bits by (rewrite zlen_bits_from by lia; unfold MAX_BIT_LEN; lia).
  rewrite (proj2 (Z.leb_le _ _)) by (unfold MAX_BIT_LEN; lia). cbn [rbind].
  rewrite zlen_app, Z.mul_add_distr_l, bits_from_bytes_app by lia. done.
Qed.

Lemma uint_bits_bytes n v : 0 <= n -> uint_bits (8 * n) v = bits_from (to_be_bytes n v) 0 (8 * n).
Proof.
  intros Hn. symmetry. apply bits_from_uint. intros i Hi. by rewrite bit_at_to_be by lia.
Qed.

(** What it is built into. *)
Lemma byte_builder_parts bytes e refs :
  Forall is_byte bytes -> 1 <= zlen bytes <= 127 ->
  let p := build_parts (byte_builder bytes e refs) in
  p_data p = bytes /\ p_bit_len p = 8 * zlen bytes /\ byte_at (DataBuilder.data (inner (byte_builder bytes e refs))) 0 = byte_at bytes 0 /\
  (2 <= zlen bytes -> byte_at (DataBuilder.data (inner (byte_builder bytes e refs))) 1 = byte_at bytes 1).
Proof.
  intros Hb Hl p. set (l := bits_from bytes 0 (8 * zlen bytes)).
  assert (zlen l = 8 * zlen bytes) as Hz by (apply zlen_bits_from; lia).
  assert (pack (zlen bytes) l = bytes) as Hp by (by apply pack_bits_from).
  assert (forall i, 0 <= i < zlen bytes -> byte_at (pack 128 l) i = byte_at bytes i) as Hi.
  { intros i Hi. transitivity (byte_at (pack (zlen bytes) l) i); [by rewrite !byte_at_pack by lia | by rewrite Hp]. }
  split_and!; [| done | apply Hi; lia | intros; apply Hi; lia].
  unfold p, build_parts, p_data, byte_builder. cbn [inner b_refs b_exotic]. fold l. unfold tag_last_byte.
  change (DataBuilder.bit_len (of_bits l)) with (zlen l). change (DataBuilder.data (of_bits l)) with (pack 128 l). rewrite Hz.
  replace (8 * zlen bytes mod 8) with 0 by dlia. cbn match. change (0 <? 0) with false. cbn match.
  replace (Z.min (div_ceil (8 * zlen bytes) 8) 128) with (zlen bytes) by dlia. by rewrite sub_pack by lia.
Qed.

(** ** Reading whole bytes from a slice

    [holds s bytes rs]: what is left of a slice are these bytes and references. *)

Record holds (s : CellSlice) (bytes : list Z) (rs : list Cell) : Prop := {
  hd_wf : slice_wf s;
  hd_bytes : Forall is_byte bytes;
  hd_bits : slice_bits s = bits_from bytes 0 (8 * zlen bytes);
  hd_refs : slice_references s = rs;
  hd_cloned : slice_references_cloned s = rs;
}.

Lemma holds_sizes s bytes rs : holds s bytes rs -> size_bits s = 8 * zlen bytes /\ size_refs s = zlen rs.
Proof.
  intros [Hw _ Hb Hr _]. rewrite <- zlen_slice_bits, Hb, zlen_bits_from by (pose proof (zlen_nonneg bytes); done || lia).
  by rewrite <- Hr, zlen_slice_references.
Qed.

Lemma holds_front s k bytes rs : holds s (k ++ bytes) rs ->
  8 * zlen k <= size_bits s /\ take (Z.to_nat (8 * zlen k)) (slice_bits s) = bits_from k 0 (8 * zlen k) /\
  holds (advance s (8 * zlen k)) bytes rs.
Proof.
  intros H. destruct (holds_sizes _ _ _ H) as [Hs _]. destruct H as [Hw Hb Hbits Hr Hc]. rewrite zlen_app in Hs.
  pose proof (zlen_nonneg k). pose proof (zlen_nonneg bytes). apply Forall_app in Hb as [Hk Hb].
  rewrite zlen_app, Z.mul_add_distr_l, bits_from_bytes_app in Hbits by lia.
  assert (Z.to_nat (8 * zlen k) = length (bits_from k 0 (8 * zlen k))) as El by (by rewrite length_bits_from).
  destruct (advance_wf s (8 * zlen k) Hw ltac:(lia)) as [Hw' Eb]. split_and!; [lia | by rewrite Hbits, El, take_app_length |].
  split; try done. by rewrite Eb, Hbits, El, drop_app_length.
Qed.

Lemma to_be_byte x : is_byte x -> to_be_bytes 1 x = [x].
Proof. intros Hx. unfold to_be_bytes. change (seqZ 0 1) with [0]. simpl. rewrite Z.shiftr_0_r. by rewrite u8_small. Qed.

Lemma be_bits n v : 0 <= n -> 0 <= v < 2 ^ (8 * n) -> bits_uint (bits_from (to_be_bytes n v) 0 (8 * n)) = v.
Proof. intros Hn Hv. rewrite <- uint_bits_bytes by done. apply bits_uint_bits; [lia | done]. Qed.

Section Loads.
Context (s : CellSlice) (bytes : list Z) (rs : list Cell).

Lemma load_byte x : holds s (x :: bytes) rs -> exists s', load_u8 s = Ok (x, s') /\ holds s' bytes rs.
Proof.
  intros H. destruct (holds_front s [x] bytes rs H) as (Hs & Ef & Ha). change (8 * zlen [x]) with 8 in *.
  exists (advance s 8). split; [|done]. pose proof (hd_bytes _ _ _ H) as Hx. apply list.Forall_cons in Hx as [Hx _]. unfold load_u8.
  rewrite load_small_uint_spec by (apply H || lia). rewrite (proj2 (Z.leb_le 8 _)) by done. rewrite Ef.
  rewrite <- (to_be_byte x Hx). change 8 with (8 * 1) at 1. rewrite be_bits by (unfold is_byte in Hx; lia). done.
Qed.

Lemma load_be n w v : 1 <= n <= 16 -> n + 1 <= w -> 0 <= v < 2 ^ (8 * n) -> holds s (to_be_bytes n v ++ bytes) rs ->
  exists s', load_with s (8 * n) (get_be_uint n w s 0) = Ok (v, s') /\ holds s' bytes rs.
Proof.
  intros Hn Hw Hv H. destruct (holds_front s _ bytes rs H) as (Hs & Ef & Ha). rewrite length_to_be_bytes in * by lia.
  exists (advance s (8 * n)). split; [|done]. rewrite load_be_uint_spec by (apply H || lia).
  rewrite (proj2 (Z.leb_le _ _)) by done. by rewrite Ef, be_bits by lia.
Qed.

Lemma load_16 v : 0 <= v < 65536 -> holds s (to_be_bytes 2 v ++ bytes) rs -> exists s', load_u16 s = Ok (v, s') /\ holds s' bytes rs.
Proof. intros Hv. by apply (load_be 2 4). Qed.

Lemma load_hash h : zlen h = 32 -> holds s (h ++ bytes) rs -> exists s', load_u256 s = Ok (h, s') /\ holds s' bytes rs.
Proof.
  intros H32 H. destruct (holds_front s h bytes rs H) as (Hs & Ef & Ha). pose proof (hd_bytes _ _ _ H) as Hh. apply Forall_app in Hh as [Hh _].
  rewrite H32 in *. change (8 * 32) with 256 in *. exists (advance s 256). split; [|done].
  unfold load_u256, load_with. rewrite get_u256_spec by (apply H || lia). rewrite (proj2 (Z.leb_le _ _)) by lia. cbn [rbind].
  unfold sub_bits. rewrite drop_0, Ef. pose proof (pack_bits_from h Hh) as Hp. rewrite H32 in Hp. change (8 * 32) with 256 in Hp. by rewrite Hp.
Qed.
End Loads.

Lemma load_ref s bytes c rs : holds s bytes (c :: rs) ->
  exists s', load_reference s = Ok (c, s') /\ load_reference_cloned s = Ok (c, s') /\ holds s' bytes rs.
Proof.
  intros H. destruct (holds_sizes _ _ _ H) as [_ Hs]. destruct H as [Hw Hb Hbits Hr Hc]. exists (advance_ref s).
  rewrite load_reference_spec, load_reference_cloned_spec, Hr, Hc by done.
  assert (1 <= refs_end (range s) - refs_start (range s)) as H1.
  { unfold size_refs, Range.size_refs in Hs. replace (zlen (c :: rs)) with (1 + zlen rs) in Hs by (unfold zlen; simpl; lia).
    pose proof (zlen_nonneg rs). dlia. }
  destruct (advance_ref_wf s Hw H1) as (Hw' & E1 & E2 & E3). split_and!; [done..|]. split; try done.
  - by rewrite E1, Hr.
  - by rewrite E2, Hc.
Qed.
