(* ===== verification/DictLabel.v ===== *)
(** * DictLabel: edge labels of dictionaries ([src/src/dict/mod.rs])

    A dictionary is a binary trie of cells; every edge carries a label, a bit
    string written in the shortest of three encodings (short, long, same).  This
    file holds the label codec. *)

From S2P Require Import Prelude Bits DataBuilder CellMeta Cell Slice SliceScan Builder.

(** What the code observes of memory: the address of the data of a cell. *)
Class Machine := data_addr : Cell -> Z.

(** [16 - key_bit_len.leading_zeros()] *)
Definition bits_for_len (key_bit_len : Z) : Z := u16 (16 - leading_zeros 16 key_bit_len).

(** ** Writing *)

Definition write_hml_empty (label : CellBuilder) : result CellBuilder :=
  on_data (fun d => store_zeros d 2) label.

(** The loop [for _ in 0..len / 32] *)
Fixpoint store_full_words (n : nat) (d : CellDataBuilder) : result CellDataBuilder :=
  match n with
  | O => Ok d
  | S n => let! d := store_u32 d (2 ^ 32 - 1) in store_full_words n d
  end.

Definition write_hml_short_tag (len : Z) (label : CellBuilder) : result CellBuilder :=
  let! label := on_data store_bit_zero label in
  let! label := on_data (store_full_words (Z.to_nat (len / 32))) label in
  let rem := len mod 32 in
  let! label :=
    if negb (rem =? 0) then on_data (fun d => store_uint d (2 ^ 64 - 1) rem) label
    else Ok label in
  on_data store_bit_zero label.

Definition write_hml_long_tag (len bits_for_len : Z) (label : CellBuilder) : result CellBuilder :=
  let! label := on_data store_bit_one label in
  let! label := on_data store_bit_zero label in
  on_data (fun d => store_uint d len bits_for_len) label.

Definition write_hml_same (bit : bool) (len bits_for_len : Z) (label : CellBuilder)
    : result CellBuilder :=
  let! label := on_data (fun d => store_small_uint d (Z.lor 6 (b2z bit)) 3) label in
  on_data (fun d => store_uint d len bits_for_len) label.

Section Label.
Context `{Machine}.

Definition write_label (key : CellSlice) (key_bit_len : Z) (label : CellBuilder)
    : result CellBuilder :=
  if (key_bit_len =? 0) || is_data_empty key then write_hml_empty label else
  let bits_for_len := bits_for_len key_bit_len in
  let remaining_bits := size_bits key in
  let hml_short_len := u16 (2 + u16 (2 * remaining_bits)) in
  let hml_long_len := u16 (u16 (2 + bits_for_len) + remaining_bits) in
  let hml_same_len := u16 (3 + bits_for_len) in
  match (if (hml_same_len <? hml_long_len) && (hml_same_len <? hml_short_len)
         then test_uniform (data_addr (cell key)) key else None) with
  | Some bit => write_hml_same bit remaining_bits bits_for_len label
  | None =>
      let! label :=
        if (hml_short_len <=? MAX_BIT_LEN) && (hml_short_len <=? hml_long_len)
        then write_hml_short_tag remaining_bits label
        else if hml_long_len <=? MAX_BIT_LEN
        then write_hml_long_tag remaining_bits bits_for_len label
        else Err InvalidData in
      on_data (fun d => store_slice_data uninit d key) label
  end.

(** [s.is_data_empty() || matches!(s.test_uniform(), Some(b) if b == bit)] *)
Definition uniform_part (s : CellSlice) (bit : bool) : bool :=
  is_data_empty s ||
  match test_uniform (data_addr (cell s)) s with Some b => eqb b bit | None => false end.

Definition write_label_parts (pfx : CellSlice) (bit : bool) (rem : CellSlice)
    (key_bit_len : Z) (label : CellBuilder) : result CellBuilder :=
  if key_bit_len =? 0 then write_hml_empty label else
  let bits_for_len := bits_for_len key_bit_len in
  let remaining_bits := u16 (u16 (size_bits pfx + 1) + size_bits rem) in
  let hml_short_len := u16 (2 + u16 (2 * remaining_bits)) in
  let hml_long_len := u16 (u16 (2 + bits_for_len) + remaining_bits) in
  let hml_same_len := u16 (3 + bits_for_len) in
  if (hml_same_len <? hml_long_len) && (hml_same_len <? hml_short_len)
     && uniform_part pfx bit && uniform_part rem bit
  then write_hml_same bit remaining_bits bits_for_len label
  else
    let! label :=
      if (hml_short_len <=? MAX_BIT_LEN) && (hml_short_len <=? hml_long_len)
      then write_hml_short_tag remaining_bits label
      else if hml_long_len <=? MAX_BIT_LEN
      then write_hml_long_tag remaining_bits bits_for_len label
      else Err InvalidData in
    let! label := on_data (fun d => store_slice_data uninit d pfx) label in
    let! label := on_data (fun d => store_bit d bit) label in
    on_data (fun d => store_slice_data uninit d rem) label.
End Label.

(** ** Reading: the label and the rest of the slice *)

(** The loop [while label.load_bit()? { len += 1 }]; a slice has at most 1023 bits. *)
Fixpoint read_unary (fuel : nat) (label : CellSlice) (len : Z) : result (Z * CellSlice) :=
  match fuel with
  | O => Err CellUnderflow
  | S fuel =>
      let! (bit, label) := load_bit label in
      if bit : bool then read_unary fuel label (u16 (len + 1)) else Ok (len, label)
  end.

Definition read_hml_short (label : CellSlice) : result (CellSlice * CellSlice) :=
  let! (len, label) := read_unary 1024 label 0 in
  let result := label in
  let! label := skip_first label len 0 in
  Ok (get_prefix result len 0, label).

Definition read_hml_long (label : CellSlice) (bits_for_len : Z) : result (CellSlice * CellSlice) :=
  let! (len, label) := load_uint label bits_for_len in
  let len := u16 len in
  let result := label in
  let! label := skip_first label len 0 in
  Ok (get_prefix result len 0, label).

Definition read_hml_same (label : CellSlice) (bits_for_len : Z) : result (CellSlice * CellSlice) :=
  let! (bit, label) := load_bit label in
  let cell := if bit : bool then ALL_ONES_CELL else ALL_ZEROS_CELL in
  let! (len, label) := load_uint label bits_for_len in
  Ok (get_prefix (new_allow_exotic cell) (u16 len) 0, label).

Definition read_label (label : CellSlice) (key_bit_len : Z) : result (CellSlice * CellSlice) :=
  let bits_for_len := bits_for_len key_bit_len in
  if (bits_for_len =? 0) && is_data_empty label then Ok (get_prefix label 0 0, label) else
  let! (b, label) := load_bit label in
  if negb b then read_hml_short label else
  let! (b, label) := load_bit label in
  if negb b then read_hml_long label bits_for_len else read_hml_same label bits_for_len.

(** [skip_label_full] *)
Definition skip_label_full (slice : CellSlice) (key_bit_len : Z) : result CellSlice :=
  let! (label, slice) := read_label slice key_bit_len in
  if size_bits label <? key_bit_len then skip_first slice 0 2 else Ok slice.
