(* ===== verification/DictLabelSpec.v ===== *)
(** * DictLabelSpec: the label codec round-trips

    [is_label m K l] says that [l] is one of the three encodings of the label
    [K] on an edge with [m] key bits left.  [read_label] reads every such
    encoding; [write_label] writes the one [label_bits] selects, whatever the
    memory addresses, and so does [write_label_parts] for a label in parts. *)

From S2P Require Import Prelude Bits DataBuilder DataBuilderSpec CellMeta Cell Slice SliceSpec SliceScan SliceScanSpec Builder BuilderSpec DictLabel.

(** The width of a length field: the bit length of [m]. *)
Definition len_bits (m : Z) : Z := if m =? 0 then 0 else Z.log2 m + 1.

Definition hml_short (K : list bool) : list bool :=
  false :: replicate (length K) true ++ false :: K.
Definition hml_long (m : Z) (K : list bool) : list bool :=
  true :: false :: uint_bits (len_bits m) (zlen K) ++ K.
Definition hml_same (m : Z) (b : bool) (n : Z) : list bool :=
  true :: true :: b :: uint_bits (len_bits m) n.

Inductive is_label (m : Z) (K : list bool) : list bool -> Prop :=
| is_short : is_label m K (hml_short K)
| is_long : 1 <= m -> is_label m K (hml_long m K)
| is_same b : 1 <= m -> K = replicate (length K) b -> is_label m K (hml_same m b (zlen K)).

(** The encoding the writer selects. *)
Definition label_bits (m : Z) (K : list bool) : option (list bool) :=
  if (m =? 0) || (zlen K =? 0) then Some [false; false] else
  let short := 2 + 2 * zlen K in
  let long := 2 + len_bits m + zlen K in
  let same := 3 + len_bits m in
  match (if (same <? long) && (same <? short) then uniform K else None) with
  | Some b => Some (hml_same m b (zlen K))
  | None =>
      if (short <=? MAX_BIT_LEN) && (short <=? long) then Some (hml_short K)
      else if long <=? MAX_BIT_LEN then Some (hml_long m K)
      else None
  end.

Lemma len_bits_range m : 0 <= m <= 1023 -> 0 <= len_bits m <= 10 /\ m < 2 ^ len_bits m.
Proof.
  intros Hm. unfold len_bits. destruct (Z.eqb_spec m 0) as [->|]; [done|].
  pose proof (Z.log2_spec m ltac:(lia)) as [H1 H2]. pose proof (Z.log2_nonneg m).
  assert (Z.log2 m < 10) by (apply Z.log2_lt_pow2; lia). split; [lia|].
  by rewrite <- Z.add_1_r in H2.
Qed.

Lemma bits_for_len_spec m : 0 <= m <= 1023 -> bits_for_len m = len_bits m.
Proof.
  intros Hm. pose proof (len_bits_range m Hm). unfold bits_for_len, leading_zeros, len_bits in *.
  destruct (Z.eqb_spec m 0); [done|]. rewrite u16_small by lia. lia.
Qed.

Lemma uniform_replicate K b : uniform K = Some b <-> K <> [] /\ K = replicate (length K) b.
Proof.
  destruct K as [|a K]; simpl; [naive_solver|]. split.
  - destruct (forallb (eqb a) K) eqn:E; [|done]. intros [= ->]. split; [done|]. f_equal.
    rewrite forallb_forall in E. symmetry. apply replicate_as_Forall. split; [done|].
    apply list.Forall_forall. intros x Hx%list_elem_of_In%E. by apply eqb_prop in Hx.
  - intros [_ [= -> E]]. assert (forallb (eqb b) K = true) as ->; [|done].
    apply forallb_forall. intros x Hx%list_elem_of_In. rewrite E in Hx.
    apply elem_of_replicate in Hx as [-> _]. apply eqb_reflx.
Qed.

(** What the writer selects is a label. *)
Lemma label_bits_is_label m K l :
  0 <= m <= 1023 -> zlen K <= m -> label_bits m K = Some l -> is_label m K l.
Proof.
  intros Hm HK. unfold label_bits. pose proof (zlen_nonneg K).
  destruct (Z.eqb_spec m 0); [|destruct (Z.eqb_spec (zlen K) 0)]; cbn [orb].
  1,2: intros [= <-]; rewrite (nil_length_inv K) by (unfold zlen in *; lia); apply is_short.
  match goal with |- context [match ?u with _ => _ end = _] => destruct u as [b|] eqn:E end.
  - intros [= <-]. destruct (_ && _); [|done]. apply uniform_replicate in E as [_ E].
    apply is_same; [lia | done].
  - destruct (_ && _) in |- *; [|destruct (_ <=? _)]; intros [=]; subst; [apply is_short | apply is_long; lia].
Qed.

(** ** Reading *)

Lemma load_uint_front s w v l :
  slice_wf s -> 1 <= w <= 64 -> 0 <= v < 2 ^ w -> slice_bits s = uint_bits w v ++ l ->
  exists s', load_uint s w = Ok (v, s') /\ moved s s' l.
Proof.
  intros Hs Hw Hv E.
  destruct (load_front s w bits_uint (load_uint s w) (uint_bits w v) l) as (s' & -> & ?);
    [done | apply zlen_uint_bits; lia | done | by apply load_uint_spec |].
  rewrite bits_uint_bits by lia. by exists s'.
Qed.

Lemma load_bit_front s b l :
  slice_wf s -> slice_bits s = b :: l ->
  exists s', load_bit s = Ok (b, s') /\ moved s s' l.
Proof.
  intros Hs E. rewrite load_bit_spec, E by done.
  destruct (slice_front_moved s [b] l Hs E) as (_ & _ & ?). by eexists.
Qed.

(** Cutting a known prefix off a slice. *)
Lemma skip_front s K l :
  slice_wf s -> slice_bits s = K ++ l ->
  exists s', skip_first s (zlen K) 0 = Ok s' /\ moved s s' l /\
    slice_wf (get_prefix s (zlen K) 0) /\ slice_bits (get_prefix s (zlen K) 0) = K.
Proof.
  intros Hs E. destruct (slice_front_moved s K l Hs E) as (Hle & Ht & ?).
  pose proof (zlen_nonneg K). pose proof (size_bits_range s Hs).
  destruct (get_prefix_spec s (zlen K) Hs ltac:(lia)) as (? & Hp & _).
  rewrite skip_first_spec by (done || lia). destruct (Z.leb_spec (zlen K) (size_bits s)); [|lia].
  exists (advance s (zlen K)). rewrite Hp, Ht. by split_and!.
Qed.

Lemma read_unary_spec fuel s n l k :
  slice_wf s -> (n < fuel)%nat -> 0 <= k -> k + Z.of_nat n < 65536 ->
  slice_bits s = replicate n true ++ false :: l ->
  exists s', read_unary fuel s k = Ok (k + Z.of_nat n, s') /\ moved s s' l.
Proof.
  revert s n k. induction fuel as [|fuel IH]; intros s n k Hs Hn Hk Hkn E; [lia|]. cbn [read_unary].
  destruct n as [|n]; simpl in E; destruct (load_bit_front s _ _ Hs E) as (s' & -> & M); cbn [rbind].
  - exists s'. split; [do 2 f_equal; lia | done].
  - rewrite u16_small by lia. pose proof (mv_wf _ _ _ M) as W. pose proof (mv_bits _ _ _ M) as B.
    destruct (IH s' n (k + 1) W ltac:(lia) ltac:(lia) ltac:(lia) B) as (s2 & -> & M2).
    exists s2. split; [do 2 f_equal; lia | by eapply moved_trans].
Qed.

Lemma static_prefix c n b :
  cell_wf c -> 0 <= n <= bit_len c -> bits_from (data c) 0 n = replicate (Z.to_nat n) b ->
  let s := get_prefix (new_allow_exotic c) n 0 in
  slice_wf s /\ slice_bits s = replicate (Z.to_nat n) b.
Proof.
  intros Hc Hn E s. pose proof (cw_len c Hc).
  destruct (get_prefix_spec (new_allow_exotic c) n (slice_new_wf c Hc) ltac:(lia)) as (W & B & _).
  split; [done|]. unfold s. rewrite B, slice_new_bits, bits_from_take by (done || lia). done.
Qed.

Lemma static_cell_wf d dat h :
  Descr.reference_count d = 0 -> Forall is_byte dat -> zlen dat = 128 ->
  cell_wf (StaticCell d dat 1023 h).
Proof.
  intros Hd Hb Hz. constructor; change (reference_count _) with (Descr.reference_count d);
    rewrite ?Hd; simpl; (done || lia).
Qed.

Lemma all_ones_wf : cell_wf ALL_ONES_CELL.
Proof. apply static_cell_wf; [done | by apply Forall_replicate | done]. Qed.

Lemma all_zeros_wf : cell_wf ALL_ZEROS_CELL.
Proof.
  apply static_cell_wf; [done | | done].
  apply Forall_app. split; [by apply Forall_replicate | by repeat constructor].
Qed.

(** Runs the next read, whose specification is [H], and names the moved slice. *)
Ltac next_read H s M W B :=
  destruct H as (s & -> & M); cbn [rbind negb]; pose proof (mv_wf _ _ _ M) as W;
  pose proof (mv_bits _ _ _ M) as B.

Section ReadLabel.
Context (m : Z) (K : list bool) (Hm : 0 <= m <= 1023) (HK : zlen K <= m).

(** What reading a label off [s] gives: the label and the slice moved behind it. *)
Let reads_label s k r :=
  exists lab s', r = Ok (lab, s') /\ slice_wf lab /\ slice_bits lab = K /\ moved s s' k.

Lemma read_hml_short_spec s k :
  slice_wf s -> slice_bits s = replicate (length K) true ++ false :: K ++ k ->
  reads_label s k (read_hml_short s).
Proof.
  intros Hs E. unfold read_hml_short. pose proof (zlen_nonneg K).
  next_read (read_unary_spec 1024 s (length K) (K ++ k) 0 Hs ltac:(unfold zlen in *; lia)
    ltac:(lia) ltac:(unfold zlen in *; lia) E) s2 M2 W2 B2.
  change (0 + Z.of_nat (length K)) with (zlen K).
  destruct (skip_front s2 K k W2 B2) as (s3 & -> & M3 & WL & BL). cbn [rbind].
  exists (get_prefix s2 (zlen K) 0), s3. split_and!; [done..|by eapply moved_trans].
Qed.

Lemma len_bits_pos : 1 <= m -> 1 <= len_bits m.
Proof.
  intros. unfold len_bits. destruct (Z.eqb_spec m 0); [lia|]. pose proof (Z.log2_nonneg m). lia.
Qed.

Lemma read_hml_long_spec s k :
  slice_wf s -> 1 <= m -> slice_bits s = uint_bits (len_bits m) (zlen K) ++ K ++ k ->
  reads_label s k (read_hml_long s (len_bits m)).
Proof.
  intros Hs H1 E. unfold read_hml_long. pose proof (zlen_nonneg K).
  pose proof (len_bits_range m Hm) as [Hlb Hlt]. pose proof (len_bits_pos H1).
  next_read (load_uint_front s (len_bits m) (zlen K) _ Hs ltac:(lia) ltac:(lia) E) s2 M2 W2 B2.
  rewrite u16_small by lia.
  destruct (skip_front s2 K k W2 B2) as (s3 & -> & M3 & WL & BL). cbn [rbind].
  exists (get_prefix s2 (zlen K) 0), s3. split_and!; [done..|by eapply moved_trans].
Qed.

Lemma read_hml_same_spec s k b :
  slice_wf s -> 1 <= m -> K = replicate (length K) b ->
  slice_bits s = b :: uint_bits (len_bits m) (zlen K) ++ k ->
  reads_label s k (read_hml_same s (len_bits m)).
Proof.
  intros Hs H1 EK E. unfold read_hml_same. pose proof (zlen_nonneg K).
  pose proof (len_bits_range m Hm) as [Hlb Hlt]. pose proof (len_bits_pos H1).
  next_read (load_bit_front s _ _ Hs E) s1 M1 W1 B1.
  next_read (load_uint_front s1 (len_bits m) (zlen K) _ W1 ltac:(lia) ltac:(lia) B1) s2 M2 W2 B2.
  rewrite u16_small by lia.
  assert (cell_wf (if b then ALL_ONES_CELL else ALL_ZEROS_CELL) /\
    bit_len (if b then ALL_ONES_CELL else ALL_ZEROS_CELL) = 1023 /\
    bits_from (data (if b then ALL_ONES_CELL else ALL_ZEROS_CELL)) 0 1023 = replicate 1023 b)
    as (Hcw & Hbl & Hbits).
  { destruct b; split_and!;
      [apply all_ones_wf | done | by vm_compute | apply all_zeros_wf | done | by vm_compute]. }
  set (c := if b then ALL_ONES_CELL else ALL_ZEROS_CELL) in *. clearbody c.
  destruct (static_prefix c (zlen K) b Hcw ltac:(lia)) as [WL BL].
  { rewrite <- (bits_from_take _ _ 1023) by lia. rewrite Hbits, take_replicate. f_equal. lia. }
  exists (get_prefix (new_allow_exotic c) (zlen K) 0), s2. split; [reflexivity|].
  rewrite BL, <- length_zlen, <- EK. split_and!; [done..|by eapply moved_trans].
Qed.

Lemma read_label_spec s l k :
  slice_wf s -> is_label m K l -> slice_bits s = l ++ k -> reads_label s k (read_label s m).
Proof.
  intros Hs Hl E. unfold read_label. rewrite bits_for_len_spec by done.
  assert (is_data_empty s = true -> slice_bits s = []) as Hempty.
  { unfold is_data_empty, Range.is_data_empty. intros H1%Z.leb_le. unfold slice_bits.
    apply bits_from_nil. lia. }
  destruct ((len_bits m =? 0) && is_data_empty s) eqn:Ec.
  { apply andb_true_iff in Ec as [_ Ec%Hempty]. rewrite Ec in E. destruct Hl; discriminate E. }
  clear Ec Hempty.
  destruct Hl as [|H1|b H1 EK]; simpl in E; next_read (load_bit_front s _ _ Hs E) s1 M1 W1 B1.
  - rewrite <- app_assoc in B1. destruct (read_hml_short_spec s1 k W1 B1) as (lab & s2 & ? & ? & ? & ?).
    exists lab, s2. split_and!; [done..|by eapply moved_trans].
  - next_read (load_bit_front s1 _ _ W1 B1) s2 M2 W2 B2. rewrite <- app_assoc in B2.
    destruct (read_hml_long_spec s2 k W2 H1 B2) as (lab & s3 & ? & ? & ? & ?).
    exists lab, s3. split_and!; [done..|do 2 (eapply moved_trans; [done|]); done].
  - next_read (load_bit_front s1 _ _ W1 B1) s2 M2 W2 B2.
    destruct (read_hml_same_spec s2 k b W2 H1 EK B2) as (lab & s3 & ? & ? & ? & ?).
    exists lab, s3. split_and!; [done..|do 2 (eapply moved_trans; [done|]); done].
Qed.
End ReadLabel.

(** ** Writing *)

(** [append_bind] for data operations only *)
Lemma append_bits_bind b l r k :
  builder_wf b -> (forall c, builder_wf c -> k c = append_full c (r, [])) ->
  (let! c := append_full b (l, []) in k c) = append_full b (l ++ r, []).
Proof. intros Hb Hk. by rewrite (append_bind b (l, []) (r, []) k Hb Hk). Qed.

Lemma uint_bits_ones n w : 0 <= n <= w -> uint_bits n (2 ^ w - 1) = replicate (Z.to_nat n) true.
Proof.
  intros Hn. apply list_eq. intros i. destruct (Nat.ltb_spec i (Z.to_nat n)).
  - rewrite lookup_uint_bits, lookup_replicate_2 by lia.
    replace (2 ^ w - 1) with (Z.ones w) by (rewrite Z.ones_equiv; lia).
    by rewrite Z.ones_spec_low by lia.
  - rewrite !lookup_ge_None_2; [done | |]; rewrite ?length_replicate, ?length_uint_bits; lia.
Qed.

Lemma store_full_words_spec n b :
  builder_wf b ->
  on_data (store_full_words n) b = append_full b (replicate (32 * n) true, []).
Proof.
  intros Hb. apply on_data_append; [done|]. destruct Hb as [Hd _].
  revert Hd. generalize (inner b). clear b. induction n as [|n IH]; intros d Hd; cbn [store_full_words].
  - rewrite Nat.mul_0_r. simpl. by rewrite append_nil.
  - rewrite store_u32_spec by (done || lia). rewrite uint_bits_ones by lia.
    replace (32 * S n)%nat with (Z.to_nat 32 + 32 * n)%nat by lia. rewrite replicate_add.
    rewrite <- append_append by done. destruct (append d _) as [d'|] eqn:E; [|done].
    simpl. apply IH. by eapply append_wf.
Qed.

Lemma write_hml_short_tag_spec n b :
  builder_wf b -> 0 <= n <= 1023 ->
  write_hml_short_tag n b = append_full b (false :: replicate (Z.to_nat n) true ++ [false], []).
Proof.
  intros Hb Hn. unfold write_hml_short_tag.
  rewrite (on_data_append _ b [false]) by (try done; apply store_bit_zero_spec, Hb).
  rewrite (append_bits_bind b [false] (replicate (Z.to_nat n) true ++ [false])); [done | done |].
  clear b Hb. intros b Hb. rewrite store_full_words_spec by done.
  replace (Z.to_nat n) with (32 * Z.to_nat (n / 32) + Z.to_nat (n mod 32))%nat by lia.
  rewrite replicate_add, <- app_assoc. apply append_bits_bind; [done|].
  clear b Hb. intros b Hb.
  assert (forall c, builder_wf c -> on_data store_bit_zero c = append_full c ([false], [])) as Hz
    by (intros c Hc; apply on_data_append; [done | apply store_bit_zero_spec, Hc]).
  destruct (Z.eqb_spec (n mod 32) 0) as [->|]; simpl; [by apply Hz|].
  rewrite (on_data_append _ b (replicate (Z.to_nat (n mod 32)) true)); [by apply append_bits_bind | done|].
  rewrite store_uint_spec by (try apply Hb; lia). by rewrite (uint_bits_ones _ 64) by lia.
Qed.

Lemma write_hml_long_tag_spec n w b :
  builder_wf b -> 0 <= n < 2 ^ 64 -> 0 <= w <= 64 ->
  write_hml_long_tag n w b = append_full b (true :: false :: uint_bits w n, []).
Proof.
  intros Hb Hn Hw. unfold write_hml_long_tag.
  rewrite (on_data_append _ b [true]) by (try done; apply store_bit_one_spec, Hb).
  apply (append_bits_bind b [true] (false :: uint_bits w n)); [done|]. clear b Hb. intros b Hb.
  rewrite (on_data_append _ b [false]) by (try done; apply store_bit_zero_spec, Hb).
  apply (append_bits_bind b [false] (uint_bits w n)); [done|]. clear b Hb. intros b Hb.
  apply on_data_append; [done|]. apply store_uint_spec; [apply Hb | lia..].
Qed.

Lemma write_hml_same_spec bit n w b :
  builder_wf b -> 0 <= n < 2 ^ 64 -> 0 <= w <= 64 ->
  write_hml_same bit n w b = append_full b (true :: true :: bit :: uint_bits w n, []).
Proof.
  intros Hb Hn Hw. unfold write_hml_same.
  rewrite (on_data_append _ b [true; true; bit]); [|done|]; cycle 1.
  { destruct bit; [change (Z.lor 6 (b2z true)) with 7 | change (Z.lor 6 (b2z false)) with 6];
      by rewrite store_small_uint_spec by (try apply Hb; unfold is_byte; lia). }
  apply (append_bits_bind b [true; true; bit]); [done|]. clear b Hb. intros b Hb.
  apply on_data_append; [done|]. apply store_uint_spec; [apply Hb | lia..].
Qed.

Lemma write_hml_empty_spec b :
  builder_wf b -> write_hml_empty b = append_full b ([false; false], []).
Proof.
  intros Hb. apply on_data_append; [done|]. apply (store_zeros_spec (inner b) (proj1 Hb) 2). lia.
Qed.

Definition write_label_result (b : CellBuilder) (l : option (list bool)) : result CellBuilder :=
  match l with Some l => append_full b (l, []) | None => Err InvalidData end.

(** The tag of the chosen form and then the label itself, as both writers do it. *)
Definition write_form (n w : Z) (body : CellBuilder -> result CellBuilder) (b : CellBuilder)
    : result CellBuilder :=
  let! b :=
    if (2 + 2 * n <=? MAX_BIT_LEN) && (2 + 2 * n <=? 2 + w + n) then write_hml_short_tag n b
    else if 2 + w + n <=? MAX_BIT_LEN then write_hml_long_tag n w b
    else Err InvalidData in
  body b.

Lemma write_form_spec m K body b :
  builder_wf b -> 0 <= m <= 1023 -> zlen K <= m ->
  (forall c, builder_wf c -> body c = append_full c (K, [])) ->
  write_form (zlen K) (len_bits m) body b =
    if (2 + 2 * zlen K <=? MAX_BIT_LEN) && (2 + 2 * zlen K <=? 2 + len_bits m + zlen K)
    then append_full b (hml_short K, [])
    else if 2 + len_bits m + zlen K <=? MAX_BIT_LEN then append_full b (hml_long m K, [])
    else Err InvalidData.
Proof.
  intros Hb Hm HK Hbody. unfold write_form. pose proof (len_bits_range m Hm).
  pose proof (zlen_nonneg K). destruct (_ && _); [|destruct (_ <=? _); [|done]].
  - rewrite write_hml_short_tag_spec by (done || lia). rewrite <- length_zlen.
    rewrite (append_bits_bind b _ K) by done. unfold hml_short. simpl. by rewrite <- app_assoc.
  - rewrite write_hml_long_tag_spec by (done || lia). by rewrite (append_bits_bind b _ K).
Qed.

Section Write.
Context `{Machine}.

Lemma is_data_empty_spec s : slice_wf s -> is_data_empty s = (zlen (slice_bits s) =? 0).
Proof.
  intros Hs. rewrite zlen_slice_bits, size_bits_eq by done. wf_facts s Hs.
  unfold is_data_empty, Range.is_data_empty. zcases; (done || lia).
Qed.

Lemma on_data_slice s b :
  slice_wf s -> builder_wf b ->
  on_data (fun d => store_slice_data uninit d s) b = append_full b (slice_bits s, []).
Proof.
  intros Hs Hb. apply on_data_append; [done|].
  by apply store_slice_data_spec; [apply Hb | | apply uninit_ok..].
Qed.

Lemma write_label_spec key m b :
  builder_wf b -> slice_wf key -> 0 <= m <= 1023 -> size_bits key <= m ->
  write_label key m b = write_label_result b (label_bits m (slice_bits key)).
Proof.
  intros Hb Hk Hm Hkm. unfold write_label, label_bits. pose proof (len_bits_range m Hm).
  rewrite is_data_empty_spec by done. pose proof (zlen_slice_bits key Hk) as Hz.
  set (K := slice_bits key) in *. pose proof (zlen_nonneg K).
  destruct (_ || _) eqn:E0; [by apply write_hml_empty_spec|].
  rewrite bits_for_len_spec by done. rewrite <- Hz in *.
  rewrite (u16_small (2 * zlen K)), (u16_small (2 + 2 * zlen K)), (u16_small (2 + len_bits m)),
    (u16_small (2 + len_bits m + zlen K)), (u16_small (3 + len_bits m)) by lia.
  rewrite test_uniform_spec by done. fold K.
  set (u := if (3 + len_bits m <? _) && _ then uniform K else None).
  destruct u as [bit|]; cbn [write_label_result].
  - by rewrite write_hml_same_spec by (done || lia).
  - change (write_form (zlen K) (len_bits m) (on_data (fun d => store_slice_data uninit d key)) b = 
      write_label_result b (if (2 + 2 * zlen K <=? MAX_BIT_LEN) && (2 + 2 * zlen K <=? 2 + len_bits m + zlen K)
        then Some (hml_short K) else if 2 + len_bits m + zlen K <=? MAX_BIT_LEN
        then Some (hml_long m K) else None)).
    rewrite write_form_spec by (done || lia || (intros; by apply on_data_slice)).
    destruct (_ && _); [done|]. by destruct (_ <=? _).
Qed.

Lemma uniform_part_spec s bit :
  slice_wf s -> uniform_part s bit = forallb (eqb bit) (slice_bits s).
Proof.
  intros Hs. unfold uniform_part. rewrite is_data_empty_spec, test_uniform_spec by done.
  destruct (slice_bits s) as [|a l]; [done|]. simpl.
  destruct (forallb (eqb a) l) eqn:E; simpl.
  - destruct (eqb a bit) eqn:Ea.
    + apply eqb_prop in Ea as ->. rewrite eqb_reflx. by rewrite E.
    + destruct a, bit; done.
  - destruct (eqb bit a) eqn:Ea; [|done]. apply eqb_prop in Ea as ->. by rewrite E.
Qed.

Lemma uniform_parts p bit r :
  forallb (eqb bit) p && forallb (eqb bit) r = true <-> uniform (p ++ bit :: r) = Some bit.
Proof.
  rewrite uniform_replicate, andb_true_iff, <- !count_lead_all.
  assert (forall l, count_lead bit l = zlen l <-> l = replicate (length l) bit) as Hl.
  { intros l. rewrite count_lead_all, forallb_forall. split.
    - intros Hl. symmetry. apply replicate_as_Forall. split; [done|].
      apply list.Forall_forall. intros x Hx%list_elem_of_In%Hl. by apply eqb_prop in Hx.
    - intros E x Hx%list_elem_of_In. rewrite E in Hx. apply elem_of_replicate in Hx as [-> _].
      apply eqb_reflx. }
  rewrite !Hl, length_app. simpl. split.
  - intros [Ep Er]. split; [by destruct p|]. rewrite replicate_add, <- Ep. simpl. by rewrite <- Er.
  - intros [_ E]. rewrite replicate_add in E. apply app_inj_1 in E as [Ep Er];
      [|by rewrite length_replicate]. split; [done|]. simpl in Er. by injection Er.
Qed.

(** Writing a label in three parts writes the whole label. *)
Lemma write_label_parts_spec pfx bit rem m b :
  builder_wf b -> slice_wf pfx -> slice_wf rem -> 1 <= m <= 1023 ->
  size_bits pfx + 1 + size_bits rem <= m ->
  write_label_parts pfx bit rem m b =
    write_label_result b (label_bits m (slice_bits pfx ++ bit :: slice_bits rem)).
Proof.
  intros Hb Hp Hr Hm Hsz. unfold write_label_parts, label_bits.
  pose proof (len_bits_range m ltac:(lia)).
  pose proof (zlen_slice_bits pfx Hp) as Hzp. pose proof (zlen_slice_bits rem Hr) as Hzr.
  set (K := slice_bits pfx ++ bit :: slice_bits rem).
  assert (zlen K = size_bits pfx + 1 + size_bits rem) as HK.
  { unfold K. rewrite zlen_app, Hzp. unfold zlen in *. simpl. lia. }
  pose proof (size_bits_range pfx Hp). pose proof (size_bits_range rem Hr).
  destruct (Z.eqb_spec m 0); [lia|]. destruct (Z.eqb_spec (zlen K) 0); [lia|]. cbn [orb].
  rewrite bits_for_len_spec by lia. rewrite (u16_small (size_bits pfx + 1)) by lia.
  rewrite (u16_small (size_bits pfx + 1 + size_bits rem)) by lia. rewrite <- HK in *.
  rewrite (u16_small (2 * zlen K)), (u16_small (2 + 2 * zlen K)), (u16_small (2 + len_bits m)),
    (u16_small (2 + len_bits m + zlen K)), (u16_small (3 + len_bits m)) by lia.
  rewrite !uniform_part_spec by done. rewrite <- andb_assoc.
  pose proof (uniform_parts (slice_bits pfx) bit (slice_bits rem)) as Hu. fold K in Hu.
  set (g := (_ <? _) && (_ <? _)) in *. clearbody g.
  set (u := forallb _ _ && forallb _ _) in *. clearbody u.
  assert (forall x, uniform K = Some x -> x = bit) as Hx.
  { intros x [_ Ex]%uniform_replicate. assert (bit ∈ K) as Hin by (apply elem_of_app; right; left).
    rewrite Ex in Hin. by apply elem_of_replicate in Hin as [-> _]. }
  destruct (g && u) eqn:E.
  - apply andb_true_iff in E as [-> ->]. rewrite (proj1 Hu eq_refl). simpl.
    by rewrite write_hml_same_spec by (done || lia).
  - assert ((if g then uniform K else None) = None) as ->.
    { destruct g; [|done]. simpl in E. subst u. destruct (uniform K) as [x|] eqn:Ex; [|done].
      rewrite (Hx x eq_refl) in Hu. discriminate (proj2 Hu eq_refl). }
    transitivity (write_form (zlen K) (len_bits m) (fun label =>
      let! label := on_data (fun d => store_slice_data uninit d pfx) label in
      let! label := on_data (fun d => store_bit d bit) label in
      on_data (fun d => store_slice_data uninit d rem) label) b); [reflexivity|].
    rewrite write_form_spec; [| done | lia | lia |].
    + clear E. destruct (_ && _); [done|]. by destruct (_ <=? _).
    + intros c Hc. rewrite on_data_slice by done. apply append_bits_bind; [done|].
      clear c Hc. intros c Hc.
      rewrite (on_data_append _ c [bit]) by (try done; apply store_bit_spec, Hc).
      apply (append_bits_bind c [bit]); [done|]. intros. by apply on_data_slice.
Qed.
End Write.
