(* ===== verification/Dict.v ===== *)
(** * Dict: lookup, insertion and removal in dictionaries

    The shared parts of [src/src/dict/mod.rs] ([make_leaf], [split_edge], the
    rebuilding of a path from its stack of segments) and the operations of
    [src/src/dict/ops/get.rs], [insert.rs] and [remove.rs].

    A dictionary is an optional root cell.  [&mut Option<Cell>] becomes the new
    value in the result; the stack of segments is a list with its top first; a
    value of type [&dyn Store] is its [store_into] function.  Every loop consumes
    at least one key bit per iteration and gets one unit of fuel per key bit. *)

From S2P Require Import Prelude Bits DataBuilder CellMeta Cell Slice SliceScan Builder DictLabel.

(** ** The enums of [src/src/dict/mod.rs] *)
Inductive SetMode : Type := SetSet | SetReplace | SetAdd.

Module SetModes.
Definition to_u8 (m : SetMode) : Z :=
  match m with SetSet => 3 | SetReplace => 1 | SetAdd => 2 end.
Definition can_replace (m : SetMode) : bool := negb (Z.land (to_u8 m) 1 =? 0).
Definition can_add (m : SetMode) : bool := negb (Z.land (to_u8 m) 2 =? 0).
End SetModes.

Inductive Branch : Type := Left | Right.

Module Branches.
Definition to_u8 (b : Branch) : Z := match b with Left => 0 | Right => 1 end.
Definition into_bit (b : Branch) : bool := match b with Left => false | Right => true end.
Definition reversed (b : Branch) : Branch := match b with Left => Right | Right => Left end.
Definition from_bit (b : bool) : Branch := if b then Right else Left.
End Branches.

Inductive DictBound : Type := Min | Max.

Module DictBounds.
Definition into_branch (b : DictBound) : Branch := match b with Min => Left | Max => Right end.
(** The branch to take and the updated direction. *)
Definition update_direction (b : DictBound) (prefix : CellSlice) (signed : bool)
    (direction : option Branch) : Branch * option Branch :=
  match direction with
  | None =>
      let branch := into_branch b in
      (if signed && is_data_empty prefix then Branches.reversed branch else branch, Some branch)
  | Some direction => (direction, Some direction)
  end.
End DictBounds.

(** [struct Segment] *)
Record Segment := mkSegment { sg_data : Cell; sg_next_branch : Branch; sg_key_bit_len : Z }.

(** [&dyn Store] *)
Definition DynStore : Type := CellContext -> CellBuilder -> result CellBuilder.

(** [(CellSliceRange, Cell)] *)
Definition CellSliceParts : Type := CellSliceRange * Cell.
Definition DictOwnedEntry : Type := CellDataBuilder * CellSliceParts.

(** [x.ok()] on an operation that updates a slice in place *)
Definition or_same {A} (r : result A) (a : A) : A := match r with Ok a => a | Err _ => a end.

(** [None => return Err(Error::CellUnderflow)] *)
Definition some_or_underflow {A} (o : option A) : result A :=
  match o with Some a => Ok a | None => Err CellUnderflow end.

Section Dict.
Context `{Machine} (ctx : CellContext).

Definition make_leaf (key : CellSlice) (key_bit_len : Z) (value : DynStore) : result Cell :=
  let! builder := write_label key key_bit_len builder_new in
  let! builder := value ctx builder in
  build_ext ctx builder.

(** A fork with the given label. *)
Definition split_edge (data prefix lcp key : CellSlice) (value : DynStore) : result Cell :=
  let prev_key_bit_len := size_bits key in
  let! key := skip_first key (u16 (size_bits lcp + 1)) 0 in
  let prefix := or_same (skip_first prefix (size_bits lcp) 0) prefix in
  let! (old_to_right, prefix) := load_bit prefix in
  let! lft := make_leaf prefix (size_bits key) (store_into data) in
  let! rgt := make_leaf key (size_bits key) value in
  let '(lft, rgt) := if old_to_right : bool then (rgt, lft) else (lft, rgt) in
  let! builder := write_label lcp prev_key_bit_len builder_new in
  let! builder := store_reference builder lft in
  let! builder := store_reference builder rgt in
  build_ext ctx builder.

Definition dict_load_from_root (slice : CellSlice) (key_bit_len : Z)
    : result (Cell * CellSlice) :=
  let root := slice in
  let! (label, slice) := read_label slice key_bit_len in
  let! (root, slice) :=
    if negb (size_bits label =? key_bit_len) then
      let! slice := skip_first slice 0 2 in
      let root_bits := u16 (size_bits root - size_bits slice) in
      let root_refs := u8 (size_refs root - size_refs slice) in
      Ok (get_prefix root root_bits root_refs, slice)
    else Ok (root, (load_remaining slice).2) in
  let! builder := store_slice builder_new root in
  let! c := build_ext ctx builder in
  Ok (c, slice).

(** One step of [rebuild_dict_from_stack]: the parent of [leaf]. *)
Definition rebuild_segment (last : Segment) (leaf : Cell) : result Cell :=
  let! (lft, rgt) :=
    match sg_next_branch last with
    | Left => let! c := some_or_underflow (reference_cloned (sg_data last) 1) in Ok (leaf, c)
    | Right => let! c := some_or_underflow (reference_cloned (sg_data last) 0) in Ok (c, leaf)
    end in
  let! builder := on_data (fun d => store_cell_data d (sg_data last)) builder_new in
  let! builder := store_reference builder lft in
  let! builder := store_reference builder rgt in
  build_ext ctx builder.

Fixpoint rebuild_dict_from_stack (segments : list Segment) (leaf : Cell) : result Cell :=
  match segments with
  | [] => Ok leaf
  | last :: segments =>
      let! leaf := rebuild_segment last leaf in
      rebuild_dict_from_stack segments leaf
  end.

(** [Segment::rebuild_as_removed]: the new leaf and the removed one *)
Definition rebuild_as_removed (self : Segment) (key : CellSlice) (prev_key_bit_len : Z)
    : result (Cell * Cell) :=
  let index := Branches.to_u8 (sg_next_branch self) in
  let! value := some_or_underflow (reference_cloned (sg_data self) index) in
  let! value := load_cell value Resolve in
  let! (pfx, _) := read_label (new_allow_exotic (sg_data self)) prev_key_bit_len in
  let! opposite := some_or_underflow (reference (sg_data self) (1 - index)) in
  let! opposite := load_dyn_cell opposite Full in
  let! opposite := slice_new opposite in
  let! (rem, opposite) := read_label opposite (size_bits key) in
  let! builder := write_label_parts pfx (index =? 0) rem prev_key_bit_len builder_new in
  let! builder := store_slice builder opposite in
  let! leaf := build_ext ctx builder in
  Ok (leaf, value).

(** ** [ops/get.rs] *)

(** The loop of [dict_get]: the value slice of the leaf, if the key is there. *)
Fixpoint dict_get_loop (fuel : nat) (data key : CellSlice) : result (option CellSlice) :=
  match fuel with
  | O => Err CellUnderflow
  | S fuel =>
      let! (prefix, data) := read_label data (size_bits key) in
      let next key :=
        let! (child_index, key) := load_bit key in
        let! child := some_or_underflow (reference (cell data) (b2z child_index)) in
        let! child := load_dyn_cell child Full in
        let! data := slice_new child in
        dict_get_loop fuel data key in
      match strip_data_prefix key prefix with
      | Some stripped_key =>
          if is_data_empty stripped_key then Ok (Some data)
          else if size_refs data <? 2 then Ok None
          else next stripped_key
      | None => Ok (if is_data_empty key then Some data else None)
      end
  end.

Definition dict_get (dict : option Cell) (key_bit_len : Z) (key : CellSlice)
    : result (option CellSlice) :=
  if negb (size_bits key =? key_bit_len) then Err CellUnderflow else
  match dict with
  | Some data =>
      let! data := load_dyn_cell data Full in
      let! data := slice_new data in
      dict_get_loop (S (Z.to_nat key_bit_len)) data key
  | None => Ok None
  end.

(** The loop of [dict_get_owned]; [prev] is the parent and the branch taken. *)
Fixpoint dict_get_owned_loop (fuel : nat) (data key : CellSlice) (prev : option (Cell * Z))
    : result (option (CellSlice * option (Cell * Z))) :=
  match fuel with
  | O => Err CellUnderflow
  | S fuel =>
      let! (prefix, data) := read_label data (size_bits key) in
      match strip_data_prefix key prefix with
      | Some stripped_key =>
          if is_data_empty stripped_key then Ok (Some (data, prev))
          else if size_refs data <? 2 then Ok None
          else
            let! (child_index, key) := load_bit stripped_key in
            let prev := Some (cell data, b2z child_index) in
            let! child := some_or_underflow (reference (cell data) (b2z child_index)) in
            let! child := load_dyn_cell child Full in
            let! data := slice_new child in
            dict_get_owned_loop fuel data key prev
      | None => Ok (if is_data_empty key then Some (data, prev) else None)
      end
  end.

Definition dict_get_owned (dict : option Cell) (key_bit_len : Z) (key : CellSlice)
    : result (option CellSliceParts) :=
  if negb (size_bits key =? key_bit_len) then Err CellUnderflow else
  match dict with
  | Some root =>
      let! root := load_cell root Full in
      let! data := slice_new root in
      let! found := dict_get_owned_loop (S (Z.to_nat key_bit_len)) data key None in
      match found with
      | None => Ok None
      | Some (data, Some (prev, child_index)) =>
          let! c := some_or_underflow (reference_cloned prev child_index) in
          let! c := load_cell c Resolve in
          Ok (Some (range data, c))
      | Some (data, None) => Ok (Some (range data, root))
      end
  | None => Ok None
  end.

(** The loop of [dict_get_subdict]. *)
Fixpoint dict_get_subdict_loop (fuel : nat) (data prefix : CellSlice) : result Cell :=
  match fuel with
  | O => Err CellUnderflow
  | S fuel =>
      let! (label, data) := read_label data (size_bits prefix) in
      let lcp := longest_common_data_prefix prefix label in
      if size_bits lcp =? size_bits prefix then
        make_leaf label (size_bits lcp) (store_into data)
      else if size_bits lcp <? size_bits label then
        let! value := build_ext ctx builder_new in
        split_edge data label lcp prefix (store_into value)
      else if reference_count (cell data) <? 2 then Err CellUnderflow
      else
        let prefix := or_same (skip_first prefix (size_bits lcp) 0) prefix in
        let! (bit, prefix) := load_bit prefix in
        let! child := some_or_underflow
          (reference (cell data) (Branches.to_u8 (Branches.from_bit bit))) in
        let! child := load_dyn_cell child Full in
        let! data := slice_new child in
        dict_get_subdict_loop fuel data prefix
  end.

Definition dict_get_subdict (dict : option Cell) (key_bit_len : Z) (prefix : CellSlice)
    : result (option Cell) :=
  match dict with
  | None => Ok None
  | Some c =>
      let prefix_len := size_bits prefix in
      if (prefix_len =? 0) || (key_bit_len <? prefix_len) then Ok (Some c) else
      let! data := load_dyn_cell c Full in
      let! data := slice_new data in
      let! subtree := dict_get_subdict_loop (S (Z.to_nat prefix_len)) data prefix in
      Ok (Some subtree)
  end.

(** ** [ops/insert.rs] *)

(** Where the descent of an insertion ends: at the leaf of the key (with the
    label and the value), or inside an edge. *)
Inductive found : Type :=
| FoundLeaf (remaining_data prefix key : CellSlice)
| FoundEdge (remaining_data prefix lcp key : CellSlice).

(** The descent shared by the insertions: the stack, top first. *)
Fixpoint insert_loop (fuel : nat) (data : Cell) (key : CellSlice) (stack : list Segment)
    : result (found * list Segment) :=
  match fuel with
  | O => Err CellUnderflow
  | S fuel =>
      let! remaining_data := slice_new data in
      let! (prefix, remaining_data) := read_label remaining_data (size_bits key) in
      let lcp := longest_common_data_prefix key prefix in
      if size_bits lcp =? size_bits key then Ok (FoundLeaf remaining_data prefix key, stack)
      else if size_bits lcp <? size_bits prefix then
        Ok (FoundEdge remaining_data prefix lcp key, stack)
      else if reference_count data <? 2 then Err CellUnderflow
      else
        let key_bit_len := size_bits key in
        let key := or_same (skip_first key (size_bits lcp) 0) key in
        let! (bit, key) := load_bit key in
        let next_branch := Branches.from_bit bit in
        let! child := some_or_underflow (reference data (Branches.to_u8 next_branch)) in
        let! child := load_dyn_cell child Full in
        insert_loop fuel child key (mkSegment data next_branch key_bit_len :: stack)
  end.

(** [dict_insert]: the new root and whether it changed *)
Definition dict_insert (dict : option Cell) (key : CellSlice) (key_bit_len : Z)
    (value : DynStore) (mode : SetMode) : result (bool * option Cell) :=
  if negb (size_bits key =? key_bit_len) then Err CellUnderflow else
  match dict with
  | None =>
      if SetModes.can_add mode then
        let! c := make_leaf key key_bit_len value in Ok (true, Some c)
      else Ok (false, None)
  | Some root =>
      let! data := load_dyn_cell root Full in
      let! (f, stack) := insert_loop (S (Z.to_nat key_bit_len)) data key [] in
      match f with
      | FoundLeaf _ prefix key =>
          if negb (SetModes.can_replace mode) then Ok (false, dict) else
          let! leaf := make_leaf prefix (size_bits key) value in
          let! root := rebuild_dict_from_stack stack leaf in
          Ok (true, Some root)
      | FoundEdge remaining_data prefix lcp key =>
          if negb (SetModes.can_add mode) then Ok (false, dict) else
          let! leaf := split_edge remaining_data prefix lcp key value in
          let! root := rebuild_dict_from_stack stack leaf in
          Ok (true, Some root)
      end
  end.

(** The inner function [last] of [dict_insert_owned]. *)
Definition insert_last (stack : list Segment) (mode : LoadMode) : result (option Cell) :=
  match stack with
  | sg :: _ =>
      let! c := some_or_underflow (reference_cloned (sg_data sg) (Branches.to_u8 (sg_next_branch sg))) in
      let! c := load_cell c mode in Ok (Some c)
  | [] => Ok None
  end.

(** [dict_insert_owned]: whether the root changed, the previous value, the new root *)
Definition dict_insert_owned (dict : option Cell) (key : CellSlice) (key_bit_len : Z)
    (value : DynStore) (mode : SetMode) : result (bool * option CellSliceParts * option Cell) :=
  if negb (size_bits key =? key_bit_len) then Err CellUnderflow else
  match dict with
  | None =>
      if SetModes.can_add mode then
        let! c := make_leaf key key_bit_len value in Ok (true, None, Some c)
      else Ok (false, None, None)
  | Some root =>
      let! root := load_cell root Full in
      let! (f, stack) := insert_loop (S (Z.to_nat key_bit_len)) root key [] in
      match f with
      | FoundLeaf remaining_data prefix key =>
          if negb (SetModes.can_replace mode) then
            let! last := insert_last stack Resolve in
            Ok (false, Some (range remaining_data, default root last), dict)
          else
            let! leaf := make_leaf prefix (size_bits key) value in
            let! last := insert_last stack Resolve in
            let! leaf := rebuild_dict_from_stack stack leaf in
            Ok (true, Some (range remaining_data, default root last), Some leaf)
      | FoundEdge remaining_data prefix lcp key =>
          if negb (SetModes.can_add mode) then Ok (false, None, dict) else
          let! leaf := split_edge remaining_data prefix lcp key value in
          let! leaf := rebuild_dict_from_stack stack leaf in
          Ok (true, None, Some leaf)
      end
  end.

(** ** [ops/remove.rs] *)

(** The loop of [dict_find_value_to_remove]; [prev] is [prev_key_bit_len], and the
    key is returned as the loop leaves it. *)
Fixpoint remove_loop (fuel : nat) (data : Cell) (key : CellSlice) (prev : Z)
    (stack : list Segment) : result (option (list Segment * CellSliceRange * Z * CellSlice)) :=
  match fuel with
  | O => Err CellUnderflow
  | S fuel =>
      let! remaining_data := slice_new data in
      let! (prefix, remaining_data) := read_label remaining_data (size_bits key) in
      let lcp := longest_common_data_prefix key prefix in
      if size_bits lcp =? size_bits key then Ok (Some (stack, range remaining_data, prev, key))
      else if size_bits lcp <? size_bits prefix then Ok None
      else if reference_count data <? 2 then Err CellUnderflow
      else
        let prev := size_bits key in
        let key := or_same (skip_first key (size_bits lcp) 0) key in
        let! (bit, key) := load_bit key in
        let next_branch := Branches.from_bit bit in
        let! child := some_or_underflow (reference data (Branches.to_u8 next_branch)) in
        let! child := load_dyn_cell child Full in
        remove_loop fuel child key prev (mkSegment data next_branch prev :: stack)
  end.

Definition dict_find_value_to_remove (root : Cell) (key : CellSlice)
    : result (option (list Segment * CellSliceRange * Z * CellSlice)) :=
  let! data := load_dyn_cell root Full in
  remove_loop (S (Z.to_nat (size_bits key))) data key (size_bits key) [].

(** [dict_remove_owned]: the removed value and the new root *)
Definition dict_remove_owned (dict : option Cell) (key : CellSlice) (key_bit_len : Z)
    (allow_subtree : bool) : result (option CellSliceParts * option Cell) :=
  if negb allow_subtree && negb (size_bits key =? key_bit_len) then Err CellUnderflow else
  match dict with
  | None => Ok (None, None)
  | Some root =>
      let! f := dict_find_value_to_remove root key in
      match f with
      | None => Ok (None, dict)
      | Some (last :: stack, removed, prev_key_bit_len, key) =>
          let! (leaf, value) := rebuild_as_removed last key prev_key_bit_len in
          let! root := rebuild_dict_from_stack stack leaf in
          Ok (Some (removed, value), Some root)
      | Some ([], removed, _, _) => Ok (Some (removed, root), None)
      end
  end.

(** The loop of [dict_remove_bound_owned]: the stack, the removed range, the key
    read, the key bits left and those of the parent. *)
Fixpoint remove_bound_loop (fuel : nat) (data : Cell) (key_bit_len prev_key_bit_len : Z)
    (bound : DictBound) (signed : bool) (direction : option Branch) (key : CellDataBuilder)
    (stack : list Segment) : result (list Segment * CellSliceRange * CellDataBuilder * Z * Z) :=
  match fuel with
  | O => Err CellUnderflow
  | S fuel =>
      let! remaining_data := slice_new data in
      let! (prefix, remaining_data) := read_label remaining_data key_bit_len in
      let! key :=
        if negb (is_data_empty prefix) then store_slice_data uninit key prefix else Ok key in
      match checked_sub key_bit_len (size_bits prefix) with
      | None => Err CellUnderflow
      | Some remaining =>
          if remaining =? 0 then Ok (stack, range remaining_data, key, key_bit_len, prev_key_bit_len)
          else if size_refs remaining_data <? 2 then Err CellUnderflow
          else
            let prev_key_bit_len := key_bit_len in
            let key_bit_len := remaining - 1 in
            let '(next_branch, direction) :=
              DictBounds.update_direction bound prefix signed direction in
            let! key := store_bit key (Branches.into_bit next_branch) in
            let! child := some_or_underflow (reference data (Branches.to_u8 next_branch)) in
            let! child := load_dyn_cell child Full in
            remove_bound_loop fuel child key_bit_len prev_key_bit_len bound signed direction key
              (mkSegment data next_branch 0 :: stack)
      end
  end.

(** [dict_remove_bound_owned]: the removed entry and the new root *)
Definition dict_remove_bound_owned (dict : option Cell) (key_bit_len : Z) (bound : DictBound)
    (signed : bool) : result (option DictOwnedEntry * option Cell) :=
  match dict with
  | None => Ok (None, None)
  | Some root =>
      let! root := load_cell root Full in
      let! (stack, removed, key, key_bit_len, prev_key_bit_len) :=
        remove_bound_loop (S (Z.to_nat key_bit_len)) root key_bit_len key_bit_len bound signed
          None data_new [] in
      match stack with
      | [] => Ok (Some (key, (removed, root)), None)
      | last :: stack =>
          let index := Branches.to_u8 (sg_next_branch last) in
          let! value := some_or_underflow (reference_cloned (sg_data last) index) in
          let! value := load_cell value Resolve in
          let! (pfx, _) := read_label (new_allow_exotic (sg_data last)) prev_key_bit_len in
          let! opposite := some_or_underflow (reference (sg_data last) (1 - index)) in
          let! opposite := load_dyn_cell opposite Full in
          let! opposite := slice_new opposite in
          let! (rem, opposite) := read_label opposite key_bit_len in
          let! builder := write_label_parts pfx (index =? 0) rem prev_key_bit_len builder_new in
          let! builder := store_slice builder opposite in
          let! leaf := build_ext ctx builder in
          let! root := rebuild_dict_from_stack stack leaf in
          Ok (Some (key, (removed, value)), Some root)
      end
  end.
End Dict.
