(* ===== verification/DictSpec.v ===== *)
(** * DictSpec: a dictionary is a finite map from keys to values

    [rep m c t] relates a dictionary cell with [m] key bits left to a trie; a
    trie denotes a partial function from keys to payloads ([tget]).  Lookup,
    insertion and removal are proved against that function, success included,
    for values that fit ([vok]) and any cell context with [ContextLaws]. *)

From stdpp Require Import gmap.
From S2P Require Import Prelude Bits DataBuilder DataBuilderSpec CellMeta Cell Slice SliceSpec SliceScan SliceScanSpec Builder BuilderSpec Context DictLabel DictLabelSpec Dict.

(** ** Tries *)

(** What a leaf holds besides its label. *)
Definition payload : Type := list bool * list Cell.

Inductive trie : Type :=
| TLeaf (K : list bool) (v : payload)
| TFork (K : list bool) (l r : trie).

Fixpoint strip (K k : list bool) : option (list bool) :=
  match K, k with
  | [], _ => Some k
  | a :: K, b :: k => if eqb a b then strip K k else None
  | _, [] => None
  end.

Fixpoint tget (t : trie) (k : list bool) : option payload :=
  match t with
  | TLeaf K v => if bool_decide (k = K) then Some v else None
  | TFork K l r =>
      match strip K k with
      | Some (b :: k) => tget (if b : bool then r else l) k
      | _ => None
      end
  end.

Definition tlabel (t : trie) : list bool := match t with TLeaf K _ | TFork K _ _ => K end.
Definition set_label (K : list bool) (t : trie) : trie :=
  match t with TLeaf _ v => TLeaf K v | TFork _ l r => TFork K l r end.

Lemma zlen_cons {A} (x : A) l : zlen (x :: l) = 1 + zlen l.
Proof. unfold zlen. simpl. lia. Qed.

Lemma strip_Some K k r : strip K k = Some r <-> k = K ++ r.
Proof.
  revert k. induction K as [|a K IH]; intros k; simpl; [naive_solver|].
  destruct k as [|b k]; [done|]. destruct (eqb a b) eqn:E.
  - apply eqb_prop in E as ->. rewrite IH. naive_solver.
  - split; [done|]. intros [= -> _]. by rewrite eqb_reflx in E.
Qed.

Lemma strip_app K k : strip K (K ++ k) = Some k.
Proof. by apply strip_Some. Qed.

Lemma strip_None K k : strip K k = None <-> ~ K `prefix_of` k.
Proof.
  split.
  - intros E [r ->]. by rewrite strip_app in E.
  - intros H. destruct (strip K k) as [r|] eqn:E; [|done]. apply strip_Some in E as ->.
    destruct H. by exists r.
Qed.

Lemma strip_strip P K k : strip (P ++ K) (P ++ k) = strip K k.
Proof. induction P as [|a P IH]; [done|]. simpl. by rewrite eqb_reflx. Qed.

(** Cutting the label from the front cuts the keys. *)
Lemma tget_set_label P K t k :
  tlabel t = P ++ K -> tget (set_label K t) k = tget t (P ++ k).
Proof.
  intros E. destruct t as [L v|L l r]; simpl in *; subst L.
  - destruct (decide (k = K)) as [->|Hne]; [by rewrite !bool_decide_true|].
    rewrite !bool_decide_false; try done. by intros ?%app_inv_head.
  - by rewrite strip_strip.
Qed.

(** A fork under a label that is not a prefix of the key does not have it. *)
Lemma tget_prefix t k v : tget t k = Some v -> tlabel t `prefix_of` k.
Proof.
  destruct t as [K w|K l r]; simpl.
  - case_bool_decide; [subst|done]. reflexivity.
  - destruct (strip K k) as [x|] eqn:E; [|done]. apply strip_Some in E as ->. by eexists.
Qed.

(** How a key and a label meet: the key ends inside the label, they part, or the
    label ends inside the key. *)
Inductive meets (k K : list bool) : Z -> Prop :=
| meet_key r : K = k ++ r -> meets k K (zlen k)
| meet_part P a b K2 k2 : K = P ++ a :: K2 -> k = P ++ b :: k2 -> a <> b -> meets k K (zlen P)
| meet_label b k2 : k = K ++ b :: k2 -> meets k K (zlen K).

Lemma lcp_meets k K : meets k K (lcp_len k K).
Proof.
  revert K. induction k as [|b k IH]; intros K; [by apply meet_key with K|].
  destruct K as [|a K]; [by apply meet_label with b k|]. simpl.
  destruct (eqb b a) eqn:E.
  - apply eqb_prop in E as ->.
    assert (forall l : list bool, 1 + zlen l = zlen (a :: l)) as Hz by (intros; unfold zlen; simpl; lia).
    destruct (IH K) as [r ->|P x y K2 k2 -> -> Hxy|y k2 ->]; rewrite Hz.
    + by apply meet_key with r.
    + by apply meet_part with x y K2 k2.
    + by apply meet_label with y k2.
  - apply (meet_part _ _ [] a b K k); [done..|]. intros ->. by rewrite eqb_reflx in E.
Qed.

(** [t'] is [t] with the value of [k] replaced, or removed. *)
Definition updated (t : trie) (k : list bool) (o : option payload) (t' : trie) : Prop :=
  forall k', tget t' k' = if bool_decide (k' = k) then o else tget t k'.

(** A fork with the child on side [b] replaced. *)
Definition set_child (K : list bool) (l r : trie) (b : bool) (t : trie) : trie :=
  if b then TFork K l t else TFork K t r.

Lemma tget_set_child K l r b t k :
  tget (set_child K l r b t) k =
    match strip K k with
    | Some (x :: k) => if eqb x b then tget t k else tget (if x : bool then r else l) k
    | _ => None
    end.
Proof. by destruct b; simpl; destruct (strip K k) as [[|[] ?]|]. Qed.

Lemma updated_child K l r (b : bool) k o t' :
  updated (if b then r else l) k o t' ->
  updated (TFork K l r) (K ++ b :: k) o (set_child K l r b t').
Proof.
  intros H k'. rewrite tget_set_child. simpl. destruct (strip K k') as [x|] eqn:E.
  - apply strip_Some in E as ->. destruct x as [|x k2].
    { rewrite bool_decide_false; [done|]. by intros ?%app_inv_head. }
    destruct (eqb x b) eqn:Ex.
    + apply eqb_prop in Ex as ->. rewrite H.
      destruct (decide (k2 = k)) as [->|Hne]; [by rewrite !bool_decide_true|].
      rewrite !bool_decide_false; try done. by intros [= ?]%app_inv_head.
    + rewrite bool_decide_false; [done|]. intros [= -> _]%app_inv_head. by rewrite eqb_reflx in Ex.
  - rewrite bool_decide_false; [done|]. intros ->. by rewrite strip_app in E.
Qed.

Lemma updated_leaf K w v : updated (TLeaf K w) K (Some v) (TLeaf K v).
Proof. intros k. simpl. by case_bool_decide. Qed.

(** Splitting an edge where the key and the label part. *)
Definition split_trie (P : list bool) (a : bool) (old new : trie) : trie :=
  if a then TFork P new old else TFork P old new.

Lemma updated_split t P a b K2 k2 v :
  tlabel t = P ++ a :: K2 -> a <> b ->
  updated t (P ++ b :: k2) (Some v) (split_trie P a (set_label K2 t) (TLeaf k2 v)).
Proof.
  intros HK Hab k'.
  assert (tget (split_trie P a (set_label K2 t) (TLeaf k2 v)) k' = match strip P k' with
    | Some (x :: k) => if eqb x a then tget (set_label K2 t) k else tget (TLeaf k2 v) k
    | _ => None end) as ->.
  { by destruct a; simpl; destruct (strip P k') as [[|[] ?]|]. }
  destruct (strip P k') as [x|] eqn:E.
  - apply strip_Some in E as ->. destruct x as [|x k].
    + rewrite bool_decide_false by (by intros ?%app_inv_head).
      destruct (tget t (P ++ [])) as [w|] eqn:Eg; [|done]. apply tget_prefix in Eg as [r Er].
      rewrite HK, <- app_assoc in Er. by apply app_inv_head in Er.
    + destruct (eqb x a) eqn:Ex.
      * apply eqb_prop in Ex as ->.
        rewrite (tget_set_label (P ++ [a])) by (by rewrite <- app_assoc). rewrite <- app_assoc. simpl.
        rewrite bool_decide_false; [done|]. by intros [= -> _]%app_inv_head.
      * assert (x = b) as -> by (destruct x, a, b; done). simpl.
        destruct (decide (k = k2)) as [->|Hne]; [by rewrite !bool_decide_true|].
        rewrite !bool_decide_false; [|by intros [= ?]%app_inv_head | done].
        destruct (tget t (P ++ b :: k)) as [w|] eqn:Eg; [|done]. apply tget_prefix in Eg as [r Er].
        rewrite HK, <- app_assoc in Er. apply app_inv_head in Er. by injection Er.
  - rewrite bool_decide_false by (intros ->; by rewrite strip_app in E).
    destruct (tget t k') as [w|] eqn:Eg; [|done]. apply tget_prefix in Eg as [r ->].
    rewrite HK, <- app_assoc, strip_app in E. done.
Qed.

(** A fork that loses a leaf merges with the other child. *)
Lemma tget_prepend P t k :
  tget (set_label (P ++ tlabel t) t) k =
    match strip P k with Some k => tget t k | None => None end.
Proof.
  destruct (strip P k) as [x|] eqn:E.
  - apply strip_Some in E as ->.
    rewrite <- (tget_set_label P (tlabel t) (set_label (P ++ tlabel t) t)) by (by destruct t).
    by destruct t.
  - destruct (tget _ k) as [w|] eqn:Eg; [|done]. apply tget_prefix in Eg as [r ->].
    replace (tlabel _) with (P ++ tlabel t) in E by (by destruct t).
    by rewrite <- app_assoc, strip_app in E.
Qed.

Lemma removed_merge K l r (b : bool) k w :
  (if b then r else l) = TLeaf k w ->
  let opp := if b then l else r in
  updated (TFork K l r) (K ++ b :: k) None (set_label (K ++ negb b :: tlabel opp) opp).
Proof.
  intros Hc opp k'. replace (K ++ negb b :: tlabel opp) with ((K ++ [negb b]) ++ tlabel opp)
    by (by rewrite <- app_assoc). rewrite tget_prepend. simpl.
  destruct (strip K k') as [x|] eqn:E.
  - apply strip_Some in E as ->. rewrite strip_strip. destruct x as [|y x].
    { by rewrite bool_decide_false by (by intros ?%app_inv_head). }
    simpl. destruct (eqb (negb b) y) eqn:Ey.
    + apply eqb_prop in Ey as <-. rewrite bool_decide_false; [by destruct b|].
      intros [= Hb _]%app_inv_head. by destruct b.
    + assert (y = b) as -> by (by destruct y, b). rewrite Hc. simpl.
      destruct (decide (x = k)) as [->|]; [by rewrite bool_decide_true|].
      by rewrite !bool_decide_false by (done || by intros [= ?]%app_inv_head).
  - assert (strip (K ++ [negb b]) k' = None) as ->.
    { apply strip_None. intros [z ->]. rewrite <- app_assoc, strip_app in E. done. }
    by case_bool_decide.
Qed.

(** What a fork holds besides its children, given what is below it: nothing in a
    plain dictionary, the extra value of the fork in an augmented one. *)
Class ForkTail : Type := fork_tail : trie -> trie -> payload -> Prop.
#[global] Instance no_tail : ForkTail := fun _ _ y => y = ([], []).

Class PlainTail (ftail : ForkTail) : Prop := plain_tail : forall l r y, ftail l r y <-> y = ([], []).
#[global] Instance no_tail_plain : PlainTail no_tail.
Proof. done. Qed.

Section Rep.
Context {ftail : ForkTail}.
Context {mach : Machine} (ctx : CellContext) {laws : ContextLaws ctx}.
(** The key length of the dictionary and a bound on the depth of the values. *)
Context (N Dv : Z) (HN : 0 <= N <= 1023)
  (Hcap : 2 + len_bits N + N <= MAX_BIT_LEN) (HDv : 0 <= Dv) (HD : Dv + N <= MAX_DEPTH).
(** Whether the cells must be the ones this library builds: with [canon] unset a
    dictionary from elsewhere, with other label forms, is a representation too. *)
Context (canon : bool).

(** A payload that fits into a leaf, whatever its label. *)
Definition vok (v : payload) : Prop :=
  2 + len_bits N + N + zlen v.1 <= MAX_BIT_LEN /\ zlen v.2 <= MAX_REF_COUNT /\
  Forall cell_ok v.2 /\ Forall (fun r => cdepth r + 1 <= Dv) v.2.

(** What fits into a fork, behind its children. *)
Definition tail_ok (y : payload) : Prop :=
  2 + len_bits N + N + zlen y.1 <= MAX_BIT_LEN /\ zlen y.2 + 2 <= MAX_REF_COUNT /\
  Forall cell_ok y.2 /\ Forall (fun r => cdepth r + 1 <= Dv) y.2.

(** A payload behind two children *)
Definition forked (cl cr : Cell) (y : payload) : payload := (y.1, cl :: cr :: y.2).

(** The cell built from the label this library writes and the payload. *)
Definition minted (m : Z) (K lab : list bool) (x : payload) (c : Cell) : Prop :=
  canon = true -> label_bits m K = Some lab /\
    build_ext ctx (mkBuilder (of_bits (lab ++ x.1)) false x.2) = Ok c.

Inductive rep : Z -> Cell -> trie -> Prop :=
| rep_leaf m c K v lab :
    0 <= m <= N -> cell_ok c -> cdepth c <= Dv + m -> zlen K = m -> is_label m K lab -> vok v ->
    ordinary c (lab ++ v.1) v.2 -> minted m K lab v c -> rep m c (TLeaf K v)
| rep_fork m c K l r lab cl cr y :
    0 <= m <= N -> cell_ok c -> cdepth c <= Dv + m -> zlen K < m -> is_label m K lab ->
    tail_ok y -> fork_tail l r y ->
    ordinary c (lab ++ y.1) (cl :: cr :: y.2) -> minted m K lab (forked cl cr y) c ->
    rep (m - zlen K - 1) cl l -> rep (m - zlen K - 1) cr r -> rep m c (TFork K l r).

(** What a cell holds behind its label: the payload, or the children and the tail. *)
Definition rest_of (m : Z) (t : trie) (x : payload) : Prop :=
  match t with
  | TLeaf K v => zlen K = m /\ vok v /\ x = v
  | TFork K l r => zlen K < m /\ exists cl cr y, x = forked cl cr y /\
      rep (m - zlen K - 1) cl l /\ rep (m - zlen K - 1) cr r /\ tail_ok y /\ fork_tail l r y
  end.

Lemma rep_node m c t :
  rep m c t <-> (0 <= m <= N) /\ cell_ok c /\ cdepth c <= Dv + m /\
    exists lab x, is_label m (tlabel t) lab /\ ordinary c (lab ++ x.1) x.2 /\ rest_of m t x /\
      minted m (tlabel t) lab x c.
Proof.
  split.
  - intros [m' c' K v lab|m' c' K l r lab cl cr y]; (split_and!; [lia | lia | done | done |]).
    + by exists lab, v.
    + exists lab, (forked cl cr y). split_and!; [done..| |done]. split; [done|]. by exists cl, cr, y.
  - intros (Hm & Hc & Hd & lab & x & Hl & Ho & Hr & Hmi). destruct t as [K v|K l r]; simpl in *.
    + destruct Hr as (? & ? & ->). by eapply rep_leaf.
    + destruct Hr as (? & cl & cr & y & -> & ? & ? & ? & ?). by apply (rep_fork m c K l r lab cl cr y).
Qed.

Lemma rep_label_len m c t : rep m c t -> zlen (tlabel t) <= m.
Proof. intros []; simpl; lia. Qed.

Lemma rep_range m c t : rep m c t -> 0 <= m <= N.
Proof. by intros []. Qed.

Lemma rep_plain m c t s : rep m c t -> cell s = c -> is_exotic (cell s) = false.
Proof. intros (_ & _ & _ & lab & x & _ & Ho & _)%rep_node ->. apply Ho. Qed.

(** Keys of any other length are not in the trie. *)
Lemma tget_len m c t k v : rep m c t -> tget t k = Some v -> zlen k = m.
Proof.
  intros Hr. revert k. induction Hr as [|m c K l r lab cl cr y ???? _ _ _ _ _ _ IHl _ IHr]; intros k; simpl.
  - by case_bool_decide; naive_solver.
  - destruct (strip K k) as [[|b x]|] eqn:E; [done| |done]. apply strip_Some in E as ->.
    intros Hg. rewrite zlen_app. unfold zlen at 2. simpl.
    assert (zlen x = m - zlen K - 1) by (destruct b; eauto). unfold zlen in *. lia.
Qed.

(** ** Reading a node *)

Lemma ordinary_reference c l rs i x :
  ordinary c l rs -> 0 <= i -> rs !! Z.to_nat i = Some x ->
  reference c i = Some x /\ reference_cloned c i = Some x.
Proof.
  intros [Hw _ _ Hr Hp] Hi E. rewrite (Hp i).
  enough (reference c i = Some x) by done. subst rs. revert E. unfold references, refs_window.
  pose proof (cw_rc c Hw). rewrite Z.sub_0_r.
  assert (forall j, 0 <= j < 0 + Z.of_nat (Z.to_nat (reference_count c)) -> is_Some (reference c j)) as HS
    by (intros; apply (cw_refs c Hw); lia).
  intros E. pose proof (lookup_lt_Some _ _ _ E) as Hlt. rewrite length_iter_refs in Hlt by done.
  rewrite iter_refs_lookup in E by done. by rewrite Z.add_0_l, Z2Nat.id in E by lia.
Qed.

Lemma rep_load m c t mode :
  rep m c t -> load_cell c mode = Ok c /\ load_dyn_cell c mode = Ok c /\
               slice_new c = Ok (new_allow_exotic c).
Proof.
  intros (_ & _ & _ & lab & x & _ & Ho & _)%rep_node.
  split_and!; [apply load_cell_law, Ho | apply load_dyn_cell_law, Ho | by eapply ordinary_slice].
Qed.

(** Reading the label of a node leaves what is behind it. *)
Lemma rep_read m c t :
  rep m c t -> exists lab s x, read_label (new_allow_exotic c) m = Ok (lab, s) /\
    slice_wf lab /\ slice_bits lab = tlabel t /\ cell s = c /\
    slice_wf s /\ slice_bits s = x.1 /\ slice_references s = x.2 /\
    slice_references_cloned s = x.2 /\ rest_of m t x.
Proof.
  intros Hr. pose proof (rep_label_len _ _ _ Hr) as HK.
  apply rep_node in Hr as (Hm & _ & _ & lab & x & Hl & Ho & Hrest & _).
  destruct (ordinary_slice _ _ _ Ho) as (_ & W & B & R & Rc).
  destruct (read_label_spec m (tlabel t) ltac:(lia) HK _ lab x.1 W Hl B)
    as (ls & s & E & Wl & Bl & [Ws Bs Rs Rcs Cs]).
  exists ls, s, x. rewrite Rs, R, Rcs, Rc. by split_and!.
Qed.

Lemma fork_children m c K l r :
  rep m c (TFork K l r) -> exists cl cr,
    reference c 0 = Some cl /\ reference_cloned c 0 = Some cl /\
    reference c 1 = Some cr /\ reference_cloned c 1 = Some cr /\
    rep (m - zlen K - 1) cl l /\ rep (m - zlen K - 1) cr r.
Proof.
  intros (_ & _ & _ & lab & x & _ & Ho & (_ & cl & cr & y & -> & Hl & Hr & _) & _)%rep_node.
  destruct (ordinary_reference _ _ _ 0 cl Ho) as [? ?]; [done..|].
  destruct (ordinary_reference _ _ _ 1 cr Ho) as [? ?]; [done..|].
  exists cl, cr. by split_and!.
Qed.

Lemma fork_count m c K l r : rep m c (TFork K l r) -> (reference_count c <? 2) = false.
Proof.
  intros (_ & _ & _ & lab & x & _ & Ho & (_ & cl & cr & y & -> & _) & _)%rep_node. apply Z.ltb_ge.
  pose proof (zlen_slice_references (new_allow_exotic c) (slice_new_wf c (oc_wf _ _ _ Ho))) as Hz.
  rewrite slice_new_refs, (oc_refs _ _ _ Ho) in Hz. pose proof (cw_rc c (oc_wf _ _ _ Ho)).
  unfold size_refs, Range.size_refs in Hz. simpl in Hz. rewrite !zlen_cons in Hz. pose proof (zlen_nonneg y.2). dlia.
Qed.

(** In a plain dictionary there is nothing behind the children. *)
Lemma rest_of_plain `{!PlainTail ftail} m K l r x :
  rest_of m (TFork K l r) x -> zlen K < m /\ exists cl cr, x = ([], [cl; cr]) /\
    rep (m - zlen K - 1) cl l /\ rep (m - zlen K - 1) cr r.
Proof. intros (HK & cl & cr & y & -> & Hl & Hr & _ & ->%plain_tail). split; [done|]. by exists cl, cr. Qed.

Lemma fork_child m c K l r (b : bool) :
  rep m c (TFork K l r) -> exists ch, reference c (b2z b) = Some ch /\
    reference c (Branches.to_u8 (Branches.from_bit b)) = Some ch /\
    reference_cloned c (b2z b) = Some ch /\
    reference_cloned c (Branches.to_u8 (Branches.from_bit b)) = Some ch /\
    rep (m - zlen K - 1) ch (if b then r else l).
Proof. intros (cl & cr & ? & ? & ? & ? & ? & ?)%fork_children. destruct b; eexists; eauto. Qed.

(** ** Lookup *)

Definition value_slice (v : payload) (s : CellSlice) : Prop :=
  slice_wf s /\ slice_bits s = v.1 /\ slice_references s = v.2 /\ slice_references_cloned s = v.2 /\
  is_exotic (cell s) = false.

(** Where the lookup ends: the leaf, with its parent unless it is the start. *)
Definition ends_at (prev : option (Cell * Z)) (c : Cell) (s : CellSlice)
    (prev' : option (Cell * Z)) : Prop :=
  load_cell (cell s) Resolve = Ok (cell s) /\
  (prev' = prev /\ cell s = c \/ exists p i, prev' = Some (p, i) /\ reference_cloned p i = Some (cell s)).

Definition owned_loop_result (t : trie) (k : list bool) (prev : option (Cell * Z)) (c : Cell)
    (r : result (option (CellSlice * option (Cell * Z)))) : Prop :=
  match tget t k with
  | Some v => exists s prev', r = Ok (Some (s, prev')) /\ value_slice v s /\ ends_at prev c s prev'
  | None => r = Ok None
  end.

Lemma dict_get_owned_loop_spec m c t fuel key prev :
  rep m c t -> slice_wf key -> size_bits key = m -> m < Z.of_nat fuel ->
  owned_loop_result t (slice_bits key) prev c
    (dict_get_owned_loop ctx fuel (new_allow_exotic c) key prev).
Proof.
  revert m c fuel key prev.
  induction t as [K v|K l IHl r IHr]; intros m c fuel key prev Hr Hk Hsz Hf;
    pose proof (rep_range _ _ _ Hr) as Hmr;
    (destruct fuel as [|fuel]; [lia|]); cbn [dict_get_owned_loop]; rewrite Hsz;
    pose proof (zlen_slice_bits key Hk) as Hz;
    destruct (rep_read _ _ _ Hr) as (ls & s & x & -> & Wl & Bl & Cs & Ws & Bs & Rs & Rcs & Hrest);
    cbn [rbind]; simpl in Bl; pose proof (strip_data_prefix_spec key ls Hk Wl) as HS; rewrite Bl in HS;
    unfold owned_loop_result; cbn [tget].
  - destruct Hrest as (HK & _ & ->).
    assert (ends_at prev c s prev) as He.
    { split; [rewrite Cs; by apply (rep_load _ _ _ Resolve Hr) | by left]. }
    destruct (strip_data_prefix key ls) as [rest|].
    + destruct HS as [Wr Er]. rewrite Er, zlen_app in Hz.
      rewrite is_data_empty_spec by done. replace (zlen (slice_bits rest)) with 0 by lia. simpl.
      rewrite (nil_length_inv (slice_bits rest)) in Er by (unfold zlen in *; lia).
      rewrite app_nil_r in Er. rewrite bool_decide_true by done. exists s, prev.
      split; [done|]. split; [|done]. split_and!; [done..|by eapply rep_plain].
    + rewrite is_data_empty_spec by done. destruct (Z.eqb_spec (zlen (slice_bits key)) 0).
      { destruct HS. rewrite (nil_length_inv K) by (unfold zlen in *; lia). by eexists. }
      rewrite bool_decide_false; [done|]. intros E. destruct HS. by rewrite E.
  - destruct Hrest as (HK & cl & cr & y & -> & _). pose proof (zlen_nonneg K).
    destruct (strip_data_prefix key ls) as [rest|].
    + destruct HS as [Wr Er]. rewrite Er, strip_app. rewrite Er, zlen_app in Hz.
      rewrite is_data_empty_spec by done. destruct (Z.eqb_spec (zlen (slice_bits rest)) 0); [lia|].
      pose proof (zlen_slice_references s Ws) as Hrf. rewrite Rs in Hrf.
      cbn [forked snd] in Hrf. rewrite !zlen_cons in Hrf. pose proof (zlen_nonneg y.2).
      rewrite (proj2 (Z.ltb_ge (size_refs s) 2)) by lia.
      destruct (slice_bits rest) as [|b k] eqn:Eb; [done|].
      destruct (load_bit_front rest b k Wr Eb) as (key' & -> & [Wk Bk _ _]). cbn [rbind].
      rewrite Cs. destruct (fork_child _ _ _ _ _ b Hr) as (ch & Hch0 & _ & Hcl0 & _ & Hch). rewrite Hch0.
      cbn [some_or_underflow rbind].
      destruct (rep_load _ _ _ Full Hch) as (_ & -> & Hsn). cbn [rbind]. rewrite Hsn. cbn [rbind].
      pose proof (zlen_slice_bits key' Wk) as Hz'. rewrite Bk in Hz'.
      assert (zlen (b :: k) = 1 + zlen k) as Hc by (unfold zlen; simpl; lia). rewrite <- Bk.
      assert (owned_loop_result (if b then r else l) (slice_bits key') (Some (c, b2z b)) ch
        (dict_get_owned_loop ctx fuel (new_allow_exotic ch) key' (Some (c, b2z b)))) as IH
        by (destruct b; [eapply IHr | eapply IHl]; (done || lia)).
      unfold owned_loop_result in IH. destruct (tget _ (slice_bits key')) as [v|]; [|done].
      destruct IH as (s2 & prev' & -> & Hv & Hl & [[-> <-]|?]); exists s2; eexists;
        (split; [done|]); (split; [done|]); (split; [done|]); right; eauto.
    + rewrite is_data_empty_spec by done. destruct (Z.eqb_spec (zlen (slice_bits key)) 0); [lia|].
      by rewrite (proj2 (strip_None K (slice_bits key))).
Qed.

Definition lookup_result (o : option payload) (r : result (option CellSlice)) : Prop :=
  match o with
  | Some v => exists s, r = Ok (Some s) /\ value_slice v s
  | None => r = Ok None
  end.

(** An owned value is the range of the leaf's rest and the leaf itself. *)
Definition owned_value (o : option payload) (p : option CellSliceParts) : Prop :=
  match o, p with
  | Some v, Some (rg, c) => value_slice v (apply_allow_exotic rg c)
  | None, None => True
  | _, _ => False
  end.

(** [dict_get] runs the same loop, and forgets the parent. *)
Lemma dict_get_loop_owned fuel data key prev :
  dict_get_loop ctx fuel data key =
    let! o := dict_get_owned_loop ctx fuel data key prev in Ok (option_map fst o).
Proof.
  revert data key prev. induction fuel as [|fuel IH]; intros data key prev; [done|].
  cbn [dict_get_loop dict_get_owned_loop].
  destruct (read_label data (size_bits key)) as [[prefix d]|]; [|done]. cbn [rbind].
  destruct (strip_data_prefix key prefix) as [k|]; [|by destruct (is_data_empty key)].
  destruct (is_data_empty k); [done|]. destruct (size_refs d <? 2); [done|].
  destruct (load_bit k) as [[b k']|]; [|done]. cbn [rbind].
  destruct (some_or_underflow _) as [ch|]; [|done]. cbn [rbind].
  destruct (load_dyn_cell ch Full) as [ch'|]; [|done]. cbn [rbind].
  destruct (slice_new ch') as [s|]; [|done]. cbn [rbind]. apply IH.
Qed.

(** ** Building nodes *)

(** A stored value appends a known payload. *)
Definition stores (value : DynStore) (x : payload) : Prop :=
  forall b, builder_wf b -> value ctx b = append_full b x.

Lemma stores_slice s x : value_slice x s -> stores (store_into s) x.
Proof.
  intros (W & B & _ & R & _) b Hb. unfold store_into, Store_slice. rewrite store_slice_spec by done.
  rewrite B, R. by destruct x.
Qed.

Lemma label_bits_cost m K :
  0 <= m <= 1023 -> 2 + len_bits m + zlen K <= MAX_BIT_LEN ->
  exists lab, label_bits m K = Some lab /\ zlen lab <= 2 + len_bits m + zlen K.
Proof.
  intros Hm Hc. pose proof (len_bits_range m Hm). pose proof (zlen_nonneg K).
  unfold label_bits. destruct (_ || _); [exists [false; false]; split; [done|]; unfold zlen; simpl; lia|].
  assert (forall l, zlen (true :: false :: uint_bits (len_bits m) l ++ K) = 2 + len_bits m + zlen K) as Hlong.
  { intros l. unfold zlen. simpl. rewrite length_app, length_uint_bits. lia. }
  set (u := if (3 + len_bits m <? _) && _ then uniform K else None).
  destruct u as [b|] eqn:Eu; subst u.
  - eexists. split; [done|]. unfold hml_same, zlen. simpl. rewrite length_uint_bits.
    destruct (Z.ltb_spec (3 + len_bits m) (2 + len_bits m + zlen K)); [unfold zlen in *; lia | done].
  - clear Eu. destruct (_ && _) eqn:E.
    + eexists. split; [done|]. apply andb_true_iff in E as [_ E%Z.leb_le].
      unfold hml_short, zlen in *. simpl. rewrite length_app, length_replicate. simpl. lia.
    + destruct (Z.leb_spec (2 + len_bits m + zlen K) MAX_BIT_LEN); [|lia].
      eexists. split; [done|]. unfold hml_long. rewrite Hlong. lia.
Qed.

Lemma len_bits_mono a b : 0 <= a <= b -> len_bits a <= len_bits b.
Proof.
  intros. unfold len_bits. destruct (Z.eqb_spec a 0), (Z.eqb_spec b 0); try lia.
  - pose proof (Z.log2_nonneg b). lia.
  - pose proof (Z.log2_le_mono a b). lia.
Qed.

(** A label and a payload that fit are finalized into a cell. *)
Lemma build_labelled m K x D :
  0 <= m <= N -> zlen K <= m -> 2 + len_bits N + N + zlen x.1 <= MAX_BIT_LEN ->
  zlen x.2 <= MAX_REF_COUNT -> Forall cell_ok x.2 -> Forall (fun r => cdepth r + 1 <= D) x.2 ->
  0 <= D <= MAX_DEPTH ->
  exists c lab,
    (let! b := (let! b := write_label_result builder_new (label_bits m K) in append_full b x) in
     build_ext ctx b) = Ok c /\ is_label m K lab /\
    ordinary c (lab ++ x.1) x.2 /\ cell_ok c /\ cdepth c <= D /\ minted m K lab x c.
Proof.
  intros Hm HK Hbits Hrefs Hcok Hdep HD'.
  pose proof (len_bits_mono m N ltac:(lia)). pose proof (zlen_nonneg x.1).
  destruct (label_bits_cost m K ltac:(lia) ltac:(lia)) as (lab & El & Hlab). rewrite El. cbn [write_label_result].
  rewrite append_full_append_full by apply builder_new_wf. cbn [fst snd app].
  assert (exists b, append_full builder_new (lab ++ x.1, x.2) = Ok b) as [b E].
  { unfold append_full. cbn [fst snd]. rewrite zlen_app. change (DataBuilder.bit_len (inner builder_new)) with 0.
    change (zlen (b_refs builder_new)) with 0.
    destruct (Z.leb_spec (0 + (zlen lab + zlen x.1)) MAX_BIT_LEN); [|lia].
    destruct (Z.leb_spec (0 + zlen x.2) MAX_REF_COUNT); [|lia]. by eexists. }
  destruct (append_full_wf _ _ _ builder_new_wf E) as (Wb & Cb & Rb & Xb).
  pose proof (append_new _ _ E) as Eb.
  rewrite E. cbn [rbind]. cbn [fst snd] in *. change (inner builder_new) with data_new in Cb. rewrite contents_new in Cb. simpl in Cb, Rb, Xb.
  destruct (finalize_law b D Wb Xb) as (c & Ec & Ho & Hok & Hd); rewrite ?Rb; try done.
  exists c, lab. rewrite Cb, Rb in Ho. rewrite Ec. split_and!; try done.
  - by eapply label_bits_is_label; [lia | ..].
  - intros _. by rewrite <- Eb.
Qed.

Lemma make_leaf_spec m key value x D :
  slice_wf key -> 0 <= m <= N -> size_bits key <= m -> stores value x ->
  2 + len_bits N + N + zlen x.1 <= MAX_BIT_LEN -> zlen x.2 <= MAX_REF_COUNT ->
  Forall cell_ok x.2 -> Forall (fun r => cdepth r + 1 <= D) x.2 -> 0 <= D <= MAX_DEPTH ->
  exists c lab, make_leaf ctx key m value = Ok c /\ is_label m (slice_bits key) lab /\
    ordinary c (lab ++ x.1) x.2 /\ cell_ok c /\ cdepth c <= D /\
    minted m (slice_bits key) lab x c.
Proof.
  intros Hk Hm Hkm Hv Hbits Hrefs Hcok Hdep HD'. unfold make_leaf.
  rewrite write_label_spec by (apply builder_new_wf || done || lia).
  destruct (build_labelled m (slice_bits key) x D Hm) as (c & lab & E & ?); try done.
  { by rewrite zlen_slice_bits. }
  exists c, lab. split; [|done]. rewrite <- E.
  destruct (label_bits m (slice_bits key)) as [l|]; [|done]. cbn [write_label_result].
  destruct (append_full builder_new (l, [])) as [b|] eqn:Eb; [|done]. cbn [rbind].
  rewrite Hv by (by eapply append_full_wf; [apply builder_new_wf|]). done.
Qed.

(** A leaf with a fitting value. *)
Lemma make_leaf_rep m key value v :
  slice_wf key -> 0 <= m <= N -> size_bits key = m -> stores value v -> vok v ->
  exists c, make_leaf ctx key m value = Ok c /\ rep m c (TLeaf (slice_bits key) v).
Proof.
  intros Hk Hm Hkm Hv (Hb & Hr & Hc & Hd).
  destruct (make_leaf_spec m key value v Dv) as (c & lab & E & ? & ? & ? & ? & ?); try (done || lia).
  exists c. split; [done|]. eapply rep_leaf; try done; [lia|]. rewrite zlen_slice_bits; done.
Qed.

(** The payload behind a label fits and is finalized within the depth. *)
Lemma rest_of_fits m t x m' :
  rest_of m t x -> 0 <= m' <= N -> m - zlen (tlabel t) <= m' ->
  2 + len_bits N + N + zlen x.1 <= MAX_BIT_LEN /\ zlen x.2 <= MAX_REF_COUNT /\
  Forall cell_ok x.2 /\ Forall (fun r => cdepth r + 1 <= Dv + m') x.2.
Proof.
  intros Hr Hm' Hmm. destruct t as [K v|K l r]; simpl in *.
  - destruct Hr as (HK & (Hb & Hrc & Hc & Hd) & ->). split_and!; [done..|].
    eapply list.Forall_impl; [exact Hd|]. intros r ?. simpl in *. lia.
  - destruct Hr as (HK & cl & cr & y & -> & Hl & Hrr & (Hb & Hrc & Hc & Hd) & _). unfold forked. cbn [fst snd].
    apply rep_node in Hl as (? & ? & ? & _). apply rep_node in Hrr as (? & ? & ? & _). rewrite !zlen_cons.
    split_and!; [done | lia | by repeat constructor | repeat (constructor; [lia|])].
    eapply list.Forall_impl; [exact Hd|]. intros r' ?. simpl in *. lia.
Qed.

Lemma plain_tail_ok : tail_ok ([], []).
Proof. split_and!; [change (zlen _) with 0; lia | done | constructor | constructor]. Qed.

(** Two references behind a label. *)
Definition store_two (l r : Cell) : DynStore := fun _ b =>
  let! b := store_reference b l in store_reference b r.

Lemma stores_two l r : stores (store_two l r) ([], [l; r]).
Proof.
  intros b Hb. unfold store_two. rewrite store_reference_spec by done.
  apply (append_bind b ([], [l]) ([], [r])); [done|]. intros. by apply store_reference_spec.
Qed.

(** Any node with a shorter label, and the key bits that remain. *)
Lemma relabel_rep m t x m' K c lab D :
  rest_of m t x -> 0 <= m' <= N -> m - zlen (tlabel t) = m' - zlen K ->
  is_label m' K lab -> ordinary c (lab ++ x.1) x.2 -> cell_ok c -> cdepth c <= D -> D <= Dv + m' ->
  minted m' K lab x c -> rep m' c (set_label K t).
Proof.
  intros Hr Hm' E Hl Ho Hok Hd HD' Hmi. apply rep_node. split_and!; [lia | lia | done | lia |].
  exists lab, x. split_and!; [by destruct t | done | | by destruct t]. destruct t as [L v|L l r]; simpl in *.
  - destruct Hr as (? & ? & ->). split_and!; [lia | done..].
  - destruct Hr as (? & cl & cr & y & -> & Hrest). split; [lia|]. exists cl, cr, y.
    by replace (m' - zlen K - 1) with (m - zlen L - 1) by lia.
Qed.

Lemma make_leaf_relabel m t x m' key value :
  rest_of m t x -> slice_wf key -> 0 <= m' <= N -> size_bits key <= m' ->
  m - zlen (tlabel t) = m' - size_bits key -> stores value x ->
  exists c, make_leaf ctx key m' value = Ok c /\ rep m' c (set_label (slice_bits key) t).
Proof.
  intros Hr Hk Hm' Hsz E Hv.
  destruct (rest_of_fits m t x m' Hr Hm') as (Hb & Hrf & Hc & Hd).
  { pose proof (zlen_slice_bits key Hk). pose proof (zlen_nonneg (slice_bits key)). lia. }
  destruct (make_leaf_spec m' key value x (Dv + m')) as (c & lab & Ec & ? & ? & ? & ? & ?);
    try (done || lia).
  exists c. split; [done|]. eapply relabel_rep; try done. rewrite zlen_slice_bits by done. lia.
Qed.

(** A fork over two nodes: [value] stores the children and the tail. *)
Lemma make_fork_with m key l r cl cr y value :
  slice_wf key -> 0 <= m <= N -> size_bits key < m ->
  rep (m - size_bits key - 1) cl l -> rep (m - size_bits key - 1) cr r ->
  tail_ok y -> fork_tail l r y -> stores value (forked cl cr y) ->
  exists c, make_leaf ctx key m value = Ok c /\ rep m c (TFork (slice_bits key) l r).
Proof.
  intros Hk Hm Hsz Hl Hr Hy Ht Hv. pose proof (zlen_slice_bits key Hk) as Hz.
  apply (make_leaf_relabel m (TFork (slice_bits key) l r) (forked cl cr y));
    simpl; try (done || lia). rewrite Hz. split; [done|]. by exists cl, cr, y.
Qed.

Lemma make_fork_rep `{!PlainTail ftail} m key l r cl cr :
  slice_wf key -> 0 <= m <= N -> size_bits key < m ->
  rep (m - size_bits key - 1) cl l -> rep (m - size_bits key - 1) cr r ->
  exists c, make_leaf ctx key m (store_two cl cr) = Ok c /\ rep m c (TFork (slice_bits key) l r).
Proof.
  intros Hk Hm Hsz Hl Hr.
  apply (make_fork_with m key l r cl cr ([], [])); try done; [apply plain_tail_ok | by apply plain_tail | apply stores_two].
Qed.

(** ** Rebuilding a path *)

(** The label that came out of a cell fits into a cell again. *)
Lemma relabelled_fork_fits pc lab rs x y :
  ordinary pc lab rs -> exists b0, append_full builder_new (lab, [x; y]) = Ok b0.
Proof.
  intros Ho. pose proof (cw_len pc (oc_wf _ _ _ Ho)) as Hlen.
  assert (zlen lab = bit_len pc) as Hzl by (rewrite <- (oc_bits _ _ _ Ho); apply zlen_bits_from; lia).
  unfold append_full. cbn [fst snd]. change (DataBuilder.bit_len (inner builder_new)) with 0.
  change (zlen (b_refs builder_new)) with 0. rewrite Hzl. unfold MAX_BIT_LEN.
  destruct (Z.leb_spec (0 + bit_len pc) 1023); [|lia].
  change (0 + zlen [x; y] <=? MAX_REF_COUNT) with true. by eexists.
Qed.

(** A fork under the label of another node of the same length. *)
Lemma build_fork_spec `{!PlainTail ftail} m pc lab rs K x y tx ty :
  0 <= m <= N -> zlen K < m -> is_label m K lab -> ordinary pc lab rs ->
  (canon = true -> label_bits m K = Some lab) ->
  rep (m - zlen K - 1) x tx -> rep (m - zlen K - 1) y ty ->
  exists c, (let! builder := on_data (fun d => store_cell_data d pc) builder_new in
    let! builder := store_reference builder x in
    let! builder := store_reference builder y in build_ext ctx builder) = Ok c /\
  rep m c (TFork K tx ty).
Proof.
  intros Hm HK Hlab Ho Hcan Hx Hy. pose proof (zlen_nonneg K).
  assert (rest_of m (TFork K tx ty) ([], [x; y])) as Hrest by
    (split; [done|]; exists x, y, ([], []); split_and!; [done..|apply plain_tail_ok | by apply plain_tail]).
  destruct (rest_of_fits m _ _ m Hrest) as (_ & _ & Hcs & Hds); [lia | simpl; lia |].
  rewrite (on_data_append _ builder_new lab); [|apply builder_new_wf|]; cycle 1.
  { rewrite store_cell_data_spec, (oc_bits _ _ _ Ho); [done | apply builder_new_wf | apply Ho]. }
  destruct (relabelled_fork_fits pc lab rs x y Ho) as [b0 E].
  assert ((let! builder := append_full builder_new (lab, []) in
    let! builder := store_reference builder x in store_reference builder y) = Ok b0) as E'.
  { rewrite <- E. rewrite (append_bind builder_new (lab, []) ([], [x; y])).
    - simpl. by rewrite app_nil_r.
    - apply builder_new_wf.
    - apply (stores_two x y). }
  destruct (append_full_wf _ _ _ builder_new_wf E) as (Wb & Cb & Rb & Xb).
  pose proof (append_new _ _ E) as Eb.
  change (inner builder_new) with data_new in Cb. rewrite contents_new in Cb. simpl in Cb, Rb, Xb.
  destruct (finalize_law b0 (Dv + m) Wb Xb) as (c & Ec & Hoc & Hokc & Hdc);
    rewrite ?Rb; try done; try lia.
  exists c. rewrite Cb, Rb in Hoc. split.
  - destruct (append_full builder_new (lab, [])) as [b1|]; [|done]. cbn [rbind] in *.
    destruct (store_reference b1 x) as [b2|]; [|done]. cbn [rbind] in *. by rewrite E'.
  - apply (rep_fork m c K tx ty lab x y ([], [])); try done; [apply plain_tail_ok | by apply plain_tail | by rewrite app_nil_r |].
    intros Hc. split; [by apply Hcan|]. cbn [forked fst snd]. rewrite app_nil_r, <- Ec. by subst b0.
Qed.

(** What rebuilding gives for a subtree: here a cell for it. *)
Definition built (m : Z) (t : trie) (res : result Cell) : Prop := exists c, res = Ok c /\ rep m c t.

(** The parent with one child replaced. *)
Lemma rebuild_segment_spec `{!PlainTail ftail} m pc K l r (b : bool) klen t res :
  rep m pc (TFork K l r) -> built (m - zlen K - 1) t res ->
  built m (set_child K l r b t) (let! ch := res in rebuild_segment ctx (mkSegment pc (Branches.from_bit b) klen) ch).
Proof.
  intros Hp (ch & -> & Hch). pose proof (fork_children _ _ _ _ _ Hp) as (cl & cr & _ & Hl & _ & Hr & Rl & Rr).
  apply rep_node in Hp as (Hm & _ & _ & lab & x0 & Hlab & Ho & Hrest & Hmi).
  apply rest_of_plain in Hrest as (HK & cl0 & cr0 & -> & _). simpl in Hlab, HK, Ho. rewrite app_nil_r in Ho.
  cbn [rbind]. unfold rebuild_segment. cbn [sg_next_branch sg_data].
  destruct b; cbn [Branches.from_bit].
  - rewrite Hl. cbn [some_or_underflow rbind]. eapply build_fork_spec; try done. apply Hmi.
  - rewrite Hr. cbn [some_or_underflow rbind]. eapply build_fork_spec; try done. apply Hmi.
Qed.

Lemma owned_of_slice w s : value_slice w s -> value_slice w (apply_allow_exotic (range s) (cell s)).
Proof. by destruct s. Qed.


Lemma rebuild_as_removed_spec m pc K l r (b : bool) klen key ch :
  rep m pc (TFork K l r) -> reference_cloned pc (b2z b) = Some ch -> load_cell ch Resolve = Ok ch ->
  size_bits key = m - zlen K - 1 ->
  let opp := if b then l else r in
  exists c, rebuild_as_removed ctx (mkSegment pc (Branches.from_bit b) klen) key m = Ok (c, ch) /\
            rep m c (set_label (K ++ negb b :: tlabel opp) opp).
Proof.
  intros Hr Hch Hlch Hsz opp. unfold rebuild_as_removed. cbn [sg_next_branch sg_data].
  pose proof (rep_range _ _ _ Hr) as Hm.
  replace (Branches.to_u8 (Branches.from_bit b)) with (b2z b) by (by destruct b).
  rewrite Hch. cbn [some_or_underflow rbind]. rewrite Hlch. cbn [rbind].
  destruct (rep_read _ _ _ Hr) as (pfx & s0 & x0 & -> & Wp & Bp & _ & _ & _ & _ & _ & HK & _). cbn [rbind].
  destruct (fork_child _ _ _ _ _ (negb b) Hr) as (co & Hco & _ & _ & _ & Ro).
  replace (1 - b2z b) with (b2z (negb b)) by (by destruct b). rewrite Hco. cbn [some_or_underflow rbind].
  destruct (rep_load _ _ _ Full Ro) as (_ & -> & Hs). cbn [rbind]. rewrite Hs. cbn [rbind].
  replace (if negb b then r else l) with opp in Ro by (by destruct b).
  destruct (rep_read _ _ _ Ro) as (rem & so & x & Er & Wr & Br & _ & Ws & Bs & _ & Rs & Hrest).
  rewrite Hsz, Er. cbn [rbind]. replace (b2z b =? 0) with (negb b) by (by destruct b).
  pose proof (rep_label_len _ _ _ Ro) as HL. simpl in Bp.
  pose proof (zlen_slice_bits pfx Wp) as Hzp. pose proof (zlen_slice_bits rem Wr) as Hzr.
  rewrite Bp in Hzp. rewrite Br in Hzr. pose proof (zlen_nonneg K). pose proof (zlen_nonneg (tlabel opp)).
  rewrite write_label_parts_spec by (apply builder_new_wf || done || lia). rewrite Bp, Br.
  set (K' := K ++ negb b :: tlabel opp).
  assert (zlen K' = zlen K + 1 + zlen (tlabel opp)) as HK' by (unfold K', zlen; rewrite length_app; simpl; lia).
  destruct (rest_of_fits _ _ _ m Hrest Hm ltac:(lia)) as (Hb & Hrf & Hcs & Hds).
  destruct (build_labelled m K' x (Dv + m) Hm ltac:(lia) Hb Hrf Hcs Hds ltac:(lia))
    as (c & lab & E & Hl & Ho & Hok & Hd & Hmi).
  exists c. split; [|by eapply relabel_rep; try done; lia].
  destruct (label_bits m K') as [lb|]; [|done]. cbn [write_label_result] in *.
  destruct (append_full builder_new (lb, [])) as [b1|] eqn:E1; [|done]. cbn [rbind] in *.
  rewrite store_slice_spec by (done || by eapply append_full_wf; [apply builder_new_wf|]).
  rewrite Bs, Rs. replace (x.1, x.2) with x by (by destruct x).
  destruct (append_full b1 x) as [b2|]; [|done]. cbn [rbind] in *. by rewrite E.
Qed.

(** ** Splitting an edge *)

(** What is left of the key and of the label behind their common prefix, and the node
    for the old value. *)
Lemma split_parts m t x s prefix lcp key P a b K2 k2 :
  0 <= m <= N -> rest_of m t x -> value_slice x s -> slice_wf prefix -> slice_bits prefix = tlabel t ->
  tlabel t = P ++ a :: K2 -> zlen (tlabel t) <= m -> slice_wf lcp -> slice_bits lcp = P ->
  slice_wf key -> size_bits key = m -> slice_bits key = P ++ b :: k2 ->
  exists key' prefix' co, skip_first key (u16 (size_bits lcp + 1)) 0 = Ok key' /\
    load_bit (or_same (skip_first prefix (size_bits lcp) 0) prefix) = Ok (a, prefix') /\
    make_leaf ctx prefix' (size_bits key') (store_into s) = Ok co /\
    rep (size_bits key') co (set_label K2 t) /\
    slice_wf key' /\ slice_bits key' = k2 /\ size_bits key' = m - size_bits lcp - 1 /\
    0 <= size_bits lcp < m /\ 0 <= size_bits key' <= N.
Proof.
  intros Hm Hrest Hs Hp Bp HK HKm Hl Bl Hk Hsz Bk.
  pose proof (zlen_slice_bits lcp Hl) as Hzl. rewrite Bl in Hzl. rewrite <- Hzl.
  pose proof (zlen_nonneg P). pose proof (zlen_nonneg K2).
  assert (forall (L : list bool) y M, zlen (L ++ y :: M) = zlen L + 1 + zlen M) as Hzz
    by (intros; rewrite zlen_app, zlen_cons; lia).
  pose proof (zlen_slice_bits key Hk) as Hzk. rewrite Bk, Hzz in Hzk. rewrite HK, Hzz in HKm.
  rewrite u16_small by lia.
  assert (zlen (P ++ [b]) = zlen P + 1) as Hz1 by (rewrite Hzz; unfold zlen at 2; simpl; lia).
  destruct (skip_front key (P ++ [b]) k2 Hk) as (key' & Ek & [Wk' Bk' _ _] & _);
    [by rewrite <- app_assoc|]. rewrite Hz1 in Ek. rewrite HK in Bp.
  destruct (skip_front prefix P _ Hp Bp) as (p' & Ep & [Wp' Bp' _ _] & _). rewrite Ep. cbn [or_same].
  destruct (load_bit_front p' a K2 Wp' Bp') as (p2 & E2 & [Wp2 Bp2 _ _]).
  pose proof (zlen_slice_bits key' Wk') as Hzk'. pose proof (zlen_slice_bits p2 Wp2) as Hzp2.
  rewrite Bk' in Hzk'. rewrite Bp2 in Hzp2.
  destruct (make_leaf_relabel m t x (size_bits key') p2 (store_into s) Hrest Wp2) as (co & Eo & Ro);
    [lia | lia | rewrite HK, Hzz; lia | by apply stores_slice |]. rewrite Bp2 in Ro.
  exists key', p2, co. split_and!; (done || lia).
Qed.

Lemma split_edge_spec `{!PlainTail ftail} m t x s prefix lcp key P a b K2 k2 value v :
  0 <= m <= N -> rest_of m t x -> value_slice x s -> slice_wf prefix -> slice_bits prefix = tlabel t ->
  tlabel t = P ++ a :: K2 -> zlen (tlabel t) <= m -> slice_wf lcp -> slice_bits lcp = P ->
  slice_wf key -> size_bits key = m -> slice_bits key = P ++ b :: k2 -> stores value v -> vok v ->
  built m (split_trie P a (set_label K2 t) (TLeaf k2 v)) (split_edge ctx s prefix lcp key value).
Proof.
  intros Hm Hrest Hs Hp Bp HK HKm Hl Bl Hk Hsz Bk Hst Hv. unfold split_edge.
  destruct (split_parts m t x s prefix lcp key P a b K2 k2) as
    (key' & p2 & co & -> & E2 & Eo & Ro & Wk' & Bk' & Hz & Hlm & Hkn); [done..|]. cbn [rbind]. rewrite E2. cbn [rbind]. rewrite Eo. cbn [rbind].
  destruct (make_leaf_rep (size_bits key') key' value v Wk') as (cn & -> & Rn); [done..|]. cbn [rbind]. rewrite Bk' in Rn.
  assert (forall y z ty tz, rep (size_bits key') y ty -> rep (size_bits key') z tz ->
    built m (TFork P ty tz) (let! builder := write_label lcp (size_bits key) builder_new in
      let! builder := store_reference builder y in
      let! builder := store_reference builder z in build_ext ctx builder)) as Hfork.
  { intros y z ty tz Hy Hz'. rewrite Hz in Hy, Hz'.
    destruct (make_fork_rep m lcp ty tz y z Hl Hm ltac:(lia) Hy Hz') as (c & Ec & Hrc).
    exists c. rewrite Bl in Hrc. split; [|done]. rewrite Hsz, <- Ec. unfold make_leaf, store_two.
    destruct (write_label lcp m builder_new) as [b1|]; [|done]. cbn [rbind].
    by destruct (store_reference b1 y). }
  destruct a; by apply Hfork.
Qed.

(** ** The descent to a key

    The insertions and removals of plain and augmented dictionaries walk down alike and
    differ in what they do at the end and on the way back: [outcome] is what a rebuilt
    subtree may come to, [rb] rebuilds the parent of a node, [tok] is what is known of the
    leaves. *)
Section Descent.
Context (outcome : Z -> trie -> result Cell -> Prop) (rb : Segment -> Cell -> result Cell) (tok : trie -> Prop).

Definition tok_law : Prop :=
  (forall K l r (b : bool), tok (TFork K l r) -> tok (if b then r else l)) /\ (forall K t, tok t -> tok (set_label K t)).

Fixpoint rebuild_all (segments : list Segment) (leaf : Cell) : result Cell :=
  match segments with
  | [] => Ok leaf
  | last :: segments => let! leaf := rb last leaf in rebuild_all segments leaf
  end.

(** The parent [sg] of a rebuilt child is rebuilt. *)
Definition lifts (m : Z) (K : list bool) (l r : trie) (b : bool) (sg : Segment) : Prop :=
  forall t res, outcome (m - zlen K - 1) t res -> outcome m (set_child K l r b t) (let! ch := res in rb sg ch).

Lemma rebuild_all_cons sg stack (res : result Cell) :
  (let! c := res in rebuild_all (sg :: stack) c) = (let! c := (let! ch := res in rb sg ch) in rebuild_all stack c).
Proof. by destruct res. Qed.

(** *** Insertion *)

(** What is inserted, and how the leaf and the split edge are built *)
Context {W : Type} (wval : W -> payload) (wok : W -> Prop) (mkleaf : CellSlice -> Z -> W -> result Cell)
  (mksplit : CellSlice -> CellSlice -> CellSlice -> CellSlice -> W -> result Cell).

Definition leaf_law : Prop := forall m prefix w,
  slice_wf prefix -> 0 <= m <= N -> size_bits prefix = m -> wok w ->
  outcome m (TLeaf (slice_bits prefix) (wval w)) (mkleaf prefix m w).
Definition split_law : Prop := forall m t x s prefix lcp key P a b K2 k2 w,
  0 <= m <= N -> rest_of m t x -> value_slice x s -> slice_wf prefix -> slice_bits prefix = tlabel t ->
  tlabel t = P ++ a :: K2 -> zlen (tlabel t) <= m -> slice_wf lcp -> slice_bits lcp = P ->
  slice_wf key -> size_bits key = m -> slice_bits key = P ++ b :: k2 -> a <> b -> tok t -> wok w ->
  outcome m (split_trie P a (set_label K2 t) (TLeaf k2 (wval w))) (mksplit s prefix lcp key w).
Definition lift_law : Prop := forall m c K l r b, rep m c (TFork K l r) -> lifts m K l r b (mkSegment c (Branches.from_bit b) m).

(** The stack leads from the start (with its stack) to the cell of the value. *)
Definition on_top (stack0 : list Segment) (c : Cell) (s : CellSlice) (stack : list Segment) : Prop :=
  load_cell (cell s) Resolve = Ok (cell s) /\
  (stack = stack0 /\ cell s = c \/
   exists sg st, stack = sg :: st /\
     reference_cloned (sg_data sg) (Branches.to_u8 (sg_next_branch sg)) = Some (cell s)).

(** A new subtree with [k] set: [mk] builds it at the end of the path. *)
Definition sets (m : Z) (t : trie) (k : list bool) (stack0 stack : list Segment) (mk : W -> result Cell) : Prop :=
  forall w, wok w -> exists res t', outcome m t' res /\ updated t k (Some (wval w)) t' /\
    (let! leaf := mk w in rebuild_all stack leaf) = (let! c := res in rebuild_all stack0 c).

Definition insert_result (m : Z) (c : Cell) (t : trie) (k : list bool) (stack0 : list Segment)
    (r : result (found * list Segment)) : Prop :=
  exists f stack, r = Ok (f, stack) /\
  match f with
  | FoundLeaf s prefix key =>
      (exists v0, tget t k = Some v0 /\ value_slice v0 s /\ on_top stack0 c s stack) /\
      sets m t k stack0 stack (mkleaf prefix (size_bits key))
  | FoundEdge s prefix lcp key => tget t k = None /\ sets m t k stack0 stack (mksplit s prefix lcp key)
  end.

(** One level up: the result for a child gives the result for the fork. *)
Lemma insert_result_up m c K l r (b : bool) ch k sg stack0 res :
  lifts m K l r b sg -> reference_cloned (sg_data sg) (Branches.to_u8 (sg_next_branch sg)) = Some ch ->
  insert_result (m - zlen K - 1) ch (if b then r else l) k (sg :: stack0) res ->
  insert_result m c (TFork K l r) (K ++ b :: k) stack0 res.
Proof.
  intros Hlift Hch (f & stack & -> & H). exists f, stack. split; [done|].
  assert (tget (TFork K l r) (K ++ b :: k) = tget (if b then r else l) k) as Hget
    by (simpl; by rewrite strip_app).
  assert (forall mk, sets (m - zlen K - 1) (if b then r else l) k (sg :: stack0) stack mk ->
    sets m (TFork K l r) (K ++ b :: k) stack0 stack mk) as Hup.
  { intros mk Hmk w Hw. destruct (Hmk w Hw) as (res & t' & Ho & Hu & E). eexists _, (set_child K l r b t').
    split; [by apply Hlift|]. split; [by apply updated_child|]. by rewrite E, rebuild_all_cons. }
  destruct f as [s prefix key|s prefix lcp key]; rewrite Hget.
  - destruct H as [(v0 & ? & ? & Hl & Htop) H]. split; [|by apply Hup]. exists v0. split_and!; [done..|].
    split; [done|]. right. destruct Htop as [[-> <-]|?]; [|done]. by eexists _, _.
  - destruct H as [? H]. split; [done|]. by apply Hup.
Qed.

Context (Htok : tok_law) (Hleaf : leaf_law) (Hsplit : split_law) (Hlift : lift_law).

(** The branches that end the descent: the key ends at the leaf, or parts inside
    the edge. *)
Lemma insert_leaf m c t s x key prefix stack0 :
  rep m c t -> rest_of m t x -> value_slice x s -> cell s = c -> slice_wf prefix ->
  slice_bits prefix = tlabel t -> size_bits key = m -> slice_bits key = tlabel t ->
  zlen (tlabel t) = m ->
  insert_result m c t (slice_bits key) stack0 (Ok (FoundLeaf s prefix key, stack0)).
Proof.
  intros Hr Hrest Hs Cs Wp Bp Hsz Bk Hlen. exists (FoundLeaf s prefix key), stack0. split; [done|].
  pose proof (rep_range _ _ _ Hr). destruct t as [K v0|K l r]; simpl in *; [|lia].
  destruct Hrest as (_ & _ & ->). rewrite Bk. split.
  - exists v0. rewrite bool_decide_true by done. split_and!; [done..|]. split; [|by left].
    rewrite Cs. by apply (rep_load _ _ _ Resolve Hr).
  - intros w Hw. pose proof (zlen_slice_bits prefix Wp) as Hz. rewrite Bp in Hz. rewrite Hsz.
    eexists _, (TLeaf K (wval w)). split; [|split; [apply updated_leaf | done]]. rewrite <- Bp. apply Hleaf; (done || lia).
Qed.

Lemma insert_edge m c t s x key prefix lcp stack0 P a b K2 k2 :
  rep m c t -> rest_of m t x -> value_slice x s -> slice_wf prefix ->
  slice_bits prefix = tlabel t -> slice_wf key -> size_bits key = m -> slice_wf lcp ->
  slice_bits lcp = P -> tlabel t = P ++ a :: K2 -> slice_bits key = P ++ b :: k2 -> a <> b -> tok t ->
  insert_result m c t (slice_bits key) stack0 (Ok (FoundEdge s prefix lcp key, stack0)).
Proof.
  intros Hr Hrest Hs Wp Bp Wk Hsz Wl Bl HK Bk Hab Ht. exists (FoundEdge s prefix lcp key), stack0.
  split; [done|]. rewrite Bk. split.
  - destruct (tget t (P ++ b :: k2)) as [w|] eqn:Eg; [|done]. apply tget_prefix in Eg as [r Er].
    rewrite HK, <- app_assoc in Er. apply app_inv_head in Er. injection Er as ->. done.
  - intros w Hw. eexists _, (split_trie P a (set_label K2 t) (TLeaf k2 (wval w))).
    split; [|split; [by apply updated_split | done]].
    eapply (Hsplit m t x); try done; [by eapply rep_range | by eapply rep_label_len].
Qed.

Lemma insert_loop_spec m c t fuel key stack0 :
  rep m c t -> tok t -> slice_wf key -> size_bits key = m -> m < Z.of_nat fuel ->
  insert_result m c t (slice_bits key) stack0 (insert_loop ctx fuel c key stack0).
Proof.
  revert m c fuel key stack0.
  induction t as [K v|K l IHl r IHr]; intros m c fuel key stack0 Hr Ht Hk Hsz Hf;
    pose proof (rep_range _ _ _ Hr) as Hmr; pose proof (rep_label_len _ _ _ Hr) as HKm;
    (destruct fuel as [|fuel]; [lia|]); cbn [insert_loop]; rewrite Hsz;
    destruct (rep_load _ _ _ Resolve Hr) as (_ & _ & ->); cbn [rbind];
    destruct (rep_read _ _ _ Hr) as (ls & s & x & -> & Wl & Bl & Cs & Ws & Bs & Rs & Rcs & Hrest);
    cbn [rbind]; assert (value_slice x s) as Hs by (split_and!; [done..|by eapply rep_plain]);
    pose proof (zlen_slice_bits key Hk) as Hz; rewrite Hsz in Hz;
    pose proof (zlen_slice_bits ls Wl) as Hzl; rewrite Bl in Hzl;
    destruct (lcp_slice key ls Hk Wl) as (Sl & Wlcp & Blcp); rewrite Bl in Sl, Blcp;
    set (lcp := longest_common_data_prefix key ls) in *; clearbody lcp; rewrite Sl, <- Hzl in *;
    cbn [tlabel] in *;
    destruct (lcp_meets (slice_bits key) K) as [rr E|P a b K2 k2 EK Ek Hab|b k2 Ek].
  1,4: rewrite Hz, Z.eqb_refl; rewrite E, zlen_app in HKm;
    rewrite (nil_length_inv rr), app_nil_r in E by (unfold zlen in *; lia);
    eapply insert_leaf; try done; cbn [tlabel]; congruence.
  1,3: assert (zlen P < m /\ zlen P < zlen K) as [HP1 HP2] by
      (rewrite <- Hz, Ek, EK, !zlen_app; unfold zlen; simpl; lia);
    rewrite (proj2 (Z.eqb_neq _ _)), (proj2 (Z.ltb_lt _ _)) by lia;
    eapply (insert_edge m c _ s x key ls lcp stack0 P a b K2 k2); try done; rewrite Blcp, Ek, <- length_zlen; apply take_app_length.
  - exfalso. destruct Hrest as (HK & _ & _). rewrite Ek, zlen_app in Hz. unfold zlen in *. simpl in Hz. lia.
  - destruct Hrest as (HK & _). pose proof (zlen_nonneg K).
    destruct (Z.eqb_spec (zlen K) m); [lia|]. rewrite Z.ltb_irrefl, (fork_count _ _ _ _ _ Hr). cbn match.
    destruct (skip_front key K _ Hk Ek) as (k' & -> & [Wk' Bk' _ _] & _). cbn [or_same].
    destruct (load_bit_front k' b k2 Wk' Bk') as (key' & -> & [Wk Bk _ _]). cbn [rbind].
    destruct (fork_child _ _ _ _ _ b Hr) as (ch & _ & Hch0 & _ & Hcl0 & Hch). rewrite Hch0. cbn [some_or_underflow rbind].
    destruct (rep_load _ _ _ Full Hch) as (_ & -> & _). cbn [rbind]. rewrite Ek.
    apply insert_result_up with ch (mkSegment c (Branches.from_bit b) m); [by apply Hlift | done |]. rewrite <- Bk.
    pose proof (zlen_slice_bits key' Wk) as Hz'. rewrite Bk in Hz'. rewrite Ek, zlen_app in Hz.
    assert (zlen (b :: k2) = 1 + zlen k2) as Hc by (unfold zlen; simpl; lia).
    pose proof (proj1 Htok _ _ _ b Ht). destruct b; [apply IHr | apply IHl]; (done || lia).
Qed.

(** *** Removal *)

(** The removal of [k] below [c]: nothing to do, the leaf itself, or a path whose
    top segment is rebuilt without the leaf. *)
Definition remove_result (m : Z) (c : Cell) (t : trie) (k : list bool) (stack0 : list Segment)
    (prev0 : Z) (r : result (option (list Segment * CellSliceRange * Z * CellSlice))) : Prop :=
  match tget t k with
  | None => r = Ok None
  | Some w => exists stack rg prev key, r = Ok (Some (stack, rg, prev, key)) /\
     (stack = stack0 /\ prev = prev0 /\ t = TLeaf k w /\ size_bits key = m /\
      value_slice w (apply_allow_exotic rg c) \/
      exists last st leaf val res t', stack = last :: st /\
        rebuild_as_removed ctx last key prev = Ok (leaf, val) /\
        value_slice w (apply_allow_exotic rg val) /\ outcome m t' res /\ updated t k None t' /\
        rebuild_all st leaf = (let! c' := res in rebuild_all stack0 c'))
  end.

(** A node without the leaf needs no more than to be built. *)
Definition built_law : Prop := forall m t res, tok t -> built m t res -> outcome m t res.

Context (Hbuilt : built_law).

Lemma remove_result_up m c K l r (b : bool) ch k klen stack0 prev0 res :
  lifts m K l r b (mkSegment c (Branches.from_bit b) klen) -> tok (TFork K l r) ->
  rep m c (TFork K l r) -> reference_cloned c (b2z b) = Some ch -> load_cell ch Resolve = Ok ch ->
  remove_result (m - zlen K - 1) ch (if b then r else l) k
    (mkSegment c (Branches.from_bit b) klen :: stack0) m res ->
  remove_result m c (TFork K l r) (K ++ b :: k) stack0 prev0 res.
Proof.
  intros Hl Ht Hr Hch Hlch. unfold remove_result. cbn [tget]. rewrite strip_app.
  destruct (tget (if b then r else l) k) as [w|]; [|done].
  intros (stack & rg & prev & key & -> & H). exists stack, rg, prev, key. split; [done|]. right.
  destruct H as [(-> & -> & Et & Hsz & Hv)|(last & st & leaf & val & c' & t' & -> & E & Hv & Hc & Hu & Es)].
  - destruct (rebuild_as_removed_spec m c K l r b klen key ch Hr Hch Hlch Hsz) as (c2 & E2 & Hc2).
    eexists _, _, c2, ch, (Ok c2), (set_label (K ++ negb b :: tlabel (if b then l else r)) (if b then l else r)).
    split_and!; [done | done | done | apply Hbuilt; [apply (proj2 Htok); pose proof (proj1 Htok _ _ _ (negb b) Ht) as Hopp; destruct b; exact Hopp | by exists c2] | by eapply removed_merge | done].
  - eexists last, st, leaf, val, _, (set_child K l r b t').
    split_and!; [done | done | done | by apply Hl | by apply updated_child |]. by rewrite Es, rebuild_all_cons.
Qed.

Lemma remove_loop_spec m c t fuel key stack0 prev0 :
  rep m c t -> tok t -> slice_wf key -> size_bits key = m -> m < Z.of_nat fuel ->
  remove_result m c t (slice_bits key) stack0 prev0 (remove_loop ctx fuel c key prev0 stack0).
Proof.
  revert m c fuel key stack0 prev0.
  induction t as [K v|K l IHl r IHr]; intros m c fuel key stack0 prev0 Hr Ht Hk Hsz Hf;
    pose proof (rep_range _ _ _ Hr) as Hmr; pose proof (rep_label_len _ _ _ Hr) as HKm;
    (destruct fuel as [|fuel]; [lia|]); cbn [remove_loop]; rewrite Hsz;
    destruct (rep_load _ _ _ Resolve Hr) as (_ & _ & ->); cbn [rbind];
    destruct (rep_read _ _ _ Hr) as (ls & s & x & -> & Wl & Bl & Cs & Ws & Bs & Rs & Rcs & Hrest);
    cbn [rbind]; assert (value_slice x s) as Hs by (split_and!; [done..|by eapply rep_plain]);
    pose proof (zlen_slice_bits key Hk) as Hz; rewrite Hsz in Hz;
    pose proof (zlen_slice_bits ls Wl) as Hzl; rewrite Bl in Hzl;
    destruct (lcp_slice key ls Hk Wl) as (Sl & Wlcp & Blcp); rewrite Bl in Sl, Blcp;
    set (lcp := longest_common_data_prefix key ls) in *; clearbody lcp; rewrite Sl, <- Hzl in *;
    cbn [tlabel] in *;
    destruct (lcp_meets (slice_bits key) K) as [rr E|P a b K2 k2 EK Ek Hab|b k2 Ek].
  2,5: assert (zlen P < m /\ zlen P < zlen K) as [HP1 HP2] by
      (rewrite <- Hz, Ek, EK, !zlen_app; unfold zlen; simpl; lia);
    rewrite (proj2 (Z.eqb_neq _ _)), (proj2 (Z.ltb_lt _ _)) by lia;
    unfold remove_result; destruct (tget _ _) as [w|] eqn:Eg; [|done]; exfalso;
    apply tget_prefix in Eg as [z Ez]; simpl in Ez; rewrite EK, Ek, <- app_assoc in Ez;
    apply app_inv_head in Ez; by injection Ez.
  - rewrite Hz, Z.eqb_refl. destruct Hrest as (HK & _ & ->). unfold remove_result.
    rewrite E, zlen_app in HK. rewrite (nil_length_inv rr), app_nil_r in E by (unfold zlen in *; lia).
    cbn [tget]. rewrite bool_decide_true by done. eexists _, _, _, key. split; [done|]. left.
    split_and!; [done | done | congruence | done |]. rewrite <- Cs. by apply owned_of_slice.
  - exfalso. destruct Hrest as (HK & _ & _). rewrite Ek, zlen_app in Hz. unfold zlen in *. simpl in Hz. lia.
  - exfalso. destruct Hrest as (HK & _). rewrite E, zlen_app in HK. pose proof (zlen_nonneg rr). lia.
  - destruct Hrest as (HK & _). pose proof (zlen_nonneg K).
    destruct (Z.eqb_spec (zlen K) m); [lia|]. rewrite Z.ltb_irrefl, (fork_count _ _ _ _ _ Hr). cbn match.
    destruct (skip_front key K _ Hk Ek) as (k' & -> & [Wk' Bk' _ _] & _). cbn [or_same].
    destruct (load_bit_front k' b k2 Wk' Bk') as (key' & -> & [Wk Bk _ _]). cbn [rbind].
    destruct (fork_child _ _ _ _ _ b Hr) as (ch & _ & Hch0 & Hch & _ & Rch). rewrite Hch0. cbn [some_or_underflow rbind].
    destruct (rep_load _ _ _ Full Rch) as (_ & -> & _). cbn [rbind]. rewrite Ek.
    apply remove_result_up with ch m; [by apply Hlift | done | done | done | by apply (rep_load _ _ _ Resolve Rch) |]. rewrite <- Bk.
    pose proof (zlen_slice_bits key' Wk) as Hz'. rewrite Bk in Hz'. rewrite Ek, zlen_app in Hz.
    assert (zlen (b :: k2) = 1 + zlen k2) as Hc by (unfold zlen; simpl; lia).
    pose proof (proj1 Htok _ _ _ b Ht). destruct b; [apply IHr | apply IHl]; (done || lia).
Qed.

End Descent.

(** ** The operations on dictionaries *)

(** The map a dictionary denotes. *)
Definition dict_rep (n : Z) (dict : option Cell) (M : gmap (list bool) payload) : Prop :=
  match dict with
  | None => M = ∅
  | Some c => exists t, rep n c t /\ forall k, M !! k = tget t k
  end.

Lemma dict_rep_insert n M c t t' k v :
  (forall k, M !! k = tget t k) -> updated t k (Some v) t' -> rep n c t' ->
  dict_rep n (Some c) (<[k := v]> M).
Proof.
  intros HM Hi Hc. exists t'. split; [done|]. intros k'. rewrite Hi, <- HM.
  destruct (decide (k' = k)) as [->|Hne].
  - by rewrite bool_decide_true, lookup_insert_eq.
  - by rewrite bool_decide_false, lookup_insert_ne.
Qed.

Lemma dict_rep_singleton n c k v :
  rep n c (TLeaf k v) -> dict_rep n (Some c) (<[k := v]> ∅).
Proof.
  intros Hc. exists (TLeaf k v). split; [done|].
  intros k'. rewrite insert_empty. simpl. case_bool_decide as Ek; subst.
  - apply lookup_singleton_eq.
  - by apply lookup_singleton_ne.
Qed.

(** *** Plain dictionaries *)

Lemma plain_lift `{!PlainTail ftail} : lift_law built (rebuild_segment ctx).
Proof. intros m c K l r b Hr t res. by apply rebuild_segment_spec. Qed.

Definition plain_leaf (prefix : CellSlice) (n : Z) (w : DynStore * payload) := make_leaf ctx prefix n w.1.
Definition plain_split (s prefix lcp key : CellSlice) (w : DynStore * payload) := split_edge ctx s prefix lcp key w.1.
Definition storable (w : DynStore * payload) : Prop := stores w.1 w.2 /\ vok w.2.

Definition any_trie (t : trie) : Prop := True.
Lemma plain_tok : tok_law any_trie.
Proof. done. Qed.

Lemma plain_leaf_law : leaf_law built snd storable plain_leaf.
Proof. intros m prefix w Wp Hm Hsz [Hw Hok]. by apply make_leaf_rep. Qed.

Lemma plain_split_law `{!PlainTail ftail} : split_law built any_trie snd storable plain_split.
Proof. intros m t x s prefix lcp key P a b K2 k2 w ??????????? ? _ _ [Hw Hok]. by apply (split_edge_spec m t x s prefix lcp key P a b). Qed.

Lemma plain_insert_loop `{!PlainTail ftail} m c t fuel key stack0 :
  rep m c t -> slice_wf key -> size_bits key = m -> m < Z.of_nat fuel ->
  insert_result built (rebuild_segment ctx) snd storable plain_leaf plain_split m c t (slice_bits key) stack0 (insert_loop ctx fuel c key stack0).
Proof. intros ????. by apply (insert_loop_spec built (rebuild_segment ctx) any_trie _ _ _ _ plain_tok plain_leaf_law plain_split_law plain_lift). Qed.

Lemma plain_remove_loop `{!PlainTail ftail} m c t fuel key stack0 prev0 :
  rep m c t -> slice_wf key -> size_bits key = m -> m < Z.of_nat fuel ->
  remove_result built (rebuild_segment ctx) m c t (slice_bits key) stack0 prev0 (remove_loop ctx fuel c key prev0 stack0).
Proof. intros ????. by apply (remove_loop_spec built (rebuild_segment ctx) any_trie plain_tok plain_lift ltac:(by intros m' t' res)). Qed.

(** The node built at the end of the path and the path rebuilt over it, to the root *)
Lemma plain_sets m t k stack mk (value : DynStore) v :
  sets built (rebuild_segment ctx) snd storable m t k [] stack mk -> stores value v -> vok v ->
  exists leaf c t', mk (value, v) = Ok leaf /\ rebuild_dict_from_stack ctx stack leaf = Ok c /\ rep m c t' /\ updated t k (Some v) t'.
Proof.
  intros Hs Hv Hok. destruct (Hs (value, v) (conj Hv Hok)) as (res & t' & (c & -> & Hc) & Hu & E).
  destruct (mk (value, v)) as [leaf|]; [|done]. by exists leaf, c, t'.
Qed.

Context (key : CellSlice) (Hkey : slice_wf key) (Hkn : size_bits key = N).

Lemma dict_get_owned_correct dict M :
  dict_rep N dict M ->
  exists p, dict_get_owned ctx dict N key = Ok p /\ owned_value (M !! slice_bits key) p.
Proof.
  unfold dict_get_owned. rewrite Hkn, Z.eqb_refl. cbn [negb]. destruct dict as [c|]; cbn [dict_rep]; [|intros ->; by exists None].
  intros (t & Hr & ->). destruct (rep_load _ _ _ Full Hr) as (-> & _ & Hs). cbn [rbind].
  rewrite Hs. cbn [rbind].
  pose proof (dict_get_owned_loop_spec N c t (S (Z.to_nat N)) key None Hr Hkey Hkn ltac:(lia)) as HL.
  unfold owned_loop_result in HL. destruct (tget t (slice_bits key)) as [v|]; [|rewrite HL; by exists None].
  destruct HL as (s & prev & -> & Hv & Hl & [[-> <-]|(p & i & -> & Hp)]); cbn [rbind].
  - exists (Some (range s, cell s)). split; [done|]. by destruct s.
  - rewrite Hp. cbn [some_or_underflow rbind]. rewrite Hl. cbn [rbind].
    exists (Some (range s, cell s)). split; [done|]. by destruct s.
Qed.

Lemma dict_get_correct dict M :
  dict_rep N dict M -> lookup_result (M !! slice_bits key) (dict_get ctx dict N key).
Proof.
  unfold dict_get. rewrite Hkn, Z.eqb_refl. cbn [negb]. destruct dict as [c|]; cbn [dict_rep]; [|by intros ->].
  intros (t & Hr & ->). destruct (rep_load _ _ _ Full Hr) as (_ & -> & Hs). cbn [rbind].
  rewrite Hs. cbn [rbind]. rewrite (dict_get_loop_owned _ _ _ None).
  pose proof (dict_get_owned_loop_spec N c t (S (Z.to_nat N)) key None Hr Hkey Hkn ltac:(lia)) as HL.
  unfold owned_loop_result in HL. destruct (tget t (slice_bits key)) as [v|]; cbn [lookup_result]; [|by rewrite HL].
  destruct HL as (s & prev & -> & Hv & _). by exists s.
Qed.

Lemma dict_remove_owned_correct `{!PlainTail ftail} dict M :
  dict_rep N dict M ->
  exists p dict', dict_remove_owned ctx dict key N false = Ok (p, dict') /\
    dict_rep N dict' (delete (slice_bits key) M) /\ owned_value (M !! slice_bits key) p.
Proof.
  unfold dict_remove_owned. rewrite Hkn, Z.eqb_refl. cbn [negb andb].
  destruct dict as [c|]; cbn [dict_rep]; [|intros ->; by exists None, None].
  intros (t & Hr & HM). unfold dict_find_value_to_remove.
  destruct (rep_load _ _ _ Full Hr) as (_ & -> & _). cbn [rbind]. rewrite Hkn.
  pose proof (plain_remove_loop N c t (S (Z.to_nat N)) key [] N Hr Hkey Hkn ltac:(lia)) as HL.
  unfold remove_result in HL. rewrite <- HM in HL.
  destruct (M !! slice_bits key) as [w|] eqn:EM; cycle 1.
  { rewrite HL. exists None, (Some c). split_and!; [done | | done]. rewrite delete_id by done. by exists t. }
  destruct HL as (stack & rg & prev & key' & -> & [(-> & -> & -> & _ & Hw)|
    (last & st & leaf & val & res & t' & -> & E & Hw & (c' & -> & Hc) & Hu & Es)]); cbn [rbind] in *.
  - exists (Some (rg, c)), None. split_and!; [done | | done]. apply map_eq. intros k'.
    rewrite lookup_empty. destruct (decide (k' = slice_bits key)) as [->|Hne]; [apply lookup_delete_eq|].
    rewrite lookup_delete_ne by done. rewrite HM. simpl. by rewrite bool_decide_false.
  - rewrite E. cbn [rbind]. cbn [rebuild_all] in Es. change (rebuild_all _) with (rebuild_dict_from_stack ctx) in Es. rewrite Es.
    exists (Some (rg, val)), (Some c').
    split_and!; [done | | done]. exists t'. split; [done|]. intros k'. rewrite Hu, <- HM.
    destruct (decide (k' = slice_bits key)) as [->|Hne].
    + by rewrite bool_decide_true, lookup_delete_eq.
    + by rewrite bool_decide_false, lookup_delete_ne.
Qed.

(** What insertion does to the map, by mode. *)
Definition insert_map (M : gmap (list bool) payload) (v : payload) (mode : SetMode)
    : bool * gmap (list bool) payload :=
  if match M !! slice_bits key with
     | Some _ => SetModes.can_replace mode
     | None => SetModes.can_add mode
     end
  then (true, <[slice_bits key := v]> M) else (false, M).

Context (value : DynStore) (v : payload) (Hst : stores value v) (Hv : vok v).

Lemma dict_insert_correct `{!PlainTail ftail} dict M mode :
  dict_rep N dict M ->
  exists dict', dict_insert ctx dict key N value mode = Ok ((insert_map M v mode).1, dict') /\
                dict_rep N dict' (insert_map M v mode).2.
Proof.
  unfold dict_insert, insert_map. rewrite Hkn, Z.eqb_refl. cbn [negb].
  destruct dict as [c|]; cbn [dict_rep].
  - intros (t & Hr & HM). destruct (rep_load _ _ _ Full Hr) as (_ & -> & _). cbn [rbind].
    destruct (plain_insert_loop N c t (S (Z.to_nat N)) key [] Hr Hkey Hkn ltac:(lia))
      as (f & stack & -> & Hf). cbn [rbind].
    assert (dict_rep N (Some c) M) as Hsame by (by exists t). rewrite HM.
    destruct f as [s prefix k'|s prefix lcp k'].
    + destruct Hf as [(v0 & -> & _) Hs]. destruct (SetModes.can_replace mode); cbn [negb]; [|by exists (Some c)].
      destruct (plain_sets _ _ _ _ _ _ _ Hs Hst Hv) as (leaf & c' & t' & El' & E & Hc & Hi).
      unfold plain_leaf, plain_split in El'. cbn [fst] in El'. rewrite El'. cbn [rbind]. rewrite E.
      exists (Some c'). split; [done|]. by apply (dict_rep_insert N M c' t t').
    + destruct Hf as [-> Hs]. destruct (SetModes.can_add mode); cbn [negb]; [|by exists (Some c)].
      destruct (plain_sets _ _ _ _ _ _ _ Hs Hst Hv) as (leaf & c' & t' & El' & E & Hc & Hi).
      unfold plain_leaf, plain_split in El'. cbn [fst] in El'. rewrite El'. cbn [rbind]. rewrite E.
      exists (Some c'). split; [done|]. by apply (dict_rep_insert N M c' t t').
  - intros ->. rewrite lookup_empty. destruct (SetModes.can_add mode); [|by exists None].
    destruct (make_leaf_rep N key value v Hkey) as (c & -> & Hc); [lia | done..|]. cbn [rbind].
    exists (Some c). split; [done|]. by apply dict_rep_singleton.
Qed.

(** The stack gives the cell of the value. *)
Lemma insert_last_spec c s stack :
  on_top [] c s stack ->
  exists last, insert_last ctx stack Resolve = Ok last /\ default c last = cell s.
Proof.
  intros [Hl [[-> <-]|(sg & st & -> & Hr)]]; [by exists None|]. exists (Some (cell s)).
  unfold insert_last. rewrite Hr. cbn [some_or_underflow rbind]. by rewrite Hl.
Qed.

(** [dict_insert_owned] also returns the previous value of the key. *)
Lemma dict_insert_owned_correct `{!PlainTail ftail} dict M mode :
  dict_rep N dict M ->
  exists prev dict',
    dict_insert_owned ctx dict key N value mode = Ok ((insert_map M v mode).1, prev, dict') /\
    dict_rep N dict' (insert_map M v mode).2 /\ owned_value (M !! slice_bits key) prev.
Proof.
  unfold dict_insert_owned, insert_map. rewrite Hkn, Z.eqb_refl. cbn [negb].
  destruct dict as [c|]; cbn [dict_rep].
  - intros (t & Hr & HM). destruct (rep_load _ _ _ Full Hr) as (-> & _ & _). cbn [rbind].
    destruct (plain_insert_loop N c t (S (Z.to_nat N)) key [] Hr Hkey Hkn ltac:(lia))
      as (f & stack & -> & Hf). cbn [rbind].
    assert (dict_rep N (Some c) M) as Hsame by (by exists t). rewrite HM.
    destruct f as [s prefix k'|s prefix lcp k'].
    + destruct Hf as [(v0 & -> & Hv0 & Htop) Hs].
      destruct (insert_last_spec _ _ _ Htop) as (last & El & Ed).
      destruct (SetModes.can_replace mode); cbn [negb].
      * destruct (plain_sets _ _ _ _ _ _ _ Hs Hst Hv) as (leaf & c' & t' & El' & E & Hc & Hi).
      unfold plain_leaf, plain_split in El'. cbn [fst] in El'. rewrite El'. cbn [rbind].
        rewrite El. cbn [rbind]. rewrite E, Ed. eexists _, (Some c'). split; [done|].
        split; [by apply (dict_rep_insert N M c' t t') | by apply owned_of_slice].
      * rewrite El. cbn [rbind]. rewrite Ed. eexists _, (Some c).
        split_and!; [done..|by apply owned_of_slice].
    + destruct Hf as [-> Hs]. destruct (SetModes.can_add mode); cbn [negb]; [|by exists None, (Some c)].
      destruct (plain_sets _ _ _ _ _ _ _ Hs Hst Hv) as (leaf & c' & t' & El' & E & Hc & Hi).
      unfold plain_leaf, plain_split in El'. cbn [fst] in El'. rewrite El'. cbn [rbind]. rewrite E.
      exists None, (Some c'). split_and!; [done | by apply (dict_rep_insert N M c' t t') | done].
  - intros ->. rewrite lookup_empty. destruct (SetModes.can_add mode); [|by exists None, None].
    destruct (make_leaf_rep N key value v Hkey) as (c & -> & Hc); [lia | done..|]. cbn [rbind].
    exists None, (Some c). split_and!; [done | | done]. by apply dict_rep_singleton.
Qed.
End Rep.

(** * A dictionary has one tree of cells per map

    Two tries with the same lookups are the same trie, and the cells this library
    builds for a trie are determined by it.  The root cell of a dictionary is
    therefore a function of its map, whatever the order of the operations. *)

(** A leaf holds the rest of the key, and a fork leaves at least one key bit. *)
Inductive trie_ok : Z -> trie -> Prop :=
| ok_leaf m K v : zlen K = m -> trie_ok m (TLeaf K v)
| ok_fork m K l r :
    trie_ok (m - zlen K - 1) l -> trie_ok (m - zlen K - 1) r -> trie_ok m (TFork K l r).

Lemma tget_leaf_Some K v k w : tget (TLeaf K v) k = Some w -> k = K /\ w = v.
Proof. simpl. case_bool_decide; naive_solver. Qed.

Lemma tget_fork_child K l r (b : bool) k : tget (TFork K l r) (K ++ b :: k) = tget (if b then r else l) k.
Proof. simpl. by rewrite strip_app. Qed.

Lemma tget_fork_Some K l r k w :
  tget (TFork K l r) k = Some w -> exists (b : bool) z, k = K ++ b :: z.
Proof.
  simpl. destruct (strip K k) as [[|b z]|] eqn:E; [done| |done].
  apply strip_Some in E as ->. by exists b, z.
Qed.

Lemma trie_inhabited m t : trie_ok m t -> exists k v, tget t k = Some v.
Proof.
  induction 1 as [m K v|m K l r _ [k [v IH]] _ _].
  - exists K, v. simpl. by rewrite bool_decide_true.
  - exists (K ++ false :: k), v. by rewrite tget_fork_child.
Qed.

(** A prefix of two keys that part right after [K] is a prefix of [K]. *)
Lemma prefix_of_fork (K P x y : list bool) :
  P `prefix_of` K ++ false :: x -> P `prefix_of` K ++ true :: y -> P `prefix_of` K.
Proof.
  revert P. induction K as [|a K IH]; intros [|b P] H1 H2; try apply prefix_nil.
  - simpl in *. apply prefix_cons_inv_1 in H1, H2. congruence.
  - simpl in *. pose proof (prefix_cons_inv_1 _ _ _ _ H1) as ->.
    apply prefix_cons, IH; by eapply prefix_cons_inv_2.
Qed.

Lemma fork_labels_prefix m K1 l1 r1 K2 l2 r2 :
  trie_ok m (TFork K1 l1 r1) ->
  (forall k, tget (TFork K1 l1 r1) k = tget (TFork K2 l2 r2) k) -> K2 `prefix_of` K1.
Proof.
  inversion 1 as [|? ? ? ? Hl Hr]; subst. intros E.
  destruct (trie_inhabited _ _ Hl) as (x & v & Ex). destruct (trie_inhabited _ _ Hr) as (y & w & Ey).
  rewrite <- (tget_fork_child K1 l1 r1 false) in Ex. rewrite <- (tget_fork_child K1 l1 r1 true) in Ey.
  rewrite E in Ex, Ey. apply tget_fork_Some in Ex as (b & z & Ex). apply tget_fork_Some in Ey as (b' & z' & Ey).
  apply (prefix_of_fork K1 K2 x y); [rewrite Ex | rewrite Ey]; by eexists.
Qed.

(** A leaf and a fork never agree: the fork has two keys. *)
Lemma leaf_not_fork m K v K2 l r :
  trie_ok m (TFork K2 l r) -> (forall k, tget (TLeaf K v) k = tget (TFork K2 l r) k) -> False.
Proof.
  inversion 1 as [|? ? ? ? Hl Hr]; subst. intros E.
  destruct (trie_inhabited _ _ Hl) as (x & vx & Ex). destruct (trie_inhabited _ _ Hr) as (y & vy & Ey).
  rewrite <- (tget_fork_child K2 l r false), <- E in Ex. rewrite <- (tget_fork_child K2 l r true), <- E in Ey.
  apply tget_leaf_Some in Ex as [Ex _]. apply tget_leaf_Some in Ey as [Ey _].
  rewrite <- Ey in Ex. by apply app_inv_head in Ex.
Qed.

Lemma trie_unique m t1 t2 :
  trie_ok m t1 -> trie_ok m t2 -> (forall k, tget t1 k = tget t2 k) -> t1 = t2.
Proof.
  intros H1. revert t2. induction H1 as [m K v HK|m K l r Hl IHl Hr IHr]; intros t2 H2 E.
  - destruct t2 as [K2 v2|K2 l2 r2]; [|by destruct (leaf_not_fork _ _ _ _ _ _ H2 E)].
    assert (tget (TLeaf K2 v2) K = Some v) as Ek by (rewrite <- E; simpl; by rewrite bool_decide_true).
    by apply tget_leaf_Some in Ek as [-> ->].
  - destruct t2 as [K2 v2|K2 l2 r2].
    { destruct (leaf_not_fork m K2 v2 K l r); [by constructor | done]. }
    assert (K = K2) as <-.
    { apply (anti_symm prefix).
      - by apply (fork_labels_prefix m K2 l2 r2 K l r).
      - by apply (fork_labels_prefix m K l r K2 l2 r2); [constructor|]. }
    inversion H2; subst. f_equal.
    + apply IHl; [done|]. intros k. by rewrite <- (tget_fork_child K l r false), E, tget_fork_child.
    + apply IHr; [done|]. intros k. by rewrite <- (tget_fork_child K l r true), E, tget_fork_child.
Qed.

(** What a fork holds is determined by what is below it. *)
Class UniqueTail (ftail : ForkTail) : Prop := unique_tail : forall l r y y', ftail l r y -> ftail l r y' -> y = y'.
#[global] Instance no_tail_unique : UniqueTail no_tail.
Proof. by intros l r y y' -> ->. Qed.

Section Canon.
Context {ftail : ForkTail} (ctx : CellContext) {laws : ContextLaws ctx} (N Dv : Z).
Lemma rep_trie_ok canon m c t : rep ctx N Dv canon m c t -> trie_ok m t.
Proof. induction 1; by constructor. Qed.

Lemma rep_cell_unique `{!UniqueTail ftail} m c1 c2 t :
  rep ctx N Dv true m c1 t -> rep ctx N Dv true m c2 t -> c1 = c2.
Proof.
  intros H1. revert c2. induction H1 as [m c K v lab ?????? Ho Hm|m c K l r lab cl cr y ?????? Hy Ho Hm _ IHl _ IHr];
    intros c2 Hc2; inversion Hc2 as [? ? ? ? lab2 ?????? Ho2 Hm2|? ? ? ? ? lab2 cl2 cr2 y2 ?????? Hy2 Ho2 Hm2 Hl2 Hr2]; subst.
  - destruct (Hm eq_refl) as [E1 B1], (Hm2 eq_refl) as [E2 B2]. congruence.
  - destruct (Hm eq_refl) as [E1 B1], (Hm2 eq_refl) as [E2 B2].
    apply IHl in Hl2 as ->. apply IHr in Hr2 as ->. rewrite (unique_tail _ _ _ _ Hy Hy2) in B1. congruence.
Qed.

Lemma dict_rep_unique `{!UniqueTail ftail} d1 d2 M :
  dict_rep ctx N Dv true N d1 M -> dict_rep ctx N Dv true N d2 M -> d1 = d2.
Proof.
  unfold dict_rep. destruct d1 as [c1|], d2 as [c2|]; [| | |done].
  - intros (t1 & R1 & E1) (t2 & R2 & E2).
    assert (t1 = t2) as <-.
    { apply (trie_unique N); [by eapply rep_trie_ok..|]. intros k. by rewrite <- E1, <- E2. }
    f_equal. by eapply rep_cell_unique.
  - intros (t1 & R1 & E1) ->. destruct (trie_inhabited N t1) as (k & v & E); [by eapply rep_trie_ok|].
    by rewrite <- E1, lookup_empty in E.
  - intros -> (t2 & R2 & E2). destruct (trie_inhabited N t2) as (k & v & E); [by eapply rep_trie_ok|].
    by rewrite <- E2, lookup_empty in E.
Qed.
End Canon.
