(* ===== verification/DictTheorems.v ===== *)
(** * DictTheorems: dictionaries implement finite maps

    The claims about [src/src/dict/]: every sequence of operations behaves as on
    a finite map from keys to payloads, the resulting root cell depends on the map
    only, and each operation does what its documentation promises on every
    dictionary in the representation, whoever built it. *)

From stdpp Require Import gmap.
From S2P Require Import Prelude Bits DataBuilder DataBuilderSpec CellMeta Cell Slice SliceSpec Builder BuilderSpec Context DictLabel DictLabelSpec Dict DictSpec.

(** ** Sequences of operations *)

(** A call of one of the operations, with its key and value as bits and cells. *)
Inductive dict_op : Type :=
| OpGet (k : list bool)
| OpGetOwned (k : list bool)
| OpInsert (mode : SetMode) (k : list bool) (v : payload)
| OpInsertOwned (mode : SetMode) (k : list bool) (v : payload)
| OpRemove (k : list bool).

(** What the call returns, with slices read to bits and cells. *)
Inductive reply : Type :=
| RValue (o : option payload)
| RDone (changed : bool)
| RPrev (changed : bool) (o : option payload).

Definition key_slice (k : list bool) : CellSlice := as_data_slice (of_bits k).
Definition value_store (v : payload) : DynStore :=
  fun _ b => store_slice b (as_full_slice (from_parts false (of_bits v.1) v.2)).
Definition read_slice (s : CellSlice) : payload := (slice_bits s, slice_references s).
Definition read_owned (p : CellSliceParts) : payload := read_slice (apply_allow_exotic p.1 p.2).

Section Run.
Context {mach : Machine} (ctx : CellContext) (n : Z).

Definition run_op (dict : option Cell) (op : dict_op) : result (reply * option Cell) :=
  match op with
  | OpGet k =>
      let! r := dict_get ctx dict n (key_slice k) in Ok (RValue (read_slice <$> r), dict)
  | OpGetOwned k =>
      let! r := dict_get_owned ctx dict n (key_slice k) in Ok (RValue (read_owned <$> r), dict)
  | OpInsert mode k v =>
      let! (changed, dict) := dict_insert ctx dict (key_slice k) n (value_store v) mode in
      Ok (RDone changed, dict)
  | OpInsertOwned mode k v =>
      let! (changed, prev, dict) :=
        dict_insert_owned ctx dict (key_slice k) n (value_store v) mode in
      Ok (RPrev changed (read_owned <$> prev), dict)
  | OpRemove k =>
      let! (r, dict) := dict_remove_owned ctx dict (key_slice k) n false in
      Ok (RValue (read_owned <$> r), dict)
  end.

Fixpoint run_ops (dict : option Cell) (ops : list dict_op) : result (list reply * option Cell) :=
  match ops with
  | [] => Ok ([], dict)
  | op :: ops =>
      let! (r, dict) := run_op dict op in
      let! (rs, dict) := run_ops dict ops in
      Ok (r :: rs, dict)
  end.
End Run.

(** The same calls on a finite map. *)
Definition spec_insert (M : gmap (list bool) payload) (mode : SetMode) (k : list bool) (v : payload)
    : bool * gmap (list bool) payload :=
  match M !! k, mode with
  | Some _, SetAdd => (false, M)
  | None, SetReplace => (false, M)
  | _, _ => (true, <[k := v]> M)
  end.

Definition spec_op (M : gmap (list bool) payload) (op : dict_op) : reply * gmap (list bool) payload :=
  match op with
  | OpGet k | OpGetOwned k => (RValue (M !! k), M)
  | OpInsert mode k v => (RDone (spec_insert M mode k v).1, (spec_insert M mode k v).2)
  | OpInsertOwned mode k v => (RPrev (spec_insert M mode k v).1 (M !! k), (spec_insert M mode k v).2)
  | OpRemove k => (RValue (M !! k), delete k M)
  end.

Fixpoint spec_ops (M : gmap (list bool) payload) (ops : list dict_op)
    : list reply * gmap (list bool) payload :=
  match ops with
  | [] => ([], M)
  | op :: ops => let '(r, M) := spec_op M op in let '(rs, M) := spec_ops M ops in (r :: rs, M)
  end.

(** ** Lemmas *)

Lemma key_slice_spec k :
  zlen k <= MAX_BIT_LEN ->
  slice_wf (key_slice k) /\ slice_bits (key_slice k) = k /\ size_bits (key_slice k) = zlen k.
Proof.
  intros H. destruct (as_data_slice_spec (of_bits k)) as (W & B & _); [by apply of_bits_wf|].
  rewrite contents_of_bits in B by done. change (as_data_slice (of_bits k)) with (key_slice k) in *.
  split_and!; [done..|]. by rewrite <- zlen_slice_bits, B.
Qed.

Lemma insert_map_spec key M v mode :
  insert_map key M v mode = spec_insert M mode (slice_bits key) v.
Proof. unfold insert_map, spec_insert. by destruct (M !! slice_bits key), mode. Qed.

Lemma read_lookup o r : lookup_result o r -> (let! x := r in Ok (read_slice <$> x)) = Ok o.
Proof.
  destruct o as [v|]; simpl; [|by intros ->].
  intros (s & -> & _ & B & R & _). simpl. unfold read_slice. rewrite B, R. by destruct v.
Qed.

Lemma read_owned_spec o p : owned_value o p -> read_owned <$> p = o.
Proof.
  destruct o as [v|], p as [[rg c]|]; simpl; try done. intros (_ & B & R & _).
  unfold read_owned, read_slice. simpl. rewrite B, R. by destruct v.
Qed.

Section Laws.
Context {mach : Machine} (ctx : CellContext) {laws : ContextLaws ctx} (N Dv : Z) (canon : bool).
Context (HN : 0 <= N) (Hcap : 2 + len_bits N + N <= MAX_BIT_LEN)
  (HDv : 0 <= Dv) (HD : Dv + N <= MAX_DEPTH).

Lemma key_len_range : 0 <= N <= 1023.
Proof.
  unfold MAX_BIT_LEN in Hcap. unfold len_bits in Hcap. pose proof (Z.log2_nonneg N).
  destruct (N =? 0); lia.
Qed.

(** Keys of the dictionary's length and values that fit into a leaf. *)
Definition op_ok (op : dict_op) : Prop :=
  match op with
  | OpGet k | OpGetOwned k | OpRemove k => zlen k = N
  | OpInsert _ k v | OpInsertOwned _ k v => zlen k = N /\ vok ctx N Dv v
  end.

Lemma value_store_spec v : vok ctx N Dv v -> stores ctx (value_store v) v.
Proof.
  intros (Hb & Hr & _) b Wb. unfold value_store, from_parts. pose proof key_len_range.
  pose proof (len_bits_range N key_len_range). pose proof (zlen_nonneg v.1).
  assert (builder_wf (mkBuilder (of_bits v.1) false v.2)) as W by (split; [apply of_bits_wf; lia | done]).
  destruct (as_full_slice_spec _ W) as (Ws & Bs & Rs).
  rewrite store_slice_spec by done. rewrite Bs, Rs. simpl. rewrite contents_of_bits by lia. by destruct v.
Qed.

Lemma run_op_spec dict M op :
  op_ok op -> dict_rep ctx N Dv canon N dict M ->
  exists dict', run_op ctx N dict op = Ok ((spec_op M op).1, dict') /\
                dict_rep ctx N Dv canon N dict' (spec_op M op).2.
Proof.
  intros Hop HM. pose proof key_len_range as HN'.
  assert (exists k, zlen k = N /\ k = match op with
    OpGet k | OpGetOwned k | OpRemove k | OpInsert _ k _ | OpInsertOwned _ k _ => k end) as (k & Hk & Ek)
    by (destruct op; simpl in Hop; eexists; split; (reflexivity || apply Hop || done)).
  destruct (key_slice_spec k) as (W & B & S); [unfold MAX_BIT_LEN; lia|]. rewrite Hk in S.
  destruct op as [k'|k'|mode k' v|mode k' v|k']; simpl in Ek; subst k'; cbn [run_op spec_op fst snd].
  - exists dict. split; [|done].
    pose proof (dict_get_correct ctx N Dv HN' canon (key_slice k) W S dict M HM) as H. rewrite B in H.
    apply read_lookup in H. destruct (dict_get _ _ _ _); simpl in *; congruence.
  - destruct (dict_get_owned_correct ctx N Dv HN' canon (key_slice k) W S dict M HM) as (p & -> & H).
    rewrite B in H. apply read_owned_spec in H. exists dict. split; [|done]. cbn [rbind]. by rewrite H.
  - destruct Hop as [_ Hv]. destruct (dict_insert_correct ctx N Dv HN' Hcap HDv HD canon (key_slice k) W S
      (value_store v) v (value_store_spec v Hv) Hv dict M mode HM) as (dict' & -> & H).
    rewrite insert_map_spec, B in *. by exists dict'.
  - destruct Hop as [_ Hv]. destruct (dict_insert_owned_correct ctx N Dv HN' Hcap HDv HD canon (key_slice k) W S
      (value_store v) v (value_store_spec v Hv) Hv dict M mode HM) as (prev & dict' & -> & H & Ho).
    rewrite insert_map_spec, B in *. apply read_owned_spec in Ho. exists dict'. split; [|done].
    cbn [rbind]. by rewrite Ho.
  - destruct (dict_remove_owned_correct ctx N Dv HN' Hcap HDv HD canon (key_slice k) W S dict M HM)
      as (p & dict' & -> & H & Ho). rewrite B in *. apply read_owned_spec in Ho.
    exists dict'. split; [|done]. cbn [rbind]. by rewrite Ho.
Qed.

Lemma run_ops_spec dict M ops :
  Forall op_ok ops -> dict_rep ctx N Dv canon N dict M ->
  exists dict', run_ops ctx N dict ops = Ok ((spec_ops M ops).1, dict') /\
                dict_rep ctx N Dv canon N dict' (spec_ops M ops).2.
Proof.
  intros H. revert dict M. induction H as [|op ops Hop Hops IH]; intros dict M HM; simpl; [by exists dict|].
  destruct (run_op_spec dict M op Hop HM) as (dict1 & -> & H1). cbn [rbind].
  destruct (spec_op M op) as [r M1]. cbn [fst snd] in *.
  destruct (IH dict1 M1 H1) as (dict2 & -> & H2). cbn [rbind].
  destruct (spec_ops M1 ops) as [rs M2]. cbn [fst snd] in *. by exists dict2.
Qed.
End Laws.

(** ** The claims *)

(** [C1] Starting from the empty dictionary, every sequence of lookups, insertions
    (in the three modes, with and without the previous value) and removals succeeds
    and answers as the same sequence does on a finite map, and the resulting root
    represents the resulting map. *)
Theorem dict_ops_refine_map {mach : Machine} ctx {laws : ContextLaws ctx} n Dv ops :
  0 <= n -> 2 + len_bits n + n <= MAX_BIT_LEN -> 0 <= Dv -> Dv + n <= MAX_DEPTH ->
  Forall (op_ok ctx n Dv) ops ->
  exists dict, run_ops ctx n None ops = Ok ((spec_ops ∅ ops).1, dict) /\
               dict_rep ctx n Dv true n dict (spec_ops ∅ ops).2.
Proof. intros. by apply run_ops_spec. Qed.

(** [C2] The root cell is canonical: two sequences of operations that end in the same
    map end in the same tree of cells, whatever they did in between. *)
Theorem dict_root_canonical {mach : Machine} ctx {laws : ContextLaws ctx} n Dv ops1 ops2 r1 r2 d1 d2 :
  0 <= n -> 2 + len_bits n + n <= MAX_BIT_LEN -> 0 <= Dv -> Dv + n <= MAX_DEPTH ->
  Forall (op_ok ctx n Dv) ops1 -> Forall (op_ok ctx n Dv) ops2 ->
  run_ops ctx n None ops1 = Ok (r1, d1) -> run_ops ctx n None ops2 = Ok (r2, d2) ->
  (spec_ops ∅ ops1).2 = (spec_ops ∅ ops2).2 ->
  d1 = d2.
Proof.
  intros Hn Hcap HDv HD H1 H2 E1 E2 E.
  destruct (run_ops_spec ctx n Dv true Hn Hcap HDv HD None ∅ ops1 H1) as (d1' & E1' & R1); [done|].
  destruct (run_ops_spec ctx n Dv true Hn Hcap HDv HD None ∅ ops2 H2) as (d2' & E2' & R2); [done|].
  rewrite E1 in E1'. rewrite E2 in E2'. injection E1' as _ <-. injection E2' as _ <-. rewrite E in R1.
  exact (dict_rep_unique ctx n Dv _ _ _ R1 R2).
Qed.

(** Insertion in any mode, into any represented dictionary, by any key slice of
    the right length and any value that stores a fitting payload: it reports whether
    the mode let it change the map, and leaves a dictionary for the changed map. *)
Theorem dict_insert_refines {mach : Machine} ctx {laws : ContextLaws ctx} n Dv canon key value v
    dict M mode :
  0 <= n -> 2 + len_bits n + n <= MAX_BIT_LEN -> 0 <= Dv -> Dv + n <= MAX_DEPTH ->
  slice_wf key -> size_bits key = n -> stores ctx value v -> vok ctx n Dv v ->
  dict_rep ctx n Dv canon n dict M ->
  let '(changed, M') := spec_insert M mode (slice_bits key) v in
  exists dict', dict_insert ctx dict key n value mode = Ok (changed, dict') /\
                dict_rep ctx n Dv canon n dict' M'.
Proof.
  intros Hn Hcap HDv HD Hk Hs Hst Hv HM. rewrite <- insert_map_spec.
  destruct (dict_insert_correct ctx n Dv (key_len_range n Hn Hcap) Hcap HDv HD canon key Hk Hs value v
    Hst Hv dict M mode HM) as (dict' & E & H).
  destruct (insert_map key M v mode) as [changed M']. by exists dict'.
Qed.

(** [dict_insert_owned] makes the same change as [dict_insert] and also returns
    the previous value of the key, as a range of the cell that held it. *)
Theorem dict_insert_owned_refines {mach : Machine} ctx {laws : ContextLaws ctx} n Dv canon key value v
    dict M mode :
  0 <= n -> 2 + len_bits n + n <= MAX_BIT_LEN -> 0 <= Dv -> Dv + n <= MAX_DEPTH ->
  slice_wf key -> size_bits key = n -> stores ctx value v -> vok ctx n Dv v ->
  dict_rep ctx n Dv canon n dict M ->
  let '(changed, M') := spec_insert M mode (slice_bits key) v in
  exists prev dict', dict_insert_owned ctx dict key n value mode = Ok (changed, prev, dict') /\
    dict_rep ctx n Dv canon n dict' M' /\ owned_value (M !! slice_bits key) prev.
Proof.
  intros Hn Hcap HDv HD Hk Hs Hst Hv HM. rewrite <- insert_map_spec.
  destruct (dict_insert_owned_correct ctx n Dv (key_len_range n Hn Hcap) Hcap HDv HD canon key Hk Hs value v
    Hst Hv dict M mode HM) as (prev & dict' & E & H & Ho).
  destruct (insert_map key M v mode) as [changed M']. by exists prev, dict'.
Qed.

(** Removal deletes the key from the map, merging the fork it leaves, and returns
    the removed value; an absent key changes nothing. *)
Theorem dict_remove_refines {mach : Machine} ctx {laws : ContextLaws ctx} n Dv canon key dict M :
  0 <= n -> 2 + len_bits n + n <= MAX_BIT_LEN -> 0 <= Dv -> Dv + n <= MAX_DEPTH ->
  slice_wf key -> size_bits key = n -> dict_rep ctx n Dv canon n dict M ->
  exists p dict', dict_remove_owned ctx dict key n false = Ok (p, dict') /\
    dict_rep ctx n Dv canon n dict' (delete (slice_bits key) M) /\
    owned_value (M !! slice_bits key) p.
Proof.
  intros Hn Hcap HDv HD Hk Hs HM.
  by apply (dict_remove_owned_correct ctx n Dv (key_len_range n Hn Hcap)).
Qed.

(** Both lookups find exactly the keys of the map: the borrowed one returns the
    slice of the value, the owned one the range and the cell it is in. *)
Theorem dict_get_refines {mach : Machine} ctx {laws : ContextLaws ctx} n Dv canon key dict M :
  0 <= n <= 1023 -> slice_wf key -> size_bits key = n -> dict_rep ctx n Dv canon n dict M ->
  lookup_result (M !! slice_bits key) (dict_get ctx dict n key) /\
  exists p, dict_get_owned ctx dict n key = Ok p /\ owned_value (M !! slice_bits key) p.
Proof.
  intros Hn Hk Hs HM. split.
  - by apply (dict_get_correct ctx n Dv Hn canon).
  - by apply (dict_get_owned_correct ctx n Dv Hn canon).
Qed.

(** Every operation rejects a key of the wrong length with [CellUnderflow],
    whatever the dictionary. *)
Theorem dict_key_length_checked {mach : Machine} ctx n key dict value mode :
  size_bits key <> n ->
  dict_get ctx dict n key = Err CellUnderflow /\
  dict_get_owned ctx dict n key = Err CellUnderflow /\
  dict_insert ctx dict key n value mode = Err CellUnderflow /\
  dict_insert_owned ctx dict key n value mode = Err CellUnderflow /\
  dict_remove_owned ctx dict key n false = Err CellUnderflow.
Proof.
  intros H. unfold dict_get, dict_get_owned, dict_insert, dict_insert_owned, dict_remove_owned.
  by rewrite (proj2 (Z.eqb_neq _ _) H).
Qed.

(** ** The claims at concrete inputs

    A dictionary with 8-bit keys under the empty context (any hash function will do
    for the structure; here a constant one): three keys, two values with different
    payloads, one with a reference. *)

Definition sample_sha (_ : list Z) : HashBytes := replicate 32 0.
#[local] Instance sample_machine : Machine := fun _ => 0.
Definition sample_ctx : CellContext := empty_context sample_sha.

Definition key8 (x : Z) : list bool := uint_bits 8 x.
Definition v1 : payload := ([true; false; true], []).
Definition v2 : payload := ([], [EmptyOrdinaryCell]).

Definition ops_a : list dict_op :=
  [OpInsert SetSet (key8 5) v1; OpInsertOwned SetAdd (key8 7) v2; OpInsert SetReplace (key8 9) v1;
   OpInsert SetSet (key8 200) v2; OpGet (key8 7); OpRemove (key8 200); OpGetOwned (key8 200)].
Definition ops_b : list dict_op :=
  [OpInsert SetAdd (key8 7) v2; OpInsert SetSet (key8 5) v2; OpInsert SetSet (key8 5) v1].

Ltac check_ops :=
  repeat constructor; unfold vok; simpl; repeat constructor; vm_compute; (done || (intros; discriminate)).

Lemma ops_a_ok : Forall (op_ok sample_ctx 8 100) ops_a.
Proof. check_ops. Qed.
Lemma ops_b_ok : Forall (op_ok sample_ctx 8 100) ops_b.
Proof. check_ops. Qed.

(** A dictionary with two keys to apply the claims to. *)
Definition sample_map : gmap (list bool) payload := (spec_ops ∅ ops_b).2.

Definition sample_root : option Cell :=
  match run_ops sample_ctx 8 None ops_b with Ok (_, d) => d | Err _ => None end.

Lemma sample_rep canon : dict_rep sample_ctx 8 100 canon 8 sample_root sample_map.
Proof.
  destruct (run_ops_spec sample_ctx 8 100 canon ltac:(done) ltac:(done) ltac:(done) ltac:(done) None ∅ ops_b ops_b_ok)
    as (d & E & H); [done|].
  unfold sample_root. by rewrite E.
Qed.

Lemma dict_ops_refine_map_witness :
  exists dict, run_ops sample_ctx 8 None ops_a =
    Ok ([RDone true; RPrev true None; RDone false; RDone true; RValue (Some v2); RValue (Some v2);
         RValue None], dict) /\
  dict_rep sample_ctx 8 100 true 8 dict (spec_ops ∅ ops_a).2.
Proof. exact (dict_ops_refine_map sample_ctx 8 100 ops_a ltac:(done) ltac:(done) ltac:(done) ltac:(done) ops_a_ok). Defined.

Lemma dict_root_canonical_witness :
  sample_root <> None /\
  exists r, run_ops sample_ctx 8 None ops_a = Ok (r, sample_root).
Proof.
  split; [by vm_compute|].
  destruct (run_ops sample_ctx 8 None ops_a) as [[r d]|] eqn:Ea; [|by vm_compute in Ea].
  destruct (run_ops sample_ctx 8 None ops_b) as [[r' d']|] eqn:Eb; [|by vm_compute in Eb].
  exists r. unfold sample_root. rewrite Eb. do 2 f_equal.
  apply (dict_root_canonical sample_ctx 8 100 ops_a ops_b r r' d d' ltac:(done) ltac:(done) ltac:(done)
    ltac:(done) ops_a_ok ops_b_ok Ea Eb). by vm_compute.
Defined.

Lemma sample_key x : slice_wf (key_slice (key8 x)) /\ size_bits (key_slice (key8 x)) = 8.
Proof. destruct (key_slice_spec (key8 x)) as (? & _ & ?); [by vm_compute | done]. Qed.

Lemma v1_ok : vok sample_ctx 8 100 v1.
Proof. repeat split; simpl; repeat constructor; by vm_compute. Qed.

Lemma v1_stores : stores sample_ctx (value_store v1) v1.
Proof. by apply (value_store_spec sample_ctx 8 100 ltac:(done) ltac:(done)), v1_ok. Qed.

Lemma dict_insert_refines_witness :
  exists dict', dict_insert sample_ctx sample_root (key_slice (key8 7)) 8 (value_store v1) SetReplace =
    Ok (true, dict') /\ dict_rep sample_ctx 8 100 false 8 dict' (<[key8 7 := v1]> sample_map).
Proof.
  exact (dict_insert_refines sample_ctx 8 100 false (key_slice (key8 7)) (value_store v1) v1 sample_root
    sample_map SetReplace ltac:(done) ltac:(done) ltac:(done) ltac:(done) (proj1 (sample_key 7))
    (proj2 (sample_key 7)) v1_stores v1_ok (sample_rep false)).
Defined.

Lemma dict_insert_owned_refines_witness :
  exists prev dict', dict_insert_owned sample_ctx sample_root (key_slice (key8 7)) 8 (value_store v1) SetAdd =
    Ok (false, prev, dict') /\ dict_rep sample_ctx 8 100 false 8 dict' sample_map /\
    owned_value (Some v2) prev.
Proof.
  exact (dict_insert_owned_refines sample_ctx 8 100 false (key_slice (key8 7)) (value_store v1) v1 sample_root
    sample_map SetAdd ltac:(done) ltac:(done) ltac:(done) ltac:(done) (proj1 (sample_key 7))
    (proj2 (sample_key 7)) v1_stores v1_ok (sample_rep false)).
Defined.

Lemma dict_remove_refines_witness :
  exists p dict', dict_remove_owned sample_ctx sample_root (key_slice (key8 5)) 8 false = Ok (p, dict') /\
    dict_rep sample_ctx 8 100 false 8 dict' (delete (key8 5) sample_map) /\ owned_value (Some v1) p.
Proof.
  exact (dict_remove_refines sample_ctx 8 100 false (key_slice (key8 5)) sample_root
    sample_map ltac:(done) ltac:(done) ltac:(done) ltac:(done) (proj1 (sample_key 5))
    (proj2 (sample_key 5)) (sample_rep false)).
Defined.

Lemma dict_get_refines_witness :
  lookup_result (Some v2) (dict_get sample_ctx sample_root 8 (key_slice (key8 7))) /\
  exists p, dict_get_owned sample_ctx sample_root 8 (key_slice (key8 7)) = Ok p /\ owned_value (Some v2) p.
Proof.
  exact (dict_get_refines sample_ctx 8 100 false (key_slice (key8 7)) sample_root sample_map
    ltac:(done) (proj1 (sample_key 7)) (proj2 (sample_key 7)) (sample_rep false)).
Defined.

Lemma dict_key_length_checked_witness :
  dict_get sample_ctx sample_root 9 (key_slice (key8 7)) = Err CellUnderflow.
Proof.
  exact (proj1 (dict_key_length_checked sample_ctx 9 (key_slice (key8 7)) sample_root (value_store v1) SetSet
    ltac:(by vm_compute))).
Defined.
