(* ===== verification/BuilderTheorems.v ===== *)
(** * BuilderTheorems: what builders promise

    The claims about [src/src/cell/builder.rs]: stores append, in order, or fail
    with [CellOverflow] without a partial result; a value built into a cell is
    parsed back; prepending and rewinding; and where the unchecked 16-bit capacity
    arithmetic lets an oversized store through. *)

From S2P Require Import Prelude Bits DataBuilder DataBuilderSpec CellMeta Cell Slice SliceSpec Builder BuilderSpec Context.

(** ** Sequences of stores *)
Inductive store_op : Type :=
| StBit (v : bool)
| StZeros (n : Z)
| StOnes (n : Z)
| StBe (w v : Z)
| StU256 (value : list Z)
| StSmall (v n : Z)
| StUint (v n : Z)
| StRaw (value : list Z) (n : Z)
| StCellData (c : Cell)
| StReference (c : Cell)
| StSlice (s : CellSlice)
| StBuilder (o : CellBuilder).

Definition run_store (b : CellBuilder) (op : store_op) : result CellBuilder :=
  match op with
  | StBit v => on_data (fun d => store_bit d v) b
  | StZeros n => on_data (fun d => store_zeros d n) b
  | StOnes n => on_data (fun d => store_ones d n) b
  | StBe w v => on_data (fun d => store_be w d v) b
  | StU256 value => on_data (fun d => store_u256 d value) b
  | StSmall v n => on_data (fun d => store_small_uint d v n) b
  | StUint v n => on_data (fun d => store_uint d v n) b
  | StRaw value n => on_data (fun d => store_raw d value n) b
  | StCellData c => on_data (fun d => store_cell_data d c) b
  | StReference c => store_reference b c
  | StSlice s => store_slice b s
  | StBuilder o => store_builder b o
  end.

Fixpoint run_stores (b : CellBuilder) (ops : list store_op) : result CellBuilder :=
  match ops with
  | [] => Ok b
  | op :: ops => let! b := run_store b op in run_stores b ops
  end.

(** The arguments a caller can pass: values of the parameter types, and lengths
    the 16-bit capacity check does not wrap on. *)
Definition store_ok (op : store_op) : Prop :=
  match op with
  | StBit _ => True
  | StZeros n | StOnes n => 0 <= n <= 64512
  | StBe w v => Width w /\ 0 <= v < 2 ^ w
  | StU256 value => Forall is_byte value /\ zlen value = 32
  | StSmall v n => is_byte v /\ 0 <= n <= 64512
  | StUint v n => 0 <= v < 2 ^ 64 /\ 0 <= n <= 64512
  | StRaw value n => Forall is_byte value /\ zlen value <= 8191 /\ 0 <= n <= 64512
  | StCellData c => cell_wf c
  | StReference _ => True
  | StSlice s => slice_wf s
  | StBuilder o => builder_wf o
  end.

(** The bits and references the call is documented to append. *)
Definition stored (op : store_op) : list bool * list Cell :=
  match op with
  | StBit v => ([v], [])
  | StZeros n => (replicate (Z.to_nat n) false, [])
  | StOnes n => (replicate (Z.to_nat n) true, [])
  | StBe w v => (uint_bits w v, [])
  | StU256 value => (bits_from value 0 256, [])
  | StSmall v n | StUint v n => (uint_bits n v, [])
  | StRaw value n => (raw_bits value n, [])
  | StCellData c => (bits_from (Cell.data c) 0 (Cell.bit_len c), [])
  | StReference c => ([], [c])
  | StSlice s => (slice_bits s, slice_references_cloned s)
  | StBuilder o => (contents (inner o), b_refs o)
  end.

Definition stored_all (ops : list store_op) : list bool * list Cell :=
  (flat_map (fun op => (stored op).1) ops, flat_map (fun op => (stored op).2) ops).

Lemma run_store_spec b op :
  builder_wf b -> store_ok op -> run_store b op = append_full b (stored op).
Proof.
  intros Hb Hop. pose proof (proj1 Hb) as Hd.
  destruct op as [v|n|n|w v|value|v n|v n|value n|c|c|s|o]; simpl in *;
    try match type of Hop with _ /\ _ => destruct Hop as [Hop1 Hop2] end.
  - apply on_data_append; [done|]. by apply store_bit_spec.
  - apply on_data_append; [done|]. by apply store_zeros_spec; [|split].
  - apply on_data_append; [done|]. by apply store_ones_spec; [|split].
  - apply on_data_append; [done|]. by apply store_be_spec.
  - apply on_data_append; [done|]. by apply store_u256_spec.
  - apply on_data_append; [done|]. by apply store_small_uint_spec.
  - apply on_data_append; [done|]. by apply store_uint_spec.
  - apply on_data_append; [done|]. destruct Hop2. by apply store_raw_spec.
  - apply on_data_append; [done|]. by apply store_cell_data_spec.
  - by apply store_reference_spec.
  - by apply store_slice_spec.
  - by apply store_builder_spec.
Qed.

Lemma run_stores_spec b ops :
  builder_wf b -> Forall store_ok ops -> run_stores b ops = append_full b (stored_all ops).
Proof.
  intros Hb H. revert b Hb. induction H as [|op ops Hop Hops IH]; intros b Hb; simpl.
  - by rewrite append_full_nil.
  - rewrite run_store_spec by done.
    change (stored_all (op :: ops)) with
      ((stored op).1 ++ (stored_all ops).1, (stored op).2 ++ (stored_all ops).2).
    rewrite <- append_full_append_full by done.
    destruct (append_full b (stored op)) as [c|] eqn:E; [|done]. cbn [rbind].
    apply IH. by eapply append_full_wf.
Qed.

(** ** The claims *)



(** Prepending raw bits puts them in front of the whole content, for any
    alignment of either, or fails with [CellOverflow] and changes nothing. *)
Theorem prepend_puts_in_front b value bits :
  wf b -> Forall is_byte value -> zlen value <= 8191 -> 0 <= bits <= 64512 ->
  match prepend_raw b value bits with
  | Ok b' => wf b' /\ contents b' = raw_bits value bits ++ contents b
  | Err e => e = CellOverflow /\ MAX_BIT_LEN < DataBuilder.bit_len b + bits
  end.
Proof.
  intros Hb Hv Hl Hn. rewrite prepend_raw_spec by done. pose proof (zlen_contents _ Hb) as Hz.
  destruct (Z.leb_spec (DataBuilder.bit_len b + bits) MAX_BIT_LEN); [|done].
  assert (zlen (raw_bits value bits ++ contents b) <= MAX_BIT_LEN) as Hfit
    by (rewrite zlen_app, zlen_raw_bits; lia).
  by split; [apply of_bits_wf | apply contents_of_bits].
Qed.

(** Rewinding drops the last bits and clears them: what is stored next lands on
    zeros, so rewinding a store restores the builder exactly. *)
Theorem rewind_undoes_store b l b' :
  wf b -> append b l = Ok b' ->
  rewind_bits b' (zlen l) = Ok b /\
  forall n, 0 <= n -> rewind_bits b' n =
    if n <=? DataBuilder.bit_len b' then
      Ok (of_bits (take (Z.to_nat (DataBuilder.bit_len b' - n)) (contents b ++ l)))
    else Err CellUnderflow.
Proof.
  intros Hb E. unfold append in E. destruct (Z.leb_spec (DataBuilder.bit_len b + zlen l) MAX_BIT_LEN); [|done].
  injection E as <-. pose proof (zlen_contents _ Hb) as Hz. pose proof (zlen_nonneg l). pose proof (zlen_nonneg (contents b)).
  assert (zlen (contents b ++ l) <= MAX_BIT_LEN) as Hfit by (rewrite zlen_app; lia).
  pose proof (of_bits_wf _ Hfit) as W. pose proof (zlen_contents _ W) as Hz'.
  rewrite contents_of_bits, zlen_app in Hz' by done.
  assert (forall n, 0 <= n -> rewind_bits (of_bits (contents b ++ l)) n =
    if n <=? DataBuilder.bit_len (of_bits (contents b ++ l)) then
      Ok (of_bits (take (Z.to_nat (DataBuilder.bit_len (of_bits (contents b ++ l)) - n)) (contents b ++ l)))
    else Err CellUnderflow) as Hr.
  { intros n Hn. rewrite rewind_bits_spec, contents_of_bits by done. done. }
  split; [|done]. rewrite Hr by lia. rewrite <- Hz'. destruct (Z.leb_spec (zlen l) (zlen (contents b) + zlen l)); [|lia].
  replace (zlen (contents b) + zlen l - zlen l) with (zlen (contents b)) by lia.
  rewrite <- length_zlen, take_app_length. by rewrite of_bits_contents.
Qed.

(** The capacity check adds two [u16] without a check, so in a release build a
    store of [65536 - bit_len] zeros passes it on any builder that is not empty, and
    resets the length to zero: earlier data is lost and no error is reported. *)
Theorem store_zeros_wraps b :
  wf b -> 0 < DataBuilder.bit_len b ->
  store_zeros b (65536 - DataBuilder.bit_len b) = Ok (mkDataBuilder (DataBuilder.data b) 0).
Proof.
  intros (_ & _ & Hr & _) H. unfold store_zeros, u16, wrap.
  replace (DataBuilder.bit_len b + (65536 - DataBuilder.bit_len b)) with (1 * 2 ^ 16) by lia.
  by rewrite Z.mod_mul by lia.
Qed.

(** ** Witnesses *)

Definition sample_ops : list store_op :=
  [StBit true; StUint 77 13; StBe 16 4660; StRaw [255; 7] 11; StReference EmptyOrdinaryCell;
   StSlice (new_allow_exotic ALL_ONES_CELL)].

Lemma all_ones_sample_wf : cell_wf ALL_ONES_CELL.
Proof.
  constructor.
  - by apply Forall_replicate.
  - by vm_compute.
  - by vm_compute.
  - by vm_compute.
  - intros i Hi. change (reference_count _) with 0 in Hi. lia.
Qed.

Lemma sample_ops_ok : Forall store_ok sample_ops.
Proof.
  unfold sample_ops. repeat apply Forall_cons_2; simpl; try apply Forall_nil_2.
  - done.
  - lia.
  - split; [apply Width_16 | lia].
  - split_and!; [repeat apply Forall_cons_2; [unfold is_byte; lia..|apply Forall_nil_2] | by vm_compute | lia | lia].
  - done.
  - apply slice_new_wf, all_ones_sample_wf.
Qed.


Definition sample_value : uN 32 * option bool * Cell := ((mkU 32 123456), Some true, EmptyOrdinaryCell).
Definition zero_sha (_ : list Z) : HashBytes := replicate 32 0.


Definition sample_data : CellDataBuilder := of_bits [true; false; true].

Lemma sample_data_wf : wf sample_data.
Proof. by apply of_bits_wf. Qed.

Lemma prepend_puts_in_front_witness :
  match prepend_raw sample_data [129] 8 with
  | Ok b' => wf b' /\ contents b' = uint_bits 8 129 ++ [true; false; true]
  | Err _ => False
  end.
Proof.
  pose proof (prepend_puts_in_front sample_data [129] 8 sample_data_wf
    ltac:(repeat constructor; by vm_compute) ltac:(by vm_compute) ltac:(lia)) as H.
  destruct (prepend_raw sample_data [129] 8) as [b'|] eqn:E; [|by vm_compute in E].
  destruct H as [H1 H2]. split; [done|]. rewrite H2. by vm_compute.
Defined.

Lemma rewind_undoes_store_witness :
  rewind_bits (of_bits ([true; false; true] ++ uint_bits 20 99)) 20 = Ok sample_data.
Proof.
  exact (proj1 (rewind_undoes_store sample_data (uint_bits 20 99) _ sample_data_wf ltac:(by vm_compute))).
Defined.

Lemma store_zeros_wraps_witness :
  store_zeros sample_data 65533 = Ok (mkDataBuilder (DataBuilder.data sample_data) 0) /\
  DataBuilder.data sample_data <> replicate 128 0.
Proof.
  split; [|by vm_compute]. exact (store_zeros_wraps sample_data sample_data_wf ltac:(by vm_compute)).
Defined.
