(* ===== verification/SliceTheorems.v ===== *)
(** * SliceTheorems: what slices promise

    The claims about [src/src/cell/slice.rs]: integer reads, windows, scans and
    comparisons against their definitions on lists of bits, and the bounds check
    of [get_raw] that leaves out the offset. *)

From S2P Require Import Prelude Bits DataBuilder DataBuilderSpec CellMeta Cell Slice SliceSpec SliceScan SliceScanSpec Builder BuilderSpec.

(** ** Windows *)

(** The window of [n] bits from [a] and [k] references from [i]. *)
Definition narrow (s : CellSlice) (a n i k : Z) : CellSlice :=
  let r := range s in
  mkSlice (cell s) (mkRange (bits_start r + a) (bits_start r + a + n)
                            (refs_start r + i) (refs_start r + i + k)).

Definition sub_refs (s : CellSlice) (i k : Z) : list Cell :=
  take (Z.to_nat k) (drop (Z.to_nat i) (slice_references s)).

Lemma take_iter_refs f k n i : (k <= n)%nat -> take k (iter_refs f n i) = iter_refs f k i.
Proof.
  revert n i. induction k as [|k IH]; intros n i Hk; [done|]. destruct n as [|n]; [lia|]. simpl.
  destruct (f i); [|done]. simpl. by rewrite IH by lia.
Qed.

Lemma drop_iter_refs f k n i :
  (k <= n)%nat -> (forall j, i <= j < i + Z.of_nat n -> is_Some (f j)) ->
  drop k (iter_refs f n i) = iter_refs f (n - k) (i + Z.of_nat k).
Proof.
  revert n i. induction k as [|k IH]; intros n i Hk H; [by rewrite drop_0, Z.add_0_r, Nat.sub_0_r|].
  destruct n as [|n]; [lia|]. simpl. destruct (H i) as [c ->]; [lia|]. simpl.
  rewrite IH by (lia || (intros; apply H; lia)). f_equal; lia.
Qed.

Lemma size_refs_eq s : slice_wf s -> size_refs s = refs_end (range s) - refs_start (range s).
Proof. intros H. wf_facts s H. unfold size_refs, Range.size_refs. dlia. Qed.

Lemma narrow_spec s a n i k :
  slice_wf s -> 0 <= a -> 0 <= n -> a + n <= size_bits s -> 0 <= i -> 0 <= k -> i + k <= size_refs s ->
  slice_wf (narrow s a n i k) /\ slice_bits (narrow s a n i k) = sub_bits s a n /\
  slice_references (narrow s a n i k) = sub_refs s i k.
Proof.
  intros H Ha Hn Hb Hi Hk Hr. pose proof (size_bits_eq s H). pose proof (size_refs_eq s H).
  wf_facts s H. split_and!.
  - by constructor; simpl; try lia.
  - rewrite sub_bits_from by done. unfold slice_bits. simpl. f_equal. lia.
  - unfold sub_refs, slice_references, refs_window. simpl.
    rewrite drop_iter_refs, take_iter_refs; [f_equal; lia | lia | lia |].
    intros. apply (slice_refs_some s H). lia.
Qed.

(** The four windows of a split, as the operations compute them. *)
Section Split.
Context (s : CellSlice) (H : slice_wf s) (bits refs : Z).
Context (Hb : 0 <= bits <= 64512) (Hr : 0 <= refs <= 240).

Lemma exceeds_sizes :
  Range.exceeds (range s) bits refs = negb ((bits <=? size_bits s) && (refs <=? size_refs s)).
Proof.
  rewrite exceeds_spec by done. rewrite size_refs_eq by done. zcases; simpl; (done || lia).
Qed.

Lemma split_windows :
  (bits <=? size_bits s) && (refs <=? size_refs s) = true ->
  load_prefix s bits refs = Ok (narrow s 0 bits 0 refs,
    narrow s bits (size_bits s - bits) refs (size_refs s - refs)) /\
  load_suffix s bits refs = Ok (narrow s (size_bits s - bits) bits (size_refs s - refs) refs,
    narrow s 0 (size_bits s - bits) 0 (size_refs s - refs)) /\
  only_first s bits refs = Ok (narrow s 0 bits 0 refs) /\
  only_last s bits refs = Ok (narrow s (size_bits s - bits) bits (size_refs s - refs) refs).
Proof.
  intros E. pose proof exceeds_sizes as Hx. rewrite E in Hx.
  apply andb_true_iff in E as [E1%Z.leb_le E2%Z.leb_le].
  pose proof (size_bits_eq s H) as Eb. pose proof (size_refs_eq s H) as Er. wf_facts s H.
  unfold load_prefix, load_suffix, only_first, only_last, Range.split_prefix, Range.split_suffix,
    Range.only_first, Range.only_last. rewrite Hx. unfold on_range. cbn [negb rbind].
  rewrite !u16_small, !u8_small by lia. unfold narrow. rewrite Eb, Er. split_and!; repeat f_equal; lia.
Qed.
End Split.

Lemma sub_refs_split s i :
  slice_wf s -> 0 <= i <= size_refs s ->
  sub_refs s 0 i ++ sub_refs s i (size_refs s - i) = slice_references s.
Proof.
  intros H Hi. unfold sub_refs. rewrite drop_0.
  rewrite (take_ge (drop _ _)) by (rewrite length_drop; pose proof (zlen_slice_references s H); unfold zlen in *; lia).
  apply take_drop.
Qed.

Lemma sub_bits_split_at s n :
  slice_wf s -> 0 <= n <= size_bits s ->
  sub_bits s 0 n ++ sub_bits s n (size_bits s - n) = slice_bits s.
Proof.
  intros H Hn. unfold sub_bits. rewrite drop_0.
  rewrite (take_ge (drop _ _)) by (rewrite length_drop; pose proof (zlen_slice_bits s H); unfold zlen in *; lia).
  apply take_drop.
Qed.

(** Two slices that partition a third one. *)
Definition partitions (s p r : CellSlice) (bits refs : Z) (front : CellSlice) : Prop :=
  slice_wf p /\ slice_wf r /\ size_bits front = bits /\ size_refs front = refs /\
  slice_bits p ++ slice_bits r = slice_bits s /\
  slice_references p ++ slice_references r = slice_references s.

Lemma narrow_sizes s a n i k :
  0 <= n -> 0 <= k -> size_bits (narrow s a n i k) = n /\ size_refs (narrow s a n i k) = k.
Proof. intros. unfold size_bits, size_refs, Range.size_bits, Range.size_refs. simpl. split; dlia. Qed.

Lemma narrow_partitions s a i (fst : bool) :
  slice_wf s -> 0 <= a <= size_bits s -> 0 <= i <= size_refs s ->
  let p := narrow s 0 a 0 i in
  let r := narrow s a (size_bits s - a) i (size_refs s - i) in
  partitions s p r (if fst then a else size_bits s - a) (if fst then i else size_refs s - i)
    (if fst then p else r).
Proof.
  intros H Ha Hi p r.
  destruct (narrow_spec s 0 a 0 i) as (W1 & B1 & R1); [done | lia..|].
  destruct (narrow_spec s a (size_bits s - a) i (size_refs s - i)) as (W2 & B2 & R2); [done | lia..|].
  fold p in W1, B1, R1. fold r in W2, B2, R2.
  destruct (narrow_sizes s 0 a 0 i) as [S1 T1]; [lia..|].
  destruct (narrow_sizes s a (size_bits s - a) i (size_refs s - i)) as [S2 T2]; [lia..|].
  unfold partitions. rewrite B1, B2, R1, R2. split_and!; try done; [by destruct fst..| |].
  - by apply sub_bits_split_at.
  - by apply sub_refs_split.
Qed.

(** ** Comparisons *)
Section Compare.
Context (addr_eq : Cell -> Cell -> bool) (Haddr : forall a b, addr_eq a b = true -> a = b).
Context (l r : CellSlice) (Hl : slice_wf l) (Hr : slice_wf r).

Lemma lex_test (s : CellSlice) :
  slice_wf s ->
  (let! ord := lex_cmp addr_eq l s in Ok (match ord with Eq => true | _ => false end)) =
    Ok (bool_decide (slice_bits l = slice_bits s)).
Proof.
  intros Hs. rewrite lex_cmp_spec by done. cbn [rbind]. f_equal.
  pose proof (lex_eq (slice_bits l) (slice_bits s)) as E.
  case_bool_decide as D; destruct (lex _ _); naive_solver.
Qed.

Lemma forallb_zip_hashes (a b : list Cell) :
  length a = length b ->
  forallb (fun '(x, y) => bool_decide (repr_hash x = repr_hash y)) (zip a b) =
    bool_decide (repr_hash <$> a = repr_hash <$> b).
Proof.
  revert b. induction a as [|x a IH]; intros [|y b]; simpl; try done. intros [= E].
  rewrite IH, <- bool_decide_and by done. apply bool_decide_ext. unfold fmap. split.
  - intros [E1 E2]. by rewrite E1, E2.
  - intros E1. by injection E1.
Qed.

Lemma contents_eq_spec :
  contents_eq addr_eq l r =
    Ok (bool_decide (slice_bits l = slice_bits r /\
                     repr_hash <$> slice_references l = repr_hash <$> slice_references r)).
Proof.
  unfold contents_eq. rewrite <- !zlen_slice_bits, <- !zlen_slice_references by done.
  destruct (_ || _) eqn:E.
  - rewrite bool_decide_false; [done|]. intros [Eb Er]. rewrite Eb, Z.eqb_refl in E. cbn [negb orb] in E.
    apply (f_equal length) in Er. rewrite !length_fmap in Er. unfold zlen in E. by rewrite Er, Z.eqb_refl in E.
  - apply orb_false_iff in E as [_ E%negb_false_iff%Z.eqb_eq].
    rewrite lex_cmp_spec by done. cbn [rbind]. pose proof (lex_eq (slice_bits l) (slice_bits r)) as Eq.
    destruct (lex _ _).
    + rewrite forallb_zip_hashes by (unfold zlen in E; lia). rewrite (proj1 Eq eq_refl).
      f_equal. repeat case_bool_decide; naive_solver.
    + rewrite bool_decide_false; [done | naive_solver].
    + rewrite bool_decide_false; [done | naive_solver].
Qed.

Lemma size_bits_small s : slice_wf s -> 0 <= size_bits s <= 64512.
Proof. intros H. pose proof (size_bits_range s H). lia. Qed.

Lemma is_data_prefix_of_spec :
  is_data_prefix_of addr_eq l r = Ok (bool_decide (slice_bits l `prefix_of` slice_bits r)).
Proof.
  unfold is_data_prefix_of. pose proof (zlen_slice_bits l Hl) as El. pose proof (zlen_slice_bits r Hr) as Er.
  destruct (Z.ltb_spec (size_bits r) (size_bits l)).
  - rewrite bool_decide_false; [done|]. intros HP%prefix_length. unfold zlen in *. lia.
  - pose proof (size_bits_small l Hl). pose proof (size_refs_range r Hr).
    destruct (split_windows r Hr (size_bits l) 0) as (_ & _ & -> & _); [lia | lia | zcases; (done || lia)|].
    destruct (narrow_spec r 0 (size_bits l) 0 0 Hr) as (W & B & _); [lia..|].
    rewrite lex_test by done. rewrite B. f_equal. apply bool_decide_ext. unfold sub_bits. rewrite drop_0.
    split.
    + intros ->. by eexists; rewrite take_drop.
    + intros [x Ex]. rewrite Ex. rewrite <- El, <- length_zlen. by rewrite take_app_length.
Qed.

Lemma is_data_suffix_of_spec :
  is_data_suffix_of addr_eq l r = Ok (bool_decide (slice_bits l `suffix_of` slice_bits r)).
Proof.
  unfold is_data_suffix_of. pose proof (zlen_slice_bits l Hl) as El. pose proof (zlen_slice_bits r Hr) as Er.
  destruct (Z.ltb_spec (size_bits r) (size_bits l)).
  - rewrite bool_decide_false; [done|]. intros HP%suffix_length. unfold zlen in *. lia.
  - pose proof (size_bits_small l Hl). pose proof (size_refs_range r Hr).
    destruct (split_windows r Hr (size_bits l) 0) as (_ & _ & _ & ->); [lia | lia | zcases; (done || lia)|].
    destruct (narrow_spec r (size_bits r - size_bits l) (size_bits l) (size_refs r - 0) 0 Hr) as (W & B & _); [lia..|].
    rewrite lex_test by done. rewrite B. f_equal. apply bool_decide_ext. unfold sub_bits.
    rewrite take_ge by (rewrite length_drop; unfold zlen in *; lia). split.
    + intros ->. exists (take (Z.to_nat (size_bits r - size_bits l)) (slice_bits r)). by rewrite take_drop.
    + intros [x Ex]. assert (size_bits r - size_bits l = zlen x) as ->.
      { rewrite <- El, <- Er, Ex, zlen_app. lia. }
      rewrite Ex, <- length_zlen. by rewrite drop_app_length.
Qed.
End Compare.

(** ** The claims *)

(** Taking a prefix or a suffix of bits and references splits a slice into two
    well-formed slices of exactly the requested and the remaining size, which together
    hold all of it in order; the in-place operations give the same windows; any
    request beyond the window fails with [CellUnderflow]. *)
Theorem windows_partition s bits refs :
  slice_wf s -> 0 <= bits <= 64512 -> 0 <= refs <= 240 ->
  if (bits <=? size_bits s) && (refs <=? size_refs s) then
    (exists p r, load_prefix s bits refs = Ok (p, r) /\ partitions s p r bits refs p /\
       only_first s bits refs = Ok p /\ skip_first s bits refs = Ok r) /\
    (exists p r, load_suffix s bits refs = Ok (p, r) /\ partitions s r p bits refs p /\
       only_last s bits refs = Ok p /\ skip_last s bits refs = Ok r)
  else
    load_prefix s bits refs = Err CellUnderflow /\ load_suffix s bits refs = Err CellUnderflow /\
    only_first s bits refs = Err CellUnderflow /\ skip_first s bits refs = Err CellUnderflow /\
    only_last s bits refs = Err CellUnderflow /\ skip_last s bits refs = Err CellUnderflow.
Proof.
  intros H Hb Hr. pose proof (exceeds_sizes s H bits refs Hb Hr) as Hx.
  destruct (_ && _) eqn:E; cbn [negb] in Hx.
  - destruct (split_windows s H bits refs Hb Hr E) as (E1 & E2 & E3 & E4).
    apply andb_true_iff in E as [Eb%Z.leb_le Er%Z.leb_le].
    split; eexists _, _; (split; [eassumption|]); split_and!; try eassumption.
    + apply (narrow_partitions s bits refs true); (done || lia).
    + revert E1. unfold load_prefix, skip_first, on_range, Range.split_prefix, Range.skip_first.
      rewrite Hx. cbn [rbind]. unfold narrow. intros E0. injection E0. intros. congruence.
    + pose proof (narrow_partitions s (size_bits s - bits) (size_refs s - refs) false H) as HP.
      cbn zeta in HP. cbn match in HP. replace (size_bits s - (size_bits s - bits)) with bits in HP by lia.
      replace (size_refs s - (size_refs s - refs)) with refs in HP by lia. apply HP; lia.
    + revert E2. unfold load_suffix, skip_last, on_range, Range.split_suffix, Range.skip_last.
      rewrite Hx. cbn [rbind]. unfold narrow. intros E0. injection E0. intros. congruence.
  - unfold load_prefix, load_suffix, only_first, only_last, skip_first, skip_last, on_range,
      Range.split_prefix, Range.split_suffix, Range.only_first, Range.only_last, Range.skip_first, Range.skip_last.
    by rewrite Hx.
Qed.


(** [get_raw] checks its bounds without the offset: on aligned input it returns
    the bytes at [offset], also when they lie outside the window of the slice. *)
Theorem get_raw_ignores_offset s offset target bits :
  slice_wf s -> 0 < bits <= size_bits s -> bits mod 8 = 0 -> bits / 8 <= zlen target ->
  0 <= offset <= 8192 -> (bits_start (range s) + offset) mod 8 = 0 ->
  (bits_start (range s) + offset) / 8 + bits / 8 <= zlen (Cell.data (cell s)) ->
  get_raw s offset target bits =
    Ok (sub_bytes (Cell.data (cell s)) ((bits_start (range s) + offset) / 8) (bits / 8)).
Proof.
  intros H Hb Hm Ht Ho Ha Hd. rewrite size_bits_eq in Hb by done. wf_facts s H. unfold get_raw.
  assert (div_ceil bits 8 = bits / 8) as Hc by dlia.
  rewrite Hc, (proj2 (Z.eqb_neq bits 0)), !u16_small by lia.
  rewrite (proj2 (Z.leb_le (bits_start _ + bits) _)), (proj2 (Z.ltb_ge (zlen target) _)) by lia.
  rewrite Ha, Hm. cbn [Z.eqb negb andb]. rewrite (proj2 (Z.leb_le _ _) Hd). cbn [rbind].
  f_equal. assert (0 <= bits / 8) by dlia.
  apply list_eq. intros i. unfold copy_bytes, sub_bytes. rewrite !drop_0. cbn [take app].
  change (Z.to_nat 0) with 0%nat. cbn [take app]. rewrite Z.add_0_l.
  rewrite (drop_ge (take _ target)), app_nil_r by (rewrite length_take; lia).
  by rewrite take_0, take_take, Nat.min_id.
Qed.

(** [C11] The word-wise scans count what they are documented to count: leading bits,
    trailing bits, and whether all bits are equal, for every alignment of the window
    and every address of the data. *)
Theorem scans_count_bits addr s bit :
  slice_wf s ->
  count_leading addr s bit = Ok (count_lead bit (slice_bits s)) /\
  count_trailing s bit = Ok (count_lead bit (reverse (slice_bits s))) /\
  test_uniform addr s = uniform (slice_bits s).
Proof.
  intros H. split_and!; [by apply count_leading_spec | by apply count_trailing_spec | by apply test_uniform_spec].
Qed.

(** The longest common prefix is the longest list of bits both slices start
    with, wherever the two windows start in their cells; stripping a prefix succeeds
    exactly when it is one, and leaves the rest. *)
Theorem common_prefix_correct s o :
  slice_wf s -> slice_wf o ->
  (let l := longest_common_data_prefix s o in
   slice_wf l /\ slice_bits l `prefix_of` slice_bits s /\ slice_bits l `prefix_of` slice_bits o /\
   forall p, p `prefix_of` slice_bits s -> p `prefix_of` slice_bits o -> zlen p <= size_bits l) /\
  match strip_data_prefix s o with
  | Some r => slice_wf r /\ slice_bits s = slice_bits o ++ slice_bits r
  | None => ~ slice_bits o `prefix_of` slice_bits s
  end.
Proof.
  intros Hs Ho. split; [|by apply strip_data_prefix_spec].
  destruct (lcp_slice s o Hs Ho) as (S & W & B). cbn zeta. split_and!; [done | | |].
  - rewrite B. by eexists; rewrite take_drop.
  - rewrite B. by apply lcp_take_prefix.
  - intros p Hp Hq. rewrite S. by apply lcp_len_max.
Qed.

(** Lexicographic comparison in 32-bit words orders slices as lists of bits, and
    the equality, prefix and suffix tests agree with the tests on lists; it may skip
    the data when both slices start at the same bit of the same cell. *)
Theorem comparisons_correct addr_eq l r :
  (forall a b, addr_eq a b = true -> a = b) -> slice_wf l -> slice_wf r ->
  lex_cmp addr_eq l r = Ok (lex (slice_bits l) (slice_bits r)) /\
  contents_eq addr_eq l r =
    Ok (bool_decide (slice_bits l = slice_bits r /\
                     repr_hash <$> slice_references l = repr_hash <$> slice_references r)) /\
  is_data_prefix_of addr_eq l r = Ok (bool_decide (slice_bits l `prefix_of` slice_bits r)) /\
  is_data_suffix_of addr_eq l r = Ok (bool_decide (slice_bits l `suffix_of` slice_bits r)).
Proof.
  intros Ha Hl Hr. split_and!.
  - by apply lex_cmp_spec.
  - by apply contents_eq_spec.
  - by apply is_data_prefix_of_spec.
  - by apply is_data_suffix_of_spec.
Qed.

(** ** Witnesses *)

(** A cell of 20 bits and two references, and an unaligned window of it. *)
Definition sample_builder : CellBuilder :=
  mkBuilder (of_bits (uint_bits 20 0xabcde)) false [EmptyOrdinaryCell; ALL_ONES_CELL].
Definition sample_slice : CellSlice := as_full_slice sample_builder.
Definition sample_window : CellSlice := narrow sample_slice 3 13 0 2.

Lemma sample_slice_wf : slice_wf sample_slice.
Proof. apply as_full_slice_spec. split; [apply of_bits_wf|]; by vm_compute. Qed.

Lemma sample_window_wf : slice_wf sample_window.
Proof. apply narrow_spec; [apply sample_slice_wf | by vm_compute..]. Qed.

Lemma windows_partition_witness :
  (exists p r, load_prefix sample_window 5 1 = Ok (p, r) /\ partitions sample_window p r 5 1 p /\
     only_first sample_window 5 1 = Ok p /\ skip_first sample_window 5 1 = Ok r) /\
  load_suffix sample_window 14 0 = Err CellUnderflow.
Proof.
  split.
  - exact (proj1 (windows_partition sample_window 5 1 sample_window_wf ltac:(lia) ltac:(lia))).
  - exact (proj1 (proj2 (windows_partition sample_window 14 0 sample_window_wf ltac:(lia) ltac:(lia)))).
Defined.


(** A window on the first byte, read past its end. *)
Lemma get_raw_ignores_offset_witness :
  let s := narrow sample_slice 0 8 0 0 in
  size_bits s = 8 /\ get_raw s 8 [0] 8 = Ok [0xcd].
Proof.
  intros s. split; [by vm_compute|].
  assert (slice_wf s) as W by (apply narrow_spec; [apply sample_slice_wf | by vm_compute..]).
  exact (get_raw_ignores_offset s 8 [0] 8 W ltac:(by vm_compute) ltac:(done) ltac:(by vm_compute)
    ltac:(lia) ltac:(done) ltac:(by vm_compute)).
Defined.

Lemma scans_count_bits_witness :
  count_leading 5 sample_window true = Ok (count_lead true (slice_bits sample_window)) /\
  test_uniform 5 sample_window = None.
Proof.
  split.
  - exact (proj1 (scans_count_bits 5 sample_window true sample_window_wf)).
  - exact (proj2 (proj2 (scans_count_bits 5 sample_window true sample_window_wf))).
Defined.

Lemma common_prefix_correct_witness :
  match strip_data_prefix sample_window (narrow sample_slice 3 5 0 0) with
  | Some r => slice_wf r /\ slice_bits sample_window = slice_bits (narrow sample_slice 3 5 0 0) ++ slice_bits r
  | None => False
  end.
Proof.
  assert (slice_wf (narrow sample_slice 3 5 0 0)) as W
    by (apply narrow_spec; [apply sample_slice_wf | by vm_compute..]).
  exact (proj2 (common_prefix_correct sample_window _ sample_window_wf W)).
Defined.

Lemma comparisons_correct_witness :
  lex_cmp (fun _ _ => false) sample_window sample_slice = Ok Lt /\
  is_data_prefix_of (fun _ _ => false) (narrow sample_slice 0 7 0 0) sample_slice = Ok true.
Proof.
  assert (slice_wf (narrow sample_slice 0 7 0 0)) as W
    by (apply narrow_spec; [apply sample_slice_wf | by vm_compute..]).
  split.
  - exact (proj1 (comparisons_correct (fun _ _ => false) sample_window sample_slice ltac:(done)
      sample_window_wf sample_slice_wf)).
  - exact (proj1 (proj2 (proj2 (comparisons_correct (fun _ _ => false) (narrow sample_slice 0 7 0 0)
      sample_slice ltac:(done) W sample_slice_wf)))).
Defined.
