(* ===== verification/LabelTheorems.v ===== *)
(** * LabelTheorems: the label codec of dictionary edges

    The claims about the label readers and writers of [src/src/dict/mod.rs]: what
    is written is read back, the written form is a shortest one, and a label
    written in parts is the label of the concatenation. *)

From S2P Require Import Prelude Bits DataBuilder DataBuilderSpec CellMeta Cell Slice SliceSpec SliceScan SliceScanSpec Builder BuilderSpec DictLabel DictLabelSpec.

(** ** Lemmas *)

Lemma zlen_hml_short K : zlen (hml_short K) = 2 + 2 * zlen K.
Proof. unfold hml_short, zlen. simpl. rewrite length_app, length_replicate. simpl. lia. Qed.

Lemma zlen_hml_long m K : 0 <= m <= 1023 -> zlen (hml_long m K) = 2 + len_bits m + zlen K.
Proof.
  intros Hm. pose proof (len_bits_range m Hm). unfold hml_long, zlen. simpl.
  rewrite length_app, length_uint_bits. lia.
Qed.

Lemma zlen_hml_same m b n : 0 <= m <= 1023 -> zlen (hml_same m b n) = 3 + len_bits m.
Proof.
  intros Hm. pose proof (len_bits_range m Hm). unfold hml_same, zlen. simpl.
  rewrite length_uint_bits. lia.
Qed.

Lemma label_bits_fits m K l : 0 <= m <= 1023 -> label_bits m K = Some l -> zlen l <= MAX_BIT_LEN.
Proof.
  intros Hm. pose proof (len_bits_range m Hm). unfold label_bits, MAX_BIT_LEN.
  destruct (_ || _); [by intros [= <-]|].
  set (u := if _ && _ then uniform K else None). destruct u.
  - intros [= <-]. rewrite zlen_hml_same by done. lia.
  - destruct (Z.leb_spec (2 + 2 * zlen K) 1023), (Z.leb_spec (2 + len_bits m + zlen K) 1023);
      destruct (2 + 2 * zlen K <=? 2 + len_bits m + zlen K); cbn [andb];
      try done; intros [= <-]; rewrite ?zlen_hml_short, ?zlen_hml_long by done; lia.
Qed.

(** No form is shorter than the chosen one, and if none is chosen none fits. *)
Lemma label_bits_shortest m K l' :
  0 <= m <= 1023 -> zlen K <= m -> is_label m K l' ->
  match label_bits m K with Some l => zlen l <= zlen l' | None => MAX_BIT_LEN < zlen l' end.
Proof.
  intros Hm HK Hl. pose proof (len_bits_range m Hm) as Hw. pose proof (zlen_nonneg K) as HK0.
  assert (1 <= m -> 1 <= len_bits m) as Hw1.
  { intros. unfold len_bits. destruct (Z.eqb_spec m 0); [lia|]. pose proof (Z.log2_nonneg m). lia. }
  assert (zlen l' = 2 + 2 * zlen K \/ 1 <= m /\ zlen l' = 2 + len_bits m + zlen K \/
          1 <= m /\ zlen l' = 3 + len_bits m /\ (zlen K = 0 \/ is_Some (uniform K))) as Hlen.
  { destruct Hl as [|?|b ? E].
    - left. apply zlen_hml_short.
    - right. left. split; [done|]. by apply zlen_hml_long.
    - right. right. split_and!; [done | by apply zlen_hml_same |].
      destruct (decide (K = [])) as [->|]; [by left|]. right. exists b. by apply uniform_replicate. }
  unfold label_bits, MAX_BIT_LEN.
  destruct (Z.eqb_spec m 0) as [->|]; [cbn [orb]; change (zlen [false; false]) with 2; lia|].
  destruct (Z.eqb_spec (zlen K) 0); cbn [orb]; [change (zlen [false; false]) with 2; lia|].
  set (u := if (3 + len_bits m <? 2 + len_bits m + zlen K) && (3 + len_bits m <? 2 + 2 * zlen K)
            then uniform K else None).
  assert (u = None -> is_Some (uniform K) ->
    2 + len_bits m + zlen K <= 3 + len_bits m \/ 2 + 2 * zlen K <= 3 + len_bits m) as Hu.
  { unfold u. destruct (Z.ltb_spec (3 + len_bits m) (2 + len_bits m + zlen K)); [|lia].
    destruct (Z.ltb_spec (3 + len_bits m) (2 + 2 * zlen K)); [|lia].
    cbn [andb]. intros -> [? ?]. done. }
  destruct u as [b|] eqn:Eu.
  - rewrite zlen_hml_same by done. unfold u in Eu.
    destruct (Z.ltb_spec (3 + len_bits m) (2 + len_bits m + zlen K)); [|done].
    destruct (Z.ltb_spec (3 + len_bits m) (2 + 2 * zlen K)); [|done].
    destruct Hlen as [?|[?|(? & ? & _)]]; lia.
  - specialize (Hu eq_refl).
    destruct (Z.leb_spec (2 + 2 * zlen K) 1023), (Z.leb_spec (2 + 2 * zlen K) (2 + len_bits m + zlen K)),
      (Z.leb_spec (2 + len_bits m + zlen K) 1023); cbn [andb];
      rewrite ?zlen_hml_short, ?zlen_hml_long by done;
      (destruct Hlen as [?|[?|(? & ? & [?|Hs])]]; [lia..|specialize (Hu Hs); lia]).
Qed.

(** ** The claims *)

(** [C9] A label that was written is read back: the reader returns the label's bits
    and leaves exactly what was stored behind it, bits and references. *)
Theorem label_roundtrip {mach : Machine} key m rest b :
  slice_wf key -> slice_wf rest -> 0 <= m <= 1023 -> size_bits key <= m ->
  (let! b := write_label key m builder_new in store_slice b rest) = Ok b ->
  exists lab s', read_label (as_full_slice b) m = Ok (lab, s') /\
    slice_bits lab = slice_bits key /\ slice_bits s' = slice_bits rest /\
    slice_references_cloned s' = slice_references_cloned rest.
Proof.
  intros Hk Hr Hm Hkm. rewrite write_label_spec by (apply builder_new_wf || done).
  destruct (label_bits m (slice_bits key)) as [l|] eqn:El; [|done]. cbn [write_label_result].
  destruct (append_full builder_new (l, [])) as [b1|] eqn:E1; [|done]. cbn [rbind].
  destruct (append_full_wf _ _ _ builder_new_wf E1) as (W1 & C1 & R1 & _).
  rewrite store_slice_spec by done. intros E2.
  destruct (append_full_wf _ _ _ W1 E2) as (W2 & C2 & R2 & _).
  change (inner builder_new) with data_new in C1. rewrite contents_new in C1.
  change (b_refs builder_new) with (@nil Cell) in R1. cbn [fst snd app] in *.
  rewrite C1 in C2. rewrite R1 in R2.
  destruct (as_full_slice_spec b W2) as (Wb & Bb & Rb). rewrite C2 in Bb. rewrite R2 in Rb.
  pose proof (zlen_slice_bits key Hk).
  destruct (read_label_spec m (slice_bits key) Hm ltac:(lia) (as_full_slice b) l (slice_bits rest) Wb)
    as (lab & s' & E & _ & Bl & M); [apply label_bits_is_label; (done || lia) | done |].
  exists lab, s'. split_and!; [done | done | apply M |]. by rewrite (mv_cloned _ _ _ M), Rb.
Qed.

(** The reader accepts every encoding of a label, in any of the three forms and
    not only the one this library writes, and stops right behind it. *)
Theorem label_reader_complete m K s l k :
  0 <= m <= 1023 -> zlen K <= m -> slice_wf s -> is_label m K l -> slice_bits s = l ++ k ->
  exists lab s', read_label s m = Ok (lab, s') /\ slice_bits lab = K /\ slice_wf s' /\
    slice_bits s' = k /\ slice_references s' = slice_references s.
Proof.
  intros Hm HK Hs Hl E. destruct (read_label_spec m K Hm HK s l k Hs Hl E) as (lab & s' & Er & _ & Bl & M).
  exists lab, s'. by split_and!; [| |apply M..].
Qed.

(** The writer picks a shortest encoding, and fails only when no encoding fits
    into a cell. *)
Theorem label_written_shortest {mach : Machine} key m :
  slice_wf key -> 0 <= m <= 1023 -> size_bits key <= m ->
  match write_label key m builder_new with
  | Ok b => is_label m (slice_bits key) (contents (inner b)) /\ b_refs b = [] /\
            forall l, is_label m (slice_bits key) l -> DataBuilder.bit_len (inner b) <= zlen l
  | Err e => e = InvalidData /\ forall l, is_label m (slice_bits key) l -> MAX_BIT_LEN < zlen l
  end.
Proof.
  intros Hk Hm Hkm. rewrite write_label_spec by (apply builder_new_wf || done).
  pose proof (zlen_slice_bits key Hk) as Hz.
  pose proof (label_bits_shortest m (slice_bits key)) as HS.
  destruct (label_bits m (slice_bits key)) as [l|] eqn:El; cbn [write_label_result];
    [|by split; [|intros l' Hl'; apply HS; (done || lia)]].
  assert (is_label m (slice_bits key) l) as Hl by (apply label_bits_is_label; (done || lia)).
  assert (zlen l <= MAX_BIT_LEN) as Hfit by (by apply (label_bits_fits m (slice_bits key))).
  rewrite append_full_new. cbn [fst snd]. rewrite (proj2 (Z.leb_le _ _) Hfit).
  change (zlen (@nil Cell) <=? MAX_REF_COUNT) with true. cbn [andb inner b_refs].
  rewrite contents_of_bits by done. split_and!; [done | done |].
  intros l' Hl'. change (DataBuilder.bit_len (of_bits l)) with (zlen l). apply HS; (done || lia).
Qed.

(** Writing a label as prefix, branch bit and remainder, as removal does when it
    merges an edge, writes what [write_label] writes for the whole label. *)
Theorem label_parts_agree {mach : Machine} pfx bit rem key m b :
  builder_wf b -> slice_wf pfx -> slice_wf rem -> slice_wf key -> 1 <= m <= 1023 ->
  slice_bits key = slice_bits pfx ++ bit :: slice_bits rem -> size_bits key <= m ->
  write_label_parts pfx bit rem m b = write_label key m b.
Proof.
  intros Hb Hp Hr Hk Hm E Hkm. rewrite write_label_spec by (done || lia).
  pose proof (zlen_slice_bits key Hk) as Hz. rewrite E, zlen_app in Hz.
  pose proof (zlen_slice_bits pfx Hp). pose proof (zlen_slice_bits rem Hr).
  assert (zlen (bit :: slice_bits rem) = 1 + zlen (slice_bits rem)) by (unfold zlen; simpl; lia).
  rewrite write_label_parts_spec by (done || lia). by rewrite E.
Qed.

(** ** Witnesses *)

Definition sample_label : list bool := [true; true; true; true; true; true; true; true; true; false].
Definition label_slice : CellSlice := as_data_slice (of_bits sample_label).

Lemma label_slice_wf : slice_wf label_slice.
Proof. apply as_data_slice_spec, of_bits_wf. by vm_compute. Qed.

#[local] Instance zero_machine : Machine := fun _ => 0.

Lemma label_roundtrip_witness :
  exists b lab s', (let! b := write_label label_slice 64 builder_new in store_slice b label_slice) = Ok b /\
    read_label (as_full_slice b) 64 = Ok (lab, s') /\ slice_bits lab = sample_label /\
    slice_bits s' = sample_label /\ slice_references_cloned s' = [].
Proof.
  destruct (let! b := write_label label_slice 64 builder_new in store_slice b label_slice) as [b|] eqn:E;
    [|by vm_compute in E].
  exists b.
  destruct (label_roundtrip label_slice 64 label_slice b label_slice_wf label_slice_wf ltac:(lia)
    ltac:(by vm_compute) E) as (lab & s' & H1 & H2 & H3 & H4).
  exists lab, s'. rewrite H2, H3, H4. split_and!; [done | done | by vm_compute..].
Defined.

Lemma label_reader_complete_witness :
  let s := as_data_slice (of_bits (hml_long 64 sample_label ++ [true; false])) in
  exists lab s', read_label s 64 = Ok (lab, s') /\ slice_bits lab = sample_label /\ slice_wf s' /\
    slice_bits s' = [true; false] /\ slice_references s' = slice_references s.
Proof.
  intros s. apply (label_reader_complete 64 sample_label s (hml_long 64 sample_label) [true; false]).
  - lia.
  - by vm_compute.
  - apply as_data_slice_spec, of_bits_wf. by vm_compute.
  - by constructor.
  - by vm_compute.
Defined.

Lemma label_written_shortest_witness :
  match write_label label_slice 64 builder_new with
  | Ok b => is_label 64 sample_label (contents (inner b)) /\ b_refs b = [] /\
            forall l, is_label 64 sample_label l -> DataBuilder.bit_len (inner b) <= zlen l
  | Err _ => False
  end.
Proof.
  pose proof (label_written_shortest label_slice 64 label_slice_wf ltac:(lia) ltac:(by vm_compute)) as H.
  destruct (write_label label_slice 64 builder_new) as [b|] eqn:E; [|by vm_compute in E].
  assert (slice_bits label_slice = sample_label) as <- by (by vm_compute). exact H.
Defined.

Lemma label_parts_agree_witness :
  let whole := as_data_slice (of_bits (sample_label ++ true :: sample_label)) in
  write_label_parts label_slice true label_slice 64 builder_new = write_label whole 64 builder_new.
Proof.
  intros whole. apply (label_parts_agree label_slice true label_slice whole 64 builder_new);
    [apply builder_new_wf | apply label_slice_wf | apply label_slice_wf | | lia | by vm_compute | by vm_compute].
  apply as_data_slice_spec, of_bits_wf. by vm_compute.
Defined.
