(* ===== verification/CellTheorems.v ===== *)
(** * CellTheorems: descriptors, hashes and finalization

    The claims about [src/src/cell/mod.rs], [cell_impl/] and [cell_context.rs]:
    level masks and descriptors, what the empty context accepts and the hashes and
    depths it computes, absent cells, and virtualization. *)

From S2P Require Import Prelude Bits DataBuilder DataBuilderSpec CellMeta Cell Slice SliceSpec Builder BuilderSpec Context Pieces.

(** ** Lemmas *)

(** The cells whose hash at a level depends on the hash index of the level only:
    all but the virtual ones. *)
Definition indexed (c : Cell) : bool :=
  match c with VirtualCell _ | VirtualCellWrapper _ _ => false | _ => true end.

Lemma indexed_hash c l k :
  indexed c = true -> hash_index (descriptor c) l = hash_index (descriptor c) k ->
  hash c l = hash c k /\ depth c l = depth c k.
Proof.
  destruct c; simpl; try done; intros _ E; unfold level_descr; simpl in *; by rewrite E.
Qed.

(** The yielded level at a hash index has that hash index. *)
Lemma mask_levels_index m l :
  LevelMask.wf m -> 0 <= l <= 3 ->
  exists k, LevelMask.collect 9 (LevelMask.into_iter m) !! Z.to_nat (LevelMask.hash_index m l) = Some k /\
            LevelMask.hash_index m k = LevelMask.hash_index m l.
Proof.
  intros Hm Hl.
  set (P := fun m l : Z =>
    match LevelMask.collect 9 (LevelMask.into_iter m) !! Z.to_nat (LevelMask.hash_index m l) with
    | Some k => LevelMask.hash_index m k =? LevelMask.hash_index m l
    | None => false
    end).
  assert (forallb (fun m => forallb (P m) (seqZ 0 4)) (seqZ 0 8) = true) as H by (vm_compute; reflexivity).
  apply (mask_cases (fun m => forallb (P m) (seqZ 0 4))) in Hm; [|done].
  apply Zrange_forall with (x := l) in Hm; [|lia]. unfold P in Hm.
  destruct (_ !! _) as [k|]; [|done]. exists k. split; [done|]. by apply Z.eqb_eq.
Qed.

(** The first descriptor byte of the absent cell made of a cell with byte [d]. *)
Definition absent_byte (d : Z) : Z := Z.lor (Z.land d Descr.LEVEL_MASK) Descr.ABSENT_MASK.

Lemma absent_byte_idem d : absent_byte (absent_byte d) = absent_byte d.
Proof.
  unfold absent_byte. apply Z.bits_inj'. intros i Hi. rewrite !Z.lor_spec, !Z.land_spec, !Z.lor_spec, !Z.land_spec.
  destruct (Z.testbit d i), (Z.testbit Descr.LEVEL_MASK i), (Z.testbit Descr.ABSENT_MASK i); done.
Qed.

Lemma absent_d1 d :
  0 <= d < 256 ->
  let d' := absent_byte d in
  Z.shiftr d' 5 = Z.shiftr d 5 /\ Descr.is_absent (Descr.new d' 0) = true.
Proof.
  intros Hd d'. assert ((Z.shiftr d' 5 =? Z.shiftr d 5) && Descr.is_absent (Descr.new d' 0) = true) as H.
  { apply (Zrange_forall (fun d => let d' := Z.lor (Z.land d Descr.LEVEL_MASK) Descr.ABSENT_MASK in
      (Z.shiftr d' 5 =? Z.shiftr d 5) && Descr.is_absent (Descr.new d' 0)) 256);
      [vm_compute; reflexivity | lia]. }
  apply andb_true_iff in H as [H%Z.eqb_eq ?]. by split.
Qed.

(** A child at the depth limit stops the loop over the children. *)
Lemma hash_depths_overflow refs lvl dep acc :
  Exists (fun r => 65535 <= depth r lvl) refs -> hash_depths refs lvl dep acc = Err DepthOverflow.
Proof.
  intros H. revert dep acc. induction refs as [|r refs IH]; intros dep acc; [by apply Exists_nil in H|].
  simpl. destruct (Z.ltb_spec 65535 (depth r lvl + 1)); [done|].
  apply Exists_cons in H as [?|H]; [lia|]. by apply IH.
Qed.

(** The greatest depth of a list of children, plus one. *)
Definition depth_above (refs : list Cell) : Z := foldr (fun r d => Z.max (depth r 0 + 1) d) 0 refs.

Lemma hash_depths_value refs dep acc :
  Forall (fun r => depth r 0 < 65535) refs -> 0 <= dep ->
  hash_depths refs 0 dep acc =
    Ok (Z.max dep (depth_above refs), acc ++ flat_map (fun r => to_be_bytes 2 (depth r 0)) refs).
Proof.
  intros H. revert dep acc. induction H as [|r refs Hr _ IH]; intros dep acc Hdep; simpl.
  - by rewrite Z.max_l, app_nil_r.
  - destruct (Z.ltb_spec 65535 (depth r 0 + 1)); [lia|]. rewrite IH by lia.
    f_equal. f_equal; [lia|]. by rewrite <- app_assoc.
Qed.

(** The representation of a level-zero ordinary cell, the bytes its hash is taken of. *)
Definition representation (b : CellBuilder) : list Z :=
  [Descr.compute_d1 LevelMask.EMPTY false (zlen (b_refs b)); Descr.compute_d2 (DataBuilder.bit_len (inner b))] ++
  sub_bytes (tag_last_byte (inner b)) 0 (div_ceil (DataBuilder.bit_len (inner b)) 8) ++
  flat_map (fun r => to_be_bytes 2 (depth r 0)) (b_refs b) ++ flat_map (fun r => hash r 0) (b_refs b).

Lemma children_mask_empty refs :
  Forall (fun r => Descr.level_mask (descriptor r) = 0) refs ->
  foldl (fun m c => LevelMask.bitor m (Descr.level_mask (descriptor c))) LevelMask.EMPTY refs = 0.
Proof.
  change LevelMask.EMPTY with 0. induction 1 as [|r refs Hr _ IH]; simpl; [done|]. by rewrite Hr.
Qed.

Lemma d1_plain n : 0 <= n <= 4 -> Descr.compute_d1 0 false n = n.
Proof.
  intros Hn. assert ((Descr.compute_d1 0 false n =? n) = true) as H.
  { apply (Zrange_forall (fun n => Descr.compute_d1 0 false n =? n) 5); [vm_compute; reflexivity | lia]. }
  by apply Z.eqb_eq.
Qed.

Section Build.
Variable sha256 : list Z -> HashBytes.
Context (b : CellBuilder) (Hb : builder_wf b) (Ho : b_exotic b = false).

Lemma parts_of_plain :
  Forall (fun r => Descr.level_mask (descriptor r) = 0) (b_refs b) ->
  build_parts b = mkParts (DataBuilder.bit_len (inner b))
    (Descr.new (zlen (b_refs b)) (Descr.compute_d2 (DataBuilder.bit_len (inner b)))) 0 (b_refs b)
    (sub_bytes (tag_last_byte (inner b)) 0 (div_ceil (DataBuilder.bit_len (inner b)) 8)).
Proof.
  intros Hm. destruct Hb as [(_ & _ & Hl & _) Hr]. unfold MAX_BIT_LEN, MAX_REF_COUNT in *.
  pose proof (zlen_nonneg (b_refs b)). unfold build_parts. rewrite (children_mask_empty _ Hm), Ho.
  unfold build_level_mask. cbn [andb]. rewrite u8_small, d1_plain, Z.min_l by dlia. done.
Qed.

Lemma plain_descriptor_fields x :
  let d := Descr.new (zlen (b_refs b)) x in
  Descr.level_mask d = 0 /\ Descr.is_exotic d = false.
Proof.
  destruct Hb as [_ Hr]. unfold MAX_REF_COUNT in Hr. pose proof (zlen_nonneg (b_refs b)). intros d.
  destruct (compute_d1_fields 0 false (zlen (b_refs b)) x) as (E1 & E2 & _); [done | lia|].
  by rewrite d1_plain in E1, E2 by lia.
Qed.

Lemma plain_hashes :
  Forall (fun r => Descr.level_mask (descriptor r) = 0) (b_refs b) ->
  Forall (fun r => depth r 0 < 65535) (b_refs b) ->
  compute_hashes sha256 (build_parts b) = Ok [(sha256 (representation b), depth_above (b_refs b))].
Proof.
  intros Hm Hd. destruct (parts_data b Hb) as (Hz & _). rewrite parts_of_plain in * by done.
  destruct (plain_descriptor_fields (Descr.compute_d2 (DataBuilder.bit_len (inner b)))) as [E1 E2].
  cbn zeta in E1, E2. unfold compute_hashes, validate_type. cbn [p_descriptor p_data p_bit_len p_children_mask] in *.
  rewrite Hz, Z.ltb_irrefl, E1, E2. cbn [rbind].
  change (negb (0 =? 0)) with false. cbn match. cbn [hash_levels].
  change (negb (0 =? 0)) with false. cbn [andb].
  unfold hash_level. cbn [CellTypes.is_merkle CellTypes.is_pruned_branch b2z p_references p_descriptor p_data d1 d2].
  change (0 =? 0) with true. cbn match. change (0 + 0) with 0.
  rewrite hash_depths_value by done.
  cbn [rbind]. rewrite Z.max_r; cycle 1.
  { clear. induction (b_refs b) as [|r rs IH]; simpl; lia. }
  change (negb (1 =? 0) && (false || negb (LevelMask.contains 0 1))) with true.
  change (negb (2 =? 0) && (false || negb (LevelMask.contains 0 2))) with true.
  change (negb (3 =? 0) && (false || negb (LevelMask.contains 0 3))) with true.
  cbn match. do 3 f_equal. unfold representation. destruct Hb as [_ Hr].
  unfold MAX_REF_COUNT in Hr. pose proof (zlen_nonneg (b_refs b)). rewrite d1_plain by lia.
  assert (Z.lor (Z.land (d1 (Descr.new (zlen (b_refs b)) (Descr.compute_d2 (DataBuilder.bit_len (inner b)))))
    (unot 8 (Z.lor Descr.LEVEL_MASK Descr.STORE_HASHES_MASK)))
    (u8 (Z.shiftl (LevelMask.from_level 0) 5)) = zlen (b_refs b)) as ->.
  { cbn [d1 Descr.new]. apply Z.eqb_eq.
    apply (Zrange_forall (fun n => Z.lor (Z.land n (unot 8 (Z.lor Descr.LEVEL_MASK Descr.STORE_HASHES_MASK)))
      (u8 (Z.shiftl (LevelMask.from_level 0) 5)) =? n) 5); [vm_compute; reflexivity | lia]. }
  by rewrite <- !app_assoc.
Qed.
End Build.

(** ** The claims *)

(** A level mask iterates over level 0 and exactly the levels it contains, in
    ascending order, and the hash index of a level is the number of non-zero
    contained levels up to it: where iteration finds the level's hash. *)
Theorem level_mask_iteration m l :
  LevelMask.wf m -> 0 <= l <= 3 ->
  LevelMask.collect 9 (LevelMask.into_iter m) =
    base.filter (fun k => LevelMask.contains m k = true) [0; 1; 2; 3] /\
  LevelMask.hash_index m l =
    Z.of_nat (length (base.filter (fun k => LevelMask.contains m k = true) (seqZ 1 l))) /\
  LevelMask.level m = LevelMask.hash_index m 3.
Proof.
  intros Hm Hl. split_and!; [by apply mask_iter_levels | by apply hash_index_count |].
  apply Z.eqb_eq. by apply (mask_cases (fun m => LevelMask.level m =? LevelMask.hash_index m 3)).
Qed.

(** The two descriptor bytes determine the level mask, the exotic flag, the
    number of references, the byte length and the alignment they were computed from,
    and the type byte of an exotic cell determines its type. *)
Theorem descriptor_roundtrip mask exotic refs len t :
  LevelMask.wf mask -> 0 <= refs <= 7 -> 0 <= len <= 1023 ->
  let d := Descr.new (Descr.compute_d1 mask exotic refs) (Descr.compute_d2 len) in
  Descr.level_mask d = mask /\ Descr.is_exotic d = exotic /\ Descr.reference_count d = refs /\
  Descr.store_hashes d = false /\ Descr.byte_len d = div_ceil len 8 /\
  Descr.is_aligned d = (len mod 8 =? 0) /\
  CellTypes.from_byte_exotic (CellTypes.to_byte t) = (if CellTypes.is_exotic t then Some t else None).
Proof.
  intros Hm Hr Hl d. destruct (compute_d1_fields mask exotic refs (Descr.compute_d2 len) Hm Hr) as (? & ? & ? & ?).
  destruct (compute_d2_fields len (Descr.compute_d1 mask exotic refs) Hl) as [? ?].
  split_and!; [done..|apply exotic_byte_roundtrip].
Qed.

(** [C12] Under the empty context an ordinary builder with children of depth at most
    65534 is built into an ordinary cell with the same bits and references, whatever
    the levels of the children. *)
Theorem build_ordinary_succeeds sha256 b D :
  builder_wf b -> b_exotic b = false -> Forall d1_ok (b_refs b) ->
  0 <= D <= MAX_DEPTH -> Forall (fun r => level_depth r + 1 <= D) (b_refs b) ->
  exists c, build_ext (empty_context sha256) b = Ok c /\
    slice_new c = Ok (new_allow_exotic c) /\
    slice_bits (new_allow_exotic c) = contents (inner b) /\
    references c = b_refs b /\ level_depth c <= D.
Proof.
  intros Hb Ho Hr HD Hd. destruct (finalize_empty sha256 b Hb Ho Hr D HD Hd) as (c & E & Hc & _ & Hdep).
  exists c. destruct (ordinary_slice _ _ _ Hc) as (? & ? & ? & ? & ?). by split_and!.
Qed.

(** [C13] The hash and depth of a cell with level-zero children are those of the
    standard representation: descriptors, tagged data, child depths and child hashes
    are hashed in that order, and the depth is one more than the greatest child's.
    The builder of the empty cell gives the static empty cell. *)
Theorem build_hashes_representation sha256 b :
  builder_wf b -> b_exotic b = false ->
  Forall (fun r => Descr.level_mask (descriptor r) = 0) (b_refs b) ->
  Forall (fun r => depth r 0 < 65535) (b_refs b) ->
  exists c, build_ext (empty_context sha256) b = Ok c /\
    if (DataBuilder.bit_len (inner b) =? 0) && (zlen (b_refs b) =? 0) then c = EmptyOrdinaryCell
    else forall l, 0 <= l -> hash c l = sha256 (representation b) /\ depth c l = depth_above (b_refs b).
Proof.
  intros Hb Ho Hm Hd. unfold build_ext. cbn [finalize_cell empty_context].
  rewrite plain_hashes by done. cbn [rbind]. rewrite (parts_of_plain b Hb Ho Hm).
  destruct (plain_descriptor_fields b Hb (Descr.compute_d2 (DataBuilder.bit_len (inner b)))) as [E1 E2].
  cbn zeta in E1, E2. eexists. split; [done|]. unfold make_cell. cbn [p_descriptor].
  rewrite (ordinary_cell_type _ E2). cbn [d1 d2 Descr.new].
  pose proof (zlen_nonneg (b_refs b)). destruct Hb as [(_ & _ & Hl & _) _]. unfold MAX_BIT_LEN in Hl.
  assert ((Descr.compute_d2 (DataBuilder.bit_len (inner b)) =? 0) = (DataBuilder.bit_len (inner b) =? 0)) as ->.
  { apply eqb_true_iff, (Zrange_forall (fun n => eqb (Descr.compute_d2 n =? 0) (n =? 0)) 1024);
      [vm_compute; reflexivity | lia]. }
  rewrite andb_comm. destruct (_ && _); [done|]. intros l Hlv. cbn [hash depth]. unfold level_descr, hash_index.
  rewrite E1. assert (LevelMask.hash_index 0 l = 0) as ->; [|done].
  unfold LevelMask.hash_index. by rewrite Z.land_0_l.
Qed.

(** A child at the depth limit is rejected: no cell deeper than 65535 is built. *)
Theorem build_depth_overflow sha256 b :
  builder_wf b -> b_exotic b = false -> Forall d1_ok (b_refs b) ->
  Exists (fun r => 65535 <= depth r 0) (b_refs b) ->
  build_ext (empty_context sha256) b = Err DepthOverflow.
Proof.
  intros Hb Ho Hr Hd. unfold build_ext. cbn [finalize_cell empty_context].
  destruct (parts_data b Hb) as (Hz & _). destruct (parts_descriptor b Hb Ho Hr) as (Hlm & Hex & _).
  unfold compute_hashes, validate_type. rewrite Hex, Hz, Hlm.
  change (p_bit_len (build_parts b)) with (DataBuilder.bit_len (inner b)).
  rewrite Z.ltb_irrefl. cbn [rbind]. rewrite Z.eqb_refl. cbn [negb hash_levels].
  change (negb (0 =? 0)) with false. cbn [andb]. unfold hash_level.
  change (0 + b2z (CellTypes.is_merkle Ordinary)) with 0.
  rewrite hash_depths_overflow; [done|]. exact Hd.
Qed.

(** What the finalizer requires of an exotic cell with the given type byte. *)
Definition exotic_valid (p : CellParts) : Prop :=
  let mask := Descr.level_mask (p_descriptor p) in
  let level := LevelMask.level mask in
  match CellTypes.from_byte_exotic (byte_at (p_data p) 0) with
  | Some PrunedBranch =>
      level <> 0 /\ p_bit_len p = 16 + level * 272 /\ p_references p = [] /\
      byte_at (p_data p) 1 = mask
  | Some LibraryReference => mask = 0 /\ p_bit_len p = 264 /\ p_references p = []
  | Some MerkleProof =>
      p_bit_len p = 280 /\ mask = LevelMask.virtualize (p_children_mask p) 1 /\
      exists child, p_references p = [child] /\ hash child 0 = sub_bytes (p_data p) 1 32 /\
        depth child 0 = from_be_bytes (sub_bytes (p_data p) 33 2)
  | Some MerkleUpdate =>
      p_bit_len p = 552 /\ mask = LevelMask.virtualize (p_children_mask p) 1 /\
      exists old new, p_references p = [old; new] /\
        hash old 0 = sub_bytes (p_data p) 1 32 /\ hash new 0 = sub_bytes (p_data p) 33 32 /\
        depth old 0 = from_be_bytes (sub_bytes (p_data p) 65 2) /\
        depth new 0 = from_be_bytes (sub_bytes (p_data p) 67 2)
  | _ => False
  end.

Lemma two_bytes l i :
  0 <= i -> i + 2 <= zlen l -> [byte_at l i; byte_at l (i + 1)] = sub_bytes l i 2.
Proof.
  intros Hi Hl. unfold sub_bytes, byte_at, zlen in *.
  destruct (lookup_lt_is_Some_2 l (Z.to_nat i)) as [x Ex]; [lia|].
  destruct (lookup_lt_is_Some_2 l (Z.to_nat (i + 1))) as [y Ey]; [lia|].
  rewrite Ex, Ey, (drop_S l x (Z.to_nat i)), (drop_S l y (S (Z.to_nat i))) by (rewrite <- ?Ey; done || (f_equal; lia)).
  done.
Qed.

Lemma zlen_0 {A} (l : list A) : zlen l = 0 -> l = [].
Proof. intros. apply nil_length_inv. unfold zlen in *. lia. Qed.

Lemma zlen_1 {A} (l : list A) : zlen l = 1 -> exists x, l = [x].
Proof. destruct l as [|x [|y l]]; unfold zlen; simpl; try lia. by exists x. Qed.

Lemma zlen_2 {A} (l : list A) : zlen l = 2 -> exists x y, l = [x; y].
Proof. destruct l as [|x [|y [|z l]]]; unfold zlen; simpl; try lia. by exists x, y. Qed.

(** Splits the failed guards [negb (a =? b) || ... = false]. *)
Ltac guards H :=
  repeat match type of H with
  | _ || _ = false => let H' := fresh "G" in apply orb_false_iff in H as [H' H]; guards H'
  | negb _ = false => apply negb_false_iff in H
  | (_ =? _) = true => apply Z.eqb_eq in H
  | (_ <? _) = false => apply Z.ltb_ge in H
  | bool_decide _ = true => apply bool_decide_eq_true in H
  end.

Lemma validate_exotic p ty mask :
  Descr.is_exotic (p_descriptor p) = true -> validate_type p = Ok (ty, mask) ->
  mask = Descr.level_mask (p_descriptor p) -> exotic_valid p.
Proof.
  intros Hex. unfold validate_type, exotic_valid. rewrite Hex.
  destruct (p_data p) as [|x dat] eqn:Ed; [done|]. rewrite <- Ed.
  replace (byte_at (p_data p) 0) with x by (by rewrite Ed).
  destruct (CellTypes.from_byte_exotic x) as [[| | | |]|]; try done.
  - destruct (Z.eqb_spec (LevelMask.level (Descr.level_mask (p_descriptor p))) 0); [done|].
    destruct (_ || _) eqn:G; [done|]. guards G.
    destruct (negb _) eqn:G2; [done|]. guards G2. intros _ _.
    split_and!; [done | lia | by apply zlen_0 | done].
  - destruct (_ || _) eqn:G; [done|]. guards G. intros [= _ <-] <-.
    split_and!; [done | done | by apply zlen_0].
  - destruct (_ || _) eqn:G; [done|]. guards G.
    destruct (zlen_1 (p_references p)) as [child ->]; [done|].
    destruct (_ || _) eqn:G2; [done|]. guards G2. intros [= _ <-] <-.
    split_and!; [done | done |]. exists child. rewrite <- two_bytes by lia. done.
  - destruct (_ || _) eqn:G; [done|]. guards G.
    destruct (zlen_2 (p_references p)) as (old & new & ->); [done|].
    destruct (_ || _) eqn:G2; [done|]. guards G2. intros [= _ <-] <-.
    split_and!; [done | done |]. exists old, new. rewrite <- !two_bytes by lia. done.
Qed.

(** [C14] Every exotic cell the finalizer accepts is well formed: its type byte is
    known, its size and number of references are those of its type, a pruned branch
    stores its own level mask, and a Merkle proof or update commits to the level-zero
    hashes and depths of its children. *)
Theorem finalized_exotic_valid sha256 p hashes :
  Descr.is_exotic (p_descriptor p) = true -> compute_hashes sha256 p = Ok hashes -> exotic_valid p.
Proof.
  intros Hex. unfold compute_hashes. destruct (_ <? _); [done|].
  destruct (validate_type p) as [[ty mask]|] eqn:E; [|done]. cbn [rbind].
  destruct (Z.eqb_spec mask (Descr.level_mask (p_descriptor p))); [|done]. intros _.
  by eapply validate_exotic.
Qed.

Lemma bits_from_byte x l n :
  is_byte x -> 0 <= n -> bits_from (x :: l) 0 (8 + n) = uint_bits 8 x ++ bits_from l 0 n.
Proof.
  intros Hx Hn. rewrite bits_from_app by lia.
  change (bits_from (x :: l) 0 8) with (uint_bits 8 x). f_equal.
  apply bits_from_ext. intros i Hi. unfold bit_at, byte_at. rewrite Z.add_0_l, Z.add_0_l.
  replace (Z.to_nat ((8 + i) / 8)) with (S (Z.to_nat (i / 8))) by dlia. simpl. f_equal; dlia.
Qed.

(** Building a library cell never fails, which the code relies on when it unwraps
    the result: the cell holds the type byte and the hash. *)
Theorem build_library_succeeds sha256 h :
  Forall is_byte h -> zlen h = 32 ->
  exists repr, build_library_ext (empty_context sha256) h =
    Ok (LibraryCell repr (Descr.new 8 66) (2 :: h)).
Proof.
  intros Hh H32. unfold build_library_ext.
  set (b0 := set_exotic builder_new true). assert (builder_wf b0) as W0 by apply builder_new_wf.
  set (b1 := mkBuilder (of_bits (uint_bits 8 2)) true []).
  assert (on_data (fun d => store_u8 d (CellTypes.to_byte LibraryReference)) b0 = Ok b1) as -> by (by vm_compute).
  assert (builder_wf b1) as W1 by (split; [by apply of_bits_wf | done]). cbn [rbind].
  rewrite (on_data_append _ b1 (bits_from h 0 256)) by first [done | apply store_u256_spec; [apply W1 | done | done]].
  unfold append_full. cbn [fst snd]. rewrite zlen_bits_from by lia.
  change (_ && _) with true. cbn [rbind b1 inner b_exotic b_refs].
  rewrite contents_of_bits, <- bits_from_byte by (done || lia). cbn [app].
  set (l := bits_from (2 :: h) 0 (8 + 256)). assert (zlen l = 264) as Hl by (unfold l; rewrite zlen_bits_from; lia).
  unfold build_ext, build_parts. cbn [inner b_exotic b_refs foldl].
  unfold tag_last_byte, build_level_mask. change (DataBuilder.bit_len (of_bits l)) with (zlen l). rewrite Hl.
  change (DataBuilder.data (of_bits l)) with (pack 128 l).
  change (0 <? 264 mod 8) with false. change (Z.min (div_ceil 264 8) 128) with 33. cbn match.
  rewrite sub_pack by lia.
  assert (pack 33 l = 2 :: h) as Hp.
  { unfold l. rewrite <- (pack_bits_from (2 :: h)) at 2 by (by apply Forall_cons_2; [unfold is_byte; lia|]).
    unfold zlen in *. simpl length. rewrite Nat2Z.inj_succ, H32. done. }
  assert (byte_at (pack 128 l) 0 = 2) as ->.
  { transitivity (byte_at (pack 33 l) 0); [rewrite !byte_at_pack by lia; done | by rewrite Hp]. }
  rewrite Hp. change (true && (8 <=? 264)) with true. cbn match.
  change (CellTypes.from_byte_exotic 2) with (Some LibraryReference). cbn match.
  change (Descr.new (Descr.compute_d1 _ _ _) _) with (Descr.new 8 66).
  eexists. unfold finalize_cell, empty_context, compute_hashes, validate_type.
  cbn [p_descriptor p_data p_bit_len p_references].
  replace (zlen (2 :: h)) with 33 by (unfold zlen in *; simpl length; lia).
  change (33 <? div_ceil 264 8) with false. change (Descr.is_exotic (Descr.new 8 66)) with true. cbn match.
  change (CellTypes.from_byte_exotic 2) with (Some LibraryReference). cbn match.
  change (negb (264 =? 8 + 256) || negb (zlen (@nil Cell) =? 0)) with false. cbn [rbind].
  change (negb (LevelMask.EMPTY =? Descr.level_mask (Descr.new 8 66))) with false. cbn match.
  change (LevelMask.level (Descr.level_mask (Descr.new 8 66))) with 0.
  change (Descr.level_mask (Descr.new 8 66)) with 0.
  cbn [hash_levels]. change (negb (0 =? 0)) with false. cbn [andb].
  unfold hash_level. cbn [p_references hash_depths flat_map rbind].
  change (negb (1 =? 0) && _) with true. change (negb (2 =? 0) && _) with true.
  change (negb (3 =? 0) && _) with true. cbn match. cbn [rbind]. unfold make_cell.
  change (Descr.cell_type (p_descriptor _)) with LibraryReference. cbn [p_descriptor p_data]. do 2 f_equal.
  unfold sub_bytes. change (Z.to_nat 0) with 0%nat. rewrite drop_0. apply take_ge.
  unfold zlen in *. simpl length. lia.
Qed.

(** An absent cell made of a cell that is not virtual keeps its level mask and
    its hashes and depths at every level, is marked absent, gives no references, and
    making an absent cell of it again changes nothing. *)
Theorem absent_preserves_hashes c :
  indexed c = true -> 0 <= d1 (descriptor c) < 256 ->
  let a := absent_new c in
  Descr.is_absent (descriptor a) = true /\ level_mask a = level_mask c /\
  (forall l, 0 <= l <= 3 -> hash a l = hash c l /\ depth a l = depth c l) /\
  (forall i, reference a i = None) /\ absent_new a = a.
Proof.
  intros Hc Hd a. destruct (absent_d1 _ Hd) as [Hm Ha].
  assert (level_mask a = level_mask c) as HM by exact Hm.
  assert (LevelMask.wf (level_mask c)) as HW by (by apply level_mask_ok).
  assert (forall l, 0 <= l <= 3 -> hash a l = hash c l /\ depth a l = depth c l) as HL.
  { intros l Hl. destruct (mask_levels_index _ l HW Hl) as (k & Ek & Hk).
    unfold a, absent_new. cbn [hash depth]. unfold level_descr, hash_index.
    change (Descr.level_mask (Descr.new _ 0)) with (level_mask a). rewrite HM.
    change (Descr.level_mask (descriptor c)) with (level_mask c). rewrite list_lookup_fmap, Ek. simpl.
    by apply indexed_hash. }
  split_and!; [done..|].
  transitivity (AbsentCell (absent_byte (d1 (descriptor a)))
    ((fun l => (hash a l, depth a l)) <$> LevelMask.collect 9 (LevelMask.into_iter (level_mask c)))).
  { unfold absent_new at 1. cbn zeta. change (Descr.level_mask (descriptor a)) with (level_mask a).
    by rewrite HM. }
  change (descriptor a) with (Descr.new (absent_byte (d1 (descriptor c))) 0). cbn [d1 Descr.new].
  rewrite absent_byte_idem. unfold a at 3, absent_new. f_equal. apply list_fmap_ext. intros i l Hl.
  destruct (HL l) as [-> ->]; [|done]. apply list_elem_of_lookup_2 in Hl.
  rewrite mask_iter_levels in Hl by done. apply list_elem_of_filter in Hl as [_ Hl].
  rewrite !list.elem_of_cons in Hl. destruct Hl as [->|[->|[->|[->|Hl]]]]; try lia. by apply elem_of_nil in Hl.
Qed.

(** Borrowed and owned virtualization of a cell agree on its hashes, but a second
    virtualization does not: a borrowed wrapper steps to the next offset while an owned
    virtual cell starts over, and a cell of all three levels gets different hashes. *)
Theorem owned_virtualization_restarts c :
  virtualize c = VirtualCellWrapper 0 c -> level_mask c = 7 ->
  (forall l, hash (virtualize c) l = hash (virtualize_owned c) l) /\
  virtualize (virtualize c) = VirtualCellWrapper 1 c /\
  virtualize (virtualize_owned c) = VirtualCellWrapper 0 c /\
  hash (virtualize (virtualize c)) 3 = hash c 1 /\
  hash (virtualize (virtualize_owned c)) 3 = hash c 2.
Proof.
  intros Hv Hm. unfold virtualize_owned, level_mask in *. rewrite Hm.
  change (LevelMask.is_empty 7) with false. cbn match. cbn [virtualize]. rewrite Hv. cbn [virtualize hash].
  unfold virtual_hash_index. rewrite Hm. by vm_compute (negb _).
Qed.

(** ** Witnesses *)

Definition toy_sha (l : list Z) : HashBytes := replicate 32 (foldl (fun a x => u8 (a * 31 + x)) 7 l).

Definition parent_builder : CellBuilder :=
  mkBuilder (of_bits (uint_bits 12 0xabc)) false [EmptyOrdinaryCell; ALL_ZEROS_CELL].

Lemma parent_wf : builder_wf parent_builder.
Proof. split; [by apply of_bits_wf | by vm_compute]. Qed.

(** A pruned branch that claims the greatest depth. *)
Definition deep_branch : Cell :=
  PrunedBranchCell (replicate 32 1) 1 (Descr.new 0x28 72) ([1; 1] ++ replicate 32 2 ++ [0xff; 0xff]).

Definition deep_builder : CellBuilder := mkBuilder (of_bits []) false [EmptyOrdinaryCell; deep_branch].

(** A Merkle proof of the empty cell. *)
Definition proof_parts : CellParts :=
  mkParts 280 (Descr.new 9 70) 0 [EmptyOrdinaryCell] ([3] ++ EMPTY_CELL_HASH ++ [0; 0]).

(** A cell of levels 1 and 3, and one of all levels. *)
Definition leveled (mask : Z) : Cell :=
  OrdinaryCell 8 [([10], 1); ([11], 2); ([12], 3); ([13], 4)] (Descr.new (Descr.compute_d1 mask false 0) 2) [] [0xaa].

Lemma level_mask_iteration_witness :
  LevelMask.collect 9 (LevelMask.into_iter 5) = [0; 1; 3] /\ LevelMask.hash_index 5 2 = 1.
Proof.
  destruct (level_mask_iteration 5 2 ltac:(done) ltac:(done)) as (H1 & H2 & _). split; [exact H1 | exact H2].
Defined.

Lemma descriptor_roundtrip_witness :
  let d := Descr.new (Descr.compute_d1 3 true 2) (Descr.compute_d2 552) in
  Descr.level_mask d = 3 /\ Descr.reference_count d = 2 /\ Descr.byte_len d = 69.
Proof.
  destruct (descriptor_roundtrip 3 true 2 552 MerkleUpdate ltac:(done) ltac:(done) ltac:(done))
    as (H1 & _ & H2 & _ & H3 & _).
  split; [exact H1 | split; [exact H2 | exact H3]].
Defined.

Lemma build_ordinary_succeeds_witness :
  exists c, build_ext (empty_context toy_sha) parent_builder = Ok c /\
    slice_new c = Ok (new_allow_exotic c) /\ slice_bits (new_allow_exotic c) = contents (inner parent_builder) /\
    references c = [EmptyOrdinaryCell; ALL_ZEROS_CELL] /\ level_depth c <= 1.
Proof.
  exact (build_ordinary_succeeds toy_sha parent_builder 1 parent_wf eq_refl
    ltac:(repeat constructor; (done || by vm_compute)) ltac:(by vm_compute)
    ltac:(repeat constructor; (done || by vm_compute))).
Defined.

Lemma build_hashes_representation_witness :
  exists c, build_ext (empty_context toy_sha) parent_builder = Ok c /\
    repr_hash c = toy_sha (representation parent_builder) /\ repr_depth c = 1.
Proof.
  destruct (build_hashes_representation toy_sha parent_builder parent_wf eq_refl
    ltac:(by repeat constructor) ltac:(by repeat constructor)) as (c & E & H).
  exists c. split; [exact E | exact (H 3 ltac:(done))].
Defined.

Lemma build_depth_overflow_witness :
  build_ext (empty_context toy_sha) deep_builder = Err DepthOverflow.
Proof.
  apply (build_depth_overflow toy_sha deep_builder).
  - split; [by apply of_bits_wf | by vm_compute].
  - done.
  - repeat constructor; by vm_compute.
  - apply Exists_cons_tl, Exists_cons_hd. vm_compute. congruence.
Defined.

Lemma finalized_exotic_valid_witness : exotic_valid proof_parts.
Proof.
  destruct (compute_hashes toy_sha proof_parts) as [hashes|] eqn:E; [|by vm_compute in E].
  exact (finalized_exotic_valid toy_sha proof_parts hashes ltac:(done) E).
Defined.

Lemma build_library_succeeds_witness :
  exists repr, build_library_ext (empty_context toy_sha) EMPTY_CELL_HASH =
    Ok (LibraryCell repr (Descr.new 8 66) (2 :: EMPTY_CELL_HASH)).
Proof. exact (build_library_succeeds toy_sha EMPTY_CELL_HASH ltac:(repeat constructor; done) ltac:(done)). Defined.

Lemma absent_preserves_hashes_witness :
  hash (absent_new (leveled 5)) 3 = [12] /\ depth (absent_new (leveled 5)) 2 = 2.
Proof.
  destruct (absent_preserves_hashes (leveled 5) ltac:(done) ltac:(by vm_compute))
    as (_ & _ & H & _).
  split; [exact (proj1 (H 3 ltac:(done))) | exact (proj2 (H 2 ltac:(done)))].
Defined.

Lemma owned_virtualization_restarts_witness :
  hash (virtualize (virtualize (leveled 7))) 3 = [11] /\
  hash (virtualize (virtualize_owned (leveled 7))) 3 = [12].
Proof.
  destruct (owned_virtualization_restarts (leveled 7) ltac:(by vm_compute) ltac:(by vm_compute))
    as (_ & _ & _ & H1 & H2).
  split; [exact H1 | exact H2].
Defined.
