(* ===== verification/DictKeys.v ===== *)
(** * DictKeys: the types of dictionary keys ([src/src/dict/mod.rs])

    [DictKey], [StoreDictKey] and [LoadDictKey] with their instances, and the [Ord]
    instances of the key types.  [KeyLaws] is what a key type promises to a dictionary:
    it appends a fixed number of bits and is read back from them; [OrderedKey] adds that
    its order is that of the bits, which the signed integers do not promise. *)

From S2P Require Import Prelude Bits DataBuilder DataBuilderSpec CellMeta Cell Slice SliceScan SliceScanSpec Builder BuilderSpec Pieces.

(** ** The traits *)
Class DictKey (K : Type) := KEY_BITS : Z.
Class StoreDictKey (K : Type) `{DictKey K} := store_into_data : K -> CellDataBuilder -> result CellDataBuilder.
Class LoadDictKey (K : Type) `{DictKey K} := load_from_data : CellDataBuilder -> option K.
(** [Ord::cmp] *)
Class KeyOrd (K : Type) := key_cmp : K -> K -> comparison.
Arguments KEY_BITS K {_}.

(** [[u8; n]] as a key *)
Record ByteArray (n : Z) := mkBytes { array_bytes : list Z }.
Arguments mkBytes n array_bytes : clear implicits.
Arguments array_bytes {n} _.

(** ** The instances *)
#[global] Instance DictKey_bool : DictKey bool := 1.
#[global] Instance StoreDictKey_bool : StoreDictKey bool := fun x b => store_bit b x.
#[global] Instance LoadDictKey_bool : LoadDictKey bool := fun b =>
  Some (negb (Z.land (byte_at (DataBuilder.data b) 0) 0x80 =? 0)).

#[global] Instance DictKey_uN w : DictKey (uN w) := w.
#[global] Instance StoreDictKey_uN w : StoreDictKey (uN w) := fun x b => store_be w b (uval x).
#[global] Instance LoadDictKey_uN w : LoadDictKey (uN w) := fun b =>
  Some (mkU w (from_be_bytes (sub_bytes (DataBuilder.data b) 0 (w / 8)))).

#[global] Instance DictKey_iN w : DictKey (iN w) := w.
#[global] Instance StoreDictKey_iN w : StoreDictKey (iN w) := fun x b => store_be w b (wrap w (ival x)).
#[global] Instance LoadDictKey_iN w : LoadDictKey (iN w) := fun b =>
  Some (mkI w (as_signed w (from_be_bytes (sub_bytes (DataBuilder.data b) 0 (w / 8))))).

#[global] Instance DictKey_bytes n : DictKey (ByteArray n) := 8 * n.
#[global] Instance StoreDictKey_bytes n : StoreDictKey (ByteArray n) := fun x b => store_raw b (array_bytes x) (8 * n).
#[global] Instance LoadDictKey_bytes n : LoadDictKey (ByteArray n) := fun b =>
  Some (mkBytes n (sub_bytes (DataBuilder.data b) 0 n)).

#[global] Instance DictKey_hash : DictKey Hash256 := 256.
#[global] Instance StoreDictKey_hash : StoreDictKey Hash256 := fun x b => store_u256 b (hash_bytes x).
#[global] Instance LoadDictKey_hash : LoadDictKey Hash256 := fun b =>
  Some (mkHash (sub_bytes (DataBuilder.data b) 0 32)).

#[global] Instance DictKey_pair : DictKey (uN 64 * uN 32) := 96.
#[global] Instance StoreDictKey_pair : StoreDictKey (uN 64 * uN 32) := fun x b =>
  let! b := store_u64 b (uval x.1) in
  store_u32 b (uval x.2).
#[global] Instance LoadDictKey_pair : LoadDictKey (uN 64 * uN 32) := fun b =>
  Some (mkU 64 (from_be_bytes (sub_bytes (DataBuilder.data b) 0 8)), mkU 32 (from_be_bytes (sub_bytes (DataBuilder.data b) 8 4))).

(** The orders of the primitive types; arrays and pairs compare from the front. *)
Fixpoint bytes_cmp (a b : list Z) : comparison :=
  match a, b with
  | [], [] => Eq
  | [], _ :: _ => Lt
  | _ :: _, [] => Gt
  | x :: a, y :: b => match x ?= y with Eq => bytes_cmp a b | c => c end
  end.

#[global] Instance KeyOrd_bool : KeyOrd bool := fun a b => b2z a ?= b2z b.
#[global] Instance KeyOrd_uN w : KeyOrd (uN w) := fun a b => uval a ?= uval b.
#[global] Instance KeyOrd_iN w : KeyOrd (iN w) := fun a b => ival a ?= ival b.
#[global] Instance KeyOrd_bytes n : KeyOrd (ByteArray n) := fun a b => bytes_cmp (array_bytes a) (array_bytes b).
#[global] Instance KeyOrd_hash : KeyOrd Hash256 := fun a b => bytes_cmp (hash_bytes a) (hash_bytes b).
#[global] Instance KeyOrd_pair : KeyOrd (uN 64 * uN 32) := fun a b =>
  match key_cmp a.1 b.1 with Eq => key_cmp a.2 b.2 | c => c end.

(** ** What a key type promises *)
Class KeyLaws (K : Type) `{StoreDictKey K} `{!LoadDictKey K} := {
  (** The values of the type, and the bits of one *)
  key_ok : K -> Prop;
  key_bits : K -> list bool;
  zlen_key_bits k : key_ok k -> zlen (key_bits k) = KEY_BITS K;
  key_fits : 0 <= KEY_BITS K <= MAX_BIT_LEN;
  store_key_law k b : wf b -> key_ok k -> DataBuilder.bit_len b + KEY_BITS K <= MAX_BIT_LEN -> store_into_data k b = append b (key_bits k);
  load_key_law k : key_ok k -> load_from_data (of_bits (key_bits k)) = Some k;
}.

Class OrderedKey (K : Type) `{KeyLaws K} `{!KeyOrd K} :=
  key_cmp_law : forall a b, key_ok a -> key_ok b -> key_cmp a b = lex (key_bits a) (key_bits b).

(** A key in a fresh builder *)
Lemma store_key_new {K} `{KeyLaws K} (k : K) :
  key_ok k -> store_into_data k data_new = Ok (of_bits (key_bits k)) /\ wf (of_bits (key_bits k)) /\
    contents (of_bits (key_bits k)) = key_bits k.
Proof.
  intros Hk. pose proof (zlen_key_bits k Hk). pose proof key_fits.
  rewrite store_key_law by (done || apply data_new_wf || (change (DataBuilder.bit_len data_new) with 0; lia)). unfold append.
  change (DataBuilder.bit_len data_new) with 0. destruct (Z.leb_spec (0 + zlen (key_bits k)) MAX_BIT_LEN); [|lia].
  rewrite contents_new. split; [done|]. split; [apply of_bits_wf; lia | apply contents_of_bits; lia].
Qed.

(** ** Bytes and bits *)

Lemma from_be_bits l : Forall is_byte l -> from_be_bytes l = bits_uint (bits_from l 0 (8 * zlen l)).
Proof.
  intros Hl. pose proof (zlen_nonneg l). apply uint_of_all_bits; [lia|]. intros i Hi.
  destruct (Z.ltb_spec i (8 * zlen l)).
  - rewrite testbit_from_be by (done || lia). by rewrite Z.add_0_l.
  - pose proof (from_be_bytes_range l Hl). by rewrite (testbit_high (8 * zlen l)) by lia.
Qed.

(** A byte-aligned part of a fresh builder *)
Lemma sub_of_bits l q n : 0 <= q -> 0 <= n -> 8 * (q + n) <= zlen l -> zlen l <= 1024 ->
  Forall is_byte (sub_bytes (DataBuilder.data (of_bits l)) q n) /\ zlen (sub_bytes (DataBuilder.data (of_bits l)) q n) = n /\
  bits_from (sub_bytes (DataBuilder.data (of_bits l)) q n) 0 (8 * n) = take (Z.to_nat (8 * n)) (drop (Z.to_nat (8 * q)) l).
Proof.
  intros Hq Hn Hl H1024. simpl. split_and!; [apply sub_bytes_bytes, pack_bytes | |].
  - rewrite zlen_sub; rewrite ?zlen_pack; lia.
  - rewrite <- (bits_from_pack 128 l) at 2 by lia. rewrite bits_from_drop, bits_from_take by lia.
    apply bits_from_ext. intros i Hi. rewrite bit_at_sub by lia. f_equal; lia.
Qed.

Lemma uint_of_builder w v : Width w -> 8 < w \/ w = 8 -> 0 <= v < 2 ^ w ->
  from_be_bytes (sub_bytes (DataBuilder.data (of_bits (uint_bits w v))) 0 (w / 8)) = v.
Proof.
  intros Hw _ Hv. assert (w = 8 * (w / 8) /\ 8 <= w <= 128) as [E Hr] by (destruct Hw as [<-|[<-|[<-|[<-|[<-|[]]]]]]; done).
  destruct (sub_of_bits (uint_bits w v) 0 (w / 8)) as (Hb & Hz & Hs); rewrite ?zlen_uint_bits; try lia.
  rewrite from_be_bits, Hz, Hs by done. rewrite <- E, drop_0, take_ge by (rewrite length_uint_bits; lia).
  apply bits_uint_bits; lia.
Qed.

Lemma array_of_builder l n : Forall is_byte l -> zlen l = n -> n <= 127 ->
  sub_bytes (DataBuilder.data (of_bits (bits_from l 0 (8 * n)))) 0 n = l.
Proof.
  intros Hl Hz Hn. pose proof (zlen_nonneg l). simpl. rewrite sub_pack by lia.
  rewrite <- Hz. by apply pack_bits_from.
Qed.

(** ** The laws of the instances *)
#[export] Program Instance KeyLaws_bool : KeyLaws bool := { key_ok _ := True; key_bits v := [v] }.
Next Obligation. done. Qed.
Next Obligation. done. Qed.
Next Obligation. intros k b Hb _ _. by apply store_bit_spec. Qed.
Next Obligation. by intros []. Qed.

Lemma width_range w : Width w -> 8 <= w <= 128.
Proof. intros Hw. destruct Hw as [<-|[<-|[<-|[<-|[<-|[]]]]]]; lia. Qed.

#[export] Program Instance KeyLaws_uN w `{!Width w} : KeyLaws (uN w) := {
  key_ok v := 0 <= uval v < 2 ^ w; key_bits v := uint_bits w (uval v) }.
Next Obligation. intros w Hw k _. pose proof (width_range w Hw). apply (zlen_uint_bits w). lia. Qed.
Next Obligation. intros w Hw. pose proof (width_range w Hw). unfold KEY_BITS, DictKey_uN, MAX_BIT_LEN. lia. Qed.
Next Obligation. intros w Hw k b Hb Hk _. by apply store_be_spec. Qed.
Next Obligation.
  intros w Hw [v] Hv. pose proof (width_range w Hw). unfold load_from_data, LoadDictKey_uN.
  by rewrite uint_of_builder by (done || lia).
Qed.

#[export] Program Instance KeyLaws_iN w `{!Width w} : KeyLaws (iN w) := {
  key_ok v := - 2 ^ (w - 1) <= ival v < 2 ^ (w - 1); key_bits v := uint_bits w (wrap w (ival v)) }.
Next Obligation. intros w Hw k _. pose proof (width_range w Hw). apply (zlen_uint_bits w). lia. Qed.
Next Obligation. intros w Hw. pose proof (width_range w Hw). unfold KEY_BITS, DictKey_iN, MAX_BIT_LEN. lia. Qed.
Next Obligation. intros w Hw k b Hb Hk _. pose proof (width_range w Hw). by apply store_be_spec; [..|apply wrap_range; lia]. Qed.
Next Obligation.
  intros w Hw [v] Hv. pose proof (width_range w Hw). unfold load_from_data, LoadDictKey_iN. simpl ival in *.
  rewrite uint_of_builder, as_signed_wrap by (done || lia || (apply wrap_range; lia)). done.
Qed.

(** Arrays of up to 127 bytes; the code has 16, 20 and 32. *)
Class ArrayLen (n : Z) := array_len : 0 <= n <= 127.
#[export] Instance ArrayLen_16 : ArrayLen 16. Proof. done. Qed.
#[export] Instance ArrayLen_20 : ArrayLen 20. Proof. done. Qed.
#[export] Instance ArrayLen_32 : ArrayLen 32. Proof. done. Qed.

#[export] Program Instance KeyLaws_bytes n `{!ArrayLen n} : KeyLaws (ByteArray n) := {
  key_ok v := Forall is_byte (array_bytes v) /\ zlen (array_bytes v) = n; key_bits v := bits_from (array_bytes v) 0 (8 * n) }.
Next Obligation. intros n Hn k _. unfold ArrayLen in Hn. apply (zlen_bits_from _ 0 (8 * n)). lia. Qed.
Next Obligation. intros n Hn. unfold KEY_BITS, DictKey_bytes, MAX_BIT_LEN, ArrayLen in *. lia. Qed.
Next Obligation.
  intros n Hn k b Hb [Hk Hz] _. unfold ArrayLen in Hn. unfold store_into_data, StoreDictKey_bytes.
  rewrite store_raw_spec by (done || lia). by rewrite raw_bits_exact by lia.
Qed.
Next Obligation.
  intros n Hn [v] [Hb Hz]. unfold ArrayLen in Hn. unfold load_from_data, LoadDictKey_bytes. simpl array_bytes in *.
  by rewrite array_of_builder by (done || lia).
Qed.

#[export] Program Instance KeyLaws_hash : KeyLaws Hash256 := {
  key_ok v := Forall is_byte (hash_bytes v) /\ zlen (hash_bytes v) = 32; key_bits v := bits_from (hash_bytes v) 0 256 }.
Next Obligation. intros k _. by apply (zlen_bits_from _ 0 256). Qed.
Next Obligation. done. Qed.
Next Obligation. intros k b Hb [Hk Hz] _. by apply store_u256_spec. Qed.
Next Obligation.
  intros [v] [Hb Hz]. unfold load_from_data, LoadDictKey_hash. simpl hash_bytes in *.
  change 256 with (8 * 32). by rewrite array_of_builder.
Qed.

#[export] Program Instance KeyLaws_pair : KeyLaws (uN 64 * uN 32) := {
  key_ok v := (0 <= uval v.1 < 2 ^ 64) /\ (0 <= uval v.2 < 2 ^ 32);
  key_bits v := uint_bits 64 (uval v.1) ++ uint_bits 32 (uval v.2) }.
Next Obligation. intros k _. cbv beta. by rewrite zlen_app, !zlen_uint_bits. Qed.
Next Obligation. done. Qed.
Next Obligation.
  intros k b Hb [H1 H2] _. unfold store_into_data, StoreDictKey_pair. rewrite store_u64_spec by done.
  unfold append. rewrite zlen_app, !zlen_uint_bits by lia.
  destruct (Z.leb_spec (DataBuilder.bit_len b + 64) MAX_BIT_LEN); cbn [rbind]; cycle 1.
  { destruct (Z.leb_spec (DataBuilder.bit_len b + (64 + 32)) MAX_BIT_LEN); [lia | done]. }
  assert (zlen (contents b ++ uint_bits 64 (uval k.1)) = DataBuilder.bit_len b + 64) as Hz.
  { by rewrite zlen_app, zlen_contents, zlen_uint_bits by (done || lia). }
  rewrite store_u32_spec by (done || (apply of_bits_wf; lia)). unfold append.
  rewrite contents_of_bits, <- app_assoc by lia. cbn [of_bits DataBuilder.bit_len]. rewrite Hz, zlen_uint_bits by lia.
  by replace (DataBuilder.bit_len b + 64 + 32) with (DataBuilder.bit_len b + (64 + 32)) by lia.
Qed.
Next Obligation.
  intros [[x] [y]] [Hx Hy]. unfold load_from_data, LoadDictKey_pair. simpl uval in *. set (l := _ ++ _).
  assert (zlen l = 96) as Hl by (unfold l; by rewrite zlen_app, !zlen_uint_bits).
  destruct (sub_of_bits l 0 8) as (B1 & Z1 & E1); [lia..|]. destruct (sub_of_bits l 8 4) as (B2 & Z2 & E2); [lia..|].
  rewrite !from_be_bits, Z1, Z2, E1, E2 by done. unfold l.
  rewrite drop_0, take_app_length', drop_app_length', take_ge by (rewrite length_uint_bits; lia).
  by rewrite !bits_uint_bits by lia.
Qed.

(** ** The orders of the bits *)

Lemma lex_uints w a b : 0 <= w -> 0 <= a < 2 ^ w -> 0 <= b < 2 ^ w -> lex (uint_bits w a) (uint_bits w b) = (a ?= b).
Proof. intros Hw Ha Hb. rewrite lex_uint by (by rewrite !length_uint_bits). by rewrite !bits_uint_bits. Qed.

Lemma lex_bytes a b : Forall is_byte a -> Forall is_byte b -> length a = length b ->
  lex (bits_from a 0 (8 * zlen a)) (bits_from b 0 (8 * zlen b)) = bytes_cmp a b.
Proof.
  intros Ha. revert b. induction Ha as [|x a Hx Ha IH]; intros b Hb E; destruct Hb as [|y b Hy Hb]; try done.
  change (x :: a) with ([x] ++ a). change (y :: b) with ([y] ++ b). simpl in E.
  rewrite !zlen_app. change (8 * (zlen [x] + zlen a)) with (8 * (1 + zlen a)). change (8 * (zlen [y] + zlen b)) with (8 * (1 + zlen b)).
  pose proof (zlen_nonneg a). pose proof (zlen_nonneg b).
  replace (8 * (1 + zlen a)) with (8 * zlen [x] + 8 * zlen a) by (change (zlen [x]) with 1; lia).
  replace (8 * (1 + zlen b)) with (8 * zlen [y] + 8 * zlen b) by (change (zlen [y]) with 1; lia).
  rewrite !bits_from_bytes_app, lex_app, IH by (rewrite ?length_bits_from; (done || lia)).
  assert (forall z, is_byte z -> bits_uint (bits_from [z] 0 (8 * zlen [z])) = z) as Hone.
  { intros z Hz. rewrite <- from_be_bits by (by constructor). unfold from_be_bytes. simpl. lia. }
  rewrite lex_uint, !Hone by (done || by rewrite !length_bits_from). simpl. by destruct (x ?= y).
Qed.

#[export] Instance OrderedKey_bool : OrderedKey bool.
Proof. by intros [] [] _ _. Qed.
#[export] Instance OrderedKey_uN w `{!Width w} : OrderedKey (uN w).
Proof. intros a b Ha Hb. pose proof (width_range w _). symmetry. apply lex_uints; (done || lia). Qed.
#[export] Instance OrderedKey_bytes n `{!ArrayLen n} : OrderedKey (ByteArray n).
Proof.
  intros a b [Ha Za] [Hb Zb]. pose proof (lex_bytes _ _ Ha Hb ltac:(unfold zlen in *; lia)) as H.
  rewrite Za, Zb in H. symmetry. exact H.
Qed.
#[export] Instance OrderedKey_hash : OrderedKey Hash256.
Proof.
  intros a b [Ha Za] [Hb Zb]. pose proof (lex_bytes _ _ Ha Hb ltac:(unfold zlen in *; lia)) as H.
  rewrite Za, Zb in H. symmetry. exact H.
Qed.
#[export] Instance OrderedKey_pair : OrderedKey (uN 64 * uN 32).
Proof.
  intros [[a] [a']] [[b] [b']] [Ha Ha'] [Hb Hb']. symmetry. unfold key_cmp, KeyOrd_pair, key_bits, KeyLaws_pair.
  simpl uval in *. rewrite lex_app, !lex_uints by (rewrite ?length_uint_bits; (done || lia)). done.
Qed.
