(* ===== verification/DictBuild.v ===== *)
(** * DictBuild: dictionaries from sorted entries ([src/src/dict/ops/build.rs])

    A dictionary is built from sorted entries with a stack of finished subtrees: an
    entry is pushed when its common prefix with the previous one grows, and the top of
    the stack is merged when it shrinks.  The trait [MergeStackItemMode] is a class with
    the two modes of the code, with and without extra values; the stack is a list with
    its top first. *)

From S2P Require Import Prelude Bits DataBuilder CellMeta Cell Slice SliceScan Builder DictLabel Dict DictKeys.

(** [AugDictFn]; what it does to its slices is not used. *)
Definition AugDictFn : Type := CellSlice -> CellSlice -> CellBuilder -> CellContext -> result CellBuilder.

(** [CellSlice::offset_bits] *)
Definition offset_bits (s : CellSlice) : Z := bits_start (range s).

(** ** The modes *)
Class MergeStackItemMode := {
  ExtraComparator : Type;
  ExtraOffset : Type;
  LeafExtra : Type;
  NodeExtra : Type;
  write_leaf_extra : LeafExtra -> DynStore;
  read_node_extra : Cell -> Z -> result NodeExtra;
  leaf_extra_offset : CellBuilder -> ExtraOffset;
  node_extra_offset : NodeExtra -> ExtraOffset;
  denorm_node_extra_offset : CellBuilder -> bool -> ExtraOffset;
  (** The builder with the references, and the extra of the node *)
  merge_node : Cell -> Cell -> ExtraOffset -> ExtraOffset -> ExtraComparator -> CellBuilder -> CellContext ->
    result (CellBuilder * NodeExtra);
}.

Definition SimpleMergeStackItemMode : MergeStackItemMode := {|
  ExtraComparator := unit; ExtraOffset := unit; LeafExtra := unit; NodeExtra := unit;
  write_leaf_extra _ _ b := Ok b;
  read_node_extra _ _ := Ok tt;
  leaf_extra_offset _ := tt;
  node_extra_offset _ := tt;
  denorm_node_extra_offset _ _ := tt;
  merge_node left_cell right_cell _ _ _ builder _ :=
    let! builder := store_reference builder left_cell in
    let! builder := store_reference builder right_cell in
    Ok (builder, tt)
|}.

Definition aug_read_node_extra (c : Cell) (key_bit_len : Z) : result (Z * bool) :=
  let! slice := slice_new c in
  let! (label, slice) := read_label slice key_bit_len in
  Ok (offset_bits slice, size_bits label =? key_bit_len).

Definition aug_merge_node (left_cell right_cell : Cell) (left_extra_offset right_extra_offset : Z * Z)
    (comparator : AugDictFn) (builder : CellBuilder) (ctx : CellContext) : result (CellBuilder * (Z * bool)) :=
  let! builder := store_reference builder left_cell in
  let! builder := store_reference builder right_cell in
  let extra_offset := DataBuilder.bit_len (inner builder) in
  let! left_extra_slice := slice_new left_cell in
  let! left_extra_slice := skip_first left_extra_slice left_extra_offset.1 left_extra_offset.2 in
  let! right_extra_slice := slice_new right_cell in
  let! right_extra_slice := skip_first right_extra_slice right_extra_offset.1 right_extra_offset.2 in
  let! builder := comparator left_extra_slice right_extra_slice builder ctx in
  Ok (builder, (extra_offset, false)).

Definition AugMergeStackItemMode (A : Type) `{Store A} : MergeStackItemMode := {|
  ExtraComparator := AugDictFn; ExtraOffset := Z * Z; LeafExtra := A; NodeExtra := Z * bool;
  write_leaf_extra extra ctx b := store_into extra ctx b;
  read_node_extra := aug_read_node_extra;
  leaf_extra_offset b := (DataBuilder.bit_len (inner b), 0);
  node_extra_offset e := (e.1, if e.2 then 0 else 2);
  denorm_node_extra_offset b is_leaf := (DataBuilder.bit_len (inner b), if is_leaf then 0 else 2);
  merge_node := aug_merge_node;
|}.

(** ** [MergeStackItem] *)

(** A complete node has its label from the bit behind a fork on; of a denormalized one
    only what is behind the label is used, and its prefix includes the label. *)
Inductive MergeStackItem {M : MergeStackItemMode} (V : Type) : Type :=
| ItemLeaf (prefix : CellDataBuilder) (value : V) (extra : LeafExtra) (prev_lcp_len : Z)
| ItemNode (prefix : CellDataBuilder) (value : Cell) (extra : NodeExtra) (prev_lcp_len : Z)
| ItemDenorm (prefix : CellDataBuilder) (cell : Cell) (after_label_offset : Z) (is_leaf : bool) (prev_lcp_len : Z).
Arguments ItemLeaf {M V} _ _ _ _.
Arguments ItemNode {M V} _ _ _ _.
Arguments ItemDenorm {M V} _ _ _ _ _.

Section Merge.
Context `{Machine} {M : MergeStackItemMode} {V : Type} `{Store V} (ctx : CellContext) (comparator : ExtraComparator).

Definition item_prefix (it : MergeStackItem V) : CellDataBuilder :=
  match it with ItemLeaf p _ _ _ | ItemNode p _ _ _ | ItemDenorm p _ _ _ _ => p end.
Definition prefix_slice (it : MergeStackItem V) : CellSlice := as_data_slice (item_prefix it).
Definition prev_lcp_len (it : MergeStackItem V) : Z :=
  match it with ItemLeaf _ _ _ n | ItemNode _ _ _ n | ItemDenorm _ _ _ _ n => n end.

(** [MergeStackItem::build] *)
Definition item_build (it : MergeStackItem V) (key_bit_len : Z) : result Cell :=
  match it with
  | ItemLeaf prefix value extra _ =>
      let! b := write_label (as_data_slice prefix) key_bit_len builder_new in
      let! b := write_leaf_extra extra ctx b in
      let! b := store_into value ctx b in
      build_ext ctx b
  | ItemNode _ value _ _ => Ok value
  | ItemDenorm prefix c after_label_offset _ _ =>
      let! data := slice_new c in
      let! data := skip_first data after_label_offset 0 in
      make_leaf ctx (as_data_slice prefix) key_bit_len (store_into data)
  end.

(** One side of a fork at the bit [split_at]: its cell, and where its extra value is. *)
Definition build_branch (it : MergeStackItem V) (split_at leaf_key_bit_len : Z) : result (Cell * ExtraOffset) :=
  match it with
  | ItemLeaf prefix value extra _ =>
      let! prefix_slice := skip_first (as_data_slice prefix) (u16 (split_at + 1)) 0 in
      let! builder := write_label prefix_slice leaf_key_bit_len builder_new in
      let extra_offset := leaf_extra_offset builder in
      let! builder := write_leaf_extra extra ctx builder in
      let! builder := store_into value ctx builder in
      let! c := build_ext ctx builder in
      Ok (c, extra_offset)
  | ItemNode _ value extra _ => Ok (value, node_extra_offset extra)
  | ItemDenorm prefix c after_label_offset is_leaf _ =>
      let! prefix_slice := skip_first (as_data_slice prefix) (u16 (split_at + 1)) 0 in
      let! builder := write_label prefix_slice leaf_key_bit_len builder_new in
      let extra_offset := denorm_node_extra_offset builder is_leaf in
      let! data := slice_new c in
      let! data := skip_first data after_label_offset 0 in
      let! builder := store_slice builder data in
      let! c := build_ext ctx builder in
      Ok (c, extra_offset)
  end.

(** [MergeStackItem::merge] *)
Definition merge (lft rgt : MergeStackItem V) (key_offset key_bit_len : Z) : result (MergeStackItem V) :=
  let left_offset := prev_lcp_len lft in
  let split_at := prev_lcp_len rgt in
  let label_len := u16 (split_at - key_offset) in
  let leaf_key_bit_len := u16 (key_bit_len - split_at - 1) in
  let key_bit_len := u16 (key_bit_len - key_offset) in
  let! common_prefix := skip_first (prefix_slice rgt) key_offset 0 in
  let! builder := write_label (get_prefix common_prefix label_len 0) key_bit_len builder_new in
  let! (right_cell, right_extra_offset) := build_branch rgt split_at leaf_key_bit_len in
  let! (left_cell, left_extra_offset) := build_branch lft split_at leaf_key_bit_len in
  let! (builder, extra) := merge_node left_cell right_cell left_extra_offset right_extra_offset comparator builder ctx in
  let! value := build_ext ctx builder in
  Ok (ItemNode (item_prefix rgt) value extra left_offset).

(** The loop of [reduce]: [rgt] is the item popped last. *)
Fixpoint reduce_loop (rgt : MergeStackItem V) (stack : list (MergeStackItem V)) (lcp_len key_bit_len : Z)
    : result (MergeStackItem V * list (MergeStackItem V)) :=
  match stack with
  | [] => Ok (rgt, [])
  | lft :: stack =>
      if prev_lcp_len rgt <=? lcp_len then Ok (rgt, lft :: stack)
      else
        let key_offset :=
          Z.max (match stack with [] => 1 | _ => u16 (prev_lcp_len lft + 1) end) (u16 (lcp_len + 1)) in
        let! rgt := merge lft rgt key_offset key_bit_len in
        reduce_loop rgt stack lcp_len key_bit_len
  end.

(** [MergeStackItem::reduce]: the common prefix with the last item, and the stack. *)
Definition reduce (stack : list (MergeStackItem V)) (key : CellSlice) (key_bit_len : Z)
    : result (Z * list (MergeStackItem V)) :=
  match stack with
  | [] => Ok (0, [])
  | last :: rest =>
      let lcp_len := size_bits (longest_common_data_prefix (prefix_slice last) key) in
      if lcp_len <=? prev_lcp_len last then
        let! (rgt, rest) := reduce_loop last rest lcp_len key_bit_len in
        Ok (lcp_len, rgt :: rest)
      else Ok (lcp_len, stack)
  end.

(** The loop of [finalize] *)
Fixpoint finalize_loop (result : MergeStackItem V) (stack : list (MergeStackItem V)) (key_bit_len : Z)
    : Prelude.result (MergeStackItem V) :=
  match stack with
  | [] => Ok result
  | lft :: stack =>
      let key_offset := match stack with [] => 0 | _ => u16 (prev_lcp_len lft + 1) end in
      let! result := merge lft result key_offset key_bit_len in
      finalize_loop result stack key_bit_len
  end.

(** [MergeStackItem::finalize] *)
Definition finalize (stack : list (MergeStackItem V)) (key_bit_len : Z) : result (option Cell) :=
  match stack with
  | [] => Ok None
  | result :: stack =>
      let! result := finalize_loop result stack key_bit_len in
      let! c := item_build result key_bit_len in
      Ok (Some c)
  end.

(** ** [build_dict_from_sorted_iter] and [build_aug_dict_from_sorted_iter] *)

Context {K : Type} `{StoreDictKey K} `{!KeyOrd K}.

(** The loop over the entries; duplicates are skipped, a lower key is an error. *)
Fixpoint build_entries (prev_key : option K) (stack : list (MergeStackItem V)) (entries : list (K * LeafExtra * V))
    : result (list (MergeStackItem V)) :=
  match entries with
  | [] => Ok stack
  | (key, extra, value) :: entries =>
      match (prev ← prev_key; Some (key_cmp key prev)) with
      | Some Eq => build_entries prev_key stack entries
      | Some Lt => Err InvalidData
      | _ =>
          let! prefix := store_into_data key data_new in
          let! (lcp_len, stack) := reduce stack (as_data_slice prefix) (KEY_BITS K) in
          build_entries (Some key) (ItemLeaf prefix value extra lcp_len :: stack) entries
      end
  end.

Definition build_sorted (entries : list (K * LeafExtra * V)) : result (option Cell) :=
  let! stack := build_entries None [] entries in
  finalize stack (KEY_BITS K).
End Merge.

Definition build_dict_from_sorted_iter `{Machine} {K V} `{StoreDictKey K} `{!KeyOrd K} `{Store V}
    (entries : list (K * V)) (ctx : CellContext) : result (option Cell) :=
  build_sorted (M := SimpleMergeStackItemMode) ctx tt ((fun e => (e.1, tt, e.2)) <$> entries).

Definition build_aug_dict_from_sorted_iter `{Machine} {K A V} `{StoreDictKey K} `{!KeyOrd K} `{Store A} `{Store V}
    (entries : list (K * A * V)) (comparator : AugDictFn) (ctx : CellContext) : result (option Cell) :=
  build_sorted (M := AugMergeStackItemMode A) ctx comparator entries.
