(* ===== verification/DictModify.v ===== *)
(** * DictModify: a sorted list of changes ([src/src/dict/ops/modify.rs])

    The dictionary is walked along the keys of the changes; what the walk passes is put
    on the stack of [DictBuild]: whole subtrees where their place cannot change, subtrees
    with their label opened where a removal may join them with the path above.  The
    stack of the walk is a list with its top first; [unwrap] of a step that cannot fail
    is an error here, and [modify_root_correct] of DictModifyCorrect shows that there is
    none. *)

From S2P Require Import Prelude Bits DataBuilder CellMeta Cell Slice SliceScan Builder DictLabel Dict DictKeys DictBuild.

(** ** [Label]: the owned form of a label *)
Inductive Label : Type :=
| LabelInline (range : CellSliceRange)
| LabelSame (label : CellSlice).

(** [Label::new]; [addr_eq] compares the addresses of cells. *)
Definition label_new (addr_eq : Cell -> Cell -> bool) (c : Cell) (label : CellSlice) : Label :=
  if addr_eq (cell label) c then LabelInline (range label)
  else match get_bit label 0 with
       | Ok bit => LabelSame (apply_allow_exotic (range label) (if bit : bool then ALL_ONES_CELL else ALL_ZEROS_CELL))
       | Err _ => LabelInline Range.empty
       end.

(** ** [IterStackItem] *)
Record IterStackItem := mkIterItem {
  is_prefix : CellDataBuilder;
  is_cell : Cell;
  is_label : Label;
  is_state : Z;
  is_flatten : bool;
  is_after_label_offset : Z;
  is_remaining_key_bits : Z;
}.

Definition STATE_UNUSED : Z := -1.
Definition STATE_USED_FULL : Z := 2.

Definition set_state (it : IterStackItem) (state : Z) : IterStackItem :=
  mkIterItem (is_prefix it) (is_cell it) (is_label it) state (is_flatten it) (is_after_label_offset it) (is_remaining_key_bits it).
Definition set_flatten (it : IterStackItem) (flatten : bool) : IterStackItem :=
  mkIterItem (is_prefix it) (is_cell it) (is_label it) (is_state it) flatten (is_after_label_offset it) (is_remaining_key_bits it).

(** [IterStackItem::label] *)
Definition iter_label (it : IterStackItem) : CellSlice :=
  match is_label it with LabelInline range => apply_allow_exotic range (is_cell it) | LabelSame label => label end.

(** [IterStackItem::load] *)
Definition iter_load (addr_eq : Cell -> Cell -> bool) (prefix : CellDataBuilder) (key_bit_len : Z) (c : Cell) : result IterStackItem :=
  let! data := slice_new c in
  let! (label, data) := read_label data key_bit_len in
  Ok (mkIterItem prefix c (label_new addr_eq c label) STATE_UNUSED false (offset_bits data) (u16 (key_bit_len - size_bits label))).

(** The key bits up to the child [i] *)
Definition child_prefix (it : IterStackItem) (i : Z) : result CellDataBuilder :=
  let! prefix := store_slice_data uninit (is_prefix it) (iter_label it) in
  store_bit prefix (negb (i =? 0)).

Inductive SeekState : Type :=
| SeekNotFound (remaining_key : CellSlice)
| SeekFound.

Section Modify.
Context `{Machine} {M : MergeStackItemMode} {V : Type} `{Store V} (addr_eq : Cell -> Cell -> bool)
  (ctx : CellContext) (comparator : ExtraComparator).
#[local] Abbreviation items := (list (MergeStackItem V)).

(** ** What is put on the stack of the result *)

Definition add_value (stack : items) (key : CellDataBuilder) (value : V) (extra : LeafExtra) : result items :=
  let! (lcp_len, stack) := reduce ctx comparator stack (as_data_slice key) (DataBuilder.bit_len key) in
  Ok (ItemLeaf key value extra lcp_len :: stack).

Definition add_raw_leaf (stack : items) (prefix : CellDataBuilder) (value : Cell) (after_label_offset : Z) : result items :=
  let! (lcp_len, stack) := reduce ctx comparator stack (as_data_slice prefix) (DataBuilder.bit_len prefix) in
  Ok (ItemDenorm prefix value after_label_offset true lcp_len :: stack).

Definition add_flattened_subtree (res_stack : items) (prefix : CellDataBuilder) (key_bit_len : Z) (value : Cell) : result items :=
  let full_key_bit_len := u16 (DataBuilder.bit_len prefix + key_bit_len) in
  let! data := slice_new value in
  let! (label, data) := read_label data key_bit_len in
  let is_leaf := size_bits label =? key_bit_len in
  let! prefix := store_slice_data uninit prefix label in
  let! (lcp_len, res_stack) := reduce ctx comparator res_stack (as_data_slice prefix) full_key_bit_len in
  Ok (ItemDenorm prefix value (offset_bits data) is_leaf lcp_len :: res_stack).

Definition add_subtree (res_stack : items) (prefix : CellDataBuilder) (key_bit_len : Z) (value : Cell) : result items :=
  let! (lcp_len, res_stack) :=
    reduce ctx comparator res_stack (as_data_slice prefix) (u16 (DataBuilder.bit_len prefix + key_bit_len)) in
  let! extra := read_node_extra value key_bit_len in
  Ok (ItemNode prefix value extra lcp_len :: res_stack).

(** One child of [add_subtrees] *)
Definition add_child_subtree (self : IterStackItem) (flatten : bool) (res_stack : items) (i : Z) : result items :=
  let! value := some_or_underflow (reference_cloned (is_cell self) i) in
  let! prefix := child_prefix self i in
  if flatten || is_flatten self
  then add_flattened_subtree res_stack prefix (u16 (is_remaining_key_bits self - 1)) value
  else add_subtree res_stack prefix (u16 (is_remaining_key_bits self - 1)) value.

(** [IterStackItem::add_subtrees] *)
Definition add_subtrees (self : IterStackItem) (until : Z) (flatten : bool) (res_stack : items) : result items :=
  if is_remaining_key_bits self =? 0 then
    let! prefix := store_slice_data uninit (is_prefix self) (iter_label self) in
    add_raw_leaf res_stack prefix (is_cell self) (is_after_label_offset self)
  else
    foldl (fun acc i => let! res_stack := acc in add_child_subtree self flatten res_stack i)
      (Ok res_stack) (seqZ (is_state self + 1) (until - is_state self)).

(** ** The walk *)

(** [do_seek]: every round takes a bit of the key. *)
Fixpoint do_seek (fuel : nat) (stack : list IterStackItem) (key : CellSlice) (before_remove : bool) (res_stack : items)
    : result (SeekState * list IterStackItem * items) :=
  match fuel, stack with
  | S fuel, item :: below =>
      match strip_data_prefix key (iter_label item) with
      | None => Ok (SeekNotFound key, stack, res_stack)
      | Some remaining_key =>
          if is_data_empty remaining_key then Ok (SeekFound, stack, res_stack)
          else
            let! (bit, key) := load_bit remaining_key in
            let child_index := b2z bit in
            let! child := some_or_underflow (reference_cloned (is_cell item) child_index) in
            let! res_stack := add_subtrees item (child_index - 1) before_remove res_stack in
            let item := set_state item child_index in
            let! prefix := child_prefix item child_index in
            let! child := iter_load addr_eq prefix (size_bits key) child in
            do_seek fuel (child :: item :: below) key before_remove res_stack
      end
  | _, _ => Err CellUnderflow
  end.

Definition seek (stack : list IterStackItem) (key : CellSlice) (before_remove : bool) (res_stack : items)
    : result (SeekState * list IterStackItem * items) :=
  do_seek (S (Z.to_nat (size_bits key))) stack key before_remove res_stack.

Definition seek_first (root : Cell) (key : CellSlice) (before_remove : bool) (res_stack : items)
    : result (SeekState * list IterStackItem * items) :=
  let! item := iter_load addr_eq data_new (size_bits key) root in
  seek [item] key before_remove res_stack.

(** The loop of [seek_next] that leaves what the keys do not share. *)
Fixpoint unwind (stack : list IterStackItem) (common_bits : Z) (flatten : bool) (res_stack : items)
    : result (list IterStackItem * items) :=
  match stack with
  | [] => Ok ([], res_stack)
  | item :: below =>
      if common_bits <? DataBuilder.bit_len (is_prefix item) then
        let flatten := flatten || is_flatten item in
        let! res_stack :=
          if negb (is_state item =? STATE_USED_FULL) then add_subtrees item 1 flatten res_stack else Ok res_stack in
        unwind below common_bits flatten res_stack
      else Ok (set_flatten item (is_flatten item || flatten) :: below, res_stack)
  end.

Definition seek_next (stack : list IterStackItem) (prev_key key : CellSlice) (before_remove : bool) (res_stack : items)
    : result (SeekState * list IterStackItem * items) :=
  let finished := match stack with [last] => is_state last =? STATE_USED_FULL | _ => false end in
  if finished then Ok (SeekNotFound key, stack, res_stack)
  else
    let common_bits := size_bits (longest_common_data_prefix prev_key key) in
    let! (stack, res_stack) := unwind stack common_bits before_remove res_stack in
    let! key := match stack with [] => Ok key | item :: _ => skip_first key (DataBuilder.bit_len (is_prefix item)) 0 end in
    seek stack key before_remove res_stack.

Fixpoint seek_end (stack : list IterStackItem) (flatten : bool) (res_stack : items) : result items :=
  match stack with
  | [] => Ok res_stack
  | item :: below =>
      let flatten := flatten || is_flatten item in
      let! res_stack :=
        if negb (is_state item =? STATE_USED_FULL) then add_subtrees item 1 flatten res_stack else Ok res_stack in
      seek_end below flatten res_stack
  end.

(** What is done with the value once the walk is at its key. *)
Definition put_value (state : SeekState) (iter_stack : list IterStackItem) (res_stack : items) (key_builder : CellDataBuilder)
    (value : option (LeafExtra * V)) : result (list IterStackItem * items) :=
  match iter_stack with
  | [] => Err CellUnderflow
  | iter :: below =>
      match state with
      | SeekNotFound remaining_key =>
          let! c := lex_cmp addr_eq remaining_key (iter_label iter) in
          let! (iter, res_stack) :=
            if (match c with Gt => true | _ => false end) && negb (is_state iter =? STATE_USED_FULL) then
              let! res_stack := add_subtrees iter 1 false res_stack in
              Ok (set_state iter STATE_USED_FULL, res_stack)
            else Ok (iter, res_stack) in
          match value with
          | Some (extra, value) => let! res_stack := add_value res_stack key_builder value extra in Ok (iter :: below, res_stack)
          | None => Ok (iter :: below, res_stack)
          end
      | SeekFound =>
          let iter := set_state iter STATE_USED_FULL in
          match value with
          | Some (extra, value) => let! res_stack := add_value res_stack key_builder value extra in Ok (iter :: below, res_stack)
          | None => Ok (set_flatten iter true :: below, res_stack)
          end
      end
  end.

(** ** The changes *)
Context {K : Type} `{StoreDictKey K} `{!KeyOrd K} {T : Type} (extract_key : T -> K) (extract_value : T -> result (option (LeafExtra * V))).

Record ModifyState := mkModify {
  md_prev_key : option K;
  md_prev_key_builder : CellDataBuilder;
  md_iter_stack : list IterStackItem;
  md_res_stack : items;
}.

(** One round of the loop over the entries *)
Definition modify_entry (root : Cell) (st : ModifyState) (item : T) : result ModifyState :=
  let key := extract_key item in
  match (prev ← md_prev_key st; Some (key_cmp key prev)) with
  | Some Eq => Ok st
  | Some Lt => Err InvalidData
  | _ =>
      let! key_builder := store_into_data key data_new in
      let key_slice := as_data_slice key_builder in
      let! value := extract_value item in
      let before_remove := negb (match value with Some _ => true | None => false end) in
      let! (state, iter_stack, res_stack) :=
        match md_prev_key st with
        | None => seek_first root key_slice before_remove (md_res_stack st)
        | Some _ => seek_next (md_iter_stack st) (as_data_slice (md_prev_key_builder st)) key_slice before_remove (md_res_stack st)
        end in
      let! prev_key_builder := store_slice_data uninit (clear_bits (md_prev_key_builder st)) key_slice in
      let! (iter_stack, res_stack) := put_value state iter_stack res_stack key_builder value in
      Ok (mkModify (Some key) prev_key_builder iter_stack res_stack)
  end.

Fixpoint modify_entries (root : Cell) (st : ModifyState) (entries : list T) : result ModifyState :=
  match entries with
  | [] => Ok st
  | item :: entries => let! st := modify_entry root st item in modify_entries root st entries
  end.

(** The entries with a value, up to the first that fails. *)
Fixpoint new_entries (entries : list T) : list (K * LeafExtra * V) * option Error :=
  match entries with
  | [] => ([], None)
  | entry :: entries =>
      let key := extract_key entry in
      match extract_value entry with
      | Ok (Some (extra, value)) => let (l, err) := new_entries entries in ((key, extra, value) :: l, err)
      | Ok None => new_entries entries
      | Err e => ([], Some e)
      end
  end.

Definition modify_sorted (dict : option Cell) (entries : list T) : result (bool * option Cell) :=
  match dict with
  | None =>
      let (l, err) := new_entries entries in
      let! stack := build_entries ctx comparator None [] l in
      match err with
      | Some e => Err e
      | None =>
          let! dict := finalize ctx comparator stack (KEY_BITS K) in
          Ok (match dict with Some _ => true | None => false end, dict)
      end
  | Some root =>
      let! st := modify_entries root (mkModify None data_new [] []) entries in
      match md_prev_key st with
      | None => Ok (false, dict)
      | Some _ =>
          let! res_stack := seek_end (md_iter_stack st) false (md_res_stack st) in
          let! dict := finalize ctx comparator res_stack (KEY_BITS K) in
          Ok (true, dict)
      end
  end.
End Modify.

(** [dict_modify_from_sorted_iter] *)
Definition dict_modify_from_sorted_iter `{Machine} {K V T} `{StoreDictKey K} `{!KeyOrd K} `{Store V} (addr_eq : Cell -> Cell -> bool) (dict : option Cell)
    (entries : list T) (extract_key : T -> K) (extract_value : T -> result (option V)) (ctx : CellContext) : result (bool * option Cell) :=
  modify_sorted (M := SimpleMergeStackItemMode) addr_eq ctx tt extract_key
    (fun entry => let! value := extract_value entry in Ok (pair tt <$> value)) dict entries.

(** [aug_dict_modify_from_sorted_iter] *)
Definition aug_dict_modify_from_sorted_iter `{Machine} {K A V T} `{StoreDictKey K} `{!KeyOrd K} `{Store A} `{Store V}
    (addr_eq : Cell -> Cell -> bool) (dict : option Cell) (entries : list T) (extract_key : T -> K) (extract_value : T -> result (option (A * V)))
    (comparator : AugDictFn) (ctx : CellContext) : result (bool * option Cell) :=
  modify_sorted (M := AugMergeStackItemMode A) addr_eq ctx comparator extract_key extract_value dict entries.
