(* ===== verification/DictStack.v ===== *)
(** * DictStack: what the stack of the dictionary builders holds

    Each item of the stack stands for a trie over the full keys ([item_rep]); a node
    fits only behind the fork it was built for.  [chain] is the invariant of the stack:
    the prefixes of neighbours part at the bit the upper one recorded, and further down
    at a smaller one.  Reducing the stack, pushing an item and finishing it keep the map
    the tries add up to. *)

From stdpp Require Import gmap.
From S2P Require Import Prelude Bits DataBuilder DataBuilderSpec CellMeta Cell Slice SliceSpec SliceScan SliceScanSpec Builder BuilderSpec Context DictLabel DictLabelSpec Dict DictSpec DictKeys DictBuild.

(** ** Keys that part *)

(** [A] and [B] share their first [s] bits and part there, [A] to the left. *)
Definition parts (s : Z) (A B : list bool) : Prop :=
  exists P x y, zlen P = s /\ A = P ++ false :: x /\ B = P ++ true :: y.

Lemma parts_nonneg s A B : parts s A B -> 0 <= s /\ s < zlen A /\ s < zlen B.
Proof.
  intros (P & x & y & <- & -> & ->). unfold zlen. rewrite !length_app. simpl. lia.
Qed.

Lemma parts_lcp s A B : parts s A B -> lcp_len A B = s.
Proof.
  intros (P & x & y & <- & -> & ->). induction P as [|a P IH]; [done|]. simpl. rewrite eqb_reflx, IH. unfold zlen. simpl. lia.
Qed.

(** Two strings share a prefix or one of two forks comes first. *)
Lemma app_split (P Q : list bool) a b x y :
  P ++ a :: x = Q ++ b :: y ->
  (P = Q /\ a = b /\ x = y) \/ (exists R, Q = P ++ a :: R /\ x = R ++ b :: y) \/ (exists R, P = Q ++ b :: R /\ y = R ++ a :: x).
Proof.
  revert Q. induction P as [|p P IH]; intros [|q Q] E; simpl in E; injection E as -> E.
  - by left.
  - right. left. by exists Q.
  - right. right. by exists P.
  - destruct (IH Q E) as [(-> & -> & ->) | [(R & -> & ->) | (R & -> & ->)]]; [by left | right; left; by exists R | right; right; by exists R].
Qed.

Lemma parts_trans s s' A B C : parts s A B -> parts s' B C -> s <> s' /\ parts (Z.min s s') A C.
Proof.
  intros (P & x & y & <- & -> & ->) (Q & x' & y' & <- & E & ->).
  apply app_split in E as [(-> & ? & _) | [(R & -> & ->) | (R & -> & ->)]]; [done | |].
  - assert (zlen P < zlen (P ++ true :: R)) by (unfold zlen; rewrite length_app; simpl; lia). split; [lia|].
    rewrite Z.min_l by lia. exists P, x, (R ++ true :: y'). split_and!; [done..|]. by rewrite <- app_assoc.
  - assert (zlen Q < zlen (Q ++ false :: R)) by (unfold zlen; rewrite length_app; simpl; lia). split; [lia|].
    rewrite Z.min_r by lia. exists Q, (R ++ false :: x), y'. split_and!; [done| |done]. by rewrite <- app_assoc.
Qed.

Lemma lex_parts A B : length A = length B -> lex A B = Lt -> exists s, parts s A B.
Proof.
  revert B. induction A as [|a A IH]; intros [|b B] E HL; simpl in *; try done.
  destruct (eqb a b) eqn:Eb.
  - apply eqb_prop in Eb as ->. destruct (IH B ltac:(lia) HL) as (s & P & x & y & <- & -> & ->).
    exists (zlen (b :: P)). by exists (b :: P), x, y.
  - destruct a; [done|]. destruct b; [|done]. exists 0. by exists [], A, B.
Qed.

Lemma parts_lex s A B : parts s A B -> lex A B = Lt.
Proof. intros (P & x & y & _ & -> & ->). rewrite lex_app, lex_refl by done. done. Qed.

Lemma lex_antisym A B : lex B A = CompOpp (lex A B).
Proof.
  revert B. induction A as [|a A IH]; intros [|b B]; simpl; try done.
  destruct a, b; simpl; rewrite ?IH; done.
Qed.

(** Longer strings part where their prefixes do. *)
Lemma parts_ext s A B A' B' : parts s A B -> A `prefix_of` A' -> B `prefix_of` B' -> parts s A' B'.
Proof.
  intros (P & x & y & Hz & -> & ->) [u ->] [w ->]. exists P, (x ++ u), (y ++ w). by rewrite <- !app_assoc.
Qed.

Lemma parts_fork P A B : P ++ [false] `prefix_of` A -> P ++ [true] `prefix_of` B -> parts (zlen P) A B.
Proof. intros [x ->] [y ->]. exists P, x, y. by rewrite <- !app_assoc. Qed.

(** What shares more than the common prefix with the left side is on the left side. *)
Lemma parts_side c p K Q k : parts c p K -> c < zlen Q -> Q `prefix_of` p -> Q `prefix_of` k -> parts c k K.
Proof.
  intros (P & x & y & <- & -> & ->) Hz HQ [w ->].
  assert (P ++ [false] `prefix_of` Q) as HP.
  { assert (P ++ [false] `prefix_of` P ++ false :: x) as HP by (exists x; by rewrite <- app_assoc).
    destruct (prefix_weak_total _ _ _ HQ HP) as [H|H]; [|done]. apply prefix_length_eq in H as ->; [done|].
    rewrite length_app. simpl. unfold zlen in *. lia. }
  apply parts_fork; [by apply prefix_app_r | by exists y; rewrite <- app_assoc].
Qed.

Lemma parts_prefix s A B Q : parts s A B -> Q `prefix_of` A -> Q `prefix_of` B -> zlen Q <= s.
Proof.
  intros Hp HA HB. rewrite <- (parts_lcp s A B Hp). by apply lcp_len_max.
Qed.

Lemma parts_take s A B Q : parts s A B -> Q `prefix_of` A -> zlen Q <= s -> Q `prefix_of` B.
Proof.
  intros (P & x & y & <- & -> & ->) HQ Hz. destruct (prefix_weak_total Q P _ HQ ltac:(by eexists)) as [H|H].
  - etrans; [exact H|]. by eexists.
  - apply prefix_length_eq in H; [subst; by eexists|]. unfold zlen in *. lia.
Qed.

Lemma parts_at s A B Q : parts s A B -> Q `prefix_of` A -> zlen Q = s -> Q ++ [false] `prefix_of` A /\ Q ++ [true] `prefix_of` B.
Proof.
  intros (P & x & y & <- & -> & ->) [u E] Hz. assert (P = Q) as ->.
  { apply (f_equal (take (length P))) in E. assert (length P = length Q) as El by (unfold zlen in Hz; lia).
    rewrite take_app_length, El, take_app_length in E. done. }
  split; eexists; rewrite <- app_assoc; reflexivity.
Qed.

Lemma parts_irrefl s A B : parts s A B -> ~ A `prefix_of` B.
Proof. intros Hp HA. pose proof (parts_nonneg _ _ _ Hp). pose proof (parts_prefix _ _ _ A Hp ltac:(done) HA). lia. Qed.

Lemma parts_split A B : ~ A `prefix_of` B -> ~ B `prefix_of` A -> (exists s, parts s A B) \/ (exists s, parts s B A).
Proof.
  intros HA HB. destruct (lcp_meets A B) as [r ->|P a b B2 A2 -> -> Hab|b A2 ->].
  - destruct HA. by eexists.
  - destruct a, b; [done | left | right | done]; exists (zlen P); apply parts_fork;
      eexists; rewrite <- app_assoc; reflexivity.
  - destruct HB. by eexists.
Qed.

Lemma take_fork s (P : list bool) b x : zlen P = s -> take (Z.to_nat (s + 1)) (P ++ b :: x) = P ++ [b].
Proof.
  intros <-. rewrite (cons_middle b P x), app_assoc, take_app_length'; [done|]. rewrite length_app. unfold zlen. simpl. lia.
Qed.

Lemma lex_trans A B C : lex A B = Lt -> lex B C = Lt -> lex A C = Lt.
Proof.
  revert B C. induction A as [|a A IH]; intros [|b B] [|c C]; simpl; try done.
  destruct a, b, c; simpl; try done; apply IH.
Qed.

(** ** Tries over full keys *)

(** The trie behind the first [o] bits. *)
Definition cut (o : Z) (T : trie) : trie := set_label (drop (Z.to_nat o) (tlabel T)) T.

(** One of the tries has the value at the key. *)
Definition has (Ts : list trie) (k : list bool) (v : payload) : Prop := exists T, T ∈ Ts /\ tget T k = Some v.

Lemma has_nil k v : has [] k v <-> False.
Proof. split; [|done]. intros (T & H & _). by apply elem_of_nil in H. Qed.
Lemma has_cons T Ts k v : has (T :: Ts) k v <-> tget T k = Some v \/ has Ts k v.
Proof. unfold has. setoid_rewrite list.elem_of_cons. naive_solver. Qed.
Lemma has_app Ts Us k v : has (Ts ++ Us) k v <-> has Ts k v \/ has Us k v.
Proof. unfold has. setoid_rewrite elem_of_app. naive_solver. Qed.

Lemma cut_get o P T k : zlen P = o -> P `prefix_of` tlabel T -> tget (cut o T) k = tget T (P ++ k).
Proof.
  intros <- [l E]. unfold cut. rewrite E, drop_app_length' by (unfold zlen; lia). by apply tget_set_label.
Qed.

Lemma cut_zero T : cut 0 T = T.
Proof. unfold cut. rewrite drop_0. by destruct T. Qed.

(** A fork of two tries whose keys part. *)
Lemma tget_fork_parts s P x y L R k :
  zlen P = s -> P ++ [false] `prefix_of` tlabel L -> P ++ [true] `prefix_of` tlabel R -> x = cut (s + 1) L -> y = cut (s + 1) R ->
  tget (TFork P x y) k = match tget R k with Some v => Some v | None => tget L k end /\
  (is_Some (tget R k) -> tget L k = None).
Proof.
  intros Hz HL HR -> ->. split; cycle 1.
  { intros [v ER]. destruct (tget L k) as [w|] eqn:EL; [|done]. apply tget_prefix in ER as [z1 ->], EL as [z2 E2].
    destruct HL as [u1 E3], HR as [u2 E4]. rewrite E3, E4, <- !app_assoc in E2. by apply app_inv_head in E2. }
  simpl.
  assert (forall T (b : bool), P ++ [b] `prefix_of` tlabel T -> forall k, tget T k <> None -> exists k', k = P ++ b :: k') as Hkey.
  { intros T b HT k' Hg. destruct (tget T k') as [v|] eqn:E; [|done]. apply tget_prefix in E as E'.
    destruct HT as [u Eu]. destruct E' as [w ->]. rewrite Eu, <- !app_assoc. by eexists. }
  assert (forall b : bool, zlen (P ++ [b]) = s + 1) as Hz1 by (intros; rewrite zlen_app, Hz; done).
  destruct (strip P k) as [[|b z]|] eqn:E.
  - apply strip_Some in E as ->. destruct (tget R _) eqn:ER; [destruct (Hkey R true HR (P ++ [])) as [? Ek]; [by rewrite ER | by apply app_inv_head in Ek]|].
    destruct (tget L _) eqn:EL; [destruct (Hkey L false HL (P ++ [])) as [? Ek]; [by rewrite EL | by apply app_inv_head in Ek] | done].
  - apply strip_Some in E as ->. destruct b.
    + rewrite (cut_get (s + 1) (P ++ [true]) R) by (done || apply Hz1). rewrite <- app_assoc. simpl.
      destruct (tget R _) eqn:ER; [done|]. destruct (tget L _) eqn:EL; [|done].
      destruct (Hkey L false HL (P ++ true :: z)) as [? Ek]; [by rewrite EL | by apply app_inv_head in Ek].
    + rewrite (cut_get (s + 1) (P ++ [false]) L) by (done || apply Hz1). rewrite <- app_assoc. simpl.
      destruct (tget R (P ++ false :: z)) eqn:ER; [|done].
      destruct (Hkey R true HR (P ++ false :: z)) as [? Ek]; [by rewrite ER | by apply app_inv_head in Ek].
  - apply strip_None in E.
    destruct (tget R k) eqn:ER; [destruct (Hkey R true HR k) as [? ->]; [by rewrite ER | destruct E; by eexists]|].
    destruct (tget L k) eqn:EL; [destruct (Hkey L false HL k) as [? ->]; [by rewrite EL | destruct E; by eexists] | done].
Qed.

Section Stack.
Context {mach : Machine} (ctx : CellContext) {laws : ContextLaws ctx}.
Context (N Dv : Z) (HN : 0 <= N <= 1023)
  (Hcap : 2 + len_bits N + N <= MAX_BIT_LEN) (HDv : 0 <= Dv) (HD : Dv + N <= MAX_DEPTH) (canon : bool).
Context {V : Type} `{Store V}.

#[local] Instance Mode : MergeStackItemMode := SimpleMergeStackItemMode.
#[local] Abbreviation item := (MergeStackItem V).
#[local] Abbreviation rep := (rep ctx N Dv canon).

Definition item_key (it : item) : list bool := contents (item_prefix it).

(** The item stands for the trie [T], and can be put behind a fork at the bit [o - 1],
    or at the root for [o = 0]. *)
Definition item_rep (o : Z) (it : item) (T : trie) : Prop :=
  wf (item_prefix it) /\ (0 <= o /\ o <= zlen (item_key it) /\ zlen (item_key it) <= N) /\
  match it with
  | ItemLeaf _ value _ _ => exists v, T = TLeaf (item_key it) v /\ zlen (item_key it) = N /\
      stores ctx (store_into value) v /\ vok ctx N Dv v
  | ItemNode _ c _ _ => take (Z.to_nat o) (item_key it) `prefix_of` tlabel T /\ rep (N - o) c (cut o T)
  | ItemDenorm _ c after_label_offset _ _ => tlabel T = item_key it /\ exists s s' x, slice_new c = Ok s /\
      skip_first s after_label_offset 0 = Ok s' /\ value_slice x s' /\ rest_of ctx N Dv canon N T x
  end.

(** Only a complete node is bound to its place. *)
Lemma item_rep_offset o o' it T :
  item_rep o it T -> 0 <= o' <= zlen (item_key it) -> (match it with ItemNode _ _ _ _ => o' = o | _ => True end) -> item_rep o' it T.
Proof. intros (W & Ho & Hi) Ho' Hn. split; [done|]. split; [lia|]. destruct it; [done | by subst | done]. Qed.

Lemma item_rep_prefix o it T : item_rep o it T -> take (Z.to_nat o) (item_key it) `prefix_of` tlabel T.
Proof.
  intros (W & Ho & Hi). destruct it; [destruct Hi as (v & -> & _) | apply Hi | destruct Hi as (-> & _)]; apply prefix_take.
Qed.

Lemma key_slice_of it : wf (item_prefix it) -> slice_wf (prefix_slice it) /\ slice_bits (prefix_slice it) = item_key it.
Proof. intros W. destruct (as_data_slice_spec (item_prefix it) W) as (? & ? & _). done. Qed.

Lemma skip_key s K o :
  slice_wf s -> slice_bits s = K -> 0 <= o <= zlen K ->
  exists s', skip_first s o 0 = Ok s' /\ slice_wf s' /\ slice_bits s' = drop (Z.to_nat o) K.
Proof.
  intros Hs E Ho. assert (zlen (take (Z.to_nat o) K) = o) as Hz by (unfold zlen in *; rewrite length_take; lia).
  destruct (skip_front s (take (Z.to_nat o) K) (drop (Z.to_nat o) K) Hs) as (s' & Es & [? ? _ _ _] & _); [by rewrite take_drop|].
  rewrite Hz in Es. by exists s'.
Qed.

(** The cell of one side of a fork at [o - 1] *)
Lemma stack_branch_cell o it T : item_rep (o + 1) it T -> 0 <= o -> o + 1 <= N ->
  exists c, build_branch ctx it o (N - o - 1) = Ok (c, tt) /\ rep (N - (o + 1)) c (cut (o + 1) T).
Proof.
  intros (W & Ho & Hi) Ho0 HoN. destruct it as [p value [] n|p c [] n|p c a is_leaf n]; cbn [build_branch]; cycle 1.
  { exists c. split; [done | apply Hi]. }
  - destruct Hi as (EK & s & s' & x & E1 & E2 & Hx & Hr). rewrite u16_small by lia.
    destruct (key_slice_of _ W) as [Ws Bs]. destruct (skip_key _ _ (o + 1) Ws Bs) as (ps & Eps & Wps & Bps); [lia|].
    unfold prefix_slice in Eps. cbn [item_prefix] in Eps. rewrite Eps. cbn [rbind].
    assert (size_bits ps = zlen (item_key (ItemDenorm p c a is_leaf n)) - (o + 1)) as Hsz.
    { rewrite <- zlen_slice_bits, Bps by done. unfold zlen in *. rewrite length_drop. lia. }
    destruct (make_leaf_relabel ctx N Dv HN Hcap HDv HD canon N T x (N - (o + 1)) ps (store_into s') Hr Wps) as (cc & Ec & Hcc);
      [lia | lia | rewrite EK; lia | by apply stores_slice |].
    exists cc. split; [|by unfold cut; rewrite EK, <- Bps].
    unfold make_leaf in Ec. replace (N - o - 1) with (N - (o + 1)) by lia.
    destruct (write_label ps _ _) as [b|]; [|done]. cbn [rbind] in *. rewrite E1. cbn [rbind]. rewrite E2. cbn [rbind].
    change (store_into s' ctx b) with (store_slice b s') in Ec.
    destruct (store_slice b s') as [b'|]; [|done]. cbn [rbind] in *. by rewrite Ec.
  - destruct Hi as (v & -> & Hz & Hst & Hv). rewrite u16_small by lia.
    destruct (key_slice_of _ W) as [Ws Bs]. destruct (skip_key _ _ (o + 1) Ws Bs) as (ps & Eps & Wps & Bps); [lia|].
    unfold prefix_slice in Eps. cbn [item_prefix] in Eps. rewrite Eps. cbn [rbind].
    assert (size_bits ps = N - (o + 1)) as Hsz.
    { rewrite <- zlen_slice_bits, Bps by done. unfold zlen in *. rewrite length_drop. lia. }
    destruct (make_leaf_rep ctx N Dv HN Hcap HDv HD canon (N - (o + 1)) ps (store_into value) v Wps) as (cc & Ec & Hcc); [lia | done..|].
    exists cc. split; [|by unfold cut; simpl; rewrite <- Bps].
    unfold make_leaf in Ec. replace (N - o - 1) with (N - (o + 1)) by lia.
    destruct (write_label ps _ _) as [b|]; [|done]. cbn [rbind] in *.
    cbn [write_leaf_extra Mode SimpleMergeStackItemMode rbind].
    destruct (store_into value ctx b) as [b'|]; [|done]. cbn [rbind] in *. by rewrite Ec.
Qed.

(** The finished root *)
Lemma item_built it T : item_rep 0 it T -> exists c, item_build ctx it N = Ok c /\ rep N c T.
Proof.
  intros (W & Ho & Hi). destruct it as [p value [] n|p c [] n|p c a is_leaf n]; cbn [item_build]; cycle 1.
  { destruct Hi as [_ Hi]. rewrite Z.sub_0_r, cut_zero in Hi. by exists c. }
  - destruct Hi as (EK & s & s' & x & E1 & E2 & Hx & Hr). rewrite E1. cbn [rbind]. rewrite E2. cbn [rbind].
    destruct (key_slice_of _ W) as [Ws Bs]. unfold prefix_slice in *. cbn [item_prefix] in *.
    pose proof (zlen_slice_bits _ Ws) as Hsz. rewrite Bs in Hsz.
    destruct (make_leaf_relabel ctx N Dv HN Hcap HDv HD canon N T x N (as_data_slice p) (store_into s') Hr Ws) as (cc & Ec & Hcc);
      [lia | unfold item_key in *; lia | rewrite EK; lia | by apply stores_slice |].
    exists cc. rewrite Bs, <- EK in Hcc. by destruct T.
  - destruct Hi as (v & -> & Hz & Hst & Hv). destruct (key_slice_of _ W) as [Ws Bs]. unfold prefix_slice in *. cbn [item_prefix] in *.
    pose proof (zlen_slice_bits _ Ws) as Hsz. rewrite Bs in Hsz.
    destruct (make_leaf_rep ctx N Dv HN Hcap HDv HD canon N (as_data_slice p) (store_into value) v Ws) as (cc & Ec & Hcc); [lia | lia | done..|].
    exists cc. rewrite Bs in Hcc. split; [|done]. rewrite <- Ec. unfold make_leaf. by destruct (write_label _ _ _).
Qed.

(** ** Merging *)

Lemma prefix_of_parts s A B o : parts s A B -> 0 <= o <= s -> take (Z.to_nat o) A = take (Z.to_nat o) B.
Proof.
  intros (P & x & y & <- & -> & ->) Ho. rewrite !take_app_le by (unfold zlen in *; lia). done.
Qed.

Lemma merge_spec s o lft rgt TL TR :
  item_rep (s + 1) lft TL -> item_rep (s + 1) rgt TR -> prev_lcp_len rgt = s ->
  parts s (item_key lft) (item_key rgt) -> 0 <= o <= s ->
  exists it T, merge ctx tt lft rgt o N = Ok it /\ item_rep o it T /\
    item_prefix it = item_prefix rgt /\ prev_lcp_len it = prev_lcp_len lft /\
    forall k v, tget T k = Some v <-> tget TR k = Some v \/ tget TL k = Some v.
Proof.
  intros HL HR Hprev Hp Ho. pose proof (proj1 HR) as W. destruct (proj1 (proj2 HR)) as (_ & Hs1 & HzN).
  destruct Hp as (P & x & y & Hz & EL & ER).
  pose proof (item_rep_prefix _ _ _ HL) as PL. pose proof (item_rep_prefix _ _ _ HR) as PR.
  rewrite EL in PL. rewrite ER in PR.
  rewrite take_fork in PL, PR by done.
  destruct (stack_branch_cell s rgt TR HR) as (cr & Ecr & Rcr); [lia..|].
  destruct (stack_branch_cell s lft TL HL) as (cl & Ecl & Rcl); [lia..|].
  destruct (key_slice_of rgt W) as [Ws Bs]. destruct (skip_key _ _ o Ws Bs) as (ps & Eps & Wps & Bps); [lia|].
  unfold merge. rewrite Hprev, Eps. cbn [rbind]. rewrite (u16_small (s - o)), (u16_small (N - s - 1)), (u16_small (N - o)) by lia.
  rewrite ER in Bps. pose proof (zlen_slice_bits _ Wps) as Hsz. rewrite Bps in Hsz.
  rewrite drop_app_le in Bps, Hsz by (unfold zlen in *; lia).
  assert (zlen (drop (Z.to_nat o) P) = s - o) as Hzd by (unfold zlen in *; rewrite length_drop; lia).
  rewrite zlen_app, Hzd in Hsz.
  destruct (get_prefix_spec ps (s - o) Wps ltac:(lia)) as (Wg & Bg & Sg).
  rewrite Bps, take_app_length' in Bg by (unfold zlen in *; lia).
  pose proof (zlen_nonneg (true :: y)). rewrite Z.min_l in Sg by lia.
  destruct (make_fork_rep ctx N Dv HN Hcap HDv HD canon (N - o) (get_prefix ps (s - o) 0) (cut (s + 1) TL) (cut (s + 1) TR) cl cr Wg)
    as (c & Ec & Rc); [lia | lia | |  |].
  { rewrite Sg. by replace (N - o - (s - o) - 1) with (N - (s + 1)) by lia. }
  { rewrite Sg. by replace (N - o - (s - o) - 1) with (N - (s + 1)) by lia. }
  unfold make_leaf, store_two in Ec. destruct (write_label _ _ _) as [b|]; [|done]. cbn [rbind] in *.
  rewrite Ecr. cbn [rbind]. rewrite Ecl. cbn [rbind]. cbn [merge_node Mode SimpleMergeStackItemMode].
  destruct (store_reference b cl) as [b1|]; [|done]. cbn [rbind] in *.
  destruct (store_reference b1 cr) as [b2|]; [|done]. cbn [rbind] in *. rewrite Ec. cbn [rbind].
  eexists _, (TFork P (cut (s + 1) TL) (cut (s + 1) TR)). split; [done|]. split_and!.
  - split; [done|]. split; [unfold item_key in *; cbn [item_prefix]; lia|]. split.
    + unfold item_key. cbn [item_prefix tlabel]. fold (item_key rgt). rewrite ER, take_app_le by (unfold zlen in *; lia). apply prefix_take.
    + unfold cut at 1. cbn [tlabel set_label]. by rewrite <- Bg.
  - done.
  - done.
  - intros k v. destruct (tget_fork_parts s P _ _ TL TR k Hz PL PR eq_refl eq_refl) as [-> Hd].
    destruct (tget TR k) as [w|]; [rewrite Hd by eauto|]; naive_solver.
Qed.

(** ** The invariant of the stack *)

(** [low] lies under an item that recorded the bit [s]. *)
Definition under (s : Z) (low : item) (rest : list item) : Prop :=
  prev_lcp_len low < s \/ rest = [] /\ prev_lcp_len low = 0 /\ 0 <= s.

Inductive chain : list item -> list trie -> Prop :=
| chain_one it T : prev_lcp_len it = 0 -> chain [it] [T]
| chain_cons it T low Tl rest Ts :
    parts (prev_lcp_len it) (item_key low) (item_key it) -> item_rep (prev_lcp_len it + 1) low Tl ->
    under (prev_lcp_len it) low rest -> chain (low :: rest) (Tl :: Ts) -> chain (it :: low :: rest) (T :: Tl :: Ts).

Lemma chain_nonneg it rest Ts : chain (it :: rest) Ts -> 0 <= prev_lcp_len it.
Proof. inversion 1 as [|? ? ? ? ? ? Hp]; subst; [lia|]. pose proof (parts_nonneg _ _ _ Hp). lia. Qed.

(** The top replaced by an item with the key of a later one. *)
Lemma chain_replace top T Ts rest it T' s :
  chain (top :: rest) (T :: Ts) -> prev_lcp_len it = prev_lcp_len top -> parts s (item_key top) (item_key it) ->
  under s top rest -> chain (it :: rest) (T' :: Ts).
Proof.
  intros Hc Ep Hp Hu. inversion Hc as [|? ? low Tl rest' Ts' Hp' Hi Hu' Hc']; subst; constructor; rewrite ?Ep; try done.
  destruct Hu as [Hu|[? _]]; [|done]. apply (parts_trans _ _ _ _ _ Hp') in Hp as [_ Hp]. by rewrite Z.min_l in Hp by lia.
Qed.

Lemma chain_pop it T low Tl rest Ts s :
  chain (it :: low :: rest) (T :: Tl :: Ts) -> 0 <= s ->
  prev_lcp_len it > s ->
  Z.max (match rest with [] => 1 | _ => u16 (prev_lcp_len low + 1) end) (u16 (s + 1)) = Z.max (prev_lcp_len low) s + 1 /\
  Z.max (prev_lcp_len low) s + 1 <= prev_lcp_len it.
Proof.
  intros Hc Hs Hgt. inversion Hc as [|? ? ? ? ? ? Hp Hi Hu Hc']; subst. destruct (proj1 (proj2 Hi)) as (_ & H1 & H2).
  pose proof (chain_nonneg _ _ _ Hc'). destruct Hu as [Hu|(-> & Hu & _)].
  - rewrite (u16_small (s + 1)) by lia. destruct rest as [|low' rest].
    + inversion Hc'; subst. lia.
    + rewrite u16_small by lia. lia.
  - rewrite (u16_small (s + 1)) by lia. lia.
Qed.

Lemma has_merge T TL TR Ts k v :
  (forall k v, tget T k = Some v <-> tget TR k = Some v \/ tget TL k = Some v) ->
  has (T :: Ts) k v <-> has (TR :: TL :: Ts) k v.
Proof. intros E. rewrite !has_cons, E. naive_solver. Qed.

Lemma reduce_loop_spec rgt stack T Ts lcp Kn :
  chain (rgt :: stack) (T :: Ts) -> parts lcp (item_key rgt) Kn ->
  item_rep (Z.max (prev_lcp_len rgt) lcp + 1) rgt T ->
  exists rgt' stack' T' Ts', reduce_loop ctx tt rgt stack lcp N = Ok (rgt', stack') /\
    chain (rgt' :: stack') (T' :: Ts') /\ item_prefix rgt' = item_prefix rgt /\ item_rep (lcp + 1) rgt' T' /\
    under lcp rgt' stack' /\ forall k v, has (T' :: Ts') k v <-> has (T :: Ts) k v.
Proof.
  revert rgt T Ts. induction stack as [|lft stack IH]; intros rgt T Ts Hc Hp Hi; cbn [reduce_loop].
  - inversion Hc as [? ? Hz|]; subst. pose proof (parts_nonneg _ _ _ Hp) as (? & _). rewrite Hz, Z.max_r in Hi by lia.
    exists rgt, [], T, []. split_and!; try done. right. done.
  - inversion Hc as [|? ? ? Tl ? Ts0 Hp' Hil Hu Hc']; subst. pose proof (parts_nonneg _ _ _ Hp) as (? & _).
    destruct (Z.leb_spec (prev_lcp_len rgt) lcp).
    + exists rgt, (lft :: stack), T, (Tl :: Ts0). rewrite Z.max_r in Hi by lia.
      destruct (parts_trans _ _ _ _ _ Hp' Hp) as [? _]. split_and!; try done. left. lia.
    + destruct (chain_pop _ _ _ _ _ _ lcp Hc) as [-> Hle]; [lia..|]. rewrite Z.max_l in Hi by lia.
      pose proof (chain_nonneg _ _ _ Hc') as Hln.
      destruct (merge_spec (prev_lcp_len rgt) (Z.max (prev_lcp_len lft) lcp + 1) lft rgt Tl T) as (it & T1 & -> & Hi1 & Epf & Epv & EG);
        [done..|lia|]. cbn [rbind].
      destruct (IH it T1 Ts0) as (r' & st' & T' & Ts' & -> & Hc1 & Epf' & Hi' & Hu' & EG').
      * eapply chain_replace; [exact Hc' | done | | exact Hu]. unfold item_key in *. by rewrite Epf.
      * unfold item_key in *. by rewrite Epf.
      * by rewrite Epv.
      * exists r', st', T', Ts'. split_and!; try done; [by rewrite Epf'|]. intros k v. rewrite EG'. by apply has_merge.
Qed.

(** [reduce] makes room for a key that parts with that of the top. *)
Lemma reduce_spec key top rest T Ts s :
  chain (top :: rest) (T :: Ts) -> slice_wf key -> parts s (item_key top) (slice_bits key) ->
  item_rep (Z.max (prev_lcp_len top) s + 1) top T ->
  exists stack' Ts', reduce ctx tt (top :: rest) key N = Ok (s, stack') /\
    (forall it Tn, prev_lcp_len it = s -> item_key it = slice_bits key -> chain (it :: stack') (Tn :: Ts')) /\
    (forall k v, has Ts' k v <-> has (T :: Ts) k v) /\ stack' <> [].
Proof.
  intros Hc Hk Hp Hi. unfold reduce. destruct (key_slice_of top (proj1 Hi)) as [Ws Bs].
  destruct (lcp_slice _ _ Ws Hk) as (-> & _). rewrite Bs, (parts_lcp _ _ _ Hp).
  destruct (Z.leb_spec s (prev_lcp_len top)).
  - destruct (reduce_loop_spec top rest T Ts s _ Hc Hp Hi) as (r' & st' & T' & Ts' & -> & Hc' & Epf & Hi' & Hu & EG). cbn [rbind].
    exists (r' :: st'), (T' :: Ts'). split_and!; [done| |done|done]. intros it Tn Ei Ek. constructor; rewrite ?Ei, ?Ek; try done.
    unfold item_key in *. by rewrite Epf.
  - exists (top :: rest), (T :: Ts). rewrite Z.max_r in Hi by lia. split_and!; [done| |done|done]. intros it Tn Ei Ek.
    constructor; rewrite ?Ei, ?Ek; try done. by left.
Qed.

(** [finalize] joins the items to a root. *)
Lemma finalize_loop_spec rgt stack T Ts :
  chain (rgt :: stack) (T :: Ts) -> item_rep (match stack with [] => 0 | _ => prev_lcp_len rgt + 1 end) rgt T ->
  exists it T', finalize_loop ctx tt rgt stack N = Ok it /\ item_rep 0 it T' /\
    forall k v, tget T' k = Some v <-> has (T :: Ts) k v.
Proof.
  revert rgt T Ts. induction stack as [|lft stack IH]; intros rgt T Ts Hc Hi; cbn [finalize_loop].
  - inversion Hc; subst. exists rgt, T. split_and!; try done. intros k v. rewrite has_cons, has_nil. naive_solver.
  - inversion Hc as [|? ? ? Tl ? Ts0 Hp' Hil Hu Hc']; subst. pose proof (chain_nonneg _ _ _ Hc') as Hln.
    destruct (proj1 (proj2 Hil)) as (_ & H1 & H2). pose proof (chain_nonneg _ _ _ Hc).
    assert (match stack with [] => 0 | _ => u16 (prev_lcp_len lft + 1) end = match stack with [] => 0 | _ => prev_lcp_len lft + 1 end /\
      (match stack with [] => 0 | _ => prev_lcp_len lft + 1 end <= prev_lcp_len rgt)) as [-> Hle].
    { destruct Hu as [Hu|(-> & _)]; [|lia]. destruct stack; [lia|]. rewrite u16_small by lia. lia. }
    destruct (merge_spec (prev_lcp_len rgt) (match stack with [] => 0 | _ => prev_lcp_len lft + 1 end) lft rgt Tl T) as (it & T1 & -> & Hi1 & Epf & Epv & EG);
      [done..|destruct stack; lia|]. cbn [rbind].
    destruct (IH it T1 Ts0) as (r' & T' & -> & Hi' & EG').
    + eapply chain_replace; [exact Hc' | done | | exact Hu]. unfold item_key in *. by rewrite Epf.
    + by rewrite Epv.
    + exists r', T'. split_and!; try done. intros k v. rewrite EG'. by apply has_merge.
Qed.

Lemma finalize_spec top rest T Ts :
  chain (top :: rest) (T :: Ts) -> item_rep (match rest with [] => 0 | _ => prev_lcp_len top + 1 end) top T ->
  exists c T', finalize ctx tt (top :: rest) N = Ok (Some c) /\ rep N c T' /\ forall k v, tget T' k = Some v <-> has (T :: Ts) k v.
Proof.
  intros Hc Hi. unfold finalize. destruct (finalize_loop_spec top rest T Ts Hc Hi) as (it & T' & -> & Hi' & EG). cbn [rbind].
  destruct (item_built it T' Hi') as (c & -> & Hr). cbn [rbind]. by exists c, T'.
Qed.
End Stack.
