(* ===== verification/DictModifyStep.v ===== *)
(** * DictModifyStep: the items of the walk over a dictionary, and what they put on the stack

    [item_ok] is what an item of the walk knows of its subtree.  The pushes of
    [DictModify] put a subtree that is still pending on the stack; [ready] and [free]
    say what may come next to the stack they leave. *)

From stdpp Require Import gmap.
From S2P Require Import Prelude Bits DataBuilder DataBuilderSpec CellMeta Cell Slice SliceSpec SliceScan SliceScanSpec Builder BuilderSpec Context DictLabel DictLabelSpec Dict DictSpec DictKeys DictBuild DictModify DictStack.

(** ** Labels that the walk keeps *)

Lemma load_bit_cell s b s' : load_bit s = Ok (b, s') -> cell s' = cell s.
Proof. unfold load_bit. repeat case_match; naive_solver. Qed.

Lemma skip_first_cell s n m s' : skip_first s n m = Ok s' -> cell s' = cell s.
Proof. unfold skip_first, on_range. destruct (Range.skip_first _ _ _); naive_solver. Qed.

Lemma read_unary_cell fuel s n k s' : read_unary fuel s n = Ok (k, s') -> cell s' = cell s.
Proof.
  revert s n. induction fuel as [|fuel IH]; intros s n; [done|]. cbn [read_unary].
  destruct (load_bit s) as [[[] s1]|] eqn:E; cbn [rbind]; [..|done]; apply load_bit_cell in E.
  - intros H%IH. congruence.
  - intros [= <- <-]. done.
Qed.

(** A label is a window of the cell it is read from, or of one of the two constant cells. *)
Lemma read_label_cell s m lab s' :
  read_label s m = Ok (lab, s') -> cell lab = cell s \/ exists (b : bool), cell lab = if b then ALL_ONES_CELL else ALL_ZEROS_CELL.
Proof.
  unfold read_label. destruct (_ && _); [intros [= <- <-]; by left|].
  destruct (load_bit s) as [[b s1]|] eqn:E1; [|done]. cbn [rbind]. apply load_bit_cell in E1.
  destruct (negb b); [|destruct (load_bit s1) as [[b' s2]|] eqn:E2; [|done]; cbn [rbind]; apply load_bit_cell in E2; destruct (negb b')].
  - unfold read_hml_short. destruct (read_unary 1024 s1 0) as [[n s2]|] eqn:E2; [|done]. cbn [rbind]. apply read_unary_cell in E2.
    destruct (skip_first s2 n 0); [|done]. cbn [rbind]. intros [= <- <-]. left. simpl. congruence.
  - unfold read_hml_long. unfold load_uint, load_with. destruct (get_uint s2 0 (bits_for_len m)); [|done]. cbn [rbind].
    destruct (skip_first _ _ 0); [|done]. cbn [rbind]. intros [= <- <-]. left. simpl. congruence.
  - unfold read_hml_same. destruct (load_bit s2) as [[b2 s3]|]; [|done]. cbn [rbind].
    destruct (load_uint s3 _) as [[n s4]|]; [|done]. cbn [rbind]. intros [= <- <-]. right. by exists b2.
Qed.

Section Labels.
Context (addr_eq : Cell -> Cell -> bool) (Haddr : forall a b, addr_eq a b = true <-> a = b).

(** The owned label has the bits of the label. *)
Lemma label_new_spec c lab s m s' :
  read_label s m = Ok (lab, s') -> cell s = c -> slice_wf lab ->
  let kept := match label_new addr_eq c lab with LabelInline r => apply_allow_exotic r c | LabelSame l => l end in
  cell_wf c -> slice_wf kept /\ slice_bits kept = slice_bits lab.
Proof.
  intros E Hs W kept Hc. unfold kept, label_new. destruct (addr_eq (cell lab) c) eqn:Ea.
  { apply Haddr in Ea as <-. by destruct lab. }
  assert (cell lab <> c) as Hne by (intros E1; apply Haddr in E1; congruence).
  apply read_label_cell in E as [E|[b E]]; [congruence|]. rewrite get_bit_spec by (done || lia).
  destruct (slice_bits lab !! Z.to_nat 0) as [bit|] eqn:Eb; cycle 1.
  { change (Z.to_nat 0) with 0%nat in Eb. rewrite <- head_lookup in Eb. destruct (slice_bits lab); [|done].
    split; [|done]. pose proof (cw_len c Hc). pose proof (cw_rc c Hc). by constructor; simpl; try lia. }
  assert (bit = b) as ->; [|by rewrite <- E; destruct lab].
  pose proof (sw_bits _ W). pose proof (sw_bits_end _ W). unfold slice_bits in Eb.
  apply lookup_lt_Some in Eb as Hl. rewrite length_bits_from in Hl.
  rewrite lookup_bits_from in Eb by lia. injection Eb as <-. rewrite E in *.
  assert (forall i, 0 <= i < 1023 -> bit_at (data (if b then ALL_ONES_CELL else ALL_ZEROS_CELL)) i = b) as Hall; [|].
  { intros i Hi. assert (bits_from (data (if b then ALL_ONES_CELL else ALL_ZEROS_CELL)) 0 1023 = replicate 1023 b) as Hb by (by destruct b; vm_compute).
    apply (f_equal (fun l => l !! Z.to_nat i)) in Hb. rewrite lookup_bits_from, lookup_replicate_2 in Hb by lia.
    rewrite Z2Nat.id in Hb by lia. by injection Hb. }
  apply Hall. assert (bit_len (if b then ALL_ONES_CELL else ALL_ZEROS_CELL) = 1023) as Hl1 by (by destruct b). lia.
Qed.
End Labels.

(** ** Tries behind a prefix *)

Definition shift (P : list bool) (t : trie) : trie := set_label (P ++ tlabel t) t.

Lemma tlabel_shift P t : tlabel (shift P t) = P ++ tlabel t.
Proof. by destruct t. Qed.

Lemma cut_shift P t : cut (zlen P) (shift P t) = t.
Proof.
  unfold cut. rewrite tlabel_shift, drop_app_length' by (unfold zlen; lia). unfold shift. by destruct t.
Qed.

Lemma tget_shift P t k v : tget (shift P t) k = Some v <-> exists k', k = P ++ k' /\ tget t k' = Some v.
Proof.
  unfold shift. rewrite tget_prepend. destruct (strip P k) as [x|] eqn:E.
  - apply strip_Some in E as ->. split; [by exists x|]. by intros (k' & <-%app_inv_head & ?).
  - split; [done|]. intros (k' & -> & _). by rewrite strip_app in E.
Qed.

(** The keys of a fork are those of its children. *)
Lemma tget_shift_fork P K l r k v :
  tget (shift P (TFork K l r)) k = Some v <->
  tget (shift (P ++ K ++ [false]) l) k = Some v \/ tget (shift (P ++ K ++ [true]) r) k = Some v.
Proof.
  rewrite !tget_shift. simpl. split.
  - intros (k' & -> & E). destruct (strip K k') as [[|[] x]|] eqn:Es; try done; apply strip_Some in Es as ->;
      [right | left]; exists x; (split; [by rewrite <- !app_assoc | done]).
  - intros [(x & -> & E)|(x & -> & E)]; eexists; (split; [by rewrite <- app_assoc|]); by rewrite <- app_assoc, strip_app.
Qed.

Section Step.
Context {mach : Machine} (ctx : CellContext) {laws : ContextLaws ctx}.
Context (N Dv : Z) (HN : 0 <= N <= 1023)
  (Hcap : 2 + len_bits N + N <= MAX_BIT_LEN) (HDv : 0 <= Dv) (HD : Dv + N <= MAX_DEPTH) (canon : bool).
Context {V : Type} `{Store V} (addr_eq : Cell -> Cell -> bool) (Haddr : forall a b, addr_eq a b = true <-> a = b).

#[local] Existing Instance Mode.
#[local] Abbreviation item := (MergeStackItem V).
#[local] Abbreviation rep := (rep ctx N Dv canon).
#[local] Abbreviation item_rep := (item_rep ctx N Dv canon).
#[local] Abbreviation chain := (chain ctx N Dv canon).

(** ** The items of the walk *)

Definition walked (X : IterStackItem) : list bool := contents (is_prefix X).

(** What is behind the label can be read at the offset [n]. *)
Definition behind_label (m : Z) (c : Cell) (t : trie) (n : Z) : Prop :=
  exists s s' x, slice_new c = Ok s /\ skip_first s n 0 = Ok s' /\ value_slice x s' /\ rest_of ctx N Dv canon m t x.

Record item_ok (X : IterStackItem) (t : trie) : Prop := {
  io_wf : wf (is_prefix X);
  io_rep : rep (N - zlen (walked X)) (is_cell X) t;
  io_label : slice_wf (iter_label X) /\ slice_bits (iter_label X) = tlabel t;
  io_remaining : is_remaining_key_bits X = N - zlen (walked X) - zlen (tlabel t);
  io_behind : behind_label (N - zlen (walked X)) (is_cell X) t (is_after_label_offset X);
}.

Lemma read_label_behind m c t :
  rep m c t -> exists s lab s', slice_new c = Ok s /\ read_label s m = Ok (lab, s') /\ cell s = c /\ slice_wf lab /\
    slice_bits lab = tlabel t /\ size_bits lab = zlen (tlabel t) /\ behind_label m c t (offset_bits s').
Proof.
  intros Hr. pose proof (rep_range _ _ _ _ _ _ _ Hr) as Hm. pose proof (rep_label_len _ _ _ _ _ _ _ Hr) as HK.
  apply rep_node in Hr as (_ & _ & _ & lab & x & Hl & Ho & Hrest & _).
  destruct (ordinary_slice _ _ _ Ho) as (En & W & B & R & Rc).
  destruct (read_label_spec m (tlabel t) ltac:(lia) HK _ lab x.1 W Hl B) as (ls & s' & E & Wl & Bl & Mv).
  exists (new_allow_exotic c), ls, s'. split_and!; try done.
  { by rewrite <- zlen_slice_bits, Bl. }
  exists (new_allow_exotic c), s', x. split_and!; [done| | |done].
  - pose proof (sw_bits _ (mv_wf _ _ _ Mv)). pose proof (sw_bits_end _ (mv_wf _ _ _ Mv)). pose proof (mv_bend _ _ _ Mv) as Hbe.
    rewrite (mv_cell _ _ _ Mv) in *. pose proof (cw_len _ (sw_cell _ W)). simpl in *.
    rewrite skip_first_spec by (done || unfold offset_bits; lia). rewrite size_bits_eq by done. simpl.
    unfold offset_bits. destruct (Z.leb_spec (bits_start (range s')) (bit_len c - 0)); [|lia]. f_equal.
    destruct s' as [c' [b1 b2 r1 r2]]. unfold advance. destruct Mv as [? ? ? ? Ec Eb Er1 Er2]. simpl in *. subst.
    by rewrite u16_small by lia.
  - destruct Mv as [? ? Er Ec Ecell _ _ _]. split_and!; [done..|by rewrite Er, R | by rewrite Ec, Rc | rewrite Ecell; apply Ho].
Qed.

(** [IterStackItem::load] *)
Lemma iter_load_spec P m c t :
  wf P -> m = N - zlen (contents P) -> rep m c t ->
  exists X, iter_load addr_eq P m c = Ok X /\ item_ok X t /\ is_prefix X = P /\ is_cell X = c /\ is_state X = -1 /\ is_flatten X = false.
Proof.
  intros W -> Hr. destruct (read_label_behind _ _ _ Hr) as (s & lab & s' & En & E & Ec & Wl & Bl & Sl & Hb).
  pose proof (rep_range _ _ _ _ _ _ _ Hr). pose proof (rep_label_len _ _ _ _ _ _ _ Hr). pose proof (zlen_nonneg (tlabel t)).
  unfold iter_load. rewrite En. cbn [rbind]. rewrite E. cbn [rbind]. eexists. split; [done|]. split_and!; try done.
  assert (cell_wf c) as Hc by (apply rep_node in Hr as (_ & _ & _ & ? & ? & _ & Ho & _); apply Ho).
  destruct (label_new_spec addr_eq Haddr c lab s _ s' E Ec Wl Hc) as [W' B'].
  split; simpl; [done | done | | | done].
  - unfold iter_label. simpl. by rewrite B', Bl.
  - rewrite Sl, u16_small by lia. done.
Qed.

Lemma io_range X t : item_ok X t -> 0 <= zlen (walked X) /\ zlen (walked X) + zlen (tlabel t) <= N /\
  match t with TLeaf K _ => zlen (walked X) + zlen K = N | TFork K _ _ => zlen (walked X) + zlen K < N end.
Proof.
  intros [_ Hr _ _ _]. pose proof (rep_range _ _ _ _ _ _ _ Hr). pose proof (rep_label_len _ _ _ _ _ _ _ Hr).
  pose proof (zlen_nonneg (walked X)). split_and!; [lia | lia |]. inversion Hr; subst; lia.
Qed.

(** A prefix and the label of an item, with more behind. *)
Lemma store_label d s : wf d -> slice_wf s -> zlen (contents d) + zlen (slice_bits s) <= N ->
  exists d', store_slice_data uninit d s = Ok d' /\ wf d' /\ contents d' = contents d ++ slice_bits s.
Proof.
  intros W Ws Hz. destruct uninit_ok. rewrite store_slice_data_spec by done. unfold append.
  rewrite <- (zlen_contents d W). unfold MAX_BIT_LEN. destruct (Z.leb_spec (zlen (contents d) + zlen (slice_bits s)) 1023); [|lia].
  eexists. split; [done|]. split; [apply of_bits_wf | apply contents_of_bits]; rewrite zlen_app; unfold MAX_BIT_LEN; lia.
Qed.

Lemma child_prefix_spec X K l r (b : bool) :
  item_ok X (TFork K l r) -> exists d, child_prefix X (b2z b) = Ok d /\ wf d /\ contents d = walked X ++ K ++ [b].
Proof.
  intros Hx. pose proof (io_range _ _ Hx) as (? & _ & Hz). pose proof (zlen_nonneg K). destruct Hx as [W _ [Wl Bl] _ _].
  unfold child_prefix. destruct (store_label (is_prefix X) (iter_label X) W Wl) as (d & -> & Wd & Cd).
  { rewrite Bl. unfold walked in *. simpl. lia. }
  cbn [rbind]. replace (negb (b2z b =? 0)) with b by (by destruct b). rewrite store_bit_spec by done. unfold append.
  rewrite <- (zlen_contents d Wd), Cd, Bl, zlen_app. simpl tlabel. change (zlen [b]) with 1. unfold walked, MAX_BIT_LEN in *.
  destruct (Z.leb_spec (zlen (contents (is_prefix X)) + zlen K + 1) 1023); [|lia].
  eexists. split; [done|]. rewrite <- app_assoc.
  split; [apply of_bits_wf | apply contents_of_bits]; rewrite !zlen_app; change (zlen [b]) with 1; unfold MAX_BIT_LEN; lia.
Qed.

(** ** The stack between two pushes *)

Definition good (stack : list item) (Ts : list trie) : Prop :=
  match stack with [] => Ts = [] | _ => chain stack Ts end.

(** An item with the key [Kn] can be pushed. *)
Definition fits (stack : list item) (Ts : list trie) (Kn : list bool) : Prop :=
  match stack, Ts with
  | top :: _, T :: _ => exists s, parts s (item_key top) Kn /\ item_rep (Z.max (prev_lcp_len top) s + 1) top T
  | _, _ => True
  end.

(** The key [Kn] comes after the top. *)
Definition below (stack : list item) (Kn : list bool) : Prop :=
  match stack with top :: _ => exists s, parts s (item_key top) Kn | [] => True end.

(** Whatever comes next, and nothing too. *)
Definition free (stack : list item) (Ts : list trie) : Prop :=
  match stack, Ts with
  | top :: rest, T :: _ => forall o, (match rest with [] => 0 | _ => prev_lcp_len top + 1 end) <= o <= zlen (item_key top) -> item_rep o top T
  | _, _ => True
  end.

Definition on (P : list bool) (stack : list item) : Prop :=
  match stack with top :: _ => P `prefix_of` item_key top | [] => False end.

(** Every key from [P] on can be pushed. *)
Definition ready (P : list bool) (stack : list item) (Ts : list trie) : Prop :=
  forall Kn, P `prefix_of` Kn -> zlen Kn <= N -> fits stack Ts Kn.

Lemma fits_below stack Ts Kn : good stack Ts -> fits stack Ts Kn -> below stack Kn.
Proof.
  destruct stack as [|top rest]; [done|]. destruct Ts as [|T Ts]; [by inversion 1|]. intros _ (s & ? & _). by exists s.
Qed.

Lemma free_fits stack Ts Kn : good stack Ts -> free stack Ts -> below stack Kn -> fits stack Ts Kn.
Proof.
  destruct stack as [|top rest]; [done|]. destruct Ts as [|T Ts]; [done|]. simpl. intros Hc Hf [s Hp]. exists s. split; [done|].
  pose proof (parts_nonneg _ _ _ Hp). apply Hf. inversion Hc as [? ? E|? ? ? ? ? ? Hpp]; subst; [lia|].
  pose proof (parts_nonneg _ _ _ Hpp). lia.
Qed.

Lemma ready_prefix P Q stack Ts : ready P stack Ts -> P `prefix_of` Q -> ready Q stack Ts.
Proof. intros Hr HP Kn HQ. apply Hr. by etrans. Qed.

(** ** Pushes *)

(** The item for [T] with the key [Kn] is pushed; [node] says that it is bound to its place. *)
Definition pushes (r : result (list item)) (stack : list item) (Ts : list trie) (Kn : list bool) (T : trie) (node : bool) : Prop :=
  exists it stack' Ts', r = Ok (it :: stack') /\ chain (it :: stack') (T :: Ts') /\ item_key it = Kn /\
    (forall k v, has Ts' k v <-> has Ts k v) /\
    match stack with
    | [] => prev_lcp_len it = 0 /\ stack' = []
    | top :: _ => parts (prev_lcp_len it) (item_key top) Kn /\ stack' <> []
    end /\
    (if node then item_rep (zlen Kn) it T else forall o, 0 <= o <= zlen Kn -> item_rep o it T).

Lemma push_item key stack Ts (mk : Z -> item) T node :
  good stack Ts -> slice_wf key -> fits stack Ts (slice_bits key) ->
  (forall s, prev_lcp_len (mk s) = s /\ item_key (mk s) = slice_bits key) ->
  (forall s, if node : bool then item_rep (zlen (slice_bits key)) (mk s) T else forall o, 0 <= o <= zlen (slice_bits key) -> item_rep o (mk s) T) ->
  pushes (let! (lcp_len, stack) := reduce ctx tt stack key N in Ok (mk lcp_len :: stack)) stack Ts (slice_bits key) T node.
Proof.
  intros Hg Hk Hf Hmk Hi. destruct stack as [|top rest].
  - simpl in Hg. subst. exists (mk 0), [], []. destruct (Hmk 0) as [E1 E2]. split_and!; [done | by constructor | done.. | apply Hi].
  - destruct Ts as [|T0 Ts]; [by inversion Hg|]. destruct Hf as (s & Hp & Hi0).
    destruct (reduce_spec ctx N Dv HN Hcap HDv HD canon key top rest T0 Ts s Hg Hk Hp Hi0) as (stack' & Ts' & -> & Hc & EG & Hne). cbn [rbind].
    destruct (Hmk s) as [E1 E2]. specialize (Hc (mk s) T E1 E2). exists (mk s), stack', Ts'. rewrite E1. specialize (Hi s). by split_and!.
Qed.

Lemma add_value_spec key v value stack Ts :
  good stack Ts -> wf key -> zlen (contents key) = N -> fits stack Ts (contents key) ->
  stores ctx (store_into value) v -> vok ctx N Dv v ->
  pushes (add_value ctx tt stack key value tt) stack Ts (contents key) (TLeaf (contents key) v) false.
Proof.
  intros Hg W Hz Hf Hst Hv. destruct (as_data_slice_spec key W) as (Ws & Bs & _). pose proof (zlen_contents key W).
  unfold add_value. replace (DataBuilder.bit_len key) with N by lia. rewrite <- Bs at 1.
  apply (push_item (as_data_slice key) stack Ts (fun s => @ItemLeaf Mode V key value tt s)); rewrite ?Bs; try done.
  intros s o Ho. split; [done|]. change (item_key _) with (contents key). split; [lia|]. by exists v.
Qed.

Lemma add_raw_leaf_spec X K v stack Ts :
  item_ok X (TLeaf K v) -> good stack Ts -> fits stack Ts (walked X ++ K) ->
  pushes (let! prefix := store_slice_data uninit (is_prefix X) (iter_label X) in
          add_raw_leaf ctx tt stack prefix (is_cell X) (is_after_label_offset X)) stack Ts (walked X ++ K) (shift (walked X) (TLeaf K v)) false.
Proof.
  intros Hx Hg Hf. pose proof (io_range _ _ Hx) as (? & _ & Hz). destruct Hx as [W Hr [Wl Bl] _ (s & s' & x & E1 & E2 & Hx & Hrest)].
  destruct (store_label (is_prefix X) (iter_label X) W Wl) as (d & -> & Wd & Cd); [rewrite Bl; unfold walked in *; simpl; lia|]. cbn [rbind].
  rewrite Bl in Cd. change (contents (is_prefix X)) with (walked X) in Cd. simpl tlabel in Cd.
  destruct (as_data_slice_spec d Wd) as (Ws & Bs & _). rewrite Cd in Bs.
  assert (zlen (walked X ++ K) = N) as Hlen by (rewrite zlen_app; lia).
  unfold add_raw_leaf. replace (DataBuilder.bit_len d) with N by (rewrite <- (zlen_contents d Wd), Cd; lia). rewrite <- Bs at 1.
  apply (push_item (as_data_slice d) stack Ts (fun s => @ItemDenorm Mode V d (is_cell X) (is_after_label_offset X) true s)); rewrite ?Bs; try done.
  intros sp o Ho. split; [done|]. change (item_key _) with (contents d). rewrite Cd. split; [lia|]. split; [done|].
  exists s, s', x. split_and!; try done. simpl in *. destruct Hrest as (_ & ? & ->). done.
Qed.

(** A subtree whose label joins the prefix *)
Lemma add_flattened_spec d c t stack Ts :
  wf d -> 1 <= zlen (contents d) -> rep (N - zlen (contents d)) c t -> good stack Ts -> fits stack Ts (contents d ++ tlabel t) ->
  pushes (add_flattened_subtree ctx tt stack d (N - zlen (contents d)) c) stack Ts (contents d ++ tlabel t) (shift (contents d) t) false.
Proof.
  intros W H1 Hr Hg Hf. destruct (read_label_behind _ _ _ Hr) as (s & lab & s' & En & E & Ec & Wl & Bl & Sl & (s1 & s2 & x & E1 & E2 & Hx & Hrest)).
  pose proof (rep_range _ _ _ _ _ _ _ Hr). pose proof (rep_label_len _ _ _ _ _ _ _ Hr) as HK. pose proof (zlen_contents d W) as Hd.
  destruct (store_label d lab W Wl) as (d' & Es & Wd & Cd); [rewrite Bl; lia|]. rewrite Bl in Cd.
  destruct (as_data_slice_spec d' Wd) as (Ws & Bs & _). rewrite Cd in Bs.
  assert (zlen (contents d ++ tlabel t) <= N) as Hlen by (rewrite zlen_app; lia).
  unfold add_flattened_subtree. rewrite En. cbn [rbind]. rewrite E. cbn [rbind]. rewrite Es. cbn [rbind].
  replace (u16 (DataBuilder.bit_len d + (N - zlen (contents d)))) with N by (rewrite u16_small; lia). rewrite <- Bs at 1.
  apply (push_item (as_data_slice d') stack Ts (fun n => @ItemDenorm Mode V d' c (offset_bits s') (size_bits lab =? N - zlen (contents d)) n)); rewrite ?Bs; try done.
  intros sp o Ho. split; [done|]. change (item_key _) with (contents d'). rewrite Cd. split; [lia|]. rewrite tlabel_shift. split; [done|].
  exists s1, s2, x. split_and!; try done. destruct t as [K v|K l r]; simpl in *.
  - destruct Hrest as (? & ? & ->). rewrite zlen_app. split_and!; [lia | done..].
  - destruct Hrest as (? & cl & cr & y & -> & Hrest). rewrite zlen_app. split; [lia|]. exists cl, cr, y.
    by replace (N - (zlen (contents d) + zlen K) - 1) with (N - zlen (contents d) - zlen K - 1) by lia.
Qed.

(** A subtree as it is *)
Lemma add_subtree_spec d c t stack Ts :
  wf d -> 1 <= zlen (contents d) -> rep (N - zlen (contents d)) c t -> good stack Ts -> fits stack Ts (contents d) ->
  pushes (add_subtree ctx tt stack d (N - zlen (contents d)) c) stack Ts (contents d) (shift (contents d) t) true.
Proof.
  intros W H1 Hr Hg Hf. destruct (as_data_slice_spec d W) as (Ws & Bs & _). pose proof (zlen_contents d W) as Hd.
  pose proof (rep_range _ _ _ _ _ _ _ Hr).
  unfold add_subtree. replace (u16 (DataBuilder.bit_len d + (N - zlen (contents d)))) with N by (rewrite u16_small; lia).
  cbn [read_node_extra Mode SimpleMergeStackItemMode rbind]. rewrite <- Bs at 1.
  apply (push_item (as_data_slice d) stack Ts (fun n => @ItemNode Mode V d c tt n)); rewrite ?Bs; try done.
  intros sp. split; [done|]. change (item_key _) with (contents d). split; [lia|].
  rewrite take_ge by (unfold zlen; lia). rewrite tlabel_shift, cut_shift. split; [by eexists | done].
Qed.

(** What a push leaves: the tries, and what the stack is ready for. *)
Definition grown (stack' : list item) (Ts' Ts : list trie) (T : trie) : Prop :=
  good stack' Ts' /\ forall k v, has Ts' k v <-> tget T k = Some v \/ has Ts k v.

Lemma pushes_free r stack Ts Kn T :
  pushes r stack Ts Kn T false ->
  exists stack' Ts', r = Ok stack' /\ grown stack' Ts' Ts T /\ free stack' Ts' /\
    match stack' with top :: _ => item_key top = Kn | [] => False end.
Proof.
  intros (it & stack' & Ts' & -> & Hc & Ek & EG & _ & Hi). exists (it :: stack'), (T :: Ts'). split_and!; [done| | |done].
  - split; [done|]. intros k v. by rewrite has_cons, EG.
  - intros o Ho. rewrite Ek in Ho. apply Hi. pose proof (chain_nonneg _ _ _ _ _ _ _ Hc). destruct stack'; lia.
Qed.

(** The child [b] of an item; [joined] says that the stack ends in the other child. *)
Definition joined (P : list bool) (stack : list item) : Prop :=
  match stack with top :: _ => parts (zlen P - 1) (item_key top) P | [] => False end.

Definition child_pushed (r : result (list item)) (stack : list item) (Ts : list trie) (P : list bool) (T : trie) (fl : bool) : Prop :=
  exists stack' Ts', r = Ok stack' /\ grown stack' Ts' Ts T /\ on P stack' /\
    (forall Kn, parts (zlen P - 1) P Kn -> fits stack' Ts' Kn) /\
    (fl = true \/ joined P stack -> free stack' Ts').

Lemma free_child r stack Ts P K T : pushes r stack Ts (P ++ K) T false -> child_pushed r stack Ts P T true.
Proof.
  intros (stack' & Ts' & -> & [Hg EG] & Hf & Hk)%pushes_free. exists stack', Ts'. destruct stack' as [|top rest]; [done|].
  split_and!; try done.
  - simpl. rewrite Hk. by eexists.
  - intros Kn Hp. apply free_fits; [done..|]. exists (zlen P - 1). rewrite Hk. eapply parts_ext; [done| by eexists | done].
Qed.

Lemma node_child r stack Ts P T : 1 <= zlen P -> pushes r stack Ts P T true -> child_pushed r stack Ts P T false.
Proof.
  intros H1 (it & stack' & Ts' & -> & Hc & Ek & EG & Hs & Hi). exists (it :: stack'), (T :: Ts').
  pose proof (chain_nonneg _ _ _ _ _ _ _ Hc). split_and!; [done| | | |].
  - split; [done|]. intros k v. by rewrite has_cons, EG.
  - simpl. by rewrite Ek.
  - intros Kn Hp. exists (zlen P - 1). rewrite Ek. split; [done|].
    assert (prev_lcp_len it <= zlen P - 1); [|by rewrite Z.max_r, Z.sub_add by lia].
    destruct stack as [|top rest]; [lia|]. destruct Hs as [Hp' _]. apply parts_nonneg in Hp'. lia.
  - intros [|Hj] o Ho; [done|]. destruct stack as [|top rest]; [done|]. destruct Hs as [Hp' Hne]. simpl in Hj.
    apply parts_lcp in Hp', Hj. rewrite Ek in Ho. destruct stack'; [done|]. by replace o with (zlen P) by lia.
Qed.

Lemma add_child_subtree_spec X K l r (b : bool) fl stack Ts :
  let P := walked X ++ K ++ [b] in
  item_ok X (TFork K l r) -> good stack Ts -> ready P stack Ts ->
  child_pushed (add_child_subtree ctx tt X fl stack (b2z b)) stack Ts P (shift P (if b then r else l)) (fl || is_flatten X).
Proof.
  intros P Hx Hg Hr. destruct (child_prefix_spec _ _ _ _ b Hx) as (d & Ed & Wd & Cd). fold P in Cd.
  pose proof (io_range _ _ Hx) as (? & _ & Hz). pose proof (zlen_nonneg K).
  destruct Hx as [_ Hrep _ Hrem _]. destruct (fork_child _ _ _ _ _ _ _ _ _ b Hrep) as (ch & _ & _ & Ech & _ & Hch).
  assert (zlen P = zlen (walked X) + zlen K + 1) as HP by (unfold P; rewrite !zlen_app; change (zlen [b]) with 1; lia).
  assert (rep (N - zlen (contents d)) ch (if b then r else l)) as Hch'.
  { rewrite Cd, HP. by replace (N - (zlen (walked X) + zlen K + 1)) with (N - zlen (walked X) - zlen K - 1) by lia. }
  unfold add_child_subtree. rewrite Ech. cbn [some_or_underflow rbind]. rewrite Ed. cbn [rbind].
  replace (u16 (is_remaining_key_bits X - 1)) with (N - zlen (contents d)) by (rewrite Hrem, Cd, HP, u16_small; simpl; lia).
  pose proof (rep_label_len _ _ _ _ _ _ _ Hch'). rewrite <- Cd. destruct (fl || is_flatten X).
  - eapply free_child, add_flattened_spec; [done | rewrite Cd; lia | done | done |]. apply Hr; [rewrite Cd; by eexists|]. rewrite zlen_app. lia.
  - apply node_child; [rewrite Cd; lia|]. apply add_subtree_spec; [done | rewrite Cd; lia | done | done |]. apply Hr; [by rewrite Cd | rewrite Cd; lia].
Qed.

(** ** What is pending *)

(** The key bits up to the end of the label *)
Definition opened (X : IterStackItem) (t : trie) : list bool := walked X ++ tlabel t.

(** The tries that are not on the stack yet. *)
Definition pend (X : IterStackItem) (t : trie) : list trie :=
  match t with
  | TLeaf _ _ => if is_state X =? STATE_UNUSED then [shift (walked X) t] else []
  | TFork _ l r =>
      (if is_state X <? 0 then [shift (opened X t ++ [false]) l] else []) ++
      (if is_state X <? 1 then [shift (opened X t ++ [true]) r] else [])
  end.

Definition state_ok (X : IterStackItem) (t : trie) : Prop :=
  match t with TLeaf _ _ => is_state X = -1 \/ is_state X = 2 | TFork _ _ _ => -1 <= is_state X <= 2 end.

(** Where the pending tries start *)
Definition front (X : IterStackItem) (t : trie) : list bool :=
  if is_state X =? STATE_UNUSED then opened X t else opened X t ++ [true].

(** Leaving an item *)
Definition drain (X : IterStackItem) (fl : bool) (stack : list item) : result (list item) :=
  if negb (is_state X =? STATE_USED_FULL) then add_subtrees ctx tt X 1 fl stack else Ok stack.

Lemma pend_prefix X t T : T ∈ pend X t -> opened X t `prefix_of` tlabel T.
Proof.
  unfold pend, opened. destruct t as [K v|K l r]; simpl.
  - destruct (_ =? _); [intros ->%list_elem_of_singleton; done | by intros ?%elem_of_nil].
  - rewrite elem_of_app. intros [E|E]; (destruct (_ <? _); [apply list_elem_of_singleton in E as -> | by apply elem_of_nil in E]);
      rewrite tlabel_shift, <- app_assoc; by eexists.
Qed.

Lemma has_pend_prefix X t k v : has (pend X t) k v -> opened X t `prefix_of` k.
Proof. intros (T & HT & E). apply pend_prefix in HT. apply tget_prefix in E. by etrans. Qed.

(** All of an item that is not used yet *)
Lemma pend_all X t k v : is_state X = -1 -> has (pend X t) k v <-> tget (shift (walked X) t) k = Some v.
Proof.
  clear. intros E. unfold pend. rewrite E. destruct t as [K w|K l r].
  - change (-1 =? STATE_UNUSED) with true. cbv iota. rewrite has_cons, has_nil. tauto.
  - rewrite tget_shift_fork. simpl. rewrite !has_cons, has_nil. unfold opened. simpl tlabel. rewrite <- !app_assoc. tauto.
Qed.

(** The right child ends an item, flattened or behind the left one. *)
Lemma push_right X K l r fl stack Ts :
  item_ok X (TFork K l r) -> good stack Ts -> ready (opened X (TFork K l r) ++ [true]) stack Ts ->
  (fl || is_flatten X = false -> on (opened X (TFork K l r) ++ [false]) stack) ->
  exists stack' Ts', add_child_subtree ctx tt X fl stack 1 = Ok stack' /\
    grown stack' Ts' Ts (shift (opened X (TFork K l r) ++ [true]) r) /\ free stack' Ts' /\ on (opened X (TFork K l r)) stack'.
Proof.
  intros Hx Hg Hr Ht. assert (opened X (TFork K l r) = walked X ++ K) as Eo by done. rewrite Eo in *.
  destruct (add_child_subtree_spec X K l r true fl stack Ts Hx Hg) as (s2 & T2 & E2 & HG & O2 & R2 & F2); [by rewrite app_assoc|].
  change (b2z true) with 1 in E2. rewrite app_assoc in *. exists s2, T2. split_and!; [done..| |].
  - apply F2. destruct (fl || is_flatten X) eqn:Efl; [by left|]. right. specialize (Ht eq_refl). unfold joined.
    destruct stack as [|top rest]; [done|]. replace (zlen ((walked X ++ K) ++ [true]) - 1) with (zlen (walked X ++ K)) by (rewrite zlen_snoc; lia).
    by apply parts_fork.
  - destruct s2; [done|]. simpl in *. etrans; [|exact O2]. by eexists.
Qed.

Lemma push_left X K l r fl stack Ts :
  item_ok X (TFork K l r) -> good stack Ts -> ready (opened X (TFork K l r)) stack Ts ->
  exists stack' Ts', add_child_subtree ctx tt X fl stack 0 = Ok stack' /\
    grown stack' Ts' Ts (shift (opened X (TFork K l r) ++ [false]) l) /\ on (opened X (TFork K l r) ++ [false]) stack' /\
    ready (opened X (TFork K l r) ++ [true]) stack' Ts' /\ (fl || is_flatten X = true -> free stack' Ts').
Proof.
  intros Hx Hg Hr. assert (opened X (TFork K l r) = walked X ++ K) as Eo by done. rewrite Eo in *.
  destruct (add_child_subtree_spec X K l r false fl stack Ts Hx Hg) as (s1 & T1 & E1 & HG & O1 & R1 & F1).
  { eapply ready_prefix; [done|]. rewrite app_assoc. by eexists. }
  change (b2z false) with 0 in E1. rewrite app_assoc in *. exists s1, T1. split_and!; [done..| |by auto].
  intros Kn HKn _. apply R1. replace (zlen ((walked X ++ K) ++ [false]) - 1) with (zlen (walked X ++ K)) by (rewrite zlen_snoc; lia).
  by apply parts_fork.
Qed.

Lemma drain_leaf X K v stack Ts :
  item_ok X (TLeaf K v) -> good stack Ts -> ready (opened X (TLeaf K v)) stack Ts ->
  exists stack' Ts', (let! prefix := store_slice_data uninit (is_prefix X) (iter_label X) in
      add_raw_leaf ctx tt stack prefix (is_cell X) (is_after_label_offset X)) = Ok stack' /\
    grown stack' Ts' Ts (shift (walked X) (TLeaf K v)) /\ free stack' Ts' /\ on (opened X (TLeaf K v)) stack'.
Proof.
  intros Hx Hg Hr. pose proof (io_range _ _ Hx) as (_ & _ & Hz).
  destruct (pushes_free _ _ _ _ _ (add_raw_leaf_spec X K v stack Ts Hx Hg ltac:(apply Hr; [done | rewrite zlen_app; lia])))
    as (stack' & Ts' & -> & HG & Hf' & Hk).
  exists stack', Ts'. split_and!; try done. destruct stack'; [done|]. simpl. by rewrite Hk.
Qed.

Lemma drain_spec X t fl stack Ts :
  item_ok X t -> state_ok X t -> good stack Ts ->
  (is_state X < 1 -> ready (front X t) stack Ts) -> (is_state X = -1 \/ free stack Ts) ->
  (fl || is_flatten X = false -> is_state X = 0 -> on (opened X t ++ [false]) stack) ->
  exists stack' Ts', drain X fl stack = Ok stack' /\ good stack' Ts' /\ free stack' Ts' /\
    (forall k v, has Ts' k v <-> has (pend X t) k v \/ has Ts k v) /\
    (if is_state X <? 1 then on (opened X t) stack' else stack' = stack /\ Ts' = Ts).
Proof.
  clear addr_eq Haddr. intros Hx Hst Hg Hr Hf Ht. pose proof (io_range _ _ Hx) as (_ & _ & Hz). unfold drain, add_subtrees, pend, front in *.
  assert (is_state X = 1 \/ is_state X = 2 -> free stack Ts -> exists stack' Ts', Ok stack = Ok stack' /\ good stack' Ts' /\ free stack' Ts' /\
    (forall k v, has Ts' k v <-> has [] k v \/ has Ts k v) /\ stack' = stack /\ Ts' = Ts) as Hnone.
  { intros _ ?. exists stack, Ts. split_and!; try done. intros. rewrite has_nil. naive_solver. }
  rewrite (io_remaining _ _ Hx). destruct t as [K v|K l r]; simpl in Hst; cbn [tlabel].
  - replace (N - zlen (walked X) - zlen K) with 0 by lia. change (0 =? 0) with true.
    destruct Hst as [Es|Es]; rewrite Es in *; [|by apply Hnone; [right|destruct Hf]].
    destruct (drain_leaf X K v stack Ts Hx Hg ltac:(apply Hr; lia)) as (s1 & T1 & E1 & [G1 EG] & F1 & O1).
    exists s1, T1. split_and!; try done. intros k w. change (-1 =? STATE_UNUSED) with true. cbv iota. rewrite EG, has_cons, has_nil. naive_solver.
  - destruct (Z.eqb_spec (N - zlen (walked X) - zlen K) 0); [lia|].
    assert (is_state X = -1 \/ is_state X = 0 \/ is_state X = 1 \/ is_state X = 2) as [Es|[Es|[Es|Es]]] by lia; rewrite Es in *;
      [| |change (seqZ (1 + 1) (1 - 1)) with (@nil Z); by apply Hnone; [left|destruct Hf]|by apply Hnone; [right|destruct Hf]].
    + change (seqZ (-1 + 1) (1 - -1)) with [0; 1]. cbn [foldl rbind negb Z.eqb STATE_USED_FULL Pos.eqb].
      destruct (push_left X K l r fl stack Ts Hx Hg ltac:(apply Hr; lia)) as (s1 & T1 & -> & [G1 EG1] & O1 & R1 & _). cbn [rbind].
      destruct (push_right X K l r fl s1 T1 Hx G1 R1 ltac:(done)) as (s2 & T2 & -> & [G2 EG2] & F2 & O2).
      exists s2, T2. split_and!; try done. intros k v. rewrite EG2, EG1. simpl. rewrite !has_cons, has_nil. naive_solver.
    + change (seqZ (0 + 1) (1 - 0)) with [1]. cbn [foldl rbind negb Z.eqb STATE_USED_FULL Pos.eqb].
      destruct (push_right X K l r fl stack Ts Hx Hg ltac:(apply Hr; lia) ltac:(auto)) as (s2 & T2 & -> & [G2 EG2] & F2 & O2).
      exists s2, T2. split_and!; try done. intros k v. rewrite EG2. simpl. rewrite !has_cons, has_nil. naive_solver.
Qed.
End Step.
