(* ===== verification/DictBuildSpec.v ===== *)
(** * DictBuildSpec: building from sorted entries

    The loop of [build_dict_from_sorted_iter] keeps a stack whose tries add up to the
    map of the entries so far, the first of equal keys winning, with the last key on
    top; a key that is lower than the one before it ends the loop. *)

From stdpp Require Import gmap.
From S2P Require Import Prelude Bits DataBuilder DataBuilderSpec CellMeta Cell Slice SliceSpec SliceScan SliceScanSpec Builder BuilderSpec Context DictLabel DictLabelSpec Dict DictSpec DictKeys DictBuild DictStack.

(** No key is lower than the one before it. *)
Fixpoint sorted_from {K} `{KeyOrd K} {A} (prev : option K) (entries : list (K * A)) : bool :=
  match entries with
  | [] => true
  | (k, _) :: entries =>
      match (p ← prev; Some (key_cmp k p)) with Some Lt => false | _ => sorted_from (Some k) entries end
  end.

Definition insert_first (M : gmap (list bool) payload) (k : list bool) (v : payload) : gmap (list bool) payload :=
  match M !! k with Some _ => M | None => <[k := v]> M end.

Section Build.
Context {mach : Machine} (ctx : CellContext) {laws : ContextLaws ctx}.
Context {K : Type} `{HKo : OrderedKey K} {V : Type} `{Store V} (pay : V -> payload).
Context (Dv : Z) (Hcap : 2 + len_bits (KEY_BITS K) + KEY_BITS K <= MAX_BIT_LEN) (HDv : 0 <= Dv)
  (HD : Dv + KEY_BITS K <= MAX_DEPTH) (canon : bool).

#[local] Abbreviation N := (KEY_BITS K).
#[local] Existing Instance Mode.

Definition entry_ok (e : K * V) : Prop :=
  key_ok e.1 /\ stores ctx (store_into e.2) (pay e.2) /\ vok ctx N Dv (pay e.2).

Definition add_entry (M : gmap (list bool) payload) (e : K * V) : gmap (list bool) payload :=
  insert_first M (key_bits e.1) (pay e.2).

(** The entries as a map, the first of equal keys winning *)
Definition first_wins (entries : list (K * V)) : gmap (list bool) payload := foldl add_entry ∅ entries.

Definition with_unit (e : K * V) : K * unit * V := (e.1, tt, e.2).

Lemma key_range : 0 <= N <= 1023.
Proof. apply key_fits. Qed.

Definition built_to (prev : option K) (stack : list (MergeStackItem V)) (M : gmap (list bool) payload) : Prop :=
  match prev with
  | None => stack = [] /\ M = ∅
  | Some p => key_ok p /\ exists top rest T Ts, stack = top :: rest /\
      chain ctx N Dv canon (top :: rest) (T :: Ts) /\ item_key top = key_bits p /\
      (forall o, 0 <= o <= N -> item_rep ctx N Dv canon o top T) /\
      (forall k v, M !! k = Some v <-> has (T :: Ts) k v) /\
      (forall k v, M !! k = Some v -> lex k (key_bits p) <> Gt) /\ is_Some (M !! key_bits p)
  end.

(** A new leaf on the top *)
Lemma built_leaf (k : K) (v : V) (lcp : Z) (stack : list (MergeStackItem V)) (Ts : list trie) (M : gmap (list bool) payload) :
  entry_ok (k, v) ->
  let it := ItemLeaf (of_bits (key_bits k)) v tt lcp in
  (forall Tn : trie, chain ctx N Dv canon (it :: stack) (Tn :: Ts)) ->
  (forall k v, M !! k = Some v <-> has Ts k v) -> (forall k' v', M !! k' = Some v' -> lex k' (key_bits k) = Lt) ->
  built_to (Some k) (it :: stack) (add_entry M (k, v)).
Proof.
  intros (Hk & Hst & Hv) it Hc HM Hlt. simpl in *.
  destruct (store_key_new k Hk) as (_ & W & C). pose proof (zlen_key_bits k Hk) as Hz.
  assert (M !! key_bits k = None) as Hnone.
  { destruct (M !! key_bits k) as [v'|] eqn:E; [|done]. apply Hlt in E. by rewrite lex_refl in E. }
  assert (item_key it = key_bits k) as Eit by exact C.
  split; [done|]. exists it, stack, (TLeaf (key_bits k) (pay v)), Ts.
  unfold add_entry, insert_first. cbn [fst snd]. rewrite Hnone. split_and!; try done.
  - intros o Ho. split; [done|]. rewrite Eit. split; [lia|]. exists (pay v). done.
  - intros k' v'. rewrite has_cons, <- HM. simpl. case_bool_decide as Ek; [subst|].
    + rewrite lookup_insert_eq, Hnone. naive_solver.
    + rewrite lookup_insert_ne by done. naive_solver.
  - intros k' v' E. destruct (decide (k' = key_bits k)) as [->|]; [by rewrite lex_refl|].
    rewrite lookup_insert_ne in E by done. by rewrite (Hlt k' v' E).
  - rewrite lookup_insert_eq. by eexists.
Qed.

Lemma bits_eq k p : key_ok k -> key_ok p -> key_cmp k p = Eq -> key_bits k = key_bits p.
Proof. intros Hk Hp E. rewrite key_cmp_law in E by done. by apply lex_eq. Qed.

(** Keys with the same bits compare in the same way. *)
Lemma sorted_from_eq {A} k p (entries : list (K * A)) :
  key_ok k -> key_ok p -> key_bits k = key_bits p -> Forall (fun e => key_ok e.1) entries ->
  sorted_from (Some k) entries = sorted_from (Some p) entries.
Proof.
  intros Hk Hp E HF. destruct HF as [|[k' a] entries Hk' HF]; [done|]. simpl in *. by rewrite !key_cmp_law, E by done.
Qed.

Lemma add_entry_known (M : gmap (list bool) payload) (k : K) (v : V) : is_Some (M !! key_bits k) -> add_entry M (k, v) = M.
Proof. intros [w E]. unfold add_entry, insert_first. simpl. by rewrite E. Qed.

Lemma build_entries_spec (entries : list (K * V)) (prev : option K) (stack : list (MergeStackItem V)) (M : gmap (list bool) payload) :
  Forall entry_ok entries -> built_to prev stack M ->
  if sorted_from prev entries
  then exists prev' stack', build_entries ctx tt prev stack (with_unit <$> entries) = Ok stack' /\
    built_to prev' stack' (foldl add_entry M entries)
  else build_entries ctx tt prev stack (with_unit <$> entries) = Err InvalidData.
Proof.
  pose proof key_range as HN. intros HF. revert prev stack M. induction HF as [|[k v] entries He HF IH]; intros prev stack M Hb.
  { by exists prev, stack. }
  pose proof (proj1 He) as Hk. cbn [fst] in Hk. destruct (store_key_new k Hk) as (Est & W & C).
  destruct (as_data_slice_spec _ W) as (Ws & Bs & _). rewrite C in Bs.
  cbn [sorted_from fmap list_fmap with_unit fst snd build_entries foldl]. change (@fmap list _ _ _ with_unit entries) with (with_unit <$> entries).
  destruct prev as [p|]; cbn [mbind option_bind].
  - destruct Hb as (Hp & top & rest & T & Ts & -> & Hc & Et & Hi & HM & Hle & Hin).
    destruct (key_cmp k p) eqn:Ecmp.
    + pose proof (bits_eq k p Hk Hp Ecmp) as Ekp. rewrite add_entry_known by (by rewrite Ekp).
      assert (built_to (Some k) (top :: rest) M) as Hb'.
      { split; [done|]. exists top, rest, T, Ts. rewrite Ekp. by split_and!. }
      specialize (IH (Some p) (top :: rest) M). rewrite (sorted_from_eq k p); [|done..|eapply list.Forall_impl; [exact HF | by intros ? []]].
      apply IH. split; [done|]. by exists top, rest, T, Ts.
    + done.
    + rewrite Est. cbn [rbind]. rewrite key_cmp_law, lex_antisym in Ecmp by done.
      assert (lex (key_bits p) (key_bits k) = Lt) as Hlt by (by destruct (lex (key_bits p) (key_bits k))).
      destruct (lex_parts (key_bits p) (key_bits k)) as [s Hs]; [|done|].
      { pose proof (zlen_key_bits p Hp). pose proof (zlen_key_bits k Hk). unfold zlen in *. lia. }
      pose proof (parts_nonneg _ _ _ Hs) as Hsr. rewrite !zlen_key_bits in Hsr by done.
      assert (0 <= prev_lcp_len top < N) as Hpl.
      { pose proof (chain_nonneg _ _ _ _ _ _ _ Hc). inversion Hc as [|? ? ? ? ? ? Hpp]; subst; [lia|].
        pose proof (parts_nonneg _ _ _ Hpp) as H'. rewrite Et, zlen_key_bits in H' by done. lia. }
      destruct (reduce_spec ctx N Dv HN Hcap HDv HD canon (as_data_slice (of_bits (key_bits k))) top rest T Ts s Hc Ws)
        as (stack' & Ts' & -> & Hc' & EG & _); [by rewrite Et, Bs | apply Hi; lia |]. cbn [rbind].
      apply IH. apply (built_leaf k v s stack' Ts' M He).
      * intros Tn. apply Hc'; [done|]. by rewrite Bs.
      * intros k' v'. by rewrite EG.
      * intros k' v' E. apply Hle in E. destruct (lex k' (key_bits p)) eqn:E'; [apply lex_eq in E' as ->; done | | done].
        by eapply lex_trans.
  - destruct Hb as [-> ->]. rewrite Est. cbn [rbind reduce]. apply IH.
    apply (built_leaf k v 0 [] [] ∅ He); [intros; by apply chain_one | | done].
    intros k' v'. rewrite has_nil, lookup_empty. naive_solver.
Qed.

Lemma built_finished (prev : option K) (stack : list (MergeStackItem V)) (M : gmap (list bool) payload) :
  built_to prev stack M -> exists root, finalize ctx tt stack N = Ok root /\ dict_rep ctx N Dv canon N root M.
Proof.
  pose proof key_range as HN. destruct prev as [p|].
  - intros (Hp & top & rest & T & Ts & -> & Hc & Et & Hi & HM & _).
    destruct (finalize_spec ctx N Dv HN Hcap HDv HD canon top rest T Ts Hc) as (c & T' & E & Hr & EG).
    { pose proof (chain_nonneg _ _ _ _ _ _ _ Hc). inversion Hc as [|? ? ? ? ? ? Hpp]; subst; [apply Hi; lia|].
      pose proof (parts_nonneg _ _ _ Hpp) as H'. rewrite Et, zlen_key_bits in H' by done. apply Hi. lia. }
    exists (Some c). split; [done|]. exists T'. split; [done|]. intros k.
    apply option_eq. intros v. by rewrite HM, EG.
  - intros [-> ->]. by exists None.
Qed.

Lemma build_dict_correct (entries : list (K * V)) :
  Forall entry_ok entries ->
  if sorted_from None entries
  then exists root, build_dict_from_sorted_iter entries ctx = Ok root /\ dict_rep ctx N Dv canon N root (first_wins entries)
  else build_dict_from_sorted_iter entries ctx = Err InvalidData.
Proof.
  intros HF. unfold build_dict_from_sorted_iter, build_sorted.
  pose proof (build_entries_spec entries None [] ∅ HF ltac:(done)) as Hs. fold Mode. change (λ e : K * V, (e.1, tt, e.2)) with with_unit.
  destruct (sorted_from None entries).
  - destruct Hs as (prev' & stack' & -> & Hb). cbn [rbind]. by apply (built_finished prev').
  - by rewrite Hs.
Qed.

(** The reference: one insertion per entry that keeps the value a key has. *)
Definition add_one (dict : option Cell) (e : K * V) : result (option Cell) :=
  let! key := store_into_data e.1 data_new in
  let! (_, dict) := dict_insert ctx dict (as_data_slice key) N (store_into e.2) SetAdd in
  Ok dict.

Fixpoint add_all (dict : option Cell) (entries : list (K * V)) : result (option Cell) :=
  match entries with
  | [] => Ok dict
  | e :: entries => let! dict := add_one dict e in add_all dict entries
  end.

Lemma add_all_correct (entries : list (K * V)) (dict : option Cell) (M : gmap (list bool) payload) :
  Forall entry_ok entries -> dict_rep ctx N Dv canon N dict M ->
  exists dict', add_all dict entries = Ok dict' /\ dict_rep ctx N Dv canon N dict' (foldl add_entry M entries).
Proof.
  pose proof key_range as HN. intros HF. revert dict M. induction HF as [|[k v] entries (Hk & Hst & Hv) HF IH]; intros dict M HM; [by exists dict|].
  simpl in Hk, Hst, Hv. cbn [add_all foldl]. unfold add_one. cbn [fst snd]. destruct (store_key_new k Hk) as (-> & W & C). cbn [rbind].
  destruct (as_data_slice_spec _ W) as (Ws & Bs & _). rewrite C in Bs.
  pose proof (zlen_slice_bits _ Ws) as Hz. rewrite Bs, zlen_key_bits in Hz by done.
  destruct (dict_insert_correct ctx N Dv HN Hcap HDv HD canon _ Ws (eq_sym Hz) (store_into v) (pay v) Hst Hv dict M SetAdd HM)
    as (dict' & -> & HM'). cbn [rbind]. apply IH. unfold insert_map in HM'. rewrite Bs in HM'. unfold add_entry, insert_first. cbn [fst snd].
  by destruct (M !! key_bits k).
Qed.
End Build.
