(* ===== verification/DictModifySpec.v ===== *)
(** * DictModifySpec: a sorted list of changes is applied as a whole

    The walk is a path of items ([path]); what is pending on it and what is on the stack
    add up to the map of the changes so far.  [place] says where the last key is with
    respect to an item and to the stack, and that an item whose left side may have
    become empty is marked for flattening. *)

From stdpp Require Import gmap.
From S2P Require Import Prelude Bits DataBuilder DataBuilderSpec CellMeta Cell Slice SliceSpec SliceScan SliceScanSpec Builder BuilderSpec Context DictLabel DictLabelSpec Dict DictSpec DictKeys DictBuild DictModify DictStack DictModifyStep DictBuildSpec.

Section Walk.
Context {mach : Machine} (ctx : CellContext) {laws : ContextLaws ctx}.
Context (N Dv : Z) (HN : 0 <= N <= 1023)
  (Hcap : 2 + len_bits N + N <= MAX_BIT_LEN) (HDv : 0 <= Dv) (HD : Dv + N <= MAX_DEPTH) (canon : bool).
Context {V : Type} `{Store V} (addr_eq : Cell -> Cell -> bool) (Haddr : forall a b, addr_eq a b = true <-> a = b).

#[local] Existing Instance Mode.
#[local] Abbreviation item := (MergeStackItem V).
#[local] Abbreviation item_ok := (item_ok ctx N Dv canon).
#[local] Abbreviation good := (good ctx N Dv canon).
#[local] Abbreviation free := (free ctx N Dv canon).
#[local] Abbreviation fits := (fits ctx N Dv canon).
#[local] Abbreviation ready := (ready ctx N Dv canon).

(** ** The path *)

Inductive path : list IterStackItem -> list trie -> Prop :=
| path_root X t : item_ok X t -> state_ok X t -> walked X = [] -> path [X] [t]
| path_child Y ty X K l r rest ts (b : bool) :
    item_ok Y ty -> state_ok Y ty -> is_state X = b2z b -> walked Y = opened X (TFork K l r) ++ [b] ->
    path (X :: rest) (TFork K l r :: ts) -> path (Y :: X :: rest) (ty :: TFork K l r :: ts).

Fixpoint pends (stack : list IterStackItem) (ts : list trie) : list trie :=
  match stack, ts with
  | X :: stack, t :: ts => pend X t ++ pends stack ts
  | _, _ => []
  end.

Lemma stack_path_top X rest t ts : path (X :: rest) (t :: ts) -> item_ok X t /\ state_ok X t.
Proof. by inversion 1. Qed.

(** The top with another state or flag *)
Lemma item_ok_state X t st : item_ok X t -> item_ok (set_state X st) t.
Proof. by intros []. Qed.
Lemma item_ok_flatten X t fl : item_ok X t -> item_ok (set_flatten X fl) t.
Proof. by intros []. Qed.

Lemma path_replace X X' rest t ts :
  path (X :: rest) (t :: ts) -> item_ok X' t -> state_ok X' t -> is_prefix X' = is_prefix X -> path (X' :: rest) (t :: ts).
Proof.
  intros Hp Hx Hs E. assert (walked X' = walked X) as Ew by (unfold walked; by rewrite E).
  inversion Hp; subst; econstructor; rewrite ?Ew; done.
Qed.

(** What is pending below the top comes after every key on the path. *)
Lemma path_above X rest t ts K k v :
  path (X :: rest) (t :: ts) -> walked X `prefix_of` K -> has (pends rest ts) k v -> lex K k = Lt.
Proof.
  revert X t ts. induction rest as [|X2 rest IH]; intros X t ts Hp HX Hh; inversion Hp as [|? ? ? K2 l r ? ts2 b Hx Hs Es Ew Hp2]; subst.
  { by apply has_nil in Hh. }
  rewrite Ew in HX. cbn [pends] in Hh. apply has_app in Hh as [Hh|Hh]; cycle 1.
  - eapply (IH X2); [done| |done]. unfold opened in HX. etrans; [|exact HX]. rewrite <- app_assoc. by eexists.
  - unfold pend in Hh. rewrite Es in Hh. destruct b; simpl in Hh; [by apply has_nil in Hh|].
    destruct Hh as (T & HT & E). apply list_elem_of_singleton in HT as ->. apply tget_prefix in E. rewrite tlabel_shift in E.
    eapply parts_lex, parts_fork; [exact HX|]. etrans; [|exact E]. by eexists.
Qed.

(** ** Where the last key is *)

Definition behind (p : list bool) (stack : list item) : Prop :=
  match stack with top :: _ => item_key top = p \/ exists s, parts s (item_key top) p | [] => True end.

Lemma behind_below p Kn s stack : behind p stack -> parts s p Kn -> below stack Kn.
Proof.
  destruct stack as [|top rest]; [done|]. intros [E|[s' Hp]] HK; simpl.
  - rewrite E. by exists s.
  - destruct (parts_trans _ _ _ _ _ Hp HK) as [_ ?]. by eexists.
Qed.

Lemma on_below P s p K (stack : list item) : on P stack -> parts s p K -> P `prefix_of` p -> s < zlen P -> below stack K.
Proof. destruct stack as [|top rest]; [done|]. intros HP Hp Hpre Hs. exists s. by eapply parts_side. Qed.

Lemma on_prefix P Q (stack : list item) : on P stack -> Q `prefix_of` P -> on Q stack.
Proof. destruct stack as [|top rest]; [done|]. simpl. intros. by etrans. Qed.

Record place (p : list bool) (X : IterStackItem) (t : trie) (fl : bool) (stack : list item) : Prop := {
  pl_walked : walked X `prefix_of` p;
  pl_before : is_state X = -1 -> exists s, parts s p (opened X t);
  pl_inside b : is_state X = b2z b -> opened X t ++ [b] `prefix_of` p;
  pl_after : is_state X = 2 -> opened X t = p \/ exists s, parts s (opened X t) p;
  pl_stack : behind p stack \/ exists b : bool, is_state X = b2z b /\ on (opened X t ++ [b]) stack;
  pl_touched : fl = false -> (forall b : bool, is_state X = b2z b -> on (opened X t ++ [b]) stack) /\ (is_state X = 2 -> on (walked X) stack);
}.

Lemma place_ready p X t fl stack Ts :
  place p X t fl stack -> good stack Ts -> free stack Ts -> -1 <= is_state X < 1 -> ready (front X t) stack Ts.
Proof.
  intros [_ Hb Hi _ Hs _] Hg Hf Hst Kn HKn _. apply free_fits; [done..|]. unfold front in HKn.
  assert (is_state X = -1 \/ is_state X = 0) as [Es|Es] by lia; rewrite Es in *; simpl in HKn.
  - destruct (Hb eq_refl) as [s Hp]. destruct Hs as [Hs|([] & ? & _)]; [|done..].
    eapply behind_below; [done|]. by eapply parts_ext.
  - specialize (Hi false eq_refl). pose proof (parts_fork _ _ _ Hi HKn) as Hp. destruct Hs as [Hs|(b & Eb & Hon)].
    + by eapply behind_below.
    + destruct b; [done|]. eapply on_below; [done..|]. rewrite zlen_snoc. lia.
Qed.

Lemma opened_walked X t : walked X `prefix_of` opened X t.
Proof. by eexists. Qed.

(** Leaving an item: it is all on the stack. *)
Lemma place_drain p X t fl stack Ts :
  item_ok X t -> state_ok X t -> good stack Ts -> free stack Ts -> place p X t (fl || is_flatten X) stack ->
  exists stack' Ts', drain ctx X fl stack = Ok stack' /\ good stack' Ts' /\ free stack' Ts' /\
    (forall k v, has Ts' k v <-> has (pend X t) k v \/ has Ts k v) /\
    (behind p stack' \/ on (walked X) stack') /\ (fl || is_flatten X = false -> on (walked X) stack').
Proof.
  intros Hx Hst Hg Hf Hp. assert (-1 <= is_state X <= 2) as Hr by (destruct t; simpl in Hst; lia).
  destruct (drain_spec ctx N Dv HN Hcap HDv HD canon X t fl stack Ts Hx Hst Hg) as (s' & T' & -> & Hg' & Hf' & EG & Hon).
  - intros. eapply place_ready; [done..|lia].
  - by right.
  - intros Hfl Es. by apply (proj1 (pl_touched _ _ _ _ _ Hp Hfl) false).
  - exists s', T'. split_and!; try done; destruct (Z.ltb_spec (is_state X) 1).
    + right. eapply on_prefix; [done | apply opened_walked].
    + destruct Hon as [-> ->]. destruct (pl_stack _ _ _ _ _ Hp) as [?|(b & _ & Hb)]; [by left|right].
      eapply on_prefix; [exact Hb|]. unfold opened. rewrite <- app_assoc. by eexists.
    + intros _. eapply on_prefix; [done | apply opened_walked].
    + destruct Hon as [-> ->]. intros Hfl. destruct (pl_touched _ _ _ _ _ Hp Hfl) as [H1 H2].
      destruct (decide (is_state X = 2)) as [|]; [by apply H2|]. eapply on_prefix; [apply (H1 true); simpl; lia|].
      unfold opened. rewrite <- app_assoc. by eexists.
Qed.

(** The item below one that was left *)
Lemma place_below p X X2 K l r (b : bool) fl stack :
  walked X = opened X2 (TFork K l r) ++ [b] -> is_state X2 = b2z b -> walked X `prefix_of` p ->
  (behind p stack \/ on (walked X) stack) -> (fl = false -> on (walked X) stack) -> place p X2 (TFork K l r) fl stack.
Proof.
  intros Ew Es Hp Hs Hfl. rewrite Ew in *. assert (forall b', is_state X2 = b2z b' -> b' = b) as Hb by (rewrite Es; by intros [] ?; destruct b).
  split.
  - etrans; [|exact Hp]. unfold opened. rewrite <- app_assoc. by eexists.
  - rewrite Es. by destruct b.
  - intros b' ->%Hb. done.
  - rewrite Es. by destruct b.
  - destruct Hs; [by left | right; by exists b].
  - intros E. split; [|rewrite Es; by destruct b]. intros b' ->%Hb. by apply Hfl.
Qed.

(** ** Unwinding *)

Definition total (Ts : list trie) (stack : list IterStackItem) (ts : list trie) (k : list bool) (v : payload) : Prop :=
  has Ts k v \/ has (pends stack ts) k v.

(** All tries of the stack are before the key. *)
Definition lows (Ts : list trie) (K : list bool) : Prop := forall k v, has Ts k v -> lex k K = Lt.

(** The walk between two steps: everything but where the keys are. *)
Record walking (X : IterStackItem) (rest : list IterStackItem) (t : trie) (ts : list trie) (stack : list item) (Ts : list trie) : Prop := {
  wk_path : path (X :: rest) (t :: ts);
  wk_good : good stack Ts;
}.

Lemma place_flatten p X t fl stack b : place p X t fl stack -> place p (set_flatten X b) t fl stack.
Proof. by intros []. Qed.

Lemma drain_flagged X fl (stack : list item) :
  drain ctx X fl stack = (if negb (is_state X =? STATE_USED_FULL) then add_subtrees ctx tt X 1 (fl || is_flatten X) stack else Ok stack).
Proof. unfold drain, add_subtrees, add_child_subtree. by rewrite <- orb_assoc, orb_diag. Qed.

Lemma unwind_spec p K c X t rest ts fl stack Ts :
  parts c p K -> walking X rest t ts stack Ts -> free stack Ts -> place p X t (fl || is_flatten X) stack -> lows Ts K ->
  (forall b, is_state X = b2z b -> c <= zlen (opened X t)) ->
  exists X' rest' t' ts' stack' Ts', unwind ctx tt (X :: rest) c fl stack = Ok (X' :: rest', stack') /\
    walking X' rest' t' ts' stack' Ts' /\ free stack' Ts' /\ place p X' t' (is_flatten X') stack' /\ lows Ts' K /\
    (forall b, is_state X' = b2z b -> c <= zlen (opened X' t')) /\ zlen (walked X') <= c /\
    forall k v, total Ts' (X' :: rest') (t' :: ts') k v <-> total Ts (X :: rest) (t :: ts) k v.
Proof.
  intros Hpk. pose proof (parts_nonneg _ _ _ Hpk) as (Hc & _). revert X t ts fl stack Ts.
  induction rest as [|X2 rest IH]; intros X t ts fl stack Ts [Hp Hg] Hf Hpl Hlow Hst; cbn [unwind];
    (destruct (stack_path_top _ _ _ _ Hp) as [Hx Hs]); rewrite <- (zlen_contents _ (io_wf _ _ _ _ _ _ Hx)); fold (walked X).
  - assert (walked X = []) as Ew by (by inversion Hp). rewrite Ew. change (zlen (@nil bool)) with 0.
    destruct (Z.ltb_spec c 0); [lia|]. rewrite orb_comm.
    exists (set_flatten X (fl || is_flatten X)), [], t, ts, stack, Ts. split_and!; try done.
    + split; [|done]. eapply path_replace; [done | by apply item_ok_flatten | by destruct t | done].
    + by apply place_flatten.
    + change (walked (set_flatten X (fl || is_flatten X))) with (walked X). by rewrite Ew.
  - destruct (Z.ltb_spec c (zlen (walked X))) as [Hlt|Hge]; cycle 1.
    { rewrite orb_comm. exists (set_flatten X (fl || is_flatten X)), (X2 :: rest), t, ts, stack, Ts. split_and!; try done.
      - split; [|done]. eapply path_replace; [done | by apply item_ok_flatten | by destruct t | done].
      - by apply place_flatten. }
    destruct (place_drain p X t fl stack Ts Hx Hs Hg Hf Hpl) as (s1 & T1 & E1 & G1 & F1 & EG & Hb & Ht).
    inversion Hp as [|? ? ? K2 l r ? ts2 b _ _ Es Ew Hp2]; subst. rewrite drain_flagged in E1. rewrite E1. cbn [rbind]. pose proof (pl_walked _ _ _ _ _ Hpl) as Hw.
    destruct (IH X2 (TFork K2 l r) ts2 (fl || is_flatten X) s1 T1) as (X' & rest' & t' & ts' & s' & T' & E & Hk & Hf' & Hpl' & Hl' & Hc' & Hz' & Htot).
    + by split.
    + done.
    + eapply place_below; [exact Ew | exact Es | exact Hw | exact Hb |]. intros [Hfl _]%orb_false_iff. by apply Ht.
    + intros k v [Hh|Hh]%EG; [|by eapply Hlow]. apply has_pend_prefix in Hh. eapply parts_lex, parts_side; [exact Hpk | exact Hlt | exact Hw |].
      etrans; [apply opened_walked | exact Hh].
    + intros b' Eb'. rewrite Ew, zlen_snoc in Hlt. lia.
    + exists X', rest', t', ts', s', T'. split_and!; try done. intros k v. rewrite Htot. unfold total. cbn [pends].
      rewrite !has_app, EG. tauto.
Qed.

Lemma seek_end_spec p X t rest ts fl stack Ts :
  walking X rest t ts stack Ts -> free stack Ts -> place p X t (fl || is_flatten X) stack ->
  exists stack' Ts', seek_end ctx tt (X :: rest) fl stack = Ok stack' /\ good stack' Ts' /\ free stack' Ts' /\
    forall k v, has Ts' k v <-> total Ts (X :: rest) (t :: ts) k v.
Proof.
  revert X t ts fl stack Ts.
  induction rest as [|X2 rest IH]; intros X t ts fl stack Ts [Hp Hg] Hf Hpl; cbn [seek_end];
    (destruct (stack_path_top _ _ _ _ Hp) as [Hx Hs]);
    (destruct (place_drain p X t fl stack Ts Hx Hs Hg Hf Hpl) as (s1 & T1 & E1 & G1 & F1 & EG & Hb & Ht));
    rewrite drain_flagged in E1; rewrite E1; cbn [rbind].
  - exists s1, T1. split_and!; try done. intros k v. rewrite EG. unfold total. cbn [pends]. inversion Hp; subst. rewrite has_app, has_nil. tauto.
  - inversion Hp as [|? ? ? K2 l r ? ts2 b _ _ Es Ew Hp2]; subst.
    destruct (IH X2 (TFork K2 l r) ts2 (fl || is_flatten X) s1 T1) as (s' & T' & E & Hg' & Hf' & Htot).
    + by split.
    + done.
    + eapply place_below; [exact Ew | exact Es | apply Hpl | exact Hb |]. intros [Hfl _]%orb_false_iff. by apply Ht.
    + exists s', T'. split_and!; try done. intros k v. rewrite Htot. unfold total. cbn [pends]. rewrite !has_app, EG. tauto.
Qed.

(** ** Seeking *)

(** The walk on its way to the key [K]; [br] says that a removal is ahead. *)
Record sought (K : list bool) (br : bool) (X : IterStackItem) (rest : list IterStackItem) (t : trie) (ts : list trie)
    (stack : list item) (Ts : list trie) : Prop := {
  sk_walking : walking X rest t ts stack Ts;
  sk_walked : walked X `prefix_of` K;
  sk_admits : is_state X <> -1 -> (exists s, parts s (opened X t) K) \/ is_state X = 0 /\ opened X t ++ [true] `prefix_of` K;
  sk_fits : fits stack Ts K;
  sk_ready : is_state X < 1 -> ready (front X t) stack Ts;
  sk_free : br = true \/ is_state X <> -1 -> free stack Ts;
  sk_touched : is_flatten X = false ->
    (forall b : bool, is_state X = b2z b -> on (opened X t ++ [b]) stack) /\ (is_state X = 2 -> on (walked X) stack);
  sk_lows : lows Ts K;
}.

(** The step to the child [b]: what is before it goes to the stack. *)
Lemma descend_spec K br X rest Kl l r ts stack Ts (b : bool) :
  zlen K = N -> sought K br X rest (TFork Kl l r) ts stack Ts -> opened X (TFork Kl l r) ++ [b] `prefix_of` K ->
  exists stack' Ts', add_subtrees ctx tt X (b2z b - 1) br stack = Ok stack' /\ good stack' Ts' /\
    ready (opened X (TFork Kl l r) ++ [b]) stack' Ts' /\ (br = true -> free stack' Ts') /\ lows Ts' K /\
    forall k v, has Ts' k v \/ tget (shift (opened X (TFork Kl l r) ++ [b]) (if b then r else l)) k = Some v \/
        has (pend (set_state X (b2z b)) (TFork Kl l r)) k v <->
      has Ts k v \/ has (pend X (TFork Kl l r)) k v.
Proof.
  intros HzK [[Hp Hg] _ Ha _ Hr Hfr _ Hlow] HK. destruct (stack_path_top _ _ _ _ Hp) as [Hx Hs]. pose proof (io_range _ _ _ _ _ _ Hx) as (_ & _ & Hz).
  assert (is_state X = -1 \/ is_state X = 0 /\ b = true) as Hst.
  { destruct (decide (is_state X = -1)) as [|Hne]; [by left|right]. destruct (Ha Hne) as [[s Hs']|[E HK']].
    - destruct (parts_irrefl _ _ _ Hs'). etrans; [|exact HK]. by eexists.
    - split; [done|]. destruct b; [done|]. pose proof (parts_fork _ _ _ HK HK') as Hpp. by apply parts_irrefl in Hpp. }
  unfold add_subtrees. rewrite (io_remaining _ _ _ _ _ _ Hx). cbn [tlabel].
  destruct (Z.eqb_spec (N - zlen (walked X) - zlen Kl) 0); [lia|]. unfold pend, front in *.
  destruct Hst as [Es|[Es ->]]; rewrite Es in *; [destruct b|]; cbn [is_state set_state b2z].
  - change (seqZ (-1 + 1) (1 - 1 - -1)) with [0]. cbn [foldl rbind].
    destruct (push_left ctx N Dv HN Hcap HDv HD canon X Kl l r br stack Ts Hx Hg ltac:(apply Hr; lia)) as (s1 & T1 & -> & [G1 EG] & _ & R1 & F1).
    exists s1, T1. split_and!; try done.
    + intros Hbr. apply F1. by rewrite Hbr.
    + intros k v [E|E]%EG; [|by eapply Hlow]. apply tget_prefix in E. rewrite tlabel_shift in E.
      eapply parts_lex, parts_fork; [|exact HK]. etrans; [|exact E]. by eexists.
    + intros k v. rewrite EG. simpl. rewrite !has_cons, !has_nil. tauto.
  - change (seqZ (-1 + 1) (0 - 1 - -1)) with (@nil Z). cbn [foldl]. exists stack, Ts. split_and!; try done.
    + eapply ready_prefix; [apply Hr; lia | by eexists].
    + intros ->. apply Hfr. by left.
    + intros k v. simpl. rewrite !has_cons, !has_nil. tauto.
  - change (seqZ (0 + 1) (1 - 1 - 0)) with (@nil Z). cbn [foldl]. exists stack, Ts. split_and!; try done.
    + apply Hr. lia.
    + intros ->. apply Hfr. by left.
    + intros k v. simpl. rewrite !has_cons, !has_nil. tauto.
Qed.

Definition seek_ends (K : list bool) (X : IterStackItem) (t : trie) (st : SeekState) : Prop :=
  match st with
  | SeekFound => opened X t = K /\ is_state X = -1
  | SeekNotFound rk => slice_wf rk /\ slice_bits rk = drop (Z.to_nat (zlen (walked X))) K /\ ~ opened X t `prefix_of` K
  end.

Lemma do_seek_spec K br fuel X rest t ts stack Ts key :
  zlen K = N -> sought K br X rest t ts stack Ts -> slice_wf key -> slice_bits key = drop (Z.to_nat (zlen (walked X))) K ->
  size_bits key < Z.of_nat fuel ->
  exists st X' rest' t' ts' stack' Ts', do_seek addr_eq ctx tt fuel (X :: rest) key br stack = Ok (st, X' :: rest', stack') /\
    sought K br X' rest' t' ts' stack' Ts' /\ seek_ends K X' t' st /\
    forall k v, total Ts' (X' :: rest') (t' :: ts') k v <-> total Ts (X :: rest) (t :: ts) k v.
Proof.
  intros HzK. revert X rest t ts stack Ts key. induction fuel as [|fuel IH]; intros X rest t ts stack Ts key Hsk Wk Bk Hfuel.
  { pose proof (size_bits_range key Wk). lia. }
  destruct (stack_path_top _ _ _ _ (wk_path _ _ _ _ _ _ (sk_walking _ _ _ _ _ _ _ _ Hsk))) as [Hx Hs]. cbn [do_seek].
  destruct (io_label _ _ _ _ _ _ Hx) as [Wl Bl]. destruct (sk_walked _ _ _ _ _ _ _ _ Hsk) as [u Eu].
  assert (slice_bits key = u) as Bu by (by rewrite Bk, Eu, drop_app_length' by (unfold zlen; lia)).
  pose proof (strip_data_prefix_spec key (iter_label X) Wk Wl) as Hstrip. rewrite Bl, Bu in Hstrip.
  destruct (strip_data_prefix key (iter_label X)) as [rk|]; cycle 1.
  { exists (SeekNotFound key), X, rest, t, ts, stack, Ts. split; [done|]. split; [done|]. split; [|done].
    split_and!; [done..|]. unfold opened. rewrite Eu. by intros ?%prefix_app_inv. }
  destruct Hstrip as [Wr Er]. rewrite is_data_empty_spec by done. destruct (Z.eqb_spec (zlen (slice_bits rk)) 0) as [E0|E0].
  { assert (opened X t = K) as EK.
    { unfold opened. rewrite Eu, Er. destruct (slice_bits rk); [by rewrite app_nil_r | done]. }
    exists SeekFound, X, rest, t, ts, stack, Ts. split_and!; try done.
    destruct (decide (is_state X = -1)) as [|Hne]; [done|]. destruct (sk_admits _ _ _ _ _ _ _ _ Hsk Hne) as [[s Hp]|[_ Hp]]; rewrite EK in Hp.
    - by apply parts_irrefl in Hp.
    - apply prefix_length in Hp. rewrite length_app in Hp. simpl in Hp. lia. }
  destruct (slice_bits rk) as [|b u'] eqn:Eb; [done|].
  assert (K = opened X t ++ b :: u') as EK by (unfold opened; by rewrite Eu, Er, app_assoc).
  destruct (load_bit_front rk b u' Wr Eb) as (key' & -> & Mv). cbn [rbind].
  pose proof (io_range _ _ _ _ _ _ Hx) as (Hw0 & Hwl & Hz). pose proof (zlen_nonneg (tlabel t)).
  assert (zlen K = zlen (opened X t) + 1 + zlen u') as HzK' by (rewrite EK, zlen_app; unfold zlen; simpl; lia).
  pose proof (zlen_nonneg u'). unfold opened in HzK'. rewrite zlen_app in HzK'.
  destruct t as [Kl v|Kl l r]; cbn [tlabel] in *; [lia|].
  destruct (fork_child _ _ _ _ _ _ _ _ _ b (io_rep _ _ _ _ _ _ Hx)) as (ch & _ & _ & -> & _ & Hch). cbn [some_or_underflow rbind].
  assert (opened X (TFork Kl l r) ++ [b] `prefix_of` K) as HbK by (rewrite EK; exists u'; by rewrite <- app_assoc).
  destruct (descend_spec K br X rest Kl l r ts stack Ts b HzK Hsk HbK) as (s1 & T1 & -> & G1 & R1 & F1 & L1 & Htot). cbn [rbind].
  destruct (child_prefix_spec ctx N Dv HN canon (set_state X (b2z b)) Kl l r b) as (d & -> & Wd & Cd); [by apply item_ok_state|]. cbn [rbind].
  change (walked (set_state X (b2z b)) ++ Kl ++ [b]) with (walked X ++ Kl ++ [b]) in Cd. rewrite app_assoc in Cd.
  change (walked X ++ Kl) with (opened X (TFork Kl l r)) in Cd.
  assert (zlen (contents d) = zlen (walked X) + zlen Kl + 1) as Hzd by (rewrite Cd, zlen_snoc; unfold opened; rewrite zlen_app; done).
  destruct (iter_load_spec ctx N Dv HN canon addr_eq Haddr d (size_bits key') ch (if b then r else l) Wd) as (Y & -> & HY & EY & _ & EYs & EYf).
  { rewrite <- zlen_slice_bits, (mv_bits _ _ _ Mv) by apply Mv. lia. }
  { rewrite <- zlen_slice_bits, (mv_bits _ _ _ Mv) by apply Mv. by replace (zlen u') with (N - zlen (walked X) - zlen Kl - 1) by lia. }
  cbn [rbind]. assert (walked Y = opened X (TFork Kl l r) ++ [b]) as EwY by (unfold walked; by rewrite EY, Cd).
  destruct (IH Y (set_state X (b2z b) :: rest) (if b then r else l) (TFork Kl l r :: ts) s1 T1 key')
    as (st & X' & rest' & t' & ts' & s' & T' & -> & Hsk' & Hend & Htot'); try apply Mv.
  - split; rewrite ?EYs, ?EwY; try done.
    + split; [|done]. destruct (sk_walking _ _ _ _ _ _ _ _ Hsk) as [Hp _].
      apply (path_child Y _ (set_state X (b2z b)) Kl l r rest ts b); [done| |done|done|].
      * unfold state_ok. rewrite EYs. destruct (if b then r else l); [by left | lia].
      * eapply path_replace; [exact Hp | by apply item_ok_state | simpl; destruct b; simpl; lia | done].
    + apply R1; [exact HbK | lia].
    + intros _. unfold front. rewrite EYs. change (-1 =? STATE_UNUSED) with true. cbv iota.
      eapply ready_prefix; [exact R1|]. rewrite <- EwY. apply opened_walked.
    + intros [|]; [by apply F1 | done].
    + intros _. split; [by intros [] | done].
  - assert (K = (opened X (TFork Kl l r) ++ [b]) ++ u') as EK2 by (by rewrite EK, <- app_assoc).
    rewrite (mv_bits _ _ _ Mv), EwY, EK2, drop_app_length' by (unfold zlen; lia). done.
  - rewrite <- zlen_slice_bits, (mv_bits _ _ _ Mv) by apply Mv.
    assert (size_bits key = zlen u) as Hzu by (by rewrite <- Bu, zlen_slice_bits). rewrite Er, zlen_app in Hzu.
    unfold zlen in *. simpl in *. lia.
  - exists st, X', rest', t', ts', s', T'. split_and!; try done. intros k v. rewrite Htot'. unfold total. cbn [pends].
    rewrite !has_app. rewrite (pend_all Y _ k v EYs), EwY. specialize (Htot k v). tauto.
Qed.

(** ** From one key to the next *)

(** The walk and the stack when the key [p] is done. *)
Record settled (p : list bool) (X : IterStackItem) (rest : list IterStackItem) (t : trie) (ts : list trie)
    (stack : list item) (Ts : list trie) : Prop := {
  se_walking : walking X rest t ts stack Ts;
  se_free : free stack Ts;
  se_place : place p X t (is_flatten X) stack;
  se_state : is_state X = -1 \/ is_state X = 2;
}.

Lemma state_range X t : state_ok X t -> -1 <= is_state X <= 2.
Proof. destruct t; simpl; lia. Qed.

Lemma unwound_sought p K c br X rest t ts stack Ts :
  parts c p K -> walking X rest t ts stack Ts -> free stack Ts -> place p X t (is_flatten X) stack -> lows Ts K ->
  (forall b, is_state X = b2z b -> c <= zlen (opened X t)) -> zlen (walked X) <= c -> sought K br X rest t ts stack Ts.
Proof.
  intros Hpk Hw Hf Hpl Hlow Hst Hz. destruct (stack_path_top _ _ _ _ (wk_path _ _ _ _ _ _ Hw)) as [_ Hs]. apply state_range in Hs.
  split; try done.
  - eapply parts_take; [done | apply Hpl | done].
  - intros Hne. assert (is_state X = 2 \/ exists b, is_state X = b2z b) as [E2|[b Eb]].
    { assert (is_state X = 2 \/ is_state X = 0 \/ is_state X = 1) as [|[|]] by lia; [by left | right; by exists false | right; by exists true]. }
    + left. destruct (pl_after _ _ _ _ _ Hpl E2) as [->|[s Hp]]; [by exists c|]. destruct (parts_trans _ _ _ _ _ Hp Hpk). by eexists.
    + pose proof (pl_inside _ _ _ _ _ Hpl b Eb) as Hin. specialize (Hst b Eb).
      assert (opened X t `prefix_of` p) as Ho by (etrans; [|exact Hin]; by eexists).
      destruct (decide (c = zlen (opened X t))) as [Ec|]; [|left; exists c; eapply (parts_side c p K (opened X t)); [exact Hpk | lia | exact Ho | done]].
      right. destruct (parts_at _ _ _ _ Hpk Ho (eq_sym Ec)) as [Hp Hk]. split; [|done]. destruct b; [|done].
      pose proof (parts_fork _ _ _ Hp Hin) as Hpp. by apply parts_irrefl in Hpp.
  - apply free_fits; [apply Hw | done |]. destruct (pl_stack _ _ _ _ _ Hpl) as [Hb|(b & Eb & Hon)].
    + by eapply behind_below.
    + eapply on_below; [exact Hon | exact Hpk | by apply Hpl |]. rewrite zlen_snoc. specialize (Hst b Eb). lia.
  - intros. eapply place_ready; [done | apply Hw | done | lia].
  - apply Hpl.
Qed.

Lemma place_weaken p X t fl fl' stack : place p X t fl stack -> (fl' = false -> fl = false) -> place p X t fl' stack.
Proof. intros [] Hfl. split; try done. intros E%Hfl. auto. Qed.

Lemma seek_next_spec p K br X rest t ts stack Ts prev key :
  zlen p = N -> zlen K = N -> lex p K = Lt -> settled p X rest t ts stack Ts -> lows Ts K ->
  slice_wf prev -> slice_bits prev = p -> slice_wf key -> slice_bits key = K ->
  exists st X' rest' t' ts' stack' Ts', seek_next addr_eq ctx tt (X :: rest) prev key br stack = Ok (st, X' :: rest', stack') /\
    sought K br X' rest' t' ts' stack' Ts' /\ seek_ends K X' t' st /\
    forall k v, total Ts' (X' :: rest') (t' :: ts') k v <-> total Ts (X :: rest) (t :: ts) k v.
Proof.
  intros Hzp HzK HpK [Hw Hf Hpl Hst] Hlow Wp Bp Wk Bk.
  destruct (lex_parts p K) as [c Hpk]; [unfold zlen in *; lia | done |]. unfold seek_next.
  destruct (match X :: rest with [last] => is_state last =? STATE_USED_FULL | _ => false end) eqn:Efin.
  { destruct rest; [|done]. apply Z.eqb_eq in Efin. change STATE_USED_FULL with 2 in Efin.
    assert (walked X = []) as Ew by (pose proof (wk_path _ _ _ _ _ _ Hw) as Hp; by inversion Hp).
    assert (ts = []) as -> by (pose proof (wk_path _ _ _ _ _ _ Hw) as Hp; by inversion Hp).
    assert (exists s, parts s (opened X t) K) as [s Hs].
    { destruct (pl_after _ _ _ _ _ Hpl Efin) as [->|[s Hp]]; [by exists c|]. destruct (parts_trans _ _ _ _ _ Hp Hpk). by eexists. }
    exists (SeekNotFound key), X, [], t, [], stack, Ts. split; [done|]. split; [|split; [|done]].
    - eapply unwound_sought; [exact Hpk | done.. | |].
      + intros b Eb. rewrite Efin in Eb. by destruct b.
      + rewrite Ew. apply parts_nonneg in Hpk. unfold zlen. simpl. lia.
    - split_and!; [done | by rewrite Ew | by eapply parts_irrefl]. }
  destruct (lcp_slice prev key Wp Wk) as (-> & _). rewrite Bp, Bk, (parts_lcp _ _ _ Hpk).
  destruct (unwind_spec p K c X t rest ts br stack Ts Hpk Hw Hf) as (X1 & rest1 & t1 & ts1 & s1 & T1 & -> & Hw1 & Hf1 & Hpl1 & Hl1 & Hc1 & Hz1 & Htot1).
  { eapply place_weaken; [done|]. by intros [_ ?]%orb_false_iff. }
  { done. }
  { intros b Eb. destruct Hst as [E|E]; rewrite E in Eb; by destruct b. }
  cbn [rbind]. destruct (stack_path_top _ _ _ _ (wk_path _ _ _ _ _ _ Hw1)) as [Hx1 _].
  rewrite <- (zlen_contents _ (io_wf _ _ _ _ _ _ Hx1)). fold (walked X1).
  pose proof (unwound_sought p K c br X1 rest1 t1 ts1 s1 T1 Hpk Hw1 Hf1 Hpl1 Hl1 Hc1 Hz1) as Hsk.
  pose proof (prefix_length _ _ (sk_walked _ _ _ _ _ _ _ _ Hsk)) as Hlen.
  destruct (skip_key key K (zlen (walked X1)) Wk Bk) as (key' & -> & Wk' & Bk'); [unfold zlen in *; lia|]. cbn [rbind]. unfold seek.
  destruct (do_seek_spec K br (S (Z.to_nat (size_bits key'))) X1 rest1 t1 ts1 s1 T1 key' HzK Hsk Wk' Bk')
    as (st & X' & rest' & t' & ts' & s' & T' & -> & Hsk' & Hend & Htot'); [lia|].
  exists st, X', rest', t', ts', s', T'. split_and!; try done. intros k v. by rewrite Htot', Htot1.
Qed.

(** ** At the key *)

(** The walk is at [K], and what it had of [K] is gone. *)
Record arrived (K : list bool) (br : bool) (X : IterStackItem) (rest : list IterStackItem) (t : trie) (ts : list trie)
    (stack : list item) (Ts : list trie) : Prop := {
  ar_walking : walking X rest t ts stack Ts;
  ar_walked : walked X `prefix_of` K;
  ar_before : is_state X = -1 -> exists s, parts s K (opened X t);
  ar_after : is_state X = 2 -> opened X t = K \/ exists s, parts s (opened X t) K;
  ar_state : is_state X = -1 \/ is_state X = 2;
  ar_fits : fits stack Ts K;
  ar_free : br = true -> free stack Ts;
  ar_touched : br = true -> is_flatten X = false -> is_state X = 2 -> on (walked X) stack;
  ar_lows : lows Ts K;
}.

Lemma lacks_key K br X rest t ts stack Ts v : sought K br X rest t ts stack Ts -> ~ has Ts K v /\ ~ has (pends rest ts) K v.
Proof.
  intros Hsk. split; intros Hh.
  - apply (sk_lows _ _ _ _ _ _ _ _ Hsk) in Hh. by rewrite lex_refl in Hh.
  - eapply path_above in Hh; [|apply Hsk|apply Hsk]. by rewrite lex_refl in Hh.
Qed.

(** The key parts from the label of the top. *)
Lemma notfound_spec K br X rest t ts stack Ts rk :
  zlen K = N -> sought K br X rest t ts stack Ts -> seek_ends K X t (SeekNotFound rk) ->
  exists X' stack' Ts',
    (let! c := lex_cmp addr_eq rk (iter_label X) in
     if (match c with Gt => true | _ => false end) && negb (is_state X =? STATE_USED_FULL)
     then let! res_stack := add_subtrees ctx tt X 1 false stack in Ok (set_state X STATE_USED_FULL, res_stack)
     else Ok (X, stack)) = Ok (X', stack') /\
    arrived K br X' rest t ts stack' Ts' /\
    forall k v, total Ts' (X' :: rest) (t :: ts) k v <-> k <> K /\ total Ts (X :: rest) (t :: ts) k v.
Proof.
  intros HzK Hsk (Wr & Br & Hno). pose proof Hsk as [[Hp Hg] Hwk Had Hfit Hrdy Hfr Htch Hlow]. destruct (stack_path_top _ _ _ _ Hp) as [Hx Hs].
  pose proof (state_range _ _ Hs) as Hsr. destruct (io_label _ _ _ _ _ _ Hx) as [Wl Bl]. destruct (io_range _ _ _ _ _ _ Hx) as (Hw0 & Hwl & _).
  rewrite (lex_cmp_spec addr_eq) by (done || naive_solver). cbn [rbind]. rewrite Br, Bl.
  assert (lex (drop (Z.to_nat (zlen (walked X))) K) (tlabel t) = lex K (opened X t)) as ->.
  { destruct Hwk as [u ->]. rewrite drop_app_length' by (unfold zlen; lia). unfold opened. by rewrite lex_app, lex_refl. }
  assert (forall k v, total Ts (X :: rest) (t :: ts) k v <-> k <> K /\ total Ts (X :: rest) (t :: ts) k v) as Hsame.
  { intros k v. split; [|tauto]. intros Ht. split; [|done]. intros ->. destruct (lacks_key _ _ _ _ _ _ _ _ v Hsk) as [H1 H2].
    destruct Ht as [Hh|Hh]; [done|]. cbn [pends] in Hh. apply has_app in Hh as [Hh|Hh]; [|done]. by apply has_pend_prefix in Hh. }
  destruct (parts_split K (opened X t)) as [[s HK]|[s HK]].
  - intros HKo. apply Hno. apply prefix_length_eq in HKo as ->; [done|]. unfold opened, zlen in *. rewrite length_app. lia.
  - done.
  - rewrite (parts_lex _ _ _ HK). cbn [andb]. assert (is_state X = -1) as Es.
    { destruct (decide (is_state X = -1)) as [|Hne]; [done|]. destruct (Had Hne) as [[s' HK']|[_ HK']].
      - apply parts_lex in HK, HK'. rewrite lex_antisym, HK in HK'. done.
      - destruct Hno. etrans; [|exact HK']. by eexists. }
    exists X, stack, Ts. split; [done|]. split; [|done]. split; try done; [by exists s | rewrite Es; done | by left | by auto | rewrite Es; done].
  - assert (lex K (opened X t) = Gt) as -> by (by rewrite lex_antisym, (parts_lex _ _ _ HK)). cbn [andb].
    destruct (Z.eqb_spec (is_state X) STATE_USED_FULL) as [Es|Es]; cbn [negb]; change STATE_USED_FULL with 2 in *.
    + exists X, stack, Ts. split; [done|]. split; [|done]. split; try done; [rewrite Es; done | right; by exists s | by right | by auto |].
      intros _ Hfl _. by apply Htch.
    + destruct (drain_spec ctx N Dv HN Hcap HDv HD canon X t false stack Ts Hx Hs Hg Hrdy) as (s1 & T1 & E1 & G1 & F1 & EG & Hon).
      { destruct (decide (is_state X = -1)); [by left | right; apply Hfr; by right]. }
      { intros Hfl Es0. by apply (proj1 (Htch Hfl) false). }
      unfold drain in E1. destruct (Z.eqb_spec (is_state X) STATE_USED_FULL) as [|_]; [done|]. cbn [negb] in E1. rewrite E1. cbn [rbind].
      exists (set_state X 2), s1, T1. split; [done|]. split.
      * split; try done; [| right; by exists s | by right | | |].
        -- split; [|done]. eapply path_replace; [done | by apply item_ok_state | destruct t; simpl; (by right) || lia | done].
        -- apply free_fits; [done..|]. destruct (Z.ltb_spec (is_state X) 1).
           ++ destruct s1 as [|top s1]; [done|]. exists s. eapply parts_ext; [exact HK | exact Hon | done].
           ++ destruct Hon as [-> ->]. by eapply fits_below.
        -- intros _ Hfl _. change (is_flatten (set_state X 2)) with (is_flatten X) in Hfl. change (walked (set_state X 2)) with (walked X).
           destruct (Z.ltb_spec (is_state X) 1); [eapply on_prefix; [exact Hon | apply opened_walked]|].
           destruct Hon as [-> ->]. eapply on_prefix; [apply (proj1 (Htch Hfl) true); simpl; change STATE_USED_FULL with 2 in *; lia|].
           unfold opened. rewrite <- app_assoc. by eexists.
        -- intros k v [Hh|Hh]%EG; [|by apply (Hlow k v)]. apply has_pend_prefix in Hh. eapply parts_lex, parts_ext; [exact HK | exact Hh | done].
      * intros k v. rewrite <- Hsame. unfold total. cbn [pends]. rewrite !has_app, EG.
        assert (pend (set_state X 2) t = []) as -> by (by destruct t). rewrite has_nil. tauto.
Qed.

(** The key is that of the leaf at the top. *)
Lemma found_spec K br X rest t ts stack Ts fl :
  zlen K = N -> sought K br X rest t ts stack Ts -> seek_ends K X t SeekFound ->
  (br = true -> fl = true) ->
  let X' := set_flatten (set_state X STATE_USED_FULL) fl in
  arrived K br X' rest t ts stack Ts /\
  forall k v, total Ts (X' :: rest) (t :: ts) k v <-> k <> K /\ total Ts (X :: rest) (t :: ts) k v.
Proof.
  intros HzK Hsk [Eo Es] Hfl X'. pose proof Hsk as [[Hp Hg] Hwk Had Hfit Hrdy Hfr Htch Hlow]. destruct (stack_path_top _ _ _ _ Hp) as [Hx Hs].
  destruct (io_range _ _ _ _ _ _ Hx) as (Hw0 & Hwl & Hz). assert (zlen (opened X t) = N) as HzO by (by rewrite Eo).
  unfold opened in HzO. rewrite zlen_app in HzO. destruct t as [Kl w|Kl l r]; cbn [tlabel] in *; [|lia]. split.
  - split; try done; [|by left|by right|by auto|].
    + split; [|done]. eapply path_replace; [done | by apply item_ok_flatten, item_ok_state | by right | done].
    + intros Hbr Hff _. change (fl = false) in Hff. by rewrite Hfl in Hff.
  - intros k v. unfold total. cbn [pends]. rewrite !has_app. change (pend X' (TLeaf Kl w)) with (@nil trie). rewrite has_nil.
    rewrite (pend_all X _ k v Es). change (walked X ++ tlabel (TLeaf Kl w)) with (walked X ++ Kl). unfold opened in Eo. simpl tlabel in Eo.
    destruct (lacks_key _ _ _ _ _ _ _ _ v Hsk) as [H1 H2].
    assert (tget (shift (walked X) (TLeaf Kl w)) k = Some v -> k = K) as Hk.
    { intros (k' & -> & E)%tget_shift. simpl in E. case_bool_decide; [by subst | done]. }
    split; [intros [Hh|[[]|Hh]]; (split; [intros ->|]); tauto|]. intros [Hne [Hh|[Hh|Hh]]]; [tauto | by apply Hk in Hh | tauto].
Qed.

Context (pay : V -> payload).

Definition value_ok (o : option V) : Prop :=
  match o with Some v => stores ctx (store_into v) (pay v) /\ vok ctx N Dv (pay v) | None => True end.

(** What a change puts at its key *)
Definition put (o : option V) (w : payload) : Prop := match o with Some v => w = pay v | None => False end.

Definition upto (Ts : list trie) (K : list bool) : Prop := forall k v, has Ts k v -> lex k K <> Gt.

Lemma settle_spec K X rest t ts stack Ts kb (o : option V) :
  zlen K = N -> arrived K (negb (bool_decide (is_Some o))) X rest t ts stack Ts -> wf kb -> contents kb = K -> value_ok o ->
  exists stack' Ts',
    match (pair tt <$> o) with
    | Some (extra, value) => let! res_stack := add_value ctx tt stack kb value extra in Ok (X :: rest, res_stack)
    | None => Ok (X :: rest, stack)
    end = Ok (X :: rest, stack') /\
    settled K X rest t ts stack' Ts' /\ upto Ts' K /\
    forall k w, has Ts' k w <-> k = K /\ put o w \/ has Ts k w.
Proof.
  intros HzK [Hw Hwk Hb Ha Hst Hfit Hfr Htch Hlow] Wkb Ckb Ho.
  assert (forall b : bool, is_state X = b2z b -> False) as Hnb by (intros b Eb; destruct Hst as [E|E]; rewrite E in Eb; by destruct b).
  destruct o as [v|]; cbn [fmap option_fmap option_map].
  - destruct Ho as [Hsv Hv]. rewrite <- Ckb in Hfit, HzK.
    destruct (pushes_free ctx N Dv canon _ _ _ _ _ (add_value_spec ctx N Dv HN Hcap HDv HD canon kb (pay v) v stack Ts (wk_good _ _ _ _ _ _ Hw) Wkb HzK Hfit Hsv Hv))
      as (s1 & T1 & -> & [G1 EG] & F1 & Ek). cbn [rbind]. rewrite Ckb in *. assert (on K s1) as Hon by (destruct s1 as [|top s1]; [done|]; simpl; by rewrite Ek).
    exists s1, T1. split; [done|]. split; [|split].
    + split; [split; [apply Hw | done] | done | | done]. split; try done.
      * intros b Eb. by apply Hnb in Eb.
      * left. destruct s1 as [|top s1]; [done|]. by left.
      * intros _. split; [intros b Eb; by apply Hnb in Eb|]. intros _. eapply on_prefix; [done|]. done.
    + intros k w [E|E]%EG; [|by rewrite (Hlow k w)]. simpl in E. destruct (bool_decide_reflect (k = K)); [subst; by rewrite lex_refl | done].
    + intros k w. rewrite EG. assert (tget (TLeaf K (pay v)) k = Some w <-> k = K /\ w = pay v) as ->; [|done].
      simpl. destruct (bool_decide_reflect (k = K)); split; [by intros [= <-] | by intros [_ ->] | done | by intros [? _]].
  - exists stack, Ts. split; [done|]. split; [|split].
    + split; [done | by apply Hfr | | done]. split; try done.
      * intros b Eb. by apply Hnb in Eb.
      * left. apply fits_below in Hfit; [|apply Hw]. destruct stack as [|top rs]; [done|]. right. exact Hfit.
      * intros Hfl. split; [intros b Eb; by apply Hnb in Eb | by apply Htch].
    + intros k w E. by rewrite (Hlow k w).
    + intros k w. simpl. tauto.
Qed.

Lemma put_value_spec K X rest t ts stack Ts st kb (o : option V) :
  zlen K = N -> sought K (negb (bool_decide (is_Some o))) X rest t ts stack Ts -> seek_ends K X t st ->
  wf kb -> contents kb = K -> value_ok o ->
  exists X' stack' Ts', put_value addr_eq ctx tt st (X :: rest) stack kb (pair tt <$> o) = Ok (X' :: rest, stack') /\
    settled K X' rest t ts stack' Ts' /\ upto Ts' K /\
    forall k w, total Ts' (X' :: rest) (t :: ts) k w <-> k = K /\ put o w \/ k <> K /\ total Ts (X :: rest) (t :: ts) k w.
Proof.
  intros HzK Hsk Hend Wkb Ckb Ho. destruct st as [rk|]; unfold put_value.
  - destruct (notfound_spec K _ X rest t ts stack Ts rk HzK Hsk Hend) as (X1 & s1 & T1 & E & Har & Htot).
    destruct (lex_cmp addr_eq rk (iter_label X)) as [c|]; [|done]. cbn [rbind] in *. rewrite E. cbn [rbind].
    destruct (settle_spec K X1 rest t ts s1 T1 kb o HzK Har Wkb Ckb Ho) as (s2 & T2 & E2 & Hse & Hup & Htot2).
    exists X1, s2, T2. split_and!; try done. intros k w. rewrite <- Htot. unfold total. rewrite Htot2. tauto.
  - destruct (found_spec K _ X rest t ts stack Ts (match o with Some _ => is_flatten X | None => true end) HzK Hsk Hend) as [Har Htot]; [by destruct o|].
    destruct (settle_spec K _ rest t ts stack Ts kb o HzK Har Wkb Ckb Ho) as (s2 & T2 & E2 & Hse & Hup & Htot2).
    eexists _, s2, T2. split; [|split_and!; [exact Hse | done|]].
    + rewrite <- E2. by destruct o.
    + intros k w. rewrite <- Htot. unfold total. rewrite Htot2. tauto.
Qed.
End Walk.
