(* ===== verification/DictModifyCorrect.v ===== *)
(** * DictModifyCorrect: the changes of a sorted list, one after the other

    [modify_entry] keeps the map of the changes so far ([modified]); a key that is lower
    than the one before it ends the loop, an equal one is skipped. *)

From stdpp Require Import gmap.
From S2P Require Import Prelude Bits DataBuilder DataBuilderSpec CellMeta Cell Slice SliceSpec SliceScan SliceScanSpec Builder BuilderSpec Context DictLabel DictLabelSpec Dict DictSpec DictKeys DictBuild DictModify DictStack DictModifyStep DictBuildSpec DictModifySpec.

Section Changes.
Context {mach : Machine} (ctx : CellContext) {laws : ContextLaws ctx}.
Context {K : Type} `{HKo : OrderedKey K} {V : Type} `{Store V} (pay : V -> payload).
Context (Dv : Z) (Hcap : 2 + len_bits (KEY_BITS K) + KEY_BITS K <= MAX_BIT_LEN) (HDv : 0 <= Dv)
  (HD : Dv + KEY_BITS K <= MAX_DEPTH) (canon : bool).
Context (addr_eq : Cell -> Cell -> bool) (Haddr : forall a b, addr_eq a b = true <-> a = b).
(** The entries, and what the closures of the caller take from them. *)
Context {T : Type} (extract_key : T -> K) (extract_value : T -> result (option V)) (val_of : T -> option V).

#[local] Abbreviation N := (KEY_BITS K).
#[local] Existing Instance Mode.
#[local] Abbreviation settled := (settled ctx N Dv canon).

Definition change (M : gmap (list bool) payload) (k : list bool) (o : option V) : gmap (list bool) payload :=
  match o with Some v => <[k := pay v]> M | None => delete k M end.

(** The changes in their order; those with the key of the one before are skipped. *)
Fixpoint changes (prev : option K) (M : gmap (list bool) payload) (entries : list T) : gmap (list bool) payload :=
  match entries with
  | [] => M
  | e :: entries =>
      match (p ← prev; Some (key_cmp (extract_key e) p)) with
      | Some Eq => changes prev M entries
      | _ => changes (Some (extract_key e)) (change M (key_bits (extract_key e)) (val_of e)) entries
      end
  end.

Definition keyed (e : T) : K * T := (extract_key e, e).

Definition change_ok (e : T) : Prop :=
  key_ok (extract_key e) /\ extract_value e = Ok (val_of e) /\ value_ok ctx N Dv pay (val_of e).

Definition with_extra (e : T) : result (option (unit * V)) := let! value := extract_value e in Ok (pair tt <$> value).

(** The loop has made [M] of the dictionary. *)
Definition modified (root : Cell) (st : ModifyState) (M : gmap (list bool) payload) : Prop :=
  match md_prev_key st with
  | None => st = mkModify None data_new [] [] /\ exists t, rep ctx N Dv canon N root t /\ forall k, M !! k = tget t k
  | Some p => key_ok p /\ wf (md_prev_key_builder st) /\ contents (md_prev_key_builder st) = key_bits p /\
      exists X rest t ts Ts, md_iter_stack st = X :: rest /\ settled (key_bits p) X rest t ts (md_res_stack st) Ts /\
        upto Ts (key_bits p) /\ forall k v, M !! k = Some v <-> total Ts (X :: rest) (t :: ts) k v
  end.

Lemma key_len : 0 <= N <= 1023.
Proof. apply key_fits. Qed.

(** The start of the walk *)
Lemma seek_first_spec (key : list bool) br root t ks :
  zlen key = N -> rep ctx N Dv canon N root t -> slice_wf ks -> slice_bits ks = key ->
  exists st X rest t' ts stack Ts, seek_first addr_eq ctx tt root ks br [] = Ok (st, X :: rest, stack) /\
    sought ctx N Dv canon key br X rest t' ts stack Ts /\ seek_ends key X t' st /\
    forall k v, total Ts (X :: rest) (t' :: ts) k v <-> tget t k = Some v.
Proof.
  pose proof key_len as HN. intros HzK Hr Wk Bk. unfold seek_first. pose proof (zlen_slice_bits ks Wk) as Hz. rewrite Bk in Hz.
  destruct (iter_load_spec ctx N Dv HN canon addr_eq Haddr data_new (size_bits ks) root t data_new_wf) as (X & -> & Hx & EX & _ & Es & Efl).
  { rewrite contents_new. change (zlen []) with 0. lia. }
  { by rewrite <- Hz, HzK. }
  cbn [rbind]. assert (walked X = []) as Ew by (unfold walked; by rewrite EX). unfold seek.
  destruct (do_seek_spec ctx N Dv HN Hcap HDv HD canon addr_eq Haddr key br (S (Z.to_nat (size_bits ks))) X [] t [] [] [] ks HzK)
    as (st & X' & rest' & t' & ts' & s' & T' & -> & Hsk & Hend & Htot).
  - split; rewrite ?Ew, ?Es; try done.
    + split; [|done]. apply path_root; [done| |done]. unfold state_ok. rewrite Es. destruct t; [by left|lia].
    + apply prefix_nil.
    + intros _. split; [by intros []|done].
    + intros k v Hh. by apply has_nil in Hh.
  - done.
  - by rewrite Ew, Bk.
  - lia.
  - exists st, X', rest', t', ts', s', T'. split_and!; try done. intros k v. rewrite Htot. unfold total. cbn [pends].
    rewrite app_nil_r, has_nil, (pend_all X t k v Es), Ew, tget_shift. naive_solver.
Qed.

Lemma change_lookup M k o k' w :
  change M k o !! k' = Some w <-> k' = k /\ put pay o w \/ k' <> k /\ M !! k' = Some w.
Proof.
  unfold change, put. destruct o as [v|].
  - rewrite lookup_insert_Some. naive_solver.
  - rewrite lookup_delete_Some. naive_solver.
Qed.

(** The walk to a key after the last one *)
Lemma seek_entry root st M k br ks :
  modified root st M -> key_ok k -> slice_wf ks -> slice_bits ks = key_bits k ->
  (forall p, md_prev_key st = Some p -> key_cmp k p = Gt) ->
  exists stt X rest t ts stack Ts,
    match md_prev_key st with
    | None => seek_first addr_eq ctx tt root ks br (md_res_stack st)
    | Some _ => seek_next addr_eq ctx tt (md_iter_stack st) (as_data_slice (md_prev_key_builder st)) ks br (md_res_stack st)
    end = Ok (stt, X :: rest, stack) /\
    sought ctx N Dv canon (key_bits k) br X rest t ts stack Ts /\ seek_ends (key_bits k) X t stt /\
    forall k' v, M !! k' = Some v <-> total Ts (X :: rest) (t :: ts) k' v.
Proof.
  pose proof key_len as HN. intros Hm Hk Wk Bk Hgt. unfold modified in Hm. pose proof (zlen_key_bits k Hk) as Hz.
  destruct (md_prev_key st) as [p|].
  - destruct Hm as (Hp & Wp & Cp & X & rest & t & ts & Ts & -> & Hse & Hup & HM). specialize (Hgt p eq_refl).
    rewrite key_cmp_law, lex_antisym in Hgt by done.
    assert (lex (key_bits p) (key_bits k) = Lt) as Hlt by (by destruct (lex (key_bits p) (key_bits k))).
    destruct (as_data_slice_spec _ Wp) as (Wps & Bps & _). rewrite Cp in Bps.
    destruct (seek_next_spec ctx N Dv HN Hcap HDv HD canon addr_eq Haddr (key_bits p) (key_bits k) br X rest t ts (md_res_stack st) Ts
      (as_data_slice (md_prev_key_builder st)) ks) as (stt & X' & rest' & t' & ts' & s' & T' & E & Hsk & Hend & Htot); try done.
    + by apply zlen_key_bits.
    + intros k' v Hh. pose proof (Hup k' v Hh) as Hne. destruct (lex k' (key_bits p)) eqn:El; [apply lex_eq in El as ->; done | | done].
      by eapply lex_trans.
    + exists stt, X', rest', t', ts', s', T'. split_and!; try done. intros k' v. by rewrite Htot.
  - destruct Hm as (-> & t & Hr & HM). destruct (seek_first_spec (key_bits k) br root t ks) as (stt & X' & rest' & t' & ts' & s' & T' & E & Hsk & Hend & Htot); try done.
    exists stt, X', rest', t', ts', s', T'. split_and!; try done. intros k' v. by rewrite Htot, HM.
Qed.

Lemma modify_entry_next root st M e :
  modified root st M -> change_ok e -> (forall p, md_prev_key st = Some p -> key_cmp (extract_key e) p = Gt) ->
  exists st', modify_entry addr_eq ctx tt extract_key with_extra root st e = Ok st' /\
    md_prev_key st' = Some (extract_key e) /\ modified root st' (change M (key_bits (extract_key e)) (val_of e)).
Proof.
  pose proof key_len as HN. intros Hm (Hk & Ev & Ho) Hgt. unfold modify_entry. set (k := extract_key e) in *.
  destruct (store_key_new k Hk) as (Est & W & C). destruct (as_data_slice_spec _ W) as (Ws & Bs & _). rewrite C in Bs.
  pose proof (zlen_key_bits k Hk) as Hz.
  assert (exists d, store_slice_data uninit (clear_bits (md_prev_key_builder st)) (as_data_slice (of_bits (key_bits k))) = Ok d /\
    wf d /\ contents d = key_bits k) as (d & Ed & Wd & Cd).
  { rewrite clear_bits_spec. assert (wf (of_bits [])) as W0 by (apply of_bits_wf; unfold MAX_BIT_LEN, zlen; simpl; lia).
    destruct (store_label N HN (of_bits []) _ W0 Ws) as (d & ? & ? & Cd); rewrite contents_of_bits in * by (unfold MAX_BIT_LEN, zlen; simpl; lia).
    - rewrite Bs. unfold zlen in *. simpl. lia.
    - exists d. split_and!; [done..|]. by rewrite Cd, Bs. }
  destruct (seek_entry root st M k (negb (bool_decide (is_Some (val_of e)))) (as_data_slice (of_bits (key_bits k))) Hm Hk Ws Bs Hgt)
    as (stt & X & rest & t & ts & stack & Ts & Es & Hsk & Hend & Htot).
  destruct (put_value_spec ctx N Dv HN Hcap HDv HD canon addr_eq Haddr pay (key_bits k) X rest t ts stack Ts stt (of_bits (key_bits k)) (val_of e))
    as (X' & stack' & Ts' & Ep & Hse & Hup & Htot'); try done.
  set (st' := mkModify (Some k) d (X' :: rest) stack').
  assert (match (p ← md_prev_key st; Some (key_cmp k p)) with
     | Some Eq => False | Some Lt => False | _ => True end) as Hcase.
  { destruct (md_prev_key st) as [p|]; [|done]. simpl. by rewrite (Hgt p eq_refl). }
  exists st'. split_and!; [|done|].
  - destruct (p ← md_prev_key st; Some (key_cmp k p)) as [[]|]; try done; rewrite Est; cbn [rbind]; unfold with_extra at 1; rewrite Ev; cbn [rbind];
      (replace (negb match pair tt <$> val_of e with Some _ => true | None => false end) with (negb (bool_decide (is_Some (val_of e)))) by (by destruct (val_of e)));
      rewrite Es; cbn [rbind]; rewrite Ed; cbn [rbind]; rewrite Ep; done.
  - unfold modified. simpl. split_and!; try done. exists X', rest, t, ts, Ts'. split_and!; try done.
    intros k' w. rewrite change_lookup, Htot', Htot. done.
Qed.

Lemma modify_entries_spec root entries st M :
  modified root st M -> Forall change_ok entries ->
  if sorted_from (md_prev_key st) (keyed <$> entries)
  then exists st', modify_entries addr_eq ctx tt extract_key with_extra root st entries = Ok st' /\
    (entries <> [] -> is_Some (md_prev_key st')) /\ (entries = [] -> st' = st) /\ modified root st' (changes (md_prev_key st) M entries)
  else modify_entries addr_eq ctx tt extract_key with_extra root st entries = Err InvalidData.
Proof.
  intros Hm HF. revert st M Hm. induction HF as [|e entries He HF IH]; intros st M Hm; [by exists st|].
  cbn [fmap list_fmap keyed sorted_from modify_entries changes]. change (@fmap list _ _ _ keyed entries) with (keyed <$> entries).
  set (k := extract_key e) in *. pose proof (proj1 He) as Hk. fold k in Hk.
  assert (Forall (fun e : K * T => key_ok e.1) (keyed <$> entries)) as HFk.
  { apply list.Forall_fmap. eapply list.Forall_impl; [exact HF | by intros ? []]. }
  assert ((forall p, md_prev_key st = Some p -> key_cmp k p = Gt) ->
    if sorted_from (Some k) (keyed <$> entries)
    then exists st', (let! st := modify_entry addr_eq ctx tt extract_key with_extra root st e in
        modify_entries addr_eq ctx tt extract_key with_extra root st entries) = Ok st' /\
      is_Some (md_prev_key st') /\ modified root st' (changes (Some k) (change M (key_bits k) (val_of e)) entries)
    else (let! st := modify_entry addr_eq ctx tt extract_key with_extra root st e in
        modify_entries addr_eq ctx tt extract_key with_extra root st entries) = Err InvalidData) as Hnext.
  { intros Hgt. destruct (modify_entry_next root st M e Hm He Hgt) as (st1 & -> & E1 & Hm1). cbn [rbind]. fold k in E1, Hm1.
    specialize (IH st1 _ Hm1). rewrite E1 in IH. destruct (sorted_from (Some k) _); [|done].
    destruct IH as (st' & -> & Hs & Hn & Hm'). exists st'. split_and!; [done| |done].
    destruct entries; [rewrite (Hn eq_refl), E1; by eexists | by apply Hs]. }
  destruct (md_prev_key st) as [p|] eqn:Ep; cbn [mbind option_bind]; [destruct (key_cmp k p) eqn:Ecmp|].
  - specialize (IH st M Hm). rewrite Ep in IH. assert (key_ok p) as Hp by (unfold modified in Hm; rewrite Ep in Hm; apply Hm).
    rewrite (sorted_from_eq k p); [|done|done|by apply bits_eq|done]. unfold modify_entry. fold k. rewrite Ep. cbn [mbind option_bind]. rewrite Ecmp. cbn [rbind].
    destruct (sorted_from (Some p) _); [|done]. destruct IH as (st' & E & Hs & Hn & Hm'). exists st'. split_and!; try done.
    intros _. destruct entries; [rewrite (Hn eq_refl), Ep; by eexists | by apply Hs].
  - unfold modify_entry. fold k. rewrite Ep. cbn [mbind option_bind]. by rewrite Ecmp.
  - specialize (Hnext ltac:(by intros ? [= <-])). destruct (sorted_from (Some k) _); [|done].
    destruct Hnext as (st' & ? & ? & ?). by exists st'.
  - specialize (Hnext ltac:(done)). destruct (sorted_from (Some k) _); [|done]. destruct Hnext as (st' & ? & ? & ?). by exists st'.
Qed.

(** ** The whole *)

(** A dictionary with entries *)
Lemma modify_root_correct root M entries :
  dict_rep ctx N Dv canon N (Some root) M -> Forall change_ok entries ->
  if sorted_from None (keyed <$> entries)
  then exists dict', dict_modify_from_sorted_iter addr_eq (Some root) entries extract_key extract_value ctx = Ok (negb (bool_decide (entries = [])), dict') /\
    dict_rep ctx N Dv canon N dict' (changes None M entries)
  else dict_modify_from_sorted_iter addr_eq (Some root) entries extract_key extract_value ctx = Err InvalidData.
Proof.
  pose proof key_len as HN. intros (t & Hr & HM) HF. unfold dict_modify_from_sorted_iter, modify_sorted. fold Mode.
  change (λ entry : T, let! value := extract_value entry in Ok (pair tt <$> value)) with with_extra.
  assert (modified root (mkModify None data_new [] []) M) as Hm by (split; [done|]; by exists t).
  pose proof (modify_entries_spec root entries _ M Hm HF) as Hs. cbn [md_prev_key] in Hs.
  destruct (sorted_from None _); [|by rewrite Hs]. destruct Hs as (st' & -> & Hso & Hn & Hm'). cbn [rbind].
  destruct entries as [|e entries].
  { rewrite (Hn eq_refl). exists (Some root). split; [done|]. by exists t. }
  destruct (Hso ltac:(done)) as [p Ep]. unfold modified in Hm'. rewrite Ep in *.
  destruct Hm' as (Hp & _ & _ & X & rest & t' & ts & Ts & -> & [Hw Hf Hpl _] & _ & Htot).
  destruct (seek_end_spec ctx N Dv HN Hcap HDv HD canon (key_bits p) X t' rest ts false _ Ts Hw Hf Hpl) as (s1 & T1 & -> & G1 & F1 & EG). cbn [rbind].
  destruct s1 as [|top s1].
  - simpl in G1. subst. exists None. split; [done|]. apply map_eq. intros k. apply option_eq. intros v. rewrite Htot, <- EG, has_nil, lookup_empty. naive_solver.
  - destruct T1 as [|T0 T1]; [by inversion G1|].
    destruct (finalize_spec ctx N Dv HN Hcap HDv HD canon top s1 T0 T1 G1) as (c & T' & E & Hr' & EG').
    { apply F1. pose proof (zlen_nonneg (item_key top)). destruct s1; [lia|]. inversion G1 as [|? ? ? ? ? ? Hpp]; subst.
      apply parts_nonneg in Hpp. lia. }
    rewrite E. cbn [rbind]. exists (Some c). split; [done|]. exists T'. split; [done|]. intros k. apply option_eq. intros v.
    by rewrite Htot, <- EG, EG'.
Qed.

(** The entries that add a value *)
Definition added (entries : list T) : list (K * V) := omap (fun e => pair (extract_key e) <$> val_of e) entries.

Lemma added_cons e entries :
  added (e :: entries) = match val_of e with Some v => (extract_key e, v) :: added entries | None => added entries end.
Proof. unfold added. cbn [omap list_omap]. by destruct (val_of e). Qed.

Lemma new_entries_spec entries :
  Forall change_ok entries -> new_entries extract_key with_extra entries = ((fun e => (e.1, tt, e.2)) <$> added entries, None).
Proof.
  induction 1 as [|e entries (_ & Ev & _) HF IH]; [done|]. cbn [new_entries]. rewrite added_cons. unfold with_extra at 1.
  rewrite Ev. cbn [rbind]. rewrite IH. destruct (val_of e); done.
Qed.

Lemma added_ok entries : Forall change_ok entries -> Forall (entry_ok ctx pay Dv) (added entries).
Proof.
  induction 1 as [|e entries (Hk & _ & Ho) HF IH]; [constructor|]. rewrite added_cons.
  destruct (val_of e) as [v|]; [|done]. constructor; [|done]. by destruct Ho.
Qed.

(** An empty dictionary: the entries that remove are dropped first. *)
Lemma modify_none_correct entries :
  Forall change_ok entries ->
  if sorted_from None (added entries)
  then exists dict', dict_modify_from_sorted_iter addr_eq None entries extract_key extract_value ctx = Ok (bool_decide (is_Some dict'), dict') /\
    dict_rep ctx N Dv canon N dict' (first_wins pay (added entries))
  else dict_modify_from_sorted_iter addr_eq None entries extract_key extract_value ctx = Err InvalidData.
Proof.
  intros HF. unfold dict_modify_from_sorted_iter, modify_sorted. fold Mode.
  change (λ entry : T, let! value := extract_value entry in Ok (pair tt <$> value)) with with_extra.
  rewrite new_entries_spec by done. pose proof (build_dict_correct ctx pay Dv Hcap HDv HD canon (added entries) (added_ok entries HF)) as Hb.
  unfold build_dict_from_sorted_iter, build_sorted in Hb. fold Mode in Hb. destruct (sorted_from None (added entries)).
  - destruct Hb as (root & E & Hr). exists root. split; [|done]. destruct (build_entries _ _ _ _ _) as [stack|]; [|done]. cbn [rbind] in *.
    rewrite E. cbn [rbind]. by destruct root.
  - destruct (build_entries _ _ _ _ _) as [stack|]; cbn [rbind] in *; [|by injection Hb as ->].
    by rewrite Hb.
Qed.

(** ** Keys in increasing order *)

Fixpoint increasing (prev : option K) (entries : list T) : bool :=
  match entries with
  | [] => true
  | e :: entries =>
      match (p ← prev; Some (key_cmp (extract_key e) p)) with Some Lt | Some Eq => false | _ => increasing (Some (extract_key e)) entries end
  end.

Definition change_entry (M : gmap (list bool) payload) (e : T) : gmap (list bool) payload := change M (key_bits (extract_key e)) (val_of e).

Lemma increasing_changes prev entries M :
  increasing prev entries = true -> sorted_from prev (keyed <$> entries) = true /\ changes prev M entries = foldl change_entry M entries.
Proof.
  revert prev M. induction entries as [|e entries IH]; intros prev M; [done|].
  cbn [increasing fmap list_fmap keyed sorted_from changes foldl].
  destruct (p ← prev; Some (key_cmp (extract_key e) p)) as [[]|]; [done..|apply IH|apply IH].
Qed.

(** All keys are at most [prev]. *)
Definition within (prev : option K) (M : gmap (list bool) payload) : Prop :=
  match prev with Some p => key_ok p /\ forall k v, M !! k = Some v -> lex k (key_bits p) <> Gt | None => M = ∅ end.

Lemma within_next prev M k :
  within prev M -> key_ok k -> (forall p, prev = Some p -> key_cmp k p = Gt) -> forall k' v, M !! k' = Some v -> lex k' (key_bits k) = Lt.
Proof.
  intros Hw Hk Hgt k' v E. destruct prev as [p|]; [|by rewrite Hw, lookup_empty in E]. destruct Hw as [Hp Hw].
  specialize (Hgt p eq_refl). rewrite key_cmp_law, lex_antisym in Hgt by done. specialize (Hw k' v E).
  assert (lex (key_bits p) (key_bits k) = Lt) as Hlt by (by destruct (lex (key_bits p) (key_bits k))).
  destruct (lex k' (key_bits p)) eqn:El; [apply lex_eq in El as ->; done | by eapply lex_trans | done].
Qed.

Lemma increasing_added prev prev' entries M :
  Forall change_ok entries -> increasing prev entries = true -> within prev M ->
  (forall p, prev' = Some p -> key_ok p /\ exists q, prev = Some q /\ lex (key_bits p) (key_bits q) <> Gt) ->
  sorted_from prev' (added entries) = true /\ foldl (add_entry pay) M (added entries) = foldl change_entry M entries.
Proof.
  intros HF. revert prev prev' M. induction HF as [|e entries (Hk & _ & _) HF IH]; intros prev prev' M Hi Hw Hp'; [done|].
  cbn [increasing] in Hi. cbn [foldl]. rewrite added_cons.
  assert (increasing (Some (extract_key e)) entries = true /\ forall p, prev = Some p -> key_cmp (extract_key e) p = Gt) as [Hi' Hgt].
  { destruct prev as [p|]; simpl in Hi; [|done]. destruct (key_cmp (extract_key e) p) eqn:Ec; try done. split; [done|]. by intros ? [= <-]. }
  pose proof (within_next prev M _ Hw Hk Hgt) as Hlt.
  assert (M !! key_bits (extract_key e) = None) as Hnone.
  { destruct (M !! key_bits (extract_key e)) as [v|] eqn:E; [|done]. apply Hlt in E. by rewrite lex_refl in E. }
  unfold change_entry at 2. destruct (val_of e) as [v|]; cbn [change].
  - cbn [sorted_from foldl]. unfold add_entry at 2, insert_first. cbn [fst snd]. rewrite Hnone.
    destruct (IH (Some (extract_key e)) (Some (extract_key e)) (<[key_bits (extract_key e) := pay v]> M) Hi') as [Hs Hf].
    + split; [done|]. intros k w [[<- _]|[_ E]]%lookup_insert_Some; [by rewrite lex_refl | by rewrite (Hlt k w E)].
    + intros p [= <-]. split; [done|]. exists (extract_key e). by rewrite lex_refl.
    + rewrite Hs, Hf. split; [|done]. destruct prev' as [p|]; [|done]. simpl. destruct (Hp' p eq_refl) as (Hpk & q & -> & Hpq).
      specialize (Hgt q eq_refl). assert (key_ok q) as Hq by apply Hw. rewrite key_cmp_law, lex_antisym in Hgt by done.
      assert (lex (key_bits p) (key_bits (extract_key e)) = Lt) as Hl.
      { assert (lex (key_bits q) (key_bits (extract_key e)) = Lt) by (by destruct (lex (key_bits q) _)).
        destruct (lex (key_bits p) (key_bits q)) eqn:El; [apply lex_eq in El as ->; done | by eapply lex_trans | done]. }
      rewrite key_cmp_law, lex_antisym, Hl by done. done.
  - rewrite delete_id by done. apply (IH (Some (extract_key e))); [done| |].
    + split; [done|]. intros k w E. by rewrite (Hlt k w E).
    + intros p Ep. destruct (Hp' p Ep) as (Hpk & q & -> & Hpq). split; [done|]. exists (extract_key e). split; [done|].
      specialize (Hgt q eq_refl). assert (key_ok q) as Hq by apply Hw. rewrite key_cmp_law, lex_antisym in Hgt by done.
      assert (lex (key_bits q) (key_bits (extract_key e)) = Lt) by (by destruct (lex (key_bits q) _)).
      destruct (lex (key_bits p) (key_bits q)) eqn:El; [apply lex_eq in El as ->; congruence | by erewrite lex_trans | done].
Qed.

(** Any dictionary, changes in increasing order *)
Lemma modify_increasing dict M entries :
  dict_rep ctx N Dv canon N dict M -> Forall change_ok entries -> increasing None entries = true ->
  exists changed dict', dict_modify_from_sorted_iter addr_eq dict entries extract_key extract_value ctx = Ok (changed, dict') /\
    dict_rep ctx N Dv canon N dict' (foldl change_entry M entries).
Proof.
  intros HM HF Hi. destruct dict as [root|].
  - pose proof (modify_root_correct root M entries HM HF) as Hm. destruct (increasing_changes None entries M Hi) as [Es Ec]. rewrite Es, Ec in Hm.
    destruct Hm as (dict' & ? & ?). by eexists _, dict'.
  - simpl in HM. subst. pose proof (modify_none_correct entries HF) as Hm.
    destruct (increasing_added None None entries ∅ HF Hi ltac:(done) ltac:(done)) as [Es Ec]. rewrite Es in Hm. rewrite <- Ec.
    destruct Hm as (dict' & ? & ?). by eexists _, dict'.
Qed.

(** The reference: one insertion or removal per entry. *)
Definition change_one (dict : option Cell) (e : T) : result (option Cell) :=
  let! key := store_into_data (extract_key e) data_new in
  let! value := extract_value e in
  match value with
  | Some value => let! (_, dict) := dict_insert ctx dict (as_data_slice key) N (store_into value) SetSet in Ok dict
  | None => let! (_, dict) := dict_remove_owned ctx dict (as_data_slice key) N false in Ok dict
  end.

Fixpoint change_all (dict : option Cell) (entries : list T) : result (option Cell) :=
  match entries with
  | [] => Ok dict
  | e :: entries => let! dict := change_one dict e in change_all dict entries
  end.

Lemma change_all_correct entries dict M :
  Forall change_ok entries -> dict_rep ctx N Dv canon N dict M ->
  exists dict', change_all dict entries = Ok dict' /\ dict_rep ctx N Dv canon N dict' (foldl change_entry M entries).
Proof.
  pose proof key_len as HN. intros HF. revert dict M. induction HF as [|e entries (Hk & Ev & Ho) HF IH]; intros dict M HM; [by exists dict|].
  cbn [change_all foldl]. unfold change_one at 1, change_entry at 2. destruct (store_key_new _ Hk) as (-> & W & C). rewrite Ev. cbn [rbind].
  destruct (as_data_slice_spec _ W) as (Ws & Bs & _). rewrite C in Bs.
  pose proof (zlen_slice_bits _ Ws) as Hz. rewrite Bs, zlen_key_bits in Hz by done. destruct (val_of e) as [v|].
  - destruct Ho as [Hst Hv].
    destruct (dict_insert_correct ctx N Dv HN Hcap HDv HD canon _ Ws (eq_sym Hz) (store_into v) (pay v) Hst Hv dict M SetSet HM)
      as (dict' & -> & HM'). cbn [rbind]. apply IH. unfold insert_map in HM'. rewrite Bs in HM'. by destruct (M !! _).
  - destruct (dict_remove_owned_correct ctx N Dv HN Hcap HDv HD canon _ Ws (eq_sym Hz) dict M HM) as (p & dict' & -> & HM' & _).
    cbn [rbind]. apply IH. by rewrite Bs in HM'.
Qed.
End Changes.
