(* ===== verification/DictFind.v ===== *)
(** * DictFind: ordered searches in dictionaries ([src/src/dict/ops/find.rs])

    The lowest and the greatest key, and the nearest key to a given one.  The two
    loops of [dict_find_owned] and its rewinding are separate definitions; every
    loop gets one unit of fuel per key bit. *)

From S2P Require Import Prelude Bits DataBuilder CellMeta Cell Slice SliceScan Builder DictLabel Dict.

(** [CellDataBuilder::store_slice_data] *)
Definition store_key_part (key : CellDataBuilder) (part : CellSlice) : result CellDataBuilder :=
  store_slice_data uninit key part.

Section Find.
Context (ctx : CellContext).

(** The loop of [dict_find_bound_owned], which that of [dict_find_bound] is without
    the parent: the key, the value and the parent of the leaf. *)
Fixpoint find_bound_loop (fuel : nat) (data : CellSlice) (key_bit_len : Z) (bound : DictBound)
    (signed : bool) (direction : option Branch) (key : CellDataBuilder) (prev : option (Cell * Branch))
    : result (CellDataBuilder * CellSlice * option (Cell * Branch)) :=
  match fuel with
  | O => Err CellUnderflow
  | S fuel =>
      let! (prefix, data) := read_label data key_bit_len in
      let! key := if negb (is_data_empty prefix) then store_key_part key prefix else Ok key in
      match checked_sub key_bit_len (size_bits prefix) with
      | None => Err CellUnderflow
      | Some remaining =>
          if remaining =? 0 then Ok (key, data, prev)
          else if size_refs data <? 2 then Err CellUnderflow
          else
            let key_bit_len := remaining - 1 in
            let '(next_branch, direction) :=
              DictBounds.update_direction bound prefix signed direction in
            let! key := store_bit key (Branches.into_bit next_branch) in
            let prev := Some (cell data, next_branch) in
            let! child := some_or_underflow (reference (cell data) (Branches.to_u8 next_branch)) in
            let! child := load_dyn_cell child Full in
            let! data := slice_new child in
            find_bound_loop fuel data key_bit_len bound signed direction key prev
      end
  end.

Definition dict_find_bound (dict : option Cell) (key_bit_len : Z) (bound : DictBound) (signed : bool)
    : result (option (CellDataBuilder * CellSlice)) :=
  match dict with
  | Some data =>
      let! data := load_dyn_cell data Full in
      let! data := slice_new data in
      let! (key, data, _) :=
        find_bound_loop (S (Z.to_nat key_bit_len)) data key_bit_len bound signed None data_new None in
      Ok (Some (key, data))
  | None => Ok None
  end.

(** The cell of a found value: the child of the last parent, or the root. *)
Definition found_cell (prev : option (Cell * Branch)) (root : Cell) : result Cell :=
  match prev with
  | Some (prev, next_branch) =>
      let! c := some_or_underflow (reference_cloned prev (Branches.to_u8 next_branch)) in
      load_cell c Resolve
  | None => Ok root
  end.

Definition dict_find_bound_owned (dict : option Cell) (key_bit_len : Z) (bound : DictBound)
    (signed : bool) : result (option DictOwnedEntry) :=
  match dict with
  | Some root =>
      let! root := load_cell root Full in
      let! data := slice_new root in
      let! (key, data, prev) :=
        find_bound_loop (S (Z.to_nat key_bit_len)) data key_bit_len bound signed None data_new None in
      let! c := found_cell prev root in
      Ok (Some (key, (range data, c)))
  | None => Ok None
  end.

(** ** [dict_find_owned] *)

(** [enum Leaf] *)
Inductive Leaf : Type :=
| LeafValue (rg : CellSliceRange)
| LeafDivergence (next_branch : Branch).

(** The first loop: the leaf, the node and the key where it ends, and the stack. *)
Fixpoint find_exact_loop (fuel : nat) (data : Cell) (key : CellSlice) (signed : bool)
    (stack : list Segment) : result (Leaf * Cell * CellSlice * list Segment) :=
  match fuel with
  | O => Err CellUnderflow
  | S fuel =>
      let! remaining_data := slice_new data in
      let! (prefix, remaining_data) := read_label remaining_data (size_bits key) in
      let lcp := longest_common_data_prefix key prefix in
      let lcp_len := size_bits lcp in
      if lcp_len =? size_bits key then Ok (LeafValue (range remaining_data), data, key, stack)
      else if lcp_len <? size_bits prefix then
        let! b := get_bit key lcp_len in
        let next_branch := Branches.from_bit b in
        let next_branch :=
          if signed && (match stack with [] => true | _ => false end) && (lcp_len =? 0)
          then Branches.reversed next_branch else next_branch in
        Ok (LeafDivergence next_branch, data, key, stack)
      else if reference_count data <? 2 then Err CellUnderflow
      else
        let key := or_same (skip_first key lcp_len 0) key in
        let! (bit, key) := load_bit key in
        let next_branch := Branches.from_bit bit in
        let! child := some_or_underflow (reference data (Branches.to_u8 next_branch)) in
        let! child := load_dyn_cell child Full in
        find_exact_loop fuel child key signed (mkSegment data next_branch (size_bits key) :: stack)
  end.

(** Whether a branch is the one of a direction ([==] on [Branch]). *)
Definition branch_eqb (a b : Branch) : bool :=
  match a, b with Left, Left | Right, Right => true | _, _ => false end.

(** The [while let] loop that pops the stack to the divergent branch: the fork, its
    remaining bits, the branch to take from it, the branch taken before, and the
    length of the prefix up to that branch. *)
Fixpoint rewind_stack (stack : list Segment) (key_bit_len : Z) (signed : bool) (rev_direction : Branch)
    : option (Cell * Z * Branch * Branch * Z) :=
  match stack with
  | [] => None
  | mkSegment data next_branch remaining_bits :: stack =>
      let prefix_len := key_bit_len - remaining_bits in
      let signed_root := signed && (prefix_len =? 1) in
      if signed_root && negb (branch_eqb next_branch rev_direction) then
        Some (data, remaining_bits, rev_direction, next_branch, prefix_len - 1)
      else if negb signed_root && branch_eqb next_branch rev_direction then
        Some (data, remaining_bits, Branches.reversed rev_direction, next_branch, prefix_len - 1)
      else rewind_stack stack key_bit_len signed rev_direction
  end.

(** The second loop: down to the leaf, always in one direction. *)
Fixpoint find_nearest_loop (fuel : nat) (data : Cell) (remaining_bits : Z) (rev_direction : Branch)
    (result_key : CellDataBuilder) (prev : option (Cell * Branch))
    : result (CellDataBuilder * CellSliceRange * option (Cell * Branch)) :=
  match fuel with
  | O => Err CellUnderflow
  | S fuel =>
      let! remaining_data := slice_new data in
      let! (prefix, remaining_data) := read_label remaining_data remaining_bits in
      let! result_key :=
        if negb (is_data_empty prefix) then store_key_part result_key prefix else Ok result_key in
      match checked_sub remaining_bits (size_bits prefix) with
      | None => Err CellUnderflow
      | Some remaining =>
          if remaining =? 0 then Ok (result_key, range remaining_data, prev)
          else if size_refs remaining_data <? 2 then Err CellUnderflow
          else
            let remaining_bits := remaining - 1 in
            let! result_key := store_bit result_key (Branches.into_bit rev_direction) in
            let! child := some_or_underflow (reference data (Branches.to_u8 rev_direction)) in
            let! child := load_dyn_cell child Full in
            find_nearest_loop fuel child remaining_bits rev_direction result_key
              (Some (data, rev_direction))
      end
  end.

(** The last segment of the first loop, as [prev] holds it. *)
Definition stack_prev (stack : list Segment) : option (Cell * Branch) :=
  match stack with
  | sg :: _ => Some (sg_data sg, sg_next_branch sg)
  | [] => None
  end.

(** What follows the ['fork] block: from the fork where the search turns, with the
    remaining bits there, the branch to take first, the length of the prefix of the
    key to keep, and the parent. *)
Definition find_from_fork (key_bit_len : Z) (original_key_range : CellSliceRange) (key_cell : Cell)
    (rev_direction : Branch) (root : Cell)
    (fork : option (Cell * Z * option Branch * Z * option (Cell * Branch)))
    : result (option DictOwnedEntry) :=
  match fork with
  | None => Ok None
  | Some (data, remaining_bits, first_branch, prefix_len, prev) =>
      let original_key_range := Range.get_prefix original_key_range prefix_len 0 in
      let! original_key := apply original_key_range key_cell in
      let! result_key := store_key_part data_new original_key in
      let! (result_key, data, prev) :=
        match first_branch with
        | Some branch =>
            let! result_key := store_bit result_key (Branches.into_bit branch) in
            let! child := some_or_underflow (reference data (Branches.to_u8 branch)) in
            let! child := load_dyn_cell child Full in
            Ok (result_key, child, Some (data, branch))
        | None => Ok (result_key, data, prev)
        end in
      let! (result_key, value_range, prev) :=
        find_nearest_loop (S (Z.to_nat key_bit_len)) data remaining_bits rev_direction
          result_key prev in
      let! c := found_cell prev root in
      Ok (Some (result_key, (value_range, c)))
  end.

Definition dict_find_owned (dict : option Cell) (key_bit_len : Z) (key : CellSlice)
    (towards : DictBound) (inclusive signed : bool) : result (option DictOwnedEntry) :=
  if negb (size_bits key =? key_bit_len) then Err CellUnderflow else
  match dict with
  | None => Ok None
  | Some root =>
    let! root := load_cell root Full in
    let original_key_range := range key in
    let! (value_range, data, key, stack) :=
      find_exact_loop (S (Z.to_nat key_bit_len)) root key signed [] in
    match inclusive, value_range with
    | true, LeafValue value_range =>
        let! c := found_cell (stack_prev stack) root in
        let! original_key := apply original_key_range (cell key) in
        let! result_key := store_key_part data_new original_key in
        Ok (Some (result_key, (value_range, c)))
    | _, _ =>
        let rev_direction := Branches.reversed (DictBounds.into_branch towards) in
        let diverged_back :=
          match value_range with
          | LeafDivergence next_branch => branch_eqb next_branch rev_direction
          | LeafValue _ => false
          end in
        let! fork :=
          if diverged_back then
            let remaining_bits := size_bits key in
            let prefix_len := key_bit_len - remaining_bits in
            let! _ := load_dyn_cell data UseGas in
            Ok (Some (data, remaining_bits, None, prefix_len, stack_prev stack))
          else
            Ok (match rewind_stack stack key_bit_len signed rev_direction with
                | Some (data, remaining_bits, first_branch, next_branch, prefix_len) =>
                    Some (data, remaining_bits, Some first_branch, prefix_len,
                          Some (data, next_branch))
                | None => None
                end) in
        find_from_fork key_bit_len original_key_range (cell key) rev_direction root fork
    end
  end.
End Find.
