(* ===== verification/DictIter.v ===== *)
(** * DictIter: iterators over dictionaries ([src/src/dict/raw.rs])

    [RawIter], [RawOwnedIter], [RawKeys], [RawValues], [RawOwnedValues] and
    [UnionRawIter].  The state of an iterator is its record; [next] returns the
    item, if any, and the new state.  The stack of segments is a list with its top
    first.  The outer loop of [next] consumes at least one key bit per iteration
    and gets one unit of fuel per key bit left. *)

From S2P Require Import Prelude Bits DataBuilder CellMeta Cell Slice SliceScan Builder DictLabel Dict DictFind.

(** [enum IterStatus] of [src/src/util.rs] *)
Inductive IterStatus : Type := Valid | UnexpectedCell | Broken.

Definition is_valid (s : IterStatus) : bool := match s with Valid => true | _ => false end.
Definition is_unexpected_cell (s : IterStatus) : bool :=
  match s with UnexpectedCell => true | _ => false end.

Definition offset_refs (s : CellSlice) : Z := refs_start (range s).
Definition offset_bits (s : CellSlice) : Z := bits_start (range s).

(** [DynCell::get_reference_as_slice] *)
Definition child_slice (c : Cell) (index : Z) : result CellSlice :=
  match reference c index with Some c => slice_new c | None => Err CellUnderflow end.

Definition is_top_root {A} (below : list A) : bool := match below with [] => true | _ => false end.

(** ** [RawIter] *)

Record IterSegment := mkIterSegment {
  is_data : CellSlice;
  is_remaining : Z;
  is_prefix : option CellSlice;
}.

Record RawIter := mkRawIter {
  ri_segments : list IterSegment;
  ri_status : IterStatus;
  ri_builder : CellDataBuilder;
  ri_reversed : bool;
  ri_signed : bool;
}.

(** [RawIter::new_ext] *)
Definition raw_iter_new_ext (root : option Cell) (bit_len : Z) (reversed signed : bool) : RawIter :=
  match root with
  | Some root =>
      match slice_new root with
      | Ok data => mkRawIter [mkIterSegment data bit_len None] Valid data_new reversed signed
      | Err _ => mkRawIter [] UnexpectedCell data_new reversed signed
      end
  | None => mkRawIter [] Valid data_new reversed signed
  end.

(** The inner loop of [next_impl]: pops the processed segments and descends into the
    next child.  The top segment of the result is the one to read. *)
Fixpoint next_segment (reverse signed : bool) (segments : list IterSegment)
    (builder : CellDataBuilder) (to_rewind : Z)
    : result (option (IterSegment * list IterSegment * CellDataBuilder)) :=
  match segments with
  | [] => Ok None
  | segment :: below =>
      match is_prefix segment with
      | None => Ok (Some (segment, below, builder))
      | Some prefix =>
          let refs_offset := offset_refs (is_data segment) in
          if refs_offset <? 2 then
            let next_bit := xorb (xorb (negb (refs_offset =? 0)) reverse)
              (signed && is_top_root below && is_data_empty prefix) in
            let! data := child_slice (cell (is_data segment)) (b2z next_bit) in
            let segment := mkIterSegment (or_same (skip_first (is_data segment) 0 1) (is_data segment))
              (is_remaining segment) (Some prefix) in
            let! builder := rewind_bits builder to_rewind in
            let! builder := store_bit builder next_bit in
            Ok (Some (mkIterSegment data (is_remaining segment) None, segment :: below, builder))
          else
            let to_rewind := u16 (to_rewind + size_bits prefix) in
            next_segment reverse signed below builder (u16 (to_rewind + b2z (negb (is_top_root below))))
      end
  end.

(** The outer loop of [next_impl]: the entry and the segments and key left. *)
Fixpoint next_impl (fuel : nat) (reverse signed : bool) (segments : list IterSegment)
    (builder : CellDataBuilder)
    : result (option (CellDataBuilder * CellSlice) * list IterSegment * CellDataBuilder) :=
  match fuel with
  | O => Err CellUnderflow
  | S fuel =>
      let! next := next_segment reverse signed segments builder 0 in
      match next with
      | None => Ok (None, [], builder)
      | Some (segment, below, builder) =>
          let! (prefix, data) := read_label (is_data segment) (is_remaining segment) in
          match checked_sub (is_remaining segment) (size_bits prefix) with
          | None => Err CellUnderflow
          | Some remaining =>
              if remaining =? 0 then
                let! key := store_key_part builder prefix in
                let! builder := rewind_bits builder (b2z (negb (is_top_root below))) in
                Ok (Some (key, data), below, builder)
              else if size_refs data <? 2 then Err CellUnderflow
              else
                let! builder := store_key_part builder prefix in
                next_impl fuel reverse signed
                  (mkIterSegment data (remaining - 1) (Some prefix) :: below) builder
          end
      end
  end.

(** Key bits left on the stack: enough fuel for [next_impl]. *)
Definition iter_fuel (it : RawIter) : nat :=
  S (fold_right (fun s n => (Z.to_nat (is_remaining s) + 1 + n)%nat) O (ri_segments it)).

Definition raw_iter_finish (it : RawIter) : RawIter :=
  mkRawIter (ri_segments it) Broken (ri_builder it) (ri_reversed it) (ri_signed it).

(** [Iterator::next] of [RawIter] *)
Definition raw_iter_next (it : RawIter) : option (result (CellDataBuilder * CellSlice)) * RawIter :=
  if negb (is_valid (ri_status it)) then
    if is_unexpected_cell (ri_status it)
    then (Some (Err UnexpectedExoticCell), raw_iter_finish it) else (None, it)
  else
    match next_impl (iter_fuel it) (ri_reversed it) (ri_signed it) (ri_segments it) (ri_builder it) with
    | Ok (res, segments, builder) =>
        (Ok <$> res, mkRawIter segments (ri_status it) builder (ri_reversed it) (ri_signed it))
    | Err e => (Some (Err e), raw_iter_finish it)
    end.

(** [RawIter::next_owned], and [next] of [RawOwnedIter] *)
Definition raw_iter_next_owned (root : option Cell) (it : RawIter)
    : option (result (CellDataBuilder * CellSliceParts)) * RawIter :=
  match raw_iter_next it with
  | (None, it) => (None, it)
  | (Some (Err e), it) => (Some (Err e), it)
  | (Some (Ok (key, slice)), it) =>
      match ri_segments it with
      | segment :: below =>
          let refs_offset := offset_refs (is_data segment) in
          let next_bit := xorb (xorb (negb (refs_offset =? 1)) (ri_reversed it))
            (ri_signed it && is_top_root below &&
             match is_prefix segment with Some prefix => is_data_empty prefix | None => false end) in
          match reference_cloned (cell (is_data segment)) (b2z next_bit) with
          | Some c => (Some (Ok (key, (range slice, c))), it)
          | None => (Some (Err CellUnderflow), raw_iter_finish it)
          end
      | [] =>
          match root with
          | Some root => (Some (Ok (key, (range slice, root))), it)
          | None => (None, it)
          end
      end
  end.

(** [next] of [RawKeys] *)
Definition raw_keys_next (it : RawIter) : option (result CellDataBuilder) * RawIter :=
  match raw_iter_next it with
  | (None, it) => (None, it)
  | (Some (Ok (key, _)), it) => (Some (Ok key), it)
  | (Some (Err e), it) => (Some (Err e), it)
  end.

(** ** [RawValues] and [RawOwnedValues] *)

Record ValuesSegment := mkValuesSegment { vs_data : CellSlice; vs_remaining : Z }.

Record RawValues := mkRawValues {
  rv_segments : list ValuesSegment;
  rv_status : IterStatus;
  rv_reversed : bool;
  rv_signed : bool;
}.

(** [RawValues::new_ext] *)
Definition raw_values_new_ext (root : option Cell) (bit_len : Z) (reversed signed : bool) : RawValues :=
  match root with
  | Some root =>
      match slice_new root with
      | Ok data => mkRawValues [mkValuesSegment data bit_len] Valid reversed signed
      | Err _ => mkRawValues [] UnexpectedCell reversed signed
      end
  | None => mkRawValues [] Valid reversed signed
  end.

Fixpoint next_value_segment (reverse signed : bool) (segments : list ValuesSegment)
    : result (option (ValuesSegment * list ValuesSegment)) :=
  match segments with
  | [] => Ok None
  | segment :: below =>
      if offset_bits (vs_data segment) =? 0 then Ok (Some (segment, below))
      else
        let refs_offset := offset_refs (vs_data segment) in
        if refs_offset <? 2 then
          let next_bit := xorb (xorb (negb (refs_offset =? 0)) reverse)
            (signed && is_top_root below && is_data_empty (vs_data segment)) in
          let! data := child_slice (cell (vs_data segment)) (b2z next_bit) in
          let segment := mkValuesSegment
            (or_same (skip_first (vs_data segment) 0 1) (vs_data segment)) (vs_remaining segment) in
          Ok (Some (mkValuesSegment data (vs_remaining segment), segment :: below))
        else next_value_segment reverse signed below
  end.

Fixpoint next_value_impl (fuel : nat) (reverse signed : bool) (segments : list ValuesSegment)
    : result (option CellSlice * list ValuesSegment) :=
  match fuel with
  | O => Err CellUnderflow
  | S fuel =>
      let! next := next_value_segment reverse signed segments in
      match next with
      | None => Ok (None, [])
      | Some (segment, below) =>
          let! (prefix, data) := read_label (vs_data segment) (vs_remaining segment) in
          match checked_sub (vs_remaining segment) (size_bits prefix) with
          | None => Err CellUnderflow
          | Some remaining =>
              if remaining =? 0 then Ok (Some data, below)
              else if size_refs data <? 2 then Err CellUnderflow
              else next_value_impl fuel reverse signed (mkValuesSegment data (remaining - 1) :: below)
          end
      end
  end.

Definition values_fuel (it : RawValues) : nat :=
  S (fold_right (fun s n => (Z.to_nat (vs_remaining s) + 1 + n)%nat) O (rv_segments it)).

Definition raw_values_finish (it : RawValues) : RawValues :=
  mkRawValues (rv_segments it) Broken (rv_reversed it) (rv_signed it).

(** [next] of [RawValues] *)
Definition raw_values_next (it : RawValues) : option (result CellSlice) * RawValues :=
  if negb (is_valid (rv_status it)) then
    if is_unexpected_cell (rv_status it)
    then (Some (Err UnexpectedExoticCell), raw_values_finish it) else (None, it)
  else
    match next_value_impl (values_fuel it) (rv_reversed it) (rv_signed it) (rv_segments it) with
    | Ok (res, segments) => (Ok <$> res, mkRawValues segments (rv_status it) (rv_reversed it) (rv_signed it))
    | Err e => (Some (Err e), raw_values_finish it)
    end.

(** [next] of [RawOwnedValues] *)
Definition raw_owned_values_next (root : option Cell) (it : RawValues)
    : option (result CellSliceParts) * RawValues :=
  match raw_values_next it with
  | (None, it) => (None, it)
  | (Some (Err e), it) => (Some (Err e), it)
  | (Some (Ok slice), it) =>
      match rv_segments it with
      | segment :: _ =>
          match reference_cloned (cell (vs_data segment)) (u8 (offset_refs (vs_data segment) - 1)) with
          | Some c => (Some (Ok (range slice, c)), it)
          | None => (Some (Err CellUnderflow), raw_values_finish it)
          end
      | [] =>
          match root with
          | Some root => (Some (Ok (range slice, root)), it)
          | None => (None, it)
          end
      end
  end.

(** ** [UnionRawIter] *)

Record UnionRawIter := mkUnionIter {
  un_left : RawIter;
  un_left_peeked : option (CellDataBuilder * CellSlice);
  un_left_finished : bool;
  un_right : RawIter;
  un_right_peeked : option (CellDataBuilder * CellSlice);
  un_right_finished : bool;
}.

(** [UnionRawIter::new_ext] *)
Definition union_iter_new_ext (left_root right_root : option Cell) (bit_len : Z) (reversed signed : bool)
    : UnionRawIter :=
  mkUnionIter (raw_iter_new_ext left_root bit_len reversed signed) None false
    (raw_iter_new_ext right_root bit_len reversed signed) None false.

(** [UnionRawIter::peek]: the error, if any, and the iterator, flag and item *)
Definition union_peek (it : RawIter) (finished : bool) (peeked : option (CellDataBuilder * CellSlice))
    : option Error * (RawIter * bool * option (CellDataBuilder * CellSlice)) :=
  if negb finished && (match peeked with None => true | Some _ => false end) then
    match raw_iter_next it with
    | (Some (Ok next), it) => (None, (it, finished, Some next))
    | (Some (Err e), it) => (Some e, (it, true, peeked))
    | (None, it) => (None, (it, true, peeked))
    end
  else (None, (it, finished, peeked)).

(** [UnionRawIter::finish] *)
Definition union_finish (u : UnionRawIter) : UnionRawIter :=
  mkUnionIter (raw_iter_finish (un_left u)) (un_left_peeked u) (un_left_finished u)
    (raw_iter_finish (un_right u)) (un_right_peeked u) (un_right_finished u).

(** [get_bit(0).ok().unwrap_or_default()] *)
Definition first_bit (s : CellSlice) : bool := match get_bit s 0 with Ok b => b | Err _ => false end.

(** The order of two peeked keys in the direction of the iterator. *)
Definition union_cmp (addr_eq : Cell -> Cell -> bool) (reversed signed : bool) (left_key right_key : CellDataBuilder)
    : result comparison :=
  let left_key := as_data_slice left_key in
  let right_key := as_data_slice right_key in
  let reversed :=
    if signed then xorb reversed (negb (eqb (first_bit left_key) (first_bit right_key))) else reversed in
  let! cmp := lex_cmp addr_eq left_key right_key in
  Ok (if reversed : bool then CompOpp cmp else cmp).

Definition union_item : Type := CellDataBuilder * option CellSlice * option CellSlice.

(** [next] of [UnionRawIter] *)
Definition union_iter_next (addr_eq : Cell -> Cell -> bool) (u : UnionRawIter)
    : option (result union_item) * UnionRawIter :=
  if negb (is_valid (ri_status (un_left u))) || negb (is_valid (ri_status (un_right u))) then
    if negb (is_unexpected_cell (ri_status (un_left u))) && negb (is_unexpected_cell (ri_status (un_right u)))
    then (None, u)
    else (Some (Err UnexpectedExoticCell), union_finish u)
  else
    let reversed := ri_reversed (un_left u) in
    let signed := ri_signed (un_left u) in
    let '(le, (l, lf, lp)) := union_peek (un_left u) (un_left_finished u) (un_left_peeked u) in
    let u := mkUnionIter l lp lf (un_right u) (un_right_peeked u) (un_right_finished u) in
    match le with
    | Some e => (Some (Err e), union_finish u)
    | None =>
        let '(re, (r, rf, rp)) := union_peek (un_right u) (un_right_finished u) (un_right_peeked u) in
        let u := mkUnionIter l lp lf r rp rf in
        let drop_left := mkUnionIter l None lf r rp rf in
        let drop_right := mkUnionIter l lp lf r None rf in
        match re with
        | Some e => (Some (Err e), union_finish u)
        | None =>
            match lp, rp with
            | None, None => (None, u)
            | Some (k, v), None => (Some (Ok (k, Some v, None)), drop_left)
            | None, Some (k, v) => (Some (Ok (k, None, Some v)), drop_right)
            | Some (lk, lv), Some (rk, rv) =>
                match union_cmp addr_eq reversed signed lk rk with
                | Err e => (Some (Err e), union_finish u)
                | Ok Lt => (Some (Ok (lk, Some lv, None)), drop_left)
                | Ok Gt => (Some (Ok (rk, None, Some rv)), drop_right)
                | Ok Eq => (Some (Ok (lk, Some lv, Some rv)), mkUnionIter l None lf r None rf)
                end
            end
        end
    end.

(** ** Running an iterator to its end *)

(** The first [fuel] items of an iterator, and its state after them. *)
Fixpoint collect_iter {S A} (next : S -> option (result A) * S) (fuel : nat) (it : S) : list (result A) * S :=
  match fuel with
  | O => ([], it)
  | Datatypes.S fuel =>
      match next it with
      | (Some a, it) => let '(l, it) := collect_iter next fuel it in (a :: l, it)
      | (None, it) => ([], it)
      end
  end.
