(* ===== verification/DictOrder.v ===== *)
(** * DictOrder: the entries of a dictionary in key order

    The reference the ordered searches and the iterators are proved against: the
    in-order list of the entries of a trie, which is the map sorted by the numeric
    value of the key, unsigned or two's complement, in either direction. *)

From stdpp Require Import gmap sorting.
From S2P Require Import Prelude Bits DataBuilder DataBuilderSpec CellMeta Cell Slice SliceSpec Builder BuilderSpec Context DictLabel DictLabelSpec Dict DictSpec DictFind.

(** The number a key stands for. *)
Definition key_value (signed : bool) (k : list bool) : Z :=
  match k with
  | true :: _ => if signed then bits_uint k - 2 ^ zlen k else bits_uint k
  | _ => bits_uint k
  end.

(** [a] comes before [b], ascending or descending. *)
Definition key_before (rev signed : bool) (a b : list bool) : Prop :=
  if rev then key_value signed b < key_value signed a else key_value signed a < key_value signed b.

Definition entry : Type := list bool * payload.

Definition is_nil {A} (l : list A) : bool := match l with [] => true | _ => false end.

(** The entries with a prefix in front of their keys. *)
Definition prepend_keys (P : list bool) (l : list entry) : list entry := (fun e => (P ++ e.1, e.2)) <$> l.

(** The entries of a trie, in order; [flip] swaps the sides of a fork that decides the
    first bit. *)
Fixpoint entries (rev flip : bool) (t : trie) : list entry :=
  match t with
  | TLeaf K v => [(K, v)]
  | TFork K l r =>
      let le := prepend_keys (K ++ [false]) (entries rev false l) in
      let re := prepend_keys (K ++ [true]) (entries rev false r) in
      if xorb rev (flip && is_nil K) then re ++ le else le ++ re
  end.

(** ** The numeric order of keys *)

Lemma bits_uint_app a b : bits_uint (a ++ b) = bits_uint a * 2 ^ zlen b + bits_uint b.
Proof.
  induction b as [|x b IH] using rev_ind.
  - rewrite app_nil_r. change (zlen []) with 0. change (bits_uint []) with 0. lia.
  - rewrite app_assoc, !bits_uint_snoc, IH, zlen_app. pose proof (zlen_nonneg b).
    change (zlen [x]) with 1. rewrite Z.pow_add_r by lia. lia.
Qed.

Lemma bits_uint_cons b l : bits_uint (b :: l) = b2z b * 2 ^ zlen l + bits_uint l.
Proof. change (b :: l) with ([b] ++ l). by rewrite bits_uint_app. Qed.

Lemma key_value_false k : key_value false k = bits_uint k.
Proof. by destruct k as [|[]]. Qed.

(** A common prefix adds the same to both keys. *)
Lemma key_value_app signed P x y :
  zlen x = zlen y -> P <> [] \/ signed = false ->
  key_value signed (P ++ x) - key_value signed (P ++ y) = bits_uint x - bits_uint y.
Proof.
  intros Hz H. destruct P as [|b P].
  - destruct H as [?| ->]; [done|]. rewrite !key_value_false. done.
  - assert (zlen (P ++ x) = zlen (P ++ y)) as E by (rewrite !zlen_app; lia).
    simpl. rewrite !zlen_cons, E, !bits_uint_cons, E, !bits_uint_app, Hz.
    destruct b, signed; lia.
Qed.

(** Keys that part at a bit are ordered by it, unless it is a sign. *)
Lemma key_value_part signed P x y :
  zlen x = zlen y ->
  if signed && is_nil P
  then key_value signed (P ++ true :: x) < key_value signed (P ++ false :: y)
  else key_value signed (P ++ false :: x) < key_value signed (P ++ true :: y).
Proof.
  intros Hz. pose proof (bits_uint_range x). pose proof (bits_uint_range y). rewrite Hz in *.
  destruct (signed && is_nil P) eqn:E.
  - apply andb_true_iff in E as [-> E]. destruct P; [|done]. simpl.
    rewrite !bits_uint_cons, zlen_cons, Hz. pose proof (zlen_nonneg y). rewrite Z.pow_add_r by lia. simpl. lia.
  - assert (P <> [] \/ signed = false) as HP by (destruct P, signed; naive_solver).
    pose proof (key_value_app signed P (false :: x) (true :: y)) as H1.
    rewrite !zlen_cons, !bits_uint_cons, Hz in H1. simpl in H1. specialize (H1 eq_refl HP). lia.
Qed.

#[export] Instance key_before_trans rev signed : Transitive (key_before rev signed).
Proof. unfold key_before. destruct rev; intros ???; lia. Qed.

(** ** Entries and lookups *)

Lemma prepend_keys_elem P l k v :
  (k, v) ∈ prepend_keys P l <-> exists x, k = P ++ x /\ (x, v) ∈ l.
Proof.
  unfold prepend_keys. rewrite list_elem_of_fmap. split.
  - intros ([x w] & [= -> ->] & H). by exists x.
  - intros (x & -> & H). by exists (x, v).
Qed.

Lemma entries_elem rev flip t k v : (k, v) ∈ entries rev flip t <-> tget t k = Some v.
Proof.
  revert flip k. induction t as [K w|K l IHl r IHr]; intros flip k; simpl.
  - rewrite list_elem_of_singleton. case_bool_decide; naive_solver.
  - assert ((k, v) ∈ (if xorb rev (flip && is_nil K)
        then prepend_keys (K ++ [true]) (entries rev false r) ++ prepend_keys (K ++ [false]) (entries rev false l)
        else prepend_keys (K ++ [false]) (entries rev false l) ++ prepend_keys (K ++ [true]) (entries rev false r)) <->
      exists (b : bool) x, k = K ++ b :: x /\ tget (if b then r else l) x = Some v) as ->.
    { assert (forall A B : list entry, (k, v) ∈ (if xorb rev (flip && is_nil K) then B ++ A else A ++ B) <->
        (k, v) ∈ A \/ (k, v) ∈ B) as Happ by (intros; destruct (xorb _ _); rewrite elem_of_app; naive_solver).
      rewrite Happ, !prepend_keys_elem. setoid_rewrite IHl. setoid_rewrite IHr. split.
      - intros [(x & -> & H)|(x & -> & H)]; rewrite <- app_assoc; [by exists false, x | by exists true, x].
      - intros ([] & x & -> & H); [right | left]; exists x; by rewrite <- app_assoc. }
    destruct (strip K k) as [x|] eqn:E.
    + apply strip_Some in E as ->. split.
      * intros (b & y & E & H). apply app_inv_head in E as ->. done.
      * destruct x as [|b x]; [done|]. intros H. by exists b, x.
    + split; [|done]. intros (b & y & -> & H). by rewrite strip_app in E.
Qed.

Lemma entries_nonempty rev flip t : entries rev flip t <> [].
Proof.
  revert flip. induction t as [K w|K l IHl r IHr]; intros flip; simpl; [done|].
  specialize (IHl false). destruct (entries rev false l) as [|e le]; [done|].
  destruct (xorb _ _); simpl; [|done]. by intros [_ ?]%app_nil.
Qed.

(** The keys of a trie have its length. *)
Lemma tget_ok_len m t k v : trie_ok m t -> tget t k = Some v -> zlen k = m.
Proof.
  intros H. revert k. induction H as [m K w HK|m K l r _ IHl _ IHr]; intros k E.
  - by apply tget_leaf_Some in E as [-> _].
  - pose proof (tget_fork_Some _ _ _ _ _ E) as (b & z & ->). rewrite tget_fork_child in E.
    rewrite zlen_app, zlen_cons. destruct b; [apply IHr in E | apply IHl in E]; lia.
Qed.

(** ** Sortedness *)

Lemma prepend_sorted rev signed P l m :
  P <> [] \/ signed = false -> Forall (fun e => zlen e.1 = m) l ->
  StronglySorted (fun a b => key_before rev false a.1 b.1) l ->
  StronglySorted (fun a b : entry => key_before rev signed a.1 b.1) (prepend_keys P l).
Proof.
  intros HP Hl. induction 1 as [|e l H IH Hf]; simpl; [constructor|].
  apply list.Forall_cons in Hl as [He Hl]. constructor; [by apply IH|].
  unfold prepend_keys. rewrite Forall_fmap. rewrite list.Forall_forall in Hf, Hl |- *. intros x Hx.
  specialize (Hf x Hx). specialize (Hl x Hx). simpl. unfold key_before in *. rewrite !key_value_false in *.
  pose proof (key_value_app signed P e.1 x.1 ltac:(lia) HP). destruct rev; lia.
Qed.

Lemma entries_lengths rev flip m t : trie_ok m t -> Forall (fun e => zlen e.1 = m) (entries rev flip t).
Proof.
  intros H. apply list.Forall_forall. intros [k v] He%entries_elem. by eapply tget_ok_len.
Qed.

Lemma entries_sorted rev signed m t :
  trie_ok m t -> StronglySorted (fun a b => key_before rev signed a.1 b.1) (entries rev signed t).
Proof.
  intros H. revert signed. induction H as [m K w HK|m K l r Hl IHl Hr IHr]; intros signed; simpl.
  { repeat constructor. }
  assert (forall b, K ++ [b] <> []) as HK by (intros b E; by apply app_nil in E as [_ ?]).
  assert (StronglySorted (fun a b => key_before rev signed a.1 b.1)
    (prepend_keys (K ++ [false]) (entries rev false l))) as SL.
  { eapply prepend_sorted; [by left | by apply entries_lengths | apply IHl]. }
  assert (StronglySorted (fun a b => key_before rev signed a.1 b.1)
    (prepend_keys (K ++ [true]) (entries rev false r))) as SR.
  { eapply prepend_sorted; [by left | by apply entries_lengths | apply IHr]. }
  assert (forall x y v w, (x, v) ∈ entries rev false l -> (y, w) ∈ entries rev false r -> zlen x = zlen y) as Hxy.
  { intros x y v w Hx%entries_elem Hy%entries_elem.
    rewrite (tget_ok_len _ _ _ _ Hl Hx). by rewrite (tget_ok_len _ _ _ _ Hr Hy). }
  destruct (xorb rev (signed && is_nil K)) eqn:E; apply StronglySorted_app_2; try done;
    intros [k v] [k' v'] (x & -> & Hx)%prepend_keys_elem (y & -> & Hy)%prepend_keys_elem; simpl;
    rewrite <- !app_assoc; simpl; unfold key_before.
  - pose proof (key_value_part signed K y x (Hxy _ _ _ _ Hy Hx)).
    pose proof (key_value_part signed K x y (eq_sym (Hxy _ _ _ _ Hy Hx))).
    destruct rev, (signed && is_nil K); simpl in E; try done; lia.
  - pose proof (key_value_part signed K x y (Hxy _ _ _ _ Hx Hy)).
    pose proof (key_value_part signed K y x (eq_sym (Hxy _ _ _ _ Hx Hy))).
    destruct rev, (signed && is_nil K); simpl in E; try done; lia.
Qed.

Lemma entries_nodup rev signed m t : trie_ok m t -> NoDup (entries rev signed t).*1.
Proof.
  intros H. pose proof (entries_sorted rev signed m t H) as S.
  induction S as [|e l _ IH Hf]; simpl; constructor; [|done].
  rewrite list_elem_of_fmap. intros (x & E & Hx). rewrite list.Forall_forall in Hf. specialize (Hf x Hx).
  unfold key_before in Hf. rewrite E in Hf. destruct rev; lia.
Qed.

(** The entries are the map of the trie, sorted. *)
Definition sorted_entries (rev signed : bool) (M : gmap (list bool) payload) (l : list entry) : Prop :=
  StronglySorted (fun a b => key_before rev signed a.1 b.1) l /\ l ≡ₚ map_to_list M.

Lemma entries_of_map (rev signed : bool) (m : Z) (t : trie) (M : gmap (list bool) payload) :
  trie_ok m t -> (forall k, M !! k = tget t k) -> sorted_entries rev signed M (entries rev signed t).
Proof.
  intros Ht HM. split; [by eapply entries_sorted|].
  assert (list_to_map (entries rev signed t) = M) as <-.
  { apply map_eq. intros k. rewrite HM. apply option_eq. intros v.
    rewrite <- elem_of_list_to_map by (by eapply entries_nodup). by rewrite entries_elem. }
  symmetry. apply map_to_list_to_map. by eapply entries_nodup.
Qed.

(** * Walking down a represented dictionary

    What a search or an iterator sees at a node, and how it builds up the key; the
    specifications of the bound search and of the removal of a bound follow.  The
    entries above are the reference. *)

(** ** Building up a key *)

Lemma key_part_of_bits P s :
  slice_wf s -> zlen P + size_bits s <= 1023 ->
  store_key_part (of_bits P) s = Ok (of_bits (P ++ slice_bits s)).
Proof.
  intros Hs Hz. pose proof (zlen_slice_bits s Hs). pose proof (zlen_nonneg (slice_bits s)).
  unfold store_key_part.
  rewrite store_slice_data_spec by first [done | apply of_bits_wf; unfold MAX_BIT_LEN; lia | apply uninit_ok].
  unfold append, MAX_BIT_LEN. rewrite contents_of_bits by (unfold MAX_BIT_LEN; lia).
  change (DataBuilder.bit_len (of_bits P)) with (zlen P). by rewrite (proj2 (Z.leb_le _ _)) by lia.
Qed.

(** The parts are skipped when they are empty. *)
Lemma key_part_opt P s :
  slice_wf s -> zlen P + size_bits s <= 1023 ->
  (if negb (is_data_empty s) then store_key_part (of_bits P) s else Ok (of_bits P)) =
    Ok (of_bits (P ++ slice_bits s)).
Proof.
  intros Hs Hz. destruct (is_data_empty s) eqn:E; simpl; [|by apply key_part_of_bits].
  rewrite is_data_empty_spec in E by done. apply Z.eqb_eq in E.
  rewrite (nil_length_inv (slice_bits s)) by (unfold zlen in E; lia). by rewrite app_nil_r.
Qed.

Lemma key_bit_of_bits P b :
  zlen P + 1 <= 1023 -> store_bit (of_bits P) b = Ok (of_bits (P ++ [b])).
Proof.
  intros Hz. rewrite store_bit_spec by (apply of_bits_wf; unfold MAX_BIT_LEN; lia).
  unfold append, MAX_BIT_LEN. rewrite contents_of_bits by (unfold MAX_BIT_LEN; lia).
  change (DataBuilder.bit_len (of_bits P)) with (zlen P). change (zlen [b]) with 1. by rewrite (proj2 (Z.leb_le _ _)) by lia.
Qed.

Lemma checked_sub_some a b : 0 <= b <= a -> checked_sub a b = Some (a - b).
Proof. intros. unfold checked_sub. by rewrite (proj2 (Z.leb_le _ _)) by lia. Qed.

(** ** Reading a node *)

Section Walk.
Context {ftail : ForkTail} (ctx : CellContext) {laws : ContextLaws ctx} (N Dv : Z) (HN : 0 <= N <= 1023) (canon : bool).

Abbreviation rep := (rep ctx N Dv canon).

Lemma read_leaf m c K v :
  rep m c (TLeaf K v) -> exists lab s, read_label (new_allow_exotic c) m = Ok (lab, s) /\
    slice_wf lab /\ slice_bits lab = K /\ size_bits lab = m /\ cell s = c /\ value_slice v s.
Proof.
  intros Hr. destruct (rep_read ctx N Dv HN canon _ _ _ Hr)
    as (lab & s & x & E & Wl & Bl & Cs & Ws & Bs & Rs & Rcs & HK & _ & ->).
  exists lab, s. pose proof (zlen_slice_bits lab Wl) as Hz. rewrite Bl in Hz. simpl in Hz. split_and!; try done; [lia|split_and!; [done..|by eapply rep_plain]].
Qed.

Lemma read_fork m c K l r :
  rep m c (TFork K l r) -> exists lab s, read_label (new_allow_exotic c) m = Ok (lab, s) /\
    slice_wf lab /\ slice_bits lab = K /\ size_bits lab = zlen K /\ 0 <= zlen K < m /\ cell s = c /\
    slice_wf s /\ refs_start (range s) = 0 /\ 2 <= refs_end (range s) /\ 0 < bits_start (range s).
Proof.
  intros Hr. pose proof (fork_count _ _ _ _ _ _ _ _ _ Hr) as Hrc%Z.ltb_ge.
  pose proof (rep_label_len _ _ _ _ _ _ _ Hr) as HK.
  apply rep_node in Hr as (Hm & _ & _ & lb & x & Hl & Ho & [HKm _] & _).
  destruct (ordinary_slice _ _ _ Ho) as (_ & W & B & R & Rc).
  destruct (read_label_spec m K ltac:(lia) HK _ lb _ W Hl B)
    as (ls & s & E & Wl & Bl & [Ws Bs _ _ Cs Hbe Hrs Hre]).
  exists ls, s. pose proof (zlen_slice_bits ls Wl) as Hzl. rewrite Bl in Hzl.
  pose proof (zlen_slice_bits s Ws) as Hzs. rewrite Bs, size_bits_eq in Hzs by done.
  assert (0 < zlen lb) as Hlb.
  { destruct Hl; unfold hml_short, hml_long, hml_same, zlen; simpl; lia. }
  pose proof (zlen_slice_bits _ W) as Hzw. rewrite B, size_bits_eq, zlen_app in Hzw by done.
  change (range (new_allow_exotic c)) with (Range.full c) in *.
  unfold Range.full in *. simpl in *. pose proof (zlen_nonneg K). split_and!; try done; lia.
Qed.

(** The slice behind the label of a fork has both references. *)
Lemma fork_refs s : slice_wf s -> refs_start (range s) = 0 -> 2 <= refs_end (range s) -> (size_refs s <? 2) = false.
Proof. intros [] H0 H2. apply Z.ltb_ge. unfold size_refs, Range.size_refs. dlia. Qed.

(** ** The bound search *)

(** The first entry of a fork is that of the side it visits first. *)
Lemma entries_head rev flip K l r :
  let b := xorb rev (flip && is_nil K) in
  head (entries rev flip (TFork K l r)) =
    (fun e => (K ++ b :: e.1, e.2)) <$> head (entries rev false (if b then r else l)).
Proof.
  intros b. simpl. fold b.
  pose proof (entries_nonempty rev false l). pose proof (entries_nonempty rev false r).
  destruct b; destruct (entries rev false l) as [|[]], (entries rev false r) as [|[]];
    try done; simpl; by rewrite <- app_assoc.
Qed.

Definition bound_rev (bound : DictBound) : bool := match bound with Min => false | Max => true end.

(** The cell a search returns the value's range with. *)
Definition at_parent (prev : option (Cell * Branch)) (c : Cell) (s : CellSlice)
    (prev' : option (Cell * Branch)) : Prop :=
  load_cell (cell s) Resolve = Ok (cell s) /\
  (prev' = prev /\ cell s = c \/
   exists p b, prev' = Some (p, b) /\ reference_cloned p (Branches.to_u8 b) = Some (cell s)).

Lemma found_cell_at prev c s prev' root :
  at_parent prev c s prev' -> found_cell ctx prev root = Ok c -> found_cell ctx prev' root = Ok (cell s).
Proof.
  intros [Hl [[-> ->]|(p & b & -> & Hp)]] H; [done|]. unfold found_cell. by rewrite Hp.
Qed.

Lemma at_parent_up c s prev' p b :
  load_cell (cell s) Resolve = Ok (cell s) ->
  reference_cloned p (Branches.to_u8 b) = Some c ->
  at_parent (Some (p, b)) c s prev' -> forall prev0 c0, at_parent prev0 c0 s prev'.
Proof.
  intros Hl Hc [_ [[E E2]|H]] prev0 c0; (split; [done|]); right; [|done].
  exists p, b. by rewrite E, E2.
Qed.

Lemma zlen_is_nil {A} (l : list A) : (zlen l =? 0) = is_nil l.
Proof. destruct l; [done|]. rewrite zlen_cons. pose proof (zlen_nonneg l). apply Z.eqb_neq. lia. Qed.

(** [update_direction] takes the side the entries list first. *)
Lemma direction_branch bound lab signed dir K :
  slice_wf lab -> slice_bits lab = K -> (dir = None \/ dir = Some (DictBounds.into_branch bound)) ->
  DictBounds.update_direction bound lab signed dir =
    (Branches.from_bit (xorb (bound_rev bound)
       (match dir with None => signed | Some _ => false end && is_nil K)),
     Some (DictBounds.into_branch bound)).
Proof.
  intros Wl Bl Hdir. unfold DictBounds.update_direction. rewrite is_data_empty_spec, Bl, zlen_is_nil by done.
  destruct Hdir as [-> | ->]; destruct bound; simpl; try done; by destruct (signed && is_nil K).
Qed.

Lemma find_bound_loop_spec m c t fuel bound signed dir P prev :
  rep m c t -> m < Z.of_nat fuel -> zlen P + m <= 1023 ->
  (dir = None \/ dir = Some (DictBounds.into_branch bound)) ->
  let flip := match dir with None => signed | Some _ => false end in
  exists k v s prev',
    find_bound_loop ctx fuel (new_allow_exotic c) m bound signed dir (of_bits P) prev =
      Ok (of_bits (P ++ k), s, prev') /\
    head (entries (bound_rev bound) flip t) = Some (k, v) /\ value_slice v s /\ at_parent prev c s prev'.
Proof.
  revert m c fuel dir P prev.
  induction t as [K v|K l IHl r IHr]; intros m c fuel dir P prev Hr Hf HP Hdir flip;
    pose proof (rep_range _ _ _ _ _ _ _ Hr) as Hm; (destruct fuel as [|fuel]; [lia|]); cbn [find_bound_loop].
  - destruct (read_leaf _ _ _ _ Hr) as (lab & s & -> & Wl & <- & Sl & Cs & Hv). cbn [rbind].
    rewrite key_part_opt by (done || lia). cbn [rbind]. rewrite Sl, checked_sub_some, Z.sub_diag by lia.
    cbn [Z.eqb]. exists (slice_bits lab), v, s, prev. split_and!; [done..|]. split; [|by left].
    rewrite Cs. by apply (rep_load _ _ _ _ _ _ _ Resolve Hr).
  - destruct (read_fork _ _ _ _ _ Hr) as (lab & s & -> & Wl & Bl & Sl & HK & Cs & Ws & R0 & R2 & _). cbn [rbind].
    rewrite key_part_opt by (done || lia). cbn [rbind]. rewrite Sl, checked_sub_some by lia.
    rewrite (proj2 (Z.eqb_neq _ _)), (fork_refs s Ws R0 R2) by lia. cbn match.
    set (b := xorb (bound_rev bound) (flip && is_nil K)).
    rewrite (direction_branch bound lab signed dir K Wl Bl Hdir). fold flip b. rewrite Bl, Cs. assert (Branches.into_bit (Branches.from_bit b) = b) as -> by (by destruct b).
    pose proof (zlen_app P K) as Hz.
    rewrite key_bit_of_bits by lia. cbn [rbind].
    destruct (fork_child _ _ _ _ _ _ _ _ _ b Hr) as (ch & _ & -> & _ & Hcl & Hch). cbn [some_or_underflow rbind].
    destruct (rep_load _ _ _ _ _ _ _ Full Hch) as (_ & -> & Hs). cbn [rbind]. rewrite Hs. cbn [rbind].
    assert (exists k v s2 prev', find_bound_loop ctx fuel (new_allow_exotic ch) (m - zlen K - 1) bound signed
        (Some (DictBounds.into_branch bound)) (of_bits ((P ++ K) ++ [b])) (Some (c, Branches.from_bit b)) =
        Ok (of_bits (((P ++ K) ++ [b]) ++ k), s2, prev') /\
      head (entries (bound_rev bound) false (if b then r else l)) = Some (k, v) /\ value_slice v s2 /\
      at_parent (Some (c, Branches.from_bit b)) ch s2 prev') as (k & v & s2 & prev' & -> & Hh & Hv & Hp).
    { pose proof (zlen_snoc (P ++ K) b). destruct b; [apply IHr | apply IHl]; try done; try lia; by right. }
    exists (K ++ b :: k), v, s2, prev'. rewrite entries_head. fold flip b. rewrite Hh.
    split_and!; [by rewrite <- !app_assoc | done..|]. eapply at_parent_up; [apply Hp | exact Hcl | exact Hp].
Qed.

Lemma head_elem {A} (l : list A) x : head l = Some x -> x ∈ l.
Proof. destruct l; [done|]. intros [= ->]. by left. Qed.

Lemma head_tget rev flip t k v : head (entries rev flip t) = Some (k, v) -> tget t k = Some v.
Proof. intros H%head_elem. by eapply entries_elem. Qed.

(** The removal loop finds the same entry, and leaves the stack as the removal of its
    key does. *)
Context {mach : Machine} `{!PlainTail ftail}.
Context (Hcap : 2 + len_bits N + N <= MAX_BIT_LEN) (HDv : 0 <= Dv) (HD : Dv + N <= MAX_DEPTH).

Lemma remove_bound_loop_spec m c t fuel bound signed dir P pm stack0 :
  rep m c t -> m < Z.of_nat fuel -> zlen P + m <= 1023 ->
  (dir = None \/ dir = Some (DictBounds.into_branch bound)) ->
  let flip := match dir with None => signed | Some _ => false end in
  exists k v stack rg kb pb,
    remove_bound_loop ctx fuel c m pm bound signed dir (of_bits P) stack0 =
      Ok (stack, rg, of_bits (P ++ k), kb, pb) /\
    head (entries (bound_rev bound) flip t) = Some (k, v) /\ 0 <= kb /\
    forall key, size_bits key = kb ->
      remove_result ctx (built ctx N Dv canon) (rebuild_segment ctx) m c t k stack0 pm (Ok (Some (stack, rg, pb, key))).
Proof.
  revert m c fuel dir P pm stack0.
  induction t as [K v|K l IHl r IHr]; intros m c fuel dir P pm stack0 Hr Hf HP Hdir flip;
    pose proof (rep_range _ _ _ _ _ _ _ Hr) as Hm; (destruct fuel as [|fuel]; [lia|]); cbn [remove_bound_loop];
    destruct (rep_load _ _ _ _ _ _ _ Resolve Hr) as (_ & _ & ->); cbn [rbind].
  - destruct (read_leaf _ _ _ _ Hr) as (lab & s & -> & Wl & <- & Sl & Cs & Hv). cbn [rbind].
    change (store_slice_data uninit) with store_key_part.
    rewrite key_part_opt by (done || lia). cbn [rbind]. rewrite Sl, checked_sub_some, Z.sub_diag by lia.
    cbn [Z.eqb]. exists (slice_bits lab), v, stack0, (range s), m, pm. split_and!; [done | done | lia |].
    intros key Hkey. unfold remove_result. simpl. rewrite bool_decide_true by done.
    eexists _, _, _, key. split; [done|]. left. split_and!; [done..|]. rewrite <- Cs. by apply owned_of_slice.
  - destruct (read_fork _ _ _ _ _ Hr) as (lab & s & -> & Wl & Bl & Sl & HK & Cs & Ws & R0 & R2 & _). cbn [rbind].
    change (store_slice_data uninit) with store_key_part.
    rewrite key_part_opt by (done || lia). cbn [rbind]. rewrite Sl, checked_sub_some by lia.
    rewrite (proj2 (Z.eqb_neq _ _)), (fork_refs s Ws R0 R2) by lia. cbn match.
    set (b := xorb (bound_rev bound) (flip && is_nil K)).
    rewrite (direction_branch bound lab signed dir K Wl Bl Hdir). fold flip b. rewrite Bl.
    assert (Branches.into_bit (Branches.from_bit b) = b) as -> by (by destruct b).
    pose proof (zlen_app P K) as Hz. rewrite key_bit_of_bits by lia. cbn [rbind].
    destruct (fork_child _ _ _ _ _ _ _ _ _ b Hr) as (ch & _ & -> & Hc1 & _ & Hch). cbn [some_or_underflow rbind].
    destruct (rep_load _ _ _ _ _ _ _ Full Hch) as (_ & -> & _). cbn [rbind].
    assert (exists k v stack rg kb pb, remove_bound_loop ctx fuel ch (m - zlen K - 1) m bound signed
        (Some (DictBounds.into_branch bound)) (of_bits ((P ++ K) ++ [b]))
        (mkSegment c (Branches.from_bit b) 0 :: stack0) = Ok (stack, rg, of_bits (((P ++ K) ++ [b]) ++ k), kb, pb) /\
      head (entries (bound_rev bound) false (if b then r else l)) = Some (k, v) /\ 0 <= kb /\
      forall key, size_bits key = kb -> remove_result ctx (built ctx N Dv canon) (rebuild_segment ctx) (m - zlen K - 1) ch (if b then r else l) k
        (mkSegment c (Branches.from_bit b) 0 :: stack0) m (Ok (Some (stack, rg, pb, key))))
      as (k & v & stack & rg & kb & pb & -> & Hh & Hkb & Hrm).
    { pose proof (zlen_snoc (P ++ K) b). destruct b; [apply IHr | apply IHl]; try done; try lia; by right. }
    exists (K ++ b :: k), v, stack, rg, kb, pb. rewrite entries_head. fold flip b. rewrite Hh.
    split_and!; [by rewrite <- !app_assoc | done | done |]. intros key Hkey.
    apply (remove_result_up ctx N Dv HN Hcap HDv HD canon _ _ any_trie plain_tok ltac:(by intros m' t' res) m c K l r b ch k 0); try done; [| |by apply Hrm].
    + intros t res. by apply rebuild_segment_spec.
    + by apply (rep_load _ _ _ _ _ _ _ Resolve Hch).
Qed.
End Walk.
