(* ===== verification/DictFindSpec.v ===== *)
(** * DictFindSpec: the ordered searches find the entries they promise

    The bound searches give the first entry of DictOrder.v; the search for the
    nearest key follows the key down, keeping the entries before and after the
    current subtree, and rewinds to the first entry after it. *)

From stdpp Require Import gmap sorting.
From S2P Require Import Prelude Bits DataBuilder DataBuilderSpec CellMeta Cell Slice SliceSpec SliceScan SliceScanSpec Builder BuilderSpec Context DictLabel DictLabelSpec Dict DictSpec DictFind DictOrder.

(** ** What the searches promise *)

(** The lowest or greatest entry of a map. *)
Definition is_bound (rev signed : bool) (M : gmap (list bool) payload) (k : list bool) (v : payload) : Prop :=
  M !! k = Some v /\ forall k' v', M !! k' = Some v' -> k' = k \/ key_before rev signed k k'.

(** [k'] is a candidate for the nearest key after [k]. *)
Definition after (rev signed inclusive : bool) (k k' : list bool) : Prop :=
  key_before rev signed k k' \/ inclusive = true /\ k' = k.

(** The first entry of a map after a key, if any. *)
Definition nearest (rev signed inclusive : bool) (M : gmap (list bool) payload) (k : list bool)
    (o : option entry) : Prop :=
  match o with
  | Some (k0, v) => M !! k0 = Some v /\ after rev signed inclusive k k0 /\
      forall k' v', M !! k' = Some v' -> after rev signed inclusive k k' ->
        k' = k0 \/ key_before rev signed k0 k'
  | None => forall k' v', M !! k' = Some v' -> ~ after rev signed inclusive k k'
  end.

Lemma sorted_head_bound rev signed M l k v :
  sorted_entries rev signed M l -> head l = Some (k, v) -> is_bound rev signed M k v.
Proof.
  intros [HS HP] Hh. destruct l as [|e l]; [done|]. injection Hh as ->.
  assert (forall k' v', M !! k' = Some v' <-> (k', v') ∈ (k, v) :: l) as HM
    by (intros; rewrite HP; symmetry; apply elem_of_map_to_list).
  split; [apply HM; by left|]. intros k' v' Hk. apply HM in Hk.
  apply list.elem_of_cons in Hk as [[= -> ->]|Hk]; [by left|]. right.
  apply StronglySorted_cons in HS as [HF _]. rewrite list.Forall_forall in HF. by apply (HF (k', v')).
Qed.

(** Entries not after the key, then entries after it: the nearest is between them. *)
Lemma split_nearest rev signed incl M l B A k :
  sorted_entries rev signed M l -> l = B ++ A ->
  Forall (fun e => ~ after rev signed incl k e.1) B -> Forall (fun e => after rev signed incl k e.1) A ->
  nearest rev signed incl M k (head A).
Proof.
  intros [HS HP] -> HB HA.
  assert (forall k' v', M !! k' = Some v' <-> (k', v') ∈ B ++ A) as HM
    by (intros; rewrite HP; symmetry; apply elem_of_map_to_list).
  rewrite list.Forall_forall in HB, HA. destruct A as [|[k0 v0] A]; simpl.
  - intros k' v' Hk%HM. rewrite app_nil_r in Hk. by apply (HB (k', v')).
  - split; [apply HM, elem_of_app; right; by left|]. split; [apply (HA (k0, v0)); by left|].
    intros k' v' Hk%HM Ha. apply elem_of_app in Hk as [Hk|Hk]; [by apply (HB (k', v')) in Hk|].
    apply list.elem_of_cons in Hk as [[= -> ->]|Hk]; [by left|]. right.
    apply StronglySorted_app_1_r, StronglySorted_cons in HS as [HF _].
    rewrite list.Forall_forall in HF. by apply (HF (k', v')).
Qed.

Lemma not_after_before rev signed incl a b : key_before rev signed a b -> ~ after rev signed incl b a.
Proof. unfold after, key_before. intros H [H'|[_ ->]]; destruct rev; lia. Qed.

Lemma entries_flip rev flip t : tlabel t <> [] -> entries rev flip t = entries rev false t.
Proof. destruct t as [|[|] ? ?]; [done| done |]. simpl. by rewrite andb_false_r. Qed.

Lemma prepend_keys_app P Q l : prepend_keys P (prepend_keys Q l) = prepend_keys (P ++ Q) l.
Proof. unfold prepend_keys. rewrite <- list_fmap_compose. apply list_fmap_ext. intros. simpl. by rewrite app_assoc. Qed.

Lemma prepend_keys_app_l P l1 l2 : prepend_keys P (l1 ++ l2) = prepend_keys P l1 ++ prepend_keys P l2.
Proof. apply fmap_app. Qed.

Lemma head_prepend P l : head (prepend_keys P l) = (fun e => (P ++ e.1, e.2)) <$> head l.
Proof. by destruct l. Qed.

(** The entries of a fork below a path, split at one of its children. *)
Lemma entries_child rev flip P K l r (b : bool) :
  let other := prepend_keys (P ++ K ++ [negb b]) (entries rev false (if b then l else r)) in
  let this := prepend_keys (P ++ K ++ [b]) (entries rev false (if b then r else l)) in
  prepend_keys P (entries rev flip (TFork K l r)) =
    if eqb b (xorb rev (flip && is_nil K)) then this ++ other else other ++ this.
Proof.
  simpl. destruct (xorb rev (flip && is_nil K)), b; simpl; by rewrite prepend_keys_app_l, !prepend_keys_app.
Qed.

Section Find.
Context {ftail : ForkTail} (ctx : CellContext) {laws : ContextLaws ctx} (N Dv : Z) (HN : 0 <= N <= 1023) (canon : bool).
Abbreviation rep := (rep ctx N Dv canon).

(** The root of the dictionary, and the direction of the search. *)
Context (c0 : Cell) (t0 : trie) (Hroot : rep N c0 t0) (rev signed : bool).

(** The stack leads to the node [c] below the key bits [P], with [m] bits left; [B] and
    [L] are the entries before and after its subtree. *)
Inductive path : list Segment -> list bool -> Z -> Cell -> trie -> list entry -> list entry -> Prop :=
| path_root : path [] [] N c0 t0 [] []
| path_child st P m c K l r B L (b : bool) ch :
    path st P m c (TFork K l r) B L -> rep m c (TFork K l r) ->
    reference c (b2z b) = Some ch -> reference_cloned c (b2z b) = Some ch ->
    rep (m - zlen K - 1) ch (if b then r else l) ->
    let first := xorb rev (signed && is_nil P && is_nil K) in
    let other := prepend_keys (P ++ K ++ [negb b]) (entries rev false (if b then l else r)) in
    path (mkSegment c (Branches.from_bit b) (m - zlen K - 1) :: st) (P ++ K ++ [b]) (m - zlen K - 1) ch
      (if b then r else l)
      (if eqb b first then B else B ++ other) (if eqb b first then other ++ L else L).

Lemma path_rep st P m c t B L : path st P m c t B L -> rep m c t.
Proof. by intros []. Qed.

Lemma path_len st P m c t B L : path st P m c t B L -> zlen P + m = N.
Proof.
  induction 1 as [|st P m c K l r B L b ch _ IH]; [done|]. rewrite !zlen_app.
  change (zlen [b]) with 1. lia.
Qed.

Lemma path_top st P m c t B L : path st P m c t B L -> is_nil P = match st with [] => true | _ => false end.
Proof. intros []; [done|]. by destruct P0, K. Qed.

Lemma path_found st P m c t B L : path st P m c t B L -> found_cell ctx (stack_prev st) c0 = Ok c.
Proof.
  intros []; [done|]. simpl. replace (Branches.to_u8 (Branches.from_bit b)) with (b2z b) by (by destruct b).
  rewrite H2. simpl. by apply (rep_load _ _ _ _ _ _ _ Resolve H3).
Qed.

Lemma path_entries st P m c t B L :
  path st P m c t B L -> B ++ prepend_keys P (entries rev (signed && is_nil P) t) ++ L = entries rev signed t0.
Proof.
  induction 1 as [|st P m c K l r B L b ch Hp IH Hr Hc1 Hc2 Hch first other].
  - simpl. rewrite app_nil_r, andb_true_r. unfold prepend_keys. etransitivity; [|apply list_fmap_id].
    apply list_fmap_ext. by intros ? [].
  - pose proof (entries_child rev (signed && is_nil P) P K l r b) as E. cbn zeta in E. rewrite <- IH, E. replace (is_nil (P ++ K ++ [b])) with false by (by destruct P, K).
    rewrite andb_false_r. fold other. fold first. destruct (eqb b first); by rewrite <- ?app_assoc.
Qed.

(** Every key below the node is after the entries of [B] and before those of [L]. *)
Lemma path_order st P m c t B L k incl :
  path st P m c t B L -> zlen k = m ->
  Forall (fun e => ~ after rev signed incl (P ++ k) e.1) B /\
  Forall (fun e => key_before rev signed (P ++ k) e.1) L.
Proof.
  intros Hp. revert k. induction Hp as [|st P m c K l r B L b ch Hp IH Hr Hc1 Hc2 Hch first other]; intros k Hk.
  { split; constructor. }
  destruct (IH (K ++ b :: k)) as [HB HL]; [rewrite zlen_app, zlen_cons; lia|].
  replace ((P ++ K ++ [b]) ++ k) with (P ++ K ++ b :: k) by (by rewrite <- !app_assoc).
  pose proof (rep_trie_ok _ _ _ _ _ _ _ Hr) as Hok. inversion Hok as [|? ? ? ? Hl Hrr]; subst.
  assert (Forall (fun e => if eqb b first then key_before rev signed (P ++ K ++ b :: k) e.1
                           else key_before rev signed e.1 (P ++ K ++ b :: k)) other) as Ho.
  { apply list.Forall_forall. intros [x v] (y & -> & Hy%entries_elem)%prepend_keys_elem. simpl.
    assert (zlen y = zlen k) as Hyk.
    { rewrite Hk. destruct b; [apply (tget_ok_len _ _ _ _ Hl Hy) | apply (tget_ok_len _ _ _ _ Hrr Hy)]. }
    replace (P ++ K ++ b :: k) with ((P ++ K) ++ b :: k) by (by rewrite <- app_assoc).
    replace ((P ++ K ++ [negb b]) ++ y) with ((P ++ K) ++ negb b :: y) by (by rewrite <- !app_assoc).
    pose proof (key_value_part signed (P ++ K) y k Hyk) as H1.
    pose proof (key_value_part signed (P ++ K) k y (eq_sym Hyk)) as H2.
    assert (is_nil (P ++ K) = is_nil P && is_nil K) as E by (by destruct P, K).
    rewrite E, andb_assoc in H1, H2. unfold key_before, first.
    destruct rev, (signed && is_nil P && is_nil K), b; simpl in *; lia. }
  destruct (eqb b first).
  - split; [done|]. by apply Forall_app.
  - split; [|done]. apply Forall_app. split; [done|]. eapply list.Forall_impl; [exact Ho|].
    intros e He. by apply not_after_before.
Qed.

Definition rev_branch : Branch := Branches.from_bit rev.

(** Rewinding finds the child the entries after the node start with. *)
Lemma path_rewind st P m c t B L :
  path st P m c t B L ->
  match rewind_stack st N signed rev_branch with
  | None => L = []
  | Some (d, rem, fb, nb, plen) =>
      exists (b : bool) ch t' L', fb = Branches.from_bit b /\ 0 <= plen < zlen P /\ rem = N - plen - 1 /\
        reference d (b2z b) = Some ch /\ reference_cloned d (b2z b) = Some ch /\ rep rem ch t' /\
        L = prepend_keys (take (Z.to_nat plen) P ++ [b]) (entries rev false t') ++ L'
  end.
Proof.
  induction 1 as [|st P m c K l r B L b ch Hp IH Hr Hc1 Hc2 Hch first other]; [done|].
  cbn [rewind_stack]. pose proof (path_len _ _ _ _ _ _ _ Hp) as HP. pose proof (zlen_nonneg P).
  pose proof (zlen_nonneg K).
  assert ((N - (m - zlen K - 1) =? 1) = is_nil P && is_nil K) as ->.
  { rewrite <- !zlen_is_nil. destruct (Z.eqb_spec (zlen P) 0), (Z.eqb_spec (zlen K) 0); simpl; zcases; done || lia. }
  rewrite andb_assoc.
  assert (forall a : bool, branch_eqb (Branches.from_bit a) rev_branch = eqb a rev) as Hbe
    by (unfold rev_branch; by destruct rev; intros []).
  rewrite Hbe. assert (zlen (P ++ K ++ [b]) = zlen P + zlen K + 1) as HPK
    by (rewrite !zlen_app; change (zlen [b]) with 1; lia).
  assert (take (Z.to_nat (N - (m - zlen K - 1) - 1)) (P ++ K ++ [b]) = P ++ K) as Htake.
  { rewrite app_assoc. apply take_app_length'. rewrite length_app. unfold zlen in *. lia. }
  destruct (fork_child _ _ _ _ _ _ _ _ _ (negb b) Hr) as (co & Ho1 & _ & Ho2 & _ & Hco).
  assert (eqb b first = true -> exists (b0 : bool) ch0 t' L', Branches.from_bit (negb b) = Branches.from_bit b0 /\
    0 <= N - (m - zlen K - 1) - 1 < zlen (P ++ K ++ [b]) /\
    m - zlen K - 1 = N - (N - (m - zlen K - 1) - 1) - 1 /\ reference c (b2z b0) = Some ch0 /\
    reference_cloned c (b2z b0) = Some ch0 /\ rep (m - zlen K - 1) ch0 t' /\
    (if eqb b first then other ++ L else L) = prepend_keys (take (Z.to_nat (N - (m - zlen K - 1) - 1)) (P ++ K ++ [b]) ++ [b0])
      (entries rev false t') ++ L') as Hfound.
  { intros ->. exists (negb b), co, (if negb b then r else l), L. rewrite Htake.
    split_and!; try done; try lia. unfold other. rewrite <- app_assoc. by destruct b. }
  assert (eqb b first = false -> match rewind_stack st N signed rev_branch with
    | None => (if eqb b first then other ++ L else L) = []
    | Some (d, rem, fb, nb, plen) => exists (b0 : bool) ch0 t' L', fb = Branches.from_bit b0 /\
        0 <= plen < zlen (P ++ K ++ [b]) /\ rem = N - plen - 1 /\ reference d (b2z b0) = Some ch0 /\
        reference_cloned d (b2z b0) = Some ch0 /\ rep rem ch0 t' /\
        (if eqb b first then other ++ L else L) =
          prepend_keys (take (Z.to_nat plen) (P ++ K ++ [b]) ++ [b0]) (entries rev false t') ++ L' end) as Hup.
  { intros ->. destruct (rewind_stack st N signed rev_branch) as [[[[[d rem] fb] nb] plen]|]; [|done].
    destruct IH as (b0 & ch0 & t' & L' & ? & ? & ? & ? & ? & ? & ->). exists b0, ch0, t', L'.
    split_and!; try done; try lia. rewrite take_app_le by (unfold zlen in *; lia). done. }
  assert (Branches.reversed rev_branch = Branches.from_bit (negb rev)) as -> by (unfold rev_branch; by destruct rev).
  fold rev_branch. unfold first in *.
  destruct (signed && is_nil P && is_nil K) eqn:Es; simpl andb; cbn match.
  - destruct (eqb b rev) eqn:Eb; simpl.
    + apply eqb_prop in Eb as ->. apply Hup. by destruct rev.
    + replace rev_branch with (Branches.from_bit (negb b)) by (unfold rev_branch; by destruct b, rev).
      apply Hfound. by destruct b, rev.
  - rewrite xorb_false_r in *. destruct (eqb b rev) eqn:Eb; simpl.
    + pose proof (eqb_prop _ _ Eb) as <-. by apply Hfound.
    + by apply Hup.
Qed.

(** ** The loops of [dict_find_owned] *)

(** Where the first loop ends, relative to the key [k] of the search. *)
Definition exact_end (k : list bool) (cl : Cell) (lf : Leaf) (c : Cell) (key : CellSlice) (st : list Segment) : Prop :=
  exists P m t B L, path st P m c t B L /\ P ++ slice_bits key = k /\ slice_wf key /\ size_bits key = m /\
    cell key = cl /\
  match lf with
  | LeafValue rg => exists v, t = TLeaf (slice_bits key) v /\ value_slice v (apply_allow_exotic rg c)
  | LeafDivergence br => exists Q a b K2 k2, tlabel t = Q ++ a :: K2 /\ slice_bits key = Q ++ b :: k2 /\ a <> b /\
      br = (if signed && is_nil P && is_nil Q then Branches.reversed (Branches.from_bit b) else Branches.from_bit b)
  end.

Lemma find_exact_loop_spec st P m c t B L fuel key :
  path st P m c t B L -> slice_wf key -> size_bits key = m -> m < Z.of_nat fuel ->
  exists lf c' key' st', find_exact_loop ctx fuel c key signed st = Ok (lf, c', key', st') /\
    exact_end (P ++ slice_bits key) (cell key) lf c' key' st'.
Proof.
  revert st P m c B L fuel key.
  induction t as [K v|K l IHl r IHr]; intros st P m c B L fuel key Hp Hk Hsz Hf;
    pose proof (path_rep _ _ _ _ _ _ _ Hp) as Hr;
    pose proof (rep_range _ _ _ _ _ _ _ Hr) as Hmr; pose proof (rep_label_len _ _ _ _ _ _ _ Hr) as HKm;
    (destruct fuel as [|fuel]; [lia|]); cbn [find_exact_loop]; rewrite Hsz;
    destruct (rep_load _ _ _ _ _ _ _ Resolve Hr) as (_ & _ & ->); cbn [rbind];
    destruct (rep_read ctx N Dv HN canon _ _ _ Hr) as (ls & s & x & -> & Wl & Bl & Cs & Ws & Bs & Rs & Rcs & Hrest);
    cbn [rbind]; assert (value_slice x s) as Hs by (split_and!; [done..|by eapply rep_plain]);
    pose proof (zlen_slice_bits key Hk) as Hz; rewrite Hsz in Hz;
    pose proof (zlen_slice_bits ls Wl) as Hzl; rewrite Bl in Hzl;
    destruct (lcp_slice key ls Hk Wl) as (Sl & Wlcp & Blcp); rewrite Bl in Sl, Blcp;
    set (lcp := longest_common_data_prefix key ls) in *; clearbody lcp; rewrite Sl, <- Hzl in *;
    cbn [tlabel] in *;
    destruct (lcp_meets (slice_bits key) K) as [rr E|Q a b K2 k2 EK Ek Hab|b k2 Ek].
  2,5: assert (zlen Q < m /\ zlen Q < zlen K) as [HQ1 HQ2] by
      (rewrite <- Hz, Ek, EK, !zlen_app, !zlen_cons; pose proof (zlen_nonneg K2); pose proof (zlen_nonneg k2); lia);
    rewrite (proj2 (Z.eqb_neq _ _)), (proj2 (Z.ltb_lt _ _)) by lia;
    rewrite get_bit_spec by (done || pose proof (zlen_nonneg Q); lia);
    rewrite Ek, <- length_zlen, list_lookup_middle by done; cbn [rbind];
    eexists _, c, key, st; (split; [done|]); eexists P, m, _, B, L;
    (split_and!; [exact Hp | by rewrite Ek | done..|]); exists Q, a, b, K2, k2;
    (split_and!; [done..|]); rewrite zlen_is_nil, (path_top _ _ _ _ _ _ _ Hp);
    by destruct (signed && _ && _).
  - rewrite Hz, Z.eqb_refl. destruct Hrest as (HK & _ & ->).
    rewrite E, zlen_app in HK. rewrite (nil_length_inv rr), app_nil_r in E by (unfold zlen in *; lia).
    eexists _, c, key, st. split; [done|]. exists P, m, (TLeaf K v), B, L. split_and!; try done.
    exists v. split; [by rewrite E|]. rewrite <- Cs. by apply owned_of_slice.
  - exfalso. destruct Hrest as (HK & _ & _). rewrite Ek, zlen_app, zlen_cons in Hz. pose proof (zlen_nonneg k2). lia.
  - exfalso. destruct Hrest as (HK & _). rewrite E, zlen_app in HK. pose proof (zlen_nonneg rr). lia.
  - destruct Hrest as (HK & _). pose proof (zlen_nonneg K).
    destruct (Z.eqb_spec (zlen K) m); [lia|]. rewrite Z.ltb_irrefl, (fork_count _ _ _ _ _ _ _ _ _ Hr). cbn match.
    destruct (skip_front key K _ Hk Ek) as (k' & -> & [Wk' Bk' _ _ Ck'] & _). cbn [or_same].
    destruct (load_bit_front k' b k2 Wk' Bk') as (key' & -> & [Wk Bk _ _ Ck]). cbn [rbind].
    destruct (fork_child _ _ _ _ _ _ _ _ _ b Hr) as (ch & Hc1 & Hc0 & Hc2 & _ & Hch). rewrite Hc0. cbn [some_or_underflow rbind].
    destruct (rep_load _ _ _ _ _ _ _ Full Hch) as (_ & -> & _). cbn [rbind].
    pose proof (path_child st P m c K l r B L b ch Hp Hr Hc1 Hc2 Hch) as Hp'. cbn zeta in Hp'.
    pose proof (zlen_slice_bits key' Wk) as Hz'. rewrite Bk in Hz'. rewrite Ek, zlen_app, zlen_cons in Hz.
    assert (size_bits key' = m - zlen K - 1) as Hs' by lia. rewrite Hs'.
    replace (P ++ slice_bits key) with ((P ++ K ++ [b]) ++ slice_bits key') by (by rewrite Ek, Bk, <- !app_assoc).
    replace (cell key) with (cell key') by congruence.
    destruct b; [eapply IHr | eapply IHl]; (exact Hp' || done || lia).
Qed.

Lemma find_nearest_loop_spec m c t fuel P prev :
  rep m c t -> m < Z.of_nat fuel -> zlen P + m <= 1023 ->
  exists k v s prev', find_nearest_loop ctx fuel c m rev_branch (of_bits P) prev = Ok (of_bits (P ++ k), range s, prev') /\
    head (entries rev false t) = Some (k, v) /\ value_slice v s /\ at_parent ctx prev c s prev'.
Proof.
  revert m c fuel P prev.
  induction t as [K v|K l IHl r IHr]; intros m c fuel P prev Hr Hf HP;
    pose proof (rep_range _ _ _ _ _ _ _ Hr) as Hm; (destruct fuel as [|fuel]; [lia|]); cbn [find_nearest_loop];
    destruct (rep_load _ _ _ _ _ _ _ Resolve Hr) as (_ & _ & ->); cbn [rbind].
  - destruct (read_leaf _ _ _ HN _ _ _ _ _ Hr) as (lab & s & -> & Wl & <- & Sl & Cs & Hv). cbn [rbind].
    rewrite key_part_opt by (done || lia). cbn [rbind]. rewrite Sl, checked_sub_some, Z.sub_diag by lia.
    cbn [Z.eqb]. exists (slice_bits lab), v, s, prev. split_and!; [done..|]. split; [|by left].
    rewrite Cs. by apply (rep_load _ _ _ _ _ _ _ Resolve Hr).
  - destruct (read_fork _ _ _ HN _ _ _ _ _ _ Hr) as (lab & s & -> & Wl & Bl & Sl & HK & Cs & Ws & R0 & R2 & _). cbn [rbind].
    rewrite key_part_opt by (done || lia). cbn [rbind]. rewrite Sl, checked_sub_some by lia.
    rewrite (proj2 (Z.eqb_neq _ _)), (fork_refs s Ws R0 R2) by lia. cbn match.
    rewrite Bl. replace (Branches.into_bit rev_branch) with rev by (unfold rev_branch; by destruct rev).
    pose proof (zlen_app P K) as Hz. rewrite key_bit_of_bits by lia. cbn [rbind].
    destruct (fork_child _ _ _ _ _ _ _ _ _ rev Hr) as (ch & _ & Hc & _ & Hcl & Hch).
    fold rev_branch in Hc, Hcl. rewrite Hc. cbn [some_or_underflow rbind].
    destruct (rep_load _ _ _ _ _ _ _ Full Hch) as (_ & -> & _). cbn [rbind].
    assert (exists k v s2 prev', find_nearest_loop ctx fuel ch (m - zlen K - 1) rev_branch
        (of_bits ((P ++ K) ++ [rev])) (Some (c, rev_branch)) = Ok (of_bits (((P ++ K) ++ [rev]) ++ k), range s2, prev') /\
      head (entries rev false (if rev then r else l)) = Some (k, v) /\ value_slice v s2 /\
      at_parent ctx (Some (c, rev_branch)) ch s2 prev') as (k & v & s2 & prev' & -> & Hh & Hv & Hp).
    { pose proof (zlen_snoc (P ++ K) rev). destruct rev; [apply IHr | apply IHl]; try done; lia. }
    exists (K ++ rev :: k), v, s2, prev'. rewrite entries_head. simpl. rewrite xorb_false_r, Hh.
    split_and!; [by rewrite <- !app_assoc | done..|]. eapply at_parent_up; [apply Hp | exact Hcl | exact Hp].
Qed.

(** The entries below a node the key leaves are all after it, or all before it. *)
Lemma diverged_order st P m c t B L Q a b K2 k2 :
  path st P m c t B L -> tlabel t = Q ++ a :: K2 -> a <> b -> zlen (Q ++ b :: k2) = m ->
  let br := if signed && is_nil P && is_nil Q then Branches.reversed (Branches.from_bit b) else Branches.from_bit b in
  Forall (fun e => if branch_eqb br rev_branch then key_before rev signed (P ++ Q ++ b :: k2) e.1
                   else key_before rev signed e.1 (P ++ Q ++ b :: k2))
    (prepend_keys P (entries rev false t)).
Proof.
  intros Hp Hl Hab Hk br. pose proof (path_rep _ _ _ _ _ _ _ Hp) as Hr.
  pose proof (rep_trie_ok _ _ _ _ _ _ _ Hr) as Hok. apply list.Forall_forall.
  intros [x v] (y & -> & Hy%entries_elem)%prepend_keys_elem. simpl.
  pose proof (tget_ok_len _ _ _ _ Hok Hy) as Hz. pose proof (tget_prefix _ _ _ Hy) as [y' Ey].
  rewrite Hl, <- app_assoc in Ey. cbn [app] in Ey. subst y.
  assert (zlen (K2 ++ y') = zlen k2) as Hyk by (rewrite <- Hk, !zlen_app, !zlen_cons, zlen_app in Hz; rewrite zlen_app; lia).
  rewrite !(app_assoc P).
  pose proof (key_value_part signed (P ++ Q) (K2 ++ y') k2 Hyk) as H1.
  pose proof (key_value_part signed (P ++ Q) k2 (K2 ++ y') (eq_sym Hyk)) as H2.
  assert (is_nil (P ++ Q) = is_nil P && is_nil Q) as E by (by destruct P, Q).
  rewrite E, andb_assoc in H1, H2. unfold key_before, br, rev_branch.
  destruct (signed && is_nil P && is_nil Q), rev, a, b; simpl in *; (done || lia).
Qed.

(** An entry found: its key, and its value as a range of the cell that holds it. *)
Definition owned_entry (o : option entry) (p : option DictOwnedEntry) : Prop :=
  match o, p with
  | Some (k, v), Some (kb, (rg, c)) => kb = of_bits k /\ value_slice v (apply_allow_exotic rg c)
  | None, None => True
  | _, _ => False
  end.

(** The last steps of the search: down to the first leaf, and to its cell. *)
Lemma find_nearest_end m c t P prev :
  rep m c t -> zlen P + m = N -> (exists p, found_cell ctx prev c0 = Ok p /\ p = c) ->
  exists p, (let! (result_key, value_range, prev) :=
      find_nearest_loop ctx (S (Z.to_nat N)) c m rev_branch (of_bits P) prev in
    let! c := found_cell ctx prev c0 in
    Ok (Some (result_key, (value_range, c)))) = Ok p /\
  owned_entry (head (prepend_keys P (entries rev false t))) p.
Proof.
  intros Hr HP (? & Hf & ->). pose proof (zlen_nonneg P). pose proof (rep_range _ _ _ _ _ _ _ Hr).
  destruct (find_nearest_loop_spec m c t (S (Z.to_nat N)) P prev Hr ltac:(lia) ltac:(lia))
    as (k & v & s & prev' & -> & Hh & Hv & Ha). cbn [rbind].
  rewrite (found_cell_at ctx _ _ _ _ c0 Ha Hf). cbn [rbind]. eexists. split; [done|].
  rewrite head_prepend, Hh. simpl. split; [done|]. by apply owned_of_slice.
Qed.

(** Reading back the first bits of the key. *)
Lemma apply_in_bounds s : slice_wf s -> is_exotic (cell s) = false -> apply (range s) (cell s) = Ok s.
Proof.
  intros [_ ? ? ? ?] Hx. unfold apply. rewrite Hx. destruct s as [c [bs be rs re]]. simpl in *.
  by rewrite !Z.min_l by lia.
Qed.

Lemma key_prefix_part key plen :
  slice_wf key -> is_exotic (cell key) = false -> size_bits key = N -> 0 <= plen <= N ->
  exists s, apply (Range.get_prefix (range key) plen 0) (cell key) = Ok s /\
    store_key_part data_new s = Ok (of_bits (take (Z.to_nat plen) (slice_bits key))) /\
    zlen (take (Z.to_nat plen) (slice_bits key)) = plen.
Proof.
  intros Hk Hx Hs Hp. destruct (get_prefix_spec key plen Hk ltac:(lia)) as (W & B & S).
  exists (get_prefix key plen 0). split; [by apply (apply_in_bounds (get_prefix key plen 0))|].
  change data_new with (of_bits []). rewrite key_part_of_bits by (done || (change (zlen []) with 0; lia)).
  rewrite <- B, zlen_slice_bits by done. split; [done | lia].
Qed.

(** The fork the rewinding ends at, and the search from its other side. *)
Lemma rewind_end st P m c t B L key k1 :
  path st P m c t B L -> slice_wf key -> is_exotic (cell key) = false -> size_bits key = N ->
  P ++ k1 = slice_bits key ->
  exists p, (let! fork :=
      Ok (match rewind_stack st N signed rev_branch with
          | Some (data, remaining_bits, first_branch, next_branch, prefix_len) =>
              Some (data, remaining_bits, Some first_branch, prefix_len, Some (data, next_branch))
          | None => None
          end) in
    find_from_fork ctx N (range key) (cell key) rev_branch c0 fork) = Ok p /\
  owned_entry (head L) p.
Proof.
  intros Hp Wk Hx Sk Ek. cbn [rbind]. pose proof (path_rewind _ _ _ _ _ _ _ Hp) as Hw.
  pose proof (path_len _ _ _ _ _ _ _ Hp) as HPm. pose proof (rep_range _ _ _ _ _ _ _ (path_rep _ _ _ _ _ _ _ Hp)) as Hm.
  destruct (rewind_stack st N signed rev_branch) as [[[[[d rem] fb] nb] plen]|]; [|subst L; by exists None].
  destruct Hw as (b & ch & t' & L' & -> & Hplen & -> & Hc1 & Hc2 & Hch & ->).
  assert (take (Z.to_nat plen) P = take (Z.to_nat plen) (slice_bits key)) as ->
    by (rewrite <- Ek, take_app_le by (unfold zlen in *; lia); done).
  cbn [find_from_fork].
  destruct (key_prefix_part key plen Wk Hx Sk ltac:(lia)) as (s & -> & Hk & Ht). cbn [rbind]. rewrite Hk. cbn [rbind].
  assert (Branches.into_bit (Branches.from_bit b) = b) as -> by (by destruct b).
  assert (Branches.to_u8 (Branches.from_bit b) = b2z b) as Hb by (by destruct b). rewrite Hb, Hc1.
  rewrite key_bit_of_bits by lia. cbn [some_or_underflow rbind].
  destruct (rep_load _ _ _ _ _ _ _ Full Hch) as (_ & -> & _). cbn [rbind].
  destruct (find_nearest_end (N - plen - 1) ch t' (take (Z.to_nat plen) (slice_bits key) ++ [b]) (Some (d, Branches.from_bit b)))
    as (p & -> & Hpp); [done | rewrite zlen_snoc; lia | |].
  { exists ch. split; [|done]. simpl. rewrite Hb, Hc2. simpl. by apply (rep_load _ _ _ _ _ _ _ Resolve Hch). }
  exists p. split; [done|]. pose proof (entries_nonempty rev false t').
  by destruct (entries rev false t').
Qed.

Lemma dict_find_owned_correct key towards incl M :
  rev = negb (bound_rev towards) -> slice_wf key -> is_exotic (cell key) = false -> size_bits key = N ->
  (forall k, M !! k = tget t0 k) ->
  exists p o, dict_find_owned ctx (Some c0) N key towards incl signed = Ok p /\
    owned_entry o p /\ nearest rev signed incl M (slice_bits key) o.
Proof.
  intros Hrev Wk Hx Sk HM. unfold dict_find_owned. rewrite Sk, Z.eqb_refl. cbn [negb].
  destruct (rep_load _ _ _ _ _ _ _ Full Hroot) as (-> & _ & _). cbn [rbind].
  destruct (find_exact_loop_spec [] [] N c0 t0 [] [] (S (Z.to_nat N)) key) as (lf & c & k1 & st & -> & Hend);
    [by constructor | done | done | lia|]. cbn [rbind app] in *.
  destruct Hend as (P & m & t & B & L & Hp & Ek & W1 & S1 & C1 & Hlf). rewrite C1.
  assert (Branches.reversed (DictBounds.into_branch towards) = rev_branch) as ->
    by (unfold rev_branch; rewrite Hrev; by destruct towards).
  pose proof (path_entries _ _ _ _ _ _ _ Hp) as He. pose proof (path_len _ _ _ _ _ _ _ Hp) as HPm.
  pose proof (zlen_nonneg P).
  pose proof (zlen_slice_bits k1 W1) as Hz1. rewrite S1 in Hz1. pose proof (zlen_nonneg (slice_bits k1)).
  destruct (path_order _ _ _ _ _ _ _ (slice_bits k1) incl Hp Hz1) as [HB HL]. rewrite Ek in HB, HL.
  assert (sorted_entries rev signed M (entries rev signed t0)) as HS
    by (eapply entries_of_map; [eapply rep_trie_ok, Hroot | done]).
  assert (forall B' A p, entries rev signed t0 = B' ++ A -> owned_entry (head A) p ->
    Forall (fun e => ~ after rev signed incl (slice_bits key) e.1) B' ->
    Forall (fun e => after rev signed incl (slice_bits key) e.1) A ->
    exists p0 o, Ok p = Ok p0 /\ owned_entry o p0 /\ nearest rev signed incl M (slice_bits key) o) as Hans.
  { intros B' A p E Hp' HB' HA. exists p, (head A). split_and!; [done..|]. by eapply split_nearest. }
  assert (Forall (fun e => after rev signed incl (slice_bits key) e.1) L) as HL'
    by (eapply list.Forall_impl; [exact HL | by left]).
  destruct (rewind_end st P m c t B L key (slice_bits k1) Hp Wk Hx Sk Ek) as (pr & Hrw & Hpr). cbn [rbind] in Hrw.
  destruct lf as [rg|br].
  - destruct Hlf as (v & -> & Hv). simpl in He. rewrite Ek in He. destruct incl.
    + rewrite (path_found _ _ _ _ _ _ _ Hp). cbn [rbind]. rewrite (apply_in_bounds key) by done. cbn [rbind].
      change data_new with (of_bits []). rewrite key_part_of_bits by (done || (change (zlen []) with 0; lia)).
      cbn [rbind app]. apply (Hans B ((slice_bits key, v) :: L)); try done.
      apply list.Forall_cons. split; [by right | done].
    + cbn [rbind]. rewrite Hrw. apply (Hans (B ++ [(slice_bits key, v)]) L); try done; [by rewrite <- app_assoc|].
      apply Forall_app. split; [done|]. repeat constructor. simpl. unfold after, key_before.
      intros [H'|[? _]]; [destruct rev; lia | done].
  - destruct Hlf as (Q & a & b & K2 & k2 & Hl & Hk1 & Hab & ->).
    pose proof (diverged_order st P m c t B L Q a b K2 k2 Hp Hl Hab) as Ho. rewrite <- Hk1, Ek in Ho.
    specialize (Ho ltac:(by rewrite Hz1)). cbn zeta in Ho. rewrite entries_flip in He by (rewrite Hl; by destruct Q).
    destruct (find_nearest_end m c t P (stack_prev st)) as (pb & Hnb & Hpb);
      [by eapply path_rep | done | exists c; split; [by eapply path_found | done]|].
    destruct (branch_eqb _ rev_branch) eqn:Eb.
    + assert (exists p0 o, find_from_fork ctx N (range key) (cell key) rev_branch c0
          (Some (c, size_bits k1, None, N - size_bits k1, stack_prev st)) = Ok p0 /\
        owned_entry o p0 /\ nearest rev signed incl M (slice_bits key) o) as Hfin.
      { cbn [find_from_fork].
        destruct (key_prefix_part key (N - size_bits k1) Wk Hx Sk ltac:(lia)) as (s & -> & Hs & _). cbn [rbind].
        rewrite Hs. cbn [rbind]. rewrite S1. replace (take (Z.to_nat (N - m)) (slice_bits key)) with P;
          [|rewrite <- Ek; replace (N - m) with (zlen P) by lia; by rewrite <- length_zlen, take_app_length].
        rewrite Hnb. apply (Hans B (prepend_keys P (entries rev false t) ++ L)); try done.
        - pose proof (entries_nonempty rev false t). by destruct (entries rev false t).
        - apply Forall_app. split; [|done]. eapply list.Forall_impl; [exact Ho | by left]. }
      pose proof (rep_load _ _ _ _ _ _ _ UseGas (path_rep _ _ _ _ _ _ _ Hp)) as (_ & -> & _).
      cbn [rbind]. by destruct incl.
    + cbn [rbind]. rewrite Hrw.
      assert (exists p0 o, Ok pr = Ok p0 /\ owned_entry o p0 /\ nearest rev signed incl M (slice_bits key) o) as Hfin.
      { apply (Hans (B ++ prepend_keys P (entries rev false t)) L); try done; [by rewrite <- app_assoc|].
        apply Forall_app. split; [done|]. eapply list.Forall_impl; [exact Ho|]. intros e. by apply not_after_before. }
      by destruct incl.
Qed.
End Find.
