(* ===== verification/DictIterSpec.v ===== *)
(** * DictIterSpec: iterators visit the entries in order

    The segments of an iterator are a path from the root; the entries still to be
    visited are those behind the references that are left in them.  Each call of
    [next] takes the first of these entries. *)

From stdpp Require Import gmap sorting.
From S2P Require Import Prelude Bits DataBuilder DataBuilderSpec CellMeta Cell Slice SliceSpec Builder BuilderSpec Context DictLabel DictLabelSpec Dict DictSpec DictFind DictIter DictOrder DictFindSpec.

(** Rewinding a key. *)
Lemma rewind_of_bits P X :
  zlen P + zlen X <= 1023 -> rewind_bits (of_bits (P ++ X)) (zlen X) = Ok (of_bits P).
Proof.
  intros Hz. pose proof (zlen_nonneg X). pose proof (zlen_nonneg P).
  assert (zlen (P ++ X) <= MAX_BIT_LEN) as Hm by (rewrite zlen_app; unfold MAX_BIT_LEN; lia).
  rewrite rewind_bits_spec by first [by apply of_bits_wf | lia]. rewrite contents_of_bits by done.
  change (DataBuilder.bit_len (of_bits (P ++ X))) with (zlen (P ++ X)). rewrite zlen_app.
  rewrite (proj2 (Z.leb_le _ _)) by lia. replace (zlen P + zlen X - zlen X) with (zlen P) by lia.
  by rewrite <- length_zlen, take_app_length.
Qed.

(** Skipping one of the two references of a fork. *)
Lemma skip_ref s i :
  slice_wf s -> refs_start (range s) = i -> 2 <= refs_end (range s) -> 0 <= i < 2 ->
  exists s', skip_first s 0 1 = Ok s' /\ slice_wf s' /\ cell s' = cell s /\
    refs_start (range s') = i + 1 /\ 2 <= refs_end (range s').
Proof.
  intros [Wc Hb Hbe Hr Hre] Hi He Hlt. pose proof (cw_len _ Wc). pose proof (cw_rc _ Wc). unfold skip_first, Range.skip_first, on_range, Range.exceeds.
  rewrite Hi, u16_small, u8_small by lia. rewrite !(proj2 (Z.ltb_ge _ _)) by lia. cbn [orb].
  eexists. split; [done|]. split; [split|]; cbn [cell range bits_start bits_end refs_start refs_end];
    done || lia || idtac.
Qed.

Section Iter.
Context {ftail : ForkTail} (ctx : CellContext) {laws : ContextLaws ctx} (N Dv : Z) (HN : 0 <= N <= 1023) (canon : bool).
Abbreviation rep := (rep ctx N Dv canon).
Context (rev signed : bool).

(** The side of a fork that was visited last, as [next_owned] computes it. *)
Definition last_bit (seg : IterSegment) (below : list IterSegment) : bool :=
  xorb (xorb (negb (offset_refs (is_data seg) =? 1)) rev)
    (signed && is_top_root below &&
     match is_prefix seg with Some prefix => is_data_empty prefix | None => false end).

(** The key bits of a node under the segments, given those up to the top label. *)
Definition node_path (segs : list IterSegment) (P : list bool) : list bool :=
  match segs with [] => [] | seg :: below => P ++ [last_bit seg below] end.

(** The segments with the key bits up to the top label, and the entries left. *)
Inductive istack : list IterSegment -> list bool -> list entry -> Prop :=
| istack_nil : istack [] [] []
| istack_cons below P L m c K l r s prefix i :
    istack below P L -> rep m c (TFork K l r) -> zlen (node_path below P) + m = N ->
    slice_wf prefix -> slice_bits prefix = K -> slice_wf s ->
    cell s = c -> refs_start (range s) = i -> 2 <= refs_end (range s) -> 0 <= i <= 2 ->
    let Q := node_path below P in
    let first := xorb rev (signed && is_top_root below && is_nil K) in
    let side (b : bool) := prepend_keys (Q ++ K ++ [b]) (entries rev false (if b then r else l)) in
    istack (mkIterSegment s (m - zlen K - 1) (Some prefix) :: below) (Q ++ K)
      ((if i <? 1 then side first else []) ++ (if i <? 2 then side (negb first) else []) ++ L).

Lemma istack_path_len segs P L : istack segs P L -> segs <> [] -> zlen P + 1 <= N.
Proof.
  intros []; [done|]. intros _. unfold Q. rewrite zlen_app.
  pose proof (rep_range _ _ _ _ _ _ _ H0).
  apply (read_fork ctx N Dv HN canon) in H0 as (? & ? & _ & _ & _ & _ & ? & _). lia.
Qed.

(** A node the iterator is about to read. *)
Definition next_node (segs : list IterSegment) (L : list entry)
    (r : option (IterSegment * list IterSegment * CellDataBuilder)) : Prop :=
  exists seg below P' L' m ch t,
    r = Some (mkIterSegment (new_allow_exotic ch) m None, seg :: below, of_bits (node_path (seg :: below) P')) /\
    istack (seg :: below) P' L' /\ rep m ch t /\ zlen (node_path (seg :: below) P') + m = N /\
    (exists s, s ∈ segs /\ is_remaining s = m) /\
    (forall s, head segs = Some s -> refs_start (range (is_data s)) < 2 -> m = is_remaining s) /\
    L = prepend_keys (node_path (seg :: below) P') (entries rev false t) ++ L' /\
    reference_cloned (cell (is_data seg)) (b2z (last_bit seg below)) = Some ch.

Lemma next_segment_spec segs P L X :
  istack segs P L -> zlen P + zlen X <= 1023 ->
  exists r, next_segment rev signed segs (of_bits (P ++ X)) (zlen X) = Ok r /\
    match L with [] => r = None | _ => next_node segs L r end.
Proof.
  intros Hs. revert X. induction Hs as [|below P L m c K l r s prefix i Hs IH Hr Hz Wp Bp Ws Cs Is Es Hi Q first side];
    intros X HX; [by exists None|].
  cbn [next_segment is_prefix is_data is_remaining]. unfold offset_refs. rewrite Is, Cs.
  rewrite is_data_empty_spec, Bp, zlen_is_nil by done. pose proof (zlen_nonneg X).
  pose proof (zlen_app Q K) as HQK. pose proof (zlen_nonneg Q). pose proof (zlen_nonneg K).
  destruct (Z.ltb_spec i 2) as [Hi2|Hi2].
  - set (b := xorb (xorb (negb (i =? 0)) rev) (signed && is_top_root below && is_nil K)).
    destruct (fork_child _ _ _ _ _ _ _ _ _ b Hr) as (ch & Hc1 & _ & Hc2 & _ & Hch).
    unfold child_slice. rewrite Hc1. destruct (rep_load _ _ _ _ _ _ _ Full Hch) as (_ & _ & ->). cbn [rbind].
    rewrite rewind_of_bits by done. cbn [rbind].
    pose proof (read_fork ctx N Dv HN canon _ _ _ _ _ Hr) as (_ & _ & _ & _ & _ & _ & HKm & _).
    rewrite key_bit_of_bits by (fold Q in Hz; lia). cbn [rbind]. eexists. split; [done|].
    assert (exists s', skip_first s 0 1 = Ok s' /\ slice_wf s' /\ cell s' = c /\ refs_start (range s') = i + 1 /\
      2 <= refs_end (range s')) as (s' & -> & Ws' & Cs' & Is' & Es')
      by (rewrite <- Cs; apply skip_ref; done || lia).
    cbn [or_same].
    set (seg := mkIterSegment s' (m - zlen K - 1) (Some prefix)).
    assert (last_bit seg below = b) as Hlast.
    { unfold last_bit, seg, offset_refs. cbn [is_data is_prefix]. rewrite Is'.
      rewrite is_data_empty_spec, Bp, zlen_is_nil by done. unfold b.
      do 3 f_equal. destruct (Z.eqb_spec (i + 1) 1), (Z.eqb_spec i 0); done || lia. }
    pose proof (istack_cons below P L m c K l r s' prefix (i + 1) Hs Hr Hz Wp Bp Ws' Cs' Is' Es' ltac:(lia)) as Hst.
    cbn zeta in Hst. fold Q first seg in Hst.
    assert (forall A B : list entry, exists e A', side b ++ B = e :: A') as Hne.
    { intros _ B. pose proof (entries_nonempty rev false (if b then r else l)). unfold side.
      destruct (entries rev false (if b then r else l)) as [|[] ?]; [done|]. eexists _, _. reflexivity. }
    assert (forall L', istack (seg :: below) (Q ++ K) L' ->
      next_node (mkIterSegment s (m - zlen K - 1) (Some prefix) :: below) (side b ++ L')
        (Some (mkIterSegment (new_allow_exotic ch) (m - zlen K - 1) None, seg :: below, of_bits ((Q ++ K) ++ [b])))) as Hnode.
    { intros L' HL'. exists seg, below, (Q ++ K), L', (m - zlen K - 1), ch, (if b then r else l).
      cbn [node_path]. rewrite Hlast. split_and!; try done.
      - rewrite !zlen_app. change (zlen [b]) with 1. fold Q in Hz. lia.
      - eexists. split; [by left | done].
      - by intros ? [= <-].
      - unfold side. by rewrite <- app_assoc.
      - unfold seg. cbn [is_data]. by rewrite Cs'. }
    assert (i = 0 \/ i = 1) as [-> | ->] by lia.
    + assert (b = first) as Eb by (unfold b, first; by rewrite xorb_assoc).
      simpl. destruct (Hne [] (side (negb first) ++ L)) as (e & A & E). rewrite <- Eb in *. rewrite E, <- E. by apply Hnode.
    + assert (b = negb first) as Eb by (unfold b, first; simpl; by destruct rev, (signed && _ && _)).
      simpl. destruct (Hne [] L) as (e & A & E). rewrite <- Eb. rewrite E, <- E. by apply Hnode.
  - rewrite (proj2 (Z.ltb_ge i 1)) by lia. cbn [app].
    pose proof (zlen_slice_bits prefix Wp) as Hp. rewrite Bp in Hp. rewrite <- Hp, (u16_small (zlen X + zlen K)) by lia.
    assert (zlen X + zlen K <= 1023) as HXK by lia.
    destruct below as [|sg below]; cbn [is_top_root negb]; change (b2z false) with 0; change (b2z true) with 1.
    + rewrite u16_small by lia. inversion Hs; subst. by exists None.
    + unfold Q in *. cbn [node_path] in *. rewrite <- app_assoc in *. cbn [app] in *.
      rewrite u16_small by (change (b2z true) with 1; lia).
      rewrite <- !app_assoc in *. cbn [app] in *.
      replace (zlen X + zlen K + 1) with (zlen (last_bit sg below :: K ++ X)) by (rewrite zlen_cons, zlen_app; lia).
      destruct (IH (last_bit sg below :: K ++ X)) as (r' & -> & Hr'); [rewrite !zlen_cons, !zlen_app, zlen_cons in *; lia|].
      exists r'. split; [done|]. destruct L; [done|].
      destruct Hr' as (seg & bl & P' & L' & m' & ch & t & ? & ? & ? & ? & (s1 & ? & ?) & _ & ? & ?).
      exists seg, bl, P', L', m', ch, t. split_and!; try done; [exists s1; split; [by right | done]|].
      intros ? [= <-]. cbn [is_data]. lia.
Qed.

(** The cell of the last value is the last child of the top segment, or the root. *)
Context (c0 : Cell).

Definition at_top (segs : list IterSegment) (c : Cell) : Prop :=
  match segs with
  | [] => c = c0
  | seg :: below => reference_cloned (cell (is_data seg)) (b2z (last_bit seg below)) = Some c
  end.

Lemma next_impl_step fuel segs b sg below b' :
  next_segment rev signed segs b 0 = Ok (Some (sg, below, b')) -> is_prefix sg = None ->
  next_impl (S fuel) rev signed segs b = next_impl (S fuel) rev signed (sg :: below) b'.
Proof. intros E Hn. cbn [next_impl]. rewrite E. cbn [next_segment]. by rewrite Hn. Qed.

Lemma next_impl_node fuel m c t segs P L :
  istack segs P L -> rep m c t -> zlen (node_path segs P) + m = N -> m < Z.of_nat fuel -> at_top segs c ->
  exists k v s segs' P' L',
    next_impl fuel rev signed (mkIterSegment (new_allow_exotic c) m None :: segs) (of_bits (node_path segs P)) =
      Ok (Some (of_bits k, s), segs', of_bits P') /\
    istack segs' P' L' /\ value_slice v s /\ at_top segs' (cell s) /\
    prepend_keys (node_path segs P) (entries rev (signed && is_top_root segs) t) ++ L = (k, v) :: L'.
Proof.
  revert m c t segs P L. induction fuel as [|fuel IH]; intros m c t segs P L Hs Hr HP Hf Htop;
    pose proof (rep_range _ _ _ _ _ _ _ Hr) as Hm; [lia|].
  cbn [next_impl next_segment is_prefix rbind is_data is_remaining]. set (Q := node_path segs P) in *.
  destruct t as [K v|K l r].
  - destruct (read_leaf _ _ _ HN _ _ _ _ _ Hr) as (lab & s & -> & Wl & <- & Sl & Cs & Hv). cbn [rbind].
    rewrite Sl, checked_sub_some, Z.sub_diag by lia. cbn [Z.eqb]. rewrite key_part_of_bits by (done || lia). cbn [rbind].
    assert (rewind_bits (of_bits Q) (b2z (negb (is_top_root segs))) = Ok (of_bits P)) as ->.
    { unfold Q in *. destruct segs as [|sg segs]; [by inversion Hs|]. cbn [node_path is_top_root negb] in *.
      apply (rewind_of_bits P [_]). rewrite zlen_app in HP. lia. }
    exists (Q ++ slice_bits lab), v, s, segs, P, L. split_and!; [done..|by rewrite Cs | done].
  - destruct (read_fork _ _ _ HN _ _ _ _ _ _ Hr) as (lab & s & -> & Wl & Bl & Sl & HK & Cs & Ws & R0 & R2 & _). cbn [rbind].
    rewrite Sl, checked_sub_some by lia. rewrite (proj2 (Z.eqb_neq _ _)), (fork_refs s Ws R0 R2) by lia. cbn match. rewrite key_part_of_bits by (done || lia). cbn [rbind]. rewrite Bl.
    pose proof (istack_cons segs P L m c K l r s lab 0 Hs Hr HP Wl Bl Ws Cs R0 R2 ltac:(lia)) as Hst.
    cbn zeta in Hst. fold Q in Hst. simpl in Hst.
    set (seg0 := mkIterSegment s (m - zlen K - 1) (Some lab)) in *.
    set (first := xorb rev (signed && is_top_root segs && is_nil K)) in *.
    destruct (next_segment_spec _ _ _ [] Hst) as (res & E & Hn); [rewrite zlen_app; change (zlen []) with 0; lia|].
    rewrite app_nil_r in E. change (zlen []) with 0 in E.
    pose proof (entries_child rev (signed && is_top_root segs) Q K l r first) as He. cbn zeta in He.
    fold first in He. rewrite eqb_reflx in He. rewrite He, <- app_assoc.
    assert (next_node (seg0 :: segs) (prepend_keys (Q ++ K ++ [first]) (entries rev false (if first then r else l)) ++
      prepend_keys (Q ++ K ++ [negb first]) (entries rev false (if negb first then r else l)) ++ L) res)
      as (seg & below & P' & L' & m' & ch & t & -> & Hst' & Hch & HP' & _ & Hm' & EL & Hc).
    { pose proof (entries_nonempty rev false (if first then r else l)) as Hne.
      by destruct (entries rev false (if first then r else l)). }
    specialize (Hm' seg0 eq_refl ltac:(cbn [is_data seg0]; lia)). cbn [is_remaining seg0] in Hm'.
    destruct fuel as [|fuel]; [lia|].
    rewrite (next_impl_step _ _ _ _ _ _ E) by done.
    destruct (IH m' ch t (seg :: below) P' L') as (k & v & s' & segs' & P2 & L2 & -> & H1 & H2 & H3 & H4); [done..|lia|done|].
    exists k, v, s', segs', P2, L2. split_and!; try done. rewrite <- H4. cbn [is_top_root]. rewrite andb_false_r, <- EL.
    by destruct first.
Qed.

(** ** [next] *)

(** What is left of an iteration. *)
Definition iter_state (it : RawIter) (L : list entry) : Prop :=
  ri_status it = Valid /\ ri_reversed it = rev /\ ri_signed it = signed /\
  ((exists P, istack (ri_segments it) P L /\ (ri_segments it <> [] -> ri_builder it = of_bits P)) \/
   (exists t, rep N c0 t /\ ri_segments it = [mkIterSegment (new_allow_exotic c0) N None] /\
      ri_builder it = of_bits [] /\ L = entries rev signed t)).

Lemma iter_fuel_in it s :
  s ∈ ri_segments it -> is_remaining s < Z.of_nat (iter_fuel it).
Proof.
  unfold iter_fuel. induction (ri_segments it) as [|x l IH]; [by intros ?%elem_of_nil|].
  intros [->|H]%list.elem_of_cons; simpl in *; [lia|]. specialize (IH H). lia.
Qed.

Definition iter_result (it : RawIter) (L : list entry) (r : option (result (CellDataBuilder * CellSlice)) * RawIter) : Prop :=
  match L with
  | [] => r.1 = None /\ iter_state r.2 []
  | (k, v) :: L' => exists s it', r = (Some (Ok (of_bits k, s)), it') /\ value_slice v s /\ iter_state it' L' /\
      at_top (ri_segments it') (cell s)
  end.

Lemma iter_state_done it b : ri_status it = Valid -> ri_reversed it = rev -> ri_signed it = signed ->
  iter_state (mkRawIter [] (ri_status it) b (ri_reversed it) (ri_signed it)) [].
Proof. intros. split_and!; [done..|]. left. exists []. split; [constructor | done]. Qed.

(** A call that reads a node returns its first entry. *)
Lemma raw_iter_next_node it segs P L' m c t :
  ri_reversed it = rev -> ri_signed it = signed -> ri_status it = Valid ->
  istack segs P L' -> rep m c t -> zlen (node_path segs P) + m = N -> m < Z.of_nat (iter_fuel it) -> at_top segs c ->
  iter_result it (prepend_keys (node_path segs P) (entries rev (signed && is_top_root segs) t) ++ L')
    (match next_impl (iter_fuel it) rev signed (mkIterSegment (new_allow_exotic c) m None :: segs) (of_bits (node_path segs P)) with
     | Ok (res, segments, builder) => (Ok <$> res, mkRawIter segments Valid builder rev signed)
     | Err e => (Some (Err e), raw_iter_finish it)
     end).
Proof.
  intros Hrv Hsg Hv Hst Hr HP Hf Htop.
  destruct (next_impl_node (iter_fuel it) m c t segs P L') as (k & v & s & segs' & P2 & L2 & -> & H1 & H2 & H3 & ->); [done..|].
  eexists s, _. split_and!; [done..| |done]. split_and!; [done..|]. left. by exists P2.
Qed.

Lemma raw_iter_next_spec it L : iter_state it L -> iter_result it L (raw_iter_next it).
Proof.
  intros (Hv & Hrv & Hsg & Hst). unfold raw_iter_next. rewrite Hv, Hrv, Hsg. cbn [is_valid negb].
  destruct Hst as [(P & Hst & Hb)|(t & Hr & Es & Eb & ->)].
  - destruct (ri_segments it) as [|sg segs] eqn:Esegs.
    { inversion Hst; subst. unfold iter_fuel. cbn [next_impl next_segment rbind].
      split; [done|]. rewrite <- Hv, <- Hrv, <- Hsg. by apply iter_state_done. }
    rewrite Hb by done. pose proof (istack_path_len _ _ _ Hst ltac:(done)) as HPl. pose proof (zlen_nonneg P).
    destruct (next_segment_spec _ _ _ [] Hst) as (res & E & Hn); [change (zlen []) with 0; lia|].
    rewrite app_nil_r in E. change (zlen []) with 0 in E. destruct L as [|e L].
    { subst res. unfold iter_fuel. cbn [next_impl]. rewrite E. cbn [rbind].
      split; [done|]. rewrite <- Hv, <- Hrv, <- Hsg. by apply iter_state_done. }
    destruct Hn as (seg & below & P' & L' & m & ch & t & -> & Hst' & Hch & HP' & (s & Hs & Hm) & _ & EL & Hc).
    assert (m < Z.of_nat (iter_fuel it)) as Hf by (rewrite <- Hm; apply iter_fuel_in; by rewrite Esegs).
    pose proof (raw_iter_next_node it (seg :: below) P' L' m ch t Hrv Hsg Hv Hst' Hch HP' Hf Hc) as Hnode.
    cbn [is_top_root] in Hnode. rewrite andb_false_r, <- EL in Hnode.
    unfold iter_fuel in *. by rewrite (next_impl_step _ _ _ _ _ _ E).
  - rewrite Es, Eb. assert (N < Z.of_nat (iter_fuel it)) as Hf.
    { apply (iter_fuel_in it (mkIterSegment (new_allow_exotic c0) N None)). rewrite Es. by left. }
    pose proof (raw_iter_next_node it [] [] [] N c0 t Hrv Hsg Hv istack_nil Hr eq_refl Hf eq_refl) as Hnode.
    cbn [is_top_root node_path] in Hnode. rewrite andb_true_r, app_nil_r in Hnode.
    unfold prepend_keys in Hnode. rewrite (list_fmap_ext _ id), list_fmap_id in Hnode by (by intros ? []). done.
Qed.
End Iter.
