(* ===== verification/DictIterTheorems.v ===== *)
(** * DictIterTheorems: searches by order and iteration over dictionaries

    The claims about the iterators of [src/src/dict/raw.rs]: in either direction and
    for unsigned or signed keys, the entries of the map come out sorted and each
    once; the union iterator merges two dictionaries by key. *)

From stdpp Require Import gmap sorting.
From S2P Require Import Prelude Bits DataBuilder DataBuilderSpec CellMeta Cell Slice SliceSpec SliceScan SliceScanSpec Builder BuilderSpec Context DictLabel DictLabelSpec Dict DictSpec DictTheorems DictFind DictIter DictOrder DictFindSpec DictIterSpec.

(** * Searches by order in dictionaries

    The claims about [src/src/dict/ops/find.rs] and [dict_remove_bound_owned]:
    the lowest and the greatest entry, its removal, and the nearest entry to a
    key, for both directions and both orders of keys, unsigned and signed. *)

#[local] Existing Instance sample_machine.

(** The borrowed search returns the key and the slice of the value. *)
Definition borrowed_entry (o : option entry) (p : option (CellDataBuilder * CellSlice)) : Prop :=
  match o, p with
  | Some (k, v), Some (kb, s) => kb = of_bits k /\ value_slice v s
  | None, None => True
  | _, _ => False
  end.

(** The first entry of a map in the given order. *)
Definition first_entry (rev signed : bool) (M : gmap (list bool) payload) (o : option entry) : Prop :=
  match o with
  | Some (k, v) => is_bound rev signed M k v
  | None => M = ∅
  end.

Definition delete_entry (o : option entry) (M : gmap (list bool) payload) : gmap (list bool) payload :=
  match o with Some (k, _) => delete k M | None => M end.

Section Bound.
Context {ftail : ForkTail} (ctx : CellContext) {laws : ContextLaws ctx} (N Dv : Z) (HN : 0 <= N <= 1023) (canon : bool).

Lemma dict_find_bounds_correct dict M bound signed :
  dict_rep ctx N Dv canon N dict M ->
  exists o p q, first_entry (bound_rev bound) signed M o /\
    dict_find_bound ctx dict N bound signed = Ok p /\ borrowed_entry o p /\
    dict_find_bound_owned ctx dict N bound signed = Ok q /\ owned_entry o q.
Proof.
  destruct dict as [c|]; cbn [dict_rep]; [|intros ->; by exists None, None, None].
  intros (t & Hr & HM). unfold dict_find_bound, dict_find_bound_owned.
  destruct (rep_load _ _ _ _ _ _ _ Full Hr) as (-> & -> & Hs). cbn [rbind]. rewrite Hs. cbn [rbind].
  destruct (find_bound_loop_spec ctx N Dv HN canon N c t (S (Z.to_nat N)) bound signed None [] None)
    as (k & v & s & prev & E & Hh & Hv & Ha); [done | lia | change (zlen []) with 0; lia | by left|].
  change data_new with (of_bits []). rewrite E. cbn [rbind].
  rewrite (found_cell_at ctx None c s prev c Ha) by done. cbn [rbind app].
  eexists (Some (k, v)), _, _. split_and!; [|done..|split; [done | by apply owned_of_slice]].
  eapply sorted_head_bound; [|done]. eapply entries_of_map; [by eapply rep_trie_ok | done].
Qed.

Context {mach : Machine}.

(** The removal of a bound rebuilds its fork as [rebuild_as_removed] does. *)
Lemma as_removed_inline last stack removed (kb : CellDataBuilder) key prev :
  (let index := Branches.to_u8 (sg_next_branch last) in
   let! value := some_or_underflow (reference_cloned (sg_data last) index) in
   let! value := load_cell value Resolve in
   let! (pfx, _) := read_label (new_allow_exotic (sg_data last)) prev in
   let! opposite := some_or_underflow (reference (sg_data last) (1 - index)) in
   let! opposite := load_dyn_cell opposite Full in
   let! opposite := slice_new opposite in
   let! (rem, opposite) := read_label opposite (size_bits key) in
   let! builder := write_label_parts pfx (index =? 0) rem prev builder_new in
   let! builder := store_slice builder opposite in
   let! leaf := build_ext ctx builder in
   let! root := rebuild_dict_from_stack ctx stack leaf in
   Ok (Some (kb, (removed, value)), Some root)) =
  (let! (leaf, value) := rebuild_as_removed ctx last key prev in
   let! root := rebuild_dict_from_stack ctx stack leaf in
   Ok (Some (kb, (removed : CellSliceRange, value)), Some root)).
Proof.
  unfold rebuild_as_removed. cbn zeta.
  repeat (match goal with |- rbind ?m _ = _ => destruct m as [?|?] end; cbn [rbind]; [|done];
    try match goal with x : _ * _ |- _ => destruct x end); done.
Qed.

Context `{!PlainTail ftail} (Hcap : 2 + len_bits N + N <= MAX_BIT_LEN) (HDv : 0 <= Dv) (HD : Dv + N <= MAX_DEPTH).

Lemma dict_remove_bound_correct dict M bound signed :
  dict_rep ctx N Dv canon N dict M ->
  exists o q dict', first_entry (bound_rev bound) signed M o /\
    dict_remove_bound_owned ctx dict N bound signed = Ok (q, dict') /\ owned_entry o q /\
    dict_rep ctx N Dv canon N dict' (delete_entry o M).
Proof.
  destruct dict as [c|]; cbn [dict_rep]; [|intros ->; by exists None, None, None].
  intros (t & Hr & HM). unfold dict_remove_bound_owned.
  destruct (rep_load _ _ _ _ _ _ _ Full Hr) as (-> & _ & _). cbn [rbind].
  destruct (remove_bound_loop_spec ctx N Dv HN canon Hcap HDv HD N c t (S (Z.to_nat N)) bound signed None [] N [])
    as (k & v & stack & rg & kb & pb & E & Hh & Hkb & Hrm); [done | lia | change (zlen []) with 0; lia | by left|].
  change data_new with (of_bits []). rewrite E. cbn [rbind app].
  set (key := mkSlice c (mkRange 0 kb 0 0)).
  assert (size_bits key = kb) as Hk by (unfold key, size_bits, Range.size_bits; simpl; dlia).
  specialize (Hrm key Hk). unfold remove_result in Hrm. rewrite (head_tget _ _ _ _ _ Hh) in Hrm.
  assert (is_bound (bound_rev bound) signed M k v) as Hb.
  { eapply sorted_head_bound; [|done]. eapply entries_of_map; [by eapply rep_trie_ok | done]. }
  exists (Some (k, v)).
  destruct Hrm as (st & rg' & pb' & key' & [= <- <- <- <-] & H).
  destruct H as [(-> & -> & -> & _ & Hv)|(last & st & leaf & val & res & t' & -> & E2 & Hv & (c' & -> & Hc) & Hu & Es)].
  - eexists _, None. split_and!; [done..|]. simpl. apply map_eq. intros k'. rewrite lookup_empty.
    destruct (decide (k' = k)) as [->|Hne]; [apply lookup_delete_eq|].
    rewrite lookup_delete_ne by done. rewrite HM. simpl. by rewrite bool_decide_false.
  - eexists (Some (of_bits k, (rg, val))), (Some c'). split_and!; [done | | done |].
    + rewrite <- Hk. rewrite as_removed_inline, E2. cbn [rbind]. change (rebuild_dict_from_stack ctx) with (rebuild_all (rebuild_segment ctx)). by rewrite Es.
    + exists t'. split; [done|]. intros k'. rewrite Hu, <- HM. simpl.
      destruct (decide (k' = k)) as [->|Hne].
      * by rewrite bool_decide_true, lookup_delete_eq.
      * by rewrite bool_decide_false, lookup_delete_ne.
Qed.
End Bound.

(** ** The claims *)

(** Both searches for a bound return the entry of the map with the lowest or the
    greatest key, keys being compared as unsigned or as two's complement numbers, and
    nothing exactly for the empty dictionary. *)
Theorem dict_find_bound_refines ctx {laws : ContextLaws ctx} n Dv canon dict M bound signed :
  0 <= n <= 1023 -> dict_rep ctx n Dv canon n dict M ->
  exists o p q, first_entry (bound_rev bound) signed M o /\
    dict_find_bound ctx dict n bound signed = Ok p /\ borrowed_entry o p /\
    dict_find_bound_owned ctx dict n bound signed = Ok q /\ owned_entry o q.
Proof. intros Hn. by apply dict_find_bounds_correct. Qed.

(** [dict_remove_bound_owned] removes that entry and nothing else, and returns
    it: afterwards the root represents the map without its key. *)
Theorem dict_remove_bound_refines {mach : Machine} ctx {laws : ContextLaws ctx} n Dv canon dict M bound signed :
  0 <= n -> 2 + len_bits n + n <= MAX_BIT_LEN -> 0 <= Dv -> Dv + n <= MAX_DEPTH ->
  dict_rep ctx n Dv canon n dict M ->
  exists o q dict', first_entry (bound_rev bound) signed M o /\
    dict_remove_bound_owned ctx dict n bound signed = Ok (q, dict') /\ owned_entry o q /\
    dict_rep ctx n Dv canon n dict' (delete_entry o M).
Proof. intros Hn Hcap HDv HD. by apply dict_remove_bound_correct, HD; [apply key_len_range|..]. Qed.

(** [dict_find_owned] finds the entry nearest to a key in a direction: the first
    entry after the key (or at it, when inclusive) in the order towards that bound,
    and nothing exactly when there is none, for present and absent keys alike. *)
Theorem dict_find_nearest_refines ctx {laws : ContextLaws ctx} n Dv canon dict M key towards inclusive signed :
  0 <= n <= 1023 -> slice_wf key -> is_exotic (cell key) = false -> size_bits key = n ->
  dict_rep ctx n Dv canon n dict M ->
  exists p o, dict_find_owned ctx dict n key towards inclusive signed = Ok p /\ owned_entry o p /\
    nearest (negb (bound_rev towards)) signed inclusive M (slice_bits key) o.
Proof.
  intros Hn Hk Hx Hs. destruct dict as [c|]; cbn [dict_rep].
  - intros (t & Hr & HM). by apply (dict_find_owned_correct ctx n Dv Hn canon c t Hr (negb (bound_rev towards)) signed).
  - intros ->. exists None, None. unfold dict_find_owned. rewrite Hs, Z.eqb_refl. split_and!; [done..|]. done.
Qed.

Lemma dict_find_bound_refines_witness :
  exists o p q, first_entry true true sample_map o /\
    dict_find_bound sample_ctx sample_root 8 Max true = Ok p /\ borrowed_entry o p /\
    dict_find_bound_owned sample_ctx sample_root 8 Max true = Ok q /\ owned_entry o q.
Proof. exact (dict_find_bound_refines sample_ctx 8 100 false sample_root sample_map Max true ltac:(lia) (sample_rep false)). Defined.

Lemma dict_remove_bound_refines_witness :
  exists o q dict', first_entry false true sample_map o /\
    dict_remove_bound_owned sample_ctx sample_root 8 Min true = Ok (q, dict') /\ owned_entry o q /\
    dict_rep sample_ctx 8 100 false 8 dict' (delete_entry o sample_map).
Proof.
  exact (dict_remove_bound_refines sample_ctx 8 100 false sample_root sample_map Min true ltac:(done) ltac:(done)
    ltac:(done) ltac:(done) (sample_rep false)).
Defined.

Lemma dict_find_nearest_refines_witness :
  exists p o, dict_find_owned sample_ctx sample_root 8 (key_slice (key8 5)) Max false true = Ok p /\ owned_entry o p /\
    nearest false true false sample_map (slice_bits (key_slice (key8 5))) o.
Proof.
  exact (dict_find_nearest_refines sample_ctx 8 100 false sample_root sample_map (key_slice (key8 5)) Max false true
    ltac:(lia) (proj1 (sample_key 5)) ltac:(by vm_compute) (proj2 (sample_key 5)) (sample_rep false)).
Defined.

#[local] Existing Instance sample_machine.

(** ** Running an iterator *)

Section Collect.
Context {S A E : Type} (next : S -> option (result A) * S) (st : S -> list E -> Prop) (item : E -> result A -> Prop).

(** A state with the entries [L] left gives the first of them. *)
Definition next_ok : Prop := forall it L, st it L ->
  match L with
  | [] => (next it).1 = None /\ st (next it).2 []
  | e :: L' => exists a it', next it = (Some a, it') /\ item e a /\ st it' L'
  end.

Lemma collect_spec it L fuel :
  next_ok -> st it L -> (length L < fuel)%nat ->
  exists items it', collect_iter next fuel it = (items, it') /\ Forall2 item L items /\ (next it').1 = None.
Proof.
  intros Hnext. revert it fuel. induction L as [|e L IH]; intros it [|fuel] Hst Hf; simpl in *; try lia;
    pose proof (Hnext _ _ Hst) as H; simpl in H.
  - destruct (next it) as [o it'] eqn:E1. destruct H as [Ho Hst']. simpl in Ho. subst o.
    exists [], it'. split_and!; [done | constructor |]. by apply (Hnext it' []).
  - destruct H as (a & it' & -> & Ha & Hst'). destruct (IH it' fuel Hst' ltac:(lia)) as (items & it2 & -> & HF & HN).
    exists (a :: items), it2. split_and!; [done | by constructor | done].
Qed.
End Collect.

(** What the iterators yield for an entry. *)
Definition slice_item (e : entry) (r : result (CellDataBuilder * CellSlice)) : Prop :=
  exists s, r = Ok (of_bits e.1, s) /\ value_slice e.2 s.
Definition owned_item (e : entry) (r : result (CellDataBuilder * CellSliceParts)) : Prop :=
  exists rg c, r = Ok (of_bits e.1, (rg, c)) /\ value_slice e.2 (apply_allow_exotic rg c).
Definition key_item (e : entry) (r : result CellDataBuilder) : Prop := r = Ok (of_bits e.1).

Section Items.
Context {ftail : ForkTail} (ctx : CellContext) {laws : ContextLaws ctx} (N Dv : Z) (HN : 0 <= N <= 1023) (canon : bool).
Context (rev signed : bool) (c0 : Cell).
Abbreviation state := (iter_state ctx N Dv canon rev signed c0).

Lemma raw_iter_ok : next_ok raw_iter_next state slice_item.
Proof.
  intros it L Hst. pose proof (raw_iter_next_spec ctx N Dv HN canon rev signed c0 it L Hst) as H.
  destruct L as [|[k v] L]; [done|]. destruct H as (s & it' & -> & Hv & Hst' & _).
  eexists _, it'. split_and!; [done | by exists s | done].
Qed.

Lemma raw_keys_ok : next_ok raw_keys_next state key_item.
Proof.
  intros it L Hst. pose proof (raw_iter_next_spec ctx N Dv HN canon rev signed c0 it L Hst) as H.
  unfold raw_keys_next. destruct L as [|[k v] L].
  - destruct (raw_iter_next it) as [o it']. destruct H as [Ho ?]. simpl in Ho. by subst o.
  - destruct H as (s & it' & -> & Hv & Hst' & _). by exists (Ok (of_bits k)), it'.
Qed.

Lemma raw_owned_ok : next_ok (raw_iter_next_owned (Some c0)) state owned_item.
Proof.
  intros it L Hst. pose proof (raw_iter_next_spec ctx N Dv HN canon rev signed c0 it L Hst) as H.
  unfold raw_iter_next_owned. destruct L as [|[k v] L].
  - destruct (raw_iter_next it) as [o it']. destruct H as [Ho ?]. simpl in Ho. by subst o.
  - destruct H as (s & it' & -> & Hv & Hst' & Htop). destruct Hst' as (Hval & Hr & Hs & Hrest).
    assert (state it' L) as Hst'' by (by split_and!).
    assert (owned_item (k, v) (Ok (of_bits k, (range s, cell s)))) as Hit
      by (eexists _, _; split; [done | by apply owned_of_slice]).
    unfold at_top, last_bit in Htop. rewrite Hr, Hs. destruct (ri_segments it') as [|seg below].
    + rewrite Htop in Hit. eexists _, it'. split; [reflexivity|]. by split.
    + rewrite Htop. eexists _, it'. split; [reflexivity|]. by split.
Qed.
End Items.

Lemma iter_start {ftail : ForkTail} ctx {laws : ContextLaws ctx} N Dv canon rev signed c t :
  rep ctx N Dv canon N c t ->
  iter_state ctx N Dv canon rev signed c (raw_iter_new_ext (Some c) N rev signed) (entries rev signed t).
Proof.
  intros Hr. unfold raw_iter_new_ext. destruct (rep_load _ _ _ _ _ _ _ Full Hr) as (_ & _ & ->).
  split_and!; [done..|]. right. by exists t.
Qed.

(** ** The claims *)

(** Whatever the direction and the order of the keys, the iterator over a
    dictionary yields exactly the entries of its map, sorted by key, and then ends;
    so do the iterator over the keys and the one that returns owned values, whose
    ranges and cells are those of the values. *)
Theorem dict_iter_in_order ctx {laws : ContextLaws ctx} n Dv canon dict M reversed signed fuel :
  0 <= n <= 1023 -> dict_rep ctx n Dv canon n dict M -> (size M < fuel)%nat ->
  let it := raw_iter_new_ext dict n reversed signed in
  exists l, sorted_entries reversed signed M l /\
    (exists items it', collect_iter raw_iter_next fuel it = (items, it') /\ Forall2 slice_item l items /\
       (raw_iter_next it').1 = None) /\
    (exists items it', collect_iter raw_keys_next fuel it = (items, it') /\ Forall2 key_item l items /\
       (raw_keys_next it').1 = None) /\
    (exists items it', collect_iter (raw_iter_next_owned dict) fuel it = (items, it') /\ Forall2 owned_item l items /\
       (raw_iter_next_owned dict it').1 = None).
Proof.
  intros Hn Hd Hf it. destruct fuel as [|fuel]; [lia|]. destruct dict as [c|]; cbn [dict_rep] in Hd.
  - destruct Hd as (t & Hr & HM). exists (entries reversed signed t).
    assert (sorted_entries reversed signed M (entries reversed signed t)) as HS
      by (eapply entries_of_map; [by eapply rep_trie_ok | done]).
    assert (length (entries reversed signed t) < S fuel)%nat as Hlen
      by (destruct HS as [_ HP]; apply Permutation_length in HP; rewrite HP; eapply Nat.le_lt_trans; [|exact Hf]; apply Nat.eq_le_incl, (length_map_to_list M)).
    pose proof (iter_start ctx n Dv canon reversed signed c t Hr) as Hst. split; [done|]. split_and!.
    + eapply collect_spec; [by eapply raw_iter_ok | done..].
    + eapply collect_spec; [by eapply raw_keys_ok | done..].
    + eapply collect_spec; [by eapply raw_owned_ok | done..].
  - subst M. exists []. split; [split; [constructor | by rewrite map_to_list_empty]|].
    split_and!; eexists [], it; (split_and!; [done | constructor | done]).
Qed.

Lemma dict_iter_in_order_witness :
  exists l, sorted_entries true true sample_map l /\
    exists items it', collect_iter raw_iter_next 3 (raw_iter_new_ext sample_root 8 true true) = (items, it') /\
      Forall2 slice_item l items /\ (raw_iter_next it').1 = None.
Proof.
  destruct (dict_iter_in_order sample_ctx 8 100 false sample_root sample_map true true 3 ltac:(lia) (sample_rep false)
    ltac:(by vm_compute; lia)) as (l & H & Hi & _). by exists l.
Defined.

(** ** Two divergences of the iterators over values *)

(** A dictionary of the keys 0 to 3, each with its own bits as the value. *)
Definition four_root : option Cell :=
  match run_ops sample_ctx 8 None ((fun x => OpInsert SetSet (key8 x) (key8 x, [])) <$> [0; 1; 2; 3]) with
  | Ok (_, d) => d
  | Err _ => None
  end.

(** The numbers the items of an iterator read as. *)
Definition read_items {A} (f : A -> payload) (l : list (result A)) : list Z :=
  (fun r => match r with Ok a => bits_uint (f a).1 | Err _ => -1 end) <$> l.

(** The root label of this dictionary is not empty, so signed keys do not change the
    order of its entries; the iterator over the values swaps the sides of the root
    nevertheless, because it tests the data left instead of the label. *)
Lemma raw_values_signed_misordered :
  read_items (fun x => read_slice x.2) (collect_iter raw_iter_next 4 (raw_iter_new_ext four_root 8 false true)).1 = [0; 1; 2; 3] /\
  read_items read_slice (collect_iter raw_values_next 4 (raw_values_new_ext four_root 8 false true)).1 = [2; 3; 0; 1].
Proof. split; by vm_compute. Qed.

(** In descending order the ranges of the owned values are paired with the cells of
    their siblings. *)
Lemma raw_owned_values_reversed_siblings :
  read_items (fun x => read_owned x.2) (collect_iter (raw_iter_next_owned four_root) 4 (raw_iter_new_ext four_root 8 true false)).1 = [3; 2; 1; 0] /\
  read_items read_owned (collect_iter (raw_owned_values_next four_root) 4 (raw_values_new_ext four_root 8 true false)).1 = [2; 3; 0; 1].
Proof. split; by vm_compute. Qed.
