(* ===== verification/DictUnion.v ===== *)
(** * DictUnion: the union iterator merges two dictionaries by key

    [UnionRawIter] of [src/src/dict/raw.rs] peeks at both iterators and yields the
    smaller key, or both values of a common key.  Its reference is the merge of the
    two sorted lists of entries, which is the sorted join of the two maps. *)

From stdpp Require Import gmap sorting.
From S2P Require Import Prelude Bits DataBuilder DataBuilderSpec CellMeta Cell Slice SliceSpec SliceScan SliceScanSpec Builder BuilderSpec Context DictLabel DictLabelSpec Dict DictSpec DictTheorems DictFind DictIter DictOrder DictFindSpec DictIterSpec DictIterTheorems.

#[local] Existing Instance sample_machine.

(** ** The order of keys *)

Lemma bits_uint_inj a b : zlen a = zlen b -> bits_uint a = bits_uint b -> a = b.
Proof.
  revert b. induction a as [|x a IH]; intros [|y b] H E; rewrite ?zlen_cons in H;
    [done | pose proof (zlen_nonneg b); change (zlen []) with 0 in H; lia | pose proof (zlen_nonneg a); change (zlen []) with 0 in H; lia|].
  assert (zlen a = zlen b) as Hz by lia. pose proof (bits_uint_range a). pose proof (bits_uint_range b).
  rewrite !bits_uint_cons, Hz in *. rewrite (IH b); [f_equal; destruct x, y; simpl in E; done || lia | done |].
  destruct x, y; simpl in E; lia.
Qed.

Definition key_cmp (rev signed : bool) (a b : list bool) : comparison :=
  let c := key_value signed a ?= key_value signed b in if rev then CompOpp c else c.

Lemma key_cmp_spec rev signed a b : zlen a = zlen b ->
  match key_cmp rev signed a b with
  | Lt => key_before rev signed a b
  | Gt => key_before rev signed b a
  | Eq => a = b
  end.
Proof.
  intros Hz. unfold key_cmp, key_before. destruct (Z.compare_spec (key_value signed a) (key_value signed b)) as [E|E|E];
    destruct rev; simpl; try done; apply bits_uint_inj; try done;
    destruct a as [|x a], b as [|y b]; try done; simpl in E; rewrite Hz in E;
    pose proof (bits_uint_range a); pose proof (bits_uint_range b); rewrite !bits_uint_cons in *;
    rewrite !zlen_cons in *; assert (zlen a = zlen b) as Hz' by lia; rewrite Hz' in *;
    pose proof (zlen_nonneg b); rewrite Z.pow_add_r in E by lia; destruct x, y, signed; simpl in *; lia.
Qed.

Lemma first_bit_spec k : zlen k <= 1023 -> first_bit (as_data_slice (of_bits k)) = match k with b :: _ => b | [] => false end.
Proof.
  intros Hk. destruct (key_slice_spec k) as (W & B & _); [done|]. unfold key_slice in *.
  unfold first_bit. rewrite get_bit_spec by (done || lia). rewrite B. by destruct k.
Qed.

Lemma union_cmp_spec addr_eq rev signed a b :
  (forall x y, addr_eq x y = true -> x = y) -> zlen a = zlen b -> zlen b <= 1023 ->
  union_cmp addr_eq rev signed (of_bits a) (of_bits b) = Ok (key_cmp rev signed a b).
Proof.
  intros Ha Hz Hb. destruct (key_slice_spec a) as (Wa & Ba & _); [unfold MAX_BIT_LEN; lia|].
  destruct (key_slice_spec b) as (Wb & Bb & _); [unfold MAX_BIT_LEN; lia|]. unfold key_slice in *.
  unfold union_cmp. rewrite lex_cmp_spec by done. cbn [rbind]. rewrite Ba, Bb, !first_bit_spec, lex_uint by first [lia | unfold zlen in Hz; lia].
  f_equal. unfold key_cmp.
  destruct a as [|x a], b as [|y b]; rewrite ?zlen_cons in Hz; change (zlen []) with 0 in Hz;
    [by destruct rev, signed | pose proof (zlen_nonneg b); lia | pose proof (zlen_nonneg a); lia|].
  assert (zlen a = zlen b) as Hz' by lia. simpl key_value. pose proof (bits_uint_range a). pose proof (bits_uint_range b).
  rewrite !zlen_cons, !bits_uint_cons, Hz' in *. pose proof (zlen_nonneg b). rewrite !Z.pow_add_r by lia.
  destruct signed, x, y; simpl; unfold b2z;
    repeat match goal with |- context [?u ?= ?v] => destruct (Z.compare_spec u v) end; destruct rev; simpl; done || lia.
Qed.

(** ** The join of two sorted lists of entries *)

Definition joined : Type := list bool * option payload * option payload.

Fixpoint merge_entries (rev signed : bool) (l1 : list entry) : list entry -> list joined :=
  match l1 with
  | [] => fmap (fun e : entry => (e.1, None, Some e.2))
  | (k1, v1) :: t1 => fix go l2 :=
      match l2 with
      | [] => (k1, Some v1, None) :: merge_entries rev signed t1 []
      | (k2, v2) :: t2 =>
          match key_cmp rev signed k1 k2 with
          | Lt => (k1, Some v1, None) :: merge_entries rev signed t1 l2
          | Gt => (k2, None, Some v2) :: go t2
          | Eq => (k1, Some v1, Some v2) :: merge_entries rev signed t1 t2
          end
      end
  end.

Definition entry_map (l : list entry) : gmap (list bool) payload := list_to_map l.

(** [J] is the join of two maps, sorted by key. *)
Definition sorted_join (rev signed : bool) (M1 M2 : gmap (list bool) payload) (J : list joined) : Prop :=
  StronglySorted (fun a b : joined => key_before rev signed a.1.1 b.1.1) J /\
  forall k o1 o2, (k, o1, o2) ∈ J <-> M1 !! k = o1 /\ M2 !! k = o2 /\ (is_Some o1 \/ is_Some o2).

Lemma sorted_join_cons rev signed M1 M2 J k o1 o2 :
  M1 !! k = o1 -> M2 !! k = o2 -> is_Some o1 \/ is_Some o2 ->
  (forall k', is_Some (M1 !! k') \/ is_Some (M2 !! k') -> k' = k \/ key_before rev signed k k') ->
  sorted_join rev signed (delete k M1) (delete k M2) J ->
  sorted_join rev signed M1 M2 ((k, o1, o2) :: J).
Proof.
  intros E1 E2 Ho Hfirst [HS HJ]. split.
  - constructor; [done|]. apply list.Forall_forall. intros [[k' p1] p2] (H1 & H2 & Hp)%HJ. simpl.
    destruct (decide (k' = k)) as [->|Hne].
    { rewrite lookup_delete_eq in H1, H2. subst. by destruct Hp as [[]|[]]. }
    rewrite lookup_delete_ne in H1, H2 by done. destruct (Hfirst k'); [by rewrite H1, H2 | done | done].
  - intros k' p1 p2. rewrite list.elem_of_cons, HJ. split.
    + intros [[= -> -> ->]|(H1 & H2 & Hp)]; [done|]. destruct (decide (k' = k)) as [->|Hne].
      { rewrite lookup_delete_eq in H1, H2. subst. by destruct Hp as [[]|[]]. }
      by rewrite !lookup_delete_ne in * by done.
    + intros (H1 & H2 & Hp). destruct (decide (k' = k)) as [->|Hne]; [left; congruence|].
      right. by rewrite !lookup_delete_ne by done.
Qed.

Definition sorted_keys (rev signed : bool) (n : Z) (l : list entry) : Prop :=
  StronglySorted (fun a b => key_before rev signed a.1 b.1) l /\ Forall (fun e => zlen e.1 = n) l.

Lemma entry_map_after rev signed n k v l k' :
  sorted_keys rev signed n ((k, v) :: l) -> is_Some (entry_map ((k, v) :: l) !! k') ->
  k' = k \/ key_before rev signed k k'.
Proof.
  intros [[HF _]%StronglySorted_cons _] [w Hw]. apply elem_of_list_to_map_2 in Hw.
  apply list.elem_of_cons in Hw as [[= -> ->]|Hw]; [by left | right].
  rewrite list.Forall_forall in HF. by apply (HF (k', w)).
Qed.

Lemma entry_map_tail rev signed n (e : entry) l k :
  sorted_keys rev signed n (e :: l) -> k = e.1 ->
  sorted_keys rev signed n l /\ delete k (entry_map (e :: l)) = entry_map l.
Proof.
  intros H ->. revert H. destruct e as [k v]. simpl fst.
  intros [[HF HS]%StronglySorted_cons [_ Hn]%list.Forall_cons]. split; [done|].
  unfold entry_map. simpl. rewrite delete_insert_id; [done|].
  apply not_elem_of_list_to_map_1. rewrite list_elem_of_fmap. intros ([k' w] & -> & Hw).
  rewrite list.Forall_forall in HF. specialize (HF _ Hw). simpl in HF. unfold key_before in HF. destruct rev; lia.
Qed.

Lemma entry_map_before rev signed n k l :
  sorted_keys rev signed n l -> match l with [] => True | (k', _) :: _ => key_before rev signed k k' end ->
  entry_map l !! k = None /\ (forall k', is_Some (entry_map l !! k') -> key_before rev signed k k').
Proof.
  intros Hs Hk. assert (forall k', is_Some (entry_map l !! k') -> key_before rev signed k k') as H.
  { intros k' Hk'. destruct l as [|[k0 v0] l]; [by destruct Hk'|].
    destruct (entry_map_after rev signed n k0 v0 l k' Hs Hk') as [->|Hb]; [done|]. by transitivity k0. }
  split; [|done]. apply eq_None_not_Some. intros Hs'. specialize (H k Hs'). unfold key_before in H. destruct rev; lia.
Qed.

Lemma merge_entries_nil rev signed l : merge_entries rev signed l [] = (fun e : entry => (e.1, Some e.2, None)) <$> l.
Proof. induction l as [|[k v] l IH]; simpl; [done|]. by rewrite IH. Qed.

(** The merge is the join. *)
Lemma merge_entries_join rev signed n l1 l2 :
  sorted_keys rev signed n l1 -> sorted_keys rev signed n l2 ->
  sorted_join rev signed (entry_map l1) (entry_map l2) (merge_entries rev signed l1 l2).
Proof.
  intros H1 H2. remember (length l1 + length l2)%nat as len eqn:Elen.
  revert l1 l2 Elen H1 H2. induction (lt_wf len) as [len _ IH]. intros l1 l2 -> H1 H2.
  destruct l1 as [|[k1 v1] t1], l2 as [|[k2 v2] t2].
  - split; [constructor|]. intros k o1 o2. split; [by intros ?%elem_of_nil|].
    intros (<- & <- & [[]|[]]); done.
  - destruct (entry_map_tail _ _ _ _ _ k2 H2 eq_refl) as [H2' D2]. simpl merge_entries.
    apply (sorted_join_cons _ _ _ _ _ k2 None (Some v2)); [done | apply lookup_insert_eq | by right | |].
    + intros k' [[]|Hk]; [done|]. (eapply entry_map_after; [|exact Hk]; done).
    + rewrite D2. change (entry_map []) with (∅ : gmap (list bool) payload). rewrite delete_empty.
      apply (IH (length t2) ltac:(simpl; lia) [] t2); done.
  - destruct (entry_map_tail _ _ _ _ _ k1 H1 eq_refl) as [H1' D1]. simpl merge_entries.
    apply sorted_join_cons; [apply lookup_insert_eq | done | by left | |].
    + intros k' [Hk|[]]; [|done]. (eapply entry_map_after; [|exact Hk]; done).
    + rewrite D1. change (entry_map []) with (∅ : gmap (list bool) payload). rewrite delete_empty.
      apply (IH (length t1 + 0)%nat ltac:(simpl; lia) t1 []); done.
  - destruct (entry_map_tail _ _ _ _ _ k1 H1 eq_refl) as [H1' D1]. destruct (entry_map_tail _ _ _ _ _ k2 H2 eq_refl) as [H2' D2].
    assert (zlen k1 = zlen k2) as Hz.
    { destruct H1 as [_ [E1 _]%list.Forall_cons], H2 as [_ [E2 _]%list.Forall_cons]. simpl in *. congruence. }
    pose proof (key_cmp_spec rev signed k1 k2 Hz) as Hc. simpl merge_entries.
    destruct (key_cmp rev signed k1 k2).
    + subst k2. apply sorted_join_cons; [apply lookup_insert_eq.. | by left | |].
      * intros k' [Hk|Hk]; (eapply entry_map_after; [|exact Hk]; done).
      * rewrite D1, D2. apply (IH (length t1 + length t2)%nat); [simpl; lia | done..].
    + destruct (entry_map_before rev signed n k1 _ H2 Hc) as [N2 A2].
      apply sorted_join_cons; [apply lookup_insert_eq | done | by left | |].
      * intros k' [Hk|Hk]; [(eapply entry_map_after; [|exact Hk]; done) | right; by apply A2].
      * rewrite D1, delete_id by done.
        apply (IH (length t1 + length (((k2, v2) : entry) :: t2))%nat); [simpl; lia | done..].
    + destruct (entry_map_before rev signed n k2 _ H1 Hc) as [N1 A1].
      apply sorted_join_cons; [done | apply lookup_insert_eq | by right | |].
      * intros k' [Hk|Hk]; [right; by apply A1 | (eapply entry_map_after; [|exact Hk]; done)].
      * rewrite D2, delete_id by done.
        apply (IH (length (((k1, v1) : entry) :: t1) + length t2)%nat ltac:(simpl; lia) (((k1, v1) : entry) :: t1) t2); done.
Qed.

Lemma merge_entries_length rev signed l1 l2 :
  (length (merge_entries rev signed l1 l2) <= length l1 + length l2)%nat.
Proof.
  revert l2. induction l1 as [|[k1 v1] t1 IH]; intros l2; simpl; [by rewrite length_fmap|].
  induction l2 as [|[k2 v2] t2 IH2]; simpl; [specialize (IH []); simpl in IH; lia|].
  destruct (key_cmp rev signed k1 k2); simpl; [specialize (IH t2) | specialize (IH (((k2, v2) : entry) :: t2)) | ]; simpl in *; lia.
Qed.

(** ** [next] *)

Definition opt_slice (o : option payload) (s : option CellSlice) : Prop :=
  match o, s with Some v, Some s => value_slice v s | None, None => True | _, _ => False end.

Definition joined_item (e : joined) (r : result union_item) : Prop :=
  exists s1 s2, r = Ok (of_bits e.1.1, s1, s2) /\ opt_slice e.1.2 s1 /\ opt_slice e.2 s2.

Section Union.
Context (ctx : CellContext) {laws : ContextLaws ctx} (N Dv : Z) (HN : 0 <= N <= 1023) (canon : bool).
Context (rev signed : bool) (addr_eq : Cell -> Cell -> bool) (Haddr : forall a b, addr_eq a b = true -> a = b).

Definition some_state (it : RawIter) (L : list entry) : Prop :=
  exists c0, iter_state ctx N Dv canon rev signed c0 it L.

(** One side: what is left of its iterator, behind the peeked entry. *)
Definition side_state (it : RawIter) (finished : bool) (peeked : option (CellDataBuilder * CellSlice)) (L : list entry) : Prop :=
  match peeked with
  | Some (kb, s) => exists k v L', L = (k, v) :: L' /\ kb = of_bits k /\ value_slice v s /\ finished = false /\ some_state it L'
  | None => some_state it L /\ (finished = true -> L = [])
  end.

Lemma some_state_fields it L : some_state it L -> ri_status it = Valid /\ ri_reversed it = rev /\ ri_signed it = signed.
Proof. by intros (? & ? & ? & ? & _). Qed.

Lemma side_fields it f p L : side_state it f p L -> ri_status it = Valid /\ ri_reversed it = rev /\ ri_signed it = signed.
Proof.
  destruct p as [[kb s]|].
  - intros (? & ? & ? & ? & ? & ? & ? & H). by eapply some_state_fields.
  - intros [H _]. by eapply some_state_fields.
Qed.

Lemma union_peek_spec it f p L :
  side_state it f p L -> exists it' f' p', union_peek it f p = (None, (it', f', p')) /\ side_state it' f' p' L /\
    (p' = None -> L = []).
Proof.
  intros H. unfold union_peek. destruct p as [[kb s]|].
  - rewrite andb_false_r. by exists it, f, (Some (kb, s)).
  - destruct H as [(c0 & Hst) Hf]. destruct f; simpl.
    { exists it, true, None. split_and!; [done | | by auto]. split; [by exists c0 | done]. }
    pose proof (raw_iter_next_spec ctx N Dv HN canon rev signed c0 it L Hst) as H.
    destruct L as [|[k v] L]; simpl in H.
    + destruct (raw_iter_next it) as [o it']. destruct H as [Ho Hst']. simpl in *. subst o.
      exists it', true, None. split_and!; [done | | done]. split; [by exists c0 | done].
    + destruct H as (s & it' & -> & Hv & Hst' & _). exists it', false, (Some (of_bits k, s)).
      split_and!; [done | | done]. exists k, v, L. split_and!; try done. by exists c0.
Qed.

Definition union_state (u : UnionRawIter) (J : list joined) : Prop :=
  exists l1 l2, J = merge_entries rev signed l1 l2 /\
    side_state (un_left u) (un_left_finished u) (un_left_peeked u) l1 /\
    side_state (un_right u) (un_right_finished u) (un_right_peeked u) l2 /\
    Forall (fun e => zlen e.1 = N) l1 /\ Forall (fun e => zlen e.1 = N) l2.

Lemma side_taken it kb s f L : side_state it f (Some (kb, s)) L ->
  exists k v L', L = (k, v) :: L' /\ kb = of_bits k /\ value_slice v s /\ side_state it f None L'.
Proof. intros (k & v & L' & -> & -> & Hv & -> & Hst). exists k, v, L'. split_and!; try done. Qed.

Lemma union_iter_ok : next_ok (union_iter_next addr_eq) union_state joined_item.
Proof.
  intros u J (l1 & l2 & -> & Hl & Hr & N1 & N2). unfold union_iter_next.
  destruct (side_fields _ _ _ _ Hl) as (-> & -> & ->). destruct (side_fields _ _ _ _ Hr) as (-> & _ & _). cbn [is_valid negb orb].
  destruct (union_peek_spec _ _ _ _ Hl) as (l & lf & lp & -> & Hl' & Hlp).
  cbn zeta. cbn [un_left un_left_peeked un_left_finished un_right un_right_peeked un_right_finished].
  destruct (union_peek_spec _ _ _ _ Hr) as (r & rf & rp & -> & Hr' & Hrp).
  destruct lp as [[lk lv]|], rp as [[rk rv]|].
  - destruct (side_taken _ _ _ _ _ Hl') as (k1 & v1 & t1 & -> & -> & Hv1 & Hl1).
    destruct (side_taken _ _ _ _ _ Hr') as (k2 & v2 & t2 & -> & -> & Hv2 & Hr1).
    pose proof N1 as [Z1 T1]%list.Forall_cons. pose proof N2 as [Z2 T2]%list.Forall_cons. simpl in Z1, Z2.
    rewrite union_cmp_spec by (done || lia). simpl merge_entries.
    destruct (key_cmp rev signed k1 k2).
    + eexists _, _. split; [done|]. split; [by eexists _, _|]. by exists t1, t2.
    + eexists _, _. split; [done|]. split; [by eexists _, _|]. by exists t1, ((k2, v2) :: t2).
    + eexists _, _. split; [done|]. split; [by eexists _, _|]. by exists ((k1, v1) :: t1), t2.
  - rewrite (Hrp eq_refl) in *. destruct (side_taken _ _ _ _ _ Hl') as (k1 & v1 & t1 & -> & -> & Hv1 & Hl1).
    pose proof N1 as [Z1 T1]%list.Forall_cons. simpl merge_entries.
    eexists _, _. split; [done|]. split; [by eexists _, _|]. by exists t1, [].
  - rewrite (Hlp eq_refl) in *. destruct (side_taken _ _ _ _ _ Hr') as (k2 & v2 & t2 & -> & -> & Hv2 & Hr1).
    pose proof N2 as [Z2 T2]%list.Forall_cons. simpl merge_entries.
    eexists _, _. split; [done|]. split; [by eexists _, _|]. by exists [], t2.
  - rewrite (Hlp eq_refl), (Hrp eq_refl) in *. simpl. split; [done|]. by exists [], [].
Qed.
End Union.

(** A fresh iterator over a dictionary has the sorted entries of its map left. *)
Lemma dict_rep_start ctx {laws : ContextLaws ctx} N Dv canon rev signed dict M :
  dict_rep ctx N Dv canon N dict M ->
  exists l, some_state ctx N Dv canon rev signed (raw_iter_new_ext dict N rev signed) l /\
    sorted_keys rev signed N l /\ entry_map l = M /\ length l = size M.
Proof.
  destruct dict as [c|]; cbn [dict_rep].
  - intros (t & Hr & HM). exists (entries rev signed t). pose proof (rep_trie_ok _ _ _ _ _ _ _ Hr) as Ht.
    split; [exists c; by apply iter_start|]. split; [split; [by eapply entries_sorted | by apply entries_lengths]|].
    pose proof (entries_of_map rev signed N t M Ht HM) as [_ HP].
    split; [|rewrite HP; exact (length_map_to_list M)].
    apply map_eq. intros k. rewrite HM. apply option_eq. intros v. unfold entry_map.
    rewrite <- elem_of_list_to_map by (by eapply entries_nodup). by rewrite entries_elem.
  - intros ->. exists []. split; [|by repeat constructor]. exists EmptyOrdinaryCell. split_and!; [done..|].
    left. exists []. by split; [constructor|].
Qed.

(** [C15] The union iterator over two dictionaries with keys of one length yields the
    sorted join of their maps: every key of either map once, with its value in each. *)
Theorem dict_union_iter_joins ctx {laws : ContextLaws ctx} n Dv canon addr_eq dict1 dict2 M1 M2 reversed signed fuel :
  0 <= n <= 1023 -> (forall a b, addr_eq a b = true -> a = b) ->
  dict_rep ctx n Dv canon n dict1 M1 -> dict_rep ctx n Dv canon n dict2 M2 -> (size M1 + size M2 < fuel)%nat ->
  exists J items u, sorted_join reversed signed M1 M2 J /\
    collect_iter (union_iter_next addr_eq) fuel (union_iter_new_ext dict1 dict2 n reversed signed) = (items, u) /\
    Forall2 joined_item J items /\ (union_iter_next addr_eq u).1 = None.
Proof.
  intros Hn Haddr H1 H2 Hf.
  destruct (dict_rep_start ctx n Dv canon reversed signed dict1 M1 H1) as (l1 & S1 & K1 & E1 & L1).
  destruct (dict_rep_start ctx n Dv canon reversed signed dict2 M2 H2) as (l2 & S2 & K2 & E2 & L2).
  exists (merge_entries reversed signed l1 l2).
  destruct (collect_spec (union_iter_next addr_eq) (union_state ctx n Dv canon reversed signed) joined_item
    (union_iter_new_ext dict1 dict2 n reversed signed) (merge_entries reversed signed l1 l2) fuel)
    as (items & u & Hc & HF & HN).
  - by apply union_iter_ok.
  - exists l1, l2. destruct K1, K2. by split_and!.
  - pose proof (merge_entries_length reversed signed l1 l2). lia.
  - exists items, u. split_and!; try done. rewrite <- E1, <- E2. by eapply merge_entries_join.
Qed.

Lemma dict_union_iter_joins_witness :
  exists J items u, sorted_join true false sample_map sample_map J /\
    collect_iter (union_iter_next (fun _ _ => false)) 5 (union_iter_new_ext sample_root sample_root 8 true false) = (items, u) /\
    Forall2 joined_item J items /\ (union_iter_next (fun _ _ => false) u).1 = None.
Proof.
  exact (dict_union_iter_joins sample_ctx 8 100 false (fun _ _ => false) sample_root sample_root sample_map sample_map
    true false 5 ltac:(lia) (fun a b H => match Bool.diff_false_true H with end) (sample_rep false) (sample_rep false)
    ltac:(by vm_compute; lia)).
Defined.
