(* ===== verification/DictSplit.v ===== *)
(** * DictSplit: splitting and merging dictionaries ([src/src/dict/ops/split_merge.rs])

    A dictionary is split at the fork behind a key prefix, and two dictionaries whose
    keys part at one bit are joined under a new root.  [dict_merge] inserts the entries
    of an iterator one by one; its loop has fuel and is [None] when that is used up. *)

From S2P Require Import Prelude Bits DataBuilder CellMeta Cell Slice SliceScan Builder DictLabel Dict DictBuild DictIter.

Section Split.
Context `{Machine} (ctx : CellContext).

(** [if get_bit(0) { swap(left, right) }] *)
Definition on_side (bit : bool) (dict : option Cell) : option Cell * option Cell :=
  if bit then (None, dict) else (dict, None).

(** The closure [rebuild_branch]: the branch with the prefix before its label, and what
    is left of the root. *)
Definition rebuild_branch (key_prefix : CellSlice) (key_bit_len subdict_bit_len : Z) (bit : bool) (remaining_data : CellSlice)
    : result (Cell * CellSlice) :=
  let! (child, remaining_data) := load_reference remaining_data in
  let! child := load_dyn_cell child Full in
  let! branch := slice_new child in
  let! (label, branch) := read_label branch subdict_bit_len in
  let! key_builder := store_slice builder_new key_prefix in
  let! key_builder := on_data (fun d => store_bit d bit) key_builder in
  let! key_builder := on_data (fun d => store_slice_data uninit d label) key_builder in
  let key := as_data_slice (inner key_builder) in
  let! builder := write_label key key_bit_len builder_new in
  let! builder := store_slice builder branch in
  let! c := build_ext ctx builder in
  Ok (c, remaining_data).

Definition dict_split_by_prefix (dict : option Cell) (key_bit_len : Z) (key_prefix : CellSlice) : result (option Cell * option Cell) :=
  if key_bit_len =? 0 then Ok (None, None) else
  match dict with
  | None => Ok (None, None)
  | Some data =>
      let! root := load_dyn_cell data Full in
      let! remaining_data := slice_new root in
      let! (root_label, remaining_data) := read_label remaining_data key_bit_len in
      match strip_data_prefix root_label key_prefix with
      | Some root_label_rem =>
          if is_data_empty root_label_rem then
            match checked_sub key_bit_len (u16 (size_bits root_label + 1)) with
            | Some subdict_bit_len =>
                let! (left_branch, remaining_data) := rebuild_branch key_prefix key_bit_len subdict_bit_len false remaining_data in
                let! (right_branch, remaining_data) := rebuild_branch key_prefix key_bit_len subdict_bit_len true remaining_data in
                Ok (Some left_branch, Some right_branch)
            | None => Err CellUnderflow
            end
          else
            let! bit := get_bit root_label_rem 0 in
            Ok (on_side bit dict)
      | None => Err CellUnderflow
      end
  end.

Record PartialSplitDict := mkPartialSplit {
  remaining_bit_len : Z;
  left_branch : option Cell;
  right_branch : option Cell;
}.

Definition dict_split_raw (dict : option Cell) (key_bit_len : Z) : result PartialSplitDict :=
  if key_bit_len =? 0 then Ok (mkPartialSplit 0 None None) else
  match dict with
  | None => Ok (mkPartialSplit key_bit_len None None)
  | Some data =>
      let! root := load_dyn_cell data Full in
      let! remaining_data := slice_new root in
      let! (root_label, remaining_data) := read_label remaining_data key_bit_len in
      if is_data_empty root_label then
        match checked_sub key_bit_len 1 with
        | Some subdict_bit_len =>
            let! (child, remaining_data) := load_reference_cloned remaining_data in
            let! left_branch := load_cell child Full in
            let! (child, remaining_data) := load_reference_cloned remaining_data in
            let! right_branch := load_cell child Full in
            Ok (mkPartialSplit subdict_bit_len (Some left_branch) (Some right_branch))
        | None => Err CellUnderflow
        end
      else
        let! bit := get_bit root_label 0 in
        let '(lft, rgt) := on_side bit dict in
        Ok (mkPartialSplit key_bit_len lft rgt)
  end.

(** ** Merging *)

(** The loop [while let Some(Ok((key, value))) = right_dict_iter.next()]: what it
    answers, and the left dictionary. *)
Fixpoint merge_loop (fuel : nat) (right_dict_iter : RawIter) (lft : option Cell) : option (result unit * option Cell) :=
  match fuel with
  | O => None
  | S fuel =>
      match raw_iter_next right_dict_iter with
      | (Some (Ok (key, value)), right_dict_iter) =>
          match dict_insert ctx lft (as_data_slice key) (DataBuilder.bit_len key) (store_into value) SetSet with
          | Ok (_, lft) => merge_loop fuel right_dict_iter lft
          | Err e => Some (Err e, lft)
          end
      | _ => Some (Ok tt, lft)
      end
  end.

Definition dict_merge (fuel : nat) (lft rgt : option Cell) (key_bit_length : Z) : option (result unit * option Cell) :=
  match lft, rgt with
  | None, None | Some _, None => Some (Ok tt, lft)
  | None, Some rgt => Some (Ok tt, Some rgt)
  | Some left_cell, Some right_cell =>
      let n := bit_len left_cell in
      if negb (n =? bit_len right_cell) && negb (n =? key_bit_length) then Some (Err InvalidCell, lft)
      else merge_loop fuel (raw_iter_new_ext rgt key_bit_length false false) lft
  end.

Definition dict_merge_sibling_roots (key_bit_length : Z) (lft rgt : Cell) (comparator : option AugDictFn) : result Cell :=
  let! left_slice := slice_new lft in
  let! (left_label, left_slice) := read_label left_slice key_bit_length in
  let! right_slice := slice_new rgt in
  let! (right_label, right_slice) := read_label right_slice key_bit_length in
  let min_label_len := Z.min (size_bits left_label) (size_bits right_label) in
  if min_label_len =? 0 then Err InvalidData else
  let lcp := longest_common_data_prefix left_label right_label in
  if (min_label_len <=? size_bits lcp) || (key_bit_length <? u16 (size_bits lcp + 1)) then Err InvalidData else
  let! left_label := skip_first left_label (size_bits lcp) 0 in
  let! right_label := skip_first right_label (size_bits lcp) 0 in
  let! (left_bit, left_label) := load_bit left_label in
  let! wrong :=
    if left_bit : bool then Ok (true, right_label)
    else let! (right_bit, right_label) := load_bit right_label in Ok (negb right_bit, right_label) in
  if wrong.1 then Err InvalidData else
  let right_label := wrong.2 in
  let remaining_kbl := u16 (u16 (key_bit_length - 1) - size_bits lcp) in
  let! lft := make_leaf ctx left_label remaining_kbl (store_into left_slice) in
  let! rgt := make_leaf ctx right_label remaining_kbl (store_into right_slice) in
  let! new_root_builder := write_label lcp key_bit_length builder_new in
  let! new_root_builder := store_reference new_root_builder lft in
  let! new_root_builder := store_reference new_root_builder rgt in
  match comparator with
  | None => build_ext ctx new_root_builder
  | Some comparator =>
      let! left_slice := if size_bits left_label <? remaining_kbl then skip_first left_slice 0 2 else Ok left_slice in
      let! right_slice := if size_bits right_label <? remaining_kbl then skip_first right_slice 0 2 else Ok right_slice in
      let! new_root_builder := comparator left_slice right_slice new_root_builder ctx in
      build_ext ctx new_root_builder
  end.

Definition merge_siblings (lft rgt : option Cell) (key_bit_length : Z) (comparator : option AugDictFn) : result (option Cell) :=
  match lft, rgt with
  | None, None => Ok None
  | Some lft, None => Ok (Some lft)
  | None, Some rgt => Ok (Some rgt)
  | Some left_cell, Some right_cell =>
      let! c := dict_merge_sibling_roots key_bit_length left_cell right_cell comparator in Ok (Some c)
  end.

Definition dict_merge_siblings (lft rgt : option Cell) (key_bit_length : Z) : result (option Cell) :=
  merge_siblings lft rgt key_bit_length None.
Definition aug_dict_merge_siblings (lft rgt : option Cell) (key_bit_length : Z) (comparator : AugDictFn) : result (option Cell) :=
  merge_siblings lft rgt key_bit_length (Some comparator).
End Split.
