(* ===== verification/DictSplitSpec.v ===== *)
(** * DictSplitSpec: splits and merges are operations on maps

    A split by a prefix that all keys have gives the two halves of the map; the merge of
    dictionaries whose keys part at one bit gives their union, and is refused for all
    others. *)

From stdpp Require Import gmap.
From S2P Require Import Prelude Bits DataBuilder DataBuilderSpec CellMeta Cell Slice SliceSpec SliceScan SliceScanSpec Builder BuilderSpec Context DictLabel DictLabelSpec Dict DictSpec DictTheorems DictBuild DictStack DictModifyStep DictIter DictOrder DictIterSpec DictIterTheorems DictSplit.

(** The keys of one side of a fork *)
Definition half (P : list bool) (M : gmap (list bool) payload) : gmap (list bool) payload := filter (fun kv => P `prefix_of` kv.1) M.

Lemma half_lookup P M k v : half P M !! k = Some v <-> M !! k = Some v /\ P `prefix_of` k.
Proof. unfold half. rewrite map_lookup_filter_Some. done. Qed.

(** The label of a root is the longest common prefix of its keys. *)
Lemma common_prefix m t P :
  trie_ok m t -> (forall k v, tget t k = Some v -> P `prefix_of` k) <-> P `prefix_of` tlabel t.
Proof.
  intros Ht. split.
  - intros HP. destruct Ht as [m K v HK|m K l r Hl Hr]; simpl.
    + apply (HP K v). simpl. by rewrite bool_decide_true.
    + destruct (trie_inhabited _ _ Hl) as (x & vx & Ex). destruct (trie_inhabited _ _ Hr) as (y & vy & Ey).
      rewrite <- (tget_fork_child K l r false) in Ex. rewrite <- (tget_fork_child K l r true) in Ey.
      eapply prefix_of_fork; [by eapply HP|by eapply HP].
  - intros HP k v E. apply tget_prefix in E. by etrans.
Qed.

Section Spec.
Context {mach : Machine} (ctx : CellContext) {laws : ContextLaws ctx}.
Context (N Dv : Z) (HN : 0 <= N <= 1023)
  (Hcap : 2 + len_bits N + N <= MAX_BIT_LEN) (HDv : 0 <= Dv) (HD : Dv + N <= MAX_DEPTH) (canon : bool).

#[local] Abbreviation rep := (rep ctx N Dv canon).
#[local] Abbreviation dict_rep := (dict_rep ctx N Dv canon).

(** The key that [rebuild_branch] puts together. *)
Lemma branch_key_spec key_prefix (b : bool) lab :
  slice_wf key_prefix -> zlen (slice_references_cloned key_prefix) <= MAX_REF_COUNT -> slice_wf lab ->
  zlen (slice_bits key_prefix) + 1 + zlen (slice_bits lab) <= MAX_BIT_LEN ->
  exists kb, (let! key_builder := store_slice builder_new key_prefix in
      let! key_builder := on_data (fun d => store_bit d b) key_builder in
      on_data (fun d => store_slice_data uninit d lab) key_builder) = Ok kb /\
    wf (inner kb) /\ contents (inner kb) = slice_bits key_prefix ++ b :: slice_bits lab.
Proof.
  intros Wk Hrefs Wl Hz. rewrite store_slice_spec by (done || apply builder_new_wf).
  rewrite (append_bind _ _ ([b] ++ slice_bits lab, [])).
  - set (L := slice_bits key_prefix ++ [b] ++ slice_bits lab).
    assert (zlen L = zlen (slice_bits key_prefix) + 1 + zlen (slice_bits lab)) as HL by (unfold L; rewrite !zlen_app; change (zlen [b]) with 1; lia).
    rewrite append_full_new. cbn [fst snd]. fold L. rewrite app_nil_r, (proj2 (Z.leb_le _ _)), (proj2 (Z.leb_le _ _)) by lia. cbn [andb].
    eexists. split; [done|]. split; [apply of_bits_wf; lia | apply (contents_of_bits L); lia].
  - apply builder_new_wf.
  - intros c Hc. rewrite (on_data_append _ c [b]) by (done || by apply store_bit_spec, Hc).
    apply append_bits_bind; [done|]. intros d Hd. by apply on_data_slice.
Qed.

(** A branch with the prefix before its label *)
Lemma rebuild_branch_spec key_prefix P t (b : bool) s ch rest :
  slice_wf key_prefix -> slice_bits key_prefix = P -> zlen (slice_references_cloned key_prefix) <= MAX_REF_COUNT ->
  zlen P < N -> rep (N - zlen P - 1) ch t -> slice_wf s -> slice_references s = ch :: rest ->
  exists c, rebuild_branch ctx key_prefix N (N - zlen P - 1) b s = Ok (c, advance_ref s) /\ rep N c (shift (P ++ [b]) t).
Proof.
  intros Wk Bk Hrefs HP Hch Ws Rs. unfold rebuild_branch. rewrite load_reference_spec, Rs by done. cbn [rbind].
  destruct (rep_load _ _ _ _ _ _ _ Full Hch) as (_ & -> & En). cbn [rbind]. rewrite En. cbn [rbind].
  destruct (rep_read _ _ _ HN canon _ _ _ Hch) as (lab & sl & x & -> & Wl & Bl & Csl & Wsl & Bsl & Rsl & Rcl & Hrest). cbn [rbind].
  pose proof (rep_label_len _ _ _ _ _ _ _ Hch) as HK. pose proof (zlen_nonneg (tlabel t)). pose proof (zlen_nonneg P).
  destruct (branch_key_spec key_prefix b lab Wk Hrefs Wl) as (kb & Ekb & Wkb & Ckb); [rewrite Bk, Bl; unfold MAX_BIT_LEN; lia|].
  rewrite Bk, Bl in Ckb.
  destruct (store_slice builder_new key_prefix) as [kb1|]; [|done]. cbn [rbind] in *.
  destruct (on_data _ kb1) as [kb2|]; [|done]. cbn [rbind] in *. rewrite Ekb. cbn [rbind].
  destruct (as_data_slice_spec _ Wkb) as (Wks & Bks & _). rewrite Ckb in Bks. pose proof (zlen_slice_bits _ Wks) as Hz.
  rewrite Bks, zlen_app in Hz. assert (zlen (b :: tlabel t) = 1 + zlen (tlabel t)) as Hc by (unfold zlen; simpl; lia).
  destruct (make_leaf_relabel ctx N Dv HN Hcap HDv HD canon _ _ x N (as_data_slice (inner kb)) (store_into sl) Hrest Wks) as (c & Ec & Hr);
    [lia | lia | lia | apply stores_slice; split_and!; [done..|by eapply rep_plain] |].
  unfold make_leaf in Ec. destruct (write_label _ N _) as [wb|]; [|done]. cbn [rbind] in *.
  change (store_into sl ctx wb) with (store_slice wb sl) in Ec. destruct (store_slice wb sl) as [wb'|]; [|done]. cbn [rbind] in *.
  rewrite Ec. cbn [rbind]. exists c. split; [done|]. unfold shift. rewrite <- app_assoc. simpl. by rewrite <- Bks.
Qed.

(** One half of a map *)
Lemma half_rep n M t P c tp :
  (forall k, M !! k = tget t k) -> rep n c tp -> (forall k v, tget tp k = Some v <-> tget t k = Some v /\ P `prefix_of` k) -> dict_rep n (Some c) (half P M).
Proof. intros HM Hr Hk. exists tp. split; [done|]. intros k. apply option_eq. intros v. by rewrite half_lookup, HM, Hk. Qed.

(** The whole map on one side *)
Lemma side_rep n c M t P (b : bool) :
  rep n c t -> (forall k, M !! k = tget t k) -> P ++ [b] `prefix_of` tlabel t ->
  dict_rep n (on_side b (Some c)).1 (half (P ++ [false]) M) /\ dict_rep n (on_side b (Some c)).2 (half (P ++ [true]) M).
Proof.
  intros Hr HM HP.
  assert (dict_rep n (Some c) (half (P ++ [b]) M)) as Hb.
  { eapply half_rep; [done..|]. intros k v. split; [|by intros [? _]]. intros E. split; [done|]. apply tget_prefix in E. by etrans. }
  assert (half (P ++ [negb b]) M = ∅) as He.
  { apply map_eq. intros k. apply option_eq. intros v. rewrite half_lookup, lookup_empty, HM. split; [|done]. intros [E HP'].
    apply tget_prefix in E. assert (P ++ [b] `prefix_of` k) as HP2 by (by etrans).
    destruct b; simpl in *; [pose proof (parts_fork _ _ _ HP' HP2) as Hp | pose proof (parts_fork _ _ _ HP2 HP') as Hp]; by apply parts_irrefl in Hp. }
  destruct b; simpl in *; by rewrite He.
Qed.

Lemma tget_shift_child K l r (b : bool) k v :
  tget (shift (K ++ [b]) (if b then r else l)) k = Some v <-> tget (TFork K l r) k = Some v /\ K ++ [b] `prefix_of` k.
Proof.
  rewrite tget_shift. split.
  - intros (x & -> & E). rewrite <- app_assoc. simpl app. rewrite tget_fork_child. split; [done|]. exists x. by rewrite <- app_assoc.
  - intros [E [x ->]]. rewrite <- app_assoc in E. simpl app in E. rewrite tget_fork_child in E. by exists x.
Qed.

Lemma split_by_prefix_correct dict M key_prefix P :
  dict_rep N dict M -> 1 <= N -> slice_wf key_prefix -> slice_bits key_prefix = P -> zlen (slice_references_cloned key_prefix) <= MAX_REF_COUNT ->
  if bool_decide (M = ∅) || bool_decide (map_Forall (fun k _ => P `prefix_of` k) M) && (zlen P <? N)
  then exists lft rgt, dict_split_by_prefix ctx dict N key_prefix = Ok (lft, rgt) /\
    dict_rep N lft (half (P ++ [false]) M) /\ dict_rep N rgt (half (P ++ [true]) M)
  else dict_split_by_prefix ctx dict N key_prefix = Err CellUnderflow.
Proof.
  intros HM H1 Wk Bk Hrefs. unfold dict_split_by_prefix. destruct (Z.eqb_spec N 0); [lia|]. destruct dict as [c|]; cycle 1.
  { simpl in HM. subst. rewrite bool_decide_true by done. by exists None, None. }
  destruct HM as (t & Hr & HM). pose proof (rep_trie_ok _ _ _ _ _ _ _ Hr) as Hok.
  destruct (trie_inhabited _ _ Hok) as (k0 & v0 & Ek0).
  rewrite (bool_decide_false (M = ∅)) by (intros ->; by rewrite <- HM, lookup_empty in Ek0). cbn [orb].
  assert (map_Forall (fun k _ => P `prefix_of` k) M <-> P `prefix_of` tlabel t) as Hall.
  { rewrite <- (common_prefix _ _ P Hok). unfold map_Forall. by setoid_rewrite HM. }
  destruct (rep_load _ _ _ _ _ _ _ Full Hr) as (_ & -> & En). cbn [rbind]. rewrite En. cbn [rbind].
  destruct (rep_read _ _ _ HN canon _ _ _ Hr) as (lab & sl & x & -> & Wl & Bl & Ecell & Wsl & Bsl & Rs & Rsl & Hrest). cbn [rbind].
  pose proof (strip_data_prefix_spec lab key_prefix Wl Wk) as Hstrip. rewrite Bl, Bk in Hstrip. pose proof (zlen_nonneg P).
  pose proof (rep_label_len _ _ _ _ _ _ _ Hr) as HK.
  destruct (strip_data_prefix lab key_prefix) as [rk|]; cycle 1.
  { rewrite bool_decide_false by (by rewrite Hall). done. }
  destruct Hstrip as [Wr Er]. rewrite bool_decide_true by (rewrite Hall; by eexists). cbn [andb].
  rewrite is_data_empty_spec by done. destruct (slice_bits rk) as [|b u] eqn:Eb.
  - change (zlen (@nil bool) =? 0) with true. cbv iota. rewrite app_nil_r in Er. rewrite Er in HK.
    rewrite <- zlen_slice_bits, Bl, Er, u16_small by (done || lia). unfold checked_sub.
    destruct t as [K v|K l r]; cbn [tlabel] in Er; subst K; simpl in Hrest.
    + destruct Hrest as [Hz _]. destruct (Z.leb_spec (zlen P + 1) N); [lia|]. destruct (Z.ltb_spec (zlen P) N); [lia|done].
    + destruct (rest_of_plain _ _ _ _ _ _ _ _ _ Hrest) as (Hz & cl & cr & -> & Hl & Hrr). destruct (Z.leb_spec (zlen P + 1) N); [|lia]. destruct (Z.ltb_spec (zlen P) N); [|lia].
      simpl in Rs. replace (N - (zlen P + 1)) with (N - zlen P - 1) by lia.
      destruct (rebuild_branch_spec key_prefix P l false sl cl [cr] Wk Bk Hrefs Hz Hl Wsl Rs) as (c1 & -> & R1). cbn [rbind].
      destruct (advance_ref_wf sl Wsl) as (Ws2 & Rs2 & _).
      { pose proof (zlen_slice_references sl Wsl) as Hzr. rewrite Rs in Hzr. change (zlen [cl; cr]) with 2 in Hzr.
        unfold size_refs, Range.size_refs in Hzr. dlia. }
      rewrite Rs in Rs2. simpl in Rs2.
      destruct (rebuild_branch_spec key_prefix P r true (advance_ref sl) cr [] Wk Bk Hrefs Hz Hrr Ws2 Rs2) as (c2 & -> & R2). cbn [rbind].
      exists (Some c1), (Some c2). split; [done|].
      split; (eapply half_rep; [exact HM | eassumption |]); [apply (tget_shift_child P l r false) | apply (tget_shift_child P l r true)].
  - assert (zlen (b :: u) = 1 + zlen u) as Hzb by (unfold zlen; simpl; lia). pose proof (zlen_nonneg u).
    destruct (Z.eqb_spec (zlen (b :: u)) 0); [lia|]. rewrite Er, zlen_app in HK. destruct (Z.ltb_spec (zlen P) N); [|lia].
    rewrite get_bit_spec, Eb by (done || lia). change ((b :: u) !! Z.to_nat 0) with (Some b). cbn [rbind].
    eexists _, _. split; [by rewrite (surjective_pairing (on_side b (Some c)))|].
    apply (side_rep N c M t P b Hr HM). rewrite Er. exists u. by rewrite <- app_assoc.
Qed.

(** The keys of one side of the first bit, without it *)
Definition branch_of (b : bool) (M M' : gmap (list bool) payload) : Prop := forall k, M' !! k = M !! (b :: k).

Lemma split_raw_correct dict M :
  dict_rep N dict M -> 1 <= N ->
  exists res, dict_split_raw ctx dict N = Ok res /\
    (remaining_bit_len res = N /\ dict_rep N (left_branch res) (half [false] M) /\ dict_rep N (right_branch res) (half [true] M) \/
     remaining_bit_len res = N - 1 /\ exists Ml Mr, branch_of false M Ml /\ branch_of true M Mr /\ Ml <> ∅ /\ Mr <> ∅ /\
       dict_rep (N - 1) (left_branch res) Ml /\ dict_rep (N - 1) (right_branch res) Mr).
Proof.
  intros HM H1. unfold dict_split_raw. destruct (Z.eqb_spec N 0); [lia|]. destruct dict as [c|]; cycle 1.
  { simpl in HM. subst. eexists. split; [done|]. left. split; [done|]. by split. }
  destruct HM as (t & Hr & HM).
  destruct (rep_load _ _ _ _ _ _ _ Full Hr) as (_ & -> & En). cbn [rbind]. rewrite En. cbn [rbind].
  destruct (rep_read _ _ _ HN canon _ _ _ Hr) as (lab & sl & x & -> & Wl & Bl & Csl & Wsl & Bsl & Rsl & Rcl & Hrest). cbn [rbind].
  rewrite is_data_empty_spec, Bl by done. pose proof (rep_label_len _ _ _ _ _ _ _ Hr) as HK. destruct (tlabel t) as [|b u] eqn:Et.
  - change (zlen (@nil bool) =? 0) with true. cbv iota. unfold checked_sub. destruct (Z.leb_spec 1 N); [|lia].
    destruct t as [K v|K l r]; cbn [tlabel] in Et; subst K; simpl in Hrest; [destruct Hrest as [Hz _]; change (zlen (@nil bool)) with 0 in Hz; lia|].
    destruct (rest_of_plain _ _ _ _ _ _ _ _ _ Hrest) as (_ & cl & cr & -> & Hl & Hrr). change (zlen (@nil bool)) with 0 in *. rewrite Z.sub_0_r in *. simpl in Rcl.
    rewrite load_reference_cloned_spec, Rcl by done. cbn [rbind]. destruct (rep_load _ _ _ _ _ _ _ Full Hl) as (-> & _). cbn [rbind].
    destruct (advance_ref_wf sl Wsl) as (Ws2 & _ & Rs2 & _).
    { pose proof (zlen_slice_references_cloned sl Wsl) as Hzr. rewrite Rcl in Hzr. change (zlen [cl; cr]) with 2 in Hzr.
      unfold size_refs, Range.size_refs in Hzr. dlia. }
    rewrite load_reference_cloned_spec, Rs2, Rcl by done. cbn [tail rbind]. destruct (rep_load _ _ _ _ _ _ _ Full Hrr) as (-> & _). cbn [rbind].
    eexists. split; [done|]. right. split; [done|].
    assert (forall b : bool, exists M', branch_of b M M' /\ M' <> ∅ /\ forall k, M' !! k = tget (if b then r else l) k) as Hb.
    { intros b. assert (trie_ok (N - 1) (if b then r else l)) as Hok by (destruct b; by eapply rep_trie_ok).
      exists (list_to_map (entries false false (if b then r else l))).
      assert (forall k, (list_to_map (entries false false (if b then r else l)) : gmap (list bool) payload) !! k = tget (if b then r else l) k) as Hg.
      { intros k. apply option_eq. intros v. rewrite <- elem_of_list_to_map by (by eapply entries_nodup). by rewrite entries_elem. }
      split_and!; [| |done].
      - intros k. rewrite Hg, HM. simpl. by destruct b.
      - intros E. destruct (trie_inhabited _ _ Hok) as (k & v & Ek). by rewrite <- Hg, E, lookup_empty in Ek. }
    destruct (Hb false) as (Ml & ? & ? & ?), (Hb true) as (Mr & ? & ? & ?). exists Ml, Mr. split_and!; try done; simpl; [by exists l | by exists r].
  - assert (zlen (b :: u) = 1 + zlen u) as Hzb by (unfold zlen; simpl; lia). pose proof (zlen_nonneg u).
    destruct (Z.eqb_spec (zlen (b :: u)) 0); [lia|].
    rewrite get_bit_spec, Bl by (done || lia). change ((b :: u) !! Z.to_nat 0) with (Some b). cbn [rbind].
    destruct (side_rep N c M t [] b Hr HM) as [H0 H2]; [rewrite Et; by eexists|].
    destruct (on_side b (Some c)) as [lft rgt]. eexists. split; [done|]. left. by split_and!.
Qed.

(** ** Siblings *)

Definition siblings (M1 M2 : gmap (list bool) payload) : Prop :=
  exists P, map_Forall (fun k _ => P ++ [false] `prefix_of` k) M1 /\ map_Forall (fun k _ => P ++ [true] `prefix_of` k) M2.

Lemma siblings_labels (t1 t2 : trie) (M1 M2 : gmap (list bool) payload) :
  trie_ok N t1 -> trie_ok N t2 -> (forall k, M1 !! k = tget t1 k) -> (forall k, M2 !! k = tget t2 k) ->
  siblings M1 M2 <-> exists s, parts s (tlabel t1) (tlabel t2).
Proof.
  intros H1 H2 HM1 HM2. unfold siblings, map_Forall. setoid_rewrite HM1. setoid_rewrite HM2.
  setoid_rewrite (common_prefix _ _ _ H1). setoid_rewrite (common_prefix _ _ _ H2). split.
  - intros (P & HP1 & HP2). exists (zlen P). by apply parts_fork.
  - intros (s & P & x & y & Hz & -> & ->). exists P. split; eexists; rewrite <- app_assoc; reflexivity.
Qed.

Lemma lcp_shorter s1 s2 :
  slice_wf s1 -> slice_wf s2 ->
  (Z.min (size_bits s1) (size_bits s2) <=? size_bits (longest_common_data_prefix s1 s2)) =
  bool_decide (slice_bits s1 `prefix_of` slice_bits s2 \/ slice_bits s2 `prefix_of` slice_bits s1).
Proof.
  intros W1 W2. destruct (lcp_slice s1 s2 W1 W2) as (-> & _). rewrite <- !zlen_slice_bits by done.
  set (A := slice_bits s1). set (B := slice_bits s2). destruct (lcp_meets A B) as [r ->|P a b B2 A2 -> -> Hab|b A2 ->].
  - rewrite bool_decide_true by (left; by eexists). apply Z.leb_le. lia.
  - assert (zlen (P ++ b :: A2) > zlen P /\ zlen (P ++ a :: B2) > zlen P) as [? ?] by (unfold zlen; rewrite !length_app; simpl; lia).
    rewrite bool_decide_false; [apply Z.leb_gt; lia|]. intros [E|E]; apply prefix_app_inv, prefix_cons_inv_1 in E; congruence.
  - rewrite bool_decide_true by (right; by eexists). apply Z.leb_le. lia.
Qed.

Lemma sibling_roots_correct c1 c2 t1 t2 :
  rep N c1 t1 -> rep N c2 t2 -> 1 <= N ->
  (forall s, parts s (tlabel t1) (tlabel t2) ->
    exists c T, dict_merge_sibling_roots ctx N c1 c2 None = Ok c /\ rep N c T /\
      forall k v, tget T k = Some v <-> tget t1 k = Some v \/ tget t2 k = Some v) /\
  (~ (exists s, parts s (tlabel t1) (tlabel t2)) -> dict_merge_sibling_roots ctx N c1 c2 None = Err InvalidData).
Proof.
  intros R1 R2 H1. unfold dict_merge_sibling_roots.
  destruct (rep_load _ _ _ _ _ _ _ Full R1) as (_ & _ & ->). destruct (rep_load _ _ _ _ _ _ _ Full R2) as (_ & _ & En2). cbn [rbind].
  destruct (rep_read _ _ _ HN canon _ _ _ R1) as (lab1 & s1 & x1 & -> & Wl1 & Bl1 & Cs1 & Ws1 & Bs1 & Rs1 & Rc1 & Hrest1). cbn [rbind].
  rewrite En2. cbn [rbind].
  destruct (rep_read _ _ _ HN canon _ _ _ R2) as (lab2 & s2 & x2 & -> & Wl2 & Bl2 & Cs2 & Ws2 & Bs2 & Rs2 & Rc2 & Hrest2). cbn [rbind].
  rewrite (lcp_shorter lab1 lab2 Wl1 Wl2), Bl1, Bl2. rewrite <- !zlen_slice_bits, Bl1, Bl2 by done.
  destruct (lcp_slice lab1 lab2 Wl1 Wl2) as (El & Wlcp & Blcp). rewrite Bl1, Bl2 in El, Blcp. rewrite El.
  pose proof (rep_label_len _ _ _ _ _ _ _ R1) as HK1. pose proof (rep_label_len _ _ _ _ _ _ _ R2) as HK2.
  assert (forall s, parts s (tlabel t1) (tlabel t2) \/ parts s (tlabel t2) (tlabel t1) -> lcp_len (tlabel t1) (tlabel t2) = s) as Hlcp.
  { intros s [Hp|Hp]; [by apply parts_lcp|]. destruct Hp as (P & x & y & <- & -> & ->). clear.
    induction P as [|a P IH]; [done|]. simpl. rewrite eqb_reflx, IH. unfold zlen. simpl. lia. }
  split.
  - intros s Hp. rewrite (Hlcp s) by (by left). pose proof (parts_nonneg _ _ _ Hp) as (Hs0 & Hs1 & Hs2).
    destruct (Z.eqb_spec (Z.min (zlen (tlabel t1)) (zlen (tlabel t2))) 0); [lia|].
    rewrite bool_decide_false; cycle 1.
    { intros [H|H]; [by eapply parts_irrefl in H|]. pose proof (parts_prefix _ _ _ _ Hp H ltac:(done)). lia. }
    cbn [orb]. rewrite u16_small by lia. destruct (Z.ltb_spec N (s + 1)); [lia|].
    pose proof Hp as (P & y1 & y2 & Hz & E1 & E2).
    destruct (skip_key lab1 _ s Wl1 Bl1) as (l1 & -> & Wk1 & Bk1); [lia|]. destruct (skip_key lab2 _ s Wl2 Bl2) as (l2 & -> & Wk2 & Bk2); [lia|]. cbn [rbind].
    rewrite E1, drop_app_length' in Bk1 by (unfold zlen in Hz; lia). rewrite E2, drop_app_length' in Bk2 by (unfold zlen in Hz; lia).
    destruct (load_bit_front l1 false y1 Wk1 Bk1) as (m1 & -> & Mv1). cbn [rbind].
    destruct (load_bit_front l2 true y2 Wk2 Bk2) as (m2 & -> & Mv2). cbn [rbind negb fst snd].
    assert (zlen (tlabel t1) = s + 1 + zlen y1) as Hz1 by (rewrite E1, zlen_app; unfold zlen in *; simpl; lia).
    assert (zlen (tlabel t2) = s + 1 + zlen y2) as Hz2 by (rewrite E2, zlen_app; unfold zlen in *; simpl; lia).
    pose proof (zlen_nonneg y1). pose proof (zlen_nonneg y2).
    replace (u16 (u16 (N - 1) - s)) with (N - s - 1) by (rewrite (u16_small (N - 1)), u16_small; lia).
    assert (size_bits m1 = zlen y1) as Hm1 by (rewrite <- zlen_slice_bits, (mv_bits _ _ _ Mv1); [done | apply Mv1]).
    assert (size_bits m2 = zlen y2) as Hm2 by (rewrite <- zlen_slice_bits, (mv_bits _ _ _ Mv2); [done | apply Mv2]).
    destruct (make_leaf_relabel ctx N Dv HN Hcap HDv HD canon N t1 x1 (N - s - 1) m1 (store_into s1) Hrest1 (mv_wf _ _ _ Mv1)) as (cl & -> & Rl);
      [lia | lia | lia | apply stores_slice; split_and!; [done..|eapply rep_plain; [apply R1|done]] |]. cbn [rbind].
    destruct (make_leaf_relabel ctx N Dv HN Hcap HDv HD canon N t2 x2 (N - s - 1) m2 (store_into s2) Hrest2 (mv_wf _ _ _ Mv2)) as (cr & -> & Rr);
      [lia | lia | lia | apply stores_slice; split_and!; [done..|eapply rep_plain; [apply R2|done]] |]. cbn [rbind].
    rewrite (mv_bits _ _ _ Mv1) in Rl. rewrite (mv_bits _ _ _ Mv2) in Rr. rewrite (Hlcp s) in El, Blcp by (by left).
    destruct (make_fork_rep ctx N Dv HN Hcap HDv HD canon N (longest_common_data_prefix lab1 lab2) (set_label y1 t1) (set_label y2 t2) cl cr Wlcp)
      as (c & Ec & Rc); [lia | lia | by rewrite El | by rewrite El |].
    unfold make_leaf, store_two in Ec. destruct (write_label _ N _) as [wb|]; [|done]. cbn [rbind] in *.
    destruct (store_reference wb cl) as [wb1|]; [|done]. cbn [rbind] in *. destruct (store_reference wb1 cr) as [wb2|]; [|done]. cbn [rbind] in *.
    exists c. eexists. split; [exact Ec|]. split; [exact Rc|]. intros k v.
    assert (slice_bits (longest_common_data_prefix lab1 lab2) = P) as -> by (rewrite Blcp, E1, take_app_length'; [done | unfold zlen in Hz; lia]).
    destruct (tget_fork_parts s P (set_label y1 t1) (set_label y2 t2) t1 t2 k Hz) as [-> Hd].
    + rewrite E1. exists y1. by rewrite <- app_assoc.
    + rewrite E2. exists y2. by rewrite <- app_assoc.
    + unfold cut. by rewrite E1, (cons_middle false P y1), app_assoc, drop_app_length' by (rewrite length_app; unfold zlen in Hz; simpl; lia).
    + unfold cut. by rewrite E2, (cons_middle true P y2), app_assoc, drop_app_length' by (rewrite length_app; unfold zlen in Hz; simpl; lia).
    + destruct (tget t2 k) as [w|]; [rewrite Hd by eauto|]; naive_solver.
  - intros Hno. destruct (Z.eqb_spec (Z.min (zlen (tlabel t1)) (zlen (tlabel t2))) 0); [done|].
    case_bool_decide as Hpre; [done|]. cbn [orb]. destruct (N <? u16 _); [done|].
    destruct (parts_split (tlabel t1) (tlabel t2)) as [[s Hp]|[s Hp]]; [by intros ?; apply Hpre; left | by intros ?; apply Hpre; right | destruct Hno; by exists s |].
    rewrite (Hlcp s) by (by right). pose proof (parts_nonneg _ _ _ Hp) as (Hs0 & Hs1 & Hs2).
    pose proof Hp as (P & y1 & y2 & Hz & E1 & E2).
    destruct (skip_key lab1 _ s Wl1 Bl1) as (l1 & -> & Wk1 & Bk1); [lia|]. destruct (skip_key lab2 _ s Wl2 Bl2) as (l2 & -> & Wk2 & Bk2); [lia|]. cbn [rbind].
    rewrite E2, drop_app_length' in Bk1 by (unfold zlen in Hz; lia).
    destruct (load_bit_front l1 true y2 Wk1 Bk1) as (m1 & -> & Mv1). done.
Qed.

Lemma merge_siblings_correct d1 d2 M1 M2 :
  dict_rep N d1 M1 -> dict_rep N d2 M2 -> 1 <= N ->
  (M1 = ∅ \/ M2 = ∅ \/ siblings M1 M2 -> exists d, dict_merge_siblings ctx d1 d2 N = Ok d /\ dict_rep N d (M1 ∪ M2)) /\
  (M1 <> ∅ -> M2 <> ∅ -> ~ siblings M1 M2 -> dict_merge_siblings ctx d1 d2 N = Err InvalidData).
Proof.
  intros H1 H2 HN1. unfold dict_merge_siblings, merge_siblings. destruct d1 as [c1|], d2 as [c2|]; simpl in H1, H2.
  - destruct H1 as (t1 & R1 & E1), H2 as (t2 & R2 & E2).
    pose proof (rep_trie_ok _ _ _ _ _ _ _ R1) as O1. pose proof (rep_trie_ok _ _ _ _ _ _ _ R2) as O2.
    rewrite (siblings_labels t1 t2) by done. destruct (sibling_roots_correct c1 c2 t1 t2 R1 R2 HN1) as [Hok Herr]. split.
    + intros [->|[->|[s Hp]]].
      { destruct (trie_inhabited _ _ O1) as (k & v & E). by rewrite <- E1, lookup_empty in E. }
      { destruct (trie_inhabited _ _ O2) as (k & v & E). by rewrite <- E2, lookup_empty in E. }
      destruct (Hok s Hp) as (c & T & -> & Rc & HT). cbn [rbind]. exists (Some c). split; [done|]. exists T. split; [done|].
      intros k. apply option_eq. intros v. rewrite HT, lookup_union_Some_raw, E1, E2.
      assert (tget t1 k = None \/ tget t2 k = None) as Hdis.
      { destruct (tget t1 k) as [w1|] eqn:Ew1; [|by left]. right. destruct (tget t2 k) as [w2|] eqn:Ew2; [|done].
        apply tget_prefix in Ew1, Ew2. pose proof (parts_ext _ _ _ _ _ Hp Ew1 Ew2) as Hpp. by apply parts_irrefl in Hpp. }
      destruct Hdis as [->| ->]; naive_solver.
    + intros _ _ Hno. by rewrite (Herr Hno).
  - subst. split; [|done]. intros _. exists (Some c1). split; [done|]. by rewrite map_union_empty.
  - subst. split; [|done]. intros _. exists (Some c2). split; [done|]. by rewrite map_empty_union.
  - subst. split; [|done]. intros _. exists None. split; [done|]. by rewrite map_union_empty.
Qed.

(** ** Entry by entry *)

Lemma tget_vok m c t k v : rep m c t -> tget t k = Some v -> vok ctx N Dv v.
Proof.
  intros Hr. revert k. induction Hr as [m c K w lab|m c K l r lab cl cr y ? ? ? ? ? ? ? ? ? _ IHl _ IHr]; intros k E.
  - by apply tget_leaf_Some in E as [_ ->].
  - pose proof (tget_fork_Some _ _ _ _ _ E) as (b & z & ->). rewrite tget_fork_child in E. destruct b; [by eapply IHr | by eapply IHl].
Qed.

Definition insert_entries (M : gmap (list bool) payload) (L : list entry) : gmap (list bool) payload :=
  foldl (fun M e => <[e.1 := e.2]> M) M L.

Lemma merge_loop_spec c0 fuel it L lft M :
  iter_state ctx N Dv canon false false c0 it L -> Forall (fun e => zlen e.1 = N /\ vok ctx N Dv e.2) L -> dict_rep N lft M ->
  (length L < fuel)%nat ->
  exists d, merge_loop ctx fuel it lft = Some (Ok tt, d) /\ dict_rep N d (insert_entries M L).
Proof.
  revert it L lft M. induction fuel as [|fuel IH]; intros it L lft M Hst HF HM Hfuel; [lia|]. cbn [merge_loop].
  pose proof (raw_iter_next_spec ctx N Dv HN canon false false c0 it L Hst) as Hn. destruct L as [|[k v] L]; simpl in Hn.
  - destruct Hn as [Hn _]. destruct (raw_iter_next it) as [o it']. simpl in Hn. subst o. by exists lft.
  - destruct Hn as (s & it' & -> & Hv & Hst' & _). apply list.Forall_cons in HF as [[Hz Hvk] HF]. simpl in Hz, Hvk.
    destruct (key_slice_spec k ltac:(unfold MAX_BIT_LEN; lia)) as (Wk & Bk & Sk). unfold key_slice in *.
    change (DataBuilder.bit_len (of_bits k)) with (zlen k). rewrite Hz in *.
    destruct (dict_insert_correct ctx N Dv HN Hcap HDv HD canon _ Wk Sk (store_into s) v (stores_slice ctx s v Hv) Hvk lft M SetSet HM)
      as (d & -> & HM'). unfold insert_map in HM'. rewrite Bk in HM'.
    assert (dict_rep N d (<[k := v]> M)) as Hd by (by destruct (M !! k)). apply (IH it' L d (<[k := v]> M)); [done..|simpl in Hfuel; lia].
Qed.

Lemma insert_entries_lookup L M k :
  NoDup L.*1 -> insert_entries M L !! k = ((list_to_map L : gmap (list bool) payload) ∪ M) !! k.
Proof.
  revert M. induction L as [|[k' v] L IH]; intros M HL; simpl; [by rewrite map_empty_union|].
  apply list.NoDup_cons in HL as [Hk' HL]. unfold insert_entries in *. simpl. rewrite IH by done.
  apply option_eq. intros w. rewrite !lookup_union_Some_raw, !lookup_insert_Some, lookup_insert_None.
  assert ((list_to_map L : gmap (list bool) payload) !! k' = None) as Hn by (by apply not_elem_of_list_to_map).
  destruct (decide (k' = k)) as [<-|Hne]; [rewrite Hn|]; naive_solver.
Qed.

Lemma merge_correct c1 c2 M1 M2 fuel :
  dict_rep N (Some c1) M1 -> dict_rep N (Some c2) M2 -> (size M2 < fuel)%nat ->
  if negb (bit_len c1 =? bit_len c2) && negb (bit_len c1 =? N)
  then dict_merge ctx fuel (Some c1) (Some c2) N = Some (Err InvalidCell, Some c1)
  else exists d, dict_merge ctx fuel (Some c1) (Some c2) N = Some (Ok tt, d) /\ dict_rep N d (M2 ∪ M1).
Proof.
  intros H1 (t & R2 & E2) Hf. unfold dict_merge. destruct (_ && _); [done|].
  pose proof (rep_trie_ok _ _ _ _ _ _ _ R2) as Hok. pose proof (entries_of_map false false N t M2 Hok E2) as [_ HP].
  assert (length (entries false false t) = size M2) as Hlen by (rewrite HP; apply (length_map_to_list M2)).
  assert ((list_to_map (entries false false t) : gmap (list bool) payload) = M2) as Hmap.
  { apply map_eq. intros k. rewrite E2. apply option_eq. intros v. rewrite <- elem_of_list_to_map by (by eapply entries_nodup). by rewrite entries_elem. }
  destruct (merge_loop_spec c2 fuel (raw_iter_new_ext (Some c2) N false false) (entries false false t) (Some c1) M1) as (d & -> & Hd).
  - by apply iter_start.
  - apply list.Forall_forall. intros [k v] He%entries_elem. simpl. split; [by eapply tget_ok_len | by eapply tget_vok].
  - done.
  - lia.
  - exists d. split; [done|]. replace (M2 ∪ M1) with (insert_entries M1 (entries false false t)); [done|].
    apply map_eq. intros k. rewrite insert_entries_lookup by (by eapply entries_nodup). by rewrite Hmap.
Qed.
End Spec.
