(* ===== verification/DictBulkTheorems.v ===== *)
(** * DictBulkTheorems: whole dictionaries at once

    The claims about [src/src/dict/ops/build.rs], [modify.rs] and [split_merge.rs]: the
    bulk operations give the very cells that single insertions and removals give, a
    split is undone by the merge of its halves, and what the code refuses. *)

From stdpp Require Import gmap.
From S2P Require Import Prelude Bits DataBuilder DataBuilderSpec CellMeta Cell Slice SliceSpec SliceScan SliceScanSpec Builder BuilderSpec Context DictLabel DictLabelSpec Dict DictSpec DictTheorems DictKeys DictBuild DictModify DictStack DictModifyStep DictBuildSpec DictModifySpec DictModifyCorrect DictSplit DictSplitSpec.

#[local] Existing Instance sample_machine.

(** [C16] A dictionary built from sorted entries is, cell for cell, the one that inserting
    the entries one by one gives (the first value of a repeated key wins); entries that
    are out of order are refused. *)
Theorem build_matches_inserts ctx {laws : ContextLaws ctx} {K V} `{HKo : OrderedKey K} `{Store V} (pay : V -> payload) Dv (entries : list (K * V)) :
  2 + len_bits (KEY_BITS K) + KEY_BITS K <= MAX_BIT_LEN -> 0 <= Dv -> Dv + KEY_BITS K <= MAX_DEPTH ->
  Forall (entry_ok ctx pay Dv) entries ->
  if sorted_from None entries
  then exists root, build_dict_from_sorted_iter entries ctx = Ok root /\ add_all ctx None entries = Ok root /\
    dict_rep ctx (KEY_BITS K) Dv true (KEY_BITS K) root (first_wins pay entries)
  else build_dict_from_sorted_iter entries ctx = Err InvalidData.
Proof.
  intros Hcap HDv HD HF. pose proof (build_dict_correct ctx pay Dv Hcap HDv HD true entries HF) as Hb.
  destruct (sorted_from None entries); [|done]. destruct Hb as (root & E & Hr). exists root. split_and!; [done| |done].
  destruct (add_all_correct ctx pay Dv Hcap HDv HD true entries None ∅ HF ltac:(done)) as (root' & -> & Hr').
  f_equal. by eapply (dict_rep_unique _ _ _ _ _ _ ltac:(eassumption)).
Qed.


(** Splitting a dictionary by a prefix of all its keys gives its two halves; every
    other prefix is refused. *)
Theorem split_gives_halves ctx {laws : ContextLaws ctx} n Dv canon dict M key_prefix :
  0 <= n <= 1023 -> 2 + len_bits n + n <= MAX_BIT_LEN -> 0 <= Dv -> Dv + n <= MAX_DEPTH -> 1 <= n ->
  dict_rep ctx n Dv canon n dict M -> slice_wf key_prefix -> zlen (slice_references_cloned key_prefix) <= MAX_REF_COUNT ->
  let P := slice_bits key_prefix in
  if bool_decide (M = ∅) || bool_decide (map_Forall (fun k _ => P `prefix_of` k) M) && (zlen P <? n)
  then exists lft rgt, dict_split_by_prefix ctx dict n key_prefix = Ok (lft, rgt) /\
    dict_rep ctx n Dv canon n lft (half (P ++ [false]) M) /\ dict_rep ctx n Dv canon n rgt (half (P ++ [true]) M)
  else dict_split_by_prefix ctx dict n key_prefix = Err CellUnderflow.
Proof.
  intros Hn Hcap HDv HD H1 HM Wk Hrefs P. exact (split_by_prefix_correct ctx n Dv Hn Hcap HDv HD canon dict M key_prefix P HM H1 Wk eq_refl Hrefs).
Qed.

(** Two dictionaries whose keys part at one bit are merged to their union; others
    that have entries are refused. *)
Theorem merge_siblings_unites ctx {laws : ContextLaws ctx} n Dv canon d1 d2 M1 M2 :
  0 <= n <= 1023 -> 2 + len_bits n + n <= MAX_BIT_LEN -> 0 <= Dv -> Dv + n <= MAX_DEPTH -> 1 <= n ->
  dict_rep ctx n Dv canon n d1 M1 -> dict_rep ctx n Dv canon n d2 M2 ->
  (M1 = ∅ \/ M2 = ∅ \/ siblings M1 M2 ->
    exists d, dict_merge_siblings ctx d1 d2 n = Ok d /\ dict_rep ctx n Dv canon n d (M1 ∪ M2)) /\
  (M1 <> ∅ -> M2 <> ∅ -> ~ siblings M1 M2 -> dict_merge_siblings ctx d1 d2 n = Err InvalidData).
Proof. intros Hn Hcap HDv HD H1 HM1 HM2. exact (merge_siblings_correct ctx n Dv Hn Hcap HDv HD canon d1 d2 M1 M2 HM1 HM2 H1). Qed.

(** [C18] Merging the halves of a split gives back the same root cell. *)
Theorem split_merge_roundtrip ctx {laws : ContextLaws ctx} n Dv dict M key_prefix lft rgt :
  0 <= n <= 1023 -> 2 + len_bits n + n <= MAX_BIT_LEN -> 0 <= Dv -> Dv + n <= MAX_DEPTH -> 1 <= n ->
  dict_rep ctx n Dv true n dict M -> slice_wf key_prefix -> zlen (slice_references_cloned key_prefix) <= MAX_REF_COUNT ->
  dict_split_by_prefix ctx dict n key_prefix = Ok (lft, rgt) ->
  dict_merge_siblings ctx lft rgt n = Ok dict.
Proof.
  intros Hn Hcap HDv HD H1 HM Wk Hrefs E.
  pose proof (split_by_prefix_correct ctx n Dv Hn Hcap HDv HD true dict M key_prefix _ HM H1 Wk eq_refl Hrefs) as Hs.
  set (P := slice_bits key_prefix) in *. destruct (bool_decide (M = ∅) || _) eqn:Ec; [|congruence].
  destruct Hs as (l & r & E' & Hl & Hr). rewrite E in E'. injection E' as -> ->.
  assert (half (P ++ [false]) M ∪ half (P ++ [true]) M = M) as Hun.
  { apply map_eq. intros k. apply option_eq. intros v. rewrite lookup_union_Some_raw, !half_lookup. split; [naive_solver|]. intros Ek.
    destruct (decide (P ++ [false] `prefix_of` k)) as [H0|H0]; [by left|]. right. split.
    - destruct (half (P ++ [false]) M !! k) eqn:Eh; [|done]. apply half_lookup in Eh. naive_solver.
    - split; [done|]. apply orb_true_iff in Ec as [Ec|Ec].
      + apply bool_decide_eq_true in Ec. subst. by rewrite lookup_empty in Ek.
      + apply andb_true_iff in Ec as [Ha%bool_decide_eq_true Hz%Z.ltb_lt]. destruct (Ha k v Ek) as [[|b u] ->].
        * assert (zlen (P ++ []) = n) as Hk; [|rewrite app_nil_r in Hk; lia].
          destruct dict as [c|]; [|simpl in HM; subst; by rewrite lookup_empty in Ek]. destruct HM as (t & Ht & HM). rewrite HM in Ek.
          by eapply tget_len.
        * destruct b; [exists u; by rewrite <- app_assoc|]. destruct H0. exists u. by rewrite <- app_assoc. }
  destruct (merge_siblings_correct ctx n Dv Hn Hcap HDv HD true l r _ _ Hl Hr H1) as [Hm _].
  destruct Hm as (d & -> & Hd).
  { right. right. exists P. split; intros k v [_ ?]%half_lookup; done. }
  rewrite Hun in Hd. f_equal. by eapply (dict_rep_unique _ _ _ _ _ _ ltac:(eassumption)).
Qed.

(** ** The claims at concrete inputs *)

Lemma codec_stores ctx {V} `{Codec V} (v : V) : enc_ok v -> stores ctx (store_into v) (enc v).
Proof. intros Hv b Hb. by apply store_enc. Qed.

#[local] Instance Width_8 : Width 8. Proof. by left. Qed.

Definition u8_entries : list (uN 8 * uN 8) := [(mkU 8 1, mkU 8 10); (mkU 8 3, mkU 8 20); (mkU 8 3, mkU 8 30); (mkU 8 200, mkU 8 40)].

Lemma u8_value_ok (v : uN 8) : 0 <= uval v < 256 -> stores sample_ctx (store_into v) (enc v) /\ vok sample_ctx 8 100 (enc v).
Proof.
  intros Hv. split; [by apply codec_stores|]. split_and!; simpl; [|done|constructor..].
  rewrite zlen_uint_bits by lia. unfold MAX_BIT_LEN. vm_compute. done.
Qed.

Lemma u8_entries_ok : Forall (entry_ok (K := uN 8) sample_ctx enc 100) u8_entries.
Proof. repeat apply list.Forall_cons_2; [split; [simpl; lia | apply u8_value_ok; simpl; lia]..|constructor]. Qed.

Lemma build_matches_inserts_witness :
  exists root, build_dict_from_sorted_iter u8_entries sample_ctx = Ok root /\ add_all sample_ctx None u8_entries = Ok root /\
    dict_rep sample_ctx 8 100 true 8 root (first_wins enc u8_entries).
Proof.
  assert (2 + len_bits (KEY_BITS (uN 8)) + KEY_BITS (uN 8) <= MAX_BIT_LEN) as Hcap by by vm_compute.
  pose proof (build_matches_inserts (K := uN 8) sample_ctx enc 100 u8_entries Hcap ltac:(done) ltac:(done) u8_entries_ok) as Hb.
  assert (sorted_from None u8_entries = true) as Es by done. rewrite Es in Hb. exact Hb.
Defined.

Definition u8_root : option Cell := match build_dict_from_sorted_iter u8_entries sample_ctx with Ok d => d | Err _ => None end.
Definition u8_map : gmap (list bool) payload := first_wins enc u8_entries.

Lemma u8_root_rep canon : dict_rep sample_ctx 8 100 canon 8 u8_root u8_map.
Proof.
  assert (2 + len_bits (KEY_BITS (uN 8)) + KEY_BITS (uN 8) <= MAX_BIT_LEN) as Hcap by by vm_compute.
  pose proof (build_dict_correct (K := uN 8) sample_ctx enc 100 Hcap ltac:(done) ltac:(done) canon u8_entries u8_entries_ok) as Hb.
  assert (sorted_from None u8_entries = true) as Es by done. rewrite Es in Hb. destruct Hb as (root & E & Hr). unfold u8_root. by rewrite E.
Qed.

(** Changes before, inside and behind the keys of a dictionary *)
Definition u8_changes : list (uN 8 * option (uN 8)) :=
  [(mkU 8 0, Some (mkU 8 9)); (mkU 8 1, None); (mkU 8 2, None); (mkU 8 3, Some (mkU 8 7)); (mkU 8 255, Some (mkU 8 5))].

Lemma u8_changes_ok : Forall (change_ok (K := uN 8) sample_ctx enc 100 fst (fun e => Ok e.2) snd) u8_changes.
Proof.
  repeat apply list.Forall_cons_2; [split; [simpl; lia|]; (split; [done|]); simpl; try apply u8_value_ok; simpl; done || lia..|constructor].
Qed.


(** The halves behind the empty prefix *)
Definition u8_halves : option Cell * option Cell :=
  match dict_split_by_prefix sample_ctx u8_root 8 (key_slice []) with Ok r => r | Err _ => (None, None) end.

Lemma u8_prefixed : bool_decide (u8_map = ∅) || bool_decide (map_Forall (fun k _ => slice_bits (key_slice []) `prefix_of` k) u8_map) && (zlen (slice_bits (key_slice [])) <? 8) = true.
Proof. rewrite (bool_decide_true (map_Forall _ _)); [apply orb_true_r | intros k v _; apply prefix_nil]. Qed.

Lemma u8_halves_rep :
  dict_split_by_prefix sample_ctx u8_root 8 (key_slice []) = Ok u8_halves /\
  dict_rep sample_ctx 8 100 true 8 u8_halves.1 (half [false] u8_map) /\ dict_rep sample_ctx 8 100 true 8 u8_halves.2 (half [true] u8_map).
Proof.
  destruct (key_slice_spec []) as (W & B & _); [done|].
  pose proof (split_by_prefix_correct sample_ctx 8 100 ltac:(done) ltac:(done) ltac:(done) ltac:(done) true u8_root u8_map (key_slice []) [] (u8_root_rep true) ltac:(done) W B ltac:(done)) as Hs.
  pose proof u8_prefixed as E. rewrite B in E. rewrite E in Hs. destruct Hs as (l & r & Es & Hl & Hr). unfold u8_halves. rewrite Es. split; [reflexivity|]. exact (conj Hl Hr).
Qed.

Lemma split_gives_halves_witness :
  exists lft rgt, dict_split_by_prefix sample_ctx u8_root 8 (key_slice []) = Ok (lft, rgt) /\
    dict_rep sample_ctx 8 100 true 8 lft (half [false] u8_map) /\ dict_rep sample_ctx 8 100 true 8 rgt (half [true] u8_map).
Proof.
  destruct (key_slice_spec []) as (W & B & _); [done|].
  pose proof (split_gives_halves sample_ctx 8 100 true u8_root u8_map (key_slice []) ltac:(done) ltac:(done) ltac:(done) ltac:(done) ltac:(done)
    (u8_root_rep true) W ltac:(done)) as Hs.
  cbv zeta in Hs. rewrite u8_prefixed in Hs. rewrite B in Hs. exact Hs.
Defined.

Lemma merge_siblings_unites_witness :
  exists d, dict_merge_siblings sample_ctx u8_halves.1 u8_halves.2 8 = Ok d /\
    dict_rep sample_ctx 8 100 true 8 d (half [false] u8_map ∪ half [true] u8_map).
Proof.
  apply (merge_siblings_unites sample_ctx 8 100 true u8_halves.1 u8_halves.2 (half [false] u8_map) (half [true] u8_map)
    ltac:(done) ltac:(done) ltac:(done) ltac:(done) ltac:(done) (proj1 (proj2 u8_halves_rep)) (proj2 (proj2 u8_halves_rep))).
  right. right. exists []. split; intros k v [_ ?]%half_lookup; done.
Defined.

Lemma split_merge_roundtrip_witness : dict_merge_siblings sample_ctx u8_halves.1 u8_halves.2 8 = Ok u8_root.
Proof.
  destruct (key_slice_spec []) as (W & B & _); [done|].
  apply (split_merge_roundtrip sample_ctx 8 100 u8_root u8_map (key_slice []) u8_halves.1 u8_halves.2 ltac:(done) ltac:(done) ltac:(done) ltac:(done)
    ltac:(done) (u8_root_rep true) W ltac:(done)). rewrite (proj1 u8_halves_rep). by destruct u8_halves.
Defined.

(** ** Entry by entry, and three divergences *)


Definition u8_cell : Cell := match u8_root with Some c => c | None => EmptyOrdinaryCell end.

Lemma u8_cell_rep : dict_rep sample_ctx 8 100 true 8 (Some u8_cell) u8_map.
Proof.
  assert (u8_root = Some u8_cell) as <- by (by vm_compute). apply u8_root_rep.
Qed.

Lemma u8_map_size : (size u8_map < 5)%nat.
Proof. apply Nat.ltb_lt. by vm_compute. Qed.


(** Two ordinary dictionaries with 8-bit keys that are refused. *)
Definition leaf_of (k : Z) (v : payload) : option Cell :=
  match dict_insert sample_ctx None (key_slice (key8 k)) 8 (value_store v) SetSet with Ok (_, d) => d | Err _ => None end.

Lemma dict_merge_refuses_dictionaries : dict_merge sample_ctx 5 (leaf_of 5 v1) (leaf_of 7 v2) 8 = Some (Err InvalidCell, leaf_of 5 v1).
Proof. by vm_compute. Qed.

(** What a dictionary has at a key *)
Definition read_at (r : result (option Cell)) (k : Z) : result (option payload) :=
  let! d := r in
  let! v := dict_get sample_ctx d 8 (key_slice (key8 k)) in Ok (read_slice <$> v).

(** Signed keys are sorted by value, and the tree by bits: the entry of the key -1 is
    found under 127, and not under its own bits. *)
Definition i8_built : result (option Cell) :=
  build_dict_from_sorted_iter [(mkI 8 (-1), mkU 8 10); (mkI 8 0, mkU 8 20)] sample_ctx.

Lemma signed_keys_misplaced :
  read_at i8_built 255 = Ok None /\ read_at i8_built 127 = Ok (Some (enc (mkU 8 10))).
Proof. split; by vm_compute. Qed.

(** A removal and then an insertion at the same key: the second is skipped as a duplicate,
    except on an empty dictionary, where the removals are dropped first. *)
Definition twice (dict : option Cell) : result (option Cell) :=
  let! (_, d) := dict_modify_from_sorted_iter (fun a b => bool_decide (a = b)) dict
    [(mkU 8 5, None); (mkU 8 5, Some (mkU 8 9))] fst (fun e => Ok e.2) sample_ctx in Ok d.

Lemma duplicates_depend_on_dictionary :
  read_at (twice None) 5 = Ok (Some (enc (mkU 8 9))) /\ read_at (twice u8_root) 5 = Ok None.
Proof. split; by vm_compute. Qed.
