(* ===== verification/Num.v ===== *)
(** * Num: integers of the blockchain models ([src/src/num/mod.rs])

    The two macros [impl_var_uints] and [impl_small_uints] define the same operations
    over an inner primitive type and a greatest value: [Bounded w bits] is an integer
    kept in [w] bits whose values have [bits] bits.  The operators of [impl_ops] are
    those of the inner type, with overflow checks off; a division that panics is
    [None]. *)

From S2P Require Import Prelude Bits DataBuilder CellMeta Cell Slice Builder DictKeys.

Record Bounded (w bits : Z) := mkBounded { raw : Z }.
Arguments mkBounded w bits raw : clear implicits.
Arguments raw {w bits} _.

(** The inner type has a value for every [w]-bit integer, valid or not. *)
Abbreviation VarUint24 := (Bounded 32 24).
Abbreviation VarUint56 := (Bounded 64 56).
Abbreviation Tokens := (Bounded 128 120).
Abbreviation Uint9 := (Bounded 16 9).
Abbreviation Uint12 := (Bounded 16 12).
Abbreviation Uint15 := (Bounded 16 15).

(** ** Operations of the primitive types *)
Definition uint_checked_add (w a b : Z) : option Z := if a + b <? 2 ^ w then Some (a + b) else None.
Definition uint_checked_mul (w a b : Z) : option Z := if a * b <? 2 ^ w then Some (a * b) else None.
Definition uint_checked_div (a b : Z) : option Z := if b =? 0 then None else Some (a / b).
(** The number of bytes without leading zeros, as [bit_len] and [store_into] compute it *)
Definition byte_count (w x : Z) : Z := u8 (w / 8 - leading_zeros w x / 8).

Module Bounded.
Section Impl.
Context {w bits : Z}.
Implicit Types a b : Bounded w bits.

Definition new (value : Z) : Bounded w bits := mkBounded w bits value.
Definition into_inner a : Z := raw a.
Definition ZERO : Bounded w bits := new 0.
Definition ONE : Bounded w bits := new 1.
Definition MIN : Bounded w bits := new 0.
Definition MAX : Bounded w bits := new (wrap w (Z.shiftl 1 bits) - 1).

Definition is_zero a : bool := raw a =? 0.
Definition is_valid a : bool := raw a <=? raw MAX.

Definition saturating_add a b : Bounded w bits :=
  match uint_checked_add w (raw a) (raw b) with
  | Some value => if value <=? raw MAX then new value else MAX
  | None => MAX
  end.
Definition saturating_sub a b : Bounded w bits :=
  match checked_sub (raw a) (raw b) with
  | Some value => if value <=? raw MAX then new value else MAX
  | None => ZERO
  end.
Definition saturating_mul a b : Bounded w bits :=
  match uint_checked_mul w (raw a) (raw b) with
  | Some value => if value <=? raw MAX then new value else MAX
  | None => MAX
  end.

Definition in_range (value : option Z) : option (Bounded w bits) :=
  match value with
  | Some value => if value <=? raw MAX then Some (new value) else None
  | None => None
  end.
Definition checked_add a b : option (Bounded w bits) := in_range (uint_checked_add w (raw a) (raw b)).
Definition checked_sub a b : option (Bounded w bits) := in_range (Prelude.checked_sub (raw a) (raw b)).
Definition checked_mul a b : option (Bounded w bits) := in_range (uint_checked_mul w (raw a) (raw b)).
Definition checked_div a b : option (Bounded w bits) := in_range (uint_checked_div (raw a) (raw b)).

(** The result and the value after the call; on an error the value is kept. *)
Definition try_assign (self : Bounded w bits) (r : option (Bounded w bits)) : result unit * Bounded w bits :=
  match r with
  | Some new_value => (Ok tt, new_value)
  | None => (Err IntOverflow, self)
  end.
Definition try_add_assign a b := try_assign a (checked_add a b).
Definition try_sub_assign a b := try_assign a (checked_sub a b).
Definition try_mul_assign a b := try_assign a (checked_mul a b).
Definition try_div_assign a b := try_assign a (checked_div a b).

(** [TryFrom] of the inner type: [None] is [ParseIntError::Overflow]. *)
Definition try_from (value : Z) : option (Bounded w bits) :=
  let result := new value in if is_valid result then Some result else None.

(** The operators of [impl_ops] *)
Definition add a b : Bounded w bits := new (wrap w (raw a + raw b)).
Definition sub a b : Bounded w bits := new (wrap w (raw a - raw b)).
Definition mul a b : Bounded w bits := new (wrap w (raw a * raw b)).
Definition div a b : option (Bounded w bits) := new <$> uint_checked_div (raw a) (raw b).
Definition shr a (rhs : Z) : Bounded w bits := new (Z.shiftr (raw a) (rhs mod w)).
Definition shl a (rhs : Z) : Bounded w bits := new (wrap w (Z.shiftl (raw a) (rhs mod w))).

(** ** The types of variable length *)
Definition VALUE_BITS : Z := bits.
Definition LEN_BITS : Z := 8 - leading_zeros 8 (bits / 8).
Definition MAX_BITS : Z := LEN_BITS + VALUE_BITS.

Definition bit_len a : option Z :=
  let bytes := byte_count w (raw a) in
  if bits / 8 <? bytes then None else Some (LEN_BITS + bytes * 8).
Definition unwrap_bit_len a : Z :=
  let bytes := byte_count w (raw a) in
  if bits / 8 <? bytes then MAX_BITS else LEN_BITS + bytes * 8.
Definition var_exact_size a : Size := mkSize (default 0 (bit_len a)) 0.
End Impl.
End Bounded.
Arguments Bounded.LEN_BITS bits : clear implicits.

(** ** Helpers of the wide types *)
Definition store_u128 (b : CellBuilder) (value bits : Z) : result CellBuilder :=
  let store_low b bits := on_data (fun d => store_uint d (u64 value) bits) b in
  match checked_sub bits 64 with
  | Some high_bits =>
      let! b := on_data (fun d => store_uint d (u64 (Z.shiftr value 64)) high_bits) b in
      store_low b (u16 (bits - high_bits))
  | None => store_low b bits
  end.

Definition load_u128 (slice : CellSlice) (bytes : Z) : result (Z * CellSlice) :=
  match checked_sub bytes 8 with
  | Some high_bytes =>
      if 0 <? high_bytes then
        let! (high, slice) := load_uint slice (high_bytes * 8) in
        let result := u128 (Z.shiftl high 64) in
        let! (value, slice) := load_uint slice ((bytes - high_bytes) * 8) in
        Ok (Z.lor result value, slice)
      else
        let! (value, slice) := load_uint slice (bytes * 8) in Ok (Z.lor 0 value, slice)
  | None => let! (value, slice) := load_uint slice (bytes * 8) in Ok (Z.lor 0 value, slice)
  end.

(** ** Store and Load *)
#[global] Instance Store_VarUint24 : Store VarUint24 := fun v _ builder =>
  let bytes := u8 (4 - leading_zeros 32 (raw v) / 8) in
  let bits := bytes * 8 in
  if (3 <? bytes) || negb (has_capacity builder (u16 (Bounded.LEN_BITS 24 + bits)) 0) then Err CellOverflow else
  let! builder := on_data (fun d => store_small_uint d bytes (Bounded.LEN_BITS 24)) builder in
  on_data (fun d => store_uint d (raw v) bits) builder.
#[global] Instance Load_VarUint24 : Load VarUint24 := fun slice =>
  let! (bytes, slice) := load_small_uint slice (Bounded.LEN_BITS 24) in
  let! (value, slice) := load_uint slice (bytes * 8) in
  Ok (mkBounded 32 24 (u32 value), slice).

#[global] Instance Store_VarUint56 : Store VarUint56 := fun v _ builder =>
  let bytes := u8 (8 - leading_zeros 64 (raw v) / 8) in
  let bits := bytes * 8 in
  if (7 <? bytes) || negb (has_capacity builder (u16 (Bounded.LEN_BITS 56 + bits)) 0) then Err CellOverflow else
  let! builder := on_data (fun d => store_small_uint d bytes (Bounded.LEN_BITS 56)) builder in
  on_data (fun d => store_uint d (raw v) bits) builder.
#[global] Instance Load_VarUint56 : Load VarUint56 := fun slice =>
  let! (bytes, slice) := load_small_uint slice (Bounded.LEN_BITS 56) in
  let! (value, slice) := load_uint slice (bytes * 8) in
  Ok (mkBounded 64 56 value, slice).

#[global] Instance Store_Tokens : Store Tokens := fun v _ builder =>
  let bytes := u8 (16 - leading_zeros 128 (raw v) / 8) in
  let bits := bytes * 8 in
  if (15 <? bytes) || negb (has_capacity builder (u16 (Bounded.LEN_BITS 120 + bits)) 0) then Err CellOverflow else
  let! builder := on_data (fun d => store_small_uint d bytes (Bounded.LEN_BITS 120)) builder in
  store_u128 builder (raw v) bits.
#[global] Instance Load_Tokens : Load Tokens := fun slice =>
  let! (bytes, slice) := load_small_uint slice (Bounded.LEN_BITS 120) in
  let! (value, slice) := load_u128 slice bytes in
  Ok (mkBounded 128 120 value, slice).

#[global] Instance ExactSize_VarUint24 : ExactSize VarUint24 := Bounded.var_exact_size.
#[global] Instance ExactSize_VarUint56 : ExactSize VarUint56 := Bounded.var_exact_size.
#[global] Instance ExactSize_Tokens : ExactSize Tokens := Bounded.var_exact_size.

(** The small integers, of 9, 12 and 15 bits *)
#[global] Instance Store_small n : Store (Bounded 16 n) := fun v _ builder =>
  if negb (Bounded.is_valid v) then Err IntOverflow
  else on_data (fun d => store_uint d (raw v) n) builder.
#[global] Instance Load_small n : Load (Bounded 16 n) := fun slice =>
  let! (value, slice) := load_uint slice n in
  Ok (mkBounded 16 n (u16 value), slice).
#[global] Instance ExactSize_small n : ExactSize (Bounded 16 n) := fun _ => mkSize n 0.

#[global] Instance DictKey_small n : DictKey (Bounded 16 n) := n.
#[global] Instance StoreDictKey_small n : StoreDictKey (Bounded 16 n) := fun v builder =>
  if negb (Bounded.is_valid v) then Err IntOverflow
  else store_uint builder (raw v) n.
#[global] Instance LoadDictKey_small n : LoadDictKey (Bounded 16 n) := fun d =>
  Some (mkBounded 16 n (Z.shiftr (from_be_bytes (sub_bytes (DataBuilder.data d) 0 2)) (16 - n))).
#[global] Instance KeyOrd_bounded w bits : KeyOrd (Bounded w bits) := fun a b => raw a ?= raw b.

(** ** [SplitDepth]: a non-zero byte *)
Record SplitDepth := mkDepth { depth_inner : Z }.

Module SplitDepth.
Definition MIN : SplitDepth := mkDepth 1.
Definition MAX : SplitDepth := mkDepth 30.
Definition BITS : Z := 5.

Definition new (value : Z) : result SplitDepth := if value =? 0 then Err IntOverflow else Ok (mkDepth value).
Definition from_bit_len (bit_len : Z) : result SplitDepth :=
  if bit_len <? 255 then new (u8 bit_len) else Err IntOverflow.
Definition into_bit_len (d : SplitDepth) : Z := depth_inner d.
End SplitDepth.

#[global] Instance ExactSize_SplitDepth : ExactSize SplitDepth := fun _ => mkSize SplitDepth.BITS 0.
#[global] Instance Store_SplitDepth : Store SplitDepth := fun v _ builder =>
  on_data (fun d => store_small_uint d (depth_inner v) SplitDepth.BITS) builder.
#[global] Instance Load_SplitDepth : Load SplitDepth := fun slice =>
  let! (value, slice) := load_small_uint slice SplitDepth.BITS in
  let! d := SplitDepth.new value in
  Ok (d, slice).
