(* ===== verification/NumSpec.v ===== *)
(** * NumSpec: the integers of [Num]

    A value of a type of variable length is its number of bytes and then the bytes; the
    stores append that encoding and the loads read it ([Codec]).  The checked and the
    saturating operations are the operations of integers where the result is in range. *)

From S2P Require Import Prelude Bits DataBuilder DataBuilderSpec CellMeta Cell Slice SliceSpec Builder BuilderSpec DictLabelSpec DictKeys DictOrder Num.

(** ** Numbers of bytes *)

(** The least number of bytes that hold [x] *)
Definition bytes_needed (x : Z) : Z := if x =? 0 then 0 else Z.log2 x / 8 + 1.

Lemma bytes_needed_spec x n : 0 <= x -> 0 <= n -> bytes_needed x <= n <-> x < 2 ^ (8 * n).
Proof.
  intros Hx Hn. unfold bytes_needed. destruct (Z.eqb_spec x 0) as [->|].
  { pose proof (Z.pow_pos_nonneg 2 (8 * n) ltac:(lia) ltac:(lia)). lia. }
  rewrite Z.log2_lt_pow2 by lia. pose proof (Z.log2_nonneg x). lia.
Qed.

Lemma bytes_needed_nonneg x : 0 <= x -> 0 <= bytes_needed x.
Proof. intros. unfold bytes_needed. pose proof (Z.log2_nonneg x). destruct (x =? 0); lia. Qed.

Lemma bytes_needed_fits x : 0 <= x -> x < 2 ^ (8 * bytes_needed x).
Proof. intros. apply bytes_needed_spec; [done | by apply bytes_needed_nonneg | lia]. Qed.

Lemma leading_zeros_bytes k x : 0 <= x < 2 ^ (8 * k) -> 0 <= k <= 32 -> u8 (k - leading_zeros (8 * k) x / 8) = bytes_needed x.
Proof.
  intros Hx Hk. pose proof (proj2 (bytes_needed_spec x k ltac:(lia) ltac:(lia)) ltac:(lia)) as Hle.
  pose proof (bytes_needed_nonneg x ltac:(lia)) as Hnn. unfold bytes_needed, leading_zeros in *. destruct (Z.eqb_spec x 0).
  - rewrite u8_small; lia.
  - rewrite u8_small by lia. lia.
Qed.

(** ** The encoding of variable length *)
Definition var_enc (len_bits x : Z) : list bool :=
  uint_bits len_bits (bytes_needed x) ++ uint_bits (8 * bytes_needed x) x.

Lemma uint_bits_split n m x : 0 <= n -> 0 <= m -> uint_bits (n + m) x = uint_bits n (Z.shiftr x m) ++ uint_bits m x.
Proof.
  intros Hn Hm. unfold uint_bits. rewrite seqZ_app, fmap_app by done. f_equal.
  - apply fmap_seqZ_ext. intros i Hi. rewrite Z.shiftr_spec by lia. f_equal. lia.
  - apply fmap_seqZ_ext. intros i Hi. f_equal. lia.
Qed.

(** ** Writing wide values *)

Lemma on_uint b x n : builder_wf b -> 0 <= x < 2 ^ 64 -> 0 <= n <= 64512 ->
  on_data (fun d => store_uint d x n) b = append_full b (uint_bits n x, []).
Proof. intros Hb Hx Hn. apply on_data_append; [done|]. by apply store_uint_spec; [apply Hb|..]. Qed.

Lemma on_small_uint b x n : builder_wf b -> is_byte x -> 0 <= n <= 64512 ->
  on_data (fun d => store_small_uint d x n) b = append_full b (uint_bits n x, []).
Proof. intros Hb Hx Hn. apply on_data_append; [done|]. by apply store_small_uint_spec; [apply Hb|..]. Qed.

Lemma uint_bits_wrap n w x : 0 <= n <= w -> uint_bits n (wrap w x) = uint_bits n x.
Proof. intros Hn. apply uint_bits_ext. intros i Hi. rewrite testbit_wrap by lia. by destruct (Z.ltb_spec i w); [|lia]. Qed.

Lemma store_u128_wide b x n : builder_wf b -> 0 <= x < 2 ^ 128 -> 0 <= n <= 128 ->
  Num.store_u128 b x n = append_full b (uint_bits n x, []).
Proof.
  intros Hb Hx Hn. pose proof (wrap_range 64 x ltac:(lia)). pose proof (wrap_range 64 (Z.shiftr x 64) ltac:(lia)).
  unfold Num.store_u128, checked_sub. destruct (Z.leb_spec 64 n).
  - unfold u64. rewrite on_uint, uint_bits_wrap by (done || lia).
    rewrite (append_bind b _ (uint_bits 64 x, [])); [..|done|].
    + simpl. f_equal. f_equal. replace n with (n - 64 + 64) at 2 by lia. symmetry. apply uint_bits_split; lia.
    + intros c Hc. replace (u16 (n - (n - 64))) with 64 by (rewrite u16_small; lia).
      by rewrite on_uint, uint_bits_wrap by (done || lia).
  - unfold u64. by rewrite on_uint, uint_bits_wrap by (done || lia).
Qed.

(** ** Reading wide values *)

Lemma lor_shifted a b n : 0 <= n -> 0 <= b < 2 ^ n -> Z.lor (Z.shiftl a n) b = Z.shiftl a n + b.
Proof.
  intros Hn Hb. assert (Z.land (Z.shiftl a n) b = 0) as E.
  { apply Z.bits_inj'. intros k Hk. rewrite Z.land_spec, testbit_shiftl, Z.bits_0 by lia. destruct (Z.ltb_spec k n).
    - by rewrite (Z.testbit_neg_r a) by lia.
    - rewrite (testbit_high n b) by lia. apply andb_false_r. }
  rewrite <- Z.lxor_lor by done. symmetry. by apply Z.add_nocarry_lxor.
Qed.

Lemma load_uint_any s n : slice_wf s -> 0 <= n <= 64 ->
  load_uint s n = if n <=? size_bits s
                  then Ok (bits_uint (take (Z.to_nat n) (slice_bits s)), advance s n) else Err CellUnderflow.
Proof.
  intros Hs Hn. destruct (Z.eqb_spec n 0) as [->|]; [|by apply load_uint_spec; [|lia]].
  pose proof (size_bits_range s Hs). destruct (Z.leb_spec 0 (size_bits s)); [done | lia].
Qed.

Lemma load_small_front s n l k : slice_wf s -> 0 <= n <= 64 -> zlen l = n -> slice_bits s = l ++ k ->
  exists s', load_uint s n = Ok (bits_uint l, s') /\ moved s s' k.
Proof. intros Hs Hn Hl E. exact (load_front s n bits_uint (load_uint s n) l k Hs Hl E (load_uint_any s n Hs Hn)). Qed.

Lemma load_u128_wide s n l k : slice_wf s -> 0 <= n <= 16 -> zlen l = n * 8 -> slice_bits s = l ++ k ->
  exists s', Num.load_u128 s n = Ok (bits_uint l, s') /\ moved s s' k.
Proof.
  intros Hs Hn Hl E. unfold Num.load_u128, checked_sub.
  assert (n <= 8 -> exists s', (let! (value, slice) := load_uint s (n * 8) in Ok (Z.lor 0 value, slice)) = Ok (bits_uint l, s') /\ moved s s' k) as Hshort.
  { intros Hle. destruct (load_small_front s (n * 8) l k Hs ltac:(lia) Hl E) as (s' & -> & ?). by exists s'. }
  destruct (Z.leb_spec 8 n); [|apply Hshort; lia]. destruct (Z.ltb_spec 0 (n - 8)); [|apply Hshort; lia].
  set (h := take (Z.to_nat ((n - 8) * 8)) l). set (t := drop (Z.to_nat ((n - 8) * 8)) l).
  assert (l = h ++ t) as El by (symmetry; apply take_drop).
  assert (zlen h = (n - 8) * 8) as Hh by (unfold h, zlen in *; rewrite length_take; lia).
  assert (zlen t = 64) as Ht by (unfold t, zlen in *; rewrite length_drop; lia).
  rewrite El, <- app_assoc in E.
  destruct (load_small_front s ((n - 8) * 8) h (t ++ k) Hs ltac:(lia) Hh E) as (s1 & -> & M1). cbn [rbind].
  destruct (load_small_front s1 ((n - (n - 8)) * 8) t k (mv_wf _ _ _ M1) ltac:(lia) ltac:(lia) (mv_bits _ _ _ M1)) as (s2 & -> & M2).
  cbn [rbind]. exists s2. split; [|by eapply moved_trans]. do 2 f_equal.
  pose proof (bits_uint_range h) as Rh. pose proof (bits_uint_range t) as Rt. rewrite Hh in Rh. rewrite Ht in Rt.
  assert (2 ^ ((n - 8) * 8) <= 2 ^ 64) by (apply Z.pow_le_mono_r; lia).
  unfold u128. rewrite wrap_small by (rewrite Z.shiftl_mul_pow2 by lia; lia).
  rewrite El, bits_uint_app, Ht, <- Z.shiftl_mul_pow2 by lia. apply lor_shifted; lia.
Qed.

(** ** Stores and loads of variable length *)

(** What a store does: the check of the length and of the capacity, the number of bytes,
    and the bytes with [st]. *)
Lemma store_var b x k n len (st : CellBuilder -> Z -> result CellBuilder) :
  builder_wf b -> 0 <= x < 2 ^ (8 * k) -> 0 <= k <= 32 -> 0 <= n <= 32 -> 0 <= len <= 8 ->
  (forall c, builder_wf c -> x < 2 ^ (8 * n) -> st c (bytes_needed x * 8) = append_full c (uint_bits (8 * bytes_needed x) x, [])) ->
  (let bytes := u8 (k - leading_zeros (8 * k) x / 8) in
   if (n <? bytes) || negb (has_capacity b (u16 (len + bytes * 8)) 0) then Err CellOverflow else
   let! builder := on_data (fun d => store_small_uint d bytes len) b in st builder (bytes * 8))
  = if x <? 2 ^ (8 * n) then append_full b (var_enc len x, []) else Err CellOverflow.
Proof.
  intros Hb Hx Hk Hn Hlen Hst. cbv zeta. rewrite leading_zeros_bytes by done.
  pose proof (bytes_needed_spec x n ltac:(lia) ltac:(lia)) as Hiff. pose proof (bytes_needed_nonneg x ltac:(lia)) as Hnn.
  pose proof (proj2 (bytes_needed_spec x k ltac:(lia) ltac:(lia)) ltac:(lia)) as Hkx.
  destruct (Z.ltb_spec n (bytes_needed x)); destruct (Z.ltb_spec x (2 ^ (8 * n))) as [Hfit|]; try (exfalso; lia); [done|]. cbn [orb].
  assert (zlen (var_enc len x) = len + bytes_needed x * 8) as Hz by (unfold var_enc; rewrite zlen_app, !zlen_uint_bits; lia).
  destruct Hb as [Hd Hr]. pose proof Hd as (_ & _ & Hlen0 & _).
  assert (has_capacity b (u16 (len + bytes_needed x * 8)) 0 = (DataBuilder.bit_len (inner b) + zlen (var_enc len x) <=? MAX_BIT_LEN)) as ->.
  { unfold has_capacity. rewrite Hz, Z.add_0_r, (u16_small (len + _)) by lia. unfold MAX_BIT_LEN, MAX_REF_COUNT in *.
    rewrite u16_small by lia. by rewrite (proj2 (Z.leb_le (zlen (b_refs b)) 4)), andb_true_r by lia. }
  destruct (Z.leb_spec (DataBuilder.bit_len (inner b) + zlen (var_enc len x)) MAX_BIT_LEN) as [|Hover]; cbn [negb].
  - rewrite on_small_uint by (done || (unfold is_byte; lia) || lia). unfold var_enc.
    rewrite (append_bind b _ (uint_bits (8 * bytes_needed x) x, [])); [done|done|]. intros c Hc. by apply Hst.
  - unfold append_full. cbn [fst snd]. destruct (Z.leb_spec (DataBuilder.bit_len (inner b) + zlen (var_enc len x)) MAX_BIT_LEN); [lia | done].
Qed.

(** What a load does: the number of bytes, and the bytes with [ld]; a number of bytes
    that is not the least is accepted. *)
Lemma load_var s x m n len (ld : CellSlice -> Z -> result (Z * CellSlice)) l :
  (forall s l k, slice_wf s -> zlen l = m * 8 -> slice_bits s = l ++ k ->
    exists s', ld s m = Ok (bits_uint l, s') /\ moved s s' k) ->
  slice_wf s -> 1 <= len <= 8 -> n < 2 ^ len -> 0 <= m <= n -> 0 <= x < 2 ^ (8 * m) ->
  slice_bits s = uint_bits len m ++ uint_bits (8 * m) x ++ l ->
  exists s', (let! (bytes, slice) := load_small_uint s len in ld slice bytes) = Ok (x, s') /\ moved s s' l.
Proof.
  intros Hld Hs Hlen Hn Hm Hx E.
  destruct (load_front s len bits_uint (load_small_uint s len) (uint_bits len m) (uint_bits (8 * m) x ++ l)) as (s1 & -> & M1);
    [done | apply zlen_uint_bits; lia | done | by apply load_small_uint_spec |].
  rewrite bits_uint_bits by lia. cbn [rbind].
  destruct (Hld s1 (uint_bits (8 * m) x) l (mv_wf _ _ _ M1)) as (s2 & -> & M2); [rewrite zlen_uint_bits; lia | apply M1 |].
  rewrite bits_uint_bits by lia. exists s2. split; [done | by eapply moved_trans].
Qed.

(** The three types of [num/mod.rs] *)
Lemma store_VarUint24_spec ctx b (v : VarUint24) : builder_wf b -> 0 <= raw v < 2 ^ 32 ->
  store_into v ctx b = if raw v <? 2 ^ 24 then append_full b (var_enc 2 (raw v), []) else Err CellOverflow.
Proof.
  intros Hb Hv. refine (store_var b (raw v) 4 3 2 (fun c n => on_data (fun d => store_uint d (raw v) n) c) Hb Hv _ _ _ _); [lia..|].
  intros c Hc Hfit. rewrite on_uint, (Z.mul_comm (bytes_needed _)); [done|done|lia|].
  pose proof (bytes_needed_nonneg (raw v)). pose proof (bytes_needed_spec (raw v) 4). lia.
Qed.

Lemma store_VarUint56_spec ctx b (v : VarUint56) : builder_wf b -> 0 <= raw v < 2 ^ 64 ->
  store_into v ctx b = if raw v <? 2 ^ 56 then append_full b (var_enc 3 (raw v), []) else Err CellOverflow.
Proof.
  intros Hb Hv. refine (store_var b (raw v) 8 7 3 (fun c n => on_data (fun d => store_uint d (raw v) n) c) Hb Hv _ _ _ _); [lia..|].
  intros c Hc Hfit. rewrite on_uint, (Z.mul_comm (bytes_needed _)); [done|done|lia|].
  pose proof (bytes_needed_nonneg (raw v)). pose proof (bytes_needed_spec (raw v) 8). lia.
Qed.

Lemma store_Tokens_spec ctx b (v : Tokens) : builder_wf b -> 0 <= raw v < 2 ^ 128 ->
  store_into v ctx b = if raw v <? 2 ^ 120 then append_full b (var_enc 4 (raw v), []) else Err CellOverflow.
Proof.
  intros Hb Hv. refine (store_var b (raw v) 16 15 4 (fun c n => Num.store_u128 c (raw v) n) Hb Hv _ _ _ _); [lia..|].
  intros c Hc Hfit. pose proof (bytes_needed_nonneg (raw v)). pose proof (bytes_needed_spec (raw v) 16).
  rewrite store_u128_wide, (Z.mul_comm (bytes_needed _)); [done|done|lia|lia].
Qed.

(** [padded len m x]: [x] in [m] bytes, some of which may be leading zeros *)
Definition padded (len m x : Z) : list bool := uint_bits len m ++ uint_bits (8 * m) x.

Lemma load_VarUint24_spec s m x l : slice_wf s -> 0 <= m <= 3 -> 0 <= x < 2 ^ (8 * m) -> slice_bits s = padded 2 m x ++ l ->
  exists s', load_from s = Ok (mkBounded 32 24 x, s') /\ moved s s' l.
Proof.
  intros Hs Hm Hx E. unfold padded in E. rewrite <- app_assoc in E.
  destruct (load_var s x m 3 2 (fun s m => load_uint s (m * 8)) l) as (s' & El & M); [|done|lia|done|lia|lia|done|].
  { intros s0 l0 k Hs0 Hl Hb. apply load_small_front; (done || lia). }
  exists s'. split; [|done]. unfold load_from, Load_VarUint24. change (Bounded.LEN_BITS 24) with 2.
  apply rbind_ok in El as ([bytes s1] & -> & E1). cbn [rbind]. rewrite E1. cbn [rbind].
  assert (2 ^ (8 * m) <= 2 ^ 32) by (apply Z.pow_le_mono_r; lia). unfold u32. by rewrite wrap_small by lia.
Qed.

Lemma load_VarUint56_spec s m x l : slice_wf s -> 0 <= m <= 7 -> 0 <= x < 2 ^ (8 * m) -> slice_bits s = padded 3 m x ++ l ->
  exists s', load_from s = Ok (mkBounded 64 56 x, s') /\ moved s s' l.
Proof.
  intros Hs Hm Hx E. unfold padded in E. rewrite <- app_assoc in E.
  destruct (load_var s x m 7 3 (fun s m => load_uint s (m * 8)) l) as (s' & El & M); [|done|lia|done|lia|lia|done|].
  { intros s0 l0 k Hs0 Hl Hb. apply load_small_front; (done || lia). }
  exists s'. split; [|done]. unfold load_from, Load_VarUint56. change (Bounded.LEN_BITS 56) with 3.
  apply rbind_ok in El as ([bytes s1] & -> & E1). cbn [rbind]. by rewrite E1.
Qed.

Lemma load_Tokens_spec s m x l : slice_wf s -> 0 <= m <= 15 -> 0 <= x < 2 ^ (8 * m) -> slice_bits s = padded 4 m x ++ l ->
  exists s', load_from s = Ok (mkBounded 128 120 x, s') /\ moved s s' l.
Proof.
  intros Hs Hm Hx E. unfold padded in E. rewrite <- app_assoc in E.
  destruct (load_var s x m 15 4 (fun s m => Num.load_u128 s m) l) as (s' & El & M); [|done|lia|done|lia|lia|done|].
  { intros s0 l0 k Hs0 Hl Hb. apply load_u128_wide; (done || lia). }
  exists s'. split; [|done]. unfold load_from, Load_Tokens. change (Bounded.LEN_BITS 120) with 4.
  apply rbind_ok in El as ([bytes s1] & -> & E1). cbn [rbind]. by rewrite E1.
Qed.

Lemma var_enc_padded len n x : 0 <= n -> 0 <= x < 2 ^ (8 * n) ->
  var_enc len x = padded len (bytes_needed x) x /\ 0 <= bytes_needed x <= n /\ 0 <= x < 2 ^ (8 * bytes_needed x).
Proof.
  intros Hn Hx. split; [done|]. pose proof (bytes_needed_nonneg x ltac:(lia)). pose proof (bytes_needed_fits x ltac:(lia)).
  pose proof (bytes_needed_spec x n ltac:(lia) Hn). lia.
Qed.

#[export] Program Instance Codec_VarUint24 : Codec VarUint24 := {
  enc_ok v := 0 <= raw v < 2 ^ 24; enc v := (var_enc 2 (raw v), []) }.
Next Obligation.
  intros ctx b v Hb Hv. cbv beta in *. rewrite store_VarUint24_spec by (done || lia). by destruct (Z.ltb_spec (raw v) (2 ^ 24)); [|lia].
Qed.
Next Obligation.
  intros s [x] l rs Hs Hv Hb Hr. cbn [raw fst snd] in *. destruct (var_enc_padded 2 3 x ltac:(lia) Hv) as (E & ? & ?).
  rewrite E in Hb. apply moved_codec; [by eapply load_VarUint24_spec | done].
Qed.

#[export] Program Instance Codec_VarUint56 : Codec VarUint56 := {
  enc_ok v := 0 <= raw v < 2 ^ 56; enc v := (var_enc 3 (raw v), []) }.
Next Obligation.
  intros ctx b v Hb Hv. cbv beta in *. rewrite store_VarUint56_spec by (done || lia). by destruct (Z.ltb_spec (raw v) (2 ^ 56)); [|lia].
Qed.
Next Obligation.
  intros s [x] l rs Hs Hv Hb Hr. cbn [raw fst snd] in *. destruct (var_enc_padded 3 7 x ltac:(lia) Hv) as (E & ? & ?).
  rewrite E in Hb. apply moved_codec; [by eapply load_VarUint56_spec | done].
Qed.

#[export] Program Instance Codec_Tokens : Codec Tokens := {
  enc_ok v := 0 <= raw v < 2 ^ 120; enc v := (var_enc 4 (raw v), []) }.
Next Obligation.
  intros ctx b v Hb Hv. cbv beta in *. rewrite store_Tokens_spec by (done || lia). by destruct (Z.ltb_spec (raw v) (2 ^ 120)); [|lia].
Qed.
Next Obligation.
  intros s [x] l rs Hs Hv Hb Hr. cbn [raw fst snd] in *. destruct (var_enc_padded 4 15 x ltac:(lia) Hv) as (E & ? & ?).
  rewrite E in Hb. apply moved_codec; [by eapply load_Tokens_spec | done].
Qed.

(** ** Small integers *)
Class SmallWidth (n : Z) := small_width : 1 <= n <= 15.
#[export] Instance SmallWidth_9 : SmallWidth 9. Proof. by vm_compute. Qed.
#[export] Instance SmallWidth_12 : SmallWidth 12. Proof. by vm_compute. Qed.
#[export] Instance SmallWidth_15 : SmallWidth 15. Proof. by vm_compute. Qed.

Lemma max_value w n : 0 <= n < w -> raw (@Bounded.MAX w n) = 2 ^ n - 1.
Proof.
  intros Hn. unfold Bounded.MAX. cbn [raw Bounded.new]. rewrite Z.shiftl_1_l.
  pose proof (Z.pow_lt_mono_r 2 n w ltac:(lia) ltac:(lia) ltac:(lia)). pose proof (Z.pow_pos_nonneg 2 n ltac:(lia) ltac:(lia)).
  rewrite wrap_small; lia.
Qed.

Lemma valid_iff w n (v : Bounded w n) : 0 <= n < w -> Bounded.is_valid v = (raw v <? 2 ^ n).
Proof. intros Hn. unfold Bounded.is_valid. rewrite max_value by done. zcases; lia. Qed.

Lemma load_small_spec n `{!SmallWidth n} s x l : slice_wf s -> 0 <= x < 2 ^ n -> slice_bits s = uint_bits n x ++ l ->
  exists s', load_from s = Ok (mkBounded 16 n x, s') /\ moved s s' l.
Proof.
  intros Hs Hx E. unfold SmallWidth in *. destruct (load_small_front s n (uint_bits n x) l) as (s' & El & M);
    [done | lia | apply zlen_uint_bits; lia | done |].
  exists s'. split; [|done]. unfold load_from, Load_small. rewrite El. cbn [rbind]. rewrite bits_uint_bits by lia.
  assert (2 ^ n <= 2 ^ 16) by (apply Z.pow_le_mono_r; lia). unfold u16. by rewrite wrap_small by lia.
Qed.

#[export] Program Instance Codec_small n `{!SmallWidth n} : Codec (Bounded 16 n) := {
  enc_ok v := 0 <= raw v < 2 ^ n; enc v := (uint_bits n (raw v), []) }.
Next Obligation.
  intros n Hn ctx b v Hb Hv. cbv beta in *. unfold store_into, Store_small, SmallWidth in *. rewrite valid_iff by lia.
  destruct (Z.ltb_spec (raw v) (2 ^ n)); [|lia]. cbn [negb]. assert (2 ^ n <= 2 ^ 15) by (apply Z.pow_le_mono_r; lia).
  by rewrite on_uint by (done || lia).
Qed.
Next Obligation.
  intros n Hn s [x] l rs Hs Hv Hb Hr. cbn [raw fst snd] in *. apply moved_codec; [by apply load_small_spec | done].
Qed.

#[export] Program Instance KeyLaws_small n `{!SmallWidth n} : KeyLaws (Bounded 16 n) := {
  key_ok v := 0 <= raw v < 2 ^ n; key_bits v := uint_bits n (raw v) }.
Next Obligation. intros n Hn k _. unfold SmallWidth in *. apply (zlen_uint_bits n). lia. Qed.
Next Obligation. intros n Hn. unfold KEY_BITS, DictKey_small, MAX_BIT_LEN, SmallWidth in *. lia. Qed.
Next Obligation.
  intros n Hn k b Hb Hk _. cbv beta in *. unfold store_into_data, StoreDictKey_small, SmallWidth in *. rewrite valid_iff by lia.
  destruct (Z.ltb_spec (raw k) (2 ^ n)); [|lia]. cbn [negb]. assert (2 ^ n <= 2 ^ 15) by (apply Z.pow_le_mono_r; lia).
  by rewrite store_uint_spec by (done || lia).
Qed.
Next Obligation.
  intros n Hn [x] Hx. cbv beta in *. cbn [raw] in *. unfold load_from_data, LoadDictKey_small, SmallWidth in *. do 2 f_equal.
  set (L := sub_bytes _ 0 2). assert (Forall is_byte L) as HL by apply sub_bytes_bytes, pack_bytes.
  assert (zlen L = 2) as HzL by (unfold L; simpl; rewrite zlen_sub; rewrite ?zlen_pack; lia).
  apply Z.bits_inj'. intros k Hk. rewrite Z.shiftr_spec, (testbit_from_be_any 2) by done.
  destruct (Z.ltb_spec k n) as [Hlt|]; cycle 1.
  { rewrite (testbit_high n x) by lia. by destruct (Z.ltb_spec (k + (16 - n)) (8 * 2)); [lia|]; rewrite andb_false_r. }
  destruct (Z.leb_spec 0 (k + (16 - n))), (Z.ltb_spec (k + (16 - n)) (8 * 2)); try lia. cbn [andb].
  unfold L. rewrite bit_at_sub by lia. cbn [of_bits DataBuilder.data]. rewrite bit_at_pack by lia.
  rewrite lookup_uint_bits by lia. simpl. f_equal. lia.
Qed.

#[export] Instance OrderedKey_small n `{!SmallWidth n} : OrderedKey (Bounded 16 n).
Proof. intros a b Ha Hb. unfold SmallWidth in *. symmetry. apply lex_uints; (done || lia). Qed.

(** ** [SplitDepth] *)
#[export] Program Instance Codec_SplitDepth : Codec SplitDepth := {
  enc_ok v := 1 <= depth_inner v <= 31; enc v := (uint_bits 5 (depth_inner v), []) }.
Next Obligation. intros ctx b v Hb Hv. cbv beta in *. apply on_small_uint; (done || (unfold is_byte; lia) || lia). Qed.
Next Obligation.
  intros s [x] l rs Hs Hv Hb Hr. cbn [depth_inner fst snd] in *. apply moved_codec; [|done].
  destruct (load_front s 5 bits_uint (load_small_uint s 5) (uint_bits 5 x) l) as (s' & El & M); [done | done | done | by apply load_small_uint_spec |].
  exists s'. split; [|done]. unfold load_from, Load_SplitDepth, SplitDepth.BITS. rewrite El, bits_uint_bits by lia.
  cbn [rbind]. unfold SplitDepth.new. by destruct (Z.eqb_spec x 0); [lia|].
Qed.

(** ** Arithmetic *)
Section Arith.
Context {w bits : Z} (Hbits : 0 < bits < w).
Implicit Types a b : Bounded w bits.

Definition num_ok a : Prop := 0 <= raw a < 2 ^ bits.

(** The result in range, or nothing *)
Definition exact (x : Z) : option (Bounded w bits) := if (0 <=? x) && (x <? 2 ^ bits) then Some (mkBounded w bits x) else None.
(** The nearest value in range *)
Definition clamped (x : Z) : Bounded w bits := mkBounded w bits (Z.max 0 (Z.min (2 ^ bits - 1) x)).

Lemma pow_w : 2 ^ bits + 2 ^ bits <= 2 ^ w.
Proof. replace (2 ^ bits + 2 ^ bits) with (2 ^ (bits + 1)) by (rewrite Z.pow_add_r by lia; lia). apply Z.pow_le_mono_r; lia. Qed.

Lemma in_range_exact (x : Z) : 0 <= x -> Bounded.in_range (Some x) = exact x.
Proof. intros Hx. unfold Bounded.in_range, exact. rewrite max_value by lia. zcases; simpl; (done || lia). Qed.

Lemma checked_add_exact a b : num_ok a -> num_ok b -> Bounded.checked_add a b = exact (raw a + raw b).
Proof.
  unfold num_ok. intros Ha Hb. pose proof pow_w. unfold Bounded.checked_add, uint_checked_add.
  destruct (Z.ltb_spec (raw a + raw b) (2 ^ w)); [|lia]. apply in_range_exact. lia.
Qed.

Lemma checked_sub_exact a b : num_ok a -> num_ok b -> Bounded.checked_sub a b = exact (raw a - raw b).
Proof.
  unfold num_ok. intros Ha Hb. unfold Bounded.checked_sub, Prelude.checked_sub. destruct (Z.leb_spec (raw b) (raw a)).
  - apply in_range_exact. lia.
  - unfold exact. by destruct (Z.leb_spec 0 (raw a - raw b)); [lia|].
Qed.

Lemma checked_mul_exact a b : num_ok a -> num_ok b -> Bounded.checked_mul a b = exact (raw a * raw b).
Proof.
  unfold num_ok. intros Ha Hb. pose proof pow_w. unfold Bounded.checked_mul, uint_checked_mul.
  destruct (Z.ltb_spec (raw a * raw b) (2 ^ w)); [apply in_range_exact; nia|].
  unfold exact. destruct (Z.ltb_spec (raw a * raw b) (2 ^ bits)); [lia|]. by rewrite andb_false_r.
Qed.

Lemma checked_div_exact a b : num_ok a -> num_ok b ->
  Bounded.checked_div a b = if raw b =? 0 then None else exact (raw a / raw b).
Proof.
  unfold num_ok. intros Ha Hb. unfold Bounded.checked_div, uint_checked_div. destruct (Z.eqb_spec (raw b) 0); [done|].
  apply in_range_exact. apply Z.div_pos; lia.
Qed.

Lemma saturating_clamped a b : num_ok a -> num_ok b ->
  Bounded.saturating_add a b = clamped (raw a + raw b) /\ Bounded.saturating_sub a b = clamped (raw a - raw b) /\
  Bounded.saturating_mul a b = clamped (raw a * raw b).
Proof.
  unfold num_ok. intros Ha Hb. pose proof pow_w. assert (0 <= raw a * raw b) by nia.
  unfold Bounded.saturating_add, Bounded.saturating_sub, Bounded.saturating_mul, uint_checked_add, uint_checked_mul, Prelude.checked_sub.
  assert (@Bounded.MAX w bits = mkBounded w bits (2 ^ bits - 1)) as EM.
  { pose proof (max_value w bits ltac:(lia)) as E. destruct (@Bounded.MAX w bits). simpl in E. by subst. }
  rewrite !EM. cbn [raw]. unfold clamped, Bounded.new, Bounded.ZERO. split_and!; zcases; f_equal; lia.
Qed.
End Arith.
