(* ===== verification/VarUint248.v ===== *)
(** * VarUint248: the 248-bit integer ([src/src/num/varuint248.rs])

    Two 128-bit words; the layout is that of a little-endian target.  Overflow checks
    are off, so that every operator of [u128] wraps.  Division normalizes the divisor and
    guesses the quotient by words of 64 and of 128 bits; a division by zero panics, a loop
    has fuel, and the writes of [fmt_var_uint248] through raw pointers are undefined
    outside its buffer: [outcome] keeps these apart. *)

From Stdlib Require Import String Ascii.
From S2P Require Import Prelude Bits DataBuilder CellMeta Cell Slice Builder Num.

Inductive outcome (A : Type) : Type :=
| Returns (a : A)
| Panics
| Undefined
| OutOfFuel.
Arguments Returns {A} a.
Arguments Panics {A}.
Arguments Undefined {A}.
Arguments OutOfFuel {A}.

Definition obind {A B} (m : outcome A) (k : A -> outcome B) : outcome B :=
  match m with Returns a => k a | Panics => Panics | Undefined => Undefined | OutOfFuel => OutOfFuel end.

Declare Scope outcome_scope.
Delimit Scope outcome_scope with outcome.
Notation "'run!' x ':=' m 'in' k" := (obind m (fun x => k))
  (at level 10, x pattern, m at level 100, k at level 200) : outcome_scope.
#[global] Open Scope outcome_scope.

(** ** Operations of [u128] *)
Definition U128_MAX : Z := 2 ^ 128 - 1.
Definition overflowing_add (a b : Z) : Z * bool := (u128 (a + b), 2 ^ 128 <=? a + b).
Definition overflowing_sub (a b : Z) : Z * bool := (u128 (a - b), a <? b).
Definition overflowing_mul (a b : Z) : Z * bool := (u128 (a * b), 2 ^ 128 <=? a * b).
(** [a / b] and [a % b], which panic *)
Definition div_u128 (a b : Z) : outcome Z := if b =? 0 then Panics else Returns (a / b).
Definition rem_u128 (a b : Z) : outcome Z := if b =? 0 then Panics else Returns (a mod b).
(** [a << n] and [a >> n], which take the number of bits modulo 128 *)
Definition shl_u128 (a n : Z) : Z := u128 (Z.shiftl a (n mod 128)).
Definition shr_u128 (a n : Z) : Z := Z.shiftr a (n mod 128).

(** ** The type *)
Record VarUint248 := mkU248 { low : Z; high : Z }.

Module U248.
Definition from_words (hi lo : Z) : VarUint248 := mkU248 lo hi.
Definition into_words (a : VarUint248) : Z * Z := (high a, low a).
Definition new (value : Z) : VarUint248 := from_words 0 value.

Definition ZERO : VarUint248 := mkU248 0 0.
Definition ONE : VarUint248 := mkU248 1 0.
Definition MIN : VarUint248 := new 1.
Definition MAX : VarUint248 := from_words (Z.shiftr U128_MAX 8) U128_MAX.
Definition LEN_BITS : Z := 5.
Definition MAX_BITS : Z := LEN_BITS + 31 * 8.

Definition set_high (a : VarUint248) (hi : Z) : VarUint248 := mkU248 (low a) hi.
Definition set_low (a : VarUint248) (lo : Z) : VarUint248 := mkU248 lo (high a).

Definition is_zero (a : VarUint248) : bool := (low a =? 0) && (high a =? 0).
Definition is_valid (a : VarUint248) : bool := high a <=? Z.shiftr U128_MAX 8.

Definition leading_zeros (a : VarUint248) : Z :=
  let '(hi, lo) := into_words a in
  if hi =? 0 then 128 + Prelude.leading_zeros 128 lo else Prelude.leading_zeros 128 hi.

Definition bit_len (a : VarUint248) : option Z :=
  let bytes := u8 (32 - leading_zeros a / 8) in
  if 31 <? bytes then None else Some (LEN_BITS + bytes * 8).

Definition as_isize (a : VarUint248) : Z := as_signed 64 (u64 (low a)).
Definition as_usize (a : VarUint248) : Z := u64 (low a).

Definition eq_u128 (a : VarUint248) (other : Z) : bool := (high a =? 0) && (low a =? other).
Definition cmp_words (a b : Z * Z) : comparison := match a.1 ?= b.1 with Eq => a.2 ?= b.2 | c => c end.
Definition cmp (a b : VarUint248) : comparison := cmp_words (into_words a) (into_words b).
Definition partial_cmp_u128 (a : VarUint248) (other : Z) : comparison := cmp_words (into_words a) (0, other).

(** ** Addition and subtraction *)
Definition checked_add (a rhs : VarUint248) : option VarUint248 :=
  let '(lo, carry_lo) := overflowing_add (low a) (low rhs) in
  let '(hi, carry_c) := overflowing_add (high a) (b2z carry_lo) in
  let '(hi, carry_hi) := overflowing_add hi (high rhs) in
  if carry_c || carry_hi then None else
  let res := from_words hi lo in
  if is_valid res then Some res else None.

Definition checked_sub (a rhs : VarUint248) : option VarUint248 :=
  let '(lo, carry_lo) := overflowing_sub (low a) (low rhs) in
  let '(hi, carry_c) := overflowing_sub (high a) (b2z carry_lo) in
  let '(hi, carry_hi) := overflowing_sub hi (high rhs) in
  if carry_c || carry_hi then None else
  let res := from_words hi lo in
  if is_valid res then Some res else None.

Definition saturating_add (a rhs : VarUint248) : VarUint248 :=
  match checked_add a rhs with Some value => value | None => MAX end.

Definition saturating_sub (a rhs : VarUint248) : VarUint248 :=
  let '(lo, carry_lo) := overflowing_sub (low a) (low rhs) in
  let '(hi, carry_c) := overflowing_sub (high a) (b2z carry_lo) in
  let '(hi, carry_hi) := overflowing_sub hi (high rhs) in
  if carry_c || carry_hi then ZERO else
  let res := from_words hi lo in
  if is_valid res then res else MAX.

(** [+=]: the high word of [rhs] is added to itself. *)
Definition add_assign (a rhs : VarUint248) : VarUint248 :=
  let '(lo, carry) := overflowing_add (low a) (low rhs) in
  let a := set_low a lo in
  set_high a (u128 (u128 (high rhs + b2z carry) + high rhs)).

Definition sub_assign (a rhs : VarUint248) : VarUint248 :=
  let '(lo, carry) := overflowing_sub (low a) (low rhs) in
  let a := set_low a lo in
  set_high a (u128 (u128 (high a - b2z carry) - high rhs)).

(** ** Shifts *)
Definition shr_assign (a : VarUint248) (n : Z) : VarUint248 :=
  if n =? 0 then a
  else if n <=? 127 then
    let hi := high a in
    let a := set_high a (shr_u128 (high a) n) in
    let a := set_low a (shr_u128 (low a) n) in
    set_low a (Z.lor (low a) (shl_u128 hi (128 - n)))
  else
    let hi := high a in
    let a := set_high a 0 in
    set_low a (shr_u128 hi (Z.land n 127)).

Definition shl_assign (a : VarUint248) (n : Z) : VarUint248 :=
  if n =? 0 then a
  else if n <=? 127 then
    let lo := low a in
    let a := set_low a (shl_u128 (low a) n) in
    let a := set_high a (shl_u128 (high a) n) in
    set_high a (Z.lor (high a) (shr_u128 lo (128 - n)))
  else
    let lo := low a in
    let a := set_low a 0 in
    set_high a (shl_u128 lo (Z.land n 127)).

(** ** Multiplication *)
Definition LOWER_MASK : Z := Z.shiftr U128_MAX 64.

Definition umulddi3 (a b : Z) : VarUint248 :=
  let low := u128 (Z.land a LOWER_MASK * Z.land b LOWER_MASK) in
  let t := Z.shiftr low 64 in
  let low := Z.land low LOWER_MASK in
  let t := u128 (t + u128 (Z.shiftr a 64 * Z.land b LOWER_MASK)) in
  let low := u128 (low + shl_u128 (Z.land t LOWER_MASK) 64) in
  let high := Z.shiftr t 64 in
  let t := Z.shiftr low 64 in
  let low := Z.land low LOWER_MASK in
  let t := u128 (t + u128 (Z.shiftr b 64 * Z.land a LOWER_MASK)) in
  let low := u128 (low + shl_u128 (Z.land t LOWER_MASK) 64) in
  let high := u128 (high + Z.shiftr t 64) in
  let high := u128 (high + u128 (Z.shiftr a 64 * Z.shiftr b 64)) in
  from_words high low.

Definition mul_assign (a rhs : VarUint248) : VarUint248 :=
  let r := umulddi3 (low a) (low rhs) in
  let a_hi_mul_b_lo := u128 (high a * low rhs) in
  let a_lo_mul_b_hi := u128 (low a * high rhs) in
  set_high r (u128 (high r + u128 (a_hi_mul_b_lo + a_lo_mul_b_hi))).

(** [checked_mul]: the validity tested is that of [self]. *)
Definition checked_mul (a rhs : VarUint248) : option VarUint248 :=
  let res := umulddi3 (low a) (low rhs) in
  let '(hi_lo, overflow_hi_lo) := overflowing_mul (high a) (low rhs) in
  let '(lo_hi, overflow_lo_hi) := overflowing_mul (low a) (high rhs) in
  let '(hi, overflow_hi) := overflowing_add hi_lo lo_hi in
  let '(high', overflow_high) := overflowing_add (high res) hi in
  let res := set_high res high' in
  let overflow_hi_hi := negb (high a =? 0) && negb (high rhs =? 0) in
  if overflow_hi_lo || overflow_lo_hi || overflow_hi || overflow_high || overflow_hi_hi || negb (is_valid a)
  then None else Some res.

Definition saturating_mul (a rhs : VarUint248) : VarUint248 :=
  match checked_mul a rhs with Some value => value | None => MAX end.
End U248.

(** ** Division *)
Module Division.
Definition B : Z := 2 ^ 64.

(** The loops that correct a digit of the quotient: [q] is too large while
    [q * vn0 > B * rhat + un]. *)
Fixpoint correct_digit (fuel : nat) (q rhat vn1 vn0 un : Z) : outcome (Z * Z) :=
  match fuel with
  | O => OutOfFuel
  | S fuel =>
      if (B <=? q) || (u128 (u128 (B * rhat) + un) <? u128 (q * vn0)) then
        let q := u128 (q - 1) in
        let rhat := u128 (rhat + vn1) in
        if B <=? rhat then Returns (q, rhat)
        else correct_digit fuel q rhat vn1 vn0 un
      else Returns (q, rhat)
  end.

(** [udiv256_by_128_to_128]: the quotient and what it writes to [r] *)
Definition udiv256_by_128_to_128 (u1 u0 v : Z) : outcome (Z * Z) :=
  let s := leading_zeros 128 v in
  let '(v, un128, un10) :=
    if 0 <? s then (shl_u128 v s, Z.lor (shl_u128 u1 s) (shr_u128 u0 (128 - s)), shl_u128 u0 s)
    else (v, u1, u0) in
  let vn1 := Z.shiftr v 64 in
  let vn0 := Z.land v 0xFFFFFFFFFFFFFFFF in
  let un1 := Z.shiftr un10 64 in
  let un0 := Z.land un10 0xFFFFFFFFFFFFFFFF in
  run! q1 := div_u128 un128 vn1 in
  let rhat := u128 (un128 - u128 (q1 * vn1)) in
  run! (q1, rhat) := correct_digit 3 q1 rhat vn1 vn0 un1 in
  let un21 := u128 (u128 (u128 (un128 * B) + un1) - u128 (q1 * v)) in
  run! q0 := div_u128 un21 vn1 in
  let rhat := u128 (un21 - u128 (q0 * vn1)) in
  run! (q0, rhat) := correct_digit 3 q0 rhat vn1 vn0 un0 in
  let r := shr_u128 (u128 (u128 (u128 (un21 * B) + un0) - u128 (q0 * v))) s in
  Returns (u128 (u128 (q1 * B) + q0), r).

(** *** Inside [div_mod_knuth]: three words, the lowest first *)
Definition words3 : Type := Z * Z * Z.

Definition full_shl (a : VarUint248) (shift : Z) : words3 :=
  let u_lo := shl_u128 (low a) shift in
  let u_hi := U248.shr_assign a (128 - shift) in
  (u_lo, low u_hi, high u_hi).

Definition full_shr (u : words3) (shift : Z) : VarUint248 :=
  let '(u0, u1, u2) := u in
  let res := mkU248 (shr_u128 u0 shift) (shr_u128 u1 shift) in
  if 0 <? shift then
    let sh := 128 - shift in
    mkU248 (Z.lor (low res) (shl_u128 u1 sh)) (Z.lor (high res) (shl_u128 u2 sh))
  else res.

Definition split_u128_to_u128 (a : Z) : Z * Z := (Z.land a 0xFFFFFFFFFFFFFFFF, Z.shiftr a 64).

Definition fullmul_u128 (a b : Z) : Z * Z :=
  let '(a0, a1) := split_u128_to_u128 a in
  let '(b0, b1) := split_u128_to_u128 b in
  let t := u128 (a0 * b0) in
  let '(w3, k) := split_u128_to_u128 t in
  let t := u128 (u128 (a1 * b0) + k) in
  let '(w1, w2) := split_u128_to_u128 t in
  let t := u128 (u128 (a0 * b1) + w1) in
  let k := Z.shiftr t 64 in
  let w_hi := u128 (u128 (u128 (a1 * b1) + w2) + k) in
  let w_lo := u128 (shl_u128 t 64 + w3) in
  (w_lo, w_hi).

Definition fullmul_u256_u128 (a : VarUint248) (b : Z) : words3 :=
  if negb (b =? 0) then
    let '(lo, carry) := fullmul_u128 (low a) b in
    let acc0 := lo in
    let acc1 := carry in
    let '(lo, carry) := fullmul_u128 (high a) b in
    let '(acc1, c) := overflowing_add acc1 lo in
    (acc0, acc1, u128 (carry + b2z c))
  else (0, 0, 0).

Definition add_carry (a b : Z) (c : bool) : Z * bool :=
  let '(res1, overflow1) := overflowing_add b (b2z c) in
  let '(res2, overflow2) := overflowing_add a res1 in
  (res2, overflow1 || overflow2).

Definition sub_carry (a b : Z) (c : bool) : Z * bool :=
  let '(res1, overflow1) := overflowing_add b (b2z c) in
  let '(res2, overflow2) := overflowing_sub a res1 in
  (res2, overflow1 || overflow2).

(** The loop on the guess: [u0] is the lowest word of the dividend. *)
Fixpoint correct_guess (fuel : nat) (q_hat r_hat v_n_1 v_n_2 u0 : Z) : outcome Z :=
  match fuel with
  | O => OutOfFuel
  | S fuel =>
      let '(lo, hi) := fullmul_u128 q_hat v_n_2 in
      if (r_hat <? hi) || ((hi =? r_hat) && (u0 <? lo)) then
        let q_hat := u128 (q_hat - 1) in
        let '(r_hat, overflow) := overflowing_add r_hat v_n_1 in
        if overflow then Returns q_hat else correct_guess fuel q_hat r_hat v_n_1 v_n_2 u0
      else Returns q_hat
  end.

Definition div_mod_knuth (u v : VarUint248) : outcome (VarUint248 * VarUint248) :=
  let shift := leading_zeros 128 (high v) in
  let v := U248.shl_assign v shift in
  let '(u0, u1, u2) := full_shl u shift in
  let v_n_1 := high v in
  let v_n_2 := low v in
  let u_jn := u2 in
  run! q_hat :=
    if u_jn <? v_n_1 then
      run! (q_hat, r_hat) := udiv256_by_128_to_128 u_jn u1 v_n_1 in
      correct_guess 3 q_hat r_hat v_n_1 v_n_2 u0
    else Returns U128_MAX in
  let '(p0, p1, p2) := fullmul_u256_u128 v q_hat in
  let '(u0, c) := sub_carry u0 p0 false in
  let '(u1, c) := sub_carry u1 p1 c in
  let '(u2, c) := sub_carry u2 p2 c in
  let '(q_hat, u0, u1, u2) :=
    if c : bool then
      let q_hat := u128 (q_hat - 1) in
      let '(u0, c) := add_carry u0 (low v) false in
      let '(u1, c) := add_carry u1 (high v) c in
      (q_hat, u0, u1, u128 (u2 + b2z c))
    else (q_hat, u0, u1, u2) in
  Returns (U248.set_low U248.ZERO q_hat, full_shr (u0, u1, u2) shift).

(** [udivmod]: the quotient and the remainder *)
Definition udivmod (a b : VarUint248) : outcome (VarUint248 * VarUint248) :=
  if Z.lor (high a) (high b) =? 0 then
    run! rem := rem_u128 (low a) (low b) in
    run! quo := div_u128 (low a) (low b) in
    Returns (U248.from_words 0 quo, U248.from_words 0 rem)
  else if match U248.cmp b a with Gt => true | _ => false end then Returns (U248.ZERO, a)
  else if high b =? 0 then
    if high a <? low b then
      run! (q, r) := udiv256_by_128_to_128 (high a) (low a) (low b) in
      Returns (U248.from_words 0 q, U248.set_low U248.ZERO r)
    else
      run! hi := div_u128 (high a) (low b) in
      run! rest := rem_u128 (high a) (low b) in
      run! (q, r) := udiv256_by_128_to_128 rest (low a) (low b) in
      Returns (U248.from_words hi q, U248.set_low U248.ZERO r)
  else div_mod_knuth a b.

(** The operators [/=] and [%=]: the divisor may be the value itself. *)
Definition div_assign (a rhs : VarUint248) : outcome VarUint248 :=
  run! (q, r) := udivmod a rhs in Returns q.
Definition rem_assign (a rhs : VarUint248) : outcome VarUint248 :=
  run! (q, r) := udivmod a rhs in Returns r.
End Division.

(** ** Store and Load *)
#[global] Instance ExactSize_VarUint248 : ExactSize VarUint248 := fun v => mkSize (default 0 (U248.bit_len v)) 0.

#[global] Instance Store_VarUint248 : Store VarUint248 := fun v _ builder =>
  let bytes := u8 (32 - U248.leading_zeros v / 8) in
  let bits := bytes * 8 in
  if (31 <? bytes) || negb (has_capacity builder (u16 (U248.LEN_BITS + bits)) 0) then Err CellOverflow else
  let! builder := on_data (fun d => store_small_uint d bytes U248.LEN_BITS) builder in
  let '(hi, lo) := U248.into_words v in
  match checked_sub bits 128 with
  | Some high_bits =>
      let! builder := Num.store_u128 builder hi high_bits in
      Num.store_u128 builder lo (u16 (bits - high_bits))
  | None => Num.store_u128 builder lo bits
  end.

#[global] Instance Load_VarUint248 : Load VarUint248 := fun slice =>
  let! (bytes, slice) := load_small_uint slice U248.LEN_BITS in
  let! (hi, bytes, slice) :=
    match checked_sub bytes 16 with
    | Some high_bytes =>
        if 0 <? high_bytes then
          let! (hi, slice) := Num.load_u128 slice high_bytes in
          Ok (hi, bytes - high_bytes, slice)
        else Ok (0, bytes, slice)
    | None => Ok (0, bytes, slice)
    end in
  let! (lo, slice) := Num.load_u128 slice bytes in
  Ok (U248.from_words hi lo, slice).
