(* ===== verification/VarUint248Spec.v ===== *)
(** * VarUint248Spec: words and values

    [uval] is the value of a pair of words and [of_val] the pair of a value below 2^256.
    Every operation is that of integers, exact, saturating or modulo 2^256; the
    exceptions are those of the code: [add_assign] loses the high word, and
    [checked_mul] tests the wrong operand. *)

From S2P Require Import Prelude Bits DataBuilder DataBuilderSpec CellMeta Cell Slice SliceSpec Builder BuilderSpec DictLabelSpec DictOrder Num NumSpec VarUint248.

Definition u_val (a : VarUint248) : Z := low a + 2 ^ 128 * high a.
Definition u_ok (a : VarUint248) : Prop := 0 <= low a < 2 ^ 128 /\ 0 <= high a < 2 ^ 128.
Definition of_val (x : Z) : VarUint248 := mkU248 (x mod 2 ^ 128) (x / 2 ^ 128).

Lemma u_val_range a : u_ok a -> 0 <= u_val a < 2 ^ 256.
Proof. unfold u_ok, u_val. lia. Qed.

Lemma of_val_val a : u_ok a -> of_val (u_val a) = a.
Proof. destruct a as [lo hi]. unfold u_ok, of_val, u_val. cbn [low high]. intros [Hl Hh]. f_equal; lia. Qed.

Lemma of_val_ok x : 0 <= x < 2 ^ 256 -> u_ok (of_val x) /\ u_val (of_val x) = x.
Proof. unfold u_ok, u_val, of_val. cbn [low high]. lia. Qed.

Lemma of_val_eq a x : u_ok a -> u_val a = x -> a = of_val x.
Proof. intros Ha <-. symmetry. by apply of_val_val. Qed.

Lemma u_val_inj a b : u_ok a -> u_ok b -> u_val a = u_val b -> a = b.
Proof. intros Ha Hb E. rewrite <- (of_val_val a), <- (of_val_val b) by done. by f_equal. Qed.

Lemma is_valid_spec a : u_ok a -> U248.is_valid a = (u_val a <? 2 ^ 248).
Proof.
  intros [Hl Hh]. unfold U248.is_valid, u_val. change (Z.shiftr U128_MAX 8) with (2 ^ 120 - 1). zcases; lia.
Qed.

Lemma u_max : u_ok U248.MAX /\ u_val U248.MAX = 2 ^ 248 - 1.
Proof. split; [split; by vm_compute | by vm_compute]. Qed.

(** ** Addition and subtraction *)

(** The result in range, or nothing *)
Definition exact248 (x : Z) : option VarUint248 := if (0 <=? x) && (x <? 2 ^ 248) then Some (of_val x) else None.

Lemma carry_chain_add a b : u_ok a -> u_ok b ->
  let lo := u128 (low a + low b) in
  let c := b2z (2 ^ 128 <=? low a + low b) in
  let hi := u128 (high a + c) in
  let hi' := u128 (hi + high b) in
  u_ok (mkU248 lo hi') /\
  ((2 ^ 128 <=? high a + c) || (2 ^ 128 <=? hi + high b) = true /\ 2 ^ 256 <= u_val a + u_val b \/
   (2 ^ 128 <=? high a + c) || (2 ^ 128 <=? hi + high b) = false /\ u_val (mkU248 lo hi') = u_val a + u_val b).
Proof.
  unfold u_ok, u_val, u128, wrap. cbv zeta. cbn [low high]. intros Ha Hb.
  destruct (Z.leb_spec (2 ^ 128) (low a + low b)); cbn [b2z]; zcases; cbn [orb]; split; lia.
Qed.

Lemma carry_chain_sub a b : u_ok a -> u_ok b ->
  let lo := u128 (low a - low b) in
  let c := b2z (low a <? low b) in
  let hi := u128 (high a - c) in
  let hi' := u128 (hi - high b) in
  u_ok (mkU248 lo hi') /\
  ((high a <? c) || (hi <? high b) = true /\ u_val a < u_val b \/
   (high a <? c) || (hi <? high b) = false /\ u_val (mkU248 lo hi') = u_val a - u_val b).
Proof.
  unfold u_ok, u_val, u128, wrap. cbv zeta. cbn [low high]. intros Ha Hb.
  destruct (Z.ltb_spec (low a) (low b)); cbn [b2z]; zcases; cbn [orb]; split; lia.
Qed.

Lemma checked_add_spec a b : u_ok a -> u_ok b -> U248.checked_add a b = exact248 (u_val a + u_val b).
Proof.
  intros Ha Hb. pose proof (u_val_range a Ha). pose proof (u_val_range b Hb).
  destruct (carry_chain_add a b Ha Hb) as [Hok [[E Hbig]|[E Hv]]];
    unfold U248.checked_add, overflowing_add; cbv zeta in *; rewrite E; unfold exact248.
  - destruct (Z.ltb_spec (u_val a + u_val b) (2 ^ 248)); [lia|]. by rewrite andb_false_r.
  - rewrite is_valid_spec by done. unfold U248.from_words. rewrite Hv.
    destruct (Z.leb_spec 0 (u_val a + u_val b)); [|lia]. cbn [andb]. destruct (_ <? 2 ^ 248); [|done].
    f_equal. by apply of_val_eq.
Qed.

Lemma checked_sub_spec a b : u_ok a -> u_ok b -> U248.checked_sub a b = exact248 (u_val a - u_val b).
Proof.
  intros Ha Hb. destruct (carry_chain_sub a b Ha Hb) as [Hok [[E Hbig]|[E Hv]]];
    unfold U248.checked_sub, overflowing_sub; cbv zeta in *; rewrite E; unfold exact248.
  - by destruct (Z.leb_spec 0 (u_val a - u_val b)); [lia|].
  - rewrite is_valid_spec by done. unfold U248.from_words. rewrite Hv. pose proof (u_val_range _ Hok) as Hr. rewrite Hv in Hr.
    destruct (Z.leb_spec 0 (u_val a - u_val b)); [|lia]. cbn [andb]. destruct (_ <? 2 ^ 248); [|done].
    f_equal. by apply of_val_eq.
Qed.

Lemma saturating_add_spec a b : u_ok a -> u_ok b ->
  U248.saturating_add a b = of_val (Z.min (2 ^ 248 - 1) (u_val a + u_val b)).
Proof.
  intros Ha Hb. pose proof (u_val_range a Ha). pose proof (u_val_range b Hb). pose proof u_max as [Hm Em].
  unfold U248.saturating_add. rewrite checked_add_spec by done. unfold exact248.
  destruct (Z.leb_spec 0 (u_val a + u_val b)); [|lia]. cbn [andb].
  destruct (Z.ltb_spec (u_val a + u_val b) (2 ^ 248)); [f_equal; lia|].
  apply of_val_eq; [done|]. rewrite Em. lia.
Qed.

Lemma saturating_sub_spec a b : u_ok a -> u_ok b ->
  U248.saturating_sub a b = of_val (Z.max 0 (Z.min (2 ^ 248 - 1) (u_val a - u_val b))).
Proof.
  intros Ha Hb. pose proof u_max as [Hm Em]. destruct (carry_chain_sub a b Ha Hb) as [Hok [[E Hlt]|[E Hv]]];
    unfold U248.saturating_sub, overflowing_sub; cbv zeta in *; rewrite E.
  - rewrite Z.max_l by lia. done.
  - rewrite is_valid_spec by done. unfold U248.from_words. rewrite Hv. pose proof (u_val_range _ Hok) as Hr. rewrite Hv in Hr.
    destruct (Z.ltb_spec (u_val a - u_val b) (2 ^ 248)); apply of_val_eq; (done || lia).
Qed.

(** What [+=] computes, and what it would without the slip *)
Lemma add_assign_spec a b : u_ok a -> u_ok b ->
  u_val (U248.add_assign a b) = (low a + low b + 2 ^ 128 * (2 * high b)) mod 2 ^ 256 /\ u_ok (U248.add_assign a b).
Proof.
  unfold u_ok, u_val, U248.add_assign, overflowing_add, u128, wrap. intros Ha Hb.
  destruct (Z.leb_spec (2 ^ 128) (low a + low b)); cbn [low high U248.set_low U248.set_high b2z]; lia.
Qed.

Lemma sub_assign_spec a b : u_ok a -> u_ok b ->
  u_val (U248.sub_assign a b) = (u_val a - u_val b) mod 2 ^ 256 /\ u_ok (U248.sub_assign a b).
Proof.
  unfold u_ok, u_val, U248.sub_assign, overflowing_sub, u128, wrap. intros Ha Hb.
  destruct (Z.ltb_spec (low a) (low b)); cbn [low high U248.set_low U248.set_high b2z]; lia.
Qed.

(** ** Comparison *)
Lemma cmp_spec a b : u_ok a -> u_ok b -> U248.cmp a b = (u_val a ?= u_val b).
Proof.
  unfold u_ok, u_val, U248.cmp, U248.cmp_words, U248.into_words. intros Ha Hb. cbn [fst snd].
  destruct (Z.compare_spec (high a) (high b)) as [E|E|E]; destruct (Z.compare_spec (low a) (low b)) as [F|F|F];
    symmetry; rewrite ?Z.compare_eq_iff, ?Z.compare_lt_iff, ?Z.compare_gt_iff; lia.
Qed.

(** ** Shifts *)

Lemma u_val_lor a : u_ok a -> u_val a = Z.lor (low a) (Z.shiftl (high a) 128).
Proof.
  intros [Hl Hh]. rewrite Z.lor_comm, lor_shifted by lia. rewrite Z.shiftl_mul_pow2 by lia. unfold u_val. lia.
Qed.

Lemma testbit_u_val a k : u_ok a -> 0 <= k ->
  Z.testbit (u_val a) k = if k <? 128 then Z.testbit (low a) k else Z.testbit (high a) (k - 128).
Proof.
  intros Ha Hk. rewrite u_val_lor by done. destruct Ha as [Hl Hh]. rewrite Z.lor_spec, testbit_shiftl by lia.
  destruct (Z.ltb_spec k 128).
  - rewrite (Z.testbit_neg_r (high a)) by lia. apply orb_false_r.
  - by rewrite (testbit_high 128 (low a)) by lia.
Qed.

Lemma testbit_shl_u128 x n k : 0 <= n < 128 -> Z.testbit (shl_u128 x n) k = (k <? 128) && Z.testbit x (k - n).
Proof. intros Hn. unfold shl_u128. rewrite Z.mod_small by lia. unfold u128. by rewrite testbit_wrap, testbit_shiftl by lia. Qed.

Lemma testbit_shr_u128 x n k : 0 <= n < 128 -> 0 <= k -> Z.testbit (shr_u128 x n) k = Z.testbit x (k + n).
Proof. intros Hn Hk. unfold shr_u128. by rewrite Z.mod_small, Z.shiftr_spec by lia. Qed.

Lemma shl_u128_range x n : 0 <= shl_u128 x n < 2 ^ 128.
Proof. apply (wrap_range 128). lia. Qed.

Lemma shr_u128_range x n : 0 <= x < 2 ^ 128 -> 0 <= shr_u128 x n < 2 ^ 128.
Proof. intros Hx. unfold shr_u128. apply shiftr_range; lia. Qed.

Lemma land_127 n : 128 <= n < 256 -> Z.land n 127 = n - 128.
Proof. intros Hn. change 127 with (Z.ones 7). rewrite Z.land_ones by lia. lia. Qed.

Lemma shr_assign_ok a n : u_ok a -> 0 <= n < 256 -> u_ok (U248.shr_assign a n).
Proof.
  intros [Hl Hh] Hn. unfold U248.shr_assign. destruct (Z.eqb_spec n 0); [done|].
  destruct (Z.leb_spec n 127); split; cbn [low high U248.set_low U248.set_high]; try lia;
    try (apply lor_range; [lia| |apply shl_u128_range]); by apply shr_u128_range.
Qed.

Lemma shl_assign_ok a n : u_ok a -> 0 <= n < 256 -> u_ok (U248.shl_assign a n).
Proof.
  intros [Hl Hh] Hn. unfold U248.shl_assign. destruct (Z.eqb_spec n 0); [done|].
  destruct (Z.leb_spec n 127); split; cbn [low high U248.set_low U248.set_high]; try lia;
    try (apply lor_range; [lia|apply shl_u128_range|by apply shr_u128_range]); apply shl_u128_range.
Qed.

Lemma shr_assign_spec a n : u_ok a -> 0 <= n < 256 -> u_val (U248.shr_assign a n) = u_val a / 2 ^ n.
Proof.
  intros Ha Hn. rewrite <- Z.shiftr_div_pow2 by lia. apply Z.bits_inj'. intros k Hk.
  rewrite testbit_u_val by (done || by apply shr_assign_ok). rewrite Z.shiftr_spec, testbit_u_val by (done || lia).
  destruct Ha as [Hl Hh]. unfold U248.shr_assign. destruct (Z.eqb_spec n 0) as [->|]; [by rewrite Z.add_0_r|].
  destruct (Z.leb_spec n 127); cbn [low high U248.set_low U248.set_high].
  - rewrite Z.lor_spec, testbit_shl_u128 by lia.
    destruct (Z.ltb_spec k 128); rewrite !testbit_shr_u128 by lia; destruct (Z.ltb_spec (k + n) 128); try lia; cbn [andb].
    + by rewrite (Z.testbit_neg_r (high a)), orb_false_r by lia.
    + rewrite (testbit_high 128 (low a)) by lia. cbn [orb]. f_equal. lia.
    + f_equal. lia.
  - rewrite land_127 by lia. destruct (Z.ltb_spec (k + n) 128); [lia|]. destruct (Z.ltb_spec k 128).
    + rewrite testbit_shr_u128 by lia. f_equal. lia.
    + by rewrite Z.bits_0, (testbit_high 128 (high a)) by lia.
Qed.

Lemma shl_assign_spec a n : u_ok a -> 0 <= n < 256 -> u_val (U248.shl_assign a n) = (u_val a * 2 ^ n) mod 2 ^ 256.
Proof.
  intros Ha Hn. rewrite <- Z.shiftl_mul_pow2 by lia. change (?x mod 2 ^ 256) with (wrap 256 x). apply Z.bits_inj'. intros k Hk.
  rewrite testbit_u_val by (done || by apply shl_assign_ok). rewrite testbit_wrap, testbit_shiftl by lia.
  destruct (Z.ltb_spec (k - n) 0).
  { rewrite (Z.testbit_neg_r (u_val a)), andb_false_r by lia. unfold U248.shl_assign. destruct (Z.eqb_spec n 0); [lia|].
    destruct (Z.leb_spec n 127); cbn [low high U248.set_low U248.set_high]; destruct (Z.ltb_spec k 128); try lia.
    - rewrite testbit_shl_u128 by lia. by rewrite (Z.testbit_neg_r (low a)), andb_false_r by lia.
    - by rewrite Z.bits_0.
    - rewrite land_127, testbit_shl_u128 by lia. by rewrite (Z.testbit_neg_r (low a)), andb_false_r by lia. }
  rewrite testbit_u_val by (done || lia). destruct Ha as [Hl Hh].
  unfold U248.shl_assign. destruct (Z.eqb_spec n 0) as [->|].
  { rewrite Z.sub_0_r. destruct (Z.ltb_spec k 128), (Z.ltb_spec k 256); try lia; try done. by rewrite (testbit_high 128 (high a)) by lia. }
  destruct (Z.leb_spec n 127); cbn [low high U248.set_low U248.set_high].
  - destruct (Z.ltb_spec k 128), (Z.ltb_spec (k - n) 128), (Z.ltb_spec k 256); try lia; rewrite ?Z.lor_spec, ?testbit_shl_u128, ?testbit_shr_u128 by lia.
    + by destruct (Z.ltb_spec k 128); [|lia].
    + rewrite (Z.testbit_neg_r (high a)), andb_false_r by lia. cbn [orb andb]. f_equal. lia.
    + rewrite (testbit_high 128 (low a) (_ + _)), orb_false_r by lia. destruct (Z.ltb_spec (k - 128) 128); [|lia]. cbn [andb]. f_equal. lia.
    + rewrite (testbit_high 128 (low a) (_ + _)), orb_false_r by lia. by destruct (Z.ltb_spec (k - 128) 128); [lia|].
  - rewrite land_127 by lia. destruct (Z.ltb_spec k 128); [lia|]. rewrite testbit_shl_u128 by lia.
    replace (k - 128 - (n - 128)) with (k - n) by lia.
    destruct (Z.ltb_spec (k - 128) 128), (Z.ltb_spec k 256), (Z.ltb_spec (k - n) 128); try lia; done.
Qed.

(** ** Multiplication *)

(** The halves of a word *)
Lemma land_mask x : Z.land x 0xFFFFFFFFFFFFFFFF = x mod 2 ^ 64.
Proof. change 0xFFFFFFFFFFFFFFFF with (Z.ones 64). by apply Z.land_ones. Qed.

Lemma shiftr_half x : Z.shiftr x 64 = x / 2 ^ 64.
Proof. by apply Z.shiftr_div_pow2. Qed.

Lemma shl_half x : 0 <= x < 2 ^ 64 -> shl_u128 x 64 = x * 2 ^ 64.
Proof.
  intros Hx. unfold shl_u128. change (64 mod 128) with 64. rewrite Z.shiftl_mul_pow2 by lia. unfold u128. apply wrap_small. lia.
Qed.

Lemma half_product a b : 0 <= a < 2 ^ 64 -> 0 <= b < 2 ^ 64 -> 0 <= a * b <= (2 ^ 64 - 1) * (2 ^ 64 - 1).
Proof. nia. Qed.

(** A product of words from the products of their halves *)
Lemma product_halves a b :
  a * b = (a mod 2 ^ 64) * (b mod 2 ^ 64) + 2 ^ 64 * ((a / 2 ^ 64) * (b mod 2 ^ 64) + (b / 2 ^ 64) * (a mod 2 ^ 64))
          + 2 ^ 128 * ((a / 2 ^ 64) * (b / 2 ^ 64)).
Proof.
  rewrite (Z.div_mod a (2 ^ 64)) at 1 by lia. rewrite (Z.div_mod b (2 ^ 64)) at 1 by lia.
  replace (2 ^ 128) with (2 ^ 64 * 2 ^ 64) by lia. ring.
Qed.

Lemma umulddi3_spec a b : 0 <= a < 2 ^ 128 -> 0 <= b < 2 ^ 128 ->
  u_ok (U248.umulddi3 a b) /\ u_val (U248.umulddi3 a b) = a * b.
Proof.
  intros Ha Hb. rewrite (product_halves a b). unfold U248.umulddi3. cbv zeta.
  change U248.LOWER_MASK with 0xFFFFFFFFFFFFFFFF. rewrite !land_mask, !shiftr_half.
  pose proof (Z.mod_pos_bound a (2 ^ 64)). pose proof (Z.mod_pos_bound b (2 ^ 64)).
  assert (0 <= a / 2 ^ 64 < 2 ^ 64) as Ha1 by lia. assert (0 <= b / 2 ^ 64 < 2 ^ 64) as Hb1 by lia.
  generalize dependent (a mod 2 ^ 64). generalize dependent (a / 2 ^ 64).
  generalize dependent (b mod 2 ^ 64). generalize dependent (b / 2 ^ 64). clear Ha Hb. intros b1 Hb1 b0 Hb0 a1 Ha1 a0 Ha0.
  pose proof (half_product a0 b0 ltac:(lia) ltac:(lia)) as P00. pose proof (half_product a1 b0 ltac:(lia) ltac:(lia)) as P10.
  pose proof (half_product b1 a0 ltac:(lia) ltac:(lia)) as P01. pose proof (half_product a1 b1 ltac:(lia) ltac:(lia)) as P11.
  generalize dependent (a0 * b0). generalize dependent (a1 * b0). generalize dependent (b1 * a0). generalize dependent (a1 * b1).
  clear. intros p11 H11 p01 H01 p10 H10 p00 H00.
  rewrite !shl_half by lia. unfold u128. rewrite !(wrap_small 128 p00), !(wrap_small 128 p10), !(wrap_small 128 p01), !(wrap_small 128 p11) by lia.
  rewrite !(wrap_small 128 (p00 / 2 ^ 64 + p10)) by lia. rewrite !(wrap_small 128 (p00 mod 2 ^ 64 + _)) by lia.
  unfold u_ok, u_val, wrap, U248.from_words. cbn [low high].
  lia.
Qed.

(** A product from the products of the words *)
Lemma product_words a b :
  u_val a * u_val b = low a * low b + 2 ^ 128 * (high a * low b + low a * high b) + 2 ^ 256 * (high a * high b).
Proof. unfold u_val. replace (2 ^ 256) with (2 ^ 128 * 2 ^ 128) by lia. ring. Qed.

Lemma mul_assign_spec a b : u_ok a -> u_ok b ->
  u_ok (U248.mul_assign a b) /\ u_val (U248.mul_assign a b) = (u_val a * u_val b) mod 2 ^ 256.
Proof.
  intros [Hal Hah] [Hbl Hbh]. destruct (umulddi3_spec (low a) (low b) Hal Hbl) as [[Hrl Hrh] Hr].
  rewrite product_words, <- Hr. unfold U248.mul_assign. cbv zeta.
  set (r := U248.umulddi3 (low a) (low b)) in *. clearbody r. clear Hr. unfold u_ok, u_val, U248.set_high. cbn [low high].
  generalize (high a * low b) (low a * high b) (high a * high b). clear - Hrl Hrh. intros x y z. unfold u128, wrap. lia.
Qed.

Lemma checked_mul_spec a b : u_ok a -> u_ok b ->
  U248.checked_mul a b =
    if (u_val a <? 2 ^ 248) && (u_val a * u_val b <? 2 ^ 256) then Some (of_val (u_val a * u_val b)) else None.
Proof.
  intros Ha Hb. unfold U248.checked_mul, overflowing_mul, overflowing_add. cbv zeta. rewrite is_valid_spec by done.
  destruct Ha as [Hal Hah], Hb as [Hbl Hbh]. destruct (umulddi3_spec (low a) (low b) Hal Hbl) as [[Hrl Hrh] Hr].
  rewrite product_words, <- Hr. destruct (u_val a <? 2 ^ 248); cbn [negb andb]; [|by rewrite orb_true_r].
  set (r := U248.umulddi3 (low a) (low b)) in *. clearbody r. rewrite orb_false_r.
  assert (0 <= high a * low b) as Hx by nia. assert (0 <= low a * high b) as Hy by nia.
  assert (negb (high a =? 0) && negb (high b =? 0) = true /\ 1 <= high a * high b \/
          negb (high a =? 0) && negb (high b =? 0) = false /\ high a * high b = 0) as Hz.
  { destruct (Z.eqb_spec (high a) 0), (Z.eqb_spec (high b) 0); cbn [negb andb]; try (right; split; [done | nia]). left. split; [done | nia]. }
  generalize dependent (high a * low b). generalize dependent (low a * high b). intros y Hy x Hx.
  generalize dependent (high a * high b). generalize dependent (negb (high a =? 0) && negb (high b =? 0)). clear - Hrl Hrh Hx Hy.
  intros both z Hz. unfold u_val, U248.set_high, of_val.
  destruct (Z.leb_spec (2 ^ 128) x) as [|Hxs].
  { cbn [orb]. destruct (Z.ltb_spec (low r + 2 ^ 128 * high r + 2 ^ 128 * (x + y) + 2 ^ 256 * z) (2 ^ 256)); [lia | done]. }
  destruct (Z.leb_spec (2 ^ 128) y) as [|Hys].
  { cbn [orb]. destruct (Z.ltb_spec (low r + 2 ^ 128 * high r + 2 ^ 128 * (x + y) + 2 ^ 256 * z) (2 ^ 256)); [lia | done]. }
  unfold u128. rewrite !(wrap_small 128 x), !(wrap_small 128 y) by lia. destruct (Z.leb_spec (2 ^ 128) (x + y)) as [|Hxy].
  { cbn [orb]. destruct (Z.ltb_spec (low r + 2 ^ 128 * high r + 2 ^ 128 * (x + y) + 2 ^ 256 * z) (2 ^ 256)); [lia | done]. }
  rewrite !(wrap_small 128 (x + y)) by lia. destruct (Z.leb_spec (2 ^ 128) (high r + (x + y))) as [|Hs].
  { cbn [orb]. destruct (Z.ltb_spec (low r + 2 ^ 128 * high r + 2 ^ 128 * (x + y) + 2 ^ 256 * z) (2 ^ 256)); [lia | done]. }
  rewrite wrap_small by lia. cbn [orb].
  destruct (Z.ltb_spec (low r + 2 ^ 128 * high r + 2 ^ 128 * (x + y) + 2 ^ 256 * z) (2 ^ 256)), Hz as [[-> Hz]|[-> Hz]]; try (exfalso; lia); [|done].
  do 2 f_equal; lia.
Qed.

(** ** Store and Load *)

Lemma leading_zeros_words a : u_ok a -> U248.leading_zeros a = leading_zeros (8 * 32) (u_val a).
Proof.
  intros [Hl Hh]. unfold U248.leading_zeros, U248.into_words, leading_zeros. destruct (Z.eqb_spec (high a) 0) as [E|E].
  - unfold u_val. rewrite E, Z.mul_0_r, Z.add_0_r. destruct (low a =? 0); lia.
  - destruct (Z.eqb_spec (u_val a) 0); [unfold u_val in *; lia|].
    assert (u_val a = Z.shiftl (high a) 128 + low a) as Ea by (rewrite Z.shiftl_mul_pow2 by lia; unfold u_val; lia).
    rewrite Ea, <- lor_shifted, Z.log2_lor by (try (apply Z.shiftl_nonneg); lia). rewrite Z.log2_shiftl by lia.
    assert (Z.log2 (low a) < 128) by (destruct (Z.eqb_spec (low a) 0) as [->|]; [done | apply Z.log2_lt_pow2; lia]).
    pose proof (Z.log2_nonneg (high a)). lia.
Qed.

Lemma store_VarUint248_spec ctx b v : builder_wf b -> u_ok v ->
  store_into v ctx b = if u_val v <? 2 ^ 248 then append_full b (var_enc 5 (u_val v), []) else Err CellOverflow.
Proof.
  intros Hb Hv. pose proof (u_val_range v Hv) as Hr. pose proof Hv as [Hl Hh].
  unfold store_into, Store_VarUint248. rewrite leading_zeros_words by done. unfold U248.into_words.
  refine (store_var b (u_val v) 32 31 5 (fun c n => match checked_sub n 128 with
    | Some high_bits => let! c := Num.store_u128 c (high v) high_bits in Num.store_u128 c (low v) (u16 (n - high_bits))
    | None => Num.store_u128 c (low v) n end) Hb Hr _ _ _ _); [lia..|].
  intros c Hc Hfit. pose proof (bytes_needed_nonneg (u_val v) ltac:(lia)). pose proof (bytes_needed_spec (u_val v) 31 ltac:(lia) ltac:(lia)).
  pose proof (bytes_needed_fits (u_val v) ltac:(lia)) as Hneed. rewrite (Z.mul_comm _ 8). set (n := bytes_needed (u_val v)) in *. clearbody n.
  unfold checked_sub. destruct (Z.leb_spec 128 (8 * n)).
  - rewrite store_u128_wide by (done || lia). rewrite (append_bind c _ (uint_bits 128 (low v), [])); [..|done|].
    + cbn [fst snd]. rewrite app_nil_r. f_equal. f_equal. replace (8 * n) with (8 * n - 128 + 128) at 2 by lia. rewrite uint_bits_split by lia.
      rewrite Z.shiftr_div_pow2 by lia. f_equal; [f_equal; unfold u_val; lia|]. apply uint_bits_ext. intros i Hi.
      rewrite testbit_u_val by (done || lia). by destruct (Z.ltb_spec i 128); [|lia].
    + intros d Hd. replace (u16 (8 * n - (8 * n - 128))) with 128 by (rewrite u16_small; lia). by rewrite store_u128_wide by (done || lia).
  - rewrite store_u128_wide by (done || lia). f_equal. f_equal. apply uint_bits_ext. intros i Hi.
    rewrite testbit_u_val by (done || lia). by destruct (Z.ltb_spec i 128); [|lia].
Qed.

Lemma load_VarUint248_spec s m x l : slice_wf s -> 0 <= m <= 31 -> 0 <= x < 2 ^ (8 * m) -> slice_bits s = padded 5 m x ++ l ->
  exists s', load_from s = Ok (of_val x, s') /\ moved s s' l.
Proof.
  intros Hs Hm Hx E. unfold padded in E. rewrite <- app_assoc in E. unfold load_from, Load_VarUint248, U248.LEN_BITS.
  destruct (load_front s 5 bits_uint (load_small_uint s 5) (uint_bits 5 m) (uint_bits (8 * m) x ++ l)) as (s1 & -> & M1);
    [done | done | done | by apply load_small_uint_spec |].
  rewrite bits_uint_bits by lia. cbn [rbind]. pose proof (mv_wf _ _ _ M1) as Hs1. pose proof (mv_bits _ _ _ M1) as Hb1.
  assert (m <= 16 -> exists s', (let! (lo, slice) := Num.load_u128 s1 m in Ok (U248.from_words 0 lo, slice)) = Ok (of_val x, s') /\ moved s s' l) as Hshort.
  { intros Hle. destruct (load_u128_wide s1 m (uint_bits (8 * m) x) l Hs1 ltac:(lia) ltac:(rewrite zlen_uint_bits; lia) Hb1) as (s2 & -> & M2).
    rewrite bits_uint_bits by lia. exists s2. split; [|by eapply moved_trans]. cbn [rbind]. unfold U248.from_words, of_val.
    assert (2 ^ (8 * m) <= 2 ^ 128) by (apply Z.pow_le_mono_r; lia). by rewrite Z.mod_small, Z.div_small by lia. }
  unfold checked_sub. destruct (Z.leb_spec 16 m); [|apply Hshort; lia]. destruct (Z.ltb_spec 0 (m - 16)); [|apply Hshort; lia].
  replace (8 * m) with (8 * (m - 16) + 128) in Hb1 by lia. rewrite uint_bits_split, <- app_assoc in Hb1 by lia.
  destruct (load_u128_wide s1 (m - 16) (uint_bits (8 * (m - 16)) (Z.shiftr x 128)) (uint_bits 128 x ++ l) Hs1 ltac:(lia) ltac:(rewrite zlen_uint_bits; lia) Hb1) as (s2 & -> & M2). cbn [rbind].
  destruct (load_u128_wide s2 (m - (m - 16)) (uint_bits 128 x) l (mv_wf _ _ _ M2) ltac:(lia) ltac:(rewrite zlen_uint_bits; lia) (mv_bits _ _ _ M2)) as (s3 & -> & M3).
  cbn [rbind]. exists s3. split; [|by eapply moved_trans; [|eapply moved_trans]]. do 2 f_equal. unfold U248.from_words, of_val.
  assert (0 <= x / 2 ^ 128 < 2 ^ (8 * (m - 16))) as Hhi.
  { assert (2 ^ (8 * m) = 2 ^ 128 * 2 ^ (8 * (m - 16))) as Ep by (rewrite <- Z.pow_add_r by lia; f_equal; lia).
    split; [lia|]. apply Z.div_lt_upper_bound; lia. }
  rewrite Z.shiftr_div_pow2, (bits_uint_bits (8 * (m - 16))) by lia. f_equal.
  rewrite <- (uint_bits_wrap 128 128 x) by lia. by rewrite bits_uint_bits by first [lia | apply wrap_range; lia].
Qed.

#[export] Program Instance Codec_VarUint248 : Codec VarUint248 := {
  enc_ok v := u_ok v /\ u_val v < 2 ^ 248; enc v := (var_enc 5 (u_val v), []) }.
Next Obligation.
  intros ctx b v Hb [Hv Hfit]. rewrite store_VarUint248_spec by done. by destruct (Z.ltb_spec (u_val v) (2 ^ 248)); [|lia].
Qed.
Next Obligation.
  intros s v l rs Hs [Hv Hfit] Hb Hr. cbn [fst snd] in *. pose proof (u_val_range v Hv).
  destruct (var_enc_padded 5 31 (u_val v) ltac:(lia) ltac:(lia)) as (E & ? & ?). rewrite E in Hb.
  apply moved_codec; [|done]. rewrite <- (of_val_val v) by done. by eapply load_VarUint248_spec.
Qed.
