(* ===== verification/VarUint248Div.v ===== *)
(** * VarUint248Div: the division of [VarUint248] is Euclidean division

    A quotient digit is guessed from the leading digits and corrected; [guess] says when
    a guess is right.  The same argument serves the 64-bit digits of
    [udiv256_by_128_to_128] and the 128-bit digit of [div_mod_knuth], where it also shows
    that the guess needs no second correction. *)

From S2P Require Import Prelude Bits NumSpec VarUint248 VarUint248Spec.

(** ** Guessing a digit: [u * b + u0] by [v1 * b + v0], with [u = q * v1 + r] *)
Section Guess.
Variables b v1 v0 u u0 : Z.
Hypotheses (Hv1 : 0 < v1 < b) (Hv0 : 0 <= v0 < b) (Hu0 : 0 <= u0 < b) (Hu : 0 <= u < v1 * b + v0).

Definition quotient : Z := (u * b + u0) / (v1 * b + v0).

Lemma quotient_bounds : 0 <= quotient < b.
Proof using All. unfold quotient. split; [apply Z.div_pos; nia | apply Z.div_lt_upper_bound; nia]. Qed.

(** A guess is too large exactly when the test of the code says so. *)
Lemma guess_too_large q r : u = q * v1 + r -> b * r + u0 < q * v0 <-> quotient < q.
Proof using All.
  intros E. unfold quotient. assert (0 < v1 * b + v0) as Hpos by nia.
  assert (q * (v1 * b + v0) - (u * b + u0) = q * v0 - (b * r + u0)) as Ediff by (rewrite E; ring).
  pose proof (Z.div_mod (u * b + u0) (v1 * b + v0) ltac:(lia)) as Em. pose proof (Z.mod_pos_bound (u * b + u0) (v1 * b + v0) Hpos) as Hm.
  split; intros Hlt; [apply Z.div_lt_upper_bound; lia|].
  destruct (Z.lt_ge_cases (b * r + u0) (q * v0)) as [|Hge]; [done|]. exfalso.
  assert (q <= (u * b + u0) / (v1 * b + v0)) by (apply Z.div_le_lower_bound; lia). lia.
Qed.

Lemma guess_first : b <= 2 * v1 -> 0 <= u / v1 <= b + 1 /\ quotient <= u / v1 /\ u = u / v1 * v1 + u mod v1 /\ 0 <= u mod v1 < v1.
Proof using All.
  intros Hhalf.
  pose proof (Z.div_mod u v1 ltac:(lia)) as E. pose proof (Z.mod_pos_bound u v1 ltac:(lia)) as Hr.
  assert (0 <= u / v1) by (apply Z.div_pos; lia).
  assert (u / v1 < b + 2) by (apply Z.div_lt_upper_bound; nia).
  split_and!; try lia. destruct (Z.lt_ge_cases (u / v1) quotient) as [Hlt|]; [|done]. exfalso.
  assert (quotient * (v1 * b + v0) <= u * b + u0) by (unfold quotient; rewrite Z.mul_comm; apply Z.mul_div_le; nia).
  nia.
Qed.

(** With the remainder a whole digit large, the guess is right. *)
Lemma guess_final q r : u = q * v1 + r -> b <= r -> quotient <= q <= b -> q = quotient.
Proof using All.
  intros E Hr Hq. destruct (Z.lt_ge_cases quotient q) as [Hlt|]; [|lia].
  apply (guess_too_large q r E) in Hlt. nia.
Qed.

Lemma guess_right q r : u = q * v1 + r -> ~ b * r + u0 < q * v0 -> quotient <= q -> q = quotient.
Proof using All. intros E Ht Hq. rewrite (guess_too_large q r E) in Ht. lia. Qed.

Lemma guess_remainder : (u * b + u0) mod (v1 * b + v0) = u * b + u0 - quotient * (v1 * b + v0).
Proof using All. intros. unfold quotient. rewrite Z.mod_eq by nia. ring. Qed.
End Guess.

(** ** The loops *)

Lemma correct_digit_spec v1 v0 u u0 q r fuel :
  0 < v1 < 2 ^ 64 -> 2 ^ 64 <= 2 * v1 -> 0 <= v0 < 2 ^ 64 -> 0 <= u0 < 2 ^ 64 -> 0 <= u < v1 * 2 ^ 64 + v0 ->
  u = q * v1 + r -> 0 <= r < 2 ^ 64 -> quotient (2 ^ 64) v1 v0 u u0 <= q <= 2 ^ 64 + 1 -> 2 ^ 64 <= r + Z.of_nat fuel * v1 -> (0 < fuel)%nat ->
  exists r', Division.correct_digit fuel q r v1 v0 u0 = Returns (quotient (2 ^ 64) v1 v0 u u0, r').
Proof.
  intros Hv1 Hhalf Hv0 Hu0 Hu. revert q r. induction fuel as [|fuel IH]; intros q r E Hr Hq Hfuel Hpos; [lia|].
  cbn [Division.correct_digit]. unfold Division.B. pose proof (quotient_bounds (2 ^ 64) v1 v0 u u0 Hv1 Hv0 Hu0 Hu) as Hb.
  pose proof (guess_too_large (2 ^ 64) v1 v0 u u0 Hv1 Hv0 Hu0 Hu q r E) as Hlarge.
  assert ((2 ^ 64 <=? q) || (u128 (u128 (2 ^ 64 * r) + u0) <? u128 (q * v0)) = (quotient (2 ^ 64) v1 v0 u u0 <? q)) as ->.
  { destruct (Z.leb_spec (2 ^ 64) q); cbn [orb]; [destruct (Z.ltb_spec (quotient (2 ^ 64) v1 v0 u u0) q); lia|].
    assert (0 <= q * v0 < 2 ^ 128) by nia. unfold u128. rewrite (wrap_small 128 (2 ^ 64 * r)), (wrap_small 128 (q * v0)), wrap_small by lia.
    zcases; lia. }
  destruct (Z.ltb_spec (quotient (2 ^ 64) v1 v0 u u0) q) as [Hlt|].
  - unfold u128. rewrite !wrap_small by lia.
    assert (u = (q - 1) * v1 + (r + v1)) as E' by (rewrite E; ring).
    destruct (Z.leb_spec (2 ^ 64) (r + v1)) as [Hdone|].
    + exists (r + v1). rewrite (guess_final (2 ^ 64) v1 v0 u u0 Hv1 Hv0 Hu0 Hu (q - 1) (r + v1) E'); [done | lia..].
    + apply IH; lia.
  - exists r. by replace q with (quotient (2 ^ 64) v1 v0 u u0) by lia.
Qed.

(** A digit from its first guess: the quotient; the wrapping difference is the remainder. *)
Lemma digit_spec v1 v0 u u0 :
  0 < v1 < 2 ^ 64 -> 2 ^ 64 <= 2 * v1 -> 0 <= v0 < 2 ^ 64 -> 0 <= u0 < 2 ^ 64 -> 0 <= u < v1 * 2 ^ 64 + v0 ->
  exists r', Division.correct_digit 3 (u / v1) (u128 (u - u128 (u / v1 * v1))) v1 v0 u0 = Returns (quotient (2 ^ 64) v1 v0 u u0, r').
Proof.
  intros Hv1 Hhalf Hv0 Hu0 Hu. destruct (guess_first (2 ^ 64) v1 v0 u u0 Hv1 Hv0 Hu0 Hu Hhalf) as (Hq & Hge & E & Hr).
  unfold u128. rewrite (wrap_small 128 (u / v1 * v1)) by nia. replace (u - u / v1 * v1) with (u mod v1) by lia.
  rewrite wrap_small by lia. apply correct_digit_spec; (done || lia).
Qed.

Lemma wrapped_remainder v1 v0 u u0 :
  0 < v1 < 2 ^ 64 -> 0 <= v0 < 2 ^ 64 -> 0 <= u0 < 2 ^ 64 -> 0 <= u < v1 * 2 ^ 64 + v0 ->
  u128 (u128 (u128 (u * 2 ^ 64) + u0) - u128 (quotient (2 ^ 64) v1 v0 u u0 * (v1 * 2 ^ 64 + v0))) = (u * 2 ^ 64 + u0) mod (v1 * 2 ^ 64 + v0).
Proof.
  intros Hv1 Hv0 Hu0 Hu. rewrite guess_remainder by lia. set (q := quotient _ _ _ _ _).
  pose proof (guess_remainder (2 ^ 64) v1 v0 u u0 Hv1 Hv0 Hu0 Hu) as E. fold q in E.
  pose proof (Z.mod_pos_bound (u * 2 ^ 64 + u0) (v1 * 2 ^ 64 + v0) ltac:(lia)) as Hm. rewrite E in Hm.
  generalize dependent (q * (v1 * 2 ^ 64 + v0)). intros p E Hm. unfold u128, wrap. lia.
Qed.

(** ** Normalization *)

Lemma normalized v : 0 < v < 2 ^ 128 ->
  let s := leading_zeros 128 v in 0 <= s <= 127 /\ 2 ^ 127 <= v * 2 ^ s < 2 ^ 128.
Proof.
  intros Hv. unfold leading_zeros. destruct (Z.eqb_spec v 0); [lia|]. cbv zeta.
  pose proof (Z.log2_spec v ltac:(lia)) as [Hlo Hhi]. pose proof (Z.log2_nonneg v) as Hn.
  assert (Z.log2 v < 128) as Hlt by (apply Z.log2_lt_pow2; lia). split; [lia|].
  set (s := 128 - 1 - Z.log2 v). rewrite Z.pow_succ_r in Hhi by lia.
  assert (2 ^ 127 = 2 ^ Z.log2 v * 2 ^ s) as E by (rewrite <- Z.pow_add_r by (unfold s; lia); f_equal; unfold s; lia).
  pose proof (Z.pow_pos_nonneg 2 s ltac:(lia) ltac:(lia)). nia.
Qed.

Lemma pow_halves s : 0 <= s <= 128 -> 2 ^ 128 = 2 ^ (128 - s) * 2 ^ s /\ 0 < 2 ^ s /\ 0 < 2 ^ (128 - s).
Proof.
  intros Hs. rewrite <- Z.pow_add_r by lia. split_and!; [f_equal; lia | apply Z.pow_pos_nonneg; lia..].
Qed.

Lemma shl_u128_mod x s : 0 <= s < 128 -> shl_u128 x s = x mod 2 ^ (128 - s) * 2 ^ s.
Proof.
  intros Hs. unfold shl_u128, u128, wrap. rewrite (Z.mod_small s), Z.shiftl_mul_pow2 by lia.
  destruct (pow_halves s) as (E & ? & ?); [lia|]. rewrite E. by rewrite Z.mul_mod_distr_r by lia.
Qed.

Lemma shl_u128_exact x s : 0 <= s < 128 -> 0 <= x -> x * 2 ^ s < 2 ^ 128 -> shl_u128 x s = x * 2 ^ s.
Proof.
  intros Hs Hx Hlt. rewrite shl_u128_mod by done. destruct (pow_halves s) as (E & ? & ?); [lia|].
  rewrite Z.mod_small; [done|]. nia.
Qed.

Lemma shr_u128_div x s : 0 <= s < 128 -> shr_u128 x s = x / 2 ^ s.
Proof. intros Hs. unfold shr_u128. by rewrite (Z.mod_small s), Z.shiftr_div_pow2 by lia. Qed.

(** Two words shifted together *)
Lemma lor_words hi lo s : 0 < s < 128 -> 0 <= hi -> hi * 2 ^ s < 2 ^ 128 -> 0 <= lo < 2 ^ 128 ->
  Z.lor (shl_u128 hi s) (shr_u128 lo (128 - s)) = hi * 2 ^ s + lo / 2 ^ (128 - s).
Proof.
  intros Hs Hhi Hfit Hlo. rewrite shl_u128_exact, shr_u128_div by lia. rewrite <- Z.shiftl_mul_pow2 by lia. apply lor_shifted; [lia|].
  destruct (pow_halves s) as (E & ? & ?); [lia|]. split; [apply Z.div_pos; lia | apply Z.div_lt_upper_bound; lia].
Qed.

Lemma shifted_pair hi lo s : 0 <= s <= 128 ->
  (hi * 2 ^ s + lo / 2 ^ (128 - s)) * 2 ^ 128 + lo mod 2 ^ (128 - s) * 2 ^ s = (hi * 2 ^ 128 + lo) * 2 ^ s.
Proof.
  intros Hs. destruct (pow_halves s Hs) as (E & ? & ?). rewrite E. rewrite (Z.div_mod lo (2 ^ (128 - s))) at 3 by lia. ring.
Qed.

Lemma div_shifted x y s : 0 < y -> 0 <= s -> x * 2 ^ s / (y * 2 ^ s) = x / y /\ (x * 2 ^ s) mod (y * 2 ^ s) / 2 ^ s = x mod y.
Proof.
  intros Hy Hs. pose proof (Z.pow_pos_nonneg 2 s ltac:(lia) Hs). rewrite Z.div_mul_cancel_r, Z.mul_mod_distr_r, Z.div_mul by lia. done.
Qed.

(** ** A division by one word *)

(** The digits of a two-word dividend *)
Lemma two_digits u h l v : 0 < v -> 0 <= u < v -> 0 <= h < 2 ^ 64 -> 0 <= l < 2 ^ 64 ->
  let q1 := (u * 2 ^ 64 + h) / v in let rest := (u * 2 ^ 64 + h) mod v in
  (u * 2 ^ 128 + (h * 2 ^ 64 + l)) / v = q1 * 2 ^ 64 + (rest * 2 ^ 64 + l) / v /\
  (u * 2 ^ 128 + (h * 2 ^ 64 + l)) mod v = (rest * 2 ^ 64 + l) mod v.
Proof.
  intros Hv Hu Hh Hl. cbv zeta. set (m := u * 2 ^ 64 + h).
  replace (u * 2 ^ 128 + (h * 2 ^ 64 + l)) with (m / v * 2 ^ 64 * v + (m mod v * 2 ^ 64 + l)).
  - rewrite Z.div_add_l by lia. split; [lia|]. by rewrite Z.add_comm, Z.mod_add by lia.
  - replace (u * 2 ^ 128 + (h * 2 ^ 64 + l)) with (m * 2 ^ 64 + l) by (unfold m; lia).
    rewrite (Z.div_mod m v) at 3 by lia. ring.
Qed.

Lemma udiv256_spec u1 u0 v : 0 <= u1 < v -> v < 2 ^ 128 -> 0 <= u0 < 2 ^ 128 ->
  Division.udiv256_by_128_to_128 u1 u0 v = Returns ((u1 * 2 ^ 128 + u0) / v, (u1 * 2 ^ 128 + u0) mod v).
Proof.
  intros Hu1 Hv Hu0. pose proof (normalized v ltac:(lia)) as Hn. cbv zeta in Hn. unfold Division.udiv256_by_128_to_128. cbv zeta.
  set (s := leading_zeros 128 v) in *. destruct Hn as [Hs Hnorm].
  assert (u1 * 2 ^ s < v * 2 ^ s) as Hfit by (apply Z.mul_lt_mono_pos_r; [apply Z.pow_pos_nonneg|]; lia).
  assert ((if 0 <? s then (shl_u128 v s, Z.lor (shl_u128 u1 s) (shr_u128 u0 (128 - s)), shl_u128 u0 s) else (v, u1, u0)) =
    (v * 2 ^ s, u1 * 2 ^ s + u0 / 2 ^ (128 - s), u0 mod 2 ^ (128 - s) * 2 ^ s)) as ->.
  { destruct (Z.ltb_spec 0 s).
    - by rewrite lor_words, shl_u128_exact, shl_u128_mod by lia.
    - replace s with 0 by lia. change (2 ^ 0) with 1. rewrite Z.div_small, Z.mod_small by lia. do 2 f_equal; lia. }
  pose proof (shifted_pair u1 u0 s ltac:(lia)) as Epair. destruct (div_shifted (u1 * 2 ^ 128 + u0) v s ltac:(lia) ltac:(lia)) as [<- <-].
  rewrite <- Epair. clear Epair.
  assert (0 <= u0 mod 2 ^ (128 - s) * 2 ^ s < 2 ^ 128) as Hlow.
  { destruct (pow_halves s ltac:(lia)) as (E & ? & ?). pose proof (Z.mod_pos_bound u0 (2 ^ (128 - s)) ltac:(lia)). nia. }
  assert (0 <= u1 * 2 ^ s + u0 / 2 ^ (128 - s) < v * 2 ^ s) as Hhigh.
  { destruct (pow_halves s ltac:(lia)) as (E & ? & ?). assert (0 <= u0 / 2 ^ (128 - s) < 2 ^ s) by
      (split; [apply Z.div_pos; lia | apply Z.div_lt_upper_bound; lia]). nia. }
  generalize dependent (v * 2 ^ s). generalize dependent (u1 * 2 ^ s + u0 / 2 ^ (128 - s)). generalize dependent (u0 mod 2 ^ (128 - s) * 2 ^ s).
  clear Hu1 Hv Hu0. intros l Hl u V HV _ Hu. rewrite !land_mask, !shiftr_half.
  set (v1 := V / 2 ^ 64). set (v0 := V mod 2 ^ 64).
  assert (0 < v1 < 2 ^ 64 /\ 2 ^ 64 <= 2 * v1 /\ 0 <= v0 < 2 ^ 64 /\ V = v1 * 2 ^ 64 + v0) as (Hv1 & Hhalf & Hv0 & EV) by (unfold v1, v0; lia).
  set (l1 := l / 2 ^ 64). set (l0 := l mod 2 ^ 64).
  assert (0 <= l1 < 2 ^ 64 /\ 0 <= l0 < 2 ^ 64 /\ l = l1 * 2 ^ 64 + l0) as (Hl1 & Hl0 & El) by (unfold l1, l0; lia).
  clearbody v1 v0 l1 l0. rewrite EV in Hu. unfold div_u128. destruct (Z.eqb_spec v1 0); [lia|]. cbn [obind].
  destruct (digit_spec v1 v0 u l1 Hv1 Hhalf Hv0 Hl1 Hu) as (r1 & ->). cbn [obind]. unfold Division.B.
  rewrite EV, wrapped_remainder by done. set (u21 := (u * 2 ^ 64 + l1) mod (v1 * 2 ^ 64 + v0)).
  assert (0 <= u21 < v1 * 2 ^ 64 + v0) as Hu21 by (apply Z.mod_pos_bound; lia).
  destruct (digit_spec v1 v0 u21 l0 Hv1 Hhalf Hv0 Hl0 Hu21) as (r0 & ->). cbn [obind].
  rewrite wrapped_remainder by done. rewrite shr_u128_div by lia.
  pose proof (quotient_bounds (2 ^ 64) v1 v0 u l1 Hv1 Hv0 Hl1 Hu) as Hq1. pose proof (quotient_bounds (2 ^ 64) v1 v0 u21 l0 Hv1 Hv0 Hl0 Hu21) as Hq0.
  destruct (two_digits u l1 l0 (v1 * 2 ^ 64 + v0) ltac:(lia) Hu Hl1 Hl0) as [Eq Er]. rewrite El, Eq, Er.
  fold u21. change ((u * 2 ^ 64 + l1) / _) with (quotient (2 ^ 64) v1 v0 u l1). change ((u21 * 2 ^ 64 + l0) / _) with (quotient (2 ^ 64) v1 v0 u21 l0).
  generalize dependent (quotient (2 ^ 64) v1 v0 u l1). generalize dependent (quotient (2 ^ 64) v1 v0 u21 l0). intros q0 Hq0 q1 Hq1.
  clear - Hq0 Hq1. unfold u128. by rewrite (wrap_small 128 (q1 * 2 ^ 64)), wrap_small by lia.
Qed.

(** ** Words of three *)

Definition val3 (w : Division.words3) : Z := w.1.1 + 2 ^ 128 * w.1.2 + 2 ^ 256 * w.2.
Definition ok3 (w : Division.words3) : Prop := 0 <= w.1.1 < 2 ^ 128 /\ 0 <= w.1.2 < 2 ^ 128 /\ 0 <= w.2 < 2 ^ 128.

Lemma fullmul_u128_spec a b : 0 <= a < 2 ^ 128 -> 0 <= b < 2 ^ 128 ->
  let w := Division.fullmul_u128 a b in 0 <= w.1 < 2 ^ 128 /\ 0 <= w.2 < 2 ^ 128 /\ w.1 + 2 ^ 128 * w.2 = a * b.
Proof.
  intros Ha Hb. rewrite (product_halves a b). unfold Division.fullmul_u128, Division.split_u128_to_u128. cbv zeta. cbn [fst snd].
  rewrite !land_mask, !shiftr_half. pose proof (Z.mod_pos_bound a (2 ^ 64)). pose proof (Z.mod_pos_bound b (2 ^ 64)).
  assert (0 <= a / 2 ^ 64 < 2 ^ 64) as Ha1 by lia. assert (0 <= b / 2 ^ 64 < 2 ^ 64) as Hb1 by lia.
  generalize dependent (a mod 2 ^ 64). generalize dependent (a / 2 ^ 64).
  generalize dependent (b mod 2 ^ 64). generalize dependent (b / 2 ^ 64). clear Ha Hb. intros b1 Hb1 b0 Hb0 a1 Ha1 a0 Ha0.
  rewrite (Z.mul_comm b1 a0).
  pose proof (half_product a0 b0 ltac:(lia) ltac:(lia)) as P00. pose proof (half_product a1 b0 ltac:(lia) ltac:(lia)) as P10.
  pose proof (half_product a0 b1 ltac:(lia) ltac:(lia)) as P01. pose proof (half_product a1 b1 ltac:(lia) ltac:(lia)) as P11.
  generalize dependent (a0 * b0). generalize dependent (a1 * b0). generalize dependent (a0 * b1). generalize dependent (a1 * b1).
  clear. intros p11 H11 p01 H01 p10 H10 p00 H00. rewrite shl_u128_mod by lia. change (128 - 64) with 64.
  unfold u128. rewrite !(wrap_small 128 p00), !(wrap_small 128 p10), !(wrap_small 128 p01), !(wrap_small 128 p11) by lia.
  rewrite !(wrap_small 128 (p10 + p00 / 2 ^ 64)) by lia. rewrite !(wrap_small 128 (p01 + _)) by lia.
  rewrite !(wrap_small 128 (p11 + _)) by lia. rewrite !(wrap_small 128) by lia. lia.
Qed.

Lemma fullmul_u256_spec a b : u_ok a -> 0 <= b < 2 ^ 128 ->
  ok3 (Division.fullmul_u256_u128 a b) /\ val3 (Division.fullmul_u256_u128 a b) = u_val a * b.
Proof.
  intros [Hl Hh] Hb. unfold Division.fullmul_u256_u128, ok3, val3, u_val. destruct (Z.eqb_spec b 0) as [->|]; cbn [negb fst snd]; [lia|].
  pose proof (fullmul_u128_spec (low a) b Hl Hb) as Pl. pose proof (fullmul_u128_spec (high a) b Hh Hb) as Ph. cbv zeta in Pl, Ph.
  destruct (Division.fullmul_u128 (low a) b) as [l1 c1], (Division.fullmul_u128 (high a) b) as [l2 c2]. cbn [fst snd] in *.
  assert (high a * b <= (2 ^ 128 - 1) * (2 ^ 128 - 1)) by nia.
  replace ((low a + 2 ^ 128 * high a) * b) with (low a * b + 2 ^ 128 * (high a * b)) by ring.
  unfold overflowing_add. cbn [fst snd]. destruct Pl as (Hl1 & Hc1 & El), Ph as (Hl2 & Hc2 & Eh).
  rewrite <- El, <- Eh in *.
  destruct (Z.leb_spec (2 ^ 128) (c1 + l2)); cbn [b2z]; unfold u128, wrap; lia.
Qed.

Lemma sub_carry_spec a b c : 0 <= a < 2 ^ 128 -> 0 <= b < 2 ^ 128 ->
  let r := Division.sub_carry a b c in 0 <= r.1 < 2 ^ 128 /\ r.1 - 2 ^ 128 * b2z r.2 = a - b - b2z c.
Proof.
  intros Ha Hb. unfold Division.sub_carry, overflowing_add, overflowing_sub, u128, wrap. cbn [fst snd].
  destruct c; cbn [b2z]; repeat (match goal with |- context [?x <=? ?y] => destruct (Z.leb_spec x y) | |- context [?x <? ?y] => destruct (Z.ltb_spec x y) end);
    cbn [orb b2z]; lia.
Qed.

(** The multiple of the divisor is subtracted without a borrow. *)
Lemma sub3_spec u p : ok3 u -> ok3 p -> val3 p <= val3 u ->
  let r0 := Division.sub_carry u.1.1 p.1.1 false in let r1 := Division.sub_carry u.1.2 p.1.2 r0.2 in
  let r2 := Division.sub_carry u.2 p.2 r1.2 in
  r2.2 = false /\ ok3 (r0.1, r1.1, r2.1) /\ val3 (r0.1, r1.1, r2.1) = val3 u - val3 p.
Proof.
  unfold ok3, val3. cbn [fst snd]. intros (Hu0 & Hu1 & Hu2) (Hp0 & Hp1 & Hp2) Hle. cbv zeta.
  destruct (sub_carry_spec u.1.1 p.1.1 false Hu0 Hp0) as [B0 E0]. set (r0 := Division.sub_carry u.1.1 p.1.1 false) in *.
  destruct (sub_carry_spec u.1.2 p.1.2 r0.2 Hu1 Hp1) as [B1 E1]. set (r1 := Division.sub_carry u.1.2 p.1.2 r0.2) in *.
  destruct (sub_carry_spec u.2 p.2 r1.2 Hu2 Hp2) as [B2 E2]. set (r2 := Division.sub_carry u.2 p.2 r1.2) in *.
  clearbody r0 r1 r2. destruct r0 as [x0 c0], r1 as [x1 c1], r2 as [x2 c2]. cbn [fst snd] in *.
  destruct c0, c1, c2; cbn [b2z] in *; split_and!; (done || lia).
Qed.

(** ** Shifts across three words *)

Lemma digit_bound x y p r : 0 <= x < p -> 0 <= y < r -> 0 <= x * r + y < r * p.
Proof. nia. Qed.

Lemma full_shl_spec a s : u_ok a -> 0 <= s <= 127 ->
  ok3 (Division.full_shl a s) /\ val3 (Division.full_shl a s) = u_val a * 2 ^ s.
Proof.
  intros Ha Hs. unfold Division.full_shl, ok3, val3. cbn [fst snd].
  destruct (shr_assign_ok a (128 - s) Ha ltac:(lia)) as [Hl Hh]. pose proof (shr_assign_spec a (128 - s) Ha ltac:(lia)) as E.
  set (h := U248.shr_assign a (128 - s)) in *. clearbody h. split; [split; [apply shl_u128_range | done]|].
  rewrite shl_u128_mod by lia. destruct (pow_halves s ltac:(lia)) as (Ep & ? & ?).
  assert (low a mod 2 ^ (128 - s) = u_val a mod 2 ^ (128 - s)) as ->.
  { unfold u_val. rewrite Ep. rewrite <- Z.mul_assoc, (Z.mul_comm (2 ^ (128 - s))), Z.mod_add by lia. done. }
  replace (2 ^ 128 * low h + 2 ^ 256 * high h) with (2 ^ 128 * u_val h) by (unfold u_val; lia).
  rewrite <- Z.add_assoc. replace (2 ^ 128 * low h + 2 ^ 256 * high h) with (2 ^ 128 * u_val h) by (unfold u_val; lia).
  rewrite E, Ep. rewrite (Z.div_mod (u_val a) (2 ^ (128 - s))) at 3 by lia. ring.
Qed.

Lemma full_shr_spec u s : ok3 u -> 0 <= s <= 127 -> val3 u / 2 ^ s < 2 ^ 256 ->
  u_ok (Division.full_shr u s) /\ u_val (Division.full_shr u s) = val3 u / 2 ^ s.
Proof.
  destruct u as [[u0 u1] u2]. unfold ok3, val3. cbn [fst snd]. intros (H0 & H1 & H2) Hs Hfit. unfold Division.full_shr.
  destruct (Z.ltb_spec 0 s); cycle 1.
  { replace s with 0 in * by lia. change (2 ^ 0) with 1 in *. rewrite Z.div_1_r in *. rewrite !shr_u128_div by lia.
    change (2 ^ 0) with 1. unfold u_ok, u_val. cbn [low high]. rewrite !Z.div_1_r. lia. }
  cbn [low high]. rewrite (Z.lor_comm (shr_u128 u0 s)), (Z.lor_comm (shr_u128 u1 s)).
  assert (forall x y, 0 <= x < 2 ^ 128 -> 0 <= y -> Z.lor (shl_u128 y (128 - s)) (shr_u128 x s) = y mod 2 ^ s * 2 ^ (128 - s) + x / 2 ^ s) as Hlor.
  { intros x y Hx Hy. rewrite shl_u128_mod, shr_u128_div by lia. replace (128 - (128 - s)) with s by lia.
    rewrite <- Z.shiftl_mul_pow2 by lia. apply lor_shifted; [lia|]. destruct (pow_halves s ltac:(lia)) as (E & ? & ?).
    split; [apply Z.div_pos; lia | apply Z.div_lt_upper_bound; lia]. }
  rewrite !Hlor by lia. destruct (pow_halves s ltac:(lia)) as (Ep & HP & HR). set (P := 2 ^ s) in *. set (R := 2 ^ (128 - s)) in *. clearbody P R.
  assert ((u0 + 2 ^ 128 * u1 + 2 ^ 256 * u2) / P = u0 / P + R * u1 + 2 ^ 128 * R * u2) as Ediv.
  { replace (u0 + 2 ^ 128 * u1 + 2 ^ 256 * u2) with (u0 + (R * u1 + 2 ^ 128 * R * u2) * P).
    - rewrite Z.div_add by lia. ring.
    - replace (2 ^ 256) with (2 ^ 128 * 2 ^ 128) by lia. rewrite Ep. ring. }
  rewrite Ediv in *. pose proof (Z.div_mod u1 P ltac:(lia)) as E1. pose proof (Z.mod_pos_bound u1 P HP) as M1.
  pose proof (Z.mod_pos_bound u2 P HP) as M2. assert (0 <= u0 / P < R) as D0 by (split; [apply Z.div_pos; lia | apply Z.div_lt_upper_bound; lia]).
  assert (0 <= u1 / P < R) as D1 by (split; [apply Z.div_pos; lia | apply Z.div_lt_upper_bound; lia]).
  assert (u2 mod P = u2) as E2.
  { apply Z.mod_small. split; [lia|]. destruct (Z.lt_ge_cases u2 P) as [|Hge]; [done|]. exfalso.
    assert (P * (R * 2 ^ 128) <= u2 * (R * 2 ^ 128)) by (apply Z.mul_le_mono_nonneg_r; lia). lia. }
  rewrite E2 in *. unfold u_ok, u_val. cbn [low high]. split; [rewrite Ep; split; by apply digit_bound|]. rewrite E1 at 3. rewrite Ep. ring.
Qed.

(** ** A division by two words *)

Lemma correct_guess_spec v1 v0 u u0 q r fuel :
  0 < v1 < 2 ^ 128 -> 0 <= v0 < 2 ^ 128 -> 0 <= u0 < 2 ^ 128 -> 0 <= u < v1 * 2 ^ 128 + v0 ->
  u = q * v1 + r -> 0 <= r < 2 ^ 128 -> quotient (2 ^ 128) v1 v0 u u0 <= q < 2 ^ 128 -> 2 ^ 128 <= r + Z.of_nat fuel * v1 -> (0 < fuel)%nat ->
  Division.correct_guess fuel q r v1 v0 u0 = Returns (quotient (2 ^ 128) v1 v0 u u0).
Proof.
  intros Hv1 Hv0 Hu0 Hu. revert q r. induction fuel as [|fuel IH]; intros q r E Hr Hq Hfuel Hpos; [lia|].
  cbn [Division.correct_guess]. pose proof (quotient_bounds (2 ^ 128) v1 v0 u u0 Hv1 Hv0 Hu0 Hu) as Hb.
  pose proof (guess_too_large (2 ^ 128) v1 v0 u u0 Hv1 Hv0 Hu0 Hu q r E) as Hlarge.
  pose proof (fullmul_u128_spec q v0 ltac:(lia) Hv0) as P. cbv zeta in P.
  destruct (Division.fullmul_u128 q v0) as [lo hi]. cbn [fst snd] in P. destruct P as (Hlo & Hhi & Ep). rewrite <- Ep in Hlarge.
  assert ((r <? hi) || ((hi =? r) && (u0 <? lo)) = (quotient (2 ^ 128) v1 v0 u u0 <? q)) as ->.
  { zcases; cbn [orb andb]; lia. }
  destruct (Z.ltb_spec (quotient (2 ^ 128) v1 v0 u u0) q) as [Hlt|]; [|f_equal; lia].
  unfold overflowing_add, u128. rewrite (wrap_small 128 (q - 1)) by lia.
  assert (u = (q - 1) * v1 + (r + v1)) as E' by (rewrite E; ring).
  destruct (Z.leb_spec (2 ^ 128) (r + v1)) as [Hdone|].
  - f_equal. apply (guess_final (2 ^ 128) v1 v0 u u0 Hv1 Hv0 Hu0 Hu (q - 1) (r + v1) E'); lia.
  - rewrite wrap_small by lia. apply IH; lia.
Qed.

(** The guess of [div_mod_knuth] is the quotient of the three words by the divisor. *)
Lemma guess_spec (u : Division.words3) v : ok3 u -> u_ok v -> 2 ^ 127 <= high v -> u.2 < high v ->
  (run! (q_hat, r_hat) := Division.udiv256_by_128_to_128 u.2 u.1.2 (high v) in
   Division.correct_guess 3 q_hat r_hat (high v) (low v) u.1.1) = Returns (val3 u / u_val v) /\ 0 <= val3 u / u_val v < 2 ^ 128.
Proof.
  unfold ok3, u_ok, val3, u_val. intros (H0 & H1 & H2) [Hl Hh] Hnorm Hlt. rewrite udiv256_spec by lia. cbn [obind].
  set (top := u.2 * 2 ^ 128 + u.1.2).
  assert (quotient (2 ^ 128) (high v) (low v) top u.1.1 = (u.1.1 + 2 ^ 128 * u.1.2 + 2 ^ 256 * u.2) / (low v + 2 ^ 128 * high v)) as E.
  { unfold quotient, top. f_equal; lia. }
  assert (0 < high v < 2 ^ 128) as Hv1 by lia. assert (0 <= top < high v * 2 ^ 128 + low v) as Htop by (unfold top; lia).
  pose proof (quotient_bounds (2 ^ 128) (high v) (low v) top u.1.1 Hv1 Hl H0 Htop) as Hb.
  destruct (guess_first (2 ^ 128) (high v) (low v) top u.1.1 Hv1 Hl H0 Htop ltac:(lia)) as (_ & Hge & Et & Hr).
  assert (top / high v < 2 ^ 128) by (apply Z.div_lt_upper_bound; unfold top; lia).
  rewrite <- E. split; [|done]. apply correct_guess_spec; (done || lia).
Qed.

(** Dividend and divisor shifted so that the divisor has its highest bit. *)
Lemma knuth_normalized u v : u_ok u -> u_ok v -> high v <> 0 ->
  let s := leading_zeros 128 (high v) in let v' := U248.shl_assign v s in let u' := Division.full_shl u s in
  0 <= s <= 127 /\ u_ok v' /\ u_val v' = u_val v * 2 ^ s /\ 2 ^ 127 <= high v' /\
  ok3 u' /\ val3 u' = u_val u * 2 ^ s /\ u'.2 < high v'.
Proof.
  intros Hu Hv Hnz. pose proof (u_val_range u Hu) as Ru. pose proof Hv as [Hl Hh]. cbv zeta.
  pose proof (normalized (high v) ltac:(lia)) as Hn. cbv zeta in Hn. set (s := leading_zeros 128 (high v)) in *. destruct Hn as [Hs Hnorm].
  destruct (pow_halves s ltac:(lia)) as (Ep & HP & HR). assert (2 ^ s <= 2 ^ 127) as HP127 by (apply Z.pow_le_mono_r; lia).
  pose proof (shl_assign_ok v s Hv ltac:(lia)) as Hv'. pose proof (shl_assign_spec v s Hv ltac:(lia)) as Ev.
  destruct (full_shl_spec u s Hu Hs) as [Hu' Eu].
  assert (high v < 2 ^ (128 - s)) as HvR by (apply (Z.mul_lt_mono_pos_r (2 ^ s)); lia).
  assert (u_val v * 2 ^ s < 2 ^ 128 * 2 ^ (128 - s) * 2 ^ s) as Hfit by (apply Z.mul_lt_mono_pos_r; [lia | unfold u_val; lia]).
  assert (2 ^ 128 * 2 ^ (128 - s) * 2 ^ s = 2 ^ 256) as E256 by (rewrite <- Z.mul_assoc, <- Ep; lia).
  assert (2 ^ 255 <= u_val v * 2 ^ s) as H255.
  { unfold u_val. rewrite Z.mul_add_distr_r, <- Z.mul_assoc. assert (0 <= low v * 2 ^ s) by nia. lia. }
  rewrite Z.mod_small in Ev by lia.
  assert (2 ^ 127 <= high (U248.shl_assign v s)) as Hhigh by (destruct Hv' as [Hl' _]; unfold u_val at 1 in Ev; lia).
  do 6 (split; [done|]). assert (u_val u * 2 ^ s < 2 ^ 256 * 2 ^ s) as Hlt by (apply Z.mul_lt_mono_pos_r; lia).
  rewrite <- Eu in Hlt. destruct Hu' as (H0 & H1 & _). unfold val3 in Hlt. lia.
Qed.

Lemma div_mod_knuth_spec u v : u_ok u -> u_ok v -> high v <> 0 ->
  Division.div_mod_knuth u v = Returns (of_val (u_val u / u_val v), of_val (u_val u mod u_val v)).
Proof.
  intros Hu Hv Hnz. pose proof (u_val_range u Hu) as Ru. destruct (knuth_normalized u v Hu Hv Hnz) as (Hs & Hv' & Ev & Hhigh & Hu' & Eu & Htop).
  assert (0 < u_val v) as Hvpos by (destruct Hv; unfold u_val; lia).
  unfold Division.div_mod_knuth. set (s := leading_zeros 128 (high v)) in *.
  set (v' := U248.shl_assign v s) in *. set (u' := Division.full_shl u s) in *. clearbody v' u'. destruct u' as [[u0 u1] u2].
  destruct (guess_spec (u0, u1, u2) v' Hu' Hv' Hhigh Htop) as [Eg Hq]. destruct (div_shifted (u_val u) (u_val v) s Hvpos ltac:(lia)) as [Ed Em].
  rewrite Eu, Ev, Ed in Eg, Hq. cbn [fst snd] in Eg, Htop. destruct (Z.ltb_spec u2 (high v')); [|lia]. rewrite Eg. cbn [obind].
  destruct (fullmul_u256_spec v' (u_val u / u_val v) Hv' Hq) as [Hp Evp]. set (p := Division.fullmul_u256_u128 _ _) in *. clearbody p.
  assert (val3 (u0, u1, u2) - val3 p = (u_val u * 2 ^ s) mod (u_val v * 2 ^ s)) as Erest.
  { rewrite Eu, Evp, Ev, Z.mod_eq, Ed by (pose proof (Z.pow_pos_nonneg 2 s); nia). ring. }
  assert (0 < u_val v * 2 ^ s) as Hpos by (pose proof (Z.pow_pos_nonneg 2 s); nia).
  pose proof (Z.mod_pos_bound (u_val u * 2 ^ s) _ Hpos) as Hm.
  destruct (sub3_spec (u0, u1, u2) p Hu' Hp ltac:(lia)) as (Hc & Hok & Hval). destruct p as [[p0 p1] p2]. cbn [fst snd] in *.
  destruct (Division.sub_carry u0 p0 false) as [w0 c0]. cbn [fst snd] in *.
  destruct (Division.sub_carry u1 p1 c0) as [w1 c1]. cbn [fst snd] in *. destruct (Division.sub_carry u2 p2 c1) as [w2 c2]. cbn [fst snd] in *.
  subst c2. rewrite Erest in Hval. pose proof (Z.mod_pos_bound (u_val u) (u_val v) Hvpos) as Hr.
  assert (val3 (w0, w1, w2) / 2 ^ s = u_val u mod u_val v) as Eres by (by rewrite Hval).
  assert (u_val u mod u_val v < 2 ^ 256) as Hrfit by (pose proof (u_val_range v Hv); lia).
  destruct (full_shr_spec (w0, w1, w2) s Hok Hs ltac:(by rewrite Eres)) as [Hrok Er]. f_equal. f_equal.
  - unfold U248.set_low, of_val. cbn [high U248.ZERO]. f_equal; [by rewrite Z.mod_small | by rewrite Z.div_small].
  - apply of_val_eq; [done|]. by rewrite Er.
Qed.

(** ** [udivmod] *)

Lemma of_val_word x : 0 <= x < 2 ^ 128 -> mkU248 x 0 = of_val x.
Proof. intros Hx. unfold of_val. by rewrite Z.mod_small, Z.div_small. Qed.

(** The divisor has one word: the high word is divided first when the quotient has two. *)
Lemma udivmod_word a d : u_ok a -> 0 < d < 2 ^ 128 ->
  (if high a <? d then
     run! (q, r) := Division.udiv256_by_128_to_128 (high a) (low a) d in
     Returns (U248.from_words 0 q, U248.set_low U248.ZERO r)
   else
     run! hi := div_u128 (high a) d in
     run! rest := rem_u128 (high a) d in
     run! (q, r) := Division.udiv256_by_128_to_128 rest (low a) d in
     Returns (U248.from_words hi q, U248.set_low U248.ZERO r)) =
  Returns (of_val (u_val a / d), of_val (u_val a mod d)).
Proof.
  intros Ha Hd. pose proof (u_val_range a Ha) as Ra. destruct Ha as [Hl Hh]. unfold U248.from_words, U248.set_low. cbn [high U248.ZERO].
  pose proof (Z.mod_pos_bound (u_val a) d ltac:(lia)) as Hm. rewrite <- (of_val_word (u_val a mod d)) by lia.
  assert (u_val a = high a * 2 ^ 128 + low a) as Ea by (unfold u_val; lia).
  destruct (Z.ltb_spec (high a) d).
  - rewrite udiv256_spec, <- Ea by lia. cbn [obind]. rewrite of_val_word; [done|].
    split; [apply Z.div_pos; lia | apply Z.div_lt_upper_bound; nia].
  - unfold div_u128, rem_u128. destruct (Z.eqb_spec d 0); [lia|]. cbn [obind].
    pose proof (Z.mod_pos_bound (high a) d ltac:(lia)) as Hr. rewrite udiv256_spec by lia. cbn [obind].
    set (x := high a mod d * 2 ^ 128 + low a).
    assert (u_val a = high a / d * 2 ^ 128 * d + x) as E by (rewrite Ea; unfold x; rewrite (Z.div_mod (high a) d) at 1 by lia; ring).
    assert (0 <= x / d < 2 ^ 128) as Hq by (unfold x; split; [apply Z.div_pos; lia | apply Z.div_lt_upper_bound; nia]).
    rewrite E, Z.div_add_l, (Z.add_comm _ x), Z.mod_add by lia. unfold of_val.
    rewrite Z.div_add_l, (Z.div_small (x / d)), Z.add_0_r by done. f_equal. f_equal. f_equal.
    rewrite Z.add_comm, Z.mod_add by done. by rewrite Z.mod_small.
Qed.

Lemma udivmod_spec a b : u_ok a -> u_ok b ->
  Division.udivmod a b = if u_val b =? 0 then Panics else Returns (of_val (u_val a / u_val b), of_val (u_val a mod u_val b)).
Proof.
  intros Ha Hb. pose proof (u_val_range a Ha) as Ra. pose proof Ha as [Hal Hah]. pose proof Hb as [Hbl Hbh]. unfold Division.udivmod.
  destruct (Z.eqb_spec (Z.lor (high a) (high b)) 0) as [E|E].
  { apply Z.lor_eq_0_iff in E as [Ea Eb]. unfold u_val. rewrite Ea, Eb, !Z.add_0_r. unfold rem_u128, div_u128.
    destruct (Z.eqb_spec (low b) 0); [done|]. cbn [obind]. unfold U248.from_words.
    assert (0 <= low a / low b <= low a) by (split; [apply Z.div_pos; lia | apply Z.div_le_upper_bound; nia]).
    pose proof (Z.mod_pos_bound (low a) (low b) ltac:(lia)). by rewrite !of_val_word by lia. }
  rewrite cmp_spec by done. destruct (Z.eqb_spec (high b) 0) as [Hb0|Hb0].
  - assert (u_val b = low b) as Eb by (unfold u_val; lia). rewrite Eb.
    destruct (Z.eqb_spec (low b) 0) as [Hz|Hz].
    + rewrite Hz. destruct (Z.compare_spec 0 (u_val a)); [| |lia]; destruct (Z.ltb_spec (high a) 0); (lia || done).
    + rewrite udivmod_word by (done || lia). destruct (Z.compare_spec (low b) (u_val a)) as [Hc|Hc|Hc]; [done..|].
      by rewrite Z.div_small, Z.mod_small, of_val_val by (done || lia).
  - destruct (Z.eqb_spec (u_val b) 0); [unfold u_val in *; lia|]. rewrite div_mod_knuth_spec by done.
    destruct (Z.compare_spec (u_val b) (u_val a)) as [Hc|Hc|Hc]; [done..|].
    by rewrite Z.div_small, Z.mod_small, of_val_val by (done || lia).
Qed.
