(* ===== verification/VarUint248Text.v ===== *)
(** * VarUint248Text: decimal text of [VarUint248] ([src/src/num/varuint248.rs])

    [fmt_var_uint248] writes four digits at a time from the end of a buffer of 79 bytes,
    through a raw pointer; [from_str_radix] reads digits with wrapping operators when it
    takes the number to be small, and with checked ones otherwise.  Text is a list of
    bytes. *)

From Stdlib Require Import String Ascii.
From S2P Require Import Prelude Bits Builder NumSpec VarUint248 VarUint248Spec VarUint248Div.

(** ** Formatting *)
Definition DEC_DIGITS_LUT : list Z := (fun c => Z.of_N (N_of_ascii c)) <$> list_ascii_of_string
  "00010203040506070809101112131415161718192021222324252627282930313233343536373839404142434445464748495051525354555657585960616263646566676869707172737475767778798081828384858687888990919293949596979899".

(** [copy_nonoverlapping(lut_ptr.offset(d), buf_ptr.offset(curr), 2)] *)
Definition copy_pair (buf : list Z) (d curr : Z) : outcome (list Z) :=
  if (0 <=? d) && (d + 2 <=? zlen DEC_DIGITS_LUT) && (0 <=? curr) && (curr + 2 <=? zlen buf)
  then Returns (copy_bytes buf curr (sub_bytes DEC_DIGITS_LUT d 2) 2) else Undefined.

Definition write_byte (buf : list Z) (curr value : Z) : outcome (list Z) :=
  if (0 <=? curr) && (curr + 1 <=? zlen buf) then Returns (copy_bytes buf curr [value] 1) else Undefined.

(** The loop [while n >= 10000] *)
Fixpoint write_fours (fuel : nat) (n : VarUint248) (curr : Z) (buf : list Z) : outcome (VarUint248 * Z * list Z) :=
  match fuel with
  | O => OutOfFuel
  | S fuel =>
      match U248.partial_cmp_u128 n 10000 with
      | Lt => Returns (n, curr, buf)
      | _ =>
          run! r := Division.rem_assign n (U248.new 10000) in
          let rem := U248.as_isize r in
          run! n := Division.div_assign n (U248.new 10000) in
          let d1 := Z.shiftl (Z.quot rem 100) 1 in
          let d2 := Z.shiftl (Z.rem rem 100) 1 in
          let curr := curr - 4 in
          run! buf := copy_pair buf d1 curr in
          run! buf := copy_pair buf d2 (curr + 2) in
          write_fours fuel n curr buf
      end
  end.

(** The text given to [pad_integral]; [buf] is the uninitialized buffer. *)
Definition fmt_var_uint248 (buf : list Z) (n : VarUint248) : outcome (list Z) :=
  let curr := zlen buf in
  run! (n, curr, buf) := write_fours 20 n curr buf in
  let n := U248.as_isize n in
  run! (n, curr, buf) :=
    if 100 <=? n then
      let d1 := Z.shiftl (Z.rem n 100) 1 in
      let n := Z.quot n 100 in
      let curr := curr - 2 in
      run! buf := copy_pair buf d1 curr in
      Returns (n, curr, buf)
    else Returns (n, curr, buf) in
  run! (curr, buf) :=
    if n <? 10 then
      let curr := curr - 1 in
      run! buf := write_byte buf curr (u8 (u8 n + 48)) in
      Returns (curr, buf)
    else
      let d1 := Z.shiftl n 1 in
      let curr := curr - 2 in
      run! buf := copy_pair buf d1 curr in
      Returns (curr, buf) in
  if (0 <=? curr) && (curr <=? zlen buf) then Returns (sub_bytes buf curr (zlen buf - curr)) else Undefined.

(** ** Parsing *)
Inductive IntErrorKind : Type := Empty | InvalidDigit | PosOverflow.

(** [char::to_digit] *)
Definition to_digit (c radix : Z) : option Z :=
  let digit :=
    if (48 <=? c) && (c <=? 57) then c - 48
    else if (97 <=? c) && (c <=? 122) then c - 97 + 10
    else if (65 <=? c) && (c <=? 90) then c - 65 + 10
    else radix in
  if digit <? radix then Some digit else None.

Fixpoint parse_wrapping (radix : Z) (result : VarUint248) (digits : list Z) : IntErrorKind + VarUint248 :=
  match digits with
  | [] => inr result
  | c :: digits =>
      let result := U248.mul_assign result (U248.new radix) in
      match to_digit c radix with
      | None => inl InvalidDigit
      | Some x => parse_wrapping radix (U248.add_assign result (U248.new x)) digits
      end
  end.

Fixpoint parse_checked (radix : Z) (result : VarUint248) (digits : list Z) : IntErrorKind + VarUint248 :=
  match digits with
  | [] => inr result
  | c :: digits =>
      match U248.checked_mul result (U248.new radix) with
      | None => inl PosOverflow
      | Some result =>
          match to_digit c radix with
          | None => inl InvalidDigit
          | Some x =>
              match U248.checked_add result (U248.new x) with
              | None => inl PosOverflow
              | Some result => parse_checked radix result digits
              end
          end
      end
  end.

(** [strip_prefix] *)
Fixpoint strip_bytes (prefix src : list Z) : option (list Z) :=
  match prefix, src with
  | [], _ => Some src
  | p :: prefix, c :: src => if p =? c then strip_bytes prefix src else None
  | _ :: _, [] => None
  end.

Definition from_str_radix (src : list Z) (radix : Z) (prefix : option (list Z)) : outcome (IntErrorKind + VarUint248) :=
  if negb ((2 <=? radix) && (radix <=? 36)) then Panics else
  Returns
    match src with
    | [] => inl Empty
    | c :: rest =>
        if ((c =? 43) || (c =? 45)) && match rest with [] => true | _ => false end then inl InvalidDigit else
        let prefixed_digits := if c =? 43 then rest else src in
        match (match prefix with Some p => strip_bytes p prefixed_digits | None => Some prefixed_digits end) with
        | None => inl InvalidDigit
        | Some [] => inl InvalidDigit
        | Some digits =>
            if (radix <=? 16) && (zlen digits <=? 64)
            then parse_wrapping radix U248.ZERO digits
            else parse_checked radix U248.ZERO digits
        end
    end.

(** [FromStr::from_str] *)
Definition from_str (s : list Z) : outcome (IntErrorKind + VarUint248) := from_str_radix s 10 None.

(** ** The decimal digits of a number, as ASCII *)
Fixpoint decimal_loop (fuel : nat) (n : Z) : list Z :=
  match fuel with
  | O => []
  | S fuel => if n <? 10 then [48 + n] else decimal_loop fuel (n / 10) ++ [48 + n mod 10]
  end.
(** Numbers below 10^78, as are all of 256 bits *)
Definition decimal (n : Z) : list Z := decimal_loop 78 n.

(** ** Decimal digits *)

Lemma decimal_loop_fuel f n : 0 <= n < 10 ^ Z.of_nat f -> (0 < f)%nat -> decimal_loop (S f) n = decimal_loop f n.
Proof.
  revert n. induction f as [|f IH]; intros n Hn Hf; [lia|]. rewrite Nat2Z.inj_succ, Z.pow_succ_r in Hn by lia.
  change (decimal_loop (S (S f)) n) with (if n <? 10 then [48 + n] else decimal_loop (S f) (n / 10) ++ [48 + n mod 10]).
  change (decimal_loop (S f) n) with (if n <? 10 then [48 + n] else decimal_loop f (n / 10) ++ [48 + n mod 10]).
  destruct (Z.ltb_spec n 10); [done|]. destruct f as [|f]; [simpl in Hn; lia|]. rewrite IH; [done | lia..].
Qed.

Lemma decimal_eq n : 0 <= n < 10 ^ 78 -> decimal n = if n <? 10 then [48 + n] else decimal (n / 10) ++ [48 + n mod 10].
Proof. intros Hn. unfold decimal at 1. rewrite <- decimal_loop_fuel by lia. done. Qed.

Definition pair_digits (i : Z) : list Z := [48 + i / 10; 48 + i mod 10].

Lemma decimal_hundred n : 0 <= n < 10 ^ 78 ->
  decimal n = if n <? 10 then [48 + n] else if n <? 100 then pair_digits n else decimal (n / 100) ++ pair_digits (n mod 100).
Proof.
  intros Hn. rewrite decimal_eq by done. destruct (Z.ltb_spec n 10); [done|]. rewrite decimal_eq by lia.
  destruct (Z.ltb_spec (n / 10) 10), (Z.ltb_spec n 100); try lia; [done|].
  rewrite <- app_assoc. unfold pair_digits. simpl. replace (n / 10 / 10) with (n / 100) by lia.
  replace ((n / 10) mod 10) with (n mod 100 / 10) by lia. by replace ((n mod 100) mod 10) with (n mod 10) by lia.
Qed.

Lemma decimal_fours n : 10000 <= n < 10 ^ 78 ->
  decimal n = decimal (n / 10000) ++ pair_digits (n mod 10000 / 100) ++ pair_digits (n mod 10000 mod 100).
Proof.
  intros Hn. rewrite decimal_hundred by lia. destruct (Z.ltb_spec n 10), (Z.ltb_spec n 100); try lia.
  rewrite decimal_hundred by lia. destruct (Z.ltb_spec (n / 100) 10), (Z.ltb_spec (n / 100) 100); try lia.
  rewrite <- app_assoc. replace (n / 100 / 100) with (n / 10000) by lia.
  replace ((n / 100) mod 100) with (n mod 10000 / 100) by lia. by replace (n mod 10000 mod 100) with (n mod 100) by lia.
Qed.

(** ** Formatting writes them *)

Lemma lut_pair i : 0 <= i < 100 -> sub_bytes DEC_DIGITS_LUT (2 * i) 2 = pair_digits i.
Proof.
  intros Hi. pose proof (Zrange_forall (fun i => bool_decide (sub_bytes DEC_DIGITS_LUT (2 * i) 2 = pair_digits i)) 100 ltac:(by vm_compute) i Hi) as H.
  by apply bool_decide_eq_true in H.
Qed.

(** The text written so far *)
Definition written (curr : Z) (buf : list Z) : list Z := drop (Z.to_nat curr) buf.

Lemma written_copy buf curr src n : 0 <= curr -> zlen src = n -> curr + n <= zlen buf ->
  written curr (copy_bytes buf curr src n) = src ++ written (curr + n) buf /\ zlen (copy_bytes buf curr src n) = zlen buf.
Proof.
  intros Hc Hn Hle. pose proof (zlen_nonneg src). unfold zlen in *. split.
  - unfold written, copy_bytes. rewrite (take_ge src) by lia. rewrite drop_app_length'; [done|]. rewrite length_take. lia.
  - fold (zlen (copy_bytes buf curr src n)) (zlen buf). apply zlen_copy; unfold zlen; lia.
Qed.

Lemma copy_pair_spec buf i curr : 0 <= i < 100 -> 0 <= curr -> curr + 2 <= zlen buf ->
  exists buf', copy_pair buf (Z.shiftl i 1) curr = Returns buf' /\ zlen buf' = zlen buf /\
    take (Z.to_nat curr) buf' = take (Z.to_nat curr) buf /\ written curr buf' = pair_digits i ++ written (curr + 2) buf.
Proof.
  intros Hi Hc Hle. unfold copy_pair. rewrite Z.shiftl_mul_pow2 by lia. change (2 ^ 1) with 2. rewrite (Z.mul_comm i 2).
  change (zlen DEC_DIGITS_LUT) with 200.
  destruct (Z.leb_spec 0 (2 * i)), (Z.leb_spec (2 * i + 2) 200), (Z.leb_spec 0 curr), (Z.leb_spec (curr + 2) (zlen buf)); try lia. cbn [andb].
  rewrite lut_pair by done. destruct (written_copy buf curr (pair_digits i) 2) as [E1 E2]; [done..|].
  eexists. split; [done|]. split; [done|]. split; [|done]. unfold copy_bytes. apply take_app_length'. rewrite length_take. unfold zlen in *. lia.
Qed.

Lemma written_add buf c k : 0 <= c -> 0 <= k -> written (c + k) buf = drop (Z.to_nat k) (written c buf).
Proof. intros Hc Hk. unfold written. rewrite drop_drop. f_equal. lia. Qed.

(** Two pairs, one behind the other *)
Lemma copy_two buf i j curr : 0 <= i < 100 -> 0 <= j < 100 -> 0 <= curr -> curr + 4 <= zlen buf ->
  exists b1 b2, copy_pair buf (Z.shiftl i 1) curr = Returns b1 /\ copy_pair b1 (Z.shiftl j 1) (curr + 2) = Returns b2 /\
    zlen b2 = zlen buf /\ written curr b2 = pair_digits i ++ pair_digits j ++ written (curr + 4) buf.
Proof.
  intros Hi Hj Hc Hle. destruct (copy_pair_spec buf i curr) as (b1 & E1 & Z1 & _ & W1); [lia..|].
  destruct (copy_pair_spec b1 j (curr + 2)) as (b2 & E2 & Z2 & T2 & W2); [lia..|].
  exists b1, b2. split; [done|]. split; [done|]. split; [congruence|].
  assert (written curr b2 = take 2 (written curr b1) ++ written (curr + 2) b2) as ->.
  { unfold written. rewrite take_drop_commute. replace (Z.to_nat curr + 2)%nat with (Z.to_nat (curr + 2)) by lia. rewrite <- T2.
    rewrite <- (take_drop (Z.to_nat (curr + 2)) b2) at 1. rewrite drop_app_le; [done|]. rewrite length_take. unfold zlen in *. lia. }
  rewrite W2.  replace (curr + 2 + 2) with (curr + 4) by lia. rewrite (written_add b1 curr 4), W1 by lia. simpl.
  replace (curr + 4) with (curr + 2 + 2) by lia. by rewrite (written_add buf (curr + 2) 2) by lia.
Qed.

Lemma u_val_small x : 0 <= x < 2 ^ 128 -> u_ok (U248.new x) /\ u_val (U248.new x) = x.
Proof. intros Hx. unfold u_ok, u_val, U248.new, U248.from_words. cbn [low high]. lia. Qed.

Lemma as_isize_small v : u_ok v -> u_val v < 10000 -> U248.as_isize v = u_val v.
Proof.
  intros [Hl Hh] Hv. unfold U248.as_isize, as_signed, u_val in *. unfold u64. rewrite wrap_small by lia. change (2 ^ (64 - 1)) with 9223372036854775808.
  destruct (Z.leb_spec 9223372036854775808 (low v)); lia.
Qed.

Lemma below_power x k c : 0 <= k -> 10 ^ k <= x -> x < 10 ^ (c - 1) -> k + 2 <= c.
Proof.
  intros Hk Hx Hc. assert (10 ^ k < 10 ^ (c - 1)) as H by lia. destruct (Z.lt_ge_cases (c - 1) 0).
  { rewrite (Z.pow_neg_r 10 (c - 1)) in Hc by lia. pose proof (Z.pow_pos_nonneg 10 k). lia. }
  apply Z.pow_lt_mono_r_iff in H; lia.
Qed.

Lemma power_split x k c : 0 <= k -> k + 1 <= c -> x < 10 ^ (c - 1) -> x / 10 ^ k < 10 ^ (c - k - 1).
Proof.
  intros Hk Hc Hx. apply Z.div_lt_upper_bound; [apply Z.pow_pos_nonneg; lia|]. rewrite <- Z.pow_add_r by lia.
  by replace (k + (c - k - 1)) with (c - 1) by lia.
Qed.

Lemma partial_cmp_spec n x : u_ok n -> 0 <= x < 2 ^ 128 -> U248.partial_cmp_u128 n x = (u_val n ?= x).
Proof.
  intros Hn Hx. destruct (u_val_small x Hx) as [Hok E]. rewrite <- E at 2. rewrite <- cmp_spec by done. done.
Qed.

(** The division by ten thousand *)
Lemma divide_fours n : u_ok n ->
  exists q r, Division.div_assign n (U248.new 10000) = Returns q /\ Division.rem_assign n (U248.new 10000) = Returns r /\
    u_ok q /\ u_val q = u_val n / 10000 /\ U248.as_isize r = u_val n mod 10000.
Proof.
  intros Hn. pose proof (u_val_range n Hn) as Hr. destruct (u_val_small 10000 ltac:(lia)) as [Hok E].
  unfold Division.div_assign, Division.rem_assign. rewrite udivmod_spec by done. rewrite E. cbn [Z.eqb obind].
  destruct (of_val_ok (u_val n / 10000) ltac:(lia)) as [Hq Eq]. destruct (of_val_ok (u_val n mod 10000) ltac:(lia)) as [Hm Em].
  do 2 eexists. split; [done|]. split; [done|]. split; [done|]. split; [done|].
  rewrite as_isize_small by (done || lia). done.
Qed.

Lemma write_fours_spec fuel n curr buf : u_ok n -> zlen buf = 79 -> curr <= 79 -> u_val n < 10 ^ (curr - 1) ->
  (0 < fuel)%nat -> u_val n < 10000 ^ Z.of_nat fuel ->
  exists n' curr' buf', write_fours fuel n curr buf = Returns (n', curr', buf') /\ u_ok n' /\ u_val n' < 10000 /\
    zlen buf' = 79 /\ curr' <= 79 /\ u_val n' < 10 ^ (curr' - 1) /\
    decimal (u_val n) ++ written curr buf = decimal (u_val n') ++ written curr' buf'.
Proof.
  revert n curr buf. induction fuel as [|fuel IH]; intros n curr buf Hn Hbuf Hcurr Hfit Hpos Hfuel; [lia|].
  cbn [write_fours]. rewrite partial_cmp_spec by (done || lia). pose proof (u_val_range n Hn) as Hr.
  destruct (Z.lt_ge_cases (u_val n) 10000) as [Hsmall|Hbig].
  { rewrite (proj2 (Z.compare_lt_iff _ _)) by done. by exists n, curr, buf. }
  pose proof (below_power (u_val n) 4 curr ltac:(lia) Hbig Hfit) as Hroom.
  destruct (divide_fours n Hn) as (q & r & Eq & Er & Hq & Vq & Vr). rewrite Eq, Er. cbn [obind]. rewrite Vr.
  rewrite Z.quot_div_nonneg, Z.rem_mod_nonneg by lia.
  destruct (copy_two buf (u_val n mod 10000 / 100) (u_val n mod 10000 mod 100) (curr - 4)) as (b1 & b2 & E1 & E2 & Hb2 & W); [lia..|].
  rewrite E1. cbn [obind]. rewrite E2. cbn [obind].
  rewrite Nat2Z.inj_succ, Z.pow_succ_r in Hfuel by lia.
  assert (0 < fuel)%nat as Hf by (destruct fuel; [change (10000 ^ Z.of_nat 0) with 1 in Hfuel; lia | lia]).
  pose proof (power_split (u_val n) 4 curr ltac:(lia) ltac:(lia) Hfit) as Hfit'. change (10 ^ 4) with 10000 in Hfit'. rewrite <- Vq in Hfit'.
  destruct (IH q (curr - 4) b2) as (n' & curr' & buf' & E & Hn' & Hlt & Hb' & Hc' & Hf' & Ew); [done | lia | lia | done | done | lia |].
  exists n', curr', buf'. split; [by destruct (Z.compare_spec (u_val n) 10000); [|lia|]|].
  do 5 (split; [done|]). rewrite <- Ew, decimal_fours, Vq, W, <- !app_assoc by lia. by replace (curr - 4 + 4) with curr by lia.
Qed.

(** The last digits *)
Lemma write_last n curr buf : 0 <= n < 100 -> zlen buf = 79 -> curr <= 79 -> n < 10 ^ (curr - 1) ->
  exists curr' buf',
    (if n <? 10 then
       run! buf := write_byte buf (curr - 1) (u8 (u8 n + 48)) in Returns (curr - 1, buf)
     else
       run! buf := copy_pair buf (Z.shiftl n 1) (curr - 2) in Returns (curr - 2, buf)) = Returns (curr', buf') /\ zlen buf' = 79 /\ 0 <= curr' <= 79 /\
    written curr' buf' = decimal n ++ written curr buf.
Proof.
  intros Hn Hbuf Hcurr Hfit. rewrite decimal_hundred by lia. destruct (Z.ltb_spec n 10).
  - assert (0 <= curr - 1) by (destruct (Z.lt_ge_cases (curr - 1) 0); [rewrite Z.pow_neg_r in Hfit by lia; lia | done]).
    unfold write_byte. destruct (Z.leb_spec 0 (curr - 1)), (Z.leb_spec (curr - 1 + 1) (zlen buf)); try lia. cbn [andb obind].
    rewrite !u8_small by (rewrite ?u8_small; lia). destruct (written_copy buf (curr - 1) [n + 48] 1) as [E1 E2]; [done..|].
    do 2 eexists. split; [done|]. split; [lia|]. split; [lia|]. rewrite E1. replace (curr - 1 + 1) with curr by lia. simpl. f_equal. lia.
  - pose proof (below_power n 1 curr ltac:(lia) ltac:(lia) Hfit). destruct (Z.ltb_spec n 100); [|lia].
    destruct (copy_pair_spec buf n (curr - 2)) as (b & E & Hb & _ & W); [lia..|]. rewrite E. cbn [obind].
    do 2 eexists. split; [done|]. split; [lia|]. split; [lia|]. rewrite W. by replace (curr - 2 + 2) with curr by lia.
Qed.

Lemma fmt_spec buf n : u_ok n -> zlen buf = 79 -> fmt_var_uint248 buf n = Returns (decimal (u_val n)).
Proof.
  intros Hn Hbuf. pose proof (u_val_range n Hn) as Hr. unfold fmt_var_uint248.
  destruct (write_fours_spec 20 n 79 buf Hn Hbuf ltac:(lia)) as (n1 & c1 & b1 & E & Hn1 & Hlt & Hb1 & Hc1 & Hf1 & W1); [lia|lia|lia|].
  rewrite Hbuf, E. cbn [obind]. rewrite as_isize_small by done. cbv zeta. pose proof (u_val_range n1 Hn1) as Hr1.
  assert (written 79 buf = []) as Hend by (unfold written; apply drop_ge; unfold zlen in Hbuf; lia). rewrite Hend, app_nil_r in W1.
  assert (exists x c2 b2,
    (if 100 <=? u_val n1 then
       run! buf := copy_pair b1 (Z.shiftl (Z.rem (u_val n1) 100) 1) (c1 - 2) in Returns (Z.quot (u_val n1) 100, c1 - 2, buf)
     else Returns (u_val n1, c1, b1)) = Returns (x, c2, b2) /\ 0 <= x < 100 /\ zlen b2 = 79 /\ c2 <= 79 /\ x < 10 ^ (c2 - 1) /\
    decimal (u_val n) = decimal x ++ written c2 b2) as (x & c2 & b2 & -> & Hx & Hb2 & Hc2 & Hf2 & W2).
  { destruct (Z.leb_spec 100 (u_val n1)); [|exists (u_val n1), c1, b1; split_and!; (done || lia)].
    pose proof (below_power (u_val n1) 2 c1 ltac:(lia) ltac:(lia) Hf1).
    rewrite Z.quot_div_nonneg, Z.rem_mod_nonneg by lia.
    destruct (copy_pair_spec b1 (u_val n1 mod 100) (c1 - 2)) as (b2 & E2 & Hb2 & _ & Wb); [lia..|]. rewrite E2. cbn [obind].
    exists (u_val n1 / 100), (c1 - 2), b2. split; [done|]. split; [lia|]. split; [lia|]. split; [lia|].
    split; [by apply (power_split (u_val n1) 2 c1); lia|].
    rewrite W1, Wb, decimal_hundred, app_assoc by lia. destruct (Z.ltb_spec (u_val n1) 10), (Z.ltb_spec (u_val n1) 100); try lia.
    by replace (c1 - 2 + 2) with c1 by lia. }
  cbn [obind]. destruct (write_last x c2 b2 Hx Hb2 Hc2 Hf2) as (c3 & b3 & -> & Hb3 & Hc3 & W3). cbn [obind].
  destruct (Z.leb_spec 0 c3), (Z.leb_spec c3 (zlen b3)); try lia. cbn [andb]. f_equal.
  rewrite W2, <- W3. unfold sub_bytes, written. apply take_ge. rewrite length_drop. unfold zlen. lia.
Qed.

(** ** Parsing reads them *)

(** The value of digits behind a prefix of value [acc] *)
Definition digits_value (acc : Z) (l : list Z) : Z := foldl (fun acc c => 10 * acc + (c - 48)) acc l.

Lemma decimal_digits n : 0 <= n < 10 ^ 78 ->
  Forall (fun c => 48 <= c < 58) (decimal n) /\ decimal n <> [] /\ digits_value 0 (decimal n) = n.
Proof.
  induction (Z.lt_wf 0 n) as [n _ IH]. intros Hn.
  rewrite decimal_eq by done. destruct (Z.ltb_spec n 10) as [|Hge].
  { split; [by repeat constructor; lia|]. split; [done|]. unfold digits_value. simpl. lia. }
  destruct (IH (n / 10) ltac:(lia) ltac:(lia)) as (F & Hne & V). split; [apply Forall_app; split; [done | repeat constructor; lia]|].
  split; [by destruct (decimal (n / 10))|]. unfold digits_value in *. rewrite foldl_app, V. simpl. lia.
Qed.

Lemma digits_value_ge acc l : Forall (fun c => 48 <= c < 58) l -> 0 <= acc -> acc <= digits_value acc l.
Proof.
  intros Hl. revert acc. induction Hl as [|c l Hc Hl IH]; intros acc Hacc; [done|].
  change (digits_value acc (c :: l)) with (digits_value (10 * acc + (c - 48)) l). pose proof (IH (10 * acc + (c - 48)) ltac:(lia)). lia.
Qed.

Lemma to_digit_decimal c : 48 <= c < 58 -> to_digit c 10 = Some (c - 48).
Proof.
  intros Hc. unfold to_digit. destruct (Z.leb_spec 48 c), (Z.leb_spec c 57); try lia. cbn [andb]. by destruct (Z.ltb_spec (c - 48) 10); [|lia].
Qed.

(** Digit by digit with the wrapping operators only the low word is right. *)
Lemma parse_wrapping_spec r x l : u_ok r -> u_val r mod 2 ^ 128 = x mod 2 ^ 128 -> 0 <= x -> Forall (fun c => 48 <= c < 58) l -> l <> [] ->
  let n := digits_value x l in
  exists r', parse_wrapping 10 r l = inr r' /\ u_ok r' /\ u_val r' = (10 * (n / 10)) mod 2 ^ 128 + n mod 10.
Proof.
  intros Hr Hx Hpos Hl. revert r x Hr Hx Hpos. induction Hl as [|c l Hc Hl IH]; intros r x Hr Hx Hpos Hne; [done|]. cbv zeta.
  cbn [parse_wrapping]. rewrite to_digit_decimal by done. change (digits_value x (c :: l)) with (digits_value (10 * x + (c - 48)) l).
  destruct (u_val_small 10 ltac:(lia)) as [H10 E10]. destruct (mul_assign_spec r (U248.new 10) Hr H10) as [Hm Em]. rewrite E10 in Em.
  destruct (u_val_small (c - 48) ltac:(lia)) as [Hd Ed]. destruct (add_assign_spec _ _ Hm Hd) as [Ea Ha].
  set (m := U248.mul_assign r (U248.new 10)) in *. clearbody m. set (r1 := U248.add_assign m (U248.new (c - 48))) in *. clearbody r1.
  assert (u_val r1 = (10 * x) mod 2 ^ 128 + (c - 48)) as E1.
  { rewrite Ea. unfold U248.new, U248.from_words. cbn [low high]. destruct Hm as [Hml Hmh].
    assert (low m = (u_val m) mod 2 ^ 128) as -> by (unfold u_val; lia). rewrite Em. lia. }
  destruct l as [|c' l].
  - exists r1. split; [done|]. split; [done|]. rewrite E1. unfold digits_value. simpl. lia.
  - destruct (IH r1 (10 * x + (c - 48)) Ha ltac:(lia) ltac:(lia) ltac:(done)) as (r' & E' & Hr' & V'). by exists r'.
Qed.

Lemma parse_checked_spec r l : u_ok r -> Forall (fun c => 48 <= c < 58) l -> digits_value (u_val r) l < 2 ^ 248 ->
  parse_checked 10 r l = inr (of_val (digits_value (u_val r) l)).
Proof.
  intros Hr Hl. revert r Hr. induction Hl as [|c l Hc Hl IH]; intros r Hr Hfit.
  { change (digits_value (u_val r) []) with (u_val r). by rewrite of_val_val. }
  pose proof (u_val_range r Hr) as Rr. change (digits_value (u_val r) (c :: l)) with (digits_value (10 * u_val r + (c - 48)) l) in *.
  pose proof (digits_value_ge (10 * u_val r + (c - 48)) l Hl ltac:(lia)) as Hge.
  cbn [parse_checked]. rewrite to_digit_decimal by done. destruct (u_val_small 10 ltac:(lia)) as [H10 E10].
  rewrite checked_mul_spec, E10 by done. destruct (Z.ltb_spec (u_val r) (2 ^ 248)), (Z.ltb_spec (u_val r * 10) (2 ^ 256)); try lia. cbn [andb].
  destruct (u_val_small (c - 48) ltac:(lia)) as [Hd Ed]. destruct (of_val_ok (u_val r * 10) ltac:(lia)) as [Hm Em].
  rewrite checked_add_spec, Em, Ed by done. unfold exact248. destruct (Z.leb_spec 0 (u_val r * 10 + (c - 48))), (Z.ltb_spec (u_val r * 10 + (c - 48)) (2 ^ 248)); try lia.
  cbn [andb]. destruct (of_val_ok (u_val r * 10 + (c - 48)) ltac:(lia)) as [Ho Eo]. rewrite IH; rewrite ?Eo; [|done|].
  - by replace (u_val r * 10 + (c - 48)) with (10 * u_val r + (c - 48)) by lia.
  - by replace (u_val r * 10 + (c - 48)) with (10 * u_val r + (c - 48)) by lia.
Qed.

(** What is read back: the number when its text has more than 64 digits; the low word is
    right otherwise. *)
Definition read_back (x : Z) : Z := if zlen (decimal x) <=? 64 then (10 * (x / 10)) mod 2 ^ 128 + x mod 10 else x.

Lemma from_str_decimal x : 0 <= x < 2 ^ 248 -> from_str (decimal x) = Returns (inr (of_val (read_back x))).
Proof.
  intros Hx. destruct (decimal_digits x ltac:(lia)) as (F & Hne & V). unfold from_str, from_str_radix. cbn [Z.leb Z.compare andb negb Pos.compare Pos.compare_cont].
  f_equal. unfold read_back. set (l := decimal x) in *. clearbody l. destruct l as [|c rest]; [done|].
  assert (48 <= c < 58) as Hc by by inversion F. destruct (Z.eqb_spec c 43), (Z.eqb_spec c 45); try lia. cbn [orb andb].
  destruct (Z.leb_spec (zlen (c :: rest)) 64).
  - destruct (parse_wrapping_spec U248.ZERO 0 (c :: rest) ltac:(done) ltac:(done) ltac:(lia) F Hne) as (r' & -> & Hr' & Er').
    f_equal. rewrite V in Er'. by apply of_val_eq.
  - rewrite parse_checked_spec by (try done; change (u_val U248.ZERO) with 0; rewrite V; lia). change (u_val U248.ZERO) with 0. by rewrite V.
Qed.
