(* ===== verification/NumTheorems.v ===== *)
(** * NumTheorems: the integers of the models

    The encodings of variable length, the arithmetic of the bounded types, and the
    248-bit integer: its arithmetic, its division and its decimal text, with what the
    code gets wrong there. *)

From S2P Require Import Prelude Bits DataBuilder DataBuilderSpec CellMeta Cell Slice SliceSpec Builder BuilderSpec Num NumSpec VarUint248 VarUint248Spec VarUint248Div VarUint248Text.

(** A type whose values of [w] bits are stored as a number of bytes, in [len] bits, and
    then at most [n] bytes; [mk] makes a value of the type. *)
Definition stores_var {T} `{Store T} `{Load T} (w len n : Z) (mk : Z -> T) : Prop :=
  (forall ctx b x, builder_wf b -> 0 <= x < 2 ^ w ->
     store_into (mk x) ctx b = if x <? 2 ^ (8 * n) then append_full b (var_enc len x, []) else Err CellOverflow) /\
  (forall s x l, slice_wf s -> 0 <= x < 2 ^ (8 * n) -> slice_bits s = var_enc len x ++ l ->
     exists s', load_from s = Ok (mk x, s') /\ moved s s' l) /\
  (forall s m x l, slice_wf s -> 0 <= m <= n -> 0 <= x < 2 ^ (8 * m) -> slice_bits s = padded len m x ++ l ->
     exists s', load_from s = Ok (mk x, s') /\ moved s s' l).

Lemma stores_var_intro {T} `{Store T} `{Load T} w len n (mk : Z -> T) : 0 <= n ->
  (forall ctx b x, builder_wf b -> 0 <= x < 2 ^ w ->
     store_into (mk x) ctx b = if x <? 2 ^ (8 * n) then append_full b (var_enc len x, []) else Err CellOverflow) ->
  (forall s m x l, slice_wf s -> 0 <= m <= n -> 0 <= x < 2 ^ (8 * m) -> slice_bits s = padded len m x ++ l ->
     exists s', load_from s = Ok (mk x, s') /\ moved s s' l) ->
  stores_var w len n mk.
Proof.
  intros Hn Hst Hld. split; [done|]. split; [|done]. intros s x l Hs Hx E.
  destruct (var_enc_padded len n x Hn Hx) as (Ep & ? & ?). rewrite Ep in E. by eapply Hld.
Qed.

(** Integers of variable length, of 24, 56, 120 and 248 bits: a store appends the
    least number of bytes and the bytes, or fails with [CellOverflow] when the value has
    too many; a load reads that back, and also accepts leading zero bytes. *)
Theorem var_uints_roundtrip :
  stores_var 32 2 3 (mkBounded 32 24) /\ stores_var 64 3 7 (mkBounded 64 56) /\
  stores_var 128 4 15 (mkBounded 128 120) /\ stores_var 256 5 31 of_val.
Proof.
  split_and!; apply stores_var_intro; try lia.
  - intros ctx b x Hb Hx. by apply store_VarUint24_spec.
  - apply load_VarUint24_spec.
  - intros ctx b x Hb Hx. by apply store_VarUint56_spec.
  - apply load_VarUint56_spec.
  - intros ctx b x Hb Hx. by apply store_Tokens_spec.
  - apply load_Tokens_spec.
  - intros ctx b x Hb Hx. destruct (of_val_ok x Hx) as [Hok E]. rewrite store_VarUint248_spec by done. by rewrite E.
  - apply load_VarUint248_spec.
Qed.

(** On the values of a bounded type the checked operations give the exact result or
    nothing when it is out of range (or the divisor is zero), the saturating ones the
    nearest value of the type, and an assignment that fails keeps the value. *)
Theorem bounded_ops_exact {w bits} (a b : Bounded w bits) : 0 < bits < w -> num_ok a -> num_ok b ->
  Bounded.checked_add a b = exact (raw a + raw b) /\ Bounded.checked_sub a b = exact (raw a - raw b) /\
  Bounded.checked_mul a b = exact (raw a * raw b) /\
  Bounded.checked_div a b = (if raw b =? 0 then None else exact (raw a / raw b)) /\
  Bounded.saturating_add a b = clamped (raw a + raw b) /\ Bounded.saturating_sub a b = clamped (raw a - raw b) /\
  Bounded.saturating_mul a b = clamped (raw a * raw b) /\
  Bounded.try_sub_assign a b = (if raw b <=? raw a then (Ok tt, mkBounded w bits (raw a - raw b)) else (Err IntOverflow, a)).
Proof.
  intros Hbits Ha Hb. destruct (saturating_clamped Hbits a b Ha Hb) as (E1 & E2 & E3).
  split_and!; try done; [by apply checked_add_exact | by apply checked_sub_exact | by apply checked_mul_exact | by apply checked_div_exact |].
  unfold Bounded.try_sub_assign. rewrite checked_sub_exact by done. unfold exact, num_ok in *.
  destruct (Z.leb_spec 0 (raw a - raw b)), (Z.leb_spec (raw b) (raw a)), (Z.ltb_spec (raw a - raw b) (2 ^ bits)); (done || lia).
Qed.

Lemma bounded_ops_exact_witness :
  let a : Tokens := mkBounded 128 120 1000 in let b : Tokens := mkBounded 128 120 1001 in
  Bounded.try_sub_assign a b = (Err IntOverflow, a).
Proof.
  assert (num_ok (mkBounded 128 120 1000)) as Ha by (unfold num_ok; cbn [raw]; lia).
  assert (num_ok (mkBounded 128 120 1001)) as Hb by (unfold num_ok; cbn [raw]; lia).
  destruct (bounded_ops_exact (mkBounded 128 120 1000) (mkBounded 128 120 1001) ltac:(lia) Ha Hb) as (_ & _ & _ & _ & _ & _ & _ & E). exact E.
Defined.

(** [C35] The 248-bit integer computes with pairs of words as with their values: addition
    and subtraction are exact or fail, saturate, or wrap modulo 2^256, shifts and
    comparisons are those of the values.  Two operators are not what they should be:
    [+=] adds the high word of the right operand to itself, and [checked_mul] tests the
    range of its left operand instead of the product, which may have 256 bits. *)
Theorem u248_arithmetic a b n : u_ok a -> u_ok b -> 0 <= n < 256 ->
  U248.checked_add a b = exact248 (u_val a + u_val b) /\ U248.checked_sub a b = exact248 (u_val a - u_val b) /\
  U248.saturating_add a b = of_val (Z.min (2 ^ 248 - 1) (u_val a + u_val b)) /\
  U248.saturating_sub a b = of_val (Z.max 0 (Z.min (2 ^ 248 - 1) (u_val a - u_val b))) /\
  u_val (U248.sub_assign a b) = (u_val a - u_val b) mod 2 ^ 256 /\
  u_val (U248.mul_assign a b) = (u_val a * u_val b) mod 2 ^ 256 /\
  u_val (U248.shr_assign a n) = u_val a / 2 ^ n /\ u_val (U248.shl_assign a n) = (u_val a * 2 ^ n) mod 2 ^ 256 /\
  U248.cmp a b = (u_val a ?= u_val b) /\
  u_val (U248.add_assign a b) = (low a + low b + 2 ^ 128 * (2 * high b)) mod 2 ^ 256 /\
  U248.checked_mul a b =
    (if (u_val a <? 2 ^ 248) && (u_val a * u_val b <? 2 ^ 256) then Some (of_val (u_val a * u_val b)) else None).
Proof.
  intros Ha Hb Hn. split; [by apply checked_add_spec|]. split; [by apply checked_sub_spec|]. split; [by apply saturating_add_spec|].
  split; [by apply saturating_sub_spec|]. split; [by apply sub_assign_spec|]. split; [by apply mul_assign_spec|].
  split; [by apply shr_assign_spec|]. split; [by apply shl_assign_spec|]. split; [by apply cmp_spec|].
  split; [by apply add_assign_spec | by apply checked_mul_spec].
Qed.

Lemma u248_arithmetic_witness :
  U248.checked_mul (of_val (2 ^ 247)) (of_val 3) = Some (of_val (3 * 2 ^ 247)) /\
  u_val (U248.add_assign (of_val (2 ^ 128)) (of_val 1)) = 1.
Proof.
  assert (u_ok (of_val (2 ^ 247))) as H1 by by apply of_val_ok. assert (u_ok (of_val 3)) as H3 by by apply of_val_ok.
  assert (u_ok (of_val (2 ^ 128))) as H2 by by apply of_val_ok. assert (u_ok (of_val 1)) as H4 by by apply of_val_ok.
  destruct (u248_arithmetic (of_val (2 ^ 247)) (of_val 3) 1 H1 H3 ltac:(lia)) as (_ & _ & _ & _ & _ & _ & _ & _ & _ & _ & E).
  destruct (u248_arithmetic (of_val (2 ^ 128)) (of_val 1) 1 H2 H4 ltac:(lia)) as (_ & _ & _ & _ & _ & _ & _ & _ & _ & E' & _).
  split; [rewrite E; by vm_compute | rewrite E'; by vm_compute].
Defined.

(** [C33] The division of the 248-bit integer, by normalized 64- and 128-bit digits with
    corrected guesses, is Euclidean division of the values, for all 256-bit operands; it
    ends within its fuel, and panics exactly for a zero divisor. *)
Theorem u248_division a b : u_ok a -> u_ok b ->
  Division.udivmod a b =
    (if u_val b =? 0 then Panics else Returns (of_val (u_val a / u_val b), of_val (u_val a mod u_val b))) /\
  Division.div_assign a b = (if u_val b =? 0 then Panics else Returns (of_val (u_val a / u_val b))) /\
  Division.rem_assign a b = (if u_val b =? 0 then Panics else Returns (of_val (u_val a mod u_val b))).
Proof.
  intros Ha Hb. unfold Division.div_assign, Division.rem_assign. rewrite !udivmod_spec by done.
  by destruct (u_val b =? 0).
Qed.

Lemma u248_division_witness :
  Division.div_assign (of_val (2 ^ 247 + 5)) (of_val (2 ^ 130 + 1)) = Returns (of_val ((2 ^ 247 + 5) / (2 ^ 130 + 1))).
Proof.
  assert (u_ok (of_val (2 ^ 247 + 5))) as H1 by by apply of_val_ok. assert (u_ok (of_val (2 ^ 130 + 1))) as H2 by by apply of_val_ok.
  destruct (u248_division _ _ H1 H2) as (_ & E & _). rewrite E. by vm_compute.
Defined.

(** [C34] The decimal text of a 248-bit integer: it is formatted without a write outside
    the buffer, as its decimal digits, and the parser reads the digits back when they are
    more than 64.  With at most 64 digits the parser uses [+=], which loses the high word:
    only a number below 2^128 is sure to be read back. *)
Theorem u248_text buf x : zlen buf = 79 -> 0 <= x < 2 ^ 248 ->
  fmt_var_uint248 buf (of_val x) = Returns (decimal x) /\
  from_str (decimal x) = Returns (inr (of_val (read_back x))) /\
  (x < 2 ^ 128 \/ 64 < zlen (decimal x) -> read_back x = x).
Proof.
  intros Hbuf Hx. destruct (of_val_ok x ltac:(lia)) as [Hok E]. split; [by rewrite fmt_spec, E|]. split; [by apply from_str_decimal|].
  unfold read_back. intros [H|H]; destruct (Z.leb_spec (zlen (decimal x)) 64); lia.
Qed.

Lemma u248_text_witness :
  fmt_var_uint248 (replicate 79 0) (of_val (2 ^ 130)) = Returns (decimal (2 ^ 130)) /\
  from_str (decimal (2 ^ 130)) = Returns (inr (of_val (2 ^ 128))).
Proof.
  destruct (u248_text (replicate 79 0) (2 ^ 130) ltac:(done) ltac:(lia)) as (E1 & E2 & _). split; [exact E1|].
  rewrite E2. by vm_compute.
Defined.

(** ** The range of the split depth is not checked *)

(** The type is documented as an integer of 5 bits in the range 1..=30; 31 is stored and
    loaded, and a depth from a number of bits is taken up to 254 and stored modulo 32. *)
Lemma split_depth_unchecked :
  SplitDepth.new 31 = Ok (mkDepth 31) /\ SplitDepth.from_bit_len 254 = Ok (mkDepth 254) /\
  (forall ctx b, builder_wf b -> store_into (mkDepth 33) ctx b = append_full b (uint_bits 5 1, [])).
Proof.
  split; [done|]. split; [done|]. intros ctx b Hb. unfold store_into, Store_SplitDepth, SplitDepth.BITS. cbn [depth_inner].
  rewrite on_small_uint by (done || lia). do 2 f_equal.
Qed.
