(* ===== verification/DictTyped.v ===== *)
(** * DictTyped: dictionaries with raw and with typed keys ([src/src/dict/raw.rs], [src/src/dict/typed.rs])

    [RawDict<N>] hands its root, the key length [N] and mostly the empty context to the
    operations on roots; [Dict<K, V>] serializes its keys with [StoreDictKey], its values
    with [Store], and loads them back.  The constructors of the iterators are here too.
    An operation that changes the dictionary returns the new one; where the code fails
    after it has changed the root, the new dictionary comes with the error.  A [BTreeMap]
    is the list of its entries in the order of its iterator. *)

From S2P Require Import Prelude Bits DataBuilder CellMeta Cell Slice SliceScan Builder Context DictLabel Dict DictKeys DictBuild DictModify DictFind DictIter DictSplit.

(** ** The iterators *)

Module RawIter.
Definition new (root : option Cell) (bit_len : Z) : RawIter := raw_iter_new_ext root bit_len false false.
Definition reversed (it : RawIter) : RawIter := mkRawIter (ri_segments it) (ri_status it) (ri_builder it) true (ri_signed it).
Definition signed (it : RawIter) : RawIter := mkRawIter (ri_segments it) (ri_status it) (ri_builder it) (ri_reversed it) true.
Definition is_reversed (it : RawIter) : bool := ri_reversed it.
Definition is_signed (it : RawIter) : bool := ri_signed it.
End RawIter.

(** The iterators over owned parts keep the root beside the inner iterator. *)
Record RawOwnedIter := mkRawOwnedIter { ro_root : option Cell; ro_inner : RawIter }.

Module RawOwnedIter.
Definition new_ext (root : option Cell) (bit_len : Z) (reversed signed : bool) : RawOwnedIter :=
  mkRawOwnedIter root (raw_iter_new_ext root bit_len reversed signed).
Definition new (root : option Cell) (bit_len : Z) : RawOwnedIter := mkRawOwnedIter root (RawIter.new root bit_len).
Definition reversed (it : RawOwnedIter) : RawOwnedIter := mkRawOwnedIter (ro_root it) (RawIter.reversed (ro_inner it)).
Definition signed (it : RawOwnedIter) : RawOwnedIter := mkRawOwnedIter (ro_root it) (RawIter.signed (ro_inner it)).
Definition is_reversed (it : RawOwnedIter) : bool := ri_reversed (ro_inner it).
Definition is_signed (it : RawOwnedIter) : bool := ri_signed (ro_inner it).
Definition next (it : RawOwnedIter) : option (result (CellDataBuilder * CellSliceParts)) * RawOwnedIter :=
  let (item, inner) := raw_iter_next_owned (ro_root it) (ro_inner it) in (item, mkRawOwnedIter (ro_root it) inner).
End RawOwnedIter.

(** [RawKeys] is its inner iterator, with [raw_keys_next]. *)
Module RawKeys.
Definition new (root : option Cell) (bit_len : Z) : RawIter := RawIter.new root bit_len.
Definition new_ext (root : option Cell) (bit_len : Z) (reversed signed : bool) : RawIter := raw_iter_new_ext root bit_len reversed signed.
Definition reversed (it : RawIter) : RawIter := RawIter.reversed it.
Definition signed (it : RawIter) : RawIter := RawIter.signed it.
Definition is_reversed (it : RawIter) : bool := ri_reversed it.
Definition is_signed (it : RawIter) : bool := ri_signed it.
End RawKeys.

Module RawValues.
Definition new (root : option Cell) (bit_len : Z) : RawValues := raw_values_new_ext root bit_len false false.
Definition reversed (it : RawValues) : RawValues := mkRawValues (rv_segments it) (rv_status it) true (rv_signed it).
Definition signed (it : RawValues) : RawValues := mkRawValues (rv_segments it) (rv_status it) (rv_reversed it) true.
Definition is_reversed (it : RawValues) : bool := rv_reversed it.
Definition is_signed (it : RawValues) : bool := rv_signed it.
End RawValues.

Record RawOwnedValues := mkRawOwnedValues { rov_root : option Cell; rov_inner : RawValues }.

Module RawOwnedValues.
Definition new_ext (root : option Cell) (bit_len : Z) (reversed signed : bool) : RawOwnedValues :=
  mkRawOwnedValues root (raw_values_new_ext root bit_len reversed signed).
Definition new (root : option Cell) (bit_len : Z) : RawOwnedValues := mkRawOwnedValues root (RawValues.new root bit_len).
Definition reversed (it : RawOwnedValues) : RawOwnedValues := mkRawOwnedValues (rov_root it) (RawValues.reversed (rov_inner it)).
Definition signed (it : RawOwnedValues) : RawOwnedValues := mkRawOwnedValues (rov_root it) (RawValues.signed (rov_inner it)).
Definition is_reversed (it : RawOwnedValues) : bool := rv_reversed (rov_inner it).
Definition is_signed (it : RawOwnedValues) : bool := rv_signed (rov_inner it).
Definition next (it : RawOwnedValues) : option (result CellSliceParts) * RawOwnedValues :=
  let (item, inner) := raw_owned_values_next (rov_root it) (rov_inner it) in (item, mkRawOwnedValues (rov_root it) inner).
End RawOwnedValues.

Module UnionRawIter.
Definition new (left_root right_root : option Cell) (bit_len : Z) : UnionRawIter :=
  union_iter_new_ext left_root right_root bit_len false false.
Definition map_inner (f : RawIter -> RawIter) (u : UnionRawIter) : UnionRawIter :=
  mkUnionIter (f (un_left u)) (un_left_peeked u) (un_left_finished u) (f (un_right u)) (un_right_peeked u) (un_right_finished u).
Definition reversed (u : UnionRawIter) : UnionRawIter := map_inner RawIter.reversed u.
Definition signed (u : UnionRawIter) : UnionRawIter := map_inner RawIter.signed u.
Definition is_reversed (u : UnionRawIter) : bool := ri_reversed (un_left u).
Definition is_signed (u : UnionRawIter) : bool := ri_signed (un_left u).
End UnionRawIter.

(** ** [RawDict] *)

Record RawDict (N : Z) := mkRawDict { raw_root : option Cell }.
Arguments mkRawDict {N} raw_root.
Arguments raw_root {N} _.

(** [PartialEq]: cells are compared by their representation hashes. *)
Definition root_eqb (a b : option Cell) : bool :=
  match a, b with
  | Some this, Some other => cell_eqb this other
  | None, None => true
  | _, _ => false
  end.
Definition root_size (root : option Cell) : Size := mkSize 1 (b2z (match root with Some _ => true | None => false end)).
Definition is_some {A} (o : option A) : bool := match o with Some _ => true | None => false end.

#[global] Instance ExactSize_raw_dict N : ExactSize (RawDict N) := fun d => root_size (raw_root d).
#[global] Instance Load_raw_dict N : Load (RawDict N) := fun s => let! (root, s) := load_from s in Ok (mkRawDict root, s).
#[global] Instance Store_raw_dict N : Store (RawDict N) := fun d ctx b => store_into (raw_root d) ctx b.

(** A dictionary behind the result of an operation on its root *)
Definition with_root {N A} (r : result (A * option Cell)) : result (A * RawDict N) :=
  let! (a, root) := r in Ok (a, mkRawDict root).
Definition both_roots {N} (r : result (option Cell * option Cell)) : result (RawDict N * RawDict N) :=
  let! (lft, rgt) := r in Ok (mkRawDict lft, mkRawDict rgt).

Module RawDict.
Section Impl.
Context `{Machine} (sha256 : list Z -> HashBytes) {N : Z}.
Implicit Types (d : RawDict N) (ctx : CellContext) (key : CellSlice).
Abbreviation empty := (empty_context sha256).

Definition default : RawDict N := mkRawDict None.
Definition new : RawDict N := mkRawDict None.
Definition from_root (value : option Cell) : RawDict N := mkRawDict value.
Definition eqb d (other : RawDict N) : bool := root_eqb (raw_root d) (raw_root other).
Definition is_empty d : bool := negb (is_some (raw_root d)).
Definition root d : option Cell := raw_root d.
Definition into_root d : option Cell := raw_root d.

(** [None] is the panic of [assert_eq!(K::BITS, N)]. *)
Definition try_from_sorted_slice {K V} `{StoreDictKey K} `{!KeyOrd K} `{Store V} (sorted : list (K * V)) : option (result (RawDict N)) :=
  if KEY_BITS K =? N then Some (let! root := build_dict_from_sorted_iter sorted empty in Ok (mkRawDict root)) else None.
Definition try_from_btree {K V} `{StoreDictKey K} `{!KeyOrd K} `{Store V} (sorted : list (K * V)) : option (result (RawDict N)) :=
  try_from_sorted_slice sorted.

Definition load_from_root_ext (slice : CellSlice) ctx : result (RawDict N * CellSlice) :=
  let! (root, slice) := dict_load_from_root ctx slice N in Ok (mkRawDict (Some root), slice).

Definition get_ext d key ctx : result (option CellSlice) := dict_get ctx (raw_root d) N key.
Definition get d key : result (option CellSlice) := get_ext d key empty.
Definition get_owned_ext d key ctx : result (option CellSliceParts) := dict_get_owned ctx (raw_root d) N key.
Definition get_owned d key : result (option CellSliceParts) := get_owned_ext d key empty.
Definition get_subdict d (prefix : CellSlice) ctx : result (option Cell) := dict_get_subdict ctx (raw_root d) N prefix.
Definition contains_key d key : result bool := let! value := get d key in Ok (is_some value).

Definition find_owned d key (towards : DictBound) (inclusive signed : bool) : result (option DictOwnedEntry) :=
  dict_find_owned empty (raw_root d) N key towards inclusive signed.
Definition get_next_owned d key signed := find_owned d key Max false signed.
Definition get_prev_owned d key signed := find_owned d key Min false signed.
Definition get_or_next_owned d key signed := find_owned d key Max true signed.
Definition get_or_prev_owned d key signed := find_owned d key Min true signed.

Definition get_bound_ext d (bound : DictBound) (signed : bool) ctx : result (option (CellDataBuilder * CellSlice)) :=
  dict_find_bound ctx (raw_root d) N bound signed.
Definition get_bound d bound signed := get_bound_ext d bound signed empty.
Definition get_min d signed := get_bound d Min signed.
Definition get_max d signed := get_bound d Max signed.
Definition get_bound_owned_ext d (bound : DictBound) (signed : bool) ctx : result (option DictOwnedEntry) :=
  dict_find_bound_owned ctx (raw_root d) N bound signed.
Definition get_bound_owned d bound signed := get_bound_owned_ext d bound signed empty.
Definition get_min_owned d signed := get_bound_owned d Min signed.
Definition get_max_owned d signed := get_bound_owned d Max signed.

Definition insert d key (value : DynStore) (mode : SetMode) ctx : result (bool * RawDict N) :=
  with_root (dict_insert ctx (raw_root d) key N value mode).
Definition set_ext d key value ctx := insert d key value SetSet ctx.
Definition replace_ext d key value ctx := insert d key value SetReplace ctx.
Definition add_ext d key value ctx := insert d key value SetAdd ctx.
Definition set {T} `{Store T} d key (value : T) := set_ext d key (store_into value) empty.
Definition replace {T} `{Store T} d key (value : T) := replace_ext d key (store_into value) empty.
Definition add {T} `{Store T} d key (value : T) := add_ext d key (store_into value) empty.

Definition remove_ext d key ctx : result (option CellSliceParts * RawDict N) :=
  with_root (dict_remove_owned ctx (raw_root d) key N false).
Definition remove d key := remove_ext d key empty.
Definition remove_bound_ext d (bound : DictBound) (signed : bool) ctx : result (option DictOwnedEntry * RawDict N) :=
  with_root (dict_remove_bound_owned ctx (raw_root d) N bound signed).
Definition remove_bound d bound signed := remove_bound_ext d bound signed empty.
Definition remove_min d signed := remove_bound d Min signed.
Definition remove_max d signed := remove_bound d Max signed.

(** [CellSlice::default] is a slice of the empty cell. *)
Definition split_by_prefix_ext d (key_prefix : CellSlice) ctx : result (RawDict N * RawDict N) :=
  both_roots (dict_split_by_prefix ctx (raw_root d) N key_prefix).
Definition split_by_prefix d key_prefix := split_by_prefix_ext d key_prefix empty.
Definition split_ext d ctx := split_by_prefix_ext d (new_allow_exotic EmptyOrdinaryCell) ctx.
Definition split d := split_ext d empty.

Definition iter d : RawIter := RawIter.new (raw_root d) N.
Definition iter_union d (other : RawDict N) : UnionRawIter := UnionRawIter.new (raw_root d) (raw_root other) N.
Definition iter_owned d : RawOwnedIter := RawOwnedIter.new (raw_root d) N.
Definition keys d : RawIter := RawKeys.new (raw_root d) N.
Definition values d : RawValues := RawValues.new (raw_root d) N.
Definition values_owned d : RawOwnedValues := RawOwnedValues.new (raw_root d) N.
End Impl.
End RawDict.

(** * Dictionaries with typed keys and values ([src/src/dict/typed.rs])

    [Dict<K, V>] serializes its keys with [StoreDictKey], its values with [Store], and
    loads them back.  An operation that changes the dictionary returns the new one beside
    the result; where the code fails after it has changed the root, the new dictionary
    comes with the error. *)

Record Dict (K V : Type) := mkDict { dict_root : option Cell }.
Arguments mkDict {K V} dict_root.
Arguments dict_root {K V} _.

#[global] Instance ExactSize_dict K V : ExactSize (Dict K V) := fun d => root_size (dict_root d).
#[global] Instance Load_dict K V : Load (Dict K V) := fun s => let! (root, s) := load_from s in Ok (mkDict root, s).
#[global] Instance Store_dict K V : Store (Dict K V) := fun d ctx b => store_into (dict_root d) ctx b.

(** The builder a key is serialized into *)
Definition key_data {K} `{StoreDictKey K} (key : K) : result CellDataBuilder := store_into_data key data_new.

(** A value loaded from the slice that was found *)
Definition load_value {V} `{Load V} (value : CellSlice) : result V := let! (v, _) := load_from value in Ok v.
Definition load_key {K} `{LoadDictKey K} (key : CellDataBuilder) : result K :=
  match load_from_data key with Some key => Ok key | None => Err CellUnderflow end.

(** ** The iterators *)

Record Iter (K V : Type) := mkIter { it_inner : RawIter }.
Arguments mkIter {K V} it_inner.
Arguments it_inner {K V} _.

Module Iter.
Section Impl.
Context {K V : Type} `{DictKey K}.
Definition new (root : option Cell) : Iter K V := mkIter (RawIter.new root (KEY_BITS K)).
Definition reversed (it : Iter K V) : Iter K V := mkIter (RawIter.reversed (it_inner it)).
Definition signed (it : Iter K V) : Iter K V := mkIter (RawIter.signed (it_inner it)).
Context `{!LoadDictKey K} `{Load V}.

(** An item that cannot be loaded ends the iterator. *)
Definition next (it : Iter K V) : option (result (K * V)) * Iter K V :=
  match raw_iter_next (it_inner it) with
  | (None, inner) => (None, mkIter inner)
  | (Some (Err e), inner) => (Some (Err e), mkIter inner)
  | (Some (Ok (key, value)), inner) =>
      match (let! key := load_key key in let! value := load_value value in Ok (key, value)) with
      | Ok item => (Some (Ok item), mkIter inner)
      | Err e => (Some (Err e), mkIter (raw_iter_finish inner))
      end
  end.
End Impl.
End Iter.

Record UnionIter (K V : Type) := mkUnion { ui_inner : UnionRawIter }.
Arguments mkUnion {K V} ui_inner.
Arguments ui_inner {K V} _.

Module UnionIter.
Section Impl.
Context {K V : Type} `{DictKey K}.
Definition new (left_root right_root : option Cell) : UnionIter K V := mkUnion (UnionRawIter.new left_root right_root (KEY_BITS K)).
Definition reversed (it : UnionIter K V) : UnionIter K V := mkUnion (UnionRawIter.reversed (ui_inner it)).
Definition signed (it : UnionIter K V) : UnionIter K V := mkUnion (UnionRawIter.signed (ui_inner it)).
Context `{!LoadDictKey K} `{Load V}.

Definition load_opt_value (value : option CellSlice) : result (option V) :=
  match value with
  | Some value => let! value := load_value value in Ok (Some value)
  | None => Ok None
  end.

Definition next (addr_eq : Cell -> Cell -> bool) (it : UnionIter K V) : option (result (K * option V * option V)) * UnionIter K V :=
  match union_iter_next addr_eq (ui_inner it) with
  | (None, inner) => (None, mkUnion inner)
  | (Some (Err e), inner) => (Some (Err e), mkUnion inner)
  | (Some (Ok (key, left_value, right_value)), inner) =>
      match (let! key := load_key key in
             let! lft := load_opt_value left_value in
             let! rgt := load_opt_value right_value in Ok (key, lft, rgt)) with
      | Ok item => (Some (Ok item), mkUnion inner)
      | Err e => (Some (Err e), mkUnion (union_finish inner))
      end
  end.
End Impl.
End UnionIter.

Record Keys (K : Type) := mkKeys { ks_inner : RawIter }.
Arguments mkKeys {K} ks_inner.
Arguments ks_inner {K} _.

Module Keys.
Section Impl.
Context {K : Type} `{DictKey K}.
Definition new (root : option Cell) : Keys K := mkKeys (RawIter.new root (KEY_BITS K)).
Definition reversed (it : Keys K) : Keys K := mkKeys (RawIter.reversed (ks_inner it)).
Definition signed (it : Keys K) : Keys K := mkKeys (RawIter.signed (ks_inner it)).
Context `{!LoadDictKey K}.

Definition next (it : Keys K) : option (result K) * Keys K :=
  match raw_iter_next (ks_inner it) with
  | (None, inner) => (None, mkKeys inner)
  | (Some (Err e), inner) => (Some (Err e), mkKeys inner)
  | (Some (Ok (key, _)), inner) =>
      match load_from_data key with
      | Some key => (Some (Ok key), mkKeys inner)
      | None => (Some (Err CellUnderflow), mkKeys (raw_iter_finish inner))
      end
  end.
End Impl.
End Keys.

Record Values (V : Type) := mkValues { vl_inner : RawValues }.
Arguments mkValues {V} vl_inner.
Arguments vl_inner {V} _.

Module Values.
Section Impl.
Context {V : Type}.
Definition new (root : option Cell) (bit_len : Z) : Values V := mkValues (RawValues.new root bit_len).
Definition reversed (it : Values V) : Values V := mkValues (RawValues.reversed (vl_inner it)).
Definition signed (it : Values V) : Values V := mkValues (RawValues.signed (vl_inner it)).
Context `{Load V}.

Definition next (it : Values V) : option (result V) * Values V :=
  match raw_values_next (vl_inner it) with
  | (None, inner) => (None, mkValues inner)
  | (Some (Err e), inner) => (Some (Err e), mkValues inner)
  | (Some (Ok value), inner) =>
      match load_value value with
      | Ok value => (Some (Ok value), mkValues inner)
      | Err e => (Some (Err e), mkValues (raw_values_finish inner))
      end
  end.
End Impl.
End Values.

(** ** [Dict] *)

(** What the root has become, also when the result of the change is an error later on *)
Definition changed {K V A} (d : Dict K V) (r : result (A * option Cell)) : result A * Dict K V :=
  match r with
  | Ok (a, root) => (Ok a, mkDict root)
  | Err e => (Err e, d)
  end.

Module Dict.
Section Impl.
Context `{Machine} (sha256 : list Z -> HashBytes) {K V : Type}.
Implicit Types (d : Dict K V) (ctx : CellContext).
Abbreviation empty := (empty_context sha256).

Definition new : Dict K V := mkDict None.
Definition default : Dict K V := new.
Definition from_raw (dict : option Cell) : Dict K V := mkDict dict.
Definition eqb d (other : Dict K V) : bool := root_eqb (dict_root d) (dict_root other).
Definition is_empty d : bool := negb (is_some (dict_root d)).
Definition root d : option Cell := dict_root d.
Definition into_root d : option Cell := dict_root d.
(** To key and value types with the same representation *)
Definition cast_into {Q T} d : Dict Q T := mkDict (dict_root d).
Definition cast_ref {Q T} d : Dict Q T := mkDict (dict_root d).

Context `{DictKey K}.

Definition load_from_root_ext (slice : CellSlice) ctx : result (Dict K V * CellSlice) :=
  let! (root, slice) := dict_load_from_root ctx slice (KEY_BITS K) in Ok (mkDict (Some root), slice).

Definition iter d : Iter K V := Iter.new (dict_root d).
Definition iter_union d (other : Dict K V) : UnionIter K V := UnionIter.new (dict_root d) (dict_root other).
Definition keys d : Keys K := Keys.new (dict_root d).
Definition values d : Values V := Values.new (dict_root d) (KEY_BITS K).
Definition raw_iter d : RawIter := RawIter.new (dict_root d) (KEY_BITS K).
Definition raw_iter_union d (other : Dict K V) : UnionRawIter := UnionRawIter.new (dict_root d) (dict_root other) (KEY_BITS K).
Definition raw_keys d : RawIter := RawIter.new (dict_root d) (KEY_BITS K).
Definition raw_values d : RawValues := RawValues.new (dict_root d) (KEY_BITS K).

Definition split_by_prefix_ext d (key_prefix : CellSlice) ctx : result (Dict K V * Dict K V) :=
  let! (lft, rgt) := dict_split_by_prefix ctx (dict_root d) (KEY_BITS K) key_prefix in Ok (mkDict lft, mkDict rgt).
Definition split_by_prefix d key_prefix := split_by_prefix_ext d key_prefix empty.
Definition split_ext d ctx := split_by_prefix_ext d (new_allow_exotic EmptyOrdinaryCell) ctx.
Definition split d := split_ext d empty.

Definition merge_with_right_sibling_ext d (rgt : Dict K V) ctx : result (Dict K V) :=
  let! root := dict_merge_siblings ctx (dict_root d) (dict_root rgt) (KEY_BITS K) in Ok (mkDict root).
Definition merge_with_right_sibling d rgt := merge_with_right_sibling_ext d rgt empty.

Section Lookup.
Context `{!StoreDictKey K}.

Definition get_raw d (key : K) : result (option CellSlice) :=
  let! builder := key_data key in
  dict_get empty (dict_root d) (KEY_BITS K) (as_data_slice builder).
Definition get_raw_owned d (key : K) : result (option CellSliceParts) :=
  let! builder := key_data key in
  dict_get_owned empty (dict_root d) (KEY_BITS K) (as_data_slice builder).
Definition contains_key d (key : K) : result bool := let! value := get_raw d key in Ok (is_some value).
Definition get `{Load V} d (key : K) : result (option V) :=
  let! value := get_raw d key in
  match value with
  | None => Ok None
  | Some value => let! value := load_value value in Ok (Some value)
  end.

Definition remove_raw_ext d (key : K) ctx : result (option CellSliceParts) * Dict K V :=
  changed d (let! builder := key_data key in dict_remove_owned ctx (dict_root d) (as_data_slice builder) (KEY_BITS K) false).
Definition remove_raw d (key : K) := remove_raw_ext d key empty.
Definition remove `{Load V} d (key : K) : result (option V) * Dict K V :=
  let (removed, d) := remove_raw_ext d key empty in
  (let! removed := removed in
   match removed with
   | Some (rg, c) =>
       let! slice := apply rg c in
       let! value := load_value slice in Ok (Some value)
   | None => Ok None
   end, d).

(** [find_ext]: the value is loaded after the key, an exotic leaf is refused before. *)
Definition find_ext `{!LoadDictKey K} `{Load V} d (key : K) (towards : DictBound) (inclusive signed : bool) : result (option (K * V)) :=
  let! builder := key_data key in
  let! found := dict_find_owned empty (dict_root d) (KEY_BITS K) (as_data_slice builder) towards inclusive signed in
  match found with
  | None => Ok None
  | Some (key, (rg, c)) =>
      let! value := apply rg c in
      let! key := load_key key in
      let! value := load_value value in Ok (Some (key, value))
  end.
Definition get_next `{!LoadDictKey K} `{Load V} d (key : K) signed := find_ext d key Max false signed.
Definition get_prev `{!LoadDictKey K} `{Load V} d (key : K) signed := find_ext d key Min false signed.
Definition get_or_next `{!LoadDictKey K} `{Load V} d (key : K) signed := find_ext d key Max true signed.
Definition get_or_prev `{!LoadDictKey K} `{Load V} d (key : K) signed := find_ext d key Min true signed.
End Lookup.

Section Bounds.
Context `{!LoadDictKey K}.

Definition get_bound_raw d (bound : DictBound) (signed : bool) : result (option (K * CellSlice)) :=
  let! found := dict_find_bound empty (dict_root d) (KEY_BITS K) bound signed in
  match found with
  | None => Ok None
  | Some (key, value) => let! key := load_key key in Ok (Some (key, value))
  end.
Definition get_bound `{Load V} d bound signed : result (option (K * V)) :=
  let! found := get_bound_raw d bound signed in
  match found with
  | Some (key, value) => let! value := load_value value in Ok (Some (key, value))
  | None => Ok None
  end.
Definition get_min `{Load V} d signed := get_bound d Min signed.
Definition get_max `{Load V} d signed := get_bound d Max signed.

Definition remove_bound_raw_ext d (bound : DictBound) (signed : bool) ctx : result (option (K * CellSliceParts)) * Dict K V :=
  let (removed, d) := changed d (dict_remove_bound_owned ctx (dict_root d) (KEY_BITS K) bound signed) in
  (let! removed := removed in
   match removed with
   | Some (key, value) => let! key := load_key key in Ok (Some (key, value))
   | None => Ok None
   end, d).
Definition remove_bound_raw d bound signed := remove_bound_raw_ext d bound signed empty.
Definition remove_min_raw d signed := remove_bound_raw d Min signed.
Definition remove_max_raw d signed := remove_bound_raw d Max signed.
End Bounds.

Section Updates.
Context `{!StoreDictKey K} `{Store V}.

Definition insert_impl d (key : K) (value : V) (mode : SetMode) ctx : result bool * Dict K V :=
  changed d (let! key_builder := key_data key in
    dict_insert ctx (dict_root d) (as_data_slice key_builder) (KEY_BITS K) (store_into value) mode).
Definition set_ext d (key : K) (value : V) ctx := insert_impl d key value SetSet ctx.
Definition replace_ext d (key : K) (value : V) ctx := insert_impl d key value SetReplace ctx.
Definition add_ext d (key : K) (value : V) ctx := insert_impl d key value SetAdd ctx.
Definition set d (key : K) (value : V) := set_ext d key value empty.
Definition replace d (key : K) (value : V) := replace_ext d key value empty.
Definition add d (key : K) (value : V) := add_ext d key value empty.

Context `{!KeyOrd K}.

Definition try_from_sorted_slice (sorted : list (K * V)) : result (Dict K V) :=
  let! root := build_dict_from_sorted_iter sorted empty in Ok (mkDict root).
Definition try_from_btree (sorted : list (K * V)) : result (Dict K V) := try_from_sorted_slice sorted.

Definition modify_with_sorted_iter_ext {T} (addr_eq : Cell -> Cell -> bool) d (entries : list T)
    (extract_key : T -> K) (extract_value : T -> result (option V)) ctx : result bool * Dict K V :=
  changed d (dict_modify_from_sorted_iter addr_eq (dict_root d) entries extract_key extract_value ctx).
Definition modify_with_sorted_iter addr_eq d (entries : list (K * option V)) : result bool * Dict K V :=
  modify_with_sorted_iter_ext addr_eq d entries fst (fun entry => Ok entry.2) empty.
End Updates.
End Impl.
End Dict.
