(* ===== verification/DictTypedSpec.v ===== *)
(** * DictTypedSpec: typed dictionaries as finite maps of values

    [typed_rep d F] says that the dictionary [d] holds the typed map [F], keyed by the bits
    of the keys.  [DictTypes] is what the types of the keys and the values promise to the
    dictionary: they are serialized and loaded back, and a value fits into a leaf.  The
    lookups and updates come first, then the searches and iterators in key order, then
    the operations on whole dictionaries. *)

From stdpp Require Import gmap sorting.
From S2P Require Import Prelude Bits DataBuilder DataBuilderSpec CellMeta Cell Slice SliceSpec SliceScan SliceScanSpec Builder BuilderSpec Context DictLabel DictLabelSpec Dict DictSpec DictTheorems DictKeys DictBuild DictModify DictBuildSpec DictModifySpec DictModifyCorrect DictFind DictIter DictOrder DictFindSpec DictIterSpec DictIterTheorems DictSplit DictSplitSpec DictBulkTheorems DictTyped.

(** ** Codecs of records *)

(** A type whose instances go through another type has its codec. *)
#[program] Definition codec_via {T A} `{Store T} `{Load T} `{Codec A} (into : T -> A) (back : A -> T)
    (back_into : forall v, back (into v) = v)
    (store_via : forall v ctx b, store_into v ctx b = store_into (into v) ctx b)
    (load_via : forall s, load_from s = rbind (load_from s) (fun p => Ok (back p.1, p.2))) : Codec T := {|
  enc_ok v := enc_ok (into v); enc v := enc (into v) |}.
Next Obligation. intros T A ST LT SA LA CA into back Hback Hst Hld ctx b v Hb Hv. rewrite Hst. by apply store_enc. Qed.
Next Obligation.
  intros T A ST LT SA LA CA into back Hback Hst Hld s v l rs Hs Hv Hb Hr. cbv beta in *. rewrite Hld.
  destruct (load_enc s (into v) l rs Hs Hv Hb Hr) as (s' & -> & ?). cbn [rbind fst snd]. exists s'. by rewrite Hback.
Qed.

(** A dictionary is stored as its optional root. *)
#[export] Instance Codec_dict K V : Codec (DictTyped.Dict K V).
Proof. refine (codec_via dict_root mkDict _ _ _); [by intros [] | done |].
  intros s. unfold load_from at 1, Load_dict. by destruct (load_from s) as [[]|]. Defined.

(** ** The types of a dictionary *)

Class DictTypes (ctx : CellContext) {laws : ContextLaws ctx} (Dv : Z) (K V : Type) `{KeyLaws K} `{Codec V} : Prop := {
  key_len_fits : 2 + len_bits (KEY_BITS K) + KEY_BITS K <= MAX_BIT_LEN;
  depth_nonneg : 0 <= Dv;
  depth_fits : Dv + KEY_BITS K <= MAX_DEPTH;
  value_fits (v : V) : enc_ok v -> vok ctx (KEY_BITS K) Dv (enc v);
}.

Section Typed.
Context {ftail : ForkTail} {mach : Machine} (sha256 : list Z -> HashBytes).
Abbreviation ctx := (empty_context sha256).
Context {K V : Type} `{KeyLaws K} `{Codec V} (Dv : Z) {types : DictTypes ctx Dv K V} (canon : bool).
Abbreviation N := (KEY_BITS K).
Abbreviation len_fits := (key_len_fits (DictTypes := types)).
Abbreviation depth_pos := (depth_nonneg (DictTypes := types)).
Abbreviation depth_max := (depth_fits (DictTypes := types)).
Implicit Types (d : Dict K V) (F : gmap (list bool) V) (key : K) (v : V).

Definition entry_typed (k : list bool) v : Prop := enc_ok v /\ exists key, key_ok key /\ key_bits key = k.

Definition typed_rep d F : Prop :=
  dict_rep ctx N Dv canon N (dict_root d) (enc <$> F) /\ map_Forall entry_typed F.

(** ** Keys and values on their way in and out *)

Lemma typed_key key : key_ok key ->
  key_data key = Ok (of_bits (key_bits key)) /\ slice_wf (key_slice (key_bits key)) /\
  slice_bits (key_slice (key_bits key)) = key_bits key /\ size_bits (key_slice (key_bits key)) = N.
Proof.
  intros Hk. pose proof (zlen_key_bits key Hk) as Hz. pose proof key_fits.
  destruct (store_key_new key Hk) as (E & _). destruct (key_slice_spec (key_bits key)) as (W & B & S); [lia|].
  split_and!; [exact E | done | done | by rewrite S].
Qed.

Lemma load_value_spec v s : enc_ok v -> value_slice (enc v) s -> load_value s = Ok v.
Proof.
  intros Hv (W & B & _ & R & _). unfold load_value.
  destruct (load_enc s v [] [] W Hv) as (s' & -> & _); [by rewrite app_nil_r..|done].
Qed.

Lemma apply_value p rg c : value_slice p (apply_allow_exotic rg c) -> apply rg c = Ok (apply_allow_exotic rg c).
Proof. intros (W & _ & _ & _ & Hx). by apply (apply_in_bounds (apply_allow_exotic rg c)). Qed.

Lemma load_key_spec key : key_ok key -> load_key (of_bits (key_bits key)) = Ok key.
Proof. intros Hk. unfold load_key. by rewrite load_key_law. Qed.

Lemma typed_insert F key v : map_Forall entry_typed F -> key_ok key -> enc_ok v -> map_Forall entry_typed (<[key_bits key := v]> F).
Proof. intros HF Hk Hv. apply map_Forall_insert_2; [|done]. split; [done|]. by exists key. Qed.

Lemma typed_delete F k : map_Forall entry_typed F -> map_Forall entry_typed (delete k F).
Proof. apply map_Forall_delete. Qed.

(** An entry found in the map of payloads is one of the typed map. *)
Lemma typed_lookup F k p : map_Forall entry_typed F -> (enc <$> F) !! k = Some p ->
  exists key v, k = key_bits key /\ p = enc v /\ key_ok key /\ enc_ok v /\ F !! key_bits key = Some v.
Proof.
  intros HF (v & <- & E)%lookup_fmap_Some. destruct (HF _ _ E) as [Hv (key & Hk & <-)]. by exists key, v.
Qed.

Lemma key_bits_inj key key' : key_ok key -> key_ok key' -> key_bits key = key_bits key' -> key = key'.
Proof. intros Hk Hk' E. pose proof (load_key_law key Hk) as L. rewrite E, load_key_law in L by done. by injection L. Qed.

(** ** Lookups *)

Lemma typed_get_raw_spec d F key :
  typed_rep d F -> key_ok key ->
  match F !! key_bits key with
  | Some v => enc_ok v /\ exists s, Dict.get_raw sha256 d key = Ok (Some s) /\ value_slice (enc v) s
  | None => Dict.get_raw sha256 d key = Ok None
  end.
Proof.
  intros [HM HF] Hk. unfold Dict.get_raw. destruct (typed_key key Hk) as (-> & W & B & S). cbn [rbind].
  pose proof (dict_get_correct ctx N Dv key_fits canon _ W S _ _ HM) as Hl. rewrite B, lookup_fmap in Hl.
  destruct (F !! key_bits key) as [v|] eqn:E; [|exact Hl]. split; [by apply (HF _ _ E)|]. exact Hl.
Qed.

Lemma get_spec d F key : typed_rep d F -> key_ok key -> Dict.get sha256 d key = Ok (F !! key_bits key).
Proof.
  intros Hd Hk. unfold Dict.get. pose proof (typed_get_raw_spec d F key Hd Hk) as Hg.
  destruct (F !! key_bits key) as [v|]; [|by rewrite Hg]. destruct Hg as (Hv & s & -> & Hs). cbn [rbind].
  by rewrite (load_value_spec v).
Qed.

Lemma contains_key_spec d F key : typed_rep d F -> key_ok key -> Dict.contains_key sha256 d key = Ok (is_some (F !! key_bits key)).
Proof.
  intros Hd Hk. unfold Dict.contains_key. pose proof (typed_get_raw_spec d F key Hd Hk) as Hg.
  destruct (F !! key_bits key) as [v|]; [|by rewrite Hg]. by destruct Hg as (_ & s & -> & _).
Qed.

(** ** Updates *)

Definition typed_update F (mode : SetMode) (k : list bool) v : bool * gmap (list bool) V :=
  match F !! k, mode with
  | Some _, SetAdd => (false, F)
  | None, SetReplace => (false, F)
  | _, _ => (true, <[k := v]> F)
  end.

Lemma typed_update_enc F mode k v : spec_insert (enc <$> F) mode k (enc v) = ((typed_update F mode k v).1, enc <$> (typed_update F mode k v).2).
Proof.
  unfold spec_insert, typed_update. rewrite lookup_fmap. destruct (F !! k), mode; simpl; by rewrite ?fmap_insert.
Qed.

Lemma typed_update_ok F mode key v : map_Forall entry_typed F -> key_ok key -> enc_ok v ->
  map_Forall entry_typed (typed_update F mode (key_bits key) v).2.
Proof. intros HF Hk Hv. unfold typed_update. destruct (F !! _), mode; simpl; try done; by apply typed_insert. Qed.

Lemma insert_impl_spec `{!PlainTail ftail} d F key v mode :
  typed_rep d F -> key_ok key -> enc_ok v ->
  exists d', Dict.insert_impl d key v mode ctx = (Ok (typed_update F mode (key_bits key) v).1, d') /\
    typed_rep d' (typed_update F mode (key_bits key) v).2.
Proof.
  intros [HM HF] Hk Hv. unfold Dict.insert_impl. destruct (typed_key key Hk) as (-> & W & B & S). cbn [rbind].
  destruct (dict_insert_correct ctx N Dv key_fits len_fits depth_pos depth_max canon _ W S (store_into v) (enc v)
    (codec_stores ctx v Hv) (value_fits (DictTypes := types) v Hv) _ _ mode HM) as (root & E & Hr).
  change (as_data_slice (of_bits (key_bits key))) with (key_slice (key_bits key)). rewrite E. cbn [changed].
  rewrite insert_map_spec, B, typed_update_enc in *. exists (mkDict root). split; [done|]. split; [exact Hr|]. by apply typed_update_ok.
Qed.

Lemma remove_raw_spec `{!PlainTail ftail} d F key :
  typed_rep d F -> key_ok key ->
  exists p d', Dict.remove_raw_ext d key ctx = (Ok p, d') /\ typed_rep d' (delete (key_bits key) F) /\
    owned_value (enc <$> F !! key_bits key) p.
Proof.
  intros [HM HF] Hk. unfold Dict.remove_raw_ext. destruct (typed_key key Hk) as (-> & W & B & S). cbn [rbind].
  destruct (dict_remove_owned_correct ctx N Dv key_fits len_fits depth_pos depth_max canon _ W S _ _ HM)
    as (p & root & E & Hr & Hp).
  change (as_data_slice (of_bits (key_bits key))) with (key_slice (key_bits key)). rewrite E. cbn [changed].
  exists p, (mkDict root). rewrite B in *. rewrite lookup_fmap in Hp. rewrite <- fmap_delete in Hr.
  split; [done|]. split; [|done]. split; [done|]. by apply typed_delete.
Qed.

Lemma remove_spec `{!PlainTail ftail} d F key :
  typed_rep d F -> key_ok key ->
  exists d', Dict.remove sha256 d key = (Ok (F !! key_bits key), d') /\ typed_rep d' (delete (key_bits key) F).
Proof.
  intros Hd Hk. destruct (remove_raw_spec d F key Hd Hk) as (p & d' & E & Hd' & Hp). exists d'. split; [|done].
  unfold Dict.remove. rewrite E. destruct Hd as [_ HF]. destruct (F !! key_bits key) as [v|] eqn:Ev, p as [[rg c]|]; try done.
  cbn [rbind]. cbn [fmap option_fmap option_map owned_value] in Hp. rewrite (apply_value _ _ _ Hp). cbn [rbind].
  rewrite (load_value_spec v); [done | by apply (HF _ _ Ev) | done].
Qed.

(** The empty dictionary *)
Lemma new_spec : typed_rep (Dict.new) ∅.
Proof. split; [by rewrite fmap_empty | apply map_Forall_empty]. Qed.

(** [is_empty] *)
Lemma is_empty_spec d F : typed_rep d F -> Dict.is_empty d = bool_decide (F = ∅).
Proof.
  intros [HM _]. unfold Dict.is_empty. destruct (dict_root d) as [c|]; cbn [dict_rep is_some negb] in *.
  - destruct HM as (t & Hr & HM). rewrite bool_decide_false; [done|]. intros ->.
    destruct (trie_inhabited _ _ (rep_trie_ok _ _ _ _ _ _ _ Hr)) as (k & p & E). by rewrite <- HM, fmap_empty, lookup_empty in E.
  - by rewrite bool_decide_true by (by eapply fmap_empty_inv).
Qed.
End Typed.

(** * Typed dictionaries in key order

    The searches and the iterators of [src/src/dict/typed.rs] on a typed map: the first
    entry, the nearest entry to a key, and the entries and keys in order. *)

Section Order.
Context {ftail : ForkTail} {mach : Machine} (sha256 : list Z -> HashBytes).
Abbreviation ctx := (empty_context sha256).
Context {K V : Type} `{KeyLaws K} `{Codec V} (Dv : Z) {types : DictTypes ctx Dv K V} (canon : bool).
Abbreviation N := (KEY_BITS K).
Abbreviation typed_rep := (typed_rep sha256 Dv canon).
Implicit Types (d : Dict K V) (F : gmap (list bool) V) (key : K) (v : V).

(** The first entry in the given order, and the first one after a key *)
Definition typed_first (rev signed : bool) F (o : option (K * V)) : Prop :=
  match o with
  | Some (key, v) => key_ok key /\ F !! key_bits key = Some v /\
      forall k' v', F !! k' = Some v' -> k' = key_bits key \/ key_before rev signed (key_bits key) k'
  | None => F = ∅
  end.

Definition typed_nearest (rev signed inclusive : bool) F (k : list bool) (o : option (K * V)) : Prop :=
  match o with
  | Some (key, v) => key_ok key /\ F !! key_bits key = Some v /\ after rev signed inclusive k (key_bits key) /\
      forall k' v', F !! k' = Some v' -> after rev signed inclusive k k' -> k' = key_bits key \/ key_before rev signed (key_bits key) k'
  | None => forall k' v', F !! k' = Some v' -> ~ after rev signed inclusive k k'
  end.

Lemma get_bound_raw_spec d F bound signed :
  typed_rep d F ->
  exists o p, Dict.get_bound_raw sha256 d bound signed = Ok p /\ typed_first (bound_rev bound) signed F o /\
    match o, p with
    | Some (key, v), Some (key', s) => key' = key /\ enc_ok v /\ value_slice (enc v) s
    | None, None => True
    | _, _ => False
    end.
Proof.
  intros [HM HF]. unfold Dict.get_bound_raw.
  destruct (dict_find_bounds_correct ctx N Dv key_fits canon _ _ bound signed HM) as (o & p & _ & Ho & -> & Hp & _). cbn [rbind].
  destruct o as [[k w]|], p as [[kb s]|]; try done.
  - destruct Hp as [-> Hs]. destruct Ho as [Hk Hmin]. destruct (typed_lookup F k w HF Hk) as (key & v & -> & -> & Hok & Hv & E).
    rewrite load_key_spec by done. cbn [rbind]. exists (Some (key, v)), (Some (key, s)). split; [done|]. split; [|done].
    split; [done|]. split; [done|]. intros k' v' E'. apply (Hmin k' (enc v')). by rewrite lookup_fmap, E'.
  - exists None, None. split; [done|]. split; [|done]. by eapply fmap_empty_inv.
Qed.

Lemma get_bound_spec d F bound signed :
  typed_rep d F -> exists o, Dict.get_bound sha256 d bound signed = Ok o /\ typed_first (bound_rev bound) signed F o.
Proof.
  intros Hd. unfold Dict.get_bound. destruct (get_bound_raw_spec d F bound signed Hd) as (o & p & -> & Ho & Hp). cbn [rbind].
  exists o. split; [|done]. destruct o as [[key v]|], p as [[key' s]|]; try done. destruct Hp as (-> & Hv & Hs).
  by rewrite (load_value_spec v).
Qed.

Lemma remove_bound_raw_spec `{!PlainTail ftail} d F bound signed :
  typed_rep d F ->
  exists o p d', Dict.remove_bound_raw_ext d bound signed ctx = (Ok p, d') /\ typed_first (bound_rev bound) signed F o /\
    typed_rep d' (match o with Some (key, _) => delete (key_bits key) F | None => F end) /\
    match o, p with
    | Some (key, v), Some (key', (rg, c)) => key' = key /\ value_slice (enc v) (apply_allow_exotic rg c)
    | None, None => True
    | _, _ => False
    end.
Proof.
  intros [HM HF]. unfold Dict.remove_bound_raw_ext.
  destruct (dict_remove_bound_correct ctx N Dv key_fits canon (key_len_fits (DictTypes := types)) (depth_nonneg (DictTypes := types))
    (depth_fits (DictTypes := types)) _ _ bound signed HM) as (o & q & root & Ho & E & Hq & Hr). rewrite E. cbn [changed rbind].
  destruct o as [[k w]|], q as [[kb [rg c]]|]; try done; cbn [rbind].
  - destruct Hq as [-> Hs]. destruct Ho as [Hk Hmin]. destruct (typed_lookup F k w HF Hk) as (key & v & -> & -> & Hok & Hv & E').
    rewrite load_key_spec by done. cbn [rbind]. exists (Some (key, v)), (Some (key, (rg, c))), (mkDict root).
    split; [done|]. split; [split; [done|]; split; [done|]|].
    { intros k' v' Ek. apply (Hmin k' (enc v')). by rewrite lookup_fmap, Ek. }
    split; [|done]. cbn [delete_entry] in Hr. rewrite <- fmap_delete in Hr. split; [done|]. by apply typed_delete.
  - exists None, None, (mkDict root). split; [done|]. split; [by eapply fmap_empty_inv|]. by split.
Qed.

Lemma find_ext_spec d F key towards inclusive signed :
  typed_rep d F -> key_ok key ->
  exists o, Dict.find_ext sha256 d key towards inclusive signed = Ok o /\
    typed_nearest (negb (bound_rev towards)) signed inclusive F (key_bits key) o.
Proof.
  intros [HM HF] Hk. unfold Dict.find_ext. destruct (typed_key key Hk) as (-> & W & B & S). cbn [rbind].
  change (as_data_slice (of_bits (key_bits key))) with (key_slice (key_bits key)).
  assert (exists p o, dict_find_owned ctx (dict_root d) N (key_slice (key_bits key)) towards inclusive signed = Ok p /\ owned_entry o p /\
    nearest (negb (bound_rev towards)) signed inclusive (enc <$> F) (key_bits key) o) as (p & o & -> & Hp & Ho).
  { destruct (dict_root d) as [c|]; cbn [dict_rep] in HM.
    - destruct HM as (t & Hr & HM). pose proof (dict_find_owned_correct ctx N Dv key_fits canon c t Hr (negb (bound_rev towards)) signed (key_slice (key_bits key)) towards inclusive) as Hn. rewrite B in Hn. by apply Hn.
    - rewrite HM. exists None, None. unfold dict_find_owned. rewrite S, Z.eqb_refl. done. }
  cbn [rbind]. destruct o as [[k w]|], p as [[kb [rg c]]|]; try done.
  - destruct Hp as [-> Hs]. destruct Ho as (Hl & Ha & Hmin). destruct (typed_lookup F k w HF Hl) as (key' & v & -> & -> & Hok & Hv & E).
    rewrite (apply_value _ _ _ Hs). cbn [rbind]. rewrite load_key_spec by done. cbn [rbind]. rewrite (load_value_spec v) by done. cbn [rbind].
    exists (Some (key', v)). split; [done|]. split; [done|]. split; [done|]. split; [done|].
    intros k' v' E' Ha'. apply (Hmin k' (enc v')); [by rewrite lookup_fmap, E' | done].
  - exists None. split; [done|]. intros k' v' E. apply (Ho k' (enc v')). by rewrite lookup_fmap, E.
Qed.

(** ** The iterators *)

(** The entries of a typed map, sorted *)
Definition typed_entries (rev signed : bool) F (l : list (K * V)) : Prop :=
  Forall (fun e => key_ok e.1) l /\ StronglySorted (fun a b => key_before rev signed (key_bits a.1) (key_bits b.1)) l /\
  ((fun e => (key_bits e.1, e.2)) <$> l) ≡ₚ map_to_list F.

(** An entry and what the dictionary holds for it *)
Definition encodes (e : K * V) (x : entry) : Prop := key_ok e.1 /\ enc_ok e.2 /\ x = (key_bits e.1, enc e.2).

Context (rev signed : bool).

Definition directed_iter d : Iter K V := mkIter (raw_iter_new_ext (dict_root d) N rev signed).
Definition directed_keys d : Keys K := mkKeys (raw_iter_new_ext (dict_root d) N rev signed).

Section State.
Context (c0 : Cell).
Definition typed_state (it : RawIter) (L : list (K * V)) : Prop :=
  exists l, iter_state ctx N Dv canon rev signed c0 it l /\ Forall2 encodes L l.

Lemma typed_next it L : typed_state it L ->
  match L with
  | [] => (raw_iter_next it).1 = None /\ typed_state (raw_iter_next it).2 []
  | e :: L' => exists s it', raw_iter_next it = (Some (Ok (of_bits (key_bits e.1), s)), it') /\ load_key (of_bits (key_bits e.1)) = Ok e.1 /\
      load_value s = Ok e.2 /\ typed_state it' L'
  end.
Proof.
  intros (l & Hst & HL). pose proof (raw_iter_next_spec ctx N Dv key_fits canon rev signed c0 it l Hst) as Hn.
  destruct HL as [|e x L l (Hk & Hv & ->) HL].
  - destruct Hn as [Hn Hst']. split; [done|]. by exists [].
  - destruct Hn as (s & it' & -> & Hs & Hst' & _). exists s, it'. split; [done|]. split; [by apply load_key_spec|].
    split; [by apply load_value_spec|]. by exists l.
Qed.

Lemma iter_next_ok : next_ok Iter.next (fun it => typed_state (it_inner it)) (fun (e : K * V) r => r = Ok e).
Proof.
  intros it L Hst. pose proof (typed_next _ _ Hst) as Hn. unfold Iter.next. destruct L as [|e L].
  - destruct (raw_iter_next (it_inner it)) as [o it']. destruct Hn as [Ho ?]. simpl in Ho. by subst o.
  - destruct Hn as (s & it' & -> & -> & Hv & ?). cbn [rbind]. rewrite Hv. cbn [rbind]. exists (Ok e), (mkIter it'). by destruct e.
Qed.

Lemma keys_next_ok : next_ok Keys.next (fun it => typed_state (ks_inner it)) (fun (e : K * V) r => r = Ok e.1).
Proof.
  intros it L Hst. pose proof (typed_next _ _ Hst) as Hn. unfold Keys.next. destruct L as [|e L].
  - destruct (raw_iter_next (ks_inner it)) as [o it']. destruct Hn as [Ho ?]. simpl in Ho. by subst o.
  - destruct Hn as (s & it' & -> & Hk & _ & ?). unfold load_key in Hk. destruct (load_from_data _) as [k|]; [|done].
    injection Hk as ->. by exists (Ok e.1), (mkKeys it').
Qed.
End State.

(** The typed entries of a sorted list of entries of the payload map *)
Lemma typed_list F l : map_Forall entry_typed F -> sorted_entries rev signed (enc <$> F) l ->
  exists L, Forall2 encodes L l /\ typed_entries rev signed F L.
Proof.
  intros HF [HS HP].
  assert (exists L, Forall2 (fun (e : K * V) x => encodes e x /\ F !! key_bits e.1 = Some e.2) L l) as [L HL].
  { assert (Forall (fun x : entry => exists e : K * V, encodes e x /\ F !! key_bits e.1 = Some e.2) l) as He.
    { apply list.Forall_forall. intros [k p] Hx. rewrite HP in Hx. apply elem_of_map_to_list in Hx.
      destruct (typed_lookup F k p HF Hx) as (key & v & -> & -> & Hk & Hv & E). by exists (key, v). }
    clear HS HP. induction He as [|x l (e & Hx) _ [L HL]]; [by exists []|]. exists (e :: L). by constructor. }
  exists L. split; [eapply Forall2_impl; [|exact HL]; by intros ? ? []|].
  assert ((fun e : K * V => (key_bits e.1, enc e.2)) <$> L = l) as El.
  { clear - HL. induction HL as [|e x L l [(_ & _ & ->) _] HL IH]; [done|]. csimpl. by rewrite IH. }
  assert (Forall (fun e : K * V => key_ok e.1 /\ F !! key_bits e.1 = Some e.2) L) as HLF.
  { clear - HL. induction HL as [|e x L l [(Hk & _) ?] HL IH]; by constructor. }
  split; [eapply list.Forall_impl; [exact HLF | by intros ? []]|]. split.
  - rewrite <- El in HS. clear - HS. induction L as [|e L IH]; [constructor|]. csimpl in HS. inversion HS as [|? ? HS' Hfirst]; subst.
    constructor; [by apply IH|]. rewrite list.Forall_fmap in Hfirst. exact Hfirst.
  - apply NoDup_Permutation; [| apply NoDup_map_to_list |].
    + apply (NoDup_fmap_1 fst). assert (NoDup l.*1) as Hnd by (rewrite HP; apply NoDup_fst_map_to_list).
      rewrite <- El, <- list_fmap_compose in Hnd. by rewrite <- list_fmap_compose.
    + intros [k v]. rewrite elem_of_map_to_list, list_elem_of_fmap. split.
      * intros (e & [= -> ->] & Hin). rewrite list.Forall_forall in HLF. by apply HLF.
      * intros E. assert ((k, enc v) ∈ l) as Hin by (rewrite HP; apply elem_of_map_to_list; by rewrite lookup_fmap, E).
        rewrite <- El in Hin. apply list_elem_of_fmap in Hin as (e & [= -> _] & Hin). exists e. split; [|done].
        rewrite list.Forall_forall in HLF. destruct (HLF e Hin) as [_ Ee]. rewrite Ee in E. by injection E as ->.
Qed.

Lemma typed_list_length F L : typed_entries rev signed F L -> length L = size F.
Proof. intros (_ & _ & HP). apply Permutation_length in HP. rewrite length_fmap in HP. by rewrite HP, <- length_map_to_list. Qed.

(** A fresh iterator has the sorted entries of the map left. *)
Lemma typed_start d F : typed_rep d F ->
  exists c0 L, typed_entries rev signed F L /\ typed_state c0 (raw_iter_new_ext (dict_root d) N rev signed) L.
Proof.
  intros [HM HF]. destruct (dict_root d) as [c|]; cbn [dict_rep] in HM.
  - destruct HM as (t & Hr & HM). destruct (typed_list F (entries rev signed t) HF) as (L & HL & Hent).
    { eapply entries_of_map; [by eapply rep_trie_ok | done]. }
    exists c, L. split; [done|]. exists (entries rev signed t). split; [by apply iter_start | done].
  - apply fmap_empty_inv in HM as ->. exists EmptyOrdinaryCell, []. split.
    { split; [constructor|]. split; [constructor|]. by rewrite map_to_list_empty. }
    exists []. split; [|constructor]. split_and!; [done..|]. left. exists []. by split; [constructor|].
Qed.

Lemma forall2_map {A B} (f : A -> B) L (items : list B) : Forall2 (fun e r => r = f e) L items -> items = f <$> L.
Proof. induction 1 as [|e r L items -> _ ->]; done. Qed.

Lemma typed_iter_spec d F fuel :
  typed_rep d F -> (size F < fuel)%nat ->
  exists L, typed_entries rev signed F L /\
    (exists it', collect_iter Iter.next fuel (directed_iter d) = (Ok <$> L, it') /\ (Iter.next it').1 = None) /\
    (exists it', collect_iter Keys.next fuel (directed_keys d) = (Ok <$> L.*1, it') /\ (Keys.next it').1 = None).
Proof.
  intros Hd Hf. destruct (typed_start d F Hd) as (c0 & L & HL & Hst). exists L. split; [done|].
  pose proof (typed_list_length _ _ HL) as Hlen. split.
  - destruct (collect_spec _ _ _ (directed_iter d) L fuel (iter_next_ok c0) Hst ltac:(lia)) as (items & it' & E & Hi & Hn).
    rewrite (forall2_map _ _ _ Hi) in E. by exists it'.
  - destruct (collect_spec _ _ _ (directed_keys d) L fuel (keys_next_ok c0) Hst ltac:(lia)) as (items & it' & E & Hi & Hn).
    apply (forall2_map (fun e : K * V => Ok e.1)) in Hi. exists it'. rewrite E, Hi. split; [|done]. f_equal. by rewrite <- list_fmap_compose.
Qed.
End Order.

(** * Whole typed dictionaries at once

    [Dict::try_from_sorted_slice], [modify_with_sorted_iter], [split_by_prefix_ext] and
    [merge_with_right_sibling_ext] of [src/src/dict/typed.rs] as operations on typed maps. *)

Section Bulk.
Context {mach : Machine} (sha256 : list Z -> HashBytes).
Abbreviation ctx := (empty_context sha256).
Context {K V : Type} `{HKo : OrderedKey K} `{Codec V} (Dv : Z) {types : DictTypes ctx Dv K V} (canon : bool).
Abbreviation N := (KEY_BITS K).
Abbreviation typed_rep := (typed_rep sha256 Dv canon).
Abbreviation len_fits := (key_len_fits (DictTypes := types)).
Abbreviation depth_pos := (depth_nonneg (DictTypes := types)).
Abbreviation depth_max := (depth_fits (DictTypes := types)).
Implicit Types (d : Dict K V) (F : gmap (list bool) V).

(** ** Building from sorted entries *)

Definition put_first F (e : K * V) : gmap (list bool) V :=
  match F !! key_bits e.1 with Some _ => F | None => <[key_bits e.1 := e.2]> F end.
(** The entries as a map, the first of equal keys winning *)
Definition typed_first_wins (entries : list (K * V)) : gmap (list bool) V := foldl put_first ∅ entries.
Definition typed_entry_ok (e : K * V) : Prop := key_ok e.1 /\ enc_ok e.2.

Lemma put_first_enc F e : add_entry enc (enc <$> F) e = enc <$> put_first F e.
Proof. unfold add_entry, insert_first, put_first. rewrite lookup_fmap. destruct (F !! _); simpl; by rewrite ?fmap_insert. Qed.

Lemma foldl_put_first entries F : foldl (add_entry enc) (enc <$> F) entries = enc <$> foldl put_first F entries.
Proof. revert F. induction entries as [|e entries IH]; intros F; [done|]. simpl. by rewrite put_first_enc, IH. Qed.

Lemma put_first_typed entries F : Forall typed_entry_ok entries -> map_Forall entry_typed F -> map_Forall entry_typed (foldl put_first F entries).
Proof.
  intros HE. revert F. induction HE as [|e entries [Hk Hv] _ IH]; intros F HF; [done|]. simpl. apply IH. unfold put_first.
  destruct (F !! _); [done|]. by apply typed_insert.
Qed.

Lemma typed_entry_fits entries : Forall typed_entry_ok entries -> Forall (entry_ok ctx enc Dv) entries.
Proof.
  intros HE. eapply list.Forall_impl; [exact HE|]. intros e [Hk Hv]. split; [done|]. split; [by apply codec_stores|].
  by apply (value_fits (DictTypes := types)).
Qed.

Lemma try_from_sorted_slice_spec entries :
  Forall typed_entry_ok entries ->
  if sorted_from None entries
  then exists d, Dict.try_from_sorted_slice sha256 entries = Ok d /\ typed_rep d (typed_first_wins entries)
  else Dict.try_from_sorted_slice sha256 entries = Err InvalidData.
Proof.
  intros HE. unfold Dict.try_from_sorted_slice.
  pose proof (build_dict_correct ctx enc Dv len_fits depth_pos depth_max canon entries (typed_entry_fits _ HE)) as Hb.
  destruct (sorted_from None entries); [|by rewrite Hb]. destruct Hb as (root & -> & Hr). cbn [rbind]. exists (mkDict root). split; [done|].
  split; [|by apply put_first_typed; [|apply map_Forall_empty]].
  unfold first_wins in Hr. change (@empty (gmap (list bool) payload) _) with (∅ : gmap (list bool) payload) in Hr.
  rewrite <- (fmap_empty (enc : V -> payload)), foldl_put_first in Hr. exact Hr.
Qed.

(** ** A sorted list of changes *)

Definition typed_change F (e : K * option V) : gmap (list bool) V :=
  match e.2 with Some v => <[key_bits e.1 := v]> F | None => delete (key_bits e.1) F end.
Definition typed_change_ok (e : K * option V) : Prop := key_ok e.1 /\ match e.2 with Some v => enc_ok v | None => True end.

Lemma foldl_typed_change entries F : foldl (change_entry enc fst snd) (enc <$> F) entries = enc <$> foldl typed_change F entries.
Proof.
  revert F. induction entries as [|[k o] entries IH]; intros F; [done|]. simpl. rewrite <- IH. f_equal. unfold change_entry, typed_change. simpl.
  destruct o; simpl; by rewrite ?fmap_insert, ?fmap_delete.
Qed.

Lemma typed_changes_typed entries F :
  Forall typed_change_ok entries -> map_Forall entry_typed F -> map_Forall entry_typed (foldl typed_change F entries).
Proof.
  intros HE. revert F. induction HE as [|[k o] entries [Hk Hv] _ IH]; intros F HF; [done|]. simpl. apply IH. unfold typed_change. simpl in *.
  destruct o; [by apply typed_insert | by apply typed_delete].
Qed.

Lemma modify_with_sorted_iter_spec addr_eq d F entries :
  (forall a b, addr_eq a b = true <-> a = b) -> typed_rep d F -> Forall typed_change_ok entries -> increasing fst None entries = true ->
  exists b d', Dict.modify_with_sorted_iter sha256 addr_eq d entries = (Ok b, d') /\ typed_rep d' (foldl typed_change F entries).
Proof.
  intros Haddr [HM HF] HE Hi. unfold Dict.modify_with_sorted_iter, Dict.modify_with_sorted_iter_ext.
  destruct (modify_increasing ctx enc Dv len_fits depth_pos depth_max canon addr_eq Haddr fst (fun e => Ok e.2) snd (dict_root d) (enc <$> F) entries HM)
    as (b & root & -> & Hr); [|done|].
  { eapply list.Forall_impl; [exact HE|]. intros [k o] [Hk Hv]. split; [done|]. split; [done|]. destruct o as [v|]; [|done].
    split; [by apply codec_stores | by apply (value_fits (DictTypes := types))]. }
  exists b, (mkDict root). split; [done|]. split; [|by apply typed_changes_typed]. by rewrite foldl_typed_change in Hr.
Qed.

(** ** Splits and merges *)

Definition typed_half (P : list bool) F : gmap (list bool) V := filter (fun kv => P `prefix_of` kv.1) F.

Lemma typed_half_enc P F : half P (enc <$> F) = enc <$> typed_half P F.
Proof. unfold half, typed_half. by rewrite map_filter_fmap. Qed.

Lemma typed_half_typed P F : map_Forall entry_typed F -> map_Forall entry_typed (typed_half P F).
Proof. intros HF k v [E _]%map_lookup_filter_Some. by apply HF. Qed.

Lemma split_by_prefix_spec d F key_prefix :
  1 <= N -> typed_rep d F -> slice_wf key_prefix -> zlen (slice_references_cloned key_prefix) <= MAX_REF_COUNT ->
  let P := slice_bits key_prefix in
  zlen P < N -> map_Forall (fun k _ => P `prefix_of` k) F ->
  exists lft rgt, Dict.split_by_prefix_ext d key_prefix ctx = Ok (lft, rgt) /\
    typed_rep lft (typed_half (P ++ [false]) F) /\ typed_rep rgt (typed_half (P ++ [true]) F).
Proof.
  intros HN1 [HM HF] Wk Hrefs P HP Hall. unfold Dict.split_by_prefix_ext.
  pose proof (split_by_prefix_correct ctx N Dv key_fits len_fits depth_pos depth_max canon _ _ key_prefix P HM HN1 Wk eq_refl Hrefs) as Hs.
  rewrite (bool_decide_true (map_Forall _ _)), (proj2 (Z.ltb_lt _ _) HP), orb_true_r in Hs
    by (intros k p (v & _ & E)%lookup_fmap_Some; by apply (Hall k v)).
  destruct Hs as (l & r & -> & Hl & Hr). cbn [rbind]. exists (mkDict l), (mkDict r). split; [done|]. rewrite typed_half_enc in Hl, Hr.
  split; (split; [done|]); by apply typed_half_typed.
Qed.

Lemma typed_siblings F1 F2 P :
  map_Forall (fun k _ => P ++ [false] `prefix_of` k) F1 -> map_Forall (fun k _ => P ++ [true] `prefix_of` k) F2 ->
  siblings (enc <$> F1) (enc <$> F2).
Proof. intros Hl Hr. exists P. split; intros k p (v & _ & E)%lookup_fmap_Some; by eauto. Qed.

Lemma merge_with_right_sibling_spec d1 d2 F1 F2 P :
  1 <= N -> typed_rep d1 F1 -> typed_rep d2 F2 ->
  map_Forall (fun k _ => P ++ [false] `prefix_of` k) F1 -> map_Forall (fun k _ => P ++ [true] `prefix_of` k) F2 ->
  exists d, Dict.merge_with_right_sibling sha256 d1 d2 = Ok d /\ typed_rep d (F1 ∪ F2).
Proof.
  intros HN1 [HM1 HF1] [HM2 HF2] Hl Hr. unfold Dict.merge_with_right_sibling, Dict.merge_with_right_sibling_ext.
  destruct (merge_siblings_correct ctx N Dv key_fits len_fits depth_pos depth_max canon _ _ _ _ HM1 HM2 HN1) as [Hm _].
  destruct Hm as (root & -> & Hroot); [right; right; by eapply typed_siblings|]. cbn [rbind]. exists (mkDict root). split; [done|].
  rewrite <- map_fmap_union in Hroot. split; [done|]. by apply map_Forall_union_2.
Qed.
End Bulk.
