(* ===== verification/DictTypedTheorems.v ===== *)
(** * DictTypedTheorems: typed dictionaries implement typed finite maps

    The claims about [src/src/dict/typed.rs]: calls on keys and values of any types that
    keep the laws of their traits answer as a finite map does. *)

From stdpp Require Import gmap sorting.
From S2P Require Import Prelude Bits DataBuilder DataBuilderSpec CellMeta Cell Slice SliceSpec SliceScan SliceScanSpec Builder BuilderSpec Context DictLabel DictLabelSpec Dict DictSpec DictTheorems DictKeys DictBuild DictModify DictBuildSpec DictModifyCorrect DictFind DictIter DictOrder DictFindSpec DictIterSpec DictIterTheorems DictBulkTheorems DictTyped DictTypedSpec.

(** ** Sequences of calls *)

Section Run.
Context {mach : Machine} (sha256 : list Z -> HashBytes).
Abbreviation ctx := (empty_context sha256).
Context {K V : Type} `{KeyLaws K} `{Codec V}.

Inductive typed_op : Type :=
| TGet (key : K)
| TContains (key : K)
| TIsEmpty
| TSet (key : K) (value : V)
| TReplace (key : K) (value : V)
| TAdd (key : K) (value : V)
| TRemove (key : K).

Inductive typed_reply : Type :=
| TValue (o : option V)
| TBool (b : bool).

Definition run_typed_op (d : Dict K V) (op : typed_op) : result typed_reply * Dict K V :=
  match op with
  | TGet key => (let! o := Dict.get sha256 d key in Ok (TValue o), d)
  | TContains key => (let! b := Dict.contains_key sha256 d key in Ok (TBool b), d)
  | TIsEmpty => (Ok (TBool (Dict.is_empty d)), d)
  | TSet key value => let (r, d) := Dict.set sha256 d key value in (let! b := r in Ok (TBool b), d)
  | TReplace key value => let (r, d) := Dict.replace sha256 d key value in (let! b := r in Ok (TBool b), d)
  | TAdd key value => let (r, d) := Dict.add sha256 d key value in (let! b := r in Ok (TBool b), d)
  | TRemove key => let (r, d) := Dict.remove sha256 d key in (let! o := r in Ok (TValue o), d)
  end.

Fixpoint run_typed (d : Dict K V) (ops : list typed_op) : list (result typed_reply) * Dict K V :=
  match ops with
  | [] => ([], d)
  | op :: ops => let '(r, d) := run_typed_op d op in let '(rs, d) := run_typed d ops in (r :: rs, d)
  end.

(** The same calls on a finite map *)
Definition spec_typed_op (F : gmap (list bool) V) (op : typed_op) : typed_reply * gmap (list bool) V :=
  match op with
  | TGet key => (TValue (F !! key_bits key), F)
  | TContains key => (TBool (is_some (F !! key_bits key)), F)
  | TIsEmpty => (TBool (bool_decide (F = ∅)), F)
  | TSet key value => (TBool true, <[key_bits key := value]> F)
  | TReplace key value => match F !! key_bits key with Some _ => (TBool true, <[key_bits key := value]> F) | None => (TBool false, F) end
  | TAdd key value => match F !! key_bits key with None => (TBool true, <[key_bits key := value]> F) | Some _ => (TBool false, F) end
  | TRemove key => (TValue (F !! key_bits key), delete (key_bits key) F)
  end.

Fixpoint spec_typed (F : gmap (list bool) V) (ops : list typed_op) : list typed_reply * gmap (list bool) V :=
  match ops with
  | [] => ([], F)
  | op :: ops => let '(r, F) := spec_typed_op F op in let '(rs, F) := spec_typed F ops in (r :: rs, F)
  end.

(** Valid keys and values *)
Definition typed_op_ok (op : typed_op) : Prop :=
  match op with
  | TGet key | TContains key | TRemove key => key_ok key
  | TIsEmpty => True
  | TSet key value | TReplace key value | TAdd key value => key_ok key /\ enc_ok value
  end.

Context (Dv : Z) {types : DictTypes ctx Dv K V} (canon : bool).
Abbreviation typed_rep := (typed_rep sha256 Dv canon).

Lemma run_typed_op_spec d F op : typed_op_ok op -> typed_rep d F ->
  exists d', run_typed_op d op = (Ok (spec_typed_op F op).1, d') /\ typed_rep d' (spec_typed_op F op).2.
Proof.
  intros Hop Hd. destruct op as [key|key| |key v|key v|key v|key]; cbn [run_typed_op spec_typed_op typed_op_ok] in *.
  - rewrite (get_spec sha256 Dv canon d F) by done. by exists d.
  - rewrite (contains_key_spec sha256 Dv canon d F) by done. by exists d.
  - rewrite (is_empty_spec sha256 Dv canon d F) by done. by exists d.
  - destruct Hop as [Hk Hv]. destruct (insert_impl_spec sha256 Dv canon d F key v SetSet Hd Hk Hv) as (d' & E & Hd').
    unfold typed_update in *. unfold Dict.set, Dict.set_ext. rewrite E. exists d'. by destruct (F !! key_bits key).
  - destruct Hop as [Hk Hv]. destruct (insert_impl_spec sha256 Dv canon d F key v SetReplace Hd Hk Hv) as (d' & E & Hd').
    unfold typed_update in *. unfold Dict.replace, Dict.replace_ext. rewrite E. exists d'. by destruct (F !! key_bits key).
  - destruct Hop as [Hk Hv]. destruct (insert_impl_spec sha256 Dv canon d F key v SetAdd Hd Hk Hv) as (d' & E & Hd').
    unfold typed_update in *. unfold Dict.add, Dict.add_ext. rewrite E. exists d'. by destruct (F !! key_bits key).
  - destruct (remove_spec sha256 Dv canon d F key Hd Hop) as (d' & -> & Hd'). by exists d'.
Qed.

Lemma run_typed_spec ops d F : Forall typed_op_ok ops -> typed_rep d F ->
  exists d', run_typed d ops = (Ok <$> (spec_typed F ops).1, d') /\ typed_rep d' (spec_typed F ops).2.
Proof.
  intros HF. revert d F. induction HF as [|op ops Hop _ IH]; intros d F Hd; [by exists d|]. cbn [run_typed spec_typed].
  destruct (run_typed_op_spec d F op Hop Hd) as (d1 & -> & Hd1). destruct (spec_typed_op F op) as [r F1].
  destruct (IH d1 F1 Hd1) as (d2 & -> & Hd2). destruct (spec_typed F1 ops) as [rs F2]. by exists d2.
Qed.
End Run.
Arguments typed_op : clear implicits.
Arguments typed_reply : clear implicits.

(** ** The claims *)

(** [C3] Every sequence of calls on an empty typed dictionary, with valid keys and values,
    succeeds and answers as a finite map of the values by keys does. *)
Theorem typed_ops_refine_map {mach : Machine} sha256 {K V} `{KeyLaws K} `{Codec V} Dv {types : DictTypes (empty_context sha256) Dv K V}
    (ops : list (typed_op K V)) :
  Forall typed_op_ok ops ->
  exists d, run_typed sha256 Dict.new ops = (Ok <$> (spec_typed ∅ ops).1, d) /\ typed_rep sha256 Dv true d (spec_typed ∅ ops).2.
Proof. intros Hops. apply (run_typed_spec sha256 Dv true ops Dict.new ∅ Hops). apply new_spec. Qed.

(** [C5] On a typed dictionary the searches find the first entry and the entry nearest to a
    key, and iteration yields the entries and the keys in order, each once. *)
Theorem typed_dict_ordered {mach : Machine} sha256 {K V} `{KeyLaws K} `{Codec V} Dv {types : DictTypes (empty_context sha256) Dv K V}
    canon (d : Dict K V) F signed fuel :
  typed_rep sha256 Dv canon d F -> (size F < fuel)%nat ->
  (forall bound, exists o, Dict.get_bound sha256 d bound signed = Ok o /\ typed_first (bound_rev bound) signed F o) /\
  (forall key towards inclusive, key_ok key -> exists o, Dict.find_ext sha256 d key towards inclusive signed = Ok o /\
    typed_nearest (negb (bound_rev towards)) signed inclusive F (key_bits key) o) /\
  (forall reversed, exists L, typed_entries reversed signed F L /\
    (collect_iter Iter.next fuel (directed_iter reversed signed d)).1 = Ok <$> L /\
    (collect_iter Keys.next fuel (directed_keys reversed signed d)).1 = Ok <$> L.*1).
Proof.
  intros Hd Hf. split; [intros; by eapply get_bound_spec|]. split; [intros; by eapply find_ext_spec|].
  intros reversed. destruct (typed_iter_spec sha256 Dv canon reversed signed d F fuel Hd Hf) as (L & HL & (i1 & -> & _) & (i2 & -> & _)).
  by exists L.
Qed.

(** ** The claims at concrete inputs *)

#[local] Existing Instance sample_machine.
#[local] Instance u8_types : DictTypes sample_ctx 100 (uN 8) (uN 8).
Proof. split; [by vm_compute | done | done |]. intros v Hv. by apply u8_value_ok. Qed.

Definition u8_ops : list (typed_op (uN 8) (uN 8)) :=
  [TIsEmpty; TSet (mkU 8 5) (mkU 8 10); TAdd (mkU 8 5) (mkU 8 11); TReplace (mkU 8 7) (mkU 8 1); TSet (mkU 8 200) (mkU 8 3);
   TGet (mkU 8 5); TRemove (mkU 8 5); TContains (mkU 8 5)].

Lemma u8_ops_ok : Forall typed_op_ok u8_ops.
Proof. repeat apply list.Forall_cons_2; try apply list.Forall_nil_2; cbn [typed_op_ok]; try split; cbn; lia || done. Qed.

Lemma typed_ops_refine_map_witness :
  exists d, run_typed sample_sha Dict.new u8_ops =
    ([Ok (TBool true); Ok (TBool true); Ok (TBool false); Ok (TBool false); Ok (TBool true); Ok (TValue (Some (mkU 8 10)));
      Ok (TValue (Some (mkU 8 10))); Ok (TBool false)], d) /\ typed_rep sample_sha 100 true d (spec_typed ∅ u8_ops).2.
Proof. exact (typed_ops_refine_map sample_sha 100 u8_ops u8_ops_ok). Defined.

Definition u8_dict : DictTyped.Dict (uN 8) (uN 8) := (run_typed sample_sha Dict.new u8_ops).2.

Lemma u8_dict_rep canon : typed_rep sample_sha 100 canon u8_dict (spec_typed ∅ u8_ops).2.
Proof.
  destruct (run_typed_spec sample_sha 100 canon u8_ops Dict.new ∅ u8_ops_ok) as (d & E & Hd); [apply new_spec|]. unfold u8_dict. by rewrite E.
Qed.

Lemma typed_dict_ordered_witness :
  (exists o, Dict.get_bound sample_sha u8_dict Max false = Ok o /\ typed_first true false (spec_typed ∅ u8_ops).2 o) /\
  (exists o, Dict.find_ext sample_sha u8_dict (mkU 8 9) Min false true = Ok o /\
    typed_nearest true true false (spec_typed ∅ u8_ops).2 (key_bits (mkU 8 9)) o).
Proof.
  assert ((size (spec_typed ∅ u8_ops).2 < 3)%nat) as Hf by (apply Nat.ltb_lt; by vm_compute).
  destruct (typed_dict_ordered sample_sha 100 true u8_dict (spec_typed ∅ u8_ops).2 false 3 (u8_dict_rep true) Hf) as (H1 & _ & _).
  destruct (typed_dict_ordered sample_sha 100 true u8_dict (spec_typed ∅ u8_ops).2 true 3 (u8_dict_rep true) Hf) as (_ & H2 & _).
  split; [apply (H1 Max) | apply (H2 (mkU 8 9) Min false); cbn; lia].
Defined.
