(* ===== verification/Aug.v ===== *)
(** * Aug: augmented dictionaries

    A dictionary of [src/src/dict/aug.rs] has an extra value in every leaf, behind the
    label, and in every fork, behind the two children, where it is the combination of the
    extras of the children.  Here are the shared parts ([src/src/dict/mod.rs]), the
    insertion, the removal and the search by extra ([ops/insert.rs], [ops/remove.rs],
    [ops/find.rs]), the wrapper [AugDict] with the extra of the root beside it, and one
    of the extra types of the models ([KeyMaxLt] of [models/shard/shard_extra.rs]).

    A comparator gets its two slices as values: what it leaves of them is not used. *)

From S2P Require Import Prelude Bits DataBuilder CellMeta Cell Slice SliceScan Builder Context DictLabel Dict DictKeys DictBuild DictModify DictFind DictIter DictSplit DictTyped.

(** ** [SearchByExtra] *)

(** The search flow has a state; [ControlFlow::Break] is [None]. *)
Class SearchByExtra (A S : Type) := {
  on_leaf : S -> A -> bool * S;
  on_edge : S -> A -> A -> option Branch * S;
}.

(** Always to the same side *)
#[global] Instance Search_branch A : SearchByExtra A Branch := {|
  on_leaf s _ := (true, s);
  on_edge s _ _ := (Some s, s);
|}.

(** [std::cmp::Ordering]: to the left when the extras compare that way *)
#[global] Instance Search_ordering A `{KeyOrd A} : SearchByExtra A comparison := {|
  on_leaf s _ := (true, s);
  on_edge s left_extra right_extra :=
    (Some (if bool_decide (s = key_cmp left_extra right_extra) then Left else Right), s);
|}.

(** ** [src/src/dict/mod.rs] *)

Section Aug.
Context `{Machine} (ctx : CellContext).

Definition make_leaf_with_extra (key : CellSlice) (key_bit_len : Z) (extra value : DynStore) : result Cell :=
  let! builder := write_label key key_bit_len builder_new in
  let! builder := extra ctx builder in
  let! builder := value ctx builder in
  build_ext ctx builder.

Definition skip_label_full (slice : CellSlice) (key_bit_len : Z) : result CellSlice :=
  let! (label, slice) := read_label slice key_bit_len in
  if size_bits label <? key_bit_len then skip_first slice 0 2 else Ok slice.

Definition split_aug_edge (data prefix lcp key : CellSlice) (extra value : DynStore) (comparator : AugDictFn) : result Cell :=
  let prev_key_bit_len := size_bits key in
  let! key := skip_first key (u16 (size_bits lcp + 1)) 0 in
  let prefix := or_same (skip_first prefix (size_bits lcp) 0) prefix in
  let! (old_to_right, prefix) := load_bit prefix in
  let! lft := make_leaf ctx prefix (size_bits key) (store_into data) in
  let! rgt := make_leaf_with_extra key (size_bits key) extra value in
  let '(lft, rgt) := if old_to_right : bool then (rgt, lft) else (lft, rgt) in
  let! left_slice := slice_new lft in
  let! right_slice := slice_new rgt in
  let! left_slice := skip_label_full left_slice (size_bits key) in
  let! right_slice := skip_label_full right_slice (size_bits key) in
  let! builder := write_label lcp prev_key_bit_len builder_new in
  let! builder := store_reference builder lft in
  let! builder := store_reference builder rgt in
  let! builder := comparator left_slice right_slice builder ctx in
  build_ext ctx builder.

Section Rebuild.
Context (comparator : AugDictFn).

(** One step of [rebuild_aug_dict_from_stack]: the parent of [leaf], with a new extra. *)
Definition rebuild_aug_segment (last : Segment) (leaf : Cell) : result Cell :=
  let! (lft, rgt) :=
    match sg_next_branch last with
    | Left => let! c := some_or_underflow (reference_cloned (sg_data last) 1) in Ok (leaf, c)
    | Right => let! c := some_or_underflow (reference_cloned (sg_data last) 0) in Ok (c, leaf)
    end in
  let! last_data_slice := slice_new (sg_data last) in
  let! (last_label, _) := read_label last_data_slice (sg_key_bit_len last) in
  let child_key_bit_len := u16 (u16 (sg_key_bit_len last - size_bits last_label) - 1) in
  let! left_slice := slice_new lft in
  let! right_slice := slice_new rgt in
  let! left_slice := skip_label_full left_slice child_key_bit_len in
  let! right_slice := skip_label_full right_slice child_key_bit_len in
  let! builder := write_label last_label (sg_key_bit_len last) builder_new in
  let! builder := store_reference builder lft in
  let! builder := store_reference builder rgt in
  let! builder := comparator left_slice right_slice builder ctx in
  build_ext ctx builder.

Fixpoint rebuild_aug_dict_from_stack (segments : list Segment) (leaf : Cell) : result Cell :=
  match segments with
  | [] => Ok leaf
  | last :: segments =>
      let! leaf := rebuild_aug_segment last leaf in
      rebuild_aug_dict_from_stack segments leaf
  end.
End Rebuild.

(** ** [ops/insert.rs] *)

(** [aug_dict_insert]; its descent is the loop of [dict_insert]. *)
Definition aug_dict_insert (dict : option Cell) (key : CellSlice) (key_bit_len : Z)
    (extra value : DynStore) (mode : SetMode) (comparator : AugDictFn) : result (bool * option Cell) :=
  if negb (size_bits key =? key_bit_len) then Err CellUnderflow else
  match dict with
  | None =>
      if SetModes.can_add mode then
        let! c := make_leaf_with_extra key key_bit_len extra value in Ok (true, Some c)
      else Ok (false, None)
  | Some root =>
      let! data := load_dyn_cell root Full in
      let! (f, stack) := insert_loop ctx (S (Z.to_nat key_bit_len)) data key [] in
      match f with
      | FoundLeaf _ prefix key =>
          if negb (SetModes.can_replace mode) then Ok (false, dict) else
          let! leaf := make_leaf_with_extra prefix (size_bits key) extra value in
          let! root := rebuild_aug_dict_from_stack comparator stack leaf in
          Ok (true, Some root)
      | FoundEdge remaining_data prefix lcp key =>
          if negb (SetModes.can_add mode) then Ok (false, dict) else
          let! leaf := split_aug_edge remaining_data prefix lcp key extra value comparator in
          let! root := rebuild_aug_dict_from_stack comparator stack leaf in
          Ok (true, Some root)
      end
  end.

(** ** [ops/remove.rs] *)

Definition aug_dict_remove_owned (dict : option Cell) (key : CellSlice) (key_bit_len : Z)
    (allow_subtree : bool) (comparator : AugDictFn) : result (option CellSliceParts * option Cell) :=
  if negb allow_subtree && negb (size_bits key =? key_bit_len) then Err CellUnderflow else
  match dict with
  | None => Ok (None, None)
  | Some root =>
      let! f := dict_find_value_to_remove ctx root key in
      match f with
      | None => Ok (None, dict)
      | Some (last :: stack, removed, prev_key_bit_len, key) =>
          let! (leaf, value) := rebuild_as_removed ctx last key prev_key_bit_len in
          let! root := rebuild_aug_dict_from_stack comparator stack leaf in
          Ok (Some (removed, value), Some root)
      | Some ([], removed, _, _) => Ok (Some (removed, root), None)
      end
  end.
End Aug.

(** ** [ops/find.rs] *)

(** [enum Next] of [aug_dict_find_by_extra] *)
Inductive Next (A : Type) : Type :=
| NextLeaf (prefix : CellSlice) (extra : A) (value : CellSlice)
| NextEdge (prefix : CellSlice) (key_bit_len : Z) (extra : A) (lft rgt : Cell).
Arguments NextLeaf {A} _ _ _.
Arguments NextEdge {A} _ _ _ _ _.

Definition next_prefix {A} (n : Next A) : CellSlice :=
  match n with NextLeaf prefix _ _ | NextEdge prefix _ _ _ _ => prefix end.
Definition next_extra {A} (n : Next A) : A :=
  match n with NextLeaf _ extra _ | NextEdge _ _ extra _ _ => extra end.

Section Search.
Context {A S : Type} `{Load A} `{SearchByExtra A S}.

Definition preload_branch (data : Cell) (key_bit_len : Z) : result (Next A) :=
  let! data := slice_new data in
  let! (prefix, data) := read_label data key_bit_len in
  match checked_sub key_bit_len (size_bits prefix) with
  | None => Err CellUnderflow
  | Some remaining =>
      if remaining =? 0 then
        let! (extra, data) := load_from data in Ok (NextLeaf prefix extra data)
      else if size_refs data <? 2 then Err CellUnderflow
      else
        let! (lft, data) := load_reference data in
        let! (rgt, data) := load_reference data in
        let! (extra, _) := load_from data in
        Ok (NextEdge prefix (remaining - 1) extra lft rgt)
  end.

(** The loop: the prefix of the node goes to the key, then the flow says where to go. *)
Fixpoint find_by_extra_loop (fuel : nat) (next : Next A) (key_builder : CellDataBuilder) (flow : S)
    : result (option (CellDataBuilder * A * CellSlice)) :=
  match fuel with
  | O => Err CellUnderflow
  | Datatypes.S fuel =>
      let prefix := next_prefix next in
      let! key_builder := if negb (is_data_empty prefix) then store_key_part key_builder prefix else Ok key_builder in
      match next with
      | NextLeaf _ extra value =>
          let (here, _) := on_leaf flow extra in
          Ok (if here : bool then Some (key_builder, extra, value) else None)
      | NextEdge _ key_bit_len _ lft rgt =>
          let! lft := preload_branch lft key_bit_len in
          let! rgt := preload_branch rgt key_bit_len in
          let (side, flow) := on_edge flow (next_extra lft) (next_extra rgt) in
          match side with
          | Some Left => let! key_builder := store_bit key_builder false in find_by_extra_loop fuel lft key_builder flow
          | Some Right => let! key_builder := store_bit key_builder true in find_by_extra_loop fuel rgt key_builder flow
          | None => Ok None
          end
      end
  end.

Definition aug_dict_find_by_extra (dict : option Cell) (key_bit_len : Z) (flow : S)
    : result (option (CellDataBuilder * A * CellSlice)) :=
  match dict with
  | None => Ok None
  | Some data =>
      let! next := preload_branch data key_bit_len in
      find_by_extra_loop (Datatypes.S (Z.to_nat key_bit_len)) next data_new flow
  end.
End Search.

(** ** [src/src/dict/aug.rs] *)

(** [AugDictExtra], with its supertrait [Default] *)
Class AugDictExtra (A : Type) := {
  extra_default : A;
  comp_add : AugDictFn;
}.

Record AugDict (K A V : Type) := mkAug { aug_dict : Dict K (A * V); aug_extra : A }.
Arguments mkAug {K A V} _ _.
Arguments aug_dict {K A V} _.
Arguments aug_extra {K A V} _.

#[global] Instance ExactSize_aug K A V `{ExactSize A} : ExactSize (AugDict K A V) := fun self =>
  Sizes.add (exact_size (aug_dict self)) (exact_size (aug_extra self)).
#[global] Instance Load_aug K A V `{Load A} : Load (AugDict K A V) := fun s =>
  let! (dict, s) := load_from s in
  let! (extra, s) := load_from s in Ok (mkAug dict extra, s).
#[global] Instance Store_aug K A V `{Store A} : Store (AugDict K A V) := fun self ctx b =>
  let! b := store_into (aug_dict self) ctx b in store_into (aug_extra self) ctx b.

(** [load_from_root]: the extra and the root cell, cut out of the slice *)
Definition load_from_root {A} V `{Machine} `{Load A} `{Load V} (slice : CellSlice) (key_bit_len : Z) (ctx : CellContext)
    : result (A * Cell * CellSlice) :=
  let root := slice in
  let! (label, slice) := read_label slice key_bit_len in
  let! (extra, slice) :=
    if negb (size_bits label =? key_bit_len) then
      let! slice := skip_first slice 0 2 in load_from slice
    else
      let! (extra, slice) := load_from slice in
      let! (_, slice) := load_from (T := V) slice in Ok (extra, slice) in
  let root_bits := u16 (size_bits root - size_bits slice) in
  let root_refs := u8 (size_refs root - size_refs slice) in
  let! b := store_slice builder_new (get_prefix root root_bits root_refs) in
  let! c := build_ext ctx b in Ok (extra, c, slice).

(** ** [AugIter] *)

Record AugIter (K A V : Type) := mkAugIter { ai_inner : Iter K (A * V) }.
Arguments mkAugIter {K A V} _.
Arguments ai_inner {K A V} _.

Module AugIter.
Section Impl.
Context {K A V : Type} `{DictKey K}.
Definition new (root : option Cell) : AugIter K A V := mkAugIter (Iter.new root).
Definition reversed (it : AugIter K A V) : AugIter K A V := mkAugIter (Iter.reversed (ai_inner it)).
Definition signed (it : AugIter K A V) : AugIter K A V := mkAugIter (Iter.signed (ai_inner it)).
Context `{!LoadDictKey K} `{Load A} `{Load V}.

Definition next (it : AugIter K A V) : option (result (K * A * V)) * AugIter K A V :=
  match Iter.next (ai_inner it) with
  | (None, inner) => (None, mkAugIter inner)
  | (Some (Ok (key, (aug, value))), inner) => (Some (Ok (key, aug, value)), mkAugIter inner)
  | (Some (Err e), inner) => (Some (Err e), mkAugIter inner)
  end.
End Impl.
End AugIter.

Module AugDict.
Section Impl.
Context `{Machine} (sha256 : list Z -> HashBytes) {K A V : Type}.
Implicit Types (d : AugDict K A V) (ctx : CellContext).
Abbreviation empty := (empty_context sha256).

Definition from_parts (dict : Dict K (A * V)) (extra : A) : AugDict K A V := mkAug dict extra.
Definition into_parts d : Dict K (A * V) * A := (aug_dict d, aug_extra d).
Definition cast_into {Q T} d : AugDict Q A T := mkAug (Dict.cast_into (aug_dict d)) (aug_extra d).
Definition eqb (extra_eqb : A -> A -> bool) d (other : AugDict K A V) : bool :=
  Dict.eqb (aug_dict d) (aug_dict other) && extra_eqb (aug_extra d) (aug_extra other).
Definition is_empty d : bool := Dict.is_empty (aug_dict d).
Definition dict d := aug_dict d.
Definition root_extra d : A := aug_extra d.
Definition contains_key `{StoreDictKey K} d (key : K) : result bool := Dict.contains_key sha256 (aug_dict d) key.
Definition get `{StoreDictKey K} `{Load A} `{Load V} d (key : K) : result (option (A * V)) := Dict.get sha256 (aug_dict d) key.

Context `{DictKey K}.

Definition iter d : AugIter K A V := AugIter.new (dict_root (aug_dict d)).
Definition keys d : Keys K := Keys.new (dict_root (aug_dict d)).
Definition values d : Values (A * V) := Values.new (dict_root (aug_dict d)) (KEY_BITS K).
Definition raw_iter d : RawIter := RawIter.new (dict_root (aug_dict d)) (KEY_BITS K).
Definition raw_keys d : RawIter := RawIter.new (dict_root (aug_dict d)) (KEY_BITS K).
Definition raw_values d : RawValues := RawValues.new (dict_root (aug_dict d)) (KEY_BITS K).

Definition load_from_root_ext `{Load A} `{Load V} (slice : CellSlice) ctx : result (AugDict K A V * CellSlice) :=
  let! (extra, root, slice) := load_from_root V slice (KEY_BITS K) ctx in
  Ok (mkAug (mkDict (Some root)) extra, slice).

Definition find_by_extra {S} `{!LoadDictKey K} `{Load A} `{Load V} `{SearchByExtra A S} d (flow : S) : result (option (K * A * V)) :=
  let! found := aug_dict_find_by_extra (dict_root (aug_dict d)) (KEY_BITS K) flow in
  match found with
  | None => Ok None
  | Some (key, extra, value) =>
      let! key := load_key key in
      let! value := load_value value in Ok (Some (key, extra, value))
  end.

Context `{AugDictExtra A} `{Load A}.

Definition new : AugDict K A V := mkAug Dict.new extra_default.
Definition default : AugDict K A V := new.

(** The extra read from the root *)
Definition read_root_extra (root : option Cell) : result A :=
  match root with
  | Some root =>
      let! slice := slice_new root in
      let! (prefix, slice) := read_label slice (KEY_BITS K) in
      let! slice := if negb (size_bits prefix =? KEY_BITS K) then skip_first slice 0 2 else Ok slice in
      load_value slice
  | None => Ok extra_default
  end.
Definition update_root_extra d : result unit * AugDict K A V :=
  match read_root_extra (dict_root (aug_dict d)) with
  | Ok extra => (Ok tt, mkAug (aug_dict d) extra)
  | Err e => (Err e, d)
  end.

(** A dictionary made of a root, with the extra of the root *)
Definition of_root (root : option Cell) : result (AugDict K A V) :=
  let (r, d) := update_root_extra (mkAug (mkDict root) extra_default) in
  let! _ := r in Ok d.

(** What a change of the root leaves: an error of the change leaves the dictionary as it
    was, one of the reading of the new extra only the extra. *)
Definition applied {B} d (r : result (B * option Cell)) (modified : B -> bool) : result B * AugDict K A V :=
  match r with
  | Err e => (Err e, d)
  | Ok (b, root) =>
      let d := mkAug (mkDict root) (aug_extra d) in
      if modified b then let (r, d) := update_root_extra d in (let! _ := r in Ok b, d)
      else (Ok b, d)
  end.

Definition merge_with_right_sibling_ext d (rgt : AugDict K A V) ctx : result (AugDict K A V) :=
  let! merged := aug_dict_merge_siblings ctx (dict_root (aug_dict d)) (dict_root (aug_dict rgt)) (KEY_BITS K) comp_add in
  of_root merged.
Definition merge_with_right_sibling d rgt := merge_with_right_sibling_ext d rgt empty.

Definition split_by_prefix_ext d (key_prefix : CellSlice) ctx : result (AugDict K A V * AugDict K A V) :=
  let! (lft, rgt) := Dict.split_by_prefix_ext (aug_dict d) key_prefix ctx in
  let! lft := of_root (dict_root lft) in
  let! rgt := of_root (dict_root rgt) in Ok (lft, rgt).
Definition split_by_prefix d key_prefix := split_by_prefix_ext d key_prefix empty.
Definition split_ext d ctx := split_by_prefix_ext d (new_allow_exotic EmptyOrdinaryCell) ctx.
Definition split d := split_ext d empty.

Context `{!StoreDictKey K} `{Store A} `{Store V}.

Definition insert_impl d (key : K) (extra : A) (value : V) (mode : SetMode) ctx : result bool * AugDict K A V :=
  applied d (let! key_builder := key_data key in
    aug_dict_insert ctx (dict_root (aug_dict d)) (as_data_slice key_builder) (KEY_BITS K) (store_into extra) (store_into value) mode comp_add) id.
Definition set_ext d key extra value ctx := insert_impl d key extra value SetSet ctx.
Definition replace_ext d key extra value ctx := insert_impl d key extra value SetReplace ctx.
Definition add_ext d key extra value ctx := insert_impl d key extra value SetAdd ctx.
Definition set d key extra value := set_ext d key extra value empty.
Definition replace d key extra value := replace_ext d key extra value empty.
Definition add d key extra value := add_ext d key extra value empty.

Definition remove_impl d (key : K) ctx : result (option CellSliceParts) * AugDict K A V :=
  applied d (let! key_builder := key_data key in
    aug_dict_remove_owned ctx (dict_root (aug_dict d)) (as_data_slice key_builder) (KEY_BITS K) false comp_add) is_some.
Definition remove_raw_ext d key ctx := remove_impl d key ctx.
Definition remove_raw d key := remove_impl d key empty.
Definition remove `{!Load V} d (key : K) : result (option (A * V)) * AugDict K A V :=
  let (removed, d) := remove_raw_ext d key empty in
  (let! removed := removed in
   match removed with
   | Some (rg, c) =>
       let! slice := apply rg c in
       let! (extra, slice) := load_from slice in
       let! value := load_value slice in Ok (Some (extra, value))
   | None => Ok None
   end, d).

Context `{!KeyOrd K}.

Definition try_from_sorted_slice (sorted : list (K * A * V)) : result (AugDict K A V) :=
  let! root := build_aug_dict_from_sorted_iter sorted comp_add empty in of_root root.
Definition try_from_btree (sorted : list (K * A * V)) : result (AugDict K A V) := try_from_sorted_slice sorted.

Definition modify_with_sorted_iter_ext {T} (addr_eq : Cell -> Cell -> bool) d (entries : list T) (extract_key : T -> K)
    (extract_value : T -> result (option (A * V))) ctx : result bool * AugDict K A V :=
  applied d (aug_dict_modify_from_sorted_iter addr_eq (dict_root (aug_dict d)) entries extract_key extract_value comp_add ctx) id.
Definition modify_with_sorted_iter addr_eq d (entries : list (K * option (A * V))) : result bool * AugDict K A V :=
  modify_with_sorted_iter_ext addr_eq d entries fst (fun entry => Ok entry.2) empty.
End Impl.
End AugDict.

(** ** [KeyMaxLt] of [models/shard/shard_extra.rs] *)

Record KeyMaxLt := mkKeyMaxLt { has_key_block : bool; max_end_lt : uN 64 }.

#[global] Instance Store_KeyMaxLt : Store KeyMaxLt := fun self ctx b =>
  let! b := store_into (has_key_block self) ctx b in store_into (max_end_lt self) ctx b.
#[global] Instance Load_KeyMaxLt : Load KeyMaxLt := fun s =>
  let! (has_key_block, s) := load_from s in
  let! (max_end_lt, s) := load_from s in Ok (mkKeyMaxLt has_key_block max_end_lt, s).

Definition KeyMaxLt_comp_add : AugDictFn := fun lft rgt b cx =>
  let! (lft, _) := load_from lft in
  let! (rgt, _) := load_from rgt in
  store_into (mkKeyMaxLt (has_key_block lft || has_key_block rgt)
    (mkU 64 (Z.max (uval (max_end_lt lft)) (uval (max_end_lt rgt))))) cx b.

#[global] Instance AugDictExtra_KeyMaxLt : AugDictExtra KeyMaxLt := {|
  extra_default := mkKeyMaxLt false (mkU 64 0);
  comp_add := KeyMaxLt_comp_add;
|}.
