(* ===== verification/AugTheorems.v ===== *)
(** * AugTheorems: an augmented dictionary is a map whose root knows the sum of the extras

    The representation of [DictSpec] with the extras of the forks: [aug_tail] says that a
    fork holds the combination of the extras below it.  [AugLaws] is what a type of extras
    promises.  The descent, the lookups, the searches and the iterators of plain
    dictionaries apply as they are; what is new is the rebuilding of the path and the
    search by extra. *)

From stdpp Require Import gmap sorting.
From S2P Require Import Prelude Bits DataBuilder DataBuilderSpec CellMeta Cell Slice SliceSpec SliceScan SliceScanSpec Builder BuilderSpec Context DictLabel DictLabelSpec Dict DictSpec DictTheorems DictKeys DictBuild DictFind DictIter DictOrder DictFindSpec DictIterSpec DictIterTheorems DictUnion DictBulkTheorems DictTyped DictTypedSpec Aug.

(** ** What a type of extras promises *)

(** The slice starts with the extra. *)
Definition extra_slice {A} `{Codec A} (a : A) (s : CellSlice) : Prop :=
  slice_wf s /\ exists l rs, slice_bits s = (enc a).1 ++ l /\ slice_references_cloned s = (enc a).2 ++ rs.

Class AugLaws (ctx : CellContext) {laws : ContextLaws ctx} (N Dv : Z) (A : Type) `{Codec A} `{AugDictExtra A} := {
  (** The extra of a fork, if the extras of its children can be combined *)
  combine : A -> A -> option A;
  combine_ok a1 a2 a : enc_ok a1 -> enc_ok a2 -> combine a1 a2 = Some a -> enc_ok a;
  combine_assoc a1 a2 a3 : enc_ok a1 -> enc_ok a2 -> enc_ok a3 ->
    (combine a1 a2 ≫= fun a => combine a a3) = (combine a2 a3 ≫= fun a => combine a1 a);
  comp_add_law ls rs b a1 a2 : extra_slice a1 ls -> extra_slice a2 rs -> enc_ok a1 -> enc_ok a2 -> builder_wf b ->
    match combine a1 a2 with
    | Some a => comp_add ls rs b ctx = append_full b (enc a)
    | None => exists e, comp_add ls rs b ctx = Err e
    end;
  extra_fits a : enc_ok a -> tail_ok ctx N Dv (enc a);
}.

Section Sum.
Context {mach : Machine} (ctx : CellContext) {laws : ContextLaws ctx}.
Context {A V : Type} `{Codec A} `{Codec V} `{!AugDictExtra A} (N Dv : Z) {aug : AugLaws ctx N Dv A}.
Context (HN : 0 <= N <= 1023) (Hcap : 2 + len_bits N + N <= MAX_BIT_LEN) (HDv : 0 <= Dv) (HD : Dv + N <= MAX_DEPTH).
Context (Hfits : forall v : A * V, enc_ok v -> vok ctx N Dv (enc v)) (canon : bool).

(** ** The sum of the extras of a trie *)

Fixpoint sum_of (t : trie) (a : A) : Prop :=
  match t with
  | TLeaf _ p => exists v : V, enc_ok (a, v) /\ p = enc (a, v)
  | TFork _ l r => exists x y, sum_of l x /\ sum_of r y /\ combine x y = Some a
  end.

(** A fork holds the sum of the extras below it. *)
Definition aug_tail : ForkTail := fun l r y => exists a, sum_of (TFork [] l r) a /\ y = enc a.

Abbreviation rep := (DictSpec.rep (ftail := aug_tail) ctx N Dv canon).
Abbreviation rest_of := (DictSpec.rest_of (ftail := aug_tail) ctx N Dv canon).
Abbreviation built := (DictSpec.built (ftail := aug_tail) ctx N Dv canon).

Lemma sum_ok t a : sum_of t a -> enc_ok a.
Proof.
  revert a. induction t as [K p|K l IHl r IHr]; intros a; [by intros (v & [] & _)|].
  intros (x & y & Hx & Hy & E). eapply combine_ok; [by apply IHl | by apply IHr | done].
Qed.

Lemma sum_set_label K t a : sum_of (set_label K t) a <-> sum_of t a.
Proof. by destruct t. Qed.

(** The encoding of a value that fits determines it. *)
Lemma enc_inj (v w : A * V) : enc_ok v -> enc_ok w -> enc v = enc w -> v = w.
Proof.
  intros Hv Hw E. destruct (Hfits v Hv) as (Hb & Hr & Hc & Hd).
  destruct (build_labelled ctx N HN Hcap canon N [] (enc v) Dv) as (c & lab & _ & Hl & Ho & _); try done; [lia | change (zlen []) with 0; lia | lia |].
  destruct (ordinary_slice _ _ _ Ho) as (_ & W & B & _ & R).
  destruct (slice_front _ _ _ W B) as (_ & _ & W2 & B2 & R2). rewrite R in R2.
  destruct (load_enc _ v [] [] W2 Hv) as (s1 & E1 & _); [by rewrite app_nil_r..|].
  destruct (load_enc _ w [] [] W2 Hw) as (s2 & E2 & _); [by rewrite app_nil_r, <- E..|]. congruence.
Qed.

Lemma sum_unique t a a' : sum_of t a -> sum_of t a' -> a = a'.
Proof.
  revert a a'. induction t as [K p|K l IHl r IHr]; intros a a'.
  - intros (v & Hv & ->) (w & Hw & E). by pose proof (enc_inj _ _ Hv Hw E) as [= -> _].
  - intros (x & y & Hx & Hy & E) (x' & y' & Hx' & Hy' & E'). rewrite (IHl _ _ Hx Hx'), (IHr _ _ Hy Hy') in E. congruence.
Qed.

#[local] Instance aug_tail_unique : UniqueTail aug_tail.
Proof. intros l r y y' (a & Ha & ->) (a' & Ha' & ->). by rewrite (sum_unique _ _ _ Ha Ha'). Qed.

(** ** Tries that have a sum *)

Definition summed (t : trie) : Prop := exists a, sum_of t a.

Lemma summed_law : tok_law summed.
Proof.
  split.
  - intros K l r b (a & x & y & Hx & Hy & _). destruct b; by eexists.
  - intros K t (a & Ha). exists a. by apply sum_set_label.
Qed.

(** What a rebuilt subtree comes to: a cell when the sum is defined, and else an error. *)
Definition aug_outcome (m : Z) (t : trie) (res : result Cell) : Prop :=
  summed t /\ built m t res \/ (~ summed t /\ trie_ok m t) /\ exists e, res = Err e.

(** ** Reading the extra of a node *)

Lemma skip_two s c1 c2 rs : slice_wf s -> slice_references_cloned s = c1 :: c2 :: rs ->
  exists s', skip_first s 0 2 = Ok s' /\ slice_wf s' /\ slice_bits s' = slice_bits s /\ slice_references_cloned s' = rs.
Proof.
  intros W E. pose proof (zlen_slice_references_cloned s W) as Hz. rewrite E, !zlen_cons in Hz. pose proof (zlen_nonneg rs).
  assert (2 <= refs_end (range s) - refs_start (range s)) as Htwo.
  { unfold size_refs, Range.size_refs in Hz. destruct W. dlia. }
  destruct (advance_ref_wf s W ltac:(lia)) as (W1 & _ & R1 & B1).
  assert (0 <= refs_start (range s) /\ refs_end (range s) <= 7) as [Hs He].
  { destruct W as [Wc ? ? ? ?]. pose proof (cw_rc _ Wc). lia. }
  destruct (advance_ref_wf (advance_ref s) W1) as (W2 & _ & R2 & B2).
  { unfold advance_ref. simpl. rewrite u8_small by lia. lia. }
  exists (advance_ref (advance_ref s)). rewrite R2, R1, E, B2, B1. split; [|done].
  unfold skip_first, Range.skip_first, on_range, Range.exceeds. destruct W as [Wc ? ? ? ?]. pose proof (cw_len _ Wc).
  unfold advance_ref. simpl. rewrite u16_small by lia. rewrite (u8_small (refs_start (range s) + 1)) by lia. rewrite !u8_small by lia.
  rewrite !(proj2 (Z.ltb_ge _ _)) by lia. cbn [orb]. rewrite Z.add_0_r. by replace (refs_start (range s) + 2) with (refs_start (range s) + 1 + 1) by lia.
Qed.

(** Behind the label of a leaf, or behind the children of a fork *)
Lemma rest_extra m t x s a (leaf : bool) :
  rest_of m t x -> sum_of t a -> value_slice x s -> leaf = (m <=? zlen (tlabel t)) ->
  exists s', (if leaf then Ok s else skip_first s 0 2) = Ok s' /\ extra_slice a s'.
Proof.
  intros Hr Ha (W & B & _ & R & _) ->. destruct t as [K p|K l r].
  - destruct Hr as (HK & _ & ->). simpl. rewrite HK, Z.leb_refl. exists s. split; [done|].
    destruct Ha as (v & Hv & ->). split; [done|]. by exists (enc v).1, (enc v).2.
  - destruct Hr as (HK & cl & cr & y & -> & _ & _ & _ & (a' & Ha' & ->)). simpl. rewrite (proj2 (Z.leb_gt _ _)) by done.
    destruct (skip_two s cl cr (enc a').2 W R) as (s' & -> & W' & B' & R'). exists s'. split; [done|]. split; [done|].
    exists [], []. rewrite !app_nil_r, B', B, R'. by rewrite (sum_unique _ _ _ Ha Ha').
Qed.

Lemma skip_label_extra m c t a :
  rep m c t -> sum_of t a ->
  slice_new c = Ok (new_allow_exotic c) /\ exists s, skip_label_full (new_allow_exotic c) m = Ok s /\ extra_slice a s.
Proof.
  intros Hr Ha. split; [by apply (rep_load _ _ _ _ _ _ _ Full Hr)|].
  destruct (rep_read ctx N Dv HN canon _ _ _ Hr) as (lab & s & x & E & Wl & Bl & Cs & Ws & Bs & Rs & Rc & Hrest).
  unfold skip_label_full. rewrite E. cbn [rbind]. rewrite <- zlen_slice_bits, Bl by done.
  destruct (rest_extra m t x s a (m <=? zlen (tlabel t)) Hrest Ha) as (s' & E' & Hs'); [split_and!; [done..|exact (rep_plain _ _ _ _ _ _ _ s Hr Cs)] | done |].
  exists s'. split; [|done]. destruct (Z.ltb_spec (zlen (tlabel t)) m), (Z.leb_spec m (zlen (tlabel t))); (done || lia).
Qed.

(** ** Building nodes *)

Lemma summed_fork K l r x y : sum_of l x -> sum_of r y -> (summed (TFork K l r) <-> is_Some (combine x y)).
Proof.
  intros Hx Hy. split.
  - intros (a & x' & y' & Hx' & Hy' & E). exists a. by rewrite (sum_unique _ _ _ Hx Hx'), (sum_unique _ _ _ Hy Hy').
  - intros (a & E). by exists a, x, y.
Qed.

(** The references and the combined extra behind the label of a fork *)
Definition fork_value (cl cr : Cell) (ls rs : CellSlice) : DynStore := fun cx b =>
  let! b := store_reference b cl in
  let! b := store_reference b cr in comp_add ls rs b cx.

Lemma fork_value_spec cl cr ls rs x y b :
  extra_slice x ls -> extra_slice y rs -> enc_ok x -> enc_ok y -> builder_wf b ->
  match combine x y with
  | Some a => fork_value cl cr ls rs ctx b = append_full b (forked cl cr (enc a))
  | None => exists e, fork_value cl cr ls rs ctx b = Err e
  end.
Proof.
  intros Hx Hy Hxo Hyo Hb. pose proof (fun b => comp_add_law (AugLaws := aug) ls rs b x y Hx Hy Hxo Hyo) as Hadd.
  unfold fork_value. rewrite store_reference_spec by done. destruct (combine x y) as [a|].
  - assert (forall c, builder_wf c -> (let! b := store_reference c cr in comp_add ls rs b ctx) = append_full c ((enc a).1, cr :: (enc a).2)) as Hc.
    { intros c Hc. rewrite store_reference_spec by done. by rewrite (append_bind c ([], [cr]) (enc a)). }
    by rewrite (append_bind b ([], [cl]) ((enc a).1, cr :: (enc a).2)).
  - destruct (append_full b ([], [cl])) as [b1|e] eqn:E1; [|by exists e]. cbn [rbind].
    destruct (append_full_wf _ _ _ Hb E1) as (W1 & _). rewrite store_reference_spec by done.
    destruct (append_full b1 ([], [cr])) as [b2|e] eqn:E2; [|by exists e]. cbn [rbind].
    destruct (append_full_wf _ _ _ W1 E2) as (W2 & _). by apply Hadd.
Qed.

Lemma make_aug_fork m key l r cl cr ls rs x y :
  slice_wf key -> 0 <= m <= N -> size_bits key < m ->
  rep (m - size_bits key - 1) cl l -> rep (m - size_bits key - 1) cr r ->
  sum_of l x -> sum_of r y -> extra_slice x ls -> extra_slice y rs ->
  aug_outcome m (TFork (slice_bits key) l r) (make_leaf ctx key m (fork_value cl cr ls rs)).
Proof.
  intros Hk Hm Hsz Hl Hr Hx Hy Hls Hrs. pose proof (sum_ok _ _ Hx) as Hxo. pose proof (sum_ok _ _ Hy) as Hyo.
  pose proof (fun b => fork_value_spec cl cr ls rs x y b Hls Hrs Hxo Hyo) as Hv. unfold aug_outcome. rewrite (summed_fork _ _ _ x y Hx Hy).
  destruct (combine x y) as [a|] eqn:E; [left|right].
  - split; [done|]. pose proof (combine_ok _ _ _ Hxo Hyo E) as Ha.
    apply (make_fork_with (ftail := aug_tail) ctx N Dv HN Hcap HDv HD canon m key l r cl cr (enc a)); try done.
    + by apply extra_fits.
    + exists a. split; [by exists x, y | done].
  - pose proof (zlen_slice_bits key Hk) as Hz. split; [split; [by intros []|]|].
    { constructor; rewrite Hz; [exact (rep_trie_ok _ _ _ _ _ _ _ Hl) | exact (rep_trie_ok _ _ _ _ _ _ _ Hr)]. }
    unfold make_leaf. rewrite write_label_spec by (apply builder_new_wf || done || lia).
    destruct (label_bits m (slice_bits key)) as [lab|]; [|by eexists]. cbn [write_label_result].
    destruct (append_full builder_new (lab, [])) as [b|e] eqn:Eb; [|by exists e]. cbn [rbind].
    destruct (append_full_wf _ _ _ builder_new_wf Eb) as (Wb & _). destruct (Hv b Wb) as (e & ->). by exists e.
Qed.

(** The code writes the fork in one piece. *)
Lemma make_fork_inline key m cl cr ls rs :
  (let! builder := write_label key m builder_new in
   let! builder := store_reference builder cl in
   let! builder := store_reference builder cr in
   let! builder := comp_add ls rs builder ctx in build_ext ctx builder) = make_leaf ctx key m (fork_value cl cr ls rs).
Proof.
  unfold make_leaf, fork_value. destruct (write_label key m builder_new) as [b|]; [|done]. cbn [rbind].
  destruct (store_reference b cl) as [b1|]; [|done]. cbn [rbind]. by destruct (store_reference b1 cr).
Qed.

(** Two nodes under a label, as the code joins them *)
Lemma join_nodes m key l r cl cr :
  slice_wf key -> 0 <= m <= N -> size_bits key < m ->
  rep (m - size_bits key - 1) cl l -> rep (m - size_bits key - 1) cr r -> summed l -> summed r ->
  aug_outcome m (TFork (slice_bits key) l r)
    (let! left_slice := slice_new cl in
     let! right_slice := slice_new cr in
     let! left_slice := skip_label_full left_slice (m - size_bits key - 1) in
     let! right_slice := skip_label_full right_slice (m - size_bits key - 1) in
     let! builder := write_label key m builder_new in
     let! builder := store_reference builder cl in
     let! builder := store_reference builder cr in
     let! builder := comp_add left_slice right_slice builder ctx in build_ext ctx builder).
Proof.
  intros Hk Hm Hsz Hl Hr (x & Hx) (y & Hy).
  destruct (skip_label_extra _ _ _ _ Hl Hx) as (-> & ls & El & Hls). destruct (skip_label_extra _ _ _ _ Hr Hy) as (-> & rs & Er & Hrs).
  cbn [rbind]. rewrite El. cbn [rbind]. rewrite Er. cbn [rbind]. rewrite make_fork_inline. by apply (make_aug_fork m key l r cl cr ls rs x y).
Qed.

(** ** The laws of the descent *)

Lemma aug_lift : DictSpec.lift_law (ftail := aug_tail) ctx N Dv canon aug_outcome (rebuild_aug_segment ctx comp_add).
Proof.
  intros m c K l r b Hr t res Hres. pose proof Hr as Hr0.
  apply rep_node in Hr0 as (Hm & _ & _ & _ & _ & _ & _ & (HK & cl & cr & y & _ & _ & _ & _ & (a0 & (x1 & x2 & H1' & H2' & _) & _)) & _).
  assert (summed l /\ summed r) as [Sl Sr] by (split; by eexists).
  destruct Hres as [(St & ch & -> & Hch)|(St & e & ->)]; cbn [rbind].
  - destruct (fork_children _ _ _ _ _ _ _ _ _ Hr) as (cl' & cr' & _ & El & _ & Er & Rl & Rr).
    destruct (rep_read ctx N Dv HN canon _ _ _ Hr) as (lab & s & x & E & Wl & Bl & _). cbn [tlabel] in Bl.
    pose proof (zlen_slice_bits lab Wl) as Hz. rewrite Bl in Hz. pose proof (zlen_nonneg K).
    destruct (rep_load _ _ _ _ _ _ _ Full Hr) as (_ & _ & En).
    assert (forall y1 y2 t1 t2, rep (m - zlen K - 1) y1 t1 -> rep (m - zlen K - 1) y2 t2 -> summed t1 -> summed t2 ->
      aug_outcome m (TFork K t1 t2) (let! last_data_slice := slice_new c in
        let! (last_label, _) := read_label last_data_slice m in
        let child_key_bit_len := u16 (u16 (m - size_bits last_label) - 1) in
        let! left_slice := slice_new y1 in
        let! right_slice := slice_new y2 in
        let! left_slice := skip_label_full left_slice child_key_bit_len in
        let! right_slice := skip_label_full right_slice child_key_bit_len in
        let! builder := write_label last_label m builder_new in
        let! builder := store_reference builder y1 in
        let! builder := store_reference builder y2 in
        let! builder := comp_add left_slice right_slice builder ctx in build_ext ctx builder)) as Hjoin.
    { intros y1 y2 t1 t2 Hy1 Hy2 S1 S2. rewrite En. cbn [rbind]. rewrite E. cbn [rbind]. cbv zeta. rewrite <- Hz.
      rewrite (u16_small (m - zlen K)), u16_small by lia. rewrite <- Bl, zlen_slice_bits by done.
      rewrite <- Bl, zlen_slice_bits in Hy1, Hy2 by done. apply join_nodes; (done || lia). }
    unfold rebuild_aug_segment. cbn [sg_next_branch sg_data sg_key_bit_len]. destruct b; cbn [Branches.from_bit].
    + rewrite El. cbn [some_or_underflow rbind]. by apply Hjoin.
    + rewrite Er. cbn [some_or_underflow rbind]. by apply Hjoin.
  - destruct St as [St Hok]. right. split; [|by exists e]. split; cycle 1.
    { pose proof (rep_trie_ok _ _ _ _ _ _ _ Hr) as Hp. inversion Hp; subst. by destruct b; constructor. }
    intros Ss. apply St. destruct b; destruct Ss as (a & x & y' & Hx & Hy & _); by eexists.
Qed.

Lemma aug_built : DictSpec.built_law (ftail := aug_tail) ctx N Dv canon aug_outcome summed.
Proof. intros m t res Ht Hb. by left. Qed.

(** A leaf with an extra is a leaf with a pair. *)
Definition aug_leaf (prefix : CellSlice) (n : Z) (w : A * V) : result Cell :=
  make_leaf_with_extra ctx prefix n (store_into w.1) (store_into w.2).

Lemma aug_leaf_make prefix n w : aug_leaf prefix n w = make_leaf ctx prefix n (store_into w).
Proof.
  unfold aug_leaf, make_leaf_with_extra, make_leaf. destruct (write_label prefix n builder_new) as [b|]; [|done]. cbn [rbind].
  destruct w as [a v]. unfold store_into at 3, Store_pair. cbn [fst snd]. by destruct (store_into a ctx b).
Qed.

Lemma summed_leaf K (w : A * V) : enc_ok w -> summed (TLeaf K (enc w)).
Proof. intros Hw. exists w.1. exists w.2. by destruct w. Qed.

Lemma aug_leaf_rep m prefix (w : A * V) :
  slice_wf prefix -> 0 <= m <= N -> size_bits prefix = m -> enc_ok w ->
  exists c, aug_leaf prefix m w = Ok c /\ rep m c (TLeaf (slice_bits prefix) (enc w)).
Proof.
  intros Wp Hm Hsz Hw. rewrite aug_leaf_make.
  apply (make_leaf_rep (ftail := aug_tail) ctx N Dv HN Hcap HDv HD canon); [done..|by apply codec_stores | by apply Hfits].
Qed.

Lemma aug_leaf_law : leaf_law N aug_outcome enc enc_ok aug_leaf.
Proof.
  intros m prefix w Wp Hm Hsz Hw. left. split; [by apply summed_leaf|].
  destruct (aug_leaf_rep m prefix w Wp Hm Hsz Hw) as (c & -> & Hc). by exists c.
Qed.

Definition aug_split (s prefix lcp key : CellSlice) (w : A * V) : result Cell :=
  split_aug_edge ctx s prefix lcp key (store_into w.1) (store_into w.2) comp_add.

Lemma aug_split_law : DictSpec.split_law (ftail := aug_tail) ctx N Dv canon aug_outcome summed enc enc_ok aug_split.
Proof.
  intros m t x s prefix lcp key P a b K2 k2 w Hm Hrest Hs Hp Bp HK HKm Hl Bl Hk Hsz Bk Hab Ht Hw. unfold aug_split, split_aug_edge.
  destruct (split_parts (ftail := aug_tail) ctx N Dv HN Hcap HDv HD canon m t x s prefix lcp key P a b K2 k2) as
    (key' & p2 & co & -> & E2 & Eo & Ro & Wk' & Bk' & Hz & Hlm & Hkn); [done..|]. cbn [rbind]. rewrite E2. cbn [rbind]. rewrite Eo. cbn [rbind].
  destruct (aug_leaf_rep (size_bits key') key' w Wk' Hkn eq_refl Hw) as (cn & En & Rn). unfold aug_leaf in En. rewrite En. cbn [rbind].
  rewrite Bk' in Rn. rewrite Hsz, Hz in *.
  assert (summed (set_label K2 t)) as So by (by apply (proj2 summed_law)). pose proof (summed_leaf k2 w Hw) as Sn.
  rewrite <- Bl. destruct a; cbn [split_trie]; (apply join_nodes; [done | done | lia | done..]).
Qed.

Lemma aug_insert_loop m c t fuel key stack0 :
  rep m c t -> summed t -> slice_wf key -> size_bits key = m -> m < Z.of_nat fuel ->
  insert_result ctx aug_outcome (rebuild_aug_segment ctx comp_add) enc enc_ok aug_leaf aug_split m c t (slice_bits key) stack0
    (insert_loop ctx fuel c key stack0).
Proof.
  intros ?????. apply (insert_loop_spec (ftail := aug_tail) ctx N Dv HN canon _ _ summed); try done;
    [apply summed_law | apply aug_leaf_law | apply aug_split_law | apply aug_lift].
Qed.

Lemma aug_remove_loop m c t fuel key stack0 prev0 :
  rep m c t -> summed t -> slice_wf key -> size_bits key = m -> m < Z.of_nat fuel ->
  remove_result ctx aug_outcome (rebuild_aug_segment ctx comp_add) m c t (slice_bits key) stack0 prev0 (remove_loop ctx fuel c key prev0 stack0).
Proof.
  intros ?????. apply (remove_loop_spec (ftail := aug_tail) ctx N Dv HN Hcap HDv HD canon _ _ summed); try done;
    [apply summed_law | apply aug_lift | apply aug_built].
Qed.

(** ** The search by extra *)

(** What a node is read as: its label and its sum, with the value of a leaf or the
    children of a fork behind them. *)
Definition node_read (m : Z) (t : trie) (a : A) (n : Next A) : Prop :=
  slice_wf (next_prefix n) /\ slice_bits (next_prefix n) = tlabel t /\ next_extra n = a /\
  match t, n with
  | TLeaf _ p, NextLeaf _ _ s => exists (v : V) s', p = enc (a, v) /\ enc_ok (a, v) /\ load_from s = Ok (v, s')
  | TFork K l r, NextEdge _ m' _ cl cr => m' = m - zlen K - 1 /\ rep m' cl l /\ rep m' cr r
  | _, _ => False
  end.

Lemma node_read_leaf m t a c s x prefix lab :
  rep m c t -> rest_of m t x -> sum_of t a -> value_slice x s -> m - zlen (tlabel t) = 0 ->
  read_label (new_allow_exotic c) m = Ok (lab, s) -> slice_wf lab -> slice_bits lab = tlabel t -> prefix = lab ->
  exists n, (let! (extra, data) := load_from s in Ok (NextLeaf prefix extra data)) = Ok n /\ node_read m t a n.
Proof.
  intros Hr Hrest Ha (W & B & _ & R & _) Hm E Wl Bl ->. destruct t as [K p|K l r]; [|destruct Hrest as [? _]; cbn [tlabel] in Hm; lia].
  destruct Hrest as (_ & _ & ->). destruct Ha as (v & Hv & ->). destruct Hv as [Hao Hvo].
  destruct (load_enc s a _ _ W Hao B R) as (s1 & -> & W1 & B1 & R1). cbn [rbind]. eexists. split; [done|].
  split; [done|]. split; [done|]. split; [done|]. destruct (load_enc s1 v [] [] W1 Hvo) as (s2 & E2 & _); [by rewrite app_nil_r..|].
  by exists v, s2.
Qed.

Lemma node_read_fork m K l r a s x lab :
  rest_of m (TFork K l r) x -> sum_of (TFork K l r) a -> value_slice x s -> slice_wf lab -> slice_bits lab = K ->
  exists n, (if size_refs s <? 2 then Err CellUnderflow else
    let! (lft, data) := load_reference s in
    let! (rgt, data) := load_reference data in
    let! (extra, _) := load_from data in Ok (NextEdge lab (m - zlen K - 1) extra lft rgt)) = Ok n /\ node_read m (TFork K l r) a n.
Proof.
  intros (HK & cl & cr & y & -> & Hl & Hr & _ & (a' & Ha' & ->)) Ha (W & B & R & Rc & _) Wl Bl.
  pose proof (zlen_slice_references_cloned s W) as Hz. rewrite Rc in Hz. cbn [forked fst snd] in *. rewrite !zlen_cons in Hz.
  pose proof (zlen_nonneg (enc a').2). rewrite (proj2 (Z.ltb_ge _ _)) by lia.
  assert (forall s c rs, slice_wf s -> slice_references_cloned s = c :: rs -> 1 <= refs_end (range s) - refs_start (range s)) as Hone.
  { intros s0 c0 rs0 W0 E0. pose proof (zlen_slice_references_cloned s0 W0) as Hz0. rewrite E0, zlen_cons in Hz0.
    pose proof (zlen_nonneg rs0). unfold size_refs, Range.size_refs in Hz0. destruct W0. dlia. }
  destruct (advance_ref_wf s W (Hone _ _ _ W Rc)) as (W1 & Rn1 & Rc1 & B1). rewrite R in Rn1. rewrite Rc in Rc1. cbn [tail] in *.
  destruct (advance_ref_wf _ W1 (Hone _ _ _ W1 Rc1)) as (W2 & _ & Rc2 & B2). rewrite Rc1 in Rc2. cbn [tail] in *.
  rewrite (load_reference_spec s), R by done. cbn [rbind]. rewrite load_reference_spec, Rn1 by done. cbn [rbind].
  assert (enc_ok a') as Hao by (by apply (sum_ok (TFork [] l r))).
  destruct (load_enc _ a' [] [] W2 Hao) as (s3 & -> & _); [by rewrite B2, B1, B, app_nil_r | by rewrite Rc2, app_nil_r|]. cbn [rbind].
  eexists. split; [done|]. split; [done|]. split; [done|]. split; [|done]. by apply (sum_unique (TFork [] l r)).
Qed.

Lemma preload_branch_spec m c t a : rep m c t -> sum_of t a -> exists n, preload_branch c m = Ok n /\ node_read m t a n.
Proof.
  intros Hr Ha. destruct (rep_load _ _ _ _ _ _ _ Full Hr) as (_ & _ & En). unfold preload_branch. rewrite En. cbn [rbind].
  destruct (rep_read ctx N Dv HN canon _ _ _ Hr) as (lab & s & x & E & Wl & Bl & Cs & Ws & Bs & Rs & Rc & Hrest).
  rewrite E. cbn [rbind]. pose proof (rep_label_len _ _ _ _ _ _ _ Hr) as HK. pose proof (zlen_slice_bits lab Wl) as Hz. rewrite Bl in Hz.
  assert (value_slice x s) as Hv by (split_and!; [done..|exact (rep_plain _ _ _ _ _ _ _ s Hr Cs)]).
  unfold checked_sub. rewrite <- Hz. rewrite (proj2 (Z.leb_le (zlen (tlabel t)) m)) by done.
  destruct (Z.eqb_spec (m - zlen (tlabel t)) 0) as [Hm0|Hm0]; [by apply (node_read_leaf m t a c s x lab lab)|].
  destruct t as [K p|K l r]; [by destruct Hrest as [? _]; cbn [tlabel] in Hm0; lia|]. by apply node_read_fork with x.
Qed.

(** A predicate on the state of the flow and the sum of the subtree, which the flow keeps *)
Definition guided {S} `{SearchByExtra A S} (P : S -> A -> Prop) : Prop :=
  (forall s a, P s a -> (on_leaf s a).1 = true) /\
  (forall s x y a, P s a -> combine x y = Some a ->
    match on_edge s x y with
    | (Some Left, s) => P s x
    | (Some Right, s) => P s y
    | (None, _) => False
    end).

(** The found entry of a trie, below the key [B] *)
Definition found_in (t : trie) (B : list bool) (found : CellDataBuilder * A * CellSlice) : Prop :=
  let '(key, x, s) := found in
  exists k (v : V) s', key = of_bits (B ++ k) /\ tget t k = Some (enc (x, v)) /\ enc_ok (x, v) /\ load_from s = Ok (v, s').

Definition search_result {S} `{SearchByExtra A S} (flow : S) (t : trie) (a : A) (B : list bool)
    (r : result (option (CellDataBuilder * A * CellSlice))) : Prop :=
  exists o, r = Ok o /\ (forall f, o = Some f -> found_in t B f) /\
    forall P, guided P -> P flow a -> exists f s, o = Some f /\ P s f.1.2.

Lemma search_child {S} `{SearchByExtra A S} (flow flow' : S) K l r x a B (b : bool) res :
  search_result flow' (if b then r else l) x (B ++ K ++ [b]) res ->
  (forall P, guided P -> P flow a -> P flow' x) ->
  search_result flow (TFork K l r) a B res.
Proof.
  intros (o & -> & Hf & HP) Hg. exists o. split; [done|]. split.
  - intros [[key y] s] ->. destruct (Hf _ eq_refl) as (k & v & s' & -> & Ht & Hv & Es). exists (K ++ b :: k), v, s'.
    rewrite tget_fork_child. split; [|done]. by rewrite <- !app_assoc.
  - intros P HG Hp. apply (HP P HG). by apply Hg.
Qed.

Lemma find_loop_spec {S} `{SearchByExtra A S} fuel m t a n (flow : S) B :
  node_read m t a n -> sum_of t a -> zlen (tlabel t) <= m -> m < Z.of_nat fuel -> zlen B + m <= 1023 ->
  search_result flow t a B (find_by_extra_loop fuel n (of_bits B) flow).
Proof.
  revert m t a n flow B. induction fuel as [|fuel IH]; intros m t a n flow B (Wp & Bp & Hx & Hn) Ha HK Hfuel HB.
  { pose proof (zlen_nonneg (tlabel t)). lia. }
  cbn [find_by_extra_loop]. pose proof (zlen_slice_bits _ Wp) as Hz. rewrite Bp in Hz.
  rewrite key_part_opt, Bp by (done || lia). cbn [rbind]. destruct t as [K p|K l r], n as [prefix x s|prefix m' x cl cr]; try done; cbn [tlabel next_extra] in *; subst x.
  - destruct Hn as (v & s' & -> & Hv & Es). destruct (on_leaf flow a) as [here flow'] eqn:El. eexists. split; [done|]. split.
    + intros f Hf. destruct here; [|done]. injection Hf as <-. exists K, v, s'. split; [done|]. split; [|done]. simpl. by rewrite bool_decide_true.
    + intros P HG Hp. pose proof (proj1 HG _ _ Hp) as Hl. rewrite El in Hl. cbn [fst] in Hl. subst here. by eexists _, flow.
  - destruct Hn as (-> & Hl & Hr). destruct Ha as (xl & xr & Hxl & Hxr & Ec).
    destruct (preload_branch_spec _ _ _ _ Hl Hxl) as (nl & -> & Rl). cbn [rbind]. destruct (preload_branch_spec _ _ _ _ Hr Hxr) as (nr & -> & Rr). cbn [rbind].
    pose proof Rl as (_ & _ & -> & _). pose proof Rr as (_ & _ & -> & _). destruct (on_edge flow xl xr) as [side flow'] eqn:Ee.
    pose proof (zlen_nonneg K). assert (forall b : bool, zlen (B ++ K ++ [b]) = zlen B + zlen K + 1) as HBK.
    { intros b. rewrite !zlen_app. change (zlen [b]) with 1. lia. }
    pose proof (rep_label_len _ _ _ _ _ _ _ Hl). pose proof (rep_label_len _ _ _ _ _ _ _ Hr). pose proof (zlen_nonneg (tlabel l)).
    assert (forall P, guided P -> P flow a -> match side with Some Left => P flow' xl | Some Right => P flow' xr | None => False end) as HG.
    { intros P [_ Hg] Hp. specialize (Hg _ _ _ _ Hp Ec). by rewrite Ee in Hg. }
    destruct side as [[]|]; cycle 2; [|rewrite key_bit_of_bits by (rewrite zlen_app; lia); cbn [rbind]; rewrite <- app_assoc..].
    + eexists. split; [done|]. split; [done|]. intros P HP Hp. destruct (HG P HP Hp).
    + apply (search_child flow flow' K l r xl a B false); [|exact HG]. by apply IH with (m - zlen K - 1); try (rewrite ?HBK; lia).
    + apply (search_child flow flow' K l r xr a B true); [|exact HG]. by apply IH with (m - zlen K - 1); try (rewrite ?HBK; lia).
Qed.

(** ** Insertion and removal *)

(** The root of a dictionary, and the map and the sum it stands for. *)
Definition root_rep (root : option Cell) (M : gmap (list bool) payload) (a : option A) : Prop :=
  match root with
  | None => M = ∅ /\ a = None
  | Some c => exists t x, rep N c t /\ (forall k, M !! k = tget t k) /\ sum_of t x /\ a = Some x
  end.

(** What a change to the map [M] comes to: its dictionary when its extras have a sum, an
    error when they do not. *)
Definition change_result {B : Type} (M : gmap (list bool) payload) (b : B) (r : result (B * option Cell)) : Prop :=
  (exists root a, r = Ok (b, root) /\ root_rep root M a) \/
  (exists t, trie_ok N t /\ (forall k, M !! k = tget t k) /\ ~ summed t) /\ exists e, r = Err e.

Lemma updated_map (M : gmap (list bool) payload) t k o t' :
  (forall k', M !! k' = tget t k') -> updated t k o t' -> forall k', partial_alter (fun _ => o) k M !! k' = tget t' k'.
Proof.
  intros HM Hu k'. rewrite Hu, <- HM. destruct (decide (k' = k)) as [->|Hne].
  - by rewrite bool_decide_true, lookup_partial_alter_eq.
  - by rewrite bool_decide_false, lookup_partial_alter_ne.
Qed.

Lemma change_of_outcome {B : Type} M (b : B) (mk : result Cell) (stack : list Segment) res t :
  (forall k, M !! k = tget t k) -> aug_outcome N t res ->
  (let! leaf := mk in rebuild_all (rebuild_aug_segment ctx comp_add) stack leaf) = res ->
  change_result M b (let! leaf := mk in let! root := rebuild_aug_dict_from_stack ctx comp_add stack leaf in Ok (b, Some root)).
Proof.
  intros HM Ho E.
  assert ((let! leaf := mk in let! root := rebuild_aug_dict_from_stack ctx comp_add stack leaf in Ok (b, Some root)) =
    (let! root := res in Ok (b, Some root))) as ->.
  { rewrite <- E. destruct mk as [leaf|]; [|done]. cbn [rbind].
    change (rebuild_all (rebuild_aug_segment ctx comp_add)) with (rebuild_aug_dict_from_stack ctx comp_add).
    by destruct (rebuild_aug_dict_from_stack ctx comp_add stack leaf). }
  destruct Ho as [((a & Ha) & c & -> & Hc)|([Hn Hok] & e & ->)]; cbn [rbind].
  - left. exists (Some c), (Some a). split; [done|]. by exists t, a.
  - right. split; [by exists t|]. by exists e.
Qed.

Context (key : CellSlice) (Hkey : slice_wf key) (Hkn : size_bits key = N).
Abbreviation k := (slice_bits key).

Lemma aug_insert_correct root M a (w : A * V) mode :
  root_rep root M a -> enc_ok w ->
  let r := aug_dict_insert ctx root key N (store_into w.1) (store_into w.2) mode comp_add in
  if match M !! k with Some _ => SetModes.can_replace mode | None => SetModes.can_add mode end
  then change_result (<[k := enc w]> M) true r else r = Ok (false, root).
Proof.
  intros Hroot Hw. unfold aug_dict_insert. rewrite Hkn, Z.eqb_refl. cbn [negb]. destruct root as [c|]; cbn [root_rep] in Hroot.
  - destruct Hroot as (t & x & Hr & HM & Hx & ->). destruct (rep_load _ _ _ _ _ _ _ Full Hr) as (_ & -> & _). cbn [rbind].
    destruct (aug_insert_loop N c t (S (Z.to_nat N)) key [] Hr ltac:(by eexists) Hkey Hkn ltac:(lia)) as (f & stack & -> & Hf). cbn [rbind].
    rewrite HM. destruct f as [s prefix k'|s prefix lcp k'].
    + destruct Hf as [(v0 & -> & _) Hs]. destruct (SetModes.can_replace mode); cbn [negb]; [|done].
      destruct (Hs w Hw) as (res & t' & Ho & Hu & E). apply (change_of_outcome _ true _ stack res t'); [by apply (updated_map M t) | done |].
      unfold aug_leaf in E. rewrite E. by destruct res.
    + destruct Hf as [-> Hs]. destruct (SetModes.can_add mode); cbn [negb]; [|done].
      destruct (Hs w Hw) as (res & t' & Ho & Hu & E). apply (change_of_outcome _ true _ stack res t'); [by apply (updated_map M t) | done |].
      unfold aug_split in E. rewrite E. by destruct res.
  - destruct Hroot as [-> ->]. rewrite lookup_empty. destruct (SetModes.can_add mode); [|done].
    destruct (aug_leaf_rep N key w Hkey ltac:(lia) Hkn Hw) as (c & E & Hc). unfold aug_leaf in E. rewrite E. cbn [rbind]. left.
    exists (Some c), (Some w.1). split; [done|]. exists (TLeaf k (enc w)), w.1. split; [done|].
    split; [|split; [exists w.2; by destruct w | done]]. intros k'. rewrite insert_empty. simpl.
    case_bool_decide; subst; [apply lookup_singleton_eq | by apply lookup_singleton_ne].
Qed.

Lemma aug_remove_correct root M a :
  root_rep root M a ->
  let r := aug_dict_remove_owned ctx root key N false comp_add in
  match M !! k with
  | Some p => exists q, owned_value (Some p) (Some q) /\ change_result (delete k M) (Some q) r
  | None => r = Ok (None, root)
  end.
Proof.
  intros Hroot. unfold aug_dict_remove_owned. rewrite Hkn, Z.eqb_refl. cbn [negb andb]. destruct root as [c|]; cbn [root_rep] in Hroot.
  - destruct Hroot as (t & x & Hr & HM & Hx & ->). unfold dict_find_value_to_remove.
    destruct (rep_load _ _ _ _ _ _ _ Full Hr) as (_ & -> & _). cbn [rbind]. rewrite Hkn.
    pose proof (aug_remove_loop N c t (S (Z.to_nat N)) key [] N Hr ltac:(by eexists) Hkey Hkn ltac:(lia)) as HL.
    unfold remove_result in HL. rewrite <- HM in HL. destruct (M !! k) as [p|] eqn:EM; [|by rewrite HL].
    destruct HL as (stack & rg & prev & key' & -> & [(-> & -> & -> & _ & Hv)|
      (last & st & leaf & val & res & t' & -> & E & Hv & Ho & Hu & Es)]); cbn [rbind].
    + exists (rg, c). split; [done|]. left. exists None, None. split; [done|]. split; [|done]. apply map_eq. intros k'. rewrite lookup_empty.
      destruct (decide (k' = k)) as [->|Hne]; [apply lookup_delete_eq|]. rewrite lookup_delete_ne by done. rewrite HM. simpl. by rewrite bool_decide_false.
    + exists (rg, val). split; [done|]. rewrite E. cbn [rbind].
      apply (change_of_outcome _ (Some (rg, val)) (Ok leaf) st res t'); [by apply (updated_map M t) | done |].
      cbn [rbind]. rewrite Es. by destruct res.
  - destruct Hroot as [-> ->]. by rewrite lookup_empty.
Qed.

(** ** The extra of the root *)
Lemma read_root_extra_correct {K} `{KB : DictKey K} root M a :
  KEY_BITS K = N -> root_rep root M a -> AugDict.read_root_extra (K := K) root = Ok (default extra_default a).
Proof.
  intros EN Hroot. unfold AugDict.read_root_extra. destruct root as [c|]; cbn [root_rep] in Hroot; [|by destruct Hroot as [_ ->]].
  destruct Hroot as (t & x & Hr & _ & Hx & ->). destruct (rep_load _ _ _ _ _ _ _ Full Hr) as (_ & _ & ->). cbn [rbind]. rewrite EN.
  destruct (rep_read ctx N Dv HN canon _ _ _ Hr) as (lab & s & x' & -> & Wl & Bl & Cs & Ws & Bs & Rs & Rc & Hrest). cbn [rbind].
  rewrite <- zlen_slice_bits, Bl by done. pose proof (rep_label_len _ _ _ _ _ _ _ Hr) as HK.
  destruct (rest_extra N t x' s x (N <=? zlen (tlabel t)) Hrest Hx) as (s' & E & W & l & rs & B & R);
    [split_and!; [done..|exact (rep_plain _ _ _ _ _ _ _ s Hr Cs)] | done |].
  assert ((if negb (zlen (tlabel t) =? N) then skip_first s 0 2 else Ok s) = Ok s') as ->.
  { rewrite <- E. destruct (Z.eqb_spec (zlen (tlabel t)) N), (Z.leb_spec N (zlen (tlabel t))); (done || lia). }
  cbn [rbind]. unfold load_value. by destruct (load_enc s' x l rs W (sum_ok _ _ Hx) B R) as (s2 & -> & _).
Qed.

(** ** The sum as the fold of the extras in key order *)

Fixpoint total (l : list A) : option A :=
  match l with
  | [] => None
  | a :: l => match l with [] => Some a | _ => total l ≫= combine a end
  end.

Lemma total_cons a l : l <> [] -> total (a :: l) = total l ≫= combine a.
Proof. by destruct l. Qed.

Lemma total_ok l a : Forall enc_ok l -> total l = Some a -> enc_ok a.
Proof.
  intros Hl. revert a. induction Hl as [|x l Hx Hl IH]; intros a; [done|]. destruct l as [|y l]; [by intros [= <-]|].
  rewrite total_cons by done. intros (z & Ez & Ea)%bind_Some. eapply combine_ok; [exact Hx | by apply IH | done].
Qed.

Lemma total_app xs ys : Forall enc_ok xs -> Forall enc_ok ys -> xs <> [] -> ys <> [] ->
  total (xs ++ ys) = total xs ≫= fun x => total ys ≫= combine x.
Proof.
  intros Hxs Hys Hne Hye. induction Hxs as [|a xs Ha Hxs IH]; [done|]. cbn [app].
  destruct (decide (xs = [])) as [->|Hn]; [by rewrite total_cons by done|].
  rewrite !total_cons by (done || by destruct xs). rewrite IH by done.
  destruct (total xs) as [x|] eqn:Ex; [|done]. cbn [mbind option_bind]. destruct (total ys) as [y|] eqn:Ey; cycle 1.
  { cbn [mbind option_bind]. by destruct (combine a x). }
  cbn [mbind option_bind]. symmetry. apply combine_assoc; [done | by apply (total_ok xs) | by apply (total_ok ys)].
Qed.

(** The payloads of the entries encode the values [ws]. *)
Definition encoded (ws : list (A * V)) (l : list payload) : Prop := Forall2 (fun w p => enc_ok w /\ p = enc w) ws l.

Lemma encoded_extras ws l : encoded ws l -> Forall enc_ok ws.*1.
Proof. induction 1 as [|w p ws l [[Hw _] _] _ IH]; [constructor|]. by constructor. Qed.

Lemma sum_total t ws a : encoded ws (entries false false t).*2 -> (sum_of t a <-> total ws.*1 = Some a).
Proof.
  revert ws a. induction t as [K p|K l IHl r IHr]; intros ws a Hws.
  - inversion Hws as [|w p' ws' l' [Hw ->] Hnil]; subst. inversion Hnil; subst. simpl. split.
    + intros (v & Hv & E). by pose proof (enc_inj w (a, v) Hw Hv E) as ->.
    + intros [= <-]. exists w.2. by destruct w.
  - assert ((entries false false (TFork K l r)).*2 = (entries false false l).*2 ++ (entries false false r).*2) as E.
    { simpl. unfold prepend_keys. by rewrite fmap_app, <- !list_fmap_compose. }
    rewrite E in Hws. apply Forall2_app_inv_r in Hws as (w1 & w2 & H1' & H2' & ->). rewrite fmap_app.
    assert (forall t ws, encoded ws (entries false false t).*2 -> ws.*1 <> []) as Hne.
    { intros t ws Hw. pose proof (entries_nonempty false false t). destruct (entries false false t); [done|]. by inversion Hw. }
    rewrite total_app by (by eapply encoded_extras || by eapply Hne). simpl. setoid_rewrite (IHl _ _ H1'). setoid_rewrite (IHr _ _ H2').
    rewrite bind_Some. setoid_rewrite bind_Some. naive_solver.
Qed.
End Sum.

(** ** Typed augmented dictionaries *)

Section Typed.
Context {mach : Machine} (sha256 : list Z -> HashBytes).
Abbreviation ctx := (empty_context sha256).
Context {K A V : Type} `{KeyLaws K} `{Codec A} `{Codec V} `{!AugDictExtra A} (Dv : Z).
Context {types : DictTypes ctx Dv K (A * V)} {aug : AugLaws ctx (KEY_BITS K) Dv A} (canon : bool).
Abbreviation N := (KEY_BITS K).
Abbreviation len_fits := (key_len_fits (DictTypes := types)).
Abbreviation depth_pos := (depth_nonneg (DictTypes := types)).
Abbreviation depth_max := (depth_fits (DictTypes := types)).
Abbreviation fits := (value_fits (DictTypes := types)).
Abbreviation tail := (aug_tail (A := A) (V := V) ctx N Dv).
Implicit Types (d : AugDict K A V) (F : gmap (list bool) (A * V)) (key : K).

(** The values of a map in the order of their keys, and the sum of their extras: the
    default for the empty map, and nothing when two of them cannot be combined *)
Definition key_le (x y : list bool * (A * V)) : Prop := bits_uint x.1 <= bits_uint y.1.
#[local] Instance key_le_dec x y : Decision (key_le x y) := Z_le_dec (bits_uint x.1) (bits_uint y.1).
#[local] Instance key_le_total : Total key_le.
Proof. intros x y. unfold key_le. lia. Qed.
#[local] Instance key_le_trans : Transitive key_le.
Proof. intros x y z. unfold key_le. lia. Qed.

Definition values_in_order F : list (A * V) := (merge_sort key_le (map_to_list F)).*2.
Definition root_sum F : option A :=
  match values_in_order F with
  | [] => Some extra_default
  | ws => total ctx N Dv ws.*1
  end.

Definition aug_rep d F : Prop :=
  map_Forall entry_typed F /\ exists a, root_rep (V := V) ctx N Dv canon (dict_root (aug_dict d)) (enc <$> F) a /\
    aug_extra d = default extra_default a.

Lemma aug_typed d F : aug_rep d F -> typed_rep (ftail := tail) sha256 Dv canon (aug_dict d) F.
Proof.
  intros [HF (a & Hr & _)]. split; [|done]. destruct (dict_root (aug_dict d)) as [c|]; cbn [root_rep dict_rep] in *; [|apply Hr].
  destruct Hr as (t & x & Hr & HM & _). by exists t.
Qed.

Lemma values_encoded F t : map_Forall entry_typed F -> trie_ok N t -> (forall k, (enc <$> F) !! k = tget t k) ->
  encoded (values_in_order F) (entries false false t).*2.
Proof.
  intros HF Ht HM. destruct (entries_of_map false false N t _ Ht HM) as [HS HP].
  set (l := merge_sort key_le (map_to_list F)).
  assert (l ≡ₚ map_to_list F) as Hl by apply merge_sort_Permutation.
  assert (entries false false t = (fun e => (e.1, enc e.2)) <$> l) as ->.
  { apply (StronglySorted_unique_strong (fun x y : entry => bits_uint x.1 <= bits_uint y.1)).
    - intros [k1 p1] [k2 p2] Hi1 Hi2 H12 H21. cbn [fst] in *. apply entries_elem in Hi1.
      assert (tget t k2 = Some p2) as Hi2'.
      { rewrite <- HM, lookup_fmap. apply list_elem_of_fmap in Hi2 as ([k v] & [= -> ->] & Hi). rewrite Hl in Hi.
        apply elem_of_map_to_list in Hi. by rewrite Hi. }
      assert (k1 = k2) as <-; [|congruence]. apply bits_uint_inj; [|lia].
      by rewrite (tget_ok_len _ _ _ _ Ht Hi1), (tget_ok_len _ _ _ _ Ht Hi2').
    - clear - HS. induction HS as [|e l0 _ IH Hf]; constructor; [done|]. eapply list.Forall_impl; [exact Hf|].
      intros x. unfold key_before. rewrite !key_value_false. lia.
    - pose proof (StronglySorted_merge_sort key_le (map_to_list F)) as Hs. fold l in Hs. clear - Hs.
      induction Hs as [|e l _ IH Hf]; csimpl; constructor; [done|]. apply list.Forall_fmap. exact Hf.
    - rewrite HP, Hl. rewrite map_to_list_fmap. apply fmap_Permutation. done. }
  unfold values_in_order. fold l. rewrite <- list_fmap_compose. unfold encoded. rewrite Forall2_fmap_l, Forall2_fmap_r. apply Forall_Forall2_diag.
  apply list.Forall_forall. intros [k v] Hi. rewrite Hl in Hi. apply elem_of_map_to_list in Hi. split; [by apply (HF _ _ Hi) | done].
Qed.
Lemma root_sum_total F t o : map_Forall entry_typed F -> trie_ok N t -> (forall k, (enc <$> F) !! k = tget t k) ->
  (forall a, o = Some a <-> sum_of ctx N Dv t a) -> root_sum F = o.
Proof.
  intros HF Ht HM Ho. pose proof (values_encoded F t HF Ht HM) as Hws. unfold root_sum.
  pose proof (entries_nonempty false false t) as Hne. pose proof (sum_total ctx N Dv key_fits len_fits depth_pos depth_max fits canon t) as Hs.
  destruct (values_in_order F) as [|w ws]; [by inversion Hws; destruct (entries false false t)|].
  apply option_eq. intros a. by rewrite <- (Hs _ a Hws), Ho.
Qed.

Lemma root_sum_rep root F a : map_Forall entry_typed F -> root_rep (V := V) ctx N Dv canon root (enc <$> F) a ->
  root_sum F = Some (default extra_default a).
Proof.
  intros HF. destruct root as [c|]; cbn [root_rep].
  - intros (t & x & Hr & HM & Hx & ->). eapply root_sum_total; [done | exact (rep_trie_ok _ _ _ _ _ _ _ Hr) | exact HM |].
    intros a. split; [by intros [= <-]|]. intros Ha. f_equal.
    exact (sum_unique ctx N Dv key_fits len_fits depth_pos depth_max fits canon t _ _ Hx Ha).
  - intros [->%fmap_empty_inv ->]. unfold root_sum, values_in_order. by rewrite map_to_list_empty.
Qed.

(** ** The operations *)

(** A change of the root and the extra read from it *)
Lemma applied_change {B} d F F' (b : B) r modified :
  aug_rep d F -> map_Forall entry_typed F' -> modified b = true ->
  change_result (V := V) ctx N Dv canon (enc <$> F') b r ->
  match root_sum F' with
  | Some _ => exists d', AugDict.applied d r modified = (Ok b, d') /\ aug_rep d' F'
  | None => exists e, AugDict.applied d r modified = (Err e, d)
  end.
Proof.
  intros Hd HF' Hb [(root & a & -> & Hroot)|[(t & Ht & HM & Hn) (e & ->)]].
  - rewrite (root_sum_rep _ _ _ HF' Hroot). unfold AugDict.applied. rewrite Hb. unfold AugDict.update_root_extra. cbn [aug_dict dict_root].
    rewrite (read_root_extra_correct ctx N Dv key_fits len_fits depth_pos depth_max fits canon root _ a eq_refl Hroot).
    cbn [rbind]. eexists. split; [done|]. split; [done|]. by exists a.
  - rewrite (root_sum_total F' t None HF' Ht HM); [by exists e|]. intros a. split; [done|]. intros Ha. destruct Hn. by exists a.
Qed.

(** What an insertion does to the map, unless the sum is lost *)
Lemma aug_insert_impl_spec d F key a v mode :
  aug_rep d F -> key_ok key -> enc_ok (a, v) ->
  let '(changed, F') := typed_update F mode (key_bits key) (a, v) in
  let r := AugDict.insert_impl d key a v mode ctx in
  if changed then
    match root_sum F' with
    | Some _ => exists d', r = (Ok true, d') /\ aug_rep d' F'
    | None => exists e, r = (Err e, d)
    end
  else r = (Ok false, d).
Proof.
  intros Hd Hk Hv. pose proof Hd as [HF (x & Hroot & _)]. unfold AugDict.insert_impl. destruct (typed_key key Hk) as (-> & W & B & S). cbn [rbind].
  change (as_data_slice (of_bits (key_bits key))) with (key_slice (key_bits key)).
  pose proof (aug_insert_correct ctx N Dv key_fits len_fits depth_pos depth_max fits canon _ W S _ _ x (a, v) mode Hroot Hv) as Hi.
  cbn zeta in Hi. rewrite B, lookup_fmap in Hi. cbn [fst snd] in Hi.
  rewrite <- (fmap_insert enc F (key_bits key) (a, v)) in Hi.
  pose proof (typed_insert F key (a, v) HF Hk Hv) as HF'. unfold typed_update.
  destruct (F !! key_bits key) as [w|], mode; cbn [fmap option_fmap option_map] in Hi; cbv beta iota zeta delta [SetModes.can_replace SetModes.can_add SetModes.to_u8] in Hi; cbn [Z.land Z.eqb negb] in Hi;
    first [ by apply applied_change with F | rewrite Hi; unfold AugDict.applied; by destruct d as [[]] ].
Qed.
Lemma aug_remove_spec d F key :
  aug_rep d F -> key_ok key ->
  match F !! key_bits key with
  | None => AugDict.remove sha256 d key = (Ok None, d)
  | Some w =>
      match root_sum (delete (key_bits key) F) with
      | Some _ => exists d', AugDict.remove sha256 d key = (Ok (Some w), d') /\ aug_rep d' (delete (key_bits key) F)
      | None => exists e, AugDict.remove sha256 d key = (Err e, d)
      end
  end.
Proof.
  intros Hd Hk. pose proof Hd as [HF (x & Hroot & _)]. unfold AugDict.remove, AugDict.remove_raw_ext, AugDict.remove_impl.
  destruct (typed_key key Hk) as (-> & W & B & S). cbn [rbind].
  change (as_data_slice (of_bits (key_bits key))) with (key_slice (key_bits key)).
  pose proof (aug_remove_correct ctx N Dv key_fits len_fits depth_pos depth_max fits canon _ W S _ _ x Hroot) as Hrm.
  cbv zeta in Hrm. rewrite B, lookup_fmap, <- fmap_delete in Hrm.
  destruct (F !! key_bits key) as [[a v]|] eqn:E; cbn [fmap option_fmap option_map] in Hrm.
  - destruct Hrm as ([rg c] & Hval & Hrm). pose proof (apply_value _ _ _ Hval) as Hap. destruct Hval as (Wv & Bv & _ & Rv & _).
    pose proof (applied_change (B := option CellSliceParts) d F _ (Some (rg, c)) _ is_some Hd (typed_delete F (key_bits key) HF) eq_refl Hrm) as Ha.
    destruct (root_sum (delete (key_bits key) F)) as [y|]; [|by destruct Ha as (e & ->); exists e].
    destruct Ha as (d' & -> & Hd'). exists d'. split; [|done]. cbn [rbind].
    rewrite Hap. cbn [rbind]. destruct (HF _ _ E) as [[Hao Hvo] _].
    destruct (load_enc _ a _ _ Wv Hao Bv Rv) as (s1 & -> & W1 & B1 & R1). cbn [rbind].
    unfold load_value. by destruct (load_enc s1 v [] [] W1 Hvo) as (s2 & -> & _); [rewrite app_nil_r..|].
  - rewrite Hrm. unfold AugDict.applied. cbn [is_some rbind]. by destruct d as [[]].
Qed.

Lemma aug_new_rep : aug_rep AugDict.new ∅.
Proof. split; [apply map_Forall_empty|]. exists None. split; [|done]. split; [apply fmap_empty | done]. Qed.

(** ** Sequences of calls *)

Inductive aug_op : Type :=
| AGet (key : K)
| AContains (key : K)
| ASet (key : K) (extra : A) (value : V)
| AReplace (key : K) (extra : A) (value : V)
| AAdd (key : K) (extra : A) (value : V)
| ARemove (key : K).

Inductive aug_reply : Type :=
| AValue (o : option (A * V))
| ABool (b : bool).

Definition run_aug_op d (op : aug_op) : result aug_reply * AugDict K A V :=
  match op with
  | AGet key => (let! o := AugDict.get sha256 d key in Ok (AValue o), d)
  | AContains key => (let! b := AugDict.contains_key sha256 d key in Ok (ABool b), d)
  | ASet key a v => let (r, d) := AugDict.set sha256 d key a v in (let! b := r in Ok (ABool b), d)
  | AReplace key a v => let (r, d) := AugDict.replace sha256 d key a v in (let! b := r in Ok (ABool b), d)
  | AAdd key a v => let (r, d) := AugDict.add sha256 d key a v in (let! b := r in Ok (ABool b), d)
  | ARemove key => let (r, d) := AugDict.remove sha256 d key in (let! o := r in Ok (AValue o), d)
  end.

Fixpoint run_aug d (ops : list aug_op) : list (result aug_reply) * AugDict K A V :=
  match ops with
  | [] => ([], d)
  | op :: ops => let '(r, d) := run_aug_op d op in let '(rs, d) := run_aug d ops in (r :: rs, d)
  end.

(** The same calls on a finite map; a change whose map has no sum is refused. *)
Definition commit F (reply : aug_reply) F' : option aug_reply * gmap (list bool) (A * V) :=
  match root_sum F' with Some _ => (Some reply, F') | None => (None, F) end.

Definition spec_insert_op F (mode : SetMode) key (w : A * V) : option aug_reply * gmap (list bool) (A * V) :=
  let (changed, F') := typed_update F mode (key_bits key) w in
  if changed then commit F (ABool true) F' else (Some (ABool false), F).

Definition spec_aug_op F (op : aug_op) : option aug_reply * gmap (list bool) (A * V) :=
  match op with
  | AGet key => (Some (AValue (F !! key_bits key)), F)
  | AContains key => (Some (ABool (is_some (F !! key_bits key))), F)
  | ASet key a v => spec_insert_op F SetSet key (a, v)
  | AReplace key a v => spec_insert_op F SetReplace key (a, v)
  | AAdd key a v => spec_insert_op F SetAdd key (a, v)
  | ARemove key =>
      match F !! key_bits key with
      | Some w => commit F (AValue (Some w)) (delete (key_bits key) F)
      | None => (Some (AValue None), F)
      end
  end.

Fixpoint spec_aug F (ops : list aug_op) : list (option aug_reply) * gmap (list bool) (A * V) :=
  match ops with
  | [] => ([], F)
  | op :: ops => let '(r, F) := spec_aug_op F op in let '(rs, F) := spec_aug F ops in (r :: rs, F)
  end.

Definition aug_op_ok (op : aug_op) : Prop :=
  match op with
  | AGet key | AContains key | ARemove key => key_ok key
  | ASet key a v | AReplace key a v | AAdd key a v => key_ok key /\ enc_ok (a, v)
  end.

(** The answer of the map, or an error where it refuses *)
Definition answers (r : result aug_reply) (o : option aug_reply) : Prop :=
  match o with Some x => r = Ok x | None => exists e, r = Err e end.

Lemma insert_op_spec d F key a v mode :
  aug_rep d F -> key_ok key -> enc_ok (a, v) ->
  exists r d', (let (r, d) := AugDict.insert_impl d key a v mode ctx in (let! b := r in Ok (ABool b), d)) = (r, d') /\
    answers r (spec_insert_op F mode key (a, v)).1 /\ aug_rep d' (spec_insert_op F mode key (a, v)).2.
Proof.
  intros Hd Hk Hv. pose proof (aug_insert_impl_spec d F key a v mode Hd Hk Hv) as Hi. unfold spec_insert_op.
  destruct (typed_update F mode (key_bits key) (a, v)) as [[] F']; [|by rewrite Hi; eexists _, _].
  unfold commit. destruct (root_sum F') as [x|]; [destruct Hi as (d' & -> & Hd') | destruct Hi as (e & ->)]; eexists _, _; split_and!; try done.
  by exists e.
Qed.

Lemma run_aug_op_spec d F op : aug_op_ok op -> aug_rep d F ->
  exists r d', run_aug_op d op = (r, d') /\ answers r (spec_aug_op F op).1 /\ aug_rep d' (spec_aug_op F op).2.
Proof.
  intros Hop Hd. pose proof (aug_typed d F Hd) as Ht. destruct op as [key|key|key a v|key a v|key a v|key]; cbn [run_aug_op spec_aug_op aug_op_ok] in *.
  - unfold AugDict.get. rewrite (get_spec (ftail := tail) sha256 Dv canon _ F key Ht Hop). by eexists _, d.
  - unfold AugDict.contains_key. rewrite (contains_key_spec (ftail := tail) sha256 Dv canon _ F key Ht Hop). by eexists _, d.
  - destruct Hop. by apply (insert_op_spec d F key a v SetSet).
  - destruct Hop. by apply (insert_op_spec d F key a v SetReplace).
  - destruct Hop. by apply (insert_op_spec d F key a v SetAdd).
  - pose proof (aug_remove_spec d F key Hd Hop) as Hr. destruct (F !! key_bits key) as [w|]; [|by rewrite Hr; eexists _, _].
    unfold commit. destruct (root_sum (delete (key_bits key) F)) as [x|]; [destruct Hr as (d' & -> & Hd') | destruct Hr as (e & ->)];
      eexists _, _; split_and!; try done. by exists e.
Qed.

Lemma run_aug_spec ops d F : Forall aug_op_ok ops -> aug_rep d F ->
  exists rs d', run_aug d ops = (rs, d') /\ Forall2 answers rs (spec_aug F ops).1 /\ aug_rep d' (spec_aug F ops).2.
Proof.
  intros HF. revert d F. induction HF as [|op ops Hop _ IH]; intros d F Hd; [by exists [], d|]. cbn [run_aug spec_aug].
  destruct (run_aug_op_spec d F op Hop Hd) as (r & d1 & -> & Ha & Hd1). destruct (spec_aug_op F op) as [o F1].
  destruct (IH d1 F1 Hd1) as (rs & d2 & -> & Has & Hd2). destruct (spec_aug F1 ops) as [os F2]. exists (r :: rs), d2.
  split; [done|]. split; [by constructor | done].
Qed.

(** ** The search by extra *)

Lemma aug_find_spec {S} `{SearchByExtra A S} d F (flow : S) :
  aug_rep d F ->
  exists o, AugDict.find_by_extra d flow = Ok o /\
    (forall key x v, o = Some (key, x, v) -> key_ok key /\ F !! key_bits key = Some (x, v)) /\
    (F <> ∅ -> forall P, guided (aug := aug) ctx N Dv P -> P flow (AugDict.root_extra d) ->
      exists key x v s, o = Some (key, x, v) /\ P s x).
Proof.
  intros [HF (a & Hroot & Ha)]. unfold AugDict.find_by_extra, aug_dict_find_by_extra, AugDict.root_extra. rewrite Ha.
  destruct (dict_root (aug_dict d)) as [c|]; cbn [root_rep] in Hroot; cycle 1.
  { destruct Hroot as [->%fmap_empty_inv _]. cbn [rbind]. exists None. by split_and!. }
  destruct Hroot as (t & x & Hr & HM & Hx & ->). cbn [default from_option id].
  destruct (preload_branch_spec ctx N Dv key_fits len_fits depth_pos depth_max fits canon _ _ _ _ Hr Hx) as (n & -> & Hn). cbn [rbind].
  pose proof (rep_label_len _ _ _ _ _ _ _ Hr) as HK. pose proof key_fits as Hkf. unfold MAX_BIT_LEN in Hkf.
  destruct (find_loop_spec ctx N Dv key_fits len_fits depth_pos depth_max fits canon (Datatypes.S (Z.to_nat N)) N t x n flow [] Hn Hx HK)
    as (o & E & Hf & HP); [lia | change (zlen []) with 0; lia|].
  rewrite data_new_of_bits, E. cbn [rbind]. destruct o as [[[key y] s]|]; cycle 1.
  { exists None. split; [done|]. split; [done|]. intros _ P HG Hp. by destruct (HP P HG Hp) as (f & s & ? & _). }
  destruct (Hf _ eq_refl) as (k & v & s' & -> & Ht & Hv & Es). cbn [app]. rewrite <- HM, lookup_fmap in Ht.
  destruct (F !! k) as [w|] eqn:EF; [|done]. destruct (HF _ _ EF) as (Hw & key & Hk & <-).
  assert (w = (y, v)) as ->.
  { apply (enc_inj ctx N Dv key_fits len_fits depth_pos depth_max fits canon); [done | done | by apply (inj Some) in Ht]. }
  rewrite load_key_spec by done. cbn [rbind]. unfold load_value. rewrite Es. cbn [rbind]. eexists. split; [done|]. split; [by intros ??? [= <- <- <-]|].
  intros _ P HG Hp. destruct (HP P HG Hp) as (f & s0 & [= <-] & Hs). by exists key, y, v, s0.
Qed.
End Typed.

(** ** The extras of the shard blocks *)

#[export] Instance Codec_KeyMaxLt : Codec KeyMaxLt.
Proof.
  refine (codec_via (fun x => (has_key_block x, max_end_lt x)) (fun p => mkKeyMaxLt p.1 p.2) _ _ _); [by intros [] | done |].
  intros s. unfold load_from at 1, Load_KeyMaxLt. unfold load_from at 3, Load_pair.
  destruct (load_from s) as [[b s1]|]; [|done]. cbn [rbind]. by destruct (load_from s1) as [[]|].
Defined.

Lemma zlen_KeyMaxLt (x : KeyMaxLt) : zlen (enc x).1 = 65.
Proof. simpl. rewrite zlen_cons, zlen_uint_bits by lia. done. Qed.

(** The flags are joined and the times have a maximum. *)
#[program] Definition KeyMaxLt_laws ctx {laws : ContextLaws ctx} N Dv
    (Hcap : 2 + len_bits N + N + 65 <= MAX_BIT_LEN) : AugLaws ctx N Dv KeyMaxLt := {|
  combine x y := Some (mkKeyMaxLt (has_key_block x || has_key_block y) (mkU 64 (Z.max (uval (max_end_lt x)) (uval (max_end_lt y)))))
|}.
Next Obligation. intros ctx laws N Dv Hcap x y z [_ Hx] [_ Hy] [= <-]. split; [done|]. cbn in *. lia. Qed.
Next Obligation.
  intros ctx laws N Dv Hcap x y z _ _ _. cbn [mbind option_bind has_key_block max_end_lt uval]. by rewrite orb_assoc, Z.max_assoc.
Qed.
Next Obligation.
  intros ctx laws N Dv Hcap ls rs b x y (Wl & l1 & r1 & Bl & Rl) (Wr & l2 & r2 & Br & Rr) Hx Hy Hb.
  unfold comp_add, AugDictExtra_KeyMaxLt, KeyMaxLt_comp_add.
  destruct (load_enc ls x _ _ Wl Hx Bl Rl) as (s1 & -> & _). cbn [rbind]. destruct (load_enc rs y _ _ Wr Hy Br Rr) as (s2 & -> & _). cbn [rbind].
  apply store_enc; [done|]. destruct Hx as [_ Hx], Hy as [_ Hy]. split; [done|]. cbn in *. lia.
Qed.
Next Obligation.
  intros ctx laws N Dv Hcap [f [v]] Hx. split_and!; [|done | constructor | constructor].
  by rewrite zlen_KeyMaxLt.
Qed.
Arguments aug_op : clear implicits.
Arguments aug_reply : clear implicits.

(** ** The claims *)

(** [C4] Every sequence of calls on an empty augmented dictionary, with valid keys and
    values, answers as a finite map of the extras and values by keys does, an error standing
    for a change after which the extras have no sum; and the extra of the root is at every
    time the sum of the extras in the order of the keys. *)
Theorem aug_ops_refine_map {mach : Machine} sha256 {K A V} `{KeyLaws K} `{Codec A} `{Codec V} `{!AugDictExtra A} Dv
    {types : DictTypes (empty_context sha256) Dv K (A * V)} {aug : AugLaws (empty_context sha256) (KEY_BITS K) Dv A} (ops : list (aug_op K A V)) :
  Forall aug_op_ok ops ->
  exists rs d, run_aug sha256 AugDict.new ops = (rs, d) /\ Forall2 answers rs (spec_aug sha256 Dv ∅ ops).1 /\
    aug_rep sha256 Dv true d (spec_aug sha256 Dv ∅ ops).2 /\ root_sum sha256 Dv (spec_aug sha256 Dv ∅ ops).2 = Some (AugDict.root_extra d).
Proof.
  intros Hops. destruct (run_aug_spec sha256 Dv true ops AugDict.new ∅ Hops (aug_new_rep sha256 Dv true)) as (rs & d & E & Ha & Hd).
  exists rs, d. split_and!; [done..|]. destruct Hd as [HF (a & Hroot & Hx)]. unfold AugDict.root_extra. rewrite Hx.
  exact (root_sum_rep sha256 Dv true _ _ a HF Hroot).
Qed.

(** [C6] A search by extra always ends, and finds nothing but an entry of the dictionary;
    it finds one, in a dictionary with entries, when the flow keeps a predicate on its state
    and the sum of the subtree it is in that holds at the root and is accepted at a leaf. *)
Theorem aug_find_by_extra {mach : Machine} sha256 {K A V S} `{KeyLaws K} `{Codec A} `{Codec V} `{!AugDictExtra A} `{SearchByExtra A S} Dv
    {types : DictTypes (empty_context sha256) Dv K (A * V)} {aug : AugLaws (empty_context sha256) (KEY_BITS K) Dv A}
    canon (d : AugDict K A V) F (flow : S) :
  aug_rep sha256 Dv canon d F ->
  exists o, AugDict.find_by_extra d flow = Ok o /\
    (forall key x v, o = Some (key, x, v) -> key_ok key /\ F !! key_bits key = Some (x, v)) /\
    (F <> ∅ -> forall P, guided (aug := aug) (empty_context sha256) (KEY_BITS K) Dv P -> P flow (AugDict.root_extra d) ->
      exists key x v s, o = Some (key, x, v) /\ P s x).
Proof. exact (aug_find_spec sha256 Dv canon d F flow). Qed.

(** ** The claims at concrete inputs *)

#[local] Existing Instance sample_machine.
#[local] Instance lt_laws : AugLaws sample_ctx 8 100 KeyMaxLt := KeyMaxLt_laws sample_ctx 8 100 ltac:(by vm_compute).
#[local] Instance lt_types : DictTypes sample_ctx 100 (uN 8) (KeyMaxLt * uN 8).
Proof.
  split; [by vm_compute | done | done |]. intros [x v] [_ Hv]. split_and!; [|done | constructor..].
  cbn [enc Codec_pair fst snd]. rewrite zlen_app, zlen_KeyMaxLt. simpl. by rewrite zlen_uint_bits by lia.
Qed.

Definition lt_extra (key_block : bool) (lt : Z) : KeyMaxLt := mkKeyMaxLt key_block (mkU 64 lt).
Definition lt_ops : list (aug_op (uN 8) KeyMaxLt (uN 8)) :=
  [ASet (mkU 8 5) (lt_extra false 10) (mkU 8 1); AAdd (mkU 8 5) (lt_extra true 11) (mkU 8 1); AReplace (mkU 8 7) (lt_extra true 12) (mkU 8 1);
   ASet (mkU 8 9) (lt_extra false 77) (mkU 8 2); ASet (mkU 8 200) (lt_extra true 3) (mkU 8 3); AGet (mkU 8 5); ARemove (mkU 8 9); AContains (mkU 8 9)].

Lemma lt_ops_ok : Forall aug_op_ok lt_ops.
Proof. repeat apply list.Forall_cons_2; try apply list.Forall_nil_2; cbn; repeat split; lia. Qed.

Lemma aug_ops_refine_map_witness :
  exists rs d, run_aug sample_sha AugDict.new lt_ops = (rs, d) /\
    Forall2 answers rs [Some (ABool true); Some (ABool false); Some (ABool false); Some (ABool true); Some (ABool true);
      Some (AValue (Some (lt_extra false 10, mkU 8 1))); Some (AValue (Some (lt_extra false 77, mkU 8 2))); Some (ABool false)] /\
    Some (lt_extra true 10) = Some (AugDict.root_extra d).
Proof.
  destruct (aug_ops_refine_map sample_sha 100 lt_ops lt_ops_ok) as (rs & d & E & Ha & _ & Hs). exists rs, d.
  split; [exact E|]. split; [exact Ha|]. exact Hs.
Defined.

Definition lt_dict : AugDict (uN 8) KeyMaxLt (uN 8) := (run_aug sample_sha AugDict.new lt_ops).2.
Definition lt_map : gmap (list bool) (KeyMaxLt * uN 8) := (spec_aug sample_sha 100 ∅ lt_ops).2.

Lemma lt_dict_rep : aug_rep sample_sha 100 true lt_dict lt_map.
Proof.
  destruct (run_aug_spec sample_sha 100 true lt_ops AugDict.new ∅ lt_ops_ok (aug_new_rep sample_sha 100 true)) as (rs & d & E & _ & Hd).
  unfold lt_dict. by rewrite E.
Qed.

(** The search for an entry with a given logical time *)
#[local] Instance Search_lt : SearchByExtra KeyMaxLt Z := {|
  on_leaf s x := (uval (max_end_lt x) =? s, s);
  on_edge s x y := (Some (if uval (max_end_lt x) =? s then Left else Right), s);
|}.
Definition lt_is_ten (s : Z) (x : KeyMaxLt) : Prop := s = 10 /\ uval (max_end_lt x) = 10.

Lemma lt_guided : guided (aug := lt_laws) sample_ctx 8 100 lt_is_ten.
Proof.
  split; [intros s x [-> E]; exact (proj2 (Z.eqb_eq _ _) E)|]. intros s x y a [-> Ha] E. injection E as <-. cbn [max_end_lt uval] in Ha.
  unfold on_edge, Search_lt. destruct (Z.eqb_spec (uval (max_end_lt x)) 10); split; lia.
Qed.

Lemma aug_find_by_extra_witness :
  exists key x v, AugDict.find_by_extra lt_dict 10 = Ok (Some (key, x, v)) /\ uval (max_end_lt x) = 10 /\ lt_map !! key_bits key = Some (x, v).
Proof.
  destruct (aug_find_by_extra sample_sha 100 true lt_dict lt_map 10 lt_dict_rep) as (o & E & Hf & HP).
  assert (lt_map !! key_bits (mkU 8 5) = Some (lt_extra false 10, mkU 8 1)) as H5 by (vm_compute; reflexivity).
  assert (lt_is_ten 10 (AugDict.root_extra lt_dict)) as Hten by (split; [reflexivity | vm_compute; reflexivity]).
  destruct (HP ltac:(intros E0; rewrite E0 in H5; discriminate H5) lt_is_ten lt_guided Hten) as (key & x & v & s & -> & _ & Hx).
  exists key, x, v. split; [exact E|]. split; [exact Hx|]. by apply (Hf key x v).
Defined.
