(* ===== verification/Currency.v ===== *)
(** * Currency: collections of currencies ([src/src/models/currency.rs])

    [ExtraCurrencyCollection] is a typed dictionary of 248-bit amounts by currency id, and
    [CurrencyCollection] the native tokens beside one.  The loops over the iterator of a
    dictionary have fuel, one unit per entry and one to see the end; they are [None] when
    it runs out. *)

From S2P Require Import Prelude Bits DataBuilder CellMeta Cell Slice SliceScan Builder Context DictLabel Dict DictKeys DictBuild DictFind DictIter Num VarUint248 DictTyped.

Abbreviation CurrencyId := (uN 32).

Record ExtraCurrencyCollection := mkExtra { extra_dict : DictTyped.Dict CurrencyId VarUint248 }.

(** [for entry in dict.iter() { let entry = ok!(entry); ... }] with the state [s] of the body *)
Fixpoint for_entries {K V S} `{LoadDictKey K} `{Load V} (body : S -> K * V -> result S) (fuel : nat) (it : Iter K V) (s : S) : option (result S) :=
  match fuel with
  | O => None
  | Datatypes.S fuel =>
      match Iter.next it with
      | (None, _) => Some (Ok s)
      | (Some (Err e), _) => Some (Err e)
      | (Some (Ok entry), it) =>
          match body s entry with
          | Ok s => for_entries body fuel it s
          | Err e => Some (Err e)
          end
      end
  end.

Module Extra.
Section Impl.
Context `{Machine} (sha256 : list Z -> HashBytes).
Implicit Types self other : ExtraCurrencyCollection.

Definition new : ExtraCurrencyCollection := mkExtra Dict.new.
Definition default : ExtraCurrencyCollection := new.
Definition from_raw (dict : option Cell) : ExtraCurrencyCollection := mkExtra (Dict.from_raw dict).
Definition is_empty self : bool := Dict.is_empty (extra_dict self).
Definition as_dict self := extra_dict self.
Definition into_dict self := extra_dict self.
Definition from_dict (value : DictTyped.Dict CurrencyId VarUint248) : ExtraCurrencyCollection := mkExtra value.
Definition eqb self other : bool := Dict.eqb (extra_dict self) (extra_dict other).

(** [sort] is [sort_unstable_by_key]: it may put entries with the same id in any order. *)
Definition try_from_iter (sort : list (CurrencyId * VarUint248) -> list (CurrencyId * VarUint248))
    (iter : list (CurrencyId * VarUint248)) : result ExtraCurrencyCollection :=
  let! dict := Dict.try_from_sorted_slice sha256 (sort iter) in Ok (mkExtra dict).
(** [TryFrom] of a [HashMap], whose iterator has its own order *)
Definition try_from_hash_map sort (value : list (CurrencyId * VarUint248)) : result ExtraCurrencyCollection := try_from_iter sort value.
Definition try_from_btree_map (value : list (CurrencyId * VarUint248)) : result ExtraCurrencyCollection :=
  let! dict := Dict.try_from_btree sha256 value in Ok (mkExtra dict).

(** [ok!(result.0.remove(currency_id))] and the like: a failure drops the result. *)
Definition keep {A} (r : result A * DictTyped.Dict CurrencyId VarUint248) : result ExtraCurrencyCollection :=
  let! _ := r.1 in Ok (mkExtra r.2).

Definition normalize_entry (result : ExtraCurrencyCollection) (entry : CurrencyId * VarUint248) : Prelude.result ExtraCurrencyCollection :=
  let (currency_id, other) := entry in
  if U248.is_zero other then keep (Dict.remove sha256 (extra_dict result) currency_id) else Ok result.
Definition normalized (fuel : nat) self : option (Prelude.result ExtraCurrencyCollection) :=
  for_entries normalize_entry fuel (Dict.iter (extra_dict self)) self.
Definition normalize (fuel : nat) self : option (Prelude.result unit * ExtraCurrencyCollection) :=
  match normalized fuel self with
  | Some (Ok result) => Some (Ok tt, result)
  | Some (Err e) => Some (Err e, self)
  | None => None
  end.

(** The bodies of the loops of [checked_add] and [checked_sub] differ in the operation. *)
Definition combine_entry (op : VarUint248 -> VarUint248 -> option VarUint248)
    (result : ExtraCurrencyCollection) (entry : CurrencyId * VarUint248) : Prelude.result ExtraCurrencyCollection :=
  let (currency_id, other) := entry in
  let! existing := Dict.get sha256 (as_dict result) currency_id in
  let existing := match existing with Some existing => existing | None => U248.ZERO end in
  match op existing other with
  | Some value =>
      if U248.is_zero value then keep (Dict.remove sha256 (extra_dict result) currency_id)
      else keep (Dict.set sha256 (extra_dict result) currency_id value)
  | None => Err IntOverflow
  end.
Definition checked_add (fuel : nat) self other : option (Prelude.result ExtraCurrencyCollection) :=
  for_entries (combine_entry U248.checked_add) fuel (Dict.iter (extra_dict other)) self.
Definition checked_sub (fuel : nat) self other : option (Prelude.result ExtraCurrencyCollection) :=
  for_entries (combine_entry U248.checked_sub) fuel (Dict.iter (extra_dict other)) self.

Definition clamp_entry other (result : ExtraCurrencyCollection) (entry : CurrencyId * VarUint248) : Prelude.result ExtraCurrencyCollection :=
  let (currency_id, balance) := entry in
  let! found := Dict.get sha256 (extra_dict other) currency_id in
  match found with
  | Some other_balance =>
      match U248.cmp balance other_balance with
      | Gt => keep (Dict.set sha256 (extra_dict result) currency_id other_balance)
      | _ => Ok result
      end
  | None =>
      if negb (U248.is_zero balance) then keep (Dict.remove_raw sha256 (extra_dict result) currency_id)
      else Ok result
  end.
Definition checked_clamp (fuel : nat) self other : option (Prelude.result ExtraCurrencyCollection) :=
  for_entries (clamp_entry other) fuel (Dict.iter (extra_dict self)) self.
End Impl.
End Extra.

#[global] Instance ExactSize_extra : ExactSize ExtraCurrencyCollection := fun self => exact_size (extra_dict self).
#[global] Instance Store_extra : Store ExtraCurrencyCollection := fun self ctx b => store_into (extra_dict self) ctx b.
#[global] Instance Load_extra : Load ExtraCurrencyCollection := fun s => let! (dict, s) := load_from s in Ok (mkExtra dict, s).

(** ** [CurrencyCollection] *)

Record CurrencyCollection := mkCurrency { tokens : Tokens; cc_other : ExtraCurrencyCollection }.

#[global] Instance ExactSize_currency : ExactSize CurrencyCollection := fun self =>
  Sizes.add (exact_size (tokens self)) (exact_size (cc_other self)).
#[global] Instance Store_currency : Store CurrencyCollection := fun self ctx b =>
  let! b := store_into (tokens self) ctx b in store_into (cc_other self) ctx b.
#[global] Instance Load_currency : Load CurrencyCollection := fun s =>
  let! (value, s) := load_from s in
  let! (extra, s) := load_from s in Ok (mkCurrency value extra, s).

Module Currency.
Section Impl.
Context `{Machine} (sha256 : list Z -> HashBytes).
Implicit Types self other : CurrencyCollection.

Definition ZERO : CurrencyCollection := mkCurrency Bounded.ZERO Extra.new.
Definition default : CurrencyCollection := ZERO.
Definition new (tokens : Z) : CurrencyCollection := mkCurrency (Bounded.new tokens) Extra.new.
Definition from_tokens (tokens : Tokens) : CurrencyCollection := mkCurrency tokens Extra.new.
Definition is_zero self : bool := Bounded.is_zero (tokens self) && Extra.is_empty (cc_other self).
Definition bit_len self : Z := Bounded.unwrap_bit_len (tokens self) + 1.

(** The tokens first: their overflow is reported before the other currencies are read. *)
Definition with_tokens (value : option Tokens) (extra : option (result ExtraCurrencyCollection)) : option (result CurrencyCollection) :=
  match value with
  | None => Some (Err IntOverflow)
  | Some value => match extra with
                  | Some extra => Some (let! extra := extra in Ok (mkCurrency value extra))
                  | None => None
                  end
  end.
Definition checked_add (fuel : nat) self other : option (result CurrencyCollection) :=
  with_tokens (Bounded.checked_add (tokens self) (tokens other)) (Extra.checked_add sha256 fuel (cc_other self) (cc_other other)).
Definition checked_sub (fuel : nat) self other : option (result CurrencyCollection) :=
  with_tokens (Bounded.checked_sub (tokens self) (tokens other)) (Extra.checked_sub sha256 fuel (cc_other self) (cc_other other)).

Definition set_tokens self (value : option Tokens) : result unit * CurrencyCollection :=
  match value with
  | Some value => (Ok tt, mkCurrency value (cc_other self))
  | None => (Err IntOverflow, self)
  end.
Definition try_add_assign_tokens self (other : Tokens) := set_tokens self (Bounded.checked_add (tokens self) other).
Definition try_sub_assign_tokens self (other : Tokens) := set_tokens self (Bounded.checked_sub (tokens self) other).

Definition assign self (value : option (result CurrencyCollection)) : option (result unit * CurrencyCollection) :=
  match value with
  | Some (Ok value) => Some (Ok tt, value)
  | Some (Err e) => Some (Err e, self)
  | None => None
  end.
Definition try_add_assign fuel self other := assign self (checked_add fuel self other).
Definition try_sub_assign fuel self other := assign self (checked_sub fuel self other).

Definition checked_clamp (fuel : nat) self other : option (result CurrencyCollection) :=
  match Extra.checked_clamp sha256 fuel (cc_other self) (cc_other other) with
  | Some clamped => Some (let! clamped := clamped in
      Ok (mkCurrency (match key_cmp (tokens self) (tokens other) with Gt => tokens other | _ => tokens self end) clamped))
  | None => None
  end.

(** [AugDictExtra::comp_add] *)
Definition comp_add (fuel : nat) (lft rgt : CellSlice) (b : CellBuilder) (cx : CellContext) : option (result CellBuilder) :=
  match load_from lft, load_from rgt with
  | Err e, _ => Some (Err e)
  | _, Err e => Some (Err e)
  | Ok (lft, _), Ok (rgt, _) =>
      match checked_add fuel lft rgt with
      | Some sum => Some (let! sum := sum in store_into sum cx b)
      | None => None
      end
  end.
End Impl.
End Currency.
