(* ===== verification/CurrencyTheorems.v ===== *)
(** * CurrencyTheorems: currency collections as maps of amounts

    A collection holds a finite map from the bits of the ids to amounts; the loops of
    [src/src/models/currency.rs] fold over the entries of a dictionary in key order, and
    change each key once, so that the result is given key by key.  The claims: addition and
    subtraction are those of the amounts, or fail with [IntOverflow]; what is added can be
    subtracted again, to the same cells; the clamp takes the lower amounts. *)

From stdpp Require Import gmap sorting.
From S2P Require Import Prelude Bits DataBuilder DataBuilderSpec CellMeta Cell Slice SliceSpec Builder BuilderSpec Context DictLabel DictLabelSpec Dict DictSpec DictTheorems DictKeys DictBuildSpec DictIter DictOrder DictFindSpec DictIterTheorems Num NumSpec VarUint248 VarUint248Spec DictTyped DictTypedSpec Currency.

(** ** A loop over the entries of a dictionary *)

Fixpoint fold_entries {S E} (body : S -> E -> result S) (s : S) (l : list E) : result S :=
  match l with
  | [] => Ok s
  | e :: l => let! s := body s e in fold_entries body s l
  end.

Lemma for_entries_spec {mach : Machine} sha256 {K V} `{KeyLaws K} `{Codec V} Dv {types : DictTypes (empty_context sha256) Dv K V} canon
    {S} (body : S -> K * V -> result S) (d : DictTyped.Dict K V) F fuel s :
  typed_rep sha256 Dv canon d F -> (size F < fuel)%nat ->
  exists L, typed_entries false false F L /\ for_entries body fuel (Dict.iter d) s = Some (fold_entries body s L).
Proof.
  intros Hd Hf. destruct (typed_start sha256 Dv canon false false d F Hd) as (c0 & L & HL & Hst). exists L. split; [done|].
  rewrite <- (typed_list_length _ _ _ _ HL) in Hf.
  assert (typed_state sha256 Dv canon false false c0 (it_inner (Dict.iter d)) L) as Hit by exact Hst.
  clear Hst HL Hd. revert s fuel Hf. generalize (Dict.iter d) Hit. clear Hit.
  induction L as [|e L IH]; intros it Hit s [|fuel] Hf; simpl in Hf; try lia; cbn [for_entries fold_entries];
    pose proof (iter_next_ok sha256 Dv canon false false c0 it _ Hit) as Hn; cbv beta iota in Hn.
  - destruct (Iter.next it) as [o it']. destruct Hn as [Hn _]. simpl in Hn. by subst o.
  - destruct Hn as (a & it' & -> & -> & Hit'). destruct (body s e) as [s'|]; [|done]. cbn [rbind]. apply IH; [done | lia].
Qed.

(** ** Amounts *)

Definition amount_ok (v : VarUint248) : Prop := u_ok v /\ u_val v < 2 ^ 248.

Lemma var_enc_range len x : 0 <= x < 2 ^ 248 -> 0 <= len <= 8 -> zlen (var_enc len x) <= len + 248.
Proof.
  intros Hx Hl. unfold var_enc. pose proof (bytes_needed_nonneg x ltac:(lia)).
  pose proof (proj2 (bytes_needed_spec x 31 ltac:(lia) ltac:(lia)) ltac:(lia)).
  rewrite zlen_app, !zlen_uint_bits by lia. lia.
Qed.

#[export] Instance currency_types sha256 : DictTypes (empty_context sha256) 0 CurrencyId VarUint248.
Proof.
  split; [by vm_compute | done | done |]. intros v [Hv Hfit]. pose proof (u_val_range v Hv).
  pose proof (var_enc_range 5 (u_val v) ltac:(lia) ltac:(lia)). split; [|split; [done|split; constructor]].
  cbn [enc Codec_VarUint248 fst]. change (KEY_BITS CurrencyId) with 32. change (len_bits 32) with 6. unfold MAX_BIT_LEN. lia.
Qed.

Section Amounts.
Context {mach : Machine} (sha256 : list Z -> HashBytes) (canon : bool).
Abbreviation ctx := (empty_context sha256).
Implicit Types (self other : ExtraCurrencyCollection) (F G : gmap (list bool) VarUint248).

(** The collection holds the amounts [F]. *)
Definition holds self F : Prop := typed_rep sha256 0 canon (extra_dict self) F.

(** The amount at a key, nothing counting as zero *)
Definition entry_amount (o : option VarUint248) : Z := match o with Some v => u_val v | None => 0 end.
Definition amount F (k : list bool) : Z := entry_amount (F !! k).

(** An amount as an entry: zero is not stored. *)
Definition nonzero (x : Z) : option VarUint248 := if x =? 0 then None else Some (of_val x).

Lemma is_zero_spec v : u_ok v -> U248.is_zero v = (u_val v =? 0).
Proof. intros [Hl Hh]. unfold U248.is_zero, u_val. zcases; cbn [andb]; try done; lia. Qed.

Lemma holds_amount self F k v : holds self F -> F !! k = Some v -> amount_ok v.
Proof. intros [_ HF] E. by destruct (HF _ _ E) as [? _]. Qed.

Lemma amount_range self F k : holds self F -> 0 <= amount F k < 2 ^ 248.
Proof.
  intros HF. unfold amount, entry_amount. destruct (F !! k) as [v|] eqn:E; [|lia]. destruct (holds_amount _ _ _ _ HF E) as [Hv ?].
  pose proof (u_val_range v Hv). lia.
Qed.

(** ** The bodies of the loops *)

Lemma remove_step self F key : holds self F -> key_ok key ->
  exists self', Extra.keep (Dict.remove sha256 (extra_dict self) key) = Ok self' /\ holds self' (delete (key_bits key) F).
Proof.
  intros HF Hk. destruct (remove_spec sha256 0 canon _ _ key HF Hk) as (d & E & Hd). unfold Extra.keep. rewrite E. by exists (mkExtra d).
Qed.

Lemma remove_raw_step self F key : holds self F -> key_ok key ->
  exists self', Extra.keep (Dict.remove_raw sha256 (extra_dict self) key) = Ok self' /\ holds self' (delete (key_bits key) F).
Proof.
  intros HF Hk. destruct (remove_raw_spec sha256 0 canon _ _ key HF Hk) as (p & d & E & Hd & _).
  unfold Extra.keep, Dict.remove_raw. rewrite E. by exists (mkExtra d).
Qed.

Lemma set_step self F key v : holds self F -> key_ok key -> amount_ok v ->
  exists self', Extra.keep (Dict.set sha256 (extra_dict self) key v) = Ok self' /\ holds self' (<[key_bits key := v]> F).
Proof.
  intros HF Hk Hv. destruct (insert_impl_spec sha256 0 canon _ _ key v SetSet HF Hk Hv) as (d & E & Hd).
  unfold Extra.keep, Dict.set, Dict.set_ext. rewrite E. exists (mkExtra d). split; [done|]. unfold typed_update in Hd. by destruct (F !! _).
Qed.

(** A change of the entry at one key *)
Definition put F (k : list bool) (o : option VarUint248) : gmap (list bool) VarUint248 := partial_alter (fun _ => o) k F.

Lemma put_lookup F k o k' : put F k o !! k' = if decide (k' = k) then o else F !! k'.
Proof. unfold put. destruct (decide (k' = k)) as [->|]; [apply lookup_partial_alter_eq | by apply lookup_partial_alter_ne]. Qed.

(** What the loops do at a key: the new entry, given that of [F] and that of the other map *)
Definition entry_step (body : ExtraCurrencyCollection -> CurrencyId * VarUint248 -> result ExtraCurrencyCollection)
    (next : option VarUint248 -> list bool -> VarUint248 -> option (option VarUint248)) : Prop :=
  forall self F key v, holds self F -> key_ok key -> amount_ok v ->
  match next (F !! key_bits key) (key_bits key) v with
  | Some o => exists self', body self (key, v) = Ok self' /\ holds self' (put F (key_bits key) o)
  | None => body self (key, v) = Err IntOverflow
  end.

Definition exact_entry (x : Z) : option (option VarUint248) := if (0 <=? x) && (x <? 2 ^ 248) then Some (nonzero x) else None.

Lemma combine_step op f :
  (forall a b, u_ok a -> u_ok b -> op a b = exact248 (f (u_val a) (u_val b))) ->
  entry_step (Extra.combine_entry sha256 op) (fun o _ y => exact_entry (f (entry_amount o) (u_val y))).
Proof.
  intros Hop self F key y HF Hk [Hy Hy']. unfold Extra.combine_entry, Extra.as_dict.
  rewrite (get_spec sha256 0 canon _ F key HF Hk). cbn [rbind].
  set (x := match F !! key_bits key with Some v => v | None => U248.ZERO end).
  assert (u_ok x /\ u_val x = amount F (key_bits key)) as [Hx Ex].
  { unfold x, amount, entry_amount. destruct (F !! key_bits key) as [v|] eqn:E; [|done]. split; [|done]. by destruct (holds_amount _ _ _ _ HF E). }
  fold (amount F (key_bits key)). rewrite <- Ex, Hop by done. unfold exact_entry, exact248. set (z := f (u_val x) (u_val y)).
  destruct (Z.leb_spec 0 z), (Z.ltb_spec z (2 ^ 248)); cbn [andb]; try done.
  destruct (of_val_ok z ltac:(lia)) as [Hz Ez]. rewrite is_zero_spec, Ez by done. unfold nonzero. destruct (Z.eqb_spec z 0).
  - by apply remove_step.
  - apply set_step; [done..|]. split; [done | by rewrite Ez].
Qed.

Lemma normalize_step : entry_step (Extra.normalize_entry sha256) (fun o _ y => Some (if u_val y =? 0 then None else o)).
Proof.
  intros self F key y HF Hk [Hy _]. unfold Extra.normalize_entry. rewrite is_zero_spec by done. destruct (Z.eqb_spec (u_val y) 0).
  - by apply remove_step.
  - exists self. split; [done|]. unfold put. by rewrite partial_alter_self.
Qed.

Lemma clamp_step other G : holds other G ->
  entry_step (Extra.clamp_entry sha256 other) (fun o k x => Some (match G !! k with
    | Some y => if u_val y <? u_val x then Some y else o
    | None => if u_val x =? 0 then o else None
    end)).
Proof.
  intros HG self F key x HF Hk [Hx _]. unfold Extra.clamp_entry. rewrite (get_spec sha256 0 canon _ G key HG Hk). cbn [rbind].
  assert (forall o, F !! key_bits key = o -> put F (key_bits key) o = F) as Hsame by (intros o <-; apply partial_alter_self).
  destruct (G !! key_bits key) as [y|] eqn:E.
  - pose proof (holds_amount _ _ _ _ HG E) as [Hy Hy']. rewrite cmp_spec by done.
    destruct (Z.compare_spec (u_val x) (u_val y)), (Z.ltb_spec (u_val y) (u_val x)); try lia.
    + exists self. by rewrite Hsame.
    + exists self. by rewrite Hsame.
    + by apply set_step.
  - rewrite is_zero_spec by done. destruct (Z.eqb_spec (u_val x) 0); cbn [negb].
    + exists self. by rewrite Hsame.
    + by apply remove_raw_step.
Qed.

(** ** The loops *)

Lemma fold_spec body next (L : list (CurrencyId * VarUint248)) self F :
  entry_step body next -> holds self F -> Forall (fun e => key_ok e.1 /\ amount_ok e.2) L -> NoDup (key_bits <$> L.*1) ->
  (exists self' F', fold_entries body self L = Ok self' /\ holds self' F' /\
    (forall e, e ∈ L -> next (F !! key_bits e.1) (key_bits e.1) e.2 = Some (F' !! key_bits e.1)) /\
    forall k, k ∉ key_bits <$> L.*1 -> F' !! k = F !! k) \/
  (fold_entries body self L = Err IntOverflow /\ exists e, e ∈ L /\ next (F !! key_bits e.1) (key_bits e.1) e.2 = None).
Proof.
  intros Hb. revert self F. induction L as [|[key v] L IH]; intros self F HF HL Hnd.
  { left. exists self, F. split; [done|]. split; [done|]. by split; [intros e ?%elem_of_nil|]. }
  apply list.Forall_cons in HL as [[Hk Hv] HL]. change (NoDup (key_bits key :: (key_bits <$> L.*1))) in Hnd.
  apply list.NoDup_cons in Hnd as [Hnew Hnd]. cbn [fold_entries].
  pose proof (Hb self F key v HF Hk Hv) as Hs. destruct (next (F !! key_bits key) (key_bits key) v) as [o|] eqn:En; cycle 1.
  { right. split; [by rewrite Hs|]. exists (key, v). split; [by left | done]. }
  destruct Hs as (self1 & -> & H1). cbn [rbind].
  assert (forall e, e ∈ L -> put F (key_bits key) o !! key_bits e.1 = F !! key_bits e.1) as Hother.
  { intros e He. rewrite put_lookup. rewrite decide_False; [done|]. intros E. destruct Hnew. rewrite <- E.
    apply list_elem_of_fmap. exists e.1. split; [done|]. apply list_elem_of_fmap. by exists e. }
  destruct (IH self1 _ H1 HL Hnd) as [(self' & F' & E & HF' & Hin & Hout)|[E (e & He & Hn)]].
  - left. exists self', F'. split; [done|]. split; [done|]. split.
    + intros e [->|He]%list.elem_of_cons; [|by rewrite <- (Hother e He), Hin]. cbn [fst snd].
      rewrite En, Hout, put_lookup, decide_True by done. done.
    + intros k Hk'. rewrite Hout by (intros ?; destruct Hk'; by right). rewrite put_lookup, decide_False; [done|].
      intros ->. destruct Hk'. by left.
  - right. split; [done|]. exists e. split; [by right|]. by rewrite <- (Hother e He).
Qed.

(** The loop over the entries of [G] that starts with [self]: each key of [G] is changed
    by [next], or one of them overflows. *)
Lemma loop_spec body next self F (d : DictTyped.Dict CurrencyId VarUint248) G fuel :
  entry_step body next -> holds self F -> typed_rep sha256 0 canon d G -> (size G < fuel)%nat ->
  (exists self' F', for_entries body fuel (Dict.iter d) self = Some (Ok self') /\ holds self' F' /\
    forall k, match G !! k with Some y => next (F !! k) k y = Some (F' !! k) | None => F' !! k = F !! k end) \/
  (for_entries body fuel (Dict.iter d) self = Some (Err IntOverflow) /\ exists k y, G !! k = Some y /\ next (F !! k) k y = None).
Proof.
  intros Hb HF HG Hf. destruct (for_entries_spec sha256 0 canon body d G fuel self HG Hf) as (L & (HLk & HLs & HLp) & ->).
  assert (forall k y, G !! k = Some y <-> exists e, e ∈ L /\ k = key_bits e.1 /\ y = e.2) as Hmem.
  { intros k y. rewrite <- elem_of_map_to_list, <- HLp, list_elem_of_fmap. split.
    - intros (e & [= -> ->] & He). by exists e.
    - intros (e & He & -> & ->). by exists e. }
  destruct (fold_spec body next L self F Hb HF) as [(self' & F' & E & HF' & Hin & Hout)|[E (e & He & Hn)]].
  - apply list.Forall_forall. intros e He. split; [by rewrite list.Forall_forall in HLk; apply HLk|].
    destruct HG as [_ HG]. apply (HG (key_bits e.1)). apply Hmem. by exists e.
  - rewrite <- list_fmap_compose. assert (NoDup ((fun e : CurrencyId * VarUint248 => (key_bits e.1, e.2)) <$> L).*1) as Hnd by (rewrite HLp; apply NoDup_fst_map_to_list).
    by rewrite <- list_fmap_compose in Hnd.
  - left. exists self', F'. split; [by rewrite E|]. split; [done|]. intros k. destruct (G !! k) as [y|] eqn:EG.
    + apply Hmem in EG as (e & He & -> & ->). by apply Hin.
    + apply Hout. intros (x & -> & (e & -> & He)%list_elem_of_fmap)%list_elem_of_fmap.
      assert (G !! key_bits e.1 = Some e.2) as E2 by (apply Hmem; by exists e). by rewrite E2 in EG.
  - right. split; [by rewrite E|]. exists (key_bits e.1), e.2. split; [|done]. apply Hmem. by exists e.
Qed.
End Amounts.

(** * Arithmetic of currency collections

    The claims about [src/src/models/currency.rs]: addition and subtraction are those of
    the amounts, currency by currency, or fail with [IntOverflow]; what is added can be
    subtracted again, to the same cells; the clamp takes the lower amounts. *)

(** ** Codecs *)

#[export] Instance Codec_extra : Codec ExtraCurrencyCollection.
Proof. refine (codec_via extra_dict mkExtra _ _ _); [by intros [] | done |].
  intros s. unfold load_from at 1, Load_extra. by destruct (load_from s) as [[]|]. Defined.

#[export] Instance Codec_currency : Codec CurrencyCollection.
Proof. refine (codec_via (fun c => (tokens c, cc_other c)) (fun p => mkCurrency p.1 p.2) _ _ _); [by intros [] | done |].
  intros s. unfold load_from at 1 2, Load_currency, Load_pair. destruct (load_from s) as [[v s']|]; [|done].
  cbn [rbind]. by destruct (load_from s') as [[]|]. Defined.

Section Theorems.
Context {mach : Machine} (sha256 : list Z -> HashBytes) (canon : bool).
Implicit Types (F G H : gmap (list bool) VarUint248).

(** The collection has [t] native tokens and the amounts [F]. *)
Definition collection (self : CurrencyCollection) (t : Z) F : Prop :=
  0 <= t < 2 ^ 120 /\ tokens self = mkBounded 128 120 t /\ holds sha256 canon (cc_other self) F.

(** [H] has the entries of [F] whose keys are not in [G], and behind the keys of [G] what
    [f] makes of both amounts, where it is not zero. *)
Definition combined (f : Z -> Z -> Z) F G H : Prop :=
  forall k, H !! k = match G !! k with Some y => nonzero (f (amount F k) (u_val y)) | None => F !! k end.

Lemma nonzero_amount x : 0 <= x < 2 ^ 248 -> entry_amount (nonzero x) = x.
Proof. intros Hx. unfold nonzero. destruct (Z.eqb_spec x 0); [done|]. by destruct (of_val_ok x ltac:(lia)). Qed.

Lemma combined_amount f F G H k : combined f F G H -> (forall x, f x 0 = x) -> 0 <= f (amount F k) (amount G k) < 2 ^ 248 ->
  amount H k = f (amount F k) (amount G k).
Proof.
  intros Hc Hf Hr. unfold amount at 1. rewrite (Hc k). assert (amount G k = entry_amount (G !! k)) as EG by done.
  destruct (G !! k) as [y|]; cbn [entry_amount] in EG; rewrite EG in *; [by apply nonzero_amount | by rewrite Hf].
Qed.

(** One theorem for both loops *)
Lemma extra_combine op f self other F G fuel :
  (forall a b, u_ok a -> u_ok b -> op a b = exact248 (f (u_val a) (u_val b))) -> (forall x, f x 0 = x) ->
  holds sha256 canon self F -> holds sha256 canon other G -> (size G < fuel)%nat ->
  ((forall k, 0 <= f (amount F k) (amount G k) < 2 ^ 248) ->
    exists self' H, for_entries (Extra.combine_entry sha256 op) fuel (Dict.iter (extra_dict other)) self = Some (Ok self') /\
      holds sha256 canon self' H /\ combined f F G H) /\
  ((exists k, ~ 0 <= f (amount F k) (amount G k) < 2 ^ 248) ->
    for_entries (Extra.combine_entry sha256 op) fuel (Dict.iter (extra_dict other)) self = Some (Err IntOverflow)).
Proof.
  intros Hop Hf HF HG Hfuel.
  assert (forall k y, G !! k = Some y -> exact_entry (f (amount F k) (u_val y)) =
    if decide (0 <= f (amount F k) (amount G k) < 2 ^ 248) then Some (nonzero (f (amount F k) (u_val y))) else None) as Hex.
  { intros k y E. assert (amount G k = u_val y) as -> by (unfold amount; by rewrite E). unfold exact_entry.
    destruct (Z.leb_spec 0 (f (amount F k) (u_val y))), (Z.ltb_spec (f (amount F k) (u_val y)) (2 ^ 248)), (decide _); (done || lia). }
  destruct (loop_spec sha256 canon _ _ self F (extra_dict other) G fuel (combine_step sha256 canon op f Hop) HF HG Hfuel)
    as [(self' & H & E & HH & Hk)|(E & k & y & EG & En)]; cbv beta in *.
  - split.
    + intros Hall. exists self', H. split; [done|]. split; [done|]. intros k. specialize (Hk k). destruct (G !! k) as [y|] eqn:EG; [|done].
      fold (amount F k) in Hk. rewrite (Hex k y EG), decide_True in Hk by done. by injection Hk.
    + intros (k & Hno). destruct Hno. specialize (Hk k). destruct (G !! k) as [y|] eqn:EG.
      * fold (amount F k) in Hk. rewrite (Hex k y EG) in Hk. by destruct (decide _).
      * assert (amount G k = 0) as -> by (unfold amount; by rewrite EG). rewrite Hf. by eapply amount_range.
  - fold (amount F k) in En. rewrite (Hex k y EG) in En. destruct (decide _) as [|Hno]; [done|].
    split; [intros Hall; by destruct Hno | by intros _].
Qed.

(** The native tokens beside the other currencies *)
Lemma with_tokens_spec (t : Z) (extra : option (result ExtraCurrencyCollection)) r :
  (0 <= t < 2 ^ 120 -> extra = Some r) ->
  Currency.with_tokens (exact t) extra =
    Some (if decide (0 <= t < 2 ^ 120) then let! self := r in Ok (mkCurrency (mkBounded 128 120 t) self) else Err IntOverflow).
Proof.
  intros He. unfold exact. destruct (Z.leb_spec 0 t), (Z.ltb_spec t (2 ^ 120)), (decide _); cbn [andb]; try done; try lia.
  by rewrite (He ltac:(lia)).
Qed.

Definition fits (f : Z -> Z -> Z) (ta tb : Z) F G : Prop :=
  0 <= f ta tb < 2 ^ 120 /\ forall k, 0 <= f (amount F k) (amount G k) < 2 ^ 248.

Lemma collection_combine op f a b ta tb F G fuel (sum : option Tokens) :
  (forall x y, u_ok x -> u_ok y -> op x y = exact248 (f (u_val x) (u_val y))) -> (forall x, f x 0 = x) ->
  sum = exact (f ta tb) ->
  collection a ta F -> collection b tb G -> (size G < fuel)%nat ->
  let r := Currency.with_tokens sum (for_entries (Extra.combine_entry sha256 op) fuel (Dict.iter (extra_dict (cc_other b))) (cc_other a)) in
  (fits f ta tb F G -> exists c H, r = Some (Ok c) /\ collection c (f ta tb) H /\ combined f F G H /\
    forall k, amount H k = f (amount F k) (amount G k)) /\
  (~ 0 <= f ta tb < 2 ^ 120 \/ (exists k, ~ 0 <= f (amount F k) (amount G k) < 2 ^ 248) -> r = Some (Err IntOverflow)).
Proof.
  intros Hop Hf -> (_ & _ & HF) (_ & _ & HG) Hfuel r.
  destruct (extra_combine op f _ _ F G fuel Hop Hf HF HG Hfuel) as [Hok Herr]. split.
  - intros [Ht Hall]. destruct (Hok Hall) as (self & H & E & HH & Hc). unfold r. rewrite (with_tokens_spec _ _ (Ok self)) by done.
    rewrite decide_True by done. exists (mkCurrency (mkBounded 128 120 (f ta tb)) self), H. split; [done|]. split; [done|]. split; [done|].
    intros k. by apply combined_amount.
  - intros Hno. unfold r. destruct (decide (0 <= f ta tb < 2 ^ 120)) as [Ht|Ht].
    + destruct Hno as [?|Hno]; [done|]. rewrite (with_tokens_spec _ _ (Err IntOverflow)) by (intros; by apply Herr). by destruct (decide _).
    + unfold exact. destruct (Z.leb_spec 0 (f ta tb)), (Z.ltb_spec (f ta tb) (2 ^ 120)); cbn [andb]; (done || lia).
Qed.

Lemma tokens_ok c t F : collection c t F -> num_ok (tokens c) /\ raw (tokens c) = t.
Proof. intros (Ht & -> & _). done. Qed.

Lemma checked_add_collection a b ta tb F G fuel : collection a ta F -> collection b tb G -> (size G < fuel)%nat ->
  (fits Z.add ta tb F G -> exists c H, Currency.checked_add sha256 fuel a b = Some (Ok c) /\ collection c (ta + tb) H /\ combined Z.add F G H /\
    forall k, amount H k = amount F k + amount G k) /\
  (~ 0 <= ta + tb < 2 ^ 120 \/ (exists k, ~ 0 <= amount F k + amount G k < 2 ^ 248) ->
    Currency.checked_add sha256 fuel a b = Some (Err IntOverflow)).
Proof.
  intros Ha Hb. destruct (tokens_ok _ _ _ Ha) as [Oa Ea], (tokens_ok _ _ _ Hb) as [Ob Eb].
  apply (collection_combine U248.checked_add Z.add a b ta tb F G fuel); [apply checked_add_spec | lia | | done | done].
  rewrite <- Ea, <- Eb. by apply checked_add_exact.
Qed.

Lemma checked_sub_collection a b ta tb F G fuel : collection a ta F -> collection b tb G -> (size G < fuel)%nat ->
  (fits Z.sub ta tb F G -> exists c H, Currency.checked_sub sha256 fuel a b = Some (Ok c) /\ collection c (ta - tb) H /\ combined Z.sub F G H /\
    forall k, amount H k = amount F k - amount G k) /\
  (~ 0 <= ta - tb < 2 ^ 120 \/ (exists k, ~ 0 <= amount F k - amount G k < 2 ^ 248) ->
    Currency.checked_sub sha256 fuel a b = Some (Err IntOverflow)).
Proof.
  intros Ha Hb. destruct (tokens_ok _ _ _ Ha) as [Oa Ea], (tokens_ok _ _ _ Hb) as [Ob Eb].
  apply (collection_combine U248.checked_sub Z.sub a b ta tb F G fuel); [apply checked_sub_spec | lia | | done | done].
  rewrite <- Ea, <- Eb. by apply checked_sub_exact.
Qed.

(** The entries of a collection without zeros *)
Definition normal F : Prop := map_Forall (fun _ v => u_val v <> 0) F.
Definition without_zeros F : gmap (list bool) VarUint248 := filter (fun kv => u_val kv.2 <> 0) F.

Lemma normalized_spec self F fuel : holds sha256 canon self F -> (size F < fuel)%nat ->
  exists self', Extra.normalized sha256 fuel self = Some (Ok self') /\ holds sha256 canon self' (without_zeros F).
Proof.
  intros HF Hf. unfold Extra.normalized.
  destruct (loop_spec sha256 canon _ _ self F (extra_dict self) F fuel (normalize_step sha256 canon) HF HF Hf) as [(self' & H & E & HH & Hk)|(_ & k & y & _ & En)]; [|done].
  exists self'. split; [done|]. assert (H = without_zeros F) as <-; [|done]. apply map_eq. intros k. specialize (Hk k). unfold without_zeros.
  apply option_eq. intros v. rewrite map_lookup_filter_Some. cbn [snd]. destruct (F !! k) as [y|] eqn:EF; [|rewrite Hk; naive_solver].
  injection Hk as <-. destruct (Z.eqb_spec (u_val y) 0); naive_solver.
Qed.

Lemma clamp_spec a b ta tb F G fuel : collection a ta F -> collection b tb G -> (size F < fuel)%nat ->
  exists c H, Currency.checked_clamp sha256 fuel a b = Some (Ok c) /\ collection c (Z.min ta tb) H /\
    forall k, amount H k = Z.min (amount F k) (amount G k).
Proof.
  intros (Ha & Ea & HF) (Hb & Eb & HG) Hf. unfold Currency.checked_clamp, Extra.checked_clamp.
  destruct (loop_spec sha256 canon _ _ (cc_other a) F (extra_dict (cc_other a)) F fuel (clamp_step sha256 canon (cc_other b) G HG) HF HF Hf)
    as [(self' & H & -> & HH & Hk)|(_ & k & y & _ & En)]; [|done].
  eexists _, H. split; [reflexivity|]. split.
  - split; [lia|]. split; [|exact HH]. cbn [tokens]. rewrite Ea, Eb. unfold key_cmp, KeyOrd_bounded. cbn [raw].
    destruct (Z.compare_spec ta tb); f_equal; lia.
  - intros k. specialize (Hk k). pose proof (amount_range _ _ _ F k HF) as Rf. pose proof (amount_range _ _ _ G k HG) as Rg.
    unfold amount in *. destruct (F !! k) as [x|]; [|rewrite Hk; cbn [entry_amount] in *; lia]. injection Hk as <-.
    destruct (G !! k) as [y|]; cbn [entry_amount] in *.
    + destruct (Z.ltb_spec (u_val y) (u_val x)); cbn [entry_amount]; lia.
    + destruct (Z.eqb_spec (u_val x) 0); cbn [entry_amount]; lia.
Qed.

(** [comp_add] on two stored collections stores their sum. *)
Lemma comp_add_spec a b ta tb F G fuel lft rgt builder cx l rs l' rs' :
  collection a ta F -> collection b tb G -> (size G < fuel)%nat -> fits Z.add ta tb F G ->
  slice_wf lft -> slice_bits lft = (enc a).1 ++ l -> slice_references_cloned lft = (enc a).2 ++ rs ->
  slice_wf rgt -> slice_bits rgt = (enc b).1 ++ l' -> slice_references_cloned rgt = (enc b).2 ++ rs' ->
  builder_wf builder ->
  exists c H, collection c (ta + tb) H /\ combined Z.add F G H /\
    Currency.comp_add sha256 fuel lft rgt builder cx = Some (append_full builder (enc c)).
Proof.
  intros Ha Hb Hf Hfits Wl Bl Rl Wr Br Rr Wb.
  assert (forall x t M, collection x t M -> enc_ok x) as Hok.
  { intros x t M (Ht & E & _). split; [cbn; by rewrite E | cbn; by destruct (dict_root _)]. }
  destruct (load_enc lft a l rs Wl (Hok _ _ _ Ha) Bl Rl) as (s1 & E1 & _). destruct (load_enc rgt b l' rs' Wr (Hok _ _ _ Hb) Br Rr) as (s2 & E2 & _).
  destruct (checked_add_collection a b ta tb F G fuel Ha Hb Hf) as [Hadd _]. destruct (Hadd Hfits) as (c & H & E & Hc & Hcomb & _).
  exists c, H. split; [done|]. split; [done|]. unfold Currency.comp_add. rewrite E1, E2, E. cbn [rbind]. f_equal. apply store_enc; [done|].
  by eapply Hok.
Qed.
End Theorems.

(** A canonical collection is given by its amounts. *)
Lemma collection_unique {mach : Machine} sha256 a b t F : collection sha256 true a t F -> collection sha256 true b t F -> a = b.
Proof.
  intros (_ & Ea & [Ra _]) (_ & Eb & [Rb _]). destruct a as [ta [[ra]]], b as [tb [[rb]]]. cbn [tokens cc_other extra_dict dict_root] in *.
  subst. do 3 f_equal. exact (dict_rep_unique _ _ _ _ _ _ Ra Rb).
Qed.

Lemma nonzero_entry {mach : Machine} sha256 canon self F k :
  holds sha256 canon self F -> normal F -> nonzero (amount F k) = F !! k.
Proof.
  intros HF Hn. unfold nonzero, amount. destruct (F !! k) as [v|] eqn:E; [|done]. cbn [entry_amount].
  destruct (holds_amount _ _ _ _ _ _ HF E) as [Hv _]. specialize (Hn k v E). cbv beta in Hn.
  destruct (Z.eqb_spec (u_val v) 0); [done|]. by rewrite of_val_val.
Qed.

Lemma add_sub_collection {mach : Machine} sha256 a b ta tb F G fuel :
  collection sha256 true a ta F -> collection sha256 true b tb G -> (size G < fuel)%nat -> normal F -> fits Z.add ta tb F G ->
  exists c, Currency.checked_add sha256 fuel a b = Some (Ok c) /\ Currency.checked_sub sha256 fuel c b = Some (Ok a).
Proof.
  intros Ha Hb Hf Hn Hfits. destruct (checked_add_collection sha256 true a b ta tb F G fuel Ha Hb Hf) as [Hadd _].
  destruct (Hadd Hfits) as (c & H & E & Hc & Hcomb & Hamt). exists c. split; [done|].
  destruct (checked_sub_collection sha256 true c b (ta + tb) tb H G fuel Hc Hb Hf) as [Hsub _].
  pose proof Ha as (Ht & _ & HF).
  destruct Hsub as (a' & F' & -> & Ha' & Hcomb' & _).
  { split; [lia|]. intros k. rewrite Hamt. pose proof (amount_range _ _ _ F k HF). lia. }
  assert (F' = F) as ->.
  { apply map_eq. intros k. rewrite (Hcomb' k). assert (amount G k = entry_amount (G !! k)) as EG by done.
    rewrite Hamt. specialize (Hcomb k). destruct (G !! k) as [y|]; cbn [entry_amount] in EG; [rewrite EG | done].
    replace (amount F k + u_val y - u_val y) with (amount F k) by lia. by eapply nonzero_entry. }
  replace (ta + tb - tb) with ta in Ha' by lia. do 2 f_equal. by eapply collection_unique.
Qed.


(** ** The claims *)

(** [C36] Addition and subtraction of collections add and subtract the native tokens and the
    amounts of every currency, when all results fit their types; the entries of the right
    side whose result is zero are removed, entries only the left side has stay as they
    are.  A result that does not fit makes the whole operation [IntOverflow]. *)
Theorem currency_arithmetic {mach : Machine} sha256 canon a b ta tb F G fuel :
  collection sha256 canon a ta F -> collection sha256 canon b tb G -> (size G < fuel)%nat ->
  ((fits Z.add ta tb F G -> exists c H, Currency.checked_add sha256 fuel a b = Some (Ok c) /\ collection sha256 canon c (ta + tb) H /\
      combined Z.add F G H /\ forall k, amount H k = amount F k + amount G k) /\
   (~ 0 <= ta + tb < 2 ^ 120 \/ (exists k, ~ 0 <= amount F k + amount G k < 2 ^ 248) ->
      Currency.checked_add sha256 fuel a b = Some (Err IntOverflow))) /\
  ((fits Z.sub ta tb F G -> exists c H, Currency.checked_sub sha256 fuel a b = Some (Ok c) /\ collection sha256 canon c (ta - tb) H /\
      combined Z.sub F G H /\ forall k, amount H k = amount F k - amount G k) /\
   (~ 0 <= ta - tb < 2 ^ 120 \/ (exists k, ~ 0 <= amount F k - amount G k < 2 ^ 248) ->
      Currency.checked_sub sha256 fuel a b = Some (Err IntOverflow))).
Proof. intros Ha Hb Hf. split; [by apply checked_add_collection | by apply checked_sub_collection]. Qed.

(** What has been added to a collection without zero entries can be subtracted again, and
    leaves the very same cells. *)
Theorem currency_add_sub_roundtrip {mach : Machine} sha256 a b ta tb F G fuel :
  collection sha256 true a ta F -> collection sha256 true b tb G -> (size G < fuel)%nat -> normal F -> fits Z.add ta tb F G ->
  exists c, Currency.checked_add sha256 fuel a b = Some (Ok c) /\ Currency.checked_sub sha256 fuel c b = Some (Ok a).
Proof. intros Ha Hb Hf Hn Hfits. exact (add_sub_collection sha256 a b ta tb F G fuel Ha Hb Hf Hn Hfits). Qed.

(** The clamp never fails and takes the lower tokens and the lower amount of every
    currency; the normalization removes the entries that are zero and nothing else. *)
Theorem currency_clamp_normalize {mach : Machine} sha256 canon a b ta tb F G fuel :
  collection sha256 canon a ta F -> collection sha256 canon b tb G -> (size F < fuel)%nat ->
  (exists c H, Currency.checked_clamp sha256 fuel a b = Some (Ok c) /\ collection sha256 canon c (Z.min ta tb) H /\
    forall k, amount H k = Z.min (amount F k) (amount G k)) /\
  (exists self, Extra.normalized sha256 fuel (cc_other a) = Some (Ok self) /\ holds sha256 canon self (without_zeros F)).
Proof.
  intros Ha Hb Hf. split; [by eapply clamp_spec|]. destruct Ha as (_ & _ & HF). exact (normalized_spec sha256 canon (cc_other a) F fuel HF Hf).
Qed.

(** ** The claims at concrete inputs *)

#[local] Existing Instance sample_machine.

Definition coins (l : list (Z * Z)) : list (CurrencyId * VarUint248) := (fun e => (mkU 32 e.1, of_val e.2)) <$> l.
Definition coins_map (l : list (Z * Z)) : gmap (list bool) VarUint248 := typed_first_wins (coins l).
Definition coins_extra (l : list (Z * Z)) : ExtraCurrencyCollection :=
  match Extra.try_from_btree_map sample_sha (coins l) with Ok self => self | Err _ => Extra.new end.

Lemma coins_hold canon l :
  Forall (fun e => 0 <= e.1 < 2 ^ 32 /\ 0 <= e.2 < 2 ^ 248) l -> sorted_from None (coins l) = true -> holds sample_sha canon (coins_extra l) (coins_map l).
Proof.
  intros HF Hs. unfold coins_extra, Extra.try_from_btree_map, Dict.try_from_btree.
  pose proof (try_from_sorted_slice_spec sample_sha 0 canon (coins l)) as Hb. rewrite Hs in Hb. destruct Hb as (d & -> & Hd); [|exact Hd].
  apply list.Forall_fmap. eapply list.Forall_impl; [exact HF|]. intros [i x] [Hi Hx]. split; [exact Hi|]. destruct (of_val_ok x) as [Hv Ex]; [cbn [snd] in Hx; lia|].
  split; [exact Hv|]. change (u_val (of_val x) < 2 ^ 248). rewrite Ex. apply Hx.
Qed.

Definition purse (t : Z) (l : list (Z * Z)) : CurrencyCollection := mkCurrency (mkBounded 128 120 t) (coins_extra l).
Definition coins_a : list (Z * Z) := [(1, 10); (7, 5)].
Definition coins_b : list (Z * Z) := [(1, 4); (9, 3)].

Ltac coins_ok := repeat apply list.Forall_cons_2; [cbn [fst snd]; lia.. | constructor].

Lemma purse_a : collection sample_sha true (purse 1000 coins_a) 1000 (coins_map coins_a).
Proof. split; [lia|]. split; [done|]. apply coins_hold; [coins_ok | by vm_compute]. Qed.
Lemma purse_b : collection sample_sha true (purse 234 coins_b) 234 (coins_map coins_b).
Proof. split; [lia|]. split; [done|]. apply coins_hold; [coins_ok | by vm_compute]. Qed.

(** Conditions on the amounts of small maps are decided at their keys. *)
Lemma amounts_forall F G (P : Z -> Z -> bool) :
  P 0 0 && forallb (fun k => P (amount F k) (amount G k)) ((map_to_list F).*1 ++ (map_to_list G).*1) = true ->
  forall k, P (amount F k) (amount G k) = true.
Proof.
  intros [H0 HF]%andb_true_iff k. rewrite forallb_forall in HF.
  destruct (F !! k) as [x|] eqn:E1; [|destruct (G !! k) as [y|] eqn:E2].
  - apply HF, list_elem_of_In, list.elem_of_app. left. apply list_elem_of_fmap. exists (k, x). by rewrite elem_of_map_to_list.
  - apply HF, list_elem_of_In, list.elem_of_app. right. apply list_elem_of_fmap. exists (k, y). by rewrite elem_of_map_to_list.
  - unfold amount. by rewrite E1, E2.
Qed.

Lemma coins_fit : fits Z.add 1000 234 (coins_map coins_a) (coins_map coins_b).
Proof.
  split; [lia|]. intros k.
  pose proof (amounts_forall (coins_map coins_a) (coins_map coins_b) (fun x y => (0 <=? x + y) && (x + y <? 2 ^ 248)) ltac:(by vm_compute) k) as Hk.
  cbv beta in Hk. lia.
Qed.

Lemma currency_arithmetic_witness :
  (exists c H, Currency.checked_add sample_sha 3 (purse 1000 coins_a) (purse 234 coins_b) = Some (Ok c) /\ collection sample_sha true c 1234 H /\
    combined Z.add (coins_map coins_a) (coins_map coins_b) H /\
    forall k, amount H k = amount (coins_map coins_a) k + amount (coins_map coins_b) k) /\
  Currency.checked_sub sample_sha 3 (purse 1000 coins_a) (purse 234 coins_b) = Some (Err IntOverflow).
Proof.
  destruct (currency_arithmetic sample_sha true (purse 1000 coins_a) (purse 234 coins_b) 1000 234 (coins_map coins_a) (coins_map coins_b) 3
    purse_a purse_b ltac:(by vm_compute; lia)) as [[Hadd _] [_ Hsub]]. split; [exact (Hadd coins_fit)|]. apply Hsub. right. exists (uint_bits 32 9).
  vm_compute. intros [Hlow _]. by apply Hlow.
Defined.

Lemma currency_add_sub_roundtrip_witness :
  exists c, Currency.checked_add sample_sha 3 (purse 1000 coins_a) (purse 234 coins_b) = Some (Ok c) /\
    Currency.checked_sub sample_sha 3 c (purse 234 coins_b) = Some (Ok (purse 1000 coins_a)).
Proof.
  apply (currency_add_sub_roundtrip sample_sha (purse 1000 coins_a) (purse 234 coins_b) 1000 234 (coins_map coins_a) (coins_map coins_b) 3
    purse_a purse_b ltac:(by vm_compute; lia)); [|exact coins_fit].
  apply map_Forall_to_list. vm_compute. repeat constructor; discriminate.
Defined.

Lemma currency_clamp_normalize_witness :
  exists c H, Currency.checked_clamp sample_sha 3 (purse 1000 coins_a) (purse 234 coins_b) = Some (Ok c) /\ collection sample_sha true c 234 H /\
    forall k, amount H k = Z.min (amount (coins_map coins_a) k) (amount (coins_map coins_b) k).
Proof.
  destruct (currency_clamp_normalize sample_sha true (purse 1000 coins_a) (purse 234 coins_b) 1000 234 (coins_map coins_a) (coins_map coins_b) 3
    purse_a purse_b ltac:(by vm_compute; lia)) as [Hc _]. exact Hc.
Defined.
