(* ===== verification/Shard.v ===== *)
(** * Shard: shards of a workchain and the tree of their latest blocks

    [src/src/models/block/block_id.rs]: a shard is a workchain and a path in the binary
    tree of its accounts, kept as a 64-bit prefix, the bits of the path with a one behind
    them.  [src/src/models/block/shard_hashes.rs]: the descriptions of all shards of a
    workchain are the leaves of a tree of cells, built from a sorted list and read by
    iterators that keep a stack of forks.

    The features of the crate are the default ones (without [tycho]).  The order in which
    a hash map yields its groups and an unstable sort are parameters of [from_shards]. *)

From S2P Require Import Prelude Bits DataBuilder CellMeta Cell Slice Builder Context DictLabel DictKeys DictIter Num DictTyped Currency.

(** ** [ShardIdent] *)

Record ShardIdent := mkShard { workchain : Z; shard_prefix : Z }.

#[global] Instance ShardIdent_eq_dec : EqDecision ShardIdent.
Proof. solve_decision. Defined.

(** [trait Addr] of [models/message/address.rs] *)
Class Addr (T : Type) := { addr_workchain : T -> Z; addr_prefix : T -> Z }.

Module ShardIdent.
Implicit Types (self shard child parent other : ShardIdent).

Definition PREFIX_FULL : Z := 0x8000000000000000.
Definition MAX_SPLIT_DEPTH : Z := 60.
Definition BITS : Z := 8 + 32 + 64.
Definition UNUSED_BITS_MASK : Z := Z.shiftr (unot 64 0) (MAX_SPLIT_DEPTH + 1).

Definition new_full (workchain : Z) : ShardIdent := mkShard workchain PREFIX_FULL.
Definition MASTERCHAIN : ShardIdent := new_full (-1).
Definition BASECHAIN : ShardIdent := new_full 0.
Definition default : ShardIdent := MASTERCHAIN.

Definition new (workchain prefix : Z) : option ShardIdent :=
  if (prefix =? 0) || negb (Z.land prefix UNUSED_BITS_MASK =? 0) || ((workchain =? -1) && negb (prefix =? PREFIX_FULL))
  then None else Some (mkShard workchain prefix).
Definition new_unchecked (workchain prefix : Z) : ShardIdent := mkShard workchain prefix.

Definition is_masterchain self : bool := workchain self =? workchain MASTERCHAIN.
Definition is_full self : bool := shard_prefix self =? PREFIX_FULL.

Definition prefix_tag_mask self : Z := u64 (unot 64 (shard_prefix self) + 1).
Definition prefix_tag self : Z := Z.land (shard_prefix self) (prefix_tag_mask self).

Definition is_right_child self : bool := negb (Z.land (shard_prefix self) (u64 (Z.shiftl (prefix_tag self) 1)) =? 0).
Definition is_left_child self : bool := negb (is_right_child self).

Definition is_ancestor_of self shard : bool :=
  if negb (workchain self =? workchain shard) then false else
  let ancestor_tag := prefix_tag self in
  let shard_tag := prefix_tag shard in
  (shard_tag <=? ancestor_tag) &&
  (Z.land (Z.lxor (shard_prefix self) (shard_prefix shard)) (u64 (Z.shiftl (prefix_tag_mask self) 1)) =? 0).

(** The prefix of the parent: the last bit of the path becomes the tag. *)
Definition is_parent_of self child : bool :=
  if negb (workchain self =? workchain child) || is_full child then false else
  let tag := prefix_tag child in
  let child_parent_prefix := Z.lor (u64 (shard_prefix child - tag)) (u64 (Z.shiftl tag 1)) in
  child_parent_prefix =? shard_prefix self.
Definition is_child_of self parent : bool := is_parent_of parent self.

Definition intersects self other : bool :=
  if negb (workchain self =? workchain other) then false else
  let self_tag_mask := prefix_tag self in
  let other_tag_mask := prefix_tag other in
  let longest_prefix_tag := if self_tag_mask <? other_tag_mask then other_tag_mask else self_tag_mask in
  let longest_bits := u64 (Z.shiftl (u64 (unot 64 longest_prefix_tag + 1)) 1) in
  let equal_bits := Z.lxor (shard_prefix self) (shard_prefix other) in
  Z.land equal_bits longest_bits =? 0.

Definition merge self : option ShardIdent :=
  if is_full self then None else
  let tag := prefix_tag self in
  Some (mkShard (workchain self) (Z.lor (u64 (shard_prefix self - tag)) (u64 (Z.shiftl tag 1)))).

Definition split self : option (ShardIdent * ShardIdent) :=
  if negb (Z.land (shard_prefix self) (u64 (u64 (Z.shiftl UNUSED_BITS_MASK 1) + 1)) =? 0) then None else
  let tag := Z.shiftr (prefix_tag self) 1 in
  Some (mkShard (workchain self) (u64 (shard_prefix self - tag)), mkShard (workchain self) (u64 (shard_prefix self + tag))).

Definition opposite self : option ShardIdent :=
  if is_full self then None else
  let last_bit_mask := u64 (Z.shiftl (prefix_tag self) 1) in
  Some (mkShard (workchain self) (Z.lxor (shard_prefix self) last_bit_mask)).

Definition prefix_len self : Z :=
  if shard_prefix self =? 0 then 64 else u16 (63 - trailing_zeros 64 (shard_prefix self)).
Definition can_split self : bool := prefix_len self <? MAX_SPLIT_DEPTH.

(** The loop of [contains_account_prefix] from a byte on *)
Fixpoint contains_bytes (bits : Z) (prefix account : list Z) : bool :=
  if bits <=? 0 then true else
  match prefix, account with
  | prefix_byte :: prefix, account_byte :: account =>
      if 8 <=? bits then
        if negb (prefix_byte =? account_byte) then false else contains_bytes (bits - 8) prefix account
      else
        let mask := u8 (Z.shiftl 0xff (8 - bits)) in
        Z.land (Z.lxor prefix_byte account_byte) mask =? 0
  | _, _ => true
  end.
Definition contains_account_prefix self (account : list Z) : bool :=
  contains_bytes (prefix_len self) (to_be_bytes 8 (shard_prefix self)) account.
Definition contains_account self (account : HashBytes) : bool := contains_account_prefix self (take 8 account).
Definition contains_address `{Addr T} self (address : T) : bool :=
  (workchain self =? addr_workchain address) && contains_account_prefix self (to_be_bytes 8 (addr_prefix address)).
End ShardIdent.

#[global] Instance Store_ShardIdent : Store ShardIdent := fun self _ b =>
  let prefix_len := u8 (ShardIdent.prefix_len self) in
  let prefix_without_tag := u64 (shard_prefix self - ShardIdent.prefix_tag self) in
  let! b := on_data (fun d => store_u8 d prefix_len) b in
  let! b := on_data (fun d => store_u32 d (u32 (workchain self))) b in
  on_data (fun d => store_u64 d prefix_without_tag) b.
#[global] Instance Load_ShardIdent : Load ShardIdent := fun s =>
  let! (prefix_len, s) := load_u8 s in
  if ShardIdent.MAX_SPLIT_DEPTH <? prefix_len then Err IntOverflow else
  let! (workchain, s) := load_u32 s in
  let workchain := as_signed 32 workchain in
  let! (prefix_without_tag, s) := load_u64 s in
  let tag := u64 (Z.shiftl 1 (63 - prefix_len)) in
  let prefix := Z.lor (Z.land prefix_without_tag (u64 (unot 64 tag + 1))) tag in
  Ok (mkShard workchain prefix, s).

(** ** [BlockId], [BlockIdShort] *)

Record BlockId := mkBlockId { id_shard : ShardIdent; id_seqno : Z; id_root_hash : HashBytes; id_file_hash : HashBytes }.
Record BlockIdShort := mkShortId { short_shard : ShardIdent; short_seqno : Z }.

Module BlockId.
Definition BITS : Z := ShardIdent.BITS + 32 + 256 + 256.
Definition is_masterchain (self : BlockId) : bool := ShardIdent.is_masterchain (id_shard self).
Definition as_short_id (self : BlockId) : BlockIdShort := mkShortId (id_shard self) (id_seqno self).
End BlockId.

#[global] Instance Store_BlockId : Store BlockId := fun self ctx b =>
  let! b := store_into (id_shard self) ctx b in
  let! b := store_into (mkU 32 (id_seqno self)) ctx b in
  let! b := store_into (mkHash (id_root_hash self)) ctx b in
  store_into (mkHash (id_file_hash self)) ctx b.
#[global] Instance Load_BlockId : Load BlockId := fun s =>
  let! (shard, s) := load_from s in
  let! (seqno, s) := load_from s in
  let! (root_hash, s) := load_from s in
  let! (file_hash, s) := load_from s in
  Ok (mkBlockId shard (uval (w := 32) seqno) (hash_bytes root_hash) (hash_bytes file_hash), s).

Module BlockIdShort.
Implicit Type self : BlockIdShort.
Definition is_masterchain self : bool := ShardIdent.is_masterchain (short_shard self).
Definition saturating_add self (seqno : Z) : BlockIdShort :=
  mkShortId (short_shard self) (Prelude.saturating_add 32 (short_seqno self) seqno).
Definition saturating_sub self (seqno : Z) : BlockIdShort :=
  mkShortId (short_shard self) (Prelude.saturating_sub (short_seqno self) seqno).
Definition saturating_prev self : BlockIdShort := saturating_sub self 1.
Definition saturating_next self : BlockIdShort := saturating_add self 1.
Definition of_pair (p : ShardIdent * Z) : BlockIdShort := mkShortId p.1 p.2.
Definition into_pair self : ShardIdent * Z := (short_shard self, short_seqno self).
End BlockIdShort.

(** ** [FutureSplitMerge], [ShardDescription] *)

Inductive FutureSplitMerge : Type :=
| FutureSplit (split_utime interval : Z)
| FutureMerge (merge_utime interval : Z).

#[global] Instance Store_FutureSplitMerge : Store FutureSplitMerge := fun self _ b =>
  match self with
  | FutureSplit split_utime interval =>
      let! b := on_data store_bit_zero b in
      let! b := on_data (fun d => store_u32 d split_utime) b in
      on_data (fun d => store_u32 d interval) b
  | FutureMerge merge_utime interval =>
      let! b := on_data store_bit_one b in
      let! b := on_data (fun d => store_u32 d merge_utime) b in
      on_data (fun d => store_u32 d interval) b
  end.
#[global] Instance Load_FutureSplitMerge : Load FutureSplitMerge := fun s =>
  let! (bit, s) := load_bit s in
  let! (utime, s) := load_u32 s in
  let! (interval, s) := load_u32 s in
  Ok (if bit : bool then FutureMerge utime interval else FutureSplit utime interval, s).

Record ShardDescription := mkDescription {
  seqno : Z;
  reg_mc_seqno : Z;
  start_lt : Z;
  end_lt : Z;
  root_hash : HashBytes;
  file_hash : HashBytes;
  before_split : bool;
  before_merge : bool;
  want_split : bool;
  want_merge : bool;
  nx_cc_updated : bool;
  next_catchain_seqno : Z;
  next_validator_shard : Z;
  min_ref_mc_seqno : Z;
  gen_utime : Z;
  split_merge_at : option FutureSplitMerge;
  fees_collected : CurrencyCollection;
  funds_created : CurrencyCollection;
}.

Module ShardDescription.
Definition TAG_LEN : Z := 4.
Definition TAG_V1 : Z := 0xa.
Definition TAG_V2 : Z := 0xb.

Definition as_block_id (self : ShardDescription) (shard : ShardIdent) : BlockId :=
  mkBlockId shard (seqno self) (root_hash self) (file_hash self).

Definition flags (self : ShardDescription) : Z :=
  Z.lor (Z.lor (Z.lor (Z.lor (Z.shiftl (b2z (before_split self)) 7) (Z.shiftl (b2z (before_merge self)) 6))
    (Z.shiftl (b2z (want_split self)) 5)) (Z.shiftl (b2z (want_merge self)) 4)) (Z.shiftl (b2z (nx_cc_updated self)) 3).

Definition has_flag (flags mask : Z) : bool := negb (Z.land flags mask =? 0).
End ShardDescription.

#[global] Instance Store_ShardDescription : Store ShardDescription := fun self ctx b =>
  let flags := ShardDescription.flags self in
  let! b := on_data (fun d => store_small_uint d ShardDescription.TAG_V1 ShardDescription.TAG_LEN) b in
  let! b := on_data (fun d => store_u32 d (seqno self)) b in
  let! b := on_data (fun d => store_u32 d (reg_mc_seqno self)) b in
  let! b := on_data (fun d => store_u64 d (start_lt self)) b in
  let! b := on_data (fun d => store_u64 d (end_lt self)) b in
  let! b := on_data (fun d => store_u256 d (root_hash self)) b in
  let! b := on_data (fun d => store_u256 d (file_hash self)) b in
  let! b := on_data (fun d => store_u8 d flags) b in
  let! b := on_data (fun d => store_u32 d (next_catchain_seqno self)) b in
  let! b := on_data (fun d => store_u64 d (next_validator_shard self)) b in
  let! b := on_data (fun d => store_u32 d (min_ref_mc_seqno self)) b in
  let! b := on_data (fun d => store_u32 d (gen_utime self)) b in
  let! b := store_into (split_merge_at self) ctx b in
  let! cell :=
    let! builder := store_into (fees_collected self) ctx builder_new in
    let! builder := store_into (funds_created self) ctx builder in
    build_ext ctx builder in
  store_reference b cell.

(** The currencies are in a cell of their own, or behind the rest for the second tag. *)
#[global] Instance Load_ShardDescription : Load ShardDescription := fun s =>
  let! (tag, s) := load_small_uint s ShardDescription.TAG_LEN in
  let! cont_in_cell :=
    if tag =? ShardDescription.TAG_V1 then Ok true
    else if tag =? ShardDescription.TAG_V2 then Ok false else Err InvalidTag in
  let! (seqno, s) := load_u32 s in
  let! (reg_mc_seqno, s) := load_u32 s in
  let! (start_lt, s) := load_u64 s in
  let! (end_lt, s) := load_u64 s in
  let! (root_hash, s) := load_u256 s in
  let! (file_hash, s) := load_u256 s in
  let! (flags, s) := load_u8 s in
  if negb (Z.land flags 0x3 =? 0) then Err InvalidData else
  let! (next_catchain_seqno, s) := load_u32 s in
  let! (next_validator_shard, s) := load_u64 s in
  let! (min_ref_mc_seqno, s) := load_u32 s in
  let! (gen_utime, s) := load_u32 s in
  let! (split_merge_at, s) := load_from s in
  let description fees_collected funds_created :=
    let flag := ShardDescription.has_flag flags in
    mkDescription seqno reg_mc_seqno start_lt end_lt root_hash file_hash (flag 0x80) (flag 0x40) (flag 0x20) (flag 0x10) (flag 0x08)
      next_catchain_seqno next_validator_shard min_ref_mc_seqno gen_utime split_merge_at fees_collected funds_created in
  if cont_in_cell : bool then
    let! (cont, s) := load_reference_as_slice s in
    let! (fees_collected, cont) := load_from cont in
    let! (funds_created, cont) := load_from cont in Ok (description fees_collected funds_created, s)
  else
    let! (fees_collected, s) := load_from s in
    let! (funds_created, s) := load_from s in Ok (description fees_collected funds_created, s).

(** The block of a shard, read from the raw description *)
Definition parse_block_id (shard : ShardIdent) (value : CellSlice) : result BlockId :=
  let! value := skip_first value ShardDescription.TAG_LEN 0 in
  let! (seqno, value) := load_u32 value in
  let! value := skip_first value (32 + 64 + 64) 0 in
  let! (root_hash, value) := load_u256 value in
  let! (file_hash, value) := load_u256 value in
  Ok (mkBlockId shard seqno root_hash file_hash).

(** ** [WorkchainShardHashes::try_build_raw] *)

Record WorkchainShardHashes := mkWorkchainShards { ws_workchain : Z; ws_root : Cell }.

(** What the inner loop comes to: the next leaf is read, the root is there, or the shards
    do not fit together. *)
Inductive JoinFlow : Type :=
| JoinNext (stack : list (ShardIdent * Cell))
| JoinRoot (root : Cell)
| JoinBroken.

Module WorkchainShardHashes.
Section Build.
Context (cx : CellContext).

Definition make_leaf (descr : ShardDescription) : result Cell :=
  let! builder := on_data store_bit_zero builder_new in
  let! builder := store_into descr cx builder in
  build_ext cx builder.

Definition make_edge (lft rgt : Cell) : result Cell :=
  let! builder := on_data store_bit_one builder_new in
  let! builder := store_reference builder lft in
  let! builder := store_reference builder rgt in
  build_ext cx builder.

Definition read_shard (iter : list (ShardIdent * ShardDescription)) : result (ShardIdent * Cell * list (ShardIdent * ShardDescription)) :=
  match iter with
  | (ident, descr) :: iter => let! cell := make_leaf descr in Ok (ident, cell, iter)
  | [] => Err Unbalanced
  end.

(** The inner loop: a left child waits on the stack, a right one is joined with it. *)
Fixpoint join_loop (stack : list (ShardIdent * Cell)) (next_shard : ShardIdent) (next_cell : Cell) : result JoinFlow :=
  if ShardIdent.is_left_child next_shard then Ok (JoinNext ((next_shard, next_cell) :: stack)) else
  match stack with
  | [] => Ok JoinBroken
  | (left_shard, left_cell) :: stack =>
      match ShardIdent.merge left_shard, ShardIdent.merge next_shard with
      | Some left_parent, Some right_parent =>
          if bool_decide (left_parent = right_parent) then
            let! parent_cell := make_edge left_cell next_cell in
            if ShardIdent.is_full left_parent then Ok (JoinRoot parent_cell)
            else join_loop stack left_parent parent_cell
          else Ok JoinBroken
      | _, _ => Ok JoinBroken
      end
  end.

Fixpoint build_loop (shards : list (ShardIdent * ShardDescription)) (stack : list (ShardIdent * Cell)) : result Cell :=
  match shards with
  | [] => Err Unbalanced
  | (ident, descr) :: shards =>
      let! cell := make_leaf descr in
      let! flow := join_loop stack ident cell in
      match flow with
      | JoinNext stack => build_loop shards stack
      | JoinRoot root => Ok root
      | JoinBroken => Err Unbalanced
      end
  end.

Definition try_build_raw (shards : list (ShardIdent * ShardDescription)) : result Cell :=
  let! (ident, cell, shards) := read_shard shards in
  if ShardIdent.is_full ident then Ok cell
  else if ShardIdent.is_right_child ident then Err Unbalanced
  else build_loop shards [(ident, cell)].
End Build.
End WorkchainShardHashes.

(** ** The iterators *)

Record ShardSegment := mkShardSegment { ss_data : Cell; ss_is_right : bool }.

(** [WorkchainShardsTreeRawIter]; the top of the stack of segments is the first. *)
Record WorkchainShardsTreeRawIter := mkWorkchainIter {
  wi_workchain : Z;
  wi_leaf : option CellSlice;
  wi_segments : list ShardSegment;
  wi_status : IterStatus;
}.

Module WorkchainIter.
Implicit Type it : WorkchainShardsTreeRawIter.

Definition new (workchain : Z) (root : Cell) : WorkchainShardsTreeRawIter :=
  match slice_new root with
  | Err _ => mkWorkchainIter workchain None [] UnexpectedCell
  | Ok slice =>
      match load_bit slice with
      | Err _ => mkWorkchainIter workchain None [] Broken
      | Ok (true, _) => mkWorkchainIter workchain None [mkShardSegment root false] Valid
      | Ok (false, slice) => mkWorkchainIter workchain (Some slice) [] Valid
      end
  end.

Definition build_shard_prefix (segments : list ShardSegment) : Z :=
  foldl (fun result segment => Z.lor (u64 (ShardIdent.PREFIX_FULL * b2z (ss_is_right segment))) (Z.shiftr result 1))
    ShardIdent.PREFIX_FULL segments.

(** The way down to the next leaf: each step pushes a fork, and there is room for 60. *)
Fixpoint find_leaf (fuel : nat) (segments : list ShardSegment) : option (result CellSlice) * list ShardSegment :=
  match fuel, segments with
  | O, _ => (Some (Err CellUnderflow), segments)
  | S _, [] => (None, segments)
  | S fuel, segment :: _ =>
      match child_slice (ss_data segment) (b2z (ss_is_right segment)) with
      | Err e => (Some (Err e), segments)
      | Ok slice =>
          match load_bit slice with
          | Ok (false, slice) => (Some (Ok slice), segments)
          | Ok (true, slice) =>
              if zlen segments <? ShardIdent.MAX_SPLIT_DEPTH
              then find_leaf fuel (mkShardSegment (cell slice) false :: segments)
              else (Some (Err CellUnderflow), segments)
          | Err _ => (Some (Err CellUnderflow), segments)
          end
      end
  end.
Definition FIND_FUEL : nat := 61.

(** The finished segments are removed, and the last one moves to its right child. *)
Fixpoint advance_segments (segments : list ShardSegment) : list ShardSegment :=
  match segments with
  | segment :: below =>
      if ss_is_right segment then advance_segments below else mkShardSegment (ss_data segment) true :: below
  | [] => []
  end.

Definition next it : option (result (ShardIdent * CellSlice)) * WorkchainShardsTreeRawIter :=
  match wi_status it with
  | UnexpectedCell => (Some (Err UnexpectedExoticCell), mkWorkchainIter (wi_workchain it) (wi_leaf it) (wi_segments it) Broken)
  | Broken => (None, it)
  | Valid =>
      let '(leaf, segments) :=
        match wi_leaf it with
        | Some leaf => (Some (Ok leaf), wi_segments it)
        | None => find_leaf FIND_FUEL (wi_segments it)
        end in
      match leaf with
      | None => (None, mkWorkchainIter (wi_workchain it) None segments Valid)
      | Some (Err e) => (Some (Err e), mkWorkchainIter (wi_workchain it) None segments Broken)
      | Some (Ok leaf) =>
          let shard := ShardIdent.new_unchecked (wi_workchain it) (build_shard_prefix segments) in
          (Some (Ok (shard, leaf)), mkWorkchainIter (wi_workchain it) None (advance_segments segments) Valid)
      end
  end.

(** [finish] *)
Definition finish it (e : Error) : Error * WorkchainShardsTreeRawIter :=
  (e, mkWorkchainIter (wi_workchain it) (wi_leaf it) (wi_segments it) Broken).

(** [WorkchainShardsTreeKeysIter], [WorkchainShardsTreeRawValuesIter] *)
Definition keys_next it : option (result ShardIdent) * WorkchainShardsTreeRawIter :=
  let (item, it) := next it in
  (option_map (fun item => let! (key, _) := item in Ok key) item, it).
Definition raw_values_next it : option (result CellSlice) * WorkchainShardsTreeRawIter :=
  let (item, it) := next it in
  (option_map (fun item => let! (_, value) := item in Ok value) item, it).

(** An item of [WorkchainShardHashesIter] and [WorkchainLatestBlocksIter]: what the raw
    value is parsed to, or the end of the iteration *)
Definition parsed_next {A} (parse : ShardIdent -> CellSlice -> result A) it : option (result A) * WorkchainShardsTreeRawIter :=
  match next it with
  | (None, it) => (None, it)
  | (Some (Err e), it) => (Some (Err e), it)
  | (Some (Ok (shard_ident, value)), it) =>
      match parse shard_ident value with
      | Ok value => (Some (Ok value), it)
      | Err e => let (e, it) := finish it e in (Some (Err e), it)
      end
  end.
Definition load_description (shard_ident : ShardIdent) (value : CellSlice) : result (ShardIdent * ShardDescription) :=
  let! (value, _) := load_from value in Ok (shard_ident, value).
Definition hashes_next := parsed_next load_description.
Definition blocks_next := parsed_next parse_block_id.
End WorkchainIter.

(** [ShardsTreeRawIter]: the trees of all workchains *)
Record ShardsTreeRawIter := mkShardsIter {
  si_dict_iter : RawIter;
  si_shard_hashes_iter : option WorkchainShardsTreeRawIter;
  si_status : IterStatus;
}.

Module ShardsIter.
Implicit Type it : ShardsTreeRawIter.

Definition new (dict : option Cell) : ShardsTreeRawIter := mkShardsIter (RawIter.new dict 32) None Valid.
Definition finish it (e : Error) : Error * ShardsTreeRawIter :=
  (e, mkShardsIter (si_dict_iter it) (si_shard_hashes_iter it) Broken).

(** The loop: an item of the current tree, or the tree of the next workchain *)
Fixpoint next_loop (fuel : nat) it : option (result (ShardIdent * CellSlice)) * ShardsTreeRawIter :=
  match fuel with
  | O => (None, it)
  | S fuel =>
      let (item, inner) :=
        match si_shard_hashes_iter it with
        | Some iter =>
            match WorkchainIter.next iter with
            | (Some item, iter) => (Some item, Some iter)
            | (None, _) => (None, None)
            end
        | None => (None, None)
        end in
      let it := mkShardsIter (si_dict_iter it) inner (si_status it) in
      match item with
      | Some item => (Some item, it)
      | None =>
          let (entry, dict_iter) := raw_iter_next (si_dict_iter it) in
          let it := mkShardsIter dict_iter None (si_status it) in
          match entry with
          | None => (None, it)
          | Some (Err e) => let (e, it) := finish it e in (Some (Err e), it)
          | Some (Ok (key, value)) =>
              match load_from_data (K := iN 32) key with
              | None => let (e, it) := finish it CellUnderflow in (Some (Err e), it)
              | Some workchain =>
                  match get_reference value 0 with
                  | Err e => let (e, it) := finish it e in (Some (Err e), it)
                  | Ok tree_root =>
                      next_loop fuel (mkShardsIter dict_iter (Some (WorkchainIter.new (ival workchain) tree_root)) (si_status it))
                  end
              end
          end
      end
  end.

Definition next (fuel : nat) it : option (result (ShardIdent * CellSlice)) * ShardsTreeRawIter :=
  match si_status it with
  | UnexpectedCell => (Some (Err UnexpectedExoticCell), mkShardsIter (si_dict_iter it) (si_shard_hashes_iter it) Broken)
  | Broken => (None, it)
  | Valid => next_loop fuel it
  end.

(** [ShardHashesIter], [LatestBlocksIter] *)
Definition parsed_next {A} (parse : ShardIdent -> CellSlice -> result A) (fuel : nat) it : option (result A) * ShardsTreeRawIter :=
  match next fuel it with
  | (None, it) => (None, it)
  | (Some (Err e), it) => (Some (Err e), it)
  | (Some (Ok (shard_ident, value)), it) =>
      match parse shard_ident value with
      | Ok value => (Some (Ok value), it)
      | Err e => let (e, it) := finish it e in (Some (Err e), it)
      end
  end.
Definition hashes_next := parsed_next WorkchainIter.load_description.
Definition blocks_next := parsed_next parse_block_id.
End ShardsIter.

(** ** [ShardHashes] *)

Record ShardHashes := mkShardHashes { shards_dict : Dict (iN 32) Cell }.

#[global] Instance Store_ShardHashes : Store ShardHashes := fun self ctx b => store_into (shards_dict self) ctx b.
#[global] Instance Load_ShardHashes : Load ShardHashes := fun s => let! (dict, s) := load_from s in Ok (mkShardHashes dict, s).

Module ShardHashes.
Section Impl.
Context `{Machine} (sha256 : list Z -> HashBytes).
Implicit Type self : ShardHashes.
Abbreviation empty := (empty_context sha256).

Definition from_dict (dict : Dict (iN 32) Cell) : ShardHashes := mkShardHashes dict.
Definition as_dict self := shards_dict self.
Definition into_dict self := shards_dict self.

(** The shards by workchain, in the order they come *)
Definition group_shards (shards : list (ShardIdent * ShardDescription)) : list (Z * list (ShardIdent * ShardDescription)) :=
  (fun wc => (wc, filter (fun s => workchain s.1 = wc) shards)) <$> remove_dups ((fun s => workchain s.1) <$> shards).

Fixpoint set_groups (groups : list (Z * list (ShardIdent * ShardDescription))) (result : Dict (iN 32) Cell)
    : Prelude.result (Dict (iN 32) Cell) :=
  match groups with
  | [] => Ok result
  | (wc, shards) :: groups =>
      let! cell := WorkchainShardHashes.try_build_raw empty shards in
      let (r, result) := Dict.set sha256 result (mkI 32 wc) cell in
      let! _ := r in set_groups groups result
  end.

(** [from_shards]; [hash_order] is the order of the hash map, [sort_by_key] the sort of
    the shards by their idents. *)
Definition from_shards (hash_order : list (Z * list (ShardIdent * ShardDescription)) -> list (Z * list (ShardIdent * ShardDescription)))
    (sort_by_key : list (ShardIdent * ShardDescription) -> list (ShardIdent * ShardDescription))
    (shards : list (ShardIdent * ShardDescription)) : Prelude.result ShardHashes :=
  let groups := (fun g => (g.1, sort_by_key g.2)) <$> group_shards shards in
  let! dict := set_groups (hash_order groups) Dict.new in Ok (mkShardHashes dict).

Definition iter self : ShardsTreeRawIter := ShardsIter.new (dict_root (shards_dict self)).
Definition raw_iter self : ShardsTreeRawIter := ShardsIter.new (dict_root (shards_dict self)).
Definition latest_blocks self : ShardsTreeRawIter := ShardsIter.new (dict_root (shards_dict self)).

Definition get_workchain_shards self (workchain : Z) : result (option WorkchainShardHashes) :=
  match Dict.get sha256 (shards_dict self) (mkI 32 workchain) with
  | Ok (Some root) => Ok (Some (mkWorkchainShards workchain root))
  | Ok None => Ok None
  | Err e => Err e
  end.
Definition contains_workchain self (workchain : Z) : result bool :=
  Dict.contains_key sha256 (shards_dict self) (mkI 32 workchain).
End Impl.
End ShardHashes.

Module WorkchainShards.
Implicit Type self : WorkchainShardHashes.
Definition workchain self : Z := ws_workchain self.
Definition root self : Cell := ws_root self.
Definition into_root self : Cell := ws_root self.
(** [keys], [iter], [latest_blocks], [raw_iter] and [raw_values] start at the same place. *)
Definition raw_iter self : WorkchainShardsTreeRawIter := WorkchainIter.new (ws_workchain self) (ws_root self).
End WorkchainShards.
