(* ===== verification/ShardTheorems.v ===== *)
(** * ShardTheorems: shards are paths, and their trees are what they say

    A shard ident is a path in the binary tree of accounts ([of_path]); the operations on
    its prefix, word arithmetic, are those of paths.  The builder of a shard tree is the
    recursion over the tree ([tree_cell]), and the iterators give its leaves back. *)

From stdpp Require Import list.
From S2P Require Import Prelude Bits DataBuilder DataBuilderSpec CellMeta Cell Slice SliceSpec SliceScanSpec Builder BuilderSpec Context DictLabel DictLabelSpec DictSpec DictTheorems DictIter DictUnion Num NumSpec DictTyped DictTypedSpec Currency CurrencyTheorems Shard.

(** ** Words with a lowest bit *)

Lemma testbit_scaled a k j : 0 <= k -> Z.testbit (a * 2 ^ k) j = Z.testbit a (j - k).
Proof. intros Hk. rewrite <- Z.shiftl_mul_pow2 by done. by apply testbit_shiftl. Qed.

Lemma testbit_odd a j : Z.testbit (2 * a + 1) j = if j <? 0 then false else if j =? 0 then true else Z.testbit a (j - 1).
Proof.
  destruct (Z.ltb_spec j 0); [by rewrite Z.testbit_neg_r|]. destruct (Z.eqb_spec j 0) as [->|]; [by rewrite Z.testbit_odd_0|].
  replace j with (Z.succ (j - 1)) at 1 by lia. by rewrite Z.testbit_odd_succ by lia.
Qed.

Definition tagged (a k : Z) : Z := (2 * a + 1) * 2 ^ k.

Lemma testbit_tagged a k j : 0 <= k ->
  Z.testbit (tagged a k) j = if j <? k then false else if j =? k then true else Z.testbit a (j - k - 1).
Proof. intros Hk. unfold tagged. rewrite testbit_scaled, testbit_odd by done. zcases; (done || lia). Qed.

Lemma tagged_range a k : 0 <= k <= 63 -> 0 <= a < 2 ^ (63 - k) -> 0 < tagged a k < 2 ^ 64.
Proof.
  intros Hk Ha. unfold tagged. replace 64 with (1 + (63 - k) + k) by lia. rewrite !Z.pow_add_r by lia.
  pose proof (Z.pow_pos_nonneg 2 k). split; nia.
Qed.

Lemma tagged_inj a k b n : 0 <= k -> 0 <= n -> tagged a k = tagged b n -> a = b /\ k = n.
Proof.
  intros Hk Hn E. assert (k = n) as <-.
  { pose proof (testbit_tagged a k k Hk) as Ek. pose proof (testbit_tagged b n n Hn) as En.
    rewrite Z.ltb_irrefl, Z.eqb_refl in Ek, En. rewrite E, testbit_tagged in Ek by done. rewrite <- E, testbit_tagged in En by done.
    revert Ek En. zcases; (done || lia). }
  split; [|done]. unfold tagged in E. apply Z.mul_reg_r in E; [lia|]. pose proof (Z.pow_pos_nonneg 2 k). lia.
Qed.

Lemma tagged_exists x : 0 < x < 2 ^ 64 -> exists a k, x = tagged a k /\ 0 <= k <= 63 /\ 0 <= a < 2 ^ (63 - k).
Proof.
  intros Hx. assert (exists a k, x = tagged a k /\ 0 <= k /\ 0 <= a) as (a & k & -> & Hk & Ha).
  { revert Hx. induction x as [x IH] using (well_founded_induction (Z.lt_wf 0)). intros Hx. destruct (Z.Even_or_Odd x) as [[y ->]|[y ->]].
    - destruct (IH y) as (a & k & -> & Hk & Ha); [lia..|]. exists a, (k + 1). unfold tagged. rewrite Z.pow_add_r by lia. lia.
    - exists y, 0. unfold tagged. lia. }
  exists a, k. split; [done|]. unfold tagged in Hx. assert (k <= 63) as Hk63.
  { destruct (Z.le_gt_cases k 63); [done|]. pose proof (Z.pow_le_mono_r 2 64 k). nia. }
  split; [lia|]. split; [done|]. replace 64 with (63 - k + k + 1) in Hx by lia. rewrite !Z.pow_add_r in Hx by lia.
  pose proof (Z.pow_pos_nonneg 2 k). nia.
Qed.

(** [!x + 1], the negative of a word *)
Lemma testbit_negative a k j : 0 <= k <= 63 -> 0 <= a < 2 ^ (63 - k) ->
  Z.testbit (u64 (unot 64 (tagged a k) + 1)) j =
    if j <? k then false else if j =? k then true else (j <? 64) && negb (Z.testbit a (j - k - 1)).
Proof.
  intros Hk Ha. pose proof (tagged_range a k Hk Ha). pose proof (Z.pow_pos_nonneg 2 k).
  replace (unot 64 (tagged a k) + 1) with (unot 64 (tagged a k - 1)) by (unfold unot; lia).
  unfold u64. rewrite testbit_wrap by done. destruct (Z.ltb_spec j 0); [rewrite Z.testbit_neg_r by done; zcases; (done || lia)|].
  destruct (Z.ltb_spec j 64); [|zcases; (done || lia)]. rewrite testbit_unot by lia. cbn [andb].
  replace (tagged a k - 1) with (Z.lor (a * 2 ^ (k + 1)) (Z.ones k)).
  - rewrite Z.lor_spec, testbit_scaled by lia. rewrite Z.testbit_ones_nonneg by lia.
    replace (j - (k + 1)) with (j - k - 1) by lia. destruct (Z.ltb_spec j k).
    + by rewrite orb_true_r.
    + rewrite orb_false_r. destruct (Z.eqb_spec j k) as [->|]; [|done]. by rewrite Z.testbit_neg_r by lia.
  - assert (Z.land (a * 2 ^ (k + 1)) (Z.ones k) = 0) as Hl.
    { apply Z.bits_inj'. intros i Hi. rewrite Z.land_spec, testbit_scaled, Z.testbit_ones_nonneg, Z.bits_0 by lia.
      destruct (Z.ltb_spec i k); [rewrite Z.testbit_neg_r by lia; done | apply andb_false_r]. }
    rewrite <- Z.lxor_lor, <- Z.add_nocarry_lxor by done. rewrite Z.ones_equiv. unfold tagged. rewrite Z.pow_add_r by lia. lia.
Qed.

Lemma land_pow2 x n : 0 <= n -> negb (Z.land x (2 ^ n) =? 0) = Z.testbit x n.
Proof.
  intros Hn. destruct (Z.testbit x n) eqn:E.
  - apply negb_true_iff, Z.eqb_neq. intros E0. apply (f_equal (fun y => Z.testbit y n)) in E0.
    by rewrite Z.land_spec, E, Z.pow2_bits_true, Z.bits_0 in E0 by done.
  - apply negb_false_iff, Z.eqb_eq, Z.bits_inj'. intros j Hj. rewrite Z.land_spec, Z.pow2_bits_eqb, Z.bits_0 by done.
    destruct (Z.eqb_spec n j) as [->|]; [by rewrite E | apply andb_false_r].
Qed.

Lemma land_zero x y : 0 <= x -> 0 <= y -> (Z.land x y =? 0) = true <-> forall j, 0 <= j -> Z.testbit y j = true -> Z.testbit x j = false.
Proof.
  intros Hx Hy. rewrite Z.eqb_eq. split.
  - intros E j Hj Ej. apply (f_equal (fun z => Z.testbit z j)) in E. rewrite Z.land_spec, Ej, Z.bits_0 in E. by rewrite andb_true_r in E.
  - intros HF. apply Z.bits_inj'. intros j Hj. rewrite Z.land_spec, Z.bits_0. destruct (Z.testbit y j) eqn:E; [|apply andb_false_r].
    by rewrite HF.
Qed.

(** The tag in a word *)
Lemma tag_of a k : 0 <= k <= 63 -> 0 <= a < 2 ^ (63 - k) -> Z.land (tagged a k) (u64 (unot 64 (tagged a k) + 1)) = 2 ^ k.
Proof.
  intros Hk Ha. apply Z.bits_inj'. intros j Hj. rewrite Z.land_spec, testbit_tagged, testbit_negative, Z.pow2_bits_eqb by lia.
  destruct (Z.ltb_spec j k), (Z.eqb_spec j k), (Z.eqb_spec k j); try (done || lia).
  destruct (Z.testbit a (j - k - 1)); [apply andb_false_r | done].
Qed.

Lemma double_pow k : 0 <= k <= 63 -> u64 (Z.shiftl (2 ^ k) 1) = if k <? 63 then 2 ^ (k + 1) else 0.
Proof.
  intros Hk. rewrite Z.shiftl_mul_pow2 by done. unfold u64. destruct (Z.ltb_spec k 63).
  - rewrite Z.pow_add_r by lia. apply wrap_small. pose proof (Z.pow_le_mono_r 2 k 62 ltac:(lia) ltac:(lia)).
    pose proof (Z.pow_pos_nonneg 2 k). lia.
  - by replace k with 63 by lia.
Qed.

(** ** Shards as paths *)

Definition path_prefix (p : list bool) : Z := tagged (bits_uint p) (63 - zlen p).
Definition of_path (wc : Z) (p : list bool) : ShardIdent := mkShard wc (path_prefix p).

(** A path from the root, and the first and the last bit of a longer one *)
Lemma zlen_zero {A} (l : list A) : zlen l = 0 <-> l = [].
Proof. unfold zlen. destruct l; simpl; split; (done || lia). Qed.

Section Path.
Context (wc : Z) (p : list bool) (Hp : zlen p <= 63).
Abbreviation s := (of_path wc p).
Abbreviation k := (63 - zlen p).

Lemma path_bounds : 0 <= k <= 63 /\ 0 <= bits_uint p < 2 ^ (63 - k).
Proof. pose proof (zlen_nonneg p). pose proof (bits_uint_range p). split; [lia|]. by replace (63 - k) with (zlen p) by lia. Qed.

Lemma path_range : 0 < path_prefix p < 2 ^ 64.
Proof. destruct path_bounds. by apply tagged_range. Qed.

Lemma path_tag : ShardIdent.prefix_tag s = 2 ^ k.
Proof. destruct path_bounds. by apply tag_of. Qed.

Lemma path_bit i : 0 <= i < zlen p -> Z.testbit (path_prefix p) (63 - i) = default false (p !! Z.to_nat i).
Proof.
  intros Hi. pose proof (zlen_nonneg p). unfold path_prefix. rewrite testbit_tagged by lia. zcases; [lia..|].
  rewrite testbit_bits_uint by lia. do 2 f_equal. lia.
Qed.

Lemma path_full : ShardIdent.is_full s = bool_decide (p = []).
Proof.
  unfold ShardIdent.is_full, of_path. cbn [shard_prefix]. change ShardIdent.PREFIX_FULL with (tagged 0 63). destruct path_bounds as [Hk _].
  case_bool_decide as Ep; [by subst p|]. apply Z.eqb_neq. intros [_ E]%tagged_inj; [|lia..]. apply Ep, zlen_zero. lia.
Qed.

Lemma path_prefix_len : ShardIdent.prefix_len s = zlen p.
Proof.
  unfold ShardIdent.prefix_len, of_path. cbn [shard_prefix]. pose proof path_range as Hr. rewrite (proj2 (Z.eqb_neq _ _)) by lia.
  destruct path_bounds as [Hk _]. assert (trailing_zeros 64 (path_prefix p) = k) as ->.
  { apply (is_first_unique (Z.testbit (path_prefix p)) 64); [by apply trailing_zeros_first|]. unfold path_prefix.
    split; [lia|]. split; [intros i Hi | intros _]; rewrite testbit_tagged by lia; zcases; (done || lia). }
  rewrite u16_small; lia.
Qed.

Lemma path_left_right : ShardIdent.is_right_child s = default false (list.last p).
Proof.
  unfold ShardIdent.is_right_child. rewrite path_tag. pose proof (zlen_nonneg p). rewrite double_pow by lia.
  destruct (Z.ltb_spec k 63).
  - rewrite land_pow2 by lia. cbn [of_path shard_prefix]. replace (k + 1) with (63 - (zlen p - 1)) by lia.
    rewrite path_bit by lia. rewrite last_lookup. do 2 f_equal. unfold zlen. lia.
  - rewrite Z.land_0_r. assert (p = []) as -> by (apply zlen_zero; lia). done.
Qed.
End Path.

Lemma path_inj p q : zlen p <= 63 -> zlen q <= 63 -> path_prefix p = path_prefix q -> p = q.
Proof.
  intros Hp Hq E. pose proof (zlen_nonneg p). pose proof (zlen_nonneg q). apply tagged_inj in E as [E Hz]; [|lia..].
  apply bits_uint_inj; [lia | done].
Qed.

Lemma of_path_inj wc wc' p q : zlen p <= 63 -> zlen q <= 63 -> of_path wc p = of_path wc' q -> wc = wc' /\ p = q.
Proof. intros Hp Hq [= -> E]. split; [done|]. by apply path_inj. Qed.

Lemma path_exists x : 0 < x < 2 ^ 64 -> exists p, zlen p <= 63 /\ x = path_prefix p.
Proof.
  intros Hx. destruct (tagged_exists x Hx) as (a & k & -> & Hk & Ha). exists (uint_bits (63 - k) a).
  unfold path_prefix. rewrite zlen_uint_bits, bits_uint_bits by lia. split; [lia|]. f_equal. lia.
Qed.

(** The low bits of a prefix are free when the path is short enough. *)
Lemma path_low_bits p n : zlen p <= 63 -> 0 <= n <= 64 -> (Z.land (path_prefix p) (Z.ones n) =? 0) = (zlen p <=? 63 - n).
Proof.
  intros Hp Hn. destruct (path_bounds p Hp) as [Hk _]. destruct (Z.leb_spec (zlen p) (63 - n)).
  - apply land_zero; [pose proof (path_range p Hp); lia | rewrite Z.ones_equiv; pose proof (Z.pow_pos_nonneg 2 n); lia |]. intros j Hj. rewrite Z.testbit_ones_nonneg by lia.
    intros Hjn%Z.ltb_lt. unfold path_prefix. rewrite testbit_tagged by lia. zcases; (done || lia).
  - apply Z.eqb_neq. intros E. apply (f_equal (fun z => Z.testbit z (63 - zlen p))) in E. revert E.
    rewrite Z.land_spec, Z.testbit_ones_nonneg, Z.bits_0 by lia. unfold path_prefix. rewrite testbit_tagged by lia. zcases; (done || lia).
Qed.

(** [new] accepts the paths of at most 60 bits, for the masterchain only the whole. *)
Lemma shard_new_spec wc x s : 0 <= x < 2 ^ 64 ->
  (ShardIdent.new wc x = Some s <-> exists p, s = of_path wc p /\ x = path_prefix p /\ zlen p <= 60 /\ (wc = -1 -> p = [])).
Proof.
  intros Hx. unfold ShardIdent.new. change ShardIdent.UNUSED_BITS_MASK with (Z.ones 3).
  destruct (Z.eqb_spec x 0) as [->|Hx0]; cbn [orb].
  { split; [done|]. intros (p & _ & E & Hp & _). pose proof (path_range p ltac:(lia)). lia. }
  destruct (path_exists x ltac:(lia)) as (p & Hp & ->). rewrite path_low_bits by lia.
  assert ((path_prefix p =? ShardIdent.PREFIX_FULL) = bool_decide (p = [])) as -> by (exact (path_full wc p Hp)).
  destruct (Z.leb_spec (zlen p) (63 - 3)); cbn [negb orb]; cycle 1.
  { split; [done|]. intros (q & _ & E & Hq & _). apply path_inj in E as ->; lia. }
  assert (forall q, path_prefix p = path_prefix q -> zlen q <= 60 -> p = q) as Hinj by (intros q E Hq; apply path_inj; [lia..|done]).
  destruct (Z.eqb_spec wc (-1)) as [->|Hwc]; cbn [andb]; [case_bool_decide as Ep; cbn [negb]|].
  - split; [intros [= <-]; by exists p | by intros (q & -> & -> & _)].
  - split; [done|]. intros (q & -> & E & Hq & Hm). destruct Ep. rewrite (Hinj q E Hq). by apply Hm.
  - split; [intros [= <-]; by exists p | by intros (q & -> & -> & _)].
Qed.

(** ** The operations on paths *)

Lemma testbit_snoc a b i : 0 <= i -> Z.testbit (2 * a + b2z b) i = if i =? 0 then b else Z.testbit a (i - 1).
Proof.
  intros Hi. replace (b2z b) with (Z.b2z b) by (by destruct b). destruct (Z.eqb_spec i 0) as [->|]; [apply Z.testbit_0_r|].
  replace i with (Z.succ (i - 1)) at 1 by lia. apply Z.testbit_succ_r. lia.
Qed.

Lemma parent_prefix q b : zlen q < 63 ->
  let x := path_prefix (q ++ [b]) in let tag := ShardIdent.prefix_tag (of_path 0 (q ++ [b])) in
  Z.lor (u64 (x - tag)) (u64 (Z.shiftl tag 1)) = path_prefix q.
Proof.
  intros Hq. cbv zeta. pose proof (zlen_nonneg q). assert (zlen (q ++ [b]) <= 63) as Hqb by (rewrite zlen_snoc; lia).
  rewrite path_tag by done. pose proof (path_range _ Hqb) as Hr. destruct (path_bounds _ Hqb) as [Hk Ha].
  unfold path_prefix in *. rewrite zlen_snoc, bits_uint_snoc in *. set (a := 2 * bits_uint q + b2z b) in *. set (k := 63 - (zlen q + 1)) in *.
  rewrite double_pow by lia. rewrite (proj2 (Z.ltb_lt k 63)) by lia. replace (63 - zlen q) with (k + 1) by lia.
  assert (tagged a k - 2 ^ k = a * 2 ^ (k + 1)) as E by (unfold tagged; rewrite Z.pow_add_r by lia; lia). rewrite E.
  pose proof (Z.pow_pos_nonneg 2 k ltac:(lia) ltac:(lia)). pose proof (Z.pow_pos_nonneg 2 (k + 1) ltac:(lia) ltac:(lia)).
  unfold u64. rewrite wrap_small by lia. apply Z.bits_inj'. intros j Hj.
  rewrite Z.lor_spec, testbit_scaled, Z.pow2_bits_eqb, testbit_tagged by lia.
  destruct (Z.ltb_spec j (k + 1)). { rewrite Z.testbit_neg_r by lia. zcases; (done || lia). }
  rewrite (Z.eqb_sym (k + 1) j). destruct (Z.eqb_spec j (k + 1)); [apply orb_true_r|]. rewrite orb_false_r.
  unfold a. rewrite testbit_snoc by lia. rewrite (proj2 (Z.eqb_neq _ _)) by lia. done.
Qed.

Lemma path_merge wc q b : zlen q < 63 -> ShardIdent.merge (of_path wc (q ++ [b])) = Some (of_path wc q).
Proof.
  intros Hq. unfold ShardIdent.merge. rewrite path_full by (rewrite zlen_snoc; lia). rewrite bool_decide_false by (by destruct q).
  cbv zeta. unfold of_path at 5. do 2 f_equal. exact (parent_prefix q b Hq).
Qed.

Lemma merge_root wc : ShardIdent.merge (of_path wc []) = None.
Proof. done. Qed.

Lemma path_split wc p : zlen p <= 63 ->
  ShardIdent.split (of_path wc p) = if zlen p <? 60 then Some (of_path wc (p ++ [false]), of_path wc (p ++ [true])) else None.
Proof.
  intros Hp. unfold ShardIdent.split. change (u64 (u64 (Z.shiftl ShardIdent.UNUSED_BITS_MASK 1) + 1)) with (Z.ones 4).
  cbn [of_path shard_prefix workchain]. rewrite path_low_bits, path_tag by lia.
  destruct (Z.leb_spec (zlen p) (63 - 4)), (Z.ltb_spec (zlen p) 60); try lia; [|done]. cbn [negb].
  destruct (path_bounds p Hp) as [Hk Ha]. rewrite Z.shiftr_div_pow2 by done.
  assert (forall c : bool, path_prefix (p ++ [c]) = path_prefix p + (2 * b2z c - 1) * 2 ^ (62 - zlen p)) as E.
  { intros c. unfold path_prefix. rewrite zlen_snoc, bits_uint_snoc. unfold tagged. replace (63 - zlen p) with (62 - zlen p + 1) by lia.
    replace (63 - (zlen p + 1)) with (62 - zlen p) by lia. rewrite Z.pow_add_r by lia. lia. }
  replace (2 ^ (63 - zlen p) / 2 ^ 1) with (2 ^ (62 - zlen p)) by (rewrite <- Z.pow_sub_r by lia; f_equal; lia).
  pose proof (path_range (p ++ [false]) ltac:(rewrite zlen_snoc; lia)) as Hf. pose proof (path_range (p ++ [true]) ltac:(rewrite zlen_snoc; lia)) as Ht.
  rewrite !E in *. cbn [b2z] in *. unfold of_path, u64. rewrite !E, !wrap_small by (cbn [b2z]; lia). cbn [b2z].
  do 2 f_equal; f_equal; lia.
Qed.

Lemma path_opposite wc q b : zlen q < 63 -> ShardIdent.opposite (of_path wc (q ++ [b])) = Some (of_path wc (q ++ [negb b])).
Proof.
  intros Hq. unfold ShardIdent.opposite. assert (zlen (q ++ [b]) <= 63) as Hqb by (rewrite zlen_snoc; lia). pose proof (zlen_nonneg q).
  rewrite path_full by done. rewrite bool_decide_false by (by destruct q). rewrite path_tag by done. unfold of_path. cbn [workchain shard_prefix].
  do 2 f_equal. unfold path_prefix. rewrite !zlen_snoc, !bits_uint_snoc, double_pow by lia. rewrite (proj2 (Z.ltb_lt _ 63)) by lia.
  set (k := 63 - (zlen q + 1)). apply Z.bits_inj'. intros j Hj. rewrite Z.lxor_spec, Z.pow2_bits_eqb, !testbit_tagged by lia.
  rewrite (Z.eqb_sym (k + 1) j). destruct (Z.ltb_spec j k), (Z.eqb_spec j k); [zcases; (done || lia)..|].
  rewrite !testbit_snoc by lia. destruct (Z.eqb_spec j (k + 1)), (Z.eqb_spec (j - k - 1) 0); try lia; [apply xorb_true_r | apply xorb_false_r].
Qed.

Lemma path_parent wc wc' p q : zlen p <= 63 -> zlen q <= 63 ->
  ShardIdent.is_parent_of (of_path wc p) (of_path wc' q) = true <-> wc = wc' /\ exists b, q = p ++ [b].
Proof.
  intros Hp Hq. unfold ShardIdent.is_parent_of. rewrite path_full by done. cbn [of_path workchain].
  destruct (Z.eqb_spec wc wc') as [<-|Hwc]; cbn [negb orb]; [|split; [done | by intros []]].
  destruct q as [|b q _] using rev_ind; [split; [done | intros (_ & b & E); by destruct p]|]. rewrite zlen_snoc in Hq.
  rewrite bool_decide_false by (by destruct q). cbv zeta. cbn [shard_prefix].
  match goal with |- (?x =? _) = true <-> _ => replace x with (path_prefix q) by (symmetry; exact (parent_prefix q b ltac:(lia))) end.
  rewrite Z.eqb_eq. split.
  - intros E. apply path_inj in E as ->; [|lia..]. by eauto.
  - by intros (_ & b' & [-> _]%app_inj_tail).
Qed.

(** *** Common prefixes *)

Lemma agree_prefix {A} (p q : list A) :
  (forall i, (i < length p)%nat -> (i < length q)%nat -> p !! i = q !! i) <-> p `prefix_of` q \/ q `prefix_of` p.
Proof.
  split.
  - intros HF. assert (forall x y : list A, (length x <= length y)%nat -> (forall i, (i < length x)%nat -> x !! i = y !! i) -> x `prefix_of` y) as Hx.
    { intros x y Hl HF'. exists (drop (length x) y). rewrite <- (take_drop (length x) y) at 1. f_equal. apply list_eq. intros i.
      destruct (Nat.lt_ge_cases i (length x)); [rewrite lookup_take_lt by done; symmetry; by apply HF'|].
      rewrite !lookup_ge_None_2; [done | done | rewrite length_take; lia]. }
    destruct (Nat.le_ge_cases (length p) (length q)); [left | right]; (apply Hx; [done|]); intros i Hi; [|symmetry]; apply HF; lia.
  - intros [[x ->]|[x ->]] i Hp Hq; [by rewrite lookup_app_l | by rewrite lookup_app_l].
Qed.

(** Where the prefixes have the bits of both paths *)
Lemma path_bits_agree p q i : zlen p <= 63 -> zlen q <= 63 -> (i < length p)%nat -> (i < length q)%nat ->
  Z.testbit (Z.lxor (path_prefix p) (path_prefix q)) (63 - Z.of_nat i) = false <-> p !! i = q !! i.
Proof.
  intros Hp Hq Hip Hiq. rewrite Z.lxor_spec, !path_bit by (unfold zlen in *; lia). rewrite !Nat2Z.id.
  destruct (lookup_lt_is_Some_2 p i Hip) as [x ->], (lookup_lt_is_Some_2 q i Hiq) as [y ->]. cbn [default from_option id].
  split; [destruct x, y; by intros | intros [= ->]; by destruct y].
Qed.

Lemma lxor_nonneg_words p q : zlen p <= 63 -> zlen q <= 63 -> 0 <= Z.lxor (path_prefix p) (path_prefix q).
Proof. intros Hp Hq. pose proof (path_range p Hp). pose proof (path_range q Hq). apply Z.lxor_nonneg. lia. Qed.

Lemma path_intersects wc wc' p q : zlen p <= 63 -> zlen q <= 63 ->
  ShardIdent.intersects (of_path wc p) (of_path wc' q) = true <-> wc = wc' /\ (p `prefix_of` q \/ q `prefix_of` p).
Proof.
  intros Hp Hq. unfold ShardIdent.intersects. cbn [of_path workchain shard_prefix].
  destruct (Z.eqb_spec wc wc') as [<-|Hwc]; cbn [negb]; [|split; [done | by intros []]].
  change (mkShard wc (path_prefix p)) with (of_path wc p). change (mkShard wc (path_prefix q)) with (of_path wc q). rewrite !path_tag by done.
  pose proof (zlen_nonneg p). pose proof (zlen_nonneg q).
  assert ((if 2 ^ (63 - zlen p) <? 2 ^ (63 - zlen q) then 2 ^ (63 - zlen q) else 2 ^ (63 - zlen p)) = tagged 0 (63 - Z.min (zlen p) (zlen q))) as ->.
  { unfold tagged. rewrite Z.mul_0_r, Z.add_0_l, Z.mul_1_l. destruct (Z.ltb_spec (2 ^ (63 - zlen p)) (2 ^ (63 - zlen q))) as [Hlt|Hge].
    - apply Z.pow_lt_mono_r_iff in Hlt; [|lia..]. f_equal. lia.
    - apply Z.pow_le_mono_r_iff in Hge; [|lia..]. f_equal. lia. }
  set (t := 63 - Z.min (zlen p) (zlen q)). rewrite land_zero by (by apply lxor_nonneg_words || apply wrap_range; lia).
  assert (forall j, 0 <= j -> Z.testbit (u64 (Z.shiftl (u64 (unot 64 (tagged 0 t) + 1)) 1)) j = (t <? j) && (j <? 64)) as Hmask.
  { intros j Hj. unfold u64 at 1. rewrite testbit_wrap, testbit_shiftl, testbit_negative by (lia || (split; [lia | apply Z.pow_pos_nonneg; lia])).
    rewrite Z.bits_0. zcases; (done || lia). }
  rewrite <- agree_prefix. split.
  - intros HF. split; [done|]. intros i Hi1 Hi2. apply path_bits_agree; [done..|]. apply HF; [unfold zlen in *; lia|].
    rewrite Hmask by (unfold zlen in *; lia). apply andb_true_iff. split; apply Z.ltb_lt; unfold zlen in *; lia.
  - intros [_ HF] j Hj. rewrite Hmask by done. intros [H1%Z.ltb_lt H2%Z.ltb_lt]%andb_true_iff.
    replace j with (63 - Z.of_nat (Z.to_nat (63 - j))) by lia.
    apply path_bits_agree; [done..| | |apply HF]; unfold zlen in *; lia.
Qed.

(** The mask of [is_ancestor_of] is made of the whole prefix and not of its tag: a bit of
    the path in front of a one is not compared. *)
Lemma path_ancestor wc wc' p q : zlen p <= 63 -> zlen q <= 63 ->
  ShardIdent.is_ancestor_of (of_path wc p) (of_path wc' q) = true <->
  wc = wc' /\ zlen p <= zlen q /\ forall i, (i < length p)%nat -> p !! S i <> Some true -> p !! i = q !! i.
Proof.
  intros Hp Hq. unfold ShardIdent.is_ancestor_of. rewrite !path_tag by done. cbn [of_path workchain shard_prefix].
  destruct (Z.eqb_spec wc wc') as [<-|Hwc]; cbn [negb]; [|split; [done | by intros []]].
  pose proof (zlen_nonneg p). pose proof (zlen_nonneg q). destruct (path_bounds p Hp) as [Hk Ha].
  rewrite andb_true_iff, Z.leb_le, <- Z.pow_le_mono_r_iff by lia. rewrite land_zero by (by apply lxor_nonneg_words || apply wrap_range; lia).
  assert (forall i, (i < length p)%nat ->
    Z.testbit (u64 (Z.shiftl (ShardIdent.prefix_tag_mask (mkShard wc (path_prefix p))) 1)) (63 - Z.of_nat i) = negb (bool_decide (p !! S i = Some true))) as Hmask.
  { intros i Hi. unfold u64 at 1, ShardIdent.prefix_tag_mask. cbn [of_path shard_prefix]. unfold path_prefix.
    rewrite testbit_wrap, testbit_shiftl, testbit_negative by lia. unfold zlen in *.
    rewrite (proj2 (Z.ltb_lt (63 - Z.of_nat i) 64)) by lia. cbn [andb].
    rewrite (proj2 (Z.ltb_ge _ _)) by lia. destruct (Z.eqb_spec (63 - Z.of_nat i - 1) (63 - Z.of_nat (length p))) as [E|E].
    - rewrite bool_decide_false; [done|]. by rewrite lookup_ge_None_2 by lia.
    - rewrite (proj2 (Z.ltb_lt _ 64)) by lia. cbn [andb]. f_equal. fold (zlen p). rewrite testbit_bits_uint by (unfold zlen; lia).
      replace (Z.to_nat _) with (S i) by (unfold zlen; lia). destruct (lookup_lt_is_Some_2 p (S i)) as [x ->]; [lia|]. by destruct x. }
  split.
  - intros [Hl HF]. split; [done|]. split; [lia|]. intros i Hi Hn. apply path_bits_agree; [done..|unfold zlen in *; lia|].
    apply HF; [unfold zlen in *; lia|]. rewrite Hmask by done. by rewrite bool_decide_false.
  - intros (_ & Hl & HF). split; [lia|]. intros j Hj Hm.
    assert (63 - zlen p < j < 64) as Hjr.
    { revert Hm. unfold u64 at 1, ShardIdent.prefix_tag_mask. cbn [of_path shard_prefix]. unfold path_prefix.
      rewrite testbit_wrap, testbit_shiftl, testbit_negative by lia. zcases; intros; (done || lia). }
    replace j with (63 - Z.of_nat (Z.to_nat (63 - j))) in Hm |- * by lia. assert ((Z.to_nat (63 - j) < length p)%nat) as Hi by (unfold zlen in *; lia).
    rewrite Hmask, negb_true_iff, bool_decide_eq_false in Hm by done.
    apply path_bits_agree; [done..|unfold zlen in *; lia|]. by apply HF.
Qed.

Lemma prefix_is_ancestor wc p q : zlen q <= 63 -> p `prefix_of` q -> ShardIdent.is_ancestor_of (of_path wc p) (of_path wc q) = true.
Proof.
  intros Hq [x ->]. rewrite zlen_app in Hq. pose proof (zlen_nonneg x). rewrite path_ancestor by (rewrite ?zlen_app; lia). split; [done|].
  rewrite zlen_app. split; [lia|]. intros i Hi _. by rewrite lookup_app_l.
Qed.

(** *** The accounts of a shard *)

Lemma prefix_of_bits {A} (p l : list A) : (length p <= length l)%nat ->
  (p `prefix_of` l <-> forall i, (i < length p)%nat -> p !! i = l !! i).
Proof.
  intros Hl. split; [intros [x ->] i Hi; by rewrite lookup_app_l|]. intros HF. exists (drop (length p) l).
  rewrite <- (take_drop (length p) l) at 1. f_equal. apply list_eq. intros i.
  destruct (Nat.lt_ge_cases i (length p)); [rewrite lookup_take_lt by done; symmetry; by apply HF|].
  rewrite !lookup_ge_None_2; [done | done | rewrite length_take; lia].
Qed.

Lemma bit_at_head b l i : 0 <= i < 8 -> bit_at (b :: l) i = Z.testbit b (7 - i).
Proof. intros Hi. replace i with (8 * 0 + i) at 1 by lia. by rewrite bit_at_split by lia. Qed.

Lemma bit_at_tail b l i : 8 <= i -> bit_at (b :: l) i = bit_at l (i - 8).
Proof.
  intros Hi. unfold bit_at. replace ((i - 8) mod 8) with (i mod 8) by lia. f_equal. unfold byte_at.
  replace (Z.to_nat (i / 8)) with (S (Z.to_nat ((i - 8) / 8))) by lia. done.
Qed.

Lemma contains_bytes_spec P Q n : Forall is_byte P -> Forall is_byte Q -> zlen P = zlen Q -> 0 <= n <= 8 * zlen P ->
  ShardIdent.contains_bytes n P Q = true <-> forall i, 0 <= i < n -> bit_at P i = bit_at Q i.
Proof.
  intros HP. revert Q n. induction HP as [|x P Hx HP IH]; intros Q n HQ Hz Hn; cbn [ShardIdent.contains_bytes].
  { change (zlen []) with 0 in Hn. destruct (n <=? 0) eqn:E; split; intros; (done || lia). }
  destruct Q as [|y Q]; [by apply zlen_zero in Hz|]. inversion HQ as [|? ? Hy HQ']; subst. rewrite !zlen_cons in *.
  destruct (Z.leb_spec n 0); [split; intros; (done || lia)|]. destruct (Z.leb_spec 8 n).
  - destruct (Z.eqb_spec x y) as [<-|Hxy]; cbn [negb].
    + rewrite IH by (done || lia). split; intros HF i Hi.
      * destruct (Z.lt_ge_cases i 8); [by rewrite !bit_at_head by lia|]. rewrite !bit_at_tail by lia. apply HF. lia.
      * specialize (HF (i + 8) ltac:(lia)). rewrite !bit_at_tail in HF by lia. by rewrite Z.add_simpl_r in HF.
    + split; [done|]. intros HF. destruct Hxy. apply Z.bits_inj'. intros j Hj. destruct (Z.lt_ge_cases j 8).
      * specialize (HF (7 - j) ltac:(lia)). rewrite !bit_at_head in HF by lia. by replace (7 - (7 - j)) with j in HF by lia.
      * unfold is_byte in *. by rewrite !(testbit_high 8) by lia.
  - unfold is_byte in *. rewrite land_zero by first [apply Z.lxor_nonneg; lia | apply wrap_range; lia]. split; intros HF i Hi.
    + rewrite !bit_at_head by lia. specialize (HF (7 - i) ltac:(lia)). rewrite testbit_ff_shl, Z.lxor_spec in HF by lia.
      specialize (HF ltac:(apply Z.leb_le; lia)). by destruct (Z.testbit x (7 - i)), (Z.testbit y (7 - i)).
    + intros Hm. destruct (Z.lt_ge_cases i 8); [|unfold u8 in Hm; rewrite testbit_wrap, (proj2 (Z.ltb_ge _ _)) in Hm by lia; done].
      rewrite testbit_ff_shl in Hm by lia. apply Z.leb_le in Hm. specialize (HF (7 - i) ltac:(lia)). rewrite !bit_at_head in HF by lia.
      replace (7 - (7 - i)) with i in HF by lia. rewrite Z.lxor_spec, HF. apply xorb_nilpotent.
Qed.

Lemma path_contains wc p account : zlen p <= 60 -> Forall is_byte account -> zlen account = 8 ->
  ShardIdent.contains_account_prefix (of_path wc p) account = true <-> p `prefix_of` bits_from account 0 64.
Proof.
  intros Hp Ha Hz. unfold ShardIdent.contains_account_prefix. rewrite path_prefix_len by lia. cbn [of_path shard_prefix]. pose proof (zlen_nonneg p).
  rewrite contains_bytes_spec by (apply to_be_bytes_bytes || done || rewrite length_to_be_bytes; lia).
  assert (forall i, (i < length p)%nat -> bit_at (to_be_bytes 8 (path_prefix p)) (Z.of_nat i) = default false (p !! i)) as Hb.
  { intros i Hi. rewrite bit_at_to_be by (unfold zlen in *; lia). replace (8 * 8 - 1 - Z.of_nat i) with (63 - Z.of_nat i) by lia.
    rewrite path_bit by (unfold zlen in *; lia). by rewrite Nat2Z.id. }
  rewrite prefix_of_bits by (rewrite length_bits_from; unfold zlen in *; lia). split.
  - intros HF i Hi. rewrite lookup_bits_from by (unfold zlen in *; lia). rewrite Z.add_0_l, <- HF, Hb by (unfold zlen in *; lia).
    by destruct (lookup_lt_is_Some_2 p i Hi) as [x ->].
  - intros HF i Hi. specialize (HF (Z.to_nat i) ltac:(unfold zlen in *; lia)). specialize (Hb (Z.to_nat i) ltac:(unfold zlen in *; lia)).
    rewrite Z2Nat.id in Hb by lia. rewrite Hb, HF, lookup_bits_from by (unfold zlen in *; lia). cbn [default from_option id]. f_equal. lia.
Qed.

(** ** Idents in cells *)

(** Reading an integer off the front *)
Lemma front_uint w s v l : Width w -> slice_wf s -> 0 <= v < 2 ^ w -> slice_bits s = uint_bits w v ++ l ->
  exists s', load_be w s = Ok (v, s') /\ moved s s' l.
Proof. apply load_be_enc. Qed.

Definition shard_enc (s : ShardIdent) : list bool :=
  uint_bits 8 (ShardIdent.prefix_len s) ++ uint_bits 32 (wrap 32 (workchain s)) ++ uint_bits 64 (shard_prefix s - ShardIdent.prefix_tag s).

Definition shard_ok (s : ShardIdent) : Prop :=
  - 2 ^ 31 <= workchain s < 2 ^ 31 /\ exists p, zlen p <= 60 /\ s = of_path (workchain s) p.

(** The prefix without its tag, and the tag put back *)
Lemma path_untagged p : zlen p <= 63 ->
  let rest := path_prefix p - 2 ^ (63 - zlen p) in let tag := u64 (Z.shiftl 1 (63 - zlen p)) in
  0 <= rest < 2 ^ 64 /\ Z.lor (Z.land rest (u64 (unot 64 tag + 1))) tag = path_prefix p.
Proof.
  intros Hp. cbv zeta. pose proof (path_range p Hp) as Hr. destruct (path_bounds p Hp) as [Hk Ha]. pose proof (zlen_nonneg p).
  unfold path_prefix in *. set (k := 63 - zlen p) in *. set (a := bits_uint p) in *. pose proof (Z.pow_pos_nonneg 2 k ltac:(lia) ltac:(lia)).
  assert (tagged a k - 2 ^ k = a * 2 ^ (k + 1)) as E by (unfold tagged; rewrite Z.pow_add_r by lia; lia). rewrite E.
  pose proof (Z.pow_pos_nonneg 2 (k + 1) ltac:(lia) ltac:(lia)). split; [lia|].
  assert (u64 (Z.shiftl 1 k) = 2 ^ k) as ->.
  { rewrite Z.shiftl_1_l. apply wrap_small. pose proof (Z.pow_le_mono_r 2 k 63 ltac:(lia) ltac:(lia)). lia. }
  assert (2 ^ k = tagged 0 k) as Et by (unfold tagged; lia). rewrite Et at 1. apply Z.bits_inj'. intros j Hj.
  rewrite Z.lor_spec, Z.land_spec, testbit_scaled, Z.pow2_bits_eqb, testbit_negative, testbit_tagged by lia. rewrite Z.bits_0.
  destruct (Z.ltb_spec j k); [rewrite (proj2 (Z.eqb_neq k j)) by lia; by rewrite andb_false_r|]. rewrite (Z.eqb_sym k j).
  destruct (Z.eqb_spec j k); [apply orb_true_r|]. rewrite orb_false_r. replace (j - (k + 1)) with (j - k - 1) by lia.
  destruct (Z.ltb_spec j 64); [by rewrite andb_true_r|]. rewrite andb_false_r. symmetry. apply testbit_high with (63 - k); lia.
Qed.

Lemma store_shard_enc s ctx b : shard_ok s -> builder_wf b -> store_into s ctx b = append_full b (shard_enc s, []).
Proof.
  intros [Hw (p & Hp & E)] Hb. set (wc := workchain s) in *. rewrite E. unfold store_into, Store_ShardIdent, shard_enc.
  rewrite path_prefix_len, path_tag by lia. pose proof (zlen_nonneg p). rewrite u8_small by lia. cbn [of_path workchain shard_prefix].
  destruct (path_untagged p ltac:(lia)) as [Hr _]. unfold u64. rewrite wrap_small by done.
  change (fun d => store_u8 d (zlen p)) with (fun d => store_be 8 d (zlen p)).
  change (fun d => store_u32 d (u32 wc)) with (fun d => store_be 32 d (wrap 32 wc)).
  rewrite (on_data_append _ b (uint_bits 8 (zlen p))) by first [done | apply store_be_spec; [apply _ | apply Hb | lia]].
  rewrite (append_bind b _ (uint_bits 32 (wrap 32 wc) ++ uint_bits 64 (path_prefix p - 2 ^ (63 - zlen p)), [])); [done | done |].
  intros c Hc. rewrite (on_data_append _ c (uint_bits 32 (wrap 32 wc))) by first [done | apply store_be_spec; [apply _ | apply Hc | by apply wrap_range]].
  rewrite (append_bind c _ (uint_bits 64 (path_prefix p - 2 ^ (63 - zlen p)), [])); [done | done |].
  intros c' Hc'. apply on_data_append; [done|]. apply (store_be_spec 64); [apply _ | apply Hc' | done].
Qed.

Lemma load_shard_enc s v l : shard_ok v -> slice_wf s -> slice_bits s = shard_enc v ++ l ->
  exists s', load_from s = Ok (v, s') /\ moved s s' l.
Proof.
  intros [Hw (p & Hp & E)] Hs Eb. unfold load_from, Load_ShardIdent. unfold shard_enc in Eb. rewrite <- !app_assoc in Eb.
  pose proof (zlen_nonneg p). rewrite E in Eb. rewrite path_prefix_len, path_tag in Eb by lia. cbn [of_path workchain shard_prefix] in Eb.
  destruct (path_untagged p ltac:(lia)) as [Hr Et].
  destruct (front_uint 8 s (zlen p) _ _ Hs ltac:(lia) Eb) as (s1 & E1 & M1). change (load_be 8 s) with (load_u8 s) in E1. rewrite E1. cbn [rbind].
  change ShardIdent.MAX_SPLIT_DEPTH with 60. rewrite (proj2 (Z.ltb_ge 60 (zlen p))) by lia.
  destruct (front_uint 32 s1 _ _ _ (mv_wf _ _ _ M1) (wrap_range 32 (workchain v) ltac:(lia)) (mv_bits _ _ _ M1)) as (s2 & E2 & M2).
  change (load_be 32 s1) with (load_u32 s1) in E2. rewrite E2. cbn [rbind].
  destruct (front_uint 64 s2 _ _ _ (mv_wf _ _ _ M2) Hr (mv_bits _ _ _ M2)) as (s3 & E3 & M3).
  change (load_be 64 s2) with (load_u64 s2) in E3. rewrite E3. cbn [rbind]. cbv zeta in Et. rewrite Et, as_signed_wrap by lia.
  exists s3. split; [|exact (moved_trans _ _ _ _ _ (moved_trans _ _ _ _ _ M1 M2) M3)]. do 2 f_equal. by rewrite E at 2.
Qed.

#[export] Program Instance Codec_ShardIdent : Codec ShardIdent := { enc_ok := shard_ok; enc s := (shard_enc s, []) }.
Next Obligation. intros ctx b v Hb Hv. by apply store_shard_enc. Qed.
Next Obligation. intros s v l rs Hs Hv Hb Hr. apply moved_codec; [by apply load_shard_enc | done]. Qed.

(** Whatever is loaded is the ident of a path of at most 60 bits, though for the
    masterchain not only of the root. *)
Lemma retagged x n : 0 <= x < 2 ^ 64 -> 0 <= n <= 63 ->
  let tag := u64 (Z.shiftl 1 (63 - n)) in
  Z.lor (Z.land x (u64 (unot 64 tag + 1))) tag = path_prefix (uint_bits n (Z.shiftr x (64 - n))).
Proof.
  intros Hx Hn. cbv zeta. unfold path_prefix. rewrite zlen_uint_bits, bits_uint_bits by
    (lia || (split; [apply Z.shiftr_nonneg; lia|]; rewrite Z.shiftr_div_pow2 by lia; apply Z.div_lt_upper_bound;
      [apply Z.pow_pos_nonneg; lia | rewrite <- Z.pow_add_r by lia; replace (64 - n + n) with 64 by lia; lia])).
  set (k := 63 - n). pose proof (Z.pow_pos_nonneg 2 k ltac:(lia) ltac:(lia)).
  assert (u64 (Z.shiftl 1 k) = 2 ^ k) as ->.
  { rewrite Z.shiftl_1_l. apply wrap_small. pose proof (Z.pow_le_mono_r 2 k 63 ltac:(lia) ltac:(lia)). lia. }
  assert (2 ^ k = tagged 0 k) as Et by (unfold tagged; lia). rewrite Et at 1. apply Z.bits_inj'. intros j Hj.
  pose proof (Z.pow_pos_nonneg 2 (63 - k) ltac:(lia) ltac:(lia)).
  rewrite Z.lor_spec, Z.land_spec, Z.pow2_bits_eqb, testbit_negative, testbit_tagged, Z.bits_0 by lia.
  destruct (Z.ltb_spec j k); [rewrite (proj2 (Z.eqb_neq k j)) by lia; by rewrite andb_false_r|]. rewrite (Z.eqb_sym k j).
  destruct (Z.eqb_spec j k); [apply orb_true_r|]. rewrite orb_false_r, Z.shiftr_spec by lia. replace (j - k - 1 + (64 - n)) with j by lia.
  destruct (Z.ltb_spec j 64); [by rewrite andb_true_r|]. rewrite andb_false_r. symmetry. by apply testbit_high with 64.
Qed.

Lemma load_be_range w s v s' : Width w -> slice_wf s -> load_be w s = Ok (v, s') -> 0 <= v < 2 ^ w /\ slice_wf s'.
Proof.
  intros Hw Hs. rewrite load_be_spec by done. destruct (Z.leb_spec w (size_bits s)); [|done]. intros [= <- <-].
  assert (0 <= w) as Hw0 by (destruct Hw as [<-|[<-|[<-|[<-|[<-|[]]]]]]; lia). pose proof (zlen_slice_bits s Hs) as Hz.
  assert (zlen (take (Z.to_nat w) (slice_bits s)) = w) as Ez by (unfold zlen in *; rewrite length_take; lia).
  split; [pose proof (bits_uint_range (take (Z.to_nat w) (slice_bits s))) as Hr; by rewrite Ez in Hr|]. by apply advance_wf.
Qed.

Lemma load_shard_path s v s' : slice_wf s -> load_from s = Ok (v, s') -> exists p, zlen p <= 60 /\ v = of_path (workchain v) p.
Proof.
  intros Hs. unfold load_from, Load_ShardIdent. change (load_u8 s) with (load_be 8 s). destruct (load_be 8 s) as [[n s1]|] eqn:E1; [|done]. cbn [rbind].
  destruct (load_be_range 8 s n s1 _ Hs E1) as [Hn W1]. change ShardIdent.MAX_SPLIT_DEPTH with 60. destruct (Z.ltb_spec 60 n); [done|].
  change (load_u32 s1) with (load_be 32 s1). destruct (load_be 32 s1) as [[wc s2]|] eqn:E2; [|done]. cbn [rbind].
  destruct (load_be_range 32 s1 wc s2 _ W1 E2) as [_ W2]. change (load_u64 s2) with (load_be 64 s2).
  destruct (load_be 64 s2) as [[x s3]|] eqn:E3; [|done]. cbn [rbind]. destruct (load_be_range 64 s2 x s3 _ W2 E3) as [Hx _].
  intros [= <- <-]. exists (uint_bits n (Z.shiftr x (64 - n))). rewrite zlen_uint_bits by lia. split; [lia|].
  unfold of_path. cbn [workchain]. f_equal. apply (retagged x n); lia.
Qed.

(** ** Cells with a given content *)

(** A cell with a given content *)
Lemma finish_cell ctx {laws : ContextLaws ctx} f x D : appends f x ->
  zlen x.1 <= MAX_BIT_LEN -> zlen x.2 <= MAX_REF_COUNT -> Forall cell_ok x.2 -> 0 <= D <= MAX_DEPTH -> Forall (fun r => cdepth r + 1 <= D) x.2 ->
  exists c, (let! b := f builder_new in build_ext ctx b) = Ok c /\ ordinary c x.1 x.2 /\ cell_ok c /\ cdepth c <= D.
Proof.
  intros Hf Hb Hr Hc HD Hd. rewrite Hf by apply builder_new_wf.
  assert (append_full builder_new x = Ok (mkBuilder (of_bits x.1) false x.2)) as E.
  { rewrite append_full_new. by rewrite !(proj2 (Z.leb_le _ _)) by done. }
  destruct (append_full_wf _ _ _ builder_new_wf E) as (Wb & Cb & _ & _).
  change (inner builder_new) with data_new in Cb. rewrite contents_new in Cb. simpl in Cb. rewrite E. cbn [rbind].
  destruct (finalize_law _ D Wb eq_refl Hc HD Hd) as (c & Ec & Ho & Hok & Hdc). simpl in Ho. rewrite Cb in Ho. by exists c.
Qed.

(** ** Descriptions in cells *)

Definition split_merge_ok (m : FutureSplitMerge) : Prop :=
  match m with FutureSplit utime interval | FutureMerge utime interval => 0 <= utime < 2 ^ 32 /\ 0 <= interval < 2 ^ 32 end.
Definition split_merge_bits (m : FutureSplitMerge) : list bool :=
  match m with
  | FutureSplit utime interval => false :: uint_bits 32 utime ++ uint_bits 32 interval
  | FutureMerge utime interval => true :: uint_bits 32 utime ++ uint_bits 32 interval
  end.

Lemma load_split_merge s m l : split_merge_ok m -> slice_wf s -> slice_bits s = split_merge_bits m ++ l ->
  exists s', load_from s = Ok (m, s') /\ moved s s' l.
Proof.
  intros Hm Hs Hb. unfold load_from, Load_FutureSplitMerge.
  assert (exists bit utime interval, (if bit : bool then FutureMerge utime interval else FutureSplit utime interval) = m /\
    0 <= utime < 2 ^ 32 /\ 0 <= interval < 2 ^ 32 /\ slice_bits s = bit :: uint_bits 32 utime ++ uint_bits 32 interval ++ l) as
    (bit & utime & interval & <- & Hu & Hi & Hb').
  { destruct m as [u i|u i]; destruct Hm; [exists false, u, i | exists true, u, i]; (do 3 (split; [done|])); rewrite Hb; cbn [split_merge_bits app];
      by rewrite <- app_assoc. }
  destruct (front_bit s bit _ Hs Hb') as [-> M0]. cbn [rbind].
  destruct (front_uint 32 _ utime _ _ (mv_wf _ _ _ M0) Hu (mv_bits _ _ _ M0)) as (s1 & E1 & M1).
  change (load_be 32 (advance s 1)) with (load_u32 (advance s 1)) in E1. rewrite E1. cbn [rbind].
  destruct (front_uint 32 _ interval _ _ (mv_wf _ _ _ M1) Hi (mv_bits _ _ _ M1)) as (s2 & E2 & M2).
  change (load_be 32 s1) with (load_u32 s1) in E2. rewrite E2. cbn [rbind].
  exists s2. split; [done|]. exact (moved_trans _ _ _ _ _ (moved_trans _ _ _ _ _ M0 M1) M2).
Qed.

#[export] Program Instance Codec_FutureSplitMerge : Codec FutureSplitMerge := {
  enc_ok := split_merge_ok; enc m := (split_merge_bits m, []) }.
Next Obligation.
  intros ctx b m Hb Hm. unfold store_into, Store_FutureSplitMerge. destruct m as [u i|u i]; destruct Hm as [Hu Hi]; cbn [split_merge_bits].
  - exact (appends_bind _ _ _ _ (appends_bit false) (appends_bind _ _ _ _ (appends_uint 32 u _ Hu) (appends_uint 32 i _ Hi)) b Hb).
  - exact (appends_bind _ _ _ _ (appends_bit true) (appends_bind _ _ _ _ (appends_uint 32 u _ Hu) (appends_uint 32 i _ Hi)) b Hb).
Qed.
Next Obligation. intros s m l rs Hs Hm Hb Hr. apply moved_codec; [by apply load_split_merge | done]. Qed.

Lemma load_planned s (m : option FutureSplitMerge) l : enc_ok m -> slice_wf s -> slice_bits s = (enc m).1 ++ l ->
  exists s', load_from s = Ok (m, s') /\ moved s s' l.
Proof.
  intros Hm Hs Hb. unfold load_from, Load_option. destruct m as [m|].
  - destruct (front_bit s true (split_merge_bits m ++ l) Hs Hb) as [-> M0]. cbn [rbind].
    destruct (load_split_merge _ m l Hm (mv_wf _ _ _ M0) (mv_bits _ _ _ M0)) as (s' & -> & M). exists s'. split; [done|]. exact (moved_trans _ _ _ _ _ M0 M).
  - destruct (front_bit s false l Hs Hb) as [-> M0]. by exists (advance s 1).
Qed.

(** What a description needs to be stored *)
Record description_ok (d : ShardDescription) : Prop := {
  do_seqno : 0 <= seqno d < 2 ^ 32;
  do_reg : 0 <= reg_mc_seqno d < 2 ^ 32;
  do_start : 0 <= start_lt d < 2 ^ 64;
  do_end : 0 <= end_lt d < 2 ^ 64;
  do_root : hash_ok (root_hash d);
  do_file : hash_ok (file_hash d);
  do_catchain : 0 <= next_catchain_seqno d < 2 ^ 32;
  do_validator : 0 <= next_validator_shard d < 2 ^ 64;
  do_ref : 0 <= min_ref_mc_seqno d < 2 ^ 32;
  do_utime : 0 <= gen_utime d < 2 ^ 32;
  do_planned : enc_ok (split_merge_at d);
  do_amounts : enc_ok (fees_collected d, funds_created d);
}.

Definition description_bits (d : ShardDescription) : list bool :=
  uint_bits 4 0xa ++ uint_bits 32 (seqno d) ++ uint_bits 32 (reg_mc_seqno d) ++ uint_bits 64 (start_lt d) ++ uint_bits 64 (end_lt d) ++
  bits_from (root_hash d) 0 256 ++ bits_from (file_hash d) 0 256 ++ uint_bits 8 (ShardDescription.flags d) ++
  uint_bits 32 (next_catchain_seqno d) ++ uint_bits 64 (next_validator_shard d) ++ uint_bits 32 (min_ref_mc_seqno d) ++
  uint_bits 32 (gen_utime d) ++ (enc (split_merge_at d)).1.
Definition description_amounts (d : ShardDescription) : list bool * list Cell := enc (fees_collected d, funds_created d).

Lemma flags_range d : 0 <= ShardDescription.flags d < 256.
Proof. unfold ShardDescription.flags. by destruct (before_split d), (before_merge d), (want_split d), (want_merge d), (nx_cc_updated d). Qed.

Lemma zlen_description d : zlen (description_bits d) <= 942.
Proof.
  unfold description_bits. rewrite !zlen_app, !zlen_uint_bits, !zlen_bits_from by lia.
  assert (zlen (enc (split_merge_at d)).1 <= 66); [|lia]. destruct (split_merge_at d) as [m|]; [|done].
  change (zlen (true :: split_merge_bits m) <= 66). destruct m; cbn [split_merge_bits]; rewrite !zlen_cons, zlen_app, !zlen_uint_bits by lia; lia.
Qed.

Lemma store_description ctx d c : description_ok d -> build_from_ext (fees_collected d, funds_created d) ctx = Ok c ->
  appends (store_into d ctx) (description_bits d, [c]).
Proof.
  intros [] Hc.
  assert (appends (fun b => let! cell :=
      let! builder := store_into (fees_collected d) ctx builder_new in
      let! builder := store_into (funds_created d) ctx builder in build_ext ctx builder in store_reference b cell) ([], [c])) as Hcell.
  { intros b Hb. assert ((let! builder := store_into (fees_collected d) ctx builder_new in
      let! builder := store_into (funds_created d) ctx builder in build_ext ctx builder) = Ok c) as ->.
    { rewrite <- Hc. unfold build_from_ext, store_into at 3, Store_pair. cbn [fst snd]. by destruct (store_into (fees_collected d) ctx builder_new). }
    cbn [rbind]. by apply store_reference_spec. }
  intros b Hb. unfold description_bits.
  pose proof (appends_bind _ _ _ _ (appends_small 0xa 4 ltac:(done) ltac:(lia))
    (appends_bind _ _ _ _ (appends_uint 32 _ _ do_seqno0) (appends_bind _ _ _ _ (appends_uint 32 _ _ do_reg0)
    (appends_bind _ _ _ _ (appends_uint 64 _ _ do_start0) (appends_bind _ _ _ _ (appends_uint 64 _ _ do_end0)
    (appends_bind _ _ _ _ (appends_hash _ do_root0) (appends_bind _ _ _ _ (appends_hash _ do_file0)
    (appends_bind _ _ _ _ (appends_uint 8 _ _ (flags_range d)) (appends_bind _ _ _ _ (appends_uint 32 _ _ do_catchain0)
    (appends_bind _ _ _ _ (appends_uint 64 _ _ do_validator0) (appends_bind _ _ _ _ (appends_uint 32 _ _ do_ref0)
    (appends_bind _ _ _ _ (appends_uint 32 _ _ do_utime0) (appends_bind _ _ _ _ (appends_value ctx _ do_planned0) Hcell))))))))))))
    b Hb) as HF. cbn [fst snd] in HF. rewrite !app_nil_l, app_nil_r in HF.
  assert ((enc (split_merge_at d)).2 = []) as E2 by (by destruct (split_merge_at d)). rewrite E2 in HF. exact HF.
Qed.

(** One load further along a slice *)
Lemma step_uint w s si v l : moved s si (uint_bits w v ++ l) -> 0 <= v < 2 ^ w -> Width w ->
  exists sj, load_be w si = Ok (v, sj) /\ moved s sj l.
Proof.
  intros M Hv Hw. destruct (front_uint w si v l Hw (mv_wf _ _ _ M) Hv (mv_bits _ _ _ M)) as (sj & E & M'). exists sj.
  split; [done|]. exact (moved_trans _ _ _ _ _ M M').
Qed.

Lemma step_hash s si h l : moved s si (bits_from h 0 256 ++ l) -> hash_ok h -> exists sj, load_u256 si = Ok (h, sj) /\ moved s sj l.
Proof.
  intros M Hh. destruct (front_hash si h l Hh (mv_wf _ _ _ M) (mv_bits _ _ _ M)) as (sj & E & M'). exists sj.
  split; [done|]. exact (moved_trans _ _ _ _ _ M M').
Qed.

Ltac take_uint w ok :=
  match goal with M : moved ?s ?si _ |- _ =>
    let sj := fresh "s" in let E := fresh "E" in let M' := fresh "M" in
    destruct (step_uint w s si _ _ M ok ltac:(apply _)) as (sj & E & M'); clear M;
    first [change (load_be w si) with (load_u32 si) in E | change (load_be w si) with (load_u64 si) in E | change (load_be w si) with (load_u8 si) in E];
    rewrite E; cbn [rbind]; clear E
  end.
Ltac take_hash ok :=
  match goal with M : moved ?s ?si _ |- _ =>
    let sj := fresh "s" in let E := fresh "E" in let M' := fresh "M" in
    destruct (step_hash s si _ _ M ok) as (sj & E & M'); clear M; rewrite E; cbn [rbind]; clear E
  end.

Lemma moved_self s : slice_wf s -> moved s s (slice_bits s).
Proof. intros Hs. by split. Qed.

Lemma load_child s c rs : slice_wf s -> slice_references s = c :: rs -> is_exotic c = false ->
  load_reference_as_slice s = Ok (new_allow_exotic c, advance_ref s).
Proof.
  intros Hs Hr Hx. pose proof (load_reference_spec s Hs) as E. rewrite Hr in E. unfold load_reference in E. unfold load_reference_as_slice.
  destruct (refs_start (range s) <? refs_end (range s)); [|done]. destruct (reference (cell s) (refs_start (range s))) as [c'|]; [|done].
  injection E as ->. unfold slice_new. by rewrite Hx.
Qed.

Lemma flags_read d : let flag := ShardDescription.has_flag (ShardDescription.flags d) in
  (Z.land (ShardDescription.flags d) 0x3 =? 0) = true /\ flag 0x80 = before_split d /\ flag 0x40 = before_merge d /\
  flag 0x20 = want_split d /\ flag 0x10 = want_merge d /\ flag 0x08 = nx_cc_updated d.
Proof.
  unfold ShardDescription.flags. by destruct (before_split d), (before_merge d), (want_split d), (want_merge d), (nx_cc_updated d).
Qed.

Lemma load_description_enc s d c l rs : description_ok d -> slice_wf s -> slice_bits s = description_bits d ++ l -> slice_references s = c :: rs ->
  ordinary c (description_amounts d).1 (description_amounts d).2 -> exists s', load_from s = Ok (d, s').
Proof.
  intros [] Hs Hb Hr Hc. pose proof (moved_self s Hs) as M. rewrite Hb in M. unfold description_bits in M. rewrite <- !app_assoc in M.
  unfold load_from at 1, Load_ShardDescription. change ShardDescription.TAG_LEN with 4.
  destruct (front_small 4 s 0xa _ ltac:(lia) Hs ltac:(lia) (mv_bits _ _ _ M)) as (s1 & -> & M1). clear M. cbn [rbind].
  change (0xa =? ShardDescription.TAG_V1) with true. cbn [rbind].
  take_uint 32 do_seqno0. take_uint 32 do_reg0. take_uint 64 do_start0. take_uint 64 do_end0. take_hash do_root0. take_hash do_file0.
  take_uint 8 (flags_range d). destruct (flags_read d) as (Ef & F1 & F2 & F3 & F4 & F5). rewrite Ef. cbn [negb].
  take_uint 32 do_catchain0. take_uint 64 do_validator0. take_uint 32 do_ref0. take_uint 32 do_utime0.
  destruct (load_planned _ _ _ do_planned0 (mv_wf _ _ _ M) (mv_bits _ _ _ M)) as (sp & -> & Mp). cbn [rbind].
  pose proof (moved_trans _ _ _ _ _ M Mp) as Ms.
  destruct (ordinary_slice _ _ _ Hc) as (En & Wc & Bc & _ & Rc).
  rewrite (load_child sp c rs) by (apply Ms || (rewrite (mv_refs _ _ _ Ms); done) || apply Hc). cbn [rbind].
  destruct (load_enc _ (fees_collected d, funds_created d) [] [] Wc do_amounts0) as (sc & E3 & _); [by rewrite app_nil_r..|].
  unfold load_from at 1, Load_pair in E3. destruct (load_from (new_allow_exotic c)) as [[fees sf]|]; [|done]. cbn [rbind] in E3 |- *.
  destruct (load_from sf) as [[funds sg]|]; [|done]. cbn [rbind] in E3 |- *. injection E3 as -> -> ->.
  rewrite F1, F2, F3, F4, F5. eexists. destruct d. done.
Qed.

(** ** Trees of shards *)

Inductive stree : Type :=
| SLeaf (descr : ShardDescription)
| SFork (lft rgt : stree).

Fixpoint height (t : stree) : Z :=
  match t with SLeaf _ => 0 | SFork l r => 1 + Z.max (height l) (height r) end.

(** The shards of a tree below a path, from left to right *)
Fixpoint leaves (wc : Z) (p : list bool) (t : stree) : list (ShardIdent * ShardDescription) :=
  match t with
  | SLeaf d => [(of_path wc p, d)]
  | SFork l r => leaves wc (p ++ [false]) l ++ leaves wc (p ++ [true]) r
  end.

(** The cell of a tree, by recursion *)
Fixpoint tree_cell (cx : CellContext) (t : stree) : result Cell :=
  match t with
  | SLeaf d => WorkchainShardHashes.make_leaf cx d
  | SFork l r =>
      let! lft := tree_cell cx l in
      let! rgt := tree_cell cx r in WorkchainShardHashes.make_edge cx lft rgt
  end.

Lemma height_nonneg t : 0 <= height t.
Proof. induction t; simpl; lia. Qed.

Section Build.
Context (cx : CellContext) (wc : Z).
Abbreviation build_loop := (WorkchainShardHashes.build_loop cx).
Abbreviation join_loop := (WorkchainShardHashes.join_loop cx).
Abbreviation make_edge := (WorkchainShardHashes.make_edge cx).

Lemma left_child wc' p : zlen p < 63 -> ShardIdent.is_left_child (of_path wc' (p ++ [false])) = true.
Proof. intros Hp. unfold ShardIdent.is_left_child. rewrite path_left_right by (rewrite zlen_snoc; lia). by rewrite last_snoc. Qed.

Lemma right_child wc' p : zlen p < 63 -> ShardIdent.is_left_child (of_path wc' (p ++ [true])) = false.
Proof. intros Hp. unfold ShardIdent.is_left_child. rewrite path_left_right by (rewrite zlen_snoc; lia). by rewrite last_snoc. Qed.

Lemma join_left stack s c : ShardIdent.is_left_child s = true -> join_loop stack s c = Ok (JoinNext ((s, c) :: stack)).
Proof. intros E. destruct stack; cbn [WorkchainShardHashes.join_loop]; by rewrite E. Qed.

Lemma join_right stack p cl cr : zlen p < 63 ->
  join_loop ((of_path wc (p ++ [false]), cl) :: stack) (of_path wc (p ++ [true])) cr =
    let! c := make_edge cl cr in if bool_decide (p = []) then Ok (JoinRoot c) else join_loop stack (of_path wc p) c.
Proof.
  intros Hp. cbn [WorkchainShardHashes.join_loop]. rewrite right_child, !path_merge, bool_decide_true, path_full by (done || lia). done.
Qed.

(** What follows a join in the outer loop *)
Definition after_join (rest : list (ShardIdent * ShardDescription)) (flow : JoinFlow) : result Cell :=
  match flow with
  | JoinNext stack => build_loop rest stack
  | JoinRoot root => Ok root
  | JoinBroken => Err Unbalanced
  end.

Lemma build_leaves t p rest stack : zlen p + height t <= 60 -> p <> [] ->
  build_loop (leaves wc p t ++ rest) stack =
    let! c := tree_cell cx t in let! flow := join_loop stack (of_path wc p) c in after_join rest flow.
Proof.
  revert p rest stack. induction t as [d|l IHl r IHr]; intros p rest stack Hh Hp; cbn [leaves tree_cell height app] in *; [done|].
  pose proof (height_nonneg l). pose proof (height_nonneg r). rewrite <- app_assoc, IHl by (rewrite ?zlen_snoc; lia || by destruct p).
  destruct (tree_cell cx l) as [cl|]; [|done]. cbn [rbind]. rewrite join_left by (apply left_child; lia). cbn [rbind after_join].
  rewrite IHr by (rewrite ?zlen_snoc; lia || by destruct p). destruct (tree_cell cx r) as [cr|]; [|done]. cbn [rbind].
  rewrite join_right, bool_decide_false by (done || lia). by destruct (make_edge cl cr).
Qed.

(** The leftmost leaf of a tree comes first and is a left child. *)
Lemma first_leaf t p : exists n d tl, leaves wc p t = (of_path wc (p ++ replicate n false), d) :: tl /\ Z.of_nat n <= height t.
Proof.
  revert p. induction t as [d|l IHl r _]; intros p; cbn [leaves height].
  - exists 0%nat, d, []. by rewrite app_nil_r.
  - destruct (IHl (p ++ [false])) as (n & d & tl & -> & Hn). exists (S n), d, (tl ++ leaves wc (p ++ [true]) r).
    split; [by rewrite <- app_assoc | lia].
Qed.

(** The loop over a list that starts with the leaves of a tree is the recursion over it. *)
Lemma build_tree t rest : height t <= 60 -> WorkchainShardHashes.try_build_raw cx (leaves wc [] t ++ rest) = tree_cell cx t.
Proof.
  intros Hh. destruct t as [d|l r]; cbn [leaves tree_cell height] in *.
  - unfold WorkchainShardHashes.try_build_raw. cbn [app WorkchainShardHashes.read_shard].
    destruct (WorkchainShardHashes.make_leaf cx d) as [c|]; [|done]. cbn [rbind]. by rewrite path_full.
  - pose proof (height_nonneg l). pose proof (height_nonneg r).
    assert (WorkchainShardHashes.try_build_raw cx ((leaves wc ([] ++ [false]) l ++ leaves wc ([] ++ [true]) r) ++ rest) =
      build_loop (leaves wc ([] ++ [false]) l ++ leaves wc ([] ++ [true]) r ++ rest) []) as ->.
    { rewrite <- app_assoc. destruct (first_leaf l ([] ++ [false])) as (n & d & tl & -> & Hn). cbn [app].
      unfold WorkchainShardHashes.try_build_raw. cbn [WorkchainShardHashes.read_shard WorkchainShardHashes.build_loop].
      destruct (WorkchainShardHashes.make_leaf cx d) as [c|]; [|done]. cbn [rbind].
      assert (zlen (false :: replicate n false) <= 63) as Hz by (rewrite zlen_cons; unfold zlen; rewrite length_replicate; lia).
      assert (ShardIdent.is_right_child (of_path wc (false :: replicate n false)) = false) as Er.
      { rewrite path_left_right by done. change (false :: replicate n false) with (replicate (S n) false). by rewrite replicate_S_end, last_snoc. }
      rewrite path_full, Er by done. rewrite join_left by (unfold ShardIdent.is_left_child; by rewrite Er). done. }
    rewrite build_leaves by (rewrite ?zlen_snoc; change (zlen []) with 0; done || lia). destruct (tree_cell cx l) as [cl|]; [|done]. cbn [rbind].
    rewrite join_left by (by apply left_child). cbn [rbind after_join].
    rewrite build_leaves by (rewrite ?zlen_snoc; change (zlen []) with 0; done || lia). destruct (tree_cell cx r) as [cr|]; [|done]. cbn [rbind].
    rewrite (join_right [] [] cl cr) by done. rewrite bool_decide_true by done. by destruct (make_edge cl cr).
Qed.
End Build.

(** ** The cells of a tree *)

Section Cells.
Context (cx : CellContext) {laws : ContextLaws cx} (wc D : Z) (HD0 : 0 <= D) (HD : D + 61 <= MAX_DEPTH).

(** A description that fits into a leaf, with dictionaries of currencies below the depth [D] *)
Definition description_fits (d : ShardDescription) : Prop :=
  description_ok d /\ Forall cell_ok (description_amounts d).2 /\ Forall (fun r => cdepth r + 1 <= D) (description_amounts d).2.

Lemma zlen_amounts d : description_ok d -> zlen (description_amounts d).1 <= MAX_BIT_LEN /\ zlen (description_amounts d).2 <= MAX_REF_COUNT.
Proof.
  intros []. destruct do_amounts0 as [[Hf _] [Hg _]]. cbn [fst] in *.
  assert (forall c : CurrencyCollection, 0 <= raw (tokens c) < 2 ^ 120 -> zlen (enc c).1 <= 125 /\ zlen (enc c).2 <= 1) as Hc.
  { intros [[x] [[root]]] Hx. cbn [tokens raw] in Hx. destruct (var_enc_padded 4 15 x ltac:(lia) Hx) as (E & Hn & _).
    change (enc (mkCurrency (mkBounded 128 120 x) (mkExtra (mkDict root)))) with (var_enc 4 x ++ (enc root).1, [] ++ (enc root).2).
    cbn [fst snd app]. rewrite zlen_app. unfold var_enc. rewrite zlen_app, !zlen_uint_bits by lia.
    destruct root as [r|]; [change (enc (Some r)) with ([true], [r]) | change (enc (@None Cell)) with ([false], @nil Cell)]; cbn [fst snd];
      rewrite !zlen_cons; change (zlen (@nil bool)) with 0; change (zlen (@nil Cell)) with 0; lia. }
  pose proof (Hc (fees_collected d) Hf) as [? ?]. pose proof (Hc (funds_created d) Hg) as [? ?].
  unfold description_amounts. cbn [enc Codec_pair fst snd]. rewrite !zlen_app. unfold MAX_BIT_LEN, MAX_REF_COUNT. lia.
Qed.

(** The leaf of a description, with the amounts in a cell of their own *)
Definition leaf_cell (d : ShardDescription) (c : Cell) : Prop :=
  exists amounts, ordinary c (false :: description_bits d) [amounts] /\ ordinary amounts (description_amounts d).1 (description_amounts d).2.

Lemma make_leaf_ok d : description_fits d ->
  exists c, WorkchainShardHashes.make_leaf cx d = Ok c /\ leaf_cell d c /\ cell_ok c /\ cdepth c <= D + 1.
Proof.
  intros (Hd & Hok & Hdep). destruct (zlen_amounts d Hd) as [Hb Hr]. unfold MAX_DEPTH in *.
  destruct (finish_cell cx _ _ D (appends_value cx (fees_collected d, funds_created d) (do_amounts d Hd)) Hb Hr Hok ltac:(unfold MAX_DEPTH; lia) Hdep)
    as (a & Ea & Ha & Hao & Had).
  pose proof (store_description cx d a Hd Ea) as Hst. pose proof (zlen_description d) as Hz.
  destruct (finish_cell cx _ _ (D + 1) (appends_bind _ _ _ _ (appends_bit false) Hst)) as (c & Ec & Hc & Hco & Hcd).
  - cbn [fst app]. rewrite zlen_cons. unfold MAX_BIT_LEN. lia.
  - done.
  - by constructor.
  - unfold MAX_DEPTH. lia.
  - constructor; [lia | constructor].
  - exists c. split; [|split; [exists a; split; [exact Hc | exact Ha] | split; assumption]]. rewrite <- Ec. unfold WorkchainShardHashes.make_leaf.
    change (on_data store_bit_zero builder_new) with (on_data (fun d => store_bit d false) builder_new).
    destruct (on_data (fun d => store_bit d false) builder_new); reflexivity.
Qed.

Lemma make_edge_ok cl cr E : cell_ok cl -> cell_ok cr -> cdepth cl <= E -> cdepth cr <= E -> 0 <= E -> E + 1 <= MAX_DEPTH ->
  exists c, WorkchainShardHashes.make_edge cx cl cr = Ok c /\ ordinary c [true] [cl; cr] /\ cell_ok c /\ cdepth c <= E + 1.
Proof.
  intros Hl Hr Hdl Hdr HE0 HE.
  assert (forall c, appends (fun b => store_reference b c) ([], [c])) as Href by (intros c b Hb; by apply store_reference_spec).
  destruct (finish_cell cx _ _ (E + 1) (appends_bind _ _ _ _ (appends_bit true) (appends_bind _ _ _ _ (Href cl) (Href cr)))) as (c & Ec & Hc & Hco & Hcd);
    [done | done | by repeat constructor | lia | repeat constructor; lia |].
  exists c. split; [|split; [exact Hc | split; assumption]]. rewrite <- Ec. unfold WorkchainShardHashes.make_edge.
  change (on_data store_bit_one builder_new) with (on_data (fun d => store_bit d true) builder_new).
  destruct (on_data (fun d => store_bit d true) builder_new) as [b|]; [|done]. cbn [rbind].
  destruct (store_reference b cl) as [b'|]; [destruct (store_reference b' cr)|]; reflexivity.
Qed.

(** What the cell of a tree holds *)
Fixpoint tree_rep (t : stree) (c : Cell) : Prop :=
  match t with
  | SLeaf d => description_fits d /\ leaf_cell d c
  | SFork l r => exists cl cr, ordinary c [true] [cl; cr] /\ tree_rep l cl /\ tree_rep r cr
  end.

Fixpoint tree_fits (t : stree) : Prop :=
  match t with SLeaf d => description_fits d | SFork l r => tree_fits l /\ tree_fits r end.

Lemma tree_cell_ok t : tree_fits t -> height t <= 60 ->
  exists c, tree_cell cx t = Ok c /\ tree_rep t c /\ cell_ok c /\ cdepth c <= D + 1 + height t.
Proof.
  induction t as [d|l IHl r IHr]; cbn [tree_fits height tree_cell tree_rep]; intros Ht Hh.
  - destruct (make_leaf_ok d Ht) as (c & E & Hc & Hok & Hd). exists c. split; [exact E|]. split; [split; assumption|]. split; [assumption | lia].
  - destruct Ht as [Hl Hr]. pose proof (height_nonneg l). pose proof (height_nonneg r).
    destruct (IHl Hl ltac:(lia)) as (cl & -> & Rl & Ol & Dl). destruct (IHr Hr ltac:(lia)) as (cr & -> & Rr & Or & Dr). cbn [rbind].
    destruct (make_edge_ok cl cr (D + 1 + Z.max (height l) (height r))) as (c & E & Hc & Hok & Hd); [done | done | lia..|].
    exists c. split; [exact E|]. split; [exists cl, cr; split_and!; assumption|]. split; [assumption | lia].
Qed.

(** ** What the builder makes of any list *)

(** An entry of the stack is the cell of a tree at a path. *)
Definition entry_ok (e : ShardIdent * Cell) (x : Z * list bool * stree) : Prop :=
  let '(w, p, t) := x in
  e.1 = of_path w p /\ ShardIdent.is_left_child e.1 = true /\ zlen p + height t <= 60 /\
  tree_cell cx t = Ok e.2 /\ cell_ok e.2 /\ cdepth e.2 + zlen p <= D + 61.

(** The shards the stack was made of, from its bottom to its top *)
Fixpoint consumed (xs : list (Z * list bool * stree)) : list (ShardIdent * ShardDescription) :=
  match xs with
  | [] => []
  | (w, p, t) :: xs => consumed xs ++ leaves w p t
  end.

(** Where the loop ends with a root, it has joined a stretch of the list. *)
Definition stretch (shards : list (ShardIdent * ShardDescription)) (root : Cell) : Prop :=
  exists before w t after, shards = before ++ leaves w [] t ++ after /\ height t <= 60 /\ tree_cell cx t = Ok root.

Lemma join_sound stack xs w p t c rest :
  Forall2 entry_ok stack xs -> zlen p + height t <= 60 -> tree_cell cx t = Ok c -> cell_ok c -> cdepth c + zlen p <= D + 61 ->
  exists flow, WorkchainShardHashes.join_loop cx stack (of_path w p) c = Ok flow /\
    match flow with
    | JoinNext stack' => exists xs', Forall2 entry_ok stack' xs' /\ consumed xs' = consumed xs ++ leaves w p t
    | JoinRoot root => stretch (consumed xs ++ leaves w p t ++ rest) root
    | JoinBroken => True
    end.
Proof.
  intros HF. revert w p t c. induction HF as [|[s0 c0] [[w0 p0] t0] stack xs (Es & Hleft & Hz0 & Et0 & Ok0 & Dep0) HF IH];
    intros w p t c Hz Et Okc Dep; pose proof (height_nonneg t).
  - cbn [WorkchainShardHashes.join_loop]. destruct (ShardIdent.is_left_child (of_path w p)) eqn:El; [|by exists JoinBroken].
    exists (JoinNext [(of_path w p, c)]). split; [done|]. exists [(w, p, t)]. split; [repeat constructor; done | done].
  - destruct (ShardIdent.is_left_child (of_path w p)) eqn:El.
    { rewrite join_left by done. eexists. split; [done|]. exists ((w, p, t) :: (w0, p0, t0) :: xs). split; [|done].
      constructor; [split_and!; done|]. constructor; [split_and!; done | done]. }
    cbn [fst snd] in *. subst s0. pose proof (height_nonneg t0). cbn [WorkchainShardHashes.join_loop]. rewrite El.
    destruct p0 as [|b0 q0 _] using rev_ind; [by exists JoinBroken|]. rewrite zlen_snoc in *. pose proof (zlen_nonneg q0). rewrite path_merge by lia.
    destruct p as [|b q _] using rev_ind; [by exists JoinBroken|]. rewrite zlen_snoc in *. pose proof (zlen_nonneg q). rewrite path_merge by lia.
    case_bool_decide as Ep; [|by exists JoinBroken]. apply of_path_inj in Ep as [-> ->]; [|lia..].
    assert (b0 = false) as ->.
    { unfold ShardIdent.is_left_child in Hleft. rewrite path_left_right, last_snoc in Hleft by (rewrite zlen_snoc; lia). by destruct b0. }
    assert (b = true) as ->.
    { unfold ShardIdent.is_left_child in El. rewrite path_left_right, last_snoc in El by (rewrite zlen_snoc; lia). by destruct b. }
    destruct (make_edge_ok c0 c (D + 61 - zlen q - 1)) as (e & Ee & _ & Oke & Depe); [done | done | lia | lia | lia | lia |].
    rewrite Ee. cbn [rbind]. rewrite path_full by lia.
    assert (tree_cell cx (SFork t0 t) = Ok e) as Etf by (cbn [tree_cell]; rewrite Et0, Et; exact Ee).
    case_bool_decide as Eq.
    + subst q. exists (JoinRoot e). split; [done|]. exists (consumed xs), w, (SFork t0 t), rest. split; [by cbn [consumed leaves app]; rewrite <- !app_assoc|].
      split; [cbn [height]; change (zlen []) with 0 in *; lia | done].
    + destruct (IH w q (SFork t0 t) e) as (flow & Ej & Hfl); [cbn [height]; lia | done | done | lia |]. exists flow. split; [exact Ej|].
      destruct flow as [st|root|]; [|..|done].
      * destruct Hfl as (xs' & HF' & E). exists xs'. split; [done|]. rewrite E. cbn [consumed leaves]. by rewrite <- !app_assoc.
      * cbn [leaves consumed] in *. by rewrite <- !app_assoc in *.
Qed.

Definition shard_fits (s : ShardIdent * ShardDescription) : Prop :=
  (exists p, zlen p <= 60 /\ s.1 = of_path wc p) /\ description_fits s.2.

Lemma build_sound shards stack xs : Forall shard_fits shards -> Forall2 entry_ok stack xs ->
  match WorkchainShardHashes.build_loop cx shards stack with
  | Ok root => stretch (consumed xs ++ shards) root
  | Err e => e = Unbalanced
  end.
Proof.
  intros HS. revert stack xs. induction HS as [|[s d] shards [(p & Hp & E) Hd] HS IH]; intros stack xs HF; [done|].
  cbn [fst snd] in *. subst s. cbn [WorkchainShardHashes.build_loop]. destruct (make_leaf_ok d Hd) as (c & Ec & _ & Okc & Depc). rewrite Ec. cbn [rbind].
  destruct (join_sound stack xs wc p (SLeaf d) c shards HF) as (flow & -> & Hfl); [cbn [height]; lia | done | done | lia |]. cbn [rbind].
  destruct flow as [st|root|]; [| exact Hfl | done].
  destruct Hfl as (xs' & HF' & E). specialize (IH st xs' HF'). rewrite E in IH. cbn [leaves] in IH. by rewrite <- app_assoc in IH.
Qed.

Lemma try_build_sound shards : Forall shard_fits shards ->
  match WorkchainShardHashes.try_build_raw cx shards with
  | Ok root => stretch shards root
  | Err e => e = Unbalanced
  end.
Proof.
  intros HS. destruct HS as [|[s d] shards [(p & Hp & E) Hd] HS]; [done|]. cbn [fst snd] in *. subst s.
  unfold WorkchainShardHashes.try_build_raw. cbn [WorkchainShardHashes.read_shard]. destruct (make_leaf_ok d Hd) as (c & Ec & _ & Okc & Depc). rewrite Ec. cbn [rbind].
  pose proof (zlen_nonneg p). rewrite path_full by lia. case_bool_decide as Ep.
  - subst p. exists [], wc, (SLeaf d), shards. split; [reflexivity|]. split; [cbn [height]; lia | exact Ec].
  - destruct (ShardIdent.is_right_child (of_path wc p)) eqn:Er; [done|].
    apply (build_sound shards [(of_path wc p, c)] [(wc, p, SLeaf d)] HS). constructor; [|constructor].
    split; [reflexivity|]. split; [unfold ShardIdent.is_left_child; cbn [fst]; by rewrite Er|]. split; [cbn [height]; lia|].
    split; [exact Ec|]. split; [exact Okc | cbn [snd]; lia].
Qed.

(** A tree of shards covers every path. *)
Lemma leaves_cover t b p : b `prefix_of` p \/ p `prefix_of` b ->
  exists q d, (of_path wc q, d) ∈ leaves wc b t /\ zlen q <= zlen b + height t /\ (p `prefix_of` q \/ q `prefix_of` p).
Proof.
  revert b. induction t as [d|l IHl r IHr]; intros b Hp; cbn [leaves height].
  - exists b, d. split; [by apply list_elem_of_singleton|]. split; [lia|]. by destruct Hp; [right | left].
  - assert (exists c : bool, (b ++ [c]) `prefix_of` p \/ p `prefix_of` (b ++ [c])) as ([] & Hc).
    { destruct Hp as [[[|c k] ->]|[k ->]].
      - exists false. right. rewrite app_nil_r. by apply prefix_app_r.
      - exists c. left. exists k. by rewrite <- app_assoc.
      - exists false. right. exists (k ++ [false]). by rewrite <- app_assoc. }
    + destruct (IHr _ Hc) as (q & d & Hi & Hz & Hq). exists q, d. rewrite zlen_snoc in Hz. split; [apply elem_of_app; by right|]. split; [lia | done].
    + destruct (IHl _ Hc) as (q & d & Hi & Hz & Hq). exists q, d. rewrite zlen_snoc in Hz. split; [apply elem_of_app; by left|]. split; [lia | done].
Qed.

(** No two shards of the list have accounts in common. *)
Definition disjoint_shards (shards : list (ShardIdent * ShardDescription)) : Prop :=
  forall i j a b, shards !! i = Some a -> shards !! j = Some b -> i <> j -> ShardIdent.intersects a.1 b.1 = false.

Lemma disjoint_stretch before w t after : disjoint_shards (before ++ leaves w [] t ++ after) ->
  Forall shard_fits (before ++ leaves w [] t ++ after) -> height t <= 60 -> before = [] /\ after = [] /\ w = wc.
Proof.
  intros Hdis HS Hh.
  assert (w = wc) as ->.
  { destruct (first_leaf w t []) as (n & d & tl & E & Hn). assert (shard_fits (of_path w (replicate n false), d)) as [(p & Hp & Ep) _].
    { apply (proj1 (list.Forall_forall _ _) HS). rewrite E. apply elem_of_app. right. by left. }
    apply of_path_inj in Ep as [? _]; [done | unfold zlen; rewrite length_replicate; lia | lia]. }
  assert (forall s k, (before ++ leaves wc [] t ++ after) !! k = Some s -> (k < length before \/ length before + length (leaves wc [] t) <= k)%nat -> False) as Hno.
  { intros [s d] k Hk Hout. assert (shard_fits (s, d)) as [(p & Hp & Ep) _] by (apply (proj1 (list.Forall_forall _ _) HS); by eapply list_elem_of_lookup_2).
    cbn [fst] in Ep. subst s. destruct (leaves_cover t [] p) as (q & d' & Hi & Hz & Hq); [left; apply prefix_nil|].
    change (zlen []) with 0 in Hz. apply list_elem_of_lookup_1 in Hi as (i & Hi). pose proof (lookup_lt_Some _ _ _ Hi).
    assert (ShardIdent.intersects (of_path wc p) (of_path wc q) = false) as E.
    { apply (Hdis k (length before + i)%nat (of_path wc p, d) (of_path wc q, d') Hk); [|lia].
      rewrite lookup_app_r by lia. replace (length before + i - length before)%nat with i by lia. by rewrite lookup_app_l by lia. }
    assert (ShardIdent.intersects (of_path wc p) (of_path wc q) = true) as E' by (apply path_intersects; [lia | lia | done]). congruence. }
  split; [|split; [|done]].
  - destruct before as [|s before]; [done|]. exfalso. apply (Hno s 0%nat); [done | left; cbn; lia].
  - destruct after as [|s after]; [done|]. exfalso. apply (Hno s (length before + length (leaves wc [] t))%nat); [|right; lia].
    rewrite !app_assoc. rewrite lookup_app_r by (rewrite !length_app; lia). rewrite !length_app, Nat.sub_diag. done.
Qed.
End Cells.

(** ** Reading the leaves *)

Lemma step_skip s si x l n : moved s si (x ++ l) -> zlen x = n -> n <= 64512 -> exists sj, skip_first si n 0 = Ok sj /\ moved s sj l.
Proof.
  intros M <- Hn. destruct (slice_front_moved si x l (mv_wf _ _ _ M) (mv_bits _ _ _ M)) as (Hle & _ & M').
  rewrite skip_first_spec by (apply M || (pose proof (zlen_nonneg x); lia)). rewrite (proj2 (Z.leb_le _ _)) by lia.
  exists (advance si (zlen x)). split; [done|]. exact (moved_trans _ _ _ _ _ M M').
Qed.

Section Iteration.
Context (cx : CellContext) {laws : ContextLaws cx} (wc D : Z).
Abbreviation rep := (tree_rep cx D).

(** The raw value of a leaf *)
Definition leaf_value (d : ShardDescription) (s : CellSlice) : Prop :=
  description_ok d /\ slice_wf s /\ slice_bits s = description_bits d /\
  exists a, slice_references s = [a] /\ ordinary a (description_amounts d).1 (description_amounts d).2.

Lemma leaf_description d s ident : leaf_value d s -> WorkchainIter.load_description ident s = Ok (ident, d).
Proof.
  intros (Hd & Hs & Hb & a & Hr & Ha). unfold WorkchainIter.load_description.
  destruct (load_description_enc s d a [] [] Hd Hs) as (s' & E); [by rewrite app_nil_r | done | done |]. by rewrite E.
Qed.

Lemma leaf_block d s ident : leaf_value d s -> parse_block_id ident s = Ok (ShardDescription.as_block_id d ident).
Proof.
  intros ([] & Hs & Hb & _). pose proof (moved_self s Hs) as M. rewrite Hb in M. unfold description_bits in M. unfold parse_block_id.
  destruct (step_skip s s _ _ ShardDescription.TAG_LEN M) as (s1 & E1 & M1); [by rewrite zlen_uint_bits by lia | done |]. clear M.
  rewrite E1. cbn [rbind]. take_uint 32 do_seqno0.
  match goal with M : moved s ?si (?x ++ ?y ++ ?z ++ ?l) |- _ => destruct (step_skip s si (x ++ y ++ z) l (32 + 64 + 64)) as (s2 & E2 & M2);
    [by rewrite <- !app_assoc | by rewrite !zlen_app, !zlen_uint_bits by lia | done | clear M] end.
  rewrite E2. cbn [rbind]. take_hash do_root0. take_hash do_file0. done.
Qed.

(** The slice of a cell of the tree behind its first bit *)
Lemma tree_slice t c : rep t c ->
  slice_new c = Ok (new_allow_exotic c) /\
  match t with
  | SLeaf d => exists s, load_bit (new_allow_exotic c) = Ok (false, s) /\ leaf_value d s
  | SFork l r => exists s, load_bit (new_allow_exotic c) = Ok (true, s) /\ cell s = c
  end.
Proof.
  destruct t as [d|l r]; cbn [tree_rep]; intros Hc.
  - destruct Hc as [(Hd & _) (a & Hc & Ha)]. destruct (ordinary_slice _ _ _ Hc) as (En & W & B & R & _). split; [done|].
    destruct (front_bit _ false _ W B) as [E M]. exists (advance (new_allow_exotic c) 1). split; [done|]. split; [done|].
    split; [apply M|]. split; [apply M|]. exists a. split; [by rewrite (mv_refs _ _ _ M) | done].
  - destruct Hc as (cl & cr & Hc & _). destruct (ordinary_slice _ _ _ Hc) as (En & W & B & R & _). split; [done|].
    destruct (front_bit _ true [] W B) as [E M]. by exists (advance (new_allow_exotic c) 1).
Qed.

(** A fork on the stack of the iterator, and which of its children comes next *)
Abbreviation frame := (stree * stree * bool)%type.
Implicit Type fs : list frame.

Definition frame_rep (seg : ShardSegment) (f : frame) : Prop :=
  ss_is_right seg = f.2 /\ rep (SFork f.1.1 f.1.2) (ss_data seg).

Fixpoint frames_path fs : list bool := match fs with [] => [] | (_, _, b) :: fs => frames_path fs ++ [b] end.

(** What comes after the child the top of the stack points to *)
Fixpoint later fs : list (ShardIdent * ShardDescription) :=
  match fs with
  | [] => []
  | (_, r, b) :: fs => (if b : bool then [] else leaves wc (frames_path fs ++ [true]) r) ++ later fs
  end.

Definition pending fs : list (ShardIdent * ShardDescription) :=
  match fs with
  | [] => []
  | (l, r, b) :: fs' => leaves wc (frames_path fs) (if b then r else l) ++ later fs
  end.

Fixpoint frames_fit fs : Prop :=
  match fs with
  | [] => True
  | (l, r, _) :: fs => zlen fs + 1 + Z.max (height l) (height r) <= 60 /\ frames_fit fs
  end.

Lemma zlen_frames fs : zlen (frames_path fs) = zlen fs.
Proof. induction fs as [|[[l r] b] fs IH]; [done|]. cbn [frames_path]. rewrite zlen_snoc, zlen_cons. lia. Qed.

Lemma prefix_cons b p : zlen p <= 62 ->
  Z.lor (u64 (ShardIdent.PREFIX_FULL * b2z b)) (Z.shiftr (path_prefix p) 1) = path_prefix (b :: p).
Proof.
  intros Hp. pose proof (zlen_nonneg p). pose proof (path_range p ltac:(lia)) as Hr. assert (zlen (b :: p) <= 63) as Hbp by (rewrite zlen_cons; lia).
  pose proof (path_range _ Hbp) as Hrb.
  apply Z.bits_inj'. intros j Hj. rewrite Z.lor_spec, Z.shiftr_spec by done.
  assert (Z.testbit (u64 (ShardIdent.PREFIX_FULL * b2z b)) j = b && (j =? 63)) as ->.
  { destruct b; [change (u64 (ShardIdent.PREFIX_FULL * b2z true)) with (2 ^ 63); rewrite Z.pow2_bits_eqb by lia; apply Z.eqb_sym | apply Z.bits_0]. }
  destruct (Z.lt_ge_cases j 64); cycle 1.
  { rewrite (testbit_high 64 (path_prefix p)), (testbit_high 64 (path_prefix (b :: p))) by lia.
    rewrite (proj2 (Z.eqb_neq j 63)) by lia. by rewrite andb_false_r. }
  destruct (Z.lt_ge_cases (63 - j) (zlen (b :: p))) as [Hi|Hi]; rewrite zlen_cons in Hi.
  - replace j with (63 - (63 - j)) at 3 by lia. rewrite path_bit by (rewrite ?zlen_cons; lia).
    destruct (Z.eqb_spec j 63) as [->|]; [cbn; rewrite (testbit_high 64) by lia; by rewrite orb_false_r, andb_true_r|]. rewrite andb_false_r. cbn [orb].
    replace (j + 1) with (63 - (63 - j - 1)) by lia. rewrite path_bit by lia. replace (Z.to_nat (63 - j)) with (S (Z.to_nat (63 - j - 1))) by lia. done.
  - rewrite (proj2 (Z.eqb_neq j 63)) by lia. rewrite andb_false_r. cbn [orb]. unfold path_prefix. rewrite zlen_cons, !testbit_tagged by lia. zcases; (done || lia).
Qed.

Lemma build_prefix segs fs : Forall2 frame_rep segs fs -> zlen fs <= 60 -> WorkchainIter.build_shard_prefix segs = path_prefix (frames_path fs).
Proof.
  intros HF Hz. unfold WorkchainIter.build_shard_prefix.
  assert (forall p, zlen p + zlen fs <= 60 ->
    foldl (fun result segment => Z.lor (u64 (ShardIdent.PREFIX_FULL * b2z (ss_is_right segment))) (Z.shiftr result 1)) (path_prefix p) segs =
    path_prefix (frames_path fs ++ p)) as Hfold; [|by specialize (Hfold [] ltac:(change (zlen []) with 0; lia)); rewrite app_nil_r in Hfold].
  clear Hz. induction HF as [|seg [[l r] b] segs fs [Eb _] HF IH]; intros p Hp; [done|]. rewrite zlen_cons in Hp. pose proof (zlen_nonneg fs).
  cbn [foldl frames_path]. cbn [snd] in Eb. rewrite Eb, prefix_cons, IH by (rewrite ?zlen_cons; lia). by rewrite <- app_assoc.
Qed.

(** The way down finds the first leaf below the top of the stack. *)
Lemma find_leaf_spec t fuel segs fs l r b :
  Forall2 frame_rep segs ((l, r, b) :: fs) -> (if b then r else l) = t -> frames_fit ((l, r, b) :: fs) -> height t < Z.of_nat fuel ->
  exists s segs' fs' d, WorkchainIter.find_leaf fuel segs = (Some (Ok s), segs') /\ Forall2 frame_rep segs' fs' /\ fs' <> [] /\
    frames_fit fs' /\ leaf_value d s /\ pending ((l, r, b) :: fs) = (of_path wc (frames_path fs'), d) :: later fs'.
Proof.
  revert fuel segs fs l r b. induction t as [d|tl0 IHl tr _]; intros fuel segs fs l r b HF Et Hfit Hfuel;
    (destruct fuel as [|fuel]; [match type of Hfuel with height ?t < _ => pose proof (height_nonneg t); lia end|]);
    inversion HF as [|seg f segs0 fs0 [Eb Hseg] HF0]; subst segs f fs0; cbn [snd fst] in *; cbn [WorkchainIter.find_leaf];
    pose proof Hseg as (cl & cr & Hc & Rl & Rr);
    assert (child_slice (ss_data seg) (b2z (ss_is_right seg)) = slice_new (if b then cr else cl)) as -> by
      (rewrite Eb; unfold child_slice; destruct b; cbn [b2z]; [by destruct (ordinary_reference _ _ _ 1 cr Hc) as [-> _] | by destruct (ordinary_reference _ _ _ 0 cl Hc) as [-> _]]);
    assert (rep (if b then r else l) (if b then cr else cl)) as Rt by (by destruct b); rewrite Et in Rt;
    destruct (tree_slice _ _ Rt) as [-> Hs].
  - destruct Hs as (s & -> & Hs). exists s, (seg :: segs0), ((l, r, b) :: fs), d. split; [done|]. split; [done|]. split; [done|]. split; [done|].
    split; [done|]. cbn [pending]. by rewrite Et.
  - destruct Hs as (s & -> & Hs). destruct Hfit as [Hz Hfit].
    pose proof (Forall2_length HF0) as Hlen. assert (height (SFork tl0 tr) <= Z.max (height l) (height r)) as Hh by (rewrite <- Et; destruct b; lia).
    pose proof (height_nonneg tl0). pose proof (height_nonneg tr). cbn [height] in *.
    rewrite (proj2 (Z.ltb_lt _ _)) by (rewrite zlen_cons; unfold zlen in *; change ShardIdent.MAX_SPLIT_DEPTH with 60; lia).
    destruct (IHl fuel (mkShardSegment (cell s) false :: seg :: segs0) ((l, r, b) :: fs) tl0 tr false) as (s' & segs' & fs' & d & E & HF' & Hne & Hfit' & Hv & Ep).
    + constructor; [|done]. split; [done|]. cbn [fst snd ss_data]. by rewrite Hs.
    + done.
    + cbn [frames_fit]. rewrite zlen_cons. split; [lia|]. by split.
    + lia.
    + exists s', segs', fs', d. split; [done|]. split; [done|]. split; [done|]. split; [done|]. split; [done|]. rewrite <- Ep.
      cbn [pending]. rewrite Et. cbn [leaves later frames_path]. by rewrite <- !app_assoc.
Qed.

(** Moving on drops the finished forks. *)
Lemma advance_spec segs fs : Forall2 frame_rep segs fs -> frames_fit fs ->
  exists fs', Forall2 frame_rep (WorkchainIter.advance_segments segs) fs' /\ frames_fit fs' /\ pending fs' = later fs.
Proof.
  induction 1 as [|seg [[l r] b] segs fs [Eb Hseg] HF IH]; intros Hfit; [by exists []|].
  cbn [snd fst] in *. cbn [WorkchainIter.advance_segments]. rewrite Eb. destruct Hfit as [Hz Hfit]. destruct b.
  - destruct (IH Hfit) as (fs' & HF' & Hfit' & E). by exists fs'.
  - exists ((l, r, true) :: fs). split; [by constructor|]. by split.
Qed.

(** A state of the iterator between two items, and what it has left *)
Definition iter_rep (it : WorkchainShardsTreeRawIter) (L : list (ShardIdent * ShardDescription)) : Prop :=
  wi_workchain it = wc /\ wi_status it = Valid /\
  ((exists d s, wi_leaf it = Some s /\ wi_segments it = [] /\ leaf_value d s /\ L = [(of_path wc [], d)]) \/
   (exists fs, wi_leaf it = None /\ Forall2 frame_rep (wi_segments it) fs /\ frames_fit fs /\ L = pending fs)).

Lemma new_rep t c : rep t c -> height t <= 60 -> iter_rep (WorkchainIter.new wc c) (leaves wc [] t).
Proof.
  intros Hc Hh. unfold WorkchainIter.new. destruct (tree_slice t c Hc) as [-> Hs]. destruct t as [d|l r].
  - destruct Hs as (s & -> & Hs). split; [done|]. split; [done|]. left. by exists d, s.
  - destruct Hs as (s & -> & _). split; [done|]. split; [done|]. right. exists [(l, r, false)]. cbn [wi_leaf wi_segments]. split; [done|].
    split; [by repeat constructor|]. split; [split; [cbn [height] in Hh; change (zlen []) with 0; lia | done]|]. cbn [pending later leaves frames_path app]. by rewrite app_nil_r.
Qed.

Lemma next_spec it L : iter_rep it L ->
  match L with
  | [] => (WorkchainIter.next it).1 = None
  | (ident, d) :: L => exists s it', WorkchainIter.next it = (Some (Ok (ident, s)), it') /\ leaf_value d s /\ iter_rep it' L
  end.
Proof.
  intros (Hw & Hst & [(d & s & El & Es & Hv & ->)|(fs & El & HF & Hfit & ->)]); unfold WorkchainIter.next; rewrite Hst, El.
  - rewrite Es, Hw. eexists s, _. split; [reflexivity|]. split; [done|]. split; [done|]. split; [done|]. right. exists []. by repeat constructor.
  - destruct fs as [|[[l r] b] fs].
    { inversion HF as [E|]. done. }
    destruct (find_leaf_spec (if b then r else l) WorkchainIter.FIND_FUEL _ _ _ _ _ HF eq_refl Hfit) as (s & segs' & fs' & d & -> & HF' & Hne & Hfit' & Hv & Ep).
    { destruct Hfit as [Hz _]. pose proof (zlen_nonneg fs). unfold WorkchainIter.FIND_FUEL. destruct b; lia. }
    rewrite Ep. rewrite Hw. assert (zlen fs' <= 60) as Hz'.
    { destruct fs' as [|[[l' r'] b'] fs']; [done|]. destruct Hfit' as [Hz _]. rewrite zlen_cons. pose proof (height_nonneg l'). lia. }
    rewrite (build_prefix _ _ HF' Hz'). eexists s, _. split; [reflexivity|]. split; [done|]. split; [done|]. split; [done|]. right.
    destruct (advance_spec _ _ HF' Hfit') as (fs'' & HF'' & Hfit'' & E). by exists fs''.
Qed.

Lemma collect_shards_spec {A} (parse : ShardIdent -> CellSlice -> result A) (f : ShardIdent * ShardDescription -> A) fuel it L :
  (forall d s ident, leaf_value d s -> parse ident s = Ok (f (ident, d))) -> iter_rep it L -> (length L < fuel)%nat ->
  exists it', collect_iter (WorkchainIter.parsed_next parse) fuel it = ((fun x => Ok (f x)) <$> L, it').
Proof.
  intros Hp. revert it L. induction fuel as [|fuel IH]; intros it L Hit Hf; [lia|]. cbn [collect_iter]. unfold WorkchainIter.parsed_next at 1.
  pose proof (next_spec it L Hit) as Hn. destruct L as [|[ident d] L].
  - destruct (WorkchainIter.next it) as [o it']. cbn [fst] in Hn. subst o. by exists it'.
  - destruct Hn as (s & it' & -> & Hv & Hit'). rewrite (Hp d s ident Hv). destruct (IH it' L Hit' ltac:(cbn in Hf; lia)) as (it'' & ->). by exists it''.
Qed.
End Iteration.

(** ** Where the code is not what it seems *)

(** A shard is taken for an ancestor of a disjoint one. *)
Lemma ancestor_misjudged :
  ShardIdent.is_ancestor_of (of_path 0 [false; true]) (of_path 0 [true; true]) = true /\
  ShardIdent.intersects (of_path 0 [false; true]) (of_path 0 [true; true]) = false.
Proof. done. Qed.

(** An error in the tree of a workchain does not end the iteration over all workchains. *)
Lemma tree_error_not_final fuel it inner inner' e :
  si_status it = Valid -> si_shard_hashes_iter it = Some inner -> WorkchainIter.next inner = (Some (Err e), inner') ->
  exists it', ShardsIter.next (S fuel) it = (Some (Err e), it') /\ si_status it' = Valid.
Proof. intros Hv Hi E. unfold ShardsIter.next. rewrite Hv. cbn [ShardsIter.next_loop]. rewrite Hi, E. eexists. split; [done|]. exact Hv. Qed.

(** A root without data is passed over without an error. *)
Lemma empty_root_skipped wc root s e : slice_new root = Ok s -> load_bit s = Err e -> (WorkchainIter.next (WorkchainIter.new wc root)).1 = None.
Proof. intros Es El. unfold WorkchainIter.new. by rewrite Es, El. Qed.

(** ** The claims *)

Lemma path_contains_account wc p account : zlen p <= 60 -> hash_ok account ->
  ShardIdent.contains_account (of_path wc p) account = true <-> p `prefix_of` bits_from account 0 256.
Proof.
  intros Hp [Ha Hz]. unfold ShardIdent.contains_account. pose proof (zlen_nonneg p).
  rewrite path_contains by (done || by apply Forall_take || (unfold zlen in *; rewrite length_take; lia)).
  assert (bits_from (take 8 account) 0 64 = bits_from account 0 64) as ->.
  { apply bits_from_ext. intros i Hi. unfold bit_at, byte_at. rewrite lookup_take_lt by lia. done. }
  rewrite !prefix_of_bits by (rewrite length_bits_from; unfold zlen in *; lia).
  split; intros HF i Hi; rewrite HF by done; rewrite !lookup_bits_from by (unfold zlen in *; lia); done.
Qed.

(** [C26] The prefix of a shard stands for a path of at most 60 bits, and the operations on
    prefixes are those of paths: depth, side, children, parent, sibling, overlap and the
    accounts with that prefix.  The test for ancestors is true for every longer path, but
    does not compare the bits in front of a one. *)
Theorem shard_ident_paths wc wc' p q : zlen p <= 60 -> zlen q <= 60 ->
  let s := of_path wc p in let other := of_path wc' q in
  ShardIdent.is_full s = bool_decide (p = []) /\ ShardIdent.prefix_len s = zlen p /\
  ShardIdent.is_right_child s = default false (list.last p) /\
  ShardIdent.split s = (if zlen p <? 60 then Some (of_path wc (p ++ [false]), of_path wc (p ++ [true])) else None) /\
  (forall parent b, p = parent ++ [b] ->
    ShardIdent.merge s = Some (of_path wc parent) /\ ShardIdent.opposite s = Some (of_path wc (parent ++ [negb b]))) /\
  (ShardIdent.is_parent_of s other = true <-> wc = wc' /\ exists b, q = p ++ [b]) /\
  (ShardIdent.intersects s other = true <-> wc = wc' /\ (p `prefix_of` q \/ q `prefix_of` p)) /\
  (forall account, hash_ok account -> ShardIdent.contains_account s account = true <-> p `prefix_of` bits_from account 0 256) /\
  (ShardIdent.is_ancestor_of s other = true <->
    wc = wc' /\ zlen p <= zlen q /\ forall i, (i < length p)%nat -> p !! S i <> Some true -> p !! i = q !! i).
Proof.
  intros Hp Hq. cbv zeta. split; [apply path_full; lia|]. split; [apply path_prefix_len; lia|]. split; [apply path_left_right; lia|].
  split; [apply path_split; lia|]. split.
  { intros parent b ->. rewrite zlen_snoc in Hp. split; [apply path_merge; lia | apply path_opposite; lia]. }
  split; [apply path_parent; lia|]. split; [apply path_intersects; lia|]. split; [intros; by apply path_contains_account|].
  apply path_ancestor; lia.
Qed.

(** [C24] The shards of a workchain, given from left to right, are built into a tree of
    cells, and the iterators over the tree give them and the ids of their blocks back. *)
Theorem shards_tree_roundtrip cx {laws : ContextLaws cx} wc t D :
  0 <= D -> D + 61 <= MAX_DEPTH -> tree_fits cx D t -> height t <= 60 ->
  exists root, WorkchainShardHashes.try_build_raw cx (leaves wc [] t) = Ok root /\
    forall fuel, (length (leaves wc [] t) < fuel)%nat ->
      (collect_iter WorkchainIter.hashes_next fuel (WorkchainIter.new wc root)).1 = Ok <$> leaves wc [] t /\
      (collect_iter WorkchainIter.blocks_next fuel (WorkchainIter.new wc root)).1 =
        (fun s => Ok (ShardDescription.as_block_id s.2 s.1)) <$> leaves wc [] t.
Proof.
  intros HD0 HD Ht Hh. destruct (tree_cell_ok cx D HD0 HD t Ht Hh) as (root & E & Hr & _). exists root. split.
  { rewrite <- E, <- (build_tree cx wc t [] Hh). by rewrite app_nil_r. }
  intros fuel Hf. pose proof (new_rep cx wc D t root Hr Hh) as Hnew. split.
  - destruct (collect_shards_spec cx wc D WorkchainIter.load_description id fuel _ _ (fun d s ident => leaf_description d s ident) Hnew Hf) as (it' & Ec).
    unfold WorkchainIter.hashes_next. by rewrite Ec.
  - destruct (collect_shards_spec cx wc D parse_block_id (fun s => ShardDescription.as_block_id s.2 s.1) fuel _ _ (fun d s ident => leaf_block d s ident) Hnew Hf) as (it' & Ec).
    unfold WorkchainIter.blocks_next. by rewrite Ec.
Qed.

(** [C25] A list of shards of a workchain without overlaps is built exactly if it is the
    list of the leaves of a tree, into the cell of that tree, and is refused with
    [Unbalanced] if it is not. *)
Theorem shards_build_exact cx {laws : ContextLaws cx} wc D shards :
  0 <= D -> D + 61 <= MAX_DEPTH -> Forall (shard_fits cx wc D) shards -> disjoint_shards shards ->
  (exists t root, height t <= 60 /\ shards = leaves wc [] t /\ tree_cell cx t = Ok root /\ WorkchainShardHashes.try_build_raw cx shards = Ok root) \/
  ((forall t, height t <= 60 -> shards <> leaves wc [] t) /\ WorkchainShardHashes.try_build_raw cx shards = Err Unbalanced).
Proof.
  intros HD0 HD HS Hdis. pose proof (try_build_sound cx wc D HD0 HD shards HS) as Hb.
  destruct (WorkchainShardHashes.try_build_raw cx shards) as [root|e] eqn:E.
  - left. destruct Hb as (before & w & t & after & -> & Hh & Et).
    destruct (disjoint_stretch cx wc D before w t after Hdis HS Hh) as (-> & -> & ->). exists t, root. cbn [app]. by rewrite app_nil_r.
  - right. subst e. split; [|done]. intros t Hh ->.
    assert (tree_fits cx D t) as Ht.
    { clear -HS. revert HS. generalize (@nil bool). induction t as [d|l IHl r IHr]; intros p HS; cbn [leaves tree_fits] in *.
      - by inversion HS as [|? ? [_ Hd]].
      - apply Forall_app in HS as [Hl Hr]. split; [by eapply IHl | by eapply IHr]. }
    destruct (tree_cell_ok cx D HD0 HD t Ht Hh) as (root & Et & _).
    pose proof (build_tree cx wc t [] Hh) as Eb. rewrite app_nil_r in Eb. congruence.
Qed.

(** ** The claims at concrete inputs *)

Lemma shard_ident_paths_witness :
  ShardIdent.split (of_path 0 [false; true]) = Some (of_path 0 [false; true; false], of_path 0 [false; true; true]) /\
  ShardIdent.intersects (of_path 0 [false; true]) (of_path 0 [false]) = true.
Proof.
  destruct (shard_ident_paths 0 0 [false; true] [false]) as (_ & _ & _ & Hs & _ & _ & Hi & _); [done|done|].
  split; [exact Hs|]. apply Hi. split; [done|]. right. by exists [true].
Defined.

Definition zero_hash : HashBytes := replicate 32 0.
Definition sample_description (n : Z) : ShardDescription :=
  mkDescription n 0 0 0 zero_hash zero_hash false true false false true 0 0 0 0 (Some (FutureMerge 5 6)) Currency.ZERO Currency.ZERO.

Lemma zero_hash_ok : hash_ok zero_hash.
Proof. split; [by apply Forall_replicate | done]. Qed.

Lemma sample_fits n : 0 <= n < 2 ^ 32 -> description_fits sample_ctx 0 (sample_description n).
Proof.
  intros Hn. split; [|by repeat constructor]. split; try (by apply zero_hash_ok) || (cbn; lia); cbn; repeat split; lia.
Qed.

Definition sample_tree : stree := SFork (SLeaf (sample_description 1)) (SFork (SLeaf (sample_description 2)) (SLeaf (sample_description 3))).

Lemma shards_tree_roundtrip_witness :
  exists root, WorkchainShardHashes.try_build_raw sample_ctx (leaves 0 [] sample_tree) = Ok root /\
    (collect_iter WorkchainIter.hashes_next 4 (WorkchainIter.new 0 root)).1 =
      [Ok (of_path 0 [false], sample_description 1); Ok (of_path 0 [true; false], sample_description 2); Ok (of_path 0 [true; true], sample_description 3)].
Proof.
  destruct (shards_tree_roundtrip sample_ctx 0 sample_tree 0) as (root & E & Hi); [done | done | | done |].
  - split; [|split]; apply sample_fits; lia.
  - exists root. split; [exact E|]. exact (proj1 (Hi 4%nat ltac:(cbn; lia))).
Defined.

Definition sample_shards : list (ShardIdent * ShardDescription) :=
  [(of_path 0 [false], sample_description 1); (of_path 0 [true; true], sample_description 3)].

Lemma sample_shards_fit : Forall (shard_fits sample_ctx 0 0) sample_shards.
Proof.
  repeat apply list.Forall_cons_2; [split; [by exists [false] | apply sample_fits; lia] | split; [by exists [true; true] | apply sample_fits; lia] | apply list.Forall_nil_2].
Qed.

Lemma sample_shards_disjoint : disjoint_shards sample_shards.
Proof. intros [|[|i]] [|[|j]] a b Ha Hb Hij; try done; by injection Ha as <-; injection Hb as <-. Qed.

(** The shard between the two is missing. *)
Lemma shards_build_exact_witness : WorkchainShardHashes.try_build_raw sample_ctx sample_shards = Err Unbalanced.
Proof.
  destruct (shards_build_exact sample_ctx 0 0 sample_shards) as [(t & root & Hh & E & _)|[_ E]];
    [done | done | exact sample_shards_fit | exact sample_shards_disjoint | exfalso | exact E].
  destruct t as [d|l r]; [done|]. cbn [leaves height] in *. pose proof (height_nonneg l).
  destruct (first_leaf 0 l ([] ++ [false])) as (n & d & tl0 & El & _), (first_leaf 0 r ([] ++ [true])) as (m & d' & tl1 & Er & Hm). rewrite El, Er in E.
  destruct tl0 as [|x tl0]; [|apply (f_equal length) in E; cbn in E; rewrite length_app in E; cbn in E; lia].
  injection E as _ _ Ep _ _. apply (path_inj [true; true] (true :: replicate m false)) in Ep;
    [|done | rewrite zlen_cons; unfold zlen; rewrite length_replicate; lia]. by destruct m.
Defined.
