(* ===== verification/Address.v ===== *)
(** * Address: addresses of messages

    [src/src/models/message/address.rs] and the external addresses of
    [src/src/models/message/mod.rs]: a standard address is a workchain and a hash, a
    variable one has up to 511 bits, both with an optional prefix to rewrite; standard
    addresses are keys of dictionaries too.  The address of an account lies in a shard
    when its first bits are the path of the shard. *)

From S2P Require Import Prelude Bits DataBuilder CellMeta Cell Slice Builder DictKeys Num DictTyped Shard.

(** ** [Anycast] *)

Record Anycast := mkAnycast { ac_depth : SplitDepth; rewrite_prefix : list Z }.

Module Anycast.
Definition MIN_DEPTH : Z := 1.
Definition MAX_DEPTH : Z := 30.
Definition BITS_MAX : Z := SplitDepth.BITS + MAX_DEPTH.

Definition from_slice (rewrite_prefix : CellSlice) : result Anycast :=
  let! depth := SplitDepth.from_bit_len (size_bits rewrite_prefix) in
  let data := replicate (Z.to_nat (div_ceil (SplitDepth.into_bit_len depth) 8)) 0 in
  let! data := get_raw rewrite_prefix 0 data (SplitDepth.into_bit_len depth) in
  Ok (mkAnycast depth data).

Definition bit_len (self : Anycast) : Z := u16 (SplitDepth.BITS + SplitDepth.into_bit_len (ac_depth self)).
End Anycast.

(** A buffer of zeros for [bits] bits, filled from the slice *)
Definition load_raw_vec (s : CellSlice) (bits : Z) : result (list Z * CellSlice) :=
  if negb (Range.has_remaining (range s) bits 0) then Err CellUnderflow
  else load_raw s (replicate (Z.to_nat (div_ceil bits 8)) 0) bits.

#[global] Instance Store_Anycast : Store Anycast := fun self ctx b =>
  if negb (has_capacity b (Anycast.bit_len self) 0) then Err CellOverflow else
  let! b := store_into (ac_depth self) ctx b in
  on_data (fun d => store_raw d (rewrite_prefix self) (SplitDepth.into_bit_len (ac_depth self))) b.
#[global] Instance Load_Anycast : Load Anycast := fun s =>
  let! (depth, s) := load_from s in
  let! (rewrite_prefix, s) := load_raw_vec s (SplitDepth.into_bit_len depth) in
  Ok (mkAnycast depth rewrite_prefix, s).

(** ** [StdAddr] *)

Record StdAddr := mkStd { std_anycast : option Anycast; std_workchain : Z; std_address : HashBytes }.

Definition HASH_ZERO : HashBytes := replicate 32 0.

Module StdAddr.
Implicit Type self : StdAddr.
Definition BITS_WITHOUT_ANYCAST : Z := 2 + 1 + 8 + 256.
Definition BITS_MAX : Z := BITS_WITHOUT_ANYCAST + Anycast.BITS_MAX.

Definition new (workchain : Z) (address : HashBytes) : StdAddr := mkStd None workchain address.
Definition ZERO : StdAddr := new 0 HASH_ZERO.
Definition default : StdAddr := ZERO.
Definition new_masterchain (address : HashBytes) : StdAddr := mkStd None (as_signed 8 (wrap 8 (workchain ShardIdent.MASTERCHAIN))) address.

Definition is_masterchain self : bool := std_workchain self =? workchain ShardIdent.MASTERCHAIN.
Definition is_zero self : bool :=
  (std_workchain self =? 0) && negb (is_some (std_anycast self)) && bool_decide (std_address self = HASH_ZERO).
Definition bit_len self : Z :=
  match std_anycast self with
  | Some anycast => u16 (BITS_WITHOUT_ANYCAST + Anycast.bit_len anycast)
  | None => BITS_WITHOUT_ANYCAST
  end.
Definition prefix self : Z := from_be_bytes (take 8 (std_address self)).
End StdAddr.

#[global] Instance Addr_StdAddr : Addr StdAddr := { addr_workchain self := std_workchain self; addr_prefix self := StdAddr.prefix self }.

#[global] Instance Store_StdAddr : Store StdAddr := fun self ctx b =>
  if negb (has_capacity b (StdAddr.bit_len self) 0) then Err CellOverflow else
  let! b := on_data (fun d => store_small_uint d 0x2 2) b in
  let! b := store_into (std_anycast self) ctx b in
  let! b := on_data (fun d => store_u8 d (wrap 8 (std_workchain self))) b in
  on_data (fun d => store_u256 d (std_address self)) b.

(** What follows the tag *)
Definition load_std_rest (s : CellSlice) : result (StdAddr * CellSlice) :=
  let! (anycast, s) := load_from s in
  let! (workchain, s) := load_u8 s in
  let! (address, s) := load_u256 s in
  Ok (mkStd anycast (as_signed 8 workchain) address, s).
#[global] Instance Load_StdAddr : Load StdAddr := fun s =>
  let! (tag, s) := load_bit s in
  if negb tag then Err InvalidTag else
  let! (var, s) := load_bit s in
  if var : bool then Err InvalidTag else load_std_rest s.

(** *** As a key of a dictionary *)
#[global] Instance DictKey_StdAddr : DictKey StdAddr := StdAddr.BITS_WITHOUT_ANYCAST.
#[global] Instance StoreDictKey_StdAddr : StoreDictKey StdAddr := fun self b =>
  if is_some (std_anycast self) || negb (has_capacity_bits b StdAddr.BITS_WITHOUT_ANYCAST) then Err InvalidData else
  let! b := store_small_uint b 0x4 3 in
  let! b := store_u8 b (wrap 8 (std_workchain self)) in
  store_u256 b (std_address self).
(** The address starts at bit 11: two wide words are shifted into place. *)
#[global] Instance LoadDictKey_StdAddr : LoadDictKey StdAddr := fun data =>
  let raw := DataBuilder.data data in
  let first_byte := byte_at raw 0 in
  let second_byte := byte_at raw 1 in
  if negb (Z.land (Z.lxor first_byte 0x80) 0xe0 =? 0) then None else
  let workchain := as_signed 8 (Z.lor (u8 (Z.shiftl first_byte 3)) (Z.shiftr second_byte 5)) in
  let hi := from_be_bytes (sub_bytes raw 2 16) in
  let lo := from_be_bytes (sub_bytes raw 18 16) in
  let address := to_be_bytes 16 (Z.lor (Z.shiftr hi 5) (u128 (Z.shiftl second_byte 123)))
    ++ to_be_bytes 16 (Z.lor (Z.shiftr lo 5) (u128 (Z.shiftl hi 123))) in
  Some (mkStd None workchain address).

(** ** [VarAddr] *)

Record VarAddr := mkVar { var_anycast : option Anycast; address_len : Uint9; var_workchain : Z; var_address : list Z }.

Definition UINT9_BITS : Z := 9.

Module VarAddr.
Implicit Type self : VarAddr.
Definition BITS_MAX : Z := 2 + 1 + Anycast.BITS_MAX + UINT9_BITS + 32 + raw (Bounded.MAX : Uint9).

Definition is_masterchain self : bool := var_workchain self =? workchain ShardIdent.MASTERCHAIN.
Definition bit_len self : Z :=
  let bit_len := u16 (2 + 1 + UINT9_BITS + 32 + raw (address_len self)) in
  match var_anycast self with
  | Some anycast => u16 (bit_len + Anycast.bit_len anycast)
  | None => bit_len
  end.
(** The first bytes, with zeros behind a shorter address *)
Definition prefix self : Z :=
  let total_bytes := Z.min (zlen (var_address self)) 8 in
  from_be_bytes (copy_bytes (replicate 8 0) 0 (sub_bytes (var_address self) 0 total_bytes) total_bytes).
End VarAddr.

#[global] Instance Addr_VarAddr : Addr VarAddr := { addr_workchain self := var_workchain self; addr_prefix self := VarAddr.prefix self }.

#[global] Instance Store_VarAddr : Store VarAddr := fun self ctx b =>
  if negb (has_capacity b (VarAddr.bit_len self) 0) then Err CellOverflow else
  let! b := on_data (fun d => store_small_uint d 0x3 2) b in
  let! b := store_into (var_anycast self) ctx b in
  let! b := store_into (address_len self) ctx b in
  let! b := on_data (fun d => store_u32 d (wrap 32 (var_workchain self))) b in
  on_data (fun d => store_raw d (var_address self) (raw (address_len self))) b.

Definition load_var_rest (s : CellSlice) : result (VarAddr * CellSlice) :=
  let! (anycast, s) := load_from s in
  let! (address_len, s) := load_from s in
  let! (workchain, s) := load_u32 s in
  let! (address, s) := load_raw_vec s (raw (address_len : Uint9)) in
  Ok (mkVar anycast address_len (as_signed 32 workchain) address, s).

(** ** [IntAddr] *)

Inductive IntAddr : Type := IntStd (addr : StdAddr) | IntVar (addr : VarAddr).

Module IntAddr.
Implicit Type self : IntAddr.
Definition BITS_MAX : Z := 1 + VarAddr.BITS_MAX.
Definition default : IntAddr := IntStd StdAddr.default.

Definition workchain self : Z := match self with IntStd addr => std_workchain addr | IntVar addr => var_workchain addr end.
Definition is_masterchain self : bool := workchain self =? Shard.workchain ShardIdent.MASTERCHAIN.
Definition anycast self : option Anycast := match self with IntStd addr => std_anycast addr | IntVar addr => var_anycast addr end.
Definition as_std self : option StdAddr := match self with IntStd addr => Some addr | IntVar _ => None end.
Definition as_var self : option VarAddr := match self with IntStd _ => None | IntVar addr => Some addr end.
Definition bit_len self : Z := match self with IntStd addr => StdAddr.bit_len addr | IntVar addr => VarAddr.bit_len addr end.
Definition prefix self : Z := match self with IntStd addr => StdAddr.prefix addr | IntVar addr => VarAddr.prefix addr end.
Definition of_parts (parts : Z * HashBytes) : IntAddr := IntStd (StdAddr.new parts.1 parts.2).
End IntAddr.

#[global] Instance Addr_IntAddr : Addr IntAddr := { addr_workchain self := IntAddr.workchain self; addr_prefix self := IntAddr.prefix self }.

#[global] Instance Store_IntAddr : Store IntAddr := fun self ctx b =>
  match self with
  | IntStd addr => store_into addr ctx b
  | IntVar addr => store_into addr ctx b
  end.
#[global] Instance Load_IntAddr : Load IntAddr := fun s =>
  let! (tag, s) := load_bit s in
  if negb tag then Err InvalidTag else
  let! (var, s) := load_bit s in
  if var : bool
  then let! (addr, s) := load_var_rest s in Ok (IntVar addr, s)
  else let! (addr, s) := load_std_rest s in Ok (IntStd addr, s).

(** ** [ExtAddr] *)

Record ExtAddr := mkExt { data_bit_len : Uint9; ext_data : list Z }.

Module ExtAddr.
(** The data is cut or filled with zeros, and the bits behind the last one are cleared. *)
Definition new (data_bit_len : Z) (data : list Z) : option ExtAddr :=
  let data_bit_len : Uint9 := Bounded.new data_bit_len in
  if Bounded.is_valid data_bit_len then
    let bits := raw data_bit_len in
    let bytes := div_ceil bits 8 in
    let data := take (Z.to_nat bytes) data ++ replicate (Z.to_nat bytes - length data) 0 in
    let rem := bits mod 8 in
    let data :=
      if 0 <? rem then
        let tag_mask := u8 (Z.shiftl 1 (7 - rem)) in
        let data_mask := u8 (Z.shiftl (unot 8 (tag_mask - 1)) 1) in
        set_byte data (bytes - 1) (Z.land (byte_at data (bytes - 1)) data_mask)
      else data in
    Some (mkExt data_bit_len data)
  else None.
Definition bit_len (self : ExtAddr) : Z := u16 (UINT9_BITS + raw (data_bit_len self)).
End ExtAddr.

Definition store_ext_addr (b : CellBuilder) (ctx : CellContext) (addr : option ExtAddr) : result CellBuilder :=
  match addr with
  | None => on_data (fun d => store_zeros d 2) b
  | Some addr =>
      if negb (has_capacity b (u16 (2 + UINT9_BITS + raw (data_bit_len addr))) 0) then Err CellOverflow else
      let! b := on_data store_bit_zero b in
      let! b := on_data store_bit_one b in
      let! b := store_into (data_bit_len addr) ctx b in
      on_data (fun d => store_raw d (ext_data addr) (raw (data_bit_len addr))) b
  end.
Definition load_ext_addr (s : CellSlice) : result (option ExtAddr * CellSlice) :=
  let! (tag, s) := load_bit s in
  if tag : bool then Err InvalidTag else
  let! (ext, s) := load_bit s in
  if negb ext then Ok (None, s) else
  let! (data_bit_len, s) := load_from s in
  let! (data, s) := load_raw_vec s (raw (data_bit_len : Uint9)) in
  Ok (Some (mkExt data_bit_len data), s).
Definition compute_ext_addr_bit_len (addr : option ExtAddr) : Z :=
  match addr with Some addr => u16 (2 + ExtAddr.bit_len addr) | None => 2 end.

(** ** Optional internal addresses *)

Definition compute_opt_int_addr_bit_len (addr : option IntAddr) : Z :=
  match addr with Some src => IntAddr.bit_len src | None => 2 end.
Definition store_opt_int_addr (b : CellBuilder) (ctx : CellContext) (addr : option IntAddr) : result CellBuilder :=
  match addr with
  | Some addr => store_into addr ctx b
  | None => on_data (fun d => store_zeros d 2) b
  end.
Definition load_opt_int_addr (s : CellSlice) : result (option IntAddr * CellSlice) :=
  let! bit := get_bit s 0 in
  if bit : bool then let! (addr, s) := load_from s in Ok (Some addr, s)
  else
    let! (tag, s) := load_small_uint s 2 in
    if tag =? 0 then Ok (None, s) else Err InvalidTag.

(** ** [AnyAddr] *)

Inductive AnyAddr : Type := AnyNone | AnyExt (addr : ExtAddr) | AnyStd (addr : StdAddr) | AnyVar (addr : VarAddr).

Module AnyAddr.
Definition default : AnyAddr := AnyNone.
Definition bit_len (self : AnyAddr) : Z :=
  match self with
  | AnyNone => 2
  | AnyExt addr => ExtAddr.bit_len addr
  | AnyStd addr => StdAddr.bit_len addr
  | AnyVar addr => VarAddr.bit_len addr
  end.
Definition of_int (addr : IntAddr) : AnyAddr := match addr with IntStd addr => AnyStd addr | IntVar addr => AnyVar addr end.
Definition of_opt_ext (value : option ExtAddr) : AnyAddr := match value with Some addr => AnyExt addr | None => AnyNone end.
Definition of_opt_int (value : option IntAddr) : AnyAddr := match value with Some addr => of_int addr | None => AnyNone end.
End AnyAddr.

#[global] Instance Store_AnyAddr : Store AnyAddr := fun self ctx b =>
  match self with
  | AnyNone => store_ext_addr b ctx None
  | AnyStd addr => store_into addr ctx b
  | AnyVar addr => store_into addr ctx b
  | AnyExt addr => store_ext_addr b ctx (Some addr)
  end.
#[global] Instance Load_AnyAddr : Load AnyAddr := fun s =>
  let! bit := get_bit s 0 in
  if bit : bool then
    let! (addr, s) := load_from s in Ok (match addr with IntStd addr => AnyStd addr | IntVar addr => AnyVar addr end, s)
  else
    let! (addr, s) := load_ext_addr s in Ok (match addr with Some addr => AnyExt addr | None => AnyNone end, s).
