(* ===== verification/AddressTheorems.v ===== *)
(** * AddressTheorems: what addresses promise

    Every address is stored as the bits of its TL-B scheme and read back; a standard
    address is a key of dictionaries; the shards of a tree share out the accounts. *)

From S2P Require Import Prelude Bits Pieces DataBuilder DataBuilderSpec CellMeta Cell Slice SliceSpec Builder BuilderSpec Context DictLabel DictLabelSpec Dict DictSpec DictKeys DictTyped Num NumSpec DictTheorems Shard ShardTheorems Address.

(** ** Bytes that hold a number of bits *)

(** The bits behind the last one are zero. *)
Definition raw_ok (l : list Z) (n : Z) : Prop := zlen l = div_ceil n 8 /\ l = pack (div_ceil n 8) (bits_from l 0 n).

Lemma raw_ok_bytes l n : raw_ok l n -> Forall is_byte l.
Proof. intros [_ ->]. apply pack_bytes. Qed.

Lemma raw_ok_bits l n : 0 <= n -> raw_ok l n -> raw_bits l n = bits_from l 0 n.
Proof. intros Hn [Hz _]. apply raw_bits_exact. rewrite Hz. dlia. Qed.

Lemma appends_raw l n : 0 <= n <= 1023 -> raw_ok l n -> appends (on_data (fun d => store_raw d l n)) (bits_from l 0 n, []).
Proof.
  intros Hn Hl. apply appends_bits. intros d Hd. rewrite store_raw_spec; [by rewrite raw_ok_bits by (done || lia) | done | by eapply raw_ok_bytes | lia|].
  destruct Hl as [-> _]. dlia.
Qed.

Lemma has_bits s n : slice_wf s -> 0 <= n <= 1023 -> Range.has_remaining (range s) n 0 = (n <=? size_bits s).
Proof.
  intros Hs Hn. rewrite size_bits_eq by done. wf_facts s Hs. unfold Range.has_remaining. rewrite Z.add_0_r, u16_small, u8_small by lia.
  zcases; (done || lia).
Qed.

Lemma reads_raw l n : 0 <= n <= 1023 -> raw_ok l n -> reads (fun s => load_raw_vec s n) l (bits_from l 0 n, []).
Proof.
  intros Hn Hl. apply reads_moved. intros s k Hs Hb. unfold load_raw_vec. rewrite has_bits by done.
  assert (n <= size_bits s) as Hle by (rewrite <- (zlen_slice_bits s Hs), Hb, zlen_app, zlen_bits_from by lia; pose proof (zlen_nonneg k); lia).
  rewrite (proj2 (Z.leb_le _ _)) by done. cbn [negb].
  destruct (load_front s n (pack (div_ceil n 8)) (load_raw s (replicate (Z.to_nat (div_ceil n 8)) 0) n) (bits_from l 0 n) k) as (s' & E & M);
    [done | by apply zlen_bits_from; lia | done | |].
  - unfold load_raw, load_with. rewrite get_raw_spec by (done || lia || by apply Forall_replicate). unfold sub_bits. rewrite drop_0.
    unfold zlen. rewrite length_replicate, (proj2 (Z.leb_le (div_ceil n 8) _)), andb_true_r by dlia. by destruct (n <=? size_bits s).
  - exists s'. split; [|done]. rewrite E. by destruct Hl as [_ <-].
Qed.

(** ** [Anycast] *)

Definition anycast_ok (a : Anycast) : Prop := 1 <= depth_inner (ac_depth a) <= 31 /\ raw_ok (rewrite_prefix a) (depth_inner (ac_depth a)).
Definition anycast_bits (a : Anycast) : list bool :=
  uint_bits 5 (depth_inner (ac_depth a)) ++ bits_from (rewrite_prefix a) 0 (depth_inner (ac_depth a)).

Lemma zlen_anycast a : anycast_ok a -> zlen (anycast_bits a) = Anycast.bit_len a /\ Anycast.bit_len a = 5 + depth_inner (ac_depth a).
Proof.
  intros [Hd _]. unfold anycast_bits, Anycast.bit_len, SplitDepth.BITS, SplitDepth.into_bit_len.
  rewrite zlen_app, zlen_uint_bits, zlen_bits_from, u16_small by lia. done.
Qed.

#[export] Program Instance Codec_Anycast : Codec Anycast := { enc_ok := anycast_ok; enc a := (anycast_bits a, []) }.
Next Obligation.
  intros ctx b a Hb Ha. destruct (zlen_anycast a Ha) as [Hz Hl]. destruct Ha as [Hd Hr].
  revert b Hb. apply (appends_guarded _ (anycast_bits a, []) (Anycast.bit_len a) 0); cbn [fst snd]; [|lia|lia|done].
  exact (appends_bind _ _ _ _ (appends_value ctx (ac_depth a) Hd) (appends_raw _ (depth_inner (ac_depth a)) ltac:(lia) Hr)).
Qed.
Next Obligation.
  intros s [d l] l0 rs Hs [Hd Hr] Hb Hrs. cbn [ac_depth rewrite_prefix] in *.
  refine (reads_bind load_from _ d _ _ _ (reads_value d Hd) (reads_bind _ _ l _ _ ([], []) (reads_raw _ _ _ Hr) (reads_done _)) s l0 rs Hs _ Hrs); [lia|].
  cbn [enc Codec_SplitDepth fst snd]. by rewrite app_nil_r.
Qed.

(** The sizes of what is stored *)
Definition anycast_size (a : option Anycast) : Z := match a with Some a => 5 + depth_inner (ac_depth a) | None => 0 end.

Lemma zlen_opt_anycast (a : option Anycast) : enc_ok a -> zlen (enc a).1 = 1 + anycast_size a /\ 0 <= anycast_size a <= 36 /\ (enc a).2 = [].
Proof.
  destruct a as [a|]; [|done]. intros Ha. cbn [enc Codec_option Codec_Anycast fst snd anycast_size]. destruct (zlen_anycast a Ha) as [Hz Hl].
  rewrite zlen_cons, Hz, Hl. destruct Ha as [Hd _]. split_and!; [lia..|done].
Qed.

(** ** [StdAddr] *)

Record std_ok (a : StdAddr) : Prop := {
  so_anycast : enc_ok (std_anycast a);
  so_workchain : - 2 ^ 7 <= std_workchain a < 2 ^ 7;
  so_address : hash_ok (std_address a);
}.
Definition std_rest_bits (a : StdAddr) : list bool :=
  (enc (std_anycast a)).1 ++ uint_bits 8 (wrap 8 (std_workchain a)) ++ bits_from (std_address a) 0 256.
Definition std_bits (a : StdAddr) : list bool := true :: false :: std_rest_bits a.

Lemma zlen_std a : std_ok a -> zlen (std_bits a) = StdAddr.bit_len a /\ StdAddr.bit_len a = 267 + anycast_size (std_anycast a).
Proof.
  intros [Ha _ _]. destruct (zlen_opt_anycast _ Ha) as (Hz & Hr & _). unfold std_bits, std_rest_bits.
  rewrite !zlen_cons, !zlen_app, Hz, zlen_uint_bits, zlen_bits_from by lia. unfold StdAddr.bit_len.
  destruct (std_anycast a) as [x|]; cbn [anycast_size] in *; [|done].
  destruct (zlen_anycast x Ha) as [_ ->]. rewrite u16_small by (unfold StdAddr.BITS_WITHOUT_ANYCAST; lia). unfold StdAddr.BITS_WITHOUT_ANYCAST. lia.
Qed.

Lemma appends_std ctx a : std_ok a -> appends (store_into a ctx) (std_bits a, []).
Proof.
  intros Ha. destruct (zlen_std a Ha) as [Hz Hl]. destruct Ha as [Ha Hw Hh]. destruct (zlen_opt_anycast _ Ha) as (_ & Hr & E2).
  apply (appends_guarded _ (std_bits a, []) (StdAddr.bit_len a) 0); [|cbn [fst]; lia|lia|done].
  eapply appends_ext.
  - exact (appends_bind _ _ _ _ (appends_small 2 2 ltac:(done) ltac:(done)) (appends_bind _ _ _ _ (appends_value ctx _ Ha)
      (appends_bind _ _ _ _ (appends_uint 8 _ _ (wrap_range 8 _ ltac:(done))) (appends_hash _ Hh)))).
  - cbn [fst snd]. by rewrite E2.
Qed.

Lemma reads_std_rest a : std_ok a -> reads load_std_rest a (std_rest_bits a, []).
Proof.
  intros [Ha Hw Hh]. destruct (zlen_opt_anycast _ Ha) as (_ & _ & E2). destruct a as [x wc h]. cbn [std_anycast std_workchain std_address] in *.
  eapply reads_ext.
  - refine (reads_bind load_from (fun x s => let! (wc, s) := load_u8 s in let! (h, s) := load_u256 s in Ok (mkStd x (as_signed 8 wc) h, s)) x _ _ _ (reads_value x Ha) _).
    pose proof (reads_bind _ (fun wc s => let! (h, s) := load_u256 s in Ok (mkStd x (as_signed 8 wc) h, s)) _ _ _ _
      (reads_uint 8 _ _ (wrap_range 8 wc ltac:(done))) (reads_map load_u256 (mkStd x (as_signed 8 (wrap 8 wc))) h _ (reads_hash h Hh))) as Hr.
    rewrite as_signed_wrap in Hr by done. exact Hr.
  - cbn [fst snd]. rewrite E2. done.
Qed.

#[export] Program Instance Codec_StdAddr : Codec StdAddr := { enc_ok := std_ok; enc a := (std_bits a, []) }.
Next Obligation. intros ctx b a Hb Ha. by apply appends_std. Qed.
Next Obligation.
  intros s a l rs Hs Ha Hb Hr.
  exact (reads_bind load_bit _ true a _ _ (reads_bit true) (reads_bind load_bit _ false a _ _ (reads_bit false) (reads_std_rest a Ha)) s l rs Hs Hb Hr).
Qed.

(** ** [VarAddr] and [IntAddr] *)

Record var_ok (a : VarAddr) : Prop := {
  vo_anycast : enc_ok (var_anycast a);
  vo_len : 0 <= raw (address_len a) < 2 ^ 9;
  vo_workchain : - 2 ^ 31 <= var_workchain a < 2 ^ 31;
  vo_address : raw_ok (var_address a) (raw (address_len a));
}.
Definition var_rest_bits (a : VarAddr) : list bool :=
  (enc (var_anycast a)).1 ++ uint_bits 9 (raw (address_len a)) ++ uint_bits 32 (wrap 32 (var_workchain a)) ++
  bits_from (var_address a) 0 (raw (address_len a)).
Definition var_bits (a : VarAddr) : list bool := true :: true :: var_rest_bits a.

Lemma zlen_var a : var_ok a ->
  zlen (var_bits a) = VarAddr.bit_len a /\ VarAddr.bit_len a = 44 + raw (address_len a) + anycast_size (var_anycast a).
Proof.
  intros [Ha Hn _ _]. destruct (zlen_opt_anycast _ Ha) as (Hz & Hr & _). unfold var_bits, var_rest_bits.
  rewrite !zlen_cons, !zlen_app, Hz, !zlen_uint_bits, zlen_bits_from by lia. unfold VarAddr.bit_len, UINT9_BITS.
  destruct (var_anycast a) as [x|]; cbn [anycast_size] in *; rewrite (u16_small (2 + _ + _ + _ + _)) by lia; [|lia].
  destruct (zlen_anycast x Ha) as [_ ->]. rewrite u16_small by lia. lia.
Qed.

Lemma appends_var ctx a : var_ok a -> appends (store_into a ctx) (var_bits a, []).
Proof.
  intros Ha. destruct (zlen_var a Ha) as [Hz Hl]. destruct Ha as [Ha Hn Hw Hraw]. destruct (zlen_opt_anycast _ Ha) as (_ & Hr & E2).
  apply (appends_guarded _ (var_bits a, []) (VarAddr.bit_len a) 0); [|cbn [fst]; lia|lia|done].
  eapply appends_ext.
  - refine (appends_bind _ _ _ _ (appends_small 3 2 _ _) (appends_bind _ _ _ _ (appends_value ctx _ Ha)
      (appends_bind _ _ _ _ (appends_value ctx (address_len a) Hn) (appends_bind _ _ _ _ (appends_uint 32 _ _ (wrap_range 32 _ _))
      (appends_raw _ (raw (address_len a)) _ Hraw))))); (done || lia).
  - cbn [fst snd]. by rewrite E2.
Qed.

Lemma reads_var_rest a : var_ok a -> reads load_var_rest a (var_rest_bits a, []).
Proof.
  intros [Ha Hn Hw Hraw]. destruct (zlen_opt_anycast _ Ha) as (_ & _ & E2). destruct a as [x [n] wc l].
  cbn [var_anycast address_len var_workchain var_address raw] in *. set (n9 := mkBounded 16 9 n) in *. eapply reads_ext.
  - refine (reads_bind load_from _ x _ _ _ (reads_value x Ha) _). refine (reads_bind load_from _ n9 _ _ _ (reads_value n9 Hn) _).
    pose proof (reads_bind (load_be 32) (fun wc s => let! (l, s) := load_raw_vec s n in Ok (mkVar x n9 (as_signed 32 wc) l, s)) _ _ _ _
      (reads_uint 32 _ _ (wrap_range 32 wc ltac:(done))) (reads_map _ (mkVar x n9 (as_signed 32 (wrap 32 wc))) l _ (reads_raw l n ltac:(lia) Hraw))) as Hr.
    rewrite as_signed_wrap in Hr by done. exact Hr.
  - cbn [fst snd enc Codec_small]. by rewrite E2.
Qed.

Definition int_ok (a : IntAddr) : Prop := match a with IntStd a => std_ok a | IntVar a => var_ok a end.
Definition int_bits (a : IntAddr) : list bool := match a with IntStd a => std_bits a | IntVar a => var_bits a end.

Lemma reads_int a : int_ok a -> reads load_from a (int_bits a, []).
Proof.
  destruct a as [a|a]; intros Ha.
  - exact (reads_bind load_bit _ true _ _ _ (reads_bit true) (reads_bind load_bit _ false _ _ _ (reads_bit false) (reads_map _ IntStd _ _ (reads_std_rest a Ha)))).
  - exact (reads_bind load_bit _ true _ _ _ (reads_bit true) (reads_bind load_bit _ true _ _ _ (reads_bit true) (reads_map _ IntVar _ _ (reads_var_rest a Ha)))).
Qed.

#[export] Program Instance Codec_IntAddr : Codec IntAddr := { enc_ok := int_ok; enc a := (int_bits a, []) }.
Next Obligation. intros ctx b [a|a] Hb Ha; [by apply appends_std | by apply appends_var]. Qed.
Next Obligation. intros s a l rs Hs Ha Hb Hr. by eapply reads_int. Qed.

Lemma zlen_int a : int_ok a -> zlen (int_bits a) = IntAddr.bit_len a /\ 0 <= IntAddr.bit_len a <= 600.
Proof.
  destruct a as [a|a]; intros Ha; cbn [int_bits IntAddr.bit_len].
  - destruct (zlen_std a Ha) as [? E]. pose proof (zlen_opt_anycast _ (so_anycast a Ha)). lia.
  - destruct (zlen_var a Ha) as [? E]. pose proof (zlen_opt_anycast _ (vo_anycast a Ha)). pose proof (vo_len a Ha). lia.
Qed.

(** ** External and optional addresses *)

Definition ext_ok (a : ExtAddr) : Prop := 0 <= raw (data_bit_len a) < 2 ^ 9 /\ raw_ok (ext_data a) (raw (data_bit_len a)).
Definition opt_ok {A} (ok : A -> Prop) (a : option A) : Prop := match a with Some a => ok a | None => True end.
Definition ext_bits (a : option ExtAddr) : list bool :=
  match a with
  | Some a => false :: true :: uint_bits 9 (raw (data_bit_len a)) ++ bits_from (ext_data a) 0 (raw (data_bit_len a))
  | None => [false; false]
  end.

Lemma zlen_ext a : opt_ok ext_ok a -> zlen (ext_bits a) = compute_ext_addr_bit_len a /\ 0 <= compute_ext_addr_bit_len a <= 522.
Proof.
  destruct a as [a|]; [|done]. intros [Hn Hl]. cbn [ext_bits compute_ext_addr_bit_len]. unfold ExtAddr.bit_len, UINT9_BITS.
  rewrite !zlen_cons, zlen_app, zlen_uint_bits, zlen_bits_from, !u16_small by (rewrite ?u16_small; lia). lia.
Qed.

Lemma appends_ext_addr ctx a : opt_ok ext_ok a -> appends (fun b => store_ext_addr b ctx a) (ext_bits a, []).
Proof.
  intros Ha. destruct (zlen_ext a Ha) as [Hz _]. destruct a as [a|].
  - destruct Ha as [Hn Hraw]. unfold UINT9_BITS in *. cbn [compute_ext_addr_bit_len] in Hz. unfold ExtAddr.bit_len, UINT9_BITS in Hz.
    rewrite (u16_small (9 + _)), u16_small in Hz by lia. unfold store_ext_addr, UINT9_BITS.
    rewrite u16_small by lia. apply (appends_guarded _ (ext_bits (Some a), []) (2 + 9 + raw (data_bit_len a)) 0); [|cbn [fst]; lia|lia|done].
    refine (appends_bind _ _ _ _ (appends_bit false) (appends_bind _ _ _ _ (appends_bit true) (appends_bind _ _ _ _ (appends_value ctx (data_bit_len a) Hn)
      (appends_raw _ (raw (data_bit_len a)) _ Hraw)))). lia.
  - apply (appends_bits (fun d => store_zeros d 2) [false; false]). intros d Hd. by rewrite store_zeros_spec by (done || lia).
Qed.

Lemma reads_ext_addr a : opt_ok ext_ok a -> reads load_ext_addr a (ext_bits a, []).
Proof.
  intros Ha. destruct a as [a|].
  - destruct Ha as [Hn Hraw]. destruct a as [[n] l]. cbn [data_bit_len ext_data raw] in *. set (n9 := mkBounded 16 9 n) in *.
    exact (reads_bind load_bit _ false _ _ _ (reads_bit false) (reads_bind load_bit _ true _ _ _ (reads_bit true)
      (reads_bind load_from _ n9 _ _ _ (reads_value n9 Hn) (reads_map _ (fun l => Some (mkExt n9 l)) l _ (reads_raw l n ltac:(lia) Hraw))))).
  - exact (reads_bind load_bit _ false _ _ _ (reads_bit false) (reads_bind load_bit _ false _ _ _ (reads_bit false) (reads_done None))).
Qed.

(** The first bit tells the two kinds apart before anything is read. *)
Lemma peek_bit s b l : slice_wf s -> slice_bits s = b :: l -> get_bit s 0 = Ok b.
Proof. intros Hs Hb. rewrite get_bit_spec by (done || lia). by rewrite Hb. Qed.

Definition opt_int_bits (a : option IntAddr) : list bool := match a with Some a => int_bits a | None => [false; false] end.

Lemma int_bits_tag a : exists l, int_bits a = true :: l.
Proof. destruct a; by eexists. Qed.
Lemma ext_bits_tag a : exists l, ext_bits a = false :: l.
Proof. destruct a; by eexists. Qed.

Lemma appends_opt_int ctx a : opt_ok int_ok a -> appends (fun b => store_opt_int_addr b ctx a) (opt_int_bits a, []).
Proof.
  destruct a as [a|]; intros Ha; [exact (appends_value ctx a Ha)|].
  apply (appends_bits (fun d => store_zeros d 2) [false; false]). intros d Hd. by rewrite store_zeros_spec by (done || lia).
Qed.

Lemma reads_opt_int a : opt_ok int_ok a -> reads load_opt_int_addr a (opt_int_bits a, []).
Proof.
  intros Ha s l rs Hs Hb Hr. unfold load_opt_int_addr. destruct a as [a|]; cbn [opt_int_bits fst] in Hb.
  - destruct (int_bits_tag a) as [k E]. rewrite (peek_bit s true (k ++ l)) by (done || by rewrite Hb, E). cbn [rbind].
    exact (reads_map load_from Some a _ (reads_int a Ha) s l rs Hs Hb Hr).
  - rewrite (peek_bit s false (false :: l)) by done. cbn [rbind].
    destruct (reads_small 2 0 ltac:(lia) ltac:(lia) s l rs Hs Hb Hr) as (s' & -> & ?). by exists s'.
Qed.

Lemma zlen_opt_int a : opt_ok int_ok a -> zlen (opt_int_bits a) = compute_opt_int_addr_bit_len a /\ 0 <= compute_opt_int_addr_bit_len a <= 600.
Proof. destruct a as [a|]; intros Ha; [by apply zlen_int | done]. Qed.

(** ** [AnyAddr] *)

Definition any_ok (a : AnyAddr) : Prop :=
  match a with AnyNone => True | AnyExt a => ext_ok a | AnyStd a => std_ok a | AnyVar a => var_ok a end.
Definition any_bits (a : AnyAddr) : list bool :=
  match a with AnyNone => ext_bits None | AnyExt a => ext_bits (Some a) | AnyStd a => std_bits a | AnyVar a => var_bits a end.

#[export] Program Instance Codec_AnyAddr : Codec AnyAddr := { enc_ok := any_ok; enc a := (any_bits a, []) }.
Next Obligation.
  intros ctx b [|a|a|a] Hb Ha; [by apply (appends_ext_addr ctx None) | by apply (appends_ext_addr ctx (Some a)) | by apply appends_std | by apply appends_var].
Qed.
Next Obligation.
  intros s a l rs Hs Ha Hb Hr. unfold load_from, Load_AnyAddr.
  assert ((exists o, opt_ok ext_ok o /\ any_bits a = ext_bits o /\ match o with Some x => AnyExt x | None => AnyNone end = a) \/
    exists i, int_ok i /\ any_bits a = int_bits i /\ match i with IntStd x => AnyStd x | IntVar x => AnyVar x end = a) as [(o & Ho & E & <-)|(i & Hi & E & <-)].
  { destruct a as [|a|a|a]; [left; by exists None | left; by exists (Some a) | right; by exists (IntStd a) | right; by exists (IntVar a)]. }
  all: cbn [fst snd] in *; rewrite E in Hb.
  - destruct (ext_bits_tag o) as [k Ek]. rewrite (peek_bit s false (k ++ l)) by (done || by rewrite Hb, Ek). cbn [rbind].
    exact (reads_map load_ext_addr _ o _ (reads_ext_addr o Ho) s l rs Hs Hb Hr).
  - destruct (int_bits_tag i) as [k Ek]. rewrite (peek_bit s true (k ++ l)) by (done || by rewrite Hb, Ek). cbn [rbind].
    exact (reads_map load_from _ i _ (reads_int i Hi) s l rs Hs Hb Hr).
Qed.

(** ** A standard address as a key *)

Definition std_key_bits (k : StdAddr) : list bool :=
  true :: false :: false :: uint_bits 8 (wrap 8 (std_workchain k)) ++ bits_from (std_address k) 0 256.
Record std_key_ok (k : StdAddr) : Prop := {
  sk_anycast : std_anycast k = None;
  sk_workchain : - 2 ^ 7 <= std_workchain k < 2 ^ 7;
  sk_address : hash_ok (std_address k);
}.

Lemma testbit_byte_at l q j : 0 <= j < 8 -> 0 <= q -> Z.testbit (byte_at l q) j = bit_at l (8 * q + 7 - j).
Proof.
  intros Hj Hq. unfold bit_at. replace ((8 * q + 7 - j) / 8) with q by lia. f_equal. replace ((8 * q + 7 - j) mod 8) with (7 - j) by lia. lia.
Qed.

Lemma testbit_byte_high l q j : Forall is_byte l -> 8 <= j -> Z.testbit (byte_at l q) j = false.
Proof. intros Hl Hj. pose proof (byte_at_range l q Hl) as Hr. unfold is_byte in Hr. apply (testbit_high 8); lia. Qed.

Lemma bit_at_be n v i : 0 <= n -> 0 <= i < 8 * n -> bit_at (to_be_bytes n v) i = Z.testbit v (8 * n - 1 - i).
Proof.
  intros Hn Hi. pose proof (f_equal (fun l => l !! Z.to_nat i) (uint_bits_bytes n v Hn)) as E. cbv beta in E.
  rewrite lookup_uint_bits, lookup_bits_from in E by lia. injection E as E. rewrite Z2Nat.id in E by lia. rewrite E. f_equal; lia.
Qed.

Section Key.
Context (k : StdAddr) (Hk : std_key_ok k).
Abbreviation D := (pack 128 (std_key_bits k)).
Abbreviation w := (wrap 8 (std_workchain k)).
Abbreviation a := (std_address k).

Lemma key_length : zlen (std_key_bits k) = 267.
Proof. unfold std_key_bits. rewrite !zlen_cons, zlen_app, zlen_uint_bits, zlen_bits_from by lia. done. Qed.

Lemma key_bit i : 0 <= i < 267 ->
  bit_at D i = if i =? 0 then true else if i <? 3 then false else if i <? 11 then Z.testbit w (10 - i) else bit_at a (i - 11).
Proof.
  intros Hi. rewrite bit_at_pack by lia. unfold std_key_bits.
  destruct (Z.eqb_spec i 0) as [->|]; [done|]. destruct (Z.ltb_spec i 3).
  { assert (i = 1 \/ i = 2) as [-> | ->] by lia; done. }
  replace (Z.to_nat i) with (3 + Z.to_nat (i - 3))%nat by lia. cbn [Nat.add]. rewrite !lookup_cons. destruct (Z.ltb_spec i 11).
  - rewrite lookup_app_l by (rewrite length_uint_bits; lia). rewrite lookup_uint_bits by lia. cbn [default from_option id]. f_equal. lia.
  - rewrite lookup_app_r by (rewrite length_uint_bits; lia). rewrite length_uint_bits, lookup_bits_from by lia. cbn [default from_option id]. f_equal. lia.
Qed.

Lemma key_bytes : Forall is_byte D.
Proof. apply pack_bytes. Qed.

Lemma key_testbit q j : 0 <= q < 128 -> 0 <= j -> Z.testbit (byte_at D q) j = (j <? 8) && bit_at D (8 * q + 7 - j).
Proof.
  intros Hq Hj. destruct (Z.ltb_spec j 8); [by rewrite testbit_byte_at by lia | by rewrite testbit_byte_high by (apply key_bytes || lia)].
Qed.

Lemma key_tag : Z.land (Z.lxor (byte_at D 0) 0x80) 0xe0 = 0.
Proof.
  apply Z.bits_inj'. intros j Hj. rewrite Z.land_spec, Z.lxor_spec, key_testbit, Z.bits_0 by lia.
  destruct (Z.ltb_spec j 8) as [H8|H8]; cbn [andb]; [|rewrite (testbit_high 8 0xe0) by lia; apply andb_false_r].
  destruct (Z.ltb_spec j 5).
  - replace (Z.testbit 0xe0 j) with false; [apply andb_false_r|].
    assert (j = 0 \/ j = 1 \/ j = 2 \/ j = 3 \/ j = 4) as [-> | [-> | [-> | [-> | ->]]]] by lia; done.
  - rewrite key_bit by lia. assert (j = 5 \/ j = 6 \/ j = 7) as [-> | [-> | ->]] by lia; done.
Qed.

Lemma key_workchain : Z.lor (u8 (Z.shiftl (byte_at D 0) 3)) (Z.shiftr (byte_at D 1) 5) = w.
Proof.
  apply Z.bits_inj'. intros j Hj. unfold u8. rewrite Z.lor_spec, testbit_wrap, testbit_shiftl, Z.shiftr_spec by lia.
  pose proof (wrap_range 8 (std_workchain k) ltac:(lia)). destruct (Z.ltb_spec j 8); cycle 1.
  { cbn [andb orb]. rewrite (testbit_high 8 w), (key_testbit 1) by lia. by rewrite (proj2 (Z.ltb_ge _ _)) by lia. }
  cbn [andb]. rewrite (key_testbit 1) by lia. destruct (Z.ltb_spec j 3).
  - rewrite Z.testbit_neg_r by lia. rewrite (proj2 (Z.ltb_lt _ _)) by lia. cbn [orb andb]. rewrite key_bit by lia. zcases; try lia. f_equal. lia.
  - rewrite key_testbit by lia. rewrite (proj2 (Z.ltb_lt (j - 3) 8)), (proj2 (Z.ltb_ge (j + 5) 8)) by lia. cbn [andb].
    rewrite orb_false_r, key_bit by lia. zcases; try lia. f_equal. lia.
Qed.

Lemma key_word q i : 0 <= q -> q + 16 <= 34 ->
  Z.testbit (from_be_bytes (sub_bytes D q 16)) i = (0 <=? i) && (i <? 128) && bit_at D (8 * q + 127 - i).
Proof.
  intros Hq Hq'. rewrite (testbit_from_be_any 16) by (first [apply sub_bytes_bytes, key_bytes | rewrite zlen_sub; rewrite ?zlen_pack; lia]).
  change (8 * 16) with 128. destruct (Z.leb_spec 0 i), (Z.ltb_spec i 128); try done. cbn [andb]. rewrite bit_at_sub by lia. f_equal. lia.
Qed.

(** Sixteen bytes that begin five bits before the end of [high] *)
Lemma key_shifted high low i : 0 <= i < 128 -> (forall j, Z.testbit low j = (0 <=? j) && (j <? 128) && Z.testbit low j) ->
  Z.testbit (Z.lor (Z.shiftr low 5) (u128 (Z.shiftl high 123))) (127 - i) = if i <? 5 then Z.testbit high (4 - i) else Z.testbit low (132 - i).
Proof.
  intros Hi Hl. unfold u128. rewrite Z.lor_spec, Z.shiftr_spec, testbit_wrap, testbit_shiftl by lia. rewrite (proj2 (Z.ltb_lt _ 128)) by lia. cbn [andb].
  destruct (Z.ltb_spec i 5).
  - rewrite Hl, (proj2 (Z.ltb_ge _ 128)), andb_false_r by lia. cbn [andb orb]. f_equal. lia.
  - rewrite (Z.testbit_neg_r high) by lia. rewrite orb_false_r. f_equal. lia.
Qed.

Lemma key_address :
  let hi := from_be_bytes (sub_bytes D 2 16) in
  let lo := from_be_bytes (sub_bytes D 18 16) in
  to_be_bytes 16 (Z.lor (Z.shiftr hi 5) (u128 (Z.shiftl (byte_at D 1) 123))) ++
  to_be_bytes 16 (Z.lor (Z.shiftr lo 5) (u128 (Z.shiftl hi 123))) = a.
Proof.
  cbv zeta. destruct (sk_address k Hk) as [Hb Hz].
  assert (forall q, 0 <= q -> q + 16 <= 34 -> forall j, Z.testbit (from_be_bytes (sub_bytes D q 16)) j = (0 <=? j) && (j <? 128) && Z.testbit (from_be_bytes (sub_bytes D q 16)) j) as Hw.
  { intros q Hq1 Hq2 j. rewrite key_word by lia. by destruct (0 <=? j), (j <? 128). }
  apply bytes_ext; [by apply Forall_app; split; apply to_be_bytes_bytes | done | rewrite zlen_app, !length_to_be_bytes by lia; by rewrite Hz|].
  intros i Hi. rewrite zlen_app, !length_to_be_bytes in Hi by lia. unfold bit_at at 1. destruct (Z.ltb_spec i 128).
  - rewrite byte_at_app_l by (rewrite length_to_be_bytes; lia).
    match goal with |- Z.testbit (byte_at ?l _) _ = _ => change (bit_at l i = bit_at a i) end.
    rewrite bit_at_be, key_shifted by first [lia | apply Hw; lia]. destruct (Z.ltb_spec i 5).
    + rewrite key_testbit by lia. rewrite (proj2 (Z.ltb_lt _ _)) by lia. cbn [andb]. rewrite key_bit by lia. zcases; try lia. f_equal. lia.
    + rewrite key_word by lia. zcases; try lia. cbn [andb]. rewrite key_bit by lia. zcases; try lia. f_equal. lia.
  - rewrite byte_at_app_r by (rewrite length_to_be_bytes; lia). rewrite length_to_be_bytes by lia.
    replace (i / 8 - 16) with ((i - 128) / 8) by lia. replace (i mod 8) with ((i - 128) mod 8) by lia.
    match goal with |- Z.testbit (byte_at ?l _) _ = _ => change (bit_at l (i - 128) = bit_at a i) end.
    rewrite bit_at_be, key_shifted by first [lia | apply Hw; lia]. destruct (Z.ltb_spec (i - 128) 5).
    + rewrite key_word by lia. zcases; try lia. cbn [andb]. rewrite key_bit by lia. zcases; try lia. f_equal. lia.
    + rewrite key_word by lia. zcases; try lia. cbn [andb]. rewrite key_bit by lia. zcases; try lia. f_equal. lia.
Qed.
End Key.

Lemma append_then b l k f : wf b -> (forall c, wf c -> f c = append c k) -> (let! c := append b l in f c) = append b (l ++ k).
Proof.
  intros Hb Hf. rewrite <- append_append by done. destruct (append b l) as [c|] eqn:E; [|done]. simpl. by apply Hf, (append_wf b l c).
Qed.

#[export] Program Instance KeyLaws_StdAddr : KeyLaws StdAddr := { key_ok := std_key_ok; key_bits := std_key_bits }.
Next Obligation. intros k _. apply key_length. Qed.
Next Obligation. done. Qed.
Next Obligation.
  intros k b Hb [Ha Hw Hh] Hcap. unfold store_into_data, StoreDictKey_StdAddr. rewrite Ha. cbn [is_some orb].
  assert (has_capacity_bits b StdAddr.BITS_WITHOUT_ANYCAST = true) as ->.
  { pose proof Hb as (_ & _ & Hd & _). unfold has_capacity_bits, KEY_BITS, DictKey_StdAddr, StdAddr.BITS_WITHOUT_ANYCAST, MAX_BIT_LEN in *.
    rewrite u16_small by lia. apply Z.leb_le. lia. }
  cbn [negb]. rewrite store_small_uint_spec by done. change (std_key_bits k) with (uint_bits 3 4 ++ uint_bits 8 (wrap 8 (std_workchain k)) ++ bits_from (std_address k) 0 256).
  apply append_then; [done|]. intros c Hc. rewrite store_u8_spec by (done || apply wrap_range; lia).
  apply append_then; [done|]. intros d Hd. by apply store_u256_spec; [|apply Hh..].
Qed.
Next Obligation.
  intros k Hk. unfold load_from_data, LoadDictKey_StdAddr. cbv zeta. cbn [of_bits DataBuilder.data].
  rewrite key_tag, key_workchain, key_address by done. cbn [Z.eqb negb]. destruct Hk as [Ha Hw _]. rewrite as_signed_wrap by done.
  destruct k as [x wc h]. cbn in *. by subst x.
Qed.

(** ** Values in cells of their own *)

Lemma parse_ordinary {T} `{Load T} (v : T) x c : reads load_from v x -> ordinary c x.1 x.2 -> parse c = Ok v.
Proof.
  intros Hr Ho. destruct (ordinary_slice _ _ _ Ho) as (Es & W & B & _ & R). unfold parse. rewrite Es. cbn [rbind].
  destruct (Hr (new_allow_exotic c) [] []) as (s' & -> & _); [by rewrite ?app_nil_r..|]. done.
Qed.

(** A few bits without references *)
Lemma finish_bits ctx {laws : ContextLaws ctx} f l : appends f (l, []) -> zlen l <= MAX_BIT_LEN ->
  exists c, (let! b := f builder_new in build_ext ctx b) = Ok c /\ ordinary c l [].
Proof.
  intros Hf Hl. destruct (finish_cell ctx f (l, []) 0 Hf Hl) as (c & E & Ho & _); [done..|]. by exists c.
Qed.

Lemma zlen_any a : any_ok a -> zlen (any_bits a) = AnyAddr.bit_len a + match a with AnyExt _ => 2 | _ => 0 end /\ zlen (any_bits a) <= 600.
Proof.
  destruct a as [|a|a|a]; intros Ha; cbn [any_bits AnyAddr.bit_len]; [done|..].
  - destruct (zlen_ext (Some a) Ha) as [-> ?]. cbn [compute_ext_addr_bit_len] in *. destruct Ha as [Hn _].
    unfold ExtAddr.bit_len, UINT9_BITS in *. rewrite !u16_small in * by (rewrite ?u16_small; lia). lia.
  - destruct (zlen_int (IntStd a) Ha) as [E ?]. cbn [int_bits IntAddr.bit_len] in *. lia.
  - destruct (zlen_int (IntVar a) Ha) as [E ?]. cbn [int_bits IntAddr.bit_len] in *. lia.
Qed.

(** ** Accounts and shards *)

(** The bits of an address that shards are split by *)
Definition account_path (a : IntAddr) : list bool := uint_bits 64 (IntAddr.prefix a).

Lemma contains_path wc p a : zlen p <= 60 ->
  ShardIdent.contains_address (of_path wc p) a = true <-> wc = IntAddr.workchain a /\ p `prefix_of` account_path a.
Proof.
  intros Hp. unfold ShardIdent.contains_address, account_path. cbn [of_path Shard.workchain addr_workchain addr_prefix Addr_IntAddr].
  rewrite andb_true_iff, Z.eqb_eq, path_contains by (done || apply to_be_bytes_bytes || by rewrite length_to_be_bytes).
  by rewrite <- (uint_bits_bytes 8) by done.
Qed.

Lemma bits_from_take8 h : bits_from (take 8 h) 0 64 = bits_from h 0 64.
Proof. apply bits_from_ext. intros i Hi. unfold bit_at, byte_at. by rewrite lookup_take_lt by lia. Qed.

Lemma std_path a : std_ok a -> account_path (IntStd a) = bits_from (std_address a) 0 64.
Proof.
  intros [_ _ [Hb Hz]]. unfold account_path. cbn [IntAddr.prefix]. unfold StdAddr.prefix.
  assert (zlen (take 8 (std_address a)) = 8) as H8 by (unfold zlen in *; rewrite length_take; lia).
  rewrite from_be_bits, H8 by (by apply Forall_take). change (8 * 8) with 64.
  rewrite <- (uint_bits_uint (bits_from (take 8 (std_address a)) 0 64)), zlen_bits_from, bits_uint_bits by (done || apply bits_uint_range).
  rewrite <- (zlen_bits_from (take 8 (std_address a)) 0 64), uint_bits_uint by done.
  apply bits_from_take8.
Qed.

Lemma leaves_below t wc b e : e ∈ leaves wc b t -> exists y, e.1 = of_path wc (b ++ y) /\ zlen y <= height t.
Proof.
  revert b. induction t as [d|l IHl r IHr]; intros b; cbn [leaves height].
  - intros ->%list_elem_of_singleton. exists []. by rewrite app_nil_r.
  - intros [He|He]%elem_of_app; [apply IHl in He | apply IHr in He]; destruct He as (y & E & Hy).
    + exists (false :: y). rewrite <- app_assoc in E. split; [exact E|]. rewrite zlen_cons. lia.
    + exists (true :: y). rewrite <- app_assoc in E. split; [exact E|]. rewrite zlen_cons. lia.
Qed.

(** Below a path, one leaf lies on the way to a longer one. *)
Lemma leaves_share t wc b q : b `prefix_of` q -> zlen b + height t <= 60 -> 60 <= zlen q ->
  exists before p d after, leaves wc b t = before ++ (of_path wc p, d) :: after /\ p `prefix_of` q /\ zlen p <= 60 /\
    Forall (fun e => exists r, e.1 = of_path wc r /\ zlen r <= 60 /\ ~ r `prefix_of` q) (before ++ after).
Proof.
  intros Hb Hh Hq. revert b Hb Hh. induction t as [d|l IHl r IHr]; intros b Hb Hh; cbn [leaves height] in *.
  { exists [], b, d, []. split_and!; [done..|lia|constructor]. }
  pose proof (height_nonneg l). pose proof (height_nonneg r). assert (exists x, (b ++ [x]) `prefix_of` q) as [x Hx].
  { destruct Hb as [[|x k] ->]; [rewrite app_nil_r in Hq; lia|]. exists x, k. by rewrite <- app_assoc. }
  assert (forall t, zlen b + 1 + height t <= 60 ->
    Forall (fun e => exists r, e.1 = of_path wc r /\ zlen r <= 60 /\ ~ r `prefix_of` q) (leaves wc (b ++ [negb x]) t)) as Hother.
  { intros u Hu. apply list.Forall_forall. intros e He. destruct (leaves_below u wc (b ++ [negb x]) e He) as (y & Ey & Hy).
    exists ((b ++ [negb x]) ++ y). split; [exact Ey|]. split; [rewrite zlen_app, zlen_snoc; lia|].
    intros Hpre. assert ((b ++ [negb x]) `prefix_of` q) as Hn by (etrans; [by exists y | exact Hpre]).
    destruct Hx as [k1 E1], Hn as [k2 E2]. rewrite E1, <- !app_assoc in E2. apply app_inv_head in E2. injection E2 as E2. by destruct x. }
  destruct x.
  - destruct (IHr (b ++ [true])) as (before & p & d & after & -> & Hp & Hz & HF); [done | rewrite zlen_snoc; lia |].
    exists (leaves wc (b ++ [false]) l ++ before), p, d, after. rewrite <- !app_assoc. split_and!; [done..|].
    apply Forall_app. split; [apply Hother; lia | done].
  - destruct (IHl (b ++ [false])) as (before & p & d & after & -> & Hp & Hz & HF); [done | rewrite zlen_snoc; lia |].
    exists before, p, d, (after ++ leaves wc (b ++ [true]) r). rewrite <- !app_assoc. split_and!; [done..|].
    rewrite app_assoc. apply Forall_app. split; [done | apply Hother; lia].
Qed.

(** [C32] Each account lies in one shard: of the shards of a workchain that are the leaves of a
    tree, given from left to right, exactly one contains the address, whatever its format,
    and none contains an address of another workchain.  A standard address lies in a shard
    exactly if its hash does. *)
Theorem shards_share_accounts (t : stree) (wc : Z) (a : IntAddr) :
  int_ok a -> height t <= 60 ->
  let shards := (leaves wc [] t).*1 in
  (IntAddr.workchain a = wc -> exists before shard after, shards = before ++ shard :: after /\ ShardIdent.contains_address shard a = true /\
    Forall (fun shard => ShardIdent.contains_address shard a = false) (before ++ after)) /\
  (IntAddr.workchain a <> wc -> Forall (fun shard => ShardIdent.contains_address shard a = false) shards) /\
  (forall x, a = IntStd x -> std_workchain x = wc ->
    Forall (fun shard => ShardIdent.contains_address shard a = ShardIdent.contains_account shard (std_address x)) shards).
Proof.
  intros Ha Hh shards. split_and!.
  - intros <-. destruct (leaves_share t (IntAddr.workchain a) [] (account_path a)) as (before & p & d & after & E & Hp & Hz & HF);
      [by exists (account_path a) | done | unfold account_path; by rewrite zlen_uint_bits |].
    exists before.*1, (of_path (IntAddr.workchain a) p), after.*1. subst shards. rewrite E, fmap_app. split; [done|]. split; [by apply contains_path|].
    rewrite <- fmap_app. apply Forall_fmap. eapply list.Forall_impl; [exact HF|]. intros e (r & Er & Hr & Hn). unfold compose. rewrite Er.
    apply not_true_iff_false. rewrite contains_path by done. by intros [].
  - intros Hw. apply Forall_fmap, list.Forall_forall. intros e He. destruct (leaves_below t wc [] e He) as (y & Ey & Hy). unfold compose. rewrite Ey.
    apply not_true_iff_false. rewrite contains_path by (cbn [app]; lia). intros [E _]. congruence.
  - intros x -> Hw. apply Forall_fmap, list.Forall_forall. intros e He. destruct (leaves_below t wc [] e He) as (y & Ey & Hy). unfold compose. rewrite Ey.
    cbn [app]. assert (zlen y <= 60) as Hy60 by lia. destruct Ha as [Ha1 Ha2 Ha3]. pose proof Ha3 as [Hb Hz].
    apply eq_true_iff_eq. rewrite contains_path, std_path by (done || by split). unfold ShardIdent.contains_account.
    rewrite path_contains by (done || (by apply Forall_take) || (unfold zlen in *; rewrite length_take; lia)).
    cbn [IntAddr.workchain]. rewrite Hw, <- (bits_from_take8 (std_address x)) by lia. naive_solver.
Qed.

(** [C31] An address of any format is built into a cell of its own and parsed back, and the
    length the code computes for it is the number of its bits; for an external address it
    lacks the two bits of the tag.  An internal address is stored the same way by its own
    type, and an external one by the functions for optional ones.  A standard address without
    a prefix to rewrite is also read back from the key of a dictionary, by shifts of wide
    words; with such a prefix it is refused as a key. *)
Theorem addresses_roundtrip ctx {laws : ContextLaws ctx} (a : AnyAddr) :
  any_ok a ->
  exists c, build_from_ext a ctx = Ok c /\ parse c = Ok a /\
    bit_len c = AnyAddr.bit_len a + match a with AnyExt _ => 2 | _ => 0 end /\
    (forall i, a = AnyAddr.of_int i -> build_from_ext i ctx = Ok c /\ parse c = Ok i /\ IntAddr.bit_len i = bit_len c) /\
    (forall e, a = AnyAddr.of_opt_ext e -> (let! b := store_ext_addr builder_new ctx e in build_ext ctx b) = Ok c /\
      (let! (e, _) := load_ext_addr (new_allow_exotic c) in Ok e) = Ok e /\ compute_ext_addr_bit_len e = bit_len c) /\
    (forall x, a = AnyStd x ->
      (let! d := store_into_data x data_new in Ok (load_from_data (K := StdAddr) d)) =
        if is_some (std_anycast x) then Err InvalidData else Ok (Some x)).
Proof.
  intros Ha. destruct (zlen_any a Ha) as [Hz Hle].
  destruct (finish_bits ctx _ _ (appends_value ctx (a : AnyAddr) (Ha : enc_ok (Codec := Codec_AnyAddr) a))) as (c & Ec & Ho); [unfold MAX_BIT_LEN; cbn [enc Codec_AnyAddr fst]; lia|].
  cbn [enc Codec_AnyAddr fst] in Ho. assert (bit_len c = zlen (any_bits a)) as Hc.
  { pose proof (cw_len _ (oc_wf _ _ _ Ho)) as Hlen. rewrite <- (oc_bits _ _ _ Ho), zlen_bits_from by lia. done. }
  exists c. split; [exact Ec|]. split; [exact (parse_ordinary a (any_bits a, []) c (reads_value (T := AnyAddr) a Ha) Ho)|]. split; [lia|]. split_and!.
  - intros i Ei. assert (int_ok i /\ any_bits a = int_bits i) as [Hi Eb] by (by destruct i; subst a).
    destruct (zlen_int i Hi) as [Ez _]. rewrite Hc, Eb. split_and!; [by destruct i; subst a | | lia].
    apply (parse_ordinary i (int_bits i, [])); [by apply reads_int | by rewrite <- Eb].
  - intros e Ee. assert (opt_ok ext_ok e /\ any_bits a = ext_bits e) as [He Eb] by (by destruct e; subst a).
    destruct (zlen_ext e He) as [Ez _]. rewrite Hc, Eb. split_and!; [by destruct e; subst a | | lia].
    destruct (ordinary_slice _ _ _ Ho) as (Es & W & B & _ & R).
    destruct (reads_ext_addr e He (new_allow_exotic c) [] []) as (s' & -> & _); [done | by rewrite app_nil_r, B | by rewrite R | done].
  - intros x ->. destruct (is_some (std_anycast x)) eqn:Ex; [unfold store_into_data, StoreDictKey_StdAddr; by rewrite Ex|].
    destruct Ha as [_ Hw Hh]. assert (std_key_ok x) as Hk by (split; [by destruct (std_anycast x) | done..]).
    destruct (store_key_new x (Hk : key_ok (KeyLaws := KeyLaws_StdAddr) x)) as [-> _]. cbn [rbind]. by rewrite load_key_law.
Qed.

(** ** Concrete inputs *)

Definition sample_var : VarAddr := mkVar (Some (mkAnycast (mkDepth 3) [0xa0])) (mkBounded 16 9 10) (-5) [0xff; 0xc0].
Definition sample_std : StdAddr := StdAddr.new 0 (0xc0 :: replicate 31 0).

Lemma raw_ok_dec l n : bool_decide (zlen l = div_ceil n 8 /\ l = pack (div_ceil n 8) (bits_from l 0 n)) = true -> raw_ok l n.
Proof. by intros ?%bool_decide_eq_true. Qed.

Lemma sample_var_ok : any_ok (AnyVar sample_var).
Proof. split; [split; [cbn; lia | by apply raw_ok_dec] | cbn; lia | cbn; lia | by apply raw_ok_dec]. Qed.

Lemma sample_std_ok : int_ok (IntStd sample_std).
Proof. split; [done | cbn; lia | split; [repeat constructor; unfold is_byte; lia | done]]. Qed.

Lemma addresses_roundtrip_witness :
  exists c, build_from_ext (AnyVar sample_var) sample_ctx = Ok c /\ parse c = Ok (AnyVar sample_var) /\ bit_len c = 62.
Proof.
  destruct (addresses_roundtrip sample_ctx (AnyVar sample_var) sample_var_ok) as (c & E & P & B & _). exists c. split; [exact E|]. split; [exact P | exact B].
Defined.

Lemma shards_share_accounts_witness :
  exists before shard after, (leaves 0 [] sample_tree).*1 = before ++ shard :: after /\
    ShardIdent.contains_address shard (IntStd sample_std) = true.
Proof.
  destruct (shards_share_accounts sample_tree 0 (IntStd sample_std) sample_std_ok) as (H & _ & _); [done|].
  destruct (H eq_refl) as (before & shard & after & E & Hc & _). exists before, shard, after. split; [exact E | exact Hc].
Defined.
