(* ===== verification/BocSer.v ===== *)
(** * BocSer: the encoder of bags of cells ([src/src/boc/ser.rs])

    The state of the encoder is its record; [add_root] returns the new one.  The map
    from hashes to reverse indices is a finite map, the reverse list of cells has the
    cells in the order they are pushed.  The two ways to collect the cells, by
    recursion and with a stack of child iterators, get the height of the tree and the
    number of steps as fuel.  CRC32-C is a third-party function and a parameter; the
    buffer the encoder appends to is its argument and result. *)

From stdpp Require Import gmap.
From S2P Require Import Prelude Bits CellMeta Cell.

(** ** [enum BocTag] of [src/src/boc/mod.rs] *)
Inductive BocTag : Type := Indexed | IndexedCrc32 | Generic.

Module BocTags.
Definition INDEXED : list Z := [0x68; 0xff; 0x65; 0xf3].
Definition INDEXED_CRC32 : list Z := [0xac; 0xc3; 0xa7; 0x28].
Definition GENERIC : list Z := [0xb5; 0xee; 0x9c; 0x72].

Definition from_bytes (data : list Z) : option BocTag :=
  if bool_decide (data = GENERIC) then Some Generic
  else if bool_decide (data = INDEXED_CRC32) then Some IndexedCrc32
  else if bool_decide (data = INDEXED) then Some Indexed
  else None.

Definition to_bytes (tag : BocTag) : list Z :=
  match tag with Indexed => INDEXED | IndexedCrc32 => INDEXED_CRC32 | Generic => GENERIC end.
End BocTags.

(** The height of a tree of cells: the depth of the recursion over it. *)
Fixpoint height (c : Cell) : nat :=
  match c with
  | OrdinaryCell _ _ _ refs _ | IntermediateFullCell _ _ refs =>
      S ((fix heights (l : list Cell) : nat :=
            match l with [] => O | c :: l => Nat.max (height c) (heights l) end) refs)
  | VirtualCell c | VirtualCellWrapper _ c => height c
  | _ => O
  end.

(** ** [BocHeader] *)
Record SerHeader := mkSerHeader {
  root_rev_indices : list Z;
  rev_indices : gmap (list Z) Z;
  rev_cells : list Cell;
  total_data_size : Z;
  reference_total : Z;
  cell_count : Z;
  without_hashes : bool;
  include_crc : bool;
}.

Definition ser_default : SerHeader := mkSerHeader [] ∅ [] 0 0 0 false false.

Definition with_crc (h : SerHeader) (crc : bool) : SerHeader :=
  mkSerHeader (root_rev_indices h) (rev_indices h) (rev_cells h) (total_data_size h)
    (reference_total h) (cell_count h) (without_hashes h) crc.

Definition set_without_hashes (h : SerHeader) (without : bool) : SerHeader :=
  mkSerHeader (root_rev_indices h) (rev_indices h) (rev_cells h) (total_data_size h)
    (reference_total h) (cell_count h) without (include_crc h).

(** [BocHeader::clear] *)
Definition clear (h : SerHeader) : SerHeader :=
  mkSerHeader [] ∅ [] 0 0 0 (without_hashes h) (include_crc h).

(** [CellDescriptor::byte_len_full] *)
Definition byte_len_full (d : CellDescriptor) (without : bool) : Z :=
  let byte_len := Descr.byte_len d in
  if negb without && Descr.store_hashes d
  then u64 (byte_len + (LevelMask.level (Descr.level_mask d) + 1) * (32 + 2)) else byte_len.

Definition known (h : SerHeader) (c : Cell) : bool :=
  match rev_indices h !! repr_hash c with Some _ => true | None => false end.

(** The statements that follow the children in both [fill_recursive] and [fill_deep]. *)
Definition push_cell (h : SerHeader) (c : Cell) : SerHeader :=
  let d := descriptor c in
  mkSerHeader (root_rev_indices h) (<[repr_hash c := cell_count h]> (rev_indices h))
    (rev_cells h ++ [c]) (u64 (total_data_size h + byte_len_full d (without_hashes h)))
    (u64 (reference_total h + Descr.reference_count d)) (u32 (cell_count h + 1))
    (without_hashes h) (include_crc h).

Fixpoint fill_recursive (fuel : nat) (h : SerHeader) (c : Cell) : SerHeader :=
  match fuel with
  | O => h
  | S fuel =>
      let h := foldl (fun h child => if known h child then h else fill_recursive fuel h child) h (references c) in
      push_cell h c
  end.

(** A frame of [fill_deep]: a [RefsIter], that is a cell and its children left. *)
Definition frame : Type := Cell * list Cell.

Fixpoint fill_deep_loop (fuel : nat) (h : SerHeader) (stack : list frame) : SerHeader :=
  match fuel with
  | O => h
  | S fuel =>
      match stack with
      | [] => h
      | (c, child :: children) :: stack =>
          let stack := (c, children) :: stack in
          fill_deep_loop fuel h (if known h child then stack else (child, references child) :: stack)
      | (c, []) :: stack => fill_deep_loop fuel (push_cell h c) stack
      end
  end.

(** Steps of the loop over one tree at most: one per cell and one per reference of its
    expansion. *)
Fixpoint steps (fuel : nat) (c : Cell) : nat :=
  match fuel with
  | O => O
  | S fuel => S (foldr (fun child n => S (steps fuel child + n)%nat) O (references c))
  end.

Definition fill_deep (h : SerHeader) (root : Cell) : SerHeader :=
  fill_deep_loop (S (steps (S (height root)) root)) h [(root, references root)].

Definition SAFE_DEPTH : Z := 128.

(** [BocHeader::fill]: the index of the root and the new state *)
Definition fill (h : SerHeader) (root : Cell) : Z * SerHeader :=
  match rev_indices h !! repr_hash root with
  | Some index => (index, h)
  | None =>
      let h := if repr_depth root <=? SAFE_DEPTH then fill_recursive (S (height root)) h root
               else fill_deep h root in
      (u32 (cell_count h - 1), h)
  end.

Definition add_root (h : SerHeader) (root : Cell) : SerHeader :=
  let '(index, h) := fill h root in
  mkSerHeader (root_rev_indices h ++ [index]) (rev_indices h) (rev_cells h) (total_data_size h)
    (reference_total h) (cell_count h) (without_hashes h) (include_crc h).

(** [BocHeader::with_root] *)
Definition with_root (root : Cell) : SerHeader := add_root ser_default root.

(** ** Encoding *)

Record BocHeaderStats := mkStats {
  offset_size : Z;
  ref_size : Z;
  total_cells_size : Z;
  total_size : Z;
}.

Definition number_of_bytes_to_fit (l : Z) : Z := 8 - leading_zeros 64 l / 8.

Definition compute_stats (h : SerHeader) : BocHeaderStats :=
  let root_count := zlen (root_rev_indices h) in
  let ref_size := number_of_bytes_to_fit (cell_count h) in
  let total_cells_size := u64 (total_data_size h + cell_count h * 2 + ref_size * reference_total h) in
  let offset_size := number_of_bytes_to_fit total_cells_size in
  let total_size := u64 (4 + 2 + ref_size * (3 + root_count) + offset_size + total_cells_size
                         + b2z (include_crc h) * 4) in
  mkStats offset_size ref_size total_cells_size total_size.

(** [v.to_be_bytes()[w - size..]] of a [w]-byte integer *)
Definition be_suffix (w size v : Z) : list Z := drop (Z.to_nat (w - size)) (to_be_bytes w v).

(** [encode_header]: the bytes it appends *)
Definition encode_header (h : SerHeader) : list Z :=
  let stats := compute_stats h in
  let root_count := zlen (root_rev_indices h) in
  let flags := Z.lor (u8 (ref_size stats)) (b2z (include_crc h) * 0x40) in
  BocTags.GENERIC ++ [flags; u8 (offset_size stats)] ++
  be_suffix 4 (ref_size stats) (cell_count h) ++
  be_suffix 4 (ref_size stats) (u32 root_count) ++
  drop (Z.to_nat (4 - ref_size stats)) [0; 0; 0; 0] ++
  be_suffix 8 (offset_size stats) (total_cells_size stats) ++
  flat_map (fun rev_index => be_suffix 4 (ref_size stats) (u32 (cell_count h - rev_index - 1)))
    (root_rev_indices h).

(** The body of the loop of [encode_cells_chunk]: the bytes of one cell. *)
Definition encode_cell (h : SerHeader) (ref_size : Z) (c : Cell) : list Z :=
  let descriptor_mask := unot 8 (b2z (without_hashes h) * Descr.STORE_HASHES_MASK) in
  let d := Descr.new (Z.land (d1 (descriptor c)) descriptor_mask) (d2 (descriptor c)) in
  [d1 d; d2 d] ++
  (if Descr.store_hashes d then
     let levels := LevelMask.collect 9 (LevelMask.into_iter (Descr.level_mask d)) in
     flat_map (fun level => hash c level) levels ++
     flat_map (fun level => to_be_bytes 2 (depth c level)) levels
   else []) ++
  data c ++
  flat_map (fun child =>
      match rev_indices h !! repr_hash child with
      | Some rev_index => be_suffix 4 ref_size (u32 (cell_count h - rev_index - 1))
      | None => []
      end) (references c).

Definition encode_cells_chunk (h : SerHeader) (chunk : list Cell) (ref_size : Z) : list Z :=
  flat_map (encode_cell h ref_size) (reverse chunk).

Section Crc.
Variable crc32c : list Z -> Z.

(** [to_le_bytes] of a [u32] *)
Definition to_le_bytes4 (v : Z) : list Z := reverse (to_be_bytes 4 v).

Definition encode_crc (h : SerHeader) (target_len_before : Z) (target : list Z) : list Z :=
  if include_crc h
  then target ++ to_le_bytes4 (crc32c (drop (Z.to_nat target_len_before) target)) else target.

(** [BocHeader::encode]: the buffer with the bag behind its content *)
Definition encode (h : SerHeader) (target : list Z) : list Z :=
  let target_len_before := zlen target in
  let target := target ++ encode_header h in
  let target := target ++ encode_cells_chunk h (rev_cells h) (ref_size (compute_stats h)) in
  encode_crc h target_len_before target.

(** [<[T]>::rchunks(size)]: the chunks from the end; at most one per element. *)
Fixpoint rchunks_from {A} (fuel : nat) (size : nat) (l : list A) : list (list A) :=
  match fuel, l with
  | O, _ | _, [] => []
  | S fuel, _ => let rest := (length l - size)%nat in drop rest l :: rchunks_from fuel size (take rest l)
  end.
Definition rchunks {A} (size : nat) (l : list A) : list (list A) := rchunks_from (length l) size l.

(** [encode_to_writer]: the writer is a state with [write_all], the checksum is
    continued chunk by chunk.  The state of the writer and the error, if any. *)
Definition WRITER_CELLS_CHUNK_SIZE : nat := 1000.

Section Writer.
Context {W E : Type} (write_all : W -> list Z -> W * option E) (crc32c_append : Z -> list Z -> Z).

(** [reset_chunk]: the checksum goes on over the chunk, which is cleared. *)
Definition reset_chunk (crc : option Z) (chunk : list Z) : option Z :=
  (fun crc => crc32c_append crc chunk) <$> crc.

Fixpoint write_cells (h : SerHeader) (ref_size : Z) (chunks : list (list Cell)) (writer : W) (crc : option Z)
    : W * option E * option Z :=
  match chunks with
  | [] => (writer, None, crc)
  | cells :: chunks =>
      let chunk := encode_cells_chunk h cells ref_size in
      match write_all writer chunk with
      | (writer, None) => write_cells h ref_size chunks writer (reset_chunk crc chunk)
      | (writer, Some e) => (writer, Some e, crc)
      end
  end.

Definition encode_to_writer (h : SerHeader) (writer : W) : W * option E :=
  let crc := if include_crc h then Some 0 else None in
  let chunk := encode_header h in
  match write_all writer chunk with
  | (writer, Some e) => (writer, Some e)
  | (writer, None) =>
      let crc := reset_chunk crc chunk in
      match write_cells h (ref_size (compute_stats h)) (rchunks WRITER_CELLS_CHUNK_SIZE (rev_cells h)) writer crc with
      | (writer, Some e, _) => (writer, Some e)
      | (writer, None, Some crc) => write_all writer (to_le_bytes4 crc)
      | (writer, None, None) => (writer, None)
      end
  end.
End Writer.

(** [encode_rayon]: [collect_into_vec] keeps the order of the chunks. *)
Definition RAYON_CELLS_CHUNK_SIZE : nat := 5000.
Definition encode_rayon (h : SerHeader) (target : list Z) : list Z :=
  let target_len_before := zlen target in
  let target := target ++ encode_header h in
  let rs := ref_size (compute_stats h) in
  let target :=
    if (length (rev_cells h) <? RAYON_CELLS_CHUNK_SIZE * 2)%nat
    then target ++ encode_cells_chunk h (rev_cells h) rs
    else
      let chunks := (fun chunk => encode_cells_chunk h chunk rs) <$> rchunks RAYON_CELLS_CHUNK_SIZE (rev_cells h) in
      foldl (fun target chunk => target ++ chunk) target chunks in
  encode_crc h target_len_before target.

(** ** The preallocated cache *)
Record BocHeaderCache := mkCache { cache_indices : gmap (list Z) Z; cache_cells : list Cell }.
Definition cache_default : BocHeaderCache := mkCache ∅ [].

(** The code requires an empty cache: its two fields become those of the header. *)
Definition with_root_and_cache (root : Cell) (cache : BocHeaderCache) : SerHeader :=
  add_root (mkSerHeader [] (cache_indices cache) (cache_cells cache) 0 0 0 false false) root.

Definition into_cache (h : SerHeader) : BocHeaderCache :=
  let h := mkSerHeader (root_rev_indices h) ∅ [] (total_data_size h) (reference_total h) (cell_count h)
    (without_hashes h) (include_crc h) in
  mkCache (rev_indices h) (rev_cells h).

(** [Boc::encode] and [Boc::encode_pair] *)
Definition boc_encode (c : Cell) : list Z := encode (with_root c) [].
Definition boc_encode_pair (c1 c2 : Cell) : list Z := encode (add_root (with_root c1) c2) [].
Definition boc_encode_rayon (c : Cell) : list Z := encode_rayon (with_root c) [].

(** [Boc::encode_with_cache]: the bytes and the cache left *)
Definition boc_encode_with_cache (c : Cell) (cache : BocHeaderCache) : list Z * BocHeaderCache :=
  let header := with_root_and_cache c cache in
  (encode header [], into_cache header).
End Crc.
