(* ===== verification/Merkle.v ===== *)
(** * Merkle: pruned branches and Merkle proofs ([src/src/merkle])

    [make_pruned_branch] of [pruned_branch.rs], the filters of [mod.rs], and of
    [proof.rs] the builder of proofs, a loop over a stack of nodes, and the storage of
    [MerkleProof].  The sets and maps of hashes are finite sets and maps; the result of
    [build_loop] has their final state beside the cell.  The parallel builder is left
    out.  The loops get the number of cells and references of the tree's expansion as
    fuel. *)

From stdpp Require Import gmap.
From S2P Require Import Prelude Bits DataBuilder CellMeta Cell RefsIter Slice Builder BocSer.

(** ** [FilterAction] and [MerkleFilter] of [mod.rs] *)
Inductive FilterAction : Type := Skip | Include | IncludeSubtree.

Definition MerkleFilter : Type := HashBytes -> FilterAction.

(** [impl MerkleFilter for HashSet] *)
Definition set_filter (s : gset (list Z)) : MerkleFilter := fun h => if decide (h ∈ s) then Include else Skip.

Definition is_skip (a : FilterAction) : bool := match a with Skip => true | _ => false end.

(** [_ = b.store_..(..)]: a store that fails leaves the builder as it is. *)
Definition attempt (f : CellBuilder -> result CellBuilder) (b : CellBuilder) : CellBuilder :=
  match f b with Ok b => b | Err _ => b end.

(** ** [make_pruned_branch] of [pruned_branch.rs] *)
Definition make_pruned_branch (ctx : CellContext) (c : Cell) (merkle_depth : Z) : result Cell :=
  let cell_level_mask := level_mask c in
  let new_level := u8 (Z.shiftl 1 merkle_depth) in
  let mask := LevelMask.new (Z.lor (LevelMask.to_byte cell_level_mask) new_level) in
  let b := set_exotic builder_new true in
  let b := attempt (on_data (fun d => store_u16 d
    (from_be_bytes [CellTypes.to_byte PrunedBranch; LevelMask.to_byte mask]))) b in
  let cell_level_mask := LevelMask.new (Z.land (LevelMask.to_byte cell_level_mask) (u8 (new_level - 1))) in
  let levels := LevelMask.collect 9 (LevelMask.into_iter cell_level_mask) in
  let b := foldl (fun b level => attempt (on_data (fun d => store_u256 d (hash c level))) b) b levels in
  let b := foldl (fun b level => attempt (on_data (fun d => store_u16 d (depth c level))) b) b levels in
  build_ext ctx b.

(** ** [MerkleProof] *)
Record MerkleProof := mkProof { proof_hash : HashBytes; proof_depth : Z; proof_cell : Cell }.

Definition proof_default : MerkleProof := mkProof EMPTY_CELL_HASH 0 EmptyOrdinaryCell.

Definition PROOF_BITS : Z := 8 + 256 + 16.
Definition PROOF_REFS : Z := 1.

(** [PartialEq]: cells are compared by their representation hashes. *)
Definition proof_eqb (p q : MerkleProof) : bool :=
  bool_decide (proof_hash p = proof_hash q) && (proof_depth p =? proof_depth q) && cell_eqb (proof_cell p) (proof_cell q).

(** [Store for MerkleProof] *)
Definition proof_store_into (p : MerkleProof) (b : CellBuilder) : result CellBuilder :=
  if negb (has_capacity b PROOF_BITS PROOF_REFS) then Err CellOverflow
  else
    let b := set_exotic b true in
    let! b := on_data (fun d => store_u8 d (CellTypes.to_byte CellMeta.MerkleProof)) b in
    let! b := on_data (fun d => store_u256 d (proof_hash p)) b in
    let! b := on_data (fun d => store_u16 d (proof_depth p)) b in
    store_reference b (proof_cell p).

(** [LoadCell] for [MerkleProofRef] and [MerkleProof], which load a reference and an
    owned reference. *)
Definition proof_load_with (load_ref : CellSlice -> result (Cell * CellSlice)) (c : Cell) : result MerkleProof :=
  if negb (is_exotic c) then Err UnexpectedOrdinaryCell
  else
    let s := new_allow_exotic c in
    if negb (size_bits s =? PROOF_BITS) || negb (size_refs s =? PROOF_REFS) then Err CellUnderflow
    else
      let! (ty, s) := load_u8 s in
      if negb (ty =? CellTypes.to_byte CellMeta.MerkleProof) then Err InvalidCell
      else
        let! (h, s) := load_u256 s in
        let! (d, s) := load_u16 s in
        let! (child, s) := load_ref s in
        if bool_decide (hash child 0 = h) && (depth child 0 =? d) then Ok (mkProof h d child) else Err InvalidCell.
Definition proof_ref_load_from_cell : Cell -> result MerkleProof := proof_load_with load_reference.
Definition proof_load_from_cell : Cell -> result MerkleProof := proof_load_with load_reference_cloned.

(** ** The proof builder *)

Definition PRUNED_BITS_THRESHOLD : Z := 288.

Definition is_merkle (c : Cell) : Z := b2z (Descr.is_merkle (descriptor c)).

(** [Node]: the iterator has the cell. *)
Record Node := mkNode {
  nd_references : RefsIter;
  nd_descriptor : CellDescriptor;
  nd_merkle_depth : Z;
  nd_children : CellRefsBuilder;
}.

(** The maps the builder keeps: the processed cells and, if tracked, what it pruned. *)
Record ProofState := mkState { st_cells : gmap (list Z) Cell; st_pruned : option (gset (list Z)) }.

Definition add_cell (st : ProofState) (h : HashBytes) (c : Cell) : ProofState :=
  mkState (<[h := c]> (st_cells st)) (st_pruned st).
Definition add_pruned (st : ProofState) (h : HashBytes) : ProofState :=
  mkState (st_cells st) ((fun s => {[h]} ∪ s) <$> st_pruned st).

(** [_ = last.children.store_reference(child)] *)
Definition add_child (nd : Node) (child : Cell) : Node :=
  mkNode (nd_references nd) (nd_descriptor nd) (nd_merkle_depth nd)
    (match refs_store_reference (nd_children nd) child with Ok r => r | Err _ => nd_children nd end).

Definition new_node (c : Cell) (merkle_depth : Z) : Node := mkNode (refs_iter c) (descriptor c) merkle_depth [].

Section Build.
Context (ctx : CellContext) (filter : MerkleFilter) (prune_big_cells : bool).

(** The cell built of a node whose children are done. *)
Definition build_node (nd : Node) : result Cell :=
  let cell := it_cell (nd_references nd) in
  let b := set_exotic builder_new (Descr.is_exotic (nd_descriptor nd)) in
  let b := attempt (on_data (fun d => store_cell_data d cell)) b in
  build_ext ctx (set_references b (nd_children nd)).

Definition prunable (child : Cell) : bool :=
  (0 <? Descr.reference_count (descriptor child)) || prune_big_cells && (PRUNED_BITS_THRESHOLD <? bit_len child).

(** The [while] loop of [BuilderImpl::build]; [expect] cannot fail ([prev_at]). *)
Fixpoint build_loop (fuel : nat) (st : ProofState) (stack : list Node) : result (Cell * ProofState) :=
  match fuel with
  | O => Err EmptyProof
  | S fuel =>
    match stack with
    | [] => Err EmptyProof
    | last :: stack =>
      match iter_next (nd_references last) with
      | (Some child, references) =>
          let last := mkNode references (nd_descriptor last) (nd_merkle_depth last) (nd_children last) in
          let child_repr_hash := repr_hash child in
          match st_cells st !! child_repr_hash with
          | Some child => build_loop fuel st (add_child last child :: stack)
          | None =>
              let descriptor := descriptor child in
              let visit :=
                let merkle_depth := u8 (nd_merkle_depth last + b2z (Descr.is_merkle descriptor)) in
                build_loop fuel st (new_node child merkle_depth :: last :: stack) in
              match filter child_repr_hash with
              | IncludeSubtree =>
                  match peek_prev_cloned (nd_references last) with
                  | Some child => build_loop fuel st (add_child last child :: stack)
                  | None => Err EmptyProof
                  end
              | Skip =>
                  if prunable child then
                    let! child := make_pruned_branch ctx child (nd_merkle_depth last) in
                    build_loop fuel (add_pruned st child_repr_hash) (add_child last child :: stack)
                  else visit
              | Include => visit
              end
          end
      | (None, references) =>
          let cell := it_cell references in
          let! proof_cell := build_node last in
          let st := add_cell st (repr_hash cell) proof_cell in
          match stack with
          | last :: stack => build_loop fuel st (add_child last proof_cell :: stack)
          | [] => Ok (proof_cell, st)
          end
      end
    end
  end.

(** [BuilderImpl::build] *)
Definition build_impl (root : Cell) (allow_different_root : bool) (st : ProofState) : result (Cell * ProofState) :=
  if negb allow_different_root && is_skip (filter (repr_hash root)) then Err EmptyProof
  else build_loop (S (steps (S (height root)) root)) st [new_node root (is_merkle root)].
End Build.

(** [MerkleProofBuilder] and [MerkleProofExtBuilder] *)
Record MerkleProofBuilder := mkProofBuilder {
  pb_root : Cell;
  pb_filter : MerkleFilter;
  pb_allow_different_root : bool;
  pb_prune_big_cells : bool;
}.

Definition proof_create (root : Cell) (f : MerkleFilter) : MerkleProofBuilder := mkProofBuilder root f false false.
Definition allow_different_root (b : MerkleProofBuilder) (allow : bool) : MerkleProofBuilder :=
  mkProofBuilder (pb_root b) (pb_filter b) allow (pb_prune_big_cells b).
Definition prune_big_cells (b : MerkleProofBuilder) (allow : bool) : MerkleProofBuilder :=
  mkProofBuilder (pb_root b) (pb_filter b) (pb_allow_different_root b) allow.

Definition build_raw_ext (ctx : CellContext) (b : MerkleProofBuilder) : result Cell :=
  let! (c, _) := build_impl ctx (pb_filter b) (pb_prune_big_cells b) (pb_root b) (pb_allow_different_root b) (mkState ∅ None) in
  Ok c.

(** [MerkleProofExtBuilder::build_raw_ext]: the cell, the pruned branches and the
    processed cells that [inspect_new_cells] gets. *)
Definition ext_build_raw_ext (ctx : CellContext) (b : MerkleProofBuilder)
    : result (Cell * gset (list Z) * gmap (list Z) Cell) :=
  let! (c, st) := build_impl ctx (pb_filter b) (pb_prune_big_cells b) (pb_root b) (pb_allow_different_root b) (mkState ∅ (Some ∅)) in
  Ok (c, default ∅ (st_pruned st), st_cells st).

Definition proof_build_ext (ctx : CellContext) (b : MerkleProofBuilder) : result MerkleProof :=
  let! c := build_raw_ext ctx b in
  Ok (mkProof (repr_hash (pb_root b)) (repr_depth (pb_root b)) c).

(** ** [MerkleProof::create_for_cell] *)

(** The search for the first occurrence of the child: its ancestors. *)
Fixpoint find_path (fuel : nat) (child_hash : HashBytes) (stack : list RefsIter) : list RefsIter :=
  match fuel with
  | O => []
  | S fuel =>
    match stack with
    | [] => []
    | last_cells :: stack =>
      match iter_next last_cells with
      | (Some child, last_cells) =>
          if bool_decide (repr_hash child = child_hash) then last_cells :: stack
          else find_path fuel child_hash (refs_iter child :: last_cells :: stack)
      | (None, _) => find_path fuel child_hash stack
      end
    end
  end.

Definition root_or_child (cells : gset (list Z)) (child_hash : HashBytes) : MerkleFilter :=
  fun h => if bool_decide (h ∈ cells) || bool_decide (h = child_hash) then Include else Skip.

Definition create_for_cell (root : Cell) (child_hash : HashBytes) : MerkleProofBuilder :=
  let stack := find_path (S (steps (S (height root)) root)) child_hash [refs_iter root] in
  let cells := list_to_set ((fun it => repr_hash (it_cell it)) <$> stack) in
  proof_create root (root_or_child cells child_hash).
