(* ===== verification/MerkleUpdate.v ===== *)
(** * MerkleUpdate: Merkle updates ([src/src/merkle/update.rs])

    The storage of [MerkleUpdate], the builder of updates, the applier that rebuilds the
    new tree over subtrees of the old one, and the removed cells.  The four loops over a
    stack of child iterators with a Merkle depth are one function, [walk], with what
    each does at a child as its argument.  The parallel variants are left out. *)

From stdpp Require Import gmap.
From S2P Require Import Prelude Bits DataBuilder CellMeta Cell RefsIter Slice Builder BocSer Merkle.

(** ** [MerkleUpdate] *)
Record MerkleUpdate := mkUpdate {
  old_hash : HashBytes;
  new_hash : HashBytes;
  old_depth : Z;
  new_depth : Z;
  old : Cell;
  new : Cell;
}.

Definition update_default : MerkleUpdate :=
  mkUpdate EMPTY_CELL_HASH EMPTY_CELL_HASH 0 0 EmptyOrdinaryCell EmptyOrdinaryCell.

Definition UPDATE_BITS : Z := 8 + (256 + 16) * 2.
Definition UPDATE_REFS : Z := 2.

Definition update_eqb (u v : MerkleUpdate) : bool :=
  bool_decide (old_hash u = old_hash v) && bool_decide (new_hash u = new_hash v) && (old_depth u =? old_depth v) &&
  (new_depth u =? new_depth v) && cell_eqb (old u) (old v) && cell_eqb (new u) (new v).

(** [Store for MerkleUpdate] *)
Definition update_store_into (u : MerkleUpdate) (b : CellBuilder) : result CellBuilder :=
  if negb (has_capacity b UPDATE_BITS UPDATE_REFS) then Err CellOverflow
  else
    let b := set_exotic b true in
    let! b := on_data (fun d => store_u8 d (CellTypes.to_byte CellMeta.MerkleUpdate)) b in
    let! b := on_data (fun d => store_u256 d (old_hash u)) b in
    let! b := on_data (fun d => store_u256 d (new_hash u)) b in
    let! b := on_data (fun d => store_u32 d (Z.lor (u32 (Z.shiftl (old_depth u) 16)) (new_depth u))) b in
    let! b := store_reference b (old u) in
    store_reference b (new u).

(** [LoadCell for MerkleUpdate] *)
Definition update_load_from_cell (c : Cell) : result MerkleUpdate :=
  if negb (is_exotic c) then Err UnexpectedOrdinaryCell
  else
    let s := new_allow_exotic c in
    if negb (size_bits s =? UPDATE_BITS) || negb (size_refs s =? UPDATE_REFS) then Err CellUnderflow
    else
      let! (ty, s) := load_u8 s in
      if negb (ty =? CellTypes.to_byte CellMeta.MerkleUpdate) then Err InvalidCell
      else
        let! (oh, s) := load_u256 s in
        let! (nh, s) := load_u256 s in
        let! (od, s) := load_u16 s in
        let! (nd, s) := load_u16 s in
        let! (o, s) := load_reference_cloned s in
        let! (n, s) := load_reference_cloned s in
        if bool_decide (hash o 0 = oh) && (depth o 0 =? od) && bool_decide (hash n 0 = nh) && (depth n 0 =? nd)
        then Ok (mkUpdate oh nh od nd o n) else Err InvalidCell.

(** ** Walks over a tree *)

(** The body of [while let Some(iter) = stack.last_mut()]: one step per child taken
    from an iterator and per iterator that ends.  [enter] has the Merkle depth, the
    child and its iterator, and says whether to go on to the children of the child. *)
Section Walk.
Context {A : Type} (enter : A -> Z -> Cell -> RefsIter -> result (A * bool)).

Fixpoint walk (fuel : nat) (a : A) (merkle_depth : Z) (stack : list RefsIter) : result (A * Z) :=
  match fuel with
  | O => Err EmptyProof
  | S fuel =>
    match stack with
    | [] => Ok (a, merkle_depth)
    | iter :: stack =>
      match iter_next iter with
      | (Some child, iter) =>
          let! (a, descend) := enter a merkle_depth child iter in
          if descend : bool
          then walk fuel a (u8 (merkle_depth + is_merkle child)) (refs_iter child :: iter :: stack)
          else walk fuel a merkle_depth (iter :: stack)
      | (None, iter) => walk fuel a (u8 (merkle_depth - is_merkle (it_cell iter))) stack
      end
    end
  end.

(** The walk below a root. *)
Definition walk_tree (root : Cell) (a : A) (merkle_depth : Z) : result (A * Z) :=
  walk (S (steps (S (height root)) root)) a merkle_depth [refs_iter root].
End Walk.

(** [visited.insert(..)]: whether the hash is new, and the set. *)
Definition visit_hash (visited : gset (list Z)) (h : HashBytes) : bool * gset (list Z) :=
  (bool_decide (h ∉ visited), {[h]} ∪ visited).

Definition is_pruned_branch (c : Cell) : bool := Descr.is_pruned_branch (descriptor c).

(** ** [find_old_cells] *)

Definition enter_old (s : gset (list Z) * gset (list Z)) (merkle_depth : Z) (child : Cell) (_ : RefsIter)
    : result (gset (list Z) * gset (list Z) * bool) :=
  let (visited, old_cells) := s in
  let (fresh, visited) := visit_hash visited (repr_hash child) in
  if negb fresh then Ok ((visited, old_cells), false)
  else Ok ((visited, {[hash child merkle_depth]} ∪ old_cells), negb (is_pruned_branch child)).

Definition enter_new (old_cells : gset (list Z)) (visited : gset (list Z)) (merkle_depth : Z) (child : Cell) (_ : RefsIter)
    : result (gset (list Z) * bool) :=
  let (fresh, visited) := visit_hash visited (repr_hash child) in
  if negb fresh then Ok (visited, false)
  else if is_pruned_branch child then
    if (LevelMask.level (level_mask child) =? merkle_depth + 1) && negb (bool_decide (hash child merkle_depth ∈ old_cells))
    then Err InvalidData else Ok (visited, false)
  else Ok (visited, true).

Definition find_old_cells (u : MerkleUpdate) : result (gset (list Z)) :=
  let! (visited_and_old, merkle_depth) :=
    walk_tree enter_old (old u) ({[repr_hash (old u)]}, {[hash (old u) 0]}) (is_merkle (old u)) in
  let old_cells := visited_and_old.2 in
  let! _ := walk_tree (enter_new old_cells) (new u) {[repr_hash (new u)]} (u8 (merkle_depth + is_merkle (new u))) in
  Ok old_cells.

(** ** [MerkleUpdateApplier] *)

Section Applier.
Context (ctx : CellContext) (find_cell : HashBytes -> option Cell) (find_in_new_cells : bool).

(** The body of the loop over the child indices: [run] is the recursive call, the state
    is the builder and the rebuilt cells. *)
Definition apply_child (run : gmap (list Z) Cell -> Cell -> Z -> result (Cell * gmap (list Z) Cell))
    (c : Cell) (child_merkle_depth : Z) (acc : CellBuilder * gmap (list Z) Cell) (child_idx : Z)
    : result (CellBuilder * gmap (list Z) Cell) :=
  let (b, new_cells) := acc in
  match reference c child_idx with
  | None => Err CellUnderflow
  | Some child =>
      let! (child, new_cells) :=
        if is_pruned_branch child then
          let mask := level_mask child in
          if negb (Z.land (LevelMask.to_byte mask) (u8 (Z.shiftl 1 child_merkle_depth)) =? 0) then
            let child_hash := hash child (u8 (LevelMask.level mask - 1)) in
            match (if find_in_new_cells then new_cells !! child_hash else None) with
            | Some cell => Ok (cell, new_cells)
            | None =>
                match find_cell child_hash with
                | Some cell => Ok (cell, if find_in_new_cells then <[child_hash := cell]> new_cells else new_cells)
                | None => Err InvalidData
                end
            end
          else
            match reference_cloned c child_idx with
            | Some child => Ok (child, new_cells)
            | None => Err CellUnderflow
            end
        else
          let child_hash := hash child child_merkle_depth in
          match new_cells !! child_hash with
          | Some child => Ok (child, new_cells)
          | None =>
              let! (child, new_cells) := run new_cells child child_merkle_depth in
              Ok (child, <[child_hash := child]> new_cells)
          end in
      Ok (attempt (fun b => store_reference b child) b, new_cells)
  end.

(** [run]: the recursion goes down the tree. *)
Fixpoint run (fuel : nat) (new_cells : gmap (list Z) Cell) (c : Cell) (merkle_depth : Z)
    : result (Cell * gmap (list Z) Cell) :=
  match fuel with
  | O => Err CellUnderflow
  | S fuel =>
      let d := descriptor c in
      let child_merkle_depth := u8 (merkle_depth + b2z (CellTypes.is_merkle (Descr.cell_type d))) in
      let b := set_exotic builder_new (Descr.is_exotic d) in
      let! (b, new_cells) :=
        foldl (fun acc child_idx => let! acc := acc in apply_child (run fuel) c child_merkle_depth acc child_idx)
          (Ok (b, new_cells)) (seqZ 0 (Descr.reference_count d)) in
      let b := attempt (on_data (fun x => store_cell_data x c)) b in
      let! result := build_ext ctx b in
      Ok (result, new_cells)
  end.

Definition run_tree (c : Cell) : result (Cell * gmap (list Z) Cell) := run (S (height c)) ∅ c 0.
End Applier.

(** [MerkleApplyResult], with the number of new cells of [MerkleStats] *)
Record MerkleApplyResult := mkApplied { ar_cell : Cell; ar_new_cells_count : Z }.

(** The end both ways to apply share. *)
Definition apply_new (ctx : CellContext) (find_cell : HashBytes -> option Cell) (u : MerkleUpdate) : result MerkleApplyResult :=
  let! (cell, new_cells) := run_tree ctx find_cell false (new u) in
  if bool_decide (repr_hash cell = new_hash u) then Ok (mkApplied cell (Z.of_nat (size new_cells) + 1))
  else Err InvalidData.

(** [apply_ext_with_stats]: the old cells are collected from the old tree. *)
Definition enter_owned (old_cell_hashes : gset (list Z)) (s : gset (list Z) * gmap (list Z) Cell) (merkle_depth : Z)
    (child : Cell) (iter : RefsIter) : result (gset (list Z) * gmap (list Z) Cell * bool) :=
  let (visited, old_cells) := s in
  let (fresh, visited) := visit_hash visited (repr_hash child) in
  if negb fresh then Ok ((visited, old_cells), false)
  else
    let h := hash child merkle_depth in
    if negb (bool_decide (h ∈ old_cell_hashes)) then Ok ((visited, old_cells), false)
    else
      match peek_prev_cloned iter with
      | Some owned => Ok ((visited, <[h := owned]> old_cells), true)
      | None => Err CellUnderflow
      end.

Definition apply_ext_with_stats (ctx : CellContext) (u : MerkleUpdate) (old_cell : Cell) : result MerkleApplyResult :=
  if negb (bool_decide (repr_hash old_cell = old_hash u)) then Err InvalidData
  else if bool_decide (old_hash u = new_hash u) then Ok (mkApplied old_cell 0)
  else
    let! old_cell_hashes := find_old_cells u in
    let! (visited_and_cells, _) :=
      walk_tree (enter_owned old_cell_hashes) old_cell ({[repr_hash old_cell]}, {[hash old_cell 0 := old_cell]}) (is_merkle old_cell) in
    let old_cells := visited_and_cells.2 in
    apply_new ctx (fun h => old_cells !! h) u.

(** [apply_trusted_ext_with_stats] *)
Definition apply_trusted_ext_with_stats (ctx : CellContext) (u : MerkleUpdate) (find_cell : HashBytes -> option Cell)
    : result MerkleApplyResult :=
  if bool_decide (old_hash u = new_hash u) then
    match find_cell (old_hash u) with Some cell => Ok (mkApplied cell 0) | None => Err InvalidData end
  else apply_new ctx find_cell u.

(** ** [compute_removed_cells] *)

Definition enter_used (s : gset (list Z) * gset (list Z)) (merkle_depth : Z) (child : Cell) (_ : RefsIter)
    : result (gset (list Z) * gset (list Z) * bool) :=
  let (visited, new_cells) := s in
  let (fresh, visited) := visit_hash visited (repr_hash child) in
  if negb fresh then Ok ((visited, new_cells), false)
  else Ok ((visited, {[hash child merkle_depth]} ∪ new_cells), negb (is_pruned_branch child)).

(** The second loop has no Merkle depth. *)
Definition enter_removed (new_cells : gset (list Z)) (result : gmap (list Z) Z) (_ : Z) (child : Cell) (_ : RefsIter)
    : Prelude.result (gmap (list Z) Z * bool) :=
  let h := repr_hash child in
  match result !! h with
  | Some count => Ok (<[h := u32 (count + 1)]> result, false)
  | None => Ok (<[h := 1]> result, negb ((reference_count child =? 0) || bool_decide (h ∈ new_cells)))
  end.

Definition compute_removed_cells (u : MerkleUpdate) (old_cell : Cell) : result (gmap (list Z) Z) :=
  if negb (bool_decide (repr_hash old_cell = old_hash u)) || negb (bool_decide (hash (old u) 0 = repr_hash old_cell)) then Err InvalidData
  else if bool_decide (old_hash u = new_hash u) then Ok ∅
  else
    let! (visited_and_new, _) :=
      walk_tree enter_used (new u) ({[repr_hash (new u)]}, {[hash (new u) 0]}) (is_merkle (new u)) in
    let new_cells := visited_and_new.2 in
    let removed := {[repr_hash old_cell := 1]} in
    if bool_decide (repr_hash old_cell ∈ new_cells) then Ok removed
    else let! (removed, _) := walk_tree (enter_removed new_cells) old_cell removed 0 in Ok removed.

(** ** The builder of updates *)

(** [Resolver]: which cells of the old tree lead to a pruned branch of the new one. *)
Record Resolver := mkResolver { rs_visited : gmap (list Z) bool; rs_changed : gset (list Z) }.

Section Resolve.
Context (pruned_branches : gset (list Z)) (filter : MerkleFilter).

Fixpoint fill (fuel : nat) (rs : Resolver) (c : Cell) (skip_filter : bool) : bool * Resolver :=
  match fuel with
  | O => (false, rs)
  | S fuel =>
      let h := repr_hash c in
      match rs_visited rs !! h with
      | Some result => (result, rs)
      | None =>
          let is_pruned := bool_decide (h ∈ pruned_branches) in
          let action := if skip_filter then IncludeSubtree else filter h in
          let (result, rs) :=
            if is_skip action then (false, rs)
            else
              let skip_filter := match action with IncludeSubtree => true | _ => false end in
              let (result, rs) :=
                foldl (fun (acc : bool * Resolver) child =>
                    let (r, rs) := fill fuel acc.2 child skip_filter in (acc.1 || r, rs)) (false, rs) (references c) in
              (result, if result then mkResolver (rs_visited rs) ({[h]} ∪ rs_changed rs) else rs) in
          let result := result || is_pruned in
          (result, mkResolver (<[h := result]> (rs_visited rs)) (rs_changed rs))
      end
  end.
End Resolve.

Definition inverted_filter (f : MerkleFilter) : MerkleFilter := fun h => if is_skip (f h) then Include else Skip.

(** [MerkleUpdateBuilder] and [MerkleBuildResult] *)
Record MerkleUpdateBuilder := mkUpdateBuilder { ub_old : Cell; ub_new : Cell; ub_filter : MerkleFilter }.
Record MerkleBuildResult := mkBuilt { br_update : MerkleUpdate; br_new_cells_count : Z }.

(** [BuilderImpl::build] *)
Definition update_build_ext (ctx : CellContext) (b : MerkleUpdateBuilder) : result MerkleBuildResult :=
  let oh := repr_hash (ub_old b) in
  let od := repr_depth (ub_old b) in
  let nh := repr_hash (ub_new b) in
  let nd := repr_depth (ub_new b) in
  if bool_decide (oh = nh) then
    let! pruned := make_pruned_branch ctx (ub_old b) 0 in
    Ok (mkBuilt (mkUpdate oh oh od od pruned pruned) 0)
  else
    let! (new, pruned_branches, new_cells) :=
      ext_build_raw_ext ctx (allow_different_root (proof_create (ub_new b) (inverted_filter (ub_filter b))) true) in
    let (changed, rs) := fill pruned_branches (ub_filter b) (S (height (ub_old b))) (mkResolver ∅ ∅) (ub_old b) false in
    let changed_cells := if changed then {[oh]} ∪ rs_changed rs else rs_changed rs in
    let! old := build_raw_ext ctx (allow_different_root (proof_create (ub_old b) (set_filter changed_cells)) true) in
    Ok (mkBuilt (mkUpdate oh nh od nd old new) (Z.of_nat (size new_cells))).
