(* ===== verification/BocDe.v ===== *)
(** * BocDe: the decoder of bags of cells ([src/src/boc/de.rs])

    The decoder reads raw memory.  A computation is a value, one of the errors of the
    module, or undefined behaviour: a read outside of the buffer, a size the unchecked
    readers do not take, a push into a full [ArrayVec].  [usize] is 64 bits wide; its
    arithmetic is written with its wrap-around where the code does not check it. *)

From S2P Require Import Prelude Bits CellMeta Cell BocSer.

(** ** [enum Error] *)
Inductive DeError : Type :=
| UnexpectedEof
| UnknownBocTag
| InvalidHeader
| InvalidRefSize
| InvalidOffsetSize
| RootCellNotFound
| UnexpectedMultipleRoots
| TooManyRootCells
| AbsentCellsNotSupported
| TooFewRootCells
| InvalidTotalSize
| RootOutOfBounds
| InvalidRef
| UnnormalizedCell
| InvalidRefOrder
| DeInvalidCell
| InvalidChecksum.

Inductive unsafe (A : Type) : Type :=
| Done (a : A)
| Failed (e : DeError)
| Undefined.
Arguments Done {A} a.
Arguments Failed {A} e.
Arguments Undefined {A}.

Definition ubind {A B} (m : unsafe A) (k : A -> unsafe B) : unsafe B :=
  match m with Done a => k a | Failed e => Failed e | Undefined => Undefined end.

Declare Scope boc_scope.
Delimit Scope boc_scope with boc.
Notation "'do!' x ':=' m 'in' k" := (ubind m (fun x => k))
  (at level 10, x pattern, m at level 100, k at level 200) : boc_scope.
#[local] Open Scope boc_scope.

(** [if unlikely(!c) { return Err(e) }] *)
Definition require_that (c : bool) (e : DeError) : unsafe unit := if c then Done tt else Failed e.

(** ** Reading memory *)

(** [n] bytes at an offset of the buffer. *)
Definition read_bytes (data : list Z) (offset n : Z) : unsafe (list Z) :=
  if (0 <=? offset) && (0 <=? n) && (offset + n <=? zlen data)
  then Done (sub_bytes data offset n) else Undefined.

(** [read_be_u32_fast] and [read_be_u64_fast] of [src/src/util.rs] *)
Definition read_be_u32_fast (data : list Z) (offset size : Z) : unsafe Z :=
  if (1 <=? size) && (size <=? 4)
  then do! b := read_bytes data offset size in Done (from_be_bytes b) else Undefined.

Definition read_be_u64_fast (data : list Z) (offset size : Z) : unsafe Z :=
  if (1 <=? size) && (size <=? 4) then read_be_u32_fast data offset size
  else if (5 <=? size) && (size <=? 8)
  then do! b := read_bytes data offset size in Done (from_be_bytes b) else Undefined.

(** [BocReader]: the length is that of the data, the state is the offset. *)
Definition require (data : list Z) (offset len : Z) : bool := u64 (offset + len) <=? zlen data.

Definition read_boc_tag (data : list Z) : unsafe (option BocTag) :=
  do! b := read_bytes data 0 4 in Done (BocTags.from_bytes b).

Definition read_next_be_uint_fast (data : list Z) (offset size : Z) : unsafe (Z * Z) :=
  do! v := read_be_u32_fast data offset size in Done (v, u64 (offset + size)).

Definition read_next_be_uint_full (data : list Z) (offset size : Z) : unsafe (Z * Z) :=
  do! v := read_be_u64_fast data offset size in Done (v, u64 (offset + size)).

(** ** [CellParts::read_raw_cell_from_ptr]: the length of the raw cell at an offset *)
Definition read_raw_cell_from_ptr (data : list Z) (offset bytes_len ref_size : Z) : unsafe Z :=
  do! _ := require_that (negb (bytes_len <? 2)) UnexpectedEof in
  do! b := read_bytes data offset 2 in
  let d := Descr.new (byte_at b 0) (byte_at b 1) in
  do! _ := require_that (negb (Descr.is_absent d)) AbsentCellsNotSupported in
  let data_len := Descr.byte_len d in
  let ref_count := Descr.reference_count d in
  do! _ := require_that (negb (MAX_REF_COUNT <? ref_count)) InvalidRef in
  do! data_offset :=
    if Descr.store_hashes d then
      let level := LevelMask.level (Descr.level_mask d) in
      do! _ := require_that (negb (Descr.is_exotic d && (ref_count =? 0) && (0 <? level))) UnnormalizedCell in
      Done ((32 + 2) * (level + 1))
    else Done 0 in
  let total_len := 2 + data_offset + data_len + ref_count * ref_size in
  do! _ := require_that (negb (bytes_len <? total_len)) UnexpectedEof in
  do! _ :=
    if (0 <? data_len) && negb (Descr.is_aligned d) then
      do! b := read_bytes data (offset + (2 + data_offset + data_len - 1)) 1 in
      require_that (negb (Z.land (byte_at b 0) 0x7f =? 0)) UnnormalizedCell
    else Done tt in
  Done total_len.

(** [CellParts::read_raw_cell]: the raw cell in front and the rest *)
Definition read_raw_cell (data : list Z) (ref_size : Z) : unsafe (list Z * list Z) :=
  do! total_len := read_raw_cell_from_ptr data 0 (zlen data) ref_size in
  Done (take (Z.to_nat total_len) data, drop (Z.to_nat total_len) data).

(** ** [BocHeader::decode] *)
Record DeOptions := mkOptions { min_roots : option Z; max_roots : option Z }.
Definition MAX_ROOTS : Z := 32.

Record DeHeader := mkDeHeader {
  de_ref_size : Z;
  de_cells : list (list Z);
  de_roots : list Z;
}.

(** The flags a tag and its flags byte stand for. *)
Record TagFlags := mkFlags {
  has_index : bool;
  has_crc : bool;
  has_cache_bits : bool;
  f_ref_size : Z;
  supports_multiple_roots : bool;
}.

Definition tag_flags (tag : BocTag) (flags : Z) : TagFlags :=
  match tag with
  | Indexed => mkFlags true false false flags false
  | IndexedCrc32 => mkFlags true true false flags false
  | Generic =>
      mkFlags (negb (Z.land flags 0x80 =? 0)) (negb (Z.land flags 0x40 =? 0))
        (negb (Z.land flags 0x20 =? 0)) (Z.land flags 7) true
  end.

(** The checks of the counts of roots. *)
Definition check_roots (options : DeOptions) (f : TagFlags) (cell_count root_count absent_count : Z) : unsafe unit :=
  do! _ := require_that (negb (root_count =? 0)) RootCellNotFound in
  do! _ := require_that (negb (negb (supports_multiple_roots f) && (1 <? root_count))) UnexpectedMultipleRoots in
  do! _ := require_that (negb (cell_count <? saturating_add 64 root_count absent_count)) TooManyRootCells in
  do! _ := require_that (negb (0 <? absent_count)) AbsentCellsNotSupported in
  do! _ := match min_roots options with
           | Some m => require_that (negb (root_count <? m)) TooFewRootCells
           | None => Done tt
           end in
  let max_roots := default MAX_ROOTS (max_roots options) in
  require_that (negb (max_roots <? root_count)) TooManyRootCells.

(** The bounds of the total size of the cells. *)
Definition MIN_CELL_SIZE : Z := 2.
Definition check_total_size (total_cells_size cell_count root_count ref_size : Z) : unsafe unit :=
  let min_total := u64 (u64 (cell_count * (MIN_CELL_SIZE + ref_size)) - u64 (root_count * ref_size)) in
  do! _ := require_that (negb (total_cells_size <? min_total)) InvalidTotalSize in
  let max_cell_size := 2 + 4 * (2 + 32) + 128 + MAX_REF_COUNT * ref_size in
  require_that (negb (u64 (cell_count * max_cell_size) <? total_cells_size)) InvalidTotalSize.

(** The loop that reads the root indices. *)
Fixpoint read_roots (n : nat) (data : list Z) (offset ref_size cell_count : Z) : unsafe (list Z * Z) :=
  match n with
  | O => Done ([], offset)
  | S n =>
      do! (root_index, offset) := read_next_be_uint_fast data offset ref_size in
      do! _ := require_that (negb (cell_count <=? root_index)) RootOutOfBounds in
      do! (roots, offset) := read_roots n data offset ref_size cell_count in
      Done (u32 root_index :: roots, offset)
  end.

(** The loop that cuts the data into raw cells. *)
Fixpoint read_cells (n : nat) (data : list Z) (offset ref_size : Z) : unsafe (list (list Z) * Z) :=
  match n with
  | O => Done ([], offset)
  | S n =>
      do! total_len := read_raw_cell_from_ptr data offset (u64 (zlen data - offset)) ref_size in
      do! c := read_bytes data offset total_len in
      do! (cells, offset) := read_cells n data (u64 (offset + total_len)) ref_size in
      Done (c :: cells, offset)
  end.

Section Decode.
Variable crc32c : list Z -> Z.

(** [u32::from_le_bytes] *)
Definition from_le_bytes (b : list Z) : Z := from_be_bytes (reverse b).

Definition check_crc (data : list Z) (offset : Z) : unsafe bool :=
  do! b := read_bytes data offset 4 in
  do! body := read_bytes data 0 offset in
  Done (from_le_bytes b =? crc32c body).

Definition decode (data : list Z) (options : DeOptions) : unsafe DeHeader :=
  do! _ := require_that (require data 0 6) UnexpectedEof in
  do! fl := read_bytes data 4 2 in
  do! tag := read_boc_tag data in
  match tag with
  | None => Failed UnknownBocTag
  | Some tag =>
    let f := tag_flags tag (byte_at fl 0) in
    let offset_size := byte_at fl 1 in
    let ref_size := f_ref_size f in
    do! _ := require_that (negb (has_cache_bits f && negb (has_index f))) InvalidHeader in
    do! _ := require_that (negb ((ref_size =? 0) || (4 <? ref_size))) InvalidRefSize in
    do! _ := require_that (negb ((offset_size =? 0) || (8 <? offset_size))) InvalidOffsetSize in
    let offset := 6 in
    do! _ := require_that (require data offset (ref_size * 3 + offset_size)) InvalidHeader in
    do! (cell_count, offset) := read_next_be_uint_fast data offset ref_size in
    do! (root_count, offset) := read_next_be_uint_fast data offset ref_size in
    do! (absent_count, offset) := read_next_be_uint_fast data offset ref_size in
    do! _ := check_roots options f cell_count root_count absent_count in
    do! (total_cells_size, offset) := read_next_be_uint_full data offset offset_size in
    do! _ := check_total_size total_cells_size cell_count root_count ref_size in
    do! _ := require_that (require data offset (u64 (root_count * ref_size))) UnexpectedEof in
    do! (roots, offset) :=
      if supports_multiple_roots f
      then read_roots (Z.to_nat root_count) data offset ref_size cell_count
      else Done ([0], offset) in
    let index_size := u64 (b2z (has_index f) * cell_count * offset_size) in
    do! _ := require_that (require data offset (u64 (index_size + total_cells_size + b2z (has_crc f) * 4)))
      UnexpectedEof in
    let offset := if has_index f then u64 (offset + u64 (cell_count * offset_size)) else offset in
    let cells_start_offset := offset in
    do! (cells, offset) := read_cells (Z.to_nat cell_count) data offset ref_size in
    do! _ := require_that (saturating_add 64 cells_start_offset total_cells_size =? offset) InvalidTotalSize in
    do! _ :=
      if has_crc f then
        do! _ := require_that (require data offset 4) UnexpectedEof in
        do! correct := check_crc data offset in
        require_that correct InvalidChecksum
      else Done tt in
    Done (mkDeHeader ref_size cells roots)
  end.

(** ** [CellParts::from_raw_cell] *)

(** The loop over the child indices: the children and the union of their masks. *)
Fixpoint read_children (n : nat) (raw_cell : list Z) (data_ptr : Z) (cells : list Cell)
    (cell_count ref_size : Z) (references : list Cell) (children_mask : LevelMask.t)
    : unsafe (list Cell * LevelMask.t) :=
  match n with
  | O => Done (references, children_mask)
  | S n =>
      do! child_index := read_be_u32_fast raw_cell data_ptr ref_size in
      do! _ := require_that (negb (cell_count <=? child_index)) InvalidRef in
      match cells !! Z.to_nat (cell_count - child_index - 1) with
      | None => Failed InvalidRefOrder
      | Some child =>
          let children_mask := LevelMask.bitor children_mask (Descr.level_mask (descriptor child)) in
          if zlen references <? MAX_REF_COUNT then
            read_children n raw_cell (data_ptr + ref_size) cells cell_count ref_size
              (references ++ [child]) children_mask
          else Undefined
      end
  end.

Definition from_raw_cell (raw_cell : list Z) (cells : list Cell) (cell_count ref_size : Z) : unsafe CellParts :=
  do! b := read_bytes raw_cell 0 2 in
  let d := Descr.new (byte_at b 0) (byte_at b 1) in
  let data_len := Descr.byte_len d in
  let data_ptr :=
    if Descr.store_hashes d then 2 + (32 + 2) * (LevelMask.level (Descr.level_mask d) + 1) else 2 in
  do! data := read_bytes raw_cell data_ptr data_len in
  let data_ptr := data_ptr + data_len in
  let bit_len :=
    if Descr.is_aligned d then u16 (data_len * 8)
    else match list.last data with
         | Some byte => u16 (u16 (u16 data_len * 8) - trailing_zeros 8 byte - 1)
         | None => 0
         end in
  do! (references, children_mask) :=
    read_children (Z.to_nat (Descr.reference_count d)) raw_cell data_ptr cells cell_count ref_size [] LevelMask.EMPTY in
  Done (mkParts bit_len d children_mask references data).

(** [BocHeader::finalize]: the cells in the order they are processed *)
Fixpoint finalize_cells (ctx : CellContext) (raw : list (list Z)) (res : list Cell) (cell_count ref_size : Z)
    : unsafe (list Cell) :=
  match raw with
  | [] => Done res
  | raw_cell :: raw =>
      do! p := from_raw_cell raw_cell res cell_count ref_size in
      match finalize_cell p with
      | Ok c => finalize_cells ctx raw (res ++ [c]) cell_count ref_size
      | Err _ => Failed DeInvalidCell
      end
  end.

Definition finalize (ctx : CellContext) (h : DeHeader) : unsafe (list Cell) :=
  finalize_cells ctx (reverse (de_cells h)) [] (u32 (zlen (de_cells h))) (de_ref_size h).

(** [ProcessedCells::get] *)
Definition processed_get (cells : list Cell) (index : Z) : option Cell :=
  let i := u64 (u64 (zlen cells - index) - 1) in
  if i <? zlen cells then cells !! Z.to_nat i else None.

(** ** [Boc::decode_ext] and [Boc::decode_pair_ext] of [src/src/boc/mod.rs] *)
Definition boc_decode_ext (data : list Z) (ctx : CellContext) : unsafe Cell :=
  do! header := decode data (mkOptions (Some 1) (Some 1)) in
  match de_roots header with
  | root :: _ =>
      do! cells := finalize ctx header in
      match processed_get cells root with
      | Some root => Done root
      | None => Failed RootCellNotFound
      end
  | [] => Failed RootCellNotFound
  end.

Definition boc_decode_pair_ext (data : list Z) (ctx : CellContext) : unsafe (Cell * Cell) :=
  do! header := decode data (mkOptions (Some 2) (Some 2)) in
  match de_roots header with
  | root1 :: root2 :: _ =>
      do! cells := finalize ctx header in
      match processed_get cells root1, processed_get cells root2 with
      | Some root1, Some root2 => Done (root1, root2)
      | _, _ => Failed RootCellNotFound
      end
  | _ => Failed RootCellNotFound
  end.
End Decode.
