(* ===== verification/BocSafe.v ===== *)
(** * BocSafe: the decoder of bags of cells never leaves its buffer

    A small program logic for the computations of BocDe.v: [safe m Q] says that [m]
    is not undefined behaviour and that a value it returns satisfies [Q].  The
    decoder is safe on every input, and the raw cells it cuts out are well formed. *)

From S2P Require Import Prelude Bits CellMeta Cell BocSer BocDe.

Definition safe {A} (m : unsafe A) (Q : A -> Prop) : Prop :=
  match m with Done a => Q a | Failed _ => True | Undefined => False end.

Lemma safe_bind {A B} (m : unsafe A) (k : A -> unsafe B) Q :
  safe m (fun a => safe (k a) Q) -> safe (ubind m k) Q.
Proof. by destruct m. Qed.

Lemma safe_mono {A} (m : unsafe A) (P Q : A -> Prop) : safe m P -> (forall a, P a -> Q a) -> safe m Q.
Proof. destruct m; simpl; auto. Qed.

Lemma safe_require c e (Q : unit -> Prop) : (c = true -> Q tt) -> safe (require_that c e) Q.
Proof. destruct c; simpl; auto. Qed.

Lemma safe_read_bytes data offset n (Q : list Z -> Prop) :
  0 <= offset -> 0 <= n -> offset + n <= zlen data ->
  (zlen (sub_bytes data offset n) = n -> Q (sub_bytes data offset n)) -> safe (read_bytes data offset n) Q.
Proof.
  intros. unfold read_bytes. rewrite !(proj2 (Z.leb_le _ _)) by lia. simpl. auto using zlen_sub.
Qed.

Lemma safe_u32 data offset size (Q : Z -> Prop) :
  Forall is_byte data -> 0 <= offset -> 1 <= size <= 4 -> offset + size <= zlen data ->
  (forall v, 0 <= v < 2 ^ (8 * size) -> Q v) -> safe (read_be_u32_fast data offset size) Q.
Proof.
  intros Hb ? ? ? HQ. unfold read_be_u32_fast. rewrite !(proj2 (Z.leb_le _ _)) by lia. simpl.
  apply safe_bind, safe_read_bytes; [lia..|]. intros Hz. simpl. apply HQ.
  pose proof (from_be_bytes_range _ (sub_bytes_bytes _ offset size Hb)) as R. by rewrite Hz in R.
Qed.

Lemma safe_u64 data offset size (Q : Z -> Prop) :
  Forall is_byte data -> 0 <= offset -> 1 <= size <= 8 -> offset + size <= zlen data ->
  (forall v, 0 <= v < 2 ^ (8 * size) -> Q v) -> safe (read_be_u64_fast data offset size) Q.
Proof.
  intros Hb ? ? ? HQ. unfold read_be_u64_fast. destruct (Z.leb_spec size 4).
  - rewrite (proj2 (Z.leb_le 1 _)) by lia. simpl. apply safe_u32; (done || lia).
  - rewrite andb_false_r. rewrite !(proj2 (Z.leb_le _ _)) by lia. simpl.
    apply safe_bind, safe_read_bytes; [lia..|]. intros Hz. simpl. apply HQ.
    pose proof (from_be_bytes_range _ (sub_bytes_bytes _ offset size Hb)) as R. by rewrite Hz in R.
Qed.

Lemma u64_small x : 0 <= x < 2 ^ 64 -> u64 x = x.
Proof. intros. by apply wrap_small. Qed.

(** ** Raw cells *)

(** Where the data of a raw cell starts. *)
Definition data_offset (d : CellDescriptor) : Z :=
  if Descr.store_hashes d then (32 + 2) * (LevelMask.level (Descr.level_mask d) + 1) else 0.

Definition raw_descr (raw : list Z) : CellDescriptor := Descr.new (byte_at raw 0) (byte_at raw 1).

(** A well-formed raw cell. *)
Definition raw_ok (ref_size : Z) (raw : list Z) : Prop :=
  let d := raw_descr raw in
  Forall is_byte raw /\ 0 <= Descr.reference_count d <= MAX_REF_COUNT /\
  zlen raw = 2 + data_offset d + Descr.byte_len d + Descr.reference_count d * ref_size.

Lemma level_range m : 0 <= LevelMask.level m < 256.
Proof. unfold LevelMask.level. apply u8_byte. Qed.

Lemma byte_len_range d : 0 <= Descr.byte_len d < 256.
Proof. unfold Descr.byte_len. apply u8_byte. Qed.

Lemma data_offset_range d : 0 <= data_offset d < 34 * 257.
Proof. unfold data_offset. pose proof (level_range (Descr.level_mask d)). destruct (Descr.store_hashes d); lia. Qed.

Lemma sub_descr data offset n :
  0 <= offset -> 2 <= n -> raw_descr (sub_bytes data offset n) = raw_descr (sub_bytes data offset 2).
Proof. intros. unfold raw_descr. by rewrite !byte_at_sub by lia. Qed.

Lemma safe_read_raw_cell data offset bytes_len ref_size :
  Forall is_byte data -> 0 <= offset -> 1 <= ref_size <= 4 -> offset + bytes_len <= zlen data ->
  safe (read_raw_cell_from_ptr data offset bytes_len ref_size)
    (fun n => 2 <= n <= bytes_len /\ raw_ok ref_size (sub_bytes data offset n)).
Proof.
  intros Hb Ho Hr Hl. unfold read_raw_cell_from_ptr.
  apply safe_bind, safe_require. intros H2%negb_true_iff%Z.ltb_ge.
  apply safe_bind, safe_read_bytes; [lia..|]. intros Hz.
  fold (raw_descr (sub_bytes data offset 2)). set (d := raw_descr (sub_bytes data offset 2)).
  apply safe_bind, safe_require. intros _.
  apply safe_bind, safe_require. intros Hrc%negb_true_iff%Z.ltb_ge.
  assert (0 <= Descr.reference_count d).
  { unfold Descr.reference_count, d, raw_descr, Descr.new. simpl. apply Z.land_nonneg. right. done. }
  apply safe_bind. apply (safe_mono _ (fun o => o = data_offset d)).
  { unfold data_offset. destruct (Descr.store_hashes d); [|done]. apply safe_bind, safe_require. done. }
  intros o ->. pose proof (data_offset_range d). pose proof (byte_len_range d).
  set (total := 2 + data_offset d + Descr.byte_len d + Descr.reference_count d * ref_size).
  assert (0 <= Descr.reference_count d * ref_size) by nia.
  apply safe_bind, safe_require. intros Ht%negb_true_iff%Z.ltb_ge.
  apply safe_bind. apply (safe_mono _ (fun _ => True)).
  { destruct (_ && _) eqn:E; [|done]. apply andb_true_iff in E as [E%Z.ltb_lt _].
    apply safe_bind, safe_read_bytes; [unfold total in Ht; lia..|]. intros _. by apply safe_require. }
  intros _ _. simpl. split; [lia|]. unfold raw_ok. rewrite sub_descr by lia. fold d.
  split_and!; [by apply sub_bytes_bytes | lia | done |]. apply zlen_sub; lia.
Qed.

Lemma safe_read_cells n data offset ref_size :
  Forall is_byte data -> zlen data < 2 ^ 63 -> 0 <= offset <= zlen data -> 1 <= ref_size <= 4 ->
  safe (read_cells n data offset ref_size)
    (fun r => length r.1 = n /\ Forall (raw_ok ref_size) r.1 /\ offset <= r.2 <= zlen data).
Proof.
  intros Hb Hd. revert offset. induction n as [|n IH]; intros offset Ho Hr; simpl.
  { split_and!; [done | constructor | lia..]. }
  rewrite u64_small by lia. apply safe_bind.
  eapply safe_mono; [apply (safe_read_raw_cell data offset (zlen data - offset)); done || lia|].
  intros t [Ht Hraw]. apply safe_bind, safe_read_bytes; [lia..|]. intros Hz.
  rewrite u64_small by lia. apply safe_bind.
  eapply safe_mono; [apply IH; [lia | done]|]. intros [cells o] (E & HF & Ho'). simpl in *.
  split_and!; [lia | by constructor | lia..].
Qed.

Lemma safe_read_roots n data offset ref_size cell_count :
  Forall is_byte data -> zlen data < 2 ^ 63 -> 0 <= offset -> 1 <= ref_size <= 4 ->
  offset + Z.of_nat n * ref_size <= zlen data ->
  safe (read_roots n data offset ref_size cell_count)
    (fun r => length r.1 = n /\ Forall (fun i => 0 <= i < cell_count) r.1 /\ r.2 = offset + Z.of_nat n * ref_size).
Proof.
  intros Hb Hd. revert offset. induction n as [|n IH]; intros offset Ho Hr Hn; simpl.
  { split_and!; [done | constructor | lia..]. }
  unfold read_next_be_uint_fast. apply safe_bind, safe_bind, safe_u32; [done | lia..|]. intros v Hv. simpl.
  apply safe_bind, safe_require. intros Hc%negb_true_iff%Z.leb_gt.
  rewrite u64_small by lia. apply safe_bind. eapply safe_mono; [apply IH; lia|].
  intros [roots o] (E & HF & Eo). simpl in *. assert (2 ^ (8 * ref_size) <= 2 ^ 32) by (apply Z.pow_le_mono_r; lia).
  unfold u32. rewrite wrap_small by lia. split_and!; [lia | constructor; [lia | done] | lia].
Qed.

(** ** [decode] *)

Lemma byte_pow ref_size : 1 <= ref_size <= 4 -> 2 ^ (8 * ref_size) <= 2 ^ 32.
Proof. intros. apply Z.pow_le_mono_r; lia. Qed.

Lemma tag_ref_size tag flags : is_byte flags -> 0 <= f_ref_size (tag_flags tag flags).
Proof. intros [? ?]. destruct tag; simpl; try lia. apply Z.land_nonneg. by left. Qed.

(** The number of roots the options allow. *)
Definition roots_allowed (options : DeOptions) (n : Z) : Prop :=
  default 0 (min_roots options) <= n <= default MAX_ROOTS (max_roots options).

Lemma safe_check_roots options f cells roots absent (Q : unit -> Prop) :
  0 <= cells < 2 ^ 32 -> 0 <= roots < 2 ^ 32 -> 0 <= absent < 2 ^ 32 ->
  (0 < roots <= cells -> absent = 0 -> (supports_multiple_roots f = false -> roots = 1) ->
   roots_allowed options roots -> Q tt) ->
  safe (check_roots options f cells roots absent) Q.
Proof.
  intros Hc Hr Ha HQ. unfold check_roots.
  apply safe_bind, safe_require. intros H1%negb_true_iff%Z.eqb_neq.
  apply safe_bind, safe_require. intros H2%negb_true_iff.
  apply safe_bind, safe_require. intros H3%negb_true_iff%Z.ltb_ge. unfold saturating_add in H3.
  apply safe_bind, safe_require. intros H4%negb_true_iff%Z.ltb_ge.
  apply safe_bind. apply (safe_mono _ (fun _ => default 0 (min_roots options) <= roots)).
  { destruct (min_roots options); [|simpl; lia]. apply safe_require. intros H5%negb_true_iff%Z.ltb_ge. simpl. lia. }
  intros _ H5. apply safe_require. intros H6%negb_true_iff%Z.ltb_ge.
  apply HQ; [lia.. | |]; [|split; lia]. intros Hf. rewrite Hf in H2. simpl in H2. apply Z.ltb_ge in H2. lia.
Qed.

Lemma safe_check_total total cells roots ref_size (Q : unit -> Prop) :
  0 <= cells < 2 ^ 32 -> 0 <= roots <= cells -> 1 <= ref_size <= 4 ->
  (cells * (2 + ref_size) - roots * ref_size <= total <= cells * (266 + 4 * ref_size) -> Q tt) ->
  safe (check_total_size total cells roots ref_size) Q.
Proof.
  intros Hc Hr Hs HQ. unfold check_total_size, MIN_CELL_SIZE, MAX_REF_COUNT.
  assert (0 <= roots * ref_size <= cells * (2 + ref_size)) by nia.
  assert (cells * (2 + ref_size) < 2 ^ 40) by nia. assert (cells * (266 + 4 * ref_size) < 2 ^ 42) by nia.
  assert (0 <= cells * (266 + 4 * ref_size)) by nia.
  rewrite (u64_small (cells * _)), (u64_small (roots * _)), u64_small by lia.
  apply safe_bind, safe_require. intros Hmin%negb_true_iff%Z.ltb_ge.
  apply safe_require. replace (2 + 4 * (2 + 32) + 128 + 4 * ref_size) with (266 + 4 * ref_size) by lia.
  rewrite u64_small by lia. intros Hmax%negb_true_iff%Z.ltb_ge. apply HQ. lia.
Qed.

Lemma safe_next_u32 data offset size (Q : Z * Z -> Prop) :
  Forall is_byte data -> zlen data < 2 ^ 63 -> 0 <= offset -> 1 <= size <= 4 -> offset + size <= zlen data ->
  (forall v, 0 <= v < 2 ^ 32 -> Q (v, offset + size)) -> safe (read_next_be_uint_fast data offset size) Q.
Proof.
  intros Hb Hd Ho Hs Hl HQ. unfold read_next_be_uint_fast. apply safe_bind, safe_u32; [done | lia..|].
  intros v Hv. simpl. rewrite u64_small by lia. apply HQ. pose proof (byte_pow size Hs). lia.
Qed.

Lemma safe_next_u64 data offset size (Q : Z * Z -> Prop) :
  Forall is_byte data -> zlen data < 2 ^ 63 -> 0 <= offset -> 1 <= size <= 8 -> offset + size <= zlen data ->
  (forall v, 0 <= v < 2 ^ 64 -> Q (v, offset + size)) -> safe (read_next_be_uint_full data offset size) Q.
Proof.
  intros Hb Hd Ho Hs Hl HQ. unfold read_next_be_uint_full. apply safe_bind, safe_u64; [done | lia..|].
  intros v Hv. simpl. rewrite u64_small by lia. apply HQ.
  assert (2 ^ (8 * size) <= 2 ^ 64) by (apply Z.pow_le_mono_r; lia). lia.
Qed.

(** A decoded header: the raw cells are well formed and the roots are among them. *)
Definition header_ok (options : DeOptions) (h : DeHeader) : Prop :=
  1 <= de_ref_size h <= 4 /\ Forall (raw_ok (de_ref_size h)) (de_cells h) /\
  zlen (de_cells h) < 2 ^ 32 /\ Forall (fun i => 0 <= i < zlen (de_cells h)) (de_roots h) /\
  0 < zlen (de_roots h) /\ roots_allowed options (zlen (de_roots h)).

Lemma safe_require_len data offset len e (Q : unit -> Prop) :
  zlen data < 2 ^ 63 -> 0 <= offset < 2 ^ 63 -> 0 <= len < 2 ^ 63 -> (offset + len <= zlen data -> Q tt) ->
  safe (require_that (require data offset len) e) Q.
Proof.
  intros ? ? ? HQ. apply safe_require. unfold require. rewrite u64_small by lia. intros ?%Z.leb_le. auto.
Qed.

Lemma safe_decode crc32c data options :
  Forall is_byte data -> zlen data < 2 ^ 63 -> safe (decode crc32c data options) (header_ok options).
Proof.
  intros Hb Hd. unfold decode.
  apply safe_bind, safe_require_len; [lia..|]. intros H6.
  apply safe_bind, safe_read_bytes; [lia..|]. intros _.
  pose proof (byte_at_range _ 0 (sub_bytes_bytes data 4 2 Hb)) as Hf.
  pose proof (byte_at_range _ 1 (sub_bytes_bytes data 4 2 Hb)) as Hos. unfold is_byte in Hos.
  set (flags := byte_at (sub_bytes data 4 2) 0) in *. set (osz := byte_at (sub_bytes data 4 2) 1) in *. clearbody flags osz.
  unfold read_boc_tag. apply safe_bind, safe_bind, safe_read_bytes; [lia..|]. intros _. simpl.
  destruct (BocTags.from_bytes _) as [tag|]; [|done].
  pose proof (tag_ref_size tag flags Hf) as Hrs. set (f := tag_flags tag flags) in *. clearbody f.
  apply safe_bind, safe_require. intros _.
  apply safe_bind, safe_require. intros [Ra%Z.eqb_neq Rb%Z.ltb_ge]%negb_true_iff%orb_false_iff.
  apply safe_bind, safe_require. intros [Oa%Z.eqb_neq Ob%Z.ltb_ge]%negb_true_iff%orb_false_iff.
  set (rs := f_ref_size f) in *. assert (1 <= rs <= 4) as Hrs4 by lia. clearbody rs.
  apply safe_bind, safe_require_len; [lia..|]. intros Hhead.
  apply safe_bind, safe_next_u32; [done | lia..|]. intros cells Hcells.
  apply safe_bind, safe_next_u32; [done | lia..|]. intros roots Hroots.
  apply safe_bind, safe_next_u32; [done | lia..|]. intros absent Habsent.
  apply safe_bind, safe_check_roots; [lia..|]. intros Hr _ Hone Hallowed.
  apply safe_bind, safe_next_u64; [done | lia..|]. intros total Htotal.
  apply safe_bind, safe_check_total; [lia..|]. intros Htot.
  set (o := 6 + rs + rs + rs + osz). assert (roots * rs < 2 ^ 34) by nia. assert (0 <= roots * rs) by nia.
  rewrite u64_small by lia.
  apply safe_bind, safe_require_len; [unfold o; lia..|]. intros Hrootsreq.
  apply safe_bind. apply (safe_mono _ (fun r => zlen r.1 = roots /\ Forall (fun i => 0 <= i < cells) r.1 /\ o <= r.2 <= zlen data)).
  { destruct (supports_multiple_roots f).
    - eapply safe_mono; [apply safe_read_roots; first [done | lia | rewrite Z2Nat.id by lia; unfold o in *; lia]|].
      intros [l o2] (E & HF & E2). simpl in *. rewrite Z2Nat.id in E2 by lia. split_and!; [unfold zlen; lia | done | lia..].
    - simpl. rewrite (Hone eq_refl) in *. split_and!; [done | repeat constructor; lia | lia..]. }
  intros [rl o2] (Hrl & HFr & Ho2). simpl in Hrl, HFr, Ho2.
  assert (0 <= b2z (has_index f) * cells * osz < 2 ^ 36) by (destruct (has_index f); simpl; nia).
  assert (total < 2 ^ 42) by nia. assert (0 <= b2z (has_crc f) * 4 <= 4) by (destruct (has_crc f); simpl; lia).
  rewrite (u64_small (b2z _ * _ * _)), u64_small by lia.
  apply safe_bind, safe_require_len; [unfold o in *; lia..|]. intros Hreq.
  assert (exists o3, (if has_index f then u64 (o2 + u64 (cells * osz)) else o2) = o3 /\ 0 <= o3 <= zlen data) as (o3 & -> & Ho3).
  { destruct (has_index f); simpl b2z in *; [|exists o2; unfold o in *; lia].
    rewrite (u64_small (cells * osz)), u64_small by lia. exists (o2 + cells * osz). unfold o in *. lia. }
  apply safe_bind. eapply safe_mono; [apply safe_read_cells; done || lia|]. intros [cl o4] (El & HFc & Ho4). simpl in El, HFc, Ho4.
  apply safe_bind, safe_require. intros _.
  apply safe_bind. apply (safe_mono _ (fun _ => True)).
  { destruct (has_crc f); [|done]. apply safe_bind, safe_require_len; [lia..|]. intros Hc.
    apply safe_bind. unfold check_crc. apply safe_bind, safe_read_bytes; [lia..|]. intros _.
    apply safe_bind, safe_read_bytes; [lia..|]. intros _. simpl. by apply safe_require. }
  intros _ _. simpl. unfold header_ok. simpl. assert (zlen cl = cells) as -> by (unfold zlen; lia).
  rewrite Hrl. split_and!; (done || lia).
Qed.

(** ** [finalize] *)

Lemma safe_read_children n raw ptr cells count ref_size refs mask (Q : list Cell * LevelMask.t -> Prop) :
  Forall is_byte raw -> 0 <= ptr -> 1 <= ref_size <= 4 -> ptr + Z.of_nat n * ref_size <= zlen raw ->
  zlen refs + Z.of_nat n <= 4 -> (forall r, Q r) ->
  safe (read_children n raw ptr cells count ref_size refs mask) Q.
Proof.
  intros Hb Hp Hr. revert ptr Hp refs mask. induction n as [|n IH]; intros ptr Hp refs mask Hl Hn HQ; simpl; [done|].
  apply safe_bind, safe_u32; [done | lia..|]. intros v _. apply safe_bind, safe_require. intros _.
  destruct (cells !! _) as [child|]; [|done]. unfold MAX_REF_COUNT. rewrite (proj2 (Z.ltb_lt _ _)) by lia.
  apply IH; [lia | lia | rewrite zlen_app; change (zlen [child]) with 1; lia | done].
Qed.

Lemma safe_from_raw_cell raw cells count ref_size :
  1 <= ref_size <= 4 -> raw_ok ref_size raw -> safe (from_raw_cell raw cells count ref_size) (fun _ => True).
Proof.
  intros Hr (Hb & Hc & Hz). pose proof (data_offset_range (raw_descr raw)). pose proof (byte_len_range (raw_descr raw)).
  unfold MAX_REF_COUNT in Hc. assert (0 <= Descr.reference_count (raw_descr raw) * ref_size) by nia.
  unfold from_raw_cell. apply safe_bind, safe_read_bytes; [lia..|]. intros _.
  rewrite !byte_at_sub by lia. change (0 + 0) with 0. change (0 + 1) with 1. fold (raw_descr raw). set (d := raw_descr raw) in *.
  replace (if Descr.store_hashes d then 2 + (32 + 2) * (LevelMask.level (Descr.level_mask d) + 1) else 2)
    with (2 + data_offset d) by (unfold data_offset; destruct (Descr.store_hashes d); lia).
  apply safe_bind, safe_read_bytes; [lia..|]. intros _.
  apply safe_bind, safe_read_children; rewrite ?Z2Nat.id by lia; try done; change (zlen []) with 0; first [lia | by intros []].
Qed.

Lemma safe_finalize ctx raw res count ref_size :
  1 <= ref_size <= 4 -> Forall (raw_ok ref_size) raw ->
  safe (finalize_cells ctx raw res count ref_size) (fun l => length l = (length res + length raw)%nat).
Proof.
  intros Hr HF. revert res. induction HF as [|x raw Hx _ IH]; intros res; simpl; [lia|].
  apply safe_bind. eapply safe_mono; [by apply safe_from_raw_cell|]. intros p _. destruct (finalize_cell p) as [c|]; [|done].
  eapply safe_mono; [apply IH|]. intros l. rewrite length_app. simpl. lia.
Qed.

(** [C20] The unsafe code of the decoder stays inside its buffers: on any bytes, with
    any options and any cell context, decoding a bag and assembling its cells performs
    no read outside of the buffer and no push into a full vector; a header it returns
    has well-formed raw cells, and as many roots as the options allow, all of them
    among the cells. *)
Theorem boc_decoder_safe crc32c ctx data options :
  Forall is_byte data -> zlen data < 2 ^ 63 ->
  safe (decode crc32c data options) (fun h => header_ok options h /\
    safe (finalize ctx h) (fun cells => length cells = length (de_cells h))) /\
  safe (boc_decode_ext crc32c data ctx) (fun _ => True) /\
  safe (boc_decode_pair_ext crc32c data ctx) (fun _ => True).
Proof.
  intros Hb Hd.
  assert (forall o h, header_ok o h -> safe (finalize ctx h) (fun cells => length cells = length (de_cells h))) as Hfin.
  { intros o h (Hr & HF & _). unfold finalize. eapply safe_mono; [apply safe_finalize; [done|]|].
    - by apply Forall_reverse.
    - intros l ->. by rewrite length_reverse. }
  split_and!.
  - eapply safe_mono; [by apply safe_decode|]. intros h Hh. split; [done|]. by eapply Hfin.
  - unfold boc_decode_ext. apply safe_bind. eapply safe_mono; [by apply safe_decode|]. intros h Hh.
    destruct (de_roots h); [done|]. apply safe_bind. eapply safe_mono; [by eapply Hfin|]. intros cells _.
    by case_match.
  - unfold boc_decode_pair_ext. apply safe_bind. eapply safe_mono; [by apply safe_decode|]. intros h Hh.
    destruct (de_roots h) as [|? [|? ?]]; [done..|]. apply safe_bind. eapply safe_mono; [by eapply Hfin|]. intros cells _.
    by repeat case_match.
Qed.

Definition zero_crc (_ : list Z) : Z := 0.

(** A truncated bag: its only cell claims more data than there is. *)
Lemma boc_decoder_safe_witness :
  let data := boc_encode zero_crc EmptyOrdinaryCell in
  zlen data = 13 /\ safe (boc_decode_ext zero_crc (take 12 data) (empty_context (fun _ => []))) (fun _ => True).
Proof.
  split; [by vm_compute|].
  apply (boc_decoder_safe zero_crc (empty_context (fun _ => [])) (take 12 (boc_encode zero_crc EmptyOrdinaryCell))
    (mkOptions None None)); [|by vm_compute].
  vm_compute. repeat constructor; intros ?; discriminate.
Defined.
