(* ===== verification/BocFill.v ===== *)
(** * BocFill: what the encoder of a bag of cells collects

    The two ways to collect the cells of a tree do the same; each new cell comes
    behind its children and each cell once, and the totals are those of the list. *)

From stdpp Require Import gmap.
From S2P Require Import Prelude Bits CellMeta Cell BocSer.

(** ** Heights *)

Definition heights (l : list Cell) : nat := foldr (fun c n => Nat.max (height c) n) O l.

Lemma height_ordinary n hs d refs b : height (OrdinaryCell n hs d refs b) = S (heights refs).
Proof. reflexivity. Qed.

Lemma height_full b n refs : height (IntermediateFullCell b n refs) = S (heights refs).
Proof. reflexivity. Qed.

Lemma heights_elem c l : c ∈ l -> (height c <= heights l)%nat.
Proof. unfold heights. induction 1; simpl; lia. Qed.

Lemma height_virtualize c : height (virtualize c) = height c.
Proof. induction c; simpl; try done. by destruct (LevelMask.is_empty _). Qed.

Lemma reference_height c i child : reference c i = Some child -> (height child < height c)%nat.
Proof.
  revert child. induction c; intros child H; simpl in H; try done.
  - rewrite height_ordinary. unfold header_reference in H. destruct (i <? _); [|done].
    apply list_elem_of_lookup_2, heights_elem in H. lia.
  - destruct (reference c i) as [x|]; [|done]. injection H as <-. rewrite height_virtualize. by apply IHc.
  - destruct (reference c i) as [x|]; [|done]. injection H as <-. rewrite height_virtualize. by apply IHc.
  - rewrite height_full. apply list_elem_of_lookup_2, heights_elem in H. lia.
Qed.

Lemma iter_refs_elem f n i c : c ∈ iter_refs f n i -> exists j, f j = Some c.
Proof.
  revert i. induction n as [|n IH]; intros i; simpl; [by intros ?%elem_of_nil|].
  destruct (f i) as [x|] eqn:E; [|by intros ?%elem_of_nil].
  intros [->|H]%list.elem_of_cons; [by exists i | by eapply IH].
Qed.

Lemma child_height c child : child ∈ references c -> (height child < height c)%nat.
Proof. intros [j H]%iter_refs_elem. by eapply reference_height. Qed.

(** ** The recursion *)

Definition visit (fuel : nat) (h : SerHeader) (child : Cell) : SerHeader :=
  if known h child then h else fill_recursive fuel h child.

(** Enough fuel is as good as the height. *)
Lemma fill_recursive_fuel fuel1 fuel2 h c :
  (height c < fuel1)%nat -> (height c < fuel2)%nat -> fill_recursive fuel1 h c = fill_recursive fuel2 h c.
Proof.
  revert fuel2 h c. induction fuel1 as [|f1 IH]; intros [|f2] h c H1 H2; try lia. cbn [fill_recursive].
  f_equal. pose proof (child_height c) as Hc. revert h. induction (references c) as [|x l IHl]; intros h; simpl; [done|].
  rewrite IHl by (intros; apply Hc; by right). destruct (known h x); [done|].
  pose proof (Hc x ltac:(by left)). rewrite (IH f2) by lia. done.
Qed.

Lemma foldl_ext_in {A B} (f g : A -> B -> A) l a :
  (forall a b, b ∈ l -> f a b = g a b) -> foldl f a l = foldl g a l.
Proof.
  revert a. induction l as [|b l IH]; intros a H; simpl; [done|].
  rewrite H by (by left). apply IH. intros. apply H. by right.
Qed.

(** Visiting a child with the fuel its own height asks for. *)
Definition visit_all (h : SerHeader) (l : list Cell) : SerHeader :=
  foldl (fun h child => visit (S (height child)) h child) h l.

Lemma fill_recursive_eq fuel h c :
  (height c < fuel)%nat -> fill_recursive fuel h c = push_cell (visit_all h (references c)) c.
Proof.
  destruct fuel as [|fuel]; intros H; [lia|]. cbn [fill_recursive]. f_equal. apply foldl_ext_in.
  intros a b Hb%child_height. unfold visit. destruct (known a b); [done|]. apply fill_recursive_fuel; lia.
Qed.

(** ** The stack of iterators *)

Lemma steps_fuel fuel1 fuel2 c : (height c < fuel1)%nat -> (height c < fuel2)%nat -> steps fuel1 c = steps fuel2 c.
Proof.
  revert fuel2 c. induction fuel1 as [|f1 IH]; intros [|f2] c H1 H2; try lia. simpl. f_equal.
  pose proof (child_height c) as Hc. induction (references c) as [|x l IHl]; simpl; [done|].
  pose proof (Hc x ltac:(by left)). rewrite (IH f2) by lia. rewrite IHl by (intros; apply Hc; by right). done.
Qed.

Definition all_steps (l : list Cell) : nat := foldr (fun c n => S (steps (S (height c)) c + n)%nat) O l.

Lemma steps_eq fuel c : (height c < fuel)%nat -> steps fuel c = S (all_steps (references c)).
Proof.
  destruct fuel as [|fuel]; intros H; [lia|]. cbn [steps]. f_equal. pose proof (child_height c) as Hc.
  induction (references c) as [|x l IHl]; simpl; [done|]. pose proof (Hc x ltac:(by left)).
  rewrite (steps_fuel fuel (S (height x))) by lia. cbn [steps]. rewrite IHl by (intros; apply Hc; by right). done.
Qed.

(** A frame is worked off in at most as many steps as there are left below it. *)
Lemma fill_deep_frame n c children h stack :
  (forall x, x ∈ children -> (height x < n)%nat) ->
  exists k, (k <= S (all_steps children))%nat /\ forall fuel,
    fill_deep_loop (k + fuel) h ((c, children) :: stack) =
    fill_deep_loop fuel (push_cell (visit_all h children) c) stack.
Proof.
  revert c children h stack. induction n as [|n IH]; intros c children h stack Hn.
  { destruct children as [|x l]; [by exists 1%nat|]. specialize (Hn x ltac:(by left)). lia. }
  revert h. induction children as [|x l IHl]; intros h; [by exists 1%nat|].
  specialize (IHl ltac:(intros; apply Hn; by right)). pose proof (Hn x ltac:(by left)) as Hx.
  unfold visit_all. cbn [foldl]. unfold visit at 2. destruct (known h x) eqn:E.
  - destruct (IHl h) as (k & Hk & Hl). exists (S k). split; [simpl; lia|]. intros fuel. simpl. by rewrite E, Hl.
  - destruct (IH x (references x) h ((c, l) :: stack)) as (k1 & Hk1 & H1).
    { intros y Hy%child_height. lia. }
    destruct (IHl (push_cell (visit_all h (references x)) x)) as (k2 & Hk2 & H2).
    exists (S (k1 + k2)). rewrite (fill_recursive_eq (S (height x))) by lia. split.
    + cbn [all_steps foldr]. fold (all_steps l). rewrite (steps_eq (S (height x))) by lia. lia.
    + intros fuel. cbn [fill_deep_loop Nat.add]. rewrite E, <- Nat.add_assoc, H1. apply H2.
Qed.

Lemma fill_deep_recursive h root : fill_deep h root = fill_recursive (S (height root)) h root.
Proof.
  unfold fill_deep. rewrite (steps_eq (S (height root))) by lia.
  destruct (fill_deep_frame (height root) root (references root) h []) as (k & Hk & H); [apply child_height|].
  replace (S (S (all_steps (references root)))) with (k + (S (S (all_steps (references root))) - k))%nat by lia.
  rewrite H, <- (fill_recursive_eq (S (height root))) by lia. by destruct (S (S _) - k)%nat.
Qed.

(** The flag stays as it is. *)
Lemma fill_recursive_without fuel h c : without_hashes (fill_recursive fuel h c) = without_hashes h.
Proof.
  revert h c. induction fuel as [|fuel IH]; intros h c; [done|]. cbn [fill_recursive push_cell without_hashes].
  revert h. induction (references c) as [|x l IHl]; intros h; simpl; [done|]. rewrite IHl. destruct (known h x); [done | apply IH].
Qed.

Lemma add_root_without h root : without_hashes (add_root h root) = without_hashes h.
Proof.
  unfold add_root, fill. destruct (rev_indices h !! repr_hash root); [done|]. cbn [without_hashes].
  rewrite fill_deep_recursive. destruct (_ <=? _); apply fill_recursive_without.
Qed.

(** ** What is collected *)

Definition sum_of (f : Cell -> Z) (l : list Cell) : Z := foldr (fun c n => f c + n) 0 l.

Lemma sum_of_app f l k : sum_of f (l ++ k) = sum_of f l + sum_of f k.
Proof. unfold sum_of. induction l as [|c l IH]; simpl; lia. Qed.

Lemma sum_of_one f c : sum_of f [c] = f c.
Proof. unfold sum_of. simpl. lia. Qed.

Lemma sum_of_bounds f l a b : (forall c, c ∈ l -> a <= f c <= b) -> a * zlen l <= sum_of f l <= b * zlen l.
Proof.
  intros H. induction l as [|c l IH]; [simpl; unfold zlen; simpl; lia|].
  pose proof (H c ltac:(by left)). destruct IH; [intros; apply H; by right|].
  unfold sum_of in *. simpl. unfold zlen in *. simpl. lia.
Qed.

Section Collect.
(** The cells of the trees: closed under references, told apart by their hashes. *)
Context (all : list Cell).
Context (Hclosed : forall c child, c ∈ all -> child ∈ references c -> child ∈ all).
Context (Hinj : forall a b, a ∈ all -> b ∈ all -> repr_hash a = repr_hash b -> a = b).
Context (Hrefs : forall c, c ∈ all -> Descr.reference_count (descriptor c) = zlen (references c)).
Context (Hbound : zlen all < 2 ^ 32).

Definition data_cost (without : bool) (c : Cell) : Z := byte_len_full (descriptor c) without.
Definition refs_cost (c : Cell) : Z := Descr.reference_count (descriptor c).

Record inv (h : SerHeader) : Prop := {
  inv_all : forall c, c ∈ rev_cells h -> c ∈ all;
  inv_nodup : NoDup (rev_cells h);
  inv_count : cell_count h = zlen (rev_cells h);
  inv_index : forall c i, c ∈ all -> rev_indices h !! repr_hash c = Some i <->
    0 <= i /\ rev_cells h !! Z.to_nat i = Some c;
  inv_topo : forall i c child, rev_cells h !! i = Some c -> child ∈ references c ->
    exists j, (j < i)%nat /\ rev_cells h !! j = Some child;
  inv_data : total_data_size h = sum_of (data_cost (without_hashes h)) (rev_cells h);
  inv_total : reference_total h = sum_of refs_cost (rev_cells h);
}.

Lemma known_spec h c : inv h -> c ∈ all -> known h c = true <-> c ∈ rev_cells h.
Proof.
  intros Hi Hc. unfold known. destruct (rev_indices h !! repr_hash c) as [i|] eqn:E.
  - apply (inv_index h Hi c i Hc) in E as [_ E]. apply list_elem_of_lookup_2 in E. done.
  - split; [done|]. intros [i Ei]%list_elem_of_lookup_1. exfalso.
    assert (rev_indices h !! repr_hash c = Some (Z.of_nat i)) as E'; [|congruence].
    apply (inv_index h Hi c _ Hc). rewrite Nat2Z.id. split; [lia | done].
Qed.

Lemma inv_small h : inv h -> zlen (rev_cells h) <= zlen all.
Proof.
  intros Hi. unfold zlen. apply Nat2Z.inj_le, submseteq_length, NoDup_submseteq; [apply Hi|].
  intros x. apply Hi.
Qed.

Lemma cost_range without c : 0 <= data_cost without c <= 10000.
Proof.
  unfold data_cost, byte_len_full. unfold Descr.byte_len, LevelMask.level.
  pose proof (u8_byte (Z.land (d2 (descriptor c)) 1 + Z.shiftr (d2 (descriptor c)) 1)) as H1. unfold is_byte in H1.
  match goal with |- context [u8 (u8 ?a + ?b)] => pose proof (u8_byte (u8 a + b)) as H2 end. unfold is_byte in H2.
  destruct (_ && _); [|lia]. unfold u64. rewrite wrap_small by lia. lia.
Qed.

Lemma refs_cost_range c : 0 <= refs_cost c <= 7.
Proof. unfold refs_cost, Descr.reference_count, Descr.REF_COUNT_MASK. change 7 with (Z.ones 3). rewrite Z.land_ones by lia. change (2 ^ 3) with 8. change (Z.ones 3) with 7. lia. Qed.

Lemma inv_push h c :
  inv h -> c ∈ all -> c ∉ rev_cells h -> (forall x, x ∈ references c -> x ∈ rev_cells h) -> inv (push_cell h c).
Proof.
  intros Hi Hc Hnew Hch. pose proof (inv_small h Hi) as Hs.
  assert (zlen (rev_cells h ++ [c]) <= zlen all) as Hlen.
  { unfold zlen. apply Nat2Z.inj_le, submseteq_length, NoDup_submseteq.
    - apply list.NoDup_app. split_and!; [apply Hi | | apply NoDup_singleton].
      intros x Hx ->%list_elem_of_singleton. done.
    - intros x [Hx| ->%list_elem_of_singleton]%elem_of_app; [by apply Hi | done]. }
  pose proof (zlen_nonneg (rev_cells h)) as Hnn.
  assert (zlen (rev_cells h ++ [c]) = zlen (rev_cells h) + 1) as Hz by (by rewrite zlen_app).
  split; cbn [push_cell rev_cells cell_count rev_indices total_data_size reference_total without_hashes].
  - intros x [Hx| ->%list_elem_of_singleton]%elem_of_app; [by apply Hi | done].
  - apply list.NoDup_app. split_and!; [apply Hi | | apply NoDup_singleton]. intros x Hx ->%list_elem_of_singleton. done.
  - rewrite (inv_count h Hi), Hz. unfold u32. apply wrap_small. lia.
  - intros x i Hx. rewrite (inv_count h Hi). destruct (decide (repr_hash x = repr_hash c)) as [Exc|Hne].
    + apply Hinj in Exc as ->; [|done..]. rewrite lookup_insert_eq. split.
      * intros [= <-]. split; [lia|]. rewrite lookup_app_r by (unfold zlen; lia).
        by replace (Z.to_nat (zlen (rev_cells h)) - length (rev_cells h))%nat with 0%nat by (unfold zlen; lia).
      * intros [Hi0 E]. f_equal. apply lookup_app_Some in E as [E|[Hge E]].
        -- apply list_elem_of_lookup_2 in E. done.
        -- apply list_lookup_singleton_Some in E as [E _]. unfold zlen. lia.
    + rewrite lookup_insert_ne by congruence.
      rewrite (inv_index h Hi) by done. split; intros [Hi0 E]; (split; [done|]).
      * by apply lookup_app_l_Some.
      * apply lookup_app_Some in E as [E|[_ E]]; [done|]. apply list_lookup_singleton_Some in E as [_ E]. congruence.
  - intros i x child Ex Hx. apply lookup_app_Some in Ex as [Ex|[Hge Ex]].
    + destruct (inv_topo h Hi i x child Ex Hx) as (j & Hj & Ej). exists j. split; [done|]. by apply lookup_app_l_Some.
    + apply list_lookup_singleton_Some in Ex as [E <-]. destruct (list_elem_of_lookup_1 _ _ (Hch child Hx)) as [j Ej]. exists j. apply lookup_lt_Some in Ej as Hj. split; [lia|]. by apply lookup_app_l_Some.
  - rewrite sum_of_app, (inv_data h Hi). fold (data_cost (without_hashes h) c).
    pose proof (sum_of_bounds (data_cost (without_hashes h)) (rev_cells h) 0 10000 ltac:(intros; apply cost_range)) as Hb.
    pose proof (cost_range (without_hashes h) c). rewrite sum_of_one. unfold u64. rewrite wrap_small by lia. lia.
  - rewrite sum_of_app, (inv_total h Hi). fold (refs_cost c).
    pose proof (sum_of_bounds refs_cost (rev_cells h) 0 7 ltac:(intros; apply refs_cost_range)) as Hb.
    pose proof (refs_cost_range c). rewrite sum_of_one. unfold u64. rewrite wrap_small by lia. lia.
Qed.

(** What a visit adds: cells below [n], referenced from each other except for [k]. *)
Record grown (n : nat) (k : Z) (h h' : SerHeader) : Prop := {
  gr_inv : inv h';
  gr_cells : exists new, rev_cells h' = rev_cells h ++ new /\ (forall x, x ∈ new -> (height x < n)%nat) /\
    zlen new - k <= reference_total h' - reference_total h;
  gr_roots : root_rev_indices h' = root_rev_indices h;
  gr_without : without_hashes h' = without_hashes h;
  gr_crc : include_crc h' = include_crc h;
}.

Lemma grown_refl n h : inv h -> grown n 0 h h.
Proof.
  intros Hi. split; try done. exists []. rewrite app_nil_r. split_and!; [done | by intros ? ?%elem_of_nil |].
  change (zlen []) with 0. lia.
Qed.

Lemma grown_trans n k1 k2 h1 h2 h3 : grown n k1 h1 h2 -> grown n k2 h2 h3 -> grown n (k1 + k2) h1 h3.
Proof.
  intros [? (new1 & E1 & H1 & Hr1) ? ? ?] [? (new2 & E2 & H2 & Hr2) ? ? ?]. split; try congruence.
  exists (new1 ++ new2). rewrite E2, E1, <- app_assoc, zlen_app. split_and!; [done | | lia].
  intros x [?|?]%elem_of_app; auto.
Qed.

Lemma grown_mono n1 n2 k1 k2 h h' : (n1 <= n2)%nat -> k1 <= k2 -> grown n1 k1 h h' -> grown n2 k2 h h'.
Proof.
  intros Hn Hk [? (new & E1 & H1 & Hr1) ? ? ?]. split; try done. exists new. split_and!; [done | | lia].
  intros x Hx. specialize (H1 x Hx). lia.
Qed.

Lemma grown_keeps n k h h' x : grown n k h h' -> x ∈ rev_cells h -> x ∈ rev_cells h'.
Proof. intros [_ (new & -> & _) _ _ _] Hx. apply elem_of_app. by left. Qed.

Lemma fill_grown n c h :
  (height c < n)%nat -> inv h -> c ∈ all -> c ∉ rev_cells h ->
  grown (S (height c)) 1 h (fill_recursive (S (height c)) h c) /\
  exists l, rev_cells (fill_recursive (S (height c)) h c) = l ++ [c].
Proof.
  revert c h. induction n as [|n IH]; intros c h Hn Hi Hc Hnew; [lia|].
  rewrite fill_recursive_eq by lia.
  assert (forall l h, inv h -> (forall x, x ∈ l -> x ∈ all /\ (height x < height c)%nat) ->
    grown (height c) (zlen l) h (visit_all h l) /\ forall x, x ∈ l -> x ∈ rev_cells (visit_all h l)) as Hvisit.
  { clear h Hi Hnew. intros l. induction l as [|x l IHl]; intros h Hi Hl.
    { split; [by apply grown_refl | by intros ? ?%elem_of_nil]. }
    destruct (Hl x ltac:(by left)) as [Hx Hhx].
    assert (grown (height c) 1 h (visit (S (height x)) h x) /\ x ∈ rev_cells (visit (S (height x)) h x)) as [Hg Hin].
    { unfold visit. destruct (known h x) eqn:E.
      - split; [|by apply known_spec]. apply (grown_mono (height c) (height c) 0 1); [lia..|]. by apply grown_refl.
      - assert (x ∉ rev_cells h) as Hnx by (intros H; apply (known_spec h x Hi Hx) in H; congruence).
        destruct (IH x h ltac:(lia) Hi Hx Hnx) as [Hg (l' & El)]. split.
        + by apply (grown_mono (S (height x)) _ 1).
        + rewrite El. apply elem_of_app. right. by left. }
    destruct (IHl (visit (S (height x)) h x) (gr_inv _ _ _ _ Hg)) as [Hg2 Hin2]; [intros; apply Hl; by right|].
    split.
    - replace (zlen (x :: l)) with (1 + zlen l) by (unfold zlen; simpl; lia). by eapply grown_trans.
    - intros y [->|Hy]%list.elem_of_cons; [by eapply grown_keeps | by apply Hin2]. }
  destruct (Hvisit (references c) h Hi) as [Hg Hin].
  { intros x Hx. split; [by eapply Hclosed | by apply child_height]. }
  destruct Hg as [Hi' (new & E & Hh & Hr) ? ? ?].
  assert (c ∉ rev_cells (visit_all h (references c))) as Hnc.
  { rewrite E. intros [?|Hcn]%elem_of_app; [done|]. specialize (Hh c Hcn). lia. }
  pose proof (inv_push _ c Hi' Hc Hnc Hin) as Hp. split; [|by eexists].
  split; [done | | done..]. exists (new ++ [c]). split_and!.
  - cbn [push_cell rev_cells]. by rewrite E, <- app_assoc.
  - intros x [Hx| ->%list_elem_of_singleton]%elem_of_app; [specialize (Hh x Hx)|]; lia.
  - rewrite (inv_total _ Hp), (inv_total _ Hi') in *. cbn [push_cell rev_cells]. rewrite sum_of_app.
    rewrite sum_of_one. unfold refs_cost at 2. rewrite (Hrefs c Hc), zlen_app. change (zlen [c]) with 1. lia.
Qed.

(** ** Adding roots *)

(** The state after [add_root] for each of the roots. *)
Record roots_inv (h : SerHeader) (roots : list Cell) : Prop := {
  ri_inv : inv h;
  ri_roots : Forall2 (fun i root => 0 <= i /\ rev_cells h !! Z.to_nat i = Some root) (root_rev_indices h) roots;
  ri_refs : zlen (rev_cells h) - zlen roots <= reference_total h;
}.

Lemma fill_spec h root :
  inv h -> root ∈ all -> exists i h', fill h root = (i, h') /\ grown (S (height root)) 1 h h' /\
    0 <= i /\ rev_cells h' !! Z.to_nat i = Some root.
Proof.
  intros Hi Hr. unfold fill. destruct (rev_indices h !! repr_hash root) as [i|] eqn:E.
  - exists i, h. apply (inv_index h Hi root i Hr) in E as [? ?]. split_and!; try done.
    apply (grown_mono (S (height root)) _ 0); [lia..|]. by apply grown_refl.
  - assert (root ∉ rev_cells h) as Hn.
    { intros H. apply (known_spec h root Hi Hr) in H. unfold known in H. by rewrite E in H. }
    rewrite fill_deep_recursive. assert ((if repr_depth root <=? SAFE_DEPTH then fill_recursive (S (height root)) h root
      else fill_recursive (S (height root)) h root) = fill_recursive (S (height root)) h root) as -> by (by destruct (_ <=? _)).
    destruct (fill_grown (S (height root)) root h ltac:(lia) Hi Hr Hn) as [Hg (l & El)].
    set (h' := fill_recursive _ h root) in *. clearbody h'. pose proof (gr_inv _ _ _ _ Hg) as Hi'.
    eexists _, h'. split; [done|]. rewrite (inv_count _ Hi'), El, zlen_app. change (zlen [root]) with 1.
    pose proof (inv_small _ Hi') as Hs. rewrite El, zlen_app in Hs. change (zlen [root]) with 1 in Hs. pose proof (zlen_nonneg l).
    unfold u32. rewrite wrap_small by lia. replace (zlen l + 1 - 1) with (zlen l) by lia.
    split_and!; [done | done |]. rewrite <- length_zlen. by apply list_lookup_middle.
Qed.

Lemma add_root_inv h roots root : roots_inv h roots -> root ∈ all -> roots_inv (add_root h root) (roots ++ [root]).
Proof.
  intros [Hi Hrs Href] Hr. unfold add_root. destruct (fill_spec h root Hi Hr) as (i & h' & -> & Hg & Hi0 & Ei).
  destruct Hg as [Hi' (new & E & Hh & Hrf) Er Ew Ec].
  split.
  - destruct Hi'. by split.
  - cbn [root_rev_indices rev_cells]. rewrite Er. apply Forall2_app; [|by repeat constructor].
    eapply list.Forall2_impl; [exact Hrs|]. intros j c [? Ej]. split; [done|]. rewrite E. by apply lookup_app_l_Some.
  - cbn [rev_cells reference_total]. rewrite E, !zlen_app. change (zlen [root]) with 1. lia.
Qed.

Lemma default_inv crc without :
  roots_inv (mkSerHeader [] ∅ [] 0 0 0 without crc) [].
Proof.
  split; [|constructor | done]. split; try done.
  - by intros ? ?%elem_of_nil.
  - constructor.
  - intros c i _. cbn [rev_indices rev_cells]. rewrite lookup_empty, lookup_nil. naive_solver.
Qed.

Lemma add_roots_inv h roots roots' :
  roots_inv h roots -> Forall (fun r => r ∈ all) roots' -> roots_inv (foldl add_root h roots') (roots ++ roots').
Proof.
  intros Hi HF. revert h roots Hi. induction HF as [|r l Hr _ IH]; intros h roots Hi; simpl; [by rewrite app_nil_r|].
  replace (roots ++ r :: l) with ((roots ++ [r]) ++ l) by (by rewrite <- app_assoc). by apply IH, add_root_inv.
Qed.
End Collect.
