(* ===== verification/BocRoundtrip.v ===== *)
(** * BocRoundtrip: decoding an encoded bag of cells

    Every piece of an encoded bag is found at its offset: the header, the root
    indices, each raw cell and the checksum.  A raw cell gives back the parts of its
    cell, and the cells before it are the ones its indices refer to. *)

From stdpp Require Import gmap.
From S2P Require Import Prelude Bits DataBuilder DataBuilderSpec CellMeta Cell Slice SliceSpec Builder BuilderSpec Context Pieces CellTheorems BocSer BocDe BocSafe BocFill.
#[local] Open Scope boc_scope.

(** ** Reading pieces of a buffer *)

Lemma read_at data offset piece n : at_offset data offset piece -> n = zlen piece -> read_bytes data offset n = Done piece.
Proof.
  intros H ->. pose proof (at_bounds _ _ _ H). pose proof (zlen_nonneg piece). unfold read_bytes.
  rewrite !(proj2 (Z.leb_le _ _)) by lia. simpl. by rewrite (at_sub _ _ _ H).
Qed.

(** ** Integers *)

Lemma be_suffix_eq w size v : 0 <= size <= w -> be_suffix w size v = to_be_bytes size v.
Proof.
  intros Hs. unfold be_suffix, to_be_bytes. rewrite <- fmap_drop. apply list_eq. intros i.
  rewrite !list_lookup_fmap, lookup_drop.
  destruct (decide (Z.of_nat i < size)) as [Hi|Hi].
  - rewrite !lookup_seqZ_lt by lia. simpl. do 2 f_equal. f_equal. lia.
  - rewrite !lookup_seqZ_ge by lia. done.
Qed.

Lemma zlen_be size v : 0 <= size -> zlen (to_be_bytes size v) = size.
Proof. apply length_to_be_bytes. Qed.

Lemma read_u32_at data offset size v C :
  at_offset data offset (to_be_bytes size v ++ C) -> 1 <= size <= 4 -> 0 <= v < 2 ^ (8 * size) ->
  read_be_u32_fast data offset size = Done v.
Proof.
  intros [H _]%at_app Hs Hv. unfold read_be_u32_fast. rewrite !(proj2 (Z.leb_le _ _)) by lia. simpl.
  rewrite (read_at _ _ _ _ H) by (symmetry; apply zlen_be; lia). simpl. by rewrite from_to_be by lia.
Qed.

Lemma read_u64_at data offset size v :
  at_offset data offset (to_be_bytes size v) -> 1 <= size <= 8 -> 0 <= v < 2 ^ (8 * size) ->
  read_be_u64_fast data offset size = Done v.
Proof.
  intros H Hs Hv. unfold read_be_u64_fast. destruct (Z.leb_spec size 4).
  - rewrite (proj2 (Z.leb_le 1 _)) by lia. simpl. apply (read_u32_at _ _ _ _ []); [by rewrite app_nil_r | lia | done].
  - rewrite andb_false_r. rewrite !(proj2 (Z.leb_le _ _)) by lia. simpl.
    rewrite (read_at _ _ _ _ H) by (symmetry; apply zlen_be; lia). simpl. by rewrite from_to_be by lia.
Qed.

(** The number of bytes chosen for a number holds it. *)
Lemma bytes_to_fit l k :
  1 <= l < 2 ^ (8 * k) -> 0 <= k <= 8 -> 1 <= number_of_bytes_to_fit l <= k /\ l < 2 ^ (8 * number_of_bytes_to_fit l).
Proof.
  intros Hl Hk. unfold number_of_bytes_to_fit, leading_zeros. rewrite (proj2 (Z.eqb_neq _ _)) by lia.
  pose proof (Z.log2_nonneg l). assert (Z.log2 l < 8 * k) as Hg by (apply Z.log2_lt_pow2; lia).
  pose proof (Z.log2_spec l ltac:(lia)) as [_ Hlt]. set (g := Z.log2 l) in *. clearbody g.
  assert (0 <= (64 - 1 - g) / 8 <= 7 /\ g + 1 <= 8 * (8 - (64 - 1 - g) / 8) /\ 8 - (64 - 1 - g) / 8 <= k) as (Hq & Hgq & Hqk) by lia.
  split; [lia|]. eapply Z.lt_le_trans; [exact Hlt|]. apply Z.pow_le_mono_r; lia.
Qed.

(** ** Cells that can be stored *)

(** The number of bits a raw cell has. *)
Definition raw_bit_len (d : CellDescriptor) (data : list Z) : Z :=
  if Descr.is_aligned d then u16 (Descr.byte_len d * 8)
  else match list.last data with
       | Some byte => u16 (u16 (u16 (Descr.byte_len d) * 8) - trailing_zeros 8 byte - 1)
       | None => 0
       end.

(** The parts a cell was made of. *)
Definition children_mask (l : list Cell) (m : LevelMask.t) : LevelMask.t :=
  foldl (fun m c => LevelMask.bitor m (Descr.level_mask (descriptor c))) m l.
Definition parts_of (c : Cell) : CellParts :=
  mkParts (bit_len c) (descriptor c) (children_mask (references c) LevelMask.EMPTY) (references c) (data c).

Definition levels_of (d : CellDescriptor) : list Z := LevelMask.collect 9 (LevelMask.into_iter (Descr.level_mask d)).

(** A cell in the form the context finalizes cells to, with consistent metadata. *)
Record storable (ctx : CellContext) (c : Cell) : Prop := {
  st_d1 : is_byte (d1 (descriptor c));
  st_d2 : is_byte (d2 (descriptor c));
  st_bytes : Forall is_byte (data c);
  st_len : zlen (data c) = Descr.byte_len (descriptor c);
  st_refs : Descr.reference_count (descriptor c) = zlen (references c);
  st_refs_max : zlen (references c) <= MAX_REF_COUNT;
  st_present : Descr.is_absent (descriptor c) = false;
  st_hashes : Descr.store_hashes (descriptor c) = true ->
    (Descr.is_exotic (descriptor c) = false \/ 0 < zlen (references c) \/ level c = 0) /\
    forall l, l ∈ levels_of (descriptor c) -> zlen (hash c l) = 32 /\ Forall is_byte (hash c l);
  st_bits : bit_len c = raw_bit_len (descriptor c) (data c);
  st_tag : Descr.is_aligned (descriptor c) = false ->
    match list.last (data c) with Some b => Z.land b 0x7f <> 0 | None => True end;
  st_final : finalize_cell (parts_of c) = Ok c;
}.

Lemma levels_count d : is_byte (d1 d) -> zlen (levels_of d) = LevelMask.level (Descr.level_mask d) + 1.
Proof.
  intros Hd. unfold levels_of, Descr.level_mask, LevelMask.new_unchecked. unfold is_byte in Hd.
  rewrite Z.shiftr_div_pow2 by lia. change (2 ^ 5) with 32.
  pose proof (Zrange_forall (fun m => zlen (LevelMask.collect 9 (LevelMask.into_iter m)) =? LevelMask.level m + 1) 8 ltac:(by vm_compute)
    (d1 d / 32) ltac:(lia)) as H. by apply Z.eqb_eq.
Qed.

Lemma zlen_flat_map {A} (f : A -> list Z) l n : (forall x, x ∈ l -> zlen (f x) = n) -> zlen (flat_map f l) = n * zlen l.
Proof.
  induction l as [|x l IH]; intros H; simpl; [unfold zlen; simpl; lia|].
  rewrite zlen_app, IH, (H x) by (first [by left | intros; apply H; by right]). unfold zlen. simpl. lia.
Qed.

Section Encoded.
Context (ctx : CellContext) (h : SerHeader) (Hwithout : without_hashes h = false).
Context (rs : Z) (Hrs : 1 <= rs <= 4).

(** The stored hashes and depths of a cell. *)
Definition stored_hashes (c : Cell) : list Z :=
  if Descr.store_hashes (descriptor c) then
    flat_map (fun level => hash c level) (levels_of (descriptor c)) ++
    flat_map (fun level => to_be_bytes 2 (depth c level)) (levels_of (descriptor c))
  else [].

Definition child_bytes (child : Cell) : list Z :=
  match rev_indices h !! repr_hash child with
  | Some rev_index => be_suffix 4 rs (u32 (cell_count h - rev_index - 1))
  | None => []
  end.

Lemma encode_cell_eq c : storable ctx c ->
  encode_cell h rs c = [d1 (descriptor c); d2 (descriptor c)] ++ stored_hashes c ++ data c ++ flat_map child_bytes (references c).
Proof.
  intros Hc. unfold encode_cell. rewrite Hwithout. change (unot 8 (b2z false * _)) with 255.
  assert (Z.land (d1 (descriptor c)) 255 = d1 (descriptor c)) as ->.
  { pose proof (st_d1 _ _ Hc) as [? ?]. change 255 with (Z.ones 8). rewrite Z.land_ones by lia. by apply Z.mod_small. }
  replace (Descr.new (d1 (descriptor c)) (d2 (descriptor c))) with (descriptor c) by (by destruct (descriptor c)).
  unfold stored_hashes, levels_of. by destruct (Descr.store_hashes (descriptor c)).
Qed.

Lemma zlen_stored c : storable ctx c -> zlen (stored_hashes c) = data_offset (descriptor c).
Proof.
  intros Hc. unfold stored_hashes, data_offset. destruct (Descr.store_hashes (descriptor c)) eqn:E; [|done].
  destruct (st_hashes _ _ Hc E) as [_ Hh]. rewrite zlen_app, (zlen_flat_map _ _ 32), (zlen_flat_map _ _ 2).
  - rewrite levels_count by apply Hc. lia.
  - intros l _. by apply zlen_be.
  - intros l Hl. by apply Hh.
Qed.

(** The size of an encoded cell whose children are all known. *)
Lemma zlen_encoded c : storable ctx c -> (forall x, x ∈ references c -> is_Some (rev_indices h !! repr_hash x)) ->
  zlen (encode_cell h rs c) = 2 + data_offset (descriptor c) + Descr.byte_len (descriptor c) + zlen (references c) * rs.
Proof.
  intros Hc Hk. rewrite encode_cell_eq, !zlen_app, zlen_stored, (st_len _ _ Hc) by done.
  rewrite (zlen_flat_map _ _ rs); [change (zlen [_; _]) with 2; lia|].
  intros x [i Hi]%Hk. unfold child_bytes. rewrite Hi, be_suffix_eq by lia. apply zlen_be. lia.
Qed.

(** Cutting out an encoded cell. *)
Lemma read_raw_cell_at buf offset bytes_len c :
  storable ctx c -> (forall x, x ∈ references c -> is_Some (rev_indices h !! repr_hash x)) ->
  at_offset buf offset (encode_cell h rs c) -> zlen (encode_cell h rs c) <= bytes_len ->
  read_raw_cell_from_ptr buf offset bytes_len rs = Done (zlen (encode_cell h rs c)).
Proof.
  intros Hc Hk Hat Hl. pose proof (zlen_encoded c Hc Hk) as Hz. rewrite encode_cell_eq in Hat by done.
  pose proof Hat as [Hd [Hhs [Hdata _]%at_app]%at_app]%at_app. rewrite zlen_stored in Hdata by done.
  change (zlen [_; _]) with 2 in *. set (d := descriptor c) in *.
  pose proof (data_offset_range d). pose proof (byte_len_range d). pose proof (zlen_nonneg (references c)).
  unfold read_raw_cell_from_ptr. rewrite (proj2 (Z.ltb_ge bytes_len 2)) by nia. cbn [negb require_that ubind].
  rewrite (read_at _ _ _ 2 Hd) by done. cbn [ubind].
  change (byte_at [d1 d; d2 d] 0) with (d1 d). change (byte_at [d1 d; d2 d] 1) with (d2 d).
  replace (Descr.new (d1 d) (d2 d)) with d by (by destruct d).
  assert (Descr.is_absent d = false) as -> by apply Hc. cbn [negb require_that ubind].
  assert (Descr.reference_count d = zlen (references c)) as Hrc by apply Hc. cbn zeta. rewrite !Hrc. pose proof (st_refs_max _ _ Hc).
  rewrite (proj2 (Z.ltb_ge _ _)) by done. cbn [negb require_that ubind].
  assert ((if Descr.store_hashes d
     then do! _ := require_that (negb (Descr.is_exotic d && (zlen (references c) =? 0) && (0 <? LevelMask.level (Descr.level_mask d)))) UnnormalizedCell in
          Done ((32 + 2) * (LevelMask.level (Descr.level_mask d) + 1)) else Done 0) = Done (data_offset d)) as E.
  { unfold data_offset. destruct (Descr.store_hashes d) eqn:Eh; [|done].
    destruct (st_hashes _ _ Hc Eh) as [Hex _]. fold d in Hex. destruct Hex as [->|[Hn|Hlv]]; [done| |].
    - rewrite (proj2 (Z.eqb_neq _ _)) by lia. by rewrite andb_false_r.
    - change (LevelMask.level (Descr.level_mask d)) with (level c). rewrite Hlv, Z.ltb_irrefl. by rewrite andb_false_r. }
  rewrite E. cbn [ubind]. rewrite <- Hz. rewrite (proj2 (Z.ltb_ge _ _)) by done. cbn [negb require_that ubind].
  destruct ((0 <? Descr.byte_len d) && negb (Descr.is_aligned d)) eqn:Et; [|by cbn [ubind]].
  apply andb_true_iff in Et as [Hpos%Z.ltb_lt Hal%negb_true_iff].
  pose proof (st_tag _ _ Hc Hal) as Htag. pose proof (st_len _ _ Hc) as Hlen. fold d in Hlen.
  destruct (data c) as [|x l _] eqn:Edata using rev_ind; [unfold zlen in Hlen; simpl in Hlen; lia|].
  rewrite last_snoc in Htag. apply at_app in Hdata as [_ Hx]. rewrite zlen_app in Hlen. change (zlen [x]) with 1 in Hlen.
  replace (offset + (2 + data_offset d + Descr.byte_len d - 1)) with (offset + 2 + data_offset d + zlen l) by lia.
  rewrite (read_at _ _ _ 1 Hx) by done. cbn [ubind]. change (byte_at [x] 0) with x.
  rewrite (proj2 (Z.eqb_neq _ _)) by done. by cbn [negb require_that ubind].
Qed.

(** The children behind the indices of a raw cell. *)
Lemma read_children_at raw ptr (l cells : list Cell) count refs mask :
  at_offset raw ptr (flat_map child_bytes l) -> cell_count h = count -> count < 2 ^ (8 * rs) ->
  (forall x, x ∈ l -> exists i, rev_indices h !! repr_hash x = Some i /\ 0 <= i < count /\ cells !! Z.to_nat i = Some x) ->
  zlen refs + zlen l <= 4 ->
  read_children (length l) raw ptr cells count rs refs mask = Done (refs ++ l, children_mask l mask).
Proof.
  intros Hat Hcnt Hfit. revert ptr refs mask Hat. induction l as [|x l IH]; intros ptr refs mask Hat Hin Hz; simpl.
  { by rewrite app_nil_r. }
  destruct (Hin x ltac:(by left)) as (i & Hi & Hri & Ex).
  simpl in Hat. unfold child_bytes at 1 in Hat. rewrite Hi, Hcnt, be_suffix_eq in Hat by lia.
  assert (2 ^ (8 * rs) <= 2 ^ 32) by (by apply byte_pow).
  unfold u32 in Hat. rewrite wrap_small in Hat by lia.
  rewrite (read_u32_at _ _ _ _ _ Hat) by lia. cbn [ubind].
  rewrite (proj2 (Z.leb_gt _ _)) by lia. cbn [negb require_that ubind].
  replace (count - (count - i - 1) - 1) with i by lia. rewrite Ex.
  pose proof (zlen_nonneg l). assert (zlen (x :: l) = 1 + zlen l) as Hxl by (unfold zlen; simpl; lia). rewrite Hxl in Hz.
  unfold MAX_REF_COUNT. rewrite (proj2 (Z.ltb_lt _ _)) by lia.
  apply at_app in Hat as [_ Hat]. rewrite zlen_be in Hat by lia.
  rewrite IH; [by rewrite <- app_assoc | done | intros; apply Hin; by right | rewrite zlen_app; change (zlen [x]) with 1; lia].
Qed.

(** A raw cell gives back the parts of its cell. *)
Lemma from_raw_cell_at c cells count :
  storable ctx c -> cell_count h = count -> count < 2 ^ (8 * rs) ->
  (forall x, x ∈ references c -> exists i, rev_indices h !! repr_hash x = Some i /\ 0 <= i < count /\ cells !! Z.to_nat i = Some x) ->
  from_raw_cell (encode_cell h rs c) cells count rs = Done (parts_of c).
Proof.
  intros Hc Hcnt Hfit Hin. rewrite encode_cell_eq by done.
  pose proof (at_all ([d1 (descriptor c); d2 (descriptor c)] ++ stored_hashes c ++ data c ++ flat_map child_bytes (references c)))
    as [Hd [Hhs [Hdata Hrefs]%at_app]%at_app]%at_app.
  rewrite zlen_stored in Hdata, Hrefs by done. change (zlen [_; _]) with 2 in *. set (raw := _ ++ _) in *.
  set (d := descriptor c) in *. unfold from_raw_cell. rewrite (read_at _ _ _ 2 Hd) by done. cbn [ubind].
  change (byte_at [d1 d; d2 d] 0) with (d1 d). change (byte_at [d1 d; d2 d] 1) with (d2 d).
  replace (Descr.new (d1 d) (d2 d)) with d by (by destruct d). cbn zeta.
  replace (if Descr.store_hashes d then 2 + (32 + 2) * (LevelMask.level (Descr.level_mask d) + 1) else 2)
    with (0 + 2 + data_offset d) by (unfold data_offset; destruct (Descr.store_hashes d); lia).
  rewrite (read_at _ _ _ _ Hdata) by (symmetry; apply Hc). cbn [ubind].
  assert (Descr.byte_len d = zlen (data c)) as Elen by (symmetry; apply Hc). rewrite Elen.
  assert (Descr.reference_count d = zlen (references c)) as -> by apply Hc. replace (Z.to_nat (zlen (references c))) with (length (references c)) by (unfold zlen; lia).
  rewrite (read_children_at _ _ _ _ _ _ _ Hrefs Hcnt Hfit Hin) by (pose proof (st_refs_max _ _ Hc); unfold MAX_REF_COUNT in *; change (zlen []) with 0; lia).
  cbn [ubind app]. unfold parts_of. rewrite (st_bits _ _ Hc). unfold raw_bit_len. fold d. by rewrite Elen.
Qed.
End Encoded.

(** ** The loops of the decoder *)

Lemma read_cells_at (enc : Cell -> list Z) l data offset rs :
  at_offset data offset (flat_map enc l) -> zlen data < 2 ^ 63 ->
  (forall c offset len, c ∈ l -> at_offset data offset (enc c) -> zlen (enc c) <= len ->
     read_raw_cell_from_ptr data offset len rs = Done (zlen (enc c))) ->
  read_cells (length l) data offset rs = Done (enc <$> l, offset + zlen (flat_map enc l)).
Proof.
  intros Hat Hd Hraw. revert offset Hat. induction l as [|c l IH]; intros offset Hat; simpl.
  { change (zlen []) with 0. by rewrite Z.add_0_r. }
  simpl in Hat. pose proof (at_bounds _ _ _ Hat) as Hb. rewrite zlen_app in Hb.
  pose proof (zlen_nonneg (enc c)). pose proof (zlen_nonneg (flat_map enc l)).
  apply at_app in Hat as [Hc Hl]. rewrite u64_small by lia.
  rewrite (Hraw c) by (done || lia || by left). cbn [ubind].
  rewrite (read_at _ _ _ _ Hc) by done. cbn [ubind]. rewrite u64_small by lia.
  rewrite IH by (done || (intros; apply Hraw; [by right|done..])). cbn [ubind fmap list_fmap].
  do 2 f_equal. rewrite zlen_app. lia.
Qed.

Lemma read_roots_at indices data offset rs count :
  at_offset data offset (flat_map (fun i => be_suffix 4 rs (u32 (count - i - 1))) indices) ->
  zlen data < 2 ^ 63 -> 1 <= rs <= 4 -> count < 2 ^ (8 * rs) -> Forall (fun i => 0 <= i < count) indices ->
  read_roots (length indices) data offset rs count =
    Done ((fun i => count - i - 1) <$> indices, offset + rs * zlen indices).
Proof.
  intros Hat Hd Hrs Hfit HF. revert offset Hat. induction HF as [|i l Hi _ IH]; intros offset Hat; simpl.
  { change (zlen []) with 0. by rewrite Z.mul_0_r, Z.add_0_r. }
  pose proof (byte_pow rs Hrs). simpl in Hat. rewrite be_suffix_eq in Hat by lia.
  unfold u32 in Hat at 1. rewrite wrap_small in Hat by lia.
  pose proof (at_bounds _ _ _ Hat) as Hb. rewrite zlen_app, zlen_be in Hb by lia.
  match type of Hb with context [zlen (flat_map ?f l)] => pose proof (zlen_nonneg (flat_map f l)) end.
  unfold read_next_be_uint_fast. rewrite (read_u32_at _ _ _ _ _ Hat) by lia. cbn [ubind].
  rewrite (proj2 (Z.leb_gt _ _)) by lia. cbn [negb require_that ubind]. rewrite u64_small by lia.
  apply at_app in Hat as [_ Hat]. rewrite zlen_be in Hat by lia. rewrite IH by done. cbn [ubind fmap list_fmap].
  unfold u32. rewrite wrap_small by lia. do 2 f_equal. replace (zlen (i :: l)) with (1 + zlen l) by (unfold zlen; simpl; lia). lia.
Qed.

Section Roundtrip.
Context (ctx : CellContext) (all : list Cell).
Context (Hclosed : forall c child, c ∈ all -> child ∈ references c -> child ∈ all).
Context (Hinj : forall a b, a ∈ all -> b ∈ all -> repr_hash a = repr_hash b -> a = b).
Context (Hstorable : forall c, c ∈ all -> storable ctx c).
Context (Hbound : zlen all < 2 ^ 32).
Context (h : SerHeader) (roots : list Cell) (Hinv : roots_inv all h roots) (Hwithout : without_hashes h = false).
Context (rs : Z) (Hrs : 1 <= rs <= 4) (Hfit : cell_count h < 2 ^ (8 * rs)).

Let Hi : inv all h := ri_inv _ _ _ Hinv.

Lemma child_index i c child : rev_cells h !! i = Some c -> child ∈ references c ->
  exists j, rev_indices h !! repr_hash child = Some j /\ 0 <= j < Z.of_nat i /\ rev_cells h !! Z.to_nat j = Some child.
Proof.
  intros Ec Hch. destruct (inv_topo _ _ Hi i c child Ec Hch) as (j & Hj & Ej). exists (Z.of_nat j). rewrite Nat2Z.id.
  split_and!; [|lia..|done]. apply (inv_index _ _ Hi); [|rewrite Nat2Z.id; split; [lia | done]].
  eapply (inv_all _ _ Hi), list_elem_of_lookup_2, Ej.
Qed.

Lemma children_known c : c ∈ rev_cells h -> forall x, x ∈ references c -> is_Some (rev_indices h !! repr_hash x).
Proof.
  intros [i Ec]%list_elem_of_lookup_1 x Hx. destruct (child_index i c x Ec Hx) as (j & Hj & _). by exists j.
Qed.

Lemma finalize_at processed rest :
  rev_cells h = processed ++ rest ->
  finalize_cells ctx (encode_cell h rs <$> rest) processed (cell_count h) rs = Done (rev_cells h).
Proof.
  revert processed. induction rest as [|c rest IH]; intros processed E; simpl; [by rewrite E, app_nil_r|].
  assert (rev_cells h !! length processed = Some c) as Ec by (rewrite E; by apply list_lookup_middle).
  assert (storable ctx c) as Hc by (by eapply Hstorable, (inv_all _ _ Hi), list_elem_of_lookup_2).
  apply lookup_lt_Some in Ec as Hlt. pose proof (inv_count _ _ Hi) as Hcnt. unfold zlen in Hcnt.
  rewrite (from_raw_cell_at ctx h Hwithout rs Hrs c processed (cell_count h) Hc eq_refl Hfit).
  - cbn [ubind]. rewrite (st_final _ _ Hc). apply IH. by rewrite <- app_assoc.
  - intros x Hx. destruct (child_index _ _ _ Ec Hx) as (j & Hj & Hjr & Ej). exists j. split_and!; [done | lia.. |].
    rewrite E in Ej. apply lookup_app_Some in Ej as [?|[? _]]; [done | lia].
Qed.

Definition encoded_cells : list Z := flat_map (encode_cell h rs) (reverse (rev_cells h)).

Lemma flat_map_sum (f : Cell -> list Z) l : zlen (flat_map f l) = sum_of (fun c => zlen (f c)) l.
Proof. induction l as [|c l IH]; simpl; [done|]. rewrite zlen_app, IH. done. Qed.

Lemma sum_of_ext f g l : (forall c, c ∈ l -> f c = g c) -> sum_of f l = sum_of g l.
Proof.
  unfold sum_of. induction l as [|c l IH]; intros H; simpl; [done|]. rewrite H by (by left). rewrite IH; [done|].
  intros. apply H. by right.
Qed.

Lemma sum_of_rev f l : sum_of f (reverse l) = sum_of f l.
Proof. induction l as [|c l IH]; [done|]. rewrite reverse_cons, sum_of_app, IH, sum_of_one. unfold sum_of. simpl. lia. Qed.

Lemma sum_of_linear f g l a b : sum_of (fun c => a + f c + b * g c) l = a * zlen l + sum_of f l + b * sum_of g l.
Proof. unfold sum_of. induction l as [|c l IH]; simpl; [unfold zlen; simpl; lia|]. rewrite IH. unfold zlen. simpl. lia. Qed.

Lemma level_small d : is_byte (d1 d) -> 0 <= LevelMask.level (Descr.level_mask d) <= 3.
Proof.
  intros Hd. unfold Descr.level_mask, LevelMask.new_unchecked. unfold is_byte in Hd.
  rewrite Z.shiftr_div_pow2 by lia. change (2 ^ 5) with 32.
  pose proof (Zrange_forall (fun m => (0 <=? LevelMask.level m) && (LevelMask.level m <=? 3)) 8 ltac:(by vm_compute)
    (d1 d / 32) ltac:(lia)) as H. simpl in H. apply andb_true_iff in H as [?%Z.leb_le ?%Z.leb_le]. lia.
Qed.

Lemma byte_len_small d : is_byte (d2 d) -> 0 <= Descr.byte_len d <= 128.
Proof.
  intros Hd. unfold is_byte in Hd. unfold Descr.byte_len.
  pose proof (Zrange_forall (fun m => (0 <=? u8 (Z.land m 1 + Z.shiftr m 1)) && (u8 (Z.land m 1 + Z.shiftr m 1) <=? 128)) 256 ltac:(by vm_compute)
    (d2 d) ltac:(lia)) as H. simpl in H. apply andb_true_iff in H as [?%Z.leb_le ?%Z.leb_le]. lia.
Qed.

Lemma data_cost_eq c : storable ctx c -> data_cost false c = Descr.byte_len (descriptor c) + data_offset (descriptor c) /\
  0 <= data_cost false c <= 264 /\ 0 <= refs_cost c <= 4.
Proof.
  intros Hc. pose proof (byte_len_small _ (st_d2 _ _ Hc)). pose proof (level_small _ (st_d1 _ _ Hc)).
  assert (data_cost false c = Descr.byte_len (descriptor c) + data_offset (descriptor c)) as E.
  { unfold data_cost, byte_len_full, data_offset. destruct (Descr.store_hashes _); simpl; [|lia].
    unfold u64. rewrite wrap_small by lia. lia. }
  rewrite E. split_and!; [done | unfold data_offset; destruct (Descr.store_hashes _); lia.. | |].
  - unfold refs_cost. rewrite (st_refs _ _ Hc). apply zlen_nonneg.
  - unfold refs_cost. rewrite (st_refs _ _ Hc). apply Hc.
Qed.

Lemma in_all c : c ∈ rev_cells h -> storable ctx c.
Proof. intros Hc. by apply Hstorable, (inv_all _ _ Hi). Qed.

(** The total the header states is the size of the encoded cells. *)
Lemma encoded_size :
  zlen encoded_cells = total_data_size h + cell_count h * 2 + rs * reference_total h /\
  0 <= total_data_size h <= 264 * cell_count h /\ 0 <= reference_total h <= 4 * cell_count h.
Proof.
  rewrite (inv_data _ _ Hi), (inv_total _ _ Hi), (inv_count _ _ Hi), Hwithout. split_and!.
  - unfold encoded_cells. rewrite flat_map_sum, sum_of_rev.
    rewrite (sum_of_ext _ (fun c => 2 + data_cost false c + rs * refs_cost c)); [rewrite sum_of_linear; lia|].
    intros c Hc. pose proof (in_all c Hc) as Hst. rewrite (zlen_encoded ctx h Hwithout rs Hrs c Hst (children_known c Hc)).
    destruct (data_cost_eq c Hst) as [-> _]. unfold refs_cost. rewrite (st_refs _ _ Hst). lia.
  - apply (sum_of_bounds (data_cost false) (rev_cells h) 0 264). intros c Hc. by apply data_cost_eq, in_all.
  - apply (sum_of_bounds (data_cost false) (rev_cells h) 0 264). intros c Hc. by apply data_cost_eq, in_all.
  - apply (sum_of_bounds refs_cost (rev_cells h) 0 4). intros c Hc. by apply data_cost_eq, in_all.
  - apply (sum_of_bounds refs_cost (rev_cells h) 0 4). intros c Hc. by apply data_cost_eq, in_all.
Qed.
End Roundtrip.

(** ** The whole bag *)

Lemma require_ok data offset len :
  0 <= offset + len <= zlen data -> zlen data < 2 ^ 63 -> require data offset len = true.
Proof. intros Hl Hd. unfold require. rewrite u64_small by lia. apply Z.leb_le. lia. Qed.

(** The flags byte the encoder writes. *)
Definition header_flags (rs : Z) (crc : bool) : Z := Z.lor (u8 rs) (b2z crc * 0x40).

Lemma header_flags_decoded rs crc : 1 <= rs <= 4 -> tag_flags Generic (header_flags rs crc) = mkFlags false crc false rs true.
Proof.
  intros Hrs. assert (rs = 1 \/ rs = 2 \/ rs = 3 \/ rs = 4) as Hc by lia.
  destruct Hc as [-> | [-> | [-> | ->]]]; by destruct crc.
Qed.

(** The number of roots a decoder with these options takes. *)
Definition roots_allowed (options : DeOptions) (n : Z) : Prop :=
  default 0 (min_roots options) <= n <= default MAX_ROOTS (max_roots options).

Lemma check_roots_ok options rs crc count n :
  1 <= n <= count -> count < 2 ^ 32 -> roots_allowed options n ->
  check_roots options (mkFlags false crc false rs true) count n 0 = Done tt.
Proof.
  intros Hn Hc [Hmin Hmax]. unfold check_roots, saturating_add. cbn [supports_multiple_roots negb andb].
  rewrite (proj2 (Z.eqb_neq n 0)) by lia. cbn [negb require_that ubind].
  rewrite Z.min_r by lia. rewrite (proj2 (Z.ltb_ge count _)) by lia. change (0 <? 0) with false. cbn [negb require_that ubind].
  rewrite (proj2 (Z.ltb_ge _ n)) by done.
  destruct (min_roots options) as [m|]; cbn [default] in *; [rewrite (proj2 (Z.ltb_ge n m)) by done|]; done.
Qed.

Lemma check_total_size_ok total count n rs D R :
  1 <= rs <= 4 -> 0 <= n <= count -> count < 2 ^ 32 -> total = D + count * 2 + rs * R ->
  0 <= D <= 264 * count -> count - n <= R <= 4 * count -> check_total_size total count n rs = Done tt.
Proof.
  intros Hrs Hn Hc -> HD HR. unfold check_total_size, MIN_CELL_SIZE, MAX_REF_COUNT. cbv zeta.
  assert (0 <= rs * R <= 4 * (4 * count)) by nia. assert (rs * (count - n) <= rs * R) by nia.
  assert (rs * R <= 4 * rs * count) by nia. assert (0 <= count * rs <= 4 * count) by nia. assert (0 <= n * rs <= count * rs) by nia.
  rewrite (u64_small (count * (2 + rs))), (u64_small (n * rs)) by nia. rewrite u64_small by nia.
  rewrite (proj2 (Z.ltb_ge _ (count * (2 + rs) - n * rs))) by nia. cbn [negb require_that ubind].
  rewrite u64_small by nia. rewrite (proj2 (Z.ltb_ge _ _)) by nia. done.
Qed.

(** Reading the next integer of the header moves to the next offset. *)
Lemma read_next_at data o size v next :
  at_offset data o (to_be_bytes size v) -> zlen data < 2 ^ 63 -> 1 <= size <= 4 -> 0 <= v < 2 ^ (8 * size) ->
  next = o + size -> read_next_be_uint_fast data o size = Done (v, next).
Proof.
  intros H Hd Hs Hv ->. pose proof (at_bounds _ _ _ H) as Hb. rewrite zlen_be in Hb by lia.
  unfold read_next_be_uint_fast. rewrite <- (app_nil_r (to_be_bytes _ _)) in H.
  rewrite (read_u32_at _ _ _ _ _ H) by lia. cbn [ubind]. by rewrite u64_small by lia.
Qed.

Lemma read_next_full_at data o size v next :
  at_offset data o (to_be_bytes size v) -> zlen data < 2 ^ 63 -> 1 <= size <= 8 -> 0 <= v < 2 ^ (8 * size) ->
  next = o + size -> read_next_be_uint_full data o size = Done (v, next).
Proof.
  intros H Hd Hs Hv ->. pose proof (at_bounds _ _ _ H) as Hb. rewrite zlen_be in Hb by lia.
  unfold read_next_be_uint_full. rewrite (read_u64_at _ _ _ _ H) by lia. cbn [ubind]. by rewrite u64_small by lia.
Qed.

Section Bag.
Context (ctx : CellContext) (crc32c : list Z -> Z) (Hcrc : forall l, 0 <= crc32c l < 2 ^ 32).
Context (all : list Cell).
Context (Hclosed : forall c child, c ∈ all -> child ∈ references c -> child ∈ all).
Context (Hinj : forall a b, a ∈ all -> b ∈ all -> repr_hash a = repr_hash b -> a = b).
Context (Hstorable : forall c, c ∈ all -> storable ctx c).
Context (Hbound : zlen all < 2 ^ 32).
Context (h : SerHeader) (roots : list Cell) (Hinv : roots_inv all h roots) (Hwithout : without_hashes h = false).
Context (Hroots : 1 <= zlen roots <= cell_count h).

Let Hi : inv all h := ri_inv _ _ _ Hinv.
Let rs : Z := ref_size (compute_stats h).
Let os : Z := offset_size (compute_stats h).
Let total : Z := total_cells_size (compute_stats h).
Let cells : list Z := encoded_cells h rs.

Lemma count_range : 1 <= cell_count h < 2 ^ 32.
Proof. pose proof (inv_small all h Hi). rewrite (inv_count _ _ Hi) in *. lia. Qed.

Lemma rs_range : 1 <= rs <= 4 /\ cell_count h < 2 ^ (8 * rs).
Proof. apply (bytes_to_fit (cell_count h) 4); [apply count_range | lia]. Qed.

Lemma size_facts :
  zlen cells = total_data_size h + cell_count h * 2 + rs * reference_total h /\
  0 <= total_data_size h <= 264 * cell_count h /\ 0 <= reference_total h <= 4 * cell_count h.
Proof. destruct rs_range. by apply (encoded_size ctx all Hstorable h roots). Qed.

Lemma total_eq : total = zlen cells.
Proof.
  destruct size_facts as (E & ? & ?). pose proof count_range. destruct rs_range as [? _].
  rewrite E. apply u64_small. fold rs. nia.
Qed.

Lemma total_range : 2 <= total < 2 ^ 48.
Proof. rewrite total_eq. destruct size_facts as (-> & ? & ?). pose proof count_range. destruct rs_range as [? _]. nia. Qed.

Lemma os_range : 1 <= os <= 8 /\ total < 2 ^ (8 * os).
Proof. apply (bytes_to_fit total 8); [|lia]. pose proof total_range. lia. Qed.

Lemma roots_len : zlen (root_rev_indices h) = zlen roots.
Proof. unfold zlen. by rewrite (Forall2_length (ri_roots _ _ _ Hinv)). Qed.

Lemma roots_bounded : Forall (fun i => 0 <= i < cell_count h) (root_rev_indices h).
Proof.
  apply Forall_lookup. intros k i Ek.
  destruct (Forall2_lookup_l _ _ _ _ _ (ri_roots _ _ _ Hinv) Ek) as (r & _ & H0 & E%lookup_lt_Some).
  rewrite (inv_count _ _ Hi). unfold zlen. lia.
Qed.

Lemma encode_header_eq :
  encode_header h = BocTags.GENERIC ++ [header_flags rs (include_crc h); u8 os] ++
    to_be_bytes rs (cell_count h) ++ to_be_bytes rs (zlen roots) ++ to_be_bytes rs 0 ++ to_be_bytes os total ++
    flat_map (fun i => be_suffix 4 rs (u32 (cell_count h - i - 1))) (root_rev_indices h).
Proof.
  destruct rs_range as [Hrs _]. destruct os_range as [Hos _]. pose proof count_range.
  unfold encode_header. fold rs os total. rewrite roots_len. unfold u32 at 1. rewrite wrap_small by lia.
  rewrite !be_suffix_eq by lia. do 5 f_equal. assert (rs = 1 \/ rs = 2 \/ rs = 3 \/ rs = 4) as Hc by lia.
  destruct Hc as [-> | [-> | [-> | ->]]]; reflexivity.
Qed.

Lemma bag_eq : encode crc32c h [] = (encode_header h ++ cells) ++
  if include_crc h then to_le_bytes4 (crc32c (encode_header h ++ cells)) else [].
Proof.
  unfold encode, encode_crc. change (zlen []) with 0. cbn [app Z.to_nat drop]. fold rs.
  destruct (include_crc h); [done | by rewrite app_nil_r].
Qed.

(** Where the pieces of the bag are. *)
Lemma bag_pieces data : data = encode crc32c h [] ->
  at_offset data 0 BocTags.GENERIC /\ at_offset data 4 [header_flags rs (include_crc h); u8 os] /\
  at_offset data 6 (to_be_bytes rs (cell_count h)) /\ at_offset data (6 + rs) (to_be_bytes rs (zlen roots)) /\
  at_offset data (6 + 2 * rs) (to_be_bytes rs 0) /\ at_offset data (6 + 3 * rs) (to_be_bytes os total) /\
  at_offset data (6 + 3 * rs + os)
    (flat_map (fun i => be_suffix 4 rs (u32 (cell_count h - i - 1))) (root_rev_indices h)) /\
  at_offset data (6 + 3 * rs + os + rs * zlen roots) cells /\
  exists body, at_offset data 0 body /\ zlen body = 6 + 3 * rs + os + rs * zlen roots + total /\
    at_offset data (zlen body) (if include_crc h then to_le_bytes4 (crc32c body) else []) /\
    zlen data = zlen body + b2z (include_crc h) * 4.
Proof.
  intros Ed. rewrite bag_eq in Ed. pose proof (at_all data) as Hat. rewrite Ed in Hat at 2.
  assert (zlen data = zlen (encode_header h ++ cells) + b2z (include_crc h) * 4) as Hlen.
  { rewrite Ed, zlen_app. f_equal. destruct (include_crc h); [|done].
    unfold to_le_bytes4, zlen. by rewrite length_reverse. }
  clear Ed. destruct rs_range as [Hrs Hfit]. destruct os_range as [Hos _].
  apply at_app in Hat as [Hbody Hsum]. pose proof Hbody as [Hh Hcells]%at_app.
  assert (zlen (flat_map (fun i => be_suffix 4 rs (u32 (cell_count h - i - 1))) (root_rev_indices h)) = rs * zlen roots) as Hzr.
  { rewrite (zlen_flat_map _ _ rs), roots_len; [done|]. intros i _. rewrite be_suffix_eq by lia. apply zlen_be. lia. }
  assert (zlen (encode_header h) = 6 + 3 * rs + os + rs * zlen roots) as Hzh.
  { rewrite encode_header_eq, !zlen_app, !zlen_be, Hzr by lia. change (zlen BocTags.GENERIC) with 4. change (zlen [_; _]) with 2. lia. }
  rewrite encode_header_eq in Hh.
  apply at_app in Hh as [H1 [H2 [H3 [H4 [H5 [H6 H7]%at_app]%at_app]%at_app]%at_app]%at_app].
  change (zlen BocTags.GENERIC) with 4 in *. change (zlen [_; _]) with 2 in *. rewrite !zlen_be in * by lia.
  split_and!; try (by eapply at_eq; [eassumption | lia]).
  exists (encode_header h ++ cells). split_and!; [done | rewrite zlen_app, total_eq; lia | | done].
  by eapply at_eq; [exact Hsum | lia].
Qed.

Lemma check_crc_at data body :
  at_offset data 0 body -> at_offset data (zlen body) (to_le_bytes4 (crc32c body)) ->
  check_crc crc32c data (zlen body) = Done true.
Proof.
  intros Hb Hs. unfold check_crc. rewrite (read_at _ _ _ 4 Hs) by (unfold to_le_bytes4, zlen; by rewrite length_reverse).
  cbn [ubind]. rewrite (read_at _ _ _ _ Hb) by done. cbn [ubind]. unfold from_le_bytes, to_le_bytes4.
  rewrite reverse_involutive, from_to_be by (pose proof (Hcrc body); lia). by rewrite Z.eqb_refl.
Qed.

Lemma read_cells_bag data offset :
  at_offset data offset cells -> zlen data < 2 ^ 63 ->
  read_cells (Z.to_nat (cell_count h)) data offset rs = Done (encode_cell h rs <$> reverse (rev_cells h), offset + total).
Proof.
  intros Hat Hd. destruct rs_range as [Hrs _]. rewrite (inv_count _ _ Hi), total_eq.
  replace (Z.to_nat (zlen (rev_cells h))) with (length (reverse (rev_cells h))) by (rewrite length_reverse; unfold zlen; lia).
  apply read_cells_at; [done..|]. intros c o len Hc Hco Hle. rewrite elem_of_reverse in Hc. apply (read_raw_cell_at ctx h Hwithout rs Hrs); [| |done..].
  - by apply (in_all ctx all Hstorable h roots Hinv).
  - by apply (children_known all h roots Hinv rs).
Qed.

Lemma decode_bag options : roots_allowed options (zlen roots) ->
  cell_count h - zlen roots <= reference_total h ->
  decode crc32c (encode crc32c h []) options =
    Done (mkDeHeader rs (encode_cell h rs <$> reverse (rev_cells h)) ((fun i => cell_count h - i - 1) <$> root_rev_indices h)).
Proof.
  intros Hopt Href. remember (encode crc32c h []) as data eqn:Ed.
  destruct (bag_pieces data Ed) as (H1 & H2 & H3 & H4 & H5 & H6 & H7 & H8 & body & H9 & Hbody & Hsum & Hlen). clear Ed.
  pose proof count_range as Hcnt. destruct rs_range as [Hrs Hfit]. destruct os_range as [Hos Hofit]. pose proof total_range as Htot.
  assert (0 <= b2z (include_crc h) <= 1) as Hb by (destruct (include_crc h); simpl; lia).
  assert (rs * 1 <= rs * zlen roots <= 4 * 2 ^ 32) as Hrn by nia.
  assert (zlen data < 2 ^ 63) as Hd by lia. assert (0 <= 8 * rs) by lia. pose proof (Z.pow_pos_nonneg 2 (8 * rs) ltac:(lia) ltac:(lia)).
  unfold decode. rewrite require_ok by lia. cbn [require_that ubind].
  rewrite (read_at _ _ _ 2 H2) by done. cbn [ubind]. unfold read_boc_tag. rewrite (read_at _ _ _ 4 H1) by done. cbn [ubind].
  change (BocTags.from_bytes BocTags.GENERIC) with (Some Generic). cbv iota zeta.
  change (byte_at [header_flags rs (include_crc h); u8 os] 0) with (header_flags rs (include_crc h)).
  change (byte_at [header_flags rs (include_crc h); u8 os] 1) with (u8 os).
  rewrite header_flags_decoded by done. assert (u8 os = os) as -> by (unfold u8; apply wrap_small; lia).
  cbn [has_cache_bits has_index has_crc f_ref_size supports_multiple_roots andb negb require_that ubind b2z].
  rewrite (proj2 (Z.eqb_neq rs 0)), (proj2 (Z.ltb_ge 4 rs)) by lia. cbn [orb negb require_that ubind].
  rewrite (proj2 (Z.eqb_neq os 0)), (proj2 (Z.ltb_ge 8 os)) by lia. cbn [orb negb require_that ubind].
  rewrite require_ok by lia. cbn [require_that ubind].
  rewrite (read_next_at _ _ _ _ (6 + rs) H3) by lia. cbn [ubind].
  rewrite (read_next_at _ _ _ _ (6 + 2 * rs) H4) by lia. cbn [ubind].
  rewrite (read_next_at _ _ _ _ (6 + 3 * rs) H5) by lia. cbn [ubind].
  rewrite check_roots_ok by (done || lia). cbn [ubind].
  rewrite (read_next_full_at _ _ _ _ (6 + 3 * rs + os) H6) by lia. cbn [ubind].
  destruct size_facts as (Hsz & HD & HR).
  rewrite (check_total_size_ok _ _ _ _ (total_data_size h) (reference_total h)) by (rewrite ?total_eq; lia). cbn [ubind].
  rewrite require_ok by (rewrite ?u64_small by lia; lia). cbn [require_that ubind].
  replace (Z.to_nat (zlen roots)) with (length (root_rev_indices h)) by (rewrite <- roots_len; unfold zlen; lia).
  rewrite (read_roots_at _ _ _ _ _ H7) by (done || apply roots_bounded). cbn [ubind]. rewrite roots_len.
  rewrite Z.mul_0_l. change (u64 0) with 0. rewrite Z.add_0_l.
  rewrite require_ok by (rewrite ?u64_small by lia; lia). cbn [require_that ubind].
  rewrite (read_cells_bag _ _ H8 Hd). cbn [ubind]. unfold saturating_add. rewrite Z.min_r by lia.
  rewrite Z.eqb_refl. cbn [require_that ubind]. rewrite <- Hbody.
  destruct (include_crc h); [|done]. rewrite require_ok by (simpl in Hlen; lia). cbn [require_that ubind].
  by rewrite check_crc_at by done.
Qed.
End Bag.

(** * The cells the builder makes can be stored

    Every cell that [build_ext] finalizes with the empty context, ordinary or exotic,
    gives back the parts it was made of, and its raw form passes the checks of the
    decoder. *)

(** A tagged last byte: the tag is its lowest bit set, and not the highest bit. *)
Lemma tagged_byte x t :
  is_byte x -> 0 <= t <= 6 ->
  let y := Z.lor (Z.land x (unot 8 (u8 (Z.shiftl 1 t) - 1))) (u8 (Z.shiftl 1 t)) in
  trailing_zeros 8 y = t /\ Z.land y 0x7f <> 0.
Proof.
  intros Hx Ht y. unfold is_byte in Hx.
  assert ((trailing_zeros 8 y =? t) && negb (Z.land y 0x7f =? 0) = true) as H.
  { pose proof (Zrange_forall (fun x => forallb (fun t =>
      let y := Z.lor (Z.land x (unot 8 (u8 (Z.shiftl 1 t) - 1))) (u8 (Z.shiftl 1 t)) in
      (trailing_zeros 8 y =? t) && negb (Z.land y 0x7f =? 0)) (seqZ 0 7)) 256 ltac:(by vm_compute) x ltac:(lia)) as H.
    by apply (Zrange_forall _ 7 H t ltac:(lia)). }
  apply andb_true_iff in H as [?%Z.eqb_eq ?%negb_true_iff%Z.eqb_neq]. done.
Qed.

Lemma last_sub l n : 0 < n <= zlen l -> list.last (sub_bytes l 0 n) = Some (byte_at l (n - 1)).
Proof.
  intros Hn. unfold sub_bytes, byte_at, zlen in *. rewrite drop_0, last_lookup, length_take, lookup_take_lt by lia.
  replace (pred (Z.to_nat n `min` length l)) with (Z.to_nat (n - 1)) by lia.
  destruct (lookup_lt_is_Some_2 l (Z.to_nat (n - 1))) as [x ->]; [lia | done].
Qed.

Lemma d1_level_byte d : 0 <= d1 d < 256 -> (Z.land (d1 d) Descr.LEVEL_MASK =? 0) = (Descr.level_mask d =? 0).
Proof.
  intros Hd. unfold Descr.level_mask, LevelMask.new_unchecked. apply eqb_true_iff.
  apply (Zrange_forall (fun x => eqb (Z.land x Descr.LEVEL_MASK =? 0) (Z.shiftr x 5 =? 0)) 256); [by vm_compute | lia].
Qed.

Lemma childless_type d (library : bool) :
  0 <= d1 d < 256 -> Descr.cell_type d = (if library then LibraryReference else PrunedBranch) ->
  Descr.is_exotic d = true /\ Descr.reference_count d = 0 /\ (Descr.level_mask d =? 0) = library.
Proof.
  intros Hd. unfold Descr.cell_type, Descr.is_exotic, Descr.reference_count. rewrite d1_level_byte by done.
  destruct (Z.land (d1 d) Descr.IS_EXOTIC_MASK =? 0); [by destruct library|].
  destruct (Z.eqb_spec (Z.land (d1 d) Descr.REF_COUNT_MASK) 0) as [E|_];
    [|destruct (Z.land (d1 d) Descr.REF_COUNT_MASK =? 1); by destruct library].
  destruct (Descr.level_mask d =? 0); by destruct library.
Qed.

Lemma iter_refs_none f n i : f i = None -> iter_refs f n i = [].
Proof. intros H. destruct n; simpl; [done | by rewrite H]. Qed.

Section Built.
Context (sha256 : list Z -> HashBytes).
Context (b : CellBuilder) (Hb : builder_wf b) (Hrefs : Forall d1_ok (b_refs b)).
Let n := DataBuilder.bit_len (inner b).
Let p := build_parts b.
Let d := p_descriptor p.

Lemma built_descriptor :
  Descr.level_mask d = build_level_mask (b_exotic b) (inner b) (p_children_mask p) /\
  LevelMask.wf (p_children_mask p) /\ LevelMask.wf (Descr.level_mask d) /\
  Descr.is_exotic d = b_exotic b /\ Descr.reference_count d = zlen (b_refs b) /\ Descr.store_hashes d = false /\
  Descr.byte_len d = div_ceil n 8 /\ Descr.is_aligned d = (n mod 8 =? 0) /\ 0 <= n <= 1023.
Proof.
  destruct Hb as [Hd Hr]. destruct Hd as (_ & Hby & Hn & _). unfold MAX_REF_COUNT, MAX_BIT_LEN in *.
  pose proof (zlen_nonneg (b_refs b)). set (children_mask := p_children_mask p).
  assert (LevelMask.wf children_mask) as Hm by (by apply children_mask_ok).
  assert (LevelMask.wf (build_level_mask (b_exotic b) (inner b) children_mask)) as Hlm.
  { unfold build_level_mask. destruct (_ && _); [|done]. destruct (CellTypes.from_byte_exotic _) as [[]|]; try done.
    - apply new_wf. by apply byte_at_range.
    - by apply virtualize_wf.
    - by apply virtualize_wf. }
  unfold d, p, build_parts, p_descriptor. fold n children_mask. rewrite u8_small by lia. fold n in Hn.
  match goal with |- context [Descr.new ?x ?y] =>
    destruct (compute_d1_fields (build_level_mask (b_exotic b) (inner b) children_mask) (b_exotic b) (zlen (b_refs b)) y Hlm ltac:(lia))
      as (E1 & E2 & E3 & E4); destruct (compute_d2_fields n x ltac:(lia)) as (E5 & E6) end.
  split_and!; first [done | by rewrite E1 | lia | idtac].
  change (LevelMask.wf (Descr.level_mask (Descr.new (Descr.compute_d1 (build_level_mask (b_exotic b) (inner b) children_mask)
    (b_exotic b) (zlen (b_refs b))) (Descr.compute_d2 n)))). by rewrite E1.
Qed.

Lemma built_bytes : is_byte (d1 d) /\ is_byte (d2 d).
Proof.
  unfold d, p, build_parts. cbn [p_descriptor Descr.new d1 d2]. unfold is_byte. split.
  - unfold Descr.compute_d1. apply (lor_range 8); [lia | apply (lor_range 8); [lia | apply u8_byte |] | apply (land_range 8); [lia | apply u8_byte | done]].
    destruct (b_exotic b); [change (Z.shiftl _ _) with 8 | change (Z.shiftl _ _) with 0]; lia.
  - unfold Descr.compute_d2. apply (lor_range 8); [lia | apply (land_range 8); [lia | apply u8_byte | done] |].
    destruct (negb _); simpl; lia.
Qed.

(** The parts give the length back. *)
Lemma built_tag :
  n = raw_bit_len d (p_data p) /\
  (Descr.is_aligned d = false -> match list.last (p_data p) with Some x => Z.land x 0x7f <> 0 | None => True end).
Proof.
  destruct built_descriptor as (_ & _ & _ & _ & _ & _ & Hbl & Hal & Hn). destruct Hb as [Hd _].
  pose proof (tag_last_byte_spec (inner b) Hd) as [H128 _]. destruct Hd as (Hz & Hby & _).
  unfold raw_bit_len. rewrite Hal, Hbl. destruct (Z.eqb_spec (n mod 8) 0) as [E|E].
  { split; [|done]. unfold u16. rewrite wrap_small by dlia. unfold div_ceil. lia. }
  assert (p_data p = sub_bytes (tag_last_byte (inner b)) 0 (div_ceil n 8)) as ->.
  { unfold p, build_parts, p_data. fold n. by rewrite Z.min_l by dlia. }
  rewrite last_sub by (rewrite H128; dlia). replace (div_ceil n 8 - 1) with (n / 8) by dlia.
  unfold tag_last_byte. fold n. rewrite (proj2 (Z.ltb_lt 0 (n mod 8))) by lia.
  rewrite byte_at_set, Z.eqb_refl by dlia.
  destruct (tagged_byte (byte_at (DataBuilder.data (inner b)) (n / 8)) (7 - n mod 8)) as [E1 E2]; [by apply byte_at_range | lia |].
  rewrite E1. split; [|done]. unfold u16.
  rewrite (wrap_small 16 (div_ceil n 8)), (wrap_small 16 (div_ceil n 8 * 8)), wrap_small by dlia. dlia.
Qed.

Context (hashes : list (HashBytes * Z)) (Hh : compute_hashes sha256 p = Ok hashes).

Lemma built_exotic : Descr.is_exotic d = true -> exotic_valid p.
Proof.
  intros Hex. unfold compute_hashes in Hh. destruct (_ <? _); [done|].
  destruct (validate_type p) as [[ty mask]|] eqn:E; [|done]. cbn [rbind] in Hh.
  destruct (Z.eqb_spec mask (Descr.level_mask (p_descriptor p))); [|done]. by eapply validate_exotic.
Qed.

Lemma ordinary_fields : let c := OrdinaryCell (p_bit_len p) hashes d (p_references p) (p_data p) in
  descriptor c = d /\ data c = p_data p /\ bit_len c = n /\ references c = b_refs b.
Proof.
  destruct built_descriptor as (_ & _ & _ & _ & Hrc & _ & Hbl & _ & Hn). destruct (parts_data b Hb) as (Hz & _). intros c. split_and!; try done.
  - change (data c) with (sub_bytes (p_data p) 0 (Descr.byte_len d)). rewrite Hbl. fold p n in Hz. rewrite <- Hz.
    unfold sub_bytes. rewrite drop_0. apply take_ge. unfold zlen. lia.
  - unfold references, refs_window. change (reference_count c) with (Descr.reference_count d).
    rewrite Hrc, Z.sub_0_r. unfold zlen. rewrite Nat2Z.id. apply iter_refs_list. intros i Hi.
    change (reference c i) with (header_reference d (b_refs b) i). unfold header_reference.
    rewrite Hrc, (proj2 (Z.ltb_lt _ _)); [done | unfold zlen; lia].
Qed.

(** What a finalized cell keeps of its parts. *)
Lemma built_fields : let c := make_cell p hashes in
  descriptor c = d /\ data c = p_data p /\ bit_len c = n /\ references c = b_refs b.
Proof.
  destruct built_descriptor as (_ & _ & _ & Hex & Hrc & _ & Hbl & _ & Hn). destruct (parts_data b Hb) as (Hz & _).
  fold p n in Hz. pose proof ordinary_fields as Hord. cbn zeta in *. unfold make_cell. fold d.
  destruct (Descr.cell_type d) eqn:Et; try done.
  - destruct ((d1 d =? 0) && (d2 d =? 0)) eqn:E; [|done]. apply andb_true_iff in E as [E1%Z.eqb_eq E2%Z.eqb_eq].
    unfold Descr.reference_count in Hrc. rewrite E1 in Hrc. unfold Descr.byte_len in Hbl. rewrite E2 in Hbl.
    change (u8 (Z.land 0 1 + Z.shiftr 0 1)) with 0 in Hbl. change (Z.land 0 Descr.REF_COUNT_MASK) with 0 in Hrc.
    rewrite (zlen_0 (p_data p)) by lia. rewrite (zlen_0 (b_refs b)) by lia.
    split_and!; [by destruct d; simpl in *; subst | done | simpl; dlia | done].
  - destruct (childless_type d false) as (Hx & H0 & Hm); [apply built_bytes | done |]. rewrite Hrc in H0.
    pose proof (built_exotic Hx) as Hv. unfold exotic_valid in Hv. change (p_descriptor p) with d in Hv.
    change (p_references p) with (b_refs b) in Hv. change (p_bit_len p) with n in Hv.
    destruct (CellTypes.from_byte_exotic _) as [[]|]; try done.
    + destruct Hv as (_ & Hlen & Hr & _). split_and!; [done | | | rewrite Hr; by apply iter_refs_none].
      * cbn [data]. rewrite Hbl, <- Hz. unfold sub_bytes. rewrite drop_0. apply take_ge. unfold zlen. lia.
      * cbn [bit_len]. unfold u16. rewrite wrap_small by lia. lia.
    + destruct Hv as (Hv & _). by rewrite Hv in Hm.
    + destruct Hv as (_ & _ & ? & Hr & _). rewrite Hr in H0. done.
    + destruct Hv as (_ & _ & ? & ? & Hr & _). rewrite Hr in H0. done.
  - destruct (childless_type d true) as (Hx & H0 & Hm%Z.eqb_eq); [apply built_bytes | done |]. rewrite Hrc in H0.
    pose proof (built_exotic Hx) as Hv. unfold exotic_valid in Hv. change (p_descriptor p) with d in Hv.
    change (p_references p) with (b_refs b) in Hv. change (p_bit_len p) with n in Hv.
    destruct (CellTypes.from_byte_exotic _) as [[]|]; try done.
    + destruct Hv as (Hl & _). by rewrite Hm in Hl.
    + destruct Hv as (_ & Hlen & Hr). split_and!; [done | | done | rewrite Hr; by apply iter_refs_none].
      cbn [data]. assert (zlen (p_data p) = 33) as H33 by (rewrite Hz, Hlen; done).
      unfold sub_bytes. rewrite drop_0. apply take_ge. unfold zlen in H33. lia.
    + destruct Hv as (_ & _ & ? & Hr & _). rewrite Hr in H0. done.
    + destruct Hv as (_ & _ & ? & ? & Hr & _). rewrite Hr in H0. done.
Qed.

Lemma built_cell_storable : storable (empty_context sha256) (make_cell p hashes).
Proof.
  destruct built_descriptor as (_ & _ & _ & Hex & Hrc & Hsh & Hbl & Hal & Hn). destruct (parts_data b Hb) as (Hz & Hby & _).
  destruct built_bytes as [Hb1 Hb2]. destruct built_tag as [Hlen Htag]. destruct built_fields as (Ed & Edat & Ebl & Er).
  assert (parts_of (make_cell p hashes) = p) as Ep by (unfold parts_of; by rewrite Ed, Edat, Ebl, Er).
  split; rewrite ?Ed, ?Edat, ?Ebl, ?Er, ?Ep; try done.
  - by rewrite Hbl.
  - apply Hb.
  - unfold Descr.is_absent. apply Z.eqb_neq. intros E. unfold Descr.store_hashes in Hsh.
    apply negb_false_iff, Z.eqb_eq in Hsh. apply (f_equal (fun x => Z.testbit x 4)) in E, Hsh.
    rewrite Z.land_spec in E, Hsh. change (Z.testbit Descr.ABSENT_MASK 4) with true in E.
    change (Z.testbit Descr.STORE_HASHES_MASK 4) with true in Hsh. change (Z.testbit 0 4) with false in Hsh.
    rewrite andb_true_r in Hsh. by rewrite Hsh in E.
  - intros E. by rewrite Hsh in E.
  - cbn [finalize_cell empty_context]. by rewrite Hh.
Qed.
End Built.

(** The first byte of any cell made is a byte. *)
Lemma make_cell_d1 b hashes : d1_ok (make_cell (build_parts b) hashes).
Proof.
  pose proof (built_bytes b) as [H _]. unfold make_cell.
  destruct (Descr.cell_type _); [destruct (_ && _)|..]; exact H || done.
Qed.

Lemma built_storable sha256 b c :
  builder_wf b -> Forall d1_ok (b_refs b) -> build_ext (empty_context sha256) b = Ok c ->
  storable (empty_context sha256) c /\ references c = b_refs b.
Proof.
  intros Hb Hr. unfold build_ext. cbn [finalize_cell empty_context].
  destruct (compute_hashes sha256 (build_parts b)) as [hashes|] eqn:E; [|done]. intros [= <-].
  split; [by apply built_cell_storable | by apply (built_fields sha256)].
Qed.
