(* ===== verification/BocTheorems.v ===== *)
(** * BocTheorems: a bag of cells is decoded to the cells it was made of

    For the encoder's list of roots in general, and end to end for the cells the
    builder makes. *)

From stdpp Require Import gmap.
From S2P Require Import Prelude Bits DataBuilder DataBuilderSpec CellMeta Cell Slice SliceSpec Builder BuilderSpec Context CellTheorems BocSer BocDe BocSafe BocFill BocRoundtrip.

(** Cells closed under references, told apart by their hashes, few enough for 32-bit
    indices, each in the form the context finalizes to. *)
Record bag_of (ctx : CellContext) (all : list Cell) : Prop := {
  bag_closed : forall c child, c ∈ all -> child ∈ references c -> child ∈ all;
  bag_injective : forall a b, a ∈ all -> b ∈ all -> repr_hash a = repr_hash b -> a = b;
  bag_storable : forall c, c ∈ all -> storable ctx c;
  bag_small : zlen all < 2 ^ 32;
}.

(** The same for cells that come from builders. *)
Record built_bag (sha256 : list Z -> HashBytes) (all : list Cell) : Prop := {
  built_from : forall c, c ∈ all -> exists b, builder_wf b /\ build_ext (empty_context sha256) b = Ok c /\
    Forall (fun r => r ∈ all) (b_refs b);
  built_injective : forall a b, a ∈ all -> b ∈ all -> repr_hash a = repr_hash b -> a = b;
  built_small : zlen all < 2 ^ 32;
}.

Lemma processed_get_at cells i c :
  zlen cells < 2 ^ 32 -> 0 <= i -> cells !! Z.to_nat i = Some c -> processed_get cells (zlen cells - i - 1) = Some c.
Proof.
  intros Hs Hi E. apply lookup_lt_Some in E as Hlt. assert (i < zlen cells) as Hl by (unfold zlen; lia).
  unfold processed_get. replace (zlen cells - (zlen cells - i - 1)) with (i + 1) by lia.
  rewrite (u64_small (i + 1)) by lia. replace (i + 1 - 1) with i by lia. rewrite u64_small by lia.
  by rewrite (proj2 (Z.ltb_lt _ _)) by done.
Qed.

(** The bag with these roots, decoded. *)
Lemma bag_decoded ctx crc32c all roots crc options :
  (forall l, 0 <= crc32c l < 2 ^ 32) -> bag_of ctx all -> Forall (fun r => r ∈ all) roots -> NoDup roots ->
  0 < zlen roots -> roots_allowed options (zlen roots) ->
  exists header cells,
    decode crc32c (encode crc32c (foldl add_root (with_crc ser_default crc) roots) []) options = Done header /\
    finalize ctx header = Done cells /\ processed_get cells <$> de_roots header = Some <$> roots.
Proof.
  intros Hcrc [Hclosed Hinj Hst Hsmall] Hin Hnd Hne Hopt.
  set (h := foldl add_root (with_crc ser_default crc) roots).
  assert (roots_inv all h roots) as Hinv.
  { apply (add_roots_inv all Hclosed Hinj (fun c Hc => st_refs ctx c (Hst c Hc)) Hsmall _ []); [|done].
    apply default_inv. }
  assert (without_hashes h = false) as Hw.
  { clear. unfold h. assert (without_hashes (with_crc ser_default crc) = false) as H by done. revert H.
    generalize (with_crc ser_default crc). induction roots as [|r l IH]; intros h0 H; simpl; [done|].
    apply IH. by rewrite add_root_without. }
  pose proof (ri_inv _ _ _ Hinv) as Hi. pose proof (inv_count _ _ Hi) as Hcnt. pose proof (inv_small _ _ Hi) as Hle.
  assert (zlen roots <= cell_count h) as Hrc.
  { rewrite Hcnt. unfold zlen. apply Nat2Z.inj_le, submseteq_length, NoDup_submseteq; [done|].
    intros r [i Er]%list_elem_of_lookup_1.
    destruct (Forall2_lookup_r _ _ _ _ _ (ri_roots _ _ _ Hinv) Er) as (j & _ & _ & Ej). by eapply list_elem_of_lookup_2. }
  assert (1 <= zlen roots <= cell_count h) as Hroots by lia. clearbody h.
  eexists _, (rev_cells h). split_and!.
  - eapply (decode_bag ctx crc32c Hcrc all Hst Hsmall h roots Hinv Hw Hroots _ Hopt).
    rewrite Hcnt. apply (ri_refs _ _ _ Hinv).
  - unfold finalize. cbn [de_cells de_ref_size]. rewrite <- fmap_reverse, reverse_involutive.
    destruct (rs_range all Hsmall h roots Hinv Hroots) as [Hrs Hfit].
    replace (u32 (zlen _)) with (cell_count h).
    + by apply (finalize_at ctx all Hst h roots Hinv Hw _ Hrs Hfit []).
    + rewrite Hcnt. unfold zlen in *. rewrite length_fmap, length_reverse. unfold u32. by rewrite wrap_small by lia.
  - cbn [de_roots]. rewrite <- list_fmap_compose, Hcnt. pose proof (ri_roots _ _ _ Hinv) as HF.
    clear - HF Hle Hsmall. induction HF as [|i r l k [H0 E] _ IH]; [done|]. cbn [fmap list_fmap]. rewrite IH. f_equal.
    unfold compose. apply processed_get_at; [lia | done..].
Qed.

Lemma built_bag_of sha256 all : built_bag sha256 all -> bag_of (empty_context sha256) all.
Proof.
  intros [Hb Hinj Hs].
  assert (forall c, c ∈ all -> d1_ok c) as Hd1.
  { intros c (b & Hw & E & _)%Hb. unfold build_ext in E. cbn [finalize_cell empty_context] in E.
    destruct (compute_hashes _ _) as [hashes|] eqn:Eh; [|done]. injection E as <-. by apply make_cell_d1. }
  assert (forall c, c ∈ all -> exists b, storable (empty_context sha256) c /\ references c = b_refs b /\ Forall (fun r => r ∈ all) (b_refs b)) as H.
  { intros c (b & Hw & E & Hr)%Hb. exists b. destruct (built_storable sha256 b c) as [? ?]; [done | | done | done].
    eapply list.Forall_impl; [exact Hr | auto]. }
  split; [|done | | done].
  - intros c child (b & _ & -> & Hr)%H Hch. rewrite list.Forall_forall in Hr. by apply Hr.
  - by intros c (b & ? & _)%H.
Qed.

(** [C21] Decoding an encoded bag of cells gives its roots back: for any list of distinct
    roots the options of the decoder allow, with or without a checksum, over cells told
    apart by their hashes, the decoder accepts the bytes the encoder wrote, every raw
    cell finalizes, and the root indices lead to the roots in order. *)
Theorem boc_roundtrip ctx crc32c all roots crc options :
  (forall l, 0 <= crc32c l < 2 ^ 32) -> bag_of ctx all -> Forall (fun r => r ∈ all) roots -> NoDup roots ->
  0 < zlen roots -> roots_allowed options (zlen roots) ->
  exists header cells,
    decode crc32c (encode crc32c (foldl add_root (with_crc ser_default crc) roots) []) options = Done header /\
    finalize ctx header = Done cells /\ processed_get cells <$> de_roots header = Some <$> roots.
Proof. apply bag_decoded. Qed.

(** [C22] What the builder makes survives storage: a cell built with the empty context,
    ordinary or exotic, all of whose descendants are too, is what [Boc::decode] finds in
    [Boc::encode] of it; two different cells come back from [Boc::encode_pair]. *)
Theorem boc_built_roundtrip sha256 crc32c all c :
  (forall l, 0 <= crc32c l < 2 ^ 32) -> built_bag sha256 all -> c ∈ all ->
  boc_decode_ext crc32c (boc_encode crc32c c) (empty_context sha256) = Done c /\
  forall other, other ∈ all -> other <> c ->
    boc_decode_pair_ext crc32c (boc_encode_pair crc32c c other) (empty_context sha256) = Done (c, other).
Proof.
  intros Hcrc Hbag%built_bag_of Hc. split.
  - destruct (bag_decoded (empty_context sha256) crc32c all [c] false (mkOptions (Some 1) (Some 1)))
      as (header & cells & Hd & Hf & Hr); [done | done | by repeat constructor | apply NoDup_singleton | done | done |].
    unfold boc_decode_ext, boc_encode. change (with_crc ser_default false) with ser_default in Hd. simpl in Hd.
    unfold with_root. rewrite Hd. cbn [ubind]. destruct (de_roots header) as [|i l]; [done|].
    injection Hr as Hr _. rewrite Hf. cbn [ubind]. by rewrite Hr.
  - intros other Ho Hne.
    destruct (bag_decoded (empty_context sha256) crc32c all [c; other] false (mkOptions (Some 2) (Some 2)))
      as (header & cells & Hd & Hf & Hr); [done | done | by repeat constructor | | done | done |].
    { apply list.NoDup_cons. split; [|apply NoDup_singleton]. by intros ->%list_elem_of_singleton. }
    unfold boc_decode_pair_ext, boc_encode_pair. change (with_crc ser_default false) with ser_default in Hd. simpl in Hd.
    unfold with_root. rewrite Hd. cbn [ubind]. destruct (de_roots header) as [|i [|j l]]; [done..|].
    injection Hr as Hr1 Hr2 _. rewrite Hf. cbn [ubind]. by rewrite Hr1, Hr2.
Qed.

(** ** The other encoders *)

Lemma rchunks_from_reverse {A B} (f : A -> list B) fuel size l :
  (0 < size)%nat -> (length l <= fuel)%nat ->
  concat ((fun chunk => flat_map f (reverse chunk)) <$> rchunks_from fuel size l) = flat_map f (reverse l).
Proof.
  intros Hs. revert l. induction fuel as [|fuel IH]; intros [|x l] Hl; try done; [simpl in Hl; lia|].
  cbn [rchunks_from fmap list_fmap concat]. set (k := (length (x :: l) - size)%nat).
  rewrite IH by (rewrite length_take; subst k; simpl in *; lia).
  rewrite <- flat_map_app, <- reverse_app. by rewrite take_drop.
Qed.

Lemma chunks_encoded h rs size : (0 < size)%nat ->
  concat ((fun chunk => encode_cells_chunk h chunk rs) <$> rchunks size (rev_cells h)) = encode_cells_chunk h (rev_cells h) rs.
Proof. intros Hs. by apply (rchunks_from_reverse (encode_cell h rs)). Qed.

Lemma foldl_append {A} (l : list (list A)) t : foldl (fun t x => t ++ x) t l = t ++ concat l.
Proof. revert t. induction l as [|x l IH]; intros t; simpl; [by rewrite app_nil_r | by rewrite IH, <- app_assoc]. Qed.

Lemma encode_eq crc32c h target : encode crc32c h target =
  let body := encode_header h ++ encode_cells_chunk h (rev_cells h) (ref_size (compute_stats h)) in
  target ++ body ++ (if include_crc h then to_le_bytes4 (crc32c body) else []).
Proof.
  unfold encode, encode_crc. cbv zeta. rewrite <- !app_assoc. destruct (include_crc h); [|by rewrite app_nil_r].
  unfold zlen. by rewrite Nat2Z.id, drop_app_length.
Qed.

(** [Vec<u8>] as a writer *)
Definition vec_write_all (v b : list Z) : list Z * option Empty_set := (v ++ b, None).

Section Writer.
Context (crc32c : list Z -> Z) (crc32c_append : Z -> list Z -> Z).
Context (Hcrc : forall l, crc32c l = crc32c_append 0 l).
Context (Happ : forall a l k, crc32c_append (crc32c_append a l) k = crc32c_append a (l ++ k)).

Lemma write_cells_vec h rs chunks v crc :
  let bytes := concat ((fun chunk => encode_cells_chunk h chunk rs) <$> chunks) in
  (forall c, crc = Some c -> exists l, c = crc32c_append 0 l) ->
  write_cells vec_write_all crc32c_append h rs chunks v crc = (v ++ bytes, None, (fun c => crc32c_append c bytes) <$> crc).
Proof.
  revert v crc. induction chunks as [|cells chunks IH]; intros v crc bytes Hc; simpl in bytes |- *.
  - subst bytes. rewrite app_nil_r. destruct crc as [c|]; [|done]. simpl. destruct (Hc c eq_refl) as [l ->].
    by rewrite Happ, app_nil_r.
  - rewrite IH.
    + subst bytes. rewrite <- app_assoc. unfold reset_chunk. destruct crc as [c|]; [|done]. simpl. by rewrite Happ.
    + intros c. unfold reset_chunk. destruct crc as [c0|]; [|done]. intros [= <-].
      destruct (Hc c0 eq_refl) as [l ->]. rewrite Happ. by eexists.
Qed.

Lemma writer_encodes h target :
  encode_to_writer vec_write_all crc32c_append h target = (encode crc32c h target, None).
Proof.
  unfold encode_to_writer. cbn [vec_write_all]. rewrite write_cells_vec.
  - rewrite chunks_encoded by (unfold WRITER_CELLS_CHUNK_SIZE; lia). rewrite encode_eq. cbv zeta.
    generalize (encode_header h) (encode_cells_chunk h (rev_cells h) (ref_size (compute_stats h))). intros hd cs.
    unfold reset_chunk, vec_write_all. destruct (include_crc h); simpl; [|by rewrite app_nil_r, <- app_assoc].
    by rewrite Happ, Hcrc, <- !app_assoc.
  - intros c. unfold reset_chunk. destruct (include_crc h); [|done]. intros [= <-]. by eexists.
Qed.
End Writer.

Lemma rayon_encodes crc32c h target : encode_rayon crc32c h target = encode crc32c h target.
Proof.
  unfold encode_rayon, encode. destruct (_ <? _)%nat; [done|].
  by rewrite foldl_append, chunks_encoded by (unfold RAYON_CELLS_CHUNK_SIZE; lia).
Qed.

(** [C23] All the ways to encode a bag agree: writing it to a vector chunk by chunk, with
    a checksum continued over the chunks, and encoding chunks in parallel give the bytes
    of [encode]; a cache taken back from a header encodes as a new header does; and the
    loop with an explicit stack for deep trees ends, having collected what the recursion
    collects. *)
Theorem boc_encoders_agree crc32c crc32c_append :
  (forall l, crc32c l = crc32c_append 0 l) ->
  (forall a l k, crc32c_append (crc32c_append a l) k = crc32c_append a (l ++ k)) ->
  (forall h target, encode_to_writer vec_write_all crc32c_append h target = (encode crc32c h target, None)) /\
  (forall h target, encode_rayon crc32c h target = encode crc32c h target) /\
  (forall h c, boc_encode_with_cache crc32c c (into_cache h) = (boc_encode crc32c c, cache_default)) /\
  (forall h c, fill_deep h c = fill_recursive (S (height c)) h c).
Proof.
  intros Hcrc Happ. split_and!.
  - intros. by apply writer_encodes.
  - intros. apply rayon_encodes.
  - done.
  - intros. apply fill_deep_recursive.
Qed.

(** ** Witnesses *)

(** A byte sum in place of the checksum. *)
Definition toy_crc (l : list Z) : Z := foldl (fun a x => u32 (a * 31 + x)) 0 l.

Lemma toy_crc_range l : 0 <= toy_crc l < 2 ^ 32.
Proof.
  unfold toy_crc. enough (forall a, 0 <= a < 2 ^ 32 -> 0 <= foldl (fun a x => u32 (a * 31 + x)) a l < 2 ^ 32) as H by (apply H; lia).
  induction l as [|x l IH]; intros a Ha; simpl; [done|]. apply IH. unfold u32, wrap. apply Z.mod_pos_bound. lia.
Qed.

Definition built (b : CellBuilder) : Cell := match build_ext (empty_context toy_sha) b with Ok c => c | Err _ => EmptyOrdinaryCell end.

(** A leaf of twelve bits, a library cell, and a cell above both and the empty cell. *)
Definition leaf_builder : CellBuilder := mkBuilder (of_bits (uint_bits 12 0xabc)) false [].
Definition library_builder : CellBuilder :=
  mkBuilder (of_bits (uint_bits 8 2 ++ concat (replicate 32 (uint_bits 8 0x5a)))) true [].
Definition root_builder : CellBuilder :=
  mkBuilder (of_bits (uint_bits 16 0x1234)) false [built leaf_builder; built library_builder; built leaf_builder; built builder_new].
Definition sample_bag : list Cell := [built builder_new; built leaf_builder; built library_builder; built root_builder].

Lemma of_bits_builder_wf l e refs : zlen l <= 1023 -> zlen refs <= 4 -> builder_wf (mkBuilder (of_bits l) e refs).
Proof. intros. split; [by apply of_bits_wf | done]. Qed.

Lemma NoDup_image {A} (f : A -> HashBytes) l a b : NoDup (f <$> l) -> a ∈ l -> b ∈ l -> f a = f b -> a = b.
Proof.
  intros Hnd [i Ei]%list_elem_of_lookup_1 [j Ej]%list_elem_of_lookup_1 E.
  assert (i = j) as <-; [|congruence]. eapply NoDup_lookup; [exact Hnd | |]; rewrite list_lookup_fmap, ?Ei, ?Ej; simpl; [done | by rewrite E].
Qed.

Lemma sample_built : built_bag toy_sha sample_bag.
Proof.
  split; [| |by vm_compute].
  - intros c. unfold sample_bag. rewrite !list.elem_of_cons, elem_of_nil.
    intros [->|[->|[->|[->|[]]]]]; [exists builder_new | exists leaf_builder | exists library_builder | exists root_builder];
      (split; [by apply of_bits_builder_wf || apply builder_new_wf | split; [by vm_compute|]]).
    1-3: constructor.
    repeat constructor; unfold sample_bag; set_solver.
  - intros a b. apply NoDup_image. apply (bool_decide_unpack _). by vm_compute.
Qed.

Lemma boc_roundtrip_witness : exists header cells,
    decode toy_crc (encode toy_crc (foldl add_root (with_crc ser_default true) [built root_builder; built leaf_builder]) []) (mkOptions None None)
      = Done header /\
    finalize (empty_context toy_sha) header = Done cells /\
    processed_get cells <$> de_roots header = [Some (built root_builder); Some (built leaf_builder)].
Proof.
  apply (boc_roundtrip (empty_context toy_sha) toy_crc sample_bag [built root_builder; built leaf_builder] true (mkOptions None None)).
  - exact toy_crc_range.
  - apply built_bag_of, sample_built.
  - repeat constructor; unfold sample_bag; set_solver.
  - apply (NoDup_fmap_1 repr_hash), (bool_decide_unpack _). by vm_compute.
  - done.
  - by vm_compute.
Defined.

Lemma boc_built_roundtrip_witness :
  boc_decode_ext toy_crc (boc_encode toy_crc (built root_builder)) (empty_context toy_sha) = Done (built root_builder).
Proof.
  apply (boc_built_roundtrip toy_sha toy_crc sample_bag (built root_builder)).
  - exact toy_crc_range.
  - exact sample_built.
  - unfold sample_bag. set_solver.
Defined.

Definition toy_crc_append (a : Z) (l : list Z) : Z := foldl (fun a x => u32 (a * 31 + x)) a l.

Lemma boc_encoders_agree_witness :
  encode_to_writer vec_write_all toy_crc_append (with_crc (with_root (built root_builder)) true) [7] =
    (encode toy_crc (with_crc (with_root (built root_builder)) true) [7], None).
Proof.
  apply (boc_encoders_agree toy_crc toy_crc_append).
  - done.
  - intros a l k. unfold toy_crc_append. by rewrite foldl_app.
Defined.

(** A pair of the same leaf is two roots over one cell: the decoder refuses it. *)
Lemma same_leaf_pair_rejected :
  boc_decode_pair_ext toy_crc (boc_encode_pair toy_crc EmptyOrdinaryCell EmptyOrdinaryCell) (empty_context toy_sha) =
    Failed TooManyRootCells.
Proof. reflexivity. Qed.
