(* ===== verification/Nodes.v ===== *)
(** * Nodes: cells with references, rebuilt over other children

    The hashes of a cell level by level come first, and pruned branches last.
    [node b ty] says that a builder with references is finalized to a cell of the type;
    [agrees d c r] that [r] has the hashes and depths of [c] up to level [d].  A node
    rebuilt over children that agree is finalized too, and agrees. *)

From S2P Require Import Prelude Bits DataBuilder DataBuilderSpec CellMeta Cell RefsIter Slice SliceSpec Builder BuilderSpec Context Pieces CellTheorems BocSer Merkle BocRoundtrip.

(** * The hashes of a cell, level by level

    For a cell that is not a pruned branch [hash_levels] is a chain over the levels of
    the mask: each hash depends on the one before, the data and the children, not on
    the mask.  Two cells with the same data whose children agree up to a level agree up
    to it ([agrees]), whatever levels above it pruned branches add. *)

(** ** Level masks *)

Definition levels_upto (mask l : Z) : list Z := base.filter (fun k => LevelMask.contains mask k = true) (seqZ 0 (l + 1)).
Definition levels_above (mask l : Z) : list Z := base.filter (fun k => LevelMask.contains mask k = true) (seqZ (l + 1) (3 - l)).
Definition low (d mask : Z) : Z := Z.land mask (2 ^ d - 1).

Lemma all_levels mask d :
  0 <= d <= 3 -> base.filter (fun k => LevelMask.contains mask k = true) [0; 1; 2; 3] = levels_upto mask d ++ levels_above mask d.
Proof.
  intros Hd. unfold levels_upto, levels_above. rewrite <- list.filter_app. f_equal.
  assert (d = 0 \/ d = 1 \/ d = 2 \/ d = 3) as [-> | [-> | [-> | ->]]] by lia; done.
Qed.

(** Brute force over masks and levels. *)
Lemma masks_levels (P : Z -> Z -> Z -> Z -> bool) :
  forallb (fun a => forallb (fun b => forallb (fun d => forallb (P a b d) (seqZ 0 5)) (seqZ 0 4)) (seqZ 0 8)) (seqZ 0 8) = true ->
  forall a b d l, LevelMask.wf a -> LevelMask.wf b -> 0 <= d <= 3 -> 0 <= l <= 4 -> P a b d l = true.
Proof.
  intros H a b d l Ha Hb Hd Hl. unfold LevelMask.wf in *.
  apply (Zrange_forall _ _ H) in Ha. apply (Zrange_forall _ _ Ha) in Hb.
  pose proof (Zrange_forall _ _ Hb d ltac:(lia)) as Hx. by apply (Zrange_forall _ _ Hx l ltac:(lia)).
Qed.

(** Masks with the same lower bits have the same levels and indices there. *)
Lemma low_levels a b d l :
  LevelMask.wf a -> LevelMask.wf b -> 0 <= d <= 3 -> 0 <= l <= d -> low d a = low d b ->
  levels_upto b d = levels_upto a d /\ LevelMask.hash_index b l = LevelMask.hash_index a l /\
  0 <= LevelMask.hash_index a l < zlen (levels_upto a d).
Proof.
  intros Ha Hb Hd Hl E.
  pose proof (masks_levels (fun a b d l => negb ((l <=? d) && (low d a =? low d b)) ||
    (bool_decide (levels_upto b d = levels_upto a d) && (LevelMask.hash_index b l =? LevelMask.hash_index a l) &&
     (0 <=? LevelMask.hash_index a l) && (LevelMask.hash_index a l <? zlen (levels_upto a d)))) ltac:(by vm_compute)
    a b d l Ha Hb Hd ltac:(lia)) as H. simpl in H.
  rewrite (proj2 (Z.leb_le _ _)), (proj2 (Z.eqb_eq _ _)) in H by (done || lia). simpl in H.
  rewrite !andb_true_iff, bool_decide_eq_true, Z.eqb_eq, Z.leb_le, Z.ltb_lt in H. naive_solver.
Qed.

(** A contained level is at its hash index. *)
Lemma contained_index a l :
  LevelMask.wf a -> 0 <= l <= 3 -> LevelMask.contains a l = true ->
  base.filter (fun k => LevelMask.contains a k = true) [0; 1; 2; 3] !! Z.to_nat (LevelMask.hash_index a l) = Some l.
Proof.
  intros Ha Hl Hc.
  pose proof (masks_levels (fun a _ _ l => negb ((l <=? 3) && LevelMask.contains a l) ||
    bool_decide (base.filter (fun k => LevelMask.contains a k = true) [0; 1; 2; 3] !! Z.to_nat (LevelMask.hash_index a l) = Some l))
    ltac:(by vm_compute) a 0 0 l Ha ltac:(done) ltac:(lia) ltac:(lia)) as H. simpl in H.
  rewrite (proj2 (Z.leb_le _ _)), Hc in H by lia. simpl in H. by apply bool_decide_eq_true in H.
Qed.

(** A level that is not contained has the index of the level below. *)
Lemma skipped_index a l :
  LevelMask.wf a -> 0 <= l <= 3 -> LevelMask.contains a (l + 1) = false -> LevelMask.hash_index a (l + 1) = LevelMask.hash_index a l.
Proof.
  intros Ha Hl Hc.
  pose proof (masks_levels (fun a _ _ l => negb ((l <=? 3) && negb (LevelMask.contains a (l + 1))) ||
    (LevelMask.hash_index a (l + 1) =? LevelMask.hash_index a l)) ltac:(by vm_compute) a 0 0 l Ha ltac:(done) ltac:(lia) ltac:(lia)) as H.
  simpl in H. rewrite (proj2 (Z.leb_le _ _)), Hc in H by lia. simpl in H. by apply Z.eqb_eq.
Qed.

Lemma contains_bit a l : LevelMask.wf a -> 0 <= l <= 3 -> LevelMask.contains a (l + 1) = Z.testbit a l.
Proof.
  intros Ha Hl. pose proof (masks_levels (fun a _ _ l => negb (l <=? 3) || eqb (LevelMask.contains a (l + 1)) (Z.testbit a l))
    ltac:(by vm_compute) a 0 0 l Ha ltac:(done) ltac:(lia) ltac:(lia)) as H. simpl in H.
  rewrite (proj2 (Z.leb_le _ _)) in H by lia. by apply eqb_prop.
Qed.

(** Levels above the greatest. *)
Lemma top_index a l : LevelMask.wf a -> 3 <= l -> LevelMask.hash_index a l = LevelMask.hash_index a 3.
Proof.
  intros Ha Hl. unfold LevelMask.hash_index. f_equal. f_equal. unfold LevelMask.from_level.
  by rewrite (proj2 (Z.eqb_neq l 0)), (proj2 (Z.eqb_neq l 1)), (proj2 (Z.eqb_neq l 2)) by lia.
Qed.

(** ** The chain of hashes *)

Definition depth_at (refs : list Cell) (lvl : Z) : Z := foldr (fun r d => Z.max (depth r lvl + 1) d) 0 refs.

Lemma depth_at_nonneg refs lvl : 0 <= depth_at refs lvl.
Proof. unfold depth_at. induction refs; simpl; lia. Qed.

Lemma depth_at_le refs lvl r : r ∈ refs -> depth r lvl + 1 <= depth_at refs lvl.
Proof. unfold depth_at. induction 1; simpl; lia. Qed.

Lemma depth_at_bound refs lvl D : 0 <= D -> Forall (fun r => depth r lvl + 1 <= D) refs -> depth_at refs lvl <= D.
Proof. intros HD. unfold depth_at. induction 1; simpl; lia. Qed.

Lemma hash_depths_at refs lvl dep acc :
  0 <= dep -> Forall (fun r => depth r lvl < 65535) refs ->
  hash_depths refs lvl dep acc =
    Ok (Z.max dep (depth_at refs lvl), acc ++ flat_map (fun r => to_be_bytes 2 (depth r lvl)) refs).
Proof.
  intros Hdep H. revert dep acc Hdep. induction H as [|r refs Hr _ IH]; intros dep acc Hdep; simpl.
  - change (depth_at [] lvl) with 0. by rewrite Z.max_l, app_nil_r.
  - destruct (Z.ltb_spec 65535 (depth r lvl + 1)); [lia|]. rewrite IH by lia. rewrite <- app_assoc.
    change (depth_at (r :: refs) lvl) with (Z.max (depth r lvl + 1) (depth_at refs lvl)). by rewrite Z.max_assoc.
Qed.

Lemma hash_depths_inv refs lvl dep acc x :
  hash_depths refs lvl dep acc = Ok x -> Forall (fun r => depth r lvl < 65535) refs.
Proof.
  revert dep acc. induction refs as [|r refs IH]; intros dep acc; simpl; [constructor|].
  destruct (Z.ltb_spec 65535 (depth r lvl + 1)); [done|]. intros Hx%IH. constructor; [lia | done].
Qed.

Section Chain.
Context (sha256 : list Z -> HashBytes).

Definition TYPE_MASK : Z := unot 8 (Z.lor Descr.LEVEL_MASK Descr.STORE_HASHES_MASK).
Definition offset_of (ty : CellType) : Z := b2z (CellTypes.is_merkle ty).

(** The bytes hashed at a level. *)
Definition level_bytes (p : CellParts) (ty : CellType) (base lvl : Z) (hashes : list (HashBytes * Z)) : list Z :=
  let k := lvl + offset_of ty in
  ([Z.lor (Z.land base TYPE_MASK) (u8 (Z.shiftl (LevelMask.from_level lvl) 5)); d2 (p_descriptor p)] ++
   (if lvl =? 0 then p_data p else (default ([], 0) (list.last hashes)).1) ++
   flat_map (fun r => to_be_bytes 2 (depth r k)) (p_references p)) ++
  flat_map (fun r => hash r k) (p_references p).

Fixpoint chain (p : CellParts) (ty : CellType) (base : Z) (lvls : list Z) (hashes : list (HashBytes * Z)) : list (HashBytes * Z) :=
  match lvls with
  | [] => hashes
  | lvl :: lvls =>
      chain p ty base lvls (hashes ++ [(sha256 (level_bytes p ty base lvl hashes), depth_at (p_references p) (lvl + offset_of ty))])
  end.

(** The depths of the children at a level do not overflow. *)
Definition fits (p : CellParts) (ty : CellType) (lvl : Z) : Prop :=
  Forall (fun r => depth r (lvl + offset_of ty) < 65535) (p_references p).

Lemma base_level a l : 0 <= l <= 3 -> Z.land (Z.lor (Z.land a TYPE_MASK) (u8 (Z.shiftl (LevelMask.from_level l) 5))) TYPE_MASK = Z.land a TYPE_MASK.
Proof.
  intros Hl. rewrite Z.land_lor_distr_l, <- Z.land_assoc, Z.land_diag.
  replace (Z.land (u8 _) TYPE_MASK) with 0; [by rewrite Z.lor_0_r|].
  assert (l = 0 \/ l = 1 \/ l = 2 \/ l = 3) as [-> | [-> | [-> | ->]]] by lia; done.
Qed.

Lemma hash_levels_chain p ty mask base lvls dd1 hashes :
  CellTypes.is_pruned_branch ty = false -> Forall (fun l => 0 <= l <= 3) lvls -> Z.land dd1 TYPE_MASK = Z.land base TYPE_MASK ->
  let L := base.filter (fun k => LevelMask.contains mask k = true) lvls in
  (Forall (fits p ty) L -> hash_levels sha256 p ty mask lvls dd1 hashes = Ok (chain p ty base L hashes)) /\
  (forall hs, hash_levels sha256 p ty mask lvls dd1 hashes = Ok hs -> Forall (fits p ty) L).
Proof.
  intros Hty HL. revert dd1 hashes. induction HL as [|l lvls Hl _ IH]; intros dd1 hashes Hb L; [by split|].
  subst L. rewrite filter_cons. cbn [hash_levels]. rewrite Hty. cbn [orb].
  assert ((negb (l =? 0) && negb (LevelMask.contains mask l)) = negb (LevelMask.contains mask l)) as ->.
  { unfold LevelMask.contains. by destruct (l =? 0). }
  destruct (decide (LevelMask.contains mask l = true)) as [Hc|Hc].
  2: { apply not_true_is_false in Hc. rewrite Hc. cbn [negb]. by apply IH. }
  rewrite Hc. cbn [negb]. unfold hash_level. rewrite Hty. fold TYPE_MASK. fold (offset_of ty).
  destruct (IH (Z.lor (Z.land dd1 TYPE_MASK) (u8 (Z.shiftl (LevelMask.from_level l) 5)))
    (hashes ++ [(sha256 (level_bytes p ty base l hashes), depth_at (p_references p) (l + offset_of ty))])) as [IH1 IH2].
  { rewrite base_level by done. done. }
  split.
  - intros [Hf Hfs]%list.Forall_cons. unfold fits in Hf. rewrite hash_depths_at by done. cbn [rbind].
    rewrite Z.max_r by apply depth_at_nonneg. etransitivity; [|exact (IH1 Hfs)]. unfold level_bytes. rewrite Hb. by rewrite <- !app_assoc.
  - intros hs. destruct (hash_depths _ _ _ _) as [[dep bytes]|] eqn:E; [|done]. pose proof (hash_depths_inv _ _ _ _ _ E) as Hf.
    rewrite hash_depths_at in E by done. injection E as <- <-. rewrite Z.max_r by apply depth_at_nonneg. cbn [rbind]. intros H.
    constructor; [done|]. eapply (IH2 hs). rewrite <- H. unfold level_bytes. rewrite Hb. cbn [app]. by rewrite <- ?app_assoc.
Qed.

Lemma chain_app p ty base l1 l2 hs : chain p ty base (l1 ++ l2) hs = chain p ty base l2 (chain p ty base l1 hs).
Proof. revert hs. induction l1 as [|l l1 IH]; intros hs; simpl; [done | apply IH]. Qed.

Lemma chain_grows p ty base l hs : exists new, chain p ty base l hs = hs ++ new /\ length new = length l.
Proof.
  revert hs. induction l as [|x l IH]; intros hs; simpl; [exists []; by rewrite app_nil_r|].
  destruct (IH (hs ++ [(sha256 (level_bytes p ty base x hs), depth_at (p_references p) (x + offset_of ty))])) as (new & -> & <-).
  eexists (_ :: new). by rewrite <- app_assoc.
Qed.

(** The depths in the chain are those of the children. *)
Lemma chain_depth p ty base l hs i lvl :
  l !! i = Some lvl -> exists h, chain p ty base l hs !! (length hs + i)%nat = Some (h, depth_at (p_references p) (lvl + offset_of ty)).
Proof.
  revert hs i. induction l as [|x l IH]; intros hs [|i] E; simpl in *; try done.
  - injection E as ->. match goal with |- context [chain p ty base l ?h] => destruct (chain_grows p ty base l h) as (new & -> & _) end.
    rewrite <- app_assoc, Nat.add_0_r. cbn [app]. rewrite list_lookup_middle by done. by eexists.
  - destruct (IH (hs ++ [(sha256 (level_bytes p ty base x hs), depth_at (p_references p) (x + offset_of ty))]) i E) as (h & Eh).
    exists h. rewrite <- Eh. f_equal. rewrite length_app. simpl. lia.
Qed.

Lemma chain_lookup_left p ty base l1 l2 i :
  (i < length l1)%nat -> chain p ty base (l1 ++ l2) [] !! i = chain p ty base l1 [] !! i.
Proof.
  intros Hi. rewrite chain_app. destruct (chain_grows p ty base l2 (chain p ty base l1 [])) as (new & -> & _).
  apply lookup_app_l. destruct (chain_grows p ty base l1 []) as (new1 & -> & ?). simpl. lia.
Qed.

(** The chain of parts that agree on the levels used is the same. *)
Lemma chain_ext p p' ty base base' l hs :
  d2 (p_descriptor p') = d2 (p_descriptor p) -> p_data p' = p_data p -> Z.land base' TYPE_MASK = Z.land base TYPE_MASK ->
  Forall (fun lvl => Forall2 (fun c r => hash r (lvl + offset_of ty) = hash c (lvl + offset_of ty) /\
    depth r (lvl + offset_of ty) = depth c (lvl + offset_of ty)) (p_references p) (p_references p')) l ->
  chain p' ty base' l hs = chain p ty base l hs.
Proof.
  intros Hd2 Hdata Hbase H. revert hs. induction H as [|lvl l Hl _ IH]; intros hs; simpl; [done|].
  rewrite IH. do 2 f_equal. set (k := lvl + offset_of ty) in *.
  assert (flat_map (fun r => hash r k) (p_references p') = flat_map (fun r => hash r k) (p_references p) /\
    flat_map (fun r => to_be_bytes 2 (depth r k)) (p_references p') = flat_map (fun r => to_be_bytes 2 (depth r k)) (p_references p) /\
    depth_at (p_references p') k = depth_at (p_references p) k) as (E1 & E2 & E3).
  { clear - Hl. induction Hl as [|c r cs rs [Eh Ed] _ (IH1 & IH2 & IH3)]; [done|].
    unfold depth_at in *. simpl. by rewrite IH1, IH2, IH3, Eh, Ed. }
  rewrite E3. unfold level_bytes. fold k. by rewrite Hbase, Hd2, Hdata, E1, E2.
Qed.
End Chain.

(** ** What the finalizer accepts of a cell with references *)

Definition node_levels (b : CellBuilder) : list Z :=
  base.filter (fun k => LevelMask.contains (Descr.level_mask (p_descriptor (build_parts b))) k = true) [0; 1; 2; 3].

Record node (b : CellBuilder) (ty : CellType) : Prop := {
  node_type : validate_type (build_parts b) = Ok (ty, Descr.level_mask (p_descriptor (build_parts b)));
  node_fits : Forall (fits (build_parts b) ty) (node_levels b);
}.

Definition node_cell (sha256 : list Z -> HashBytes) (b : CellBuilder) (ty : CellType) : Cell :=
  let p := build_parts b in
  OrdinaryCell (DataBuilder.bit_len (inner b)) (chain sha256 p ty (d1 (p_descriptor p)) (node_levels b) [])
    (p_descriptor p) (b_refs b) (p_data p).

Lemma validate_shape p ty mask :
  validate_type p = Ok (ty, mask) -> p_references p <> [] ->
  CellTypes.is_pruned_branch ty = false /\ offset_of ty = b2z (Descr.is_exotic (p_descriptor p)) /\
  mask = LevelMask.virtualize (p_children_mask p) (offset_of ty).
Proof.
  unfold validate_type. destruct (Descr.is_exotic (p_descriptor p)).
  - destruct (p_data p) as [|x l]; [done|]. destruct (CellTypes.from_byte_exotic x) as [[]|]; try done.
    + destruct (_ =? 0); [done|]. destruct (_ || _) eqn:G; [done|]. guards G. intros _ []. by apply zlen_0.
    + destruct (_ || _) eqn:G; [done|]. guards G. intros _ []. by apply zlen_0.
    + destruct (_ || _); [done|]. destruct (p_references p); [done|]. destruct (_ || _); [done|]. by intros [= <- <-].
    + destruct (_ || _); [done|]. destruct (p_references p) as [|? [|]]; [done..|]. destruct (_ || _); [done|]. by intros [= <- <-].
  - intros [= <- <-]. intros _. split_and!; [done..|]. unfold LevelMask.virtualize. change (offset_of Ordinary) with 0. by rewrite Z.shiftr_0_r.
Qed.

Section Node.
Context (sha256 : list Z -> HashBytes).
Context (b : CellBuilder) (Hb : builder_wf b) (Hrefs : Forall d1_ok (b_refs b)) (Hne : b_refs b <> []).
Let p := build_parts b.
Let d := p_descriptor p.

Lemma node_is_merkle ty : node b ty -> offset_of ty = b2z (Descr.is_merkle d) /\ 0 <= offset_of ty <= 1.
Proof.
  intros [Hty _]. destruct (validate_shape _ _ _ Hty Hne) as (_ & E & _). fold p d in E. rewrite E.
  destruct (built_descriptor b Hb Hrefs) as (_ & _ & _ & _ & Hrc & _). fold p d in Hrc. unfold Descr.is_merkle. rewrite Hrc.
  rewrite (proj2 (Z.eqb_neq _ _)); [|by intros ?%zlen_0]. rewrite andb_true_r. split; [done | destruct (Descr.is_exotic d); simpl; lia].
Qed.

(** A node is made into an ordinary cell. *)
Lemma make_node hashes : make_cell p hashes = OrdinaryCell (DataBuilder.bit_len (inner b)) hashes d (b_refs b) (p_data p).
Proof.
  destruct (built_descriptor b Hb Hrefs) as (_ & _ & _ & _ & Hrc & _). fold p d in Hrc.
  assert (Descr.reference_count d <> 0) as Hn by (rewrite Hrc; by intros ?%zlen_0).
  unfold make_cell. fold d. unfold Descr.cell_type.
  destruct (Z.land (d1 d) Descr.IS_EXOTIC_MASK =? 0).
  - destruct (Z.eqb_spec (d1 d) 0) as [E|]; [|done]. unfold Descr.reference_count in Hn. by rewrite E in Hn.
  - fold (Descr.reference_count d). rewrite (proj2 (Z.eqb_neq _ _)) by done. by destruct (_ =? 1).
Qed.

Lemma node_build c : build_ext (empty_context sha256) b = Ok c <-> exists ty, node b ty /\ c = node_cell sha256 b ty.
Proof.
  destruct (parts_data b Hb) as (Hz & _). fold p in Hz.
  unfold build_ext. cbn [finalize_cell empty_context]. fold p. unfold compute_hashes. fold d. rewrite Hz.
  change (p_bit_len p) with (DataBuilder.bit_len (inner b)). rewrite Z.ltb_irrefl.
  assert (Forall (fun l => 0 <= l <= 3) [0; 1; 2; 3]) as HL by (repeat constructor; lia).
  split.
  - destruct (validate_type p) as [[ty mask]|] eqn:Ev; [|done]. cbn [rbind].
    destruct (Z.eqb_spec mask (Descr.level_mask d)) as [->|]; [|done]. cbn [negb].
    destruct (validate_shape _ _ _ Ev Hne) as (Hp & _ & _).
    destruct (hash_levels_chain sha256 p ty (Descr.level_mask d) (d1 d) [0; 1; 2; 3] (d1 d) [] Hp HL eq_refl) as [H1 H2].
    destruct (hash_levels _ _ _ _ _ _ _) as [hs|] eqn:E; [|done]. cbn [rbind]. intros [= <-].
    pose proof (H2 hs eq_refl) as Hf. exists ty. split; [by split|]. specialize (H1 Hf). injection H1 as ->. apply make_node.
  - intros (ty & [Hv Hf] & ->). fold p d in Hv, Hf. rewrite Hv. cbn [rbind]. rewrite Z.eqb_refl. cbn [negb].
    destruct (validate_shape _ _ _ Hv Hne) as (Hp & _ & _).
    destruct (hash_levels_chain sha256 p ty (Descr.level_mask d) (d1 d) [0; 1; 2; 3] (d1 d) [] Hp HL eq_refl) as [H1 _].
    rewrite H1 by done. cbn [rbind]. by rewrite make_node.
Qed.

(** The type byte the builder looks at is the one the finalizer sees. *)
Lemma type_byte : 8 <= DataBuilder.bit_len (inner b) -> byte_at (p_data p) 0 = byte_at (DataBuilder.data (inner b)) 0.
Proof.
  intros H8. destruct Hb as [Hd _]. pose proof Hd as (H128 & _ & Hn & _). unfold MAX_BIT_LEN in Hn.
  unfold p, build_parts, p_data. rewrite byte_at_sub by dlia. unfold tag_last_byte.
  destruct (_ <? _); [|done]. rewrite byte_at_set by dlia. rewrite (proj2 (Z.eqb_neq _ _)) by dlia. done.
Qed.

Lemma node_level_mask ty x : node b ty -> build_level_mask (b_exotic b) (inner b) x = LevelMask.virtualize x (offset_of ty).
Proof.
  intros [Hv _]. pose proof (validate_shape _ _ _ Hv Hne) as (_ & Hoff & _). fold p d in Hoff.
  destruct (built_descriptor b Hb Hrefs) as (_ & _ & _ & Hex & _). fold p d in Hex. rewrite Hex in Hoff.
  unfold build_level_mask. destruct (b_exotic b) eqn:Eb; cbn [andb]; rewrite Hoff; simpl b2z.
  2: { unfold LevelMask.virtualize. by rewrite Z.shiftr_0_r. }
  assert (exists ty', CellTypes.from_byte_exotic (byte_at (p_data p) 0) = Some ty' /\ (ty' = CellMeta.MerkleProof \/ ty' = CellMeta.MerkleUpdate) /\
    8 <= DataBuilder.bit_len (inner b)) as (ty' & E & Hty & Hn).
  { fold p d in Hv. assert (exotic_valid p) as Hx by (by eapply validate_exotic).
    unfold exotic_valid in Hx. change (p_references p) with (b_refs b) in Hx. change (p_bit_len p) with (DataBuilder.bit_len (inner b)) in Hx.
    destruct (CellTypes.from_byte_exotic (byte_at (p_data p) 0)) as [[]|] eqn:E; try done.
    - by destruct Hx as (_ & _ & ? & _).
    - by destruct Hx as (_ & _ & ?).
    - eexists. split_and!; [done | by left | lia].
    - eexists. split_and!; [done | by right | lia]. }
  rewrite (proj2 (Z.leb_le _ _)) by lia. rewrite <- type_byte, E by done. by destruct Hty as [-> | ->].
Qed.
End Node.

(** ** Depths of a node *)

Lemma children_bit refs m j :
  Z.testbit (foldl (fun m c => LevelMask.bitor m (Descr.level_mask (descriptor c))) m refs) j =
  Z.testbit m j || existsb (fun c => Z.testbit (level_mask c) j) refs.
Proof.
  revert m. induction refs as [|c refs IH]; intros m; simpl; [by rewrite orb_false_r|].
  rewrite IH. unfold LevelMask.bitor. by rewrite Z.lor_spec, orb_assoc.
Qed.

(** Cells whose hash at a level is found by its index. *)
Definition sound (c : Cell) : Prop := indexed c = true /\ d1_ok c.

Lemma skipped_level c l : sound c -> 0 <= l <= 3 -> Z.testbit (level_mask c) l = false -> hash c (l + 1) = hash c l /\ depth c (l + 1) = depth c l.
Proof.
  intros [Hi Hd] Hl Hb. pose proof (level_mask_ok c Hd) as Hw. apply indexed_hash; [done|].
  apply skipped_index; [done..|]. by rewrite contains_bit.
Qed.

Section Depths.
Context (sha256 : list Z -> HashBytes).
Context (b : CellBuilder) (Hb : builder_wf b) (Hrefs : Forall sound (b_refs b)) (Hne : b_refs b <> []).
Context (ty : CellType) (Hn : node b ty).
Let p := build_parts b.
Let d := p_descriptor p.
Let c := node_cell sha256 b ty.

Lemma refs_d1 : Forall d1_ok (b_refs b).
Proof. eapply list.Forall_impl; [exact Hrefs|]. by intros x [_ ?]. Qed.

Lemma node_mask : level_mask c = LevelMask.virtualize (p_children_mask p) (offset_of ty) /\ LevelMask.wf (level_mask c).
Proof.
  destruct (built_descriptor b Hb refs_d1) as (E & _ & Hw & _). split; [|done].
  change (level_mask c) with (Descr.level_mask d). unfold d, p. rewrite E. by apply node_level_mask, Hn; [|apply refs_d1|].
Qed.

Lemma offset_range : 0 <= offset_of ty <= 1.
Proof. by eapply node_is_merkle; [|apply refs_d1| |]. Qed.

Lemma child_mask_bit child k : child ∈ b_refs b -> 0 <= k -> Z.testbit (level_mask c) k = false -> Z.testbit (level_mask child) (k + offset_of ty) = false.
Proof.
  intros Hc Hk. pose proof offset_range. destruct node_mask as [-> _]. unfold LevelMask.virtualize. rewrite Z.shiftr_spec by lia.
  change (p_children_mask p) with (foldl (fun m c => LevelMask.bitor m (Descr.level_mask (descriptor c))) LevelMask.EMPTY (b_refs b)).
  rewrite children_bit. intros [_ E]%orb_false_iff. apply not_true_is_false. intros Ht.
  assert (existsb (fun c => Z.testbit (level_mask c) (k + offset_of ty)) (b_refs b) = true); [|congruence].
  apply existsb_exists. exists child. split; [by apply list_elem_of_In | done].
Qed.

Lemma node_level_lookup k : 0 <= k <= 3 -> LevelMask.contains (level_mask c) k = true ->
  depth c k = depth_at (b_refs b) (k + offset_of ty) /\ fits p ty k.
Proof.
  intros Hk Hc. destruct node_mask as [_ Hw]. pose proof (contained_index _ k Hw Hk Hc) as E.
  change (base.filter _ _) with (node_levels b) in E. split.
  - destruct (chain_depth sha256 p ty (d1 d) (node_levels b) [] _ k E) as (h & Eh). cbn [length Nat.add] in Eh.
    unfold c, node_cell. cbn [depth]. unfold level_descr. fold p d.
    change (hash_index d k) with (LevelMask.hash_index (level_mask c) k). rewrite Eh. done.
  - by apply (proj1 (list.Forall_lookup _ _) (node_fits _ _ Hn) _ _ E).
Qed.

Lemma node_depth k : 0 <= k <= 3 -> depth c k = depth_at (b_refs b) (k + offset_of ty) /\ fits p ty k.
Proof.
  intros Hk. pose proof offset_range as Ho. rewrite <- (Z2Nat.id k) in * by lia. generalize dependent (Z.to_nat k). clear k. intros k.
  induction k as [|k IH]; intros Hk; [by apply node_level_lookup|].
  destruct IH as [IH1 IH2]; [lia|]. replace (Z.of_nat (S k)) with (Z.of_nat k + 1) in * by lia. set (j := Z.of_nat k) in *.
  destruct (LevelMask.contains (level_mask c) (j + 1)) eqn:Ec; [by apply node_level_lookup|].
  destruct node_mask as [_ Hw]. rewrite contains_bit in Ec by (done || lia).
  assert (forall r, r ∈ b_refs b -> depth r (j + 1 + offset_of ty) = depth r (j + offset_of ty)) as Hr.
  { intros r Hr. replace (j + 1 + offset_of ty) with (j + offset_of ty + 1) by lia.
    apply skipped_level; [by apply (proj1 (list.Forall_forall _ _) Hrefs) | lia | by apply child_mask_bit; [| lia |]]. }
  split.
  - assert (depth c (j + 1) = depth c j) as -> by (apply skipped_level; [split; [done | exact (proj1 (built_bytes b))] | lia | done]).
    rewrite IH1. unfold depth_at. clear - Hr. induction (b_refs b) as [|r l IH]; [done|]. simpl.
    rewrite IH by (intros; apply Hr; by right). by rewrite (Hr r) by (by left).
  - unfold fits in *. change (p_references p) with (b_refs b) in *. rewrite list.Forall_forall in IH2 |- *. intros r Hrr. rewrite Hr by done. by apply IH2.
Qed.
End Depths.

(** ** Agreement up to a level *)

Record agrees (d : Z) (c r : Cell) : Prop := {
  ag_hash : forall l, 0 <= l <= d -> hash r l = hash c l;
  ag_depth : forall l, 0 <= l -> depth r l <= depth c (Z.min l d);
  ag_depth_eq : forall l, 0 <= l <= d -> depth r l = depth c l;
  ag_mask : low d (level_mask r) = low d (level_mask c);
  ag_sound : sound r;
}.

Lemma from_level_bit l j : 0 <= l -> 0 <= j <= 2 -> Z.testbit (LevelMask.from_level l) j = (j <? l).
Proof.
  intros Hl Hj. unfold LevelMask.from_level. assert (j = 0 \/ j = 1 \/ j = 2) as [-> | [-> | ->]] by lia;
    destruct (Z.eqb_spec l 0) as [->|]; [done| | done | | done |];
    destruct (Z.eqb_spec l 1) as [->|]; [done| | done | | done |];
    destruct (Z.eqb_spec l 2) as [->|]; [done| | done | | done |]; symmetry; apply Z.ltb_lt; lia.
Qed.

(** The levels of [c] are those of the Merkle cells above it. *)
Definition below (d : Z) (c : Cell) : Prop := 0 <= level_mask c < 2 ^ d.

Lemma low_bits k a b : 0 <= k -> low k a = low k b <-> forall j, 0 <= j < k -> Z.testbit a j = Z.testbit b j.
Proof.
  intros Hk. unfold low. replace (2 ^ k - 1) with (Z.ones k) by (rewrite Z.ones_equiv; lia). split.
  - intros E j Hj. apply (f_equal (fun x => Z.testbit x j)) in E. rewrite !Z.land_spec, Z.ones_spec_low, !andb_true_r in E by lia. done.
  - intros H. apply Z.bits_inj'. intros j Hj. rewrite !Z.land_spec. destruct (decide (j < k)).
    + by rewrite H by lia.
    + by rewrite Z.ones_spec_high, !andb_false_r by lia.
Qed.

Lemma below_bit k c j : below k c -> 0 <= k <= j -> Z.testbit (level_mask c) j = false.
Proof.
  intros [H0 H] Hj. destruct (decide (level_mask c = 0)) as [->|]; [by rewrite Z.bits_0|].
  apply Z.bits_above_log2; [done|]. apply Z.log2_lt_pow2; [lia|]. eapply Z.lt_le_trans; [exact H|]. apply Z.pow_le_mono_r; lia.
Qed.

Lemma below_same k c l : sound c -> below k c -> 0 <= k <= 3 -> k <= l -> hash c l = hash c k /\ depth c l = depth c k.
Proof.
  intros [Hi Hd] Hb Hk Hl. pose proof (level_mask_ok c Hd) as Hw. apply indexed_hash; [done|].
  unfold hash_index, LevelMask.hash_index. f_equal. apply Z.bits_inj'. intros j Hj. rewrite !Z.land_spec.
  fold (level_mask c). destruct (decide (k <= j)); [by rewrite (below_bit k c j) by (done || lia)|]. f_equal.
  rewrite !from_level_bit by lia. by rewrite !(proj2 (Z.ltb_lt _ _)) by lia.
Qed.

(** Every cell agrees with itself where it is. *)
Lemma agrees_refl k c : sound c -> below k c -> 0 <= k <= 3 -> agrees k c c.
Proof.
  intros Hs Hb Hk. split; try done. intros l Hl. destruct (decide (l <= k)); [rewrite Z.min_l by lia; lia|].
  rewrite Z.min_r by lia. destruct (below_same k c l) as [_ ->]; (done || lia).
Qed.

Section Rebuild.
Context (sha256 : list Z -> HashBytes).
Context (b : CellBuilder) (Hb : builder_wf b) (Hrefs : Forall sound (b_refs b)) (Hne : b_refs b <> []).
Context (ty : CellType) (Hn : node b ty) (k : Z) (Hk : 0 <= k <= 3).
Context (rs : list Cell) (Hrs : Forall2 (agrees (k + offset_of ty)) (b_refs b) rs).
Let p := build_parts b.
Let c := node_cell sha256 b ty.
Let b' := set_references b rs.
Let p' := build_parts b'.
Let r := node_cell sha256 b' ty.

Lemma rebuilt_wf : builder_wf b' /\ Forall sound rs /\ rs <> [] /\ zlen rs = zlen (b_refs b).
Proof.
  assert (zlen rs = zlen (b_refs b)) as Hz by (unfold zlen; by rewrite (Forall2_length Hrs)).
  split_and!; [| | | done].
  - destruct Hb as [? ?]. split; [done|]. change (b_refs b') with rs. by rewrite Hz.
  - apply list.Forall_lookup. intros i y Ey. destruct (Forall2_lookup_r _ _ _ _ _ Hrs Ey) as (x & _ & Ha). apply Ha.
  - intros E. rewrite E in Hrs. by apply Forall2_nil_inv_r in Hrs.
Qed.

Lemma rebuilt_parts : p_data p' = p_data p /\ d2 (p_descriptor p') = d2 (p_descriptor p) /\ p_bit_len p' = p_bit_len p /\
  Descr.is_exotic (p_descriptor p') = Descr.is_exotic (p_descriptor p).
Proof.
  destruct rebuilt_wf as (Hw & Hs & _). split_and!; [done..|].
  destruct (built_descriptor b Hb (refs_d1 b Hrefs)) as (_ & _ & _ & E & _).
  destruct (built_descriptor b' Hw (refs_d1 b' Hs)) as (_ & _ & _ & E' & _). by transitivity (b_exotic b).
Qed.

Lemma rebuilt_type_mask a : 0 <= a < 256 -> Z.land (Descr.compute_d1 a (b_exotic b) (u8 (zlen (b_refs b)))) TYPE_MASK =
  Z.land (Descr.compute_d1 0 (b_exotic b) (u8 (zlen (b_refs b)))) TYPE_MASK.
Proof.
  intros Ha. unfold Descr.compute_d1. rewrite !Z.land_lor_distr_l.
  assert (forall x, 0 <= x < 256 -> Z.land (u8 (Z.shiftl x 5)) TYPE_MASK = 0) as H.
  { intros x Hx. apply Z.eqb_eq, (Zrange_forall (fun x => Z.land (u8 (Z.shiftl x 5)) TYPE_MASK =? 0) 256); [by vm_compute | lia]. }
  by rewrite !H by lia.
Qed.

Lemma rebuilt_base : Z.land (d1 (p_descriptor p')) TYPE_MASK = Z.land (d1 (p_descriptor p)) TYPE_MASK.
Proof.
  destruct rebuilt_wf as (Hw & Hs & _ & Hz).
  destruct (built_descriptor b Hb (refs_d1 b Hrefs)) as (E1 & _ & Hm1 & _).
  destruct (built_descriptor b' Hw (refs_d1 b' Hs)) as (E2 & _ & Hm2 & _). unfold LevelMask.wf in *.
  assert (0 <= build_level_mask (b_exotic b) (inner b) (p_children_mask p) < 8) as H1 by (unfold p; rewrite <- E1; exact Hm1).
  assert (0 <= build_level_mask (b_exotic b') (inner b') (p_children_mask p') < 8) as H2 by (unfold p'; rewrite <- E2; exact Hm2).
  transitivity (Z.land (Descr.compute_d1 0 (b_exotic b) (u8 (zlen (b_refs b)))) TYPE_MASK).
  - rewrite <- (rebuilt_type_mask (build_level_mask (b_exotic b') (inner b') (p_children_mask p'))) by lia. rewrite <- Hz. done.
  - symmetry. apply (rebuilt_type_mask (build_level_mask (b_exotic b) (inner b) (p_children_mask p))). lia.
Qed.

Lemma rebuilt_valid : validate_type p' = Ok (ty, LevelMask.virtualize (p_children_mask p') (offset_of ty)).
Proof.
  destruct rebuilt_parts as (Ed & _ & El & Ex). destruct rebuilt_wf as (_ & _ & _ & Hz). pose proof (node_type _ _ Hn) as Hv. fold p in Hv.
  assert (forall i x y, b_refs b !! i = Some x -> rs !! i = Some y -> hash y 0 = hash x 0 /\ depth y 0 = depth x 0) as Hag.
  { intros i x y Ex' Ey. pose proof (Forall2_lookup_lr _ _ _ _ _ _ Hrs Ex' Ey) as Ha.
    pose proof (offset_range b Hb Hrefs Hne ty Hn). split; [by apply Ha; lia | by apply (ag_depth_eq _ _ _ Ha); lia]. }
  destruct (validate_shape _ _ _ Hv Hne) as (Hp & Ho & _).
  unfold validate_type in *. rewrite Ed, El, Ex. change (p_references p') with rs. change (p_references p) with (b_refs b) in Hv.
  destruct (Descr.is_exotic (p_descriptor p)); [|].
  2: { injection Hv as <- _. unfold LevelMask.virtualize. change (offset_of Ordinary) with 0. by rewrite Z.shiftr_0_r. }
  destruct (p_data p) as [|x l]; [done|]. destruct (CellTypes.from_byte_exotic x) as [[]|]; try done.
  - exfalso. destruct (_ =? 0); [done|]. destruct (_ || _); [done|]. destruct (negb _); [done|]. by injection Hv as <-.
  - exfalso. destruct (_ || _) eqn:G; [done|]. guards G. by apply Hne, zlen_0.
  - rewrite Hz. destruct (_ || _) eqn:G; [done|]. guards G.
    destruct (zlen_1 (b_refs b)) as (x1 & E1); [done|]. destruct (zlen_1 rs) as (y1 & E2); [lia|].
    destruct (Hag 0%nat x1 y1) as [Eh Edp]; [by rewrite E1 | by rewrite E2 |]. rewrite E1 in Hv. rewrite E2, Eh, Edp.
    destruct (_ || _); [done|]. by injection Hv as <- _.
  - rewrite Hz. destruct (_ || _) eqn:G; [done|]. guards G.
    destruct (zlen_2 (b_refs b)) as (x1 & x2 & E1); [done|]. destruct (zlen_2 rs) as (y1 & y2 & E2); [lia|].
    destruct (Hag 0%nat x1 y1) as [Eh1 Ed1]; [by rewrite E1 | by rewrite E2 |].
    destruct (Hag 1%nat x2 y2) as [Eh2 Ed2]; [by rewrite E1 | by rewrite E2 |]. rewrite E1 in Hv. rewrite E2, Eh1, Ed1, Eh2, Ed2.
    destruct (_ || _ || _ || _); [done|]. by injection Hv as <- _.
Qed.

Lemma rebuilt_low : low k (LevelMask.virtualize (p_children_mask p') (offset_of ty)) = low k (level_mask c).
Proof.
  pose proof (offset_range b Hb Hrefs Hne ty Hn) as Ho. destruct (node_mask sha256 b Hb Hrefs Hne ty Hn) as [E _].
  change (level_mask c) with (level_mask (node_cell sha256 b ty)). rewrite E. apply low_bits; [lia|]. intros j Hj.
  unfold LevelMask.virtualize. rewrite !Z.shiftr_spec by lia. fold p.
  change (p_children_mask p') with (foldl (fun m c => LevelMask.bitor m (Descr.level_mask (descriptor c))) LevelMask.EMPTY rs).
  change (p_children_mask p) with (foldl (fun m c => LevelMask.bitor m (Descr.level_mask (descriptor c))) LevelMask.EMPTY (b_refs b)).
  rewrite !children_bit. f_equal. pose proof Hrs as HF. clear - HF Hj Ho. induction HF as [|x y xs ys Ha _ IH]; simpl; [done|]. rewrite IH. f_equal.
  apply (proj1 (low_bits (k + offset_of ty) _ _ ltac:(lia)) (ag_mask _ _ _ Ha)). lia.
Qed.

Lemma rebuilt_fits lvl : 0 <= lvl <= 3 -> fits p' ty lvl.
Proof.
  intros Hl. pose proof (offset_range b Hb Hrefs Hne ty Hn) as Ho.
  destruct (node_depth sha256 b Hb Hrefs Hne ty Hn (Z.min lvl k) ltac:(lia)) as [_ Hf]. unfold fits in *.
  change (p_references p') with rs. change (p_references (build_parts b)) with (b_refs b) in Hf.
  apply list.Forall_lookup. intros i y Ey. destruct (Forall2_lookup_r _ _ _ _ _ Hrs Ey) as (x & Ex & Ha).
  pose proof (proj1 (list.Forall_lookup _ _) Hf i x Ex) as Hx. simpl in Hx.
  pose proof (ag_depth _ _ _ Ha (lvl + offset_of ty) ltac:(lia)) as Hd.
  replace (Z.min (lvl + offset_of ty) (k + offset_of ty)) with (Z.min lvl k + offset_of ty) in Hd by lia. lia.
Qed.

Lemma rebuilt_mask : level_mask r = LevelMask.virtualize (p_children_mask p') (offset_of ty) /\ LevelMask.wf (level_mask r).
Proof.
  destruct rebuilt_wf as (Hw & Hs & _). destruct (built_descriptor b' Hw (refs_d1 b' Hs)) as (E & _ & Hm & _).
  split; [|exact Hm]. change (level_mask r) with (Descr.level_mask (p_descriptor p')). unfold p'. rewrite E.
  by apply (node_level_mask b Hb (refs_d1 b Hrefs) Hne).
Qed.

Lemma rebuilt_node : node b' ty.
Proof.
  split; fold p'.
  - change (Descr.level_mask (p_descriptor p')) with (level_mask r). rewrite (proj1 rebuilt_mask). apply rebuilt_valid.
  - apply list.Forall_forall. intros l [_ Hl]%list_elem_of_filter. apply rebuilt_fits.
    rewrite !list.elem_of_cons, elem_of_nil in Hl. lia.
Qed.

Lemma rebuilt_levels l : 0 <= l <= k -> hash r l = hash c l /\ depth r l = depth c l.
Proof.
  intros Hl. destruct (node_mask sha256 b Hb Hrefs Hne ty Hn) as [_ Hw]. destruct rebuilt_mask as [Er Hwr].
  destruct rebuilt_parts as (Ed & Ed2 & _). pose proof (offset_range b Hb Hrefs Hne ty Hn) as Ho.
  assert (low k (level_mask c) = low k (level_mask r)) as Elow by (rewrite Er; symmetry; apply rebuilt_low).
  destruct (low_levels _ _ k l Hw Hwr Hk Hl Elow) as (Eup & Eidx & Hidx). fold c in Eidx, Eup, Hidx.
  assert (chain sha256 p' ty (d1 (p_descriptor p')) (levels_upto (level_mask c) k) [] =
    chain sha256 p ty (d1 (p_descriptor p)) (levels_upto (level_mask c) k) []) as Ech.
  { apply chain_ext; [done | done | apply rebuilt_base |]. apply list.Forall_forall. intros lvl Hlvl.
    unfold levels_upto in Hlvl. apply list_elem_of_filter in Hlvl as [_ Hlvl]. apply elem_of_seqZ in Hlvl.
    eapply list.Forall2_impl; [exact Hrs|]. intros x y Ha. split; [apply Ha | apply (ag_depth_eq _ _ _ Ha)]; lia. }
  assert (chain sha256 p' ty (d1 (p_descriptor p')) (node_levels b') [] !! Z.to_nat (LevelMask.hash_index (level_mask r) l) =
    chain sha256 p ty (d1 (p_descriptor p)) (node_levels b) [] !! Z.to_nat (LevelMask.hash_index (level_mask c) l)) as E.
  { rewrite Eidx. unfold node_levels. change (Descr.level_mask (p_descriptor (build_parts b'))) with (level_mask r).
    change (Descr.level_mask (p_descriptor (build_parts b))) with (level_mask c).
    rewrite !(all_levels _ k) by done. rewrite Eup, !chain_lookup_left by (unfold zlen in Hidx; lia). by rewrite Ech. }
  unfold r, c, node_cell. cbn [hash depth]. unfold level_descr. fold p p'.
  change (hash_index (p_descriptor p') l) with (LevelMask.hash_index (level_mask r) l).
  change (hash_index (p_descriptor p) l) with (LevelMask.hash_index (level_mask c) l). by rewrite E.
Qed.

(** Above level [k] the depth of the rebuilt cell does not grow. *)
Lemma rebuilt_depth_above j : k + Z.of_nat j <= 3 -> depth r (k + Z.of_nat j) <= depth c k.
Proof.
  pose proof (offset_range b Hb Hrefs Hne ty Hn) as Ho. destruct rebuilt_wf as (Hw & Hs & Hnr & _).
  destruct rebuilt_mask as [_ Hwr]. induction j as [|j IH]; intros Hj.
  { rewrite Z.add_0_r. by rewrite (proj2 (rebuilt_levels k ltac:(lia))). }
  replace (k + Z.of_nat (S j)) with (k + Z.of_nat j + 1) in * by lia. set (l := k + Z.of_nat j) in *.
  destruct (LevelMask.contains (level_mask r) (l + 1)) eqn:Ec.
  - destruct (node_level_lookup sha256 b' Hw Hs Hnr ty rebuilt_node (l + 1) ltac:(lia) Ec) as [E _]. fold r in E. rewrite E.
    change (b_refs b') with rs. apply depth_at_bound.
    + unfold c. rewrite (proj1 (node_depth sha256 b Hb Hrefs Hne ty Hn k Hk)). apply depth_at_nonneg.
    + apply list.Forall_lookup. intros i y Ey. destruct (Forall2_lookup_r _ _ _ _ _ Hrs Ey) as (x & Ex & Ha).
      pose proof (ag_depth _ _ _ Ha (l + 1 + offset_of ty) ltac:(lia)) as Hd. rewrite Z.min_r in Hd by lia.
      unfold c. rewrite (proj1 (node_depth sha256 b Hb Hrefs Hne ty Hn k Hk)).
      pose proof (depth_at_le (b_refs b) (k + offset_of ty) x ltac:(by eapply list_elem_of_lookup_2)). lia.
  - rewrite contains_bit in Ec by (done || lia).
    destruct (skipped_level r l) as [_ ->]; [split; [done | exact (proj1 (built_bytes b'))] | lia | done | apply IH; lia].
Qed.

Lemma node_sound : sound r.
Proof. split; [done | exact (proj1 (built_bytes b'))]. Qed.

Lemma rebuilt_agrees : agrees k c r.
Proof.
  split.
  - intros l Hl. by apply rebuilt_levels.
  - intros l Hl. destruct (decide (l <= k)).
    + rewrite Z.min_l by lia. rewrite (proj2 (rebuilt_levels l ltac:(lia))). lia.
    + rewrite Z.min_r by lia. destruct (decide (l <= 3)).
      * replace l with (k + Z.of_nat (Z.to_nat (l - k))) by lia. apply rebuilt_depth_above. lia.
      * destruct (indexed_hash r l 3) as [_ ->]; [done | |].
        { apply top_index; [apply rebuilt_mask | lia]. }
        replace 3 with (k + Z.of_nat (Z.to_nat (3 - k))) by lia. apply rebuilt_depth_above. lia.
  - intros l Hl. by apply rebuilt_levels.
  - rewrite (proj1 rebuilt_mask). apply rebuilt_low.
  - apply node_sound.
Qed.
End Rebuild.

(** * A pruned branch stands for its cell

    [make_pruned_branch] of a cell whose levels are below the Merkle depth succeeds;
    the result has one level more and agrees with the cell up to the depth. *)

(** Hashes are 32 bytes and depths 16 bits. *)
Definition hashes_ok (c : Cell) : Prop := forall l, 0 <= l <= 3 ->
  zlen (hash c l) = 32 /\ Forall is_byte (hash c l) /\ 0 <= depth c l < 65536.

Lemma Forall_concat_bytes (l : list (list Z)) : Forall (Forall is_byte) l -> Forall is_byte (concat l).
Proof. induction 1; simpl; [constructor | by apply Forall_app]. Qed.

Lemma zlen_concat {A} (l : list (list A)) n : Forall (fun x => zlen x = n) l -> zlen (concat l) = n * zlen l.
Proof. induction 1 as [|x l Hx _ IH]; simpl; [unfold zlen; simpl; lia|]. rewrite zlen_app, Hx, IH. unfold zlen. simpl. lia. Qed.

Section Pruned.
Context (sha256 : list Z -> HashBytes) (c : Cell) (k : Z).
Context (Hs : sound c) (Hk : 0 <= k <= 2) (Hbelow : below k c) (Hok : hashes_ok c).

Definition pruned_mask (m k : Z) : Z := LevelMask.new (Z.lor m (u8 (Z.shiftl 1 k))).
Let levels : list Z := LevelMask.collect 9 (LevelMask.into_iter (level_mask c)).
Let mask : Z := pruned_mask (level_mask c) k.

Lemma pruned_levels :
  LevelMask.new (Z.land (level_mask c) (u8 (u8 (Z.shiftl 1 k) - 1))) = level_mask c /\
  LevelMask.level mask = zlen levels /\ 1 <= zlen levels <= 3 /\ 0 < mask < 8 /\ Forall (fun l => 0 <= l <= 3) levels /\
  low k mask = low k (level_mask c).
Proof.
  pose proof (level_mask_ok c (proj2 Hs)) as Hw. fold (level_mask c) in Hw.
  pose proof (masks_levels (fun a _ k _ => let ls := LevelMask.collect 9 (LevelMask.into_iter a) in
    negb ((k <=? 2) && (a <? 2 ^ k)) ||
    ((LevelMask.new (Z.land a (u8 (u8 (Z.shiftl 1 k) - 1))) =? a) && (LevelMask.level (pruned_mask a k) =? zlen ls) &&
     (1 <=? zlen ls) && (zlen ls <=? 3) && (0 <? pruned_mask a k) && (pruned_mask a k <? 8) &&
     forallb (fun l => (0 <=? l) && (l <=? 3)) ls && (low k (pruned_mask a k) =? low k a))) ltac:(by vm_compute)
    (level_mask c) 0 k 0 Hw ltac:(done) ltac:(lia) ltac:(lia)) as H. cbv beta zeta in H. fold levels mask in H.
  destruct Hbelow as [_ Hlt]. rewrite (proj2 (Z.leb_le k 2)), (proj2 (Z.ltb_lt _ _)) in H by (done || lia). cbn [andb negb orb] in H.
  rewrite !andb_true_iff, !Z.eqb_eq, !Z.leb_le, !Z.ltb_lt in H. destruct H as (((((((? & ?) & ?) & ?) & ?) & ?) & Hf) & ?).
  split_and!; try (done || lia). apply list.Forall_forall. intros l Hl. apply list_elem_of_In in Hl.
  pose proof (proj1 (forallb_forall _ _) Hf l Hl) as Hx. simpl in Hx. apply andb_true_iff in Hx as [?%Z.leb_le ?%Z.leb_le]. lia.
Qed.

Lemma pruned_index l : 0 <= l ->
  LevelMask.hash_index mask l = (if l <=? k then LevelMask.hash_index (level_mask c) l else zlen levels) /\
  (l <= k -> 0 <= LevelMask.hash_index (level_mask c) l < zlen levels).
Proof.
  intros Hl. pose proof (level_mask_ok c (proj2 Hs)) as Hw. fold (level_mask c) in Hw.
  assert (forall l, 0 <= l <= 3 -> LevelMask.hash_index mask l = (if l <=? k then LevelMask.hash_index (level_mask c) l else zlen levels) /\
    (l <= k -> 0 <= LevelMask.hash_index (level_mask c) l < zlen levels)) as H.
  { clear l Hl. intros l Hl.
    pose proof (masks_levels (fun a _ k l => let ls := LevelMask.collect 9 (LevelMask.into_iter a) in
      negb ((k <=? 2) && (a <? 2 ^ k) && (l <=? 3)) ||
      ((LevelMask.hash_index (pruned_mask a k) l =? (if l <=? k then LevelMask.hash_index a l else zlen ls)) &&
       (negb (l <=? k) || (0 <=? LevelMask.hash_index a l) && (LevelMask.hash_index a l <? zlen ls)))) ltac:(by vm_compute)
      (level_mask c) 0 k l Hw ltac:(done) ltac:(lia) ltac:(lia)) as H. cbv beta zeta in H. fold levels mask in H.
    destruct Hbelow as [_ Hlt]. rewrite (proj2 (Z.leb_le k 2)), (proj2 (Z.ltb_lt _ _)), (proj2 (Z.leb_le l 3)) in H by (done || lia).
    cbn [andb negb orb] in H. apply andb_true_iff in H as [H1%Z.eqb_eq H2]. split; [done|]. intros Hlk.
    rewrite (proj2 (Z.leb_le l k)) in H2 by done. cbn [negb orb] in H2. apply andb_true_iff in H2 as [?%Z.leb_le ?%Z.ltb_lt]. lia. }
  destruct (decide (l <= 3)); [by apply H|]. destruct (H 3 ltac:(lia)) as [H3 _].
  rewrite top_index; [| destruct pruned_levels as (_ & _ & _ & ? & _); unfold LevelMask.wf; lia | lia]. rewrite H3, !(proj2 (Z.leb_gt _ k)) by lia. split; [done | lia].
Qed.

Let hs : list (list Z) := (fun l => hash c l) <$> levels.
Let ds : list (list Z) := (fun l => to_be_bytes 2 (depth c l)) <$> levels.

Lemma pieces_sizes : Forall (fun x => zlen x = 32) hs /\ Forall (fun x => zlen x = 2) ds /\
  Forall (Forall is_byte) hs /\ Forall (Forall is_byte) ds /\ zlen hs = zlen levels /\ zlen ds = zlen levels.
Proof.
  destruct pruned_levels as (_ & _ & _ & _ & Hl & _). unfold hs, ds.
  split_and!; [| | | | unfold zlen; by rewrite length_fmap..]; apply Forall_fmap; eapply list.Forall_impl; try exact Hl;
    intros l H0; simpl; destruct (Hok l H0) as (? & ? & ?); first [done | by apply length_to_be_bytes | by apply to_be_bytes_bytes].
Qed.

Definition pruned_bytes : list Z := ([1; mask] ++ concat hs) ++ concat ds.

Lemma pruned_bytes_len : zlen pruned_bytes = 2 + 34 * zlen levels /\ Forall is_byte pruned_bytes.
Proof.
  destruct pieces_sizes as (H1 & H2 & H3 & H4 & E1 & E2). destruct pruned_levels as (_ & _ & _ & Hm & _).
  unfold pruned_bytes. rewrite !zlen_app, (zlen_concat hs 32), (zlen_concat ds 2) by done. change (zlen [1; mask]) with 2. split; [lia|].
  rewrite !Forall_app. split_and!; [repeat constructor; unfold is_byte; lia | by apply Forall_concat_bytes..].
Qed.

Lemma stores_bytes {A} (f : A -> CellDataBuilder -> result CellDataBuilder) (g : A -> list Z) (n : Z) ls bytes :
  (forall l d, l ∈ ls -> wf d -> f l d = append d (bits_from (g l) 0 (8 * zlen (g l)))) ->
  (forall l, l ∈ ls -> zlen (g l) = n) -> 0 <= n -> zlen bytes + n * zlen ls <= 127 ->
  foldl (fun b l => attempt (on_data (f l)) b) (byte_builder bytes true []) ls = byte_builder (bytes ++ concat (g <$> ls)) true [].
Proof.
  intros Hf Hg Hn. revert bytes. induction ls as [|l ls IH]; intros bytes Hz; simpl; [by rewrite app_nil_r|].
  replace (zlen (l :: ls)) with (1 + zlen ls) in Hz by (unfold zlen; simpl; lia). pose proof (zlen_nonneg ls).
  unfold attempt at 2. rewrite (byte_builder_store _ bytes true [] (g l)); [| rewrite (Hg l) by (by left); nia | done |].
  - rewrite IH; [by rewrite <- app_assoc | | | rewrite zlen_app, (Hg l) by (by left); nia].
    + intros. apply Hf; [by right | done].
    + intros. apply Hg. by right.
  - intros d Hd. apply Hf; [by left | done].
Qed.

Definition pruned_builder : CellBuilder := byte_builder pruned_bytes true [].

Lemma pruned_build ctx : make_pruned_branch ctx c k = build_ext ctx pruned_builder.
Proof.
  destruct pruned_levels as (E1 & _ & Hn & Hm & Hl & _). destruct pieces_sizes as (Hhs & Hds & _ & _ & Eh & Ed).
  unfold make_pruned_branch, LevelMask.to_byte. cbv zeta. rewrite E1. fold levels. change (LevelMask.new (Z.lor _ _)) with mask.
  set (b0 := set_exotic builder_new true). assert (b0 = byte_builder [] true []) as -> by (by vm_compute).
  rewrite list.Forall_forall in Hl.
  assert (from_be_bytes [1; mask] = 256 + mask) as Ev by done. change (CellTypes.to_byte PrunedBranch) with 1. rewrite Ev.
  unfold attempt at 3. rewrite (byte_builder_store _ [] true [] [1; mask]); [| done | done |]; cycle 1.
  { intros d Hd. rewrite store_u16_spec by (done || lia). f_equal. change 16 with (8 * 2) at 1. rewrite uint_bits_bytes by lia.
    change (8 * zlen [1; mask]) with 16. f_equal. unfold to_be_bytes. cbn [seqZ fmap list_fmap].
    change (seqZ 0 2) with [0; 1]. cbn [fmap list_fmap]. f_equal; [|f_equal].
    - change (8 * (2 - 1 - 0)) with 8. rewrite Z.shiftr_div_pow2 by lia. change (2 ^ 8) with 256. unfold u8, wrap. dlia.
    - change (8 * (2 - 1 - 1)) with 0. rewrite Z.shiftr_0_r. unfold u8, wrap. dlia. }
  cbn [app]. rewrite (stores_bytes (fun l d => store_u256 d (hash c l)) (fun l => hash c l) 32); cycle 1.
  { intros l d Hin Hd. destruct (Hok l (Hl l Hin)) as (H32 & Hby & _). rewrite H32. by apply store_u256_spec. }
  { intros l Hin. by apply Hok, Hl. }
  { lia. }
  { change (zlen [1; mask]) with 2. lia. }
  rewrite (stores_bytes (fun l d => store_u16 d (depth c l)) (fun l => to_be_bytes 2 (depth c l)) 2).
  - done.
  - intros l d Hin Hd. destruct (Hok l (Hl l Hin)) as (_ & _ & Hdp). rewrite store_u16_spec by (done || lia).
    rewrite length_to_be_bytes by lia. f_equal. by apply (uint_bits_bytes 2).
  - intros. by apply length_to_be_bytes.
  - lia.
  - rewrite zlen_app. fold hs. rewrite (zlen_concat hs 32), Eh by done. change (zlen [1; mask]) with 2. lia.
Qed.

Lemma pruned_head : byte_at pruned_bytes 0 = 1 /\ byte_at pruned_bytes 1 = mask /\ exists l, pruned_bytes = 1 :: l.
Proof. unfold pruned_bytes. cbn [app]. split_and!; [done | done | by eexists]. Qed.

Lemma pruned_parts : let p := build_parts pruned_builder in let d := p_descriptor p in
  p_data p = pruned_bytes /\ p_bit_len p = 16 + 272 * zlen levels /\ Descr.is_exotic d = true /\
  Descr.reference_count d = 0 /\ Descr.level_mask d = mask /\ Descr.byte_len d = zlen pruned_bytes /\ is_byte (d1 d).
Proof.
  destruct pruned_levels as (_ & _ & Hn & Hm & _). destruct pruned_bytes_len as [Hz Hb]. destruct pruned_head as (E0 & E1 & _).
  destruct (byte_builder_parts pruned_bytes true [] Hb ltac:(lia)) as (Ed & El & Eb0 & Eb1).
  assert (builder_wf pruned_builder) as Hw by (apply byte_builder_wf; [lia | done]).
  destruct (built_descriptor pruned_builder Hw ltac:(constructor)) as (Elm & _ & _ & Hex & Hrc & _ & Hbl & _).
  intros p d. fold pruned_builder in *. split_and!; try done.
  - unfold p. rewrite El. lia.
  - unfold d, p. rewrite Elm. unfold build_level_mask. change (b_exotic pruned_builder) with true.
    change (DataBuilder.bit_len (inner pruned_builder)) with (p_bit_len (build_parts pruned_builder)). rewrite El.
    rewrite (proj2 (Z.leb_le _ _)) by lia. cbn [andb]. rewrite Eb0, E0, Eb1, E1 by lia.
    change (CellTypes.from_byte_exotic 1) with (Some PrunedBranch). cbn match.
    apply Z.eqb_eq, (Zrange_forall (fun m => LevelMask.new m =? m) 8); [by vm_compute | lia].
  - unfold d, p. rewrite Hbl. change (DataBuilder.bit_len (inner pruned_builder)) with (p_bit_len (build_parts pruned_builder)).
    rewrite El. dlia.
  - apply (built_bytes pruned_builder).
Qed.

Lemma pruned_hash_levels p dd1 m : p_references p = [] -> exists h, hash_levels sha256 p PrunedBranch m [0; 1; 2; 3] dd1 [] = Ok [(h, 0)].
Proof. intros E. cbn. unfold hash_level. rewrite E. cbn. by eexists. Qed.

Lemma pruned_final : exists repr d, make_pruned_branch (empty_context sha256) c k = Ok (PrunedBranchCell repr (zlen levels) d pruned_bytes) /\
  Descr.level_mask d = mask /\ Descr.reference_count d = 0 /\ is_byte (d1 d) /\ Descr.is_exotic d = true.
Proof.
  destruct pruned_parts as (Ed & El & Hex & Hrc & Hlm & _ & Hd1). destruct pruned_levels as (_ & Hlev & Hn & Hm & _).
  destruct pruned_head as (E0 & E1 & (l & Ehd)). destruct pruned_bytes_len as [Hz _].
  rewrite pruned_build. unfold build_ext. cbn [finalize_cell empty_context]. unfold compute_hashes, validate_type.
  rewrite Ed, El, Hex, Hlm, Hlev. rewrite (proj2 (Z.ltb_ge _ _)) by dlia.
  destruct pruned_bytes as [|x l'] eqn:EB; [done|]. injection Ehd as -> ->.
  change (CellTypes.from_byte_exotic 1) with (Some PrunedBranch). cbn match.
  rewrite (proj2 (Z.eqb_neq (zlen levels) 0)) by lia. rewrite (proj2 (Z.eqb_eq (16 + 272 * zlen levels) _)) by lia.
  change (p_references (build_parts pruned_builder)) with (@nil Cell). rewrite E1, (Z.eqb_refl mask).
  change (zlen [] =? 0) with true. cbn [orb negb rbind]. rewrite (Z.eqb_refl mask). cbn [negb].
  destruct (pruned_hash_levels (build_parts pruned_builder) (d1 (p_descriptor (build_parts pruned_builder))) mask eq_refl) as (h & ->).
  cbn [rbind].
  unfold make_cell. set (d := p_descriptor (build_parts pruned_builder)) in *.
  assert (Descr.cell_type d = PrunedBranch) as ->.
  { unfold Descr.cell_type. fold (Descr.reference_count d). rewrite Hrc, d1_level_byte, Hlm by exact Hd1.
    unfold Descr.is_exotic in Hex. apply negb_true_iff in Hex. rewrite Hex.
    by rewrite (proj2 (Z.eqb_neq mask 0)) by lia. }
  rewrite Hlm, Hlev, Ed. eexists _, d. split_and!; [reflexivity | done..].
Qed.

(** A pruned branch agrees with its cell up to the depth it was made for. *)
Lemma pruned_agrees : exists P, make_pruned_branch (empty_context sha256) c k = Ok P /\ agrees k c P /\
  Descr.is_pruned_branch (descriptor P) = true /\ level_mask P = mask.
Proof.
  destruct pruned_final as (repr & d & E & Hlm & Hrc & Hd1 & Hex). eexists. split; [exact E|]. set (P := PrunedBranchCell _ _ _ _).
  destruct pieces_sizes as (Hhs & Hds & Hbh & Hbd & Eh & Eds). destruct pruned_levels as (_ & Hlev & Hn & Hm & Hl3 & Hlow).
  pose proof (level_mask_ok c (proj2 Hs)) as Hw. fold (level_mask c) in Hw.
  assert (forall l, 0 <= l <= k -> hash P l = hash c l /\ depth P l = depth c l) as Hag.
  { intros l Hl. destruct (pruned_index l ltac:(lia)) as [Ei Hi]. rewrite (proj2 (Z.leb_le l k)) in Ei by lia.
    destruct (mask_levels_index _ l Hw ltac:(lia)) as (j & Ej & Hj). fold levels in Ej. set (i := LevelMask.hash_index (level_mask c) l) in *.
    assert (hash c l = hash c j /\ depth c l = depth c j) as [-> ->] by (by apply indexed_hash; [apply Hs|]).
    pose proof (at_all pruned_bytes) as Hat. unfold pruned_bytes in Hat at 2.
    apply at_app in Hat as [[_ Hh]%at_app Hdp]. rewrite zlen_app, (zlen_concat hs 32) in Hdp by done.
    change (zlen [1; mask]) with 2 in *.
    apply (at_concat _ _ hs 32 (Z.to_nat i) (hash c j)) in Hh; [| done | unfold hs; by rewrite list_lookup_fmap, Ej].
    apply (at_concat _ _ ds 2 (Z.to_nat i) (to_be_bytes 2 (depth c j))) in Hdp; [| done | unfold ds; by rewrite list_lookup_fmap, Ej].
    rewrite Z2Nat.id in Hh, Hdp by lia. rewrite Eh in Hdp.
    assert (0 <= j <= 3) as Hj3 by (eapply (proj1 (list.Forall_lookup _ _) Hl3); exact Ej).
    destruct (Hok j Hj3) as (H32 & _ & Hdj).
    unfold P. cbn [hash depth]. change (hash_index d l) with (LevelMask.hash_index (Descr.level_mask d) l). rewrite Hlm, Ei.
    rewrite (proj2 (Z.eqb_neq _ _)) by lia. split.
    - pose proof (at_sub _ _ _ Hh) as Es. rewrite H32 in Es. by replace (2 + i * 32) with (0 + 2 + 32 * i) by lia.
    - pose proof (at_sub _ _ _ Hdp) as Es. rewrite length_to_be_bytes in Es by lia.
      replace (2 + zlen levels * 32 + i * 2) with (0 + (2 + 32 * zlen levels) + 2 * i) by lia. rewrite Es. apply from_to_be; lia. }
  split_and!.
  - split.
    + intros l Hl. by apply Hag.
    + intros l Hl. destruct (decide (l <= k)).
      * rewrite Z.min_l by lia. rewrite (proj2 (Hag l ltac:(lia))). lia.
      * rewrite Z.min_r by lia. destruct (pruned_index l ltac:(lia)) as [Ei _]. rewrite (proj2 (Z.leb_gt l k)) in Ei by lia.
        unfold P. cbn [depth]. change (hash_index d l) with (LevelMask.hash_index (Descr.level_mask d) l).
        rewrite Hlm, Ei, Z.eqb_refl. apply (Hok k). lia.
    + intros l Hl. by apply Hag.
    + change (level_mask P) with (Descr.level_mask d). by rewrite Hlm.
    + split; [done | exact Hd1].
  - change (descriptor P) with d. unfold Descr.is_pruned_branch. rewrite Hex, Hrc, Hlm. unfold LevelMask.is_empty.
    by rewrite (proj2 (Z.eqb_neq mask 0)) by lia.
  - done.
Qed.
End Pruned.
