(* ===== verification/Tree.v ===== *)
(** * Tree: the cells the builder makes

    What the proofs about trees of cells use of a cell that [build_ext] made with the
    empty context: its children are those of the builder, its hashes are 32 bytes and
    its depths 16 bits at every level, and a builder filled from it and with other
    children is the builder it was made of with these children. *)

From S2P Require Import Prelude Bits DataBuilder DataBuilderSpec CellMeta Cell RefsIter Slice SliceSpec Builder BuilderSpec Context Pieces CellTheorems BocSer Merkle BocRoundtrip Nodes.

(** A hash function of 32 bytes *)
Definition hash32 (sha256 : list Z -> HashBytes) : Prop := forall l, zlen (sha256 l) = 32 /\ Forall is_byte (sha256 l).

Definition entry_ok (e : HashBytes * Z) : Prop := zlen e.1 = 32 /\ Forall is_byte e.1 /\ 0 <= e.2 < 65536.

Lemma hash_depths_range refs lvl dep acc dep' acc' :
  0 <= dep < 65536 -> hash_depths refs lvl dep acc = Ok (dep', acc') -> 0 <= dep' < 65536.
Proof.
  revert dep acc. induction refs as [|c refs IH]; intros dep acc Hd; simpl; [by intros [= <- _]|].
  destruct (Z.ltb_spec 65535 (depth c lvl + 1)); [done|]. apply IH. lia.
Qed.

Section Entries.
Context (sha256 : list Z -> HashBytes) (Hsha : hash32 sha256).

Lemma hash_level_entry p ty mask lvl base hs base' hs' :
  Forall entry_ok hs -> hash_level sha256 p ty mask lvl base hs = Ok (base', hs') -> Forall entry_ok hs' /\ (0 < length hs')%nat.
Proof.
  intros Hh. unfold hash_level. destruct (hash_depths _ _ _ _) as [[dep bytes]|] eqn:E; [|done]. cbn [rbind]. intros [= _ <-].
  apply hash_depths_range in E; [|lia]. split; [|rewrite length_app; simpl; lia].
  apply Forall_app. split; [done|]. apply Forall_singleton. split; [|split]; [apply Hsha | apply Hsha | done].
Qed.

Lemma hash_levels_entries p ty mask lvls base hs hs' :
  Forall entry_ok hs -> hash_levels sha256 p ty mask lvls base hs = Ok hs' -> Forall entry_ok hs' /\ (length hs <= length hs')%nat.
Proof.
  revert base hs. induction lvls as [|l lvls IH]; intros base hs Hh; cbn [hash_levels]; [by intros [= <-]|].
  destruct (_ && _); [by apply IH|].
  destruct (hash_level _ _ _ _ _ _ _) as [[base' hs1]|] eqn:E; [|done]. cbn [rbind]. intros H.
  assert (length hs <= length hs1)%nat.
  { clear - E. unfold hash_level in E. destruct (hash_depths _ _ _ _) as [[? ?]|]; [|done]. injection E as _ <-. rewrite length_app. lia. }
  apply hash_level_entry in E as [E _]; [|done]. apply IH in H as [H ?]; [|done]. split; [done | lia].
Qed.

Lemma hash_levels_first p ty mask base hs :
  hash_levels sha256 p ty mask [0; 1; 2; 3] base [] = Ok hs -> Forall entry_ok hs /\ (0 < length hs)%nat.
Proof.
  change (hash_levels sha256 p ty mask [0; 1; 2; 3] base []) with
    (let! (base, hashes) := hash_level sha256 p ty mask 0 base [] in hash_levels sha256 p ty mask [1; 2; 3] base hashes).
  destruct (hash_level _ _ _ _ _ _ _) as [[base' hs1]|] eqn:E; [|done]. cbn [rbind]. intros H.
  apply hash_level_entry in E as [E ?]; [|constructor]. apply hash_levels_entries in H as [? ?]; [|done]. split; [done | lia].
Qed.
End Entries.

(** An index below the number of levels. *)
Lemma index_levels m l : LevelMask.wf m -> 0 <= l <= 3 ->
  (Z.to_nat (LevelMask.hash_index m l) < length (base.filter (fun k => LevelMask.contains m k = true) [0; 1; 2; 3]%Z))%nat /\
  0 <= LevelMask.hash_index m l <= LevelMask.level m /\ LevelMask.level m <= 3.
Proof.
  intros Hm Hl. pose proof (masks_levels (fun a _ _ l => negb (l <=? 3) ||
    ((Z.to_nat (LevelMask.hash_index a l) <? length (base.filter (fun k => LevelMask.contains a k = true) [0; 1; 2; 3]%Z))%nat &&
     (0 <=? LevelMask.hash_index a l) && (LevelMask.hash_index a l <=? LevelMask.level a) && (LevelMask.level a <=? 3))) ltac:(by vm_compute)
    m 0 0 l Hm ltac:(done) ltac:(lia) ltac:(lia)) as H. cbv beta zeta in H.
  rewrite (proj2 (Z.leb_le l 3)) in H by lia. cbn [negb orb] in H.
  rewrite !andb_true_iff, Nat.ltb_lt, !Z.leb_le in H. lia.
Qed.

Lemma be16_range x y : is_byte x -> is_byte y -> 0 <= from_be_bytes [x; y] < 65536.
Proof. unfold is_byte, from_be_bytes. simpl. lia. Qed.

Section Cells.
Context (sha256 : list Z -> HashBytes) (Hsha : hash32 sha256).
Context (b : CellBuilder) (Hb : builder_wf b) (Hrefs : Forall d1_ok (b_refs b)).
Let p := build_parts b.
Let d := p_descriptor p.
Context (hashes : list (HashBytes * Z)) (Hh : compute_hashes sha256 p = Ok hashes).
Let c := make_cell p hashes.

Lemma computed : exists ty, validate_type p = Ok (ty, Descr.level_mask d) /\
  hash_levels sha256 p ty (Descr.level_mask d) [0; 1; 2; 3] (d1 d) [] = Ok hashes.
Proof.
  pose proof Hh as H. clear Hh c. unfold compute_hashes in H. destruct (_ <? _); [done|].
  destruct (validate_type p) as [[ty mask]|]; [|done]. cbn [rbind] in H. fold d in H.
  destruct (Z.eqb_spec mask (Descr.level_mask d)) as [E|]; [|done]. subst mask. by exists ty.
Qed.

Lemma built_entries : Forall entry_ok hashes /\ (0 < length hashes)%nat.
Proof. destruct computed as (ty & _ & H). by eapply hash_levels_first. Qed.

(** Only a cell without references is made into a pruned branch. *)
Lemma pruned_type ty mask : validate_type p = Ok (ty, mask) -> CellTypes.is_pruned_branch ty = true ->
  Descr.cell_type d = PrunedBranch /\ zlen (p_data p) = 2 + 34 * LevelMask.level (Descr.level_mask d).
Proof.
  destruct (built_descriptor b Hb Hrefs) as (_ & _ & Hw & _ & Hrc & _). destruct (parts_data b Hb) as (Hz & _).
  fold p d in Hw, Hrc, Hz. change (DataBuilder.bit_len (inner b)) with (p_bit_len p) in Hz.
  assert (is_byte (d1 d)) as Hd1 by (by apply built_bytes).
  unfold validate_type. fold d. destruct (Descr.is_exotic d) eqn:Ex; [|by intros [= <- _]].
  destruct (p_data p) as [|x l] eqn:Ed; [done|]. rewrite <- Ed in *.
  destruct (CellTypes.from_byte_exotic x) as [[]|]; try done.
  - destruct (Z.eqb_spec (LevelMask.level (Descr.level_mask d)) 0) as [|Hl]; [done|]. destruct (_ || _) eqn:G; [done|]. guards G.
    intros _ _. change (p_references p) with (b_refs b) in *. split; [|rewrite Hz; dlia].
    unfold Descr.cell_type. fold (Descr.reference_count d). rewrite Hrc, d1_level_byte by exact Hd1.
    unfold Descr.is_exotic in Ex. apply negb_true_iff in Ex. rewrite Ex. replace (zlen (b_refs b)) with 0 by lia.
    destruct (Z.eqb_spec (Descr.level_mask d) 0) as [E|]; [|done]. by rewrite E in Hl.
  - destruct (_ || _); [done|]. by intros [= <- _].
  - destruct (_ || _); [done|]. destruct (p_references p); [done|]. destruct (_ || _); [done|]. by intros [= <- _].
  - destruct (_ || _); [done|]. destruct (p_references p) as [|? [|]]; [done..|]. destruct (_ || _); [done|]. by intros [= <- _].
Qed.

Lemma ordinary_hashes : Descr.cell_type d <> PrunedBranch ->
  hashes_ok (OrdinaryCell (p_bit_len p) hashes d (p_references p) (p_data p)).
Proof.
  intros Hty l Hl. destruct computed as (ty & Hv & H). destruct built_entries as [He _].
  destruct (built_descriptor b Hb Hrefs) as (_ & _ & Hw & _). fold p d in Hw.
  destruct (index_levels _ l Hw Hl) as (Hi & _).
  assert (CellTypes.is_pruned_branch ty = false) as Hp.
  { destruct (CellTypes.is_pruned_branch ty) eqn:E; [|done]. by destruct (pruned_type ty _ Hv E). }
  destruct (hash_levels_chain sha256 p ty (Descr.level_mask d) (d1 d) [0; 1; 2; 3] (d1 d) [] Hp ltac:(repeat constructor; lia) eq_refl) as [H1 H2].
  specialize (H1 (H2 _ H)). cbv zeta in H1.
  assert (hashes = chain sha256 p ty (d1 d) (base.filter (fun k => LevelMask.contains (Descr.level_mask d) k = true) [0; 1; 2; 3]) []) as Ech by congruence.
  destruct (chain_grows sha256 p ty (d1 d) (base.filter (fun k => LevelMask.contains (Descr.level_mask d) k = true) [0; 1; 2; 3]) []) as (new & En & Hlen).
  rewrite En in Ech. cbn [app] in Ech. rewrite <- Hlen, <- Ech in Hi.
  cbn [hash depth]. unfold level_descr, hash_index.
  destruct (lookup_lt_is_Some_2 hashes _ Hi) as [e Ee]. rewrite Ee. cbn [default].
  by apply (proj1 (list.Forall_lookup _ _) He _ _ Ee).
Qed.

Lemma built_hashes : hashes_ok c.
Proof.
  destruct built_entries as [He Hne]. destruct (lookup_lt_is_Some_2 hashes 0 Hne) as [e Ee].
  pose proof (proj1 (list.Forall_lookup _ _) He _ _ Ee) as Hrepr.
  destruct (built_descriptor b Hb Hrefs) as (_ & _ & Hw & _). destruct (parts_data b Hb) as (_ & Hby & _). fold p d in Hw, Hby.
  unfold c, make_cell. fold d. rewrite Ee. cbn [default].
  destruct (Descr.cell_type d) eqn:Et; try (apply ordinary_hashes; congruence).
  - destruct (_ && _); [|apply ordinary_hashes; congruence]. intros l _. split_and!; [done | | done..]. by repeat constructor.
  - destruct (childless_type d false) as (Hx & H0 & Hm); [by apply built_bytes | done |].
    pose proof (built_exotic sha256 b hashes Hh Hx) as Hv. fold p in Hv. unfold exotic_valid in Hv. fold d in Hv.
    destruct (built_descriptor b Hb Hrefs) as (_ & _ & _ & _ & Hrc & _). fold p d in Hrc. change (b_refs b) with (p_references p) in Hrc.
    assert (zlen (p_data p) = 2 + 34 * LevelMask.level (Descr.level_mask d)) as Hz.
    { destruct computed as (ty & Hvt & _). destruct (CellTypes.is_pruned_branch ty) eqn:E; [by apply (pruned_type ty _ Hvt)|].
      destruct (parts_data b Hb) as (Hz & _). fold p in Hz. change (DataBuilder.bit_len (inner b)) with (p_bit_len p) in Hz.
      destruct (CellTypes.from_byte_exotic _) as [[]|]; try done.
      - destruct Hv as (_ & Hlen & _). rewrite Hz, Hlen. dlia.
      - destruct Hv as (Hv & _). by rewrite Hv in Hm.
      - destruct Hv as (_ & _ & ? & Hr & _). by rewrite Hrc, Hr in H0.
      - destruct Hv as (_ & _ & ? & ? & Hr & _). by rewrite Hrc, Hr in H0. }
    intros l Hl. destruct (index_levels _ l Hw Hl) as (_ & Hi & Hlev). cbn [hash depth]. change (hash_index d l) with (LevelMask.hash_index (Descr.level_mask d) l).
    set (i := LevelMask.hash_index _ l) in *. set (n := LevelMask.level (Descr.level_mask d)) in *. clearbody i n.
    destruct (Z.eqb_spec i n) as [->|]; [split_and!; [apply Hrepr | apply Hrepr | lia | lia]|].
    split_and!; [apply zlen_sub; lia | by apply sub_bytes_bytes | |];
      rewrite <- two_bytes by lia; apply be16_range; by apply byte_at_range.
  - intros l _. split_and!; [apply Hrepr | apply Hrepr | done | done].
Qed.

Lemma built_plain : plain c /\ indexed c = true.
Proof. unfold c, make_cell. destruct (Descr.cell_type _); [destruct (_ && _)|..]; done. Qed.

(** A builder with the data of the cell *)
Lemma rebuild_builder rs :
  set_references (attempt (on_data (fun x => store_cell_data x c)) (set_exotic builder_new (is_exotic c))) rs = set_references b rs.
Proof.
  destruct (built_fields sha256 b Hb Hrefs hashes Hh) as (Ed & Edat & Ebl & _). fold p c in Ed, Edat, Ebl.
  destruct (parts_data b Hb) as (Hz & Hby & Hn & Hbits). fold p in Hz, Hby, Hbits.
  destruct (built_descriptor b Hb Hrefs) as (_ & _ & _ & Hex & _). fold p in Hex.
  unfold attempt, on_data, store_cell_data. cbn [inner set_exotic builder_new]. rewrite Edat, Ebl.
  rewrite store_raw_spec; [| apply data_new_wf | done | lia | rewrite Hz; dlia].
  rewrite raw_bits_exact by (rewrite Hz; dlia). rewrite Hbits. unfold append.
  change (DataBuilder.bit_len data_new) with 0. change (contents data_new) with (@nil bool). cbn [app].
  destruct Hb as [Hw _]. rewrite of_bits_contents by done. pose proof Hw as (_ & _ & Hr & _).
  rewrite zlen_contents by done. rewrite (proj2 (Z.leb_le _ _)) by lia. cbn [rbind].
  unfold set_references. cbn [inner b_exotic b_refs]. f_equal. unfold is_exotic. by rewrite Ed.
Qed.

Lemma built_wf : cell_wf c /\ counted c.
Proof.
  destruct (built_fields sha256 b Hb Hrefs hashes Hh) as (Ed & Edat & Ebl & Er). fold p c in Ed, Edat, Ebl, Er.
  destruct (parts_data b Hb) as (Hz & Hby & Hn & _). fold p in Hz, Hby.
  assert (counted c) as Hc by (apply (st_refs _ _ (built_cell_storable sha256 b Hb Hrefs hashes Hh))). split; [|done].
  pose proof (reference_count_range c). split; rewrite ?Edat, ?Ebl; try done; [rewrite Hz; dlia|].
  intros i Hi. rewrite Hc in Hi. rewrite <- (Z2Nat.id i) by lia. rewrite <- references_lookup; [|done|unfold zlen in Hi; lia].
  apply lookup_lt_is_Some_2. unfold zlen in Hi. lia.
Qed.

(** What a slice over the cell reads *)
Lemma built_slice : slice_wf (new_allow_exotic c) /\ slice_bits (new_allow_exotic c) = contents (inner b) /\
  slice_references (new_allow_exotic c) = b_refs b /\ slice_references_cloned (new_allow_exotic c) = b_refs b.
Proof.
  destruct (built_fields sha256 b Hb Hrefs hashes Hh) as (_ & Edat & Ebl & Er). fold p c in Edat, Ebl, Er.
  destruct (parts_data b Hb) as (_ & _ & _ & Hbits). fold p in Hbits. destruct built_wf as [Hw _]. split_and!.
  - by apply slice_new_wf.
  - by rewrite slice_new_bits, Edat, Ebl.
  - exact Er.
  - rewrite <- Er. by apply plain_window, built_plain.
Qed.
End Cells.

(** A cell of whole bytes *)
Lemma bytes_cell sha256 bytes e rs c :
  zlen bytes <= 127 -> zlen rs <= 4 -> Forall is_byte bytes -> Forall d1_ok rs ->
  build_ext (empty_context sha256) (byte_builder bytes e rs) = Ok c ->
  holds (new_allow_exotic c) bytes rs /\ is_exotic c = e.
Proof.
  intros Hl Hr Hby Hd E. pose proof (byte_builder_wf bytes e rs Hl Hr) as Hw. set (b := byte_builder bytes e rs) in *.
  unfold build_ext in E. cbn [finalize_cell empty_context] in E. destruct (compute_hashes _ _) as [hs|] eqn:Eh; [|done]. injection E as <-.
  destruct (built_slice sha256 b Hw Hd hs Eh) as (Hsw & Hb & Hrf & Hrc).
  destruct (built_fields sha256 b Hw Hd hs Eh) as (Ed & _). destruct (built_descriptor b Hw Hd) as (_ & _ & _ & Hex & _).
  split; [split; try done|].
  - rewrite Hb. unfold b, byte_builder. cbn [inner]. apply contents_of_bits.
    pose proof (zlen_nonneg bytes). rewrite zlen_bits_from by lia. unfold MAX_BIT_LEN. lia.
  - unfold is_exotic. rewrite Ed. exact Hex.
Qed.
