(* ===== verification/MerkleSpec.v ===== *)
(** * MerkleSpec: what the proof builder builds

    [pruned_by] says which trees a filter may make of a tree.  In a tree of built cells
    that each occur at one Merkle depth the loop of the builder ends, its result is one
    of these trees and agrees with the original up to the Merkle depth. *)

From stdpp Require Import gmap.
From S2P Require Import Prelude Bits DataBuilder DataBuilderSpec CellMeta Cell RefsIter Slice SliceSpec Builder BuilderSpec Context Pieces CellTheorems BocSer Merkle BocFill BocRoundtrip Nodes Tree.

Section Tree.
Context (sha256 : list Z -> HashBytes) (all : list Cell) (md : Cell -> Z).
Let ctx := empty_context sha256.

Definition from_builder (c : Cell) (b : CellBuilder) : Prop :=
  builder_wf b /\ build_ext ctx b = Ok c /\ Forall (fun r => r ∈ all) (b_refs b).

(** A set of cells closed under references, made by builders and told apart by their
    hashes, each at one Merkle depth, without pruned branches of the proof to come. *)
Record tree : Prop := {
  tree_built : forall c, c ∈ all -> exists b, from_builder c b;
  tree_inj : forall a b, a ∈ all -> b ∈ all -> repr_hash a = repr_hash b -> a = b;
  tree_md : forall c child, c ∈ all -> child ∈ references c -> md child = md c + is_merkle c;
  tree_range : forall c, c ∈ all -> 0 <= md c <= 2;
  tree_below : forall c, c ∈ all -> below (md c) c;
}.

Context (Hsha : hash32 sha256) (Ht : tree).

(** The facts about a cell of the tree *)
Record cell_of (c : Cell) (b : CellBuilder) : Prop := {
  co_from : from_builder c b;
  co_refs : references c = b_refs b;
  co_children : Forall (fun r => r ∈ all) (b_refs b);
  co_sounds : Forall sound (b_refs b);
  co_counted : counted c;
  co_plain : plain c;
  co_sound : sound c;
  co_hashes : hashes_ok c;
  co_rebuild : forall rs, set_references (attempt (on_data (fun x => store_cell_data x c)) (set_exotic builder_new (is_exotic c))) rs = set_references b rs;
  co_node : b_refs b <> [] -> exists ty, node b ty /\ c = node_cell sha256 b ty /\ offset_of ty = is_merkle c;
}.

Lemma tree_sound c : c ∈ all -> sound c.
Proof.
  intros (b & _ & E & _)%(tree_built Ht). unfold build_ext in E. cbn [finalize_cell ctx empty_context] in E.
  destruct (compute_hashes _ _) as [hs|] eqn:Eh; [|done]. injection E as <-. split; [apply built_plain | apply make_cell_d1].
Qed.

Lemma tree_cell c : c ∈ all -> exists b, cell_of c b.
Proof.
  intros Hc. destruct (tree_built Ht c Hc) as (b & Hb & E & Hch). exists b.
  assert (Forall sound (b_refs b)) as Hs by (eapply list.Forall_impl; [exact Hch | exact tree_sound]).
  pose proof (refs_d1 b Hs) as Hd. destruct (built_storable sha256 b c Hb Hd E) as [Hst Hr].
  pose proof E as E'. unfold build_ext in E'. cbn [finalize_cell ctx empty_context] in E'.
  destruct (compute_hashes _ _) as [hs|] eqn:Eh; [|done]. injection E' as E'.
  split; try done.
  - apply (st_refs _ _ Hst).
  - rewrite <- E'. apply built_plain.
  - by apply tree_sound.
  - rewrite <- E'. by apply (built_hashes sha256 Hsha b Hb Hd).
  - intros rs. rewrite <- E'. by apply (rebuild_builder sha256 b Hb Hd).
  - intros Hne. destruct (proj1 (node_build sha256 b Hb Hd Hne c) E) as (ty & Hn & Ec). exists ty. split_and!; [done..|].
    destruct (node_is_merkle b Hb Hd Hne ty Hn) as [Ho _]. rewrite Ho, Ec. done.
Qed.

Lemma child_in c child : c ∈ all -> child ∈ references c -> child ∈ all.
Proof. intros (b & Hb)%tree_cell. rewrite (co_refs _ _ Hb). intros H. by apply (proj1 (list.Forall_forall _ _) (co_children _ _ Hb)). Qed.

(** A cell rebuilt over children that agree with its own *)
Lemma tree_rebuild c b rs : c ∈ all -> cell_of c b -> Forall2 (fun x y => agrees (md x) x y) (b_refs b) rs ->
  exists r, build_ext ctx (set_references b rs) = Ok r /\ agrees (md c) c r.
Proof.
  intros Hc Hb Hrs. destruct (co_from _ _ Hb) as (Hw & E & _). pose proof (tree_range Ht c Hc) as Hr.
  assert (b_refs b = [] \/ b_refs b <> []) as [Hnil|Hne] by (destruct (b_refs b); [by left | by right]).
  - rewrite Hnil in Hrs. apply Forall2_nil_inv_l in Hrs as ->. exists c. split; [|apply agrees_refl; [apply Hb | by apply Ht | lia]].
    rewrite <- E. destruct b as [i e l]. simpl in Hnil. by rewrite Hnil.
  - destruct (co_node _ _ Hb Hne) as (ty & Hn & Ec & Ho).
    assert (Forall2 (agrees (md c + offset_of ty)) (b_refs b) rs) as HF.
    { apply Forall2_same_length_lookup_2; [by eapply Forall2_length|]. intros i x y Ex Ey.
      pose proof (Forall2_lookup_lr _ _ _ _ _ _ Hrs Ex Ey) as Ha. simpl in Ha. rewrite Ho, <- (tree_md Ht c x Hc); [done|].
      rewrite (co_refs _ _ Hb). by eapply list_elem_of_lookup_2. }
    destruct (rebuilt_wf b Hw Hne ty (md c) rs HF) as (Hw' & Hs' & Hne' & _).
    exists (node_cell sha256 (set_references b rs) ty). split.
    + apply node_build; [done | by eapply list.Forall_impl; [exact Hs' | intros x [_ ?]] | done |]. exists ty. split; [|done].
      by apply (rebuilt_node sha256 b Hw (co_sounds _ _ Hb) Hne ty Hn (md c)); [lia|].
    + rewrite Ec at 2. by apply (rebuilt_agrees sha256 b Hw (co_sounds _ _ Hb) Hne ty Hn (md c)); [lia|].
Qed.

(** ** The trees a filter allows *)

Section Filter.
Context (filter : MerkleFilter) (big : bool) (root : Cell).

(** The cells that stay, over new children: the root, those the filter includes, and
    those too small to prune. *)
Definition stays (c : Cell) : Prop :=
  c = root \/ match filter (repr_hash c) with Include => True | Skip => prunable big c = false | IncludeSubtree => False end.

(** What is cut off is recorded, where the builder is asked to. *)
Definition tracked (tr : option (gset (list Z))) (c : Cell) : Prop :=
  match tr with Some hs => repr_hash c ∈ hs | None => True end.

Inductive pruned_by (tr : option (gset (list Z))) : Cell -> Cell -> Prop :=
| by_subtree c : c ∈ all -> filter (repr_hash c) = IncludeSubtree -> pruned_by tr c c
| by_branch c P : c ∈ all -> filter (repr_hash c) = Skip -> prunable big c = true -> tracked tr c ->
    make_pruned_branch ctx c (md c) = Ok P -> pruned_by tr c P
| by_node c b rs r : c ∈ all -> cell_of c b -> stays c -> Forall2 (pruned_by tr) (b_refs b) rs ->
    build_ext ctx (set_references b rs) = Ok r -> pruned_by tr c r.

Lemma forall2_children {R S : Cell -> Cell -> Prop} c b rs : cell_of c b -> Forall2 R (b_refs b) rs ->
  (forall x y, x ∈ b_refs b -> (height x < height c)%nat -> R x y -> S x y) -> Forall2 S (b_refs b) rs.
Proof.
  intros Hb HF H. apply Forall2_same_length_lookup_2; [by eapply Forall2_length|]. intros i x y Ex Ey.
  assert (x ∈ b_refs b) as Hx by (by eapply list_elem_of_lookup_2). apply H; [done | | by eapply Forall2_lookup_lr].
  apply child_height. by rewrite (co_refs _ _ Hb).
Qed.

(** A cell rebuilt over what was made of its children *)
Definition made (tr : option (gset (list Z))) (c r : Cell) : Prop :=
  exists b rs, cell_of c b /\ Forall2 (pruned_by tr) (b_refs b) rs /\ build_ext ctx (set_references b rs) = Ok r.

Lemma made_by tr c r : c ∈ all -> stays c -> made tr c r -> pruned_by tr c r.
Proof. intros Hc Hs (b & rs & Hb & HF & E). by apply (by_node tr c b rs). Qed.

(** More may be recorded later. *)
Definition grows (st st' : ProofState) : Prop :=
  (is_Some (st_pruned st) -> is_Some (st_pruned st')) /\ forall c, tracked (st_pruned st) c -> tracked (st_pruned st') c.

Lemma pruned_by_mono tr tr' n c r : (height c < n)%nat -> (forall x, tracked tr x -> tracked tr' x) -> pruned_by tr c r -> pruned_by tr' c r.
Proof.
  intros Hn Htr. revert c r Hn. induction n as [|n IH]; [lia|]. intros c r Hn Hp. revert Hn.
  destruct Hp as [x Hx Hf|x P Hx Hf Hb Hin E|x b rs y Hx Hb Hst HF E]; intros Hn.
  - by apply by_subtree.
  - apply by_branch; auto.
  - apply (by_node tr' x b rs); [done..| |done]. eapply forall2_children; [exact Hb | exact HF|]. intros z w _ Hz. apply IH. lia.
Qed.

Record good (st : ProofState) (c r : Cell) : Prop := { good_by : pruned_by (st_pruned st) c r; good_agrees : agrees (md c) c r }.

Lemma good_mono st st' c r : grows st st' -> good st c r -> good st' c r.
Proof. intros Hg [Hp Ha]. split; [|done]. by eapply (pruned_by_mono _ _ (S (height c))); [lia | apply Hg |]. Qed.

Lemma goods_mono st st' cs rs : grows st st' -> Forall2 (good st) cs rs -> Forall2 (good st') cs rs.
Proof. intros Hg HF. eapply list.Forall2_impl; [exact HF|]. intros. by eapply good_mono. Qed.

Lemma grows_trans st1 st2 st3 : grows st1 st2 -> grows st2 st3 -> grows st1 st3.
Proof. intros [? ?] [? ?]. split; auto. Qed.

Lemma grows_refl st : grows st st.
Proof. by split. Qed.

Lemma grows_add st h c : grows st (add_cell st h c).
Proof. by split. Qed.

#[local] Hint Resolve grows_refl grows_add : core.

Lemma grows_pruned st h : grows st (add_pruned st h).
Proof.
  unfold grows, tracked. cbn [add_pruned st_pruned]. destruct (st_pruned st); [|done]. cbn. split; [by eexists | set_solver].
Qed.

Lemma tracked_pruned st c : tracked (st_pruned (add_pruned st (repr_hash c))) c.
Proof. unfold tracked. cbn [add_pruned st_pruned]. destruct (st_pruned st); [|done]. cbn. set_solver. Qed.

Record st_ok (st : ProofState) : Prop := {
  ok_cells : forall h r, st_cells st !! h = Some r -> exists c, c ∈ all /\ repr_hash c = h /\ good st c r;
}.

Lemma st_ok_add st c r : st_ok st -> c ∈ all -> good st c r -> st_ok (add_cell st (repr_hash c) r).
Proof.
  intros [Hs] Hc Hg. split. intros h x E. cbn [add_cell st_cells] in E.
  destruct (decide (repr_hash c = h)) as [<-|Hne].
  - rewrite lookup_insert_eq in E. injection E as <-. exists c. split_and!; [done..|]. by apply (good_mono st).
  - rewrite lookup_insert_ne in E by done. destruct (Hs h x E) as (c' & ? & ? & ?). exists c'. split_and!; [done..|]. by apply (good_mono st).
Qed.

Lemma st_ok_pruned st h : st_ok st -> st_ok (add_pruned st h).
Proof.
  intros [Hs]. split. intros h' r E. destruct (Hs h' r E) as (c & ? & ? & ?). exists c. split_and!; [done..|].
  by apply (good_mono st); [apply grows_pruned|].
Qed.

Lemma is_merkle_range c : 0 <= is_merkle c <= 1.
Proof. unfold is_merkle. destruct (Descr.is_merkle _); simpl; lia. Qed.

(** The frame of [c] before its child [i], with what was made of the first [i] children. *)
Definition frame (c : Cell) (i : nat) (rs : list Cell) : Node := mkNode (iter_at c i) (descriptor c) (md c + is_merkle c) rs.

Lemma new_frame last child : child ∈ all -> nd_merkle_depth last = md child ->
  new_node child (u8 (nd_merkle_depth last + b2z (Descr.is_merkle (descriptor child)))) = frame child 0 [].
Proof.
  intros Hc ->. fold (is_merkle child). pose proof (tree_range Ht child Hc). pose proof (is_merkle_range child). by rewrite u8_small by lia.
Qed.

Lemma frame_add c b i child r rs : cell_of c b -> b_refs b !! i = Some child -> length rs = i ->
  add_child (mkNode (iter_at c (S i)) (descriptor c) (md c + is_merkle c) rs) r = frame c (S i) (rs ++ [r]).
Proof.
  intros Hb Ei Hl. destruct (co_from _ _ Hb) as ([_ H4] & _). unfold MAX_REF_COUNT in H4. apply lookup_lt_Some in Ei.
  unfold add_child, frame, refs_store_reference, MAX_REF_COUNT. cbn [nd_children nd_references nd_descriptor nd_merkle_depth].
  rewrite (proj2 (Z.ltb_lt _ _)); [done|]. unfold zlen in *. lia.
Qed.

(** The step that ends a frame: the builder is that of the cell, with the new children. *)
Lemma close_frame st c b rs : c ∈ all -> cell_of c b -> Forall2 (good st) (b_refs b) rs ->
  exists r, build_node ctx (frame c (length (references c)) rs) = Ok r /\ agrees (md c) c r /\
    made (st_pruned st) c r.
Proof.
  intros Hc Hb HF. destruct (tree_rebuild c b rs Hc Hb) as (r & Er & Ha).
  { eapply list.Forall2_impl; [exact HF|]. intros x y Hg. apply Hg. }
  exists r. split_and!; [|done|].
  - unfold build_node, frame. cbn [nd_references nd_descriptor nd_children iter_at it_cell].
    change (Descr.is_exotic (descriptor c)) with (is_exotic c). by rewrite (co_rebuild _ _ Hb).
  - exists b, rs. split_and!; [done | | exact Er]. eapply list.Forall2_impl; [exact HF|]. intros x y Hg. apply Hg.
Qed.

(** What is left of a loop when the cell of a frame is made. *)
Definition resume (fuel : nat) (st : ProofState) (stack : list Node) (r : Cell) : result (Cell * ProofState) :=
  match stack with
  | last :: stack => build_loop ctx filter big fuel st (add_child last r :: stack)
  | [] => Ok (r, st)
  end.

(** The frame is worked off within so many steps; the loop gets past one child. *)
Definition worked_off (cost : nat) (st : ProofState) (c : Cell) (i : nat) (rs : list Cell) (stack : list Node) : Prop :=
  exists k r st', (k <= cost)%nat /\ st_ok st' /\ grows st st' /\ good st' c r /\ made (st_pruned st') c r /\
    forall fuel, build_loop ctx filter big (k + fuel) st (frame c i rs :: stack) = resume fuel st' stack r.
Definition gets_past (cost : nat) (st : ProofState) (c : Cell) (i : nat) (rs : list Cell) (stack : list Node) (x : Cell) : Prop :=
  exists k r st', (k <= cost)%nat /\ st_ok st' /\ grows st st' /\ good st' x r /\
    forall fuel, build_loop ctx filter big (k + fuel) st (frame c i rs :: stack) =
      build_loop ctx filter big fuel st' (frame c (S i) (rs ++ [r]) :: stack).

Lemma frame_end c b rs st stack : c ∈ all -> cell_of c b -> stays c -> Forall2 (good st) (b_refs b) rs -> st_ok st ->
  worked_off 1 st c (length (b_refs b)) rs stack.
Proof.
  intros Hc Hb Hst HF Hok. destruct (close_frame st c b rs Hc Hb HF) as (r & Er & Ha & Hm).
  pose proof (next_end c (co_counted _ _ Hb)) as Enx. rewrite (co_refs _ _ Hb) in Er, Enx. assert (good st c r) as Hg by (split; [by apply made_by | done]).
  exists 1%nat, r, (add_cell st (repr_hash c) r). split_and!; [lia | by apply st_ok_add | done | by apply (good_mono st) | done |].
  intros fuel. cbn [Nat.add build_loop]. change (nd_references (frame c ?i rs)) with (iter_at c i). rewrite Enx, Er. cbn [rbind]. by destruct stack.
Qed.

Lemma frame_step c b i x rs st stack fuel : c ∈ all -> cell_of c b -> b_refs b !! i = Some x -> length rs = i ->
  build_loop ctx filter big (S fuel) st (frame c i rs :: stack) =
    let past st r := build_loop ctx filter big fuel st (frame c (S i) (rs ++ [r]) :: stack) in
    let visit := build_loop ctx filter big fuel st (frame x 0 [] :: frame c (S i) rs :: stack) in
    match st_cells st !! repr_hash x with
    | Some child => past st child
    | None =>
        match filter (repr_hash x) with
        | IncludeSubtree => past st x
        | Skip => if prunable big x then
            let! child := make_pruned_branch ctx x (md x) in past (add_pruned st (repr_hash x)) child
            else visit
        | Include => visit
        end
    end.
Proof.
  intros Hc Hb Ei Hrs. assert (references c !! i = Some x) as Ei' by (by rewrite (co_refs _ _ Hb)).
  assert (x ∈ references c) as Hxr by (by eapply list_elem_of_lookup_2).
  pose proof (child_in c x Hc Hxr) as Hx. pose proof (tree_md Ht c x Hc Hxr) as Hmd. pose proof (co_counted _ _ Hb) as Hcnt.
  cbn [build_loop]. change (nd_references (frame c i rs)) with (iter_at c i). change (nd_descriptor (frame c i rs)) with (descriptor c).
  change (nd_merkle_depth (frame c i rs)) with (md c + is_merkle c). change (nd_children (frame c i rs)) with rs.
  rewrite (next_at c i x Hcnt Ei'). cbn [nd_references nd_merkle_depth nd_descriptor nd_children].
  destruct (st_cells st !! repr_hash x); [by rewrite (frame_add c b i x _ rs) by done|].
  cbv zeta. pose proof (new_frame (frame c (S i) rs) x Hx ltac:(by rewrite Hmd)) as En. cbn [frame nd_merkle_depth] in En. rewrite En.
  rewrite (prev_plain c i x (co_plain _ _ Hb) Hcnt Ei'), Hmd. destruct (filter (repr_hash x)).
  - destruct (prunable big x); [|done]. destruct (make_pruned_branch _ _ _) as [P|]; [|done]. cbn [rbind].
    by rewrite (frame_add c b i x _ rs) by done.
  - done.
  - by rewrite (frame_add c b i x _ rs) by done.
Qed.

(** A child is known, cut off, taken over, or visited. *)
Lemma child_done c b i x rs st stack : c ∈ all -> cell_of c b -> b_refs b !! i = Some x -> length rs = i -> st_ok st ->
  (forall st stack, stays x -> st_ok st -> worked_off (steps (S (height x)) x) st x 0 [] stack) ->
  gets_past (S (steps (S (height x)) x)) st c i rs stack x.
Proof.
  intros Hc Hb Ei Hrs Hok Hvisit. pose proof (fun fuel => frame_step c b i x rs st stack fuel Hc Hb Ei Hrs) as Hstep. cbv zeta in Hstep.
  assert (x ∈ all) as Hx by (eapply (child_in c); [done|]; rewrite (co_refs _ _ Hb); by eapply list_elem_of_lookup_2).
  assert (stays x -> (forall fuel, build_loop ctx filter big (S fuel) st (frame c i rs :: stack) =
    build_loop ctx filter big fuel st (frame x 0 [] :: frame c (S i) rs :: stack)) -> gets_past (S (steps (S (height x)) x)) st c i rs stack x) as Hv.
  { intros Hst Hs. destruct (Hvisit st (frame c (S i) rs :: stack) Hst Hok) as (k & r & st' & Hk & Hok' & Hgr & Hg & _ & Hrun).
    exists (S k), r, st'. split_and!; [lia | done..|]. intros fuel. cbn [Nat.add]. rewrite Hs, Hrun. cbn [resume].
    by rewrite (frame_add c b i x _ rs) by done. }
  destruct (st_cells st !! repr_hash x) as [r|] eqn:Ecache.
  { destruct (ok_cells _ Hok _ _ Ecache) as (x' & Hx' & Eh & Hg). apply (tree_inj Ht) in Eh; [|done..]. subst x'.
    exists 1%nat, r, st. split_and!; [lia | done..]. }
  destruct (filter (repr_hash x)) eqn:Ef; [destruct (prunable big x) eqn:Ep | |].
  - destruct (tree_cell x Hx) as (bx & Hbx).
    destruct (pruned_agrees sha256 x (md x)) as (P & EP & Ha & _); [apply Hbx | by apply Ht | by apply Ht | apply Hbx |].
    exists 1%nat, P, (add_pruned st (repr_hash x)). split_and!; [lia | by apply st_ok_pruned | by apply grows_pruned | split; [by apply by_branch; [..|apply tracked_pruned|] | done] |].
    intros fuel. cbn [Nat.add]. rewrite Hstep. fold ctx in EP. by rewrite EP.
  - apply Hv; [right; by rewrite Ef | done].
  - apply Hv; [right; by rewrite Ef | done].
  - exists 1%nat, x, st. split_and!; [lia | done | done | | done].
    split; [by apply by_subtree | apply agrees_refl; [by apply tree_sound | by apply Ht | pose proof (tree_range Ht x Hx); lia]].
Qed.

Lemma frame_done n : forall c b todo i rs st stack,
  (height c < n)%nat -> c ∈ all -> cell_of c b -> drop i (b_refs b) = todo -> stays c ->
  Forall2 (good st) (take i (b_refs b)) rs -> (i <= length (b_refs b))%nat -> st_ok st ->
  worked_off (S (all_steps todo)) st c i rs stack.
Proof.
  induction n as [|n IH]; [lia|]. intros c b todo. induction todo as [|x todo IHt]; intros i rs st stack Hn Hc Hb Etodo Hst HF Hi Hok.
  { pose proof (f_equal length Etodo) as E. rewrite length_drop in E. simpl in E. assert (i = length (b_refs b)) as -> by lia.
    rewrite firstn_all in HF. by apply frame_end. }
  assert (b_refs b !! i = Some x) as Ei by (pose proof (lookup_drop (b_refs b) i 0) as E; by rewrite Etodo, Nat.add_0_r in E).
  assert (drop (S i) (b_refs b) = todo) as Etodo' by (rewrite (drop_S _ _ _ Ei) in Etodo; by injection Etodo).
  pose proof (Forall2_length HF) as Hlen. rewrite length_take in Hlen. apply lookup_lt_Some in Ei as Hlt.
  assert (x ∈ references c) as Hxr by (rewrite (co_refs _ _ Hb); by eapply list_elem_of_lookup_2).
  pose proof (child_in c x Hc Hxr) as Hx. pose proof (child_height c x Hxr).
  destruct (child_done c b i x rs st stack Hc Hb Ei ltac:(lia) Hok) as (k & r & st' & Hk & Hok' & Hgr & Hg & Hrun).
  { intros st' stack' Hst' Hok'. destruct (tree_cell x Hx) as (bx & Hbx). rewrite steps_eq, (co_refs _ _ Hbx) by lia.
    apply (IH x bx); (done || lia). }
  destruct (IHt (S i) (rs ++ [r]) st' stack) as (k2 & r' & st'' & Hk2 & Hok2 & Hgr2 & Hg2 & Hm2 & Hrun2); try done.
  { rewrite (take_S_r _ _ _ Ei). apply Forall2_app; [by eapply goods_mono | constructor; [done | constructor]]. }
  exists (k + k2)%nat, r', st''. split_and!; [|done|by eapply grows_trans|done|done|].
  - cbn [all_steps foldr]. fold (all_steps todo). lia.
  - intros fuel. by rewrite <- Nat.add_assoc, Hrun, Hrun2.
Qed.
(** The whole loop *)
Lemma build_impl_good allow st :
  root ∈ all -> md root = 0 -> allow = true \/ filter (repr_hash root) <> Skip -> st_ok st ->
  exists r st', build_impl ctx filter big root allow st = Ok (r, st') /\ grows st st' /\ good st' root r /\ made (st_pruned st') root r.
Proof.
  intros Hr Hm Hallow Hok. destruct (tree_cell root Hr) as (b & Hb).
  destruct (frame_done (S (height root)) root b (b_refs b) 0%nat [] st []) as (k & r & st' & Hk & Hok' & Hgr & Hg & Hm' & Hrun);
    try (done || lia || by left).
  exists r, st'. split_and!; [|done..]. unfold build_impl.
  assert (negb allow && is_skip (filter (repr_hash root)) = false) as ->.
  { destruct Hallow as [-> | Hne]; [done|]. destruct (filter (repr_hash root)), allow; done. }
  replace (new_node root (is_merkle root)) with (frame root 0 []) by (unfold frame, new_node; by rewrite Hm).
  rewrite steps_eq, (co_refs _ _ Hb) by lia.
  replace (S (S (all_steps (b_refs b)))) with (k + (S (S (all_steps (b_refs b))) - k))%nat by lia. by rewrite Hrun.
Qed.

Lemma st_ok_empty p : st_ok (mkState ∅ p).
Proof. split. intros h r E. cbn [st_cells] in E. by rewrite lookup_empty in E. Qed.

(** Level zero of a root is all of it. *)
Lemma root_level c : c ∈ all -> md c = 0 -> repr_hash c = hash c 0 /\ repr_depth c = depth c 0.
Proof.
  intros Hc Hm. pose proof (tree_below Ht c Hc) as Hb. rewrite Hm in Hb.
  apply (below_same 0 c 3); [by apply tree_sound | done | lia | lia].
Qed.
End Filter.
End Tree.
