(* ===== verification/UpdateSpec.v ===== *)
(** * UpdateSpec: the applier gives the new tree back

    [stands]: a tree some of whose cells are replaced with pruned branches.  The applier,
    with a storage that finds the pruned cells, makes the original of it. *)

From stdpp Require Import gmap.
From S2P Require Import Prelude Bits DataBuilder DataBuilderSpec CellMeta Cell RefsIter Slice SliceSpec Builder BuilderSpec Context Pieces CellTheorems BocSer Merkle MerkleUpdate BocFill BocRoundtrip Nodes Tree MerkleSpec.

(** The hash a branch pruned at [k] is looked up by, for a cell of mask [m]: the hash
    of its highest level, except for the mask 2 at depth 2. *)
Lemma original_level m k : LevelMask.wf m -> 0 <= k <= 2 -> m < 2 ^ k ->
  let l := u8 (LevelMask.level (pruned_mask m k) - 1) in
  0 <= l <= k /\ (LevelMask.hash_index m l = LevelMask.hash_index m 3 <-> ~ (m = 2 /\ k = 2)) /\
  Z.land (pruned_mask m k) (u8 (Z.shiftl 1 k)) <> 0 /\ Z.land m (u8 (Z.shiftl 1 k)) = 0.
Proof.
  intros Hm Hk Hlt l.
  pose proof (masks_levels (fun a _ k _ => negb ((k <=? 2) && (a <? 2 ^ k)) ||
    (let l := u8 (LevelMask.level (pruned_mask a k) - 1) in (0 <=? l) && (l <=? k) &&
     eqb (LevelMask.hash_index a l =? LevelMask.hash_index a 3) (negb ((a =? 2) && (k =? 2))) &&
     negb (Z.land (pruned_mask a k) (u8 (Z.shiftl 1 k)) =? 0) && (Z.land a (u8 (Z.shiftl 1 k)) =? 0)))
    ltac:(by vm_compute) m 0 k 0 Hm ltac:(done) ltac:(lia) ltac:(lia)) as H. cbv beta zeta in H.
  rewrite (proj2 (Z.leb_le k 2)), (proj2 (Z.ltb_lt _ _)) in H by (done || lia). cbn [andb negb orb] in H. fold l in H.
  rewrite !andb_true_iff, !Z.leb_le, negb_true_iff, Z.eqb_neq, Z.eqb_eq in H. destruct H as ((((? & ?) & He%eqb_prop) & ?) & ?).
  split_and!; try done. rewrite <- Z.eqb_eq, He, negb_true_iff, andb_false_iff, !Z.eqb_neq. lia.
Qed.

Section Tree.
Context (sha256 : list Z -> HashBytes) (all : list Cell) (md : Cell -> Z).
Let ctx := empty_context sha256.
Context (Hsha : hash32 sha256) (Ht : tree sha256 all md).

(** The cells that may be cut off. *)
Context (wanted : Cell -> Prop).

Inductive stands : Cell -> Cell -> Prop :=
| stands_branch c P : c ∈ all -> wanted c -> make_pruned_branch ctx c (md c) = Ok P -> stands c P
| stands_node c b rs r : c ∈ all -> cell_of sha256 all c b -> Forall2 stands (b_refs b) rs ->
    build_ext ctx (set_references b rs) = Ok r -> stands c r.

Lemma stands_in c r : stands c r -> c ∈ all.
Proof. by destruct 1. Qed.

Lemma own_build c b : cell_of sha256 all c b -> build_ext ctx (set_references b (b_refs b)) = Ok c.
Proof. intros Hb. destruct (co_from _ _ _ _ Hb) as (_ & E & _). rewrite <- E. by destruct b. Qed.

Lemma stands_refl n c : (height c < n)%nat -> c ∈ all -> stands c c.
Proof.
  revert c. induction n as [|n IH]; [lia|]. intros c Hn Hc. destruct (tree_cell _ _ _ Hsha Ht c Hc) as (b & Hb).
  apply (stands_node c b (b_refs b)); [done | done | | by apply own_build].
  apply (forall2_children sha256 all (R := eq) c b _ Hb); [by apply list_eq_Forall2|]. intros x y Hx Hh <-. apply IH; [lia|].
  by apply (proj1 (list.Forall_forall _ _) (co_children _ _ _ _ Hb)).
Qed.

(** What a proof builder cuts off *)
Definition filter_out (f : MerkleFilter) (tr : option (gset (list Z))) (x : Cell) : Prop := f (repr_hash x) = Skip /\ tracked tr x.

Lemma pruned_stands f big root tr n c r : (forall x, x ∈ all -> filter_out f tr x -> wanted x) ->
  (height c < n)%nat -> pruned_by sha256 all md f big root tr c r -> stands c r.
Proof.
  intros Hw. revert c r. induction n as [|n IH]; [lia|]. intros c r Hn Hp. revert Hn.
  destruct Hp as [x Hx _|x P Hx Hf _ Htr E|x b rs y Hx Hb _ HF E]; intros Hn.
  - by apply (stands_refl (S (height x))); [lia|].
  - apply stands_branch; [done | by apply Hw | done].
  - apply (stands_node x b rs); [done..| |done]. eapply forall2_children; [exact Hb | exact HF|]. intros z w _ Hz. apply IH. lia.
Qed.

Lemma branch_agrees c P : c ∈ all -> make_pruned_branch ctx c (md c) = Ok P ->
  agrees (md c) c P /\ is_pruned_branch P = true /\ level_mask P = pruned_mask (level_mask c) (md c).
Proof.
  intros Hc E. destruct (tree_cell _ _ _ Hsha Ht c Hc) as (b & Hb).
  destruct (pruned_agrees sha256 c (md c)) as (P' & E' & Ha); [apply Hb | by apply Ht | by apply Ht | apply Hb |].
  fold ctx in E'. rewrite E in E'. injection E' as <-. done.
Qed.

Lemma stands_agrees n c r : (height c < n)%nat -> stands c r -> agrees (md c) c r.
Proof.
  revert c r. induction n as [|n IH]; [lia|]. intros c r Hn Hp. revert Hn. destruct Hp as [x P Hx _ E|x b rs r Hx Hb HF E]; intros Hn.
  - by apply branch_agrees.
  - destruct (tree_rebuild sha256 all md Ht x b rs Hx Hb) as (r' & E' & Ha).
    { eapply forall2_children; [exact Hb | exact HF|]. intros z w _ Hz. apply IH. lia. }
    fold ctx in E'. rewrite E in E'. by injection E' as <-.
Qed.

(** ** A rebuilt cell *)

(** What the applier reads of a cell rebuilt from [c] *)
Record rebuilt (c : Cell) (b : CellBuilder) (rs : list Cell) (r : Cell) : Prop := {
  rb_refs : references r = rs;
  rb_counted : counted r;
  rb_plain : plain r;
  rb_exotic : is_exotic r = is_exotic c;
  rb_merkle : b2z (CellTypes.is_merkle (Descr.cell_type (descriptor r))) = is_merkle c;
  rb_builder : forall l, attempt (on_data (fun x => store_cell_data x r)) (set_references (set_exotic builder_new (is_exotic r)) l) = set_references b l;
}.

Lemma type_is_merkle d : CellTypes.is_merkle (Descr.cell_type d) = Descr.is_merkle d.
Proof.
  unfold Descr.cell_type, Descr.is_merkle, Descr.is_exotic, Descr.reference_count.
  destruct (_ =? 0); [done|]. destruct (_ =? 0); [by destruct (_ =? 0)|]. by destruct (_ =? 1).
Qed.

Lemma attempt_references f b l : attempt (on_data f) (set_references b l) = set_references (attempt (on_data f) b) l.
Proof. unfold attempt, on_data, set_references. cbn [inner b_exotic b_refs]. by destruct (f (inner b)). Qed.

Lemma stands_rebuilt c b rs r : c ∈ all -> cell_of sha256 all c b -> Forall2 stands (b_refs b) rs ->
  build_ext ctx (set_references b rs) = Ok r -> rebuilt c b rs r.
Proof.
  intros Hc Hb HF E. destruct (co_from _ _ _ _ Hb) as (Hw & Ec & _).
  assert (Forall d1_ok rs) as Hd.
  { apply list.Forall_lookup. intros i y Ey. destruct (Forall2_lookup_r _ _ _ _ _ HF Ey) as (x & Ex & Hs).
    apply (stands_agrees (S (height x))) in Hs; [|lia]. apply Hs. }
  assert (builder_wf (set_references b rs)) as Hw'.
  { destruct Hw as [? H4]. split; [done|]. cbn [b_refs set_references]. unfold zlen in *. by rewrite <- (Forall2_length HF). }
  unfold build_ext in E, Ec. cbn [finalize_cell ctx empty_context] in E, Ec.
  destruct (compute_hashes sha256 (build_parts b)) as [hs|] eqn:Eh; [|done]. injection Ec as Ec.
  destruct (compute_hashes sha256 (build_parts (set_references b rs))) as [hs'|] eqn:Eh'; [|done]. injection E as E.
  pose proof (refs_d1 b (co_sounds _ _ _ _ Hb)) as Hdb.
  destruct (built_fields sha256 (set_references b rs) Hw' Hd hs' Eh') as (Ed & _ & _ & Er).
  destruct (built_fields sha256 b Hw Hdb hs Eh) as (Ed0 & _).
  destruct (built_descriptor (set_references b rs) Hw' Hd) as (_ & _ & _ & Hex & Hrc & _).
  destruct (built_descriptor b Hw Hdb) as (_ & _ & _ & Hex0 & Hrc0 & _).
  rewrite E in Ed, Er. rewrite Ec in Ed0.
  assert (zlen rs = zlen (b_refs b)) as Hz by (unfold zlen; by rewrite (Forall2_length HF)).
  split.
  - done.
  - rewrite <- E. by apply (built_wf sha256 _ Hw' Hd).
  - rewrite <- E. apply built_plain.
  - unfold is_exotic. rewrite Ed, Ed0, Hex, Hex0. done.
  - rewrite type_is_merkle. unfold is_merkle. f_equal. unfold Descr.is_merkle. rewrite Ed, Ed0, Hex, Hex0, Hrc, Hrc0. cbn [b_refs b_exotic set_references].
    by rewrite Hz.
  - intros l. rewrite attempt_references. rewrite <- E. by rewrite (rebuild_builder sha256 _ Hw' Hd hs' Eh').
Qed.

(** ** The applier *)

Section Apply.
Context (find_cell : HashBytes -> option Cell) (flag : bool).
Context (Hfind : forall c, c ∈ all -> wanted c -> find_cell (repr_hash c) = Some c).
Context (Hgap : forall c, c ∈ all -> ~ (level_mask c = 2 /\ md c = 2)).

Definition cells_ok (m : gmap (list Z) Cell) : Prop := forall h x, m !! h = Some x -> x ∈ all /\ repr_hash x = h.

Lemma cells_ok_insert m x : cells_ok m -> x ∈ all -> cells_ok (<[repr_hash x := x]> m).
Proof.
  intros Hm Hx h y E. destruct (decide (repr_hash x = h)) as [<-|Hne].
  - rewrite lookup_insert_eq in E. by injection E as <-.
  - rewrite lookup_insert_ne in E by done. by apply Hm.
Qed.

Lemma known_cell m x y : cells_ok m -> x ∈ all -> m !! repr_hash x = Some y -> y = x.
Proof. intros Hm Hx [Hy E]%Hm. by apply (tree_inj _ _ _ Ht). Qed.

(** The hash a stand-in is looked up by is that of the original. *)
Lemma stand_in_hash x y : stands x y -> hash y (md x) = repr_hash x.
Proof.
  intros Hs. pose proof (stands_in _ _ Hs) as Hx. pose proof (tree_range _ _ _ Ht x Hx).
  rewrite (ag_hash _ _ _ (stands_agrees (S (height x)) x y ltac:(lia) Hs)) by lia. symmetry.
  by apply (below_same (md x) x 3); [eapply tree_sound | apply Ht | lia | lia].
Qed.

Lemma branch_hash x P : x ∈ all -> make_pruned_branch ctx x (md x) = Ok P ->
  Z.land (LevelMask.to_byte (level_mask P)) (u8 (Z.shiftl 1 (md x))) <> 0 /\
  hash P (u8 (LevelMask.level (level_mask P) - 1)) = repr_hash x.
Proof.
  intros Hx E. destruct (branch_agrees x P Hx E) as (Ha & _ & Em). pose proof (tree_range _ _ _ Ht x Hx) as Hk.
  pose proof (tree_sound _ _ _ Ht x Hx) as [Hi Hd]. pose proof (level_mask_ok x Hd) as Hw.
  destruct (original_level (level_mask x) (md x) Hw Hk ltac:(by apply Ht)) as (Hl & Hh & Hbit & _).
  rewrite Em. split; [done|]. rewrite (ag_hash _ _ _ Ha) by done. apply indexed_hash; [done|]. apply Hh. by apply Hgap.
Qed.

(** A pruned branch of the original tree itself is not one of the update. *)
Lemma node_pruned x b rs y : x ∈ all -> cell_of sha256 all x b -> Forall2 stands (b_refs b) rs ->
  build_ext ctx (set_references b rs) = Ok y -> is_pruned_branch y = true ->
  y = x /\ Z.land (LevelMask.to_byte (level_mask y)) (u8 (Z.shiftl 1 (md x))) = 0.
Proof.
  intros Hx Hb HF E Hp. pose proof (stands_rebuilt x b rs y Hx Hb HF E) as Hr.
  assert (rs = []) as ->.
  { unfold is_pruned_branch, Descr.is_pruned_branch in Hp. apply andb_true_iff in Hp as [[_ Hp%Z.eqb_eq]%andb_true_iff _].
    pose proof (rb_counted _ _ _ _ Hr) as Hc. unfold counted, reference_count in Hc. rewrite Hp, (rb_refs _ _ _ _ Hr) in Hc. by apply zlen_0. }
  apply Forall2_nil_inv_r in HF. pose proof (own_build x b Hb) as E'. rewrite HF in E'. rewrite E in E'. injection E' as ->.
  split; [done|]. pose proof (tree_sound _ _ _ Ht x Hx) as [_ Hd]. pose proof (tree_range _ _ _ Ht x Hx) as Hk.
  by apply (original_level (level_mask x) (md x) (level_mask_ok x Hd) Hk); apply Ht.
Qed.

Lemma pruned_original x y : stands x y -> is_pruned_branch y = true -> wanted x /\ make_pruned_branch ctx x (md x) = Ok y \/
  y = x /\ Z.land (LevelMask.to_byte (level_mask y)) (u8 (Z.shiftl 1 (md x))) = 0.
Proof. intros Hs Hp. destruct Hs as [? ? ? ? E|x b rs y Hx Hb HF E]; [by left | right; by apply (node_pruned x b rs)]. Qed.

Lemma node_not_branch x b rs y : x ∈ all -> cell_of sha256 all x b -> Forall2 stands (b_refs b) rs ->
  build_ext ctx (set_references b rs) = Ok y -> make_pruned_branch ctx x (md x) <> Ok y.
Proof.
  intros Hx Hb HF E Eb. destruct (branch_agrees x y Hx Eb) as (_ & Hp & Em).
  destruct (node_pruned x b rs y Hx Hb HF E Hp) as [_ Hz]. rewrite Em in Hz.
  pose proof (tree_sound _ _ _ Ht x Hx) as [_ Hd].
  by destruct (original_level (level_mask x) (md x) (level_mask_ok x Hd) ltac:(by apply Ht) ltac:(by apply Ht)) as (_ & _ & ? & _).
Qed.

(** One child: the original goes into the builder. *)
Lemma apply_child_ok rec r b i x y l cells :
  plain r -> reference r (Z.of_nat i) = Some y -> stands x y -> zlen l < 4 -> cells_ok cells ->
  (forall cells, is_pruned_branch y = false -> cells_ok cells -> exists cells', rec cells y (md x) = Ok (x, cells') /\ cells_ok cells') ->
  exists cells', apply_child find_cell flag rec r (md x) (set_references b l, cells) (Z.of_nat i) =
    Ok (set_references b (l ++ [x]), cells') /\ cells_ok cells'.
Proof.
  intros Hp Er Hs Hl Hok Hrec. pose proof (stands_in _ _ Hs) as Hx. unfold apply_child. rewrite Er.
  assert (attempt (fun b => store_reference b x) (set_references b l) = set_references b (l ++ [x])) as Estore.
  { unfold attempt, store_reference, MAX_REF_COUNT. cbn [b_refs set_references]. by rewrite (proj2 (Z.ltb_lt _ _)). }
  destruct (is_pruned_branch y) eqn:Epr.
  - destruct (pruned_original x y Hs Epr) as [[Hwx E]|[-> Hbit]].
    + destruct (branch_hash x y Hx E) as [Hbit Eh]. rewrite (proj2 (Z.eqb_neq _ _)) by done. cbn [negb]. rewrite Eh, (Hfind x Hx Hwx).
      destruct (if flag then cells !! repr_hash x else None) as [z|] eqn:Ez.
      * assert (z = x) as -> by (destruct flag; [by eapply known_cell | done]). cbn [rbind]. rewrite Estore. by exists cells.
      * cbn [rbind]. rewrite Estore. eexists. split; [done|]. destruct flag; [by apply cells_ok_insert | done].
    + rewrite (proj2 (Z.eqb_eq _ _)) by done. cbn [negb].
      rewrite Hp, Er. cbn [rbind]. rewrite Estore. by exists cells.
  - rewrite (stand_in_hash x y Hs). destruct (cells !! repr_hash x) as [z|] eqn:Ez.
    + rewrite (known_cell cells x z) by done. cbn [rbind]. rewrite Estore. by exists cells.
    + destruct (Hrec cells eq_refl Hok) as (cells' & -> & Hok'). cbn [rbind]. rewrite Estore. eexists. split; [done|]. by apply cells_ok_insert.
Qed.

(** The loop over the children *)
Lemma apply_children_ok rec c b rs r todo i cells :
  c ∈ all -> cell_of sha256 all c b -> Forall2 stands (b_refs b) rs -> rebuilt c b rs r ->
  (forall cells x y, x ∈ b_refs b -> y ∈ rs -> stands x y -> is_pruned_branch y = false -> cells_ok cells ->
    exists cells', rec cells y (md x) = Ok (x, cells') /\ cells_ok cells') ->
  drop i (b_refs b) = todo -> (i <= length (b_refs b))%nat -> cells_ok cells ->
  exists cells', foldl (fun acc idx => let! acc := acc in apply_child find_cell flag rec r (md c + is_merkle c) acc idx)
      (Ok (set_references (set_exotic builder_new (is_exotic r)) (take i (b_refs b)), cells)) (seqZ (Z.of_nat i) (zlen todo)) =
    Ok (set_references (set_exotic builder_new (is_exotic r)) (b_refs b), cells') /\ cells_ok cells'.
Proof.
  intros Hc Hb HF Hr Hrec. revert i cells. induction todo as [|x todo IH]; intros i cells Etodo Hi Hok.
  { pose proof (f_equal length Etodo) as E. rewrite length_drop in E. simpl in E. assert (i = length (b_refs b)) as -> by lia.
    rewrite firstn_all. exists cells. by split. }
  assert (b_refs b !! i = Some x) as Ei by (pose proof (lookup_drop (b_refs b) i 0) as E; by rewrite Etodo, Nat.add_0_r in E).
  assert (drop (S i) (b_refs b) = todo) as Etodo' by (rewrite (drop_S _ _ _ Ei) in Etodo; by injection Etodo).
  destruct (Forall2_lookup_l _ _ _ _ _ HF Ei) as (y & Ey & Hs). apply lookup_lt_Some in Ei as Hlt.
  assert (x ∈ references c) as Hxr by (rewrite (co_refs _ _ _ _ Hb); by eapply list_elem_of_lookup_2).
  destruct (co_from _ _ _ _ Hb) as ([_ H4] & _). unfold MAX_REF_COUNT, zlen in H4.
  assert (reference r (Z.of_nat i) = Some y) as Ery.
  { rewrite <- references_lookup, (rb_refs _ _ _ _ Hr); [done | apply Hr | rewrite (rb_refs _ _ _ _ Hr), <- (Forall2_length HF); lia]. }
  destruct (apply_child_ok rec r (set_exotic builder_new (is_exotic r)) i x y (take i (b_refs b)) cells) as (cells' & E & Hok');
    [apply Hr | done | done | unfold zlen; rewrite length_take; lia | done | |].
  { intros cells0 Hnp Hok0. apply Hrec; try done; by eapply list_elem_of_lookup_2. }
  replace (zlen (x :: todo)) with (1 + zlen todo) by (unfold zlen; simpl; lia).
  pose proof (zlen_nonneg todo). rewrite seqZ_cons by lia. cbn [foldl rbind].
  rewrite <- (tree_md _ _ _ Ht c x Hc Hxr), E, (tree_md _ _ _ Ht c x Hc Hxr), <- (take_S_r _ _ _ Ei).
  replace (Z.succ (Z.of_nat i)) with (Z.of_nat (S i)) by lia. replace (Z.pred (1 + zlen todo)) with (zlen todo) by lia.
  apply IH; [done | lia | done].
Qed.

(** [run] gives the original of everything that is not itself a pruned branch of the update. *)
Lemma run_restores n c r cells : (height r < n)%nat -> stands c r -> make_pruned_branch ctx c (md c) <> Ok r -> cells_ok cells ->
  exists cells', run ctx find_cell flag n cells r (md c) = Ok (c, cells') /\ cells_ok cells'.
Proof.
  revert c r cells. induction n as [|n IH]; [lia|]. intros c r cells Hn Hs. revert Hn.
  destruct Hs as [? ? ? ? E|c b rs r Hc Hb HF E]; intros Hn Hne Hok; [done|].
  pose proof (stands_rebuilt c b rs r Hc Hb HF E) as Hr. cbn [run]. rewrite (rb_merkle _ _ _ _ Hr).
  pose proof (tree_range _ _ _ Ht c Hc). pose proof (is_merkle_range c). rewrite u8_small by lia.
  assert (Descr.reference_count (descriptor r) = zlen (b_refs b)) as ->.
  { pose proof (rb_counted _ _ _ _ Hr) as Hcnt. unfold counted, reference_count in Hcnt. rewrite Hcnt, (rb_refs _ _ _ _ Hr).
    unfold zlen. by rewrite (Forall2_length HF). }
  destruct (apply_children_ok (run ctx find_cell flag n) c b rs r (b_refs b) 0%nat cells) as (cells' & Ef & Hok'); try done; [|lia|].
  { intros cells0 x y Hx Hy Hsy Hnp Hok0. apply IH; [|done| |done].
    - rewrite <- (rb_refs _ _ _ _ Hr) in Hy. apply child_height in Hy. lia.
    - intros Ex. destruct (branch_agrees x y (stands_in _ _ Hsy) Ex) as (_ & Hp & _). congruence. }
  unfold is_exotic at 1 in Ef.
  change (set_exotic builder_new (Descr.is_exotic (descriptor r))) with
    (set_references (set_exotic builder_new (Descr.is_exotic (descriptor r))) (take 0 (b_refs b))).
  change (Z.of_nat 0) with 0 in Ef. rewrite Ef. cbn [rbind].
  rewrite (rb_builder _ _ _ _ Hr), (own_build c b Hb). cbn [rbind]. by exists cells'.
Qed.

Lemma cells_ok_empty : cells_ok ∅.
Proof. intros h x E. by rewrite lookup_empty in E. Qed.

(** What the proof builder made of a root gives the root again. *)
Lemma run_made f big root tr n r : (forall x, x ∈ all -> filter_out f tr x -> wanted x) -> n ∈ all -> md n = 0 ->
  made sha256 all md f big root tr n r -> exists cells, run_tree ctx find_cell flag r = Ok (n, cells).
Proof.
  intros Hw Hn Hm Hmade. destruct Hmade as (b & rs & Hb & HF & E).
  assert (Forall2 stands (b_refs b) rs) as HF'.
  { eapply list.Forall2_impl; [exact HF|]. intros x y Hxy. by eapply (pruned_stands f big root tr (S (height x))); [|lia|]. }
  destruct (run_restores (S (height r)) n r ∅) as (cells & Er & _); [lia | by apply (stands_node n b rs) | by apply (node_not_branch n b rs) | apply cells_ok_empty |].
  exists cells. unfold run_tree. by rewrite Hm in Er.
Qed.
End Apply.
End Tree.
