(* ===== verification/Walk.v ===== *)
(** * Walk: what walks over a tree of cells see

    A walk that enters each cell once and goes on below the cells that are expanded
    sees every cell that is reached from its root through such cells, within the fuel
    it gets; what its steps keep is kept.  The resolver visits the old tree below the cells
    the filter includes and marks every cell on a way to a cell cut off from the new tree. *)

From stdpp Require Import gmap.
From S2P Require Import Prelude Bits CellMeta Cell RefsIter BocSer Merkle MerkleUpdate BocFill.

Section Reach.
Context (ex : Cell -> Prop).

(** The cells below [c], through cells that are expanded. *)
Inductive reach (c : Cell) : Cell -> Prop :=
| reach_refl : reach c c
| reach_step z w : reach c z -> ex z -> w ∈ references z -> reach c w.

Lemma reach_left c x z : ex c -> x ∈ references c -> reach x z -> reach c z.
Proof. intros He Hx. induction 1; [eapply reach_step; [apply reach_refl | done | done] | by eapply reach_step]. Qed.

Lemma reach_cases c z : reach c z -> z = c \/ exists x, ex c /\ x ∈ references c /\ reach x z.
Proof.
  induction 1 as [|z w _ IH He Hw]; [by left|]. right. destruct IH as [-> | (x & ? & ? & ?)].
  - exists w. split_and!; [done.. | apply reach_refl].
  - exists x. split_and!; [done.. | by eapply reach_step].
Qed.
End Reach.

Section Walk.
Context {A : Type} (enter : A -> Z -> Cell -> RefsIter -> result (A * bool)).
(** The cells that may come up, with their depths; which are expanded; which the state
    has seen; and what the state keeps. *)
Context (V : Z -> Cell -> Prop) (ex : Cell -> Prop) (seen : A -> Cell -> Prop) (Inv : A -> Prop).
Context (Hcell : forall d c, V d c -> counted c /\ plain c /\ 0 <= d <= 2).
Context (Hchild : forall d c x, V d c -> x ∈ references c -> V (d + is_merkle c) x).
Context (Henter : forall a d x it, V d x -> Inv a -> peek_prev_cloned it = Some x ->
  exists a' descend, enter a d x it = Ok (a', descend) /\ Inv a' /\ (forall y, seen a' y <-> seen a y \/ y = x) /\
    if descend : bool then ex x /\ ~ seen a x else seen a x \/ ~ ex x).

Definition covered (a : A) (y : Cell) : Prop := forall z, reach ex y z -> seen a z.

Lemma covered_mono a a' y : (forall z, seen a z -> seen a' z) -> covered a y -> covered a' y.
Proof. intros Hm Hc z Hz. by apply Hm, Hc. Qed.

Lemma covered_intro a y : seen a y -> (ex y -> forall w, w ∈ references y -> covered a w) -> covered a y.
Proof. intros Hs Hw z [-> | (x & He & Hx & Hr)]%reach_cases; [done | by eapply Hw]. Qed.

Lemma depth_back d c : V d c -> u8 (d + is_merkle c - is_merkle c) = d /\ u8 (d + is_merkle c) = d + is_merkle c.
Proof.
  intros (_ & _ & Hd)%Hcell. assert (0 <= is_merkle c <= 1) by (unfold is_merkle; destruct (Descr.is_merkle _); simpl; lia).
  split; rewrite u8_small; lia.
Qed.

Lemma walk_end fuel a d c stack : V d c ->
  walk enter (S fuel) a (d + is_merkle c) (iter_at c (length (references c)) :: stack) = walk enter fuel a d stack.
Proof.
  intros Hv. cbn [walk]. destruct (Hcell d c Hv) as (Hcnt & _). rewrite next_end by done. cbn [it_cell iter_at].
  by rewrite (proj1 (depth_back d c Hv)).
Qed.

Lemma walk_child a d c i x stack : V d c -> references c !! i = Some x -> Inv a ->
  exists a' descend, Inv a' /\ (forall y, seen a' y <-> seen a y \/ y = x) /\
    (if descend : bool then ex x /\ ~ seen a x else seen a x \/ ~ ex x) /\
    forall fuel, walk enter (S fuel) a (d + is_merkle c) (iter_at c i :: stack) =
      if descend then walk enter fuel a' (d + is_merkle c + is_merkle x) (iter_at x 0 :: iter_at c (S i) :: stack)
      else walk enter fuel a' (d + is_merkle c) (iter_at c (S i) :: stack).
Proof.
  intros Hv Ei Hi. destruct (Hcell d c Hv) as (Hcnt & Hp & _). assert (x ∈ references c) as Hx by (by eapply list_elem_of_lookup_2).
  pose proof (Hchild d c x Hv Hx) as Hvx.
  destruct (Henter a (d + is_merkle c) x (iter_at c (S i)) Hvx Hi) as (a' & descend & E & Hi' & Hs & Hd); [by apply prev_plain|].
  exists a', descend. split_and!; [done..|]. intros fuel. cbn [walk]. rewrite (next_at c i x Hcnt Ei), E. cbn [rbind].
  destruct descend; [|done]. by rewrite (proj2 (depth_back _ x Hvx)).
Qed.

(** A frame is worked off, and the children left are covered. *)
Lemma walk_frame n : forall c d todo i a stack,
  (height c < n)%nat -> V d c -> drop i (references c) = todo -> (i <= length (references c))%nat -> Inv a ->
  (forall y, seen a y -> (height y < height c)%nat -> covered a y) ->
  exists k a', (k <= S (all_steps todo))%nat /\ Inv a' /\ (forall y, seen a y -> seen a' y) /\
    (forall y, seen a' y -> seen a y \/ covered a' y) /\ (forall x, x ∈ todo -> covered a' x) /\
    forall fuel, walk enter (k + fuel) a (d + is_merkle c) (iter_at c i :: stack) = walk enter fuel a' d stack.
Proof.
  induction n as [|n IH]; [lia|]. intros c d todo. induction todo as [|x todo IHt]; intros i a stack Hn Hv Etodo Hi Hinv Hcov.
  { pose proof (f_equal length Etodo) as E. rewrite length_drop in E. simpl in E. assert (i = length (references c)) as -> by lia.
    exists 1%nat, a. split_and!; [lia | done | done | by left | by intros ? ?%elem_of_nil |]. intros fuel. by apply walk_end. }
  assert (references c !! i = Some x) as Ei by (pose proof (lookup_drop (references c) i 0) as E; by rewrite Etodo, Nat.add_0_r in E).
  assert (drop (S i) (references c) = todo) as Etodo' by (rewrite (drop_S _ _ _ Ei) in Etodo; by injection Etodo).
  apply lookup_lt_Some in Ei as Hlt. assert (x ∈ references c) as Hx by (by eapply list_elem_of_lookup_2).
  pose proof (child_height c x Hx) as Hhx. pose proof (Hchild d c x Hv Hx) as Hvx.
  destruct (walk_child a d c i x stack Hv Ei Hinv) as (a1 & descend & Hinv1 & Hseen1 & Hdesc & Hstep).
  assert (forall y, seen a y -> seen a1 y) as Hm1 by (intros; apply Hseen1; by left).
  assert (exists k a2, (k <= S (steps (S (height x)) x))%nat /\ Inv a2 /\ (forall y, seen a1 y -> seen a2 y) /\
    (forall y, seen a2 y -> seen a1 y \/ covered a2 y) /\ covered a2 x /\
    forall fuel, walk enter (k + fuel) a (d + is_merkle c) (iter_at c i :: stack) =
      walk enter fuel a2 (d + is_merkle c) (iter_at c (S i) :: stack)) as (k1 & a2 & Hk1 & Hinv2 & Hm2 & Hnew2 & Hcx & Hrun1).
  { destruct descend.
    - destruct Hdesc as [He Hns].
      destruct (IH x (d + is_merkle c) (references x) 0%nat a1 (iter_at c (S i) :: stack)) as (k & a2 & Hk & Hinv2 & Hm2 & Hnew & Hall & Hrun); try (done || lia).
      { intros y [Hy| ->]%Hseen1 Hh; [|lia]. eapply covered_mono, Hcov; [exact Hm1 | done | lia]. }
      exists (S k), a2. split_and!; [rewrite steps_eq by lia; lia | done..| |].
      + apply covered_intro; [apply Hm2, Hseen1; by right | by intros _].
      + intros fuel. cbn [Nat.add]. rewrite Hstep. apply Hrun.
    - exists 1%nat, a1. split_and!; [lia | done | done | by left | | apply Hstep]. destruct Hdesc as [Hs|Hne].
      + eapply covered_mono, Hcov; [exact Hm1 | done | lia].
      + apply covered_intro; [apply Hseen1; by right | done]. }
  destruct (IHt (S i) a2 stack) as (k2 & a3 & Hk2 & Hinv3 & Hm3 & Hnew3 & Hall3 & Hrun2); try done.
  { intros y [[Hy| ->]%Hseen1|Hy]%Hnew2 Hh; [|done..]. eapply covered_mono, Hcov; [|done|done]. auto. }
  exists (k1 + k2)%nat, a3. split_and!.
  - cbn [all_steps foldr]. fold (all_steps todo). lia.
  - done.
  - auto.
  - intros y [[[Hy| ->]%Hseen1|Hy]%Hnew2|Hy]%Hnew3; [by left | right | right | by right]; by eapply covered_mono.
  - intros y [-> | Hy]%list.elem_of_cons; [by eapply covered_mono | by apply Hall3].
  - intros fuel. by rewrite <- Nat.add_assoc, Hrun1, Hrun2.
Qed.

(** The whole walk below a root that is already seen. *)
Lemma walk_tree_covers root d a : V d root -> Inv a -> (forall y, seen a y -> y = root) ->
  exists a', walk_tree enter root a (d + is_merkle root) = Ok (a', d) /\ Inv a' /\ (forall y, seen a y -> seen a' y) /\
    forall x, x ∈ references root -> covered a' x.
Proof.
  intros Hv Hinv Hseen. destruct (walk_frame (S (height root)) root d (references root) 0%nat a []) as (k & a' & Hk & Hinv' & Hm & _ & Hall & Hrun);
    try (done || lia).
  { intros y ->%Hseen Hh. lia. }
  exists a'. split_and!; [|done..]. unfold walk_tree. rewrite steps_eq by lia.
  replace (S (S (all_steps (references root)))) with (k + S (S (all_steps (references root)) - k))%nat by lia.
  change (refs_iter root) with (iter_at root 0). by rewrite Hrun.
Qed.
End Walk.

(** * The cells of the old tree that lead to a pruned branch

    The resolver visits the old tree below the cells the filter includes and marks every
    cell on a way to a cell cut off from the new tree. *)

Section Resolve.
Context (all : list Cell) (pruned : gset (list Z)) (filter : MerkleFilter).
Context (Hclosed : forall c child, c ∈ all -> child ∈ references c -> child ∈ all).
Context (Hinj : forall a b, a ∈ all -> b ∈ all -> repr_hash a = repr_hash b -> a = b).
Context (Hsub : forall h, filter h <> IncludeSubtree).

(** Cells whose children the resolver looks at. *)
Definition included (z : Cell) : Prop := filter (repr_hash z) <> Skip.

(** A cell cut off is reached. *)
Definition leads (c : Cell) : Prop := exists q, reach included c q /\ repr_hash q ∈ pruned.

Record resolved (rs : Resolver) (c : Cell) (b : bool) : Prop := {
  res_leads : leads c -> b = true;
  res_changed : forall z w, reach included c z -> included z -> w ∈ references z -> leads w -> repr_hash z ∈ rs_changed rs;
}.

Definition memo_ok (rs : Resolver) : Prop := forall c b, c ∈ all -> rs_visited rs !! repr_hash c = Some b -> resolved rs c b.
Definition more (rs rs' : Resolver) : Prop := rs_changed rs ⊆ rs_changed rs'.

Lemma more_same rs v : more rs (mkResolver v (rs_changed rs)).
Proof. unfold more. cbn [rs_changed]. set_solver. Qed.

Lemma more_refl rs : more rs rs.
Proof. unfold more. set_solver. Qed.

#[local] Hint Resolve more_same more_refl : core.

Lemma resolved_more rs rs' c b : more rs rs' -> resolved rs c b -> resolved rs' c b.
Proof. intros Hm [H1 H2]. split; [done|]. intros z w ? ? ? ?. apply Hm. by eapply H2. Qed.

Lemma leads_left c w : included c -> w ∈ references c -> leads w -> leads c.
Proof. intros Hc Hw (q & Hq & Hp). exists q. split; [by eapply reach_left | done]. Qed.

(** What the visit of a cell notes down. *)
Lemma resolved_insert rs c b : c ∈ all -> memo_ok rs -> resolved rs c b ->
  memo_ok (mkResolver (<[repr_hash c := b]> (rs_visited rs)) (rs_changed rs)).
Proof.
  intros Hc Hm Hr x bx Hx. cbn [rs_visited]. destruct (decide (repr_hash c = repr_hash x)) as [E|Hne].
  - rewrite E, lookup_insert_eq. intros [= <-]. rewrite <- (Hinj c x) by done. by apply (resolved_more rs).
  - rewrite lookup_insert_ne by done. intros E. apply (resolved_more rs); [done | by apply Hm].
Qed.

Section Children.
Context (n : nat) (IH : forall c rs, (height c < n)%nat -> c ∈ all -> memo_ok rs ->
  exists b rs', fill pruned filter n rs c false = (b, rs') /\ memo_ok rs' /\ resolved rs' c b /\ more rs rs').

Lemma fill_children l b0 rs0 : (forall x, x ∈ l -> (height x < n)%nat /\ x ∈ all) -> memo_ok rs0 ->
  exists b1 rs1, foldl (fun (acc : bool * Resolver) child => let (r, rs) := fill pruned filter n acc.2 child false in (acc.1 || r, rs)) (b0, rs0) l = (b1, rs1) /\
    memo_ok rs1 /\ more rs0 rs1 /\ (b0 = true -> b1 = true) /\
    forall x, x ∈ l -> resolved rs1 x b1.
Proof.
  revert b0 rs0. induction l as [|x l IHl]; intros b0 rs0 Hl Hm; cbn [foldl].
  { exists b0, rs0. split_and!; try done. by intros ? ?%elem_of_nil. }
  destruct (Hl x ltac:(by left)) as [Hh Hx]. destruct (IH x rs0 Hh Hx Hm) as (b & rs' & E & Hm' & Hr & Hmore). cbn [fst snd]. rewrite E.
  destruct (IHl (b0 || b) rs') as (b1 & rs1 & -> & Hm1 & Hmore1 & Hb & Hres); [intros; apply Hl; by right | done |].
  exists b1, rs1. split_and!; [done | done | unfold more in *; set_solver | intros ->; by apply Hb |].
  intros y [-> | Hy]%list.elem_of_cons; [|by apply Hres]. apply (resolved_more rs' rs1) in Hr; [|done].
  destruct Hr as [H1 H2]. split; [|done]. intros Hld. apply Hb. rewrite (H1 Hld). apply orb_true_r.
Qed.
End Children.

Lemma fill_resolves n : forall c rs, (height c < n)%nat -> c ∈ all -> memo_ok rs ->
  exists b rs', fill pruned filter n rs c false = (b, rs') /\ memo_ok rs' /\ resolved rs' c b /\ more rs rs'.
Proof.
  induction n as [|n IH]; [lia|]. intros c rs Hn Hc Hm. cbn [fill].
  destruct (rs_visited rs !! repr_hash c) as [b|] eqn:Ev; [exists b, rs; split_and!; [done | done | by apply Hm | done]|].
  destruct (is_skip (filter (repr_hash c))) eqn:Es.
  - assert (resolved rs c (false || bool_decide (repr_hash c ∈ pruned))) as Hr.
    { assert (~ included c) as Hnot by (unfold included; destruct (filter (repr_hash c)); naive_solver).
      split.
      - intros (q & [-> | (x & Hi & _)]%reach_cases & Hq); [|done]. by apply bool_decide_eq_true.
      - intros z w [-> | (x & Hi & _)]%reach_cases; by intros. }
    eexists _, _. split_and!; [done | by apply resolved_insert | by apply (resolved_more rs) | done].
  - assert (included c) as Hi by (unfold included; destruct (filter (repr_hash c)); done).
    assert (match filter (repr_hash c) with IncludeSubtree => true | _ => false end = false) as ->.
    { pose proof (Hsub (repr_hash c)). destruct (filter (repr_hash c)); done. }
    destruct (fill_children n IH (references c) false rs) as (b1 & rs1 & -> & Hm1 & Hmore & _ & Hres).
    { intros x Hx. pose proof (child_height c x Hx). split; [lia | by eapply Hclosed]. }
    { done. }
    set (rs2 := if b1 then mkResolver (rs_visited rs1) ({[repr_hash c]} ∪ rs_changed rs1) else rs1).
    assert (more rs1 rs2) as Hm12 by (unfold more, rs2; destruct b1; cbn; set_solver).
    assert (memo_ok rs2) as Hm2.
    { intros x bx Hx E. apply (resolved_more rs1); [done|]. apply Hm1; [done|]. unfold rs2 in E. by destruct b1. }
    assert (resolved rs2 c (b1 || bool_decide (repr_hash c ∈ pruned))) as Hr.
    { split.
      - intros (q & [-> | (x & _ & Hx & Hq)]%reach_cases & Hp); [apply orb_true_iff; right; by apply bool_decide_eq_true|].
        rewrite (res_leads _ _ _ (Hres x Hx)); [done | by exists q].
      - intros z w [-> | (x & _ & Hx & Hz)]%reach_cases Hiz Hw Hld.
        + unfold rs2. rewrite (res_leads _ _ _ (Hres w Hw) Hld). cbn. set_solver.
        + apply Hm12. by apply (res_changed _ _ _ (Hres x Hx) z w). }
    eexists _, _. split_and!; [done | by apply resolved_insert | by apply (resolved_more rs2) | unfold more in *; cbn; set_solver].
Qed.

Lemma memo_ok_empty : memo_ok (mkResolver ∅ ∅).
Proof. intros c b _ E. cbn [rs_visited] in E. by rewrite lookup_empty in E. Qed.
End Resolve.

Definition in_set (s : gset (list Z)) (z : Cell) : Prop := repr_hash z ∈ s.

(** The cells marked by the resolver are a way to each cell cut off. *)
Lemma marked_way pruned f o rs b z : resolved pruned f rs o b -> reach (included f) o z -> leads pruned f z ->
  reach (in_set (if b then {[repr_hash o]} ∪ rs_changed rs else rs_changed rs)) o z.
Proof.
  intros Hr. set (changed := if b then _ else _). assert (rs_changed rs ⊆ changed) as Hc by (unfold changed; destruct b; set_solver).
  induction 1 as [|z w Hz IH Hi Hw]; intros Hl; [apply reach_refl|].
  eapply reach_step; [apply IH; by eapply leads_left | | done]. apply Hc. by eapply (res_changed _ _ _ _ _ Hr z w).
Qed.
