(* ===== verification/UpdateApply.v ===== *)
(** * UpdateApply: an update applied to the old tree gives the new one

    In complete trees: the stand-ins of the update determine their originals, the walks
    of [find_old_cells] and of [apply_ext_with_stats] find every cell that was cut off
    from the new tree, and the applier puts them back. *)

From stdpp Require Import gmap.
From S2P Require Import Prelude Bits DataBuilder DataBuilderSpec CellMeta Cell RefsIter Slice SliceSpec Builder BuilderSpec Context Pieces CellTheorems BocSer Merkle MerkleUpdate BocFill BocRoundtrip Nodes Tree MerkleSpec UpdateSpec Walk.

(** Cells closed under references and told apart by their hashes. *)
Record distinct (l : list Cell) : Prop := {
  dt_closed : forall c x, c ∈ l -> x ∈ references c -> x ∈ l;
  dt_inj : forall a b, a ∈ l -> b ∈ l -> repr_hash a = repr_hash b -> a = b;
}.

Lemma visit_fresh (visited : gset (list Z)) h : visit_hash visited h = (bool_decide (h ∉ visited), {[h]} ∪ visited).
Proof. done. Qed.

Section Apply.
Context (sha256 : list Z -> HashBytes) (all : list Cell) (md : Cell -> Z).
Let ctx := empty_context sha256.
Context (Hsha : hash32 sha256) (Ht : tree sha256 all md).
Context (Hwhole : forall c, c ∈ all -> is_pruned_branch c = false).
Let any : Cell -> Prop := fun _ => True.

(** ** Stand-ins *)

Lemma stands_any wanted n c r : (height c < n)%nat -> stands sha256 all md wanted c r -> stands sha256 all md any c r.
Proof.
  revert c r. induction n as [|n IH]; [lia|]. intros c r Hn Hs. revert Hn.
  destruct Hs as [c P Hc _ E|c b rs r Hc Hb HF E]; intros Hn; [by apply stands_branch|].
  apply (stands_node _ _ _ _ c b rs); [done..| |done]. eapply (forall2_children sha256 all); [exact Hb | exact HF|].
  intros x y _ Hx. apply IH. lia.
Qed.

Lemma pruned_masks a b k l : LevelMask.wf a -> LevelMask.wf b -> 0 <= k <= 2 -> 0 <= l <= 2 -> a < 2 ^ k -> b < 2 ^ l ->
  pruned_mask a k = pruned_mask b l -> k = l.
Proof.
  intros Ha Hb Hk Hl Hak Hbl E.
  pose proof (masks_levels (fun a b k l => negb ((k <=? 2) && (l <=? 2) && (a <? 2 ^ k) && (b <? 2 ^ l) && (pruned_mask a k =? pruned_mask b l)) || (k =? l))
    ltac:(by vm_compute) a b k l Ha Hb ltac:(lia) ltac:(lia)) as H. cbv beta zeta in H.
  rewrite (proj2 (Z.leb_le k 2)), (proj2 (Z.leb_le l 2)), (proj2 (Z.ltb_lt a _)), (proj2 (Z.ltb_lt b _)), (proj2 (Z.eqb_eq _ _) E) in H by lia.
  cbn [andb negb orb] in H. by apply Z.eqb_eq.
Qed.

Lemma same_depth x x' y : stands sha256 all md any x y -> stands sha256 all md any x' y -> md x = md x' -> x = x'.
Proof.
  intros Hs Hs' E. apply (tree_inj _ _ _ Ht); [by eapply stands_in | by eapply stands_in |].
  rewrite <- (stand_in_hash _ _ _ Hsha Ht any x y Hs), <- (stand_in_hash _ _ _ Hsha Ht any x' y Hs'). by rewrite E.
Qed.

Lemma is_merkle_rebuilt c b rs r : rebuilt c b rs r -> is_merkle r = is_merkle c.
Proof. intros Hr. rewrite <- (rb_merkle _ _ _ _ Hr), type_is_merkle. done. Qed.

(** A stand-in has one original. *)
Lemma same_origin n : forall x x' y, (height y < n)%nat -> stands sha256 all md any x y -> stands sha256 all md any x' y -> x = x'.
Proof.
  induction n as [|n IH]; [lia|]. intros x x' y Hn Hs Hs'.
  pose proof (stands_in _ _ _ _ _ _ Hs) as Hx. pose proof (stands_in _ _ _ _ _ _ Hs') as Hx'.
  apply (same_depth x x' y); [done..|]. destruct (is_pruned_branch y) eqn:Ep.
  - destruct (pruned_original _ _ _ Hsha Ht any x y Hs Ep) as [[_ E]|[-> _]]; [|by rewrite Hwhole in Ep].
    destruct (pruned_original _ _ _ Hsha Ht any x' y Hs' Ep) as [[_ E']|[-> _]]; [|by rewrite Hwhole in Ep].
    destruct (branch_agrees _ _ _ Hsha Ht x y Hx E) as (_ & _ & Em). destruct (branch_agrees _ _ _ Hsha Ht x' y Hx' E') as (_ & _ & Em').
    pose proof (tree_sound _ _ _ Ht x Hx) as [_ Hd]. pose proof (tree_sound _ _ _ Ht x' Hx') as [_ Hd'].
    apply (pruned_masks (level_mask x) (level_mask x')); try (by apply level_mask_ok || by apply Ht || congruence).
  - destruct Hs as [x y _ _ E|x b rs y _ Hb HF E].
    { destruct (branch_agrees _ _ _ Hsha Ht x y Hx E) as (_ & Hp & _). congruence. }
    destruct Hs' as [x' y _ _ E'|x' b' rs' y _ Hb' HF' E'].
    { destruct (branch_agrees _ _ _ Hsha Ht x' y Hx' E') as (_ & Hp & _). congruence. }
    pose proof (stands_rebuilt _ _ _ Hsha Ht any x b rs y Hx Hb HF E) as Hr.
    pose proof (stands_rebuilt _ _ _ Hsha Ht any x' b' rs' y Hx' Hb' HF' E') as Hr'.
    assert (rs' = rs) as -> by (by rewrite <- (rb_refs _ _ _ _ Hr), <- (rb_refs _ _ _ _ Hr')).
    destruct rs as [|z rs].
    + apply Forall2_nil_inv_r in HF, HF'. pose proof (own_build sha256 all x b Hb) as Ex. pose proof (own_build sha256 all x' b' Hb') as Ex'.
      rewrite HF in Ex. rewrite HF' in Ex'. fold ctx in E, E', Ex, Ex'. rewrite E in Ex. rewrite E' in Ex'. congruence.
    + apply Forall2_cons_inv_r in HF as (x0 & l & Hz & _ & Eb). apply Forall2_cons_inv_r in HF' as (x0' & l' & Hz' & _ & Eb').
      assert (z ∈ references y) as Hzy by (rewrite (rb_refs _ _ _ _ Hr); by left). apply child_height in Hzy.
      assert (x0 = x0') as -> by (apply (IH x0 x0' z); [lia | done..]).
      pose proof (tree_md _ _ _ Ht x x0' Hx) as E1. pose proof (tree_md _ _ _ Ht x' x0' Hx') as E2.
      rewrite (co_refs _ _ _ _ Hb), Eb in E1. rewrite (co_refs _ _ _ _ Hb'), Eb' in E2.
      specialize (E1 ltac:(by left)). specialize (E2 ltac:(by left)).
      pose proof (is_merkle_rebuilt _ _ _ _ Hr). pose proof (is_merkle_rebuilt _ _ _ _ Hr'). lia.
Qed.

(** ** The stand-ins a walk meets *)

Lemma branch_cell c P : c ∈ all -> make_pruned_branch ctx c (md c) = Ok P -> counted P /\ plain P /\ references P = [].
Proof.
  intros Hc E. destruct (tree_cell _ _ _ Hsha Ht c Hc) as (b & Hb).
  destruct (pruned_final sha256 c (md c)) as (repr & d & E' & _ & Hrc & _); [apply Hb | by apply Ht | by apply Ht | apply Hb |].
  fold ctx in E'. rewrite E in E'. injection E' as ->.
  match goal with |- context [references ?P = []] => assert (references P = []) as Er end.
  { unfold references, refs_window. unfold reference_count. cbn [descriptor]. by rewrite Hrc. }
  split_and!; [|done|done]. unfold counted. rewrite Er. exact Hrc.
Qed.

Section Seen.
Context (l : list Cell) (Hl : distinct l) (wanted : Cell -> Prop).

Definition meets (d : Z) (y : Cell) : Prop := y ∈ l /\ exists x, stands sha256 all md wanted x y /\ md x = d.

Lemma meets_cell d y : meets d y -> counted y /\ plain y /\ 0 <= d <= 2.
Proof.
  intros (_ & x & Hs & <-). pose proof (stands_in _ _ _ _ _ _ Hs) as Hx. pose proof (tree_range _ _ _ Ht x Hx).
  destruct Hs as [x y _ _ E|x b rs y _ Hb HF E].
  - by destruct (branch_cell x y Hx E) as (? & ? & _).
  - pose proof (stands_rebuilt _ _ _ Hsha Ht wanted x b rs y Hx Hb HF E) as Hr. split_and!; first [apply Hr | lia].
Qed.

Lemma meets_child d y z : meets d y -> z ∈ references y -> meets (d + is_merkle y) z.
Proof.
  intros (Hy & x & Hs & <-) Hz. split; [by eapply (dt_closed _ Hl)|]. pose proof (stands_in _ _ _ _ _ _ Hs) as Hx.
  destruct Hs as [x y _ _ E|x b rs y _ Hb HF E].
  - destruct (branch_cell x y Hx E) as (_ & _ & Er). rewrite Er in Hz. by apply elem_of_nil in Hz.
  - pose proof (stands_rebuilt _ _ _ Hsha Ht wanted x b rs y Hx Hb HF E) as Hr. rewrite (rb_refs _ _ _ _ Hr) in Hz.
    apply list_elem_of_lookup_1 in Hz as [i Ei]. destruct (Forall2_lookup_r _ _ _ _ _ HF Ei) as (x0 & E0 & Hs0). exists x0. split; [done|].
    rewrite (is_merkle_rebuilt _ _ _ _ Hr). apply (tree_md _ _ _ Ht); [done|]. rewrite (co_refs _ _ _ _ Hb). by eapply list_elem_of_lookup_2.
Qed.

Definition in_visited (visited : gset (list Z)) (y : Cell) : Prop := y ∈ l /\ repr_hash y ∈ visited.

Lemma visited_insert visited y : y ∈ l -> forall z, in_visited ({[repr_hash y]} ∪ visited) z <-> in_visited visited z \/ z = y.
Proof.
  intros Hy z. unfold in_visited. rewrite elem_of_union, elem_of_singleton. split.
  - intros [Hz [E|?]]; [right; by apply (dt_inj _ Hl) | by left].
  - intros [[? ?]| ->]; auto.
Qed.

Definition whole (y : Cell) : Prop := is_pruned_branch y = false.

(** The two walks over stand-ins: the first keeps the hashes of the originals. *)
Definition kept_hashes (s : gset (list Z) * gset (list Z)) : Prop :=
  forall y x, in_visited s.1 y -> stands sha256 all md wanted x y -> repr_hash x ∈ s.2.

Lemma enter_old_keeps s d y it : meets d y -> kept_hashes s -> peek_prev_cloned it = Some y ->
  exists s' descend, enter_old s d y it = Ok (s', descend) /\ kept_hashes s' /\
    (forall z, in_visited s'.1 z <-> in_visited s.1 z \/ z = y) /\
    if descend : bool then whole y /\ ~ in_visited s.1 y else in_visited s.1 y \/ ~ whole y.
Proof.
  intros (Hy & x & Hs & <-) Hk _. destruct s as [visited hs]. unfold enter_old. rewrite visit_fresh.
  pose proof (visited_insert visited y Hy) as Hv. destruct (decide (repr_hash y ∈ visited)) as [Hin|Hin].
  - rewrite bool_decide_false by (by intros []). cbn [negb]. eexists _, false. split_and!; [done | | done | by left].
    intros z x' [Hz| ->]%Hv Hs'; [by apply (Hk z x') | by apply (Hk y x')].
  - rewrite bool_decide_true by done. cbn [negb]. eexists _, (negb (is_pruned_branch y)). split_and!; [done | | done |].
    + intros z x' [Hz| ->]%Hv Hs'; cbn [snd]; [apply elem_of_union_r; by apply (Hk z x')|].
      assert (x' = x) as ->.
      { apply (same_origin (S (height y)) x' x y); [lia | by apply (stands_any wanted (S (height x'))); [lia|] | by apply (stands_any wanted (S (height x))); [lia|]]. }
      rewrite (stand_in_hash _ _ _ Hsha Ht wanted x y Hs). set_solver.
    + unfold whole. destruct (is_pruned_branch y); cbn [negb]; [by right|]. split; [done|]. by intros [_ ?].
Qed.

Lemma enter_new_keeps hs visited d y it : (forall x, wanted x -> repr_hash x ∈ hs) -> meets d y -> peek_prev_cloned it = Some y ->
  exists visited' descend, enter_new hs visited d y it = Ok (visited', descend) /\ True /\
    (forall z, in_visited visited' z <-> in_visited visited z \/ z = y) /\
    if descend : bool then whole y /\ ~ in_visited visited y else in_visited visited y \/ ~ whole y.
Proof.
  intros Hw (Hy & x & Hs & <-) _. unfold enter_new. rewrite visit_fresh.
  pose proof (visited_insert visited y Hy) as Hv. destruct (decide (repr_hash y ∈ visited)) as [Hin|Hin].
  - rewrite bool_decide_false by (by intros []). cbn [negb]. eexists _, false. split_and!; [done | done | done | by left].
  - rewrite bool_decide_true by done. cbn [negb]. unfold whole. destruct (is_pruned_branch y) eqn:Ep.
    + rewrite (stand_in_hash _ _ _ Hsha Ht wanted x y Hs).
      destruct (pruned_original _ _ _ Hsha Ht wanted x y Hs Ep) as [[Hwx _]|[-> _]].
      2: { rewrite Hwhole in Ep; [done | by eapply stands_in]. }
      rewrite bool_decide_true by auto. rewrite andb_false_r. eexists _, false. split_and!; [done | done | done | by right].
    + eexists _, true. split_and!; [done | done | done | done |]. by intros [_ ?].
Qed.
End Seen.

(** ** [find_old_cells] *)

Section Find.
Context (l : list Cell) (Hl : distinct l) (wanted : Cell -> Prop).
Context (u : MerkleUpdate) (o n : Cell) (Ho : md o = 0) (Hn : md n = 0) (Hlo : old u ∈ l) (Hln : new u ∈ l).
Context (Hso : stands sha256 all md any o (old u)) (Hsn : stands sha256 all md wanted n (new u)).
Context (Hwanted : forall x, wanted x -> exists y, stands sha256 all md any x y /\ reach whole (old u) y).

Lemma reach_in y : reach whole (old u) y -> y ∈ l.
Proof. induction 1; [done | by eapply (dt_closed _ Hl)]. Qed.

Lemma find_old_ok : exists hs, find_old_cells u = Ok hs /\
  forall x y, stands sha256 all md any x y -> reach whole (old u) y -> repr_hash x ∈ hs.
Proof.
  assert (meets l any 0 (old u)) as Hm by (split; [done | by exists o]).
  assert (hash (old u) 0 = repr_hash o) as Eo by (rewrite <- Ho; by eapply stand_in_hash).
  assert (forall y, in_visited l {[repr_hash (old u)]} y -> y = old u) as Hstart.
  { intros y [Hy E%elem_of_singleton]. by apply (dt_inj _ Hl). }
  destruct (walk_tree_covers enter_old (meets l any) whole (fun s => in_visited l s.1) (kept_hashes l any)
    (meets_cell l any) (meets_child l Hl any) (fun s d y it Hv Hi Hp => enter_old_keeps l Hl any s d y it Hv Hi Hp) (old u) 0
    ({[repr_hash (old u)]}, {[hash (old u) 0]}) Hm) as ([visited hs] & E1 & Hk & Hmono & Hcov); [| done |].
  { intros y x Hy Hs. apply Hstart in Hy as ->. rewrite Eo.
    assert (x = o) as -> by (apply (same_origin (S (height (old u))) x o (old u)); [lia | done | done]). set_solver. }
  assert (forall x y, stands sha256 all md any x y -> reach whole (old u) y -> repr_hash x ∈ hs) as Hhs.
  { intros x y Hs Hr. apply (Hk y x); [|done]. destruct (reach_cases whole _ _ Hr) as [-> | (c & _ & Hc & Hry)]; [|by apply (Hcov c Hc y)].
    apply Hmono. split; [done | cbn [fst]; set_solver]. }
  exists hs. split; [|done]. unfold find_old_cells. rewrite Z.add_0_l in E1. rewrite E1. cbn [rbind fst snd].
  assert (meets l wanted 0 (new u)) as Hmn by (split; [done | by exists n]).
  destruct (walk_tree_covers (enter_new hs) (meets l wanted) whole (in_visited l) (fun _ => True)
    (meets_cell l wanted) (meets_child l Hl wanted)) with (root := new u) (d := 0) (a := {[repr_hash (new u)]} : gset (list Z)) as (visited' & E2 & _); [ | done | done | |].
  { intros a d y it Hv _ Hp. apply (enter_new_keeps l Hl wanted); [|done|done]. intros x (y' & Hs & Hr)%Hwanted. by eapply Hhs. }
  { intros y [Hy E%elem_of_singleton]. by apply (dt_inj _ Hl). }
  assert (u8 (0 + is_merkle (new u)) = 0 + is_merkle (new u)) as -> by (apply u8_small; pose proof (is_merkle_range (new u)); lia).
  rewrite E2. done.
Qed.
End Find.

(** ** The cells of the old tree *)

Section Owned.
Context (hs : gset (list Z)) (o : Cell) (Hin : o ∈ all) (Ho : md o = 0).

Definition located (d : Z) (x : Cell) : Prop := x ∈ all /\ md x = d.
Definition known_hash (x : Cell) : Prop := repr_hash x ∈ hs.
Definition owned (s : gset (list Z) * gmap (list Z) Cell) : Prop :=
  forall x, in_visited all s.1 x -> known_hash x -> s.2 !! repr_hash x = Some x.

Lemma all_distinct : distinct all.
Proof. split; [intros c x; by apply (child_in sha256 all md) | apply Ht]. Qed.

Lemma located_hash d x : located d x -> hash x d = repr_hash x.
Proof.
  intros [Hx <-]. pose proof (tree_range _ _ _ Ht x Hx). symmetry.
  apply (below_same (md x) x 3); [by eapply tree_sound | by apply Ht | lia | lia].
Qed.

Lemma located_cell d x : located d x -> counted x /\ plain x /\ 0 <= d <= 2.
Proof.
  intros [Hx <-]. destruct (tree_cell _ _ _ Hsha Ht x Hx) as (b & Hb). pose proof (tree_range _ _ _ Ht x Hx). split_and!; [apply Hb | apply Hb | lia | lia].
Qed.

Lemma located_child d c x : located d c -> x ∈ references c -> located (d + is_merkle c) x.
Proof. intros [Hc <-] Hx. split; [by eapply (child_in sha256 all md) | by apply (tree_md _ _ _ Ht)]. Qed.

Lemma enter_owned_keeps s d x it : located d x -> owned s -> peek_prev_cloned it = Some x ->
  exists s' descend, enter_owned hs s d x it = Ok (s', descend) /\ owned s' /\
    (forall z, in_visited all s'.1 z <-> in_visited all s.1 z \/ z = x) /\
    if descend : bool then known_hash x /\ ~ in_visited all s.1 x else in_visited all s.1 x \/ ~ known_hash x.
Proof.
  intros Hd Hk Hp. pose proof (located_hash d x Hd) as Eh. destruct Hd as [Hx _]. destruct s as [visited m]. unfold enter_owned. rewrite visit_fresh.
  pose proof (visited_insert all all_distinct visited x Hx) as Hv. unfold owned in Hk. cbn [fst snd] in Hk.
  destruct (decide (repr_hash x ∈ visited)) as [Hi|Hi].
  - rewrite bool_decide_false by (by intros []). cbn [negb]. eexists _, false. split_and!; [done | | done | by left].
    intros z [Hz| ->]%Hv; apply Hk; done.
  - rewrite bool_decide_true by done. cbn [negb]. rewrite Eh. unfold known_hash. destruct (decide (repr_hash x ∈ hs)) as [Hh|Hh].
    + rewrite bool_decide_true by done. cbn [negb]. rewrite Hp. eexists _, true. split_and!; [done | | done | done |].
      * intros z Hz%Hv Hzh. cbn [snd]. destruct (decide (repr_hash x = repr_hash z)) as [E|Hne].
        -- destruct Hz as [[Hza _]| ->]; [|by rewrite lookup_insert_eq]. rewrite <- (tree_inj _ _ _ Ht x z) by done. by rewrite lookup_insert_eq.
        -- rewrite lookup_insert_ne by done. destruct Hz as [Hz| ->]; [by apply Hk | done].
      * by intros [_ ?].
    + rewrite bool_decide_false by done. cbn [negb]. eexists _, false. split_and!; [done | | done | by right].
      intros z [Hz| ->]%Hv Hzh; [by apply Hk | done].
Qed.

Lemma owned_found : exists s d, walk_tree (enter_owned hs) o ({[repr_hash o]}, {[hash o 0 := o]}) (is_merkle o) = Ok (s, d) /\
  forall x, reach known_hash o x -> known_hash x -> s.2 !! repr_hash x = Some x.
Proof.
  assert (forall y, in_visited all {[repr_hash o]} y -> y = o) as Hstart.
  { intros y [Hy E%elem_of_singleton]. by apply (tree_inj _ _ _ Ht). }
  assert (hash o 0 = repr_hash o) as Eh by (by apply (located_hash 0)).
  destruct (walk_tree_covers (enter_owned hs) located known_hash (fun s => in_visited all s.1) owned
    located_cell located_child enter_owned_keeps o 0 ({[repr_hash o]}, {[hash o 0 := o]})) as (s & E & Hk & Hmono & Hcov); [done | | done |].
  { intros y ->%Hstart _. cbn [snd]. rewrite Eh. by rewrite lookup_singleton_eq. }
  exists s, 0. rewrite Z.add_0_l in E. split; [done|]. intros x Hr Hh. apply Hk; [|done].
  destruct (reach_cases known_hash _ _ Hr) as [-> | (c & _ & Hc & Hry)]; [|by apply (Hcov c Hc x)].
  apply Hmono. split; [done | cbn [fst]; set_solver].
Qed.
End Owned.

(** ** Complete trees *)

Lemma whole_mask n c : (height c < n)%nat -> c ∈ all -> level_mask c = 0.
Proof.
  revert c. induction n as [|n IH]; [lia|]. intros c Hn Hc. destruct (tree_cell _ _ _ Hsha Ht c Hc) as (b & Hb).
  assert (forall x, x ∈ b_refs b -> level_mask x = 0) as Hch.
  { intros x Hx. rewrite <- (co_refs _ _ _ _ Hb) in Hx. apply IH; [apply child_height in Hx; lia | by eapply (child_in sha256 all md)]. }
  destruct (co_from _ _ _ _ Hb) as (Hw & E & _). unfold build_ext in E. cbn [finalize_cell ctx empty_context] in E.
  destruct (compute_hashes sha256 (build_parts b)) as [hs|] eqn:Eh; [|done]. injection E as E.
  destruct (built_fields sha256 b Hw (refs_d1 b (co_sounds _ _ _ _ Hb)) hs Eh) as (Ed & _). rewrite E in Ed.
  destruct (built_descriptor b Hw (refs_d1 b (co_sounds _ _ _ _ Hb))) as (Elm & _ & _ & Hex & Hrc & _).
  assert (p_children_mask (build_parts b) = 0) as Hm.
  { change (p_children_mask (build_parts b)) with (foldl (fun m c => LevelMask.bitor m (level_mask c)) LevelMask.EMPTY (b_refs b)).
    assert (forall refs, (forall x, x ∈ refs -> level_mask x = 0) -> foldl (fun m c => LevelMask.bitor m (level_mask c)) LevelMask.EMPTY refs = 0) as H; [|by apply H].
    induction refs as [|x refs IHr]; intros Hr; [done|]. cbn [foldl]. rewrite (Hr x) by (by left). apply IHr. intros. apply Hr. by right. }
  assert (b_refs b = [] \/ b_refs b <> []) as [Hnil|Hne] by (destruct (b_refs b); [by left | by right]).
  - destruct (b_exotic b) eqn:Ex.
    + pose proof (Hwhole c Hc) as Hp. unfold is_pruned_branch, Descr.is_pruned_branch in Hp. rewrite Ed, Hex, Hrc, Hnil in Hp.
      cbn [andb] in Hp. change (zlen [] =? 0) with true in Hp. cbn [andb] in Hp. unfold level_mask. rewrite Ed.
      by apply negb_false_iff, Z.eqb_eq in Hp.
    + unfold level_mask. rewrite Ed, Elm, Hm. unfold build_level_mask. by rewrite ?Ex.
  - destruct (co_node _ _ _ _ Hb Hne) as (ty & Hn' & Ec & Ho). unfold level_mask. rewrite Ed.
    destruct (node_mask sha256 b Hw (co_sounds _ _ _ _ Hb) Hne ty Hn') as [Em _]. rewrite <- Ec in Em. unfold level_mask in Em. rewrite Ed in Em.
    rewrite Em, Hm. unfold LevelMask.virtualize. by rewrite Z.shiftr_0_l.
Qed.

(** ** The update between two trees *)

Section Update.
Context (f : MerkleFilter).
Context (o n : Cell) (Hino : o ∈ all) (Hinn : n ∈ all) (Ho : md o = 0) (Hn : md n = 0).

Lemma update_built : repr_hash o <> repr_hash n -> exists ro rn pruned changed count,
  update_build_ext ctx (mkUpdateBuilder o n f) =
    Ok (mkBuilt (mkUpdate (repr_hash o) (repr_hash n) (repr_depth o) (repr_depth n) ro rn) count) /\
  made sha256 all md (inverted_filter f) false n (Some pruned) n rn /\
  pruned_by sha256 all md (set_filter changed) false o None o ro /\
  ((forall h, f h <> IncludeSubtree) -> forall z, reach (included f) o z -> leads pruned f z -> reach (in_set changed) o z).
Proof.
  intros Hne. unfold update_build_ext. cbn [ub_old ub_new ub_filter]. rewrite bool_decide_false by done.
  destruct (build_impl_good sha256 all md Hsha Ht (inverted_filter f) false n true (mkState ∅ (Some ∅)) Hinn Hn) as (rn & st & En & Hgn & _ & Hpn);
    [by left | apply st_ok_empty |].
  unfold ext_build_raw_ext. cbn [allow_different_root proof_create pb_root pb_filter pb_allow_different_root pb_prune_big_cells].
  fold ctx in En. rewrite En. cbn [rbind]. destruct Hgn as [Hsome _]. cbn [st_pruned] in Hsome.
  destruct (Hsome ltac:(by eexists)) as [pruned Ep]. rewrite Ep in *. cbn [default id].
  pose proof (fill_resolves all pruned f (fun c x => child_in sha256 all md Hsha Ht c x) (tree_inj _ _ _ Ht)) as Hfill.
  specialize (fun Hsub => Hfill Hsub (S (height o)) o (mkResolver ∅ ∅) ltac:(lia) Hino (memo_ok_empty all pruned f)).
  destruct (fill pruned f (S (height o)) (mkResolver ∅ ∅) o false) as [b rs] eqn:Efill.
  set (changed := if b then _ else _).
  destruct (build_impl_good sha256 all md Hsha Ht (set_filter changed) false o true (mkState ∅ None) Hino Ho) as (ro & st' & Eo & _ & [Hpo _] & _);
    [by left | apply st_ok_empty |].
  unfold build_raw_ext. cbn [allow_different_root proof_create pb_root pb_filter pb_allow_different_root pb_prune_big_cells].
  fold ctx in Eo. rewrite Eo. cbn [rbind]. eexists ro, rn, pruned, changed, _. split_and!; [done | done | |].
  - eapply (pruned_by_mono sha256 all md _ _ _ _ _ (S (height o))); [lia | | exact Hpo]. done.
  - intros Hsub z. destruct (Hfill Hsub) as (b' & rs' & [= <- <-] & _ & Hr & _). by apply marked_way.
Qed.

(** A stand-in under each cell of a way the filter keeps *)
Lemma kept_stand_in changed ro x : pruned_by sha256 all md (set_filter changed) false o None o ro -> reach (in_set changed) o x ->
  exists y, pruned_by sha256 all md (set_filter changed) false o None x y /\ reach whole ro y.
Proof.
  intros Hp. induction 1 as [|z w Hz (y & Hy & Hr) Hi Hw]; [exists ro; split; [done | apply reach_refl]|].
  assert (set_filter changed (repr_hash z) = Include) as Ef by (unfold set_filter; by rewrite decide_True).
  destruct Hy as [z Hza E|z y Hza E _ _ _|z b rs y Hza Hb Hst HF E]; try congruence.
  assert (Forall2 (stands sha256 all md any) (b_refs b) rs) as HF'.
  { eapply list.Forall2_impl; [exact HF|]. intros c d Hcd. by eapply (pruned_stands sha256 all md Hsha Ht any _ _ _ _ (S (height c))); [done|lia|exact Hcd]. }
  pose proof (stands_rebuilt _ _ _ Hsha Ht any z b rs y Hza Hb HF' E) as Hrb.
  rewrite (co_refs _ _ _ _ Hb) in Hw. apply list_elem_of_lookup_1 in Hw as [i Ei]. destruct (Forall2_lookup_l _ _ _ _ _ HF Ei) as (v & Ev & Hv).
  exists v. split; [done|]. apply (reach_step whole ro y v); [done | | rewrite (rb_refs _ _ _ _ Hrb); by eapply list_elem_of_lookup_2].
  unfold whole, is_pruned_branch, Descr.is_pruned_branch. pose proof (rb_counted _ _ _ _ Hrb) as Hcnt.
  unfold counted, reference_count in Hcnt. rewrite Hcnt, (rb_refs _ _ _ _ Hrb).
  apply lookup_lt_Some in Ev. rewrite (proj2 (Z.eqb_neq _ _)) by (unfold zlen; lia). by rewrite andb_false_r.
Qed.

(** Applied to the old tree, the update gives the new one. *)
Lemma update_applied ro rn pruned changed l :
  repr_hash o <> repr_hash n ->
  made sha256 all md (inverted_filter f) false n (Some pruned) n rn ->
  pruned_by sha256 all md (set_filter changed) false o None o ro ->
  (forall z, reach (included f) o z -> leads pruned f z -> reach (in_set changed) o z) ->
  (forall q, q ∈ all -> included f q -> reach (included f) o q) ->
  distinct l -> ro ∈ l -> rn ∈ l ->
  exists count, apply_ext_with_stats ctx (mkUpdate (repr_hash o) (repr_hash n) (repr_depth o) (repr_depth n) ro rn) o = Ok (mkApplied n count).
Proof.
  intros Hne Hpn Hpo Hway Hused Hl Hro Hrn. set (u := mkUpdate _ _ _ _ _ _).
  set (wanted := fun x => x ∈ all /\ included f x /\ repr_hash x ∈ pruned).
  assert (forall x, x ∈ all -> filter_out (inverted_filter f) (Some pruned) x -> wanted x) as Hcut.
  { intros x Hx [E Htr]. split_and!; [done | | exact Htr]. unfold inverted_filter in E. unfold included. by destruct (f (repr_hash x)). }
  assert (forall c r tr fl big, (forall x, x ∈ all -> filter_out fl tr x -> any x) -> pruned_by sha256 all md fl big o tr c r -> stands sha256 all md any c r) as Hany.
  { intros c r tr fl big Hw Hp. by eapply (pruned_stands _ _ _ Hsha Ht any fl big o tr (S (height c))); [|lia|]. }
  assert (forall x, reach (in_set changed) o x -> exists y, stands sha256 all md any x y /\ reach whole ro y) as Hkept.
  { intros x Hx. destruct (kept_stand_in changed ro x Hpo Hx) as (y & Hy & Hr). exists y. split; [by eapply Hany | done]. }
  assert (forall x, wanted x -> reach (in_set changed) o x) as Hwant.
  { intros x (Hx & Hi & Hp). apply Hway; [by apply Hused|]. exists x. split; [apply reach_refl | done]. }
  destruct (find_old_ok l Hl wanted u o n Ho Hn Hro Hrn) as (hs & Ehs & Hhs).
  { by eapply Hany. }
  { destruct Hpn as (b & rs & Hb & HF & E). apply (stands_node _ _ _ _ n b rs); [done..| |exact E].
    eapply list.Forall2_impl; [exact HF|]. intros x y Hxy. by eapply (pruned_stands _ _ _ Hsha Ht wanted _ _ _ _ (S (height x))); [|lia|]. }
  { intros x Hx. by apply Hkept, Hwant. }
  assert (forall x, reach (in_set changed) o x -> repr_hash x ∈ hs) as Hin.
  { intros x (y & Hy & Hr)%Hkept. by eapply Hhs. }
  assert (forall x, reach (in_set changed) o x -> reach (known_hash hs) o x) as Hknown.
  { induction 1 as [|z w Hz IH Hi Hw]; [apply reach_refl|]. eapply reach_step; [exact IH | by apply Hin | done]. }
  destruct (owned_found hs o Hino Ho) as ([visited m] & d & Ew & Hm).
  unfold apply_ext_with_stats. cbn [u old_hash new_hash]. rewrite bool_decide_true, bool_decide_false by done. cbn [negb].
  rewrite Ehs. cbn [rbind]. rewrite Ew. cbn [rbind snd]. unfold apply_new. cbn [new u new_hash].
  destruct (run_made sha256 all md Hsha Ht wanted (fun h => m !! h) false) with (f := inverted_filter f) (big := false) (root := n) (tr := Some pruned) (n := n) (r := rn)
    as (cells & Er); [| | exact Hcut | done | done | done |].
  { intros c Hc Hwc. pose proof (Hwant c Hwc) as Hr. exact (Hm c (Hknown c Hr) (Hin c Hr)). }
  { intros c Hc [E _]. rewrite (whole_mask (S (height c)) c) in E by (done || lia). done. }
  fold ctx in Er. rewrite Er. cbn [rbind]. rewrite bool_decide_true by done. by eexists.
Qed.
End Update.
End Apply.
