(* ===== verification/MerkleStore.v ===== *)
(** * MerkleStore: storing and loading Merkle proofs and updates

    Both are cells of whole bytes, of a type byte and of hashes and depths that commit to
    the children.  The finalizer accepts exactly those that commit to the children they
    have, and loading them gives them back. *)

From S2P Require Import Prelude Bits DataBuilder DataBuilderSpec CellMeta Cell RefsIter Slice SliceSpec Builder BuilderSpec Context Pieces CellTheorems BocSer Merkle MerkleUpdate BocRoundtrip Nodes Tree.

(** A child a Merkle cell can have. *)
Definition child_ok (c : Cell) : Prop := sound c /\ forall l, 0 <= l -> depth c l < 65535.

Lemma child_ok_intro c : sound c -> forallb (fun l => depth c l <? 65535) [0; 1; 2; 3] = true -> child_ok c.
Proof.
  intros Hs Hb. split; [done|]. rewrite forallb_forall in Hb.
  assert (forall l, 0 <= l <= 3 -> depth c l < 65535) as H.
  { intros l Hl. apply Z.ltb_lt, Hb. assert (l = 0 \/ l = 1 \/ l = 2 \/ l = 3) as [-> | [-> | [-> | ->]]] by lia; simpl; auto. }
  intros l Hl. destruct (decide (l <= 3)); [by apply H|]. destruct Hs as [Hi Hd].
  destruct (indexed_hash c l 3 Hi) as [_ ->]; [|by apply H]. apply top_index; [by apply level_mask_ok | lia].
Qed.

Section Finalize.
Context (bytes : list Z) (rs : list Cell).
Context (Hl : 1 <= zlen bytes <= 127) (Hby : Forall is_byte bytes) (Hne : rs <> []) (H4 : zlen rs <= 4) (Hrs : Forall child_ok rs).
Let b := byte_builder bytes true rs.
Let p := build_parts b.

Lemma merkle_parts : builder_wf b /\ Forall d1_ok rs /\ p_data p = bytes /\ p_bit_len p = 8 * zlen bytes /\
  Descr.is_exotic (p_descriptor p) = true /\ (byte_at bytes 0 = 3 \/ byte_at bytes 0 = 4 ->
    Descr.level_mask (p_descriptor p) = LevelMask.virtualize (p_children_mask p) 1).
Proof.
  assert (Forall d1_ok rs) as Hd by (eapply list.Forall_impl; [exact Hrs | by intros x [[_ ?] _]]).
  assert (builder_wf b) as Hw by (apply byte_builder_wf; [lia | done]).
  destruct (byte_builder_parts bytes true rs Hby ltac:(lia)) as (Ed & El & E0 & _).
  destruct (built_descriptor b Hw Hd) as (Elm & _ & _ & Hex & _). split_and!; try done.
  intros Hty. unfold p. rewrite Elm. unfold build_level_mask. change (b_exotic b) with true.
  change (DataBuilder.bit_len (inner b)) with (p_bit_len p). unfold p, b. rewrite El, (proj2 (Z.leb_le _ _)) by lia. cbn [andb].
  rewrite E0. by destruct Hty as [-> | ->].
Qed.

(** The finalizer does what the checks of the type say. *)
Lemma merkle_finalize sha256 : byte_at bytes 0 = 3 \/ byte_at bytes 0 = 4 ->
  match validate_type p with
  | Ok _ => exists c, build_ext (empty_context sha256) b = Ok c
  | Err e => build_ext (empty_context sha256) b = Err e
  end.
Proof.
  intros Hty. destruct merkle_parts as (Hw & Hd & Ed & El & Hex & Hm). specialize (Hm Hty).
  destruct (validate_type p) as [[ty m]|e] eqn:Ev.
  - destruct (validate_shape p ty m Ev) as (Hp & Ho & Em); [done|]. rewrite Hex in Ho. change (b2z true) with 1 in Ho. rewrite Ho, <- Hm in Em. subst m.
    eexists. apply node_build; [done | done | done |]. exists ty. split; [|done]. split; [done|].
    apply list.Forall_forall. intros l [_ Hlv]%list_elem_of_filter. unfold fits. fold p. rewrite Ho.
    rewrite !list.elem_of_cons, elem_of_nil in Hlv.
    eapply list.Forall_impl; [exact Hrs|]. intros x [_ Hx]. apply Hx. lia.
  - unfold build_ext. cbn [finalize_cell empty_context]. fold b p. unfold compute_hashes. rewrite Ev.
    destruct (parts_data b Hw) as (Hz & _). fold p in Hz. change (DataBuilder.bit_len (inner b)) with (p_bit_len p) in Hz.
    rewrite Hz, Z.ltb_irrefl. done.
Qed.
End Finalize.

(** ** Merkle proofs *)

Record proof_ok (p : MerkleProof) : Prop := {
  po_hash : zlen (proof_hash p) = 32 /\ Forall is_byte (proof_hash p);
  po_depth : 0 <= proof_depth p < 65536;
  po_cell : child_ok (proof_cell p);
}.

Definition proof_commits (p : MerkleProof) : Prop := hash (proof_cell p) 0 = proof_hash p /\ depth (proof_cell p) 0 = proof_depth p.

Definition proof_bytes (p : MerkleProof) : list Z := 3 :: proof_hash p ++ to_be_bytes 2 (proof_depth p).

Section Proof.
Context (p : MerkleProof) (Hp : proof_ok p).

Lemma proof_bytes_ok : zlen (proof_bytes p) = 35 /\ Forall is_byte (proof_bytes p).
Proof.
  destruct (po_hash _ Hp) as [H32 Hh]. unfold proof_bytes. split.
  - replace (zlen (3 :: _)) with (1 + zlen (proof_hash p ++ to_be_bytes 2 (proof_depth p))) by (unfold zlen; simpl; lia).
    rewrite zlen_app, H32, length_to_be_bytes; lia.
  - constructor; [unfold is_byte; lia|]. apply Forall_app. split; [done | apply to_be_bytes_bytes].
Qed.

Lemma proof_stored : proof_store_into p builder_new = Ok (byte_builder (proof_bytes p) true [proof_cell p]).
Proof.
  destruct (po_hash _ Hp) as [H32 Hh]. pose proof (po_depth _ Hp) as Hd. unfold proof_store_into.
  change (negb (has_capacity builder_new PROOF_BITS PROOF_REFS)) with false. cbv iota zeta.
  assert (set_exotic builder_new true = byte_builder [] true []) as -> by (by vm_compute).
  rewrite (byte_builder_store _ [] true [] [3]); [| done | done | intros d Hdw; by apply store_u8_spec]. cbn [rbind app].
  rewrite (byte_builder_store _ [3] true [] (proof_hash p)); [| rewrite H32; by vm_compute | done |].
  2: { intros d Hdw. rewrite H32. by apply store_u256_spec. }
  cbn [rbind]. rewrite (byte_builder_store _ _ true [] (to_be_bytes 2 (proof_depth p))); [done | | done |].
  - rewrite zlen_app, H32, length_to_be_bytes by lia. by vm_compute.
  - intros d Hdw. rewrite store_u16_spec by (done || lia). rewrite length_to_be_bytes by lia. f_equal. by apply (uint_bits_bytes 2).
Qed.

Lemma proof_parts_at : sub_bytes (proof_bytes p) 1 32 = proof_hash p /\
  from_be_bytes [byte_at (proof_bytes p) 33; byte_at (proof_bytes p) 34] = proof_depth p.
Proof.
  destruct (po_hash _ Hp) as [H32 Hh]. destruct proof_bytes_ok as [Hz _]. pose proof (po_depth _ Hp) as Hd.
  pose proof (at_all (proof_bytes p)) as Hat. unfold proof_bytes in Hat at 2.
  change (3 :: ?l) with ([3] ++ l) in Hat. apply at_app in Hat as [_ [Hh1 Hd1]%at_app].
  apply at_sub in Hh1, Hd1. rewrite H32 in Hh1, Hd1. rewrite length_to_be_bytes in Hd1 by lia.
  change (0 + zlen [3]) with 1 in *. split; [done|]. change 34 with (33 + 1). rewrite two_bytes by lia.
  change (1 + 32) with 33 in Hd1. rewrite Hd1. by apply from_to_be.
Qed.

Lemma proof_validate : match validate_type (build_parts (byte_builder (proof_bytes p) true [proof_cell p])) with
  | Ok _ => proof_commits p | Err e => e = InvalidCell /\ ~ proof_commits p end.
Proof.
  destruct proof_bytes_ok as [Hz Hby]. destruct proof_parts_at as [Eh Ed].
  destruct (merkle_parts (proof_bytes p) [proof_cell p]) as (_ & _ & Edat & El & Hex & _); [lia | done | done | by repeat constructor; apply Hp |].
  set (ps := build_parts _) in *. unfold validate_type. rewrite Hex, Edat, El, Hz. change (p_references ps) with [proof_cell p].
  unfold proof_bytes at 1. cbv iota. change (CellTypes.from_byte_exotic 3) with (Some CellMeta.MerkleProof). cbv iota.
  change (negb (8 * 35 =? 8 + 256 + 16) || negb (zlen [proof_cell p] =? 1) || (35 <? 35)) with false. cbv iota zeta.
  rewrite Eh, Ed. unfold proof_commits.
  destruct (bool_decide_reflect (hash (proof_cell p) 0 = proof_hash p)); cbn [negb orb]; [|by split; [|intros [? _]]].
  destruct (Z.eqb_spec (depth (proof_cell p) 0) (proof_depth p)); cbn [negb]; [done | by split; [|intros [_ ?]]].
Qed.

Lemma proof_loaded c load : holds (new_allow_exotic c) (proof_bytes p) [proof_cell p] -> is_exotic c = true -> proof_commits p ->
  (forall s bytes rs, holds s bytes (proof_cell p :: rs) -> exists s', load s = Ok (proof_cell p, s')) ->
  proof_load_with load c = Ok p.
Proof.
  intros H Hex [Eh Ed] Hload. destruct (po_hash _ Hp) as [H32 _]. pose proof (po_depth _ Hp) as Hd.
  destruct (holds_sizes _ _ _ H) as [Hs Hr]. destruct proof_bytes_ok as [Hz _]. rewrite Hz in Hs.
  unfold proof_load_with. rewrite Hex, Hs, Hr. change (negb (8 * 35 =? PROOF_BITS) || negb (zlen [proof_cell p] =? PROOF_REFS)) with false.
  cbn [negb]. cbv iota zeta. unfold proof_bytes in H. apply load_byte in H as (s1 & -> & H). cbn [rbind].
  change (negb (3 =? CellTypes.to_byte CellMeta.MerkleProof)) with false. cbv iota.
  apply load_hash in H as (s2 & -> & H); [|done]. cbn [rbind]. rewrite <- (app_nil_r (to_be_bytes 2 _)) in H.
  apply load_16 in H as (s3 & -> & H); [|done]. cbn [rbind]. apply Hload in H as (s4 & ->). cbn [rbind].
  rewrite bool_decide_true by done. rewrite (proj2 (Z.eqb_eq _ _)) by done. cbn [andb]. by destruct p.
Qed.

(** The finalizer accepts the stored proof if it commits to its child, and it is loaded again. *)
Lemma proof_finalized sha256 : let b := byte_builder (proof_bytes p) true [proof_cell p] in
  (proof_commits p -> exists c, build_ext (empty_context sha256) b = Ok c /\
    proof_load_from_cell c = Ok p /\ proof_ref_load_from_cell c = Ok p) /\
  (~ proof_commits p -> build_ext (empty_context sha256) b = Err InvalidCell).
Proof.
  destruct proof_bytes_ok as [Hz Hby]. intros b. assert (Forall child_ok [proof_cell p]) as Hch by (by repeat constructor; apply Hp).
  pose proof (merkle_finalize (proof_bytes p) [proof_cell p] ltac:(lia) Hby ltac:(done) ltac:(done) Hch sha256 ltac:(by left)) as Hf.
  pose proof proof_validate as Hv. fold b in Hf, Hv. destruct (validate_type (build_parts b)) as [?|e].
  - split; [|done]. intros Hc. destruct Hf as (c & E). exists c. split; [done|].
    destruct (bytes_cell sha256 (proof_bytes p) true [proof_cell p] c) as [Hh Hex]; [lia | done | done | | exact E |].
    { eapply list.Forall_impl; [exact Hch | by intros x [[_ ?] _]]. }
    split; (apply proof_loaded; [done..|]); intros s bytes rs (s' & E1 & E2 & _)%load_ref; by exists s'.
  - destruct Hv as [-> Hn]. by split.
Qed.
End Proof.

(** ** Merkle updates *)

Record update_ok (u : MerkleUpdate) : Prop := {
  uo_old_hash : zlen (old_hash u) = 32 /\ Forall is_byte (old_hash u);
  uo_new_hash : zlen (new_hash u) = 32 /\ Forall is_byte (new_hash u);
  uo_depths : 0 <= old_depth u < 65536 /\ 0 <= new_depth u < 65536;
  uo_cells : child_ok (old u) /\ child_ok (new u);
}.

Definition update_commits (u : MerkleUpdate) : Prop :=
  hash (old u) 0 = old_hash u /\ depth (old u) 0 = old_depth u /\ hash (new u) 0 = new_hash u /\ depth (new u) 0 = new_depth u.

Definition update_bytes (u : MerkleUpdate) : list Z :=
  4 :: old_hash u ++ new_hash u ++ to_be_bytes 2 (old_depth u) ++ to_be_bytes 2 (new_depth u).

Lemma two_depths a b : 0 <= a < 65536 -> 0 <= b < 65536 ->
  Z.lor (u32 (Z.shiftl a 16)) b = a * 65536 + b /\ to_be_bytes 4 (a * 65536 + b) = to_be_bytes 2 a ++ to_be_bytes 2 b.
Proof.
  intros Ha Hb. split.
  - assert (u32 (Z.shiftl a 16) = Z.shiftl a 16) as -> by (rewrite Z.shiftl_mul_pow2 by lia; apply wrap_small; lia).
    rewrite <- Z.add_nocarry_lor; [rewrite Z.shiftl_mul_pow2 by lia; lia|].
    apply Z.bits_inj'. intros i Hi. rewrite Z.land_spec, Z.bits_0. destruct (Z.ltb_spec i 16).
    + rewrite Z.shiftl_spec, Z.testbit_neg_r by lia. done.
    + rewrite (testbit_high 16 b) by lia. apply andb_false_r.
  - unfold to_be_bytes. change (seqZ 0 4) with [0; 1; 2; 3]. change (seqZ 0 2) with [0; 1]. cbn [fmap list_fmap app].
    unfold u8, wrap. rewrite !Z.shiftr_div_pow2 by lia. change (2 ^ (8 * (4 - 1 - 0))) with 16777216. change (2 ^ (8 * (4 - 1 - 1))) with 65536.
    change (2 ^ (8 * (4 - 1 - 2))) with 256. change (2 ^ (8 * (4 - 1 - 3))) with 1. change (2 ^ (8 * (2 - 1 - 0))) with 256.
    change (2 ^ (8 * (2 - 1 - 1))) with 1. change (2 ^ 8) with 256. do 3 (f_equal; [lia|]). f_equal. lia.
Qed.

Section Update.
Context (u : MerkleUpdate) (Hu : update_ok u).

Lemma update_bytes_ok : zlen (update_bytes u) = 69 /\ Forall is_byte (update_bytes u).
Proof.
  destruct (uo_old_hash _ Hu) as [Ho Hob]. destruct (uo_new_hash _ Hu) as [Hn Hnb]. unfold update_bytes. split.
  - match goal with |- zlen (4 :: ?l) = _ => replace (zlen (4 :: l)) with (1 + zlen l) by (unfold zlen; simpl; lia) end.
    rewrite !zlen_app, Ho, Hn, !length_to_be_bytes; lia.
  - constructor; [unfold is_byte; lia|]. rewrite !Forall_app. split_and!; [done | done | apply to_be_bytes_bytes | apply to_be_bytes_bytes].
Qed.

Lemma update_stored : update_store_into u builder_new = Ok (byte_builder (update_bytes u) true [old u; new u]).
Proof.
  destruct (uo_old_hash _ Hu) as [Ho Hob]. destruct (uo_new_hash _ Hu) as [Hn Hnb]. destruct (uo_depths _ Hu) as [Hod Hnd].
  unfold update_store_into. change (negb (has_capacity builder_new UPDATE_BITS UPDATE_REFS)) with false. cbv iota zeta.
  assert (set_exotic builder_new true = byte_builder [] true []) as -> by (by vm_compute).
  rewrite (byte_builder_store _ [] true [] [4]); [| done | done | intros d Hdw; by apply store_u8_spec]. cbn [rbind app].
  rewrite (byte_builder_store _ [4] true [] (old_hash u)); [| rewrite Ho; by vm_compute | done |].
  2: { intros d Hdw. rewrite Ho. by apply store_u256_spec. }
  cbn [rbind]. rewrite (byte_builder_store _ _ true [] (new_hash u)); [| rewrite zlen_app, Ho, Hn; by vm_compute | done |].
  2: { intros d Hdw. rewrite Hn. by apply store_u256_spec. }
  destruct (two_depths (old_depth u) (new_depth u) Hod Hnd) as [-> E4].
  cbn [rbind]. rewrite (byte_builder_store _ _ true [] (to_be_bytes 4 (old_depth u * 65536 + new_depth u))).
  - cbn [rbind]. rewrite E4, <- !app_assoc. done.
  - rewrite !zlen_app, Ho, Hn, length_to_be_bytes by lia. by vm_compute.
  - done.
  - intros d Hdw. rewrite store_u32_spec by (done || lia). rewrite length_to_be_bytes by lia. f_equal. by apply (uint_bits_bytes 4).
Qed.

Lemma update_parts_at : sub_bytes (update_bytes u) 1 32 = old_hash u /\ sub_bytes (update_bytes u) 33 32 = new_hash u /\
  from_be_bytes [byte_at (update_bytes u) 65; byte_at (update_bytes u) 66] = old_depth u /\
  from_be_bytes [byte_at (update_bytes u) 67; byte_at (update_bytes u) 68] = new_depth u.
Proof.
  destruct (uo_old_hash _ Hu) as [Ho _]. destruct (uo_new_hash _ Hu) as [Hn _]. destruct (uo_depths _ Hu) as [Hod Hnd].
  destruct update_bytes_ok as [Hz _]. pose proof (at_all (update_bytes u)) as Hat. unfold update_bytes in Hat at 2.
  change (4 :: ?l) with ([4] ++ l) in Hat. apply at_app in Hat as [_ [H1 [H2 [H3 H4]%at_app]%at_app]%at_app].
  apply at_sub in H1, H2, H3, H4. rewrite ?Ho, ?Hn, ?length_to_be_bytes in * by lia. change (0 + zlen [4]) with 1 in *.
  change (1 + 32) with 33 in *. change (33 + 32) with 65 in *. change (65 + 2) with 67 in *.
  change 66 with (65 + 1). change 68 with (67 + 1). rewrite !two_bytes by lia. rewrite H3, H4.
  split_and!; [done | done | by apply from_to_be | by apply from_to_be].
Qed.

Lemma update_validate : match validate_type (build_parts (byte_builder (update_bytes u) true [old u; new u])) with
  | Ok _ => update_commits u | Err e => e = InvalidCell /\ ~ update_commits u end.
Proof.
  destruct update_bytes_ok as [Hz Hby]. destruct update_parts_at as (Eo & En & Eod & End'). destruct (uo_cells _ Hu) as [Hco Hcn].
  destruct (merkle_parts (update_bytes u) [old u; new u]) as (_ & _ & Edat & El & Hex & _); [lia | done | done | by apply Forall_cons_2; [|apply Forall_cons_2; [|constructor]] |].
  set (ps := build_parts _) in *. unfold validate_type. rewrite Hex, Edat, El, Hz. change (p_references ps) with [old u; new u].
  unfold update_bytes at 1. cbv iota. change (CellTypes.from_byte_exotic 4) with (Some CellMeta.MerkleUpdate). cbv iota.
  change (negb (8 * 69 =? 8 + 2 * (256 + 16)) || negb (zlen [old u; new u] =? 2) || (69 <? 69)) with false. cbv iota zeta.
  rewrite Eo, En, Eod, End'. unfold update_commits.
  destruct (bool_decide_reflect (hash (old u) 0 = old_hash u)); cbn [negb orb]; [|by split; [|intros [? _]]].
  destruct (Z.eqb_spec (depth (old u) 0) (old_depth u)); cbn [negb orb]; [|by split; [|intros (_ & ? & _)]].
  destruct (bool_decide_reflect (hash (new u) 0 = new_hash u)); cbn [negb orb]; [|by split; [|intros (_ & _ & ? & _)]].
  destruct (Z.eqb_spec (depth (new u) 0) (new_depth u)); cbn [negb]; [done | by split; [|intros (_ & _ & _ & ?)]].
Qed.

Lemma update_loaded c : holds (new_allow_exotic c) (update_bytes u) [old u; new u] -> is_exotic c = true -> update_commits u ->
  update_load_from_cell c = Ok u.
Proof.
  intros H Hex (E1 & E2 & E3 & E4). destruct (uo_old_hash _ Hu) as [Ho _]. destruct (uo_new_hash _ Hu) as [Hn _]. destruct (uo_depths _ Hu) as [Hod Hnd].
  destruct (holds_sizes _ _ _ H) as [Hs Hr]. destruct update_bytes_ok as [Hz _]. rewrite Hz in Hs.
  unfold update_load_from_cell. rewrite Hex, Hs, Hr. change (negb (8 * 69 =? UPDATE_BITS) || negb (zlen [old u; new u] =? UPDATE_REFS)) with false.
  cbn [negb]. cbv iota zeta. unfold update_bytes in H. apply load_byte in H as (s1 & -> & H). cbn [rbind].
  change (negb (4 =? CellTypes.to_byte CellMeta.MerkleUpdate)) with false. cbv iota.
  apply load_hash in H as (s2 & -> & H); [|done]. cbn [rbind]. apply load_hash in H as (s3 & -> & H); [|done]. cbn [rbind].
  apply load_16 in H as (s4 & -> & H); [|done]. cbn [rbind]. rewrite <- (app_nil_r (to_be_bytes 2 _)) in H.
  apply load_16 in H as (s5 & -> & H); [|done]. cbn [rbind]. apply load_ref in H as (s6 & _ & -> & H). cbn [rbind].
  apply load_ref in H as (s7 & _ & -> & H). cbn [rbind].
  rewrite !bool_decide_true by done. rewrite !(proj2 (Z.eqb_eq _ _)) by done. cbn [andb]. by destruct u.
Qed.

Lemma update_finalized sha256 : let b := byte_builder (update_bytes u) true [old u; new u] in
  (update_commits u -> exists c, build_ext (empty_context sha256) b = Ok c /\ update_load_from_cell c = Ok u) /\
  (~ update_commits u -> build_ext (empty_context sha256) b = Err InvalidCell).
Proof.
  destruct update_bytes_ok as [Hz Hby]. destruct (uo_cells _ Hu) as [Hco Hcn]. intros b.
  assert (Forall child_ok [old u; new u]) as Hch by (by apply Forall_cons_2; [|apply Forall_cons_2; [|constructor]]).
  pose proof (merkle_finalize (update_bytes u) [old u; new u] ltac:(lia) Hby ltac:(done) ltac:(done) Hch sha256 ltac:(by right)) as Hf.
  pose proof update_validate as Hv. fold b in Hf, Hv. destruct (validate_type (build_parts b)) as [?|e].
  - split; [|done]. intros Hc. destruct Hf as (c & E). exists c. split; [done|].
    destruct (bytes_cell sha256 (update_bytes u) true [old u; new u] c) as [Hh Hex]; [lia | done | done | | exact E |].
    { eapply list.Forall_impl; [exact Hch | by intros x [[_ ?] _]]. }
    by apply update_loaded.
  - destruct Hv as [-> Hn]. by split.
Qed.
End Update.
