(* ===== verification/MerkleTheorems.v ===== *)
(** * MerkleTheorems: Merkle proofs and updates

    The claims about [src/src/merkle]: what a pruned branch keeps, what the proof builder
    builds, the storage of proofs and updates, and the application of an update; and two
    lemmas about trees in which the code goes wrong. *)

From stdpp Require Import gmap.
From S2P Require Import Prelude Bits DataBuilder DataBuilderSpec CellMeta Cell RefsIter Slice SliceSpec Builder BuilderSpec Context Pieces CellTheorems BocSer Merkle MerkleUpdate BocFill BocRoundtrip BocTheorems Nodes Tree MerkleSpec UpdateSpec Walk UpdateApply MerkleStore.

(** A pruned branch stands for its cell: made at a Merkle depth above the levels of
    the cell it succeeds, is a pruned branch with one level more, has the hash and the
    depth of the cell at every level up to that depth, and is recognized as one of this
    depth; the hash the applier looks it up by, the highest it stores, is the
    representation hash of the cell unless the cell has level mask 2 at depth 2. *)
Theorem pruned_branch_stands sha256 c k :
  sound c -> 0 <= k <= 2 -> below k c -> hashes_ok c ->
  exists P, make_pruned_branch (empty_context sha256) c k = Ok P /\
    Descr.is_pruned_branch (descriptor P) = true /\ LevelMask.level (level_mask P) = LevelMask.level (level_mask c) + 1 /\
    (forall l, 0 <= l <= k -> hash P l = hash c l /\ depth P l = depth c l) /\
    Z.land (level_mask P) (u8 (Z.shiftl 1 k)) <> 0 /\
    (~ (level_mask c = 2 /\ k = 2) -> hash P (u8 (LevelMask.level (level_mask P) - 1)) = repr_hash c).
Proof.
  intros Hs Hk Hb Hok. destruct (pruned_agrees sha256 c k Hs Hk Hb Hok) as (P & E & Ha & Hp & Em).
  pose proof (level_mask_ok c (proj2 Hs)) as Hw. fold (level_mask c) in Hw.
  destruct (original_level (level_mask c) k Hw Hk ltac:(apply Hb)) as (Hl & Hh & Hbit & _).
  exists P. split_and!; [done | done | | | by rewrite Em |].
  - rewrite Em. apply Z.eqb_eq. destruct Hb as [_ Hlt]. clear - Hw Hk Hlt.
    pose proof (masks_levels (fun a _ k _ => negb ((k <=? 2) && (a <? 2 ^ k)) || (LevelMask.level (pruned_mask a k) =? LevelMask.level a + 1))
      ltac:(by vm_compute) (level_mask c) 0 k 0 Hw ltac:(done) ltac:(lia) ltac:(lia)) as H. cbv beta zeta in H.
    rewrite (proj2 (Z.leb_le k 2)), (proj2 (Z.ltb_lt _ _)) in H by (done || lia). done.
  - intros l Hlk. split; [by apply Ha | by apply (ag_depth_eq _ _ _ Ha)].
  - intros Hn. rewrite Em, (ag_hash _ _ _ Ha) by done. apply indexed_hash; [apply Hs|]. by apply Hh.
Qed.


(** Storing and loading a Merkle proof: storing it in an empty builder succeeds; the
    finalizer accepts the cell exactly if the hash and the depth are those of the child at
    level zero, and with any others answers [InvalidCell]; both ways to load the accepted
    cell give the proof back. *)
Theorem merkle_proof_roundtrip sha256 p :
  proof_ok p ->
  exists b, proof_store_into p builder_new = Ok b /\
    (proof_commits p -> exists c, build_ext (empty_context sha256) b = Ok c /\
      proof_load_from_cell c = Ok p /\ proof_ref_load_from_cell c = Ok p) /\
    (~ proof_commits p -> build_ext (empty_context sha256) b = Err InvalidCell).
Proof. intros Hp. eexists. split; [by apply proof_stored|]. by apply proof_finalized. Qed.

(** [C40] The same for Merkle updates, with the hashes and depths of both children. *)
Theorem merkle_update_roundtrip sha256 u :
  update_ok u ->
  exists b, update_store_into u builder_new = Ok b /\
    (update_commits u -> exists c, build_ext (empty_context sha256) b = Ok c /\ update_load_from_cell c = Ok u) /\
    (~ update_commits u -> build_ext (empty_context sha256) b = Err InvalidCell).
Proof. intros Hu. eexists. split; [by apply update_stored|]. by apply update_finalized. Qed.

(** ** Updates *)

Lemma trivial_update sha256 all md o n f :
  hash32 sha256 -> tree sha256 all md -> o ∈ all -> n ∈ all -> md o = 0 -> repr_hash o = repr_hash n ->
  exists P, update_build_ext (empty_context sha256) (mkUpdateBuilder o n f) =
    Ok (mkBuilt (mkUpdate (repr_hash o) (repr_hash o) (repr_depth o) (repr_depth o) P P) 0) /\
    hash P 0 = repr_hash o /\ depth P 0 = repr_depth o /\ o = n.
Proof.
  intros Hsha Ht Ho Hn Hm E. destruct (tree_cell _ _ _ Hsha Ht o Ho) as (b & Hb).
  destruct (pruned_agrees sha256 o (md o)) as (P & EP & Ha & _); [apply Hb | by apply Ht | by apply Ht | apply Hb |].
  rewrite Hm in EP, Ha. destruct (root_level sha256 all md Ht o Ho Hm) as [-> ->]. exists P.
  unfold update_build_ext. cbn [ub_old ub_new ub_filter]. rewrite bool_decide_true by done. rewrite EP. cbn [rbind].
  destruct (root_level sha256 all md Ht o Ho Hm) as [Eh Ed]. split_and!.
  - by rewrite Eh, Ed.
  - by apply Ha.
  - by apply (ag_depth_eq _ _ _ Ha).
  - by apply (tree_inj _ _ _ Ht).
Qed.



(** ** Witnesses *)

Lemma toy_hash32 : hash32 toy_sha.
Proof.
  intros l. unfold toy_sha. split; [done|]. apply Forall_replicate.
  enough (forall a, is_byte a -> is_byte (foldl (fun a x => u8 (a * 31 + x)) a l)) as H by (apply H; unfold is_byte; lia).
  induction l as [|x l IH]; intros a Ha; simpl; [done|]. apply IH, u8_byte.
Qed.

#[local] Opaque built.

(** A tree from builders, by evaluation *)
Lemma tree_of (all : list Cell) (md : Cell -> Z) (bs : list CellBuilder) :
  Forall2 (fun c b => builder_wf b /\ build_ext (empty_context toy_sha) b = Ok c /\ Forall (fun r => r ∈ all) (b_refs b)) all bs ->
  NoDup (repr_hash <$> all) ->
  forallb (fun c => (0 <=? md c) && (md c <=? 2) && (0 <=? level_mask c) && (level_mask c <? 2 ^ md c) &&
    forallb (fun x => md x =? md c + is_merkle c) (references c)) all = true ->
  tree toy_sha all md.
Proof.
  intros HF Hnd Hb.
  assert (forall c, c ∈ all -> 0 <= md c <= 2 /\ 0 <= level_mask c < 2 ^ md c /\ forall x, x ∈ references c -> md x = md c + is_merkle c) as Hmd.
  { intros c Hc%list_elem_of_In. apply (proj1 (forallb_forall _ _) Hb) in Hc. rewrite !andb_true_iff, !Z.leb_le, Z.ltb_lt, forallb_forall in Hc.
    destruct Hc as ((((? & ?) & ?) & ?) & Hx). split_and!; try done. intros x Hin%list_elem_of_In. by apply Z.eqb_eq, Hx. }
  split.
  - intros c [i Ei]%list_elem_of_lookup_1. destruct (Forall2_lookup_l _ _ _ _ _ HF Ei) as (b & _ & H). by exists b.
  - intros a b. by apply NoDup_image.
  - intros c x (_ & _ & H)%Hmd. apply H.
  - intros c (H & _)%Hmd. exact H.
  - intros c (_ & H & _)%Hmd. exact H.
Qed.

(** The sample trees: a Merkle proof of a tree of two cells beside a leaf, which the
    update replaces. *)
Definition s_leaf : CellBuilder := mkBuilder (of_bits (uint_bits 12 0xabc)) false [].
Definition s_inner : CellBuilder := mkBuilder (of_bits (uint_bits 8 0x77)) false [built s_leaf].
Definition s_proof : MerkleProof := mkProof (repr_hash (built s_inner)) (repr_depth (built s_inner)) (built s_inner).
Definition s_merkle : CellBuilder := byte_builder (proof_bytes s_proof) true [built s_inner].
Definition s_side : CellBuilder := mkBuilder (of_bits (uint_bits 16 0x1234)) false [].
Definition s_side' : CellBuilder := mkBuilder (of_bits (uint_bits 16 0x4321)) false [].
Definition s_old : CellBuilder := mkBuilder (of_bits (uint_bits 4 5)) false [built s_merkle; built s_side].
Definition s_new : CellBuilder := mkBuilder (of_bits (uint_bits 8 9)) false [built s_merkle; built s_side'].

Definition s_builders : list CellBuilder := [s_leaf; s_inner; s_merkle; s_side; s_side'; s_old; s_new].
Definition s_cells : list Cell := built <$> s_builders.

(** The cells under the Merkle proof are at depth 1. *)
Definition s_md (c : Cell) : Z := if bool_decide (repr_hash c ∈ [repr_hash (built s_leaf); repr_hash (built s_inner)]) then 1 else 0.

Lemma s_tree : tree toy_sha s_cells s_md.
Proof.
  apply (tree_of _ _ s_builders).
  - repeat (apply Forall2_cons; [split; [apply of_bits_builder_wf; by vm_compute | split; [by vm_compute|]]|]); [..|apply Forall2_nil].
    all: repeat first [apply Forall_nil | apply Forall_cons_2; [set_solver|]].
  - apply (bool_decide_unpack _). by vm_compute.
  - by vm_compute.
Qed.

(** The cells of the sample by their index *)
Lemma s_in i c : s_cells !! i = Some c -> c ∈ s_cells.
Proof. apply list_elem_of_lookup_2. Qed.

Lemma pruned_branch_stands_witness : exists P, make_pruned_branch (empty_context toy_sha) (built s_inner) 1 = Ok P /\
  LevelMask.level (level_mask P) = 1 /\ hash P 1 = repr_hash (built s_inner).
Proof.
  assert (built s_inner ∈ s_cells) as Hin by exact (s_in 1 _ eq_refl).
  destruct (tree_cell _ _ _ toy_hash32 s_tree (built s_inner) Hin) as (b & Hb).
  destruct (pruned_branch_stands toy_sha (built s_inner) 1) as (P & E & _ & Hlev & Hl & _); [apply Hb | done | by vm_compute | apply Hb |].
  exists P. split_and!; [done | |].
  - rewrite Hlev. by vm_compute.
  - transitivity (hash (built s_inner) 1); [apply Hl; lia | by vm_compute].
Defined.

(** The side leaf and what is below the Merkle proof are not looked at. *)
Definition s_filter : MerkleFilter := set_filter (list_to_set [repr_hash (built s_old); repr_hash (built s_merkle)]).


Lemma s_child_ok b : built b ∈ s_cells -> forallb (fun l => depth (built b) l <? 65535) [0; 1; 2; 3] = true -> child_ok (built b).
Proof. intros Hin. apply child_ok_intro. by eapply tree_sound; [exact s_tree|]. Qed.

Lemma s_hash c : c ∈ s_cells -> zlen (repr_hash c) = 32 /\ Forall is_byte (repr_hash c).
Proof.
  intros (b & Hb)%(tree_cell _ _ _ toy_hash32 s_tree). by destruct (co_hashes _ _ _ _ Hb 3 ltac:(lia)) as (? & ? & _).
Qed.

Lemma merkle_proof_roundtrip_witness : exists b, proof_store_into s_proof builder_new = Ok b /\
  exists c, build_ext (empty_context toy_sha) b = Ok c /\ proof_load_from_cell c = Ok s_proof.
Proof.
  destruct (merkle_proof_roundtrip toy_sha s_proof) as (b & E & H & _).
  - split; [apply s_hash, (s_in 1 _ eq_refl) | by vm_compute | apply s_child_ok; [exact (s_in 1 _ eq_refl) | by vm_compute]].
  - exists b. split; [done|]. destruct H as (c & ? & ? & _); [by vm_compute | by exists c].
Defined.

Definition s_plain_update : MerkleUpdate :=
  mkUpdate (repr_hash (built s_side)) (repr_hash (built s_side')) 0 0 (built s_side) (built s_side').

Lemma merkle_update_roundtrip_witness : exists b, update_store_into s_plain_update builder_new = Ok b /\
  exists c, build_ext (empty_context toy_sha) b = Ok c /\ update_load_from_cell c = Ok s_plain_update.
Proof.
  destruct (merkle_update_roundtrip toy_sha s_plain_update) as (b & E & H & _).
  - split; [apply s_hash, (s_in 3 _ eq_refl) | apply s_hash, (s_in 4 _ eq_refl) | by vm_compute |].
    split; apply s_child_ok; [exact (s_in 3 _ eq_refl) | by vm_compute | exact (s_in 4 _ eq_refl) | by vm_compute].
  - exists b. split; [done|]. apply H. by vm_compute.
Defined.

(** The update from the old to the new sample tree, and the cells it consists of. *)
Definition s_update : MerkleUpdate :=
  match update_build_ext (empty_context toy_sha) (mkUpdateBuilder (built s_old) (built s_new) s_filter) with
  | Ok r => br_update r | Err _ => update_default end.

Lemma s_update_eq res :
  update_build_ext (empty_context toy_sha) (mkUpdateBuilder (built s_old) (built s_new) s_filter) = Ok res -> br_update res = s_update.
Proof. unfold s_update. by intros ->. Qed.
#[local] Opaque s_update.

Definition s_stand_ins : list Cell :=
  old s_update :: new s_update :: references (old s_update) ++ drop 1 (references (new s_update)).

Lemma s_distinct : distinct s_stand_ins.
Proof.
  assert (references (new s_update) = take 1 (references (old s_update)) ++ drop 1 (references (new s_update))) as En by (by vm_compute).
  split; [|intros a b; apply (NoDup_image repr_hash); apply (bool_decide_unpack _); by vm_compute].
  intros c x Hc Hx. unfold s_stand_ins in Hc. rewrite !list.elem_of_cons in Hc. destruct Hc as [-> | [-> | Hc]].
  - unfold s_stand_ins. rewrite !list.elem_of_cons, elem_of_app. auto.
  - rewrite En, elem_of_app in Hx. unfold s_stand_ins. rewrite !list.elem_of_cons, elem_of_app.
    destruct Hx as [Hx|Hx]; [apply subseteq_take in Hx|]; auto.
  - exfalso. assert (forallb (fun c => (length (references c) =? 0)%nat) (references (old s_update) ++ drop 1 (references (new s_update))) = true) as H by (by vm_compute).
    rewrite forallb_forall in H. apply list_elem_of_In, H, Nat.eqb_eq, length_zero_iff_nil in Hc. rewrite Hc in Hx. by apply elem_of_nil in Hx.
Qed.

Lemma s_included q : q ∈ s_cells -> included s_filter q -> q = built s_old \/ q = built s_merkle.
Proof.
  intros Hq Hi. unfold included, s_filter, set_filter in Hi. destruct (decide _) as [Hs|]; [|done].
  rewrite elem_of_list_to_set, !list.elem_of_cons, elem_of_nil in Hs.
  destruct Hs as [E | [E | []]]; [left | right].
  - exact (tree_inj _ _ _ s_tree q (built s_old) Hq (s_in 5 _ eq_refl) E).
  - exact (tree_inj _ _ _ s_tree q (built s_merkle) Hq (s_in 2 _ eq_refl) E).
Qed.


Definition s_find (h : HashBytes) : option Cell := List.find (fun c => bool_decide (repr_hash c = h)) s_cells.


(** ** Trees in which the code goes wrong *)

(** A cell that occurs at two Merkle depths: the builder takes what it made for the first
    one at the second too, and the hash of the proof is not that of its cell. *)
Definition d_inner : CellBuilder := mkBuilder (of_bits (uint_bits 8 0x11)) false [built s_inner].
Definition d_proof : MerkleProof := mkProof (repr_hash (built d_inner)) (repr_depth (built d_inner)) (built d_inner).
Definition d_merkle : CellBuilder := byte_builder (proof_bytes d_proof) true [built d_inner].
Definition d_root : CellBuilder := mkBuilder (of_bits (uint_bits 4 1)) false [built d_inner; built d_merkle].

Lemma processed_cells_ignore_depth : exists p,
  proof_build_ext (empty_context toy_sha) (proof_create (built d_root)
    (set_filter (list_to_set [repr_hash (built d_root); repr_hash (built d_inner); repr_hash (built d_merkle)]))) = Ok p /\
  hash (proof_cell p) 0 <> proof_hash p.
Proof. eexists. split; [vm_compute; reflexivity | by vm_compute]. Qed.

(** A cell of level mask 2 pruned at depth 2 is looked up by its hash at level zero. *)
Lemma level_two_branch_lookup : exists c P,
  make_pruned_branch (empty_context toy_sha) (built s_inner) 1 = Ok c /\ make_pruned_branch (empty_context toy_sha) c 2 = Ok P /\
  hash P 2 = repr_hash c /\ hash P (u8 (LevelMask.level (level_mask P) - 1)) = hash c 0 /\ hash c 0 <> repr_hash c.
Proof. eexists _, _. split_and!; [vm_compute; reflexivity | vm_compute; reflexivity | by vm_compute..]. Qed.
