(* ===== verification/Account.v ===== *)
(** * Account: storage statistics, lazy cells and accounts

    [StorageStat] of [src/src/cell/mod.rs] counts the distinct cells of trees, told apart
    by their hashes, with an explicit stack of iterators; [src/src/cell/lazy.rs] wraps a
    cell that holds a value; [src/src/models/account/mod.rs] has the accounts.  The loop
    over the stack has fuel; [None] is when it runs out. *)

From stdpp Require Import gmap.
From S2P Require Import Prelude Bits DataBuilder CellMeta Cell RefsIter Slice Builder Context DictTyped Num Currency Shard Address BocSer.

(** ** [CellTreeStats] *)

Record CellTreeStats := mkStats { bit_count : Z; cell_count : Z }.

Module TreeStats.
Implicit Types self rhs : CellTreeStats.
Definition ZERO : CellTreeStats := mkStats 0 0.
Definition add self rhs : CellTreeStats :=
  mkStats (saturating_add 64 (bit_count self) (bit_count rhs)) (saturating_add 64 (cell_count self) (cell_count rhs)).
Definition add_assign := add.
Definition add_size self (rhs : Size) : CellTreeStats :=
  mkStats (saturating_add 64 (bit_count self) (bits rhs)) (saturating_add 64 (cell_count self) (refs rhs)).
Definition add_assign_size := add_size.
Definition sum (iter : list CellTreeStats) : CellTreeStats := foldl add_assign ZERO iter.
Definition sub_assign self rhs : CellTreeStats :=
  mkStats (saturating_sub (bit_count self) (bit_count rhs)) (saturating_sub (cell_count self) (cell_count rhs)).
Definition sub := sub_assign.
Definition sub_assign_size self (rhs : Size) : CellTreeStats :=
  mkStats (saturating_sub (bit_count self) (bits rhs)) (saturating_sub (cell_count self) (refs rhs)).
End TreeStats.

(** ** [StorageStat] *)

(** The top of the stack is the first. *)
Record StorageStat := mkStat { visited : gset (list Z); ss_stack : list RefsIter.RefsIter; stats : CellTreeStats; limit : Z }.

Module StorageStat.
Implicit Type self : StorageStat.

Definition with_limit (limit : Z) : StorageStat := mkStat ∅ [] TreeStats.ZERO limit.
Definition unlimited : StorageStat := with_limit (2 ^ 64 - 1).

(** [visited.insert] of a new hash, and the size of its cell added *)
Definition visit self (cell : Cell) : StorageStat :=
  mkStat ({[repr_hash cell]} ∪ visited self) (ss_stack self)
    (mkStats (u64 (bit_count (stats self) + bit_len cell)) (u64 (cell_count (stats self) + 1))) (limit self).
Definition with_stack self (stack : list RefsIter.RefsIter) : StorageStat := mkStat (visited self) stack (stats self) (limit self).
Definition is_visited self (cell : Cell) : bool := bool_decide (repr_hash cell ∈ visited self).

(** One step is a child of the iterator on top, or its end.  At the limit the hash of the
    cell is already noted. *)
Fixpoint reduce_stack (fuel : nat) self : option (bool * StorageStat) :=
  match fuel with
  | O => None
  | S fuel =>
      match ss_stack self with
      | [] => Some (true, self)
      | item :: stack =>
          match iter_next item with
          | (Some cell, item) =>
              let self := with_stack self (item :: stack) in
              if is_visited self cell then reduce_stack fuel self
              else if limit self <=? cell_count (stats self) then
                Some (false, mkStat ({[repr_hash cell]} ∪ visited self) (ss_stack self) (stats self) (limit self))
              else
                let self := visit self cell in
                let next := refs_iter cell in
                if 0 <? it_max next then reduce_stack fuel (with_stack self (next :: item :: stack))
                else reduce_stack fuel self
          | (None, _) => reduce_stack fuel (with_stack self stack)
          end
      end
  end.

(** A unit for each child of the expansion of the tree, and for the end of its frames *)
Definition refs_fuel (children : list Cell) : nat := S (S (foldr (fun c n => S (steps (S (height c)) c + n)) O children)).

Definition add_cell self (cell : Cell) : option (bool * StorageStat) :=
  if is_visited self cell then Some (true, self)
  else reduce_stack (refs_fuel (references cell)) (with_stack (visit self cell) [refs_iter cell]).
Definition slice_references (slice : CellSlice) : RefsIter.RefsIter := RefsIter.mkIter (cell slice) (refs_end (range slice)) (refs_start (range slice)).
Definition add_slice self (slice : CellSlice) : option (bool * StorageStat) :=
  let self := mkStat (visited self) (ss_stack self)
    (mkStats (u64 (bit_count (stats self) + size_bits slice)) (cell_count (stats self))) (limit self) in
  reduce_stack (refs_fuel (references (cell slice))) (with_stack self [slice_references slice]).

Definition stats_of (r : option (bool * StorageStat)) : option (option CellTreeStats) :=
  (fun p => if p.1 : bool then Some (stats p.2) else None) <$> r.
Definition compute_for_cell (cell : Cell) (limit : Z) : option (option CellTreeStats) := stats_of (add_cell (with_limit limit) cell).
Definition compute_for_slice (slice : CellSlice) (limit : Z) : option (option CellTreeStats) := stats_of (add_slice (with_limit limit) slice).
End StorageStat.

(** ** [Lazy] *)

Record Lazy (exotic : bool) (T : Type) := mkLazy { lazy_inner : Cell }.
Arguments mkLazy exotic T lazy_inner : clear implicits.
Arguments lazy_inner {exotic T} _.

Module Lazy.
Section Impl.
Context {exotic : bool} {T : Type}.

Definition from_raw (cell : Cell) : result (Lazy exotic T) :=
  if negb (Bool.eqb (is_exotic cell) exotic) then Err (if exotic then UnexpectedOrdinaryCell else UnexpectedExoticCell)
  else Ok (mkLazy exotic T cell).
Definition from_raw_unchecked (cell : Cell) : Lazy exotic T := mkLazy exotic T cell.
Definition into_inner (self : Lazy exotic T) : Cell := lazy_inner self.
Definition inner (self : Lazy exotic T) : Cell := lazy_inner self.
Definition cast_into {Q} (self : Lazy exotic T) : Lazy exotic Q := mkLazy exotic Q (lazy_inner self).

Definition new `{Store T} (empty : CellContext) (data : T) : result (Lazy exotic T) :=
  let! cell := build_from_ext data empty in from_raw cell.
Definition set `{Store T} (empty : CellContext) (self : Lazy exotic T) (data : T) : result unit * Lazy exotic T :=
  match new empty data with
  | Ok self => (Ok tt, self)
  | Err e => (Err e, self)
  end.
End Impl.

Definition load {T} `{Load T} (self : Lazy false T) : result T := parse (lazy_inner self).
(** [load_from_cell] is [LoadCell::load_from_cell] of the type. *)
Definition load_exotic {T} (load_from_cell : Cell -> result T) (self : Lazy true T) : result T :=
  if is_exotic (lazy_inner self) then load_from_cell (lazy_inner self) else Err UnexpectedOrdinaryCell.
End Lazy.

#[global] Instance ExactSize_Lazy exotic T : ExactSize (Lazy exotic T) := fun _ => mkSize 0 1.
#[global] Instance Store_Lazy exotic T : Store (Lazy exotic T) := fun self _ b => store_reference b (lazy_inner self).
#[global] Instance Load_Lazy exotic T : Load (Lazy exotic T) := fun s =>
  let! (cell, s) := load_reference_cloned s in
  let! self := Lazy.from_raw cell in Ok (self, s).

(** ** [StateInit] *)

Record SpecialFlags := mkSpecial { tick : bool; tock : bool }.
Definition SPECIAL_BITS : Z := 2.

#[global] Instance Store_SpecialFlags : Store SpecialFlags := fun self _ b =>
  on_data (fun d => store_small_uint d (Z.lor (Z.shiftl (b2z (tick self)) 1) (b2z (tock self))) 2) b.
#[global] Instance Load_SpecialFlags : Load SpecialFlags := fun s =>
  let! (data, s) := load_small_uint s 2 in
  Ok (mkSpecial (negb (Z.land data 0x2 =? 0)) (negb (Z.land data 0x1 =? 0)), s).

Record SimpleLib := mkLib { lib_public : bool; lib_root : Cell }.
#[global] Instance Store_SimpleLib : Store SimpleLib := fun self ctx b =>
  let! b := store_into (lib_public self) ctx b in store_into (lib_root self) ctx b.
#[global] Instance Load_SimpleLib : Load SimpleLib := fun s =>
  let! (public, s) := load_from s in
  let! (root, s) := load_from s in Ok (mkLib public root, s).

Record StateInit := mkStateInit {
  split_depth : option SplitDepth;
  special : option SpecialFlags;
  code : option Cell;
  si_data : option Cell;
  libraries : DictTyped.Dict Hash256 SimpleLib;
}.

Module StateInit.
Implicit Type self : StateInit.
Definition bit_len self : Z :=
  (1 + b2z (is_some (split_depth self)) * SplitDepth.BITS) + (1 + b2z (is_some (special self)) * SPECIAL_BITS) + 3.
Definition reference_count self : Z :=
  b2z (is_some (code self)) + b2z (is_some (si_data self)) + b2z (negb (Dict.is_empty (libraries self))).
Definition exact_size_const self : Size := mkSize (bit_len self) (reference_count self).
Definition default : StateInit := mkStateInit None None None None Dict.new.
End StateInit.

#[global] Instance ExactSize_StateInit : ExactSize StateInit := StateInit.exact_size_const.
#[global] Instance Store_StateInit : Store StateInit := fun self ctx b =>
  let! b := store_into (split_depth self) ctx b in
  let! b := store_into (special self) ctx b in
  let! b := store_into (code self) ctx b in
  let! b := store_into (si_data self) ctx b in
  store_into (libraries self) ctx b.
#[global] Instance Load_StateInit : Load StateInit := fun s =>
  let! (split_depth, s) := load_from s in
  let! (special, s) := load_from s in
  let! (code, s) := load_from s in
  let! (data, s) := load_from s in
  let! (libraries, s) := load_from s in
  Ok (mkStateInit split_depth special code data libraries, s).

(** ** Accounts *)

Record StorageUsed := mkUsed { used_cells : VarUint56; used_bits : VarUint56 }.
#[global] Instance Store_StorageUsed : Store StorageUsed := fun self ctx b =>
  let! b := store_into (used_cells self) ctx b in store_into (used_bits self) ctx b.
#[global] Instance Load_StorageUsed : Load StorageUsed := fun s =>
  let! (cells, s) := load_from s in
  let! (bits, s) := load_from s in Ok (mkUsed cells bits, s).

(** [StorageUsedShort] has the same fields. *)
Record StorageUsedShort := mkUsedShort { short_cells : VarUint56; short_bits : VarUint56 }.
#[global] Instance Store_StorageUsedShort : Store StorageUsedShort := fun self ctx b =>
  let! b := store_into (short_cells self) ctx b in store_into (short_bits self) ctx b.
#[global] Instance Load_StorageUsedShort : Load StorageUsedShort := fun s =>
  let! (cells, s) := load_from s in
  let! (bits, s) := load_from s in Ok (mkUsedShort cells bits, s).

Inductive StorageExtra : Type := ExtraNone | ExtraDictHash (dict_hash : HashBytes).
#[global] Instance Store_StorageExtra : Store StorageExtra := fun self _ b =>
  match self with
  | ExtraNone => on_data (fun d => store_zeros d 3) b
  | ExtraDictHash dict_hash =>
      let! b := on_data (fun d => store_small_uint d 1 3) b in
      on_data (fun d => store_u256 d dict_hash) b
  end.
#[global] Instance Load_StorageExtra : Load StorageExtra := fun s =>
  let! (tag, s) := load_small_uint s 3 in
  if tag =? 0 then Ok (ExtraNone, s)
  else if tag =? 1 then let! (dict_hash, s) := load_u256 s in Ok (ExtraDictHash dict_hash, s)
  else Err InvalidTag.

Record StorageInfo := mkStorageInfo {
  used : StorageUsed;
  storage_extra : StorageExtra;
  last_paid : Z;
  due_payment : option Tokens;
}.
#[global] Instance Store_StorageInfo : Store StorageInfo := fun self ctx b =>
  let! b := store_into (used self) ctx b in
  let! b := store_into (storage_extra self) ctx b in
  let! b := store_into (mkU 32 (last_paid self)) ctx b in
  store_into (due_payment self) ctx b.
#[global] Instance Load_StorageInfo : Load StorageInfo := fun s =>
  let! (used, s) := load_from s in
  let! (storage_extra, s) := load_from s in
  let! (last_paid, s) := load_from s in
  let! (due_payment, s) := load_from s in
  Ok (mkStorageInfo used storage_extra (uval (w := 32) last_paid) due_payment, s).

Inductive AccountStatus : Type := StatusUninit | StatusFrozen | StatusActive | StatusNotExists.
Definition status_to_u8 (s : AccountStatus) : Z :=
  match s with StatusUninit => 0 | StatusFrozen => 1 | StatusActive => 2 | StatusNotExists => 3 end.
#[global] Instance Store_AccountStatus : Store AccountStatus := fun self _ b =>
  on_data (fun d => store_small_uint d (status_to_u8 self) 2) b.
(** Two bits have no other value. *)
#[global] Instance Load_AccountStatus : Load AccountStatus := fun s =>
  let! (ty, s) := load_small_uint s 2 in
  Ok (if ty =? 0 then StatusUninit else if ty =? 1 then StatusFrozen else if ty =? 2 then StatusActive else StatusNotExists, s).

Inductive AccountState : Type := StateUninit | StateActive (state : StateInit) | StateFrozen (hash : HashBytes).
Definition account_status (self : AccountState) : AccountStatus :=
  match self with StateUninit => StatusUninit | StateActive _ => StatusActive | StateFrozen _ => StatusFrozen end.
#[global] Instance Store_AccountState : Store AccountState := fun self ctx b =>
  match self with
  | StateUninit => on_data (fun d => store_small_uint d 0 2) b
  | StateActive state => let! b := on_data store_bit_one b in store_into state ctx b
  | StateFrozen hash => let! b := on_data (fun d => store_small_uint d 1 2) b in on_data (fun d => store_u256 d hash) b
  end.
#[global] Instance Load_AccountState : Load AccountState := fun s =>
  let! (active, s) := load_bit s in
  if active : bool then let! (state, s) := load_from s in Ok (StateActive state, s)
  else
    let! (frozen, s) := load_bit s in
    if frozen : bool then let! (hash, s) := load_u256 s in Ok (StateFrozen hash, s) else Ok (StateUninit, s).

Record Account := mkAccount {
  acc_address : IntAddr;
  storage_stat : StorageInfo;
  last_trans_lt : Z;
  acc_balance : CurrencyCollection;
  acc_state : AccountState;
}.
#[global] Instance Store_Account : Store Account := fun self ctx b =>
  let! b := store_into (acc_address self) ctx b in
  let! b := store_into (storage_stat self) ctx b in
  let! b := store_into (mkU 64 (last_trans_lt self)) ctx b in
  let! b := store_into (acc_balance self) ctx b in
  store_into (acc_state self) ctx b.
#[global] Instance Load_Account : Load Account := fun s =>
  let! (address, s) := load_from s in
  let! (storage_stat, s) := load_from s in
  let! (last_trans_lt, s) := load_from s in
  let! (balance, s) := load_from s in
  let! (state, s) := load_from s in
  Ok (mkAccount address storage_stat (uval (w := 64) last_trans_lt) balance state, s).

(** [StorageUsed::compute] *)
Definition storage_used_compute (empty : CellContext) (account : Account) (cell_limit : Z) : option (result StorageUsed) :=
  let cell :=
    let! storage := on_data (fun d => store_u64 d (last_trans_lt account)) builder_new in
    let! storage := store_into (acc_balance account) empty storage in
    let! storage := store_into (acc_state account) empty storage in
    build_ext empty storage in
  match cell with
  | Err e => Some (Err e)
  | Ok cell =>
      match StorageStat.compute_for_cell cell cell_limit with
      | None => None
      | Some None => Some (Err Cancelled)
      | Some (Some res) =>
          let res := mkUsed (Bounded.new (cell_count res)) (Bounded.new (bit_count res)) in
          if Bounded.is_valid (used_cells res) || negb (Bounded.is_valid (used_bits res)) then Some (Err IntOverflow)
          else Some (Ok res)
      end
  end.

Record OptionalAccount := mkOptAccount { opt_account : option Account }.
Module OptionalAccount.
Implicit Type self : OptionalAccount.
Definition EMPTY : OptionalAccount := mkOptAccount None.
Definition status self : AccountStatus :=
  match opt_account self with None => StatusNotExists | Some account => account_status (acc_state account) end.
Definition last_trans_lt self : Z := match opt_account self with None => 0 | Some account => Account.last_trans_lt account end.
Definition balance self : CurrencyCollection :=
  match opt_account self with None => Currency.ZERO | Some account => acc_balance account end.
Definition state self : option AccountState := acc_state <$> opt_account self.
Definition of_account (value : Account) : OptionalAccount := mkOptAccount (Some value).
End OptionalAccount.
#[global] Instance Store_OptionalAccount : Store OptionalAccount := fun self ctx b => store_into (opt_account self) ctx b.
#[global] Instance Load_OptionalAccount : Load OptionalAccount := fun s =>
  let! (account, s) := load_from s in Ok (mkOptAccount account, s).

Record ShardAccount := mkShardAccount {
  sa_account : Lazy false OptionalAccount;
  sa_last_trans_hash : HashBytes;
  sa_last_trans_lt : Z;
}.
#[global] Instance Store_ShardAccount : Store ShardAccount := fun self ctx b =>
  let! b := store_into (sa_account self) ctx b in
  let! b := store_into (mkHash (sa_last_trans_hash self)) ctx b in
  store_into (mkU 64 (sa_last_trans_lt self)) ctx b.
#[global] Instance Load_ShardAccount : Load ShardAccount := fun s =>
  let! (account, s) := load_from s in
  let! (last_trans_hash, s) := load_from s in
  let! (last_trans_lt, s) := load_from s in
  Ok (mkShardAccount account (hash_bytes last_trans_hash) (uval (w := 64) last_trans_lt), s).
Definition load_account (self : ShardAccount) : result (option Account) :=
  let! account := Lazy.load (sa_account self) in Ok (opt_account account).
