(* ===== verification/AccountTheorems.v ===== *)
(** * AccountTheorems: what storage statistics and accounts promise

    The loop of [StorageStat] counts each cell of the trees it is given once; the parts of
    an account are stored as the bits of their TL-B schemes and read back. *)

From stdpp Require Import gmap.
From S2P Require Import Prelude Bits DataBuilder DataBuilderSpec CellMeta Cell RefsIter Slice SliceSpec Builder BuilderSpec Context DictSpec DictTyped DictTypedSpec Num NumSpec Currency CurrencyTheorems DictTheorems Shard ShardTheorems Address AddressTheorems BocSer BocFill Account.

(** ** The cells that are left of an iterator *)

Definition rest (it : RefsIter) : list Cell := refs_window (it_cell it) (it_index it) (it_max it).
Definition iter_ok (it : RefsIter) : Prop :=
  0 <= it_index it <= it_max it /\ it_max it <= 7 /\ forall j, it_index it <= j < it_max it -> is_Some (reference (it_cell it) j).

Lemma next_rest it : iter_ok it ->
  match rest it with
  | [] => iter_next it = (None, it)
  | x :: l => exists it', iter_next it = (Some x, it') /\ rest it' = l /\ iter_ok it'
  end.
Proof.
  intros (Hi & H7 & Hs). unfold rest, refs_window, iter_next, next_with. destruct (Z.leb_spec (it_max it) (it_index it)).
  { by replace (it_max it - it_index it) with 0 by lia. }
  replace (Z.to_nat (it_max it - it_index it)) with (S (Z.to_nat (it_max it - (it_index it + 1)))) by lia.
  destruct (Hs (it_index it)) as [x E]; [lia|]. cbn [iter_refs]. rewrite E. eexists. split; [done|]. rewrite u8_small by lia.
  split; [done|]. split; cbn [it_index it_max it_cell]; [lia|]. split; [done|]. intros j Hj. apply Hs. lia.
Qed.

Lemma cell_iter_ok c : cell_wf c -> iter_ok (refs_iter c) /\ rest (refs_iter c) = references c /\ it_max (refs_iter c) = zlen (references c).
Proof.
  intros []. split; [split; [simpl; lia | split; [simpl; lia | done]]|]. split; [done|]. unfold references, refs_window, zlen.
  rewrite length_iter_refs by (intros; apply cw_refs; lia). simpl. lia.
Qed.

Lemma slice_iter_ok s : slice_wf s -> iter_ok (StorageStat.slice_references s) /\ rest (StorageStat.slice_references s) = slice_references s.
Proof.
  intros [[] ? ? ? ?]. split; [|done]. split; [simpl; lia|]. split; [simpl; lia|]. intros j Hj. apply cw_refs. simpl in Hj. lia.
Qed.

Lemma all_steps_sub k l : k ⊆+ l -> (all_steps k <= all_steps l)%nat.
Proof. induction 1; cbn [all_steps foldr] in *; unfold all_steps in *; lia. Qed.

Lemma window_steps c i : cell_wf c -> 0 <= i <= reference_count c -> forall n, i <= n <= reference_count c ->
  (all_steps (refs_window c i n) <= all_steps (references c))%nat.
Proof.
  intros [] Hi n Hn. apply all_steps_sub. etrans; [|apply (sublist_submseteq (drop (Z.to_nat i) (references c))), sublist_drop].
  etrans; [|apply (sublist_submseteq (take (Z.to_nat (n - i)) (drop (Z.to_nat i) (references c)))), sublist_take].
  enough (refs_window c i n = take (Z.to_nat (n - i)) (drop (Z.to_nat i) (references c))) as -> by done.
  unfold references, refs_window. apply list_eq. intros j. destruct (Nat.ltb_spec j (Z.to_nat (n - i))).
  - rewrite lookup_take_lt, lookup_drop, !iter_refs_lookup by (lia || (intros; apply cw_refs; lia)). f_equal. lia.
  - rewrite lookup_ge_None_2 by (rewrite length_iter_refs by (intros; apply cw_refs; lia); lia). by rewrite lookup_take_ge by lia.
Qed.

(** ** The loop *)

Section Stat.
(** The cells of some trees, each once, told apart by their hashes *)
Context (ds : list Cell) (Hnd : NoDup ds).
Context (Hwf : forall x, x ∈ ds -> cell_wf x) (Hkids : forall x y, x ∈ ds -> y ∈ references x -> y ∈ ds).
Context (Hhash : forall x y, x ∈ ds -> y ∈ ds -> repr_hash x = repr_hash y -> x = y).
Implicit Types (V : gset (list Z)) (self : StorageStat).

(** A sum over the noted cells *)
Definition total (f : Cell -> Z) (l : list Cell) V : Z := foldr (fun x n => (if bool_decide (repr_hash x ∈ V) then f x else 0) + n) 0 l.

Lemma total_skip f l V h : (forall x, x ∈ l -> repr_hash x <> h) -> total f l ({[h]} ∪ V) = total f l V.
Proof.
  induction l as [|x l IH]; intros Hl; [done|]. cbn [total foldr]. fold (total f l V) (total f l ({[h]} ∪ V)). rewrite IH by (intros; apply Hl; by right).
  f_equal. pose proof (Hl x ltac:(by left)). rewrite (bool_decide_ext (repr_hash x ∈ {[h]} ∪ V) (repr_hash x ∈ V)) by set_solver. done.
Qed.

Lemma total_insert f l V c : NoDup l -> (forall x, x ∈ l -> x ∈ ds) -> c ∈ l -> repr_hash c ∉ V -> total f l ({[repr_hash c]} ∪ V) = total f l V + f c.
Proof.
  induction l as [|x l IH]; intros Hn Hin Hc HV; [by apply not_elem_of_nil in Hc|]. apply list.NoDup_cons in Hn as [Hx Hn].
  cbn [total foldr]. fold (total f l V) (total f l ({[repr_hash c]} ∪ V)).
  destruct (decide (c = x)) as [->|Hcx].
  - rewrite bool_decide_true by set_solver. rewrite bool_decide_false by done. rewrite total_skip; [lia|].
    intros y Hy E. apply Hhash in E; [by subst y | apply Hin; by right | apply Hin; by left].
  - apply elem_of_cons in Hc as [|Hc]; [done|]. rewrite IH by (done || (intros; apply Hin; by right)).
    assert (repr_hash x <> repr_hash c) by (intros E; apply Hcx; symmetry; apply Hhash; [apply Hin; by left | apply Hin; by right | done]).
    rewrite (bool_decide_ext (repr_hash x ∈ {[repr_hash c]} ∪ V) (repr_hash x ∈ V)) by set_solver. lia.
Qed.

Lemma total_bound f l V M : (forall x, x ∈ l -> 0 <= f x <= M) -> 0 <= total f l V <= M * zlen l.
Proof.
  induction l as [|x l IH]; intros Hf; [change (zlen []) with 0; simpl; lia|]. cbn [total foldr]. fold (total f l V). rewrite zlen_cons.
  specialize (IH ltac:(intros; apply Hf; by right)). pose proof (Hf x ltac:(by left)). case_bool_decide; lia.
Qed.

Lemma total_all f l V : (forall x, x ∈ l -> repr_hash x ∈ V) -> total f l V = foldr (fun x n => f x + n) 0 l.
Proof.
  induction l as [|x l IH]; intros Hf; [done|]. cbn [total foldr]. fold (total f l V).
  by rewrite IH, bool_decide_true by (intros; apply Hf; (by left) || by right).
Qed.

(** The counters agree with the noted hashes, and what is below a noted cell is noted or waits. *)
Context (base : Z) (Hbase : 0 <= base) (Hsmall : base + 1023 * zlen ds < 2 ^ 64).
Record noted V (st : CellTreeStats) (waiting : list Cell) : Prop := {
  nt_cells : forall h, h ∈ V -> exists x, x ∈ ds /\ repr_hash x = h;
  nt_below : forall x y, x ∈ ds -> repr_hash x ∈ V -> y ∈ references x -> repr_hash y ∈ V \/ y ∈ waiting;
  nt_count : cell_count st = total (fun _ => 1) ds V;
  nt_bits : bit_count st = base + total bit_len ds V;
}.

Lemma noted_fewer V st waiting waiting' : noted V st waiting ->
  (forall x, x ∈ waiting -> repr_hash x ∈ V \/ x ∈ waiting') -> noted V st waiting'.
Proof. intros [] Hw. split; [done| |done..]. intros x y Hx HV Hy. destruct (nt_below0 x y Hx HV Hy) as [|?%Hw]; [by left | done]. Qed.

Lemma noted_range V st waiting : noted V st waiting -> 0 <= cell_count st <= zlen ds /\ base <= bit_count st <= base + 1023 * zlen ds.
Proof.
  intros []. rewrite nt_count0, nt_bits0. pose proof (total_bound (fun _ => 1) ds V 1 ltac:(intros; lia)).
  pose proof (total_bound bit_len ds V 1023 (fun x Hx => cw_len x (Hwf x Hx))). lia.
Qed.

Lemma noted_visit self waiting c : noted (visited self) (stats self) waiting -> c ∈ ds -> repr_hash c ∉ visited self ->
  let self' := StorageStat.visit self c in
  noted (visited self') (stats self') (references c ++ waiting) /\ cell_count (stats self') = cell_count (stats self) + 1.
Proof.
  intros N Hc HV. cbv zeta. pose proof (noted_range _ _ _ N) as [Hn Hb]. destruct N. cbn [StorageStat.visit visited stats cell_count bit_count].
  pose proof (total_insert (fun _ => 1) ds (visited self) c Hnd (fun x H => H) Hc HV) as E1. pose proof (total_insert bit_len ds (visited self) c Hnd (fun x H => H) Hc HV) as E2.
  pose proof (total_bound (fun _ => 1) ds ({[repr_hash c]} ∪ visited self) 1 ltac:(intros; lia)).
  pose proof (total_bound bit_len ds ({[repr_hash c]} ∪ visited self) 1023 (fun x Hx => cw_len x (Hwf x Hx))).
  pose proof (cw_len c (Hwf c Hc)). pose proof (zlen_nonneg ds). cbv beta in E1. unfold u64. rewrite !wrap_small by lia. split; [|done]. split; cbn [cell_count bit_count]; [| |lia|lia].
  - intros h [->%elem_of_singleton|Hh]%elem_of_union; [by exists c | by apply nt_cells0].
  - intros x y Hx [E%elem_of_singleton|Hx2]%elem_of_union Hy.
    + apply Hhash in E; [subst x | done..]. right. apply elem_of_app. by left.
    + destruct (nt_below0 x y Hx Hx2 Hy); [left; set_solver | right; apply elem_of_app; by right].
Qed.

Definition cost (stack : list RefsIter) : nat := foldr (fun it n => S (all_steps (rest it) + n)) O stack.
Definition waiting (stack : list RefsIter) : list Cell := concat (rest <$> stack).

(** Each step is paid for, and at the end nothing waits. *)
Lemma reduce_counts fuel self : (cost (ss_stack self) < fuel)%nat -> Forall iter_ok (ss_stack self) ->
  (forall x, x ∈ waiting (ss_stack self) -> x ∈ ds) -> noted (visited self) (stats self) (waiting (ss_stack self)) ->
  exists b self', StorageStat.reduce_stack fuel self = Some (b, self') /\ limit self' = limit self /\ visited self ⊆ visited self' /\
    if b : bool then noted (visited self') (stats self') [] /\ cell_count (stats self') <= Z.max (limit self) (cell_count (stats self)) /\
      forall x, x ∈ waiting (ss_stack self) -> repr_hash x ∈ visited self'
    else Z.max (limit self) (cell_count (stats self)) < zlen ds.
Proof.
  revert self. induction fuel as [|fuel IH]; intros self Hc Hok Hin N; [lia|]. cbn [StorageStat.reduce_stack].
  destruct (ss_stack self) as [|it stack] eqn:Es; [exists true, self; split_and!; try (done || lia); by intros x ?%not_elem_of_nil|].
  apply list.Forall_cons in Hok as [Hi Hok]. pose proof (next_rest it Hi) as Hx. cbn [cost foldr] in Hc. fold (cost stack) in Hc.
  unfold waiting in Hin, N. cbn [fmap list_fmap concat] in Hin, N. fold (waiting stack) in Hin, N. destruct (rest it) as [|x l] eqn:Er.
  { rewrite Hx. assert (waiting (it :: stack) = waiting stack) as -> by (unfold waiting; cbn [fmap list_fmap concat]; by rewrite Er). apply (IH (StorageStat.with_stack self stack)); cbn [StorageStat.with_stack ss_stack visited stats]; [lia | done..]. }
  destruct Hx as (it' & -> & El & Hi'). cbn [all_steps foldr] in Hc. fold (all_steps l) in Hc.
  assert (x ∈ ds) as Hxd by (apply Hin; by left). unfold StorageStat.is_visited. cbn [StorageStat.with_stack visited stats limit ss_stack].
  case_bool_decide as HV.
  { destruct (IH (StorageStat.with_stack self (it' :: stack))) as (b & self' & E & El' & Hv' & Hb); cbn [StorageStat.with_stack ss_stack visited stats limit] in *.
    - cbn [cost foldr]. rewrite El. fold (cost stack). lia.
    - by constructor.
    - unfold waiting. cbn [fmap list_fmap concat]. rewrite El. intros y Hy. apply Hin. by right.
    - eapply noted_fewer; [exact N|]. unfold waiting. cbn [fmap list_fmap concat]. rewrite El. intros y [->|Hy]%elem_of_cons; [by left | by right].
    - exists b, self'. split_and!; [done..|]. destruct b; [|done]. destruct Hb as (? & ? & Hw). split_and!; [done..|].
      intros y Hy. unfold waiting in Hy. cbn [fmap list_fmap concat] in Hy. rewrite Er in Hy. apply elem_of_cons in Hy as [->|Hy]; [by apply Hv'|].
      apply Hw. unfold waiting. cbn [fmap list_fmap concat]. by rewrite El. }
  destruct (noted_visit self _ x N Hxd HV) as [N' E']. pose proof (noted_range _ _ _ N') as [Hr _]. destruct (Z.leb_spec (limit self) (cell_count (stats self))).
  { eexists false, _. split; [done|]. cbn [limit visited]. split; [done|]. split; [set_solver | lia]. }
  set (vis := StorageStat.visit (StorageStat.with_stack self (it' :: stack)) x).
  destruct (cell_iter_ok x (Hwf x Hxd)) as (Hxi & Hxr & Hxm). rewrite (steps_eq (S (height x))) in Hc by lia.
  assert (forall st, (cost st < fuel)%nat -> Forall iter_ok st -> (forall y, y ∈ waiting st <-> y ∈ references x ++ waiting (it' :: stack)) ->
    exists b self', StorageStat.reduce_stack fuel (StorageStat.with_stack vis st) = Some (b, self') /\ limit self' = limit self /\ visited self ⊆ visited self' /\
      if b : bool then noted (visited self') (stats self') [] /\ cell_count (stats self') <= Z.max (limit self) (cell_count (stats self)) /\
        forall y, y ∈ waiting (it :: stack) -> repr_hash y ∈ visited self'
      else Z.max (limit self) (cell_count (stats self)) < zlen ds) as Hgo.
  { intros st Hst Hsk Heq. destruct (IH (StorageStat.with_stack vis st)) as (b & self' & -> & El' & Hv' & Hb); cbn [StorageStat.with_stack ss_stack].
    - done.
    - done.
    - intros y [Hy|Hy]%Heq%elem_of_app; [by eapply Hkids|]. unfold waiting in Hy. cbn [fmap list_fmap concat] in Hy. rewrite El in Hy. apply Hin. by right.
    - eapply noted_fewer; [exact N'|]. intros y [Hy|[->|Hy]%elem_of_cons]%elem_of_app; [right; apply Heq, elem_of_app; by left | left; set_solver|].
      right. apply Heq, elem_of_app. right. unfold waiting. cbn [fmap list_fmap concat]. by rewrite El.
    - exists b, self'. split; [done|]. split; [exact El'|]. split; [set_solver|].
      change (cell_count (stats (StorageStat.with_stack vis st))) with (cell_count (stats (StorageStat.visit self x))) in Hb.
      change (limit (StorageStat.with_stack vis st)) with (limit self) in Hb. destruct b; [|lia]. destruct Hb as (? & Hb & Hw). split; [done|]. split; [lia|].
      intros y Hy. unfold waiting in Hy. cbn [fmap list_fmap concat] in Hy. rewrite Er in Hy. apply elem_of_cons in Hy as [->|Hy]; [apply Hv'; set_solver|].
      apply Hw, Heq, elem_of_app. right. unfold waiting. cbn [fmap list_fmap concat]. by rewrite El. }
  destruct (Z.ltb_spec 0 (it_max (refs_iter x))).
  - apply Hgo.
    + cbn [cost foldr]. rewrite Hxr, El. fold (cost stack). lia.
    + by constructor; [|constructor].
    + intros y. unfold waiting. cbn [fmap list_fmap concat]. by rewrite Hxr.
  - assert (references x = []) as E0 by (apply nil_length_inv; unfold zlen in *; lia). rewrite E0 in *.
    apply (Hgo (it' :: stack)); [|by constructor | done]. cbn [cost foldr]. rewrite El. fold (cost stack). lia.
Qed.

Lemma noted_new lim : noted (visited (StorageStat.with_limit lim)) (mkStats base 0) [].
Proof using Type.
  clear -ds base.
  cbn [StorageStat.with_limit visited]. assert (forall f l, total f l ∅ = 0) as E0.
  { intros f l. induction l as [|x l IH]; [done|]. cbn [total foldr]. fold (total f l ∅). by rewrite IH, bool_decide_false by set_solver. }
  split; cbn [cell_count bit_count]; [set_solver..| by rewrite E0 | by rewrite E0, Z.add_0_r].
Qed.

Definition child (x y : Cell) : Prop := y ∈ references x.

Lemma noted_below V st c x : noted V st [] -> c ∈ ds -> repr_hash c ∈ V -> rtc child c x -> repr_hash x ∈ V.
Proof.
  intros N Hc HV Hx. induction Hx as [|c y x Hy Hx IH]; [done|]. apply IH; [by eapply Hkids|].
  by destruct (nt_below _ _ _ N c y Hc HV Hy) as [|?%not_elem_of_nil].
Qed.

(** With all roots noted, so is all below them. *)
Lemma noted_total V st (roots : list Cell) : noted V st [] -> (forall x, x ∈ ds <-> exists c, c ∈ roots /\ rtc child c x) -> (forall c, c ∈ roots -> repr_hash c ∈ V) ->
  st = mkStats (base + foldr (fun x n => bit_len x + n) 0 ds) (zlen ds).
Proof.
  intros N Hds Hroots. assert (forall x, x ∈ ds -> repr_hash x ∈ V) as Hall.
  { intros x (c & Hc & Hx)%Hds. apply (noted_below V st c x N); [apply Hds; by exists c | by apply Hroots | done]. }
  destruct N. destruct st as [n m]. cbn [cell_count bit_count] in *. rewrite nt_count0, nt_bits0, !total_all by done. f_equal.
  clear. induction ds as [|x l IH]; [done|]. rewrite zlen_cons. cbn [foldr]. lia.
Qed.

Lemma add_counts self c : noted (visited self) (stats self) [] -> c ∈ ds ->
  exists b self', StorageStat.add_cell self c = Some (b, self') /\ limit self' = limit self /\ visited self ⊆ visited self' /\
    if b : bool then repr_hash c ∈ visited self' /\ noted (visited self') (stats self') [] /\
      cell_count (stats self') <= Z.max (limit self) (cell_count (stats self) + 1)
    else Z.max (limit self) (cell_count (stats self) + 1) < zlen ds.
Proof.
  intros N Hc. unfold StorageStat.add_cell, StorageStat.is_visited. case_bool_decide as HV.
  { exists true, self. split_and!; (done || lia). }
  destruct (noted_visit self [] c N Hc HV) as [N' E']. destruct (cell_iter_ok c (Hwf c Hc)) as (Hi & Er & _).
  destruct (reduce_counts (StorageStat.refs_fuel (references c)) (StorageStat.with_stack (StorageStat.visit self c) [refs_iter c])) as (b & self' & -> & El & Hv & Hb).
  - cbn [StorageStat.with_stack ss_stack cost foldr]. rewrite Er. unfold StorageStat.refs_fuel, all_steps. lia.
  - by apply list.Forall_singleton.
  - cbn [StorageStat.with_stack ss_stack]. unfold waiting. cbn [fmap list_fmap concat]. rewrite Er, app_nil_r. intros x Hx. by eapply Hkids.
  - cbn [StorageStat.with_stack ss_stack visited stats]. unfold waiting. cbn [fmap list_fmap concat]. by rewrite Er.
  - exists b, self'. split; [done|]. split; [exact El|].
    cbn [StorageStat.with_stack StorageStat.visit visited limit stats] in Hv, Hb, El. split; [set_solver|].
    cbn [StorageStat.visit stats] in E'. destruct b; [|lia]. destruct Hb as (Hb1 & Hb2 & _). split; [set_solver|]. split; [done | lia].
Qed.
End Stat.

(** Trees counted one after another *)
Fixpoint add_cells (self : StorageStat) (roots : list Cell) : option (bool * StorageStat) :=
  match roots with
  | [] => Some (true, self)
  | c :: roots =>
      match StorageStat.add_cell self c with
      | Some (true, self) => add_cells self roots
      | r => r
      end
  end.

(** The cells of trees: each once, well formed and told apart by their hashes *)
Record cells_of (ds roots : list Cell) : Prop := {
  ce_once : NoDup ds;
  ce_below : forall x, x ∈ ds <-> exists c, c ∈ roots /\ rtc child c x;
  ce_wf : forall x, x ∈ ds -> cell_wf x;
  ce_hash : forall x y, x ∈ ds -> y ∈ ds -> repr_hash x = repr_hash y -> x = y;
}.

Lemma cells_kids ds roots x y : cells_of ds roots -> x ∈ ds -> y ∈ references x -> y ∈ ds.
Proof. intros H (c & Hc & Hx)%(ce_below _ _ H) Hy. apply (ce_below _ _ H). exists c. split; [done|]. by eapply rtc_r. Qed.

Definition total_bits (ds : list Cell) : Z := foldr (fun x n => bit_len x + n) 0 ds.

(** [C29] The statistics of trees count each distinct cell once, cells being told apart by
    their hashes: adding one tree after another to an empty statistics with enough room
    ends and gives the number of the cells of all trees and the sum of their bits.  For one
    tree the limit is observed exactly, except that the root is not checked; for the children
    of a slice the bits of the slice are added and no cell is counted for it. *)
Theorem storage_stat_counts (ds roots : list Cell) (limit : Z) :
  cells_of ds roots -> 1024 * (zlen ds + 1) < 2 ^ 64 -> 0 <= limit ->
  (zlen ds <= limit -> exists self, add_cells (StorageStat.with_limit limit) roots = Some (true, self) /\ stats self = mkStats (total_bits ds) (zlen ds)) /\
  (forall c, roots = [c] -> StorageStat.compute_for_cell c limit =
    Some (if zlen ds <=? Z.max limit 1 then Some (mkStats (total_bits ds) (zlen ds)) else None)) /\
  (forall s, roots = slice_references s -> slice_wf s -> StorageStat.compute_for_slice s limit =
    Some (if zlen ds <=? limit then Some (mkStats (size_bits s + total_bits ds) (zlen ds)) else None)).
Proof.
  intros Hds Hsmall Hlim. pose proof Hds as [Hnd Hbelow Hwf Hhash]. pose proof (fun x y => cells_kids ds roots x y Hds) as Hkids. split_and!.
  - intros Hfit. assert (forall cs self, (forall c, c ∈ cs -> c ∈ ds) -> noted ds 0 (visited self) (stats self) [] -> Account.limit self = limit ->
      exists self', add_cells self cs = Some (true, self') /\ noted ds 0 (visited self') (stats self') [] /\ visited self ⊆ visited self' /\
        forall c, c ∈ cs -> repr_hash c ∈ visited self') as Hadd.
    { induction cs as [|c cs IH]; intros self Hcs N El; cbn [add_cells].
      { exists self. split_and!; [done..|]. by intros c ?%not_elem_of_nil. }
      destruct (add_counts ds Hnd Hwf Hkids Hhash 0 ltac:(lia) ltac:(lia) self c N (Hcs c ltac:(by left))) as ([] & self1 & -> & El1 & Hv1 & Hb); [|lia].
      destruct Hb as (Hc1 & N1 & _). destruct (IH self1) as (self' & -> & N' & Hv' & Hr); [intros; apply Hcs; by right | done | congruence|].
      exists self'. split_and!; [done..|set_solver|]. intros x [->|Hx]%elem_of_cons; [set_solver | by apply Hr]. }
    destruct (Hadd roots (StorageStat.with_limit limit)) as (self & E & N & _ & Hr); [intros c Hc; apply Hbelow; by exists c | apply (noted_new ds 0 limit) | done |].
    exists self. split; [exact E|]. exact (noted_total ds Hkids 0 _ _ roots N Hbelow Hr).
  - intros c ->. unfold StorageStat.compute_for_cell. assert (c ∈ ds) as Hc by (apply Hbelow; exists c; split; [by left | done]).
    destruct (add_counts ds Hnd Hwf Hkids Hhash 0 ltac:(lia) ltac:(lia) _ c (noted_new ds 0 limit) Hc) as (b & self & E & _ & Hv & Hb).
    change (mkStat ∅ [] TreeStats.ZERO limit) with (StorageStat.with_limit limit) in *. rewrite E. unfold StorageStat.stats_of. cbn [fmap option_fmap option_map fst snd].
    destruct b.
    + destruct Hb as (Hcv & N & Hle). rewrite (noted_total ds Hkids 0 _ _ [c] N Hbelow) in * by (by intros x ->%list_elem_of_singleton).
      cbn [cell_count StorageStat.with_limit Account.limit stats TreeStats.ZERO] in Hle. by rewrite (proj2 (Z.leb_le _ _)) by lia.
    + change (Z.max limit 1 < zlen ds) in Hb. by rewrite (proj2 (Z.leb_gt _ _)) by lia.
  - intros s -> Hs. unfold StorageStat.compute_for_slice, StorageStat.add_slice. destruct (slice_iter_ok s Hs) as [Hi Er].
    assert (0 <= size_bits s <= 1023) as Hsz by (rewrite size_bits_eq by done; wf_facts s Hs; lia).
    set (self := mkStat _ _ _ _).
    destruct (reduce_counts ds Hnd Hwf Hkids Hhash (size_bits s) ltac:(lia) ltac:(lia) (StorageStat.refs_fuel (references (cell s)))
      (StorageStat.with_stack self [StorageStat.slice_references s])) as (b & self' & E & _ & _ & Hb); cbn [StorageStat.with_stack ss_stack].
    + cbn [cost foldr]. unfold StorageStat.refs_fuel. fold (all_steps (references (cell s))). pose proof Hs as [Hc _ _ [Hr1 Hr2] Hr3].
      pose proof (window_steps (cell s) (refs_start (range s)) Hc ltac:(lia) (refs_end (range s)) ltac:(lia)). unfold rest. simpl. lia.
    + by apply list.Forall_singleton.
    + unfold waiting. cbn [fmap list_fmap concat]. rewrite Er, app_nil_r. intros x Hx. apply Hbelow. by exists x.
    + cbn [visited stats]. subst self. cbn [visited stats]. unfold waiting. cbn [fmap list_fmap concat]. rewrite Er, app_nil_r.
      pose proof (noted_new ds (size_bits s) limit) as N. cbn [StorageStat.with_limit visited stats TreeStats.ZERO bit_count cell_count] in *.
      unfold u64. rewrite Z.add_0_l, wrap_small by lia. eapply noted_fewer; [exact N|]. by intros x ?%not_elem_of_nil.
    + rewrite E. unfold StorageStat.stats_of. cbn [fmap option_fmap option_map fst snd]. subst self.
      destruct b.
      * destruct Hb as (N & Hle & Hw). cbn [StorageStat.with_stack ss_stack] in Hw. unfold waiting in Hw. cbn [fmap list_fmap concat] in Hw.
        rewrite Er, app_nil_r in Hw. rewrite (noted_total ds Hkids (size_bits s) _ _ _ N Hbelow Hw) in *. change (zlen ds <= Z.max limit 0) in Hle.
        by rewrite (proj2 (Z.leb_le _ _)) by lia.
      * change (Z.max limit 0 < zlen ds) in Hb. by rewrite (proj2 (Z.leb_gt _ _)) by lia.
Qed.

(** ** Codecs of accounts *)

(** The fields one after another are those of nested pairs. *)
Ltac via_pairs inst := intros ?; cbv [load_from inst Load_pair];
  repeat match goal with |- rbind ?e _ = _ => destruct e as [[? ?]|]; cbn [rbind fst snd]; [|done] end; try done.

#[export] Program Instance Codec_Lazy exotic T : Codec (Lazy exotic T) := {
  enc_ok v := is_exotic (lazy_inner v) = exotic; enc v := ([], [lazy_inner v]) }.
Next Obligation. intros exotic T ctx b v Hb _. by apply store_reference_spec. Qed.
Next Obligation.
  intros exotic T s [c] l rs Hs Hc Hb Hr. cbn [lazy_inner] in *. unfold load_from, Load_Lazy.
  destruct (load_enc (Codec := Codec_cell) s c l rs Hs I Hb Hr) as (s' & E & ?). unfold load_from, Load_cell in E. rewrite E. cbn [rbind]. exists s'.
  unfold Lazy.from_raw. rewrite Hc. by destruct exotic.
Qed.

Definition special_code (v : SpecialFlags) : Z := Z.lor (Z.shiftl (b2z (tick v)) 1) (b2z (tock v)).
#[export] Program Instance Codec_SpecialFlags : Codec SpecialFlags := {
  enc_ok _ := True; enc v := (uint_bits 2 (special_code v), []) }.
Next Obligation. intros ctx b [t u] Hb _. apply appends_small; [by destruct t, u | done..]. Qed.
Next Obligation.
  intros s [t u] l rs Hs _ Hb Hr.
  destruct (reads_small 2 (special_code (mkSpecial t u)) ltac:(lia) ltac:(by destruct t, u) s l rs Hs Hb Hr) as (s' & E & ?).
  unfold load_from, Load_SpecialFlags. rewrite E. exists s'. by destruct t, u.
Qed.

#[export] Instance Codec_SimpleLib : Codec SimpleLib.
Proof. refine (codec_via (fun v => (lib_public v, lib_root v)) (fun p => mkLib p.1 p.2) _ _ _); [by intros [] | done |]. via_pairs Load_SimpleLib. Defined.

#[export] Instance Codec_StateInit : Codec StateInit.
Proof.
  refine (codec_via (fun v => (split_depth v, (special v, (code v, (si_data v, libraries v)))))
    (fun p => mkStateInit p.1 p.2.1 p.2.2.1 p.2.2.2.1 p.2.2.2.2) _ _ _); [by intros [] | done |]. via_pairs Load_StateInit.
Defined.

#[export] Instance Codec_StorageUsed : Codec StorageUsed.
Proof. refine (codec_via (fun v => (used_cells v, used_bits v)) (fun p => mkUsed p.1 p.2) _ _ _); [by intros [] | done |]. via_pairs Load_StorageUsed. Defined.

#[export] Instance Codec_StorageUsedShort : Codec StorageUsedShort.
Proof.
  refine (codec_via (fun v => (short_cells v, short_bits v)) (fun p => mkUsedShort p.1 p.2) _ _ _); [by intros [] | done |]. via_pairs Load_StorageUsedShort.
Defined.

#[export] Program Instance Codec_StorageExtra : Codec StorageExtra := {
  enc_ok v := match v with ExtraNone => True | ExtraDictHash h => hash_ok h end;
  enc v := (match v with ExtraNone => uint_bits 3 0 | ExtraDictHash h => uint_bits 3 1 ++ bits_from h 0 256 end, []) }.
Next Obligation.
  intros ctx b [|h] Hb Hv.
  - apply (appends_bits (fun d => store_zeros d 3)); [|done]. intros d Hd. by rewrite store_zeros_spec by (done || lia).
  - exact (appends_bind _ _ _ _ (appends_small 1 3 ltac:(done) ltac:(done)) (appends_hash h Hv) b Hb).
Qed.
Next Obligation.
  intros s [|h] l rs Hs Hv Hb Hr; unfold load_from, Load_StorageExtra.
  - destruct (reads_small 3 0 ltac:(lia) ltac:(lia) s l rs Hs Hb Hr) as (s' & -> & ?). by exists s'.
  - exact (reads_bind _ (fun tag s => if tag =? 0 then Ok (ExtraNone, s) else if tag =? 1 then let! (h, s) := load_u256 s in Ok (ExtraDictHash h, s) else Err InvalidTag)
      _ _ _ _ (reads_small 3 1 ltac:(lia) ltac:(lia)) (reads_map _ ExtraDictHash _ _ (reads_hash h Hv)) s l rs Hs Hb Hr).
Qed.

#[export] Instance Codec_StorageInfo : Codec StorageInfo.
Proof.
  refine (codec_via (fun v => (used v, (storage_extra v, (mkU 32 (last_paid v), due_payment v))))
    (fun p => mkStorageInfo p.1 p.2.1 (uval p.2.2.1) p.2.2.2) _ _ _); [by intros [] | done |]. via_pairs Load_StorageInfo.
Defined.

#[export] Program Instance Codec_AccountStatus : Codec AccountStatus := { enc_ok _ := True; enc v := (uint_bits 2 (status_to_u8 v), []) }.
Next Obligation. intros ctx b v Hb _. apply appends_small; [by destruct v | done..]. Qed.
Next Obligation.
  intros s v l rs Hs _ Hb Hr. destruct (reads_small 2 (status_to_u8 v) ltac:(lia) ltac:(by destruct v) s l rs Hs Hb Hr) as (s' & E & ?).
  unfold load_from, Load_AccountStatus. rewrite E. exists s'. by destruct v.
Qed.

#[export] Program Instance Codec_AccountState : Codec AccountState := {
  enc_ok v := match v with StateUninit => True | StateActive init => enc_ok init | StateFrozen h => hash_ok h end;
  enc v := match v with
    | StateUninit => (uint_bits 2 0, [])
    | StateActive init => (true :: (enc init).1, (enc init).2)
    | StateFrozen h => (uint_bits 2 1 ++ bits_from h 0 256, [])
    end }.
Next Obligation.
  intros ctx b [|init|h] Hb Hv.
  - by apply appends_small.
  - refine (appends_ext _ _ _ (appends_bind (fun b => on_data store_bit_one b) _ ([true], []) _ _ (appends_value ctx init Hv)) _ b Hb); [|done].
    apply appends_bits. intros d Hd. by apply store_bit_one_spec.
  - exact (appends_bind _ _ _ _ (appends_small 1 2 ltac:(done) ltac:(done)) (appends_hash h Hv) b Hb).
Qed.
Next Obligation.
  intros s [|init|h] l rs Hs Hv Hb Hr; unfold load_from, Load_AccountState.
  - exact (reads_bind load_bit _ false _ ([false], []) ([false], []) (reads_bit false)
      (reads_bind load_bit _ false StateUninit ([false], []) ([], []) (reads_bit false) (reads_done StateUninit)) s l rs Hs Hb Hr).
  - exact (reads_bind load_bit _ true _ ([true], []) _ (reads_bit true) (reads_map load_from StateActive _ _ (reads_value init Hv)) s l rs Hs Hb Hr).
  - exact (reads_bind load_bit _ false _ ([false], []) _ (reads_bit false)
      (reads_bind load_bit _ true _ ([true], []) _ (reads_bit true) (reads_map load_u256 StateFrozen _ _ (reads_hash h Hv))) s l rs Hs Hb Hr).
Qed.

#[export] Instance Codec_Account : Codec Account.
Proof.
  refine (codec_via (fun v => (acc_address v, (storage_stat v, (mkU 64 (last_trans_lt v), (acc_balance v, acc_state v)))))
    (fun p => mkAccount p.1 p.2.1 (uval p.2.2.1) p.2.2.2.1 p.2.2.2.2) _ _ _); [by intros [] | done |]. via_pairs Load_Account.
Defined.

#[export] Instance Codec_OptionalAccount : Codec OptionalAccount.
Proof. refine (codec_via opt_account mkOptAccount _ _ _); [by intros [] | done |]. via_pairs Load_OptionalAccount. Defined.

#[export] Instance Codec_ShardAccount : Codec ShardAccount.
Proof.
  refine (codec_via (fun v => (sa_account v, (mkHash (sa_last_trans_hash v), mkU 64 (sa_last_trans_lt v))))
    (fun p => mkShardAccount p.1 (hash_bytes p.2.1) (uval p.2.2)) _ _ _); [by intros [] | done |]. via_pairs Load_ShardAccount.
Defined.

(** ** Accounts of a shard *)

Lemma append_full_overflow x : (zlen x.1 <=? MAX_BIT_LEN) = false \/ (zlen x.2 <=? MAX_REF_COUNT) = false -> append_full builder_new x = Err CellOverflow.
Proof. rewrite append_full_new. intros [-> | ->]; [done | by rewrite andb_false_r]. Qed.

(** [C30] An account, of any state or none, is put into a lazy cell of its own if its parts
    fit into one, and refused with [CellOverflow] otherwise; the lazy cell gives the account
    back, and the entry of a shard that holds it is built into a cell, parsed back, and
    loads the account. *)
Theorem shard_account_roundtrip ctx {laws : ContextLaws ctx} (a : OptionalAccount) (hash : HashBytes) (lt : Z) D :
  enc_ok a -> hash_ok hash -> 0 <= lt < 2 ^ 64 ->
  Forall cell_ok (enc a).2 -> 0 <= D < MAX_DEPTH -> Forall (fun r => cdepth r + 1 <= D) (enc a).2 ->
  if (zlen (enc a).1 <=? MAX_BIT_LEN) && (zlen (enc a).2 <=? MAX_REF_COUNT) then
    exists account : Lazy false OptionalAccount, Lazy.new ctx a = Ok account /\ Lazy.load account = Ok a /\
      let entry := mkShardAccount account hash lt in
      exists c, build_from_ext entry ctx = Ok c /\ parse c = Ok entry /\ load_account entry = Ok (opt_account a)
  else Lazy.new (exotic := false) ctx a = Err CellOverflow.
Proof.
  intros Ha Hh Hlt Hok HD Hdep. destruct (_ && _) eqn:E.
  - apply andb_true_iff in E as [Hb%Z.leb_le Hr%Z.leb_le].
    destruct (finish_cell ctx _ _ D (appends_value ctx a Ha) Hb Hr Hok ltac:(lia) Hdep) as (c & Ec & Ho & Hco & Hcd).
    exists (mkLazy false _ c). assert (is_exotic c = false) as Hx by apply Ho.
    assert (parse c = Ok a) as Ep by exact (parse_ordinary a (enc a) c (reads_value a Ha) Ho).
    split; [unfold Lazy.new, build_from_ext, Lazy.from_raw; rewrite Ec; cbn [rbind]; by rewrite Hx|]. split; [exact Ep|]. cbv zeta.
    set (entry := mkShardAccount (mkLazy false OptionalAccount c) hash lt). assert (enc_ok entry) as He by (split; [done | split; [exact Hh | done]]).
    destruct (finish_cell ctx _ _ (D + 1) (appends_value ctx entry He)) as (c' & Ec' & Ho' & _).
    + change (zlen (bits_from hash 0 256 ++ uint_bits 64 lt) <= MAX_BIT_LEN). by rewrite zlen_app, zlen_bits_from, zlen_uint_bits by lia.
    + done.
    + by repeat constructor.
    + unfold MAX_DEPTH in *. lia.
    + repeat constructor. cbn [lazy_inner sa_account entry fst snd]. lia.
    + exists c'. split; [exact Ec'|]. split; [exact (parse_ordinary entry (enc entry) c' (reads_value entry He) Ho')|].
      unfold load_account, Lazy.load. cbn [sa_account entry lazy_inner]. by rewrite Ep.
  - unfold Lazy.new, build_from_ext. rewrite (appends_value ctx a Ha) by apply builder_new_wf. rewrite append_full_overflow; [done|].
    by apply andb_false_iff.
Qed.

(** ** The test of [StorageUsed::compute] *)

Lemma reduce_limit fuel self b self' : 0 <= cell_count (stats self) -> StorageStat.reduce_stack fuel self = Some (b, self') ->
  0 <= cell_count (stats self') <= Z.max (limit self) (cell_count (stats self)).
Proof.
  revert self. induction fuel as [|fuel IH]; intros self Hn; cbn [StorageStat.reduce_stack]; [done|].
  destruct (ss_stack self) as [|it stack]; [intros [= _ <-]; lia|]. destruct (iter_next it) as [[c|] it'].
  - destruct (StorageStat.is_visited _ c); [by intros ?%IH|]. cbn [StorageStat.with_stack stats limit].
    destruct (Z.leb_spec (limit self) (cell_count (stats self))); [intros [= _ <-]; cbn [stats]; lia|].
    assert (0 <= u64 (cell_count (stats self) + 1) <= cell_count (stats self) + 1) as Hu.
    { unfold u64, wrap. split; [apply Z.mod_pos_bound; lia | apply Z.mod_le; lia]. }
    destruct (0 <? _); intros E%IH; cbn [StorageStat.with_stack StorageStat.visit stats limit cell_count] in *; lia.
  - by intros ?%IH.
Qed.

(** The test for overflow lacks a negation: with a limit below 2^56 cells there is no result. *)
Lemma storage_used_refused ctx account cell_limit r :
  cell_limit < 2 ^ 56 -> storage_used_compute ctx account cell_limit <> Some (Ok r).
Proof.
  intros Hl. unfold storage_used_compute. destruct (let! _ := _ in _) as [c|]; [|done].
  unfold StorageStat.compute_for_cell, StorageStat.add_cell, StorageStat.is_visited. cbn [StorageStat.with_limit visited].
  rewrite bool_decide_false by set_solver. destruct (StorageStat.reduce_stack _ _) as [[b self]|] eqn:E; [|done].
  apply reduce_limit in E as [Hn Hm]; [|done]. cbn [StorageStat.stats_of fmap option_fmap option_map fst snd]. destruct b; [|done].
  change (0 <= cell_count (stats self)) in Hn. change (cell_count (stats self) <= Z.max cell_limit 1) in Hm.
  unfold Bounded.is_valid at 1. cbn [used_cells]. change (raw (Bounded.MAX : VarUint56)) with (2 ^ 56 - 1). cbn [Bounded.new raw].
  by rewrite (proj2 (Z.leb_le _ _)) by lia.
Qed.

(** ** Concrete inputs *)

(** Two references to the same cell *)
Definition sample_root : Cell := OrdinaryCell 0 [(replicate 32 1, 1)] (Descr.new 2 0) [EmptyOrdinaryCell; EmptyOrdinaryCell] [].

Lemma sample_below x : rtc child sample_root x <-> x ∈ [sample_root; EmptyOrdinaryCell].
Proof.
  split.
  - intros Hx. inversion Hx as [|? y ? Hy Hyx]; subst; [by left|]. right. apply list_elem_of_singleton.
    change (y ∈ [EmptyOrdinaryCell; EmptyOrdinaryCell]) in Hy. assert (y = EmptyOrdinaryCell) as -> by set_solver.
    inversion Hyx as [|? z ? Hz]; subst; [done|]. change (z ∈ []) in Hz. by apply not_elem_of_nil in Hz.
  - intros [-> | ->%list_elem_of_singleton]%elem_of_cons; [done|]. apply rtc_once. by left.
Qed.

Lemma sample_wf x : x ∈ [sample_root; EmptyOrdinaryCell] -> cell_wf x.
Proof.
  intros [-> | ->%list_elem_of_singleton]%elem_of_cons; (split; [by constructor | by cbn | by cbn | by vm_compute | intros i Hi]).
  - change (0 <= i < 2) in Hi. assert (i = 0 \/ i = 1) as [-> | ->] by lia; by eexists.
  - change (0 <= i < 0) in Hi. lia.
Qed.

Lemma sample_cells : cells_of [sample_root; EmptyOrdinaryCell] [sample_root].
Proof.
  split.
  - apply list.NoDup_cons. split; [|apply NoDup_singleton]. by intros ?%list_elem_of_singleton.
  - intros x. rewrite <- sample_below. split; [intros Hx; exists sample_root; split; [by left | done] | by intros (c & ->%list_elem_of_singleton & Hx)].
  - apply sample_wf.
  - intros x y [-> | ->%list_elem_of_singleton]%elem_of_cons [-> | ->%list_elem_of_singleton]%elem_of_cons; done.
Qed.

Lemma storage_stat_counts_witness :
  StorageStat.compute_for_cell sample_root 10 = Some (Some (mkStats 0 2)) /\ StorageStat.compute_for_cell sample_root 1 = Some None.
Proof.
  destruct (storage_stat_counts [sample_root; EmptyOrdinaryCell] [sample_root] 10 sample_cells) as (_ & E & _); [done | done|].
  destruct (storage_stat_counts [sample_root; EmptyOrdinaryCell] [sample_root] 1 sample_cells) as (_ & E' & _); [done | done|].
  split; [exact (E sample_root eq_refl) | exact (E' sample_root eq_refl)].
Defined.

Definition sample_account : OptionalAccount := mkOptAccount (Some (mkAccount (IntStd sample_std)
  (mkStorageInfo (mkUsed (mkBounded 64 56 1) (mkBounded 64 56 300)) ExtraNone 5 (Some (mkBounded 128 120 9))) 7 Currency.ZERO (StateFrozen (replicate 32 3)))).

Lemma sample_account_ok : enc_ok sample_account.
Proof.
  split; [exact sample_std_ok|]. split; [split; [split; cbn; lia|split; [done|split; cbn; lia]]|]. split; [cbn; lia|].
  split; [split; [cbn; lia | done]|]. split; [by apply Forall_replicate | done].
Qed.

Lemma shard_account_roundtrip_witness :
  exists account : Lazy false OptionalAccount, Lazy.new sample_ctx sample_account = Ok account /\ Lazy.load account = Ok sample_account.
Proof.
  pose proof (shard_account_roundtrip sample_ctx sample_account (replicate 32 0) 7 0 sample_account_ok) as H.
  destruct H as (account & E1 & E2 & _); [split; [by apply Forall_replicate | done] | done | by constructor | done | by constructor |].
  exists account. split; [exact E1 | exact E2].
Defined.
