(* ===== verification/Message.v ===== *)
(** * Message: messages and the layout of their parts ([src/src/models/message/mod.rs])

    A message has an info of one of three kinds, an optional state init and a body; the
    last two are stored in the cell of the message or in a child cell, as a layout says,
    given or computed from the sizes of the parts.

    [from_bits] of the type that the macro [bitflags!] generates is the method of the class
    [BitFlags]; [BitFlagsLaws] is what its documentation promises. *)

From S2P Require Import Prelude Bits DataBuilder CellMeta Cell Slice Builder Dict DictTyped Num Currency Shard Address Account.

(** ** [MessageExtraFlags] *)

Class BitFlags := { flags_from_bits : Z -> option Z }.

Record MessageExtraFlags := mkFlags { flag_bits : Z }.

Module ExtraFlags.
Definition NEW_BOUNCE_FORMAT : Z := 0x1.
Definition FULL_BODY_IN_BOUNCED : Z := 0x2.
Definition default : MessageExtraFlags := mkFlags 0.

Definition from_stored `{BitFlags} (tokens : Tokens) : option MessageExtraFlags :=
  let value := raw tokens in
  if value <=? 255 then mkFlags <$> flags_from_bits (u8 value) else None.
Definition as_stored (self : MessageExtraFlags) : Tokens := Bounded.new (flag_bits self).
Definition is_new_bounce_format (self : MessageExtraFlags) : bool := Z.land (flag_bits self) NEW_BOUNCE_FORMAT =? NEW_BOUNCE_FORMAT.
Definition is_full_body_in_bounced (self : MessageExtraFlags) : bool := Z.land (flag_bits self) FULL_BODY_IN_BOUNCED =? FULL_BODY_IN_BOUNCED.
Definition bit_len (self : MessageExtraFlags) : Z := Bounded.LEN_BITS 120 + 8 * b2z (negb (flag_bits self =? 0)).
End ExtraFlags.

#[global] Instance Store_ExtraFlags : Store MessageExtraFlags := fun self ctx b => store_into (ExtraFlags.as_stored self) ctx b.
#[global] Instance Load_ExtraFlags `{BitFlags} : Load MessageExtraFlags := fun s =>
  let! (tokens, s) := load_from s in
  match ExtraFlags.from_stored tokens with Some flags => Ok (flags, s) | None => Err InvalidData end.

(** ** Infos *)

Record IntMsgInfo := mkInt {
  ihr_disabled : bool; bounce : bool; bounced : bool;
  int_src : IntAddr; int_dst : IntAddr;
  int_value : CurrencyCollection; extra_flags : MessageExtraFlags; fwd_fee : Tokens;
  int_created_lt : Z; int_created_at : Z;
}.

Definition int_flags (ihr_disabled bounce bounced : bool) : Z :=
  Z.lor (Z.lor (Z.shiftl (b2z ihr_disabled) 2) (Z.shiftl (b2z bounce) 1)) (b2z bounced).

Definition int_msg_bit_len (self : IntMsgInfo) : Z :=
  u16 (3 + IntAddr.bit_len (int_src self) + IntAddr.bit_len (int_dst self) + Currency.bit_len (int_value self)
    + ExtraFlags.bit_len (extra_flags self) + Bounded.unwrap_bit_len (fwd_fee self) + 64 + 32).
Definition int_msg_default : IntMsgInfo :=
  mkInt true false false IntAddr.default IntAddr.default Currency.ZERO ExtraFlags.default Bounded.ZERO 0 0.

#[global] Instance Store_IntMsgInfo : Store IntMsgInfo := fun self ctx b =>
  let! b := on_data (fun d => store_small_uint d (int_flags (ihr_disabled self) (bounce self) (bounced self)) 3) b in
  let! b := store_into (int_src self) ctx b in
  let! b := store_into (int_dst self) ctx b in
  let! b := store_into (int_value self) ctx b in
  let! b := store_into (extra_flags self) ctx b in
  let! b := store_into (fwd_fee self) ctx b in
  let! b := on_data (fun d => store_u64 d (int_created_lt self)) b in
  on_data (fun d => store_u32 d (int_created_at self)) b.
#[global] Instance Load_IntMsgInfo `{BitFlags} : Load IntMsgInfo := fun s =>
  let! (flags, s) := load_small_uint s 3 in
  let! (src, s) := load_from s in
  let! (dst, s) := load_from s in
  let! (value, s) := load_from s in
  let! (extra_flags, s) := load_from s in
  let! (fwd_fee, s) := load_from s in
  let! (created_lt, s) := load_u64 s in
  let! (created_at, s) := load_u32 s in
  Ok (mkInt (negb (Z.land flags 0x4 =? 0)) (negb (Z.land flags 0x2 =? 0)) (negb (Z.land flags 0x1 =? 0))
        src dst value extra_flags fwd_fee created_lt created_at, s).

Record RelaxedIntMsgInfo := mkRelaxedInt {
  r_ihr_disabled : bool; r_bounce : bool; r_bounced : bool;
  r_int_src : option IntAddr; r_int_dst : IntAddr;
  r_int_value : CurrencyCollection; r_extra_flags : MessageExtraFlags; r_fwd_fee : Tokens;
  r_int_created_lt : Z; r_int_created_at : Z;
}.

Definition relaxed_int_msg_bit_len (self : RelaxedIntMsgInfo) : Z :=
  u16 (3 + compute_opt_int_addr_bit_len (r_int_src self) + IntAddr.bit_len (r_int_dst self) + Currency.bit_len (r_int_value self)
    + ExtraFlags.bit_len (r_extra_flags self) + Bounded.unwrap_bit_len (r_fwd_fee self) + 64 + 32).
Definition relaxed_int_msg_default : RelaxedIntMsgInfo :=
  mkRelaxedInt true false false None IntAddr.default Currency.ZERO ExtraFlags.default Bounded.ZERO 0 0.

#[global] Instance Store_RelaxedIntMsgInfo : Store RelaxedIntMsgInfo := fun self ctx b =>
  let! b := on_data (fun d => store_small_uint d (int_flags (r_ihr_disabled self) (r_bounce self) (r_bounced self)) 3) b in
  let! b := store_opt_int_addr b ctx (r_int_src self) in
  let! b := store_into (r_int_dst self) ctx b in
  let! b := store_into (r_int_value self) ctx b in
  let! b := store_into (r_extra_flags self) ctx b in
  let! b := store_into (r_fwd_fee self) ctx b in
  let! b := on_data (fun d => store_u64 d (r_int_created_lt self)) b in
  on_data (fun d => store_u32 d (r_int_created_at self)) b.
#[global] Instance Load_RelaxedIntMsgInfo `{BitFlags} : Load RelaxedIntMsgInfo := fun s =>
  let! (flags, s) := load_small_uint s 3 in
  let! (src, s) := load_opt_int_addr s in
  let! (dst, s) := load_from s in
  let! (value, s) := load_from s in
  let! (extra_flags, s) := load_from s in
  let! (fwd_fee, s) := load_from s in
  let! (created_lt, s) := load_u64 s in
  let! (created_at, s) := load_u32 s in
  Ok (mkRelaxedInt (negb (Z.land flags 0x4 =? 0)) (negb (Z.land flags 0x2 =? 0)) (negb (Z.land flags 0x1 =? 0))
        src dst value extra_flags fwd_fee created_lt created_at, s).

Record ExtInMsgInfo := mkExtIn { in_src : option ExtAddr; in_dst : IntAddr; import_fee : Tokens }.

Definition ext_in_bit_len (self : ExtInMsgInfo) : Z :=
  u16 (2 + compute_ext_addr_bit_len (in_src self) + IntAddr.bit_len (in_dst self) + Bounded.unwrap_bit_len (import_fee self)).

#[global] Instance Store_ExtInMsgInfo : Store ExtInMsgInfo := fun self ctx b =>
  if negb (Bounded.is_valid (import_fee self)) then Err InvalidData else
  if negb (has_capacity b (ext_in_bit_len self) 0) then Err CellOverflow else
  let! b := store_ext_addr b ctx (in_src self) in
  let! b := store_into (in_dst self) ctx b in
  store_into (import_fee self) ctx b.
#[global] Instance Load_ExtInMsgInfo : Load ExtInMsgInfo := fun s =>
  let! (src, s) := load_ext_addr s in
  let! (dst, s) := load_from s in
  let! (import_fee, s) := load_from s in Ok (mkExtIn src dst import_fee, s).

Record ExtOutMsgInfo := mkExtOut { out_src : IntAddr; out_dst : option ExtAddr; out_created_lt : Z; out_created_at : Z }.

Definition ext_out_bit_len (self : ExtOutMsgInfo) : Z :=
  u16 (2 + IntAddr.bit_len (out_src self) + compute_ext_addr_bit_len (out_dst self) + 64 + 32).

#[global] Instance Store_ExtOutMsgInfo : Store ExtOutMsgInfo := fun self ctx b =>
  if negb (has_capacity b (ext_out_bit_len self) 0) then Err CellOverflow else
  let! b := store_into (out_src self) ctx b in
  let! b := store_ext_addr b ctx (out_dst self) in
  let! b := on_data (fun d => store_u64 d (out_created_lt self)) b in
  on_data (fun d => store_u32 d (out_created_at self)) b.
#[global] Instance Load_ExtOutMsgInfo : Load ExtOutMsgInfo := fun s =>
  let! (src, s) := load_from s in
  let! (dst, s) := load_ext_addr s in
  let! (created_lt, s) := load_u64 s in
  let! (created_at, s) := load_u32 s in Ok (mkExtOut src dst created_lt created_at, s).

Record RelaxedExtOutMsgInfo := mkRelaxedExtOut {
  r_out_src : option IntAddr; r_out_dst : option ExtAddr; r_out_created_lt : Z; r_out_created_at : Z }.

Definition relaxed_ext_out_bit_len (self : RelaxedExtOutMsgInfo) : Z :=
  u16 (2 + compute_opt_int_addr_bit_len (r_out_src self) + compute_ext_addr_bit_len (r_out_dst self) + 64 + 32).

#[global] Instance Store_RelaxedExtOutMsgInfo : Store RelaxedExtOutMsgInfo := fun self ctx b =>
  let! b := store_opt_int_addr b ctx (r_out_src self) in
  let! b := store_ext_addr b ctx (r_out_dst self) in
  let! b := on_data (fun d => store_u64 d (r_out_created_lt self)) b in
  on_data (fun d => store_u32 d (r_out_created_at self)) b.
#[global] Instance Load_RelaxedExtOutMsgInfo : Load RelaxedExtOutMsgInfo := fun s =>
  let! (src, s) := load_opt_int_addr s in
  let! (dst, s) := load_ext_addr s in
  let! (created_lt, s) := load_u64 s in
  let! (created_at, s) := load_u32 s in Ok (mkRelaxedExtOut src dst created_lt created_at, s).

(** ** [MsgType], [MsgInfo], [RelaxedMsgInfo] *)

Inductive MsgType : Type := TypeInt | TypeExtIn | TypeExtOut.
#[global] Instance Store_MsgType : Store MsgType := fun self _ b =>
  match self with
  | TypeInt => on_data store_bit_zero b
  | TypeExtIn => on_data (fun d => store_small_uint d 0x2 2) b
  | TypeExtOut => on_data (fun d => store_small_uint d 0x3 2) b
  end.
#[global] Instance Load_MsgType : Load MsgType := fun s =>
  let! (ext, s) := load_bit s in
  if negb ext then Ok (TypeInt, s) else
  let! (out, s) := load_bit s in
  Ok (if negb out then TypeExtIn else TypeExtOut, s).
Definition type_is_internal (self : MsgType) : bool := match self with TypeInt => true | _ => false end.
Definition type_is_external_in (self : MsgType) : bool := match self with TypeExtIn => true | _ => false end.
Definition type_is_external_out (self : MsgType) : bool := match self with TypeExtOut => true | _ => false end.

Inductive MsgInfo : Type := MsgInt (info : IntMsgInfo) | MsgExtIn (info : ExtInMsgInfo) | MsgExtOut (info : ExtOutMsgInfo).

Module MsgInfo.
Implicit Type self : MsgInfo.
Definition ty self : MsgType := match self with MsgInt _ => TypeInt | MsgExtIn _ => TypeExtIn | MsgExtOut _ => TypeExtOut end.
Definition is_internal self : bool := match self with MsgInt _ => true | _ => false end.
Definition is_external_in self : bool := match self with MsgExtIn _ => true | _ => false end.
Definition is_external_out self : bool := match self with MsgExtOut _ => true | _ => false end.
Definition bit_len self : Z :=
  match self with MsgInt info => int_msg_bit_len info | MsgExtIn info => ext_in_bit_len info | MsgExtOut info => ext_out_bit_len info end.
Definition has_references self : bool := match self with MsgInt info => negb (Extra.is_empty (cc_other (int_value info))) | _ => false end.
Definition exact_size_const self : Size := mkSize (bit_len self) (b2z (has_references self)).
End MsgInfo.

#[global] Instance ExactSize_MsgInfo : ExactSize MsgInfo := MsgInfo.exact_size_const.
#[global] Instance Store_MsgInfo : Store MsgInfo := fun self ctx b =>
  match self with
  | MsgInt info => let! b := on_data store_bit_zero b in store_into info ctx b
  | MsgExtIn info => let! b := on_data (fun d => store_small_uint d 0x2 2) b in store_into info ctx b
  | MsgExtOut info => let! b := on_data (fun d => store_small_uint d 0x3 2) b in store_into info ctx b
  end.
#[global] Instance Load_MsgInfo `{BitFlags} : Load MsgInfo := fun s =>
  let! (ext, s) := load_bit s in
  if negb ext then let! (info, s) := load_from s in Ok (MsgInt info, s)
  else
    let! (out, s) := load_bit s in
    if negb out then let! (info, s) := load_from s in Ok (MsgExtIn info, s)
    else let! (info, s) := load_from s in Ok (MsgExtOut info, s).

Inductive RelaxedMsgInfo : Type := RelaxedInt (info : RelaxedIntMsgInfo) | RelaxedExtOut (info : RelaxedExtOutMsgInfo).

Module RelaxedMsgInfo.
Implicit Type self : RelaxedMsgInfo.
Definition bit_len self : Z :=
  match self with RelaxedInt info => relaxed_int_msg_bit_len info | RelaxedExtOut info => relaxed_ext_out_bit_len info end.
Definition has_references self : bool := match self with RelaxedInt info => negb (Extra.is_empty (cc_other (r_int_value info))) | _ => false end.
Definition exact_size_const self : Size := mkSize (bit_len self) (b2z (has_references self)).
Definition of_int (info : IntMsgInfo) : RelaxedMsgInfo :=
  RelaxedInt (mkRelaxedInt (ihr_disabled info) (bounce info) (bounced info) (Some (int_src info)) (int_dst info)
    (int_value info) (extra_flags info) (fwd_fee info) (int_created_lt info) (int_created_at info)).
Definition of_ext_out (info : ExtOutMsgInfo) : RelaxedMsgInfo :=
  RelaxedExtOut (mkRelaxedExtOut (Some (out_src info)) (out_dst info) (out_created_lt info) (out_created_at info)).
End RelaxedMsgInfo.

#[global] Instance ExactSize_RelaxedMsgInfo : ExactSize RelaxedMsgInfo := RelaxedMsgInfo.exact_size_const.
#[global] Instance Store_RelaxedMsgInfo : Store RelaxedMsgInfo := fun self ctx b =>
  match self with
  | RelaxedInt info => let! b := on_data store_bit_zero b in store_into info ctx b
  | RelaxedExtOut info => let! b := on_data (fun d => store_small_uint d 0x3 2) b in store_into info ctx b
  end.
#[global] Instance Load_RelaxedMsgInfo `{BitFlags} : Load RelaxedMsgInfo := fun s =>
  let! (ext, s) := load_bit s in
  if negb ext then let! (info, s) := load_from s in Ok (RelaxedInt info, s)
  else
    let! (out, s) := load_bit s in
    if out : bool then let! (info, s) := load_from s in Ok (RelaxedExtOut info, s) else Err InvalidTag.

(** ** [SliceOrCell] *)

Record SliceOrCell (T : Type) := mkSliceOrCell { to_cell : bool; soc_value : T }.
Arguments mkSliceOrCell {T} to_cell soc_value.
Arguments to_cell {T} _.
Arguments soc_value {T} _.

Definition store_only_value_into `{Store T} (self : SliceOrCell T) (b : CellBuilder) (ctx : CellContext) : result CellBuilder :=
  if to_cell self then
    let! cell := (let! builder := store_into (soc_value self) ctx builder_new in build_ext ctx builder) in
    store_reference b cell
  else store_into (soc_value self) ctx b.
#[global] Instance Store_SliceOrCell `{Store T} : Store (SliceOrCell T) := fun self ctx b =>
  let! b := on_data (fun d => store_bit d (to_cell self)) b in
  store_only_value_into self b ctx.
#[global] Instance Load_SliceOrCell `{Load T} : Load (SliceOrCell T) := fun s =>
  let! (to_cell, s) := load_bit s in
  if to_cell : bool then
    let! (child_cell, s) := load_reference_as_slice s in
    let! (value, _) := load_from child_cell in Ok (mkSliceOrCell to_cell value, s)
  else let! (value, s) := load_from s in Ok (mkSliceOrCell to_cell value, s).

(** ** [MessageLayout] *)

Record MessageLayout := mkLayout { init_to_cell : bool; body_to_cell : bool }.
Record DetailedMessageLayout := mkDetailed { l_info : Size; l_init : Size; l_body : Size }.

Definition detailed_compute (info : Size) (init : option StateInit) (body : Size) : DetailedMessageLayout :=
  let info := mkSize (u16 (bits info + 2)) (refs info) in
  match init with
  | Some init => mkDetailed (mkSize (u16 (bits info + 1)) (refs info)) (StateInit.exact_size_const init) body
  | None => mkDetailed info Sizes.ZERO body
  end.

Module Layout.
Definition plain : MessageLayout := mkLayout false false.

(** One part, in the root cell or behind a reference *)
Definition append_part (total : Size) (in_cell : bool) (part : Size) : Size :=
  if in_cell then mkSize (bits total) (u8 (refs total + 1))
  else mkSize (u16 (bits total + bits part)) (u8 (refs total + refs part)).
Definition compute_full_size (self : MessageLayout) (info_size : Size) (init : option StateInit) (body_size : Size) : Size :=
  let l := detailed_compute info_size init body_size in
  let total := append_part (l_info l) (init_to_cell self) (l_init l) in
  append_part total (body_to_cell self) (l_body l).

Definition compute (info_size : Size) (init : option StateInit) (body_size : Size) : MessageLayout * Size :=
  let l := detailed_compute info_size init body_size in
  let total_bits := u16 (u16 (bits (l_info l) + bits (l_init l)) + bits (l_body l)) in
  let total_refs := u8 (u8 (refs (l_info l) + refs (l_init l)) + refs (l_body l)) in
  if (total_bits <=? MAX_BIT_LEN) && (total_refs <=? MAX_REF_COUNT) then (mkLayout false false, mkSize total_bits total_refs) else
  let total_bits := u16 (bits (l_info l) + bits (l_init l)) in
  let total_refs := u8 (refs (l_info l) + refs (l_init l)) in
  if (total_bits <=? MAX_BIT_LEN) && (total_refs <? MAX_REF_COUNT) then (mkLayout false true, mkSize total_bits (u8 (total_refs + 1))) else
  let total_bits := u16 (bits (l_info l) + bits (l_body l)) in
  let total_refs := u8 (refs (l_info l) + refs (l_body l)) in
  if (total_bits <=? MAX_BIT_LEN) && (total_refs <? MAX_REF_COUNT) then (mkLayout true false, mkSize total_bits (u8 (total_refs + 1))) else
  (mkLayout true true, mkSize (bits (l_info l)) (u8 (refs (l_info l) + 2))).
End Layout.

(** ** Bodies *)

Class StoreBody (B : Type) := store_body : B -> bool -> CellBuilder -> CellContext -> result CellBuilder.
Class LoadBody (B : Type) := load_body : bool -> CellSlice -> result (B * CellSlice).

#[global] Instance StoreBody_slice : StoreBody CellSlice := fun self to_cell b ctx =>
  store_only_value_into (mkSliceOrCell to_cell self) b ctx.
#[global] Instance StoreBody_parts : StoreBody CellSliceParts := fun self to_cell b ctx =>
  let (range, cell) := (self : CellSliceRange * Cell) in
  if to_cell && Range.is_full range cell then store_reference b cell
  else let! value := apply range cell in store_only_value_into (mkSliceOrCell to_cell value) b ctx.

#[global] Instance LoadBody_slice : LoadBody CellSlice := fun from_cell s =>
  if from_cell then load_reference_as_slice s else Ok (load_remaining s).
(** [build] uses the empty context. *)
Definition LoadBody_parts (empty : CellContext) : LoadBody CellSliceParts := fun from_cell s =>
  let! (cell, s) :=
    if from_cell then load_reference_cloned s
    else
      let (slice, s) := load_remaining s in
      let! builder := store_slice builder_new slice in
      let! cell := build_ext empty builder in Ok (cell, s) in
  Ok ((Range.full cell, cell) : CellSliceParts, s).

#[global] Instance ExactSize_parts : ExactSize CellSliceParts := fun self => Range.size (self : CellSliceRange * Cell).1.

(** ** [BaseMessage] *)

Record BaseMessage (I B : Type) := mkMessage { info : I; init : option StateInit; body : B; layout : option MessageLayout }.
Arguments mkMessage {I B} info init body layout.
Arguments info {I B} _.
Arguments init {I B} _.
Arguments body {I B} _.
Arguments layout {I B} _.

Abbreviation Message := (BaseMessage MsgInfo CellSlice).
Abbreviation OwnedMessage := (BaseMessage MsgInfo CellSliceParts).
Abbreviation RelaxedMessage := (BaseMessage RelaxedMsgInfo CellSlice).
Abbreviation OwnedRelaxedMessage := (BaseMessage RelaxedMsgInfo CellSliceParts).

Definition message_ty {B} (self : BaseMessage MsgInfo B) : MsgType := MsgInfo.ty (info self).
Definition compute_layout `{ExactSize Info} `{ExactSize B} (info : Info) (init : option StateInit) (body : B) : MessageLayout :=
  (Layout.compute (exact_size info) init (exact_size body)).1.

(** The layout and the size it is taken to have in the root cell *)
Definition message_layout `{ExactSize Info} `{ExactSize B} (self : BaseMessage Info B) : MessageLayout * Size :=
  let info_size := exact_size (info self) in
  let body_size := exact_size (body self) in
  match layout self with
  | Some layout => (layout, Layout.compute_full_size layout info_size (init self) body_size)
  | None => Layout.compute info_size (init self) body_size
  end.

#[global] Instance Store_Message `{Store Info} `{!ExactSize Info} `{StoreBody B} `{!ExactSize B} : Store (BaseMessage Info B) := fun self ctx b =>
  let (layout, size) := message_layout self in
  if negb (has_capacity b (bits size) (refs size)) then Err CellOverflow else
  let! b := store_into (info self) ctx b in
  let! b :=
    match init self with
    | Some value =>
        let! b := on_data store_bit_one b in
        store_into (mkSliceOrCell (init_to_cell layout) value) ctx b
    | None => on_data store_bit_zero b
    end in
  let! b := on_data (fun d => store_bit d (body_to_cell layout)) b in
  store_body (body self) (body_to_cell layout) b ctx.

#[global] Instance Load_Message `{Load Info} `{LoadBody B} : Load (BaseMessage Info B) := fun s =>
  let! (info, s) := load_from s in
  let! (init, s) := load_from (T := option (SliceOrCell StateInit)) s in
  let! (body_to_cell, s) := load_bit s in
  let! (body, s) := load_body body_to_cell s in
  let '(init, init_to_cell) :=
    match init with
    | Some init => (Some (soc_value init), to_cell init)
    | None => (None, false)
    end in
  Ok (mkMessage info init body (Some (mkLayout init_to_cell body_to_cell)), s).
