(* ===== verification/MessageTheorems.v ===== *)
(** * MessageTheorems: what messages promise

    The info of a message is the bits of its TL-B scheme; a layout is the first one that
    fits; and a message is built and parsed back with either layout of its parts. *)

From S2P Require Import Prelude Bits DataBuilder DataBuilderSpec CellMeta Cell Slice SliceSpec Builder BuilderSpec Context Dict DictSpec DictTyped DictTypedSpec Num NumSpec Currency CurrencyTheorems DictTheorems Shard ShardTheorems Address AddressTheorems Account AccountTheorems Message.

(** What the documentation of the generated [from_bits] says: a value with bits that no
    flag has is refused. *)
Class BitFlagsLaws {flags : BitFlags} := flags_from_bits_law b : is_byte b -> flags_from_bits b = if b <? 4 then Some b else None.
Arguments BitFlagsLaws : clear implicits.

Section Infos.
Context {flags : BitFlags} {laws : BitFlagsLaws flags}.

(** ** The flags *)

#[export] Program Instance Codec_ExtraFlags : Codec MessageExtraFlags := {
  enc_ok v := 0 <= flag_bits v < 4; enc v := (var_enc 4 (flag_bits v), []) }.
Next Obligation.
  intros ctx b v Hb Hv. cbv beta in *. unfold store_into, Store_ExtraFlags.
  refine (appends_value ctx (ExtraFlags.as_stored v) _ b Hb). change (0 <= flag_bits v < 2 ^ 120). lia.
Qed.
Next Obligation.
  intros s [x] l rs Hs Hv Hb Hr. cbv beta in *. cbn [flag_bits fst snd] in *. unfold load_from, Load_ExtraFlags.
  assert (enc_ok (mkBounded 128 120 x : Tokens)) as Hx by (change (0 <= x < 2 ^ 120); lia).
  destruct (reads_value (mkBounded 128 120 x : Tokens) Hx s l rs Hs Hb Hr) as (s' & -> & ?). cbn [rbind]. exists s'. split; [|done].
  unfold ExtraFlags.from_stored. cbn [raw]. rewrite (proj2 (Z.leb_le x 255)) by lia. rewrite u8_small by lia.
  rewrite flags_from_bits_law by (unfold is_byte; lia). by rewrite (proj2 (Z.ltb_lt x 4)) by lia.
Qed.

Lemma zlen_tokens (v : Tokens) : enc_ok v -> zlen (enc v).1 = Bounded.unwrap_bit_len v /\ 4 <= Bounded.unwrap_bit_len v <= 124.
Proof.
  intros Hv. change (0 <= raw v < 2 ^ 120) in Hv. change (enc v).1 with (var_enc 4 (raw v)).
  destruct (var_enc_padded 4 15 (raw v) ltac:(lia) Hv) as (_ & Hn & _). unfold var_enc. rewrite zlen_app, !zlen_uint_bits by lia.
  assert (byte_count 128 (raw v) = bytes_needed (raw v)) as E by (apply (leading_zeros_bytes 16); lia).
  unfold Bounded.unwrap_bit_len. rewrite E. change (Bounded.LEN_BITS 120) with 4. change (120 / 8) with 15.
  destruct (Z.ltb_spec 15 (bytes_needed (raw v))); lia.
Qed.

Lemma zlen_flags v : enc_ok v -> zlen (var_enc 4 (flag_bits v)) = ExtraFlags.bit_len v /\ 4 <= ExtraFlags.bit_len v <= 12.
Proof.
  intros Hv. change (0 <= flag_bits v < 4) in Hv. unfold ExtraFlags.bit_len.
  assert (flag_bits v = 0 \/ flag_bits v = 1 \/ flag_bits v = 2 \/ flag_bits v = 3) as [-> | [-> | [-> | ->]]] by lia; by split.
Qed.

Lemma zlen_currency (v : CurrencyCollection) : enc_ok v ->
  zlen (enc v).1 = Currency.bit_len v /\ 5 <= Currency.bit_len v <= 125 /\
  zlen (enc v).2 = b2z (negb (Extra.is_empty (cc_other v))) /\ zlen (enc v).2 <= 1.
Proof.
  intros [Ht _]. destruct v as [t [[root]]]. change (enc_ok t) in Ht. destruct (zlen_tokens t Ht) as [E ?]. unfold Currency.bit_len. cbn [tokens].
  change (enc (mkCurrency t (mkExtra (mkDict root)))) with ((enc t).1 ++ (enc root).1, (enc root).2). cbn [fst snd]. rewrite zlen_app, E.
  destruct root as [c|]; change (zlen [true]) with 1 || idtac; split_and!; try done; (by vm_compute) || (cbn; unfold zlen; simpl; lia).
Qed.

(** ** Infos *)

Lemma int_flags_bits a b c :
  0 <= int_flags a b c < 2 ^ 3 /\ negb (Z.land (int_flags a b c) 0x4 =? 0) = a /\
  negb (Z.land (int_flags a b c) 0x2 =? 0) = b /\ negb (Z.land (int_flags a b c) 0x1 =? 0) = c.
Proof. by destruct a, b, c. Qed.

Record int_msg_ok (i : IntMsgInfo) : Prop := {
  im_src : int_ok (int_src i); im_dst : int_ok (int_dst i); im_value : enc_ok (int_value i);
  im_flags : 0 <= flag_bits (extra_flags i) < 4; im_fee : 0 <= raw (fwd_fee i) < 2 ^ 120;
  im_lt : 0 <= int_created_lt i < 2 ^ 64; im_at : 0 <= int_created_at i < 2 ^ 32;
}.
Definition int_msg_bits (i : IntMsgInfo) : list bool :=
  uint_bits 3 (int_flags (ihr_disabled i) (bounce i) (bounced i)) ++ int_bits (int_src i) ++ int_bits (int_dst i) ++ (enc (int_value i)).1 ++
  var_enc 4 (flag_bits (extra_flags i)) ++ var_enc 4 (raw (fwd_fee i)) ++ uint_bits 64 (int_created_lt i) ++ uint_bits 32 (int_created_at i).

Lemma zlen_int_msg i : int_msg_ok i -> zlen (int_msg_bits i) = int_msg_bit_len i /\ 0 <= int_msg_bit_len i <= 1600.
Proof.
  intros []. unfold int_msg_bits, int_msg_bit_len. rewrite !zlen_app, !zlen_uint_bits by lia.
  destruct (zlen_int _ im_src0), (zlen_int _ im_dst0), (zlen_currency _ im_value0), (zlen_flags _ im_flags0), (zlen_tokens _ im_fee0) as [Ef ?].
  change (enc (fwd_fee i)).1 with (var_enc 4 (raw (fwd_fee i))) in Ef. rewrite u16_small by lia. lia.
Qed.

Lemma appends_int_msg ctx i : int_msg_ok i -> appends (store_into i ctx) (int_msg_bits i, (enc (int_value i)).2).
Proof.
  intros []. destruct (int_flags_bits (ihr_disabled i) (bounce i) (bounced i)) as [Hf _]. eapply appends_ext.
  - refine (appends_bind _ _ _ _ (appends_small _ 3 _ _) (appends_bind _ _ _ _ (appends_value ctx (int_src i) im_src0)
      (appends_bind _ _ _ _ (appends_value ctx (int_dst i) im_dst0) (appends_bind _ _ _ _ (appends_value ctx (int_value i) im_value0)
      (appends_bind _ _ _ _ (appends_value ctx (extra_flags i) im_flags0) (appends_bind _ _ _ _ (appends_value ctx (fwd_fee i) im_fee0)
      (appends_bind _ _ _ _ (appends_uint 64 _ _ im_lt0) (appends_uint 32 _ _ im_at0)))))))); [unfold is_byte; lia | lia].
  - cbn [fst snd app enc Codec_IntAddr Codec_ExtraFlags Codec_Tokens]. by rewrite app_nil_r.
Qed.

Lemma reads_int_msg i : int_msg_ok i -> reads load_from i (int_msg_bits i, (enc (int_value i)).2).
Proof.
  intros []. destruct i as [f1 f2 f3 src dst value extra fee lt at_]. cbn [ihr_disabled bounce bounced int_src int_dst int_value extra_flags fwd_fee int_created_lt int_created_at] in *.
  destruct (int_flags_bits f1 f2 f3) as (Hf & E1 & E2 & E3). eapply reads_ext.
  - refine (reads_bind _ _ _ _ _ _ (reads_small 3 (int_flags f1 f2 f3) _ Hf) _); [lia|]. rewrite E1, E2, E3.
    refine (reads_bind _ _ _ _ _ _ (reads_value src im_src0) _). refine (reads_bind _ _ _ _ _ _ (reads_value dst im_dst0) _).
    refine (reads_bind _ _ _ _ _ _ (reads_value value im_value0) _). refine (reads_bind _ _ _ _ _ _ (reads_value extra im_flags0) _).
    refine (reads_bind _ _ _ _ _ _ (reads_value fee im_fee0) _). refine (reads_bind _ _ _ _ _ _ (reads_uint 64 lt _ im_lt0) _).
    exact (reads_map (load_be 32) (mkInt f1 f2 f3 src dst value extra fee lt) at_ _ (reads_uint 32 at_ _ im_at0)).
  - cbn [fst snd app enc Codec_IntAddr Codec_ExtraFlags Codec_Tokens]. unfold int_msg_bits.
    cbn [ihr_disabled bounce bounced int_src int_dst int_value extra_flags fwd_fee int_created_lt int_created_at]. by rewrite app_nil_r.
Qed.

(** A relaxed message may lack its source. *)
Record relaxed_int_ok (i : RelaxedIntMsgInfo) : Prop := {
  ri_src : opt_ok int_ok (r_int_src i); ri_dst : int_ok (r_int_dst i); ri_value : enc_ok (r_int_value i);
  ri_flags : 0 <= flag_bits (r_extra_flags i) < 4; ri_fee : 0 <= raw (r_fwd_fee i) < 2 ^ 120;
  ri_lt : 0 <= r_int_created_lt i < 2 ^ 64; ri_at : 0 <= r_int_created_at i < 2 ^ 32;
}.
Definition relaxed_int_bits (i : RelaxedIntMsgInfo) : list bool :=
  uint_bits 3 (int_flags (r_ihr_disabled i) (r_bounce i) (r_bounced i)) ++ opt_int_bits (r_int_src i) ++ int_bits (r_int_dst i) ++ (enc (r_int_value i)).1 ++
  var_enc 4 (flag_bits (r_extra_flags i)) ++ var_enc 4 (raw (r_fwd_fee i)) ++ uint_bits 64 (r_int_created_lt i) ++ uint_bits 32 (r_int_created_at i).

Lemma zlen_relaxed_int i : relaxed_int_ok i -> zlen (relaxed_int_bits i) = relaxed_int_msg_bit_len i /\ 0 <= relaxed_int_msg_bit_len i <= 1600.
Proof.
  intros []. unfold relaxed_int_bits, relaxed_int_msg_bit_len. rewrite !zlen_app, !zlen_uint_bits by lia.
  destruct (zlen_opt_int _ ri_src0), (zlen_int _ ri_dst0), (zlen_currency _ ri_value0), (zlen_flags _ ri_flags0), (zlen_tokens _ ri_fee0) as [Ef ?].
  change (enc (r_fwd_fee i)).1 with (var_enc 4 (raw (r_fwd_fee i))) in Ef. rewrite u16_small by lia. lia.
Qed.

Lemma appends_relaxed_int ctx i : relaxed_int_ok i -> appends (store_into i ctx) (relaxed_int_bits i, (enc (r_int_value i)).2).
Proof.
  intros []. destruct (int_flags_bits (r_ihr_disabled i) (r_bounce i) (r_bounced i)) as [Hf _]. eapply appends_ext.
  - refine (appends_bind _ _ _ _ (appends_small _ 3 _ _) (appends_bind _ _ _ _ (appends_opt_int ctx _ ri_src0)
      (appends_bind _ _ _ _ (appends_value ctx (r_int_dst i) ri_dst0) (appends_bind _ _ _ _ (appends_value ctx (r_int_value i) ri_value0)
      (appends_bind _ _ _ _ (appends_value ctx (r_extra_flags i) ri_flags0) (appends_bind _ _ _ _ (appends_value ctx (r_fwd_fee i) ri_fee0)
      (appends_bind _ _ _ _ (appends_uint 64 _ _ ri_lt0) (appends_uint 32 _ _ ri_at0)))))))); [unfold is_byte; lia | lia].
  - cbn [fst snd app enc Codec_IntAddr Codec_ExtraFlags Codec_Tokens]. by rewrite app_nil_r.
Qed.

Lemma reads_relaxed_int i : relaxed_int_ok i -> reads load_from i (relaxed_int_bits i, (enc (r_int_value i)).2).
Proof.
  intros []. destruct i as [f1 f2 f3 src dst value extra fee lt at_].
  cbn [r_ihr_disabled r_bounce r_bounced r_int_src r_int_dst r_int_value r_extra_flags r_fwd_fee r_int_created_lt r_int_created_at] in *.
  destruct (int_flags_bits f1 f2 f3) as (Hf & E1 & E2 & E3). eapply reads_ext.
  - refine (reads_bind _ _ _ _ _ _ (reads_small 3 (int_flags f1 f2 f3) _ Hf) _); [lia|]. rewrite E1, E2, E3.
    refine (reads_bind _ _ _ _ _ _ (reads_opt_int src ri_src0) _). refine (reads_bind _ _ _ _ _ _ (reads_value dst ri_dst0) _).
    refine (reads_bind _ _ _ _ _ _ (reads_value value ri_value0) _). refine (reads_bind _ _ _ _ _ _ (reads_value extra ri_flags0) _).
    refine (reads_bind _ _ _ _ _ _ (reads_value fee ri_fee0) _). refine (reads_bind _ _ _ _ _ _ (reads_uint 64 lt _ ri_lt0) _).
    exact (reads_map (load_be 32) (mkRelaxedInt f1 f2 f3 src dst value extra fee lt) at_ _ (reads_uint 32 at_ _ ri_at0)).
  - cbn [fst snd app enc Codec_IntAddr Codec_ExtraFlags Codec_Tokens]. unfold relaxed_int_bits.
    cbn [r_ihr_disabled r_bounce r_bounced r_int_src r_int_dst r_int_value r_extra_flags r_fwd_fee r_int_created_lt r_int_created_at]. by rewrite app_nil_r.
Qed.

Record ext_in_ok (i : ExtInMsgInfo) : Prop := {
  ei_src : opt_ok ext_ok (in_src i); ei_dst : int_ok (in_dst i); ei_fee : 0 <= raw (import_fee i) < 2 ^ 120 }.
Definition ext_in_bits (i : ExtInMsgInfo) : list bool := ext_bits (in_src i) ++ int_bits (in_dst i) ++ var_enc 4 (raw (import_fee i)).

Lemma zlen_ext_in i : ext_in_ok i -> 2 + zlen (ext_in_bits i) = ext_in_bit_len i /\ 0 <= ext_in_bit_len i <= 1600.
Proof.
  intros []. unfold ext_in_bits, ext_in_bit_len. rewrite !zlen_app. destruct (zlen_ext _ ei_src0), (zlen_int _ ei_dst0), (zlen_tokens _ ei_fee0) as [Ef ?].
  change (enc (import_fee i)).1 with (var_enc 4 (raw (import_fee i))) in Ef. rewrite u16_small by lia. lia.
Qed.

Lemma reads_ext_in i : ext_in_ok i -> reads load_from i (ext_in_bits i, []).
Proof.
  intros []. destruct i as [src dst fee]. cbn [in_src in_dst import_fee] in *.
  eapply reads_ext.
  - refine (reads_bind _ _ _ _ _ _ (reads_ext_addr src ei_src0) _). refine (reads_bind _ _ _ _ _ _ (reads_value dst ei_dst0) _).
    exact (reads_map load_from (mkExtIn src dst) fee _ (reads_value fee ei_fee0)).
  - done.
Qed.

Record ext_out_ok (i : ExtOutMsgInfo) : Prop := {
  eo_src : int_ok (out_src i); eo_dst : opt_ok ext_ok (out_dst i);
  eo_lt : 0 <= out_created_lt i < 2 ^ 64; eo_at : 0 <= out_created_at i < 2 ^ 32 }.
Definition ext_out_bits (i : ExtOutMsgInfo) : list bool :=
  int_bits (out_src i) ++ ext_bits (out_dst i) ++ uint_bits 64 (out_created_lt i) ++ uint_bits 32 (out_created_at i).

Lemma zlen_ext_out i : ext_out_ok i -> 2 + zlen (ext_out_bits i) = ext_out_bit_len i /\ 0 <= ext_out_bit_len i <= 1600.
Proof.
  intros []. unfold ext_out_bits, ext_out_bit_len. rewrite !zlen_app, !zlen_uint_bits by lia. destruct (zlen_int _ eo_src0), (zlen_ext _ eo_dst0).
  rewrite u16_small by lia. lia.
Qed.

Lemma reads_ext_out i : ext_out_ok i -> reads load_from i (ext_out_bits i, []).
Proof.
  intros []. destruct i as [src dst lt at_]. cbn [out_src out_dst out_created_lt out_created_at] in *. eapply reads_ext.
  - refine (reads_bind _ _ _ _ _ _ (reads_value src eo_src0) _). refine (reads_bind _ _ _ _ _ _ (reads_ext_addr dst eo_dst0) _).
    refine (reads_bind _ _ _ _ _ _ (reads_uint 64 lt _ eo_lt0) _).
    exact (reads_map (load_be 32) (mkExtOut src dst lt) at_ _ (reads_uint 32 at_ _ eo_at0)).
  - done.
Qed.

Record relaxed_out_ok (i : RelaxedExtOutMsgInfo) : Prop := {
  ro_src : opt_ok int_ok (r_out_src i); ro_dst : opt_ok ext_ok (r_out_dst i);
  ro_lt : 0 <= r_out_created_lt i < 2 ^ 64; ro_at : 0 <= r_out_created_at i < 2 ^ 32 }.
Definition relaxed_out_bits (i : RelaxedExtOutMsgInfo) : list bool :=
  opt_int_bits (r_out_src i) ++ ext_bits (r_out_dst i) ++ uint_bits 64 (r_out_created_lt i) ++ uint_bits 32 (r_out_created_at i).

Lemma zlen_relaxed_out i : relaxed_out_ok i -> 2 + zlen (relaxed_out_bits i) = relaxed_ext_out_bit_len i /\ 0 <= relaxed_ext_out_bit_len i <= 1600.
Proof.
  intros []. unfold relaxed_out_bits, relaxed_ext_out_bit_len. rewrite !zlen_app, !zlen_uint_bits by lia. destruct (zlen_opt_int _ ro_src0), (zlen_ext _ ro_dst0).
  rewrite u16_small by lia. lia.
Qed.

Lemma reads_relaxed_out i : relaxed_out_ok i -> reads load_from i (relaxed_out_bits i, []).
Proof.
  intros []. destruct i as [src dst lt at_]. cbn [r_out_src r_out_dst r_out_created_lt r_out_created_at] in *. eapply reads_ext.
  - refine (reads_bind _ _ _ _ _ _ (reads_opt_int src ro_src0) _). refine (reads_bind _ _ _ _ _ _ (reads_ext_addr dst ro_dst0) _).
    refine (reads_bind _ _ _ _ _ _ (reads_uint 64 lt _ ro_lt0) _).
    exact (reads_map (load_be 32) (mkRelaxedExtOut src dst lt) at_ _ (reads_uint 32 at_ _ ro_at0)).
  - done.
Qed.
End Infos.

(** ** Loads stay within their cell *)

Create HintDb stays.

Lemma stays_bit : stays load_bit.
Proof. intros s v s'. unfold load_bit. repeat case_match; try done; by intros [= _ <-]. Qed.

Lemma stays_small n : stays (fun s => load_small_uint s n).
Proof. apply (stays_with n (fun s => get_small_uint s 0 n)). Qed.

Lemma stays_uint n : stays (fun s => load_uint s n).
Proof. apply (stays_with n (fun s => get_uint s 0 n)). Qed.

Lemma stays_hash : stays load_u256.
Proof. apply (stays_with 256 (fun s => get_u256 s 0)). Qed.

Lemma stays_u8 : stays load_u8.
Proof. apply (stays_be 8). Qed.
Lemma stays_u32 : stays load_u32.
Proof. apply (stays_be 32). Qed.
Lemma stays_u64 : stays load_u64.
Proof. apply (stays_be 64). Qed.

Lemma stays_raw_vec n : stays (fun s => load_raw_vec s n).
Proof.
  intros s v s'. unfold load_raw_vec. destruct (negb _); [done|].
  apply (stays_with n (fun s => get_raw s 0 (replicate (Z.to_nat (div_ceil n 8)) 0) n)).
Qed.

Lemma stays_result {A B} (r : result A) (h : A -> CellSlice -> result (B * CellSlice)) :
  (forall a, stays (h a)) -> stays (fun s => let! a := r in h a s).
Proof. intros Hh. destruct r; [apply Hh | done]. Qed.

#[export] Hint Resolve stays_done stays_error stays_be stays_ref stays_bit stays_small stays_uint stays_hash stays_u8 stays_u32 stays_u64 stays_raw_vec : stays.
#[export] Hint Extern 0 (stays load_from) => apply load_stays : stays.

Ltac stay := repeat first
  [ solve [eauto with stays]
  | refine (stays_bind _ _ _ _); [|intros ?]
  | refine (stays_result _ _ _); intros ?
  | case_match ].

#[export] Instance stays_cell : StaysInCell Cell := stays_ref.
#[export] Instance stays_option T `{StaysInCell T} : StaysInCell (option T).
Proof. unfold StaysInCell. cbv [load_from Load_option]. stay. Qed.

Lemma stays_u128 n : stays (fun s => Num.load_u128 s n).
Proof. unfold Num.load_u128. stay. Qed.
#[export] Hint Resolve stays_u128 : stays.

#[export] Instance stays_tokens : StaysInCell Tokens. Proof. unfold StaysInCell. cbv [load_from Load_Tokens]. stay. Qed.
#[export] Instance stays_small_int n : StaysInCell (Bounded 16 n). Proof. unfold StaysInCell. cbv [load_from Load_small]. stay. Qed.
#[export] Instance stays_depth : StaysInCell SplitDepth. Proof. unfold StaysInCell. cbv [load_from Load_SplitDepth]. stay. Qed.
#[export] Instance stays_special : StaysInCell SpecialFlags. Proof. unfold StaysInCell. cbv [load_from Load_SpecialFlags]. stay. Qed.
#[export] Instance stays_dict K V : StaysInCell (DictTyped.Dict K V).
Proof. unfold StaysInCell, load_from, Load_dict. apply stays_bind; [apply stays_option, stays_cell | intros; apply stays_done]. Qed.
#[export] Instance stays_extra : StaysInCell ExtraCurrencyCollection.
Proof. unfold StaysInCell, load_from, Load_extra. apply stays_bind; [apply stays_dict | intros; apply stays_done]. Qed.
#[export] Instance stays_currency : StaysInCell CurrencyCollection.
Proof. unfold StaysInCell, load_from, Load_currency. apply stays_bind; [apply stays_tokens | intros; apply stays_bind; [apply stays_extra | intros; apply stays_done]]. Qed.

Tactic Notation "stay_in" reference(inst) := unfold StaysInCell; unfold load_from at 1; unfold inst; stay.

#[export] Instance stays_anycast : StaysInCell Anycast. Proof. stay_in Load_Anycast. Qed.
#[export] Instance stays_int_addr : StaysInCell IntAddr. Proof. stay_in Load_IntAddr; unfold load_var_rest, load_std_rest; stay. Qed.

Lemma stays_ext_addr : stays load_ext_addr.
Proof. unfold load_ext_addr. stay. Qed.
Lemma stays_opt_int_addr : stays load_opt_int_addr.
Proof. unfold load_opt_int_addr. intros s v s' E. apply rbind_ok in E as (bit & _ & E). revert E. apply (fun H => H s v s'). stay. Qed.
#[export] Hint Resolve stays_ext_addr stays_opt_int_addr : stays.

Section Loads.
Context {flags : BitFlags}.

#[export] Instance stays_flags : StaysInCell MessageExtraFlags. Proof. stay_in Load_ExtraFlags. Qed.
#[export] Instance stays_int_msg : StaysInCell IntMsgInfo. Proof. stay_in Load_IntMsgInfo. Qed.
#[export] Instance stays_relaxed_int : StaysInCell RelaxedIntMsgInfo. Proof. stay_in Load_RelaxedIntMsgInfo. Qed.
#[export] Instance stays_ext_in : StaysInCell ExtInMsgInfo. Proof. stay_in Load_ExtInMsgInfo. Qed.
#[export] Instance stays_ext_out : StaysInCell ExtOutMsgInfo. Proof. stay_in Load_ExtOutMsgInfo. Qed.
#[export] Instance stays_relaxed_out : StaysInCell RelaxedExtOutMsgInfo. Proof. stay_in Load_RelaxedExtOutMsgInfo. Qed.
#[export] Instance stays_info : StaysInCell MsgInfo. Proof. stay_in Load_MsgInfo. Qed.
#[export] Instance stays_relaxed_info : StaysInCell RelaxedMsgInfo. Proof. stay_in Load_RelaxedMsgInfo. Qed.
End Loads.
#[export] Instance stays_state_init : StaysInCell StateInit. Proof. stay_in Load_StateInit. Qed.

(** ** Reading within a plain cell *)

(** There the children are found by [reference] and [reference_cloned] alike. *)
Definition reads_in {A} (g : CellSlice -> result (A * CellSlice)) (v : A) (x : list bool * list Cell) : Prop :=
  forall s l rs, slice_wf s -> plain (cell s) -> slice_bits s = x.1 ++ l -> slice_references s = x.2 ++ rs ->
    exists s', g s = Ok (v, s') /\ slice_wf s' /\ cell s' = cell s /\ slice_bits s' = l /\ slice_references s' = rs.

Lemma reads_stays {A} (g : CellSlice -> result (A * CellSlice)) v x : reads g v x -> stays g -> reads_in g v x.
Proof.
  intros Hr Hst s l rs Hs Hp Hb Hrs. destruct (Hr s l rs Hs Hb) as (s' & E & W & B & R).
  { unfold slice_references_cloned. by rewrite plain_window. }
  pose proof (Hst s v s' E) as Ec. exists s'. split_and!; try done. rewrite <- R. unfold slice_references_cloned.
  rewrite plain_window; [done|]. by rewrite Ec.
Qed.

Lemma reads_in_bind {A B} (g : CellSlice -> result (A * CellSlice)) (h : A -> CellSlice -> result (B * CellSlice)) v w x y :
  reads_in g v x -> reads_in (h v) w y -> reads_in (fun s => let! (a, s) := g s in h a s) w (x.1 ++ y.1, x.2 ++ y.2).
Proof.
  intros Hg Hh s l rs Hs Hp Hb Hr. cbn [fst snd] in *. rewrite <- app_assoc in Hb, Hr.
  destruct (Hg s _ _ Hs Hp Hb Hr) as (s1 & -> & W & C & B1 & R). cbn [rbind].
  destruct (Hh s1 l rs W) as (s2 & -> & ? & C2 & ?); [by rewrite C | done..|]. exists s2. split_and!; (done || by rewrite C2) || tauto.
Qed.

Lemma reads_in_map {A B} (g : CellSlice -> result (A * CellSlice)) (f : A -> B) v x :
  reads_in g v x -> reads_in (fun s => let! (a, s) := g s in Ok (f a, s)) (f v) x.
Proof. intros Hg s l rs Hs Hp Hb Hr. destruct (Hg s l rs Hs Hp Hb Hr) as (s' & -> & ?). by exists s'. Qed.

(** A value in a child cell *)
Lemma reads_child {T} `{Load T} (v : T) x c : reads load_from v x -> ordinary c x.1 x.2 ->
  reads_in (fun s => let! (child, s) := load_reference_as_slice s in let! (v, _) := load_from child in Ok (v, s)) v ([], [c]).
Proof.
  intros Hv Ho s l rs Hs Hp Hb Hr. cbn [fst snd app] in *.
  rewrite (load_child s c rs Hs Hr) by apply Ho. cbn [rbind]. destruct (ordinary_slice _ _ _ Ho) as (_ & W & B & _ & R).
  destruct (Hv (new_allow_exotic c) [] []) as (sc & -> & _); [done | by rewrite app_nil_r..|]. cbn [rbind].
  exists (advance_ref s). assert (1 <= refs_end (range s) - refs_start (range s)) as H1.
  { pose proof (f_equal length Hr) as Hl. unfold slice_references, refs_window in Hl. wf_facts s Hs.
    destruct (Z.leb_spec 1 (refs_end (range s) - refs_start (range s))); [done|].
    replace (Z.to_nat (refs_end (range s) - refs_start (range s))) with O in Hl by lia. done. }
  destruct (advance_ref_wf s Hs H1) as (W' & R' & _ & B'). split_and!; [done..| by rewrite B' | by rewrite R', Hr].
Qed.

(** ** What an info promises to the message *)

Class InfoLaws (I : Type) `{Store I} `{Load I} `{!ExactSize I} := {
  info_ok : I -> Prop;
  info_enc : I -> list bool * list Cell;
  (** The bits that the size of the info lacks *)
  info_slack : I -> Z;
  info_size i : info_ok i -> zlen (info_enc i).1 = bits (exact_size i) + info_slack i /\ zlen (info_enc i).2 = refs (exact_size i) /\
    0 <= bits (exact_size i) <= 1600 /\ 0 <= refs (exact_size i) <= 1 /\ 0 <= info_slack i <= 1;
  (** It may ask for the two bits of its tag once more. *)
  info_stored ctx i b : info_ok i -> builder_wf b -> store_into i ctx b = append_full b (info_enc i) \/
    (MAX_BIT_LEN < DataBuilder.bit_len (inner b) + zlen (info_enc i).1 + 2 /\ store_into i ctx b = Err CellOverflow);
  info_reads i : info_ok i -> reads_in load_from i (info_enc i);
}.

(** A check of the capacity behind a tag of two bits that counts them again *)
Lemma tagged_info v l n f b : is_byte v -> appends f (l, []) -> builder_wf b -> n = 2 + zlen l -> n <= 1600 ->
  let r := (let! b := on_data (fun d => store_small_uint d v 2) b in if negb (has_capacity b n 0) then Err CellOverflow else f b) in
  r = append_full b (uint_bits 2 v ++ l, []) \/
  (MAX_BIT_LEN < DataBuilder.bit_len (inner b) + zlen (uint_bits 2 v ++ l) + 2 /\ r = Err CellOverflow).
Proof.
  intros Hv Hf Hb Hn Hle. cbv zeta. rewrite (appends_small v 2 Hv ltac:(lia) b Hb). pose proof (zlen_nonneg l).
  rewrite zlen_app, zlen_uint_bits by lia. pose proof (append_full_append_full b (uint_bits 2 v, []) (l, []) Hb) as E. cbn [fst snd app] in E.
  destruct (append_full b (uint_bits 2 v, [])) as [c|e] eqn:Ec; [|left; by rewrite <- E]. cbn [rbind] in *.
  destruct (append_full_wf _ _ _ Hb Ec) as (Hc & Hcc & _ & _). destruct (has_capacity c n 0) eqn:Ecap; cbn [negb].
  - left. by rewrite Hf.
  - right. split; [|done]. pose proof (zlen_contents _ (proj1 Hc)) as Hz. cbn [fst] in Hcc. rewrite Hcc, zlen_app, zlen_uint_bits, zlen_contents in Hz by (apply Hb || lia).
    revert Ecap. destruct Hc as [(_ & _ & Hd & _) Hrefs]. unfold has_capacity, MAX_BIT_LEN, MAX_REF_COUNT in *. rewrite u16_small by lia.
    rewrite andb_false_iff, !Z.leb_gt. lia.
Qed.

Section InfoInstances.
Context {flags : BitFlags} {laws : BitFlagsLaws flags}.

Definition msg_info_ok (i : MsgInfo) : Prop := match i with MsgInt i => int_msg_ok i | MsgExtIn i => ext_in_ok i | MsgExtOut i => ext_out_ok i end.
Definition msg_info_enc (i : MsgInfo) : list bool * list Cell :=
  match i with
  | MsgInt i => (false :: int_msg_bits i, (enc (int_value i)).2)
  | MsgExtIn i => (true :: false :: ext_in_bits i, [])
  | MsgExtOut i => (true :: true :: ext_out_bits i, [])
  end.

Lemma appends_ext_in ctx i : ext_in_ok i ->
  appends (fun b => let! b := store_ext_addr b ctx (in_src i) in let! b := store_into (in_dst i) ctx b in store_into (import_fee i) ctx b) (ext_in_bits i, []).
Proof.
  intros []. exact (appends_bind _ _ _ _ (appends_ext_addr ctx _ ei_src0) (appends_bind _ _ _ _ (appends_value ctx (in_dst i) ei_dst0) (appends_value ctx (import_fee i) ei_fee0))).
Qed.

Lemma appends_ext_out ctx i : ext_out_ok i ->
  appends (fun b => let! b := store_into (out_src i) ctx b in let! b := store_ext_addr b ctx (out_dst i) in
    let! b := on_data (fun d => store_u64 d (out_created_lt i)) b in on_data (fun d => store_u32 d (out_created_at i)) b) (ext_out_bits i, []).
Proof.
  intros []. exact (appends_bind _ _ _ _ (appends_value ctx (out_src i) eo_src0) (appends_bind _ _ _ _ (appends_ext_addr ctx _ eo_dst0)
    (appends_bind _ _ _ _ (appends_uint 64 _ _ eo_lt0) (appends_uint 32 _ _ eo_at0)))).
Qed.

#[export] Program Instance InfoLaws_MsgInfo : InfoLaws MsgInfo := {
  info_ok := msg_info_ok; info_enc := msg_info_enc; info_slack i := b2z (MsgInfo.is_internal i) }.
Next Obligation.
  intros [i|i|i] Hi; cbn [msg_info_enc fst snd]; unfold exact_size, ExactSize_MsgInfo, MsgInfo.exact_size_const, MsgInfo.has_references;
    cbn [bits refs MsgInfo.bit_len MsgInfo.is_internal]; rewrite !zlen_cons.
  - destruct (zlen_int_msg i Hi), (zlen_currency _ (im_value i Hi)) as (_ & _ & -> & ?). cbn [b2z]. destruct (Extra.is_empty _); cbn [negb b2z]; lia.
  - destruct (zlen_ext_in i Hi). cbn [b2z]. change (zlen []) with 0. lia.
  - destruct (zlen_ext_out i Hi). cbn [b2z]. change (zlen []) with 0. lia.
Qed.
Next Obligation.
  intros ctx [i|i|i] b Hi Hb; cbn [msg_info_enc fst].
  - left. refine (appends_ext _ _ _ (appends_bind (fun b => on_data store_bit_zero b) _ ([false], []) _ _ (appends_int_msg ctx i Hi)) _ b Hb); [|done].
    apply appends_bits. intros d Hd. by apply store_bit_zero_spec.
  - destruct (zlen_ext_in i Hi) as [Hz Hle]. destruct (tagged_info 2 (ext_in_bits i) (ext_in_bit_len i) _ b ltac:(done) (appends_ext_in ctx i Hi) Hb) as [E|[Ho E]];
      [lia..|left|right; split; [exact Ho|]]; (etrans; [|exact E]); unfold store_into at 1, Store_MsgInfo;
      destruct (on_data _ b) as [c|]; try done; cbn [rbind]; unfold store_into at 1, Store_ExtInMsgInfo;
      rewrite valid_iff, (proj2 (Z.ltb_lt _ _)) by (lia || apply Hi); done.
  - destruct (zlen_ext_out i Hi) as [Hz Hle]. exact (tagged_info 3 (ext_out_bits i) (ext_out_bit_len i) _ b ltac:(done) (appends_ext_out ctx i Hi) Hb ltac:(lia) ltac:(lia)).
Qed.
Next Obligation.
  intros i Hi. apply reads_stays; [|apply load_stays]. destruct i as [i|i|i].
  - exact (reads_bind load_bit _ false _ ([false], []) _ (reads_bit false) (reads_map _ MsgInt _ _ (reads_int_msg i Hi))).
  - exact (reads_bind load_bit _ true _ ([true], []) _ (reads_bit true) (reads_bind load_bit _ false _ ([false], []) _ (reads_bit false) (reads_map _ MsgExtIn _ _ (reads_ext_in i Hi)))).
  - exact (reads_bind load_bit _ true _ ([true], []) _ (reads_bit true) (reads_bind load_bit _ true _ ([true], []) _ (reads_bit true) (reads_map _ MsgExtOut _ _ (reads_ext_out i Hi)))).
Qed.

Definition relaxed_info_ok (i : RelaxedMsgInfo) : Prop := match i with RelaxedInt i => relaxed_int_ok i | RelaxedExtOut i => relaxed_out_ok i end.
Definition relaxed_info_enc (i : RelaxedMsgInfo) : list bool * list Cell :=
  match i with
  | RelaxedInt i => (false :: relaxed_int_bits i, (enc (r_int_value i)).2)
  | RelaxedExtOut i => (true :: true :: relaxed_out_bits i, [])
  end.

Lemma appends_relaxed_out ctx i : relaxed_out_ok i -> appends (store_into i ctx) (relaxed_out_bits i, []).
Proof.
  intros []. exact (appends_bind _ _ _ _ (appends_opt_int ctx _ ro_src0) (appends_bind _ _ _ _ (appends_ext_addr ctx _ ro_dst0)
    (appends_bind _ _ _ _ (appends_uint 64 _ _ ro_lt0) (appends_uint 32 _ _ ro_at0)))).
Qed.

#[export] Program Instance InfoLaws_RelaxedMsgInfo : InfoLaws RelaxedMsgInfo := {
  info_ok := relaxed_info_ok; info_enc := relaxed_info_enc;
  info_slack i := match i with RelaxedInt _ => 1 | RelaxedExtOut _ => 0 end }.
Next Obligation.
  intros [i|i] Hi; cbn [relaxed_info_enc fst snd]; unfold exact_size, ExactSize_RelaxedMsgInfo, RelaxedMsgInfo.exact_size_const, RelaxedMsgInfo.has_references;
    cbn [bits refs RelaxedMsgInfo.bit_len]; rewrite !zlen_cons.
  - destruct (zlen_relaxed_int i Hi), (zlen_currency _ (ri_value i Hi)) as (_ & _ & -> & ?). destruct (Extra.is_empty _); cbn [negb b2z]; lia.
  - destruct (zlen_relaxed_out i Hi). cbn [b2z]. change (zlen []) with 0. lia.
Qed.
Next Obligation.
  intros ctx [i|i] b Hi Hb; left.
  - refine (appends_ext _ _ _ (appends_bind (fun b => on_data store_bit_zero b) _ ([false], []) _ _ (appends_relaxed_int ctx i Hi)) _ b Hb); [|done].
    apply appends_bits. intros d Hd. by apply store_bit_zero_spec.
  - exact (appends_bind _ _ _ _ (appends_small 3 2 ltac:(done) ltac:(done)) (appends_relaxed_out ctx i Hi) b Hb).
Qed.
Next Obligation.
  intros i Hi. apply reads_stays; [|apply load_stays]. destruct i as [i|i].
  - exact (reads_bind load_bit _ false _ ([false], []) _ (reads_bit false) (reads_map _ RelaxedInt _ _ (reads_relaxed_int i Hi))).
  - exact (reads_bind load_bit _ true _ ([true], []) _ (reads_bit true) (reads_bind load_bit _ true _ ([true], []) _ (reads_bit true) (reads_map _ RelaxedExtOut _ _ (reads_relaxed_out i Hi)))).
Qed.
End InfoInstances.

(** ** What a body promises to the message *)

Section Bodies.
(** The cells that a body refers to are less deep than [D]. *)
Context (ctx : CellContext) {laws : ContextLaws ctx} (D : Z) (HD : 0 <= D <= MAX_DEPTH).

Class BodyLaws (B : Type) `{StoreBody B} `{LoadBody B} `{!ExactSize B} := {
  body_ok : B -> Prop;
  body_content : B -> list bool * list Cell;
  (** The cell that holds the body alone *)
  body_cell : B -> Cell -> Prop;
  body_size v : body_ok v -> exact_size v = mkSize (zlen (body_content v).1) (zlen (body_content v).2) /\
    zlen (body_content v).1 <= MAX_BIT_LEN /\ zlen (body_content v).2 <= MAX_REF_COUNT;
  body_built v : body_ok v -> exists c, body_cell v c /\ cell_ok c /\ cdepth c <= D;
  body_refs v : body_ok v -> Forall cell_ok (body_content v).2 /\ Forall (fun r => cdepth r + 1 <= D) (body_content v).2;
  body_inline v : body_ok v -> appends (fun b => store_body v false b ctx) (body_content v);
  body_outside v c : body_ok v -> body_cell v c -> appends (fun b => store_body v true b ctx) ([], [c]);
  body_read v s : body_ok v -> slice_wf s -> plain (cell s) -> slice_bits s = (body_content v).1 -> slice_references s = (body_content v).2 ->
    exists w s', load_body false s = Ok (w, s') /\ body_content w = body_content v;
  body_followed v c s rs : body_ok v -> body_cell v c -> slice_wf s -> plain (cell s) -> slice_references s = c :: rs ->
    exists w s', load_body true s = Ok (w, s') /\ body_content w = body_content v;
}.

Definition slice_content (s : CellSlice) : list bool * list Cell := (slice_bits s, slice_references_cloned s).

Lemma appends_slice s : slice_wf s -> appends (store_into s ctx) (slice_content s).
Proof. intros Hs b Hb. by apply store_slice_spec. Qed.

Record slice_body_ok (s : CellSlice) : Prop := {
  sb_wf : slice_wf s; sb_refs : zlen (slice_references_cloned s) <= MAX_REF_COUNT;
  sb_cells : Forall cell_ok (slice_references_cloned s); sb_depth : Forall (fun r => cdepth r + 1 <= D) (slice_references_cloned s);
}.

Lemma slice_size s : slice_wf s -> exact_size s = mkSize (zlen (slice_content s).1) (zlen (slice_content s).2) /\ zlen (slice_content s).1 <= MAX_BIT_LEN.
Proof.
  intros Hs. cbn [slice_content fst snd]. rewrite zlen_slice_bits, zlen_slice_references_cloned by done. split; [done|].
  rewrite size_bits_eq by done. wf_facts s Hs. unfold MAX_BIT_LEN. lia.
Qed.

(** The contents in a cell of its own *)
Lemma finish_slice s : slice_body_ok s ->
  exists c, (let! b := store_into s ctx builder_new in build_ext ctx b) = Ok c /\ ordinary c (slice_content s).1 (slice_content s).2 /\ cell_ok c /\ cdepth c <= D.
Proof.
  intros []. destruct (slice_size s sb_wf0) as [_ Hz]. by apply (finish_cell ctx _ (slice_content s) D (appends_slice s sb_wf0)).
Qed.

Lemma full_content c l rs : ordinary c l rs -> slice_content (new_allow_exotic c) = (l, rs).
Proof. intros Ho. destruct (ordinary_slice _ _ _ Ho) as (_ & _ & B & _ & R). unfold slice_content. by rewrite B, R. Qed.

Definition slice_cell (s : CellSlice) (c : Cell) : Prop :=
  (let! b := store_into s ctx builder_new in build_ext ctx b) = Ok c /\ ordinary c (slice_content s).1 (slice_content s).2.

Lemma child_of_slice s c rs : slice_wf s -> slice_references s = c :: rs ->
  forall l k, ordinary c l k -> load_reference_as_slice s = Ok (new_allow_exotic c, advance_ref s).
Proof. intros Hs Hr l k Ho. apply (load_child s c rs); [done..|apply Ho]. Qed.

#[export] Program Instance BodyLaws_slice : BodyLaws CellSlice := {
  body_ok := slice_body_ok; body_content := slice_content; body_cell := slice_cell }.
Next Obligation. intros s []. destruct (slice_size s sb_wf0). done. Qed.
Next Obligation. intros s Hs. destruct (finish_slice s Hs) as (c & E & Ho & ? & ?). by exists c. Qed.
Next Obligation. intros s []. done. Qed.
Next Obligation. intros s []. by apply appends_slice. Qed.
Next Obligation.
  intros s c Hs [E Ho] b Hb. unfold store_body, StoreBody_slice, store_only_value_into. cbn [to_cell soc_value]. rewrite E. cbn [rbind].
  by apply store_reference_spec.
Qed.
Next Obligation.
  intros v s Hv Hs Hp Hb Hr. eexists _, _. split; [done|]. unfold slice_content. cbn [fst snd]. rewrite Hb. f_equal.
  unfold slice_references_cloned at 1. rewrite plain_window by done. exact Hr.
Qed.
Next Obligation.
  intros v c s rs Hv [E Ho] Hs Hp Hr. exists (new_allow_exotic c), (advance_ref s). split; [by eapply child_of_slice|].
  rewrite (full_content _ _ _ Ho). by destruct (slice_content v).
Qed.

Definition parts_slice (v : CellSliceParts) : CellSlice := mkSlice (v : CellSliceRange * Cell).2 (v : CellSliceRange * Cell).1.
Record parts_ok (v : CellSliceParts) : Prop := {
  pk_slice : slice_body_ok (parts_slice v);
  pk_ordinary : is_exotic (cell (parts_slice v)) = false;
  pk_cell : cell_ok (cell (parts_slice v)) /\ cdepth (cell (parts_slice v)) <= D;
}.
(** A body that is a whole cell is not copied. *)
Definition parts_cell (v : CellSliceParts) (c : Cell) : Prop :=
  if is_full (parts_slice v) then c = cell (parts_slice v) else slice_cell (parts_slice v) c.

Lemma apply_parts r c : slice_wf (mkSlice c r) -> is_exotic c = false -> apply r c = Ok (mkSlice c r).
Proof.
  intros [? ? ? ? ?] Hx. cbn [cell range] in *. unfold apply. rewrite Hx, !Z.min_l by lia. by destruct r.
Qed.

Lemma full_range r c : Range.is_full r c = true -> r = Range.full c.
Proof.
  unfold Range.is_full. rewrite !andb_true_iff, !Z.eqb_eq. destruct r as [a b d e]. cbn [bits_start bits_end refs_start refs_end].
  by intros [[[-> ->] ->] ->].
Qed.

Lemma cloned_reference s c rs : slice_wf s -> plain (cell s) -> slice_references s = c :: rs -> load_reference_cloned s = Ok (c, advance_ref s).
Proof.
  intros Hs Hp Hr. rewrite load_reference_cloned_spec by done. unfold slice_references_cloned. rewrite plain_window by done. fold (slice_references s). by rewrite Hr.
Qed.

#[local] Instance LoadBody_owned : LoadBody CellSliceParts := LoadBody_parts ctx.

#[export] Program Instance BodyLaws_parts : BodyLaws CellSliceParts := {
  body_ok := parts_ok; body_content v := slice_content (parts_slice v); body_cell := parts_cell }.
Next Obligation. intros [r c] [[] _ _]. by destruct (slice_size _ sb_wf0). Qed.
Next Obligation.
  intros v [Hs Hx Hc]. unfold parts_cell. destruct (is_full (parts_slice v)); [by exists (cell (parts_slice v))|].
  destruct (finish_slice _ Hs) as (c & E & Ho & ? & ?). by exists c.
Qed.
Next Obligation. intros v [[] _ _]. done. Qed.
Next Obligation.
  intros [r c] [[] Hx _] b Hb. unfold store_body, StoreBody_parts. cbn [andb]. rewrite apply_parts by done. cbn [rbind]. by apply appends_slice.
Qed.
Next Obligation.
  intros [r c] c' [[] Hx _] Hc b Hb. unfold parts_cell, is_full in Hc. cbn [parts_slice cell range fst snd] in *. unfold store_body, StoreBody_parts. cbn [andb].
  destruct (Range.is_full r c); [subst c'; by apply store_reference_spec|]. destruct Hc as [E Ho]. rewrite apply_parts by done. cbn [rbind].
  change (parts_slice (r, c)) with (mkSlice c r) in E.
  unfold store_only_value_into. cbn [to_cell soc_value]. rewrite E. cbn [rbind]. by apply store_reference_spec.
Qed.
Next Obligation.
  intros v s [[] Hx _] Hs Hp Hb Hr. unfold load_body, LoadBody_owned, LoadBody_parts. cbn [load_remaining].
  assert (slice_content s = slice_content (parts_slice v)) as Ec.
  { unfold slice_content. rewrite Hb. cbn [fst snd]. f_equal. unfold slice_references_cloned at 1. by rewrite plain_window. }
  destruct (finish_slice s) as (c & E & Ho & _).
  { injection Ec as Eb Er. split; [done|..]; by rewrite Er. }
  revert E. unfold store_into, Store_slice. destruct (store_slice builder_new s) as [b|]; [|done]. cbn [rbind]. intros ->. cbn [rbind].
  eexists _, _. split; [done|]. change (parts_slice (Range.full c, c)) with (new_allow_exotic c). rewrite (full_content _ _ _ Ho). by destruct (slice_content (parts_slice v)).
Qed.
Next Obligation.
  intros v c s rs [[] Hx _] Hc Hs Hp Hr. unfold load_body, LoadBody_owned, LoadBody_parts. rewrite (cloned_reference s c rs) by done. cbn [rbind].
  eexists _, _. split; [done|]. change (parts_slice (Range.full c, c)) with (new_allow_exotic c). unfold parts_cell in Hc.
  destruct (is_full (parts_slice v)) eqn:Ef.
  - subst c. destruct v as [r c]. apply full_range in Ef. cbn [parts_slice cell range fst snd] in *. by subst r.
  - destruct Hc as [_ Ho]. rewrite (full_content _ _ _ Ho). by destruct (slice_content (parts_slice v)).
Qed.
End Bodies.

(** ** Layouts *)

Lemma zlen_state_init (v : StateInit) : zlen (enc v).1 = StateInit.bit_len v /\ zlen (enc v).2 = StateInit.reference_count v /\
  0 <= StateInit.bit_len v <= 12 /\ 0 <= StateInit.reference_count v <= 3.
Proof.
  destruct v as [[d|] [[t u]|] [c|] [e|] [[l|]]]; unfold StateInit.bit_len, StateInit.reference_count;
    cbn [split_depth special code si_data libraries is_some b2z negb Dict.is_empty dict_root];
    repeat split; unfold SplitDepth.BITS, SPECIAL_BITS; try lia;
    cbn [enc Codec_StateInit codec_via Codec_pair Codec_option Codec_dict fst snd split_depth special code si_data libraries dict_root Codec_cell Codec_SplitDepth Codec_SpecialFlags app];
    rewrite ?zlen_cons, ?zlen_app, ?zlen_cons, ?zlen_uint_bits by lia; done.
Qed.

Definition fits (s : Size) : bool := (bits s <=? MAX_BIT_LEN) && (refs s <=? MAX_REF_COUNT).
Definition candidates : list MessageLayout := [mkLayout false false; mkLayout false true; mkLayout true false; mkLayout true true].
Definition first_fit (info : Size) (init : option StateInit) (body : Size) : MessageLayout :=
  default (mkLayout true true) (List.find (fun l => fits (Layout.compute_full_size l info init body)) candidates).

Definition size_in (max_bits max_refs : Z) (s : Size) : Prop := 0 <= bits s <= max_bits /\ 0 <= refs s <= max_refs.

Lemma detailed_sizes info init body : size_in 2000 4 info ->
  let l := detailed_compute info init body in
  size_in 2003 4 (l_info l) /\ size_in 12 3 (l_init l) /\ l_body l = body /\
  l_info l = mkSize (bits info + 2 + b2z (is_some init)) (refs info) /\
  l_init l = match init with Some v => mkSize (zlen (enc v).1) (zlen (enc v).2) | None => Sizes.ZERO end.
Proof.
  intros [Hb Hr]. unfold detailed_compute, size_in. destruct init as [v|]; cbn [l_info l_init l_body bits refs is_some b2z];
    rewrite ?(u16_small (bits info + 2)), ?u16_small by lia.
  - destruct (zlen_state_init v) as (-> & -> & ? & ?). unfold StateInit.exact_size_const. cbn [bits refs]. split_and!; (done || lia).
  - rewrite Z.add_0_r. cbn [Sizes.ZERO bits refs]. split_and!; (done || lia).
Qed.

Lemma full_size_sum l info init body : size_in 2000 4 info -> size_in 1023 4 body ->
  let d := detailed_compute info init body in
  Layout.compute_full_size l info init body =
    mkSize (bits (l_info d) + (if init_to_cell l then 0 else bits (l_init d)) + (if body_to_cell l then 0 else bits body))
      (refs (l_info d) + (if init_to_cell l then 1 else refs (l_init d)) + (if body_to_cell l then 1 else refs body)).
Proof.
  intros Hi [Hbb Hbr]. destruct (detailed_sizes info init body Hi) as ([Hlb Hlr] & [Hib Hir] & Eb & _). cbv zeta.
  unfold Layout.compute_full_size. rewrite Eb. destruct (detailed_compute info init body) as [[lb lr] [ib ir] b'], l as [[] []]; cbn [l_info l_init bits refs] in *;
    cbn [Layout.append_part init_to_cell body_to_cell bits refs]; rewrite ?(u16_small (lb + ib)), ?(u8_small (lr + ir)), ?(u8_small (lr + 1)) by lia;
    rewrite ?u16_small, ?u8_small by lia; f_equal; lia.
Qed.

Lemma compute_first_fit info init body : size_in 2000 4 info -> size_in 1023 4 body ->
  Layout.compute info init body = (first_fit info init body, Layout.compute_full_size (first_fit info init body) info init body).
Proof.
  intros Hi Hbody. unfold first_fit, candidates. cbn [List.find]. rewrite !full_size_sum by done. unfold Layout.compute.
  destruct (detailed_sizes info init body Hi) as ([Hlb Hlr] & [Hib Hir] & Eb & _). rewrite Eb. destruct Hbody as [Hbb Hbr].
  destruct (detailed_compute info init body) as [[lb lr] [ib ir] b'], body as [bb br]. cbn [l_info l_init bits refs] in *.
  cbn [init_to_cell body_to_cell]. unfold fits, MAX_BIT_LEN, MAX_REF_COUNT. cbn [bits refs].
  rewrite (u16_small (lb + ib)), (u8_small (lr + ir)), (u16_small (lb + bb)), (u8_small (lr + br)), (u16_small (lb + ib + bb)), (u8_small (lr + ir + br)) by lia.
  rewrite (u8_small (lr + ir + 1)), (u8_small (lr + br + 1)), (u8_small (lr + 2)) by lia.
  rewrite !Z.add_0_r. replace (lr + 1 + br) with (lr + br + 1) by lia. replace (lr + 1 + 1) with (lr + 2) by lia.
  assert (forall x, (x <? 4) = (x + 1 <=? 4)) as E4 by (intros x; zcases; (done || lia)). rewrite !E4.
  destruct ((lb + ib + bb <=? 1023) && (lr + ir + br <=? 4)), ((lb + ib <=? 1023) && (lr + ir + 1 <=? 4)), ((lb + bb <=? 1023) && (lr + br + 1 <=? 4)),
    ((lb <=? 1023) && (lr + 2 <=? 4)); cbn [default from_option id init_to_cell body_to_cell]; do 2 f_equal; lia.
Qed.

(** ** Messages *)

Section Messages.
Context (ctx : CellContext) {laws : ContextLaws ctx} (D : Z) (HD : 0 <= D < MAX_DEPTH).
Context {I B : Type} `{InfoLaws I} {SB : StoreBody B} {LB : LoadBody B} {XB : ExactSize B} {BL : BodyLaws ctx D B}.
Implicit Type m : BaseMessage I B.

Record message_ok m : Prop := {
  mo_info : info_ok (info m);
  mo_init : match init m with Some v => enc_ok v /\ Forall cell_ok (enc v).2 /\ Forall (fun r => cdepth r + 1 <= D) (enc v).2 | None => True end;
  mo_body : body_ok ctx D (body m);
  mo_cells : Forall cell_ok (info_enc (info m)).2 /\ Forall (fun r => cdepth r <= D) (info_enc (info m)).2;
}.

(** The parts in the cell of the message, and behind a reference *)
Definition init_part (l : MessageLayout) (init : option StateInit) (child : Cell) : list bool * list Cell :=
  match init with
  | Some v => if init_to_cell l then ([true; true], [child]) else (true :: false :: (enc v).1, (enc v).2)
  | None => ([false], [])
  end.
Definition body_part (l : MessageLayout) (v : B) (child : Cell) : list bool * list Cell :=
  if body_to_cell l then ([true], [child]) else (false :: (body_content ctx D v).1, (body_content ctx D v).2).
Definition message_enc (l : MessageLayout) m (ci cb : Cell) : list bool * list Cell :=
  let i := info_enc (info m) in let n := init_part l (init m) ci in let b := body_part l (body m) cb in
  (i.1 ++ n.1 ++ b.1, i.2 ++ n.2 ++ b.2).

Definition init_cell (v : StateInit) (c : Cell) : Prop :=
  (let! b := store_into v ctx builder_new in build_ext ctx b) = Ok c /\ ordinary c (enc v).1 (enc v).2 /\ cell_ok c /\ cdepth c <= D.

Lemma init_built (v : StateInit) : enc_ok v -> Forall cell_ok (enc v).2 -> Forall (fun r => cdepth r + 1 <= D) (enc v).2 -> exists c, init_cell v c.
Proof.
  intros Hv Hok Hd. destruct (zlen_state_init v) as (Hz & Hr & ? & ?).
  destruct (finish_cell ctx _ _ D (appends_value ctx v Hv)) as (c & E & Ho & ? & ?); [unfold MAX_BIT_LEN; lia | unfold MAX_REF_COUNT; lia | done | lia | done |].
  by exists c.
Qed.

Lemma appends_init l init child : match init with Some v => enc_ok v /\ init_cell v child | None => True end ->
  appends (fun b => match init with
    | Some value => let! b := on_data store_bit_one b in store_into (mkSliceOrCell (init_to_cell l) value) ctx b
    | None => on_data store_bit_zero b end) (init_part l init child).
Proof.
  intros Hi. destruct init as [v|]; cbn [init_part].
  - destruct Hi as (Hv & E & Ho & _).
    assert (appends (fun b => on_data store_bit_one b) ([true], [])) as Hone by (apply appends_bits; intros d Hd; by apply store_bit_one_spec).
    assert (forall c, appends (fun b => store_reference b c) ([], [c])) as Href by (intros c b Hb; by apply store_reference_spec).
    unfold store_into at 1, Store_SliceOrCell, store_only_value_into. cbn [to_cell soc_value]. rewrite E. destruct (init_to_cell l).
    + exact (appends_bind _ _ _ _ Hone (appends_bind _ _ _ _ (appends_bit true) (Href child))).
    + exact (appends_bind _ _ _ _ Hone (appends_bind _ _ _ _ (appends_bit false) (appends_value ctx v Hv))).
  - apply appends_bits. intros d Hd. by apply store_bit_zero_spec.
Qed.

Lemma appends_body l v child : body_ok ctx D v -> body_cell ctx D v child ->
  appends (fun b => let! b := on_data (fun d => store_bit d (body_to_cell l)) b in store_body v (body_to_cell l) b ctx) (body_part l v child).
Proof.
  intros Hv Hc. unfold body_part. destruct (body_to_cell l).
  - exact (appends_bind _ _ _ _ (appends_bit true) (body_outside ctx D v child Hv Hc)).
  - exact (appends_bind _ _ _ _ (appends_bit false) (body_inline ctx D v Hv)).
Qed.

(** With the capacity that is checked, a message is appended, whatever the slack of its info. *)
Lemma store_message m ci cb b : message_ok m -> builder_wf b ->
  match init m with Some v => init_cell v ci | None => True end -> body_cell ctx D (body m) cb ->
  store_into m ctx b = let (l, size) := message_layout m in
    if negb (has_capacity b (bits size) (refs size)) then Err CellOverflow else append_full b (message_enc l m ci cb).
Proof.
  intros Hm Hb Hci Hcb. unfold store_into at 1, Store_Message. destruct (message_layout m) as [l size].
  destruct (negb _); [done|]. pose proof (appends_init l (init m) ci) as Hi. pose proof (appends_body l (body m) cb (mo_body m Hm) Hcb) as Hbody.
  assert (appends (fun b => let! b := match init m with
      | Some value => let! b := on_data store_bit_one b in store_into (mkSliceOrCell (init_to_cell l) value) ctx b
      | None => on_data store_bit_zero b end in
      let! b := on_data (fun d => store_bit d (body_to_cell l)) b in store_body (body m) (body_to_cell l) b ctx)
    ((init_part l (init m) ci).1 ++ (body_part l (body m) cb).1, (init_part l (init m) ci).2 ++ (body_part l (body m) cb).2)) as Hrest.
  { apply (appends_bind _ _ _ _); [apply Hi | exact Hbody]. pose proof (mo_init m Hm) as Hmi. destruct (init m); [|done]. by destruct Hmi. }
  destruct (info_stored ctx (info m) b (mo_info m Hm) Hb) as [E|[Ho E]]; rewrite E.
  - exact (append_bind b _ _ _ Hb Hrest).
  - cbn [rbind]. unfold append_full, message_enc. cbn [fst snd]. rewrite !zlen_app.
    assert (1 <= zlen (init_part l (init m) ci).1 /\ 1 <= zlen (body_part l (body m) cb).1) as [? ?].
    { unfold init_part, body_part. split; [destruct (init m), (init_to_cell l)|destruct (body_to_cell l)]; cbn [fst]; rewrite ?zlen_cons;
        try pose proof (zlen_nonneg (enc s).1); try pose proof (zlen_nonneg (body_content ctx D (body m)).1); change (zlen []) with 0 || idtac; lia. }
    by rewrite (proj2 (Z.leb_gt _ _)) by lia.
Qed.

Lemma reads_init l init child : match init with Some v => enc_ok v /\ init_cell v child | None => True end ->
  reads_in load_from (mkSliceOrCell (init_to_cell l) <$> init) (init_part l init child).
Proof.
  intros Hi. destruct init as [v|]; cbn [init_part fmap option_fmap option_map].
  - destruct Hi as (Hv & _ & Ho & _).
    assert (reads_in load_from (mkSliceOrCell (init_to_cell l) v) (if init_to_cell l then ([true], [child]) else (false :: (enc v).1, (enc v).2))) as Hs.
    { unfold load_from, Load_SliceOrCell. destruct (init_to_cell l).
      - refine (reads_in_bind load_bit _ true _ ([true], []) ([], [child]) (reads_stays _ _ _ (reads_bit true) stays_bit) _).
        intros s l0 rs Hs Hp Hb Hr. destruct (reads_child v (enc v) child (reads_value v Hv) Ho s l0 rs Hs Hp Hb Hr) as (s' & E & ?).
        exists s'. split; [|done]. destruct (load_reference_as_slice s) as [[cs s1]|]; [|done]. cbn [rbind] in *.
        destruct (load_from cs) as [[w s2]|]; [|done]. cbn [rbind] in *. by injection E as -> ->.
      - exact (reads_in_bind load_bit _ false _ ([false], []) _ (reads_stays _ _ _ (reads_bit false) stays_bit)
          (reads_in_map load_from (mkSliceOrCell false) v _ (reads_stays _ _ _ (reads_value v Hv) load_stays))). }
    set (x := if init_to_cell l then ([true], [child]) else _) in Hs.
    assert ((if init_to_cell l then ([true; true], [child]) else (true :: false :: (enc v).1, (enc v).2)) = ([true] ++ x.1, [] ++ x.2)) as -> by (subst x; by destruct (init_to_cell l)).
    exact (reads_in_bind load_bit _ true _ ([true], []) x (reads_stays _ _ _ (reads_bit true) stays_bit) (reads_in_map load_from Some _ _ Hs)).
  - exact (reads_in_bind load_bit _ false _ ([false], []) ([], []) (reads_stays _ _ _ (reads_bit false) stays_bit)
      (reads_stays _ _ _ (reads_done None) (stays_done None))).
Qed.

(** What is read of a message: the layout says how the parts were stored. *)
Definition read_layout (l : MessageLayout) (init : option StateInit) : MessageLayout := mkLayout (is_some init && init_to_cell l) (body_to_cell l).

Lemma load_message l m ci cb c : message_ok m -> match init m with Some v => init_cell v ci | None => True end -> body_cell ctx D (body m) cb ->
  ordinary c (message_enc l m ci cb).1 (message_enc l m ci cb).2 ->
  exists w, parse c = Ok (mkMessage (info m) (init m) w (Some (read_layout l (init m)))) /\ body_content ctx D w = body_content ctx D (body m).
Proof.
  intros Hm Hci Hcb Ho. destruct (ordinary_slice _ _ _ Ho) as (Es & W & Bt & R & _). pose proof (oc_plain _ _ _ Ho) as Hp.
  unfold parse. rewrite Es. cbn [rbind]. unfold load_from at 1, Load_Message. unfold message_enc in Bt, R. cbn [fst snd] in Bt, R.
  destruct (info_reads (info m) (mo_info m Hm) (new_allow_exotic c) _ _ W Hp Bt R) as (s1 & -> & W1 & C1 & B1 & R1). cbn [rbind].
  assert (match init m with Some v => enc_ok v /\ init_cell v ci | None => True end) as Hi.
  { pose proof (mo_init m Hm) as Hmi. destruct (init m); [|done]. by destruct Hmi. }
  destruct (reads_init l (init m) ci Hi s1 _ _ W1 ltac:(by rewrite C1) B1 R1) as (s2 & -> & W2 & C2 & B2 & R2). cbn [rbind].
  assert (plain (cell s2)) as Hp2 by by rewrite C2, C1.
  assert (exists w s3, (let! (body_to_cell, s) := load_bit s2 in let! (b, s) := load_body body_to_cell s in Ok (body_to_cell, b, s)) = Ok (body_to_cell l, w, s3) /\
    body_content ctx D w = body_content ctx D (body m)) as (w & s3 & E & Ew).
  { unfold body_part in B2, R2. destruct (body_to_cell l); cbn [fst snd] in B2, R2.
    - destruct (reads_stays _ _ _ (reads_bit true) stays_bit s2 [] [cb] W2 Hp2 B2 R2) as (s3 & -> & W3 & C3 & B3 & R3). cbn [rbind].
      destruct (body_followed ctx D (body m) cb s3 [] (mo_body m Hm) Hcb W3 ltac:(by rewrite C3) R3) as (w & s4 & -> & Ew). by exists w, s4.
    - destruct (reads_stays _ _ _ (reads_bit false) stays_bit s2 _ _ W2 Hp2 B2 R2) as (s3 & -> & W3 & C3 & B3 & R3). cbn [rbind].
      destruct (body_read ctx D (body m) s3 (mo_body m Hm) W3 ltac:(by rewrite C3) B3 R3) as (w & s4 & -> & Ew). by exists w, s4. }
  exists w. split; [|exact Ew]. destruct (load_bit s2) as [[bit s4]|]; [|done]. cbn [rbind] in *. destruct (load_body bit s4) as [[w' s5]|]; [|done].
  cbn [rbind] in *. injection E as -> -> ->. unfold read_layout. by destruct (init m).
Qed.

(** The size that a message is taken to have is that of its encoding, but for the slack of
    the info, and for a reference too much where the layout has a cell for no init. *)
Lemma message_size m ci cb : message_ok m -> let (l, size) := message_layout m in
  zlen (message_enc l m ci cb).1 = bits size + info_slack (info m) /\
  zlen (message_enc l m ci cb).2 = refs size - b2z (negb (is_some (init m)) && init_to_cell l) /\ 0 <= bits size <= 4000 /\ 0 <= refs size.
Proof.
  intros Hm. destruct (info_size (info m) (mo_info m Hm)) as (Eb & Er & Hib & Hir & Hsl). destruct (body_size ctx D (body m) (mo_body m Hm)) as (Ex & Hbb & Hbr).
  pose proof (zlen_nonneg (body_content ctx D (body m)).1). pose proof (zlen_nonneg (body_content ctx D (body m)).2). unfold MAX_BIT_LEN, MAX_REF_COUNT in *.
  assert (size_in 2000 4 (exact_size (info m))) as Hin by (split; lia).
  assert (size_in 1023 4 (exact_size (body m))) as Hbn by (rewrite Ex; split; cbn [bits refs]; lia).
  unfold message_layout. assert (exists l, message_layout m = (l, Layout.compute_full_size l (exact_size (info m)) (init m) (exact_size (body m)))) as [l El].
  { unfold message_layout. destruct (layout m) as [l|]; [by exists l|]. exists (first_fit (exact_size (info m)) (init m) (exact_size (body m))). by apply compute_first_fit. }
  unfold message_layout in El. rewrite El. clear El. rewrite (full_size_sum l _ (init m) _ Hin Hbn).
  destruct (detailed_sizes (exact_size (info m)) (init m) (exact_size (body m)) Hin) as (Hl & Hi & _ & E1 & E2). rewrite E1, E2, Ex. cbn [bits refs].
  unfold message_enc, init_part, body_part. cbn [fst snd]. rewrite !zlen_app, Eb, Er.
  destruct (init m) as [v|]; [destruct (zlen_state_init v) as (? & ? & ? & ?)|]; destruct l as [[] []]; cbn [init_to_cell body_to_cell is_some b2z negb andb fst snd bits refs Sizes.ZERO];
    rewrite ?zlen_cons; change (zlen (@nil bool)) with 0; change (zlen (@nil Cell)) with 0; lia.
Qed.

Lemma message_cells l m ci cb : message_ok m -> match init m with Some v => init_cell v ci | None => True end -> cell_ok cb /\ cdepth cb <= D ->
  Forall cell_ok (message_enc l m ci cb).2 /\ Forall (fun r => cdepth r + 1 <= D + 1) (message_enc l m ci cb).2.
Proof.
  intros Hm Hci [Hok Hdep]. pose proof (mo_cells m Hm) as [Hi1 Hi2]. pose proof (mo_init m Hm) as Hmi. destruct (body_refs ctx D (body m) (mo_body m Hm)) as [Hb1 Hb2].
  assert (Forall cell_ok (init_part l (init m) ci).2 /\ Forall (fun r => cdepth r <= D) (init_part l (init m) ci).2) as [Hn1 Hn2].
  { unfold init_part. destruct (init m) as [v|]; [|done]. destruct Hci as (_ & _ & ? & ?), Hmi as (_ & ? & Hd). destruct (init_to_cell l); cbn [snd].
    - by repeat constructor.
    - split; [done|]. eapply list.Forall_impl; [exact Hd | simpl; lia]. }
  assert (Forall cell_ok (body_part l (body m) cb).2 /\ Forall (fun r => cdepth r <= D) (body_part l (body m) cb).2) as [Hp1 Hp2].
  { unfold body_part. destruct (body_to_cell l); cbn [snd]; [by repeat constructor|]. split; [done|]. eapply list.Forall_impl; [exact Hb2 | simpl; lia]. }
  unfold message_enc. cbn [snd]. split; [by repeat (apply Forall_app; split)|].
  apply (list.Forall_impl (fun r => cdepth r <= D)); [by repeat (apply Forall_app; split) | simpl; lia].
Qed.
End Messages.

(** [C28] The layout that is computed for the parts of a message is the first of the four that
    fits into a cell, with the state init and the body in place, then the body behind a
    reference, then the state init, then both; the size computed with it is the size
    of that layout, and it fits if any layout does. *)
Theorem message_layout_first_fit (info : Size) (init : option StateInit) (body : Size) :
  size_in 2000 4 info -> size_in 1023 4 body ->
  let (l, size) := Layout.compute info init body in
  l = first_fit info init body /\ size = Layout.compute_full_size l info init body /\
  (forall l', fits (Layout.compute_full_size l' info init body) = true -> fits size = true).
Proof.
  intros Hi Hb. rewrite compute_first_fit by done. split; [done|]. split; [done|]. intros l' Hl. unfold first_fit.
  destruct (List.find _ candidates) as [l|] eqn:E; [by apply List.find_some in E as [_ E]|].
  pose proof (List.find_none _ _ E l') as Hn. cbv beta in Hn. rewrite Hn in Hl; [done|]. destruct l' as [[] []]; cbn; tauto.
Qed.

(** [C27] A message with an internal or external info, a state init or none and a body, is built
    into a cell by the layout that it has or that is computed, if the parts fit, and is
    refused with [CellOverflow] otherwise; parsed back, it has the same info and init, a body
    of the same contents, and the layout that was used.  The size the code computes
    for an internal message lacks one bit. *)
Theorem message_roundtrip ctx {laws : ContextLaws ctx} D {I B : Type} `{InfoLaws I} {SB : StoreBody B} {LB : LoadBody B} {XB : ExactSize B}
    {BL : BodyLaws ctx D B} (m : BaseMessage I B) :
  0 <= D < MAX_DEPTH -> message_ok ctx D m ->
  let (l, size) := message_layout m in
  if (bits size + info_slack (info m) <=? MAX_BIT_LEN) && (refs size <=? MAX_REF_COUNT) then
    exists c body', build_from_ext m ctx = Ok c /\ parse c = Ok (mkMessage (info m) (init m) body' (Some (read_layout l (init m)))) /\
      body_content ctx D body' = body_content ctx D (body m)
  else build_from_ext m ctx = Err CellOverflow.
Proof.
  intros HD Hm. destruct (body_built ctx D (body m) (mo_body _ _ m Hm)) as (cb & Hcb & Hok & Hdep).
  assert (exists ci, match init m with Some v => init_cell ctx D v ci | None => True end) as [ci Hci].
  { pose proof (mo_init _ _ m Hm) as Hmi. destruct (init m) as [v|]; [|by exists cb]. destruct Hmi as (? & ? & ?). by apply init_built. }
  pose proof (message_size ctx D HD m ci cb Hm) as Hsz. pose proof (store_message ctx D HD m ci cb builder_new Hm builder_new_wf Hci Hcb) as Hst.
  destruct (info_size (info m) (mo_info _ _ m Hm)) as (_ & _ & _ & _ & Hsl).
  unfold build_from_ext. rewrite Hst. clear Hst. destruct (message_layout m) as [l size] eqn:El. destruct Hsz as (Hzb & Hzr & Hrb & Hrr).
  unfold has_capacity. change (DataBuilder.bit_len (inner builder_new)) with 0. change (zlen (b_refs builder_new)) with 0. rewrite !Z.add_0_l, u16_small by lia.
  destruct (Z.leb_spec (bits size + info_slack (info m)) MAX_BIT_LEN) as [Hb|Hb]; cbn [andb]; cycle 1.
  { destruct ((bits size <=? MAX_BIT_LEN) && (refs size <=? MAX_REF_COUNT)); cbn [negb]; [|done]. rewrite append_full_overflow; [done|]. left. apply Z.leb_gt.
    change (zlen (@nil Cell)) with 0 in *. lia. }
  rewrite (proj2 (Z.leb_le (bits size) MAX_BIT_LEN)) by lia. cbn [andb]. destruct (Z.leb_spec (refs size) MAX_REF_COUNT) as [Hr|]; [|done]. cbn [negb].
  set (x := message_enc ctx D l m ci cb) in *.
  destruct (message_cells ctx D HD l m ci cb Hm Hci (conj Hok Hdep)) as [Hxo Hxd]. fold x in Hxo, Hxd.
  destruct (finish_cell ctx (fun b => append_full b x) x (D + 1)) as (c & Ec & Ho & _); [done | lia | destruct (negb _ && _) in Hzr; cbn [b2z] in Hzr; lia | done | unfold MAX_DEPTH in *; lia | done |].
  destruct (load_message ctx D l m ci cb c Hm Hci Hcb Ho) as (w & Ep & Ew). exists c, w. split; [exact Ec|]. split; [exact Ep | exact Ew].
Qed.

(** ** Concrete inputs *)

Definition sample_flags : BitFlags := {| flags_from_bits b := if b <? 4 then Some b else None |}.

Lemma sample_flags_laws : BitFlagsLaws sample_flags.
Proof. by intros b _. Qed.

(** An external message to an account, with a state init; its empty body is stored in a child. *)
Definition sample_message : BaseMessage MsgInfo CellSlice :=
  mkMessage (MsgExtIn (mkExtIn None (IntStd sample_std) (mkBounded 128 120 7))) (Some (mkStateInit (Some (mkDepth 2)) None None None Dict.new))
    (new_allow_exotic EmptyOrdinaryCell) (Some (mkLayout false true)).

Lemma sample_body_ok : slice_body_ok sample_ctx 0 (new_allow_exotic EmptyOrdinaryCell).
Proof. split; [apply slice_new_wf, sample_wf; right; by left | done | by constructor | by constructor]. Qed.

Lemma sample_message_ok :
  message_ok (H1 := InfoLaws_MsgInfo (laws := sample_flags_laws)) (BL := BodyLaws_slice sample_ctx 0 ltac:(done)) sample_ctx 0 sample_message.
Proof.
  split.
  - split; [done | exact sample_std_ok | cbn; lia].
  - split; [|by split; constructor]. split; [cbn; lia | done].
  - exact sample_body_ok.
  - by split; constructor.
Qed.

Lemma message_roundtrip_witness :
  exists c body', build_from_ext sample_message sample_ctx = Ok c /\
    parse (H := Load_Message (H := Load_MsgInfo (H := sample_flags))) c = Ok (mkMessage (info sample_message) (init sample_message) body' (Some (mkLayout false true))).
Proof.
  pose proof (message_roundtrip (H1 := InfoLaws_MsgInfo (laws := sample_flags_laws)) (BL := BodyLaws_slice sample_ctx 0 ltac:(done)) sample_ctx 0 sample_message
    ltac:(done) sample_message_ok) as H. destruct H as (c & body' & E & P & _). exists c, body'. split; [exact E | exact P].
Defined.

(** A body of a full cell goes behind a reference. *)
Lemma message_layout_first_fit_witness :
  Layout.compute (mkSize 275 0) None (mkSize 1023 4) = (mkLayout false true, mkSize 277 1).
Proof.
  pose proof (message_layout_first_fit (mkSize 275 0) None (mkSize 1023 4) ltac:(done) ltac:(done)) as H. revert H.
  destruct (Layout.compute _ _ _) as [l size] eqn:E. intros (_ & Es & _). rewrite Es. by injection E as <- _.
Defined.
